(* ===== verification/_CoqProject ===== *)
-Q . S2P
Prelude.v
GoStrings.v
GoJson.v
GoRegexp.v
GoPath.v
Glob.v
Cache.v
Singleflight.v
ToolCache.v
Routing.v
Hlc.v
Shellmeta.v
Toolgate.v
ApprovalPolicy.v
Approval.v
Replication.v
JobHeap.v
Cron.v
Netguard.v
TaskStore.v
TaskLease.v
Gossip.v
GoFilepath.v
Sanitize.v
Pathguard.v
Cmdguard.v
Shellhook.v
PairingLimit.v
Outbound.v
Monitoring.v
Incident.v
IncidentStore.v
Escalate.v
Harness.v
AdminGate.v
Gates.v
CachingLister.v
ResultJson.v
ErrorTracker.v
JsonSize.v
ScopePolicy.v
GithubScope.v
Pipeline.v
PipelineSafety.v
PipelineClaims.v
AuditRedact.v
AuditRow.v
CompressText.v
Transforms.v
Compression.v
CompressGate.v
Scheduler.v
WorkerLoop.v
WorkerOutcome.v
MeshTags.v
MeshTrigger.v
WorkerRuns.v
MeshInbox.v
DeviceProof.v
CollabStore.v
CollabRun.v
CollabInv.v
Collaboration.v
