(* ===== verification/Prelude.v ===== *)
(** MCPlexer: a verification library for the core logic of the daemon.

    MCPlexer is a local daemon through which AI agents reach MCP servers: it routes
    tool calls to downstream servers by workspace rules, gates them by capability
    and by human or policy approval, fences what untrusted tools answer, caches
    read-only answers, schedules jobs, keeps a task list that several sessions share,
    synchronises tasks, memories and skills with paired peers, and watches logs for
    incidents it must tell its operator about.  Daemons of several people collaborate on
    workspaces through invitations, proofs of identity and grants.  This library models the packages of src/internal that
    decide those things and proves what makes each of them correct.

    * Files

    Shared: Prelude (results, tactics, stable sort, int64), GoStrings (package
    strings), GoJson (encoding/json), GoPath (path.Match), GoRegexp (regular
    expressions from their patterns: a matcher with the relation it decides, searching
    and replacing), GoFilepath (path/filepath).

    Routing.  Glob models routing/glob.go ([GlobMatch] decides the relation
    [glob_rel]); Routing models routing/rule.go and engine.go: [parseRules],
    [sortRules], [matchRoute], the cached [Route] and [RouteWithFallback] over a chain
    of workspace ancestors.  Theorems: the answer is the best eligible rule; a
    store failure answers nothing and caches nothing; the first ancestor that
    decides wins.

    Caching.  Cache models cache/cache.go with its map of pointers into a recency
    list, and shows that it refines an abstract list of entries (class [LruCache]);
    Singleflight models concurrent GetOrLoad calls as steps of goroutines: one
    loader per key, no deadlock.  ToolCache models cache/tool_cache.go and is proved
    against the class only.  Routing uses the same cache for its rules.

    Gates.  Shellmeta models the two command scanners of shellmeta/shellmeta.go
    against a declarative reading of shell quoting.  Toolgate models the capability
    profiles and the admin guard of toolgate.  Netguard models the address test and
    the dialler of netguard/public.go.  Sanitize models the denylist, the envelope and
    the pipeline of sanitize with the gateway's trust classes.  Pathguard models
    pathguard/scope.go over a file system with links.  Cmdguard models
    downstream/cmdguard.go; Shellhook models the pre-tool hook of api/hooks_handler.go,
    a client of Cmdguard and Shellmeta.  Theorems: a resolved path stays inside the root when opened; which commands
    run, and that no mode runs one that names a protected path.

    Approvals.  ApprovalPolicy models approval/policy.go (rule selection, mesh-peer
    approval); Approval models approval/manager.go over store/sqlite/
    tool_approval.go: requesters, timers, concurrent resolutions, shutdown and
    expiry are goroutines whose atomic actions interleave ([exec_action]), with
    failing store calls.  Theorems, by induction over runs: no self-approval, what
    a requester is told is stored, verdicts are final, no waiter is stuck.

    Scheduling.  JobHeap models scheduler/heap.go over container/heap and refines a
    finite map from job id to next run; Cron models the cron fields of scheduler/spec.go.
    Scheduler composes them: specs by kind, dispatch to commands, workers, pruning and
    reconciliation, a fire as a program counter ([fire_pc]), and the machine ([step])
    that interleaves the dispatch loop with fires by hand, workers, handlers and reloads
    over rows whose store calls may fail; the boot's catch-up pass.  Theorems: no
    wake-up is lost, no enabled job drops off the heap while store calls are answered,
    a fire re-arms strictly later.

    Peers and tasks.  Hlc models clock/hlc.go, its stamps as strings.  Replication
    models replication: per-peer queues, consent filters, drain.  TaskStore models
    the task rows (store/sqlite/task.go, taskstatus), TaskLease the claims, heartbeats,
    sweep and release of tasks/service.go with the membership checks, Gossip
    tasks/gossip_apply.go.  For the leases [lease_step] interleaves claims, heartbeats, and
    sweeps and releases store call by store call, their stale write-backs included.
    Theorems: a lease excludes other sessions while no write-back is under way; the effect of
    the sweep on every row; a publishable row arrives in a replica that is behind; the
    stamp of a row never goes back; replays change nothing that is shared.
    PairingLimit models p2p/pairing_ratelimit.go; Outbound the parked messages of mesh
    (outbound_queue.go, outbound_drain.go over store/sqlite/mesh_outbound.go) with
    drains, enqueues and prunes interleaved.  MeshInbox models the mail of sessions (mesh/
    mesh.go, wait.go, receive_filters.go, p2p_ingest_guard.go over store/sqlite/mesh.go): sends,
    peers' messages, polls with their cursors and filters, blocking waits that may consume,
    agents, and the reaper, as threads over one store.  Theorems: pairing attempts per minute, the lockout; a parked message is
    taken at most once and is not lost; polls skip nothing that reached the store in order
    and no wait consumed, and drain; live messages stay under their ceilings; who sees what.

    Collaboration.  DeviceProof models p2p/identity_proof.go - the transcript of a
    challenge, its verification - and the limiter of join attempts, over the ssh library as
    the class [SSH].  CollabStore models the tables of collaboration (store/sqlite/
    collaboration_*.go) with every operation on them, the authorizer and the manager of
    internal/collaboration: principals, keys, devices, invitations, shares with their grants,
    policies and epochs, the visibility of tasks, disclosures, memberships, the audit
    ledger.  CollabRun has the machine: the join stream (p2p/collaboration_invite_p2p.go),
    the enrolment of the local identity and the visibility tools (tasks/visibility.go) as
    threads, with the operations beside them, from the database migration 136 leaves.
    CollabInv proves what its steps keep; Collaboration states the theorems: a peer that is
    resolved proved to hold its principal's key, revocations are final, who may use a share
    changes with its epoch only, a task is read by whom its visibility names (its two owners
    aside, where the code and the design differ), every access
    is in the ledger.

    Monitoring.  Monitoring models expected-signal rules (store/
    monitoring_expected_signal*.go): validation, schedules in a time zone, evaluation.
    Incident models the notification policy (store/sqlite/
    monitoring_incident_notify.go).  IncidentStore models the tables both write -
    incidents, occurrences, templates, resolutions, rules - with every operation a
    step of one machine ([mon_step]), and the sweep of logwatch/renotify.  Escalate
    models the dispatcher logwatch/escalate: throttle, human route, fan-out, retries,
    error contract, channel health; the throttle's lock sections interleave
    ([board_step]).  Theorems: what an alert means; how reminders are paced; the tables
    stay typed and the counters agree with the ledger; a resolution can be undone;
    a recovery is reported exactly after a raise; nil means somebody was told; hourly
    caps with notifications in flight; a dead route is called broken.

    Gateway.  Harness models the names a client sees and sends (gateway/
    client_harness.go, search.go, fuzzy.go); AdminGate who may administer (admin_gate.go,
    admin_trust.go); Gates the worker and skill gates, discovery, and the grants on
    workspaces; CachingLister the caching caller of cache/caching_lister.go; ResultJson
    the JSON a result passes through (coercion, metadata, sanitising, structured content,
    the call wrapper); JsonSize measures arguments; ErrorTracker models error_tracker.go;
    ScopePolicy and GithubScope the scope policies with their extractor.  Pipeline
    composes them as handler_tools.go does: a state monad whose world is abstract and
    whose log records every contact with it, from [handleToolsCall] through gates, fuzzy
    recovery, route, approval and dispatch to the call wrapper and sandbox code, which
    call back in.  PipelineSafety has a weakest-precondition calculus for it and the invariant of every stage; PipelineClaims states the theorems: every
    dispatch at any depth passed its gates, an approval directly precedes what needs
    one, one audit row per call beside the sanitizer's rows, a blocked call touched nothing,
    calls end.  ResultJson: every non-empty text of an untrusted result that decodes is one
    envelope or an unflagged original.

    Compression.  CompressText models the walk over the text blocks of a result and the
    JSON minifier; Transforms the eight transforms of internal/compression; Compression
    the pipeline with its modes; CompressGate the gateway's seam (compression.go,
    ccr.go, session_dedup.go) over rows whose store calls may fail.  Theorems: every
    dropped text is behind a marker that names it, the cuts spare markers, shadow mode
    measures what On does, what the model reads expands, the savings are real.

    Audit.  AuditRedact models audit/redact.go with its patterns; AuditRow the rows the
    gateway writes (handler_audit.go, audit/logger.go).  Theorems: a redacted value
    reads back masked at every depth, where the last pair of a repeated name counts; the scrubber's test agrees with the redactor.

    Workers.  WorkerLoop models one run of workers/runner/loop.go, with the caps, the
    propose-mode gate and the dispatcher of cmd/mcplexer/workers_dispatcher.go, as a machine
    whose steps take what the model, the tools, the clock and the context answer.
    WorkerOutcome models the hooks around it, the cap on a child's calls and the outcome a
    run ends with.  MeshTags models the tags of signals, outputs and task events and the
    depth of a chain read back from them; MeshTrigger the triggers (workers/triggers/mesh,
    admin/mesh_triggers.go): rows, matching, throttles, scopes of peers, and runs that answer
    each other.  WorkerRuns models the lives of runs over the store: RunWithOpts and finalize
    with auto-pause, approvals, cancellation, switching a worker off, edits and restarts, as
    threads that interleave ([thread_step]).  Theorems: no unapproved write is dispatched,
    every run ends, chains of triggers end, a peer fires only what it was granted, an
    approval stands behind every run with a tool approved beforehand, no row is written
    behind a live run, and rows that say running have an owner.

    * Conventions

    Strings are byte strings; times and durations are nanoseconds in Z; int64, uint16
    and bytes are Z with the wrap-around written out.  A Go error is the [Err] case
    of [result].  State is passed explicitly; concurrent code is a step function or
    relation whose steps are the critical sections and store calls of the source.
    The wall clock, the ULID generator, DNS, the network and the peer transports are
    arguments.

    * Fuel and bounds

    [evictLoop] takes the length of the list, the scanners one step per byte
    ([scanners_terminate]), path.Match the length of pattern and name, the heap
    loops the length of the heap ([up_fix], [down_fix]), [nextCronRun] its own bound
    of 366*24*60 minutes, halved by [search], [walk_back] the eight days of the code,
    [renotify_loop] the doublings up to the cap ([interval_done]), [retry] the three
    attempts.  A loop of a regular expression, a search or a replacement takes the length
    of the text; a name is stripped of prefixes at most its length times
    ([strip_loop_done]); a run of lines takes the number of lines; a duration
    its length; [fire] the seven steps of a fire; [formatInt] the twenty bytes of its
    buffer, which hold every int64.  The nesting of tool
    calls has fuel in [handleToolsCall]: the effects are the same for every larger
    fuel, and [wrappers_terminate] bounds it for calls that run no sandbox code.
    Everything else is structural.

    * Divergences shown

    Lemmas that state an observed difference between the code and its comments
    are named after what happens, for example [fallback_masks_store_failure],
    [flush_does_not_cancel_load], [heredoc_line_tail_not_scanned],
    [Merge_drops_empty_allow_list], [timeout_race], [catchUp_breaks_heap],
    [leap_day_not_found], [embedded_loopback_public], [claim_Doing_reclaimed],
    [sweep_overwrites_claim], [equal_hlc_diverges], [forged_envelope_passes],
    [continuation_hides], [window_wraps], [recovery_lost],
    [second_dismissal_loses_the_undo], [muted_crowd_starves],
    [reminder_spent_by_others], [quiet_route_called_broken],
    [fuzzy_bypasses_admin_gate], [justification_reaches_downstream],
    [null_answer_leaves_no_row], [late_store_is_stale], [huge_number_passes],
    [repeated_key_survives], [collapse_not_injective], [hidden_marker_dangles],
    [lost_on_store_error], [fires_early], [reload_drops_new_job], [delete_drops_new_job],
    [cleared_priority_stays], [consuming_wait_skips], [undecodable_result_unscanned],
    [addon_answer_unfenced], [deny_loses_tie], [other_scope_stays_cached],
    [own_namespaces_unreachable],
    [wrapped_write_unasked], [one_approval_many_writes], [task_events_restart_chain],
    [channel_tag_resets_depth], [indented_tag_reserved], [long_throttle_forgotten],
    [one_approval_two_runs], [reject_forgets_cost], [edit_undoes_pause],
    [late_insert_skipped], [role_reads_mail], [reply_gate_bypassed],
    [expired_invitation_burns_key], [owner_locked_out], [moved_task_widens],
    [legacy_peer_never_joins], [widening_unapproved] and [crowd_grows].

    * Not modelled

    Case folding and white space beyond ASCII (but for the two letters that fold into it,
    in the names of audited values); runes beyond bytes in path.Match; hit
    rates; panics of a load function; the fan-out of event buses, the mesh emitter, the
    audit bus and the brain hook (logs of effects where they matter); driver errors of
    SQLite in the task files; running a scheduled command, the native drivers and the
    file watcher; task creation, update, composition, notes and offers; triage claims and receipts,
    learned baselines, collection and log retention, the text of alerts and the
    redaction of a channel's last error; the senders; the libp2p stream protocols; in
    the call pipeline, concurrent calls of one sandbox run, the built-in handlers
    other than the call wrapper and the approval gate (contacts with the world), the
    texts of suggestions, and writes to the stores it reads during a call; the CI gate of the
    compression transforms; of mesh, transmission, the resolution of names and the rows its handlers write for hits
    in the fields they quote; of
    collaboration, the sync of shared tasks, the membership check of SetVisibility and
    the client side of a join; of workers, prompts, channels, worktrees, delegations and
    creation; and the HTTP, MCP, chat, memory, skill and set-up packages.

    * Plan

    Next: the learner of expected-signal rules (store/monitoring_baseline*.go), triage
    claims and completion, the distiller's hysteresis as a client of Escalate; the task
    service's Create and Update with lease stamping and composition; the delegations of
    workers and their resumption; the sync of shared tasks with its egress projections;
    the route guard of the control server. *)

From Stdlib Require Export Lia ZArith.
From stdpp Require Export base tactics list option numbers sorting.

(** ** Results of fallible Go calls: a value, or a non-nil error. *)

Inductive result (E A : Type) : Type :=
| Ok (a : A)
| Err (e : E).
Arguments Ok {E A} a.
Arguments Err {E A} e.

Declare Scope go_scope.
Delimit Scope go_scope with go.

Notation "'let!' x ':=' c 'in' k" :=
  (match c with Ok x => k | Err e => Err e end)
  (at level 10, x binder, k at level 200) : go_scope.

(** ** Tactics *)

Create HintDb go.
Create Rewrite HintDb go.

(** Split every conjunction of boolean tests in the context. *)
Ltac bool_hyps :=
  repeat match goal with
  | H : andb _ _ = true |- _ => apply andb_true_iff in H; destruct H
  | H : orb _ _ = false |- _ => apply orb_false_iff in H; destruct H
  | H : negb _ = true |- _ => apply negb_true_iff in H
  | H : negb _ = false |- _ => apply negb_false_iff in H
  | H : bool_decide _ = true |- _ => apply bool_decide_eq_true in H
  | H : bool_decide _ = false |- _ => apply bool_decide_eq_false in H
  end.

(** Decide every integer comparison and every decidable test of the goal. *)
Ltac tests :=
  repeat match goal with
  | |- context [Z.eqb ?a ?b] => destruct (Z.eqb_spec a b)
  | |- context [Z.ltb ?a ?b] => destruct (Z.ltb_spec a b)
  | |- context [Z.leb ?a ?b] => destruct (Z.leb_spec a b)
  | |- context [bool_decide ?P] => destruct (bool_decide_reflect P)
  end; cbn [negb andb orb].

(** Case on the scrutinee of a [match] (or [if]) in the goal or a hypothesis. *)
Ltac case_match_goal :=
  match goal with
  | |- context [match ?x with _ => _ end] => destruct x eqn:?
  end.
Ltac case_match_hyp H :=
  match type of H with
  | context [match ?x with _ => _ end] => destruct x eqn:?
  end.

(** ** Time *)

Definition second : Z := 1000000000.

(** [formatTime] of store/sqlite/helpers.go: RFC 3339 in whole seconds, compared as such. *)
Definition formatTime (t : Z) : Z := t / second.

(** ** Generic list lemmas *)

Lemma find_Some_split {A} (f : A -> bool) (l : list A) (x : A) :
  List.find f l = Some x ->
  exists l1 l2, l = l1 ++ x :: l2 /\ f x = true /\ Forall (fun y => f y = false) l1.
Proof.
  induction l as [|a l IH]; simpl; [done|].
  destruct (f a) eqn:Hf.
  - intros [= ->]. exists [], l. eauto.
  - intros (l1 & l2 & -> & Hx & Hl1)%IH. exists (a :: l1), l2. eauto.
Qed.

Lemma find_None_Forall {A} (f : A -> bool) (l : list A) :
  List.find f l = None <-> Forall (fun y => f y = false) l.
Proof.
  induction l as [|a l IH]; simpl; [by split|].
  destruct (f a) eqn:Hf; rewrite list.Forall_cons.
  - split; [done|]. intros [? _]; congruence.
  - tauto.
Qed.

Lemma find_None_elem {A} (f : A -> bool) (l : list A) :
  List.find f l = None <-> forall y, y ∈ l -> f y = false.
Proof. by rewrite find_None_Forall, list.Forall_forall. Qed.

Lemma find_Some_elem {A} (f : A -> bool) (l : list A) (x : A) :
  List.find f l = Some x -> x ∈ l /\ f x = true.
Proof. intros [Hin Hf]%List.find_some. split; [by apply list_elem_of_In | done]. Qed.

Lemma existsb_elem {A} (f : A -> bool) (l : list A) :
  existsb f l = true <-> exists x, x ∈ l /\ f x = true.
Proof.
  rewrite existsb_exists. split; intros (x & Hx & Hf); exists x;
    (split; [|done]); by apply list_elem_of_In.
Qed.

Lemma existsb_false_elem {A} (f : A -> bool) (l : list A) :
  existsb f l = false <-> forall x, x ∈ l -> f x = false.
Proof.
  split.
  - intros H x Hx. destruct (f x) eqn:Hf; [|done].
    enough (existsb f l = true) by congruence. apply existsb_elem; eauto.
  - intros H. destruct (existsb f l) eqn:E; [|done].
    apply existsb_elem in E as (x & Hx & Hf). rewrite (H x Hx) in Hf. done.
Qed.

(** A chain of guards reports no error when none of them fires. *)
Lemma guard_None {E} (b : bool) (e : E) k : (if b then Some e else k) = None <-> b = false /\ k = None.
Proof. destruct b; naive_solver. Qed.

Lemma guards_None {E} (o k : option E) :
  match o with Some e => Some e | None => k end = None <-> o = None /\ k = None.
Proof. destruct o; naive_solver. Qed.

Lemma Ok_inj {E A} (x y : A) : @Ok E A x = Ok y -> x = y.
Proof. by intros [= ->]. Qed.

Lemma Forall_add {A} (P : A -> Prop) l x : Forall P l -> P x -> Forall P (l ++ [x]).
Proof. intros Hl Hx. apply Forall_app. by repeat constructor. Qed.

(** How many elements pass a test. *)
Definition tally {A} (f : A -> bool) (l : list A) : nat := List.length (List.filter f l).

Lemma tally_cons {A} (f : A -> bool) x l : tally f (x :: l) = (tally f [x] + tally f l)%nat.
Proof. unfold tally. cbn. by destruct (f x). Qed.

Lemma tally_app {A} (f : A -> bool) l1 l2 : tally f (l1 ++ l2) = (tally f l1 + tally f l2)%nat.
Proof. unfold tally. by rewrite List.filter_app, length_app. Qed.

Lemma filter_filter {A} (f g : A -> bool) l : List.filter f (List.filter g l) = List.filter (fun x => g x && f x) l.
Proof. induction l as [|x l IH]; cbn; [done|]. destruct (g x) eqn:Hg; cbn; [by destruct (f x); rewrite IH|done]. Qed.

Lemma filter_perm {A} (f : A -> bool) l l' : l ≡ₚ l' -> List.filter f l ≡ₚ List.filter f l'.
Proof.
  induction 1 as [|x l l' _ IH|x y l|l1 l2 l3 _ IH1 _ IH2]; cbn; [done| | |by etrans].
  - destruct (f x); [by constructor|done].
  - destruct (f x), (f y); try done. constructor.
Qed.

Lemma filter_all {A} (f : A -> bool) l : (forall x, x ∈ l -> f x = true) -> List.filter f l = l.
Proof.
  induction l as [|x l IH]; cbn; [done|]. intros H. rewrite (H x) by (by left). f_equal. apply IH. intros y Hy. apply H. by right.
Qed.

Lemma filter_none {A} (f : A -> bool) l : (forall x, x ∈ l -> f x = false) -> List.filter f l = [].
Proof.
  induction l as [|x l IH]; cbn; [done|]. intros H. rewrite (H x) by (by left). apply IH. intros y Hy. apply H. by right.
Qed.

Lemma tally_le_in {A} (f g : A -> bool) (P : A -> Prop) l : Forall P l -> (forall x, P x -> f x = true -> g x = true) ->
  (tally f l <= tally g l)%nat.
Proof.
  intros HP H. unfold tally. induction HP as [|x l Hx _ IH]; cbn; [done|].
  destruct (f x) eqn:Hf; [rewrite (H x Hx Hf); cbn; lia|destruct (g x); cbn; lia].
Qed.

Lemma tally_le {A} (f g : A -> bool) l : (forall x, f x = true -> g x = true) -> (tally f l <= tally g l)%nat.
Proof. intros H. apply (tally_le_in f g (fun _ => True)); [by apply Forall_true|auto]. Qed.

(** Counting what satisfies one of two exclusive tests. *)
Lemma tally_orb {A} (f g : A -> bool) l : (forall x, f x && g x = false) ->
  tally (fun x => f x || g x) l = (tally f l + tally g l)%nat.
Proof.
  intros H. unfold tally. induction l as [|x l IH]; cbn; [done|].
  specialize (H x). destruct (f x), (g x); cbn in *; try discriminate; lia.
Qed.

Lemma tally_map {A B} (g : A -> B) (f : B -> bool) l : tally f (map g l) = tally (fun x => f (g x)) l.
Proof. unfold tally. induction l as [|x l IH]; cbn; [done|]. destruct (f (g x)); cbn; by rewrite IH. Qed.

Lemma tally_filter {A} (f g : A -> bool) l : tally f (List.filter g l) = tally (fun x => g x && f x) l.
Proof. unfold tally. by rewrite filter_filter. Qed.

(** ** [sort.SliceStable]

    Insertion of each element in front of the ones it is not greater than: the
    unique stable result when [less] is a strict weak order. *)

Section StableSort.
Context {A : Type} (less : A -> A -> bool).

Fixpoint insert_stable (x : A) (l : list A) : list A :=
  match l with
  | [] => [x]
  | y :: l' => if less y x then y :: insert_stable x l' else x :: l
  end.

Definition SliceStable (l : list A) : list A := foldr insert_stable [] l.

Lemma insert_stable_perm x l : insert_stable x l ≡ₚ x :: l.
Proof.
  induction l as [|y l IH]; cbn; [done|]. destruct (less y x); [|done].
  rewrite IH. apply Permutation_swap.
Qed.

Lemma SliceStable_perm l : SliceStable l ≡ₚ l.
Proof. induction l as [|x l IH]; cbn; [done|]. by rewrite insert_stable_perm, IH. Qed.

(** [y] may follow [x]: it is not less than it. *)
Definition not_after (x y : A) : Prop := less y x = false.

Hypothesis not_after_trans : forall x y z, not_after x y -> not_after y z -> not_after x z.
Hypothesis less_asym : forall x y, less x y = true -> less y x = false.

Lemma insert_stable_sorted x l :
  StronglySorted not_after l -> StronglySorted not_after (insert_stable x l).
Proof.
  induction 1 as [|y l Hl IH Hy]; cbn; [by repeat constructor|].
  destruct (less y x) eqn:Hyx.
  - constructor; [done|]. rewrite insert_stable_perm. constructor; [by apply less_asym|done].
  - constructor; [by constructor|]. constructor; [done|].
    eapply Forall_impl; [exact Hy|]. intros z Hz. by eapply not_after_trans.
Qed.

Lemma SliceStable_sorted l : StronglySorted not_after (SliceStable l).
Proof. induction l as [|x l IH]; cbn; [constructor|]. by apply insert_stable_sorted. Qed.

(** The first element satisfying [f] in the sorted list is one of the
    elements satisfying it, and none of them is less. *)
Lemma find_SliceStable_min (f : A -> bool) l x :
  List.find f (SliceStable l) = Some x ->
  x ∈ l /\ f x = true /\ forall y, y ∈ l -> f y = true -> less y x = false.
Proof.
  intros Hf. destruct (find_Some_elem _ _ _ Hf) as [Hin Hfx].
  split; [by rewrite <- (SliceStable_perm l)|]. split; [done|].
  intros y Hy Hfy. rewrite <- (SliceStable_perm l) in Hy.
  apply find_Some_split in Hf as (l1 & l2 & Hl & _ & Hl1).
  pose proof (SliceStable_sorted l) as S. rewrite Hl in S, Hy.
  apply elem_of_app in Hy as [Hy|Hy].
  - rewrite list.Forall_forall in Hl1. rewrite (Hl1 y Hy) in Hfy. done.
  - apply elem_of_cons in Hy as [->|Hy].
    + destruct (less x x) eqn:E; [|done]. by rewrite (less_asym _ _ E) in E.
    + clear Hl Hl1 Hin. induction l1 as [|z l1 IH].
      * cbn in S. apply StronglySorted_inv in S as [_ S].
        rewrite list.Forall_forall in S. by apply S.
      * cbn in S. apply StronglySorted_inv in S as [S _]. by apply IH.
Qed.

(** Stability: the head of the sorted list is the first of the least elements. *)
Lemma head_SliceStable l x :
  head (SliceStable l) = Some x ->
  exists l1 l2, l = l1 ++ x :: l2 /\
    Forall (fun y => less x y = true) l1 /\ Forall (fun y => less y x = false) l2.
Proof.
  revert x. induction l as [|a l IH]; intros x; [done|].
  change (SliceStable (a :: l)) with (insert_stable a (SliceStable l)).
  destruct (SliceStable l) as [|y s] eqn:E; cbn [insert_stable].
  - intros [= ->]. exists [], l. pose proof (SliceStable_perm l) as P. rewrite E in P.
    apply Permutation_nil_l in P as <-. split_and!; [done|constructor|constructor].
  - destruct (IH y eq_refl) as (l1 & l2 & -> & H1 & H2).
    destruct (less y a) eqn:Hya; cbn; intros [= <-].
    + exists (a :: l1), l2. split_and!; [done|by constructor|done].
    + exists [], (l1 ++ y :: l2). split_and!; [done|constructor|].
      assert (forall z, less z y = false -> less z a = false) as Ht
        by (intros z Hz; exact (not_after_trans a y z Hya Hz)).
      apply Forall_app. split; [|constructor; [done|]];
        (eapply Forall_impl; [eassumption|]); intros z Hz; apply Ht; auto.
Qed.
End StableSort.

(** Sorting commutes with a map the order does not see, and a second sort is idle. *)
Lemma SliceStable_map {A B} (less : A -> A -> bool) (less' : B -> B -> bool) (f : A -> B) l :
  (forall x y, less' (f x) (f y) = less x y) -> SliceStable less' (map f l) = map f (SliceStable less l).
Proof.
  intros Hf. induction l as [|x l IH]; [done|]. cbn [map SliceStable foldr]. unfold SliceStable in IH. rewrite IH.
  generalize (foldr (insert_stable less) [] l). intros s. induction s as [|y s IHs]; [done|].
  cbn [map insert_stable]. rewrite Hf. destruct (less y x); cbn [map]; [by rewrite IHs|done].
Qed.

Lemma SliceStable_Sorted_id {A} (less : A -> A -> bool) s : Sorted (not_after less) s -> SliceStable less s = s.
Proof.
  intros H. induction H as [|x s Hs IH Hd]; [done|]. cbn [SliceStable foldr]. unfold SliceStable in IH. rewrite IH.
  destruct Hd as [|y s Hy]; cbn; [done|]. by rewrite Hy.
Qed.

Lemma SliceStable_id {A} (less : A -> A -> bool) s : StronglySorted (not_after less) s -> SliceStable less s = s.
Proof. intros H%StronglySorted_Sorted. by apply SliceStable_Sorted_id. Qed.

Lemma SliceStable_idle {A} (less : A -> A -> bool) l :
  (forall x y, less x y = true -> less y x = false) -> SliceStable less (SliceStable less l) = SliceStable less l.
Proof.
  intros Hasym. apply SliceStable_Sorted_id. induction l as [|x l IH]; cbn [SliceStable foldr]; [constructor|].
  unfold SliceStable in IH. induction IH as [|y s Hs IHs Hd]; cbn [insert_stable]; [by repeat constructor|].
  destruct (less y x) eqn:E; [|by repeat constructor]. constructor; [done|].
  destruct Hd as [|z s Hz]; cbn [insert_stable]; [by constructor; apply Hasym|].
  destruct (less z x); constructor; [done|by apply Hasym].
Qed.

Lemma StronglySorted_parts {A} (R : A -> A -> Prop) l n : StronglySorted R l ->
  StronglySorted R (take n l) /\ StronglySorted R (drop n l) /\ forall x y, x ∈ take n l -> y ∈ drop n l -> R x y.
Proof.
  intros S. rewrite <- (take_drop n l) in S. revert S. generalize (take n l) (drop n l). clear. intros a b. induction a as [|z a IH]; cbn.
  - intros S. split_and!; [constructor|done|by intros ? ? ?%elem_of_nil].
  - intros [S Hz]%StronglySorted_inv. destruct (IH S) as (H1 & H2 & H3). rewrite list.Forall_forall in Hz. split_and!; [|done|].
    + constructor; [done|]. apply list.Forall_forall. intros x Hx. apply Hz, elem_of_app. by left.
    + intros x y [->|Hx]%elem_of_cons Hy; [apply Hz, elem_of_app; by right|by apply H3].
Qed.

(** ** Machine integers *)

(** Two's complement int64. *)
Definition wrap64 (z : Z) : Z := ((z + 2 ^ 63) mod 2 ^ 64 - 2 ^ 63)%Z.

Lemma wrap64_small (z : Z) : (- 2 ^ 63 <= z < 2 ^ 63)%Z -> wrap64 z = z.
Proof. intros Hz. unfold wrap64. rewrite Z.mod_small; lia. Qed.
