(* ===== verification/GoStrings.v ===== *)
(** The part of Go's [strings] package the modelled code calls, on byte
    strings.  Upper/lower case and white space are those of ASCII; the inputs
    (tool names, ids, paths, keywords) are ASCII in the program. *)

From Stdlib Require Import Ascii String.
From stdpp Require Export strings.
From S2P Require Import Prelude.

#[local] Open Scope string_scope.
#[local] Open Scope list_scope.

(** ** Prefixes and suffixes *)

Fixpoint CutPrefix (s p : string) : option string :=
  match p, s with
  | EmptyString, _ => Some s
  | String b p', String a s' => if bool_decide (a = b) then CutPrefix s' p' else None
  | String _ _, EmptyString => None
  end.

Definition HasPrefix (s p : string) : bool :=
  match CutPrefix s p with Some _ => true | None => false end.

Definition TrimPrefix (s p : string) : string := default s (CutPrefix s p).

Definition rev_string (s : string) : string :=
  string_of_list_ascii (rev (list_ascii_of_string s)).

Definition CutSuffix (s p : string) : option string :=
  option_map rev_string (CutPrefix (rev_string s) (rev_string p)).

Definition HasSuffix (s p : string) : bool :=
  match CutSuffix s p with Some _ => true | None => false end.

Definition TrimSuffix (s p : string) : string := default s (CutSuffix s p).

(** ** Searching and splitting *)

Fixpoint Cut (s sep : string) : option (string * string) :=
  match CutPrefix s sep with
  | Some r => Some ("", r)
  | None =>
      match s with
      | EmptyString => None
      | String a s' => prod_map (String a) id <$> Cut s' sep
      end
  end.

Definition Contains (s sub : string) : bool :=
  match Cut s sub with Some _ => true | None => false end.

(** What follows the last occurrence of [sep], as [strings.LastIndex] finds it. *)
Fixpoint after_last (s sep : string) : option string :=
  match s with
  | EmptyString => None
  | String _ s' => match after_last s' sep with Some r => Some r | None => CutPrefix s sep end
  end.

(** [strings.Split s sep] for a one-byte separator: never empty. *)
Fixpoint SplitByte (s : string) (c : ascii) : list string :=
  match s with
  | EmptyString => [""]
  | String a s' =>
      if bool_decide (a = c) then "" :: SplitByte s' c
      else match SplitByte s' c with
           | w :: ws => String a w :: ws
           | [] => [String a ""]
           end
  end.

Fixpoint string_existsb (f : ascii -> bool) (s : string) : bool :=
  match s with
  | EmptyString => false
  | String a s' => f a || string_existsb f s'
  end.

Definition ContainsByte (s : string) (c : ascii) : bool :=
  string_existsb (fun a => bool_decide (a = c)) s.

Definition ContainsAny (s chars : string) : bool :=
  string_existsb (fun a => ContainsByte chars a) s.

(** ** Trimming *)

Fixpoint TrimLeftFunc (s : string) (f : ascii -> bool) : string :=
  match s with
  | EmptyString => ""
  | String a s' => if f a then TrimLeftFunc s' f else s
  end.

Definition TrimRightFunc (s : string) (f : ascii -> bool) : string :=
  rev_string (TrimLeftFunc (rev_string s) f).

Definition TrimLeft (s cutset : string) : string :=
  TrimLeftFunc s (ContainsByte cutset).
Definition TrimRight (s cutset : string) : string :=
  TrimRightFunc s (ContainsByte cutset).

(** '\t' '\n' '\v' '\f' '\r' and ' '. *)
Definition isSpace (a : ascii) : bool :=
  let n := N_of_ascii a in ((9 <=? n) && (n <=? 13) || (n =? 32))%N.

Definition TrimSpace (s : string) : string :=
  TrimRightFunc (TrimLeftFunc s isSpace) isSpace.

(** [strings.Fields] on ASCII text. *)
Fixpoint fields_loop (cur : list ascii) (l : list ascii) : list string :=
  let word := match cur with [] => [] | _ => [string_of_list_ascii (rev cur)] end in
  match l with
  | [] => word
  | a :: l' => if isSpace a then word ++ fields_loop [] l' else fields_loop (a :: cur) l'
  end.

Definition Fields (s : string) : list string := fields_loop [] (list_ascii_of_string s).

(** ** Case *)

Definition isUpper (a : ascii) : bool :=
  let n := N_of_ascii a in ((65 <=? n) && (n <=? 90))%N.

Definition toLower (a : ascii) : ascii :=
  if isUpper a then ascii_of_N (N_of_ascii a + 32) else a.

Fixpoint ToLower (s : string) : string :=
  match s with
  | EmptyString => ""
  | String a s' => String (toLower a) (ToLower s')
  end.

Definition EqualFold (s t : string) : bool := bool_decide (ToLower s = ToLower t).

(** ** Bytes *)

Definition byte_in (lo hi : N) (a : ascii) : bool :=
  let n := N_of_ascii a in ((lo <=? n) && (n <=? hi))%N.

Definition hex_val (a : ascii) : option N :=
  let n := N_of_ascii a in
  (if byte_in 48 57 a then Some (n - 48)
   else if byte_in 97 102 a then Some (n - 87)
   else if byte_in 65 70 a then Some (n - 55) else None)%N.

(** ** Lemmas *)

Lemma string_app_nil_l (s : string) : "" +:+ s = s.
Proof. done. Qed.

Lemma string_app_nil_r (s : string) : s +:+ "" = s.
Proof. induction s as [|a s IH]; [done|]. change (String a (s +:+ "") = String a s). by rewrite IH. Qed.

Lemma string_app_cons (a : ascii) (s t : string) : String a s +:+ t = String a (s +:+ t).
Proof. done. Qed.

Lemma string_app_assoc (r s t : string) : (r +:+ s) +:+ t = r +:+ (s +:+ t).
Proof. induction r as [|a r IH]; [done|]. rewrite !string_app_cons, IH. done. Qed.

Lemma string_app_inj_l (r s t : string) : r +:+ s = r +:+ t -> s = t.
Proof. induction r as [|a r IH]; [done|]. rewrite !string_app_cons. intros [= H]. auto. Qed.

Lemma CutPrefix_Some (s p r : string) : CutPrefix s p = Some r <-> s = p +:+ r.
Proof.
  revert s. induction p as [|b p IH]; intros s.
  - rewrite string_app_nil_l. destruct s; simpl; split; congruence.
  - destruct s as [|a s]; [simpl; split; done|].
    simpl CutPrefix. rewrite string_app_cons. case_bool_decide; subst.
    + rewrite IH. split; congruence.
    + split; [done|]. intros [= ? _]; congruence.
Qed.

Lemma HasPrefix_spec (s p : string) : HasPrefix s p = true <-> exists r, s = p +:+ r.
Proof.
  unfold HasPrefix. destruct (CutPrefix s p) as [r|] eqn:E.
  - apply CutPrefix_Some in E. split; eauto.
  - split; [done|]. intros [r Hr%CutPrefix_Some]. congruence.
Qed.

Lemma HasPrefix_app (p r : string) : HasPrefix (p +:+ r) p = true.
Proof. apply HasPrefix_spec; eauto. Qed.

Lemma list_ascii_app (s t : string) :
  list_ascii_of_string (s +:+ t) = list_ascii_of_string s ++ list_ascii_of_string t.
Proof. induction s as [|a s IH]; [done|]. rewrite string_app_cons. simpl. by rewrite IH. Qed.

Lemma string_of_list_app (l k : list ascii) :
  string_of_list_ascii (l ++ k) = string_of_list_ascii l +:+ string_of_list_ascii k.
Proof. induction l as [|a l IH]; [done|]. simpl. by rewrite IH. Qed.

Lemma rev_string_app (s t : string) : rev_string (s +:+ t) = rev_string t +:+ rev_string s.
Proof. unfold rev_string. by rewrite list_ascii_app, rev_app_distr, string_of_list_app. Qed.

Lemma rev_string_involutive (s : string) : rev_string (rev_string s) = s.
Proof.
  unfold rev_string.
  by rewrite list_ascii_of_string_of_list_ascii, rev_involutive, string_of_list_ascii_of_string.
Qed.

Lemma CutSuffix_Some (s p r : string) : CutSuffix s p = Some r <-> s = r +:+ p.
Proof.
  unfold CutSuffix. split.
  - destruct (CutPrefix _ _) as [t|] eqn:E; [|done]. intros [= <-].
    apply CutPrefix_Some in E.
    rewrite <- (rev_string_involutive s), E, rev_string_app, rev_string_involutive. done.
  - intros ->. rewrite rev_string_app.
    rewrite (proj2 (CutPrefix_Some _ _ (rev_string r))) by done.
    simpl. by rewrite rev_string_involutive.
Qed.

Lemma HasSuffix_spec (s p : string) : HasSuffix s p = true <-> exists r, s = r +:+ p.
Proof.
  unfold HasSuffix. destruct (CutSuffix s p) as [r|] eqn:E.
  - apply CutSuffix_Some in E. split; eauto.
  - split; [done|]. intros [r Hr%CutSuffix_Some]. congruence.
Qed.

Lemma Cut_Some (s sep b r : string) : Cut s sep = Some (b, r) -> s = b +:+ sep +:+ r.
Proof.
  revert b r. induction s as [|a s IH]; intros b r; cbn [Cut].
  - destruct (CutPrefix "" sep) as [t|] eqn:E; [|done]. intros [= <- <-].
    by apply CutPrefix_Some in E.
  - destruct (CutPrefix (String a s) sep) as [t|] eqn:E.
    + intros [= <- <-]. by apply CutPrefix_Some in E.
    + destruct (Cut s sep) as [[b' r']|] eqn:E'; [|done]. intros [= <- <-].
      by rewrite (IH _ _ eq_refl).
Qed.

Lemma Contains_spec (s sub : string) :
  Contains s sub = true <-> exists b r, s = b +:+ sub +:+ r.
Proof.
  unfold Contains. split.
  - destruct (Cut s sub) as [[b r]|] eqn:E; [|done]. intros _.
    exists b, r. by apply Cut_Some.
  - intros (b & r & ->). induction b as [|a b IH].
    + rewrite string_app_nil_l.
      assert (CutPrefix (sub +:+ r) sub = Some r) as E by by apply CutPrefix_Some.
      destruct (sub +:+ r); cbn [Cut]; by rewrite E.
    + rewrite string_app_cons. cbn [Cut].
      destruct (CutPrefix _ _); [done|].
      destruct (Cut (b +:+ sub +:+ r) sub) as [[]|]; done.
Qed.

Lemma SplitByte_nonempty (s : string) (c : ascii) : SplitByte s c <> [].
Proof. destruct s as [|a s]; simpl; [done|]. case_bool_decide; [done|]. by destruct (SplitByte s c). Qed.

(** ** Byte-wise order *)

Lemma compare_app (s1 s2 t1 t2 : string) :
  String.length s1 = String.length s2 ->
  String.compare (s1 +:+ t1) (s2 +:+ t2) =
  match String.compare s1 s2 with Eq => String.compare t1 t2 | c => c end.
Proof.
  revert s2. induction s1 as [|a s1 IH]; intros [|b s2] Hl; try done.
  rewrite !string_app_cons. cbn [String.compare].
  destruct (Ascii.compare a b); [|done..]. apply IH. by injection Hl.
Qed.

Lemma string_length_app (s t : string) :
  String.length (s +:+ t) = (String.length s + String.length t)%nat.
Proof. induction s as [|a s IH]; [done|]. rewrite string_app_cons. cbn. by rewrite IH. Qed.

Lemma string_ltb_trans (a b c : string) :
  String.ltb a b = true -> String.ltb b c = true -> String.ltb a c = true.
Proof.
  unfold String.ltb. intros H1 H2.
  destruct (String.compare a b) eqn:E1; try done. destruct (String.compare b c) eqn:E2; try done.
  clear H1 H2. assert (String.compare a c = Lt) as ->; [|done].
  revert b c E1 E2. induction a as [|x a IH]; intros [|y b] [|z c] E1 E2; try done.
  cbn [String.compare] in *. unfold Ascii.compare in *.
  destruct (N.compare_spec (N_of_ascii x) (N_of_ascii y)) as [E|E|E]; try done;
    destruct (N.compare_spec (N_of_ascii y) (N_of_ascii z)) as [F|F|F]; try done.
  - rewrite E, F, N.compare_refl. by apply (IH b).
  - by rewrite E, (proj2 (N.compare_lt_iff _ _) F).
  - by rewrite <- F, (proj2 (N.compare_lt_iff _ _) E).
  - by rewrite (proj2 (N.compare_lt_iff _ _) (N.lt_trans _ _ _ E F)).
Qed.

Lemma string_ltb_asym (x y : string) : String.ltb x y = true -> String.ltb y x = false.
Proof. unfold String.ltb. rewrite String.compare_antisym. by destruct (String.compare y x). Qed.

Lemma string_ltb_irrefl (x : string) : String.ltb x x = false.
Proof. destruct (String.ltb x x) eqn:E; [|done]. by rewrite (string_ltb_asym _ _ E) in E. Qed.

Lemma string_ltb_total (a b : string) : String.ltb a b = false -> String.ltb b a = false -> a = b.
Proof.
  unfold String.ltb. rewrite (String.compare_antisym a b). destruct (String.compare b a) eqn:E; cbn; [|done..].
  intros _ _. symmetry. by apply String.compare_eq_iff.
Qed.

(** ** TrimSpace is idempotent *)

Lemma TrimLeftFunc_suffix s f : exists pre, s = pre +:+ TrimLeftFunc s f.
Proof.
  induction s as [|a s [pre IH]]; [by exists ""|]. cbn [TrimLeftFunc].
  destruct (f a); [exists (String a pre); by rewrite string_app_cons, <- IH|by exists ""].
Qed.

Lemma TrimLeftFunc_fix s f :
  TrimLeftFunc s f = s <-> match s with EmptyString => True | String a _ => f a = false end.
Proof.
  destruct s as [|a s]; [done|]. cbn [TrimLeftFunc]. destruct (f a); [|done]. split; [|done].
  intros H. destruct (TrimLeftFunc_suffix s f) as [pre Hp]. rewrite H in Hp.
  apply (f_equal String.length) in Hp. rewrite string_length_app in Hp. cbn in Hp. lia.
Qed.

Lemma TrimLeftFunc_idem s f : TrimLeftFunc (TrimLeftFunc s f) f = TrimLeftFunc s f.
Proof.
  apply TrimLeftFunc_fix. induction s as [|a s IH]; [done|]. cbn [TrimLeftFunc].
  destruct (f a) eqn:E; [done|by rewrite E].
Qed.

Lemma TrimRightFunc_idem s f : TrimRightFunc (TrimRightFunc s f) f = TrimRightFunc s f.
Proof. unfold TrimRightFunc. by rewrite rev_string_involutive, TrimLeftFunc_idem. Qed.

Lemma TrimRightFunc_prefix s f : exists suf, s = TrimRightFunc s f +:+ suf.
Proof.
  unfold TrimRightFunc. destruct (TrimLeftFunc_suffix (rev_string s) f) as [pre Hp].
  exists (rev_string pre). rewrite <- rev_string_app, <- Hp. by rewrite rev_string_involutive.
Qed.

Lemma TrimSpace_idem s : TrimSpace (TrimSpace s) = TrimSpace s.
Proof.
  unfold TrimSpace. set (t := TrimLeftFunc s isSpace).
  assert (TrimLeftFunc t isSpace = t) as Ht by apply TrimLeftFunc_idem.
  assert (TrimLeftFunc (TrimRightFunc t isSpace) isSpace = TrimRightFunc t isSpace) as ->.
  { destruct (TrimRightFunc_prefix t isSpace) as [suf Hp]. apply TrimLeftFunc_fix.
    apply TrimLeftFunc_fix in Ht. rewrite Hp in Ht.
    destruct (TrimRightFunc t isSpace); [done|]. by rewrite string_app_cons in Ht. }
  apply TrimRightFunc_idem.
Qed.

#[export] Hint Rewrite string_app_assoc string_app_cons string_app_nil_l : go.
#[export] Hint Resolve HasPrefix_app SplitByte_nonempty : go.

(** ** Splitting and trimming *)

Lemma SplitByte_no_sep p c e : e ∈ SplitByte p c -> string_existsb (fun a => bool_decide (a = c)) e = false.
Proof.
  revert e. induction p as [|a p IH]; intros e; simpl.
  - intros [->|H%elem_of_nil]%elem_of_cons; done.
  - destruct (bool_decide (a = c)) eqn:Ha.
    + intros [->|H]%elem_of_cons; [done|auto].
    + destruct (SplitByte p c) as [|w ws] eqn:Hs; [by destruct (SplitByte_nonempty p c)|].
      intros [->|H]%elem_of_cons.
      * simpl. rewrite Ha. apply IH. by left.
      * apply IH. by right.
Qed.

Lemma SplitByte_app_sep e p c : string_existsb (fun a => bool_decide (a = c)) e = false ->
  SplitByte (e +:+ String c p) c = e :: SplitByte p c.
Proof.
  induction e as [|a e IH]; intros He.
  - change ("" +:+ String c p) with (String c p). simpl. by rewrite bool_decide_eq_true_2.
  - simpl in He. apply orb_false_iff in He as [Ha He]. rewrite string_app_cons. simpl.
    by rewrite Ha, IH.
Qed.

Lemma SplitByte_single e c : string_existsb (fun a => bool_decide (a = c)) e = false -> SplitByte e c = [e].
Proof.
  induction e as [|a e IH]; intros He; [done|]. simpl in He. apply orb_false_iff in He as [Ha He].
  simpl. by rewrite Ha, IH.
Qed.

Lemma SplitByte_app_gen x y c : SplitByte (x +:+ String c y) c = SplitByte x c ++ SplitByte y c.
Proof.
  induction x as [|a x IH].
  - change ("" +:+ String c y) with (String c y). simpl. by rewrite bool_decide_eq_true_2.
  - rewrite string_app_cons. simpl. rewrite IH. destruct (bool_decide (a = c)); [done|].
    pose proof (SplitByte_nonempty x c). by destruct (SplitByte x c).
Qed.

Lemma TrimSpace_fix s : TrimSpace s = s <-> TrimLeftFunc s isSpace = s /\ TrimLeftFunc (rev_string s) isSpace = rev_string s.
Proof.
  unfold TrimSpace. split.
  - intros H. destruct (TrimLeftFunc_suffix s isSpace) as [pre Hp].
    destruct (TrimRightFunc_prefix (TrimLeftFunc s isSpace) isSpace) as [suf Hs]. rewrite H in Hs.
    assert (TrimLeftFunc s isSpace = s) as E.
    { rewrite Hs in Hp at 1. pose proof (f_equal String.length Hp) as Hl. rewrite !string_length_app in Hl.
      destruct pre, suf; cbn in Hl; try lia. by rewrite Hs, string_app_nil_r. }
    split; [done|]. rewrite E in H. unfold TrimRightFunc in H.
    rewrite <- H at 2. by rewrite rev_string_involutive.
  - intros [-> H]. unfold TrimRightFunc. by rewrite H, rev_string_involutive.
Qed.

Lemma trim_join_left x y f : x <> "" -> TrimLeftFunc x f = x -> TrimLeftFunc (x +:+ y) f = x +:+ y.
Proof. intros Hx H. apply TrimLeftFunc_fix in H. destruct x; [done|]. rewrite string_app_cons. by apply TrimLeftFunc_fix. Qed.

Lemma rev_string_nil s : rev_string s = "" -> s = "".
Proof. intros H. by rewrite <- (rev_string_involutive s), H. Qed.

Lemma TrimSpace_join x y c : x <> "" -> y <> "" -> TrimSpace x = x -> TrimSpace y = y ->
  TrimSpace (x +:+ String c y) = x +:+ String c y.
Proof.
  intros Hx Hy [Hx1 _]%TrimSpace_fix [_ Hy2]%TrimSpace_fix. apply TrimSpace_fix. split; [by apply trim_join_left|].
  change (String c y) with (String c "" +:+ y). rewrite <- string_app_assoc, (rev_string_app _ y).
  apply trim_join_left; [|done]. by intros ?%rev_string_nil.
Qed.

Definition spaceless (s : string) : Prop := Forall (fun a => isSpace a = false) (list_ascii_of_string s).

Lemma spaceless_trim s : spaceless s -> TrimSpace s = s.
Proof.
  intros H. unfold TrimSpace. assert (TrimLeftFunc s isSpace = s) as ->.
  { apply TrimLeftFunc_fix. destruct s; [done|]. by apply Forall_cons in H as [? _]. }
  unfold TrimRightFunc. assert (TrimLeftFunc (rev_string s) isSpace = rev_string s) as ->; [|apply rev_string_involutive].
  apply TrimLeftFunc_fix. assert (Forall (fun a => isSpace a = false) (list_ascii_of_string (rev_string s))) as Hr.
  { unfold rev_string. rewrite list_ascii_of_string_of_list_ascii. by apply List.Forall_rev. }
  destruct (rev_string s); [done|]. by apply Forall_cons in Hr as [? _].
Qed.
