(* ===== verification/GoJson.v ===== *)
(** The part of Go's [encoding/json] the modelled code calls: [Unmarshal] into
    [[]string] and into [map[string]any].

    A lexer and a parser, each structurally recursive (no fuel): [lex] walks the
    bytes with an explicit mode, [parse] walks the tokens with an explicit stack
    of open arrays and objects, as the scanner of the Go package does. *)

From Stdlib Require Import Ascii String.
From S2P Require Import Prelude GoStrings.

#[local] Open Scope string_scope.
#[local] Open Scope list_scope.

Inductive json : Type :=
| JNull
| JBool (b : bool)
| JNum (raw : string)
| JStr (s : string)
| JArr (l : list json)
| JObj (l : list (string * json)).

(** ** UTF-8 *)

Definition is_cont : ascii -> bool := byte_in 128 191.

(** Length of the valid multi-byte sequence [a :: rest] starts with. *)
Definition utf8_len (a : ascii) (rest : list ascii) : option nat :=
  match rest with
  | b :: _ =>
      if byte_in 194 223 a && is_cont b then Some 2 else
      match rest with
      | b :: c :: rest' =>
          if (byte_in 224 224 a && byte_in 160 191 b
              || (byte_in 225 236 a || byte_in 238 239 a) && is_cont b
              || byte_in 237 237 a && byte_in 128 159 b) && is_cont c
          then Some 3 else
          match rest' with
          | d :: _ =>
              if (byte_in 240 240 a && byte_in 144 191 b
                  || byte_in 241 243 a && is_cont b
                  || byte_in 244 244 a && byte_in 128 143 b)
                 && is_cont c && is_cont d
              then Some 4 else None
          | [] => None
          end
      | _ => None
      end
  | [] => None
  end.

Definition encode_rune (r : N) : string :=
  let chr n := String (ascii_of_N n) "" in
  (if r <? 128 then chr r
   else if r <? 2048 then chr (192 + r / 64) +:+ chr (128 + r mod 64)
   else if r <? 65536 then
     chr (224 + r / 4096) +:+ chr (128 + (r / 64) mod 64) +:+ chr (128 + r mod 64)
   else
     chr (240 + r / 262144) +:+ chr (128 + (r / 4096) mod 64)
       +:+ chr (128 + (r / 64) mod 64) +:+ chr (128 + r mod 64))%N.

Definition replacement : string := encode_rune 65533.

(** Copy string bytes, replacing invalid UTF-8 by U+FFFD ([skip] counts the
    bytes of a valid sequence still to be copied). *)
Fixpoint fix_utf8 (skip : nat) (l : list ascii) : string :=
  match l with
  | [] => ""
  | a :: l' =>
      match skip with
      | S k => String a (fix_utf8 k l')
      | O =>
          if (N_of_ascii a <? 128)%N then String a (fix_utf8 0 l')
          else match utf8_len a l' with
               | Some n => String a (fix_utf8 (n - 1) l')
               | None => replacement +:+ fix_utf8 0 l'
               end
      end
  end.

(** ** Lexer *)

Inductive token : Type :=
| TLbrace | TRbrace | TLbrack | TRbrack | TColon | TComma
| TStr (s : string) | TNum (raw : string) | TTrue | TFalse | TNull.

(** A decoded piece of a string literal: a raw byte, an escaped ASCII
    character, or a [\uXXXX] code unit. *)
Inductive piece : Type := PRaw (a : ascii) | PEsc (a : ascii) | PUnit (u : N).

Definition is_high (u : N) : bool := ((55296 <=? u) && (u <? 56320))%N.
Definition is_low (u : N) : bool := ((56320 <=? u) && (u <? 57344))%N.

(** Join UTF-16 surrogates; an unpaired one becomes U+FFFD. Raw bytes are
    gathered so that the UTF-8 repair sees them as one run. *)
Fixpoint unquote (raw : list ascii) (ps : list piece) : string :=
  let flush := fix_utf8 0 (rev raw) in
  match ps with
  | [] => flush
  | PRaw a :: ps' => unquote (a :: raw) ps'
  | PEsc a :: ps' => flush +:+ String a (unquote [] ps')
  | PUnit u :: ps' =>
      match is_high u, ps' with
      | true, PUnit v :: ps'' =>
          if is_low v
          then flush +:+ encode_rune (65536 + (u - 55296) * 1024 + (v - 56320))%N
                 +:+ unquote [] ps''
          else flush +:+ replacement +:+ unquote [] ps'
      | true, _ => flush +:+ replacement +:+ unquote [] ps'
      | false, _ =>
          flush +:+ (if is_low u then replacement else encode_rune u)
            +:+ unquote [] ps'
      end
  end.

Inductive mode : Type :=
| MNormal
| MWord (w : list ascii)              (** literal or number, reversed *)
| MStr (ps : list piece)              (** inside quotes, reversed *)
| MEsc (ps : list piece)              (** after a backslash *)
| MHex (k : nat) (u : N) (ps : list piece).  (** [k] hex digits missing *)

Definition is_json_space (a : ascii) : bool :=
  byte_in 32 32 a || byte_in 9 10 a || byte_in 13 13 a.
Definition is_digit : ascii -> bool := byte_in 48 57.
Definition is_word (a : ascii) : bool :=
  is_digit a || byte_in 97 122 a || byte_in 65 90 a
  || byte_in 43 43 a || byte_in 45 46 a.

Fixpoint skip_digits (l : list ascii) : nat * list ascii :=
  match l with
  | a :: l' => if is_digit a then let '(n, r) := skip_digits l' in (S n, r) else (0, l)
  | [] => (0, [])
  end.

(** Optional minus; 0, or a digit 1-9 and digits; optional fraction; optional
    exponent. *)
Definition valid_number (l : list ascii) : bool :=
  let l := match l with "-"%char :: l' => l' | _ => l end in
  let '(n, r) := skip_digits l in
  let lead := match l with "0"%char :: _ => bool_decide (n = 1) | _ => bool_decide (0 < n) end in
  let '(frac_ok, r) :=
    match r with
    | "."%char :: r' => let '(m, r'') := skip_digits r' in (bool_decide (0 < m), r'')
    | _ => (true, r)
    end in
  let exp_ok :=
    match r with
    | [] => true
    | e :: r' =>
        (bool_decide (e = "e"%char) || bool_decide (e = "E"%char)) &&
        let r' := match r' with
                  | s :: r'' => if bool_decide (s = "+"%char) || bool_decide (s = "-"%char)
                                then r'' else r'
                  | [] => r' end in
        let '(m, r'') := skip_digits r' in
        bool_decide (0 < m) && bool_decide (r'' = [])
    end in
  lead && frac_ok && exp_ok.

Definition word_token (w : list ascii) : option token :=
  let s := string_of_list_ascii (rev w) in
  if bool_decide (s = "true") then Some TTrue
  else if bool_decide (s = "false") then Some TFalse
  else if bool_decide (s = "null") then Some TNull
  else if valid_number (rev w) then Some (TNum s) else None.

Definition punct (a : ascii) : option token :=
  match a with
  | "{"%char => Some TLbrace | "}"%char => Some TRbrace
  | "["%char => Some TLbrack | "]"%char => Some TRbrack
  | ":"%char => Some TColon  | ","%char => Some TComma
  | _ => None
  end.

Definition escape (a : ascii) : option ascii :=
  match a with
  | "034"%char | "\"%char | "/"%char => Some a
  | "b"%char => Some (ascii_of_N 8)  | "f"%char => Some (ascii_of_N 12)
  | "n"%char => Some (ascii_of_N 10) | "r"%char => Some (ascii_of_N 13)
  | "t"%char => Some (ascii_of_N 9)
  | _ => None
  end.

(** [None] is a syntax error. *)
Fixpoint lex (m : mode) (s : list ascii) : option (list token) :=
  match s with
  | [] =>
      match m with
      | MNormal => Some []
      | MWord w => t ← word_token w; Some [t]
      | _ => None
      end
  | a :: s' =>
      let normal (_ : unit) :=
        if is_json_space a then lex MNormal s'
        else if bool_decide (a = "034"%char) then lex (MStr []) s'
        else if is_word a then lex (MWord [a]) s'
        else t ← punct a; ts ← lex MNormal s'; Some (t :: ts) in
      match m with
      | MNormal => normal ()
      | MWord w =>
          if is_word a then lex (MWord (a :: w)) s'
          else t ← word_token w; ts ← normal (); Some (t :: ts)
      | MStr ps =>
          if bool_decide (a = "034"%char)
          then ts ← lex MNormal s'; Some (TStr (unquote [] (rev ps)) :: ts)
          else if bool_decide (a = "\"%char) then lex (MEsc ps) s'
          else if (N_of_ascii a <? 32)%N then None
          else lex (MStr (PRaw a :: ps)) s'
      | MEsc ps =>
          if bool_decide (a = "u"%char) then lex (MHex 4 0 ps) s'
          else c ← escape a; lex (MStr (PEsc c :: ps)) s'
      | MHex k u ps =>
          d ← hex_val a;
          let u' := (u * 16 + d)%N in
          match k with
          | S (S k') => lex (MHex (S k') u' ps) s'
          | _ => lex (MStr (PUnit u' :: ps)) s'
          end
      end
  end.

(** ** Parser *)

Inductive frame : Type :=
| FArr (acc : list json)                          (** elements, reversed *)
| FObj (acc : list (string * json)) (key : string).  (** pairs, reversed; open key *)

Inductive expect : Type :=
| EValue              (** a value must follow *)
| EValueOrClose       (** just after '[' *)
| EKey                (** a key must follow *)
| EKeyOrClose         (** just after '{' *)
| EColon (key : string)
| ECommaOrClose (v : json). (** a value [v] has just been completed *)

Definition maxNestingDepth : N := 10000.

(** The object frame being filled keeps its pairs between a comma and the next
    key in [pairs]. *)
Fixpoint parse (st : list frame) (pairs : list (string * json)) (e : expect)
    (ts : list token) : option json :=
  match ts with
  | [] => match e, st with ECommaOrClose v, [] => Some v | _, _ => None end
  | t :: ts' =>
      let open (k : list frame -> option json) (f : list frame) :=
        if (N.of_nat (S (length f)) <=? maxNestingDepth)%N then k f else None in
      let value (_ : unit) :=
        match t with
        | TNull => parse st [] (ECommaOrClose JNull) ts'
        | TTrue => parse st [] (ECommaOrClose (JBool true)) ts'
        | TFalse => parse st [] (ECommaOrClose (JBool false)) ts'
        | TNum n => parse st [] (ECommaOrClose (JNum n)) ts'
        | TStr s => parse st [] (ECommaOrClose (JStr s)) ts'
        | TLbrack => open (fun f => parse (FArr [] :: f) [] EValueOrClose ts') st
        | TLbrace => open (fun f => parse f [] EKeyOrClose ts') st
        | _ => None
        end in
      match e with
      | EValue => value ()
      | EValueOrClose =>
          match t, st with
          | TRbrack, FArr acc :: st' => parse st' [] (ECommaOrClose (JArr (rev acc))) ts'
          | _, _ => value ()
          end
      | EKey =>
          match t with TStr k => parse st pairs (EColon k) ts' | _ => None end
      | EKeyOrClose =>
          match t with
          | TStr k => parse st pairs (EColon k) ts'
          | TRbrace => parse st [] (ECommaOrClose (JObj (rev pairs))) ts'
          | _ => None
          end
      | EColon k =>
          match t with TColon => parse (FObj pairs k :: st) [] EValue ts' | _ => None end
      | ECommaOrClose v =>
          match st, t with
          | FArr acc :: st', TComma => parse (FArr (v :: acc) :: st') [] EValue ts'
          | FArr acc :: st', TRbrack =>
              parse st' [] (ECommaOrClose (JArr (rev (v :: acc)))) ts'
          | FObj acc k :: st', TComma => parse st' ((k, v) :: acc) EKey ts'
          | FObj acc k :: st', TRbrace =>
              parse st' [] (ECommaOrClose (JObj (rev ((k, v) :: acc)))) ts'
          | _, _ => None
          end
      end
  end.

Definition json_parse (s : string) : option json :=
  ts ← lex MNormal (list_ascii_of_string s); parse [] [] EValue ts.

(** ** Unmarshal *)

(** Into [[]string]: [null] leaves the slice nil, a [null] element is the zero
    string, any other shape is an [UnmarshalTypeError]. *)
Definition json_string_elem (v : json) : option string :=
  match v with JStr s => Some s | JNull => Some "" | _ => None end.

Definition unmarshal_strings (raw : string) : option (list string) :=
  v ← json_parse raw;
  match v with
  | JNull => Some []
  | JArr l => mapM json_string_elem l
  | _ => None
  end.

(** Digits of a number literal, without the point, and the power of ten. *)
Definition digits_val (l : list ascii) : Z :=
  fold_left (fun v a => v * 10 + (Z.of_N (N_of_ascii a) - 48))%Z l 0%Z.

Definition number_parts (raw : string) : Z * Z :=
  let l := list_ascii_of_string raw in
  let l := match l with "-"%char :: l' => l' | _ => l end in
  let '(n, r) := skip_digits l in
  let ip := take n l in
  let '(fp, r) := match r with
                  | "."%char :: r' => let '(m, r'') := skip_digits r' in (take m r', r'')
                  | _ => ([], r)
                  end in
  let ex := match r with
            | _ :: "-"%char :: r' => (- digits_val r')%Z
            | _ :: "+"%char :: r' => digits_val r'
            | _ :: r' => digits_val r'
            | [] => 0%Z
            end in
  (digits_val (ip ++ fp), ex - Z.of_nat (length fp))%Z.

(** [strconv.ParseFloat] reports a range error: the value rounds to an
    infinity, i.e. is at least (2^53 - 1/2) * 2^971. The magnitude test comes
    first so that a huge exponent is never expanded. *)
Definition float_overflows (raw : string) : bool :=
  let '(d, e) := number_parts raw in
  if (d =? 0)%Z then false else
  let mag := (Z.log2 d * 30103 / 100000 + e)%Z in
  if (mag >? 400)%Z then true
  else if (mag <? 200)%Z then false
  else
    let lim := ((2 ^ 54 - 1) * 2 ^ 970)%Z in
    if (0 <=? e)%Z then (lim <=? d * 10 ^ e)%Z else (lim * 10 ^ (- e) <=? d)%Z.

Fixpoint json_decodable (v : json) : bool :=
  match v with
  | JNum n => negb (float_overflows n)
  | JArr l => forallb json_decodable l
  | JObj l => forallb (fun '(_, w) => json_decodable w) l
  | _ => true
  end.

(** Into [map[string]any]: the last pair of a repeated key wins. *)
Definition unmarshal_object (raw : string) : option (list (string * json)) :=
  v ← json_parse raw;
  match v with
  | JNull => Some []
  | JObj l => if json_decodable v then Some l else None
  | _ => None
  end.

Definition object_get (l : list (string * json)) (k : string) : option json :=
  fold_left (fun acc '(k', v) => if bool_decide (k' = k) then Some v else acc) l None.

(** ** Marshal of strings *)

Definition hex_digit (n : N) : ascii := ascii_of_N (if (n <? 10)%N then 48 + n else 87 + n).

Definition quote_ascii (a : ascii) : string :=
  let n := N_of_ascii a in
  let bs b := String (ascii_of_N 92) (String b "") in
  if ((n =? 34) || (n =? 92))%N then bs a
  else if (n =? 8)%N then bs "b"%char else if (n =? 12)%N then bs "f"%char
  else if (n =? 10)%N then bs "n"%char else if (n =? 13)%N then bs "r"%char else if (n =? 9)%N then bs "t"%char
  else if ((n <? 32) || (n =? 60) || (n =? 62) || (n =? 38))%N
  then String (ascii_of_N 92) ("u00" +:+ String (hex_digit (n / 16)) (String (hex_digit (n mod 16)) ""))
  else String a "".

(** U+2028 and U+2029. *)
Definition line_separator (l : list ascii) : option string :=
  match map N_of_ascii (take 3 l) with
  | [226; 128; 168]%N => Some (String (ascii_of_N 92) "u2028")
  | [226; 128; 169]%N => Some (String (ascii_of_N 92) "u2029")
  | _ => None
  end.

(** [skip] bytes of a valid rune are still to be copied, or dropped when it was
    written as an escape. *)
Fixpoint quote_loop (skip : nat) (copy : bool) (l : list ascii) : string :=
  match l with
  | [] => ""
  | a :: l' =>
      match skip with
      | S k => (if copy then String a "" else "") +:+ quote_loop k copy l'
      | O =>
          if (N_of_ascii a <? 128)%N then quote_ascii a +:+ quote_loop 0 true l'
          else match utf8_len a l' with
               | None => String (ascii_of_N 92) "ufffd" +:+ quote_loop 0 true l'
               | Some n =>
                   match line_separator l with
                   | Some e => e +:+ quote_loop (n - 1) false l'
                   | None => String a (quote_loop (n - 1) true l')
                   end
               end
      end
  end.

Definition json_quote (s : string) : string :=
  String (ascii_of_N 34) (quote_loop 0 true (list_ascii_of_string s) +:+ String (ascii_of_N 34) "").

(** A [map[string]string], its keys sorted. *)
Definition marshal_pair (p : string * string) : string :=
  json_quote (fst p) +:+ ":" +:+ json_quote (snd p).

Definition marshal_string_map (l : list (string * string)) : string :=
  "{" +:+ String.concat "," (map marshal_pair (SliceStable (fun a b => String.ltb (fst a) (fst b)) l)) +:+ "}".

(** Into a struct field of type string, by its key; the last key that folds to
    it wins, [null] keeps what is there, another shape is an error. *)
Definition struct_string (l : list (string * json)) (key : string) : option string :=
  fold_left (fun acc '(k, v) =>
    cur ← acc;
    if EqualFold k key then match v with JStr s => Some s | JNull => Some cur | _ => None end
    else Some cur) l (Some "").

(** A sample written with single quotes for double ones. *)
Fixpoint requote (s : string) : string :=
  match s with
  | EmptyString => ""
  | String a s' => String (if bool_decide (a = "'"%char) then ascii_of_N 34 else a) (requote s')
  end.
