(* ===== verification/GoRegexp.v ===== *)
(** Go's [regexp] on the syntax the repository's patterns use: leftmost-first
    matching, as RE2 shares it with Perl, over the runes of a string.

    [Compile] reads a pattern's text.  [run] tries the alternatives in their order
    of preference and hands the rest of the text to a continuation; [matches] is the
    relation it decides.  Searching, listing all matches and replacing them follow
    [FindAllStringIndex] and [ReplaceAllString]. *)

From Stdlib Require Import Ascii String.
From stdpp Require Import base list option strings.
From S2P Require Import Prelude GoStrings GoJson.

#[local] Open Scope list_scope.

(** ** Runes: a code point and the bytes it was read from *)

Record rune := { code : N; bytes : list ascii }.

(** A byte that starts no valid sequence is read as U+FFFD. *)
Fixpoint decode_runes (skip : nat) (l : list ascii) : list rune :=
  match l with
  | [] => []
  | a :: rest =>
      match skip with
      | S n => decode_runes n rest
      | O =>
          if (N_of_ascii a <? 128)%N then {| code := N_of_ascii a; bytes := [a] |} :: decode_runes 0 rest
          else match utf8_len a rest with
               | Some n =>
                   let tail := take (n - 1) rest in
                   {| code := fold_left (fun c b => c * 64 + N_of_ascii b mod 64)%N tail
                                (N_of_ascii a mod (if (n =? 2)%nat then 32 else if (n =? 3)%nat then 16 else 8))%N;
                      bytes := a :: tail |} :: decode_runes (n - 1) rest
               | None => {| code := 65533; bytes := [a] |} :: decode_runes 0 rest
               end
      end
  end.

Definition runes (s : string) : list rune := decode_runes 0 (list_ascii_of_string s).

Definition bytes_of (l : list rune) : list ascii := flat_map bytes l.

Definition width (l : list rune) : nat := List.length (bytes_of l).

(** ** Expressions *)

Inductive re :=
| Class (neg fold : bool) (ranges : list (N * N))
| Bound                          (** an ASCII word boundary *)
| Begin                          (** the start of the text *)
| End                            (** the end of the text *)
| Eps
| Cat (r1 r2 : re)
| Alt (r1 r2 : re)
| Star (greedy : bool) (r : re).

Abbreviation regex := re.

(** Under [(?i)]: the runes that fold to the same as an ASCII letter. *)
Definition fold_orbit (c : N) : list N :=
  (if (97 <=? c) && (c <=? 122) then [c; c - 32] else if (65 <=? c) && (c <=? 90) then [c; c + 32] else [c])%N
  ++ (if (c =? 107) || (c =? 75) then [8490] else if (c =? 115) || (c =? 83) then [383]
      else if (c =? 8490) then [107; 75] else if (c =? 383) then [115; 83] else [])%N.

Definition in_ranges (ranges : list (N * N)) (c : N) : bool :=
  existsb (fun r => (fst r <=? c) && (c <=? snd r))%N ranges.

Definition in_class (neg fold : bool) (ranges : list (N * N)) (c : N) : bool :=
  xorb neg (if fold then existsb (in_ranges ranges) (fold_orbit c) else in_ranges ranges c).

Definition word_ranges : list (N * N) := [(48, 57); (65, 90); (95, 95); (97, 122)]%N.

Definition word_rune (a : rune) : bool := in_ranges word_ranges (code a).

(** What is before a place: nothing at the start, else whether it is a word character. *)
Abbreviation place := (option bool).

Definition after_rune (a : rune) : place := Some (word_rune a).

Definition word_before (prev : place) : bool := default false prev.

Definition word_next (l : list rune) : bool := match l with a :: _ => word_rune a | [] => false end.

(** ** Matching *)

Section Run.
Context {A : Type}.

(** [x*] or [x*?]: again only after a turn that took something. *)
Fixpoint star_loop (step : place -> list rune -> (place -> list rune -> option A) -> option A) (greedy : bool)
    (k : place -> list rune -> option A) (fuel : nat) (prev : place) (l : list rune) : option A :=
  let again := match fuel with
               | O => None
               | S fuel => step prev l (fun p l' => if List.length l' <? List.length l
                                                    then star_loop step greedy k fuel p l' else None)
               end in
  if greedy then match again with Some x => Some x | None => k prev l end
  else match k prev l with Some x => Some x | None => again end.

Fixpoint run (r : re) (prev : place) (l : list rune) (k : place -> list rune -> option A) {struct r} : option A :=
  match r with
  | Class neg fold ranges =>
      match l with a :: l' => if in_class neg fold ranges (code a) then k (after_rune a) l' else None | [] => None end
  | Bound => if xorb (word_before prev) (word_next l) then k prev l else None
  | Begin => match prev with None => k prev l | Some _ => None end
  | End => match l with [] => k prev l | _ => None end
  | Eps => k prev l
  | Cat r1 r2 => run r1 prev l (fun p l' => run r2 p l' k)
  | Alt r1 r2 => match run r1 prev l k with Some x => Some x | None => run r2 prev l k end
  | Star greedy r => star_loop (run r) greedy k (List.length l) prev l
  end.
End Run.

(** Where the match at the front of [l] ends: what precedes the rest, and the rest. *)
Definition match_here (r : re) (prev : place) (l : list rune) : option (place * list rune) :=
  run r prev l (fun p l' => Some (p, l')).

(** The leftmost match: what is before it, the match, and where it ends. *)
Fixpoint leftmost (r : re) (prev : place) (l : list rune) : option (list rune * list rune * place * list rune) :=
  match match_here r prev l with
  | Some (p, rest) => Some ([], take (List.length l - List.length rest) l, p, rest)
  | None =>
      match l with
      | [] => None
      | a :: l' =>
          match leftmost r (after_rune a) l' with
          | Some (before, m, p, rest) => Some (a :: before, m, p, rest)
          | None => None
          end
      end
  end.

Definition MatchString (r : re) (s : string) : bool := bool_decide (is_Some (leftmost r None (runes s))).

(** [last]: the end of the previous match; an empty match right there is dropped. *)
Fixpoint find_all (fuel : nat) (r : re) (last : option nat) (prev : place) (off : nat) (l : list rune) : list (nat * nat) :=
  match fuel with
  | O => []
  | S fuel =>
      match leftmost r prev l with
      | None => []
      | Some (before, m, p, rest) =>
          let b := off + width before in
          let e := b + width m in
          if (e =? off)%nat then
            (if bool_decide (last = Some b) then [] else [(b, e)]) ++
            match rest with
            | [] => []
            | a :: l' => find_all fuel r (Some e) (after_rune a) (off + List.length (bytes a)) l'
            end
          else (b, e) :: find_all fuel r (Some e) p e rest
      end
  end.

Definition FindAllStringIndex (r : re) (s : string) : list (nat * nat) :=
  let l := runes s in find_all (2 * List.length l + 2) r None None 0 l.

(** For expressions that do not match the empty string; [f] of a match replaces it. *)
Fixpoint replace_from (fuel : nat) (r : re) (f : list rune -> list ascii) (prev : place) (l : list rune) : list ascii :=
  match fuel with
  | O => bytes_of l
  | S fuel =>
      match match_here r prev l with
      | Some (p, rest) => f (take (List.length l - List.length rest) l) ++ replace_from fuel r f p rest
      | None => match l with [] => [] | a :: l' => bytes a ++ replace_from fuel r f (after_rune a) l' end
      end
  end.

(** The matches a replacement replaces, from left to right. *)
Fixpoint matches_from (fuel : nat) (r : re) (prev : place) (l : list rune) : list (list rune) :=
  match fuel with
  | O => []
  | S fuel =>
      match match_here r prev l with
      | Some (p, rest) => take (List.length l - List.length rest) l :: matches_from fuel r p rest
      | None => match l with [] => [] | a :: l' => matches_from fuel r (after_rune a) l' end
      end
  end.

Definition FindAllString (r : re) (s : string) : list string :=
  let l := runes s in map (fun m => string_of_list_ascii (bytes_of m)) (matches_from (S (List.length l)) r None l).

Definition replace_runes (r : re) (f : list rune -> list ascii) (s : string) : string :=
  let l := runes s in string_of_list_ascii (replace_from (S (List.length l)) r f None l).

Definition ReplaceAllString (r : re) (s repl : string) : string := replace_runes r (fun _ => list_ascii_of_string repl) s.

Definition ReplaceAllStringFunc (r : re) (s : string) (f : string -> string) : string :=
  replace_runes r (fun m => list_ascii_of_string (f (string_of_list_ascii (bytes_of m)))) s.

Definition slice (l : list ascii) (lo hi : nat) : string := string_of_list_ascii (take (hi - lo) (drop lo l)).

(** ** Patterns: the syntax *)

Fixpoint times (n : nat) (r : re) : re := match n with O => Eps | S n => Cat r (times n r) end.

(** At most [n]: [(x(x(...)?)?)?]. *)
Fixpoint up_to (greedy : bool) (n : nat) (r : re) : re :=
  match n with
  | O => Eps
  | S n => if greedy then Alt (Cat r (up_to greedy n r)) Eps else Alt Eps (Cat r (up_to greedy n r))
  end.

Definition repeat_re (greedy : bool) (lo : nat) (hi : option nat) (r : re) : re :=
  match hi with
  | None => match lo with O => Star greedy r | _ => Cat (times lo r) (Star greedy r) end
  | Some hi => match hi - lo with O => times lo r | n => Cat (times lo r) (up_to greedy n r) end
  end.

Definition space_ranges : list (N * N) := [(9, 10); (12, 13); (32, 32)]%N.
Definition digit_ranges : list (N * N) := [(48, 57)]%N.

Definition max_rune : N := 1114111.

(** The complement of ranges that are sorted and apart. *)
Fixpoint complement (from : N) (ranges : list (N * N)) : list (N * N) :=
  match ranges with
  | [] => [(from, max_rune)]
  | (lo, hi) :: rest => (if from <? lo then [(from, lo - 1)] else [])%N ++ complement (hi + 1) rest
  end.

Definition chr (c : N) (a : ascii) : bool := (c =? N_of_ascii a)%N.

(** What a letter after a backslash stands for; another ASCII letter or digit is none. *)
Definition escape_class (c : N) : option (list (N * N)) :=
  if chr c "s" then Some space_ranges
  else if chr c "S" then Some (complement 0 space_ranges)
  else if chr c "d" then Some digit_ranges
  else if chr c "w" then Some word_ranges
  else if chr c "t" then Some [(9, 9)]%N
  else if chr c "n" then Some [(10, 10)]%N
  else if chr c "r" then Some [(13, 13)]%N
  else if in_ranges [(48, 57); (65, 90); (97, 122)]%N c then None
  else Some [(c, c)].

Definition hex_code (c : N) : option N :=
  (if in_ranges digit_ranges c then Some (c - 48) else if in_ranges [(97, 102)] c then Some (c - 87)
   else if in_ranges [(65, 70)] c then Some (c - 55) else None)%N.

(** The class of an escape, and what follows it; [x] takes two hexadecimal digits. *)
Definition escaped (e : N) (l : list N) : option (list (N * N) * list N) :=
  if chr e "x" then
    match l with
    | h :: h' :: l' => a ← hex_code h; b ← hex_code h'; Some ([(a * 16 + b, a * 16 + b)]%N, l')
    | _ => None
    end
  else rs ← escape_class e; Some (rs, l).

(** The items of a class, up to its bracket. *)
Fixpoint class_items (fuel : nat) (l : list N) : option (list (N * N) * list N) :=
  match fuel with
  | O => None
  | S fuel =>
      match l with
      | [] => None
      | c :: l' =>
          if chr c "]" then Some ([], l')
          else
            '(item, l') ← (if chr c "\" then match l' with e :: l'' => escaped e l'' | [] => None end
                           else match l' with
                                | d :: hi :: l'' => if chr d "-" && negb (chr hi "]") then Some ([(c, hi)], l'')
                                                    else Some ([(c, c)], l')
                                | _ => Some ([(c, c)], l')
                                end);
            '(items, rest) ← class_items fuel l'; Some (item ++ items, rest)
      end
  end.

Fixpoint number (l : list N) : option nat * list N :=
  match l with
  | c :: l' => if in_ranges digit_ranges c
               then let '(rest_value, rest) := number l' in
                    let digits := List.length l' - List.length rest in
                    (Some (N.to_nat (c - 48) * 10 ^ digits + default 0 rest_value), rest)
               else (None, l)
  | [] => (None, [])
  end.

(** [n}], [n,}] or [n,m}]. *)
Definition bounds (l : list N) : option (nat * option nat * list N) :=
  match number l with
  | (Some lo, c :: l') =>
      if chr c "}" then Some (lo, Some lo, l')
      else if chr c "," then
        match number l' with
        | (Some hi, c' :: l'') => if chr c' "}" && (lo <=? hi)%nat then Some (lo, Some hi, l'') else None
        | (None, c' :: l'') => if chr c' "}" then Some (lo, None, l'') else None
        | _ => None
        end
      else None
  | _ => None
  end.

Definition lazy_mark (l : list N) : bool * list N :=
  match l with c :: l' => if chr c "?" then (false, l') else (true, l) | [] => (true, []) end.

Definition quantified (r : re) (l : list N) : option (re * list N) :=
  match l with
  | [] => Some (r, l)
  | c :: l' =>
      b ← (if chr c "*" then Some (Some (0, None, l')) else if chr c "+" then Some (Some (1, None, l'))
           else if chr c "?" then Some (Some (0, Some 1, l'))
           else if chr c "{" then b ← bounds l'; Some (Some b) else Some None);
      Some match b with
           | None => (r, l)
           | Some (lo, hi, rest) => let '(greedy, rest) := lazy_mark rest in (repeat_re greedy lo hi r, rest)
           end
  end.

Section Parse.
(** Letters match in either case. *)
Variable fold : bool.

(** An alternative, up to a bar, a closing parenthesis or the end. *)
Fixpoint parse_alt (fuel : nat) (l : list N) : option (re * list N) :=
  match fuel with
  | O => None
  | S fuel =>
      '(r, rest) ← parse_seq fuel l;
      match rest with
      | c :: rest' => if chr c "|" then '(r', rest'') ← parse_alt fuel rest'; Some (Alt r r', rest'') else Some (r, rest)
      | [] => Some (r, [])
      end
  end
with parse_seq (fuel : nat) (l : list N) : option (re * list N) :=
  match fuel with
  | O => None
  | S fuel =>
      match l with
      | [] => Some (Eps, [])
      | c :: l' =>
          if chr c "|" || chr c ")" then Some (Eps, l)
          else '(r, rest) ← parse_atom fuel c l';
               '(r, rest) ← quantified r rest;
               '(r', rest) ← parse_seq fuel rest;
               Some (Cat r r', rest)
      end
  end
with parse_atom (fuel : nat) (c : N) (l : list N) : option (re * list N) :=
  match fuel with
  | O => None
  | S fuel =>
      if chr c "(" then
        let l := match l with q :: colon :: l' => if chr q "?" && chr colon ":" then l' else l | _ => l end in
        '(r, rest) ← parse_alt fuel l;
        match rest with close :: rest' => if chr close ")" then Some (r, rest') else None | [] => None end
      else if chr c "[" then
        let '(neg, l) := match l with h :: l' => if chr h "^" then (true, l') else (false, l) | [] => (false, []) end in
        '(ranges, rest) ← class_items (S (List.length l)) l; Some (Class neg fold ranges, rest)
      else if chr c "\" then
        match l with
        | [] => None
        | e :: l' => if chr e "b" then Some (Bound, l') else '(rs, l') ← escaped e l'; Some (Class false fold rs, l')
        end
      else if chr c "^" then Some (Begin, l)
      else if chr c "$" then Some (End, l)
      else if existsb (chr c) ["*"; "+"; "?"; "{"; "."]%char then None
      else Some (Class false fold [(c, c)], l)
  end.
End Parse.

(** Only the flag the patterns use; the dot is not read. *)
Definition Compile (pattern : string) : option regex :=
  let '(fold, body) := match CutPrefix pattern "(?i)" with Some body => (true, body) | None => (false, pattern) end in
  let l := map code (runes body) in
  '(r, rest) ← parse_alt fold (3 * List.length l + 3) l;
  if bool_decide (rest = []) then Some r else None.

Definition meta_chars : string := "\.+*?()|[]{}^$".

Fixpoint QuoteMeta (s : string) : string :=
  match s with
  | EmptyString => EmptyString
  | String a s' => if ContainsByte meta_chars a then String "\" (String a (QuoteMeta s')) else String a (QuoteMeta s')
  end.

(** ** What a match is *)

Inductive matches : re -> place -> list rune -> place -> list rune -> Prop :=
| m_class neg fold rs prev a l : in_class neg fold rs (code a) = true -> matches (Class neg fold rs) prev (a :: l) (after_rune a) l
| m_bound prev l : xorb (word_before prev) (word_next l) = true -> matches Bound prev l prev l
| m_begin l : matches Begin None l None l
| m_end prev : matches End prev [] prev []
| m_eps prev l : matches Eps prev l prev l
| m_cat r1 r2 prev l p l' q l'' : matches r1 prev l p l' -> matches r2 p l' q l'' -> matches (Cat r1 r2) prev l q l''
| m_left r1 r2 prev l p l' : matches r1 prev l p l' -> matches (Alt r1 r2) prev l p l'
| m_right r1 r2 prev l p l' : matches r2 prev l p l' -> matches (Alt r1 r2) prev l p l'
| m_done g r prev l : matches (Star g r) prev l prev l
| m_again g r prev l p l' q l'' :
    matches r prev l p l' -> matches (Star g r) p l' q l'' -> matches (Star g r) prev l q l''.

(** A match takes runes off the front; one that takes none stays where it is. *)
Lemma matches_suffix r prev l p l' : matches r prev l p l' -> exists u, l = u ++ l' /\ (u = [] -> p = prev).
Proof.
  induction 1 as [? ? ? ? a| | | | |? ? ? ? ? ? ? ? _ (u & -> & Hu) _ (w & -> & Hw)| | | |? ? ? ? ? ? ? ? _ (u & -> & Hu) _ (w & -> & Hw)];
    eauto; try (exists []; by split).
  - by exists [a].
  - exists (u ++ w). rewrite <- app_assoc. split; [done|]. intros [-> ->]%app_eq_nil. by rewrite Hw, Hu.
  - exists (u ++ w). rewrite <- app_assoc. split; [done|]. intros [-> ->]%app_eq_nil. by rewrite Hw, Hu.
Qed.

Lemma matches_length r prev l p l' : matches r prev l p l' ->
  List.length l' < List.length l \/ l' = l /\ p = prev.
Proof.
  intros (u & -> & Hu)%matches_suffix. rewrite length_app. destruct u; [right; split; auto|left; cbn; lia].
Qed.

(** ** [run] decides [matches] *)

Section Correct.
Context {A : Type}.
Implicit Types (k : place -> list rune -> option A).

Lemma star_loop_sound r greedy k fuel :
  (forall prev l k' x, run r prev l k' = Some x -> exists p l', matches r prev l p l' /\ k' p l' = Some x) ->
  forall prev l x, star_loop (run r) greedy k fuel prev l = Some x ->
    exists p l', matches (Star greedy r) prev l p l' /\ k p l' = Some x.
Proof.
  intros Hr. induction fuel as [|fuel IH]; intros prev l x; cbn [star_loop]; cbv zeta.
  - destruct greedy, (k prev l) eqn:E; intros [= <-]; exists prev, l; (split; [constructor|done]).
  - set (again := run r prev l _).
    assert (again = Some x -> exists p l', matches (Star greedy r) prev l p l' /\ k p l' = Some x) as Ha.
    { intros (p & l' & Hm & Hk)%Hr. case_match; [|done]. apply IH in Hk as (q & l'' & ? & ?). exists q, l''. split; [|done].
      by eapply m_again. }
    destruct greedy; [destruct again as [y|] eqn:E; [intros [= ->]; by apply Ha|]
                     |destruct (k prev l) eqn:E; [intros [= ->]|exact Ha]];
      [intros Hk|]; exists prev, l; (split; [constructor|done]).
Qed.

Lemma run_sound r prev l k x : run r prev l k = Some x -> exists p l', matches r prev l p l' /\ k p l' = Some x.
Proof.
  revert prev l k x. induction r as [n f rs| | | | |r1 IH1 r2 IH2|r1 IH1 r2 IH2|g r IH]; intros prev l k x; cbn [run].
  - destruct l as [|a l]; [done|]. destruct (in_class _ _ _ _) eqn:Hf; [|done].
    intros H. eexists _, _. split; [by constructor|done].
  - destruct (xorb _ _) eqn:Hb; [|done]. intros H. eexists _, _. split; [by constructor|done].
  - destruct prev; [done|]. intros H. eexists _, _. split; [by constructor|done].
  - destruct l; [|done]. intros H. eexists _, _. split; [by constructor|done].
  - intros H. eexists _, _. split; [constructor|done].
  - intros (p & l' & ? & (q & l'' & ? & ?)%IH2)%IH1. exists q, l''. split; [by eapply m_cat|done].
  - destruct (run r1 prev l k) eqn:E.
    + intros [= ->]. apply IH1 in E as (p & l' & ? & ?). exists p, l'. split; [by apply m_left|done].
    + intros (p & l' & ? & ?)%IH2. exists p, l'. split; [by apply m_right|done].
  - by apply star_loop_sound.
Qed.

Lemma star_loop_complete r greedy k :
  (forall prev l k' p l', matches r prev l p l' -> is_Some (k' p l') -> is_Some (run r prev l k')) ->
  forall prev l p l', matches (Star greedy r) prev l p l' -> is_Some (k p l') ->
  forall fuel, List.length l <= fuel -> is_Some (star_loop (run r) greedy k fuel prev l).
Proof.
  intros Hr prev l p l' Hm Hk. remember (Star greedy r) as s eqn:Es. revert Es.
  induction Hm as [| | | | | | | |g r' prev l|g r' prev l p l1 q l2 Hm _ _ IH]; try discriminate; intros [= -> ->] fuel Hf.
  - destruct fuel; cbn [star_loop]; cbv zeta; destruct greedy; destruct Hk as [x ->]; repeat case_match; eauto.
  - specialize (IH Hk eq_refl). destruct (matches_length _ _ _ _ _ Hm) as [Hlt|[-> ->]]; [|by apply IH].
    destruct fuel as [|fuel]; [lia|]. cbn [star_loop]. cbv zeta.
    set (again := run r prev l _).
    assert (is_Some again) as [x Hx].
    { eapply Hr; [exact Hm|]. rewrite (proj2 (Nat.ltb_lt _ _) Hlt). apply IH. lia. }
    rewrite Hx. destruct greedy; [eauto|]. case_match; eauto.
Qed.

Lemma run_complete r prev l k p l' : matches r prev l p l' -> is_Some (k p l') -> is_Some (run r prev l k).
Proof.
  revert prev l k p l'. induction r as [n f rs| | | | |r1 IH1 r2 IH2|r1 IH1 r2 IH2|g r IH]; intros prev l k p l' Hm Hk; cbn [run];
    [..|by eapply star_loop_complete]; inversion Hm; subst.
  - by match goal with H : in_class _ _ _ _ = true |- _ => rewrite H end.
  - by match goal with H : xorb _ _ = true |- _ => rewrite H end.
  - done.
  - done.
  - done.
  - eapply IH1; [done|]. by eapply IH2.
  - destruct (IH1 _ _ _ _ _ ltac:(eassumption) Hk) as [x ->]. eauto.
  - destruct (run r1 prev l k); [eauto|]. by eapply IH2.
Qed.
End Correct.

Lemma match_here_sound r prev l p l' : match_here r prev l = Some (p, l') -> matches r prev l p l'.
Proof. intros (q & l'' & ? & [= -> ->])%run_sound. done. Qed.

Lemma match_here_None r prev l : match_here r prev l = None <-> forall p l', ~ matches r prev l p l'.
Proof.
  split.
  - intros H p l' Hm. destruct (run_complete r prev l (fun p l' => Some (p, l')) p l' Hm) as [x Hx]; [eauto|].
    unfold match_here in H. congruence.
  - intros H. destruct (match_here r prev l) as [[p l']|] eqn:E; [|done]. apply match_here_sound in E. by destruct (H p l').
Qed.

(** ** Searching *)

(** The place after some runes. *)
Definition before_word (prev : place) (before : list rune) : place :=
  match last before with Some a => after_rune a | None => prev end.

Lemma before_word_cons prev a l : before_word prev (a :: l) = before_word (after_rune a) l.
Proof. unfold before_word. rewrite last_cons. by destruct (last l). Qed.

Lemma match_here_front r prev l p rest : match_here r prev l = Some (p, rest) ->
  l = take (List.length l - List.length rest) l ++ rest /\ matches r prev l p rest.
Proof.
  intros Hm%match_here_sound. split; [|done]. destruct (matches_suffix _ _ _ _ _ Hm) as (u & -> & _).
  by rewrite length_app, Nat.add_sub, take_app_length.
Qed.

(** The leftmost place at which the expression matches. *)
Lemma leftmost_spec r prev l :
  match leftmost r prev l with
  | Some (before, m, p, rest) =>
      l = before ++ m ++ rest /\ matches r (before_word prev before) (m ++ rest) p rest /\
      forall b1 b2 q t, before = b1 ++ b2 -> b2 <> [] -> ~ matches r (before_word prev b1) (b2 ++ m ++ rest) q t
  | None => forall before l' q t, l = before ++ l' -> ~ matches r (before_word prev before) l' q t
  end.
Proof.
  revert prev. induction l as [|a l IH]; intros prev; cbn [leftmost]; destruct (match_here r prev _) as [[p rest]|] eqn:E.
  1,3: destruct (match_here_front _ _ _ _ _ E) as [Hl Hm];
    (split; [exact Hl|]; split; [by rewrite <- Hl|]); by intros [|] [|] ? ? [=] ?.
  - intros [|] l' q t; [|done]. cbn. intros <-. by apply match_here_None.
  - rewrite match_here_None in E. specialize (IH (after_rune a)). destruct (leftmost r (after_rune a) l) as [[[[before m] p] rest]|].
    + destruct IH as (-> & Hm & Hleft). split; [done|]. split; [by rewrite before_word_cons|].
      intros [|b b1] b2 q t; cbn [app].
      * intros <- _. apply E.
      * intros [= <- ->] Hne. rewrite before_word_cons. by apply Hleft.
    + intros [|b before] l' q t; cbn [app]; [intros <-; apply E|]. intros [= <- ->]. rewrite before_word_cons. by apply IH.
Qed.

(** The expression matches somewhere in the text. *)
Definition occurs (r : re) (s : string) : Prop :=
  exists before l q t, runes s = before ++ l /\ matches r (before_word None before) l q t.

Lemma MatchString_iff r s : MatchString r s = true <-> occurs r s.
Proof.
  unfold MatchString. rewrite bool_decide_eq_true. pose proof (leftmost_spec r None (runes s)) as H.
  destruct (leftmost r None (runes s)) as [[[[before m] p] rest]|].
  - destruct H as (Hl & Hm & _). split; [|eauto]. intros _. by exists before, (m ++ rest), p, rest.
  - split; [by intros [? ?]|]. intros (before & l & q & t & Hl & Hm). by destruct (H before l q t Hl).
Qed.

Lemma FindAll_nonempty r s : FindAllStringIndex r s <> [] <-> MatchString r s = true.
Proof.
  unfold FindAllStringIndex, MatchString. rewrite bool_decide_eq_true, Nat.add_comm. cbn [plus find_all].
  destruct (leftmost r None (runes s)) as [[[[before m] p] rest]|].
  - split; [eauto|intros _]. case_match; [|done]. rewrite bool_decide_eq_false_2 by done. by destruct rest.
  - split; [done|]. by intros [? ?].
Qed.

(** ** Decoding loses no byte *)

Lemma utf8_len_bound a rest n : utf8_len a rest = Some n -> 2 <= n <= S (List.length rest).
Proof.
  unfold utf8_len. destruct rest as [|b [|c [|d rest]]]; cbn [List.length]; repeat case_match; intros [= <-]; lia.
Qed.

Lemma decode_bytes l : forall skip, skip <= List.length l -> bytes_of (decode_runes skip l) = drop skip l.
Proof.
  induction l as [|a l IH]; intros skip Hs; cbn [decode_runes]; [by destruct skip|].
  destruct skip as [|n]; [|apply IH; cbn in Hs; lia].
  destruct (_ <? 128)%N; [cbn; by rewrite IH by lia|]. destruct (utf8_len a l) as [n|] eqn:E.
  - apply utf8_len_bound in E. cbn. f_equal. rewrite IH by lia. apply take_drop.
  - cbn. by rewrite IH by lia.
Qed.

Lemma bytes_of_runes s : bytes_of (runes s) = list_ascii_of_string s.
Proof. unfold runes. by rewrite decode_bytes by lia. Qed.

Definition wide (a : rune) : Prop := bytes a <> [].

Lemma decode_wide l : forall skip, Forall wide (decode_runes skip l).
Proof.
  induction l as [|a l IH]; intros skip; cbn [decode_runes]; [constructor|].
  destruct skip; [|done]. repeat case_match; by constructor.
Qed.

Lemma width_app l1 l2 : width (l1 ++ l2) = width l1 + width l2.
Proof. unfold width, bytes_of. by rewrite flat_map_app, length_app. Qed.

Lemma width_wide l : Forall wide l -> List.length l <= width l.
Proof.
  induction 1 as [|a l Ha _ IH]; [done|]. change (a :: l) with ([a] ++ l). rewrite width_app, length_app.
  unfold width at 1. cbn. unfold wide in Ha. destruct (bytes a); [done|]. cbn. lia.
Qed.

(** ** Replacement *)

(** A left-to-right pass: a rune no match starts at is kept, a match is replaced. *)
Inductive replaced (r : re) (f : list rune -> list ascii) : place -> list rune -> list ascii -> Prop :=
| rep_end prev : (forall p l', ~ matches r prev [] p l') -> replaced r f prev [] []
| rep_keep prev a l out : (forall p l', ~ matches r prev (a :: l) p l') -> replaced r f (after_rune a) l out ->
    replaced r f prev (a :: l) (bytes a ++ out)
| rep_hit prev u l' p out : match_here r prev (u ++ l') = Some (p, l') -> matches r prev (u ++ l') p l' ->
    replaced r f p l' out -> replaced r f prev (u ++ l') (f u ++ out).

(** The least number of runes a match takes. *)
Fixpoint min_len (r : re) : nat :=
  match r with
  | Class _ _ _ => 1
  | Bound | Begin | End | Eps | Star _ _ => 0
  | Cat r1 r2 => min_len r1 + min_len r2
  | Alt r1 r2 => Nat.min (min_len r1) (min_len r2)
  end.

Lemma matches_min_len r prev l p l' : matches r prev l p l' -> List.length l' + min_len r <= List.length l.
Proof. induction 1; cbn in *; lia. Qed.

Lemma replace_from_spec r f fuel prev l : 1 <= min_len r -> List.length l < fuel ->
  replaced r f prev l (replace_from fuel r f prev l).
Proof.
  intros Hr. revert prev l. induction fuel as [|fuel IH]; intros prev l Hf; [lia|].
  cbn [replace_from]. destruct (match_here r prev l) as [[p rest]|] eqn:E.
  - pose proof (match_here_sound _ _ _ _ _ E) as Hm. pose proof (matches_min_len _ _ _ _ _ Hm) as Hlen.
    destruct (matches_suffix _ _ _ _ _ Hm) as (u & -> & _). rewrite length_app, Nat.add_sub, take_app_length.
    apply rep_hit with p; [done|done|]. apply IH. lia.
  - rewrite match_here_None in E. destruct l as [|a l]; [by constructor|]. constructor; [done|]. apply IH. cbn in Hf. lia.
Qed.

Lemma leftmost_None r prev l : leftmost r prev l = None <-> forall b l' q t, l = b ++ l' -> ~ matches r (before_word prev b) l' q t.
Proof.
  pose proof (leftmost_spec r prev l) as H. destruct (leftmost r prev l) as [[[[b m] p] rest]|]; [|done].
  destruct H as (Hl & Hm & _). split; [done|]. intros Hn. by destruct (Hn _ _ _ _ Hl Hm).
Qed.

(** Without a match nothing changes; with one, and a replacement shorter than any
    match, the text gets shorter. *)
Lemma replaced_length r f prev l out : (forall u, List.length (f u) < min_len r) -> Forall wide l -> replaced r f prev l out ->
  if bool_decide (is_Some (leftmost r prev l)) then List.length out < width l else out = bytes_of l.
Proof.
  intros Hr Hw. induction 1 as [prev Hn|prev a l out Hn _ IH|prev u l p out E Hm _ IH].
  - rewrite bool_decide_eq_false_2; [done|]. rewrite <- eq_None_not_Some. apply leftmost_None.
    intros [|] [|] q t [=]. apply Hn.
  - apply Forall_cons in Hw as [_ Hw]. specialize (IH Hw). cbn [leftmost]. rewrite (proj2 (match_here_None _ _ _) Hn).
    change (a :: l) with ([a] ++ l). rewrite width_app. unfold width at 1. cbn [bytes_of flat_map]. rewrite app_nil_r, length_app.
    destruct (leftmost r (after_rune a) l) as [[[[b m] q] rest]|].
    + rewrite bool_decide_eq_true_2 in * by eauto. lia.
    + rewrite bool_decide_eq_false_2 in IH |- * by (by intros [? ?]). by subst.
  - apply matches_min_len in Hm. rewrite length_app in *. apply Forall_app in Hw as [Hu Hw]. specialize (IH Hw).
    apply width_wide in Hu. specialize (Hr u).
    rewrite bool_decide_eq_true_2 by (destruct (u ++ l); cbn [leftmost]; rewrite E; eauto). rewrite width_app.
    case_bool_decide; [lia|]. subst. fold (width l). lia.
Qed.

Lemma length_list_ascii t : List.length (list_ascii_of_string t) = String.length t.
Proof. induction t; cbn; congruence. Qed.

Lemma ReplaceAllString_spec r s repl : String.length repl < min_len r ->
  if MatchString r s then String.length (ReplaceAllString r s repl) < String.length s else ReplaceAllString r s repl = s.
Proof.
  intros Hr. unfold MatchString, ReplaceAllString, replace_runes.
  pose proof (replaced_length r (fun _ => list_ascii_of_string repl) None (runes s) _ ltac:(intros ?; cbn beta; by rewrite length_list_ascii) (decode_wide _ 0)
                (replace_from_spec r _ (S (List.length (runes s))) None (runes s) ltac:(lia) ltac:(lia))) as H.
  destruct (bool_decide _).
  - unfold width in H. rewrite bytes_of_runes, length_list_ascii in H.
    rewrite <- length_list_ascii, list_ascii_of_string_of_list_ascii. exact H.
  - rewrite H, bytes_of_runes. apply string_of_list_ascii_of_string.
Qed.

(** A text in pieces, kept or matched, and what its replacement makes of them. *)
Lemma replace_from_pieces r f fuel : forall (prev : place) (l : list rune), exists ps : list (bool * list rune),
  l = concat (map snd ps) /\
  replace_from fuel r f prev l = concat (map (fun p : bool * list rune => if fst p then f (snd p) else bytes_of (snd p)) ps) /\
  matches_from fuel r prev l = map snd (List.filter fst ps).
Proof.
  induction fuel as [|fuel IH]; intros prev l; cbn [replace_from matches_from].
  - exists [(false, l)]. cbn. by rewrite !app_nil_r.
  - destruct (match_here r prev l) as [[p rest]|] eqn:E.
    + destruct (match_here_front _ _ _ _ _ E) as [Hl _]. destruct (IH p rest) as (ps & H1 & H2 & H3).
      exists ((true, take (List.length l - List.length rest) l) :: ps). cbn. by rewrite <- H1, H2, H3, <- Hl.
    + destruct l as [|a l]; [by exists []|]. destruct (IH (after_rune a) l) as (ps & H1 & H2 & H3).
      exists ((false, [a]) :: ps). cbn. by rewrite <- H1, H2, H3, app_nil_r.
Qed.

Lemma bytes_of_concat ls : bytes_of (concat ls) = concat (map bytes_of ls).
Proof. induction ls as [|l ls IH]; [done|]. cbn. unfold bytes_of at 1. rewrite flat_map_app. by rewrite <- IH. Qed.

Lemma string_concat ls : string_of_list_ascii (concat ls) = foldr String.append EmptyString (map string_of_list_ascii ls).
Proof. induction ls as [|l ls IH]; [done|]. cbn [concat map foldr]. by rewrite string_of_list_app, IH. Qed.

Lemma ReplaceAllStringFunc_pieces r s f : exists ps : list (bool * string),
  s = foldr String.append EmptyString (map snd ps) /\
  ReplaceAllStringFunc r s f = foldr String.append EmptyString (map (fun p : bool * string => if fst p then f (snd p) else snd p) ps) /\
  FindAllString r s = map snd (List.filter fst ps).
Proof.
  destruct (replace_from_pieces r (fun m => list_ascii_of_string (f (string_of_list_ascii (bytes_of m))))
              (S (List.length (runes s))) None (runes s)) as (ps & H1 & H2 & H3).
  exists (map (fun p => (fst p, string_of_list_ascii (bytes_of (snd p)))) ps). split_and!.
  - apply (f_equal bytes_of) in H1. rewrite bytes_of_runes, bytes_of_concat in H1.
    apply (f_equal string_of_list_ascii) in H1. rewrite string_of_list_ascii_of_string, string_concat in H1.
    rewrite H1, !map_map. done.
  - unfold ReplaceAllStringFunc, replace_runes. rewrite H2, string_concat, !map_map. f_equal. apply map_ext.
    intros [[] u]; cbn [fst snd]; [|done]. apply string_of_list_ascii_of_string.
  - unfold FindAllString. rewrite H3, map_map. clear. induction ps as [|[[] u] ps IH]; [done| |done]. cbn. by rewrite <- IH.
Qed.

(** Spans from left to right, apart, between two places. *)
Fixpoint ordered (lo hi : nat) (spans : list (nat * nat)) : Prop :=
  match spans with
  | [] => True
  | (b, e) :: rest => lo <= b <= e /\ e <= hi /\ ordered e hi rest
  end.

Lemma ordered_weaken lo lo' hi spans : lo' <= lo -> ordered lo hi spans -> ordered lo' hi spans.
Proof. destruct spans as [|[b e] spans]; cbn; [done|]. intros ? ([? ?] & ? & ?). split_and!; [lia|lia|lia|done]. Qed.

Lemma find_all_ordered r fuel : forall last prev off l,
  ordered off (off + width l) (find_all fuel r last prev off l).
Proof.
  induction fuel as [|fuel IH]; intros last prev off l; cbn [find_all]; [done|].
  pose proof (leftmost_spec r prev l) as H. destruct (leftmost r prev l) as [[[[before m] p] rest]|]; [|done].
  destruct H as (Hl & _). apply (f_equal width) in Hl. rewrite !width_app in Hl. cbv zeta.
  destruct (Nat.eqb_spec (off + width before + width m) off) as [E|E].
  - assert (ordered (off + width before + width m) (off + width l)
      match rest with [] => [] | a :: l' => find_all fuel r (Some (off + width before + width m)) (after_rune a)
                                              (off + List.length (bytes a)) l' end) as Hr.
    { destruct rest as [|a l']; [done|]. change (a :: l') with ([a] ++ l') in Hl. rewrite width_app in Hl.
      assert (width [a] = List.length (bytes a)) as Ha by (unfold width; cbn; by rewrite app_nil_r).
      replace (off + width l) with (off + List.length (bytes a) + width l') by lia.
      eapply ordered_weaken; [|apply IH]. lia. }
    case_bool_decide; cbn [app ordered]; [|split_and!; [lia|lia|lia|exact Hr]]. eapply ordered_weaken; [|exact Hr]. lia.
  - cbn [ordered]. split_and!; [lia|lia|lia|].
    replace (off + width l) with (off + width before + width m + width rest) by lia. apply IH.
Qed.

Lemma FindAllStringIndex_ordered r s : ordered 0 (String.length s) (FindAllStringIndex r s).
Proof.
  unfold FindAllStringIndex. pose proof (find_all_ordered r (2 * List.length (runes s) + 2) None None 0 (runes s)) as H.
  unfold width in H. rewrite bytes_of_runes in H.
  by rewrite length_list_ascii in H.
Qed.
