(* ===== verification/GoPath.v ===== *)
(** Go's [path] package as the program uses it: [path.Match].

    The pattern language is [*] (any run without a slash), [?] (one byte that is
    not a slash), bracketed classes and backslash escapes.  Runes are bytes here, which
    is exact for ASCII patterns and names.  A malformed pattern is [None]
    ([ErrBadPattern]). *)

From Stdlib Require Import Ascii String.
From S2P Require Import Prelude GoStrings.

#[local] Open Scope string_scope.
#[local] Open Scope list_scope.

Definition b_star := ascii_of_N 42.
Definition b_dash := ascii_of_N 45.
Definition b_slash := ascii_of_N 47.
Definition b_quest := ascii_of_N 63.
Definition b_lbrack := ascii_of_N 91.
Definition b_backslash := ascii_of_N 92.
Definition b_rbrack := ascii_of_N 93.
Definition b_caret := ascii_of_N 94.

Definition beq (a b : ascii) : bool := bool_decide (a = b).

(** The chunk loop of [scanChunk]: (chunk, rest). *)
Fixpoint scan_body (inrange : bool) (p : list ascii) : list ascii * list ascii :=
  match p with
  | [] => ([], [])
  | a :: p' =>
      if beq a b_backslash then
        match p' with
        | [] => ([a], [])
        | b :: p'' => let '(c, r) := scan_body inrange p'' in (a :: b :: c, r)
        end
      else if beq a b_star && negb inrange then ([], p)
      else
        let inrange' := if beq a b_lbrack then true else if beq a b_rbrack then false else inrange in
        let '(c, r) := scan_body inrange' p' in (a :: c, r)
  end.

Fixpoint scanChunk (p : list ascii) : bool * list ascii * list ascii :=
  match p with
  | a :: p' =>
      if beq a b_star then let '(_, c, r) := scanChunk p' in (true, c, r)
      else let '(c, r) := scan_body false p in (false, c, r)
  | [] => (false, [], [])
  end.

(** One possibly escaped byte of a class; the chunk may not end after it. *)
Definition getEsc (chunk : list ascii) : option (ascii * list ascii) :=
  match chunk with
  | [] => None
  | a :: c =>
      if beq a b_dash || beq a b_rbrack then None else
      '(r, n) ← (if beq a b_backslash
                 then match c with [] => None | b :: c' => Some (b, c') end
                 else Some (a, c));
      match n with [] => None | _ => Some (r, n) end
  end.

Definition in_range (lo hi r : ascii) : bool :=
  (N_of_ascii lo <=? N_of_ascii r)%N && (N_of_ascii r <=? N_of_ascii hi)%N.

(** The ranges of a class up to its closing bracket: whether [r] is in one, and the
    rest of the chunk. *)
Fixpoint match_ranges (fuel : nat) (first : bool) (r : ascii) (chunk : list ascii)
  : option (bool * list ascii) :=
  match fuel with
  | O => None
  | S fuel' =>
      match chunk with
      | a :: c =>
          if beq a b_rbrack && negb first then Some (false, c) else
          '(lo, n) ← getEsc chunk;
          '(hi, n') ← match n with
                      | d :: n1 => if beq d b_dash then getEsc n1 else Some (lo, n)
                      | [] => None
                      end;
          '(m, rest) ← match_ranges fuel' false r n';
          Some (in_range lo hi r || m, rest)
      | [] => None
      end
  end.

(** [matchChunk]: [None] a malformed chunk, [Some None] no match, [Some (Some s)]
    the rest of the name.  [s = None] once the match has failed: the chunk is then
    only checked for syntax. *)
Fixpoint matchChunk (fuel : nat) (chunk : list ascii) (s : option (list ascii))
  : option (option (list ascii)) :=
  match chunk with
  | [] => Some s
  | a :: c =>
      match fuel with
      | O => None
      | S fuel' =>
          let s := match s with Some [] => None | _ => s end in
          let eat (x : ascii) (c : list ascii) :=
            matchChunk fuel' c
              match s with
              | Some (y :: s') => if beq x y then Some s' else None
              | _ => None
              end in
          if beq a b_lbrack then
            let '(neg, c) := match c with
                             | b :: c' => if beq b b_caret then (true, c') else (false, c)
                             | [] => (false, c)
                             end in
            let r := match s with Some (y :: _) => y | _ => ascii_of_N 0 end in
            '(m, rest) ← match_ranges (S (length c)) true r c;
            matchChunk fuel' rest
              match s with
              | Some (_ :: s') => if Bool.eqb m neg then None else Some s'
              | _ => None
              end
          else if beq a b_quest then
            matchChunk fuel' c
              match s with
              | Some (y :: s') => if beq y b_slash then None else Some s'
              | _ => None
              end
          else if beq a b_backslash then
            match c with
            | [] => None
            | b :: c' => eat b c'
            end
          else eat a c
      end
  end.

Definition match_chunk (chunk name : list ascii) : option (option (list ascii)) :=
  matchChunk (length chunk) chunk (Some name).

(** The syntax of the remaining chunks. *)
Fixpoint rest_valid (fuel : nat) (p : list ascii) : bool :=
  match fuel, p with
  | S fuel', _ :: _ =>
      let '(_, chunk, p') := scanChunk p in
      match match_chunk chunk [] with
      | None => false
      | Some _ => rest_valid fuel' p'
      end
  | _, _ => true
  end.

(** The search behind a star: the chunk at every later position before a slash. *)
Fixpoint star_search (chunk : list ascii) (last : bool) (name : list ascii)
  : option (option (list ascii)) :=
  match name with
  | [] => Some None
  | a :: name' =>
      if beq a b_slash then Some None else
      match match_chunk chunk name' with
      | None => None
      | Some (Some t) =>
          if last && negb (bool_decide (t = [])) then star_search chunk last name' else Some (Some t)
      | Some None => star_search chunk last name'
      end
  end.

Fixpoint match_loop (fuel : nat) (p name : list ascii) : option bool :=
  match p with
  | [] => Some (bool_decide (name = []))
  | _ =>
      match fuel with
      | O => None
      | S fuel' =>
          let '(star, chunk, p') := scanChunk p in
          let fail := if rest_valid fuel' p' then Some false else None in
          let last := bool_decide (p' = []) in
          if star && bool_decide (chunk = []) then Some (negb (bool_decide (b_slash ∈ name))) else
          match match_chunk chunk name with
          | Some (Some t) =>
              if bool_decide (t = []) || negb last then match_loop fuel' p' t
              else if star then
                match star_search chunk last name with
                | None => None
                | Some (Some t) => match_loop fuel' p' t
                | Some None => fail
                end
              else fail
          | None => None
          | Some None =>
              if star then
                match star_search chunk last name with
                | None => None
                | Some (Some t) => match_loop fuel' p' t
                | Some None => fail
                end
              else fail
          end
      end
  end.

(** [path.Match]: [None] is ErrBadPattern. *)
Definition Match (pattern name : string) : option bool :=
  match_loop (String.length pattern) (list_ascii_of_string pattern) (list_ascii_of_string name).

(** The calls [ok, err := path.Match(p, n); err == nil && ok]. *)
Definition path_matches (pattern name : string) : bool :=
  match Match pattern name with Some b => b | None => false end.

Example m1 : Match "github__*" "github__list" = Some true. Proof. reflexivity. Qed.
Example m2 : Match "*__list" "github__list" = Some true. Proof. reflexivity. Qed.
Example m3 : Match "a[b-d]?" "acx" = Some true. Proof. reflexivity. Qed.
Example m4 : Match "a[^b-d]" "ac" = Some false. Proof. reflexivity. Qed.
Example m5 : Match "a[" "a" = None. Proof. reflexivity. Qed.
Example m6 : Match "*b*d" "abxbcd" = Some true. Proof. reflexivity. Qed.
Example m7 : Match "a*" "a/b" = Some false. Proof. reflexivity. Qed.
Example m8 : Match "x" "" = Some false. Proof. reflexivity. Qed.
