(* ===== verification/Glob.v ===== *)
(** Path globs of the router: [internal/routing/glob.go].

    [globMatch] is the matcher on segments, [GlobMatch] the entry point on
    slash-separated strings, [GlobSpecificity] the score the rule order uses.
    The declarative meaning of a pattern is the relation [glob_rel]. *)

From Stdlib Require Import Ascii String.
From S2P Require Import Prelude GoStrings.

#[local] Open Scope string_scope.
#[local] Open Scope list_scope.

(** ** Operations *)

Definition segmentMatch (pattern segment : string) : bool :=
  if bool_decide (pattern = "*") then true else bool_decide (pattern = segment).

(** The loop [for i := 0; i <= len(seg); i++] of the "**" case: try [k] on every
    suffix of [seg], from the longest to the empty one. *)
Fixpoint any_suffix (k : list string -> bool) (seg : list string) : bool :=
  k seg || match seg with [] => false | _ :: seg' => any_suffix k seg' end.

(** The recursion of globMatch is structural in the pattern: one iteration of
    the outer loop drops one pattern segment. *)
Fixpoint globMatch (pat seg : list string) : bool :=
  match pat with
  | [] => match seg with [] => true | _ => false end
  | p :: pat' =>
      if bool_decide (p = "**") then
        match pat' with
        | [] => true
        | _ => any_suffix (globMatch pat') seg
        end
      else
        match seg with
        | [] => false
        | s :: seg' => if segmentMatch p s then globMatch pat' seg' else false
        end
  end.

Definition GlobMatch (pattern path : string) : bool :=
  globMatch (SplitByte pattern "/") (SplitByte path "/").

Definition segment_score (p : string) : Z :=
  if bool_decide (p = "**") then 0
  else if bool_decide (p = "*") then 1 else 10.

Definition GlobSpecificity (pattern : string) : Z :=
  fold_left (fun score p => score + segment_score p)%Z (SplitByte pattern "/") 0%Z.

(** ** Declarative meaning *)

Inductive glob_rel : list string -> list string -> Prop :=
| glob_nil : glob_rel [] []
| glob_star pat s seg : glob_rel pat seg -> glob_rel ("*" :: pat) (s :: seg)
| glob_literal p pat seg :
    p <> "*" -> p <> "**" -> glob_rel pat seg -> glob_rel (p :: pat) (p :: seg)
| glob_doublestar pat seg1 seg2 :
    glob_rel pat seg2 -> glob_rel ("**" :: pat) (seg1 ++ seg2).

#[export] Hint Constructors glob_rel : go.

(** ** Lemmas *)

Lemma any_suffix_spec (k : list string -> bool) (seg : list string) :
  any_suffix k seg = true <-> exists seg1 seg2, seg = seg1 ++ seg2 /\ k seg2 = true.
Proof.
  induction seg as [|s seg IH]; cbn [any_suffix].
  - rewrite orb_false_r. split.
    + intros H. by exists [], [].
    + intros (seg1 & seg2 & H & Hk). symmetry in H.
      apply app_nil in H as [-> ->]. done.
  - rewrite orb_true_iff, IH. split.
    + intros [H | (seg1 & seg2 & -> & H)]; [by exists [], (s :: seg)|].
      by exists (s :: seg1), seg2.
    + intros ([|s' seg1] & seg2 & H & Hk); simpl in H.
      * left. by subst.
      * right. injection H as -> ->. eauto.
Qed.

Lemma segmentMatch_true (p s : string) :
  segmentMatch p s = true <-> p = "*" \/ p = s.
Proof.
  unfold segmentMatch. case_bool_decide; [tauto|].
  rewrite bool_decide_eq_true. tauto.
Qed.

Lemma globMatch_sound (pat seg : list string) :
  globMatch pat seg = true -> glob_rel pat seg.
Proof.
  revert seg. induction pat as [|p pat IH]; intros seg; cbn [globMatch].
  - destruct seg; [constructor|done].
  - case_bool_decide as Hp; subst.
    + destruct pat as [|q pat].
      * intros _. rewrite <- (app_nil_r seg). auto with go.
      * intros (seg1 & seg2 & -> & H)%any_suffix_spec. auto with go.
    + destruct seg as [|s seg]; [done|].
      destruct (segmentMatch p s) eqn:Hs; [|done]. intros H.
      destruct (decide (p = "*")) as [->|Hne]; [auto with go|].
      apply segmentMatch_true in Hs as [?|<-]; [done|]. auto with go.
Qed.

Lemma globMatch_complete (pat seg : list string) :
  glob_rel pat seg -> globMatch pat seg = true.
Proof.
  induction 1 as [|pat s seg H IH|p pat seg Hp1 Hp2 H IH|pat seg1 seg2 H IH];
    cbn [globMatch].
  - done.
  - rewrite bool_decide_eq_false_2 by done.
    by rewrite (proj2 (segmentMatch_true _ _)) by auto.
  - rewrite bool_decide_eq_false_2 by done.
    by rewrite (proj2 (segmentMatch_true _ _)) by auto.
  - rewrite bool_decide_eq_true_2 by done.
    destruct pat as [|q pat]; [done|].
    apply any_suffix_spec. eauto.
Qed.

(** The segment matcher decides exactly the declarative meaning of a glob,
    and so does [GlobMatch] on the slash-separated strings. *)
Theorem GlobMatch_correct (pattern path : string) :
  GlobMatch pattern path = true <->
  glob_rel (SplitByte pattern "/") (SplitByte path "/").
Proof. split; [apply globMatch_sound | apply globMatch_complete]. Qed.
