(* ===== verification/Cache.v ===== *)
(** The in-memory cache: [internal/cache/cache.go].

    LRU eviction over a map of pointers into a recency list, TTL expiry and a
    singleflight load.  The pointers are kept: [items] maps a key to the address
    of a list element, [evictList] is the list of element addresses (front
    first) and [heap] holds the entries, so a write through the pointer found in
    [items] is seen by the list.  Instants and durations are nanoseconds ([Z]).

    Sections: the operations; the well-formedness invariant; refinement of the
    abstract LRU list. *)

From S2P Require Import Prelude.
From stdpp Require Import gmap.

#[local] Open Scope Z_scope.

Record Stats := {
  Hits : Z;
  Misses : Z;
  Evictions : Z;
  Entries : Z
}.
Definition zero_stats : Stats := {| Hits := 0; Misses := 0; Evictions := 0; Entries := 0 |}.

Record entry (K V : Type) := {
  key : K;
  value : V;
  createdAt : Z;
  expiresAt : Z
}.
Arguments key {K V}. Arguments value {K V}.
Arguments createdAt {K V}. Arguments expiresAt {K V}.

(** Address of an element of the recency list. *)
Abbreviation element := nat (only parsing).

Record Cache (K V : Type) `{Countable K} := {
  items : gmap K element;
  evictList : list element;
  heap : gmap element (entry K V);
  fresh : element;
  maxEntries : Z;
  defaultTTL : Z;
  stats : Stats
}.
Arguments items {K V _ _}. Arguments evictList {K V _ _}. Arguments heap {K V _ _}.
Arguments fresh {K V _ _}. Arguments maxEntries {K V _ _}.
Arguments defaultTTL {K V _ _}. Arguments stats {K V _ _}.

Section Operations.
Context {K V : Type} `{Countable K}.
Implicit Types c : Cache K V.

(** [New] *)
Definition New (maxE ttl : Z) : Cache K V :=
  {| items := ∅; evictList := []; heap := ∅; fresh := 0%nat;
     maxEntries := if maxE <=? 0 then 1000 else maxE;
     defaultTTL := ttl; stats := zero_stats |}.

Definition with_stats (f : Stats -> Stats) c : Cache K V :=
  {| items := items c; evictList := evictList c; heap := heap c; fresh := fresh c;
     maxEntries := maxEntries c; defaultTTL := defaultTTL c; stats := f (stats c) |}.

Definition with_list (l : list element) c : Cache K V :=
  {| items := items c; evictList := l; heap := heap c; fresh := fresh c;
     maxEntries := maxEntries c; defaultTTL := defaultTTL c; stats := stats c |}.

Definition hit (s : Stats) : Stats :=
  {| Hits := Hits s + 1; Misses := Misses s; Evictions := Evictions s; Entries := Entries s |}.
Definition miss (s : Stats) : Stats :=
  {| Hits := Hits s; Misses := Misses s + 1; Evictions := Evictions s; Entries := Entries s |}.
Definition eviction (s : Stats) : Stats :=
  {| Hits := Hits s; Misses := Misses s; Evictions := Evictions s + 1; Entries := Entries s |}.

(** [container/list]: unlink an element. *)
Definition unlink (el : element) (l : list element) : list element :=
  base.filter (fun a => a ≠ el) l.

Definition removeLocked (el : element) c : Cache K V :=
  match heap c !! el with
  | None => c
  | Some e =>
      {| items := delete (key e) (items c); evictList := unlink el (evictList c);
         heap := heap c; fresh := fresh c; maxEntries := maxEntries c;
         defaultTTL := defaultTTL c; stats := stats c |}
  end.

Definition evictOldestLocked c : Cache K V :=
  match last (evictList c) with
  | None => c
  | Some el => with_stats eviction (removeLocked el c)
  end.

(** The loop of SetWithTTL; each turn unlinks an element. *)
Fixpoint evictLoop (fuel : nat) c : Cache K V :=
  match fuel with
  | O => c
  | S fuel' =>
      if maxEntries c <? Z.of_nat (length (evictList c))
      then evictLoop fuel' (evictOldestLocked c) else c
  end.

Definition GetWithAge (now : Z) (k : K) c : option (V * Z) * Cache K V :=
  match items c !! k with
  | None => (None, with_stats miss c)
  | Some el =>
      match heap c !! el with
      | None => (None, c)
      | Some e =>
          if expiresAt e <? now
          then (None, with_stats miss (removeLocked el c))
          else (Some (value e, now - createdAt e),
                with_stats hit (with_list (el :: unlink el (evictList c)) c))
      end
  end.

Definition Get (now : Z) (k : K) c : option V * Cache K V :=
  match items c !! k with
  | None => (None, with_stats miss c)
  | Some el =>
      match heap c !! el with
      | None => (None, c)
      | Some e =>
          if expiresAt e <? now
          then (None, with_stats miss (removeLocked el c))
          else (Some (value e),
                with_stats hit (with_list (el :: unlink el (evictList c)) c))
      end
  end.

Definition SetWithTTL (now : Z) (k : K) (v : V) (ttl : Z) c : Cache K V :=
  let e := {| key := k; value := v; createdAt := now; expiresAt := now + ttl |} in
  match items c !! k with
  | Some el =>
      {| items := items c; evictList := el :: unlink el (evictList c);
         heap := <[el := e]> (heap c); fresh := fresh c;
         maxEntries := maxEntries c; defaultTTL := defaultTTL c; stats := stats c |}
  | None =>
      let el := fresh c in
      let c' := {| items := <[k := el]> (items c); evictList := el :: evictList c;
                   heap := <[el := e]> (heap c); fresh := S el;
                   maxEntries := maxEntries c; defaultTTL := defaultTTL c;
                   stats := stats c |} in
      evictLoop (length (evictList c')) c'
  end.

Definition Set' (now : Z) (k : K) (v : V) c : Cache K V :=
  SetWithTTL now k v (defaultTTL c) c.

Definition Invalidate (k : K) c : Cache K V :=
  match items c !! k with
  | Some el => removeLocked el c
  | None => c
  end.

Definition InvalidateFunc (p : K -> bool) c : Cache K V :=
  foldr (fun '(k, el) (c' : Cache K V) => if p k then removeLocked el c' else c') c
    (map_to_list (items c)).

Definition Flush c : Cache K V :=
  {| items := ∅; evictList := []; heap := heap c; fresh := fresh c;
     maxEntries := maxEntries c; defaultTTL := defaultTTL c; stats := stats c |}.

Definition Len c : nat := size (items c).

Definition Stats_ c : Stats :=
  {| Hits := Hits (stats c); Misses := Misses (stats c);
     Evictions := Evictions (stats c); Entries := Z.of_nat (size (items c)) |}.

Definition ResetStats c : Cache K V := with_stats (fun _ => zero_stats) c.

(** GetOrLoad when no other goroutine is loading the key: fast path, load,
    and Set on success only.  [now1] and [now2] are the clock reads of the
    lookup and of the store. *)
Definition GetOrLoad {E} (now1 now2 : Z) (k : K) (load : result E V) c
  : result E V * Cache K V :=
  match Get now1 k c with
  | (Some v, c') => (Ok v, c')
  | (None, c') =>
      match load with
      | Ok v => (Ok v, Set' now2 k v c')
      | Err e => (Err e, c')
      end
  end.
End Operations.

(** ** Abstract specification: the list of entries, most recently used first *)

Section Spec.
Context {K V : Type} `{EqDecision K}.
Implicit Types l : list (entry K V).

Definition lru_find (k : K) l : option (entry K V) :=
  List.find (fun e => bool_decide (key e = k)) l.
Definition lru_remove (k : K) l : list (entry K V) :=
  base.filter (fun e => key e ≠ k) l.

Definition lru_get (now : Z) (k : K) l : option V * list (entry K V) :=
  match lru_find k l with
  | None => (None, l)
  | Some e =>
      if expiresAt e <? now then (None, lru_remove k l)
      else (Some (value e), e :: lru_remove k l)
  end.

Definition lru_set (max now : Z) (k : K) (v : V) (ttl : Z) l : list (entry K V) :=
  take (Z.to_nat max)
    ({| key := k; value := v; createdAt := now; expiresAt := now + ttl |}
      :: lru_remove k l).

Definition lru_filter (p : K -> bool) l : list (entry K V) :=
  base.filter (fun e => p (key e) = false) l.
End Spec.

(** ** Well-formedness: [items] and [evictList] describe the same entries *)

Section Wf.
Context {K V : Type} `{Countable K}.
Implicit Types c : Cache K V.

Record linked c : Prop := {
  linked_nodup : NoDup (evictList c);
  linked_items : forall k el,
    items c !! k = Some el <->
    el ∈ evictList c /\ exists e, heap c !! el = Some e /\ key e = k;
  linked_heap : forall el, el ∈ evictList c -> is_Some (heap c !! el);
  linked_fresh : forall el, el ∈ evictList c -> (el < fresh c)%nat
}.

Definition wf c : Prop :=
  linked c /\ 0 < maxEntries c /\ Z.of_nat (length (evictList c)) <= maxEntries c.

(** The abstract state: the entries in recency order. *)
Definition view c : list (entry K V) := omap (fun el => heap c !! el) (evictList c).

Lemma elem_of_unlink el el' (l : list element) :
  el' ∈ unlink el l <-> el' ∈ l /\ el' ≠ el.
Proof. unfold unlink. rewrite list_elem_of_filter. tauto. Qed.

Lemma unlink_notin el (l : list element) : el ∉ l -> unlink el l = l.
Proof.
  induction l as [|a l IH]; [done|]. intros [? ?]%not_elem_of_cons.
  unfold unlink in *. rewrite filter_cons_True by congruence. by rewrite IH.
Qed.

Lemma length_unlink_le el (l : list element) : (length (unlink el l) <= length l)%nat.
Proof. apply length_filter. Qed.

Lemma omap_unlink (h : element -> option (entry K V)) k el (l : list element) :
  (forall a, a ∈ l -> exists e, h a = Some e /\ (key e = k <-> a = el)) ->
  omap h (unlink el l) = lru_remove k (omap h l).
Proof.
  unfold unlink, lru_remove. induction l as [|a l IH]; intros Hl; [done|].
  destruct (Hl a) as (e & He & Hk); [left|].
  cbn [omap list_omap]. rewrite He.
  assert (forall a', a' ∈ l -> exists e, h a' = Some e /\ (key e = k <-> a' = el)) as Hl'
    by (intros; apply Hl; by right).
  destruct (decide (a = el)) as [->|Hne].
  - rewrite filter_cons_False by tauto. rewrite filter_cons_False by tauto. by apply IH.
  - rewrite filter_cons_True by done. cbn [omap list_omap]. rewrite He.
    rewrite filter_cons_True by tauto. f_equal. by apply IH.
Qed.

Lemma linked_key c k el a :
  linked c -> items c !! k = Some el -> a ∈ evictList c ->
  exists e, heap c !! a = Some e /\ (key e = k <-> a = el).
Proof.
  intros W Hk Ha. destruct (linked_heap _ W a Ha) as [e He].
  exists e. split; [done|]. split.
  - intros Hek. assert (items c !! k = Some a) by (apply (linked_items _ W); eauto). congruence.
  - intros ->. apply (linked_items _ W) in Hk as (_ & e' & ? & ?). congruence.
Qed.

Lemma elem_of_view c e :
  e ∈ view c <-> exists el, el ∈ evictList c /\ heap c !! el = Some e.
Proof. unfold view. rewrite list_elem_of_omap. done. Qed.

Lemma view_absent c k e : linked c -> items c !! k = None -> e ∈ view c -> key e ≠ k.
Proof.
  intros W Hk (el & Hel & He)%elem_of_view Hek.
  assert (items c !! k = Some el) by (apply (linked_items _ W); eauto). congruence.
Qed.

Lemma lru_find_absent k (l : list (entry K V)) :
  (forall e, e ∈ l -> key e ≠ k) -> lru_find k l = None.
Proof.
  intros Hl. apply find_None_elem. intros e He.
  apply bool_decide_eq_false. by apply Hl.
Qed.

Lemma lru_remove_absent k (l : list (entry K V)) :
  (forall e, e ∈ l -> key e ≠ k) -> lru_remove k l = l.
Proof.
  intros Hl. unfold lru_remove. induction l as [|e l IH]; [done|].
  rewrite filter_cons_True by (apply Hl; left).
  f_equal. apply IH. intros; apply Hl. by right.
Qed.

Lemma lru_find_present c k el e :
  linked c -> items c !! k = Some el -> heap c !! el = Some e -> lru_find k (view c) = Some e.
Proof.
  intros W Hk He. destruct (lru_find k (view c)) as [e'|] eqn:F.
  - apply find_Some_elem in F as [Hin Hk'].
    apply bool_decide_eq_true in Hk'. apply elem_of_view in Hin as (el' & Hel' & He').
    destruct (linked_key c k el el' W Hk Hel') as (e'' & ? & Hiff).
    assert (el' = el) as -> by (apply Hiff; congruence). congruence.
  - apply (linked_items _ W) in Hk as (Hel & e' & He' & Hke).
    pose proof (proj1 (find_None_elem _ _) F e) as F'. rewrite bool_decide_eq_false in F'.
    exfalso. apply F'; [|congruence]. apply elem_of_view. eauto.
Qed.

(** *** Each operation keeps the structures linked *)

Lemma removeLocked_linked c k el :
  linked c -> items c !! k = Some el -> linked (removeLocked el c).
Proof.
  intros W Hk. pose proof Hk as (Hel & e & He & <-)%(linked_items _ W).
  unfold removeLocked. rewrite He. split; cbn.
  - apply NoDup_filter, W.
  - intros k' el'. rewrite elem_of_unlink, lookup_delete. case_decide as Hd.
    + subst. split; [done|]. intros [[Hl Hne] (e' & He' & Hke)].
      destruct (linked_key c _ el el' W Hk Hl) as (e'' & ? & Hiff).
      exfalso. apply Hne, Hiff. congruence.
    + rewrite (linked_items _ W k' el'). split; [|tauto].
      intros (? & e' & He' & Hke). split; [split; [done|]|eauto].
      intros ->. congruence.
  - intros a [Ha _]%elem_of_unlink. by apply (linked_heap _ W).
  - intros a [Ha _]%elem_of_unlink. by apply (linked_fresh _ W).
Qed.

Lemma removeLocked_view c k el :
  linked c -> items c !! k = Some el -> view (removeLocked el c) = lru_remove k (view c).
Proof.
  intros W Hk. pose proof Hk as (Hel & e & He & Hke)%(linked_items _ W).
  unfold view, removeLocked. rewrite He. cbn.
  apply omap_unlink. intros a Ha. by apply linked_key.
Qed.

Lemma with_stats_linked f c : linked c -> linked (with_stats f c).
Proof. intros []; split; done. Qed.

Lemma touch_linked c el : linked c -> el ∈ evictList c -> linked (with_list (el :: unlink el (evictList c)) c).
Proof.
  intros W Hel. assert (forall a, a ∈ el :: unlink el (evictList c) <-> a ∈ evictList c) as Hmem.
  { intros a. rewrite elem_of_cons, elem_of_unlink.
    destruct (decide (a = el)) as [->|]; tauto. }
  split; cbn.
  - apply NoDup_cons. split; [rewrite elem_of_unlink; tauto | apply NoDup_filter, W].
  - intros k el'. rewrite Hmem. apply W.
  - intros a. rewrite Hmem. apply W.
  - intros a. rewrite Hmem. apply W.
Qed.

Lemma touch_length el (l : list element) :
  NoDup l -> el ∈ l -> length (el :: unlink el l) = length l.
Proof.
  induction l as [|a l IH]; [by intros _ ?%elem_of_nil|].
  intros [Ha Hl]%NoDup_cons Hel. unfold unlink in *. destruct (decide (a = el)) as [->|Hne].
  - rewrite filter_cons_False by tauto. fold (unlink el l). by rewrite unlink_notin.
  - rewrite filter_cons_True by done. apply elem_of_cons in Hel as [->|Hel]; [done|].
    simpl in *. f_equal. by apply IH.
Qed.
End Wf.
#[export] Hint Resolve with_stats_linked removeLocked_linked touch_linked : go.

(** ** Refinement of the LRU list by each operation *)

Section Refinement.
Context {K V : Type} `{Countable K}.
Implicit Types c : Cache K V.

Lemma removeLocked_fields c k el :
  linked c -> items c !! k = Some el ->
  items (removeLocked el c) = delete k (items c) /\
  evictList (removeLocked el c) = unlink el (evictList c) /\
  maxEntries (removeLocked el c) = maxEntries c.
Proof.
  intros W (Hel & e & He & <-)%(linked_items _ W). unfold removeLocked. by rewrite He.
Qed.

Lemma removeLocked_wf c k el :
  wf c -> items c !! k = Some el -> wf (removeLocked el c).
Proof.
  intros (W & Hm & Hlen) Hk. destruct (removeLocked_fields c k el W Hk) as (_ & El & Em).
  split; [eauto using removeLocked_linked|]. rewrite El, Em.
  pose proof (length_unlink_le el (evictList c)). lia.
Qed.

Lemma with_stats_wf f c : wf c -> wf (with_stats f c).
Proof. intros (W & ? & ?). split; [by apply with_stats_linked | done]. Qed.

Lemma touch_wf c el :
  wf c -> el ∈ evictList c -> wf (with_list (el :: unlink el (evictList c)) c).
Proof.
  intros (W & Hm & Hlen) Hel. split; [by apply touch_linked|].
  pose proof (touch_length el _ (linked_nodup _ W) Hel) as E.
  split; [done|]. cbn [with_list evictList maxEntries]. by rewrite E.
Qed.

Lemma view_with_list_touch c k el e :
  linked c -> items c !! k = Some el -> heap c !! el = Some e ->
  view (with_list (el :: unlink el (evictList c)) c) = e :: lru_remove k (view c).
Proof.
  intros W Hk He. unfold view. cbn. rewrite He. f_equal.
  apply omap_unlink. intros a Ha. by apply linked_key.
Qed.

Lemma view_with_stats f c : view (with_stats f c) = view c.
Proof. done. Qed.

Lemma view_length c : linked c -> length (view c) = length (evictList c).
Proof.
  intros W. pose proof (linked_heap _ W) as Hh. unfold view.
  induction (evictList c) as [|a l IH]; [done|]. cbn.
  destruct (Hh a) as [e ->]; [left|]. simpl. f_equal. apply IH. intros; apply Hh. by right.
Qed.

(** Evicting the oldest entry drops the last one of the list. *)
Lemma evictOldestLocked_last c l el :
  linked c -> evictList c = l ++ [el] ->
  linked (evictOldestLocked c) /\ evictList (evictOldestLocked c) = l /\
  heap (evictOldestLocked c) = heap c /\
  maxEntries (evictOldestLocked c) = maxEntries c.
Proof.
  intros W Hl. unfold evictOldestLocked. rewrite Hl, last_snoc.
  destruct (linked_heap _ W el) as [e He]; [rewrite Hl; set_solver|].
  assert (items c !! key e = Some el) as Hk
    by (apply (linked_items _ W); split; [rewrite Hl; set_solver | eauto]).
  destruct (removeLocked_fields c _ el W Hk) as (_ & El & Em).
  split; [eauto with go|]. split; [|split; [|done]]; cbn.
  - rewrite El, Hl. pose proof (linked_nodup _ W) as N. rewrite Hl in N.
    apply NoDup_app in N as (_ & N & _). unfold unlink.
    rewrite filter_app, filter_cons_False, filter_nil, app_nil_r by tauto.
    apply unlink_notin. intros Hin. apply (N el Hin). set_solver.
  - unfold removeLocked. by rewrite He.
Qed.

Lemma evictOldestLocked_view c l el :
  linked c -> evictList c = l ++ [el] ->
  exists e, view c = view (evictOldestLocked c) ++ [e].
Proof.
  intros W Hl. destruct (evictOldestLocked_last c l el W Hl) as (_ & El & Eh & _).
  destruct (linked_heap _ W el) as [e He]; [rewrite Hl; set_solver|].
  exists e. unfold view. rewrite El, Eh, Hl, omap_app. cbn. by rewrite He.
Qed.

Lemma evictLoop_spec fuel c :
  linked c -> 0 < maxEntries c -> (length (evictList c) <= fuel)%nat ->
  let c' := evictLoop fuel c in
  wf c' /\ maxEntries c' = maxEntries c /\
  view c' = take (Z.to_nat (maxEntries c)) (view c).
Proof.
  revert c. induction fuel as [|fuel IH]; intros c W Hm Hf; simpl.
  - split; [split; [done|lia]|]. split; [done|].
    rewrite take_ge; [done|]. rewrite view_length by done. lia.
  - destruct (Z.ltb_spec (maxEntries c) (Z.of_nat (length (evictList c)))) as [E|E].
    + destruct (exists_last (l := evictList c)) as (l & el & Hl);
        [intros Hn; rewrite Hn in E; simpl in E; lia|].
      destruct (evictOldestLocked_last c l el W Hl) as (W' & El & Eh & Em).
      destruct (IH (evictOldestLocked c)) as (HW & HM & HV);
        [done|lia|rewrite El; rewrite Hl, length_app in Hf; simpl in Hf; lia|].
      rewrite Em in HM, HV. split; [done|]. split; [done|]. rewrite HV.
      destruct (evictOldestLocked_view c l el W Hl) as [e ->].
      rewrite take_app_le; [done|]. rewrite view_length, El by done.
      rewrite Hl, length_app in E. simpl in E. lia.
    + split; [split; [done|lia]|]. split; [done|].
      rewrite take_ge; [done|]. rewrite view_length by done. lia.
Qed.
End Refinement.

Section Operations_refine.
Context {K V : Type} `{Countable K}.
Implicit Types c : Cache K V.

(** The insertion branch of SetWithTTL, before the eviction loop. *)
Definition pushed c (e : entry K V) : Cache K V :=
  {| items := <[key e := fresh c]> (items c); evictList := fresh c :: evictList c;
     heap := <[fresh c := e]> (heap c); fresh := S (fresh c);
     maxEntries := maxEntries c; defaultTTL := defaultTTL c; stats := stats c |}.

(** The update branch: the write goes through the element pointer. *)
Definition overwritten c (el : element) (e : entry K V) : Cache K V :=
  {| items := items c; evictList := el :: unlink el (evictList c);
     heap := <[el := e]> (heap c); fresh := fresh c;
     maxEntries := maxEntries c; defaultTTL := defaultTTL c; stats := stats c |}.

Lemma omap_insert_notin (h : gmap element (entry K V)) el e (l : list element) :
  el ∉ l -> omap (fun a => <[el := e]> h !! a) l = omap (fun a => h !! a) l.
Proof.
  induction l as [|a l IH]; [done|]. intros [? ?]%not_elem_of_cons.
  cbn [omap list_omap]. rewrite lookup_insert_ne by done. by rewrite IH.
Qed.

Lemma fresh_notin c : linked c -> fresh c ∉ evictList c.
Proof. intros W Hin%(linked_fresh _ W). lia. Qed.

Lemma pushed_linked c e : linked c -> items c !! key e = None -> linked (pushed c e).
Proof.
  intros W Hk. pose proof (fresh_notin c W) as Hf. split; cbn.
  - apply NoDup_cons. split; [done|apply W].
  - intros k el. rewrite elem_of_cons, !lookup_insert.
    case_decide as D1; case_decide as D2; subst.
    + split; [|done]. intros _. split; [by left|eauto].
    + split; [congruence|]. intros [[->|Hel] (e' & He' & Hk')]; [done|].
      assert (items c !! key e = Some el) by (apply (linked_items _ W); eauto). congruence.
    + split; [|intros [_ (? & [= <-] & ?)]; congruence].
      intros Hki. apply (linked_items _ W) in Hki as [Hin _]. done.
    + rewrite (linked_items _ W). split; [tauto|]. intros [[->|?] ?]; tauto.
  - intros el. rewrite elem_of_cons, lookup_insert. case_decide; [eauto|].
    intros [?|?]; [congruence|]. by apply (linked_heap _ W).
  - intros el [->|Hel]%elem_of_cons; [lia|]. apply (linked_fresh _ W) in Hel. lia.
Qed.

Lemma pushed_view c e : linked c -> view (pushed c e) = e :: view c.
Proof.
  intros W. unfold view. cbn. rewrite lookup_insert_eq. f_equal.
  apply omap_insert_notin, fresh_notin, W.
Qed.

Lemma overwritten_linked c el e :
  linked c -> items c !! key e = Some el -> linked (overwritten c el e).
Proof.
  intros W Hk. pose proof Hk as (Hel & e0 & He0 & Hke)%(linked_items _ W).
  destruct (touch_linked c el W Hel) as [N I Hh Fr]; cbn in *. split; cbn; try done.
  - intros k el'. rewrite (I k el'), lookup_insert. case_decide; [|done]. subst el'.
    split; intros (? & e' & He' & Hke'); (split; [done|]).
    + exists e. split; [done|]. congruence.
    + exists e0. split; [done|]. congruence.
  - intros a Ha. rewrite lookup_insert. case_decide; eauto.
Qed.

Lemma overwritten_view c el e :
  linked c -> items c !! key e = Some el ->
  view (overwritten c el e) = e :: lru_remove (key e) (view c).
Proof.
  intros W Hk. unfold view. cbn. rewrite lookup_insert_eq. f_equal.
  rewrite omap_insert_notin by (rewrite elem_of_unlink; tauto).
  apply omap_unlink. intros a Ha. by apply linked_key.
Qed.

Lemma lru_remove_length k (l : list (entry K V)) :
  (length (lru_remove k l) <= length l)%nat.
Proof. apply length_filter. Qed.

Lemma SetWithTTL_refines now k v ttl c :
  wf c ->
  let c' := SetWithTTL now k v ttl c in
  wf c' /\ maxEntries c' = maxEntries c /\
  view c' = lru_set (maxEntries c) now k v ttl (view c).
Proof.
  intros (W & Hm & Hlen). unfold SetWithTTL, lru_set.
  set (e := {| key := k; value := v; createdAt := now; expiresAt := now + ttl |}).
  destruct (items c !! k) as [el|] eqn:Hk.
  - fold (overwritten c el e).
    pose proof (overwritten_linked c el e W Hk) as W'.
    pose proof (overwritten_view c el e W Hk) as HV.
    pose proof Hk as (Hel & _)%(linked_items _ W).
    pose proof (touch_length el _ (linked_nodup _ W) Hel) as Ht.
    assert (length (view (overwritten c el e)) = length (evictList c)) as HL
      by (rewrite view_length by done; exact Ht).
    split; [split; [done|]; cbn [overwritten evictList maxEntries]; lia|]. split; [done|].
    cbn [key e] in HV. rewrite HV in HL |- *. rewrite take_ge; [done|]. lia.
  - fold (pushed c e). pose proof (pushed_linked c e W Hk) as W'.
    destruct (evictLoop_spec (length (evictList (pushed c e))) (pushed c e))
      as (HW & HM & HV); [done|done|lia|].
    split; [exact HW|]. split; [exact HM|]. etransitivity; [exact HV|].
    rewrite pushed_view by done. rewrite lru_remove_absent; [done|]. intros e' He'. exact (view_absent c k e' W Hk He').
Qed.

Lemma Get_refines now k c :
  wf c ->
  let '(r, c') := Get now k c in
  wf c' /\ maxEntries c' = maxEntries c /\ (r, view c') = lru_get now k (view c).
Proof.
  intros Wf. pose proof Wf as (W & _). unfold Get, lru_get.
  destruct (items c !! k) as [el|] eqn:Hk.
  - pose proof Hk as (Hel & e & He & Hke)%(linked_items _ W).
    rewrite He, (lru_find_present c k el e) by done.
    destruct (expiresAt e <? now).
    + split; [eauto using with_stats_wf, removeLocked_wf|].
      destruct (removeLocked_fields c k el W Hk) as (_ & _ & Em).
      split; [done|]. by rewrite view_with_stats, (removeLocked_view c k el).
    + split; [eauto using with_stats_wf, touch_wf|]. split; [done|].
      by rewrite view_with_stats, (view_with_list_touch c k el e).
  - rewrite lru_find_absent by (intros e' He'; exact (view_absent c k e' W Hk He')).
    split; [by apply with_stats_wf|]. done.
Qed.

Lemma Invalidate_refines k c :
  wf c ->
  let c' := Invalidate k c in
  wf c' /\ maxEntries c' = maxEntries c /\ view c' = lru_remove k (view c).
Proof.
  intros Wf. pose proof Wf as (W & _). unfold Invalidate.
  destruct (items c !! k) as [el|] eqn:Hk.
  - destruct (removeLocked_fields c k el W Hk) as (_ & _ & Em).
    split; [by eapply removeLocked_wf|]. split; [done|]. by apply removeLocked_view.
  - split; [done|]. split; [done|]. symmetry. apply lru_remove_absent.
    intros e' He'. exact (view_absent c k e' W Hk He').
Qed.
End Operations_refine.

(** ** Bulk removal *)

Section Bulk.
Context {K V : Type} `{Countable K}.
Implicit Types c : Cache K V.

Definition remove_all (p : K -> bool) (ks : list K) (l : list (entry K V)) :=
  foldr (fun k l' => if p k then lru_remove k l' else l') l ks.

Lemma elem_of_remove_all p ks (l : list (entry K V)) e :
  e ∈ remove_all p ks l <-> e ∈ l /\ ~ (p (key e) = true /\ key e ∈ ks).
Proof.
  induction ks as [|k ks IH]; cbn [remove_all foldr].
  - rewrite elem_of_nil. tauto.
  - fold (remove_all p ks l). rewrite elem_of_cons. destruct (p k) eqn:Hp.
    + unfold lru_remove. rewrite list_elem_of_filter, IH.
      destruct (decide (key e = k)) as [->|]; tauto.
    + rewrite IH. split; [|tauto]. intros [He Hn]. split; [done|].
      intros [Hpe [Hk|Hk]]; [congruence | tauto].
Qed.

Lemma remove_all_sublist p ks (l : list (entry K V)) :
  remove_all p ks l = base.filter (fun e => ~ (p (key e) = true /\ key e ∈ ks)) l.
Proof.
  induction ks as [|k ks IH]; cbn [remove_all foldr].
  - symmetry. induction l as [|e l IHl]; [done|].
    rewrite filter_cons_True by (rewrite elem_of_nil; tauto). by f_equal.
  - fold (remove_all p ks l). destruct (p k) eqn:Hp; rewrite IH; clear IH.
    + unfold lru_remove. rewrite list_filter_filter. apply list_filter_iff.
      intros e. rewrite elem_of_cons. destruct (decide (key e = k)) as [->|]; tauto.
    + apply list_filter_iff. intros e. rewrite elem_of_cons.
      split; [|tauto]. intros Hn [Hpe [Hk|Hk]]; [congruence | tauto].
Qed.

Lemma remove_all_total p ks (l : list (entry K V)) :
  (forall e, e ∈ l -> key e ∈ ks) -> remove_all p ks l = lru_filter p l.
Proof.
  rewrite remove_all_sublist. unfold lru_filter. intros Hks.
  induction l as [|e l IH]; [done|].
  assert (key e ∈ ks) by (apply Hks; left).
  assert (forall e', e' ∈ l -> key e' ∈ ks) by (intros; apply Hks; by right).
  destruct (p (key e)) eqn:Hp.
  - rewrite !filter_cons_False by (try congruence; tauto). auto.
  - rewrite !filter_cons_True by (try congruence; intros [? _]; congruence). f_equal; auto.
Qed.

Lemma remove_pairs_refines (p : K -> bool) (kl : list (K * element)) c :
  wf c -> NoDup kl.*1 -> (forall k el, (k, el) ∈ kl -> items c !! k = Some el) ->
  let c' := foldr (fun '(k, el) (c1 : Cache K V) => if p k then removeLocked el c1 else c1) c kl in
  wf c' /\ maxEntries c' = maxEntries c /\
  (forall k, k ∉ kl.*1 -> items c' !! k = items c !! k) /\
  view c' = remove_all p kl.*1 (view c).
Proof.
  intros Wf. induction kl as [|[k el] kl IH]; intros Nd Hkl; [done|].
  cbn [fmap list_fmap foldr fst] in *. apply NoDup_cons in Nd as [Hk Nd].
  destruct IH as (W' & M' & I' & V'); [done|intros; apply Hkl; by right|].
  set (c' := foldr _ c kl) in *.
  assert (items c' !! k = Some el) as Hel by (rewrite I' by done; apply Hkl; left).
  assert (forall k', k' ∉ k :: kl.*1 -> k ≠ k' /\ k' ∉ kl.*1) as Hcons
    by (intros k' [? ?]%not_elem_of_cons; done).
  cbn [remove_all foldr]. fold (remove_all p kl.*1 (view c)).
  destruct (p k).
  - destruct (removeLocked_fields c' k el (proj1 W') Hel) as (Ei & _ & Em).
    split; [by eapply removeLocked_wf|]. split; [congruence|]. split.
    + intros k' [Hne Hk']%Hcons. rewrite Ei, lookup_delete_ne by done. auto.
    + rewrite (removeLocked_view c' k el (proj1 W') Hel). by rewrite V'.
  - split; [done|]. split; [done|]. split; [|done].
    intros k' [_ Hk']%Hcons. auto.
Qed.

Lemma InvalidateFunc_refines (p : K -> bool) c :
  wf c ->
  let c' := InvalidateFunc p c in
  wf c' /\ maxEntries c' = maxEntries c /\ view c' = lru_filter p (view c).
Proof.
  intros Wf. pose proof Wf as (W & _).
  destruct (remove_pairs_refines p (map_to_list (items c)) c) as (W' & M' & _ & V').
  - done.
  - apply NoDup_fst_map_to_list.
  - intros k el Hin. by apply elem_of_map_to_list.
  - split; [done|]. split; [done|]. etransitivity; [exact V'|].
    apply remove_all_total. intros e (el & Hel & He)%elem_of_view.
    apply list_elem_of_fmap. exists (key e, el). split; [done|].
    apply elem_of_map_to_list, (linked_items _ W). eauto.
Qed.

Lemma Flush_refines c :
  wf c -> wf (Flush c) /\ maxEntries (Flush c) = maxEntries c /\ view (Flush c) = [].
Proof.
  intros (W & Hm & _). split; [|done]. split; [|cbn; lia]. split; cbn.
  - constructor.
  - intros k el. rewrite lookup_empty, elem_of_nil. naive_solver.
  - intros el. by rewrite elem_of_nil.
  - intros el. by rewrite elem_of_nil.
Qed.

Lemma New_wf maxE ttl : wf (New (K := K) (V := V) maxE ttl) /\ view (New (K := K) (V := V) maxE ttl) = [].
Proof.
  split; [|done]. split; [split; cbn|split; cbn].
  - constructor.
  - intros k el. rewrite lookup_empty, elem_of_nil. naive_solver.
  - intros el. by rewrite elem_of_nil.
  - intros el. by rewrite elem_of_nil.
  - case_match; lia.
  - case_match; lia.
Qed.
End Bulk.

(** ** The cache as a machine, and its specification *)

Section Machine.
Context {K V : Type} `{Countable K}.

Inductive op : Type :=
| OGet (now : Z) (k : K)
| OSet (now : Z) (k : K) (v : V) (ttl : Z)
| OInvalidate (k : K)
| OInvalidateFunc (p : K -> bool)
| OFlush.

Definition exec (o : op) (c : Cache K V) : option V * Cache K V :=
  match o with
  | OGet now k => Get now k c
  | OSet now k v ttl => (None, SetWithTTL now k v ttl c)
  | OInvalidate k => (None, Invalidate k c)
  | OInvalidateFunc p => (None, InvalidateFunc p c)
  | OFlush => (None, Flush c)
  end.

Definition spec_exec (max : Z) (o : op) (l : list (entry K V)) : option V * list (entry K V) :=
  match o with
  | OGet now k => lru_get now k l
  | OSet now k v ttl => (None, lru_set max now k v ttl l)
  | OInvalidate k => (None, lru_remove k l)
  | OInvalidateFunc p => (None, lru_filter p l)
  | OFlush => (None, [])
  end.

Fixpoint run {St : Type} (f : op -> St -> option V * St) (os : list op) (s : St) : list (option V) * St :=
  match os with
  | [] => ([], s)
  | o :: os' => let '(r, s1) := f o s in let '(rs, s2) := run f os' s1 in (r :: rs, s2)
  end.

Lemma exec_refines (o : op) (c : Cache K V) :
  wf c ->
  let '(r, c') := exec o c in
  wf c' /\ maxEntries c' = maxEntries c /\ (r, view c') = spec_exec (maxEntries c) o (view c).
Proof.
  intros Wf. destruct o as [now k|now k v ttl|k|p|]; cbn [exec spec_exec].
  - by apply Get_refines.
  - destruct (SetWithTTL_refines now k v ttl c Wf) as (? & ? & HV).
    split; [done|]. split; [done|]. by rewrite HV.
  - destruct (Invalidate_refines k c Wf) as (? & ? & HV).
    split; [done|]. split; [done|]. by rewrite HV.
  - destruct (InvalidateFunc_refines p c Wf) as (? & ? & HV).
    split; [done|]. split; [done|]. by rewrite HV.
  - destruct (Flush_refines c Wf) as (? & ? & HV).
    split; [done|]. split; [done|]. by rewrite HV.
Qed.

Lemma run_refines (os : list op) (c : Cache K V) :
  wf c ->
  let '(rs, c') := run exec os c in
  wf c' /\ (rs, view c') = run (spec_exec (maxEntries c)) os (view c).
Proof.
  revert c. induction os as [|o os IH]; intros c Wf; cbn [run]; [done|].
  pose proof (exec_refines o c Wf) as Ho.
  destruct (exec o c) as [r c1]. destruct Ho as (W1 & M1 & E1).
  pose proof (IH c1 W1) as Hr. destruct (run exec os c1) as [rs c2].
  destruct Hr as (W2 & E2). split; [done|].
  rewrite <- E1, <- M1, <- E2. done.
Qed.

(** from [New], any sequence of Get / SetWithTTL / Invalidate /
    InvalidateFunc / Flush answers exactly as the recency list of entries
    does, and leaves the map and the list describing the same entries, at
    most [maxEntries] of them. *)
Theorem cache_refines_lru (maxE ttl : Z) (os : list op) :
  let c0 := New (K := K) (V := V) maxE ttl in
  let '(rs, c) := run exec os c0 in
  wf c /\ (rs, view c) = run (spec_exec (maxEntries c0)) os [].
Proof.
  destruct (New_wf (K := K) (V := V) maxE ttl) as [W V0].
  pose proof (run_refines os _ W) as Hr. by rewrite V0 in Hr.
Qed.
End Machine.
Arguments op K V : clear implicits.

Section Facts.
Context {K V : Type} `{Countable K}.
Implicit Types c : Cache K V.

Lemma lru_find_cons (k : K) (e : entry K V) l :
  lru_find k (e :: l) = if bool_decide (key e = k) then Some e else lru_find k l.
Proof. done. Qed.

Lemma Get_after_SetWithTTL (c : Cache K V) (t1 t2 : Z) (k : K) (v : V) (ttl : Z) :
  wf c ->
  let r := Get t2 k (SetWithTTL t1 k v ttl c) in
  fst r = (if t1 + ttl <? t2 then None else Some v) /\
  (t1 + ttl < t2 -> exists l, view (snd r) = lru_remove k l).
Proof.
  intros Hwf. cbn zeta. pose proof (SetWithTTL_refines t1 k v ttl c Hwf) as (W1 & M1 & V1).
  pose proof (Get_refines t2 k _ W1) as Hg.
  destruct (Get t2 k _) as [r c2]. destruct Hg as (W2 & M2 & E).
  rewrite V1 in E. unfold lru_set in E. pose proof Hwf as (_ & Hm & _).
  destruct (Z.to_nat (maxEntries c)) as [|n] eqn:En; [lia|]. cbn [take] in E.
  unfold lru_get in E. rewrite lru_find_cons, bool_decide_eq_true_2 in E by done.
  cbn [expiresAt value] in E. cbn [fst snd].
  destruct (Z.ltb_spec (t1 + ttl) t2); injection E as -> E.
  - split; [done|]. rewrite E. eauto.
  - split; [done|]. lia.
Qed.

(** A value stored under a key is what Get answers until its expiry
    instant included, and after that instant Get answers nothing and the key
    is gone. *)
Theorem Get_after_Set (c : Cache K V) (t1 t2 : Z) (k : K) (v : V) (ttl : Z) (Hwf : wf c) :
  let c1 := SetWithTTL t1 k v ttl c in
  fst (Get t2 k c1) = (if t1 + ttl <? t2 then None else Some v) /\
  (t1 + ttl < t2 -> forall e, e ∈ view (snd (Get t2 k c1)) -> key e ≠ k).
Proof.
  destruct (Get_after_SetWithTTL c t1 t2 k v ttl Hwf) as [Hr Hv]. split; [done|].
  intros Hexp e He. destruct (Hv Hexp) as [l Hl]. rewrite Hl in He.
  by apply list_elem_of_filter in He as [? _].
Qed.

(** GetOrLoad never caches a failed load: the error is returned and the
    entries are those the lookup left; a successful load is cached under the
    default TTL; a hit does not run the load. *)
Theorem GetOrLoad_spec {E : Type} (c : Cache K V) (t1 t2 : Z) (k : K) (load : result E V) (Hwf : wf c) :
  let '(r, c') := GetOrLoad t1 t2 k load c in
  wf c' /\
  match fst (lru_get t1 k (view c)) with
  | Some v => r = Ok v /\ view c' = snd (lru_get t1 k (view c))
  | None =>
      r = load /\
      view c' = match load with
                | Ok v => lru_set (maxEntries c) t2 k v (defaultTTL c) (snd (lru_get t1 k (view c)))
                | Err _ => snd (lru_get t1 k (view c))
                end
  end.
Proof.
  unfold GetOrLoad. pose proof (Get_refines t1 k c Hwf) as Hg.
  assert (defaultTTL (snd (Get t1 k c)) = defaultTTL c) as HT.
  { unfold Get, removeLocked. repeat (case_match; cbn; try done). }
  destruct (Get t1 k c) as [[v|] c1] eqn:EG; destruct Hg as (W1 & M1 & E1); rewrite <- E1; cbn.
  - done.
  - destruct load as [v|e]; [|done]. cbn in HT. unfold Set'. rewrite HT.
    destruct (SetWithTTL_refines t2 k v (defaultTTL c) c1 W1) as (W2 & M2 & V2).
    split; [done|]. split; [done|]. by rewrite V2, M1.
Qed.
End Facts.

(** ** Interface: what the cache promises to the router and the tool cache

    Clients reason about the abstract entry list through these laws; the
    refinement lemmas above discharge them for [Cache]. *)

Class LruCache (C K V : Type) `{EqDecision K} := {
  lc_ok : C -> Prop;
  lc_view : C -> list (entry K V);
  lc_max : C -> Z;
  lc_get : Z -> K -> C -> option V * C;
  lc_set : Z -> K -> V -> Z -> C -> C;
  lc_invalidate : K -> C -> C;
  lc_invalidate_func : (K -> bool) -> C -> C;
  lc_get_law now k c : lc_ok c ->
    lc_ok (snd (lc_get now k c)) /\
    (fst (lc_get now k c), lc_view (snd (lc_get now k c))) = lru_get now k (lc_view c);
  lc_set_law now k v ttl c : lc_ok c ->
    lc_ok (lc_set now k v ttl c) /\
    lc_view (lc_set now k v ttl c) = lru_set (lc_max c) now k v ttl (lc_view c);
  lc_invalidate_law k c : lc_ok c ->
    lc_ok (lc_invalidate k c) /\ lc_view (lc_invalidate k c) = lru_remove k (lc_view c);
  lc_invalidate_func_law p c : lc_ok c ->
    lc_ok (lc_invalidate_func p c) /\ lc_view (lc_invalidate_func p c) = lru_filter p (lc_view c)
}.

Section Instance_.
Context {K V : Type} `{Countable K}.

Lemma cache_get_law now k (c : Cache K V) : wf c ->
  wf (snd (Get now k c)) /\ (fst (Get now k c), view (snd (Get now k c))) = lru_get now k (view c).
Proof. intros W%(Get_refines now k). destruct (Get now k c). tauto. Qed.

Lemma cache_set_law now k v ttl (c : Cache K V) : wf c ->
  wf (SetWithTTL now k v ttl c) /\
  view (SetWithTTL now k v ttl c) = lru_set (maxEntries c) now k v ttl (view c).
Proof. intros W%(SetWithTTL_refines now k v ttl). tauto. Qed.

Lemma cache_invalidate_law k (c : Cache K V) : wf c ->
  wf (Invalidate k c) /\ view (Invalidate k c) = lru_remove k (view c).
Proof. intros W%(Invalidate_refines k). tauto. Qed.

Lemma cache_invalidate_func_law p (c : Cache K V) : wf c ->
  wf (InvalidateFunc p c) /\ view (InvalidateFunc p c) = lru_filter p (view c).
Proof. intros W%(InvalidateFunc_refines p). tauto. Qed.

#[export] Instance Cache_LruCache : LruCache (Cache K V) K V := {|
  lc_ok := wf; lc_view := view; lc_max := maxEntries;
  lc_get := Get; lc_set := SetWithTTL;
  lc_invalidate := Invalidate; lc_invalidate_func := InvalidateFunc;
  lc_get_law := cache_get_law; lc_set_law := cache_set_law;
  lc_invalidate_law := cache_invalidate_law;
  lc_invalidate_func_law := cache_invalidate_func_law
|}.
End Instance_.

(** Consequences of the interface alone. *)
Section Client.
Context {C K V : Type} `{LruCache C K V}.

Lemma lru_find_filtered (p : K -> bool) k (l : list (entry K V)) :
  p k = true -> lru_find k (lru_filter p l) = None.
Proof.
  intros Hp. apply find_None_elem. intros e He.
  apply list_elem_of_filter in He as [He _]. apply bool_decide_eq_false. congruence.
Qed.

Lemma lru_find_kept (p : K -> bool) k (l : list (entry K V)) :
  p k = false -> lru_find k (lru_filter p l) = lru_find k l.
Proof.
  intros Hp. unfold lru_filter. induction l as [|e l IH]; [done|].
  rewrite lru_find_cons. destruct (p (key e)) eqn:He.
  - rewrite filter_cons_False by congruence.
    rewrite bool_decide_eq_false_2 by congruence. done.
  - rewrite filter_cons_True by done. rewrite lru_find_cons. by rewrite IH.
Qed.

(** After a bulk invalidation a lookup misses on every selected key and
    answers as before on the others. *)
Lemma get_after_invalidate_func now (p : K -> bool) k (c : C) :
  lc_ok c ->
  fst (lc_get now k (lc_invalidate_func p c)) =
  if p k then None else fst (lc_get now k c).
Proof.
  intros W. destruct (lc_invalidate_func_law p c W) as [W1 V1].
  destruct (lc_get_law now k _ W1) as [_ G1]. destruct (lc_get_law now k c W) as [_ G].
  rewrite V1 in G1. unfold lru_get in G1, G.
  destruct (p k) eqn:Hp.
  - rewrite lru_find_filtered in G1 by done. by injection G1.
  - rewrite lru_find_kept in G1 by done.
    destruct (lru_find k (lc_view c)); [|congruence].
    destruct (expiresAt e <? now); congruence.
Qed.
End Client.

(** ** Witnesses *)

Lemma Get_after_Set_witness :
  fst (Get 5 1%Z (SetWithTTL 0 1%Z 7%Z 5 (New 2 10 : Cache Z Z))) = Some 7%Z.
Proof. apply (Get_after_Set (New 2 10) 0 5 1%Z 7%Z 5). apply (proj1 (New_wf 2 10)). Defined.

Lemma GetOrLoad_spec_witness :
  let '(r, c') := GetOrLoad 0 1 1%Z (Err 3%Z : result Z Z) (New 2 10 : Cache Z Z) in
  wf c' /\ r = Err 3%Z /\ view c' = [].
Proof.
  exact (GetOrLoad_spec (New 2 10 : Cache Z Z) 0 1 1%Z (Err 3%Z) (proj1 (New_wf 2 10))).
Defined.
