(* ===== verification/Singleflight.v ===== *)
(** Concurrent [GetOrLoad]: the singleflight protocol of
    [internal/cache/cache.go], as interleaved goroutine steps.

    Each step is one critical section of [c.mu], one WaitGroup operation or the
    load itself; between two steps any other goroutine, and any other cache
    operation, may run.  A load that panics is outside the model. *)

From S2P Require Import Prelude Cache.
From stdpp Require Import gmap.

#[local] Open Scope Z_scope.

Section Singleflight.
Context {K V E : Type} `{Countable K}.

(** [call[V]]: [cl_result] is [cl.val, cl.err] once assigned, [wg_done] tells
    that [cl.wg.Done] has run. *)
Record call := { cl_result : option (result E V); wg_done : bool }.

(** Where a goroutine is in GetOrLoad. *)
Inductive pc : Type :=
| Start                       (** before the fast-path Get *)
| Missed                      (** before the inflight check *)
| Waiting (cl : nat)          (** in cl.wg.Wait() *)
| Loading (cl : nat)          (** running loadFn, outside the lock *)
| Loaded (cl : nat)           (** before c.Set *)
| Stored (cl : nat)           (** before cl.wg.Done() *)
| Released (cl : nat)         (** before delete(c.inflight, key) *)
| Done (r : result E V).      (** returned *)

Record sys := {
  cache : Cache K V;
  inflight : gmap K nat;
  calls : gmap nat call;
  next_call : nat;
  threads : gmap nat (K * pc)
}.

Definition init (c : Cache K V) : sys :=
  {| cache := c; inflight := ∅; calls := ∅; next_call := 0; threads := ∅ |}.

Definition goto (s : sys) (t : nat) (k : K) (p : pc) : sys :=
  {| cache := cache s; inflight := inflight s; calls := calls s;
     next_call := next_call s; threads := <[t := (k, p)]> (threads s) |}.
Definition with_cache (s : sys) (c : Cache K V) : sys :=
  {| cache := c; inflight := inflight s; calls := calls s;
     next_call := next_call s; threads := threads s |}.
Definition with_call (s : sys) (cl : nat) (x : call) : sys :=
  {| cache := cache s; inflight := inflight s; calls := <[cl := x]> (calls s);
     next_call := next_call s; threads := threads s |}.
(** Allocate a call and register it under [k]. *)
Definition new_call (s : sys) (k : K) : sys :=
  {| cache := cache s; inflight := <[k := next_call s]> (inflight s);
     calls := <[next_call s := {| cl_result := None; wg_done := false |}]> (calls s);
     next_call := S (next_call s); threads := threads s |}.
Definition end_call (s : sys) (k : K) : sys :=
  {| cache := cache s; inflight := delete k (inflight s); calls := calls s;
     next_call := next_call s; threads := threads s |}.

(** One step of goroutine [t], which is in GetOrLoad for [k] at [p]. *)
Inductive thread_step (s : sys) (t : nat) (k : K) : pc -> sys -> Prop :=
| ts_hit now v c' :
    Get now k (cache s) = (Some v, c') ->
    thread_step s t k Start (goto (with_cache s c') t k (Done (Ok v)))
| ts_miss now c' :
    Get now k (cache s) = (None, c') ->
    thread_step s t k Start (goto (with_cache s c') t k Missed)
| ts_join cl :
    inflight s !! k = Some cl ->
    thread_step s t k Missed (goto s t k (Waiting cl))
| ts_lead :
    inflight s !! k = None ->
    thread_step s t k Missed (goto (new_call s k) t k (Loading (next_call s)))
| ts_load cl r :
    thread_step s t k (Loading cl)
      (goto (with_call s cl {| cl_result := Some r; wg_done := false |}) t k (Loaded cl))
| ts_store now cl v x :
    calls s !! cl = Some x -> cl_result x = Some (Ok v) ->
    thread_step s t k (Loaded cl)
      (goto (with_cache s (Set' now k v (cache s))) t k (Stored cl))
| ts_store_err cl e x :
    calls s !! cl = Some x -> cl_result x = Some (Err e) ->
    thread_step s t k (Loaded cl) (goto s t k (Stored cl))
| ts_release cl x :
    calls s !! cl = Some x ->
    thread_step s t k (Stored cl)
      (goto (with_call s cl {| cl_result := cl_result x; wg_done := true |}) t k (Released cl))
| ts_finish cl x r :
    calls s !! cl = Some x -> cl_result x = Some r ->
    thread_step s t k (Released cl) (goto (end_call s k) t k (Done r))
| ts_wake_err cl x e :
    calls s !! cl = Some x -> wg_done x = true -> cl_result x = Some (Err e) ->
    thread_step s t k (Waiting cl) (goto s t k (Done (Err e)))
| ts_wake now cl x v v' c' :
    calls s !! cl = Some x -> wg_done x = true -> cl_result x = Some (Ok v) ->
    Get now k (cache s) = (v', c') ->
    thread_step s t k (Waiting cl)
      (goto (with_cache s c') t k (Done (Ok (default v v')))).

Inductive step (s : sys) : sys -> Prop :=
| st_spawn t k : threads s !! t = None -> step s (goto s t k Start)
| st_thread t k p s' :
    threads s !! t = Some (k, p) -> thread_step s t k p s' -> step s s'
| st_env (o : op K V) : step s (with_cache s (snd (exec o (cache s)))).

Inductive reachable (c0 : Cache K V) : sys -> Prop :=
| reach_init : reachable c0 (init c0)
| reach_step s s' : reachable c0 s -> step s s' -> reachable c0 s'.

(** The call a goroutine owns while it leads a load. *)
Definition leads (p : pc) : option nat :=
  match p with
  | Loading cl | Loaded cl | Stored cl | Released cl => Some cl
  | _ => None
  end.

(** What the record of the call owned at [p] looks like. *)
Definition call_ok (p : pc) (x : call) : Prop :=
  match p with
  | Loading _ => wg_done x = false
  | Loaded _ | Stored _ => is_Some (cl_result x) /\ wg_done x = false
  | Released _ => is_Some (cl_result x) /\ wg_done x = true
  | _ => True
  end.

(** A call is settled, or its leader will settle it. *)
Definition settled (s : sys) (cl : nat) : Prop :=
  exists x, calls s !! cl = Some x /\
    ((wg_done x = true /\ is_Some (cl_result x)) \/
     exists t k p, threads s !! t = Some (k, p) /\ leads p = Some cl).

Record inv (s : sys) : Prop := {
  inv_lead : forall t k p cl, threads s !! t = Some (k, p) -> leads p = Some cl ->
    inflight s !! k = Some cl /\ exists x, calls s !! cl = Some x /\ call_ok p x;
  inv_one : forall t t' k k' p p' cl, threads s !! t = Some (k, p) ->
    threads s !! t' = Some (k', p') -> leads p = Some cl -> leads p' = Some cl -> t = t';
  inv_inflight : forall k cl, inflight s !! k = Some cl ->
    exists t p, threads s !! t = Some (k, p) /\ leads p = Some cl;
  inv_wait : forall t k cl, threads s !! t = Some (k, Waiting cl) -> settled s cl;
  inv_fresh : forall cl x, calls s !! cl = Some x -> (cl < next_call s)%nat
}.
End Singleflight.
Arguments call V E : clear implicits.
Arguments pc V E : clear implicits.
Arguments sys K V E {_ _}.

Section Invariant.
Context {K V E : Type} `{Countable K}.
Implicit Types s : sys K V E.

(** Moving a goroutine between two points that own the same call, possibly
    after updating the record of that call. *)
Lemma inv_move s t k p p' (ca : Cache K V) (cs : gmap nat (call V E)) :
  inv s -> threads s !! t = Some (k, p) -> leads p' = leads p ->
  (forall cl, leads p' = Some cl -> exists x, cs !! cl = Some x /\ call_ok p' x) ->
  (forall cl, leads p' ≠ Some cl -> cs !! cl = calls s !! cl) ->
  (forall cl, is_Some (cs !! cl) -> is_Some (calls s !! cl)) ->
  (forall cl, p' = Waiting cl -> settled s cl) ->
  inv {| cache := ca; inflight := inflight s; calls := cs;
         next_call := next_call s; threads := <[t := (k, p')]> (threads s) |}.
Proof.
  intros I Ht Hleads Hown Hother Hdom Hwait.
  assert (forall t' k' q, <[t := (k, p')]> (threads s) !! t' = Some (k', q) ->
    exists q0, threads s !! t' = Some (k', q0) /\ leads q0 = leads q) as Hback.
  { intros t' k' q Hq. rewrite lookup_insert in Hq. case_decide; simplify_eq; eauto. }
  assert (forall cl, settled s cl -> settled
    {| cache := ca; inflight := inflight s; calls := cs;
       next_call := next_call s; threads := <[t := (k, p')]> (threads s) |} cl) as Hset.
  { intros cl (x & Hx & Hc). destruct (decide (leads p' = Some cl)) as [Hl|Hl].
    - destruct (Hown _ Hl) as (x' & Hx' & _). exists x'. split; [done|]. right.
      exists t, k, p'. cbn. by rewrite lookup_insert_eq.
    - exists x. cbn. rewrite Hother by done. split; [done|].
      destruct Hc as [?|(t1 & k1 & p1 & H1 & L1)]; [by left|]. right.
      exists t1, k1, p1. rewrite lookup_insert_ne; [done|]. intros ->. congruence. }
  split; cbn.
  - intros t' k' q cl Hq Hl. rewrite lookup_insert in Hq. case_decide; simplify_eq.
    + destruct (inv_lead _ I _ _ _ cl Ht) as [? _]; [congruence|]. eauto.
    + destruct (inv_lead _ I _ _ _ _ Hq Hl) as [? ?].
      rewrite Hother; [done|]. intros Hl'. rewrite Hleads in Hl'.
      pose proof (inv_one _ I _ _ _ _ _ _ _ Ht Hq Hl' Hl). done.
  - intros t1 t2 k1 k2 p1 p2 cl (q1 & H1 & E1)%Hback (q2 & H2 & E2)%Hback L1 L2.
    rewrite <- E1 in L1. rewrite <- E2 in L2. by eapply (inv_one _ I).
  - intros k' cl (t' & q & Hq & Hl)%(inv_inflight _ I).
    destruct (decide (t = t')) as [<-|Hne].
    + rewrite Ht in Hq. injection Hq as <- <-.
      exists t, p'. rewrite lookup_insert_eq. by rewrite Hleads.
    + exists t', q. by rewrite lookup_insert_ne.
  - intros t' k' cl Hq. rewrite lookup_insert in Hq. case_decide; simplify_eq.
    + apply Hset. by apply Hwait.
    + apply Hset. by eapply (inv_wait _ I).
  - intros cl x Hx. destruct (Hdom cl) as [y Hy]; [eauto|]. by eapply (inv_fresh _ I).
Qed.

Lemma inv_spawn s t k : inv s -> threads s !! t = None -> inv (goto s t k Start).
Proof.
  intros I Ht.
  assert (forall t' k' q cl, <[t := (k, Start)]> (threads s) !! t' = Some (k', q) ->
    leads q = Some cl \/ q = Waiting cl -> threads s !! t' = Some (k', q)) as Hback.
  { intros t' k' q cl Hq Hl. rewrite lookup_insert in Hq. case_decide; simplify_eq; [|done].
    destruct Hl; done. }
  assert (forall t' q, threads s !! t' = Some q ->
    <[t := (k, Start)]> (threads s) !! t' = Some q) as Hfwd
    by (intros t' q Hq; rewrite lookup_insert_ne; [done|congruence]).
  split; cbn.
  - intros t' k' q cl Hq Hl. eapply (inv_lead _ I); eauto.
  - intros t1 t2 k1 k2 p1 p2 cl H1 H2 L1 L2. eapply (inv_one _ I); eauto.
  - intros k' cl (t' & q & Hq & Hl)%(inv_inflight _ I). eauto.
  - intros t' k' cl Hq. eapply Hback in Hq; [|by right].
    apply (inv_wait _ I) in Hq as (x & Hx & Hc). exists x. split; [done|].
    destruct Hc as [?|(t1 & k1 & p1 & ? & ?)]; [by left|]. right. eauto 6.
  - apply (inv_fresh _ I).
Qed.

Lemma inv_lead_step s t k :
  inv s -> threads s !! t = Some (k, Missed) -> inflight s !! k = None ->
  inv (goto (new_call s k) t k (Loading (next_call s))).
Proof.
  intros I Ht Hk.
  assert (calls s !! next_call s = None) as Hn.
  { destruct (calls s !! next_call s) eqn:Hx; [|done]. apply (inv_fresh _ I) in Hx. lia. }
  assert (forall t' k' q cl, threads s !! t' = Some (k', q) -> leads q = Some cl ->
    cl ≠ next_call s /\ k' ≠ k /\ t' ≠ t) as Hdiff.
  { intros t' k' q cl Hq Hl. destruct (inv_lead _ I _ _ _ _ Hq Hl) as (? & x & Hx & _).
    split; [congruence|]. split; [congruence|]. intros ->.
    rewrite Ht in Hq. by simplify_eq. }
  split; cbn.
  - intros t' k' q cl Hq Hl. rewrite lookup_insert in Hq. case_decide; simplify_eq/=.
    + rewrite !lookup_insert_eq. eauto.
    + destruct (Hdiff _ _ _ _ Hq Hl) as (? & ? & _).
      rewrite !lookup_insert_ne by done. eapply (inv_lead _ I); eauto.
  - intros t1 t2 k1 k2 p1 p2 cl.
    destruct (decide (t1 = t)) as [->|N1], (decide (t2 = t)) as [->|N2];
      rewrite ?lookup_insert_eq, ?lookup_insert_ne by done; intros H1 H2 L1 L2.
    + done.
    + injection H1 as <- <-. injection L1 as <-. by destruct (Hdiff _ _ _ _ H2 L2).
    + injection H2 as <- <-. injection L2 as <-. by destruct (Hdiff _ _ _ _ H1 L1).
    + eapply (inv_one _ I); eauto.
  - intros k' cl. rewrite lookup_insert. case_decide.
    + intros [= <-]. subst. exists t, (Loading (next_call s)). by rewrite lookup_insert_eq.
    + intros (t' & q & Hq & Hl)%(inv_inflight _ I). exists t', q.
      destruct (Hdiff _ _ _ _ Hq Hl) as (_ & _ & ?). by rewrite lookup_insert_ne.
  - intros t' k' cl Hq. rewrite lookup_insert in Hq. case_decide; simplify_eq.
    apply (inv_wait _ I) in Hq as (x & Hx & Hc). exists x. cbn.
    rewrite lookup_insert_ne by congruence. split; [done|].
    destruct Hc as [?|(t1 & k1 & p1 & H1 & L1)]; [by left|]. right. exists t1, k1, p1.
    destruct (Hdiff _ _ _ _ H1 L1) as (_ & _ & ?). by rewrite lookup_insert_ne.
  - intros cl x. rewrite lookup_insert. case_decide; [subst; lia|].
    intros Hx%(inv_fresh _ I). lia.
Qed.

Lemma inv_finish s t k cl r :
  inv s -> threads s !! t = Some (k, Released cl) -> inv (goto (end_call s k) t k (Done r)).
Proof.
  intros I Ht.
  destruct (inv_lead _ I _ _ _ cl Ht eq_refl) as (Hk & x & Hx & Hok).
  destruct Hok as [Hres Hdone].
  assert (forall t' k' q cl', t' ≠ t -> threads s !! t' = Some (k', q) ->
    leads q = Some cl' -> cl' ≠ cl /\ k' ≠ k) as Hdiff.
  { intros t' k' q cl' Hne Hq Hl. assert (cl' ≠ cl).
    { intros ->. by pose proof (inv_one _ I _ _ _ _ _ _ _ Hq Ht Hl eq_refl). }
    split; [done|]. intros ->.
    destruct (inv_lead _ I _ _ _ _ Hq Hl) as [? _]. congruence. }
  split; cbn.
  - intros t' k' q cl' Hq Hl. rewrite lookup_insert in Hq. case_decide; simplify_eq/=.
    destruct (Hdiff t' k' q cl') as [? ?]; [done..|].
    rewrite lookup_delete_ne by done. eapply (inv_lead _ I); eauto.
  - intros t1 t2 k1 k2 p1 p2 cl'.
    destruct (decide (t1 = t)) as [->|N1], (decide (t2 = t)) as [->|N2];
      rewrite ?lookup_insert_eq, ?lookup_insert_ne by done; intros H1 H2 L1 L2;
      [by simplify_eq..|]. eapply (inv_one _ I); eauto.
  - intros k' cl'. rewrite lookup_delete. case_decide; [done|].
    intros (t' & q & Hq & Hl)%(inv_inflight _ I). exists t', q.
    rewrite lookup_insert_ne; [done|]. intros <-. rewrite Ht in Hq. simplify_eq.
  - intros t' k' cl' Hq. rewrite lookup_insert in Hq. case_decide; simplify_eq.
    apply (inv_wait _ I) in Hq as (y & Hy & Hc). exists y. cbn. split; [done|].
    destruct Hc as [?|(t1 & k1 & p1 & H1 & L1)]; [by left|].
    destruct (decide (t1 = t)) as [->|].
    + left. rewrite Ht in H1. simplify_eq/=. split; congruence.
    + right. exists t1, k1, p1. by rewrite lookup_insert_ne.
  - apply (inv_fresh _ I).
Qed.
End Invariant.

Section Reachable.
Context {K V E : Type} `{Countable K}.
Implicit Types s : sys K V E.

(** What a move within the same call must provide, by the shape of the point. *)
Lemma thread_step_inv s t k p s' :
  inv s -> threads s !! t = Some (k, p) -> thread_step s t k p s' -> inv s'.
Proof.
  intros I Ht Hs.
  destruct Hs as [now v c' Hg|now c' Hg|cl Hi|Hi|cl r|now cl v x Hx Hr|cl e x Hx Hr
    |cl x Hx|cl x r Hx Hr|cl x e Hx Hd Hr|now cl x v v' c' Hx Hd Hr Hg].
  - by apply (inv_move s t k Start (Done (Ok v)) c' (calls s)).
  - by apply (inv_move s t k Start Missed c' (calls s)).
  - apply (inv_move s t k Missed (Waiting cl) (cache s) (calls s)); try done.
    intros cl' [= <-].
    destruct (inv_inflight _ I _ _ Hi) as (t' & q & Hq & Hl).
    destruct (inv_lead _ I _ _ _ _ Hq Hl) as (_ & x & Hx & _).
    exists x. split; [done|]. right. eauto.
  - by apply inv_lead_step.
  - destruct (inv_lead _ I _ _ _ cl Ht eq_refl) as (_ & y & Hy & _).
    apply (inv_move s t k (Loading cl) (Loaded cl) (cache s)); try done; cbn.
    + intros cl' [= <-]. rewrite lookup_insert_eq. eexists. split; [done|]. cbn. eauto.
    + intros cl' Hne. rewrite lookup_insert_ne; [done|congruence].
    + intros cl'. rewrite lookup_insert. case_decide; [subst; eauto|done].
  - destruct (inv_lead _ I _ _ _ cl Ht eq_refl) as (_ & y & Hy & Hok).
    apply (inv_move s t k (Loaded cl) (Stored cl) _ (calls s)); try done.
    intros cl' [= <-]. eauto.
  - destruct (inv_lead _ I _ _ _ cl Ht eq_refl) as (_ & y & Hy & Hok).
    apply (inv_move s t k (Loaded cl) (Stored cl) (cache s) (calls s)); try done.
    intros cl' [= <-]. eauto.
  - destruct (inv_lead _ I _ _ _ cl Ht eq_refl) as (_ & y & Hy & Hok). rewrite Hx in Hy. injection Hy as <-.
    apply (inv_move s t k (Stored cl) (Released cl) (cache s)); try done; cbn.
    + intros cl' [= <-]. rewrite lookup_insert_eq. eexists. split; [done|]. cbn.
      destruct Hok as [? _]. done.
    + intros cl' Hne. rewrite lookup_insert_ne; [done|congruence].
    + intros cl'. rewrite lookup_insert. case_decide; [subst; eauto|done].
  - by eapply inv_finish.
  - by apply (inv_move s t k (Waiting cl) (Done (Err e)) (cache s) (calls s)).
  - by apply (inv_move s t k (Waiting cl) (Done (Ok (default v v'))) c' (calls s)).
Qed.

Lemma inv_init (c0 : Cache K V) : inv (init (E := E) c0).
Proof. split; cbn; intros *; rewrite ?lookup_empty; try done. Qed.

Lemma inv_with_cache s c : inv s -> inv (with_cache s c).
Proof. intros [A B C D F]. split; done. Qed.

Lemma sf_step_inv s s' : inv s -> step s s' -> inv s'.
Proof.
  intros I [t k Ht|t k p s'' Ht Hs|o].
  - by apply inv_spawn.
  - by eapply thread_step_inv.
  - by apply inv_with_cache.
Qed.

Lemma sf_reachable_inv c0 s : reachable c0 s -> inv s.
Proof. induction 1; [apply inv_init | by eapply sf_step_inv]. Qed.

(** at any moment of any interleaving, at most one goroutine is loading a
    given key: concurrent GetOrLoad calls share a single load. *)
Theorem singleflight_one_loader (c0 : Cache K V) s t1 t2 k p1 p2
    (Hreach : reachable c0 s)
    (H1 : threads s !! t1 = Some (k, p1)) (H2 : threads s !! t2 = Some (k, p2))
    (L1 : is_Some (leads p1)) (L2 : is_Some (leads p2)) : t1 = t2.
Proof.
  apply sf_reachable_inv in Hreach as I. destruct L1 as [cl1 L1], L2 as [cl2 L2].
  destruct (inv_lead _ I _ _ _ _ H1 L1) as [Hk1 _].
  destruct (inv_lead _ I _ _ _ _ H2 L2) as [Hk2 _].
  assert (cl1 = cl2) as -> by congruence. by eapply (inv_one _ I).
Qed.

Lemma leader_enabled s t k p cl :
  inv s -> inhabited (result E V) -> threads s !! t = Some (k, p) -> leads p = Some cl ->
  exists s', thread_step s t k p s'.
Proof.
  intros I [r0] Ht Hl. destruct (inv_lead _ I _ _ _ _ Ht Hl) as (_ & x & Hx & Hok).
  destruct p as [| | |c|c|c|c|]; try done; injection Hl as ->.
  - eexists. by apply (ts_load _ _ _ _ r0).
  - destruct Hok as [[[v|e] Hr] _].
    + eexists. by eapply (ts_store _ _ _ 0).
    + eexists. by eapply ts_store_err.
  - eexists. by eapply ts_release.
  - destruct Hok as [[r Hr] _]. eexists. by eapply ts_finish.
Qed.

(** No interleaving of GetOrLoad calls deadlocks: while some call has not
    returned, some goroutine can take a step of GetOrLoad (a waiter is woken by
    its leader, and a leader is never blocked). *)
Theorem singleflight_no_deadlock (c0 : Cache K V) s t k p
    (Hreach : reachable c0 s) (Hload : inhabited (result E V))
    (Ht : threads s !! t = Some (k, p)) (Hp : forall r, p ≠ Done r) :
  exists t' k' p' s', threads s !! t' = Some (k', p') /\ thread_step s t' k' p' s'.
Proof.
  apply sf_reachable_inv in Hreach as I.
  destruct (leads p) as [cl|] eqn:Hl.
  { destruct (leader_enabled s t k p cl) as [s' Hs]; [done..|]. exists t, k, p, s'. done. }
  destruct p as [| |cl| | | | |r]; try done.
  - destruct (Get 0 k (cache s)) as [[v|] c'] eqn:Hg.
    + exists t, k, Start. eexists. split; [done|]. by eapply ts_hit.
    + exists t, k, Start. eexists. split; [done|]. by eapply ts_miss.
  - destruct (inflight s !! k) as [cl|] eqn:Hi.
    + exists t, k, Missed. eexists. split; [done|]. by eapply ts_join.
    + exists t, k, Missed. eexists. split; [done|]. by eapply ts_lead.
  - destruct (inv_wait _ I _ _ _ Ht) as (x & Hx & [[Hd [[v|e] Hr]]|(t' & k' & p' & H' & L')]).
    + destruct (Get 0 k (cache s)) as [v' c'] eqn:Hg.
      exists t, k, (Waiting cl). eexists. split; [done|]. by eapply ts_wake.
    + exists t, k, (Waiting cl). eexists. split; [done|]. by eapply ts_wake_err.
    + destruct (leader_enabled s t' k' p' cl) as [s' Hs]; [done..|]. eauto 6.
  - by destruct (Hp r).
Qed.
End Reachable.

(** ** Witnesses and a race *)

Section Race.
(** One key, string-free: the loaded value is 7. *)
Definition race_cache : Cache nat nat := New 100 30.

Definition race1 : sys nat nat unit := goto (init race_cache) 0 1%nat Start.
Definition race2 : sys nat nat unit :=
  goto (with_cache race1 (snd (Get 0 1%nat race_cache))) 0 1%nat Missed.
Definition race3 : sys nat nat unit := goto (new_call race2 1%nat) 0 1%nat (Loading 0).
Definition race_loaded : sys nat nat unit :=
  goto (with_call race3 0 {| cl_result := Some (Ok 7%nat); wg_done := false |})
    0 1%nat (Loaded 0).

Lemma race_loaded_reachable : reachable race_cache race_loaded.
Proof.
  apply (reach_step _ race3); [apply (reach_step _ race2); [apply (reach_step _ race1);
    [apply (reach_step _ (init race_cache)); [apply reach_init|]|]|]|].
  - by apply st_spawn.
  - apply (st_thread _ 0%nat 1%nat Start); [reflexivity|]. by apply (ts_miss _ _ _ 0).
  - apply (st_thread _ 0%nat 1%nat Missed); [reflexivity|]. by apply (ts_lead race2 0 1%nat).
  - apply (st_thread _ 0%nat 1%nat (Loading 0)); [reflexivity|]. apply ts_load.
Defined.

(** Invalidating (or flushing) while a load is running does not stop the load
    from caching what it read before the invalidation: right after the Flush
    the store step puts the old value back, and Get serves it. *)
Lemma flush_does_not_cancel_load :
  exists s s',
    reachable race_cache s /\
    s = with_cache race_loaded (snd (exec OFlush (cache race_loaded))) /\
    step s s' /\ fst (Get 10 1%nat (cache s')) = Some 7%nat.
Proof.
  eexists _, _. split; [|split; [reflexivity|split]].
  - eapply reach_step; [apply race_loaded_reachable|]. apply st_env.
  - eapply (st_thread _ 0%nat 1%nat (Loaded 0)); [reflexivity|].
    by eapply (ts_store _ _ _ 5 0%nat 7%nat).
  - reflexivity.
Qed.

Lemma singleflight_one_loader_witness :
  reachable race_cache race_loaded /\ threads race_loaded !! 0%nat = Some (1%nat, Loaded 0) /\
  (0%nat = 0%nat).
Proof.
  split; [apply race_loaded_reachable|]. split; [reflexivity|].
  apply (singleflight_one_loader race_cache race_loaded 0 0 1%nat (Loaded 0) (Loaded 0));
    [apply race_loaded_reachable | reflexivity | reflexivity | eexists; reflexivity
    | eexists; reflexivity].
Defined.

Lemma singleflight_no_deadlock_witness :
  exists t' k' p' s', threads race_loaded !! t' = Some (k', p') /\
    thread_step race_loaded t' k' p' s'.
Proof.
  apply (singleflight_no_deadlock race_cache race_loaded 0%nat 1%nat (Loaded 0));
    [apply race_loaded_reachable | exact (inhabits (Ok 7%nat)) | reflexivity | discriminate].
Defined.
End Race.
