(* ===== verification/ToolCache.v ===== *)
(** The tool-call response cache: [internal/cache/tool_cache.go] and
    [internal/cache/config.go].

    Cacheability patterns, TTL resolution at int64 width, and invalidation on
    mutations, over the cache of [Cache.v]. *)

From Stdlib Require Import Ascii String.
From S2P Require Import Prelude GoStrings Cache.
From stdpp Require Import gmap.

#[local] Open Scope string_scope.
#[local] Open Scope list_scope.
#[local] Open Scope Z_scope.

(** ** Configuration *)

Record InvalidationRule := {
  MutationPattern : string;
  InvalidatePattern : string
}.

Record ServerCacheConfig := {
  Enabled : bool;
  ReadTTLSec : Z;
  CacheablePatterns : list string;
  NoCacheablePatterns : list string;
  MutationPatterns : list string;
  InvalidationRules : list InvalidationRule;
  MaxEntries : Z
}.

Definition DefaultCacheablePatterns : list string :=
  ["get_*"; "list_*"; "search_*"; "read_*"; "fetch_*"; "query_*"; "find_*"].

Definition DefaultMutationPatterns : list string :=
  ["create_*"; "update_*"; "delete_*"; "send_*"; "post_*";
   "put_*"; "set_*"; "add_*"; "remove_*"; "publish_*"; "import_*"].

Definition DefaultNoCacheablePatterns : list string :=
  ["brw_*"; "browser_*"; "agent_browser_*"; "playwright_*"; "puppeteer_*";
   "navigate_*"; "screenshot_*"].

Definition DefaultServerCacheConfig : ServerCacheConfig :=
  {| Enabled := true; ReadTTLSec := 1800;
     CacheablePatterns := DefaultCacheablePatterns;
     NoCacheablePatterns := DefaultNoCacheablePatterns;
     MutationPatterns := DefaultMutationPatterns;
     InvalidationRules := []; MaxEntries := 1000 |}.

(** ** Keys *)

Record ToolCallKey := {
  ServerID : string;
  AuthScopeID : string;
  ToolName : string;
  ArgsHash : string
}.

#[export] Instance ToolCallKey_eq_dec : EqDecision ToolCallKey.
Proof. solve_decision. Defined.

#[export] Instance ToolCallKey_countable : Countable ToolCallKey.
Proof.
  refine (inj_countable'
    (fun k => (ServerID k, AuthScopeID k, ToolName k, ArgsHash k))
    (fun '(a, b, c, d) => {| ServerID := a; AuthScopeID := b; ToolName := c; ArgsHash := d |}) _).
  by intros [].
Defined.

(** ** Name patterns *)

Definition stripNamespace (toolName : string) : string :=
  match Cut toolName "__" with Some (_, after) => after | None => toolName end.

Definition isBrowserAutomationServer (serverID : string) : bool :=
  let id := ToLower serverID in
  bool_decide (id = "brw") || Contains id "brw-" || Contains id "brw_"
  || Contains id "browser" || Contains id "playwright" || Contains id "puppeteer".

(** One pattern of matchesAny against one candidate. *)
Definition patternMatches (candidate p : string) : bool :=
  if bool_decide (p = "*") then true
  else match CutSuffix p "*" with
       | Some prefix =>
           HasPrefix candidate prefix || bool_decide (candidate = TrimRight prefix "_")
       | None => bool_decide (candidate = p)
       end.

(** The later candidates of the loop: what follows each underscore. *)
Fixpoint afterUnderscores (s : string) : list string :=
  match s with
  | EmptyString => []
  | String a s' =>
      if bool_decide (a = "_"%char) then s' :: afterUnderscores s' else afterUnderscores s'
  end.

Definition matchesAny (name : string) (patterns : list string) : bool :=
  existsb (fun candidate => existsb (patternMatches candidate) patterns)
    (name :: afterUnderscores name).

(** ** The cache *)

Definition resolveTTL (cfg : ServerCacheConfig) : Z :=
  if ReadTTLSec cfg =? 0 then 100 * 365 * 24 * 3600 * second
  else if ReadTTLSec cfg <? 0 then 30 * 60 * second
  else wrap64 (ReadTTLSec cfg * second).

Record ToolCache := {
  tc_cache : Cache ToolCallKey string;
  configs : gmap string ServerCacheConfig
}.

Definition NewToolCache (cfgs : gmap string ServerCacheConfig) : ToolCache :=
  let total := map_fold (fun _ cfg acc => acc + MaxEntries cfg) 0 cfgs in
  let maxE := if total <=? 0 then 1000 else total in
  {| tc_cache := New maxE (30 * 60 * second); configs := cfgs |}.

Definition GetConfig (tc : ToolCache) (serverID : string) : ServerCacheConfig :=
  match configs tc !! serverID with
  | Some cfg => cfg
  | None => DefaultServerCacheConfig
  end.

Definition SetConfig (serverID : string) (cfg : ServerCacheConfig) (tc : ToolCache) : ToolCache :=
  {| tc_cache := tc_cache tc; configs := <[serverID := cfg]> (configs tc) |}.

Definition RemoveConfig (serverID : string) (tc : ToolCache) : ToolCache :=
  {| tc_cache := tc_cache tc; configs := delete serverID (configs tc) |}.

Definition IsCacheable (tc : ToolCache) (serverID toolName : string) : bool :=
  let cfg := GetConfig tc serverID in
  if negb (Enabled cfg) then false
  else if isBrowserAutomationServer serverID then false
  else
    let bare := stripNamespace toolName in
    if matchesAny bare DefaultNoCacheablePatterns then false
    else if bool_decide (NoCacheablePatterns cfg ≠ []) && matchesAny bare (NoCacheablePatterns cfg)
    then false
    else matchesAny bare (CacheablePatterns cfg).

Definition IsMutation (tc : ToolCache) (serverID toolName : string) : bool :=
  matchesAny (stripNamespace toolName) (MutationPatterns (GetConfig tc serverID)).

Definition with_tc_cache (tc : ToolCache) (c : Cache ToolCallKey string) : ToolCache :=
  {| tc_cache := c; configs := configs tc |}.

Definition tc_Get (now : Z) (k : ToolCallKey) (tc : ToolCache) : option string * ToolCache :=
  let '(r, c) := Get now k (tc_cache tc) in (r, with_tc_cache tc c).

Definition tc_Set (now : Z) (k : ToolCallKey) (v : string) (tc : ToolCache) : ToolCache :=
  with_tc_cache tc
    (SetWithTTL now k v (resolveTTL (GetConfig tc (ServerID k))) (tc_cache tc)).

Definition InvalidateForMutation (serverID authScopeID toolName : string) (tc : ToolCache) : ToolCache :=
  with_tc_cache tc
    (InvalidateFunc (fun k => bool_decide (ServerID k = serverID)
                              && bool_decide (AuthScopeID k = authScopeID)) (tc_cache tc)).

Definition InvalidateServer (serverID : string) (tc : ToolCache) : ToolCache :=
  with_tc_cache tc
    (InvalidateFunc (fun k => bool_decide (ServerID k = serverID)) (tc_cache tc)).

Definition tc_Flush (tc : ToolCache) : ToolCache := with_tc_cache tc (Flush (tc_cache tc)).

(** [MakeKey]: the hash function is an argument; [h[:8]] in hexadecimal is 16
    characters of the digest in hexadecimal. *)
Definition MakeKey (sha256_hex : string -> string) (serverID authScopeID toolName args : string)
  : ToolCallKey :=
  {| ServerID := serverID; AuthScopeID := authScopeID; ToolName := toolName;
     ArgsHash := substring 0 16 (sha256_hex args) |}.

(** ** Meaning of the patterns *)

Lemma afterUnderscores_elem (s t : string) :
  t ∈ afterUnderscores s <-> exists b, s = b +:+ "_" +:+ t.
Proof.
  induction s as [|a s IH]; cbn [afterUnderscores].
  - rewrite elem_of_nil. split; [done|]. intros [[|] H]; discriminate H.
  - assert (Hc : (exists b, String a s = b +:+ "_" +:+ t) <->
      (a = "_"%char /\ s = t) \/ exists b, s = b +:+ "_" +:+ t).
    { split.
      - intros [[|b0 b] H].
        + rewrite string_app_nil_l, string_app_cons, string_app_nil_l in H.
          injection H as -> ->. by left.
        + rewrite string_app_cons in H. injection H as -> ->. right. eauto.
      - intros [[-> ->]|[b ->]]; [by exists ""|]. exists (String a b). done. }
    rewrite Hc. case_bool_decide as Ha.
    + rewrite elem_of_cons, IH. split; [intros [->|?]; auto|].
      intros [[_ ->]|?]; auto.
    + rewrite IH. tauto.
Qed.

Lemma matchesAny_true (name : string) (patterns : list string) :
  matchesAny name patterns = true <->
  exists p c, p ∈ patterns /\ (c = name \/ exists b, name = b +:+ "_" +:+ c) /\
    patternMatches c p = true.
Proof.
  unfold matchesAny. rewrite existsb_elem. split.
  - intros (c & Hc & (p & Hp & Hm)%existsb_elem). exists p, c.
    apply elem_of_cons in Hc as [->|Hc%afterUnderscores_elem]; auto.
  - intros (p & c & Hp & Hc & Hm). exists c. split.
    + apply elem_of_cons. destruct Hc as [->|Hc]; [by left|]. right. by apply afterUnderscores_elem.
    + apply existsb_elem. eauto.
Qed.

Lemma patternMatches_star (c pre : string) :
  HasPrefix c pre = true -> patternMatches c (pre +:+ "*") = true.
Proof.
  intros Hc. unfold patternMatches. case_bool_decide; [done|].
  rewrite (proj2 (CutSuffix_Some _ _ pre)) by done. by rewrite Hc.
Qed.

(** A tool whose bare name has, at the start or after an underscore, one of
    the words brw_, browser_, playwright_, puppeteer_, navigate_ or screenshot_
    is never cacheable, whatever the configuration of the server. *)
Theorem browser_tools_never_cacheable (tc : ToolCache) (serverID toolName w b r : string)
    (Hw : w ∈ ["brw_"; "browser_"; "playwright_"; "puppeteer_"; "navigate_"; "screenshot_"])
    (Hname : stripNamespace toolName = w +:+ r \/
             stripNamespace toolName = b +:+ "_" +:+ w +:+ r) :
  IsCacheable tc serverID toolName = false.
Proof.
  unfold IsCacheable. destruct (negb _); [done|].
  destruct (isBrowserAutomationServer _); [done|].
  assert (matchesAny (stripNamespace toolName) DefaultNoCacheablePatterns = true) as ->; [|done].
  apply matchesAny_true. exists (w +:+ "*"), (w +:+ r). split; [|split].
  - repeat (apply elem_of_cons in Hw as [->|Hw]; [by vm_compute; set_solver|]).
    by apply elem_of_nil in Hw.
  - destruct Hname as [->| ->]; [by left|]. right. by exists b.
  - apply patternMatches_star, HasPrefix_app.
Qed.

Lemma browser_tools_never_cacheable_witness :
  IsCacheable (SetConfig "u1" {| Enabled := true; ReadTTLSec := 0;
      CacheablePatterns := ["*"]; NoCacheablePatterns := []; MutationPatterns := [];
      InvalidationRules := []; MaxEntries := 10 |} (NewToolCache ∅))
    "u1" "web__get_browser_snapshot" = false.
Proof.
  apply (browser_tools_never_cacheable _ _ _ "browser_" "get" "snapshot").
  - vm_compute. by right; left.
  - right. reflexivity.
Defined.

(** ** Invalidation and expiry *)

Definition tc_ok (tc : ToolCache) : Prop := wf (tc_cache tc).

Lemma tc_Get_fst now k tc : fst (tc_Get now k tc) = fst (Get now k (tc_cache tc)).
Proof. unfold tc_Get. by destruct (Get _ _ _). Qed.

(** After a mutation on a server under an auth scope, no cached response of
    that server and scope is served any more, and every other lookup answers as
    before; the cache stays well formed. *)
Theorem mutation_invalidates (tc : ToolCache) (s a t : string) (now : Z) (k : ToolCallKey)
    (Hok : tc_ok tc) :
  let tc' := InvalidateForMutation s a t tc in
  tc_ok tc' /\
  fst (tc_Get now k tc') =
    (if bool_decide (ServerID k = s) && bool_decide (AuthScopeID k = a) then None
     else fst (tc_Get now k tc)).
Proof.
  cbn zeta. split.
  - exact (proj1 (lc_invalidate_func_law (C := Cache ToolCallKey string) (V := string) _ (tc_cache tc) Hok)).
  - rewrite !tc_Get_fst.
    exact (get_after_invalidate_func (C := Cache ToolCallKey string) (V := string) now
             (fun k => bool_decide (ServerID k = s) && bool_decide (AuthScopeID k = a))
             k (tc_cache tc) Hok).
Qed.

Definition witness_key : ToolCallKey :=
  MakeKey (fun s => s) "u1" "scope" "get_task" "0123456789abcdef00".

Lemma mutation_invalidates_witness :
  fst (tc_Get 5 witness_key (tc_Set 0 witness_key "body" (NewToolCache ∅))) = Some "body" /\
  fst (tc_Get 5 witness_key
    (InvalidateForMutation "u1" "scope" "update_task"
       (tc_Set 0 witness_key "body" (NewToolCache ∅)))) = None.
Proof.
  split; [vm_compute; reflexivity|].
  refine (proj2 (mutation_invalidates _ "u1" "scope" "update_task" 5 witness_key _)).
  apply (SetWithTTL_refines 0 witness_key "body" _ (tc_cache (NewToolCache ∅))).
  apply New_wf.
Defined.

(** A non-negative [read_ttl_sec] up to 9223372036 is honoured to the
    nanosecond, 0 meaning a hundred years and a negative value half an hour, and
    a stored response is served exactly until then; one second more and the
    int64 product wraps to a negative duration, so the response just stored is
    already expired. *)
Theorem resolveTTL_bounds (tc : ToolCache) (k : ToolCallKey) (v : string) (t1 t2 : Z)
    (Hok : tc_ok tc) :
  let n := ReadTTLSec (GetConfig tc (ServerID k)) in
  let ttl := if n =? 0 then 100 * 365 * 24 * 3600 * second
             else if n <? 0 then 1800 * second else n * second in
  (n <= 9223372036 ->
   fst (tc_Get t2 k (tc_Set t1 k v tc)) = if t1 + ttl <? t2 then None else Some v) /\
  (n = 9223372037 -> fst (tc_Get t1 k (tc_Set t1 k v tc)) = None).
Proof.
  cbn zeta. unfold tc_ok in Hok. rewrite !tc_Get_fst. unfold tc_Set, resolveTTL, second, with_tc_cache.
  cbn [tc_cache].
  rewrite !(proj1 (Get_after_SetWithTTL (tc_cache tc) _ _ k v _ Hok)).
  set (n := ReadTTLSec _). split; intros Hn.
  - destruct (Z.eqb_spec n 0); [reflexivity|]. destruct (Z.ltb_spec n 0); [reflexivity|].
    by rewrite wrap64_small by lia.
  - rewrite Hn. change (9223372037 =? 0) with false. change (9223372037 <? 0) with false.
    change (wrap64 _) with (-9223372036709551616). cbv iota.
    destruct (Z.ltb_spec (t1 + -9223372036709551616) t1); [done|lia].
Qed.

Lemma resolveTTL_bounds_witness :
  fst (tc_Get 1800000000000 witness_key (tc_Set 0 witness_key "body" (NewToolCache ∅))) = Some "body".
Proof.
  refine (proj1 (resolveTTL_bounds (NewToolCache ∅) witness_key "body" 0 1800000000000 _) _).
  - apply New_wf.
  - vm_compute. discriminate.
Defined.
