(* ===== verification/Routing.v ===== *)
(** The routing engine: [internal/routing/engine.go] and
    [internal/routing/rule.go].

    Rules are parsed, given the namespace of their downstream server, sorted and
    cached per workspace; [matchRoute] takes the first rule that applies;
    [RouteWithFallback] walks the chain of workspace ancestors.  The store is an
    argument ([Store]); [iter] is the order in which Go ranges over the set of
    server ids. *)

From Stdlib Require Import Ascii String.
From S2P Require Import Prelude GoStrings GoJson Glob Cache.
From stdpp Require Import gmap.

#[local] Open Scope string_scope.
#[local] Open Scope list_scope.
#[local] Open Scope Z_scope.

(** ** Data *)

Record RouteRule := {
  ID : string;
  Priority : Z;
  WorkspaceID : string;
  PathGlob : string;
  ToolMatch : string;          (** JSON *)
  ScopePolicy : string;
  DownstreamServerID : string;
  AuthScopeID : string;
  Policy : string;
  ApprovalMode : string;
  ApprovalTimeout : Z
}.

Record parsedRule := {
  rule : RouteRule;
  toolPatterns : list string;
  specificity : Z;
  toolSpecificity : Z;
  namespace : string
}.

Record WorkspaceAncestor := { ws_ID : string; ws_Name : string; ws_RootPath : string }.

Record RouteContext := { rc_WorkspaceID : string; rc_Subpath : string; rc_ToolName : string }.

Record RouteResult := {
  res_DownstreamServerID : string;
  res_AuthScopeID : string;
  res_MatchedRuleID : string;
  res_OriginalToolName : string;
  res_ScopePolicy : string;
  res_ApprovalMode : string;
  res_ApprovalTimeout : Z;
  res_MatchedWorkspaceID : string;
  res_MatchedWorkspaceName : string;
  res_Subpath : string
}.

Inductive route_error :=
| ErrNoRoute
| DeniedError (RuleID : string)      (** wraps ErrDenied *)
| StoreError (msg : string).

Inductive store_error := ErrNotFound | OtherError (msg : string).

(** The slice of [store.Store] the engine calls. A nil server is [None]; only
    the namespace of a server is read. *)
Record Store := {
  ListRouteRules : string -> result string (list RouteRule);
  GetDownstreamServer : string -> result store_error (option string)
}.

(** ** Parsing and ordering rules: rule.go *)

(** [parseToolMatch]: anything but a non-empty JSON array of strings means
    every tool. *)
Definition parseToolMatch (raw : string) : list string :=
  if bool_decide (raw = "") then ["*"] else
  match unmarshal_strings raw with
  | None => ["*"]
  | Some [] => ["*"]
  | Some patterns => patterns
  end.

Definition patternSpecificity (p : string) : Z :=
  if bool_decide (p = "*") then 0 else if HasSuffix p "*" then 1 else 2.

Definition calculateToolSpecificity (patterns : list string) : Z :=
  fold_left (fun m p => let s := patternSpecificity p in if m <? s then s else m) patterns 0.

Definition parseRule (r : RouteRule) : parsedRule :=
  let ps := parseToolMatch (ToolMatch r) in
  {| rule := r; toolPatterns := ps; specificity := GlobSpecificity (PathGlob r);
     toolSpecificity := calculateToolSpecificity ps; namespace := "" |}.

Definition parseRules (rules : list RouteRule) : list parsedRule := map parseRule rules.

(** The comparison of sortRules. *)
Definition ruleLess (a b : parsedRule) : bool :=
  if negb (specificity a =? specificity b) then specificity b <? specificity a
  else if negb (toolSpecificity a =? toolSpecificity b)
  then toolSpecificity b <? toolSpecificity a
  else if negb (Priority (rule a) =? Priority (rule b))
  then Priority (rule b) <? Priority (rule a)
  else String.ltb (ID (rule a)) (ID (rule b)).

Definition sortRules (rules : list parsedRule) : list parsedRule := SliceStable ruleLess rules.

Definition toolPatternMatches (toolName p : string) : bool :=
  if bool_decide (p = "*") then true
  else if HasSuffix p "*" then HasPrefix toolName (TrimSuffix p "*")
  else bool_decide (p = toolName).

Fixpoint matchTool (toolName : string) (patterns : list string) : bool :=
  match patterns with
  | [] => false
  | p :: ps => if toolPatternMatches toolName p then true else matchTool toolName ps
  end.

(** ** Matching: engine.go *)

Definition namespaceAdmits (ns toolName : string) : bool :=
  negb (negb (bool_decide (ns = "")) && negb (HasPrefix toolName (ns +:+ "__"))).

(** The three tests of the loop body of matchRoute. *)
Definition applies (rc : RouteContext) (r : parsedRule) : bool :=
  GlobMatch (PathGlob (rule r)) (rc_Subpath rc)
  && matchTool (rc_ToolName rc) (toolPatterns r)
  && namespaceAdmits (namespace r) (rc_ToolName rc).

Definition matched (rc : RouteContext) (r : RouteRule) : RouteResult :=
  {| res_DownstreamServerID := DownstreamServerID r; res_AuthScopeID := AuthScopeID r;
     res_MatchedRuleID := ID r; res_OriginalToolName := rc_ToolName rc;
     res_ScopePolicy := ScopePolicy r; res_ApprovalMode := ApprovalMode r;
     res_ApprovalTimeout := ApprovalTimeout r;
     res_MatchedWorkspaceID := ""; res_MatchedWorkspaceName := ""; res_Subpath := "" |}.

Fixpoint matchRoute (rules : list parsedRule) (rc : RouteContext) : result route_error RouteResult :=
  match rules with
  | [] => Err ErrNoRoute
  | r :: rules' =>
      if negb (GlobMatch (PathGlob (rule r)) (rc_Subpath rc)) then matchRoute rules' rc
      else if negb (matchTool (rc_ToolName rc) (toolPatterns r)) then matchRoute rules' rc
      else if negb (bool_decide (namespace r = ""))
              && negb (HasPrefix (rc_ToolName rc) (namespace r +:+ "__"))
      then matchRoute rules' rc
      else if bool_decide (Policy (rule r) = "deny") then Err (DeniedError (ID (rule r)))
      else Ok (matched rc (rule r))
  end.

Definition ComputeSubpath (clientRoot wsRoot : string) : string :=
  if bool_decide (clientRoot = "") || bool_decide (wsRoot = "") then "" else
  let clientRoot := TrimSuffix clientRoot "/" in
  let wsRoot := TrimSuffix wsRoot "/" in
  if bool_decide (clientRoot = wsRoot) then ""
  else if bool_decide (wsRoot = "") then TrimPrefix clientRoot "/"
  else match CutPrefix clientRoot (wsRoot +:+ "/") with
       | Some sub => sub
       | None => ""
       end.

(** ** The engine *)

Record Engine := {
  rulesCache : Cache string (list parsedRule);
  wsVersion : Z
}.

Definition NewEngine : Engine :=
  {| rulesCache := New 100 (30 * 1000000000); wsVersion := 0 |}.

Definition with_rulesCache (e : Engine) (c : Cache string (list parsedRule)) : Engine :=
  {| rulesCache := c; wsVersion := wsVersion e |}.

Section Engine_.
Variable st : Store.
(** Iteration order of a Go map with these keys. *)
Variable iter : gset string -> list string.

Definition serverIDs (rules : list parsedRule) : gset string :=
  list_to_set (base.filter (fun s => s ≠ "") (map (fun r => DownstreamServerID (rule r)) rules)).

(** The lookup loop: the map from server id to non-empty namespace. *)
Fixpoint lookupNamespaces (ids : list string) (nsMap : gmap string string)
    : result route_error (gmap string string) :=
  match ids with
  | [] => Ok nsMap
  | id :: ids' =>
      match GetDownstreamServer st id with
      | Err ErrNotFound => lookupNamespaces ids' nsMap
      | Err (OtherError msg) => Err (StoreError msg)
      | Ok None => lookupNamespaces ids' nsMap
      | Ok (Some ns) =>
          lookupNamespaces ids' (if bool_decide (ns = "") then nsMap else <[id := ns]> nsMap)
      end
  end.

Definition setNamespace (nsMap : gmap string string) (r : parsedRule) : parsedRule :=
  match nsMap !! DownstreamServerID (rule r) with
  | Some ns =>
      {| rule := rule r; toolPatterns := toolPatterns r; specificity := specificity r;
         toolSpecificity := toolSpecificity r; namespace := ns |}
  | None => r
  end.

Definition resolveNamespaces (rules : list parsedRule) : result route_error (list parsedRule) :=
  match lookupNamespaces (iter (serverIDs rules)) ∅ with
  | Ok nsMap => Ok (map (setNamespace nsMap) rules)
  | Err e => Err e
  end.

(** The load function given to GetOrLoad. *)
Definition loadRules (workspaceID : string) : result route_error (list parsedRule) :=
  match ListRouteRules st workspaceID with
  | Err msg => Err (StoreError msg)
  | Ok rules =>
      match resolveNamespaces (parseRules rules) with
      | Ok p => Ok (sortRules p)
      | Err e => Err e
      end
  end.

Definition Route (t1 t2 : Z) (rc : RouteContext) (e : Engine)
    : result route_error RouteResult * Engine :=
  let '(parsed, c) := GetOrLoad t1 t2 (rc_WorkspaceID rc) (loadRules (rc_WorkspaceID rc))
                        (rulesCache e) in
  (match parsed with
   | Ok rules => matchRoute rules rc
   | Err err => Err err
   end, with_rulesCache e c).

Definition at_workspace (ws : WorkspaceAncestor) (clientRoot : string) (rc : RouteContext)
    : RouteContext :=
  {| rc_WorkspaceID := ws_ID ws; rc_Subpath := ComputeSubpath clientRoot (ws_RootPath ws);
     rc_ToolName := rc_ToolName rc |}.

Definition record_match (ws : WorkspaceAncestor) (subpath : string) (r : RouteResult) : RouteResult :=
  {| res_DownstreamServerID := res_DownstreamServerID r; res_AuthScopeID := res_AuthScopeID r;
     res_MatchedRuleID := res_MatchedRuleID r; res_OriginalToolName := res_OriginalToolName r;
     res_ScopePolicy := res_ScopePolicy r; res_ApprovalMode := res_ApprovalMode r;
     res_ApprovalTimeout := res_ApprovalTimeout r;
     res_MatchedWorkspaceID := ws_ID ws; res_MatchedWorkspaceName := ws_Name ws;
     res_Subpath := subpath |}.

Fixpoint fallbackLoop (t : Z) (rc : RouteContext) (clientRoot : string)
    (ancestors : list WorkspaceAncestor) (e : Engine) : result route_error RouteResult * Engine :=
  match ancestors with
  | [] => (Err ErrNoRoute, e)
  | ws :: rest =>
      let rc' := at_workspace ws clientRoot rc in
      match Route t t rc' e with
      | (Ok r, e') => (Ok (record_match ws (rc_Subpath rc') r), e')
      | (Err (DeniedError id), e') => (Err (DeniedError id), e')
      | (Err _, e') => fallbackLoop t rc clientRoot rest e'
      end
  end.

Definition RouteWithFallback (t : Z) (rc : RouteContext) (clientRoot : string)
    (ancestors : list WorkspaceAncestor) (e : Engine) : result route_error RouteResult * Engine :=
  match ancestors with
  | [] => Route t t rc e
  | _ => fallbackLoop t rc clientRoot ancestors e
  end.

Definition InvalidateWorkspace (workspaceID : string) (e : Engine) : Engine :=
  with_rulesCache e (Invalidate workspaceID (rulesCache e)).

Definition InvalidateAllRoutes (e : Engine) : Engine :=
  {| rulesCache := Flush (rulesCache e); wsVersion := wrap64 (wsVersion e + 1) |}.
End Engine_.

(** ** Matching lemmas *)

Lemma matchRoute_find (rules : list parsedRule) (rc : RouteContext) :
  matchRoute rules rc =
  match List.find (applies rc) rules with
  | None => Err ErrNoRoute
  | Some r => if bool_decide (Policy (rule r) = "deny") then Err (DeniedError (ID (rule r)))
              else Ok (matched rc (rule r))
  end.
Proof.
  induction rules as [|r rules IH]; [done|]. cbn [matchRoute List.find].
  unfold applies, namespaceAdmits at 1. fold (applies rc).
  destruct (GlobMatch _ _); cbn [negb andb]; [|done].
  destruct (matchTool _ _); cbn [negb andb]; [|done].
  by destruct (negb _ && negb _); cbn [negb].
Qed.

Lemma matchTool_existsb (t : string) (ps : list string) :
  matchTool t ps = existsb (toolPatternMatches t) ps.
Proof. induction ps as [|p ps IH]; [done|]. cbn. rewrite IH. by destruct (toolPatternMatches t p). Qed.

(** ** The rule order is a strict order on rules with distinct ids *)

Lemma string_ltb_leb (a b : string) : String.ltb a b = negb (String.leb b a).
Proof.
  unfold String.ltb, String.leb. rewrite (String.compare_antisym b a).
  by destruct (String.compare a b).
Qed.

Lemma string_leb_trans (a b c : string) :
  String.leb a b = true -> String.leb b c = true -> String.leb a c = true.
Proof.
  intros H1 H2. apply Is_true_true. transitivity b; apply Is_true_true; done.
Qed.

Lemma ruleLess_asym (a b : parsedRule) : ruleLess a b = true -> ruleLess b a = false.
Proof.
  unfold ruleLess. rewrite !string_ltb_leb.
  destruct (Z.eqb_spec (specificity a) (specificity b)) as [->|];
    [rewrite Z.eqb_refl | destruct (Z.eqb_spec (specificity b) (specificity a))];
    cbn [negb]; [|lia..].
  destruct (Z.eqb_spec (toolSpecificity a) (toolSpecificity b)) as [->|];
    [rewrite Z.eqb_refl | destruct (Z.eqb_spec (toolSpecificity b) (toolSpecificity a))];
    cbn [negb]; [|lia..].
  destruct (Z.eqb_spec (Priority (rule a)) (Priority (rule b))) as [->|];
    [rewrite Z.eqb_refl | destruct (Z.eqb_spec (Priority (rule b)) (Priority (rule a)))];
    cbn [negb]; [|lia..].
  destruct (String.leb_total (ID (rule a)) (ID (rule b))) as [E|E]; rewrite E; done.
Qed.

(** One level of a lexicographic order: smaller, or equal and [P] below. *)
Definition lexle (a b : Z) (P : Prop) : Prop := a < b \/ a = b /\ P.

Lemma lexle_trans (a b c : Z) (P Q R : Prop) :
  (P -> Q -> R) -> lexle b a P -> lexle c b Q -> lexle c a R.
Proof. unfold lexle. intros HR [?|[-> ?]] [?|[-> ?]]; [left; lia..|right; auto]. Qed.

(** [y] does not sort before [x], spelled out. *)
Lemma ruleLess_false (x y : parsedRule) :
  ruleLess y x = false <->
  lexle (specificity y) (specificity x)
   (lexle (toolSpecificity y) (toolSpecificity x)
     (lexle (Priority (rule y)) (Priority (rule x))
        (String.leb (ID (rule x)) (ID (rule y)) = true))).
Proof.
  unfold ruleLess, lexle. rewrite string_ltb_leb.
  destruct (Z.eqb_spec (specificity y) (specificity x)); cbn [negb]; [|lia].
  destruct (Z.eqb_spec (toolSpecificity y) (toolSpecificity x)); cbn [negb]; [|lia].
  destruct (Z.eqb_spec (Priority (rule y)) (Priority (rule x))); cbn [negb]; [|lia].
  rewrite negb_false_iff. split; [tauto|].
  intros [?|(_ & [?|(_ & [?|[_ ?]])])]; [lia|lia|lia|done].
Qed.

Lemma ruleLess_trans (x y z : parsedRule) :
  not_after ruleLess x y -> not_after ruleLess y z -> not_after ruleLess x z.
Proof.
  unfold not_after. rewrite !ruleLess_false.
  do 3 apply lexle_trans. apply string_leb_trans.
Qed.
#[export] Hint Resolve ruleLess_asym ruleLess_trans : go.

(** ** Specification of an answer *)

Section Spec.
(** The namespace the guard uses: that of an existing server, when non-empty. *)
Definition serverNamespace (st : Store) (id : string) : option string :=
  if bool_decide (id = "") then None else
  match GetDownstreamServer st id with
  | Ok (Some ns) => if bool_decide (ns = "") then None else Some ns
  | _ => None
  end.

Definition eligible (st : Store) (rc : RouteContext) (r : RouteRule) : Prop :=
  glob_rel (SplitByte (PathGlob r) "/") (SplitByte (rc_Subpath rc) "/") /\
  (exists p, p ∈ parseToolMatch (ToolMatch r) /\ toolPatternMatches (rc_ToolName rc) p = true) /\
  (forall ns, serverNamespace st (DownstreamServerID r) = Some ns ->
     exists bare, rc_ToolName rc = ns +:+ "__" +:+ bare).

(** [r'] ranks no higher than [r]: path specificity, then tool specificity,
    then priority, then the smaller id. *)
Definition ranks_below (r' r : RouteRule) : Prop :=
  lexle (GlobSpecificity (PathGlob r')) (GlobSpecificity (PathGlob r))
   (lexle (calculateToolSpecificity (parseToolMatch (ToolMatch r')))
          (calculateToolSpecificity (parseToolMatch (ToolMatch r)))
     (lexle (Priority r') (Priority r) (String.leb (ID r) (ID r') = true))).

Definition best (st : Store) (rc : RouteContext) (rules : list RouteRule) (r : RouteRule) : Prop :=
  r ∈ rules /\ eligible st rc r /\
  forall r', r' ∈ rules -> eligible st rc r' -> ranks_below r' r.

Definition answers (st : Store) (rc : RouteContext) (rules : list RouteRule)
    (out : result route_error RouteResult) : Prop :=
  match out with
  | Ok res => exists r, best st rc rules r /\ Policy r <> "deny" /\ res = matched rc r
  | Err (DeniedError id) => exists r, best st rc rules r /\ Policy r = "deny" /\ id = ID r
  | Err ErrNoRoute => forall r, r ∈ rules -> ~ eligible st rc r
  | Err (StoreError _) => False
  end.

(** Every server a rule names can be looked up. *)
Definition servers_readable (st : Store) (rules : list RouteRule) : Prop :=
  forall r msg, r ∈ rules -> DownstreamServerID r <> "" ->
    GetDownstreamServer st (DownstreamServerID r) <> Err (OtherError msg).
End Spec.

Section Loading.
Variable st : Store.
Variable iter : gset string -> list string.
Hypothesis iter_elem : forall s x, x ∈ iter s <-> x ∈ s.

Definition nsLookup (id : string) : option string :=
  match GetDownstreamServer st id with
  | Ok (Some ns) => if bool_decide (ns = "") then None else Some ns
  | _ => None
  end.

Lemma lookupNamespaces_ok ids nsMap m :
  lookupNamespaces st ids nsMap = Ok m ->
  (forall id msg, id ∈ ids -> GetDownstreamServer st id <> Err (OtherError msg)) /\
  forall id, m !! id = match (if decide (id ∈ ids) then nsLookup id else None) with
                       | Some ns => Some ns | None => nsMap !! id end.
Proof.
  revert nsMap. induction ids as [|i ids IH]; intros nsMap; cbn [lookupNamespaces].
  - intros [= <-]. split; [by intros id ? ?%elem_of_nil|].
    intros id. rewrite decide_False by apply not_elem_of_nil. done.
  - intros Hl.
    assert (exists nsMap', lookupNamespaces st ids nsMap' = Ok m /\
      (forall msg, GetDownstreamServer st i <> Err (OtherError msg)) /\
      nsMap' = match nsLookup i with Some ns => <[i := ns]> nsMap | None => nsMap end)
      as (nsMap' & Hl' & Hi & Hm).
    { unfold nsLookup. destruct (GetDownstreamServer st i) as [[ns|]|[|msg]]; try done;
        try (exists nsMap; done).
      eexists. split; [exact Hl|]. split; [done|]. by case_bool_decide. }
    apply IH in Hl' as [H1 H2]. split.
    + intros id msg [->|Hid]%elem_of_cons; [apply Hi|by apply H1].
    + intros id. rewrite H2, Hm. destruct (decide (id = i)) as [->|Hne].
      * rewrite (decide_True (P := i ∈ i :: ids)) by left.
        destruct (nsLookup i) as [ns|]; case_decide; try done. by rewrite lookup_insert_eq.
      * assert ((id ∈ i :: ids) <-> id ∈ ids) as Hiff by (rewrite elem_of_cons; tauto).
        assert ((match nsLookup i with Some ns => <[i := ns]> nsMap | None => nsMap end) !! id
                = nsMap !! id) as -> by (destruct (nsLookup i); [by rewrite lookup_insert_ne|done]).
        destruct (decide (id ∈ ids)), (decide (id ∈ i :: ids)); tauto || done.
Qed.

Lemma lookupNamespaces_err ids nsMap e :
  lookupNamespaces st ids nsMap = Err e ->
  exists id msg, id ∈ ids /\ GetDownstreamServer st id = Err (OtherError msg) /\ e = StoreError msg.
Proof.
  revert nsMap. induction ids as [|i ids IH]; intros nsMap; cbn [lookupNamespaces]; [done|].
  assert (forall m, lookupNamespaces st ids m = Err e ->
    exists id msg, id ∈ i :: ids /\ GetDownstreamServer st id = Err (OtherError msg)
                   /\ e = StoreError msg) as Hrec.
  { intros m (id & msg & Hin & ? & ?)%IH. exists id, msg. split; [by right|done]. }
  destruct (GetDownstreamServer st i) as [[ns|]|[|msg]] eqn:Hi; eauto.
  intros [= <-]. exists i, msg. split; [left|done].
Qed.

Lemma elem_of_serverIDs rules id :
  id ∈ serverIDs rules <->
  id <> "" /\ exists r, r ∈ rules /\ DownstreamServerID (rule r) = id.
Proof.
  unfold serverIDs. rewrite elem_of_list_to_set, list_elem_of_filter.
  rewrite list_elem_of_In, in_map_iff.
  split; intros [H1 (r & H2 & H3)]; (split; [done|]); exists r;
    split; try done; by apply list_elem_of_In.
Qed.

(** A rule as the sorted slice holds it. *)
Definition resolved (r : RouteRule) : parsedRule :=
  {| rule := r; toolPatterns := toolPatterns (parseRule r);
     specificity := specificity (parseRule r);
     toolSpecificity := toolSpecificity (parseRule r);
     namespace := default "" (serverNamespace st (DownstreamServerID r)) |}.

Lemma resolveNamespaces_ok rules p :
  resolveNamespaces st iter (parseRules rules) = Ok p ->
  p = map resolved rules /\ servers_readable st rules.
Proof.
  unfold resolveNamespaces. destruct (lookupNamespaces _ _ _) as [m|] eqn:Hl; [|done].
  intros [= <-]. apply lookupNamespaces_ok in Hl as [Hread Hm].
  assert (forall r, r ∈ rules -> DownstreamServerID r <> "" ->
    DownstreamServerID r ∈ iter (serverIDs (parseRules rules))) as Hin.
  { intros r Hr Hne. apply iter_elem, elem_of_serverIDs. split; [done|].
    exists (parseRule r). split; [|done]. apply list_elem_of_In, in_map, list_elem_of_In, Hr. }
  split.
  - unfold parseRules. rewrite map_map. apply map_ext_in. intros r Hr%list_elem_of_In.
    unfold setNamespace, resolved. cbn [rule parseRule]. rewrite Hm, lookup_empty.
    unfold serverNamespace, nsLookup. case_bool_decide as He.
    + rewrite decide_False; [done|].
      rewrite iter_elem, elem_of_serverIDs. tauto.
    + rewrite decide_True by auto.
      destruct (GetDownstreamServer _ _) as [[ns|]|]; try done. by case_bool_decide.
  - intros r msg Hr Hne. apply Hread. auto.
Qed.

Lemma resolveNamespaces_readable rules :
  servers_readable st rules -> exists p, resolveNamespaces st iter (parseRules rules) = Ok p.
Proof.
  intros Hread. unfold resolveNamespaces.
  destruct (lookupNamespaces _ _ _) as [m|e] eqn:Hl; [eauto|].
  apply lookupNamespaces_err in Hl as (id & msg & Hin & He & _).
  apply iter_elem, elem_of_serverIDs in Hin as (Hne & pr & Hpr & <-).
  apply list_elem_of_In, in_map_iff in Hpr as (r & <- & Hr%list_elem_of_In).
  by destruct (Hread r msg Hr Hne).
Qed.

Lemma applies_eligible rc r : applies rc (resolved r) = true <-> eligible st rc r.
Proof.
  unfold applies, eligible. rewrite !andb_true_iff, matchTool_existsb, existsb_elem.
  cbn [rule resolved toolPatterns parseRule namespace].
  assert (namespaceAdmits (default "" (serverNamespace st (DownstreamServerID r))) (rc_ToolName rc) = true
    <-> forall ns, serverNamespace st (DownstreamServerID r) = Some ns ->
        exists bare, rc_ToolName rc = ns +:+ "__" +:+ bare) as ->.
  { unfold namespaceAdmits. destruct (serverNamespace _ _) as [ns|] eqn:Hns; cbn [default].
    - assert (ns <> "") as Hne.
      { unfold serverNamespace in Hns. case_bool_decide; [done|].
        destruct (GetDownstreamServer _ _) as [[n|]|]; try done.
        case_bool_decide; [done|]. congruence. }
      rewrite bool_decide_eq_false_2 by done. cbn [negb andb]. rewrite negb_involutive, HasPrefix_spec.
      split.
      + intros [b Hb] ns' [= <-]. exists b. by rewrite Hb, string_app_assoc.
      + intros Hb. destruct (Hb ns eq_refl) as [b ->]. exists b. by rewrite string_app_assoc.
    - cbn. split; [done|]. done. }
  assert (GlobMatch (PathGlob r) (rc_Subpath rc) = true <->
    glob_rel (SplitByte (PathGlob r) "/") (SplitByte (rc_Subpath rc) "/")) as ->
    by (split; [apply globMatch_sound | apply globMatch_complete]).
  tauto.
Qed.

Lemma matchRoute_answers rc rules :
  answers st rc rules (matchRoute (sortRules (map resolved rules)) rc).
Proof.
  rewrite matchRoute_find. unfold sortRules.
  assert (forall r, r ∈ rules -> resolved r ∈ map resolved rules) as Hmap
    by (intros r Hr; apply list_elem_of_In, in_map, list_elem_of_In, Hr).
  destruct (List.find _ _) as [pr|] eqn:Hf.
  - apply find_SliceStable_min in Hf as (Hin & Ha & Hmin); eauto with go.
    apply list_elem_of_In, in_map_iff in Hin as (r & <- & Hr%list_elem_of_In).
    assert (best st rc rules r) as Hbest.
    { split; [done|]. split; [by apply applies_eligible|].
      intros r' Hr' He%applies_eligible.
      apply (ruleLess_false (resolved r) (resolved r')), Hmin; auto. }
    case_bool_decide as Hd; exists r; done.
  - intros r Hr He%applies_eligible.
    rewrite find_None_elem in Hf. specialize (Hf (resolved r)).
    rewrite Hf in He; [done|]. rewrite SliceStable_perm. auto.
Qed.

(** A load either fails because the store failed, or yields rules from which
    every answer is the best eligible rule's. *)
Lemma loadRules_spec ws :
  match loadRules st iter ws with
  | Ok p => exists rules, ListRouteRules st ws = Ok rules /\ servers_readable st rules /\
              forall rc, answers st rc rules (matchRoute p rc)
  | Err e => exists msg, e = StoreError msg /\
      (ListRouteRules st ws = Err msg \/
       exists rules r, ListRouteRules st ws = Ok rules /\ r ∈ rules /\ DownstreamServerID r <> "" /\
         GetDownstreamServer st (DownstreamServerID r) = Err (OtherError msg))
  end.
Proof.
  unfold loadRules. destruct (ListRouteRules st ws) as [rules|msg]; [|eauto].
  destruct (resolveNamespaces _ _ _) as [p|e] eqn:Hr.
  - apply resolveNamespaces_ok in Hr as [-> Hread]. exists rules.
    split; [done|]. split; [done|]. intros rc. apply matchRoute_answers.
  - unfold resolveNamespaces in Hr.
    destruct (lookupNamespaces _ _ _) eqn:Hl; [done|]. injection Hr as ->.
    apply lookupNamespaces_err in Hl as (id & msg & Hin & He & ->).
    apply iter_elem, elem_of_serverIDs in Hin as (Hne & pr & Hpr & <-).
    apply list_elem_of_In, in_map_iff in Hpr as (r & <- & Hr%list_elem_of_In). eauto 10.
Qed.
End Loading.

(** ** The engine *)

(** A store and the order in which a run ranged over its server ids. *)
Definition lawful (iter : gset string -> list string) : Prop :=
  forall s x, x ∈ iter s <-> x ∈ s.

(** [p] is what one complete load for [ws] returned, from some store. *)
Definition complete_load (ws : string) (p : list parsedRule) : Prop :=
  exists st iter, lawful iter /\ loadRules st iter ws = Ok p.

(** Every cached slice came from one complete load. *)
Definition engine_ok (e : Engine) : Prop :=
  wf (rulesCache e) /\
  forall en, en ∈ view (rulesCache e) -> complete_load (key en) (value en).



Lemma engine_ok_new : engine_ok NewEngine.
Proof. split; [apply New_wf|]. by intros en Hin%elem_of_nil. Qed.


(** A cold lookup: no live entry for the workspace. *)
Definition cold (t : Z) (ws : string) (e : Engine) : Prop :=
  fst (Get t ws (rulesCache e)) = None.

(** fail closed. When nothing is cached for the workspace and the lookup of
    a server some rule names fails (for any reason but not-found), Route reports
    a store failure, matches no rule at all, and caches nothing for the
    workspace, so the next call loads again. *)
Theorem Route_fails_closed (st : Store) (iter : gset string -> list string)
    (t1 t2 : Z) (rc : RouteContext) (e : Engine) (rules : list RouteRule) (r : RouteRule) (msg : string)
    (Hwf : wf (rulesCache e)) (Hiter : lawful iter) (Hcold : cold t1 (rc_WorkspaceID rc) e)
    (Hrules : ListRouteRules st (rc_WorkspaceID rc) = Ok rules) (Hr : r ∈ rules)
    (Hne : DownstreamServerID r <> "")
    (Hfail : GetDownstreamServer st (DownstreamServerID r) = Err (OtherError msg)) :
  let '(out, e') := Route st iter t1 t2 rc e in
  (exists msg', out = Err (StoreError msg')) /\
  forall t, fst (Get t (rc_WorkspaceID rc) (rulesCache e')) = None.
Proof.
  pose proof (loadRules_spec st iter Hiter (rc_WorkspaceID rc)) as Hs.
  unfold Route, GetOrLoad, cold in *.
  pose proof (Get_refines t1 (rc_WorkspaceID rc) (rulesCache e) Hwf) as Hg.
  destruct (Get t1 _ _) as [o c1]. cbn in Hcold. subst o. destruct Hg as (W1 & _ & E1).
  destruct (loadRules st iter _) as [p|err].
  - destruct Hs as (rules' & Hl & Hread & _). rewrite Hrules in Hl. injection Hl as <-.
    by destruct (Hread r msg Hr Hne).
  - destruct Hs as (msg' & -> & _). split; [eauto|]. intros t.
    cbn [rulesCache with_rulesCache].
    pose proof (Get_refines t (rc_WorkspaceID rc) c1 W1) as Hg.
    destruct (Get t _ c1) as [o c2]. destruct Hg as (_ & _ & E2).
    assert (lru_find (rc_WorkspaceID rc) (view c1) = None) as Hn.
    { unfold lru_get in E1. destruct (lru_find _ (view (rulesCache e))) as [en|] eqn:Hf.
      - destruct (expiresAt en <? t1); [|done]. injection E1 as ->.
        apply lru_find_absent. by intros en' [? _]%list_elem_of_filter.
      - injection E1 as ->. done. }
    unfold lru_get in E2. rewrite Hn in E2. by injection E2 as ->.
Qed.

(** *** The ancestor chain *)

Section Fallback.
Variable st : Store.
Variable iter : gset string -> list string.
Variables (t : Z) (rc : RouteContext) (clientRoot : string).

Definition try_ws (ws : WorkspaceAncestor) (e : Engine) : result route_error RouteResult * Engine :=
  Route st iter t t (at_workspace ws clientRoot rc) e.

(** Neither allowed nor denied: the loop goes on. *)
Definition undecided (out : result route_error RouteResult) : Prop :=
  match out with Err ErrNoRoute => True | Err (StoreError _) => True | _ => False end.

(** The engine after trying [l], all of which were undecided. *)
Inductive passes : list WorkspaceAncestor -> Engine -> Engine -> Prop :=
| passes_nil e : passes [] e e
| passes_cons ws l e e' e'' out :
    try_ws ws e = (out, e') -> undecided out -> passes l e' e'' -> passes (ws :: l) e e''.

Lemma fallbackLoop_spec ancestors e :
  let '(out, e') := fallbackLoop st iter t rc clientRoot ancestors e in
  match out with
  | Ok r => exists l1 ws l2 e1 r0, ancestors = l1 ++ ws :: l2 /\ passes l1 e e1 /\
      try_ws ws e1 = (Ok r0, e') /\
      r = record_match ws (ComputeSubpath clientRoot (ws_RootPath ws)) r0
  | Err (DeniedError id) => exists l1 ws l2 e1, ancestors = l1 ++ ws :: l2 /\ passes l1 e e1 /\
      try_ws ws e1 = (Err (DeniedError id), e')
  | Err ErrNoRoute => passes ancestors e e'
  | Err (StoreError _) => False
  end.
Proof.
  revert e. induction ancestors as [|ws rest IH]; intros e; cbn [fallbackLoop].
  { constructor. }
  fold (try_ws ws e). destruct (try_ws ws e) as [o e1] eqn:Ht.
  destruct o as [r|[|id|msg]].
  - exists [], ws, rest, e, r. repeat split; [constructor|done].
  - specialize (IH e1). destruct (fallbackLoop _ _ _ _ _ rest e1) as [[r|[|id|msg]] e2].
    + destruct IH as (l1 & ws' & l2 & e3 & r0 & -> & Hp & ? & ?).
      exists (ws :: l1), ws', l2, e3, r0. repeat split; [by econstructor|done..].
    + by econstructor.
    + destruct IH as (l1 & ws' & l2 & e3 & -> & Hp & ?).
      exists (ws :: l1), ws', l2, e3. repeat split; [by econstructor|done].
    + done.
  - exists [], ws, rest, e. repeat split; [constructor|done].
  - specialize (IH e1). destruct (fallbackLoop _ _ _ _ _ rest e1) as [[r|[|id|msg']] e2].
    + destruct IH as (l1 & ws' & l2 & e3 & r0 & -> & Hp & ? & ?).
      exists (ws :: l1), ws', l2, e3, r0. repeat split; [by econstructor|done..].
    + by econstructor.
    + destruct IH as (l1 & ws' & l2 & e3 & -> & Hp & ?).
      exists (ws :: l1), ws', l2, e3. repeat split; [by econstructor|done].
    + done.
Qed.
End Fallback.

(** over a non-empty ancestor chain, the answer is that of the first
    workspace that decides: its match, annotated with that workspace and the
    subpath of the client root in it, or its denial, which no later ancestor can
    overturn; every workspace before it was undecided, and no route means every
    workspace was. *)
Theorem RouteWithFallback_first_decision (st : Store) (iter : gset string -> list string)
    (t : Z) (rc : RouteContext) (clientRoot : string) (ancestors : list WorkspaceAncestor) (e : Engine)
    (Hne : ancestors <> []) :
  let '(out, e') := RouteWithFallback st iter t rc clientRoot ancestors e in
  match out with
  | Ok r => exists l1 ws l2 e1 r0, ancestors = l1 ++ ws :: l2 /\
      passes st iter t rc clientRoot l1 e e1 /\
      Route st iter t t (at_workspace ws clientRoot rc) e1 = (Ok r0, e') /\
      r = record_match ws (ComputeSubpath clientRoot (ws_RootPath ws)) r0
  | Err (DeniedError id) => exists l1 ws l2 e1, ancestors = l1 ++ ws :: l2 /\
      passes st iter t rc clientRoot l1 e e1 /\
      Route st iter t t (at_workspace ws clientRoot rc) e1 = (Err (DeniedError id), e')
  | Err ErrNoRoute => passes st iter t rc clientRoot ancestors e e'
  | Err (StoreError _) => False
  end.
Proof.
  unfold RouteWithFallback. destruct ancestors as [|ws rest]; [done|].
  apply (fallbackLoop_spec st iter t rc clientRoot (ws :: rest) e).
Qed.

(** ** Subpaths *)

(** The subpath is non-empty exactly when the client root lies strictly
    below the workspace root, both read without their trailing slash: it is then
    the rest of the path after the workspace root and a slash (after a leading
    slash when the workspace root is the file-system root). *)
Theorem ComputeSubpath_spec (clientRoot wsRoot sub : string) (Hsub : sub <> "") :
  ComputeSubpath clientRoot wsRoot = sub <->
  clientRoot <> "" /\ wsRoot <> "" /\
  ((TrimSuffix wsRoot "/" = "" /\ TrimPrefix (TrimSuffix clientRoot "/") "/" = sub) \/
   (TrimSuffix wsRoot "/" <> "" /\
    TrimSuffix clientRoot "/" = TrimSuffix wsRoot "/" +:+ "/" +:+ sub)).
Proof.
  unfold ComputeSubpath.
  destruct (decide (clientRoot = "")) as [->|Hc].
  { rewrite bool_decide_eq_true_2 by done. cbn [orb]. split; [congruence|tauto]. }
  destruct (decide (wsRoot = "")) as [->|Hw].
  { rewrite (bool_decide_eq_true_2 ("" = "")) by done. rewrite orb_true_r. split; [congruence|tauto]. }
  rewrite !bool_decide_eq_false_2 by done. cbn [orb].
  set (c := TrimSuffix clientRoot "/"). set (w := TrimSuffix wsRoot "/").
  destruct (decide (c = w)) as [E|E].
  - rewrite bool_decide_eq_true_2 by done. split; [congruence|].
    intros (_ & _ & [[Ew Hp]|[_ Hp]]); exfalso; apply Hsub.
    + rewrite E, Ew in Hp. done.
    + assert (length (list_ascii_of_string c) = length (list_ascii_of_string (w +:+ "/" +:+ sub))) as Hl
        by (by rewrite Hp).
      rewrite E, !list_ascii_app, !length_app in Hl. cbn in Hl. lia.
  - rewrite bool_decide_eq_false_2 by done.
    destruct (decide (w = "")) as [Ew|Ew].
    + rewrite bool_decide_eq_true_2 by done. tauto.
    + rewrite bool_decide_eq_false_2 by done.
      destruct (CutPrefix c (w +:+ "/")) as [r|] eqn:Hr.
      * apply CutPrefix_Some in Hr. rewrite string_app_assoc in Hr. split.
        -- intros ->. tauto.
        -- intros (_ & _ & [[? _]|[_ Hp]]); [done|].
           rewrite Hr in Hp. apply string_app_inj_l, string_app_inj_l in Hp. done.
      * split; [congruence|]. intros (_ & _ & [[? _]|[_ Hp]]); [done|].
        rewrite <- string_app_assoc in Hp. apply CutPrefix_Some in Hp. congruence.
Qed.

(** ** Concrete stores *)

Section Examples_.
Definition ex_rule (id pol srv : string) : RouteRule :=
  {| ID := id; Priority := 0; WorkspaceID := "w"; PathGlob := "**"; ToolMatch := "";
     ScopePolicy := ""; DownstreamServerID := srv; AuthScopeID := "a"; Policy := pol;
     ApprovalMode := "none"; ApprovalTimeout := 0 |}.

(** The child workspace denies the tools of server [s1]; its parent allows
    everything of server [s2]. [busy] makes the lookup of [s1] fail. *)
Definition ex_store (busy : bool) : Store :=
  {| ListRouteRules := fun ws =>
       if bool_decide (ws = "child") then Ok [ex_rule "deny-1" "deny" "s1"]
       else Ok [ex_rule "allow-1" "allow" "s2"];
     GetDownstreamServer := fun id =>
       if bool_decide (id = "s1")
       then (if busy then Err (OtherError "database is locked") else Ok (Some "gh"))
       else Ok (Some "gh") |}.

Definition ex_rc : RouteContext :=
  {| rc_WorkspaceID := "child"; rc_Subpath := ""; rc_ToolName := "gh__create_issue" |}.
Definition ex_chain : list WorkspaceAncestor :=
  [{| ws_ID := "child"; ws_Name := "child"; ws_RootPath := "/srv/p/sub" |};
   {| ws_ID := "root"; ws_Name := "root"; ws_RootPath := "/srv/p" |}].

Lemma elements_lawful : lawful elements.
Proof. intros s x. apply elem_of_elements. Qed.

(** The chain stops at the child's denial when the store answers; when the
    store fails on that very lookup, the failure is treated as no route and
    the parent's rule routes the denied tool. *)
Lemma fallback_masks_store_failure :
  fst (RouteWithFallback (ex_store false) elements 0 ex_rc "/srv/p/sub" ex_chain NewEngine)
    = Err (DeniedError "deny-1") /\
  (exists r, fst (RouteWithFallback (ex_store true) elements 0 ex_rc "/srv/p/sub" ex_chain NewEngine)
    = Ok r /\ res_MatchedRuleID r = "allow-1").
Proof. split; [vm_compute; reflexivity|]. eexists. split; vm_compute; reflexivity. Qed.

(** Of two rules that differ in their id only, the smaller id decides, be it the allow; and
    of two that differ in their priority, the larger number: docs/mcplexer-features.md says
    that deny wins a tie and that the smaller number comes first. *)
Lemma deny_loses_tie :
  let ranked id pol priority := {| ID := id; Priority := priority; WorkspaceID := "w"; PathGlob := "**"; ToolMatch := ""; ScopePolicy := "";
        DownstreamServerID := "s"; AuthScopeID := "a"; Policy := pol; ApprovalMode := "none"; ApprovalTimeout := 0 |} in
  let store rules := {| ListRouteRules := fun _ => Ok rules; GetDownstreamServer := fun _ => Ok (Some "gh") |} in
  let answer rules := match fst (Route (store rules) elements 0 0 ex_rc NewEngine) with Ok r => Some (res_MatchedRuleID r) | Err _ => None end in
  answer [ranked "b" "deny" 5%Z; ranked "a" "allow" 5%Z] = Some "a" /\
  answer [ranked "a" "deny" 1%Z; ranked "b" "allow" 100%Z] = Some "b".
Proof. split; vm_compute; reflexivity. Qed.


Lemma Route_fails_closed_witness :
  exists msg, fst (Route (ex_store true) elements 0 0 ex_rc NewEngine) = Err (StoreError msg).
Proof.
  pose proof (Route_fails_closed (ex_store true) elements 0 0 ex_rc NewEngine
    [ex_rule "deny-1" "deny" "s1"] (ex_rule "deny-1" "deny" "s1") "database is locked"
    (proj1 engine_ok_new) elements_lawful) as H.
  destruct (Route _ _ _ _ _ _) as [r e'] eqn:E.
  apply H; [vm_compute; reflexivity | reflexivity | left | discriminate | reflexivity].
Defined.

Lemma RouteWithFallback_first_decision_witness :
  exists l1 ws l2 e1 e', ex_chain = l1 ++ ws :: l2 /\
    Route (ex_store false) elements 0 0 (at_workspace ws "/srv/p/sub" ex_rc) e1
    = (Err (DeniedError "deny-1"), e').
Proof.
  assert (exists e', RouteWithFallback (ex_store false) elements 0 ex_rc "/srv/p/sub" ex_chain NewEngine
    = (Err (DeniedError "deny-1"), e')) as [e' E] by (eexists; vm_compute; reflexivity).
  pose proof (RouteWithFallback_first_decision (ex_store false) elements 0 ex_rc "/srv/p/sub"
    ex_chain NewEngine ltac:(discriminate)) as H.
  rewrite E in H. destruct H as (l1 & ws & l2 & e1 & H1 & _ & H2). eauto 10.
Defined.

Lemma ComputeSubpath_spec_witness : ComputeSubpath "/srv/p/sub/x/" "/srv/p/" = "sub/x".
Proof.
  apply (proj2 (ComputeSubpath_spec "/srv/p/sub/x/" "/srv/p/" "sub/x" ltac:(discriminate))).
  split; [discriminate|]. split; [discriminate|]. right. split; [discriminate|reflexivity].
Defined.
End Examples_.
