(* ===== verification/Hlc.v ===== *)
(** The hybrid logical clock: [internal/clock/hlc.go].

    A stamp is a (wall milliseconds, counter) pair rendered as two 16-digit
    hexadecimal words.  The wall clock is an argument of [Now] (nanoseconds, the
    value of [UnixNano]); int64 and uint16 arithmetic is written out. *)

From Stdlib Require Import Ascii String.
From S2P Require Import Prelude GoStrings.

#[local] Open Scope string_scope.
#[local] Open Scope list_scope.
#[local] Open Scope Z_scope.

(** ** Operations *)

Record Clock := { lastMs : Z; counter : Z }.

Definition NewClock : Clock := {| lastMs := 0; counter := 0 |}.

Definition maxUint16 : Z := 65535.

(** Lower-case hexadecimal digit. *)
Definition hex_digit (d : Z) : ascii :=
  ascii_of_N (Z.to_N (if d <? 10 then 48 + d else 87 + d)).

(** [%0kx] of a value below 16^k. *)
Fixpoint hex_word (k : nat) (u : Z) : string :=
  match k with
  | O => ""
  | S k' => hex_word k' (u / 16) +:+ String (hex_digit (u mod 16)) ""
  end.

Definition uint64 (z : Z) : Z := z mod 2 ^ 64.

Definition Format (wallMs ctr : Z) : string :=
  hex_word 16 (uint64 wallMs) +:+ hex_word 16 (uint64 ctr).

(** [Sscanf(s, "%016x", &u)]: skip spaces (a newline is an error), then one or
    more hexadecimal digits of either case; what follows them is ignored. *)
Fixpoint scan_space (l : list ascii) : option (list ascii) :=
  match l with
  | [] => Some []
  | a :: l' =>
      if bool_decide (a = ascii_of_N 10) then None
      else if isSpace a then scan_space l' else Some l
  end.

Fixpoint scan_digits (acc : Z) (l : list ascii) : Z :=
  match l with
  | [] => acc
  | a :: l' => match hex_val a with
               | Some d => scan_digits (acc * 16 + Z.of_N d) l'
               | None => acc
               end
  end.

Definition scan_hex (s : string) : option Z :=
  l ← scan_space (list_ascii_of_string s);
  match l with
  | [] => None
  | a :: _ => match hex_val a with Some _ => Some (scan_digits 0 l) | None => None end
  end.

Inductive parse_error := BadLength (n : nat) | BadWall | BadCounter.

Definition Parse (s : string) : result parse_error (Z * Z) :=
  if negb (Nat.eqb (String.length s) 32) then Err (BadLength (String.length s)) else
  match scan_hex (substring 0 16 s) with
  | None => Err BadWall
  | Some wall =>
      match scan_hex (substring 16 16 s) with
      | None => Err BadCounter
      | Some ctr => Ok (wrap64 wall, ctr mod 65536)
      end
  end.

Definition Now (unixNano : Z) (c : Clock) : string * Clock :=
  let ms := Z.quot unixNano 1000000 in
  let c' :=
    if ms <=? lastMs c then
      if counter c =? maxUint16
      then {| lastMs := wrap64 (lastMs c + 1); counter := 0 |}
      else {| lastMs := lastMs c; counter := counter c + 1 |}
    else {| lastMs := ms; counter := 0 |} in
  (Format (lastMs c') (counter c'), c').

Definition Observe (remote : string) (c : Clock) : result parse_error unit * Clock :=
  match Parse remote with
  | Err e => (Err e, c)
  | Ok (wall, ctr) =>
      (Ok tt,
       if (lastMs c <? wall) || ((wall =? lastMs c) && (counter c <? ctr))
       then {| lastMs := wall; counter := ctr |} else c)
  end.

(** ** Hexadecimal words *)

Lemma hex_word_length k u : String.length (hex_word k u) = k.
Proof.
  revert u. induction k as [|k IH]; intros u; [done|].
  cbn [hex_word]. rewrite string_length_app, IH. cbn. lia.
Qed.

Lemma N_of_hex_digit d :
  0 <= d < 16 -> N_of_ascii (hex_digit d) = Z.to_N (if d <? 10 then 48 + d else 87 + d).
Proof. intros Hd. unfold hex_digit. apply N_ascii_embedding. destruct (Z.ltb_spec d 10); lia. Qed.

Lemma compare_hex_digit d e :
  0 <= d < 16 -> 0 <= e < 16 -> Ascii.compare (hex_digit d) (hex_digit e) = (d ?= e).
Proof.
  intros Hd He. unfold Ascii.compare. rewrite !N_of_hex_digit by done.
  destruct (Z.ltb_spec d 10), (Z.ltb_spec e 10);
    destruct (Z.compare_spec d e) as [|H'|H']; subst; try lia;
    first [apply N.compare_refl | apply N.compare_lt_iff | apply N.compare_gt_iff]; lia.
Qed.

(** Fixed-width words compare as the numbers they write. *)
Lemma compare_hex_word k u v :
  0 <= u < 16 ^ Z.of_nat k -> 0 <= v < 16 ^ Z.of_nat k ->
  String.compare (hex_word k u) (hex_word k v) = (u ?= v).
Proof.
  revert u v. induction k as [|k IH]; intros u v Hu Hv.
  - cbn in *. replace u with 0 by lia. by replace v with 0 by lia.
  - rewrite Nat2Z.inj_succ, Z.pow_succ_r in Hu, Hv by lia.
    cbn [hex_word]. rewrite compare_app by (by rewrite !hex_word_length).
    assert (forall w, 0 <= w < 16 * 16 ^ Z.of_nat k -> 0 <= w / 16 < 16 ^ Z.of_nat k) as Hdiv
      by (intros w Hw; split; [apply Z.div_pos|apply Z.div_lt_upper_bound]; lia).
    rewrite IH by auto. pose proof (Z.mod_pos_bound u 16). pose proof (Z.mod_pos_bound v 16).
    pose proof (Z.div_mod u 16). pose proof (Z.div_mod v 16).
    destruct (Z.compare_spec (u / 16) (v / 16)).
    + cbn [String.compare]. rewrite compare_hex_digit by lia.
      destruct (Z.compare_spec (u mod 16) (v mod 16)); symmetry;
        [apply Z.compare_eq_iff|apply Z.compare_lt_iff|apply Z.compare_gt_iff]; lia.
    + symmetry. apply Z.compare_lt_iff. lia.
    + symmetry. apply Z.compare_gt_iff. lia.
Qed.

(** Stamps of non-negative walls compare as (wall, counter) pairs. *)
Definition stamp_lt (w1 c1 w2 c2 : Z) : Prop := w1 < w2 \/ w1 = w2 /\ c1 < c2.

Definition in_range (w c : Z) : Prop := 0 <= w < 2 ^ 63 /\ 0 <= c <= maxUint16.

Lemma uint64_small z : 0 <= z < 2 ^ 64 -> uint64 z = z.
Proof. apply Z.mod_small. Qed.

Lemma Format_ltb w1 c1 w2 c2 :
  in_range w1 c1 -> in_range w2 c2 ->
  String.ltb (Format w1 c1) (Format w2 c2) = true <-> stamp_lt w1 c1 w2 c2.
Proof.
  unfold in_range, maxUint16, Format, String.ltb, stamp_lt. intros H1 H2.
  rewrite !uint64_small by lia.
  rewrite compare_app by (by rewrite !hex_word_length).
  change (2 ^ 63) with 9223372036854775808 in *.
  rewrite !compare_hex_word by (change (16 ^ Z.of_nat 16) with 18446744073709551616; lia).
  destruct (Z.compare_spec w1 w2); [|split; [intros; left; lia|done]|split; [done|lia]].
  destruct (Z.compare_spec c1 c2); split; try done; lia || (intros; right; lia).
Qed.

(** ** Parsing what was formatted *)

Definition is_hex (a : ascii) : Prop := is_Some (hex_val a).

Lemma scan_digits_app acc l1 l2 :
  Forall is_hex l1 -> scan_digits acc (l1 ++ l2) = scan_digits (scan_digits acc l1) l2.
Proof.
  revert acc. induction l1 as [|a l1 IH]; intros acc; [done|].
  intros [[d Hd] Hl]%list.Forall_cons. cbn. rewrite Hd. by apply IH.
Qed.

Lemma hex_val_digit d : 0 <= d < 16 -> hex_val (hex_digit d) = Some (Z.to_N d).
Proof.
  intros Hd. assert (d ∈ map Z.of_nat (seq 0 16)) as Hin.
  { apply list_elem_of_In, in_map_iff. exists (Z.to_nat d). split; [lia|]. apply in_seq. lia. }
  clear Hd. cbn [seq map] in Hin.
  repeat (apply elem_of_cons in Hin as [->|Hin]; [reflexivity|]). by apply elem_of_nil in Hin.
Qed.

Lemma hex_word_hex k u : Forall is_hex (list_ascii_of_string (hex_word k u)).
Proof.
  revert u. induction k as [|k IH]; intros u; [constructor|].
  cbn [hex_word]. rewrite list_ascii_app. apply Forall_app. split; [apply IH|].
  cbn. repeat constructor. unfold is_hex. rewrite hex_val_digit; [eauto|].
  apply Z.mod_pos_bound. lia.
Qed.

Lemma scan_digits_hex_word k u acc :
  0 <= u < 16 ^ Z.of_nat k ->
  scan_digits acc (list_ascii_of_string (hex_word k u)) = acc * 16 ^ Z.of_nat k + u.
Proof.
  revert u acc. induction k as [|k IH]; intros u acc Hu; [cbn in *; lia|].
  rewrite Nat2Z.inj_succ, Z.pow_succ_r in * by lia. cbn [hex_word].
  pose proof (Z.mod_pos_bound u 16). pose proof (Z.div_mod u 16).
  rewrite list_ascii_app, scan_digits_app by apply hex_word_hex.
  rewrite IH by (split; [apply Z.div_pos|apply Z.div_lt_upper_bound]; lia).
  cbn. rewrite hex_val_digit by lia. rewrite Z2N.id by lia. lia.
Qed.

(** White space is not a hexadecimal digit. *)
Lemma hex_not_space a : is_hex a -> isSpace a = false /\ a <> ascii_of_N 10.
Proof.
  intros Ha. destruct a as [[] [] [] [] [] [] [] []];
    first [by destruct Ha | by split].
Qed.

Lemma scan_hex_word k u :
  0 <= u < 16 ^ Z.of_nat (S k) -> scan_hex (hex_word (S k) u) = Some u.
Proof.
  intros Hu. unfold scan_hex.
  pose proof (hex_word_hex (S k) u) as Hh. pose proof (scan_digits_hex_word (S k) u 0 Hu) as Hs.
  pose proof (hex_word_length (S k) u) as Hl.
  destruct (hex_word (S k) u) as [|a s]; [done|].
  cbn [list_ascii_of_string] in *. pose proof Hh as [Ha _]%list.Forall_cons.
  destruct (hex_not_space a Ha) as [H1 H2]. cbn [scan_space].
  rewrite bool_decide_eq_false_2 by done. rewrite H1. cbn [mbind option_bind].
  destruct Ha as [d ->]. by rewrite Hs.
Qed.

Lemma substring_app_l (s t : string) : substring 0 (String.length s) (s +:+ t) = s.
Proof.
  induction s as [|a s IH]; [by destruct t|].
  rewrite string_app_cons. cbn [String.length substring]. by rewrite IH.
Qed.

Lemma substring_app_r (s t : string) n :
  substring (String.length s) n (s +:+ t) = substring 0 n t.
Proof. induction s as [|a s IH]; [done|]. rewrite string_app_cons. cbn. apply IH. Qed.

Lemma substring_full (s : string) : substring 0 (String.length s) s = s.
Proof. rewrite <- (string_app_nil_r s) at 2. apply substring_app_l. Qed.

Lemma uint64_bounds z : 0 <= uint64 z < 2 ^ 64.
Proof. apply Z.mod_pos_bound. lia. Qed.

Lemma Parse_words u v :
  0 <= u < 2 ^ 64 -> 0 <= v < 2 ^ 64 ->
  Parse (hex_word 16 u +:+ hex_word 16 v) = Ok (wrap64 u, v mod 65536).
Proof.
  intros Hu Hv. unfold Parse.
  rewrite string_length_app, !hex_word_length. cbn [Nat.add Nat.eqb negb].
  pose proof (substring_app_l (hex_word 16 u) (hex_word 16 v)) as E1.
  pose proof (substring_app_r (hex_word 16 u) (hex_word 16 v) 16) as E2.
  pose proof (substring_full (hex_word 16 v)) as E3.
  rewrite hex_word_length in E1, E2, E3. rewrite E1, E2, E3.
  by rewrite !scan_hex_word by (change (16 ^ Z.of_nat 16) with (2 ^ 64); lia).
Qed.

Lemma wrap64_uint64 z : - 2 ^ 63 <= z < 2 ^ 63 -> wrap64 (uint64 z) = z.
Proof.
  intros Hz. unfold wrap64, uint64. rewrite Zplus_mod_idemp_l, Z.mod_small; lia.
Qed.

(** Parse inverts Format for every int64 wall and every uint16 counter. *)
Theorem Parse_Format (w c : Z) (Hw : - 2 ^ 63 <= w < 2 ^ 63) (Hc : 0 <= c <= maxUint16) :
  Parse (Format w c) = Ok (w, c).
Proof.
  unfold Format. rewrite Parse_words by apply uint64_bounds.
  rewrite wrap64_uint64 by done. unfold maxUint16 in Hc.
  rewrite uint64_small by lia. by rewrite Z.mod_small by lia.
Qed.

Lemma Parse_Format_witness : Parse (Format (-5) 65535) = Ok (-5, 65535).
Proof. apply Parse_Format; unfold maxUint16; lia. Defined.

(** ** Monotonicity *)

(** What the clock is fed: a wall reading, or a stamp received from a peer. *)
Inductive event := ENow (unixNano : Z) | EObserve (remote : string).

Definition tick (ev : event) (c : Clock) : list string * Clock :=
  match ev with
  | ENow t => let '(s, c') := Now t c in ([s], c')
  | EObserve r => ([], snd (Observe r c))
  end.

(** The stamps issued over a sequence of events, and the final clock. *)
Fixpoint issue (evs : list event) (c : Clock) : list string * Clock :=
  match evs with
  | [] => ([], c)
  | ev :: evs' => let '(s, c1) := tick ev c in let '(ss, c2) := issue evs' c1 in (s ++ ss, c2)
  end.

(** Every wall time an event carries is below [b] milliseconds. *)
Definition event_below (b : Z) (ev : event) : Prop :=
  match ev with
  | ENow t => Z.quot t 1000000 <= b
  | EObserve r => forall w c, Parse r = Ok (w, c) -> w <= b
  end.

Definition clock_below (b : Z) (c : Clock) : Prop :=
  0 <= lastMs c <= b /\ 0 <= counter c <= maxUint16.

Definition clock_stamp (c : Clock) : string := Format (lastMs c) (counter c).

Lemma stamp_lt_ltb c c' :
  in_range (lastMs c) (counter c) -> in_range (lastMs c') (counter c') ->
  stamp_lt (lastMs c) (counter c) (lastMs c') (counter c') ->
  String.ltb (clock_stamp c) (clock_stamp c') = true.
Proof. intros H1 H2 H. exact (proj2 (Format_ltb _ _ _ _ H1 H2) H). Qed.

Lemma Now_step t c b :
  clock_below b c -> b + 1 < 2 ^ 63 -> Z.quot t 1000000 <= b ->
  let '(s, c') := Now t c in
  clock_below (b + 1) c' /\ s = clock_stamp c' /\
  stamp_lt (lastMs c) (counter c) (lastMs c') (counter c').
Proof.
  unfold Now, clock_below, clock_stamp, stamp_lt, maxUint16. intros [H1 H2] Hb Ht.
  set (ms := Z.quot t 1000000) in *. split; [|split; [done|]].
  - destruct (Z.leb_spec ms (lastMs c)); [destruct (Z.eqb_spec (counter c) 65535)|]; cbn;
      rewrite ?wrap64_small by lia; lia.
  - destruct (Z.leb_spec ms (lastMs c)); [destruct (Z.eqb_spec (counter c) 65535)|]; cbn;
      rewrite ?wrap64_small by lia; lia.
Qed.

(** What Parse yields is an int64 and a uint16. *)
Lemma Parse_counter_range r w c : Parse r = Ok (w, c) -> 0 <= c <= maxUint16.
Proof.
  unfold Parse, maxUint16. destruct (negb _); [done|].
  destruct (scan_hex _) as [u|]; [|done]. destruct (scan_hex (substring 16 16 r)) as [v|]; [|done].
  intros [= <- <-]. pose proof (Z.mod_pos_bound v 65536). lia.
Qed.

Lemma Observe_step r c b :
  clock_below b c -> (forall w ct, Parse r = Ok (w, ct) -> w <= b) ->
  let c' := snd (Observe r c) in
  clock_below b c' /\
  (c' = c \/ stamp_lt (lastMs c) (counter c) (lastMs c') (counter c')) /\
  (forall w ct, Parse r = Ok (w, ct) -> ~ stamp_lt (lastMs c') (counter c') w ct).
Proof.
  unfold Observe, clock_below, stamp_lt. intros [H1 H2] Hr.
  destruct (Parse r) as [[w ct]|e] eqn:Hp; cbn [snd]; [|by split; [|split; [left|]]].
  pose proof (Parse_counter_range _ _ _ Hp). specialize (Hr w ct eq_refl).
  destruct (_ || _) eqn:E; cbn.
  - assert (lastMs c < w \/ w = lastMs c /\ counter c < ct) by lia.
    split; [lia|]. split; [right; lia|]. intros w' ct' [= <- <-]. lia.
  - bool_hyps. split; [lia|]. split; [by left|].
    intros w' ct' [= <- <-]. apply andb_false_iff in H3. lia.
Qed.

Lemma tick_step ev c b :
  clock_below b c -> b + 1 < 2 ^ 63 -> event_below b ev ->
  let '(ss, c') := tick ev c in
  clock_below (b + 1) c' /\
  (clock_stamp c' = clock_stamp c \/ String.ltb (clock_stamp c) (clock_stamp c') = true) /\
  Forall (fun s => String.ltb (clock_stamp c) s = true /\ s = clock_stamp c') ss /\
  (length ss <= 1)%nat.
Proof.
  intros Hc Hb He.
  assert (forall c', clock_below (b + 1) c' ->
    stamp_lt (lastMs c) (counter c) (lastMs c') (counter c') ->
    String.ltb (clock_stamp c) (clock_stamp c') = true) as Hlt.
  { intros c' [? ?] Hs. destruct Hc. by apply stamp_lt_ltb; [split; lia|split; lia|]. }
  destruct ev as [t|r]; cbn [tick event_below] in *.
  - pose proof (Now_step t c b Hc Hb He) as Hn. destruct (Now t c) as [s c'].
    destruct Hn as (Hc' & -> & Hs). pose proof (Hlt c' Hc' Hs).
    split; [done|]. split; [by right|]. split; [by repeat constructor|done].
  - destruct (Observe_step r c b Hc He) as ([? ?] & Hs & _).
    assert (clock_below (b + 1) (snd (Observe r c))) as Hc' by (split; lia).
    split; [done|]. split; [|split; [constructor|cbn; lia]].
    destruct Hs as [->|Hs]; [by left|right; auto].
Qed.

Lemma issue_above evs c b :
  clock_below b c -> b + Z.of_nat (length evs) < 2 ^ 63 -> Forall (event_below b) evs ->
  StronglySorted (fun s t => String.ltb s t = true) (fst (issue evs c)) /\
  Forall (fun s => String.ltb (clock_stamp c) s = true) (fst (issue evs c)).
Proof.
  revert c b. induction evs as [|ev evs IH]; intros c b Hc Hb Hevs; [split; constructor|].
  apply list.Forall_cons in Hevs as [He Hevs]. cbn [length] in Hb.
  cbn [issue]. pose proof (tick_step ev c b Hc) as Ht.
  destruct (tick ev c) as [ss c1]. destruct Ht as (Hc1 & Hmono & Hss & Hlen); [lia|done|].
  destruct (IH c1 (b + 1)) as [HS HF]; [done|lia| |].
  { eapply Forall_impl; [exact Hevs|]. intros [t|r]; cbn; [lia|].
    intros H w ct Hp. specialize (H w ct Hp). lia. }
  destruct (issue evs c1) as [ss' c2]. cbn [fst] in *.
  assert (Forall (fun s => String.ltb (clock_stamp c) s = true) ss') as HF'.
  { destruct Hmono as [<-|Hm]; [done|].
    eapply Forall_impl; [exact HF|]. intros s Hs. by eapply string_ltb_trans. }
  destruct ss as [|s [|]]; cbn in Hlen; [done| |lia].
  apply list.Forall_cons in Hss as [[Hs ->] _]. split; [by constructor|by constructor].
Qed.

(** over any interleaving of Now calls (with wall readings that may stall or
    run backwards) and observed peer stamps, the issued stamps are strictly
    increasing as strings, provided the walls seen leave room for one more
    millisecond per event below the int64 limit. *)
Theorem hlc_strictly_increasing (evs : list event) (b : Z)
    (Hevs : Forall (event_below b) evs) (Hb0 : 0 <= b)
    (Hb : b + Z.of_nat (length evs) < 2 ^ 63) :
  StronglySorted (fun s t => String.ltb s t = true) (fst (issue evs NewClock)).
Proof. apply (issue_above evs NewClock b); [split; cbn; unfold maxUint16; lia|done|done]. Qed.

(** The receive rule. After observing a canonical peer stamp, the next stamp
    is greater than that stamp and than the last one issued, whatever the wall
    clock says. *)
Theorem Observe_then_Now (c : Clock) (w ct t b : Z)
    (Hc : clock_below b c) (Hr : in_range w ct) (Hw : w <= b) (Ht : Z.quot t 1000000 <= b)
    (Hb : b + 1 < 2 ^ 63) :
  let s := fst (Now t (snd (Observe (Format w ct) c))) in
  String.ltb (Format w ct) s = true /\ String.ltb (clock_stamp c) s = true.
Proof.
  pose proof Hr as [Hr1 Hr2]. assert (Parse (Format w ct) = Ok (w, ct)) as Hp.
  { unfold Format. rewrite Parse_words by apply uint64_bounds.
    rewrite wrap64_uint64 by lia. unfold maxUint16 in Hr2.
    rewrite uint64_small by lia. by rewrite Z.mod_small by lia. }
  destruct (Observe_step (Format w ct) c b Hc) as (Hc1 & Hmono & Hge).
  { intros w' ct' Hp'. rewrite Hp in Hp'. injection Hp' as <- <-. done. }
  specialize (Hge w ct Hp). set (c1 := snd (Observe _ _)) in *.
  pose proof (Now_step t c1 b Hc1 Hb Ht) as Hn. destruct (Now t c1) as [s c2].
  destruct Hn as ([? ?] & -> & Hlt). cbn [fst].
  assert (in_range (lastMs c2) (counter c2)) as R2 by (split; lia).
  destruct Hc as [? ?].
  assert (in_range (lastMs c) (counter c)) as R0 by (split; lia).
  assert (stamp_lt w ct (lastMs c2) (counter c2)) as L1.
  { unfold stamp_lt in *. lia. }
  assert (stamp_lt (lastMs c) (counter c) (lastMs c2) (counter c2)) as L2.
  { unfold stamp_lt in *. destruct Hmono as [E|?]; [rewrite E in Hlt|]; lia. }
  split; [exact (proj2 (Format_ltb _ _ _ _ Hr R2) L1)|by apply stamp_lt_ltb].
Qed.

Lemma hlc_strictly_increasing_witness :
  StronglySorted (fun s t => String.ltb s t = true)
    (fst (issue [ENow 3000000; ENow 1000000; EObserve (Format 9 65535); ENow 0] NewClock)).
Proof.
  apply (hlc_strictly_increasing _ 9); [|lia|cbn; lia].
  repeat constructor; cbn [event_below]; [by vm_compute|by vm_compute| |by vm_compute].
  intros w c Hp. vm_compute in Hp. injection Hp as <- <-. lia.
Defined.

Lemma Observe_then_Now_witness :
  let s := fst (Now 0 (snd (Observe (Format 5 65535) NewClock))) in
  String.ltb (Format 5 65535) s = true /\ String.ltb (clock_stamp NewClock) s = true.
Proof.
  apply (Observe_then_Now NewClock 5 65535 0 5);
    [split; cbn; unfold maxUint16; lia|split; unfold maxUint16; lia|lia|vm_compute; done|lia].
Defined.

(** ** Where the documented contract does not hold *)

(** Parse is documented to reject what is not 32 lower-case hexadecimal digits.
    [Sscanf] accepts upper case, leading blanks and anything after the first
    digit. *)
Example Parse_accepts_junk :
  Parse "             Fzz               1" = Ok (15, 1).
Proof. reflexivity. Qed.

(** A peer's counter above 65535 is truncated to 16 bits, so the stamp issued
    after observing it can be below it as a string. *)
Example Observe_truncates_counter :
  let remote := "00000000000000050000000000010000" in
  let '(r, c) := Observe remote NewClock in
  r = Ok tt /\ String.ltb (fst (Now 0 c)) remote = true.
Proof. by vm_compute. Qed.

(** A single peer stamp at the int64 limit makes the clock wrap: the first stamp
    after it has a negative wall, and the second one is back at the wall
    reading, below its predecessor. *)
Example Observe_overflow_breaks_order :
  let '(_, c0) := Observe (Format (2 ^ 63 - 1) 65535) NewClock in
  let '(s1, c1) := Now 1700000000000000000 c0 in
  let '(s2, c2) := Now 1700000000001000000 c1 in
  lastMs c1 = - 2 ^ 63 /\ String.ltb s2 s1 = true.
Proof. by vm_compute. Qed.
