(* ===== verification/Shellmeta.v ===== *)
(** The shell metacharacter scanner of the hook gate:
    [internal/shellmeta/shellmeta.go].

    Both scanners are index loops over the bytes of the command with a quoting
    state and at most one pending heredoc.  One iteration is a [*_step]
    function, the loop runs it with fuel; [scan_fuel_enough] shows that the
    index strictly grows, so that the length of the command is enough fuel.
    The reference is [quote_at], the shell's own quoting state as a fold over the
    bytes in front of a position. *)

From Stdlib Require Import Ascii String.
From S2P Require Import Prelude GoStrings.

#[local] Open Scope string_scope.
#[local] Open Scope list_scope.

(** ** Data *)

Inductive state := stateNormal | stateSingleQuote | stateDoubleQuote | stateBackslash.

#[export] Instance state_eq_dec : EqDecision state.
Proof. solve_decision. Defined.

Record hd := { delim : string; quoted : bool }.

(** The bytes the scanners compare with. *)
Definition c_tab := ascii_of_N 9.
Definition c_nl := ascii_of_N 10.
Definition c_cr := ascii_of_N 13.
Definition c_space := ascii_of_N 32.
Definition c_dquote := ascii_of_N 34.
Definition c_dollar := ascii_of_N 36.
Definition c_amp := ascii_of_N 38.
Definition c_squote := ascii_of_N 39.
Definition c_lparen := ascii_of_N 40.
Definition c_dash := ascii_of_N 45.
Definition c_semi := ascii_of_N 59.
Definition c_lt := ascii_of_N 60.
Definition c_gt := ascii_of_N 62.
Definition c_backslash := ascii_of_N 92.
Definition c_backtick := ascii_of_N 96.
Definition c_pipe := ascii_of_N 124.

Definition eqc (c x : ascii) : bool := bool_decide (c = x).

(** [i < len(cmd) && cmd[i] == x]. *)
Definition at_is (cmd : list ascii) (i : nat) (x : ascii) : bool :=
  match cmd !! i with Some c => eqc c x | None => false end.

(** [for j < len(cmd) && f(cmd[j]) { j++ }]: the final [j]. *)
Fixpoint span_len (f : ascii -> bool) (l : list ascii) : nat :=
  match l with
  | a :: l' => if f a then S (span_len f l') else O
  | [] => O
  end.

Definition advance (f : ascii -> bool) (cmd : list ascii) (j : nat) : nat :=
  (j + span_len f (drop j cmd))%nat.

(** [cmd[a:b]]. *)
Definition slice (cmd : list ascii) (a b : nat) : string :=
  string_of_list_ascii (take (b - a) (drop a cmd)).

Definition is_line_end (c : ascii) : bool := eqc c c_nl || eqc c c_cr.

(** ** Operations *)

Definition isRedirectAmpersand (cmd : list ascii) (i : nat) : bool :=
  if at_is cmd (i + 1) c_gt then true
  else match i with
       | O => false
       | S p => at_is cmd p c_gt || at_is cmd p c_lt
       end.

Definition ends_word (c : ascii) : bool :=
  eqc c c_space || eqc c c_tab || eqc c c_nl || eqc c c_cr || eqc c c_semi || eqc c c_pipe || eqc c c_amp.

(** [Some (delim, quoted, next)] when [ok]. *)
Definition parseHeredocRedirect (cmd : list ascii) (i : nat) : option (string * bool * nat) :=
  if negb (at_is cmd (i + 1) c_lt) then None else
  let j := (i + 2)%nat in
  if at_is cmd j c_lt then None else
  let j := if at_is cmd j c_dash then (j + 1)%nat else j in
  let j := advance (fun c => eqc c c_space || eqc c c_tab) cmd j in
  match cmd !! j with
  | None => None
  | Some c =>
      if is_line_end c then None else
      if eqc c c_squote || eqc c c_dquote then
        let start := (j + 1)%nat in
        let e := advance (fun x => negb (eqc x c)) cmd start in
        if Nat.leb (length cmd) e then None else
        let d := slice cmd start e in
        if bool_decide (d = "") then None else Some (d, true, (e + 1)%nat)
      else
        let start := j in
        let e := advance (fun x => negb (ends_word x)) cmd start in
        if Nat.ltb e (length cmd) then
          if Nat.eqb e start then None else Some (slice cmd start e, false, e)
        else
          if Nat.ltb start e then Some (slice cmd start e, false, e) else None
  end.

(** One iteration: return from the scanner, or go on at the next index. *)
Inductive outcome (A : Type) :=
  | Return (a : A)
  | Next (i : nat) (st : state) (heredocs : list hd).
Arguments Return {A} a.
Arguments Next {A} i st heredocs.

(** In double quotes a backslash hides the next byte when it is one of
    backslash, double quote, dollar, backtick and newline. *)
Definition dquote_escapable (c : ascii) : bool :=
  eqc c c_backslash || eqc c c_dquote || eqc c c_dollar || eqc c c_backtick || eqc c c_nl.

Definition after_dquote_backslash (cmd : list ascii) (i : nat) : nat :=
  match cmd !! (i + 1)%nat with
  | Some c => if dquote_escapable c then (i + 2)%nat else (i + 1)%nat
  | None => (i + 1)%nat
  end.

(** The end of the line that starts after the line break at [i], and whether the
    line is the delimiter of the first pending heredoc. *)
Definition line_end (cmd : list ascii) (i : nat) : nat :=
  advance (fun c => negb (is_line_end c)) cmd (i + 1).

Definition tab_space : string := String c_tab (String c_space "").

Definition closes (cmd : list ascii) (i : nat) (h : hd) : bool :=
  bool_decide (TrimLeft (slice cmd (i + 1) (line_end cmd i)) tab_space = delim h).

Definition is_chain (c : ascii) : bool :=
  eqc c c_semi || eqc c c_pipe || eqc c c_amp || eqc c c_backtick || eqc c c_nl || eqc c c_cr.

(** The [';', '|', '&', '`', '\n', '\r'] case of ContainsUnquotedMetachar. *)
Definition meta_chain (cmd : list ascii) (i : nat) (c : ascii) (heredocs : list hd)
  : outcome ascii :=
  if eqc c c_amp && isRedirectAmpersand cmd i then Next (i + 1) stateNormal heredocs else
  match heredocs with
  | [] => Return c
  | h :: rest =>
      if is_line_end c && closes cmd i h then
        let p := line_end cmd i in
        let restStart :=
          if Nat.ltb p (length cmd) then
            if at_is cmd p c_cr && at_is cmd (p + 1) c_nl then (p + 2)%nat else (p + 1)%nat
          else p in
        if negb (bool_decide (TrimSpace (slice cmd restStart (length cmd)) = ""))
        then Return c_nl
        else Next (p + 1) stateNormal rest
      else if quoted h then Next (i + 1) stateNormal heredocs
      else if eqc c c_backtick then Return c
      else Next (i + 1) stateNormal heredocs
  end.

Definition meta_step (cmd : list ascii) (i : nat) (c : ascii) (st : state) (heredocs : list hd)
  : outcome ascii :=
  match st with
  | stateNormal =>
      if eqc c c_squote then Next (i + 1) stateSingleQuote heredocs
      else if eqc c c_dquote then Next (i + 1) stateDoubleQuote heredocs
      else if eqc c c_backslash then Next (i + 1) stateBackslash heredocs
      else if eqc c c_lt then
        match heredocs with
        | [] => match parseHeredocRedirect cmd i with
                | Some (d, q, next) => Next next stateNormal [{| delim := d; quoted := q |}]
                | None => Next (i + 1) stateNormal heredocs
                end
        | _ => Next (i + 1) stateNormal heredocs
        end
      else if is_chain c then meta_chain cmd i c heredocs
      else Next (i + 1) stateNormal heredocs
  | stateSingleQuote =>
      Next (i + 1) (if eqc c c_squote then stateNormal else stateSingleQuote) heredocs
  | stateDoubleQuote =>
      if eqc c c_dquote then Next (i + 1) stateNormal heredocs
      else if eqc c c_backslash then Next (after_dquote_backslash cmd i) stateDoubleQuote heredocs
      else if eqc c c_backtick then Return c
      else Next (i + 1) stateDoubleQuote heredocs
  | stateBackslash => Next (i + 1) stateNormal heredocs
  end.

(** [$(] but not [$((]. *)
Definition opens_dollar (cmd : list ascii) (i : nat) : bool :=
  at_is cmd (i + 1) c_lparen && negb (at_is cmd (i + 2) c_lparen).

Definition in_quoted_body (heredocs : list hd) : bool :=
  match heredocs with h :: _ => quoted h | [] => false end.

Definition sub_step (cmd : list ascii) (i : nat) (c : ascii) (st : state) (heredocs : list hd)
  : outcome string :=
  match st with
  | stateNormal =>
      if eqc c c_squote then Next (i + 1) stateSingleQuote heredocs
      else if eqc c c_dquote then Next (i + 1) stateDoubleQuote heredocs
      else if eqc c c_backslash then Next (i + 1) stateBackslash heredocs
      else if is_line_end c then
        match heredocs with
        | h :: rest =>
            if closes cmd i h then Next (line_end cmd i + 1) stateNormal rest
            else Next (i + 1) stateNormal heredocs
        | [] => Next (i + 1) stateNormal heredocs
        end
      else if eqc c c_dollar then
        if in_quoted_body heredocs then Next (i + 1) stateNormal heredocs
        else if opens_dollar cmd i then Return "$(" else Next (i + 1) stateNormal heredocs
      else if eqc c c_lt then
        match heredocs, parseHeredocRedirect cmd i with
        | [], Some (d, q, next) => Next next stateNormal [{| delim := d; quoted := q |}]
        | _, _ =>
            if in_quoted_body heredocs then Next (i + 1) stateNormal heredocs
            else if at_is cmd (i + 1) c_lparen then Return "<("
            else Next (i + 1) stateNormal heredocs
        end
      else if eqc c c_gt then
        if in_quoted_body heredocs then Next (i + 1) stateNormal heredocs
        else if at_is cmd (i + 1) c_lparen then Return ">("
        else Next (i + 1) stateNormal heredocs
      else Next (i + 1) stateNormal heredocs
  | stateSingleQuote =>
      Next (i + 1) (if eqc c c_squote then stateNormal else stateSingleQuote) heredocs
  | stateDoubleQuote =>
      if eqc c c_dquote then Next (i + 1) stateNormal heredocs
      else if eqc c c_backslash then Next (after_dquote_backslash cmd i) stateDoubleQuote heredocs
      else if eqc c c_dollar then
        if in_quoted_body heredocs then Next (i + 1) stateDoubleQuote heredocs
        else if opens_dollar cmd i then Return "$(" else Next (i + 1) stateDoubleQuote heredocs
      else Next (i + 1) stateDoubleQuote heredocs
  | stateBackslash => Next (i + 1) stateNormal heredocs
  end.

(** The [for] loop: [None] is out of fuel, [Some None] the end of the input. *)
Fixpoint scan {A} (step : list ascii -> nat -> ascii -> state -> list hd -> outcome A)
    (fuel : nat) (cmd : list ascii) (i : nat) (st : state) (heredocs : list hd)
  : option (option A) :=
  match cmd !! i with
  | None => Some None
  | Some c =>
      match fuel with
      | O => None
      | S fuel' =>
          match step cmd i c st heredocs with
          | Return a => Some (Some a)
          | Next i' st' hs' => scan step fuel' cmd i' st' hs'
          end
      end
  end.

Definition run_scan {A} (step : list ascii -> nat -> ascii -> state -> list hd -> outcome A)
    (cmd : list ascii) : option (option A) :=
  scan step (length cmd) cmd 0 stateNormal [].

(** The first metacharacter, [None] for (0, false). *)
Definition ContainsUnquotedMetachar (cmd : string) : option ascii :=
  match run_scan meta_step (list_ascii_of_string cmd) with
  | Some r => r
  | None => None
  end.

Definition FindUnquotedSubstitution (cmd : string) : string :=
  match run_scan sub_step (list_ascii_of_string cmd) with
  | Some (Some r) => r
  | _ => ""
  end.

Example plain : ContainsUnquotedMetachar "go test ./... 2>&1" = None.
Proof. reflexivity. Qed.
Example chained : ContainsUnquotedMetachar "ls 'a;b' && rm x" = Some c_amp.
Proof. reflexivity. Qed.
Example heredoc_inert : ContainsUnquotedMetachar ("cat <<EOF" +:+ String c_nl "a;b" +:+ String c_nl "EOF") = None.
Proof. reflexivity. Qed.
Example subst_dq : FindUnquotedSubstitution (String c_dquote "a $(b)") = "$(".
Proof. reflexivity. Qed.


(** ** The loops terminate *)

Lemma advance_le f cmd j : (j <= advance f cmd j)%nat.
Proof. unfold advance. lia. Qed.

Lemma parseHeredocRedirect_next cmd i d q n :
  parseHeredocRedirect cmd i = Some (d, q, n) -> (i < n)%nat.
Proof.
  unfold parseHeredocRedirect. intros H.
  set (j := advance (fun c => eqc c c_space || eqc c c_tab) cmd
              (if at_is cmd (i + 2) c_dash then i + 2 + 1 else i + 2)%nat) in H.
  assert (i + 2 <= j)%nat as Hj.
  { unfold j. etrans; [|apply advance_le]. destruct (at_is _ _ _); lia. }
  clearbody j. cbv zeta in H.
  repeat (case_match_hyp H; try discriminate H); injection H as <- <- <-;
    match goal with |- context [advance ?f cmd ?k] => pose proof (advance_le f cmd k) end; lia.
Qed.

Definition progresses {A} (i : nat) (o : outcome A) : Prop :=
  match o with Return _ => True | Next i' _ _ => (i < i')%nat end.

Lemma after_dquote_backslash_gt cmd i : (i < after_dquote_backslash cmd i)%nat.
Proof. unfold after_dquote_backslash. repeat case_match_goal; lia. Qed.

Lemma line_end_ge cmd i : (i + 1 <= line_end cmd i)%nat.
Proof. apply advance_le. Qed.

Ltac step_cases :=
  repeat match goal with
  | |- context [if ?b then _ else _] => destruct b eqn:?
  | |- context [match ?x with _ => _ end] => destruct x eqn:?
  end.

Ltac progress_step :=
  repeat (first
    [ progress simpl
    | match goal with
      | |- progresses _ (if ?b then _ else _) => destruct b
      | |- progresses _ (match parseHeredocRedirect ?c ?i with _ => _ end) =>
          destruct (parseHeredocRedirect c i) as [[[? ?] ?]|] eqn:?
      | |- progresses _ (match ?x with _ => _ end) => destruct x
      end ]);
  repeat match goal with
  | H : parseHeredocRedirect _ _ = Some _ |- _ => apply parseHeredocRedirect_next in H
  | |- context [line_end ?cmd ?i] =>
      lazymatch goal with
      | _ : (i + 1 <= line_end cmd i)%nat |- _ => fail
      | _ => pose proof (line_end_ge cmd i)
      end
  end;
  try done; try apply after_dquote_backslash_gt; try lia.

Lemma meta_step_progress cmd i c st hs : progresses i (meta_step cmd i c st hs).
Proof. destruct st; unfold meta_step, meta_chain; cbv zeta; progress_step. Qed.

Lemma sub_step_progress cmd i c st hs : progresses i (sub_step cmd i c st hs).
Proof. destruct st; unfold sub_step; progress_step. Qed.

Lemma scan_fuel_enough {A} (step : list ascii -> nat -> ascii -> state -> list hd -> outcome A)
    cmd fuel i st hs :
  (forall i c st hs, progresses i (step cmd i c st hs)) ->
  (length cmd <= i + fuel)%nat -> is_Some (scan step fuel cmd i st hs).
Proof.
  intros Hp. revert i st hs. induction fuel as [|fuel IH]; intros i st hs Hf; cbn [scan];
    destruct (cmd !! i) as [c|] eqn:Hc; try by eexists.
  - apply lookup_lt_Some in Hc. lia.
  - pose proof (Hp i c st hs) as Hi. destruct (step cmd i c st hs) as [a|i' st' hs']; [by eexists|].
    apply IH. cbn in Hi. lia.
Qed.

(** both scanners terminate on every command: one iteration per byte is
    enough, whatever heredocs and escapes make the index jump. *)
Theorem scanners_terminate (cmd : string) :
  is_Some (run_scan meta_step (list_ascii_of_string cmd)) /\
  is_Some (run_scan sub_step (list_ascii_of_string cmd)).
Proof.
  split; apply scan_fuel_enough; auto using meta_step_progress, sub_step_progress; lia.
Qed.

(** ** The shell's quoting *)

(** Quoting as POSIX defines it: a backslash quotes the next byte, and inside
    double quotes it only does so in front of a few bytes, which makes no
    difference to which bytes are active. *)
Inductive quoting := Bare | Single | Double | Escaped | DoubleEscaped.

#[local] Instance quoting_eq_dec : EqDecision quoting.
Proof. solve_decision. Defined.

Definition quote_next (q : quoting) (c : ascii) : quoting :=
  match q with
  | Bare => if eqc c c_squote then Single else if eqc c c_dquote then Double
            else if eqc c c_backslash then Escaped else Bare
  | Single => if eqc c c_squote then Bare else Single
  | Double => if eqc c c_dquote then Bare else if eqc c c_backslash then DoubleEscaped else Double
  | Escaped => Bare
  | DoubleEscaped => Double
  end.

(** The quoting in force at position [i]. *)
Definition quote_at (cmd : list ascii) (i : nat) : quoting :=
  foldl quote_next Bare (take i cmd).

Lemma quote_at_next cmd i c :
  cmd !! i = Some c -> quote_at cmd (i + 1) = quote_next (quote_at cmd i) c.
Proof.
  intros Hc. unfold quote_at. rewrite Nat.add_1_r, (take_S_r _ _ _ Hc), foldl_app. done.
Qed.

(** A byte that ends or starts a command: a chain operator outside quotes which
    is not part of a redirection, or a backtick outside single quotes. *)
Definition active_metachar (cmd : list ascii) (i : nat) : bool :=
  match cmd !! i with
  | None => false
  | Some c =>
      match quote_at cmd i with
      | Bare => is_chain c && negb (eqc c c_amp && isRedirectAmpersand cmd i)
      | Double => eqc c c_backtick
      | _ => false
      end
  end.

(** A command or process substitution. *)
Definition active_substitution (cmd : list ascii) (i : nat) : bool :=
  match cmd !! i with
  | None => false
  | Some c =>
      match quote_at cmd i with
      | Bare => eqc c c_dollar && opens_dollar cmd i
                || (eqc c c_lt || eqc c c_gt) && at_is cmd (i + 1) c_lparen
      | Double => eqc c c_dollar && opens_dollar cmd i
      | _ => false
      end
  end.

Definition first_position (active : list ascii -> nat -> bool) (cmd : list ascii) : option nat :=
  List.find (active cmd) (seq 0 (length cmd)).

(** No here-document is opened. *)
Definition no_heredoc (cmd : list ascii) : bool :=
  forallb (fun i => negb (bool_decide (quote_at cmd i = Bare) && at_is cmd i c_lt
                          && bool_decide (is_Some (parseHeredocRedirect cmd i))))
    (seq 0 (length cmd)).

(** The scanner's state and the quoting.  After a backslash in double quotes
    that hides nothing the scanner is already back in [stateDoubleQuote]. *)
Definition state_rel (cmd : list ascii) (i : nat) (st : state) : Prop :=
  match st with
  | stateNormal => quote_at cmd i = Bare
  | stateSingleQuote => quote_at cmd i = Single
  | stateBackslash => quote_at cmd i = Escaped
  | stateDoubleQuote =>
      quote_at cmd i = Double \/
      quote_at cmd i = DoubleEscaped /\ forall c, cmd !! i = Some c -> dquote_escapable c = false
  end.

Section FirstActive.
Context {A : Type} (step : list ascii -> nat -> ascii -> state -> list hd -> outcome A).
Context (active : list ascii -> nat -> bool) (value : list ascii -> nat -> option A).
Context (cmd : list ascii).

Hypothesis step_spec : forall i c st,
  cmd !! i = Some c -> state_rel cmd i st ->
  match step cmd i c st [] with
  | Return a => active cmd i = true /\ value cmd i = Some a
  | Next i' st' hs' =>
      hs' = [] /\ state_rel cmd i' st' /\ (i < i')%nat /\
      forall j, (i <= j < i')%nat -> active cmd j = false
  end.

Lemma scan_first fuel i st :
  (length cmd <= i + fuel)%nat -> state_rel cmd i st ->
  scan step fuel cmd i st [] =
  Some (j ← List.find (active cmd) (seq i (length cmd - i)); value cmd j).
Proof.
  revert i st. induction fuel as [|fuel IH]; intros i st Hf Hst; cbn [scan];
    destruct (cmd !! i) as [c|] eqn:Hc.
  1: { apply lookup_lt_Some in Hc. lia. }
  1, 3: apply lookup_ge_None in Hc; by replace (length cmd - i)%nat with 0%nat by lia.
  pose proof (lookup_lt_Some _ _ _ Hc) as Hlt.
  pose proof (step_spec i c st Hc Hst) as Hs.
  destruct (step cmd i c st []) as [a|i' st' hs'].
  - destruct Hs as [Ha Hv]. destruct (length cmd - i)%nat eqn:E; [lia|].
    cbn. rewrite Ha. cbn. by rewrite Hv.
  - destruct Hs as (-> & Hst' & Hi & Hj). rewrite IH by (done || lia). do 2 f_equal.
    assert (forall n k, (forall j, i <= j < i + k -> active cmd j = false)%nat ->
      List.find (active cmd) (seq i (k + n)) = List.find (active cmd) (seq (i + k) n)) as Hskip.
    { intros n k Hk. rewrite seq_app. clear -Hk. revert i Hk.
      induction k as [|k IHk]; intros i Hk; [by rewrite Nat.add_0_r|].
      cbn. rewrite Hk by lia. rewrite <- Nat.add_succ_comm. apply IHk. intros j ?. apply Hk. lia. }
    destruct (decide (i' <= length cmd)%nat).
    + replace (length cmd - i)%nat with ((i' - i) + (length cmd - i'))%nat by lia.
      rewrite Hskip; [by replace (i + (i' - i))%nat with i' by lia|].
      intros j ?. apply Hj. lia.
    + replace (length cmd - i')%nat with 0%nat by lia. symmetry.
      apply find_None_elem. intros j Hj'. apply elem_of_seq in Hj'. apply Hj. lia.
Qed.

Lemma run_scan_first :
  run_scan step cmd = Some (j ← first_position active cmd; value cmd j).
Proof.
  unfold run_scan. rewrite scan_first; [|lia|by cbn].
  by rewrite Nat.sub_0_r.
Qed.
End FirstActive.

Lemma eqc_eq c x : eqc c x = true -> c = x.
Proof. apply bool_decide_eq_true_1. Qed.

Lemma no_heredoc_lookup cmd i :
  no_heredoc cmd = true -> quote_at cmd i = Bare -> cmd !! i = Some c_lt ->
  parseHeredocRedirect cmd i = None.
Proof.
  unfold no_heredoc. rewrite forallb_forall. intros H Hq Hc.
  specialize (H i). rewrite in_seq in H. pose proof (lookup_lt_Some _ _ _ Hc).
  assert (negb (bool_decide (quote_at cmd i = Bare) && at_is cmd i c_lt
                && bool_decide (is_Some (parseHeredocRedirect cmd i))) = true) as H' by (apply H; lia).
  unfold at_is in H'. rewrite Hc, Hq in H'. cbn in H'.
  rewrite bool_decide_eq_true_2 in H' by done. destruct (parseHeredocRedirect cmd i); [|done]. by vm_compute in H'.
Qed.

(** A move by one byte that is not active. *)
Lemma one_byte (active : list ascii -> nat -> bool) cmd i st :
  active cmd i = false -> state_rel cmd (i + 1) st ->
  @nil hd = [] /\ state_rel cmd (i + 1) st /\ (i < i + 1)%nat /\
  forall j, (i <= j < i + 1)%nat -> active cmd j = false.
Proof.
  intros Ha Hs. split_and!; [done|done|lia|]. intros j ?. by replace j with i by lia.
Qed.

(** The backslash of a double-quoted string: the byte it hides is not active. *)
Lemma dquote_backslash (active : list ascii -> nat -> bool) cmd i :
  (forall j, quote_at cmd j = DoubleEscaped -> active cmd j = false) ->
  active cmd i = false -> cmd !! i = Some c_backslash -> quote_at cmd i = Double ->
  let i' := after_dquote_backslash cmd i in
  @nil hd = [] /\ state_rel cmd i' stateDoubleQuote /\ (i < i')%nat /\
  forall j, (i <= j < i')%nat -> active cmd j = false.
Proof.
  intros Hesc Ha Hc Hq. pose proof (quote_at_next cmd i _ Hc) as Hn. rewrite Hq in Hn. cbn in Hn.
  unfold after_dquote_backslash.
  destruct (cmd !! (i + 1)%nat) as [c'|] eqn:Hc'; [destruct (dquote_escapable c') eqn:He|].
  - pose proof (quote_at_next cmd (i + 1) _ Hc') as Hn'. rewrite Hn in Hn'. cbn in Hn'.
    replace (i + 1 + 1)%nat with (i + 2)%nat in Hn' by lia.
    split_and!; [done|by left|lia|]. intros j ?.
    destruct (decide (j = i)) as [->|]; [done|]. replace j with (i + 1)%nat by lia. auto.
  - apply one_byte; [done|]. right. split; [done|]. intros c'' Hc''. congruence.
  - apply one_byte; [done|]. right. split; [done|]. intros c'' Hc''. congruence.
Qed.

(** Rewrite the reference tests at a known byte and quoting. *)
Ltac at_byte Hc Hq :=
  unfold active_metachar, active_substitution; rewrite ?Hc, ?Hq; reflexivity.

Ltac quote_step Hc Hq := cbn [state_rel]; rewrite (quote_at_next _ _ _ Hc), Hq; reflexivity.

Lemma meta_step_spec cmd i c st :
  no_heredoc cmd = true -> cmd !! i = Some c -> state_rel cmd i st ->
  match meta_step cmd i c st [] with
  | Return a => active_metachar cmd i = true /\ cmd !! i = Some a
  | Next i' st' hs' =>
      hs' = [] /\ state_rel cmd i' st' /\ (i < i')%nat /\
      forall j, (i <= j < i')%nat -> active_metachar cmd j = false
  end.
Proof.
  intros Hno Hc Hst. destruct st; cbn [meta_step]; cbn [state_rel] in Hst.
  - destruct (eqc c c_squote) eqn:E1; [apply eqc_eq in E1 as ->; apply one_byte; [at_byte Hc Hst|quote_step Hc Hst]|].
    destruct (eqc c c_dquote) eqn:E2; [apply eqc_eq in E2 as ->; apply one_byte; [at_byte Hc Hst|]|].
    { left. quote_step Hc Hst. }
    destruct (eqc c c_backslash) eqn:E3; [apply eqc_eq in E3 as ->; apply one_byte; [at_byte Hc Hst|quote_step Hc Hst]|].
    assert (state_rel cmd (i + 1) stateNormal) as Hn.
    { cbn [state_rel]. rewrite (quote_at_next _ _ _ Hc), Hst. cbn [quote_next]. by rewrite E1, E2, E3. }
    destruct (eqc c c_lt) eqn:E4.
    { apply eqc_eq in E4 as ->. rewrite no_heredoc_lookup by done.
      apply one_byte; [at_byte Hc Hst|done]. }
    destruct (is_chain c) eqn:E5.
    + unfold meta_chain. destruct (eqc c c_amp && isRedirectAmpersand cmd i) eqn:E6.
      * apply one_byte; [|done]. unfold active_metachar. by rewrite Hc, Hst, E5, E6.
      * split; [|done]. unfold active_metachar. by rewrite Hc, Hst, E5, E6.
    + apply one_byte; [|done]. unfold active_metachar. by rewrite Hc, Hst, E5.
  - apply one_byte; [at_byte Hc Hst|].
    destruct (eqc c c_squote) eqn:E1; cbn [state_rel]; rewrite (quote_at_next _ _ _ Hc), Hst; cbn [quote_next]; by rewrite E1.
  - destruct Hst as [Hst|[Hst He]].
    + destruct (eqc c c_dquote) eqn:E2; [apply eqc_eq in E2 as ->; apply one_byte; [at_byte Hc Hst|quote_step Hc Hst]|].
      destruct (eqc c c_backslash) eqn:E3.
      { apply eqc_eq in E3 as ->. apply dquote_backslash; [|at_byte Hc Hst|done|done].
        intros j Hj. unfold active_metachar. rewrite Hj. by destruct (cmd !! j). }
      destruct (eqc c c_backtick) eqn:E4.
      * split; [|done]. unfold active_metachar. by rewrite Hc, Hst.
      * apply one_byte; [unfold active_metachar; by rewrite Hc, Hst|].
        left. rewrite (quote_at_next _ _ _ Hc), Hst. cbn [quote_next]. by rewrite E2, E3.
    + specialize (He c Hc). unfold dquote_escapable in He. bool_hyps.
      repeat match goal with H : eqc c ?x = false |- context [eqc c ?x] => rewrite H end.
      apply one_byte; [at_byte Hc Hst|]. left. quote_step Hc Hst.
  - apply (one_byte _ _ _ stateNormal); [at_byte Hc Hst|quote_step Hc Hst].
Qed.

(** The opener of the substitution at [i]: its byte and a parenthesis. *)
Definition opener (cmd : list ascii) (i : nat) : option string :=
  c ← cmd !! i; Some (String c "(").

Lemma sub_step_spec cmd i c st :
  no_heredoc cmd = true -> cmd !! i = Some c -> state_rel cmd i st ->
  match sub_step cmd i c st [] with
  | Return a => active_substitution cmd i = true /\ opener cmd i = Some a
  | Next i' st' hs' =>
      hs' = [] /\ state_rel cmd i' st' /\ (i < i')%nat /\
      forall j, (i <= j < i')%nat -> active_substitution cmd j = false
  end.
Proof.
  intros Hno Hc Hst. unfold opener. destruct st; cbn [sub_step in_quoted_body]; cbn [state_rel] in Hst.
  - destruct (eqc c c_squote) eqn:E1; [apply eqc_eq in E1 as ->; apply one_byte; [at_byte Hc Hst|quote_step Hc Hst]|].
    destruct (eqc c c_dquote) eqn:E2; [apply eqc_eq in E2 as ->; apply one_byte; [at_byte Hc Hst|]|].
    { left. quote_step Hc Hst. }
    destruct (eqc c c_backslash) eqn:E3; [apply eqc_eq in E3 as ->; apply one_byte; [at_byte Hc Hst|quote_step Hc Hst]|].
    assert (state_rel cmd (i + 1) stateNormal) as Hn.
    { cbn [state_rel]. rewrite (quote_at_next _ _ _ Hc), Hst. cbn [quote_next]. by rewrite E1, E2, E3. }
    assert (active_substitution cmd i =
      eqc c c_dollar && opens_dollar cmd i || (eqc c c_lt || eqc c c_gt) && at_is cmd (i + 1) c_lparen)
      as Hact by (unfold active_substitution; by rewrite Hc, Hst).
    destruct (is_line_end c) eqn:E0.
    { apply one_byte; [|done]. rewrite Hact. unfold is_line_end in E0.
      apply orb_true_iff in E0 as [->%eqc_eq| ->%eqc_eq]; reflexivity. }
    destruct (eqc c c_dollar) eqn:E4.
    { apply eqc_eq in E4 as ->. change (eqc c_dollar c_lt || eqc c_dollar c_gt) with false in Hact.
      rewrite orb_false_r in Hact. destruct (opens_dollar cmd i).
      - by rewrite Hact, Hc.
      - by apply one_byte. }
    destruct (eqc c c_lt) eqn:E5.
    { apply eqc_eq in E5 as ->. rewrite no_heredoc_lookup by done.
      cbn [orb] in Hact. destruct (at_is cmd (i + 1) c_lparen); [by rewrite Hact, Hc|by apply one_byte]. }
    destruct (eqc c c_gt) eqn:E6; [|by apply one_byte].
    apply eqc_eq in E6 as ->. destruct (at_is cmd (i + 1) c_lparen); [by rewrite Hact, Hc|by apply one_byte].
  - apply one_byte; [at_byte Hc Hst|].
    destruct (eqc c c_squote) eqn:E1; cbn [state_rel]; rewrite (quote_at_next _ _ _ Hc), Hst; cbn [quote_next]; by rewrite E1.
  - destruct Hst as [Hst|[Hst He]].
    + destruct (eqc c c_dquote) eqn:E2; [apply eqc_eq in E2 as ->; apply one_byte; [at_byte Hc Hst|quote_step Hc Hst]|].
      destruct (eqc c c_backslash) eqn:E3.
      { apply eqc_eq in E3 as ->. apply dquote_backslash; [|at_byte Hc Hst|done|done].
        intros j Hj. unfold active_substitution. rewrite Hj. by destruct (cmd !! j). }
      assert (state_rel cmd (i + 1) stateDoubleQuote) as Hn.
      { left. rewrite (quote_at_next _ _ _ Hc), Hst. cbn [quote_next]. by rewrite E2, E3. }
      assert (active_substitution cmd i = eqc c c_dollar && opens_dollar cmd i) as Hact
        by (unfold active_substitution; by rewrite Hc, Hst).
      destruct (eqc c c_dollar) eqn:E4; [|by apply one_byte].
      apply eqc_eq in E4 as ->. destruct (opens_dollar cmd i); [by rewrite Hact, Hc|by apply one_byte].
    + specialize (He c Hc). unfold dquote_escapable in He. bool_hyps.
      repeat match goal with H : eqc c ?x = false |- context [eqc c ?x] => rewrite H end.
      apply one_byte; [at_byte Hc Hst|]. left. quote_step Hc Hst.
  - apply (one_byte _ _ _ stateNormal); [at_byte Hc Hst|quote_step Hc Hst].
Qed.

(** on a command that opens no here-document, the metacharacter scanner
    returns exactly the first byte that the shell's quoting leaves active: a
    chain operator outside quotes that is not part of a redirection, or a backtick
    outside single quotes; nothing when there is none. *)
Theorem ContainsUnquotedMetachar_first (cmd : string)
    (Hno : no_heredoc (list_ascii_of_string cmd) = true) :
  let b := list_ascii_of_string cmd in
  ContainsUnquotedMetachar cmd = (i ← first_position active_metachar b; b !! i).
Proof.
  unfold ContainsUnquotedMetachar. cbv zeta.
  by rewrite (run_scan_first meta_step active_metachar (fun b i => b !! i))
    by (intros; by apply meta_step_spec).
Qed.

(** Likewise the substitution scanner returns exactly the first command or
    process substitution that the quoting leaves active. *)
Theorem FindUnquotedSubstitution_first (cmd : string)
    (Hno : no_heredoc (list_ascii_of_string cmd) = true) :
  let b := list_ascii_of_string cmd in
  FindUnquotedSubstitution cmd = default "" (i ← first_position active_substitution b; opener b i).
Proof.
  unfold FindUnquotedSubstitution. cbv zeta.
  rewrite (run_scan_first sub_step active_substitution opener) by (intros; by apply sub_step_spec).
  by destruct (_ ≫= _).
Qed.

Lemma ContainsUnquotedMetachar_first_witness :
  ContainsUnquotedMetachar "go test 2>&1 'a;b' | tee log" = Some c_pipe.
Proof. rewrite (ContainsUnquotedMetachar_first "go test 2>&1 'a;b' | tee log"); by vm_compute. Defined.

Lemma FindUnquotedSubstitution_first_witness :
  FindUnquotedSubstitution "echo '$(a)' $((1+2)) <(b)" = "<(".
Proof. rewrite (FindUnquotedSubstitution_first "echo '$(a)' $((1+2)) <(b)"); by vm_compute. Defined.

(** ** Here-documents *)

(** The rest of the line that opens a here-document is still shell input, but the
    scanner treats it as body: a command chained on that line is not seen. *)
Example heredoc_line_tail_not_scanned :
  ContainsUnquotedMetachar
    ("cat <<EOF; rm -rf x" +:+ String c_nl ("body" +:+ String c_nl "EOF")) = None.
Proof. reflexivity. Qed.

(** An apostrophe in the body opens a quote for the scanner, which then misses the
    closing line and the commands after it. *)
Example heredoc_body_quote_hides_commands :
  ContainsUnquotedMetachar
    ("cat <<EOF" +:+ String c_nl ("it's" +:+ String c_nl
      ("EOF" +:+ String c_nl ("rm -rf x; echo" +:+ String c_squote "")))) = None.
Proof. reflexivity. Qed.

(** [$((] is taken for arithmetic, but the shell runs [$((cmd) )] as a command. *)
Example nested_subshell_not_reported :
  FindUnquotedSubstitution "echo $((rm x) )" = "" /\ ContainsUnquotedMetachar "echo $((rm x) )" = None.
Proof. done. Qed.
