(* ===== verification/Toolgate.v ===== *)
(** Capability profiles of delegated workers: [internal/toolgate].

    [Allows] is the runtime gate a worker's tool call passes
    (capability_gate.go), [Merge] and the presets build its profile
    (capability.go), [IsAdminTool] and [AllowlistPatternGrantsAdmin] guard the
    admin surface (admin.go).  A nil slice or pointer is [None]. *)

From Stdlib Require Import Ascii String.
From S2P Require Import Prelude GoStrings GoPath.

#[local] Open Scope string_scope.
#[local] Open Scope list_scope.

(** ** Admin tools: admin.go *)

Definition McpxPrefix := "mcpx__".
Definition LegacyMcplexerPrefix := "mcplexer__".

Definition AdminMcpxTools : list string :=
  map (fun n => McpxPrefix +:+ n)
    ["provision_mcp"; "create_addon"; "import_openapi"; "approve_tool_call"; "deny_tool_call";
     "list_pending_approvals"; "reload_server"; "flush_cache"; "skill_install"].

Definition TaskAdminTools : list string :=
  ["task__consolidate_statuses"; "task__apply_status_consolidation"; "task__rebind_peer"].

Definition IsAdminTool (name : string) : bool :=
  if bool_decide (name = "") then false
  else if bool_decide (name ∈ AdminMcpxTools) then true
  else if bool_decide (name ∈ TaskAdminTools) then true
  else if HasPrefix name LegacyMcplexerPrefix then true
  else match CutPrefix name LegacyMcplexerPrefix with
       | Some rest => bool_decide (McpxPrefix +:+ rest ∈ AdminMcpxTools)
       | None => false
       end.

Definition adminAllowlistProbes : list string :=
  [LegacyMcplexerPrefix +:+ "create_worker"; LegacyMcplexerPrefix +:+ "list_workspaces";
   McpxPrefix +:+ "provision_mcp"; "task__consolidate_statuses";
   "task__apply_status_consolidation"; "task__rebind_peer"].

Definition AllowlistPatternGrantsAdmin (pattern : string) : bool :=
  let pattern := TrimSpace pattern in
  if bool_decide (pattern = "") then false
  else if IsAdminTool pattern then true
  else if negb (ContainsAny pattern "*?[") then false
  else existsb (path_matches pattern) adminAllowlistProbes.

(** ** Profiles: capability.go *)

Record CapabilityFeatures := {
  MayWriteMemory : option bool;
  MayCreateSubdelegation : option bool;
  MayOfferTasks : option bool;
  MayWriteTasks : option bool;
  MayUseMesh : option bool;
  MayUseSecrets : option bool;
  MayUseAdmin : option bool;
}.

Record CapabilityProfile := {
  Preset : string;
  NamespaceAllow : option (list string);
  NamespaceDeny : option (list string);
  ToolAllow : option (list string);
  ToolDeny : option (list string);
  Features : CapabilityFeatures;
}.

Definition mcpxNamespace := "mcpx".

Definition derefBool (p : option bool) (def : bool) : bool := default def p.

(** Ranging over a nil slice is ranging over an empty one. *)
Definition elems (l : option (list string)) : list string := default [] l.

Definition no_features : CapabilityFeatures := {|
  MayWriteMemory := None; MayCreateSubdelegation := None; MayOfferTasks := None;
  MayWriteTasks := None; MayUseMesh := None; MayUseSecrets := None; MayUseAdmin := None |}.

Definition empty_profile : CapabilityProfile := {|
  Preset := ""; NamespaceAllow := None; NamespaceDeny := None;
  ToolAllow := None; ToolDeny := None; Features := no_features |}.

Definition Full : CapabilityProfile := {|
  Preset := "full"; NamespaceAllow := None; NamespaceDeny := None;
  ToolAllow := None; ToolDeny := None;
  Features := {| MayWriteMemory := Some true; MayCreateSubdelegation := Some true;
                 MayOfferTasks := Some true; MayWriteTasks := Some true;
                 MayUseMesh := Some true; MayUseSecrets := Some true; MayUseAdmin := None |} |}.

Definition Coder : CapabilityProfile := {|
  Preset := "coder"; NamespaceAllow := None; NamespaceDeny := None;
  ToolAllow := None; ToolDeny := None;
  Features := {| MayWriteMemory := Some true; MayCreateSubdelegation := Some false;
                 MayOfferTasks := Some false; MayWriteTasks := Some true;
                 MayUseMesh := Some false; MayUseSecrets := Some false; MayUseAdmin := None |} |}.

Definition read_only_features : CapabilityFeatures :=
  {| MayWriteMemory := Some false; MayCreateSubdelegation := Some false;
     MayOfferTasks := Some false; MayWriteTasks := Some false;
     MayUseMesh := Some false; MayUseSecrets := Some false; MayUseAdmin := None |}.

Definition Researcher : CapabilityProfile := {|
  Preset := "researcher"; NamespaceAllow := None; NamespaceDeny := None;
  ToolAllow := None; ToolDeny := None; Features := read_only_features |}.

Definition Minimal : CapabilityProfile := {|
  Preset := "minimal"; NamespaceAllow := Some [mcpxNamespace]; NamespaceDeny := None;
  ToolAllow := None; ToolDeny := None; Features := read_only_features |}.

(** (profile, known). *)
Definition ResolvePreset (name : string) : option CapabilityProfile * bool :=
  let n := ToLower (TrimSpace name) in
  if bool_decide (n = "") then (None, true)
  else if bool_decide (n = "full") then (Some Full, true)
  else if bool_decide (n = "coder") then (Some Coder, true)
  else if bool_decide (n = "researcher") then (Some Researcher, true)
  else if bool_decide (n = "minimal") then (Some Minimal, true)
  else (None, false).

Definition pick (b o : option bool) : option bool := match o with Some _ => o | None => b end.

Definition mergeFeatures (base ov : CapabilityFeatures) : CapabilityFeatures := {|
  MayWriteMemory := pick (MayWriteMemory base) (MayWriteMemory ov);
  MayCreateSubdelegation := pick (MayCreateSubdelegation base) (MayCreateSubdelegation ov);
  MayOfferTasks := pick (MayOfferTasks base) (MayOfferTasks ov);
  MayWriteTasks := pick (MayWriteTasks base) (MayWriteTasks ov);
  MayUseMesh := pick (MayUseMesh base) (MayUseMesh ov);
  MayUseSecrets := pick (MayUseSecrets base) (MayUseSecrets ov);
  MayUseAdmin := pick (MayUseAdmin base) (MayUseAdmin ov) |}.

(** The copies of cloneProfile: [append([]string(nil), l...)] is nil when [l] is
    empty, so an empty list does not survive it. *)
Definition clone_list (l : option (list string)) : option (list string) :=
  match l with Some [] => None | _ => l end.

Definition cloneProfile (p : CapabilityProfile) : CapabilityProfile := {|
  Preset := Preset p;
  NamespaceAllow := clone_list (NamespaceAllow p);
  NamespaceDeny := clone_list (NamespaceDeny p);
  ToolAllow := clone_list (ToolAllow p);
  ToolDeny := clone_list (ToolDeny p);
  Features := Features p |}.

Fixpoint union_loop (seen l : list string) : list string :=
  match l with
  | [] => []
  | s :: l' =>
      let s := TrimSpace s in
      if bool_decide (s = "") then union_loop seen l'
      else if bool_decide (s ∈ seen) then union_loop seen l'
      else s :: union_loop (s :: seen) l'
  end.

Definition unionStrings (a b : list string) : list string := union_loop [] (a ++ b).

(** Merge of a non-nil override into [out]. *)
Definition merge_into (out override : CapabilityProfile) : CapabilityProfile :=
  let ov := cloneProfile override in
  let keep (b o : option (list string)) := match o with Some _ => o | None => b end in
  let union (b o : option (list string)) :=
    match o with Some ((_ :: _) as l) => Some (unionStrings (elems b) l) | _ => b end in
  {| Preset := if bool_decide (Preset ov = "") then Preset out else Preset ov;
     NamespaceAllow := keep (NamespaceAllow out) (NamespaceAllow ov);
     NamespaceDeny := union (NamespaceDeny out) (NamespaceDeny ov);
     ToolAllow := keep (ToolAllow out) (ToolAllow ov);
     ToolDeny := union (ToolDeny out) (ToolDeny ov);
     Features := mergeFeatures (Features out) (Features ov) |}.

Definition Merge (base override : option CapabilityProfile) : option CapabilityProfile :=
  match base, override with
  | None, None => None
  | Some b, None => Some (cloneProfile b)
  | None, Some o => Some (merge_into empty_profile o)
  | Some b, Some o => Some (merge_into (cloneProfile b) o)
  end.

(** ** The gate: capability_gate.go *)

Definition memoryReadTools : list string :=
  ["memory__recall"; "memory__recall_about"; "memory__get"; "memory__list";
   "memory__list_entities"; "memory__related_entities"; "memory__spreading_activation";
   "memory__co_recalled"; "memory__suggestions"].

Definition taskReadTools : list string :=
  ["task__get"; "task__list"; "task__list_milestones"; "task__list_offers";
   "task__list_attachments"; "task__get_attachment"; "task__recent_activity"; "task__heartbeat"].

Definition mcpxEntrypointTools : list string :=
  ["mcpx__execute_code"; "mcpx__search_tools"; "mcpx__call_tool"; "mcpx__retrieve"].

(** Up to the first double underscore. *)
Definition namespaceSegment (name : string) : string :=
  match Cut name "__" with Some (ns, _) => ns | None => name end.

(** The reason when denied. *)
Definition deniesTool (f : CapabilityFeatures) (toolName : string) : option string :=
  if negb (derefBool (MayCreateSubdelegation f) true)
     && bool_decide (toolName ∈ ["mcpx__delegate_worker"; "mcpx__delegate_batch";
                                  "mcpx__invoke_model"; "mcpx__extend_delegation_budget"])
  then Some "tool denied by capability feature flag (may_create_subdelegation=false)"
  else if negb (derefBool (MayOfferTasks f) true)
          && bool_decide (toolName ∈ ["task__offer"; "task__assign_remote"; "task__publish_home"])
  then Some "tool denied by capability feature flag (may_offer_tasks=false)"
  else if (negb (derefBool (MayWriteMemory f) true) && bool_decide (namespaceSegment toolName = "memory"))
          && negb (bool_decide (toolName ∈ memoryReadTools))
  then Some "memory write denied by capability feature flag (may_write_memory=false)"
  else if (negb (derefBool (MayWriteTasks f) true) && bool_decide (namespaceSegment toolName = "task"))
          && negb (bool_decide (toolName ∈ taskReadTools))
  then Some "task write denied by capability feature flag (may_write_tasks=false)"
  else None.

(** (tools, namespaces): the preview of the deny surface. *)
Definition FeatureDenyGlobs (f : CapabilityFeatures) : list string * list string :=
  let off (p : option bool) (l : list string) := if negb (derefBool p true) then l else [] in
  (off (MayWriteMemory f)
     ["memory__save"; "memory__update"; "memory__forget"; "memory__link"; "memory__offer"]
   ++ off (MayCreateSubdelegation f)
     ["mcpx__delegate_worker"; "mcpx__delegate_batch"; "mcpx__invoke_model";
      "mcpx__extend_delegation_budget"]
   ++ off (MayOfferTasks f) ["task__offer"; "task__assign_remote"; "task__publish_home"]
   ++ off (MayWriteTasks f) ["task__create"; "task__update"; "task__claim"; "task__append_note"],
   off (MayUseMesh f) ["mesh"] ++ off (MayUseSecrets f) ["secret"]).

Definition isReadOnly (f : CapabilityFeatures) : bool :=
  negb (derefBool (MayWriteMemory f) true) && negb (derefBool (MayWriteTasks f) true)
  && negb (derefBool (MayOfferTasks f) true) && negb (derefBool (MayCreateSubdelegation f) true).

Definition nsInList (ns : string) (l : list string) : bool :=
  existsb (fun n => EqualFold (TrimSpace n) ns) l.

Definition capPatternMatches (pattern toolName : string) : bool :=
  let pattern := TrimSpace pattern in
  if bool_decide (pattern = "") then false
  else if bool_decide (pattern = toolName) then true
  else if negb (ContainsAny pattern "*?[") then false
  else path_matches pattern toolName.

Definition Allows (p : option CapabilityProfile) (toolName : string) (isWriteClass : bool)
  : bool * string :=
  match p with
  | None => (true, "")
  | Some p =>
      let f := Features p in
      if IsAdminTool toolName then (false, "admin tools are never available to delegated workers")
      else if existsb (fun glob => capPatternMatches glob toolName) (elems (ToolDeny p))
      then (false, "tool denied by capability profile tool_deny")
      else match deniesTool f toolName with
      | Some reason => (false, reason)
      | None =>
      let ns := namespaceSegment toolName in
      if bool_decide (toolName ∈ mcpxEntrypointTools) then (true, "")
      else if existsb (fun deny => EqualFold (TrimSpace deny) ns) (elems (NamespaceDeny p))
      then (false, "namespace denied by capability profile namespace_deny")
      else if negb (derefBool (MayUseMesh f) true) && bool_decide (ns = "mesh")
      then (false, "namespace denied by capability feature flag (may_use_mesh=false)")
      else if negb (derefBool (MayUseSecrets f) true) && bool_decide (ns = "secret")
      then (false, "namespace denied by capability feature flag (may_use_secrets=false)")
      else if match NamespaceAllow p with Some l => negb (nsInList ns l) | None => false end
      then (false, "namespace not in capability profile namespace_allow")
      else if match ToolAllow p with
              | Some l => negb (existsb (fun glob => capPatternMatches glob toolName) l)
              | None => false
              end
      then (false, "tool not in capability profile tool_allow")
      else if isReadOnly f && isWriteClass
      then (false, "write-class tool denied by read-only capability profile")
      else (true, "")
      end
  end.

Definition allowed (p : option CapabilityProfile) (tool : string) (w : bool) : bool :=
  fst (Allows p tool w).

Example coder_no_delegate : allowed (Some Coder) "mcpx__delegate_worker" false = false.
Proof. reflexivity. Qed.
Example minimal_search : allowed (Some Minimal) "mcpx__search_tools" true = true.
Proof. reflexivity. Qed.
Example minimal_github : allowed (Some Minimal) "github__list" false = false.
Proof. reflexivity. Qed.

(** ** Properties of the gate *)

(** A tool a profile reaches by name pattern or namespace, as the documented
    resolution order states it. *)
Definition denied_outright (p : CapabilityProfile) (tool : string) : bool :=
  IsAdminTool tool
  || existsb (fun g => capPatternMatches g tool) (elems (ToolDeny p))
  || bool_decide (is_Some (deniesTool (Features p) tool)).

Definition namespace_ok (p : CapabilityProfile) (tool : string) : bool :=
  let ns := namespaceSegment tool in
  negb (nsInList ns (elems (NamespaceDeny p)))
  && negb (existsb (String.eqb ns) (snd (FeatureDenyGlobs (Features p))))
  && match NamespaceAllow p with Some l => nsInList ns l | None => true end.

Definition tool_ok (p : CapabilityProfile) (tool : string) : bool :=
  match ToolAllow p with
  | Some l => existsb (fun g => capPatternMatches g tool) l
  | None => true
  end.

Lemma feature_namespaces f ns :
  existsb (String.eqb ns) (snd (FeatureDenyGlobs f)) =
  negb (derefBool (MayUseMesh f) true) && bool_decide (ns = "mesh")
  || negb (derefBool (MayUseSecrets f) true) && bool_decide (ns = "secret").
Proof.
  assert (forall b, String.eqb ns b = bool_decide (ns = b)) as E.
  { intros b. destruct (String.eqb_spec ns b); [by rewrite bool_decide_eq_true_2|by rewrite bool_decide_eq_false_2]. }
  cbn [FeatureDenyGlobs snd]. rewrite existsb_app.
  destruct (derefBool (MayUseMesh f) true), (derefBool (MayUseSecrets f) true);
    cbn [negb existsb]; rewrite ?E, ?orb_false_r; done.
Qed.

Lemma allowed_eq p tool w :
  allowed (Some p) tool w =
  negb (denied_outright p tool)
  && (bool_decide (tool ∈ mcpxEntrypointTools)
      || namespace_ok p tool && tool_ok p tool && negb (isReadOnly (Features p) && w)).
Proof.
  unfold allowed, Allows, denied_outright, namespace_ok, tool_ok, nsInList.
  rewrite feature_namespaces.
  destruct (IsAdminTool tool); [done|]. cbn [orb].
  destruct (existsb (fun g => capPatternMatches g tool) (elems (ToolDeny p))); [done|]. cbn [orb].
  destruct (deniesTool (Features p) tool); [done|].
  destruct (bool_decide (tool ∈ mcpxEntrypointTools)); [done|].
  destruct (existsb _ (elems (NamespaceDeny p))); [done|].
  destruct (negb (derefBool (MayUseMesh (Features p)) true) && bool_decide (namespaceSegment tool = "mesh")); [done|].
  destruct (negb (derefBool (MayUseSecrets (Features p)) true) && bool_decide (namespaceSegment tool = "secret")); [done|].
  destruct (NamespaceAllow p) as [l|].
  - destruct (existsb _ l); [|done]. cbn [negb].
    destruct (ToolAllow p) as [l'|]; [destruct (existsb _ l'); [|done]|];
      cbn [negb]; by destruct (isReadOnly _ && w).
  - destruct (ToolAllow p) as [l'|]; [destruct (existsb _ l'); [|done]|];
      cbn [negb]; by destruct (isReadOnly _ && w).
Qed.

Lemma deniesTool_reason f tool r : deniesTool f tool = Some r -> r <> "".
Proof. unfold deniesTool. intros H. repeat (case_match_hyp H; try discriminate H); by injection H as <-. Qed.

(** the gate admits exactly what its documented resolution order says: an
    admin tool, a tool_deny match and a feature denial always lose; beyond them the
    four entrypoints are always admitted and any other tool needs its namespace
    and name to pass the deny and allow lists, and must not be write-class
    under a read-only profile.  A reason is given exactly when the tool is denied. *)
Theorem Allows_gate (p : CapabilityProfile) (tool : string) (w : bool) :
  let '(ok, reason) := Allows (Some p) tool w in
  ok = negb (denied_outright p tool)
       && (bool_decide (tool ∈ mcpxEntrypointTools)
           || namespace_ok p tool && tool_ok p tool && negb (isReadOnly (Features p) && w))
  /\ (reason = "" <-> ok = true).
Proof.
  rewrite <- allowed_eq. unfold allowed. destruct (Allows (Some p) tool w) as [ok reason] eqn:E.
  split; [done|]. unfold Allows in E.
  repeat (case_match_hyp E; [by injection E as <- <-|]).
  destruct (deniesTool (Features p) tool) as [r|] eqn:Hd.
  { injection E as <- <-. split; [|done]. intros ->. by apply deniesTool_reason in Hd. }
  repeat (case_match_hyp E; try (by injection E as <- <-)).
Qed.

(** ** Features only subtract *)

(** Every flag [f'] leaves on, [f] has on too. *)
Definition feature_le (f' f : CapabilityFeatures) : Prop :=
  forall flag, flag ∈ [MayWriteMemory; MayCreateSubdelegation; MayOfferTasks; MayWriteTasks;
                       MayUseMesh; MayUseSecrets] ->
  derefBool (flag f') true = true -> derefBool (flag f) true = true.

Definition with_features (p : CapabilityProfile) (f : CapabilityFeatures) : CapabilityProfile :=
  {| Preset := Preset p; NamespaceAllow := NamespaceAllow p; NamespaceDeny := NamespaceDeny p;
     ToolAllow := ToolAllow p; ToolDeny := ToolDeny p; Features := f |}.

Ltac feature_flags H :=
  pose proof (H MayWriteMemory ltac:(by repeat constructor)) as Hmem;
  pose proof (H MayCreateSubdelegation ltac:(by repeat constructor)) as Hsub;
  pose proof (H MayOfferTasks ltac:(by repeat constructor)) as Hoff;
  pose proof (H MayWriteTasks ltac:(by repeat constructor)) as Htsk;
  pose proof (H MayUseMesh ltac:(by repeat constructor)) as Hmesh;
  pose proof (H MayUseSecrets ltac:(by repeat constructor)) as Hsec.

Lemma deniesTool_mono f' f tool :
  feature_le f' f -> deniesTool f' tool = None -> deniesTool f tool = None.
Proof.
  intros Hle Hd. feature_flags Hle. unfold deniesTool in *.
  destruct (derefBool (MayCreateSubdelegation f') true); [rewrite Hsub in * by done|];
  destruct (derefBool (MayOfferTasks f') true); try rewrite Hoff in * by done;
  destruct (derefBool (MayWriteMemory f') true); try rewrite Hmem in * by done;
  destruct (derefBool (MayWriteTasks f') true); try rewrite Htsk in * by done;
  cbn [negb andb] in *;
  repeat (case_match_hyp Hd; try discriminate Hd);
  repeat match goal with H : _ && _ = false |- _ => rewrite ?H; revert H end; intros;
  repeat match goal with |- context [derefBool ?x ?y] => destruct (derefBool x y) end;
  cbn [negb andb]; repeat case_match_goal; done.
Qed.

(** Feature flags can only subtract: turning flags off never admits a tool that
    was denied before. *)
Theorem features_only_subtract (p : CapabilityProfile) (f : CapabilityFeatures)
    (tool : string) (w : bool)
    (Hle : feature_le f (Features p)) (Hok : allowed (Some (with_features p f)) tool w = true) :
  allowed (Some p) tool w = true.
Proof.
  rewrite allowed_eq in *. apply andb_true_iff in Hok as [Hd Hok]. feature_flags Hle.
  apply andb_true_iff. split.
  - unfold denied_outright in *. cbn [with_features ToolDeny Features] in Hd.
    destruct (IsAdminTool tool); [done|]. destruct (existsb _ _); [done|]. cbn [orb] in *.
    destruct (deniesTool f tool) eqn:E; [done|]. by rewrite (deniesTool_mono _ _ _ Hle E).
  - apply orb_true_iff. apply orb_true_iff in Hok as [->|Hok]; [by left|right].
    unfold namespace_ok, tool_ok in *. rewrite feature_namespaces in *.
    cbn [with_features NamespaceDeny NamespaceAllow ToolAllow Features] in Hok.
    repeat (apply andb_true_iff in Hok as [Hok ?]).
    rewrite Hok. repeat match goal with H : ?b = true |- context [?b] => rewrite H end.
    cbn [andb]. rewrite ?andb_true_r. apply andb_true_iff. split.
    + bool_hyps. destruct (derefBool (MayUseMesh f) true); [rewrite Hmesh by done|];
        (destruct (derefBool (MayUseSecrets f) true); [rewrite Hsec by done|]);
        repeat match goal with |- context [derefBool ?x ?y] => destruct (derefBool x y) end;
        cbn in *; try done; by rewrite ?orb_false_r in *; repeat match goal with H : bool_decide _ = false |- _ => rewrite H end.
    + unfold isReadOnly in *.
      destruct (derefBool (MayWriteMemory f) true); [rewrite Hmem by done; done|].
      destruct (derefBool (MayWriteTasks f) true); [rewrite Htsk by done|];
      destruct (derefBool (MayOfferTasks f) true); try rewrite Hoff by done;
      destruct (derefBool (MayCreateSubdelegation f) true); try rewrite Hsub by done;
      cbn in *; rewrite ?andb_false_r; try done;
      destruct w; [done|by rewrite andb_false_r].
Qed.

Lemma features_only_subtract_witness : allowed (Some Full) "task__create" true = true.
Proof.
  apply (features_only_subtract Full (Features Coder)); [|reflexivity].
  intros flag Hin. repeat (apply elem_of_cons in Hin as [->|Hin]; [by cbn|]).
  by apply elem_of_nil in Hin.
Defined.

(** ** Merge *)

Lemma union_loop_elem seen l g :
  g ∈ l -> TrimSpace g <> "" -> TrimSpace g ∈ seen \/ TrimSpace g ∈ union_loop seen l.
Proof.
  revert seen. induction l as [|s l IH]; intros seen Hg Hne; [by apply elem_of_nil in Hg|].
  cbn [union_loop]. apply elem_of_cons in Hg as [<-|Hg].
  - rewrite bool_decide_eq_false_2 by done. case_bool_decide; [by left|right; constructor].
  - destruct (bool_decide (TrimSpace s = "")); [by apply IH|].
    destruct (bool_decide (TrimSpace s ∈ seen)); [by apply IH|].
    destruct (IH (TrimSpace s :: seen) Hg Hne) as [[->|?]%elem_of_cons|?];
      [right; constructor|by left|right; by constructor].
Qed.

Lemma unionStrings_elem a b g :
  g ∈ a ++ b -> TrimSpace g <> "" -> TrimSpace g ∈ unionStrings a b.
Proof.
  intros Hg Hne. unfold unionStrings. destruct (union_loop_elem [] _ _ Hg Hne) as [H|H]; [|done].
  by apply elem_of_nil in H.
Qed.

Lemma elems_clone l : elems (clone_list l) = elems l.
Proof. by destruct l as [[|]|]. Qed.

(** The deny lists of a merge hold every non-blank entry of either side. *)
Lemma Merge_deny (base ov : option CapabilityProfile) p (sel : CapabilityProfile -> option (list string)) g :
  (sel = ToolDeny \/ sel = NamespaceDeny) ->
  base = Some p \/ ov = Some p -> g ∈ elems (sel p) -> TrimSpace g <> "" ->
  exists m g', Merge base ov = Some m /\ g' ∈ elems (sel m) /\ TrimSpace g' = TrimSpace g.
Proof.
  intros Hsel Hp Hg Hne.
  assert (forall out o, g ∈ elems (sel out) \/ g ∈ elems (sel o) ->
    exists g', g' ∈ elems (sel (merge_into out o)) /\ TrimSpace g' = TrimSpace g) as Hm.
  { intros out o Ho.
    assert (elems (sel (merge_into out o)) = match elems (sel o) with
      | [] => elems (sel out) | l => unionStrings (elems (sel out)) l end) as ->.
    { destruct Hsel as [->| ->]; cbn [merge_into ToolDeny NamespaceDeny cloneProfile];
        match goal with |- context [clone_list ?x] => by destruct x as [[|]|] end. }
    destruct (elems (sel o)) as [|x l] eqn:E.
    - destruct Ho as [Ho|Ho]; [eauto|by apply elem_of_nil in Ho].
    - exists (TrimSpace g). split; [|apply TrimSpace_idem].
      apply unionStrings_elem; [|done]. apply elem_of_app. done. }
  assert (forall b, elems (sel (cloneProfile b)) = elems (sel b)) as Hc.
  { intros b. destruct Hsel as [->| ->]; apply elems_clone. }
  destruct base as [b|], ov as [o|]; cbn [Merge];
    destruct Hp as [Hp|Hp]; try discriminate Hp; injection Hp as <-.
  - destruct (Hm (cloneProfile b) o) as (g' & ? & ?); [left; by rewrite Hc|eauto].
  - destruct (Hm (cloneProfile b) o) as (g' & ? & ?); [by right|eauto].
  - exists (cloneProfile b), g. by rewrite Hc.
  - destruct (Hm empty_profile o) as (g' & ? & ?); [by right|eauto].
Qed.

Lemma capPatternMatches_trim g g' tool :
  TrimSpace g' = TrimSpace g -> capPatternMatches g' tool = capPatternMatches g tool.
Proof. unfold capPatternMatches. by intros ->. Qed.

Lemma capPatternMatches_nonblank g tool : capPatternMatches g tool = true -> TrimSpace g <> "".
Proof. unfold capPatternMatches. by destruct (decide (TrimSpace g = "")) as [->|]. Qed.

(** Merging never loses a denial: what the tool_deny globs of the base or of the
    override deny, or their namespace_deny (the entrypoints aside), the merged
    profile denies, whatever the other side allows. *)
Theorem Merge_keeps_denials (base ov : option CapabilityProfile) (p : CapabilityProfile)
    (tool : string) (w : bool) (Hp : base = Some p \/ ov = Some p)
    (Hdeny : existsb (fun g => capPatternMatches g tool) (elems (ToolDeny p)) = true \/
             nsInList (namespaceSegment tool) (elems (NamespaceDeny p)) = true /\
             namespaceSegment tool <> "" /\ tool ∉ mcpxEntrypointTools) :
  allowed (Merge base ov) tool w = false.
Proof.
  destruct Hdeny as [(g & Hg & Hm)%existsb_elem|((g & Hg & Hm)%existsb_elem & Hns & He)].
  - destruct (Merge_deny base ov p ToolDeny g) as (m & g' & -> & Hg' & Ht);
      [by left|done|done|by eapply capPatternMatches_nonblank|].
    rewrite allowed_eq. unfold denied_outright.
    assert (existsb (fun g => capPatternMatches g tool) (elems (ToolDeny m)) = true) as ->.
    { apply existsb_elem. exists g'. by rewrite (capPatternMatches_trim _ _ _ Ht). }
    by rewrite orb_true_r.
  - assert (TrimSpace g <> "") as Hne.
    { intros E. rewrite E in Hm. unfold EqualFold in Hm. bool_hyps.
      by destruct (namespaceSegment tool). }
    destruct (Merge_deny base ov p NamespaceDeny g) as (m & g' & -> & Hg' & Ht);
      [by right|done|done|done|].
    rewrite allowed_eq. unfold namespace_ok.
    assert (nsInList (namespaceSegment tool) (elems (NamespaceDeny m)) = true) as ->.
    { apply existsb_elem. exists g'. by rewrite Ht. }
    rewrite bool_decide_eq_false_2 by done. by rewrite andb_false_r.
Qed.

Definition deny_github : CapabilityProfile := {|
  Preset := ""; NamespaceAllow := None; NamespaceDeny := Some [" GitHub "];
  ToolAllow := None; ToolDeny := Some ["slack__*"]; Features := no_features |}.

Lemma Merge_keeps_denials_witness :
  allowed (Merge (Some deny_github) (Some Full)) "github__create_issue" true = false /\
  allowed (Merge (Some Full) (Some deny_github)) "slack__post" true = false.
Proof.
  split.
  - apply (Merge_keeps_denials _ _ deny_github); [by left|right].
    split_and!; [reflexivity|discriminate|].
    apply (bool_decide_eq_true_1 _). reflexivity.
  - apply (Merge_keeps_denials _ _ deny_github); [by right|by left].
Defined.

(** ** Presets *)

Lemma preset_read_only p tool :
  Features p = read_only_features -> allowed (Some p) tool true = true ->
  tool ∈ mcpxEntrypointTools.
Proof.
  intros Hf. rewrite allowed_eq, Hf. change (isReadOnly read_only_features) with true.
  intros [_ H]%andb_true_iff. cbn [andb negb] in H. rewrite andb_false_r, orb_false_r in H.
  by apply bool_decide_eq_true in H.
Qed.

(** The read-only presets admit no write-class tool but the four entrypoints,
    no memory or task tool outside the read lists and no mesh or secret tool at
    all. *)
Theorem read_only_presets (p : CapabilityProfile) (tool : string) (w : bool)
    (Hp : p = Researcher \/ p = Minimal) (Hok : allowed (Some p) tool w = true) :
  (w = true -> tool ∈ mcpxEntrypointTools) /\
  (namespaceSegment tool = "memory" -> tool ∈ memoryReadTools) /\
  (namespaceSegment tool = "task" -> tool ∈ taskReadTools) /\
  namespaceSegment tool <> "mesh" /\ namespaceSegment tool <> "secret" /\
  IsAdminTool tool = false.
Proof.
  assert (Features p = read_only_features) as Hf by (by destruct Hp as [->| ->]).
  split; [intros ->; by apply (preset_read_only p)|].
  rewrite allowed_eq in Hok. apply andb_true_iff in Hok as [Hd Hok].
  unfold denied_outright in Hd. rewrite Hf in Hd. bool_hyps.
  destruct (deniesTool read_only_features tool) eqn:E; [exfalso; eauto|].
  unfold deniesTool in E. cbn [read_only_features MayWriteMemory MayWriteTasks
    MayCreateSubdelegation MayOfferTasks derefBool default negb andb] in E.
  change (id false) with false in E. cbn [negb andb] in E.
  repeat (case_match_hyp E; try discriminate E).
  split; [|split; [|split; [|split]]]; try done.
  - intros Hns. rewrite bool_decide_eq_true_2 in * by done. cbn in *. bool_hyps.
    match goal with H : tool ∈ memoryReadTools |- _ => done end.
  - intros Hns. repeat (rewrite (bool_decide_eq_true_2 (namespaceSegment tool = "task")) in * by done).
    cbn in *. bool_hyps. match goal with H : tool ∈ taskReadTools |- _ => done end.
  - intros Hns. apply orb_true_iff in Hok as [Hok|Hok].
    + bool_hyps. cbn in Hok. repeat (apply elem_of_cons in Hok as [->|Hok]; [done|]).
      by apply elem_of_nil in Hok.
    + unfold namespace_ok in Hok. rewrite feature_namespaces, Hns, Hf in Hok. cbn in Hok.
      by rewrite andb_false_r in Hok.
  - intros Hns. apply orb_true_iff in Hok as [Hok|Hok].
    + bool_hyps. cbn in Hok. repeat (apply elem_of_cons in Hok as [->|Hok]; [done|]).
      by apply elem_of_nil in Hok.
    + unfold namespace_ok in Hok. rewrite feature_namespaces, Hns, Hf in Hok. cbn in Hok.
      by rewrite andb_false_r in Hok.
Qed.

Lemma read_only_presets_witness : "task__list" ∈ taskReadTools /\ "mcpx__call_tool" ∈ mcpxEntrypointTools.
Proof.
  split.
  - by apply (read_only_presets Researcher "task__list" false); [left|..].
  - by apply (read_only_presets Minimal "mcpx__call_tool" true); [right|..].
Defined.

(** ** The admin surface *)

(** An allowlist entry without glob characters that matches an admin tool is
    rejected when the delegation is created, and whatever a profile allows, the gate
    refuses that tool when it is called. *)
Theorem admin_tools_unreachable (pattern tool : string) (p : CapabilityProfile) (w : bool)
    (Hadmin : IsAdminTool tool = true) :
  allowed (Some p) tool w = false /\
  (ContainsAny (TrimSpace pattern) "*?[" = false -> capPatternMatches pattern tool = true ->
   AllowlistPatternGrantsAdmin pattern = true).
Proof.
  split; [rewrite allowed_eq; unfold denied_outright; by rewrite Hadmin|].
  intros Hlit. unfold capPatternMatches, AllowlistPatternGrantsAdmin. rewrite Hlit.
  case_bool_decide; [done|]. case_bool_decide as Ht; [|done]. by rewrite Ht, Hadmin.
Qed.

Lemma admin_tools_unreachable_witness :
  allowed (Some Full) "mcpx__flush_cache" false = false /\
  AllowlistPatternGrantsAdmin " mcpx__flush_cache " = true.
Proof.
  destruct (admin_tools_unreachable " mcpx__flush_cache " "mcpx__flush_cache" Full false) as [H1 H2];
    [reflexivity|]. split; [exact H1|by apply H2].
Defined.

(** The probes are a sample of the admin tools: a glob for another one passes the
    create-time check that is documented to reject every pattern which could match
    an admin tool. *)
Example admin_glob_not_rejected :
  capPatternMatches "mcpx__flush_*" "mcpx__flush_cache" = true /\
  IsAdminTool "mcpx__flush_cache" = true /\
  AllowlistPatternGrantsAdmin "mcpx__flush_*" = false.
Proof. done. Qed.

(** An explicitly empty allow list denies every namespace, but the copy made by Merge
    turns it into nil, which allows them all. *)
Definition no_namespaces : CapabilityProfile := {|
  Preset := ""; NamespaceAllow := Some []; NamespaceDeny := None;
  ToolAllow := None; ToolDeny := None; Features := no_features |}.

Example Merge_drops_empty_allow_list :
  allowed (Some no_namespaces) "github__delete_repo" true = false /\
  allowed (Merge (Some Full) (Some no_namespaces)) "github__delete_repo" true = true /\
  allowed (Merge (Some no_namespaces) None) "github__delete_repo" true = true.
Proof. by vm_compute. Qed.

(** The legacy prefix is decided by HasPrefix, so the CutPrefix lookup behind it
    never runs. *)
Lemma IsAdminTool_legacy_branch_dead name :
  HasPrefix name LegacyMcplexerPrefix = false -> CutPrefix name LegacyMcplexerPrefix = None.
Proof. unfold HasPrefix. by destruct (CutPrefix name LegacyMcplexerPrefix). Qed.
