(* ===== verification/ApprovalPolicy.v ===== *)
(** The approval records and the AFK policy resolver:
    [internal/approval/policy.go], with the rows of [internal/store/models.go].

    [Resolve] picks the decision of one approval.  The peer approver is a
    parameter (an interface of the program that a libp2p transport
    implements); times are nanoseconds. *)

From Stdlib Require Import Ascii String.
From S2P Require Import Prelude GoStrings GoJson Glob.

#[local] Open Scope string_scope.
#[local] Open Scope list_scope.

(** ** Data *)

Record ToolApproval := {
  ID : string;
  Status : string;
  RequestSessionID : string;
  RequestClientType : string;
  RequestModel : string;
  WorkspaceID : string;
  WorkspaceName : string;
  ToolName : string;
  Arguments : string;
  Justification : string;
  RouteRuleID : string;
  DownstreamServerID : string;
  AuthScopeID : string;
  ApproverSessionID : string;
  ApproverType : string;
  Resolution : string;
  TimeoutSec : Z;
  Surface : string;
  OriginatingWorkspace : string;
  Kind : string;
  Summary : string;
  CreatedAt : Z;
  ResolvedAt : option Z;
}.

Record ApprovalRule := {
  r_ID : string;
  r_Surface : string;
  r_Pattern : string;
  r_Directory : string;
  r_AISessionID : string;
  r_Decision : string;
  r_Priority : Z;
  r_ExpiresAt : option Z;
  r_AllowMetachars : bool;
}.

Inductive AFKPolicy := PolicyDeny | PolicyQueue | PolicyMeshPeer | PolicyTrustedAllow
  | PolicyOther (name : string).

Inductive policy_error := ErrQueueRequested | ErrPeerTimeout | ErrNoPeerTargets
  | ErrPeerOther (msg : string).

(** [PeerApprover.Ask]: (approved, reason) or an error. *)
Definition PeerApprover := ToolApproval -> list string -> result policy_error (bool * string).

Record PolicyResolver := {
  Policy : AFKPolicy;
  Rules : list ApprovalRule;
  Peer : option PeerApprover;
  TrustedPeers : list string;
  hasHitRec : bool;
}.

(** ** Operations *)

Definition slash : string := "/".

Definition directoryMatches (dir cwd : string) : bool :=
  let dir := TrimRight (TrimSpace dir) slash in
  let cwd := TrimRight (TrimSpace cwd) slash in
  if bool_decide (dir = "") then true
  else if bool_decide (dir = cwd) then true
  else HasPrefix cwd (dir +:+ slash).

Definition string_field (obj : list (string * json)) (key : string) : option string :=
  match object_get obj key with
  | Some (JStr s) => if bool_decide (s = "") then None else Some s
  | _ => None
  end.

Definition extractCWD (arguments : string) : string :=
  if bool_decide (arguments = "") then "" else
  match unmarshal_object arguments with
  | None => ""
  | Some obj =>
      match string_field obj "cwd" with
      | Some s => s
      | None => default "" (string_field obj "working_directory")
      end
  end.

Definition ruleMatches (rule : ApprovalRule) (a : ToolApproval) (cwd : string) (now : Z) : bool :=
  if negb (bool_decide (r_Surface rule = Surface a)) then false
  else if match r_ExpiresAt rule with Some e => negb (now <? e)%Z | None => false end then false
  else if bool_decide (r_Pattern rule = "") || negb (GlobMatch (r_Pattern rule) (ToolName a)) then false
  else if negb (bool_decide (r_Directory rule = "")) &&
          (bool_decide (cwd = "") || negb (directoryMatches (r_Directory rule) cwd)) then false
  else if negb (bool_decide (r_AISessionID rule = "")) &&
          negb (bool_decide (r_AISessionID rule = RequestSessionID a)) then false
  else true.

Definition by_priority (r1 r2 : ApprovalRule) : bool := (r_Priority r1 <? r_Priority r2)%Z.

(** A decision (approved, reason, rule) and the rules whose hit count is bumped. *)
Definition decision : Type := bool * string * string.

Definition no_decision : decision := (false, "", "").

Definition resolveTrustedAllow (r : PolicyResolver) (a : ToolApproval) (now : Z)
  : decision * list string :=
  let cwd := extractCWD (Arguments a) in
  let matches := List.filter (fun rule => ruleMatches rule a cwd now) (Rules r) in
  match SliceStable by_priority matches with
  | [] => (no_decision, [])
  | winner :: _ =>
      (if bool_decide (r_Decision winner = "allow")
       then (true, "afk policy: trusted-allowlist match " +:+ r_ID winner, r_ID winner)
       else if bool_decide (r_Decision winner = "deny")
       then (false, "afk policy: trusted-allowlist deny " +:+ r_ID winner, r_ID winner)
       else no_decision,
       if hasHitRec r then [r_ID winner] else [])
  end.

Definition HasAllowMetacharsMatch (r : PolicyResolver) (a : ToolApproval) (now : Z) : bool :=
  match Policy r with
  | PolicyTrustedAllow =>
      let cwd := extractCWD (Arguments a) in
      existsb (fun rule =>
        if negb (r_AllowMetachars rule) || negb (bool_decide (r_Decision rule = "allow")) then false
        else ruleMatches rule a cwd now) (Rules r)
  | _ => false
  end.

Definition resolveMeshPeer (r : PolicyResolver) (a : ToolApproval)
  : result policy_error (bool * string) :=
  match Peer r with
  | None => Ok (false, "afk policy: mesh-peer-approve has no PeerApprover")
  | Some ask =>
      match TrustedPeers r with
      | [] => Ok (false, "afk policy: mesh-peer-approve has no trusted peers")
      | _ =>
          match ask a (TrustedPeers r) with
          | Err ErrPeerTimeout | Err ErrNoPeerTargets => Ok (false, "")
          | Err e => Err e
          | Ok (approved, reason) =>
              Ok (approved,
                  if bool_decide (reason = "")
                  then if approved then "afk policy: peer approved" else "afk policy: peer denied"
                  else reason)
          end
      end
  end.

Definition Resolve (r : PolicyResolver) (a : ToolApproval) (now : Z)
  : result policy_error decision * list string :=
  match Policy r with
  | PolicyDeny => (Ok (false, "afk policy: deny", ""), [])
  | PolicyQueue => (Err ErrQueueRequested, [])
  | PolicyTrustedAllow => let '(d, hits) := resolveTrustedAllow r a now in (Ok d, hits)
  | PolicyMeshPeer =>
      (match resolveMeshPeer r a with
       | Ok (approved, reason) => Ok (approved, reason, "")
       | Err e => Err e
       end, [])
  | PolicyOther _ => (Err ErrQueueRequested, [])
  end.

Definition SetRules (rules : list ApprovalRule) (r : PolicyResolver) : PolicyResolver :=
  {| Policy := Policy r; Rules := rules; Peer := Peer r; TrustedPeers := TrustedPeers r;
     hasHitRec := hasHitRec r |}.

Definition SetHitRecorder (has : bool) (r : PolicyResolver) : PolicyResolver :=
  {| Policy := Policy r; Rules := Rules r; Peer := Peer r; TrustedPeers := TrustedPeers r;
     hasHitRec := has |}.

(** ** The trusted allow list *)

Lemma by_priority_trans x y z :
  not_after by_priority x y -> not_after by_priority y z -> not_after by_priority x z.
Proof. unfold not_after, by_priority. rewrite !Z.ltb_ge. lia. Qed.

Lemma by_priority_asym x y : by_priority x y = true -> by_priority y x = false.
Proof. unfold by_priority. rewrite Z.ltb_lt, Z.ltb_ge. lia. Qed.

(** The rule that decides: it matches, every earlier match has a strictly larger
    priority number and every later one at least as large a number. *)
Definition deciding_rule (rules : list ApprovalRule) (a : ToolApproval) (now : Z)
    (w : ApprovalRule) : Prop :=
  let matches rule := ruleMatches rule a (extractCWD (Arguments a)) now in
  exists before after, rules = before ++ w :: after /\ matches w = true /\
    (forall x, x ∈ before -> matches x = true -> (r_Priority w < r_Priority x)%Z) /\
    (forall x, x ∈ after -> matches x = true -> (r_Priority w <= r_Priority x)%Z).

Lemma filter_split {A} (f : A -> bool) (l l1 l2 : list A) (x : A) :
  List.filter f l = l1 ++ x :: l2 ->
  exists k1 k2, l = k1 ++ x :: k2 /\ l1 = List.filter f k1 /\ l2 = List.filter f k2 /\ f x = true.
Proof.
  revert l1. induction l as [|a l IH]; intros l1 H; [by destruct l1|]. cbn in H.
  destruct (f a) eqn:E.
  - destruct l1 as [|b l1]; injection H as -> H.
    + exists [], l. by subst.
    + destruct (IH _ H) as (k1 & k2 & -> & -> & -> & ?). exists (b :: k1), k2. cbn. by rewrite E.
  - destruct (IH _ H) as (k1 & k2 & -> & -> & -> & ?). exists (a :: k1), k2. cbn. by rewrite E.
Qed.

Lemma elem_of_list_filter {A} (f : A -> bool) (l : list A) x :
  x ∈ l -> f x = true -> x ∈ List.filter f l.
Proof. rewrite !list_elem_of_In. intros. by apply filter_In. Qed.

Lemma SliceStable_deciding rules a now w ws :
  SliceStable by_priority
    (List.filter (fun rule => ruleMatches rule a (extractCWD (Arguments a)) now) rules) = w :: ws ->
  deciding_rule rules a now w.
Proof.
  intros E.
  destruct (head_SliceStable by_priority by_priority_trans by_priority_asym
    (List.filter (fun rule => ruleMatches rule a (extractCWD (Arguments a)) now) rules) w) as
    (l1 & l2 & Hl & H1 & H2); [by rewrite E|].
  apply filter_split in Hl as (k1 & k2 & -> & -> & -> & Hw).
  exists k1, k2. split_and!; [done|done| |]; intros x Hx Hm.
  - rewrite list.Forall_forall in H1. specialize (H1 x (elem_of_list_filter _ _ _ Hx Hm)).
    by apply Z.ltb_lt in H1.
  - rewrite list.Forall_forall in H2. specialize (H2 x (elem_of_list_filter _ _ _ Hx Hm)).
    by apply Z.ltb_ge in H2.
Qed.

Lemma filter_nil_none {A} (f : A -> bool) (l : list A) x :
  List.filter f l = [] -> x ∈ l -> f x = false.
Proof.
  intros E Hx. destruct (f x) eqn:Hf; [|done].
  pose proof (elem_of_list_filter f l x Hx Hf) as H. rewrite E in H. by apply elem_of_nil in H.
Qed.

Lemma resolveTrustedAllow_cases r a now :
  (resolveTrustedAllow r a now = (no_decision, []) /\
   forall x, x ∈ Rules r -> ruleMatches x a (extractCWD (Arguments a)) now = false) \/
  exists w, deciding_rule (Rules r) a now w /\
    resolveTrustedAllow r a now =
    (if bool_decide (r_Decision w = "allow")
     then (true, "afk policy: trusted-allowlist match " +:+ r_ID w, r_ID w)
     else if bool_decide (r_Decision w = "deny")
     then (false, "afk policy: trusted-allowlist deny " +:+ r_ID w, r_ID w)
     else no_decision,
     if hasHitRec r then [r_ID w] else []).
Proof.
  unfold resolveTrustedAllow.
  destruct (SliceStable by_priority _) as [|w ws] eqn:E.
  - left. split; [done|]. intros x.
    apply (filter_nil_none (fun rule => ruleMatches rule a (extractCWD (Arguments a)) now)).
    symmetry. apply Permutation_nil_l. rewrite <- E. apply SliceStable_perm.
  - right. exists w. split; [by eapply SliceStable_deciding|done].
Qed.

(** the allow list is decided by its best rule: among the rules that cover the
    approval's surface, tool, directory, session and have not expired, the one
    with the least priority number, the earliest of equals.  Its decision alone
    approves or denies, and is attributed to it; no other rule has a say, and when
    none covers the approval, or the best one prompts, there is no decision. *)
Theorem resolveTrustedAllow_best_rule (r : PolicyResolver) (a : ToolApproval) (now : Z) :
  let '((approved, reason, id), hits) := resolveTrustedAllow r a now in
  (forall x, x ∈ Rules r -> ruleMatches x a (extractCWD (Arguments a)) now = false) /\
    (approved, reason, id) = no_decision /\ hits = [] \/
  exists w, deciding_rule (Rules r) a now w /\
    (approved = true <-> r_Decision w = "allow") /\
    (approved = false /\ reason <> "" <-> r_Decision w = "deny") /\
    (reason <> "" -> id = r_ID w) /\
    (hasHitRec r = true -> hits = [r_ID w]).
Proof.
  destruct (resolveTrustedAllow_cases r a now) as [[-> Hno]|(w & Hw & ->)]; [by left|].
  destruct (bool_decide (r_Decision w = "allow")) eqn:Ea; bool_hyps;
    [|destruct (bool_decide (r_Decision w = "deny")) eqn:Ed; bool_hyps]; cbn;
    right; exists w; (split; [done|]); rewrite ?Ea, ?Ed; split_and!; try done;
    try (intros ->; done); try (split; [intros [? ?]|intros ?]; done); by destruct (hasHitRec r).
Qed.

(** The resolver approves only on an explicit grant: an allow rule that decides
    under the trusted allow list, or a configured, trusted peer that answered yes
    under mesh-peer approval.  Every other policy, missing peer set-up, error or
    timeout does not approve. *)
Theorem Resolve_approves_only_on_grant (r : PolicyResolver) (a : ToolApproval) (now : Z)
    (reason id : string) (Happ : fst (Resolve r a now) = Ok (true, reason, id)) :
  (Policy r = PolicyTrustedAllow /\
   exists w, deciding_rule (Rules r) a now w /\ r_Decision w = "allow" /\ id = r_ID w) \/
  (Policy r = PolicyMeshPeer /\ exists ask said,
     Peer r = Some ask /\ TrustedPeers r <> [] /\ ask a (TrustedPeers r) = Ok (true, said)).
Proof.
  unfold Resolve in Happ. destruct (Policy r); try discriminate Happ.
  - right. split; [done|]. cbn in Happ. unfold resolveMeshPeer in Happ.
    destruct (Peer r) as [ask|]; [|done].
    destruct (TrustedPeers r) as [|p ps]; [done|].
    destruct (ask a (p :: ps)) as [[ok said]|[]] eqn:E; try done.
    exists ask, said. split_and!; [done|done|]. by injection Happ as -> _ _.
  - left. split; [done|].
    destruct (resolveTrustedAllow_cases r a now) as [[Hr _]|(w & Hw & Hr)]; rewrite Hr in Happ; [done|].
    exists w. split; [done|].
    destruct (bool_decide (r_Decision w = "allow")) eqn:Ea; bool_hyps.
    + cbn in Happ. by injection Happ as _ <-.
    + by destruct (bool_decide (r_Decision w = "deny")).
Qed.

(** ** Examples *)

Definition shell_approval (tool args : string) : ToolApproval := {|
  ID := "a1"; Status := ""; RequestSessionID := "s1"; RequestClientType := "claude_code";
  RequestModel := ""; WorkspaceID := ""; WorkspaceName := ""; ToolName := tool; Arguments := args;
  Justification := ""; RouteRuleID := ""; DownstreamServerID := ""; AuthScopeID := "";
  ApproverSessionID := ""; ApproverType := ""; Resolution := ""; TimeoutSec := 0;
  Surface := "shell"; OriginatingWorkspace := ""; Kind := ""; Summary := ""; CreatedAt := 0;
  ResolvedAt := None |}.

Definition rule_ (id pattern dir dec : string) (prio : Z) : ApprovalRule := {|
  r_ID := id; r_Surface := "shell"; r_Pattern := pattern; r_Directory := dir; r_AISessionID := "";
  r_Decision := dec; r_Priority := prio; r_ExpiresAt := None; r_AllowMetachars := false |}.

Definition resolver_ (p : AFKPolicy) (rules : list ApprovalRule) (peer : option PeerApprover)
  : PolicyResolver :=
  {| Policy := p; Rules := rules; Peer := peer; TrustedPeers := ["peer1"]; hasHitRec := true |}.

Lemma Resolve_approves_only_on_grant_witness :
  let r := resolver_ PolicyTrustedAllow
             [rule_ "d" "shell:git" "" "deny" 5; rule_ "w" "shell:git" "" "allow" 2] None in
  exists w, deciding_rule (Rules r) (shell_approval "shell:git" "") 0 w /\
            r_Decision w = "allow" /\ "w" = r_ID w.
Proof.
  intros r.
  destruct (Resolve_approves_only_on_grant r (shell_approval "shell:git" "") 0
              "afk policy: trusted-allowlist match w" "w") as [[_ H]|[H _]];
    [vm_compute; reflexivity|exact H|discriminate H].
Defined.

Example trailing_slash : directoryMatches "/srv/wsA/" "/srv/wsA/sub" = true /\
                         directoryMatches "/srv/wsA" "/srv/wsAB" = false.
Proof. done. Qed.

(** The directory restriction is a test on the unresolved path: a working directory
    that leaves the rule's directory through dot-dot is covered by the rule. *)
Example directory_not_cleaned : directoryMatches "/srv/wsA" "/srv/wsA/../../etc" = true.
Proof. reflexivity. Qed.
