(* ===== verification/Approval.v ===== *)
(** The approval manager: [internal/approval/manager.go] over the rows of
    [internal/store/sqlite/tool_approval.go].

    The goroutines of the manager (requesters, their timers, concurrent Resolve
    calls, Shutdown, ExpireStale) interleave between the store calls and the
    sections under [m.mu].  [exec_action] performs one such atomic action on the shared
    state [sys]; a run is a list of labels.  A store call takes a fault bit, so
    every action is also considered with a failing database.

    The redaction of arguments (internal/audit, modelled in AuditRedact) is a
    parameter. *)

From Stdlib Require Import Ascii String.
From stdpp Require Import gmap strings.
From S2P Require Import Prelude GoStrings ApprovalPolicy.

#[local] Open Scope string_scope.
#[local] Open Scope list_scope.

(** ** The store *)

Abbreviation rows := (gmap string ToolApproval).

Inductive store_error := ErrNotFound | ErrDB.

(** An approval with its id, status, arguments and creation time replaced. *)
Definition with_new (a : ToolApproval) (id status args : string) (created : Z) : ToolApproval := {|
  ID := id; Status := status; RequestSessionID := RequestSessionID a;
  RequestClientType := RequestClientType a; RequestModel := RequestModel a;
  WorkspaceID := WorkspaceID a; WorkspaceName := WorkspaceName a; ToolName := ToolName a;
  Arguments := args; Justification := Justification a; RouteRuleID := RouteRuleID a;
  DownstreamServerID := DownstreamServerID a; AuthScopeID := AuthScopeID a;
  ApproverSessionID := ApproverSessionID a; ApproverType := ApproverType a;
  Resolution := Resolution a; TimeoutSec := TimeoutSec a; Surface := Surface a;
  OriginatingWorkspace := OriginatingWorkspace a; Kind := Kind a; Summary := Summary a;
  CreatedAt := created; ResolvedAt := ResolvedAt a |}.

(** An approval with its verdict replaced. *)
Definition with_verdict (a : ToolApproval) (status sid typ res : string) (at_ : option Z)
  : ToolApproval := {|
  ID := ID a; Status := status; RequestSessionID := RequestSessionID a;
  RequestClientType := RequestClientType a; RequestModel := RequestModel a;
  WorkspaceID := WorkspaceID a; WorkspaceName := WorkspaceName a; ToolName := ToolName a;
  Arguments := Arguments a; Justification := Justification a; RouteRuleID := RouteRuleID a;
  DownstreamServerID := DownstreamServerID a; AuthScopeID := AuthScopeID a;
  ApproverSessionID := sid; ApproverType := typ; Resolution := res; TimeoutSec := TimeoutSec a;
  Surface := Surface a; OriginatingWorkspace := OriginatingWorkspace a; Kind := Kind a;
  Summary := Summary a; CreatedAt := CreatedAt a; ResolvedAt := at_ |}.

Definition set_status (a : ToolApproval) (status : string) : ToolApproval :=
  with_verdict a status (ApproverSessionID a) (ApproverType a) (Resolution a) (ResolvedAt a).

(** Defaults of CreateToolApproval: [uuid] is the generated id, a zero time is
    unset. *)
Definition created (uuid : string) (now : Z) (a : ToolApproval) : ToolApproval :=
  with_new a (if bool_decide (ID a = "") then uuid else ID a)
    (if bool_decide (Status a = "") then "pending" else Status a)
    (Arguments a) (if (CreatedAt a =? 0)%Z then now else CreatedAt a).

(** The INSERT fails on a repeated primary key. *)
Definition CreateToolApproval (fault : bool) (uuid : string) (now : Z) (a : ToolApproval) (db : rows)
  : result store_error ToolApproval * rows :=
  let a := created uuid now a in
  if fault then (Err ErrDB, db) else
  match db !! ID a with
  | Some _ => (Err ErrDB, db)
  | None => (Ok a, <[ID a := a]> db)
  end.

Definition GetToolApproval (id : string) (db : rows) : result store_error ToolApproval :=
  match db !! id with Some a => Ok a | None => Err ErrNotFound end.

(** [UPDATE ... WHERE id = ? AND status = 'pending'], an error when no row is hit. *)
Definition ResolveToolApproval (fault : bool) (now : Z) (id status sid typ res : string) (db : rows)
  : result store_error unit * rows :=
  if fault then (Err ErrDB, db) else
  match db !! id with
  | Some a =>
      if bool_decide (Status a = "pending")
      then (Ok tt, <[id := with_verdict a status sid typ res (Some now)]> db)
      else (Err ErrNotFound, db)
  | None => (Err ErrNotFound, db)
  end.

Definition expire_row (now before : Z) (a : ToolApproval) : ToolApproval :=
  if bool_decide (Status a = "pending") && (CreatedAt a <? before)%Z
  then with_verdict a "timeout" (ApproverSessionID a) (ApproverType a) (Resolution a) (Some now)
  else a.

Definition ExpirePendingApprovals (fault : bool) (now before : Z) (db : rows) : rows :=
  if fault then db else expire_row now before <$> db.

(** ** Publications *)

Inductive event :=
  | EvBus (type : string) (id status : string)
  | EvNotify (id kind priority title body tags link : string).

Definition approvalTitle (a : ToolApproval) (verb : string) : string :=
  let tool := if bool_decide (ToolName a = "") then Surface a else ToolName a in
  if bool_decide (tool = "") then verb else verb +:+ ": " +:+ tool.

Definition link_of (a : ToolApproval) : string := "/approvals?selected=" +:+ ID a.

(** ** The manager's configuration *)

(** What SetDangerousModeProvider, SetPolicyResolver, NewManager and
    SetNotifyPublisher install.  [dangerous] is the value the provider returns. *)
Record Manager := {
  dangerous : bool;
  policy : option PolicyResolver;
  has_bus : bool;
  has_notify : bool;
}.

Definition publish (m : Manager) (bus notify : event) : list event :=
  (if has_bus m then [bus] else []) ++ (if has_notify m then [notify] else []).

Definition publish_pending (m : Manager) (a : ToolApproval) : list event :=
  publish m (EvBus "pending" (ID a) (Status a))
    (EvNotify (ID a) "approval_pending" "high" (approvalTitle a "Approval requested")
       (Justification a) ("approval," +:+ Surface a) (link_of a)).

Definition publish_bypass (m : Manager) (a : ToolApproval) (reason : string) : list event :=
  publish m (EvBus "resolved" (ID a) (Status a))
    (EvNotify (ID a) "approval_approved" "low" (approvalTitle a "Dangerous-mode bypass")
       (if bool_decide (Justification a = "") then reason else Justification a)
       ("approval," +:+ Surface a +:+ ",dangerous-mode") (link_of a)).

Definition verb_of (approved : bool) : string := if approved then "approved" else "denied".

Definition publish_predecided (m : Manager) (a : ToolApproval) (approved : bool) (reason : string)
  : list event :=
  publish m (EvBus "resolved" (ID a) (Status a))
    (EvNotify (ID a) ("approval_" +:+ verb_of approved) "low"
       (approvalTitle a ("Approval " +:+ verb_of approved))
       (if bool_decide (reason = "") then "by afk-policy" else reason)
       ("approval," +:+ Surface a +:+ ",pre-decided") (link_of a)).

Definition publish_resolved (m : Manager) (a : ToolApproval) (approved : bool) (typ reason : string)
  : list event :=
  publish m (EvBus "resolved" (ID a) (Status a))
    (EvNotify (ID a) ("approval_" +:+ verb_of approved) "normal"
       (approvalTitle a ("Approval " +:+ verb_of approved))
       (if bool_decide (reason = "") then "by " +:+ typ else reason)
       ("approval," +:+ Surface a) (link_of a)).

Definition PublishExternal (m : Manager) (a : ToolApproval) : list event :=
  publish m (EvBus "resolved" (ID a) (Status a))
    (EvNotify (ID a) ("approval_" +:+ Status a) "low" (approvalTitle a "Consent recorded")
       (if bool_decide (Summary a = "") then Resolution a else Summary a)
       ("approval," +:+ Surface a) (link_of a)).

(** ** Decisions taken before the request is published *)

Definition approver_sid (ruleID : string) : string :=
  if bool_decide (ruleID = "") then "system" else "rule:" +:+ ruleID.

(** [Some (approved, reason, ruleID)] when decided; the rules hit. *)
Definition tryResolveSync (m : Manager) (a : ToolApproval) (now : Z)
  : option decision * list string :=
  match policy m with
  | None => (None, [])
  | Some r =>
      match Policy r with
      | PolicyTrustedAllow | PolicyDeny =>
          let '(d, hits) := ApprovalPolicy.Resolve r a now in
          (match d with
           | Err _ => None
           | Ok (approved, reason, ruleID) =>
               if negb approved && bool_decide (reason = "") then None
               else Some (approved, reason, ruleID)
           end, hits)
      | _ => (None, [])
      end
  end.

(** What runPolicyHook passes to Resolve for a request still pending after the
    grace period: (approverSessionID, reason, approved). *)
Definition policy_hook (m : Manager) (a : ToolApproval) (still_pending : bool) (now : Z)
  : option (string * string * bool) * list string :=
  match policy m with
  | None => (None, [])
  | Some r =>
      if negb still_pending then (None, []) else
      let '(d, hits) := ApprovalPolicy.Resolve r a now in
      (match d with
       | Err _ => None
       | Ok (approved, reason, ruleID) =>
           if negb approved && bool_decide (reason = "") then None
           else Some (approver_sid ruleID, reason, approved)
       end, hits)
  end.

(** The checks of Resolve, up to its store update. *)
Inductive resolve_error :=
  | ErrApproverTypeRequired | ErrApproverIdentityRequired | ErrAlreadyResolved | ErrSelfApproval
  | ErrStore (e : store_error).

Definition Resolve_check (id sid typ : string) (db : rows) : result resolve_error ToolApproval :=
  if bool_decide (typ = "") then Err ErrApproverTypeRequired
  else if bool_decide (typ = "dashboard") && bool_decide (sid = "") then Err ErrApproverIdentityRequired
  else match GetToolApproval id db with
  | Err e => Err (ErrStore e)
  | Ok a =>
      if negb (bool_decide (Status a = "pending")) then Err ErrAlreadyResolved
      else if negb (bool_decide (sid = "")) && bool_decide (sid = RequestSessionID a) then Err ErrSelfApproval
      else Ok a
  end.

(** ** The shared state and its atomic actions *)

Record resolution := { r_Approved : bool; r_Reason : string }.

(** Where the goroutine of a request is. *)
Inductive phase :=
  | PPre (approved : bool) (sid typ reason : string) (bypass : bool)
      (* decided up front, row created, about to be resolved *)
  | PCreated       (* row created, not yet in the pending map *)
  | PWaiting       (* in the select *)
  | PCancelling    (* took itself out of the pending map after ctx.Done *)
  | PDone (approved err : bool).

(** The goroutine that took an id out of the pending map owns its channel. *)
Inductive claim :=
  | CTimer                (* timer, before its store update *)
  | CTimerStored
  | CShutdown             (* Shutdown, before its store update *)
  | CShutdownStored
  | CResolved (m : Manager) (a : ToolApproval) (approved : bool) (typ reason : string).

(** A Resolve call that passed its checks. *)
Record resolving := {
  v_mgr : Manager; v_row : ToolApproval; v_id : string; v_sid : string; v_typ : string;
  v_reason : string; v_approved : bool; v_stored : bool;
}.

Record sys := {
  db : rows;
  pending : gset string;
  chans : gmap string resolution;
  claims : gmap string claim;
  reqs : gmap string (ToolApproval * phase);
  resolvers : list resolving;
  trace : list event;
  hits : list string;
}.

Definition init_sys : sys := {|
  db := ∅; pending := ∅; chans := ∅; claims := ∅; reqs := ∅; resolvers := []; trace := []; hits := [] |}.

Definition set_db (d : rows) (s : sys) : sys := {|
  db := d; pending := pending s; chans := chans s; claims := claims s; reqs := reqs s;
  resolvers := resolvers s; trace := trace s; hits := hits s |}.
Definition set_pending (p : gset string) (s : sys) : sys := {|
  db := db s; pending := p; chans := chans s; claims := claims s; reqs := reqs s;
  resolvers := resolvers s; trace := trace s; hits := hits s |}.
Definition set_chans (c : gmap string resolution) (s : sys) : sys := {|
  db := db s; pending := pending s; chans := c; claims := claims s; reqs := reqs s;
  resolvers := resolvers s; trace := trace s; hits := hits s |}.
Definition set_claims (c : gmap string claim) (s : sys) : sys := {|
  db := db s; pending := pending s; chans := chans s; claims := c; reqs := reqs s;
  resolvers := resolvers s; trace := trace s; hits := hits s |}.
Definition set_reqs (r : gmap string (ToolApproval * phase)) (s : sys) : sys := {|
  db := db s; pending := pending s; chans := chans s; claims := claims s; reqs := r;
  resolvers := resolvers s; trace := trace s; hits := hits s |}.
Definition set_resolvers (r : list resolving) (s : sys) : sys := {|
  db := db s; pending := pending s; chans := chans s; claims := claims s; reqs := reqs s;
  resolvers := r; trace := trace s; hits := hits s |}.
Definition emit (es : list event) (s : sys) : sys := {|
  db := db s; pending := pending s; chans := chans s; claims := claims s; reqs := reqs s;
  resolvers := resolvers s; trace := trace s ++ es; hits := hits s |}.
Definition hit (hs : list string) (s : sys) : sys := {|
  db := db s; pending := pending s; chans := chans s; claims := claims s; reqs := reqs s;
  resolvers := resolvers s; trace := trace s; hits := hits s ++ hs |}.

Definition set_req (id : string) (a : ToolApproval) (ph : phase) (s : sys) : sys :=
  set_reqs (<[id := (a, ph)]> (reqs s)) s.

Inductive label :=
  | LRequest (m : Manager) (uuid : string) (now : Z) (fault : bool) (a : ToolApproval)
  | LPreStore (m : Manager) (id : string) (now : Z) (fault : bool)
  | LRegister (m : Manager) (id : string)
  | LReceive (id : string)
  | LCancel (id : string)
  | LCancelStore (m : Manager) (id : string) (now : Z) (fault : bool)
  | LTimer (id : string)
  | LTimerStore (m : Manager) (id : string) (now : Z) (fault : bool)
  | LSend (id : string)
  | LHook (m : Manager) (id : string) (now : Z)
  | LResolve (m : Manager) (id sid typ reason : string) (approved : bool)
  | LResolveStore (k : nat) (now : Z) (fault : bool)
  | LResolveClaim (k : nat)
  | LShutdown
  | LShutdownStore (id : string) (now : Z) (fault : bool)
  | LExpire (now : Z) (fault : bool).

Section Manager.
Variable redact : string -> string.

Definition redactApprovalArguments (args : string) : string :=
  if bool_decide (args = "") then "" else redact args.

(** The row is created and the requester moves to phase [ph]; on an error
    RequestApproval returns and leaves nothing behind. *)
Definition create_and (fault : bool) (uuid : string) (now : Z) (a : ToolApproval) (ph : phase)
    (s : sys) : sys :=
  match CreateToolApproval fault uuid now a (db s) with
  | (Err _, d) => set_db d s
  | (Ok a', d) => set_req (ID a') a' ph (set_db d s)
  end.

Definition RequestApproval (m : Manager) (uuid : string) (now : Z) (fault : bool)
    (a : ToolApproval) (s : sys) : sys :=
  let pre := with_new a (ID a) "pending" (redactApprovalArguments (Arguments a)) (CreatedAt a) in
  if dangerous m
  then create_and fault uuid now pre
         (PPre true "dangerous-mode" "system" "dangerous-mode bypass" true) s
  else
    let '(d, hs) := tryResolveSync m a now in
    match d with
    | Some (approved, reason, ruleID) =>
        create_and fault uuid now pre
          (PPre approved (approver_sid ruleID) "afk-policy" reason false) (hit hs s)
    | None =>
        create_and fault uuid now
          (with_new a (ID a) (Status a) (redactApprovalArguments (Arguments a)) (CreatedAt a))
          PCreated (hit hs s)
    end.

(** The second half of bypassAsApproved and recordPreDecided. *)
Definition pre_store (m : Manager) (id : string) (now : Z) (fault : bool) (a : ToolApproval)
    (approved : bool) (sid typ reason : string) (bypass : bool) (s : sys) : sys :=
  let status := verb_of approved in
  match ResolveToolApproval fault now id status sid typ reason (db s) with
  | (Err _, d) => set_req id a (PDone false true) (set_db d s)
  | (Ok _, d) =>
      let a' := with_verdict a status sid typ reason (ResolvedAt a) in
      emit (if bypass then publish_bypass m a' reason else publish_predecided m a' approved reason)
        (set_req id a' (PDone approved false) (set_db d s))
  end.

(** Resolve, up to its checks: the caller gets the error, or goes on. *)
Definition resolve_start (m : Manager) (id sid typ reason : string) (approved : bool) (s : sys)
  : result resolve_error sys :=
  match Resolve_check id sid typ (db s) with
  | Err e => Err e
  | Ok a =>
      Ok (set_resolvers (resolvers s ++
            [{| v_mgr := m; v_row := a; v_id := id; v_sid := sid; v_typ := typ;
                v_reason := reason; v_approved := approved; v_stored := false |}]) s)
  end.

Definition exec_action (l : label) (s : sys) : option sys :=
  match l with
  | LRequest m uuid now fault a =>
      (* callers leave Status empty, and a generated id is not empty *)
      if bool_decide (Status a = "" \/ Status a = "pending")
      then Some (RequestApproval m uuid now fault a s) else None
  | LPreStore m id now fault =>
      match reqs s !! id with
      | Some (a, PPre approved sid typ reason bypass) =>
          Some (pre_store m id now fault a approved sid typ reason bypass s)
      | _ => None
      end
  | LRegister m id =>
      match reqs s !! id with
      | Some (a, PCreated) =>
          Some (emit (publish_pending m a)
                  (set_req id a PWaiting (set_pending ({[id]} ∪ pending s) s)))
      | _ => None
      end
  | LReceive id =>
      match reqs s !! id, chans s !! id with
      | Some (a, PWaiting), Some r =>
          let a' := with_verdict a (verb_of (r_Approved r)) (ApproverSessionID a) (ApproverType a)
                      (r_Reason r) (ResolvedAt a) in
          Some (set_req id a' (PDone (r_Approved r) false) (set_chans (delete id (chans s)) s))
      | _, _ => None
      end
  | LCancel id =>
      match reqs s !! id with
      | Some (a, PWaiting) =>
          if bool_decide (id ∈ pending s)
          then Some (set_req id a PCancelling (set_pending (pending s ∖ {[id]}) s))
          else Some (set_req id a (PDone false true) s)
      | _ => None
      end
  | LCancelStore m id now fault =>
      match reqs s !! id with
      | Some (a, PCancelling) =>
          let '(_, d) := ResolveToolApproval fault now id "cancelled" "" "system"
                           "client disconnected" (db s) in
          let a' := set_status a "cancelled" in
          Some (emit (if has_bus m then [EvBus "resolved" (ID a') "cancelled"] else [])
                  (set_req id a' (PDone false true) (set_db d s)))
      | _ => None
      end
  | LTimer id =>
      if bool_decide (id ∈ pending s)
      then Some (set_claims (<[id := CTimer]> (claims s)) (set_pending (pending s ∖ {[id]}) s))
      else Some s
  | LTimerStore m id now fault =>
      match claims s !! id, reqs s !! id with
      | Some CTimer, Some (a, ph) =>
          let '(_, d) := ResolveToolApproval fault now id "timeout" "" "system" "timed out" (db s) in
          let a' := set_status a "timeout" in
          Some (emit (if has_bus m then [EvBus "resolved" (ID a') "timeout"] else [])
                  (set_claims (<[id := CTimerStored]> (claims s)) (set_req id a' ph (set_db d s))))
      | _, _ => None
      end
  | LSend id =>
      (* the channel holds one message: a send blocks while it is full *)
      match claims s !! id, chans s !! id with
      | Some c, None =>
          let s' := set_claims (delete id (claims s)) s in
          match c with
          | CTimerStored =>
              Some (set_chans (<[id := {| r_Approved := false; r_Reason := "timed out" |}]> (chans s')) s')
          | CShutdownStored =>
              Some (set_chans (<[id := {| r_Approved := false; r_Reason := "server shutdown" |}]> (chans s')) s')
          | CResolved m a approved typ reason =>
              Some (emit (publish_resolved m a approved typ reason)
                (set_chans (<[id := {| r_Approved := approved; r_Reason := reason |}]> (chans s')) s'))
          | CTimer | CShutdown => None
          end
      | _, _ => None
      end
  | LHook m id now =>
      match reqs s !! id with
      | Some (a, _) =>
          let '(d, hs) := policy_hook m a (bool_decide (id ∈ pending s)) now in
          match d with
          | None => Some (hit hs s)
          | Some (sid, reason, approved) =>
              match resolve_start m id sid "afk-policy" reason approved (hit hs s) with
              | Ok s' => Some s'
              | Err _ => Some (hit hs s)
              end
          end
      | None => None
      end
  | LResolve m id sid typ reason approved =>
      match resolve_start m id sid typ reason approved s with
      | Ok s' => Some s'
      | Err _ => Some s
      end
  | LResolveStore k now fault =>
      match resolvers s !! k with
      | Some v =>
          if v_stored v then None else
          match ResolveToolApproval fault now (v_id v) (verb_of (v_approved v)) (v_sid v) (v_typ v)
                  (v_reason v) (db s) with
          | (Err _, d) => Some (set_resolvers (delete k (resolvers s)) (set_db d s))
          | (Ok _, d) =>
              let v' := {| v_mgr := v_mgr v;
                           v_row := with_verdict (v_row v) (verb_of (v_approved v)) (v_sid v)
                                      (v_typ v) (v_reason v) (ResolvedAt (v_row v));
                           v_id := v_id v; v_sid := v_sid v; v_typ := v_typ v;
                           v_reason := v_reason v; v_approved := v_approved v; v_stored := true |} in
              Some (set_resolvers (<[k := v']> (resolvers s)) (set_db d s))
          end
      | None => None
      end
  | LResolveClaim k =>
      match resolvers s !! k with
      | Some v =>
          if negb (v_stored v) then None else
          let s' := set_resolvers (delete k (resolvers s)) s in
          if bool_decide (v_id v ∈ pending s)
          then Some (set_claims (<[v_id v := CResolved (v_mgr v) (v_row v) (v_approved v) (v_typ v) (v_reason v)]>
                                   (claims s'))
                       (set_pending (pending s ∖ {[v_id v]}) s'))
          else Some (emit (publish_resolved (v_mgr v) (v_row v) (v_approved v) (v_typ v) (v_reason v)) s')
      | None => None
      end
  | LShutdown =>
      Some (set_claims (gset_to_gmap CShutdown (pending s) ∪ claims s) (set_pending ∅ s))
  | LShutdownStore id now fault =>
      match claims s !! id with
      | Some CShutdown =>
          let '(_, d) := ResolveToolApproval fault now id "cancelled" "" "system" "server shutdown" (db s) in
          Some (set_claims (<[id := CShutdownStored]> (claims s)) (set_db d s))
      | _ => None
      end
  | LExpire now fault => Some (set_db (ExpirePendingApprovals fault now now (db s)) s)
  end.

Fixpoint run (ls : list label) (s : sys) : option sys :=
  match ls with
  | [] => Some s
  | l :: ls' => s' ← exec_action l s; run ls' s'
  end.

Definition reachable (s : sys) : Prop := exists ls, run ls init_sys = Some s.

(** ListPending: the ids in the pending map whose row is still pending. *)
Definition ListPending (excludeSessionID : string) (s : sys) : list ToolApproval :=
  omap (fun id =>
    a ← db s !! id;
    if negb (bool_decide (Status a = "pending")) then None
    else if negb (bool_decide (excludeSessionID = ""))
            && bool_decide (RequestSessionID a = excludeSessionID) then None
    else Some a) (elements (pending s)).
End Manager.

(** ** The store only moves a row out of pending *)

Definition db_le (d d' : rows) : Prop :=
  forall id a, d !! id = Some a ->
  exists a', d' !! id = Some a' /\ (Status a <> "pending" -> a' = a) /\
             RequestSessionID a' = RequestSessionID a.

#[local] Instance db_le_preorder : PreOrder db_le.
Proof.
  split; [by intros d id a H; eauto|].
  intros d1 d2 d3 H12 H23 id a H. destruct (H12 _ _ H) as (a2 & H2 & Hs & Hr).
  destruct (H23 _ _ H2) as (a3 & H3 & Hs' & Hr'). exists a3. split_and!; [done| |congruence].
  intros Hn. specialize (Hs Hn). subst a2. auto.
Qed.

Lemma insert_db_le d id a : (forall a0, d !! id = Some a0 ->
    Status a0 = "pending" /\ RequestSessionID a = RequestSessionID a0) -> db_le d (<[id := a]> d).
Proof.
  intros H id' a0 Hd. destruct (decide (id' = id)) as [->|].
  - destruct (H _ Hd) as [Hp Hr]. exists a. rewrite lookup_insert_eq. by split_and!.
  - exists a0. by rewrite lookup_insert_ne.
Qed.

Lemma CreateToolApproval_spec fault uuid now a d :
  match CreateToolApproval fault uuid now a d with
  | (Err _, d') => d' = d
  | (Ok a', d') => a' = created uuid now a /\ d !! ID a' = None /\ d' = <[ID a' := a']> d
  end.
Proof. unfold CreateToolApproval. destruct fault; [done|]. by destruct (d !! _) eqn:E. Qed.

Lemma ResolveToolApproval_spec fault now id status sid typ res d :
  match ResolveToolApproval fault now id status sid typ res d with
  | (Err _, d') => d' = d
  | (Ok _, d') => exists a, d !! id = Some a /\ Status a = "pending" /\
                  d' = <[id := with_verdict a status sid typ res (Some now)]> d
  end.
Proof.
  unfold ResolveToolApproval. destruct fault; [done|]. destruct (d !! id) as [a|] eqn:E; [|done].
  destruct (bool_decide (Status a = "pending")) eqn:Hs; bool_hyps; [eauto|done].
Qed.

Lemma ResolveToolApproval_le fault now id status sid typ res d :
  db_le d (snd (ResolveToolApproval fault now id status sid typ res d)).
Proof.
  pose proof (ResolveToolApproval_spec fault now id status sid typ res d) as H.
  destruct (ResolveToolApproval _ _ _ _ _ _ _ _) as [[?|?] d']; cbn; [|by subst].
  destruct H as (a0' & Ha & Hp & ->). apply insert_db_le. intros a0. rewrite Ha. by intros [= <-].
Qed.

Lemma CreateToolApproval_le fault uuid now a d :
  db_le d (snd (CreateToolApproval fault uuid now a d)).
Proof.
  pose proof (CreateToolApproval_spec fault uuid now a d) as H.
  destruct (CreateToolApproval _ _ _ _ _) as [[?|?] d']; cbn; [|by subst].
  destruct H as (-> & Hn & ->). apply insert_db_le. intros a0. by rewrite Hn.
Qed.

Lemma ExpirePendingApprovals_le fault now before d :
  db_le d (ExpirePendingApprovals fault now before d).
Proof.
  unfold ExpirePendingApprovals. destruct fault; [done|]. intros id a Ha.
  exists (expire_row now before a). rewrite lookup_fmap, Ha. split; [done|].
  unfold expire_row. destruct (bool_decide (Status a = "pending")) eqn:E; cbn; [|done].
  bool_hyps. split; [done|]. by destruct (_ <? _)%Z.
Qed.

Section ManagerProofs.
Variable redact : string -> string.
Abbreviation exec := (exec_action redact).
Abbreviation run := (run redact).

(** The case analysis of one action: every way it can succeed. *)
Ltac exec_cases H :=
  repeat match type of H with
  | context [match ?x with _ => _ end] => destruct x eqn:?; try discriminate H
  end; injection H as <-.

Lemma resolve_start_spec m id sid typ reason approved s s' :
  resolve_start m id sid typ reason approved s = Ok s' ->
  exists a, Resolve_check id sid typ (db s) = Ok a /\
    s' = set_resolvers (resolvers s ++
           [{| v_mgr := m; v_row := a; v_id := id; v_sid := sid; v_typ := typ;
               v_reason := reason; v_approved := approved; v_stored := false |}]) s.
Proof. unfold resolve_start. destruct (Resolve_check _ _ _ _); [|done]. intros [= <-]. eauto. Qed.

(** Expand a Resolve call that passed its checks. *)
Ltac resolve_ok :=
  try match goal with E : resolve_start _ _ _ _ _ _ _ = Ok _ |- _ =>
    apply resolve_start_spec in E as (? & ? & ->) end.

Ltac store_le :=
  cbn; match goal with E : ResolveToolApproval ?f ?n ?i ?st ?si ?ty ?re ?d = _ |- _ =>
    let Hle := fresh in
    pose proof (ResolveToolApproval_le f n i st si ty re d) as Hle; rewrite E in Hle; exact Hle
  end.

Lemma exec_db_le l s s' : exec l s = Some s' -> db_le (db s) (db s').
Proof.
  intros H. destruct l; cbn [exec_action] in H.
  - case_bool_decide; [|done]. injection H as <-. unfold RequestApproval, create_and.
    assert (forall fault uuid now a d r d', CreateToolApproval fault uuid now a d = (r, d') -> db_le d d') as Hc.
    { intros f u n x d r d' E. pose proof (CreateToolApproval_le f u n x d). by rewrite E in *. }
    repeat case_match_goal; cbn; by eapply Hc.
  - exec_cases H. unfold pre_store.
    pose proof (ResolveToolApproval_le fault now id (verb_of approved) sid typ reason (db s)).
    by destruct (ResolveToolApproval _ _ _ _ _ _ _ _) as [[] ?].
  - by exec_cases H.
  - by exec_cases H.
  - by exec_cases H.
  - exec_cases H; store_le.
  - by exec_cases H.
  - exec_cases H; store_le.
  - by exec_cases H.
  - exec_cases H; resolve_ok; done.
  - exec_cases H; resolve_ok; done.
  - exec_cases H; store_le.
  - by exec_cases H.
  - by exec_cases H.
  - exec_cases H; store_le.
  - injection H as <-. apply ExpirePendingApprovals_le.
Qed.

Lemma run_db_le ls s s' : run ls s = Some s' -> db_le (db s) (db s').
Proof.
  revert s. induction ls as [|l ls IH]; intros s H; [by injection H as <-|].
  cbn in H. destruct (exec l s) as [s1|] eqn:E; [|done].
  etrans; [by eapply exec_db_le|by apply IH].
Qed.

(** ** Each request's channel has one owner *)

(** What may hold the right to wake a request, by its phase: the pending map, a
    goroutine that took the id out of it, or the message in the channel. *)
Definition tokens_ok (p : bool) (c : option claim) (h : option resolution) (ph : option phase)
  : Prop :=
  match ph with
  | Some PWaiting =>
      match p, c, h with
      | true, None, None | false, Some _, None | false, None, Some _ => True
      | _, _, _ => False
      end
  | Some (PDone _ _) =>
      match p, c, h with false, None, _ | false, _, None => True | _, _, _ => False end
  | _ => match p, c, h with false, None, None => True | _, _, _ => False end
  end.

Definition tokens (s : sys) (id : string) : Prop :=
  tokens_ok (bool_decide (id ∈ pending s)) (claims s !! id) (chans s !! id) (snd <$> reqs s !! id).

Record inv (s : sys) : Prop := {
  inv_tokens : forall id, tokens s id;
  inv_req : forall id a ph, reqs s !! id = Some (a, ph) -> is_Some (db s !! id);
}.

Lemma bd_add_eq id (p : gset string) : bool_decide (id ∈ {[id]} ∪ p) = true.
Proof. apply bool_decide_eq_true_2. set_solver. Qed.
Lemma bd_add_ne id id' (p : gset string) :
  id' <> id -> bool_decide (id' ∈ {[id]} ∪ p) = bool_decide (id' ∈ p).
Proof. intros. apply bool_decide_ext. set_solver. Qed.
Lemma bd_del_eq id (p : gset string) : bool_decide (id ∈ p ∖ {[id]}) = false.
Proof. apply bool_decide_eq_false_2. set_solver. Qed.
Lemma bd_del_ne id id' (p : gset string) :
  id' <> id -> bool_decide (id' ∈ p ∖ {[id]}) = bool_decide (id' ∈ p).
Proof. intros. apply bool_decide_ext. set_solver. Qed.

(** The tokens of another id are untouched; for [id] itself the lookups are
    evaluated and the old tokens cased on. *)
Ltac other_id := unfold tokens; cbn;
  rewrite ?lookup_insert_ne, ?lookup_delete_ne, ?bd_add_ne, ?bd_del_ne by congruence; assumption.
Ltac this_id H := unfold tokens in *; cbn in *;
  rewrite ?lookup_insert_eq, ?lookup_delete_eq, ?bd_add_eq, ?bd_del_eq in *;
  repeat match goal with E : ?x = _ |- _ => rewrite E in H end; cbn in *;
  unfold tokens_ok in *; revert H;
  repeat match goal with
  | |- context [match ?x with _ => _ end] => destruct x; try done
  end; try done.

Lemma tokens_create fault uuid now a ph s :
  (forall id a ph, reqs s !! id = Some (a, ph) -> is_Some (db s !! id)) ->
  (forall id, tokens s id) ->
  match ph with PPre _ _ _ _ _ | PCreated => True | _ => False end ->
  forall id, tokens (create_and fault uuid now a ph s) id.
Proof.
  intros Hreq H Hph id'. unfold create_and.
  pose proof (CreateToolApproval_spec fault uuid now a (db s)) as Hc.
  destruct (CreateToolApproval _ _ _ _ _) as [[a'|e] d]; [|apply H].
  destruct Hc as (_ & Hn & _). pose proof (H id') as H'.
  destruct (decide (id' = ID a')) as [->|Hne]; [|other_id].
  destruct (reqs s !! ID a') as [[a0 ph0]|] eqn:Er.
  { destruct (Hreq _ _ _ Er) as [? Hd]. by rewrite Hn in Hd. }
  unfold tokens in *. cbn. rewrite lookup_insert_eq. rewrite Er in H'. cbn in *.
  by destruct ph.
Qed.

Lemma exec_tokens l s s' : inv s -> exec l s = Some s' -> forall id, tokens s' id.
Proof.
  intros [Ht Hreq] H id'. pose proof (Ht id') as H'. destruct l; cbn [exec_action] in H.
  - case_bool_decide; [|done]. injection H as <-. unfold RequestApproval.
    destruct (dangerous m); [by apply tokens_create|].
    destruct (tryResolveSync m a now) as [[[[? ?] ?]|] hs]; by apply tokens_create.
  - exec_cases H. unfold pre_store.
    destruct (ResolveToolApproval _ _ _ _ _ _ _ _) as [[] ?];
      (destruct (decide (id' = id)) as [->|]; [this_id H'|other_id]).
  - exec_cases H; (destruct (decide (id' = id)) as [->|]; [this_id H'|other_id]).
  - exec_cases H; (destruct (decide (id' = id)) as [->|]; [this_id H'|other_id]).
  - exec_cases H; (destruct (decide (id' = id)) as [->|]; [this_id H'|other_id]).
  - exec_cases H; (destruct (decide (id' = id)) as [->|]; [this_id H'|other_id]).
  - exec_cases H; try done; (destruct (decide (id' = id)) as [->|]; [this_id H'|other_id]).
  - exec_cases H; (destruct (decide (id' = id)) as [->|]; [this_id H'|other_id]).
  - exec_cases H; (destruct (decide (id' = id)) as [->|]; [this_id H'|other_id]).
  - exec_cases H; resolve_ok; done.
  - exec_cases H; resolve_ok; done.
  - exec_cases H; done.
  - exec_cases H; try done.
    match goal with v : resolving |- _ => destruct (decide (id' = v_id v)) as [->|]; [this_id H'|other_id] end.
  - injection H as <-. unfold tokens in *. cbn.
    rewrite bool_decide_eq_false_2 by set_solver. rewrite lookup_union.
    destruct (decide (id' ∈ pending s)) as [Hin|Hin].
    + rewrite lookup_gset_to_gmap, option_guard_True by done.
      rewrite bool_decide_eq_true_2 in H' by done.
      unfold tokens_ok in *. destruct (snd <$> reqs s !! id') as [[]|]; try done;
        destruct (claims s !! id'), (chans s !! id'); done.
    + rewrite lookup_gset_to_gmap, option_guard_False by done.
      rewrite bool_decide_eq_false_2 in H' by done. by rewrite (left_id None union).
  - exec_cases H; (destruct (decide (id' = id)) as [->|]; [this_id H'|other_id]).
  - injection H as <-. done.
Qed.

Lemma exec_reqs l s s' id a ph :
  exec l s = Some s' -> reqs s' !! id = Some (a, ph) ->
  is_Some (reqs s !! id) \/ is_Some (db s' !! id).
Proof.
  intros H. destruct l; cbn [exec_action] in H.
  1: {
    case_bool_decide; [|done]. injection H as <-.
    assert (forall f u n x p s0, reqs (create_and f u n x p s0) !! id = Some (a, ph) ->
      is_Some (reqs s0 !! id) \/ is_Some (db (create_and f u n x p s0) !! id)) as Hc.
    { intros f u n x p s0. unfold create_and.
      pose proof (CreateToolApproval_spec f u n x (db s0)) as Hspec.
      destruct (CreateToolApproval _ _ _ _ _) as [[a'|] d]; cbn; [|by left; eexists].
      destruct Hspec as (_ & _ & ->). destruct (decide (id = ID a')) as [->|Hne].
      - intros _. right. by rewrite lookup_insert_eq.
      - rewrite lookup_insert_ne by congruence. intros ?. by left. }
    unfold RequestApproval. destruct (dangerous m); [apply Hc|].
    destruct (tryResolveSync _ _ _) as [[[[? ?] ?]|] hs]; apply (Hc _ _ _ _ _ (hit hs s)). }
  all: exec_cases H; resolve_ok; unfold pre_store;
    repeat match goal with |- context [ResolveToolApproval ?a ?b ?c ?d ?e ?f ?g ?h] =>
      destruct (ResolveToolApproval a b c d e f g h) as [[] ?] end;
    cbn; try (intros ?; left; eexists; eassumption);
    match goal with |- context [@insert _ _ _ _ ?i _ _] =>
      destruct (decide (id = i)) as [->|];
        [by left; eexists|rewrite lookup_insert_ne by congruence; by left; eexists] end.
Qed.

Lemma exec_inv l s s' : inv s -> exec l s = Some s' -> inv s'.
Proof.
  intros Hi H. split; [by eapply exec_tokens|]. intros id a ph Hr.
  destruct (exec_reqs _ _ _ _ _ _ H Hr) as [[[a0 ph0] H0]|?]; [|done].
  destruct (inv_req _ Hi _ _ _ H0) as [row Hrow].
  destruct (exec_db_le _ _ _ H _ _ Hrow) as (row' & ? & _). by eexists.
Qed.

(** ** What the requester is told is what the store says *)

Definition approved_in (d : rows) (id : string) : Prop :=
  exists row, d !! id = Some row /\ Status row = "approved".

Lemma approved_in_le d d' id : db_le d d' -> approved_in d id -> approved_in d' id.
Proof.
  intros Hle (row & Hr & Hs). destruct (Hle _ _ Hr) as (row' & Hr' & Heq & _).
  rewrite Heq in Hr' by (by rewrite Hs). by exists row.
Qed.

Record evidence (s : sys) : Prop := {
  ev_claim : forall id m a typ reason,
    claims s !! id = Some (CResolved m a true typ reason) -> approved_in (db s) id;
  ev_chan : forall id r, chans s !! id = Some r -> r_Approved r = true -> approved_in (db s) id;
  ev_done : forall id a err, reqs s !! id = Some (a, PDone true err) -> approved_in (db s) id;
  ev_resolver : forall k v, resolvers s !! k = Some v -> v_stored v = true -> v_approved v = true ->
    approved_in (db s) (v_id v);
}.

(** A successful resolution to approved is in the store. *)
Lemma ResolveToolApproval_approved fault now id sid typ res d u d' :
  ResolveToolApproval fault now id (verb_of true) sid typ res d = (Ok u, d') -> approved_in d' id.
Proof.
  intros H. pose proof (ResolveToolApproval_spec fault now id (verb_of true) sid typ res d) as Hs.
  rewrite H in Hs. destruct Hs as (a & Ha & _ & ->). eexists. by rewrite lookup_insert_eq.
Qed.

(** Evidence carried over from a smaller store; what is new is given. *)
Lemma evidence_le s s' :
  evidence s -> db_le (db s) (db s') ->
  (forall id m a typ reason, claims s' !! id = Some (CResolved m a true typ reason) ->
     claims s !! id = Some (CResolved m a true typ reason) \/ approved_in (db s') id) ->
  (forall id r, chans s' !! id = Some r -> r_Approved r = true ->
     chans s !! id = Some r \/ approved_in (db s') id) ->
  (forall id a err, reqs s' !! id = Some (a, PDone true err) ->
     (exists a0, reqs s !! id = Some (a0, PDone true err)) \/ approved_in (db s') id) ->
  (forall k v, resolvers s' !! k = Some v -> v_stored v = true -> v_approved v = true ->
     (exists k0, resolvers s !! k0 = Some v) \/ approved_in (db s') (v_id v)) ->
  evidence s'.
Proof.
  intros [H1 H2 H3 H4] Hle Hc Hh Hr Hv. split.
  - intros id m a typ reason H. destruct (Hc _ _ _ _ _ H); [|done].
    eapply approved_in_le; [exact Hle|eauto].
  - intros id r H Ha. destruct (Hh _ _ H Ha); [|done]. eapply approved_in_le; [exact Hle|eauto].
  - intros id a err H. destruct (Hr _ _ _ H) as [[? ?]|]; [|done].
    eapply approved_in_le; [exact Hle|eauto].
  - intros k v H Hst Ha. destruct (Hv _ _ H Hst Ha) as [[? ?]|]; [|done].
    eapply approved_in_le; [exact Hle|eauto].
Qed.

Lemma delete_lookup_Some {A} (l : list A) k k' (v : A) :
  delete k l !! k' = Some v -> exists k0, l !! k0 = Some v.
Proof.
  intros H%list_elem_of_lookup_2. apply list_elem_of_lookup.
  eapply elem_of_sublist; [exact H|]. apply sublist_delete.
Qed.

(** Open every lookup of an updated map or list in the context. *)
Ltac open_lookups :=
  repeat match goal with
  | H : @lookup _ _ (gmap _ _) _ _ (@insert _ _ (gmap _ _) _ _ _ _) = Some _ |- _ =>
      apply lookup_insert_Some in H as [[? ?]|[? ?]]
  | H : @lookup _ _ (gmap _ _) _ _ (@delete _ (gmap _ _) _ _ _) = Some _ |- _ =>
      apply lookup_delete_Some in H as [? ?]
  | H : @lookup _ _ (list _) _ _ (@delete _ (list _) _ _ _) = Some _ |- _ =>
      apply delete_lookup_Some in H as [? ?]
  | H : @lookup _ _ (list _) _ _ (@insert _ _ (list _) _ _ _ _) = Some _ |- _ =>
      apply list_lookup_insert_Some in H as [(? & ? & ?)|[? ?]]
  | H : @lookup _ _ (list _) _ _ (_ ++ _) = Some _ |- _ =>
      apply lookup_app_Some in H as [?|[? H]]
  | H : @lookup _ _ (list _) _ _ [_] = Some _ |- _ =>
      apply list_lookup_singleton_Some in H as [? ?]
  end; simplify_eq; cbn in *.

Lemma exec_evidence l s s' : evidence s -> exec l s = Some s' -> evidence s'.
Proof.
  intros He H. pose proof (exec_db_le _ _ _ H) as Hle.
  eapply evidence_le; [exact He|exact Hle|..]; clear Hle; destruct l; cbn [exec_action] in H.
  all: try (case_bool_decide; [|done]; injection H as <-;
    unfold RequestApproval, create_and; intros *; repeat case_match_goal; cbn; intros; open_lookups; eauto; fail).
  all: exec_cases H; resolve_ok; unfold pre_store; cbn;
    try (destruct (ResolveToolApproval fault now id _ sid typ reason (db s)) as [[] ?] eqn:?; cbn);
    intros; open_lookups; eauto.
  all: try match goal with H : true = ?b |- _ => destruct b eqn:?; [|discriminate H] end.
  all: try match goal with H : v_approved ?v = true |- _ => rewrite H in * end.
  all: try (right; eapply ResolveToolApproval_approved; eassumption).
  - right. bool_hyps. by eapply (ev_resolver _ He).
  - left. match goal with H : (_ ∪ _) !! _ = Some _ |- _ =>
      apply lookup_union_Some_raw in H as [H|[_ ?]]; [|done];
      by apply lookup_gset_to_gmap_Some in H as [_ ?] end.
  - right. subst. eapply (ev_claim _ He); eassumption.
  - right. subst. eapply (ev_chan _ He); eassumption.
Qed.

(** ** No self-approval *)

Definition internal_type (typ : string) : Prop := typ = "system" \/ typ = "afk-policy".

Definition row_ok (row : ToolApproval) : Prop :=
  Status row = "approved" ->
  ApproverSessionID row = "" \/ ApproverSessionID row <> RequestSessionID row \/
  internal_type (ApproverType row).

Definition resolver_ok (d : rows) (v : resolving) : Prop :=
  v_sid v = "" \/ exists row, d !! v_id v = Some row /\ v_sid v <> RequestSessionID row.

Record attributed (s : sys) : Prop := {
  at_row : forall id row, db s !! id = Some row -> row_ok row;
  at_pre : forall id a ok sid typ reason b,
    reqs s !! id = Some (a, PPre ok sid typ reason b) -> internal_type typ;
  at_resolver : forall k v, resolvers s !! k = Some v -> resolver_ok (db s) v;
}.

Lemma resolver_ok_le d d' v : db_le d d' -> resolver_ok d v -> resolver_ok d' v.
Proof.
  intros Hle [?|(row & Hr & Hne)]; [by left|right].
  destruct (Hle _ _ Hr) as (row' & ? & _ & Hs). exists row'. by rewrite Hs.
Qed.

Lemma ResolveToolApproval_rows fault now id st sid typ res d r d' :
  ResolveToolApproval fault now id st sid typ res d = (r, d') ->
  (forall id row, d !! id = Some row -> row_ok row) ->
  (st = "approved" -> internal_type typ \/ sid = "" \/
     forall a, d !! id = Some a -> sid <> RequestSessionID a) ->
  forall id row, d' !! id = Some row -> row_ok row.
Proof.
  intros H Hd Hst id' row Hr.
  pose proof (ResolveToolApproval_spec fault now id st sid typ res d) as Hs. rewrite H in Hs.
  destruct r as [u|e]; [|by subst; eauto]. destruct Hs as (a & Ha & _ & ->).
  apply lookup_insert_Some in Hr as [[<- <-]|[_ Hr]]; [|eauto].
  intros E. destruct (Hst E) as [?|[?|Hne]]; [by right; right|by left|right; left; cbn; auto].
Qed.

Lemma Resolve_check_spec id sid typ d a :
  Resolve_check id sid typ d = Ok a ->
  typ <> "" /\ d !! id = Some a /\ Status a = "pending" /\
  (sid = "" \/ sid <> RequestSessionID a).
Proof.
  unfold Resolve_check, GetToolApproval. intros H.
  destruct (d !! id) as [a0|];
  repeat (case_match_hyp H; try discriminate H); simplify_eq; bool_hyps.
  split_and!; try done.
  match goal with E : negb _ && _ = false |- _ => apply andb_false_iff in E as [E|E] end;
    bool_hyps; [by left|by right].
Qed.

Lemma attributed_create fault uuid now a ph s :
  attributed s -> Status a = "" \/ Status a = "pending" ->
  (forall ok sid typ reason b, ph = PPre ok sid typ reason b -> internal_type typ) ->
  attributed (create_and fault uuid now a ph s).
Proof.
  intros [Hr Hp Hv] Hst Hph. unfold create_and.
  pose proof (CreateToolApproval_spec fault uuid now a (db s)) as Hs.
  pose proof (CreateToolApproval_le fault uuid now a (db s)) as Hle.
  destruct (CreateToolApproval _ _ _ _ _) as [[a'|e] d]; cbn in Hle; [|by subst; split].
  destruct Hs as (-> & Hn & ->). split; cbn.
  - intros id row Hl. open_lookups; [|eauto].
    intros E. cbn in E. destruct Hst as [Hst|Hst]; rewrite Hst in E; cbn in E; discriminate E.
  - intros id a' ok sid typ reason b Hl. open_lookups; eauto.
  - intros k v Hl. eapply resolver_ok_le; [exact Hle|eauto].
Qed.

Lemma attributed_hit hs s : attributed s -> attributed (hit hs s).
Proof. intros [? ? ?]. by split. Qed.

Lemma exec_attributed l s s' : attributed s -> exec l s = Some s' -> attributed s'.
Proof.
  intros Ha H. pose proof (exec_db_le _ _ _ H) as Hle. pose proof Ha as [Hr Hp Hv].
  destruct l; cbn [exec_action] in H.
  1: {
    case_bool_decide as Hst; [|done]. injection H as <-. unfold RequestApproval.
    destruct (dangerous m).
    { apply attributed_create; [done|by right|]. intros * [= <- <- <- <- <-]. by left. }
    destruct (tryResolveSync _ _ _) as [[[[? ?] ?]|] hs].
    - apply attributed_create; [by apply attributed_hit|by right|].
      intros * [= <- <- <- <- <-]. by right.
    - by apply attributed_create; [apply attributed_hit| |]. }
  all: split;
    [clear Hle|clear Hle|intros k0 v0 Hl; eapply resolver_ok_le; [exact Hle|]; clear Hle].
  all: exec_cases H; resolve_ok; unfold pre_store in *; cbn in *;
    try (destruct (ResolveToolApproval fault now id _ sid typ reason (db s)) as [[] ?] eqn:?; cbn in *);
    intros; open_lookups; eauto.
  all: try match goal with E : ResolveToolApproval _ _ _ _ _ _ _ _ = (_, ?d'), L : ?d' !! _ = Some _ |- _ =>
    eapply (ResolveToolApproval_rows _ _ _ _ _ _ _ _ _ _ E); [eassumption| |exact L] end.
  all: try (intros E; discriminate E).
  all: try (intros _; left; by eapply Hp).
  1, 2: match goal with E : Resolve_check _ _ _ _ = Ok _ |- _ =>
    apply Resolve_check_spec in E as (_ & ? & _ & [?|?]); [by left|right; eauto] end.
  1, 2: match goal with E : resolvers _ !! _ = Some ?v |- _ =>
    destruct (Hv _ _ E) as [?|(row0 & Hrow & ?)]; [by right; left|right; right] end;
    intros a'; rewrite Hrow; by intros [= <-].
  1: match goal with E : resolvers _ !! _ = Some ?v |- _ => exact (Hv _ _ E) end.
  unfold ExpirePendingApprovals in *. destruct fault; [eauto|].
  match goal with E : (_ <$> _) !! _ = Some _ |- _ =>
    apply lookup_fmap_Some in E as (a0 & <- & E); pose proof (Hr _ _ E) as Hok end.
  unfold expire_row. destruct (_ && _); [intros E'; discriminate E'|exact Hok].
Qed.

(** ** Reachable states *)

Lemma reachable_ind (P : sys -> Prop) :
  P init_sys -> (forall l s s', P s -> exec l s = Some s' -> P s') ->
  forall s, reachable redact s -> P s.
Proof.
  intros H0 HS s [ls Hls]. revert H0 Hls. generalize init_sys.
  induction ls as [|l ls IH]; intros s0 H0 Hls; [by injection Hls as <-|].
  cbn in Hls. destruct (exec l s0) as [s1|] eqn:E; [|done]. eapply IH; [|exact Hls]. by eapply HS.
Qed.

Lemma reachable_inv s : reachable redact s -> inv s.
Proof.
  revert s. apply reachable_ind; [|intros; by eapply exec_inv].
  split; [done|]. intros id a ph H. cbn in H. by rewrite lookup_empty in H.
Qed.

Lemma reachable_evidence s : reachable redact s -> evidence s.
Proof.
  revert s. apply reachable_ind; [|intros; by eapply exec_evidence].
  split; intros *; cbn; rewrite ?lookup_empty, ?lookup_nil; done.
Qed.

Lemma reachable_attributed s : reachable redact s -> attributed s.
Proof.
  revert s. apply reachable_ind; [|intros; by eapply exec_attributed].
  split; intros *; cbn; rewrite ?lookup_empty, ?lookup_nil; done.
Qed.

(** C22: a requester that is told its call is approved has an approved row in the
    store, and no other goroutine changes that row afterwards. *)
Theorem approved_means_stored (s s' : sys) (ls : list label) (id : string)
    (a : ToolApproval) (err : bool) (Hs : reachable redact s)
    (Hdone : reqs s !! id = Some (a, PDone true err)) (Hrun : run ls s = Some s') :
  exists row, db s' !! id = Some row /\ Status row = "approved".
Proof.
  pose proof (ev_done _ (reachable_evidence _ Hs) _ _ _ Hdone) as H.
  by eapply approved_in_le; [eapply run_db_le|].
Qed.

(** a verdict is final: once a row has left the pending status, no interleaving
    of requests, timers, cancellations, resolutions, shutdown and expiry changes it,
    whatever store calls fail; rows never disappear or change requester. *)
Theorem verdict_is_final (s s' : sys) (ls : list label) (id : string) (row : ToolApproval)
    (Hrow : db s !! id = Some row) (Hrun : run ls s = Some s') :
  exists row', db s' !! id = Some row' /\ RequestSessionID row' = RequestSessionID row /\
               (Status row <> "pending" -> row' = row).
Proof. destruct (run_db_le _ _ _ Hrun _ _ Hrow) as (row' & ? & ? & ?). eauto. Qed.

(** C21: no self-approval: an approved row that names an approver session names
    another session than the requester's, unless the approver is the policy
    resolver or the dangerous-mode bypass. *)
Theorem no_self_approval (s : sys) (id : string) (row : ToolApproval)
    (Hs : reachable redact s) (Hrow : db s !! id = Some row) (Happ : Status row = "approved") :
  ApproverSessionID row = "" \/ ApproverSessionID row <> RequestSessionID row \/
  ApproverType row = "system" \/ ApproverType row = "afk-policy".
Proof. exact (at_row _ (reachable_attributed _ Hs) _ _ Hrow Happ). Qed.

Definition finished (s : sys) (id : string) : Prop :=
  exists a ok err, reqs s !! id = Some (a, PDone ok err).

(** Receiving the message in the channel. *)
Lemma wake s id a :
  reqs s !! id = Some (a, PWaiting) -> is_Some (chans s !! id) ->
  exists s', exec (LReceive id) s = Some s' /\ finished s' id.
Proof.
  intros Hr [r Hc]. cbn [exec_action]. rewrite Hr, Hc. eexists. split; [done|].
  unfold finished. cbn. rewrite lookup_insert_eq. eauto.
Qed.

(** Sending a message whose owner is ready. *)
Lemma send_and_wake s id a c :
  reqs s !! id = Some (a, PWaiting) -> claims s !! id = Some c -> chans s !! id = None ->
  match c with CTimer | CShutdown => False | _ => True end ->
  exists s', run [LSend id; LReceive id] s = Some s' /\ finished s' id.
Proof.
  intros Hr Hc Hh Hok.
  change (exists s', (s1 ← exec (LSend id) s; s2 ← exec (LReceive id) s1; Some s2) = Some s' /\ finished s' id).
  cbn [exec_action]. rewrite Hc, Hh.
  destruct c; try done; cbn; rewrite lookup_insert_eq, Hr; eexists; (split; [reflexivity|]);
    unfold finished; cbn; rewrite lookup_insert_eq; eauto.
Qed.

(** Actions that need no outside help: those of the timer of [id], of a Shutdown
    under way and of the requester. *)
Definition own_action (id : string) (l : label) : Prop :=
  match l with
  | LTimer i | LTimerStore _ i _ _ | LSend i | LReceive i | LShutdownStore i _ _ => i = id
  | _ => False
  end.

Definition can_finish (s : sys) (id : string) : Prop :=
  exists ls s', Forall (own_action id) ls /\ run ls s = Some s' /\ finished s' id.

Lemma run_one l s s' : exec l s = Some s' -> run [l] s = Some s'.
Proof. intros H. change ((s1 ← exec l s; Some s1) = Some s'). by rewrite H. Qed.

Lemma can_finish_step s s1 l id :
  own_action id l -> exec l s = Some s1 -> can_finish s1 id -> can_finish s id.
Proof.
  intros Ho He (ls & s' & Hls & Hrun & Hf). exists (l :: ls), s'. split_and!; [by constructor| |done].
  change ((s2 ← exec l s; run ls s2) = Some s'). by rewrite He.
Qed.

Lemma can_finish_sendable s id a c :
  reqs s !! id = Some (a, PWaiting) -> claims s !! id = Some c -> chans s !! id = None ->
  match c with CTimer | CShutdown => False | _ => True end -> can_finish s id.
Proof.
  intros Hr Hc Hh Hok. destruct (send_and_wake s id a c Hr Hc Hh Hok) as (s' & ? & ?).
  exists [LSend id; LReceive id], s'. split_and!; [by repeat constructor|done|done].
Qed.

Lemma can_finish_timer s id a :
  reqs s !! id = Some (a, PWaiting) -> claims s !! id = Some CTimer -> chans s !! id = None ->
  can_finish s id.
Proof.
  intros Hr Hc Hh.
  destruct (ResolveToolApproval false 0 id "timeout" "" "system" "timed out" (db s)) as [r d] eqn:E.
  eapply (can_finish_step _ _ (LTimerStore {| dangerous := false; policy := None; has_bus := false;
                                              has_notify := false |} id 0 false)); [done| |].
  - cbn [exec_action]. rewrite Hc, Hr, E. reflexivity.
  - eapply can_finish_sendable; cbn; [by rewrite lookup_insert_eq|by rewrite lookup_insert_eq|done|done].
Qed.

(** No lost wake-up and no blocked send: a request waiting in its select can
    always be brought to an end by its own timer or by the goroutine that took it
    out of the pending map, whatever happened before and without any further
    human or policy decision. *)
Theorem waiting_can_finish (s : sys) (id : string) (a : ToolApproval)
    (Hs : reachable redact s) (Hw : reqs s !! id = Some (a, PWaiting)) :
  can_finish s id.
Proof.
  pose proof (inv_tokens _ (reachable_inv _ Hs) id) as Ht. unfold tokens in Ht. rewrite Hw in Ht.
  cbn in Ht. destruct (bool_decide (id ∈ pending s)) eqn:Hp, (claims s !! id) as [c|] eqn:Hc,
    (chans s !! id) as [r|] eqn:Hh; try done; bool_hyps.
  - eapply (can_finish_step _ _ (LTimer id)); [done|cbn [exec_action]; by rewrite bool_decide_eq_true_2 by done|].
    apply (can_finish_timer _ _ a); cbn; [done|by rewrite lookup_insert_eq|done].
  - destruct c; [by eapply can_finish_timer|by eapply can_finish_sendable| |by eapply can_finish_sendable..].
    destruct (ResolveToolApproval false 0 id "cancelled" "" "system" "server shutdown" (db s)) as [r d] eqn:E.
    eapply (can_finish_step _ _ (LShutdownStore id 0 false)); [done| |].
    + cbn [exec_action]. rewrite Hc, E. reflexivity.
    + eapply can_finish_sendable; cbn; [done|by rewrite lookup_insert_eq|done|done].
  - destruct (wake s id a Hw) as (s' & ? & ?); [by rewrite Hh|].
    exists [LReceive id], s'. split_and!; [by repeat constructor|by apply run_one|done].
Qed.
End ManagerProofs.

(** ** Runs *)

Definition plain_manager : Manager :=
  {| dangerous := false; policy := None; has_bus := true; has_notify := true |}.

Definition run_ (ls : list label) : option sys := run id ls init_sys.

Definition outcome_of (s : option sys) (i : string) : option (string * option (string * phase)) :=
  s ← s; row ← db s !! i; Some (Status row, (fun '(a, ph) => (Status a, ph)) <$> reqs s !! i).

Definition req1 : ToolApproval := shell_approval "shell:git" "".

(** The dashboard approves in time. *)
Definition approve_run : list label :=
  [LRequest plain_manager "u" 1 false req1; LRegister plain_manager "a1";
   LResolve plain_manager "a1" "dash" "dashboard" "ok" true; LResolveStore 0 2 false;
   LResolveClaim 0; LSend "a1"; LReceive "a1"].

Example approve_run_ok :
  outcome_of (run_ approve_run) "a1" = Some ("approved", Some ("approved", PDone true false)).
Proof. reflexivity. Qed.

(** The timer takes the request while a Resolve call is between its store update and
    its look at the pending map: the store and the dashboard say approved, the
    requester is told that it timed out. *)
Definition race_run : list label :=
  [LRequest plain_manager "u" 1 false req1; LRegister plain_manager "a1";
   LResolve plain_manager "a1" "dash" "dashboard" "ok" true; LResolveStore 0 2 false;
   LTimer "a1"; LResolveClaim 0; LTimerStore plain_manager "a1" 3 false; LSend "a1"; LReceive "a1"].

Example timeout_race :
  outcome_of (run_ race_run) "a1" = Some ("approved", Some ("denied", PDone false false)).
Proof. reflexivity. Qed.

(** A plain timeout: the timer sets the caller's status to timeout, and the receive
    branch overwrites it with denied. *)
Example timeout_status_overwritten :
  outcome_of (run_ [LRequest plain_manager "u" 1 false req1; LRegister plain_manager "a1"; LTimer "a1";
                    LTimerStore plain_manager "a1" 3 false; LSend "a1"; LReceive "a1"]) "a1" =
  Some ("timeout", Some ("denied", PDone false false)).
Proof. reflexivity. Qed.

(** ** Witnesses *)

Definition state_after (ls : list label) : sys := default init_sys (run_ ls).
Definition caller_struct (s : sys) (i : string) : ToolApproval := default req1 (fst <$> reqs s !! i).

Lemma approved_means_stored_witness :
  exists row, db (state_after approve_run) !! "a1" = Some row /\ Status row = "approved".
Proof.
  apply (approved_means_stored id (state_after approve_run) (state_after approve_run) [] "a1"
           (caller_struct (state_after approve_run) "a1") false).
  - exists approve_run. by vm_compute.
  - by vm_compute.
  - reflexivity.
Defined.

Lemma verdict_is_final_witness :
  exists row', db (state_after race_run) !! "a1" = Some row' /\ RequestSessionID row' = "s1" /\
               ("approved" <> "pending" -> Status row' = "approved").
Proof.
  destruct (verdict_is_final id (state_after (take 4 race_run)) (state_after race_run) (drop 4 race_run)
    "a1" (default req1 (db (state_after (take 4 race_run)) !! "a1"))) as (row' & H1 & H2 & H3);
    [by vm_compute|by vm_compute|].
  exists row'. split; [exact H1|]. split; [by rewrite H2; vm_compute|].
  intros _. rewrite H3; [by vm_compute|]. vm_compute. intros [=].
Defined.

Lemma no_self_approval_witness :
  let row := default req1 (db (state_after approve_run) !! "a1") in
  ApproverSessionID row = "" \/ ApproverSessionID row <> RequestSessionID row \/
  ApproverType row = "system" \/ ApproverType row = "afk-policy".
Proof.
  intros row. apply (no_self_approval id (state_after approve_run) "a1" row).
  - exists approve_run. by vm_compute.
  - by vm_compute.
  - by vm_compute.
Defined.

Lemma waiting_can_finish_witness :
  can_finish id (state_after (take 5 race_run)) "a1".
Proof.
  apply (waiting_can_finish id (state_after (take 5 race_run)) "a1"
           (caller_struct (state_after (take 5 race_run)) "a1")).
  - exists (take 5 race_run). by vm_compute.
  - by vm_compute.
Defined.
