(* ===== verification/Replication.v ===== *)
(** Silent replication to same-user peers: [internal/replication].

    The coordinator keeps one bounded, deduplicated queue per peer.  Events are
    enqueued by the hooks, a ticker drains every queue, and one goroutine per peer
    pushes its items in order.  The tier resolver, the paired-peer list and the
    workspace links are the [Env] an event is handled in, so they may change from
    event to event.  The two critical sections of enqueueOne are one action: a queue
    is never removed from the map, so nothing can happen to it in between. *)

From Stdlib Require Import Ascii String.
From stdpp Require Import gmap strings.
From S2P Require Import Prelude GoStrings.

#[local] Open Scope string_scope.
#[local] Open Scope list_scope.

(** ** Data: types.go *)

Inductive EventKind := EventKindMemory | EventKindSkill | EventKindTask.

#[export] Instance EventKind_eq_dec : EqDecision EventKind.
Proof. solve_decision. Defined.

Definition kind_string (k : EventKind) : string :=
  match k with EventKindMemory => "memory" | EventKindSkill => "skill" | EventKindTask => "task" end.

Record Item := { Kind : EventKind; ID : string; WorkspaceID : string }.

#[export] Instance Item_eq_dec : EqDecision Item.
Proof. solve_decision. Defined.

Record PeerInfo := { PeerID : string; Scopes : list string }.

Definition HasScope (p : PeerInfo) (name : string) : bool :=
  existsb (fun s => bool_decide (s = name)) (Scopes p).

Definition ReplicationOptOutScope := "mesh.auto_replicate_off".
Definition kindMemoryWrite := "write".

Inductive Tier := TierSameUser | TierSameOrg | TierCrossOrg.

#[export] Instance Tier_eq_dec : EqDecision Tier.
Proof. solve_decision. Defined.

(** The coordinator's dependencies at the time of an event. *)
Record Env := {
  TierFor : string -> Tier;
  ListActivePairedPeers : result string (list PeerInfo);
  LinkedPeersForWorkspace : string -> result string (list string);
}.

Definition maxQueueDepth : nat := 128.

Record peerQueue := { items : list Item; seen : gset string }.

Definition empty_queue : peerQueue := {| items := []; seen := ∅ |}.

(** [wired] is SetTaskReplication with both dependencies; [loops] counts the ticker
    goroutines, [doneClosed] is the state of doneCh. *)
Record Coordinator := {
  queues : gmap string peerQueue;
  closed : bool;
  wired : bool;
  loops : nat;
  doneClosed : bool;
}.

Definition NewCoordinator : Coordinator :=
  {| queues := ∅; closed := false; wired := false; loops := 0; doneClosed := false |}.

Definition set_queues (q : gmap string peerQueue) (c : Coordinator) : Coordinator :=
  {| queues := q; closed := closed c; wired := wired c; loops := loops c; doneClosed := doneClosed c |}.

(** ** The queues: queue.go *)

Definition itemKey (it : Item) : string :=
  kind_string (Kind it) +:+ ":" +:+ WorkspaceID it +:+ ":" +:+ ID it.

Definition push_item (q : peerQueue) (item : Item) : peerQueue :=
  let key := itemKey item in
  if bool_decide (key ∈ seen q) then q else
  let q := if Nat.leb maxQueueDepth (length (items q))
           then match items q with
                | it0 :: rest => {| items := rest; seen := seen q ∖ {[itemKey it0]} |}
                | [] => q
                end
           else q in
  {| items := items q ++ [item]; seen := seen q ∪ {[key]} |}.

Definition enqueueOne (peerID : string) (item : Item) (c : Coordinator) : Coordinator :=
  let q := default empty_queue (queues c !! peerID) in
  set_queues (<[peerID := push_item q item]> (queues c)) c.

Definition tier1_target (env : Env) (p : PeerInfo) : bool :=
  negb (bool_decide (PeerID p = "")) && negb (HasScope p ReplicationOptOutScope)
  && bool_decide (TierFor env (PeerID p) = TierSameUser).

Definition enqueueForTier1Peers (env : Env) (item : Item) (c : Coordinator) : Coordinator :=
  match ListActivePairedPeers env with
  | Err _ => c
  | Ok peers =>
      fold_left (fun c p => if tier1_target env p then enqueueOne (PeerID p) item c else c) peers c
  end.

Definition linked_target (linked : list string) (p : PeerInfo) : bool :=
  negb (bool_decide (PeerID p = "")) && bool_decide (PeerID p ∈ linked)
  && negb (HasScope p ReplicationOptOutScope).

Definition enqueueForLinkedPeers (env : Env) (workspaceID : string) (item : Item) (c : Coordinator)
  : Coordinator :=
  match LinkedPeersForWorkspace env workspaceID with
  | Err _ => c
  | Ok [] => c
  | Ok linked =>
      match ListActivePairedPeers env with
      | Err _ => c
      | Ok peers =>
          fold_left (fun c p => if linked_target linked p then enqueueOne (PeerID p) item c else c) peers c
      end
  end.

(** The pushes dispatchOnePeer attempts, in order. *)
Inductive push :=
  | PushMemory (peerID memoryID : string)
  | PushSkill (peerID skillName : string)
  | PushTask (peerID workspaceID taskID : string).

Definition push_of (task_wired : bool) (peerID : string) (it : Item) : option push :=
  match Kind it with
  | EventKindMemory => Some (PushMemory peerID (ID it))
  | EventKindSkill => Some (PushSkill peerID (ID it))
  | EventKindTask => if task_wired then Some (PushTask peerID (WorkspaceID it) (ID it)) else None
  end.

Definition dispatchOnePeer (task_wired : bool) (peerID : string) (l : list Item) : list push :=
  omap (push_of task_wired peerID) l.

Definition drain_queue (q : peerQueue) : peerQueue :=
  match items q with [] => q | _ => empty_queue end.

(** The new state, and the items handed to each peer's goroutine. *)
Definition drain (c : Coordinator) : gmap string (list Item) * Coordinator :=
  (omap (fun q => match items q with [] => None | l => Some l end) (queues c),
   set_queues (drain_queue <$> queues c) c).

(** ** The hooks and the life cycle: replication.go *)

Definition OnMemoryEvent (env : Env) (kind memoryID source : string) (c : Coordinator) : Coordinator :=
  if closed c then c
  else if negb (bool_decide (kind = kindMemoryWrite)) then c
  else if bool_decide (source = "peer") then c
  else if bool_decide (memoryID = "") then c
  else enqueueForTier1Peers env {| Kind := EventKindMemory; ID := memoryID; WorkspaceID := "" |} c.

Definition OnSkillInstall (env : Env) (skillName : string) (peerOriginInstall : bool) (c : Coordinator)
  : Coordinator :=
  if closed c then c
  else if peerOriginInstall then c
  else if bool_decide (skillName = "") then c
  else enqueueForTier1Peers env {| Kind := EventKindSkill; ID := skillName; WorkspaceID := "" |} c.

Definition OnTaskEvent (env : Env) (workspaceID taskID source : string) (c : Coordinator) : Coordinator :=
  if closed c then c
  else if negb (wired c) then c
  else if bool_decide (source = "peer") then c
  else if bool_decide (workspaceID = "") || bool_decide (taskID = "") then c
  else enqueueForLinkedPeers env workspaceID
         {| Kind := EventKindTask; ID := taskID; WorkspaceID := workspaceID |} c.

Definition SetTaskReplication (both : bool) (c : Coordinator) : Coordinator :=
  {| queues := queues c; closed := closed c; wired := both; loops := loops c; doneClosed := doneClosed c |}.

Definition QueueDepth (peerID : string) (c : Coordinator) : nat :=
  match queues c !! peerID with Some q => length (items q) | None => 0 end.

Definition Start (c : Coordinator) : Coordinator :=
  {| queues := queues c; closed := closed c; wired := wired c; loops := S (loops c);
     doneClosed := doneClosed c |}.

Definition Stop (c : Coordinator) : Coordinator :=
  {| queues := queues c; closed := true; wired := wired c; loops := loops c; doneClosed := doneClosed c |}.

(** A ticker goroutine leaves its loop and closes doneCh; closing it twice panics
    ([None]). *)
Definition loop_exit (c : Coordinator) : option Coordinator :=
  match loops c with
  | O => Some c
  | S n =>
      if doneClosed c then None
      else Some {| queues := queues c; closed := closed c; wired := wired c; loops := n; doneClosed := true |}
  end.

(** ** One queue *)

Record queue_ok (q : peerQueue) : Prop := {
  ok_nodup : NoDup (map itemKey (items q));
  ok_seen : forall k, k ∈ seen q <-> k ∈ map itemKey (items q);
  ok_depth : (length (items q) <= maxQueueDepth)%nat;
}.

Lemma empty_queue_ok : queue_ok empty_queue.
Proof. split; cbn; [constructor|set_solver|unfold maxQueueDepth; lia]. Qed.

(** Dropping the oldest item of a full queue. *)
Lemma queue_ok_tail it0 rest s :
  queue_ok {| items := it0 :: rest; seen := s |} ->
  queue_ok {| items := rest; seen := s ∖ {[itemKey it0]} |}.
Proof.
  intros [Hn Hs Hd]. cbn in *. apply NoDup_cons in Hn as [Hni Hn].
  split; cbn; [done| |lia]. intros k. rewrite elem_of_difference, Hs, elem_of_cons.
  split; [set_solver|]. intros Hk. split; [by right|]. intros ->%elem_of_singleton. done.
Qed.

Lemma queue_ok_snoc q it :
  queue_ok q -> itemKey it ∉ seen q -> (length (items q) < maxQueueDepth)%nat ->
  queue_ok {| items := items q ++ [it]; seen := seen q ∪ {[itemKey it]} |}.
Proof.
  intros [Hn Hs Hd] Hni Hlt. split; cbn.
  - rewrite map_app. apply NoDup_app. split_and!; [done| |apply NoDup_singleton].
    intros k Hk Hk'. cbn in Hk'. apply list_elem_of_singleton in Hk' as ->. by apply Hni, Hs.
  - intros k. rewrite map_app, elem_of_union, elem_of_app, Hs, elem_of_singleton. cbn.
    by rewrite list_elem_of_singleton.
  - rewrite length_app. cbn. lia.
Qed.

(** The queue after a push: unchanged for a known key, else the item behind the
    last 127 ones. *)
Lemma push_item_items q it :
  queue_ok q ->
  items (push_item q it) =
  if bool_decide (itemKey it ∈ seen q) then items q
  else drop (length (items q) + 1 - maxQueueDepth) (items q ++ [it]).
Proof.
  intros [_ _ Hd]. unfold push_item. case_bool_decide; [done|].
  destruct (Nat.leb_spec maxQueueDepth (length (items q))) as [Hle|Hlt].
  - destruct (items q) as [|it0 rest] eqn:E; [cbn in Hle; unfold maxQueueDepth in Hle; lia|].
    cbn [items]. replace (length (it0 :: rest) + 1 - maxQueueDepth)%nat with 1%nat
      by (unfold maxQueueDepth in *; cbn in *; lia). done.
  - cbn [items]. by replace (length (items q) + 1 - maxQueueDepth)%nat with 0%nat by lia.
Qed.

Lemma push_item_ok q it : queue_ok q -> queue_ok (push_item q it).
Proof.
  intros Hq. unfold push_item. case_bool_decide as Hk; [done|].
  destruct (Nat.leb_spec maxQueueDepth (length (items q))) as [Hle|Hlt]; [|by apply queue_ok_snoc].
  destruct q as [l s]. cbn [items seen] in *. destruct l as [|it0 rest].
  { cbn in Hle. unfold maxQueueDepth in Hle. lia. }
  pose proof (queue_ok_tail _ _ _ Hq) as Hq'. pose proof (ok_depth _ Hq) as Hd. cbn in Hd.
  apply (queue_ok_snoc {| items := rest; seen := s ∖ {[itemKey it0]} |}); [done| |cbn in *; lia].
  cbn. set_solver.
Qed.

Lemma push_item_in q it :
  queue_ok q -> itemKey it ∈ map itemKey (items (push_item q it)).
Proof.
  intros Hq. pose proof (ok_seen _ (push_item_ok q it Hq)) as H. apply H. unfold push_item.
  case_bool_decide; [done|]. cbn. set_solver.
Qed.

Lemma push_item_elem q it x :
  x ∈ items (push_item q it) -> x ∈ items q \/ x = it.
Proof.
  unfold push_item. case_bool_decide; [by left|].
  destruct (Nat.leb _ _); [destruct (items q) as [|it0 rest] eqn:E|]; cbn [items];
    rewrite ?E, elem_of_app, list_elem_of_singleton; [set_solver..].
Qed.

(** Overflow drops the oldest items first and never reorders: enqueueing items
    whose keys are new and distinct leaves the last 128 of the backlog followed by
    them, in order. *)
Theorem overflow_keeps_newest (l : list Item) (q : peerQueue)
    (Hq : queue_ok q) (Hnew : NoDup (map itemKey (items q) ++ map itemKey l)) :
  items (fold_left push_item l q) =
  drop (length (items q) + length l - maxQueueDepth) (items q ++ l).
Proof.
  revert q Hq Hnew. induction l as [|it l IH]; intros q Hq Hnew.
  - cbn. rewrite app_nil_r. pose proof (ok_depth _ Hq).
    by replace (length (items q) + 0 - maxQueueDepth)%nat with 0%nat by lia.
  - cbn [fold_left]. pose proof (push_item_items q it Hq) as Hi. pose proof (ok_depth _ Hq) as Hd.
    change (map itemKey (it :: l)) with ([itemKey it] ++ map itemKey l) in Hnew.
    rewrite (app_assoc _ [itemKey it]) in Hnew.
    rewrite bool_decide_eq_false_2 in Hi.
    2: { rewrite (ok_seen _ Hq). apply NoDup_app in Hnew as [Hnew _].
         apply NoDup_app in Hnew as (_ & Hnew & _). intros H. by apply (Hnew _ H), list_elem_of_singleton. }
    rewrite IH.
    + rewrite Hi, length_drop, length_app. cbn [length].
      rewrite <- (drop_app_le (items q ++ [it]) l) by (rewrite length_app; cbn; unfold maxQueueDepth; lia).
      rewrite drop_drop, <- app_assoc. cbn [app]. f_equal. lia.
    + by apply push_item_ok.
    + rewrite Hi. apply NoDup_app in Hnew as (H1 & H2 & H3). apply NoDup_app. split_and!.
      * change [itemKey it] with (map itemKey [it]) in H1. rewrite <- map_app in H1.
        rewrite <- (take_drop (length (items q) + 1 - maxQueueDepth) (items q ++ [it])), map_app in H1.
        by apply NoDup_app in H1 as (_ & _ & H1).
      * intros k Hk. apply H2. change [itemKey it] with (map itemKey [it]). rewrite <- map_app.
        rewrite <- (take_drop (length (items q) + 1 - maxQueueDepth) (items q ++ [it])), map_app.
        apply elem_of_app. by right.
      * done.
Qed.

(** ** Runs of the coordinator *)

Inductive event :=
  | EMemory (env : Env) (kind memoryID source : string)
  | ESkill (env : Env) (skillName : string) (peerOriginInstall : bool)
  | ETask (env : Env) (workspaceID taskID source : string)
  | EWire (both : bool)
  | EStop
  | EDrain.

(** The pushes attempted by a drain; the peers' goroutines are taken in any order. *)
Definition drain_pushes (c : Coordinator) : list push :=
  flat_map (fun '(p, l) => dispatchOnePeer (wired c) p l) (map_to_list (fst (drain c))).

Definition step (ev : event) (c : Coordinator) : list push * Coordinator :=
  match ev with
  | EMemory env kind id src => ([], OnMemoryEvent env kind id src c)
  | ESkill env name origin => ([], OnSkillInstall env name origin c)
  | ETask env ws id src => ([], OnTaskEvent env ws id src c)
  | EWire both => ([], SetTaskReplication both c)
  | EStop => ([], Stop c)
  | EDrain => (drain_pushes c, snd (drain c))
  end.

Fixpoint run (evs : list event) (c : Coordinator) : list push * Coordinator :=
  match evs with
  | [] => ([], c)
  | ev :: evs' => let '(ps, c1) := step ev c in let '(ps', c2) := run evs' c1 in (ps ++ ps', c2)
  end.

(** A paired peer that did not opt out. *)
Definition paired (env : Env) (peer : string) : Prop :=
  peer <> "" /\ exists peers info, ListActivePairedPeers env = Ok peers /\ info ∈ peers /\
    PeerID info = peer /\ HasScope info ReplicationOptOutScope = false.

(** The local event [ev] entitles [peer] to the item [it]. *)
Definition wants (ev : event) (peer : string) (it : Item) : Prop :=
  match ev with
  | EMemory env kind id src =>
      it = {| Kind := EventKindMemory; ID := id; WorkspaceID := "" |} /\
      kind = "write" /\ src <> "peer" /\ id <> "" /\ paired env peer /\ TierFor env peer = TierSameUser
  | ESkill env name origin =>
      it = {| Kind := EventKindSkill; ID := name; WorkspaceID := "" |} /\
      origin = false /\ name <> "" /\ paired env peer /\ TierFor env peer = TierSameUser
  | ETask env ws id src =>
      it = {| Kind := EventKindTask; ID := id; WorkspaceID := ws |} /\
      src <> "peer" /\ ws <> "" /\ id <> "" /\ paired env peer /\
      exists linked, LinkedPeersForWorkspace env ws = Ok linked /\ peer ∈ linked
  | _ => False
  end.

Lemma fold_enqueue_lookup (f : PeerInfo -> bool) item peers c p :
  queues (fold_left (fun c p => if f p then enqueueOne (PeerID p) item c else c) peers c) !! p =
  if existsb (fun i => f i && bool_decide (PeerID i = p)) peers
  then Some (push_item (default empty_queue (queues c !! p)) item)
  else queues c !! p.
Proof.
  assert (forall q, push_item (push_item q item) item = push_item q item) as Hidem.
  { intros q. unfold push_item at 1. rewrite bool_decide_eq_true_2; [done|].
    unfold push_item. case_bool_decide; [done|]. cbn. set_solver. }
  revert c. induction peers as [|i peers IH]; intros c; [done|]. cbn [fold_left existsb].
  rewrite IH. destruct (f i); [|done]. cbn [andb]. unfold enqueueOne. cbn [queues set_queues].
  destruct (bool_decide (PeerID i = p)) eqn:E; bool_hyps.
  - subst p. rewrite lookup_insert_eq. cbn. rewrite Hidem. by destruct (existsb _ _).
  - by rewrite lookup_insert_ne.
Qed.

Lemma fold_enqueue_meta (f : PeerInfo -> bool) item peers c :
  let c' := fold_left (fun c p => if f p then enqueueOne (PeerID p) item c else c) peers c in
  closed c' = closed c /\ wired c' = wired c.
Proof.
  revert c. induction peers as [|i peers IH]; intros c; [done|]. cbn.
  destruct (IH (if f i then enqueueOne (PeerID i) item c else c)) as [-> ->]. by destruct (f i).
Qed.

(** What a step does to a peer's queue. *)
Inductive queue_change (ev : event) (p : string) (q q' : peerQueue) : Prop :=
  | unchanged : q' = q -> queue_change ev p q q'
  | emptied : ev = EDrain -> items q' = [] -> queue_ok q' -> queue_change ev p q q'
  | pushed it : wants ev p it -> q' = push_item q it -> queue_change ev p q q'.

Definition queue_of (c : Coordinator) (p : string) : peerQueue := default empty_queue (queues c !! p).

Lemma paired_target (env : Env) peers i p :
  ListActivePairedPeers env = Ok peers -> i ∈ peers -> PeerID i = p -> p <> "" ->
  HasScope i ReplicationOptOutScope = false -> paired env p.
Proof. intros. split; [done|]. by exists peers, i. Qed.

Lemma step_queue ev c p :
  (forall p q, queues c !! p = Some q -> queue_ok q) ->
  queue_change ev p (queue_of c p) (queue_of (snd (step ev c)) p).
Proof.
  intros Hok. destruct ev as [env kind id src|env name origin|env ws id src|both| |]; cbn [step snd].
  - unfold OnMemoryEvent. repeat (case_match_goal; [by apply unchanged|]). bool_hyps.
    unfold enqueueForTier1Peers. destruct (ListActivePairedPeers env) as [peers|] eqn:Ep; [|by apply unchanged].
    unfold queue_of at 2. rewrite fold_enqueue_lookup.
    destruct (existsb _ peers) eqn:E; [|by apply unchanged].
    apply existsb_elem in E as (i & Hi & Ht). unfold tier1_target in Ht. bool_hyps. subst p.
    eapply pushed; [|done]. split_and!; [done..| |done]. by eapply paired_target.
  - unfold OnSkillInstall. repeat (case_match_goal; [by apply unchanged|]). bool_hyps.
    unfold enqueueForTier1Peers. destruct (ListActivePairedPeers env) as [peers|] eqn:Ep; [|by apply unchanged].
    unfold queue_of at 2. rewrite fold_enqueue_lookup.
    destruct (existsb _ peers) eqn:E; [|by apply unchanged].
    apply existsb_elem in E as (i & Hi & Ht). unfold tier1_target in Ht. bool_hyps. subst p.
    eapply pushed; [|done]. split_and!; [done..| |done]. by eapply paired_target.
  - unfold OnTaskEvent. repeat (case_match_goal; [by apply unchanged|]). bool_hyps.
    unfold enqueueForLinkedPeers.
    destruct (LinkedPeersForWorkspace env ws) as [[|l0 linked]|] eqn:El; [by apply unchanged| |by apply unchanged].
    destruct (ListActivePairedPeers env) as [peers|] eqn:Ep; [|by apply unchanged].
    unfold queue_of at 2. rewrite fold_enqueue_lookup.
    destruct (existsb _ peers) eqn:E; [|by apply unchanged].
    apply existsb_elem in E as (i & Hi & Ht). unfold linked_target in Ht. bool_hyps. subst p.
    eapply pushed; [|done]. split_and!; [done..| |by eexists]. by eapply paired_target.
  - by apply unchanged.
  - by apply unchanged.
  - unfold queue_of. cbn. rewrite lookup_fmap. destruct (queues c !! p) as [q|] eqn:Eq; cbn; [|by apply unchanged].
    unfold drain_queue. destruct (items q) eqn:Ei; [by apply unchanged|].
    apply emptied; [done|done|apply empty_queue_ok].
Qed.

(** Every queued item is owed to its peer by an event of the history, and the
    queues are well formed. *)
Record inv (hist : list event) (c : Coordinator) : Prop := {
  inv_ok : forall p, queue_ok (queue_of c p);
  inv_owed : forall p it, it ∈ items (queue_of c p) -> exists ev, ev ∈ hist /\ wants ev p it;
}.

Lemma inv_lookup hist c p q : inv hist c -> queues c !! p = Some q -> queue_ok q.
Proof. intros [H _] Hq. specialize (H p). unfold queue_of in H. by rewrite Hq in H. Qed.

Lemma step_inv hist ev c : inv hist c -> inv (hist ++ [ev]) (snd (step ev c)).
Proof.
  intros Hi. assert (forall p q, queues c !! p = Some q -> queue_ok q) as Hok
    by (intros p q; by eapply inv_lookup).
  split; intros p.
  - destruct (step_queue ev c p Hok) as [->|_ _ ?|it _ ->]; [by apply Hi|done|by apply push_item_ok, Hi].
  - intros it Hit. destruct (step_queue ev c p Hok) as [E|_ E _|it' Hw E]; rewrite E in Hit.
    + destruct (inv_owed _ _ Hi _ _ Hit) as (e & He & ?). exists e. set_solver.
    + by apply elem_of_nil in Hit.
    + apply push_item_elem in Hit as [Hit| ->].
      * destruct (inv_owed _ _ Hi _ _ Hit) as (e & He & ?). exists e. set_solver.
      * exists ev. set_solver.
Qed.

Lemma drain_pushes_elem c x :
  x ∈ drain_pushes c <->
  exists p it, it ∈ items (queue_of c p) /\ push_of (wired c) p it = Some x.
Proof.
  unfold drain_pushes. rewrite list_elem_of_In, in_flat_map. unfold queue_of. split.
  - intros ([p l] & Hin & Hx). apply list_elem_of_In, elem_of_map_to_list in Hin.
    cbn in Hin. rewrite lookup_omap in Hin. exists p.
    destruct (queues c !! p) as [q|]; [|done]. cbn in *. destruct (items q) as [|i0 r] eqn:E; [done|].
    injection Hin as <-. apply list_elem_of_In, list_elem_of_omap in Hx as (it & ? & ?).
    exists it. split; done.
  - intros (p & it & Hit & Hx).
    destruct (queues c !! p) as [q|] eqn:Eq; [|by apply elem_of_nil in Hit]. cbn in Hit.
    exists (p, items q). split.
    + apply list_elem_of_In, elem_of_map_to_list. cbn. rewrite lookup_omap, Eq. cbn.
      destruct (items q); [by apply elem_of_nil in Hit|done].
    + apply list_elem_of_In, list_elem_of_omap. eauto.
Qed.

Lemma run_inv evs hist c :
  inv hist c ->
  inv (hist ++ evs) (snd (run evs c)) /\
  forall x, x ∈ fst (run evs c) ->
  exists ev p it, ev ∈ hist ++ evs /\ wants ev p it /\ exists w, push_of w p it = Some x.
Proof.
  revert hist c. induction evs as [|ev evs IH]; intros hist c Hi; cbn [run].
  - rewrite app_nil_r. split; [done|]. intros x Hx. by apply elem_of_nil in Hx.
  - destruct (IH (hist ++ [ev]) (snd (step ev c))) as [Hi' Hx]; [by apply step_inv|].
    rewrite <- app_assoc in Hi', Hx. cbn [app] in Hi', Hx.
    assert (forall x, x ∈ fst (step ev c) -> ev = EDrain /\ x ∈ drain_pushes c) as Hout.
    { intros x. destruct ev; cbn; try (by intros []%elem_of_nil). done. }
    destruct (step ev c) as [ps c1]. cbn [fst snd] in *. destruct (run evs c1) as [ps' c2]. cbn [fst snd] in *.
    split; [done|]. intros x [Hps|Hps]%elem_of_app; [|by apply Hx].
    destruct (Hout x Hps) as [-> Hd]. apply drain_pushes_elem in Hd as (p & it & Hit & Hp).
    destruct (inv_owed _ _ Hi _ _ Hit) as (e & He & Hw). exists e, p, it.
    split_and!; [set_solver|done|eauto].
Qed.

Lemma init_inv : inv [] NewCoordinator.
Proof.
  split; intros p; unfold queue_of; cbn; rewrite lookup_empty; cbn; [apply empty_queue_ok|].
  intros it Hit. by apply elem_of_nil in Hit.
Qed.

(** C36: nothing is replicated that was not authorised: every push attempted over any
    run is owed to a local event of the run, not itself received from a peer, and
    goes to a paired peer that had not opted out when the event happened, a
    same-user one for memories and skills, one linked to the workspace for tasks.
    The per-peer queues never exceed 128 items nor hold two of the same key. *)
Theorem replication_only_authorised (evs : list event) :
  let '(pushes, c) := run evs NewCoordinator in
  (forall x, x ∈ pushes ->
     exists ev p it, ev ∈ evs /\ wants ev p it /\ exists w, push_of w p it = Some x) /\
  (forall p, (QueueDepth p c <= 128)%nat /\ NoDup (map itemKey (items (queue_of c p)))).
Proof.
  destruct (run_inv evs [] NewCoordinator init_inv) as [Hi Hx]. destruct (run evs NewCoordinator) as [ps c].
  cbn [fst snd app] in *. split; [done|]. intros p. pose proof (inv_ok _ _ Hi p) as [Hn _ Hd]. split; [|done].
  unfold QueueDepth, queue_of, maxQueueDepth in *. destruct (queues c !! p); cbn in *; lia.
Qed.

(** Only a memory item has a memory key. *)
Lemma memory_key ev p it id :
  wants ev p it -> itemKey it = "memory::" +:+ id ->
  it = {| Kind := EventKindMemory; ID := id; WorkspaceID := "" |}.
Proof.
  destruct ev; cbn [wants]; try done; intros (-> & _) H.
  - change ("memory::" +:+ memoryID = "memory::" +:+ id) in H. by apply string_app_inj_l in H as ->.
  - exfalso. unfold itemKey in H. cbn [kind_string Kind] in H.
    by rewrite !string_app_cons in H.
  - exfalso. unfold itemKey in H. cbn [kind_string Kind] in H.
    by rewrite !string_app_cons in H.
Qed.

(** No eligible peer is left out: a local memory write handled while the
    coordinator is open is pushed by the next drain to every paired same-user
    peer that has not opted out, whatever is already queued. *)
Theorem eligible_peer_gets_push (evs : list event) (env : Env) (id src p : string)
    (Hopen : closed (snd (run evs NewCoordinator)) = false)
    (Hid : id <> "") (Hsrc : src <> "peer")
    (Hp : paired env p) (Htier : TierFor env p = TierSameUser) :
  PushMemory p id ∈
    drain_pushes (OnMemoryEvent env "write" id src (snd (run evs NewCoordinator))).
Proof.
  destruct (run_inv evs [] NewCoordinator init_inv) as [Hi _]. cbn [app] in Hi.
  set (c := snd (run evs NewCoordinator)) in *.
  pose proof (step_inv _ (EMemory env "write" id src) _ Hi) as Hi'. cbn [step snd] in Hi'.
  apply drain_pushes_elem. exists p, {| Kind := EventKindMemory; ID := id; WorkspaceID := "" |}.
  split; [|done].
  assert (itemKey {| Kind := EventKindMemory; ID := id; WorkspaceID := "" |} ∈
    map itemKey (items (queue_of (OnMemoryEvent env "write" id src c) p))) as Hk.
  { destruct Hp as (Hne & peers & i & Hl & Hin & Hpi & Hopt).
    unfold OnMemoryEvent. rewrite Hopen. change (negb (bool_decide ("write" = kindMemoryWrite))) with false.
    rewrite !bool_decide_eq_false_2 by done. unfold enqueueForTier1Peers. rewrite Hl.
    unfold queue_of. rewrite fold_enqueue_lookup.
    assert (existsb (fun i => tier1_target env i && bool_decide (PeerID i = p)) peers = true) as ->.
    { apply existsb_elem. exists i. split; [done|]. unfold tier1_target.
      rewrite Hpi, Hopt, Htier, (bool_decide_eq_false_2 (p = "")), !bool_decide_eq_true_2 by done. done. }
    cbn. apply push_item_in. apply (inv_ok _ _ Hi). }
  apply list_elem_of_In, in_map_iff in Hk as (it & Hkey & Hit).
  apply list_elem_of_In in Hit. destruct (inv_owed _ _ Hi' _ _ Hit) as (ev & _ & Hw).
  pose proof (memory_key ev p it id Hw Hkey) as ->. done.
Qed.

(** ** Examples *)

Definition env_ (tier : string -> Tier) : Env := {|
  TierFor := tier;
  ListActivePairedPeers := Ok [{| PeerID := "desk"; Scopes := [] |};
                               {| PeerID := "org"; Scopes := [] |};
                               {| PeerID := "off"; Scopes := [ReplicationOptOutScope] |}];
  LinkedPeersForWorkspace := fun _ => Ok ["org"] |}.

Definition tier_ (p : string) : Tier := if bool_decide (p = "org") then TierSameOrg else TierSameUser.

Example write_fans_out :
  fst (run [EMemory (env_ tier_) "write" "m1" "user"; EMemory (env_ tier_) "write" "m2" "peer"; EDrain]
         NewCoordinator) = [PushMemory "desk" "m1"].
Proof. by vm_compute. Qed.

Lemma eligible_peer_gets_push_witness :
  PushMemory "desk" "m1" ∈
    drain_pushes (OnMemoryEvent (env_ tier_) "write" "m1" "user" (snd (run [EWire true] NewCoordinator))).
Proof.
  apply eligible_peer_gets_push; [reflexivity|discriminate|discriminate| |reflexivity].
  split; [discriminate|]. exists [{| PeerID := "desk"; Scopes := [] |};
                               {| PeerID := "org"; Scopes := [] |};
                               {| PeerID := "off"; Scopes := [ReplicationOptOutScope] |}],
    {| PeerID := "desk"; Scopes := [] |}.
  split; [reflexivity|]. split; [apply list_elem_of_here|]. split; reflexivity.
Defined.

Lemma overflow_keeps_newest_witness :
  items (fold_left push_item [{| Kind := EventKindSkill; ID := "a"; WorkspaceID := "" |};
                              {| Kind := EventKindSkill; ID := "b"; WorkspaceID := "" |}] empty_queue) =
  [{| Kind := EventKindSkill; ID := "a"; WorkspaceID := "" |};
   {| Kind := EventKindSkill; ID := "b"; WorkspaceID := "" |}].
Proof.
  rewrite overflow_keeps_newest; [reflexivity|apply empty_queue_ok|].
  apply (bool_decide_eq_true_1 _). reflexivity.
Defined.

(** The key joins workspace and id with a colon, so ids that contain one collide. *)
Example itemKey_collision :
  itemKey {| Kind := EventKindTask; ID := "c"; WorkspaceID := "a:b" |} =
  itemKey {| Kind := EventKindTask; ID := "b:c"; WorkspaceID := "a" |}.
Proof. reflexivity. Qed.

(** Start is documented to be idempotent; a second call starts a second ticker and
    the second one to leave after Stop closes doneCh again, which panics. *)
Example double_start_panics :
  (loop_exit (Stop (Start (Start NewCoordinator))) ≫= loop_exit) = None.
Proof. reflexivity. Qed.
