(* ===== verification/JobHeap.v ===== *)
(** The scheduler's queue: [internal/scheduler/heap.go] over Go's
    [container/heap], and the overdue filter of [catchUp] in scheduler.go.

    The heap is the array of pending jobs.  [up], [down], [Push], [Remove] and
    [Fix] are the package functions; their loops take the length as fuel
    ([up_fix], [down_fix]: at most one iteration per level).  The [index] field of
    pendingJob is never read by the program and is left out.  Times are
    nanoseconds.  The abstract queue is the finite map from job id to next run. *)

From Stdlib Require Import Ascii String.
From stdpp Require Import gmap strings.
From S2P Require Import Prelude GoStrings.

#[local] Open Scope string_scope.
#[local] Open Scope list_scope.

(** ** Data *)

(** store.ScheduledJob, less the columns the scheduler only copies (Surface,
    SurviveDaemonDown, NativeDriver and the two stamps of the row). *)
Record ScheduledJob := {
  ID : string; Name : string; Kind : string; Spec : string;
  Command : string; ArgsJSON : string; EnvJSON : string; CWD : string;
  Enabled : bool; NativeID : string; WorkerID : string;
  LastRunAt : option Z; NextRunAt : option Z; LastStatus : string; LastError : string }.

Record pendingJob := { job : ScheduledJob; nextRun : Z }.

Abbreviation jobHeap := (list pendingJob).

(** ** container/heap *)

(** The key at an index in range. *)
Definition key (h : jobHeap) (i : nat) : Z :=
  match h !! i with Some pj => nextRun pj | None => 0%Z end.

Definition Less (h : jobHeap) (i j : nat) : bool := (key h i <? key h j)%Z.

Definition Swap (h : jobHeap) (i j : nat) : jobHeap :=
  match h !! i, h !! j with
  | Some a, Some b => <[j := a]> (<[i := b]> h)
  | _, _ => h
  end.

(** (j - 1) / 2 truncated towards zero: 0 for 0. *)
Definition parent (j : nat) : nat := (j - 1) / 2.

Fixpoint up (fuel : nat) (h : jobHeap) (j : nat) : jobHeap :=
  match fuel with
  | O => h
  | S fuel' =>
      let i := parent j in
      if Nat.eqb i j || negb (Less h j i) then h else up fuel' (Swap h i j) i
  end.

(** The heap and the final index. *)
Fixpoint down_loop (fuel : nat) (h : jobHeap) (i n : nat) : jobHeap * nat :=
  match fuel with
  | O => (h, i)
  | S fuel' =>
      let j1 := (2 * i + 1)%nat in
      if Nat.leb n j1 then (h, i) else
      let j := if Nat.ltb (j1 + 1) n && Less h (j1 + 1) j1 then (j1 + 1)%nat else j1 in
      if negb (Less h j i) then (h, i) else down_loop fuel' (Swap h i j) j n
  end.

Definition down (h : jobHeap) (i0 n : nat) : jobHeap * bool :=
  let '(h', i) := down_loop n h i0 n in (h', Nat.ltb i0 i).

Definition heap_Push (h : jobHeap) (x : pendingJob) : jobHeap :=
  let h := h ++ [x] in up (length h) h (length h - 1).

Definition heap_Fix (h : jobHeap) (i : nat) : jobHeap :=
  let '(h', moved) := down h i (length h) in
  if moved then h' else up (length h') h' i.

(** Remove without its return value: the last element is dropped at the end. *)
Definition heap_Remove (h : jobHeap) (i : nat) : jobHeap :=
  let n := (length h - 1)%nat in
  let h := if Nat.eqb n i then h
           else let h := Swap h i n in
                let '(h', moved) := down h i n in
                if moved then h' else up (length h') h' i in
  take n h.

(** ** heap.go *)

Definition peek (h : jobHeap) : option pendingJob := head h.

(** The index of the first entry of a job. *)
Fixpoint find_job (h : jobHeap) (jobID : string) : option nat :=
  match h with
  | [] => None
  | pj :: h' => if bool_decide (ID (job pj) = jobID) then Some O else S <$> find_job h' jobID
  end.

Definition removeByID (h : jobHeap) (jobID : string) : bool * jobHeap :=
  match find_job h jobID with
  | Some i => (true, heap_Remove h i)
  | None => (false, h)
  end.

Definition upsertByID (h : jobHeap) (j : ScheduledJob) (next : Z) : jobHeap :=
  match find_job h (ID j) with
  | Some i => heap_Fix (<[i := {| job := j; nextRun := next |}]> h) i
  | None => heap_Push h {| job := j; nextRun := next |}
  end.

(** ** scheduler.go *)

(** Reload: enabled jobs with a next run. *)
Definition Reload (jobs : list ScheduledJob) : jobHeap :=
  fold_left (fun h j => if negb (Enabled j) then h
                        else match NextRunAt j with None => h | Some t => upsertByID h j t end) jobs [].

(** The first loop of catchUp: (overdue jobs, remaining heap array). *)
Definition catchUp_split (now : Z) (h : jobHeap) : list ScheduledJob * jobHeap :=
  (map job (List.filter (fun pj => nextRun pj <? now)%Z h),
   List.filter (fun pj => negb (nextRun pj <? now)%Z) h).

(** nextWait and popAndFire up to the call of fire: the head, how long until it is
    due, and the heap without it. *)
Definition nextWait (now : Z) (h : jobHeap) : option (pendingJob * Z) :=
  pj ← peek h; Some (pj, nextRun pj - now)%Z.

Definition pop_head (h : jobHeap) : option (ScheduledJob * jobHeap) :=
  pj ← peek h; Some (job pj, snd (removeByID h (ID (job pj)))).

(** ** Array lemmas *)

Lemma length_Swap h i j : length (Swap h i j) = length h.
Proof. unfold Swap. destruct (h !! i), (h !! j); by rewrite ?length_insert. Qed.

Lemma Swap_perm h i j : Swap h i j ≡ₚ h.
Proof.
  unfold Swap. destruct (h !! i) as [a|] eqn:Ei, (h !! j) as [b|] eqn:Ej; try done.
  by apply Permutation_insert_swap.
Qed.

Lemma key_Swap h i j k :
  (i < length h)%nat -> (j < length h)%nat ->
  key (Swap h i j) k = if Nat.eqb k i then key h j else if Nat.eqb k j then key h i else key h k.
Proof.
  intros Hi Hj. apply lookup_lt_is_Some in Hi as [a Ha]. apply lookup_lt_is_Some in Hj as [b Hb].
  pose proof (lookup_lt_Some _ _ _ Ha). pose proof (lookup_lt_Some _ _ _ Hb).
  unfold Swap, key. rewrite Ha, Hb.
  destruct (Nat.eqb_spec k i) as [->|]; [|destruct (Nat.eqb_spec k j) as [->|]].
  - destruct (decide (i = j)) as [->|].
    + rewrite list_lookup_insert_eq by (by rewrite length_insert). congruence.
    + rewrite list_lookup_insert_ne, list_lookup_insert_eq by done. done.
  - by rewrite list_lookup_insert_eq by (by rewrite length_insert).
  - by rewrite !list_lookup_insert_ne.
Qed.

Lemma lookup_Swap_ge h i j n k :
  (i < n)%nat -> (j < n)%nat -> (n <= k)%nat -> Swap h i j !! k = h !! k.
Proof.
  intros. unfold Swap. destruct (h !! i), (h !! j); try done.
  by rewrite !list_lookup_insert_ne by lia.
Qed.

Lemma parent_spec k : (0 < k)%nat -> (k = 2 * parent k + 1 \/ k = 2 * parent k + 2)%nat.
Proof.
  intros Hk. unfold parent. pose proof (Nat.div_mod_eq (k - 1) 2).
  pose proof (Nat.mod_upper_bound (k - 1) 2). lia.
Qed.

Lemma parent_0 : parent 0 = 0%nat.
Proof. done. Qed.

(** ** The heap order on the first [n] entries *)

Definition heap_on (n : nat) (h : jobHeap) : Prop :=
  forall k, (0 < k < n)%nat -> (key h (parent k) <= key h k)%Z.

(** The order holds but between [j] and its parent; the children of [j] are above
    that parent. *)
Definition up_inv (n : nat) (h : jobHeap) (j : nat) : Prop :=
  (forall k, (0 < k < n)%nat -> k <> j -> (key h (parent k) <= key h k)%Z) /\
  (forall k, (0 < k < n)%nat -> parent k = j -> (0 < j)%nat -> (key h (parent j) <= key h k)%Z).

(** The two arrays agree from [n] on and hold the same jobs. *)
Definition same_beyond (n : nat) (h h' : jobHeap) : Prop :=
  h' ≡ₚ h /\ length h' = length h /\ forall k, (n <= k)%nat -> h' !! k = h !! k.

Lemma same_beyond_refl n h : same_beyond n h h.
Proof. by split_and!. Qed.

Lemma same_beyond_trans n h1 h2 h3 : same_beyond n h1 h2 -> same_beyond n h2 h3 -> same_beyond n h1 h3.
Proof.
  intros (P1 & L1 & E1) (P2 & L2 & E2). split_and!; [by rewrite P2|congruence|].
  intros k Hk. by rewrite E2, E1.
Qed.

Lemma Swap_same_beyond n h i j : (i < n)%nat -> (j < n)%nat -> same_beyond n h (Swap h i j).
Proof.
  intros. split_and!; [apply Swap_perm|apply length_Swap|]. intros k Hk. by apply (lookup_Swap_ge _ _ _ n).
Qed.

Lemma up_fix n fuel h j :
  (n <= length h)%nat -> (j < n)%nat -> (j <= fuel)%nat -> up_inv n h j ->
  heap_on n (up fuel h j) /\ same_beyond n h (up fuel h j).
Proof.
  revert h j. induction fuel as [|fuel IH]; intros h j Hn Hj Hf [H1 H2]; cbn [up].
  { split; [|apply same_beyond_refl]. intros k Hk. apply H1; lia. }
  destruct (Nat.eqb_spec (parent j) j) as [E|E]; cbn [orb].
  { split; [|apply same_beyond_refl]. intros k Hk. apply H1; [done|].
    intros ->. pose proof (parent_spec j). lia. }
  assert (0 < j)%nat as Hj0 by (destruct j; [done|lia]).
  pose proof (parent_spec j Hj0) as Hp. unfold Less. set (i := parent j) in *.
  destruct (Z.ltb_spec (key h j) (key h i)) as [Hlt|Hge]; cbn [negb].
  - assert (forall k, key (Swap h i j) k =
      if Nat.eqb k j then key h i else if Nat.eqb k i then key h j else key h k) as HS
      by (intros k; rewrite key_Swap by lia; destruct (Nat.eqb_spec k i), (Nat.eqb_spec k j); congruence).
    destruct (IH (Swap h i j) i) as [Hh Hb]; [rewrite length_Swap; lia|lia|lia| |].
    + split; intros k Hk; rewrite !HS; pose proof (parent_spec k ltac:(lia)) as Hpk.
      * intros Hki. destruct (Nat.eqb_spec k j) as [->|Hkj].
        { fold i. rewrite (proj2 (Nat.eqb_neq i j)), Nat.eqb_refl by lia. lia. }
        rewrite (proj2 (Nat.eqb_neq k i)) by done.
        destruct (Nat.eqb_spec (parent k) j) as [Ek|Ek]; [by apply H2|].
        destruct (Nat.eqb_spec (parent k) i) as [Ei|Ei]; [|by apply H1].
        pose proof (H1 k Hk Hkj) as H'. rewrite Ei in H'. lia.
      * intros Ei Hi. pose proof (parent_spec i Hi) as Hpi.
        rewrite (proj2 (Nat.eqb_neq (parent i) j)), (proj2 (Nat.eqb_neq (parent i) i)) by lia.
        pose proof (H1 i ltac:(lia) ltac:(lia)) as Hi'.
        destruct (Nat.eqb_spec k j) as [->|Hkj]; [done|].
        rewrite (proj2 (Nat.eqb_neq k i)) by lia.
        pose proof (H1 k Hk Hkj) as H'. rewrite Ei in H'. lia.
    + split; [done|]. eapply same_beyond_trans; [|exact Hb]. apply Swap_same_beyond; lia.
  - split; [|apply same_beyond_refl]. intros k Hk.
    destruct (decide (k = j)) as [->|]; [done|by apply H1].
Qed.

(** Sifting down from [i0]: the order holds but between [i] and its neighbours and
    between [i0] and its parent; the children of [i] are above its parent. *)
Definition down_inv (n : nat) (h : jobHeap) (i0 i : nat) : Prop :=
  (forall k, (0 < k < n)%nat -> parent k <> i -> k <> i0 -> (key h (parent k) <= key h k)%Z) /\
  (forall k, (0 < k < n)%nat -> parent k = i -> (0 < i)%nat -> (key h (parent i) <= key h k)%Z) /\
  (i <> i0 -> (0 < i0)%nat -> (key h (parent i0) <= key h i0)%Z) /\
  (i0 <= i)%nat.

(** The child [down] compares with: the least one. *)
Definition least_child (h : jobHeap) (i n : nat) : nat :=
  if Nat.ltb (2 * i + 1 + 1) n && Less h (2 * i + 1 + 1) (2 * i + 1)
  then (2 * i + 1 + 1)%nat else (2 * i + 1)%nat.

Lemma least_child_spec h i n :
  (2 * i + 1 < n)%nat ->
  let j := least_child h i n in
  (j < n)%nat /\ (i < j)%nat /\ parent j = i /\
  forall k, (0 < k < n)%nat -> parent k = i -> (key h j <= key h k)%Z.
Proof.
  intros Hlt. unfold least_child, Less.
  assert (forall k, (0 < k < n)%nat -> parent k = i -> k = (2 * i + 1)%nat \/ k = (2 * i + 1 + 1)%nat) as Hk.
  { intros k Hk <-. pose proof (parent_spec k). lia. }
  assert (parent (2 * i + 1) = i /\ parent (2 * i + 1 + 1) = i) as [Hp1 Hp2].
  { pose proof (parent_spec (2 * i + 1)). pose proof (parent_spec (2 * i + 1 + 1)). lia. }
  destruct (Nat.ltb_spec (2 * i + 1 + 1) n) as [H2|H2]; cbn [andb];
    [destruct (Z.ltb_spec (key h (2 * i + 1 + 1)) (key h (2 * i + 1)))|].
  - split_and!; [lia|lia|done|]. intros k Hr Hp. destruct (Hk k Hr Hp) as [->| ->]; lia.
  - split_and!; [lia|lia|done|]. intros k Hr Hp. destruct (Hk k Hr Hp) as [->| ->]; lia.
  - split_and!; [lia|lia|done|]. intros k Hr Hp. destruct (Hk k Hr Hp) as [->| ->]; lia.
Qed.

Lemma down_loop_fix n fuel h i0 i :
  (n <= length h)%nat -> (i < n)%nat -> (n <= fuel + i)%nat -> down_inv n h i0 i ->
  let '(h', i') := down_loop fuel h i n in
  (i <= i')%nat /\ same_beyond n h h' /\ (i' = i -> h' = h) /\
  (forall k, (0 < k < n)%nat -> k <> i0 -> (key h' (parent k) <= key h' k)%Z) /\
  (i' <> i0 -> (0 < i0)%nat -> (key h' (parent i0) <= key h' i0)%Z).
Proof.
  revert h i. induction fuel as [|fuel IH]; intros h i Hn Hi Hf (H1 & H2 & H3 & H4); [lia|].
  cbn [down_loop]. destruct (Nat.leb_spec n (2 * i + 1)) as [Hle|Hlt].
  { split_and!; [lia|apply same_beyond_refl|done| |done]. intros k Hk Hk0. apply H1; [done| |done].
    intros <-. pose proof (parent_spec k). lia. }
  pose proof (least_child_spec h i n Hlt) as Hj. fold (least_child h i n).
  set (j := least_child h i n) in *. destruct Hj as (Hjn & Hij & Hpj & Hmin).
  unfold Less. destruct (Z.ltb_spec (key h j) (key h i)) as [Hl|Hge]; cbn [negb]; cbv iota.
  2: { split_and!; [lia|apply same_beyond_refl|done| |done]. intros k Hk Hk0.
       destruct (decide (parent k = i)) as [E|]; [|by apply H1].
       pose proof (Hmin k Hk E). rewrite E. lia. }
  assert (forall k, key (Swap h i j) k =
    if Nat.eqb k i then key h j else if Nat.eqb k j then key h i else key h k) as HS
    by (intros k; apply key_Swap; lia).
  pose proof (IH (Swap h i j) j) as Hrec. rewrite length_Swap in Hrec.
  destruct (down_loop fuel (Swap h i j) j n) as [h' i'].
  destruct Hrec as (Hii & Hb & _ & Hord & Hpar); [lia|lia|lia| |].
  - split_and!; [| | |lia].
    + intros k Hk Hpk Hk0. rewrite !HS. pose proof (parent_spec k ltac:(lia)) as Hps.
      rewrite (proj2 (Nat.eqb_neq (parent k) j)) by done.
      destruct (Nat.eqb_spec k i) as [->|Hki].
      { pose proof (H1 i Hk ltac:(lia) Hk0). pose proof (H2 j ltac:(lia) Hpj ltac:(lia)).
        rewrite (proj2 (Nat.eqb_neq (parent i) i)) by lia. lia. }
      destruct (Nat.eqb_spec (parent k) i) as [Ei|Ei].
      * destruct (Nat.eqb_spec k j) as [->|]; [lia|by apply Hmin].
      * destruct (Nat.eqb_spec k j) as [->|]; [lia|by apply H1].
    + intros k Hk Hpk Hj0. rewrite !HS, Hpj, Nat.eqb_refl. pose proof (parent_spec k ltac:(lia)).
      rewrite (proj2 (Nat.eqb_neq k i)), (proj2 (Nat.eqb_neq k j)) by lia.
      rewrite <- Hpk. apply H1; lia.
    + intros _ Hi0. rewrite !HS. pose proof (parent_spec i0 Hi0).
      rewrite (proj2 (Nat.eqb_neq i0 j)), (proj2 (Nat.eqb_neq (parent i0) j)),
        (proj2 (Nat.eqb_neq (parent i0) i)) by lia.
      destruct (Nat.eqb_spec i0 i) as [->|Hne]; [apply H2; lia|by apply H3].
  - split_and!; [lia| |lia|done|].
    + eapply same_beyond_trans; [|exact Hb]. apply Swap_same_beyond; lia.
    + intros _. apply Hpar. lia.
Qed.

(** The order holds but around [i], whose children are above its parent: what
    replacing one entry of a heap leaves. *)
Definition almost (n : nat) (h : jobHeap) (i : nat) : Prop :=
  (forall k, (0 < k < n)%nat -> parent k <> i -> k <> i -> (key h (parent k) <= key h k)%Z) /\
  (forall k, (0 < k < n)%nat -> parent k = i -> (0 < i)%nat -> (key h (parent i) <= key h k)%Z).

Definition fix_at (n : nat) (h : jobHeap) (i : nat) : jobHeap :=
  let '(h', moved) := down h i n in if moved then h' else up (length h') h' i.

Lemma fix_at_ok n h i :
  (n <= length h)%nat -> (i < n)%nat -> almost n h i ->
  heap_on n (fix_at n h i) /\ same_beyond n h (fix_at n h i).
Proof.
  intros Hn Hi [H1 H2]. unfold fix_at, down.
  pose proof (down_loop_fix n n h i i Hn Hi ltac:(lia)) as Hd.
  destruct (down_loop n h i n) as [h' i'].
  destruct Hd as (Hle & Hb & Heq & Hord & Hpar); [by split_and!|].
  destruct (Nat.ltb_spec i i') as [Hlt|Hge].
  - split; [|done]. intros k Hk. destruct (decide (k = i)) as [->|]; [|by apply Hord].
    apply Hpar; lia.
  - assert (i' = i) as -> by lia. rewrite (Heq eq_refl). rewrite (Heq eq_refl) in Hord.
    apply up_fix; [done|done|lia|]. split; [done|exact H2].
Qed.

Lemma heap_on_almost n h h' i :
  heap_on n h -> (forall k, (k < n)%nat -> k <> i -> key h' k = key h k) -> almost n h' i.
Proof.
  intros Hh He. split; intros k Hk; pose proof (parent_spec k ltac:(lia)) as Hp.
  - intros Hpk Hki. rewrite !He by lia. by apply Hh.
  - intros Hpk Hi. pose proof (parent_spec i Hi). rewrite !He by lia.
    pose proof (Hh k Hk) as Hk1. rewrite Hpk in Hk1.
    assert (key h (parent i) <= key h i)%Z by (apply Hh; lia). lia.
Qed.

(** ** Push, Fix and Remove *)

Definition is_heap (h : jobHeap) : Prop := heap_on (length h) h.

Lemma key_app_l h x k : (k < length h)%nat -> key (h ++ [x]) k = key h k.
Proof. intros. unfold key. by rewrite lookup_app_l. Qed.

Lemma heap_Push_ok h x : is_heap h -> is_heap (heap_Push h x) /\ heap_Push h x ≡ₚ x :: h.
Proof.
  intros Hh. unfold heap_Push. rewrite length_app. cbn [length].
  destruct (up_fix (length h + 1) (length h + 1) (h ++ [x]) (length h + 1 - 1)) as [Ho (Hp & Hl & _)];
    [rewrite length_app; cbn; lia|lia|lia| |].
  - replace (length h + 1 - 1)%nat with (length h) by lia.
    split; intros k Hk; pose proof (parent_spec k ltac:(lia)).
    + intros Hne. rewrite !key_app_l by lia. apply Hh. lia.
    + intros Hpk. lia.
  - split; [unfold is_heap; rewrite Hl, length_app; exact Ho|]. rewrite Hp. symmetry. apply Permutation_cons_append.
Qed.

Lemma heap_Fix_ok h i x :
  is_heap h -> (i < length h)%nat ->
  is_heap (heap_Fix (<[i := x]> h) i) /\ heap_Fix (<[i := x]> h) i ≡ₚ <[i := x]> h.
Proof.
  intros Hh Hi. change (heap_Fix (<[i := x]> h) i) with (fix_at (length (<[i := x]> h)) (<[i := x]> h) i).
  rewrite length_insert.
  destruct (fix_at_ok (length h) (<[i := x]> h) i) as [Ho (Hp & Hl & _)];
    [by rewrite length_insert|done| |split; [unfold is_heap; by rewrite Hl, length_insert|done]].
  apply (heap_on_almost _ h); [exact Hh|]. intros k Hk Hne. unfold key. by rewrite list_lookup_insert_ne.
Qed.

Lemma heap_Remove_ok h i x :
  is_heap h -> h !! i = Some x -> is_heap (heap_Remove h i) /\ x :: heap_Remove h i ≡ₚ h.
Proof.
  intros Hh Hx. pose proof (lookup_lt_Some _ _ _ Hx) as Hi. unfold heap_Remove.
  set (n := (length h - 1)%nat).
  assert (forall h', same_beyond n (Swap h i n) h' -> heap_on n h' ->
    is_heap (take n h') /\ x :: take n h' ≡ₚ h) as Hfin.
  { intros h' (Hp & Hl & Hb) Ho. rewrite length_Swap in Hl. split.
    - unfold is_heap. rewrite length_take_le by lia. intros k Hk. pose proof (parent_spec k).
      pose proof (Ho k Hk) as Hk'. unfold key in *. by rewrite !lookup_take_lt by lia.
    - assert (h' !! n = Some x) as Hlast.
      { rewrite Hb by lia. unfold Swap. rewrite Hx.
        assert (is_Some (h !! n)) as [b ->] by (apply lookup_lt_is_Some; lia).
        rewrite list_lookup_insert_eq; [done|rewrite length_insert; lia]. }
      rewrite <- (Swap_perm h i n), <- Hp. rewrite <- (take_drop n h') at 2.
      rewrite (drop_S _ x) by done. rewrite drop_ge by lia. symmetry.
      apply Permutation_app_comm. }
  destruct (Nat.eqb_spec n i) as [E|E].
  - apply (Hfin h).
    + assert (Swap h i n = h) as ->; [|apply same_beyond_refl].
      unfold Swap. rewrite E, Hx. rewrite list_insert_insert_eq, list_insert_id; done.
    + intros k Hk. apply Hh. lia.
  - change (let '(h', moved) := down (Swap h i n) i n in if moved then h' else up (length h') h' i)
      with (fix_at n (Swap h i n) i).
    destruct (fix_at_ok n (Swap h i n) i) as [Ho Hb]; [rewrite length_Swap; lia|lia| |by apply Hfin].
    apply (heap_on_almost _ h); [intros k Hk; apply Hh; lia|]. intros k Hk Hne.
    rewrite key_Swap by lia. rewrite (proj2 (Nat.eqb_neq k i)), (proj2 (Nat.eqb_neq k n)) by lia. done.
Qed.

(** The root of a heap is a least entry. *)
Lemma heap_root h k : is_heap h -> (k < length h)%nat -> (key h 0 <= key h k)%Z.
Proof.
  intros Hh. induction k as [k IH] using lt_wf_ind. intros Hk.
  destruct (decide (k = 0%nat)) as [->|]; [done|]. pose proof (parent_spec k ltac:(lia)).
  pose proof (IH (parent k) ltac:(lia) ltac:(lia)). pose proof (Hh k ltac:(lia)). lia.
Qed.

(** ** The heap is a priority map *)

Definition id_of (pj : pendingJob) : string := ID (job pj).

#[export] Instance map_id_of_perm : Proper (Permutation ==> Permutation) (map id_of).
Proof. intros h h' Hp. by apply Permutation_map. Qed.

(** [h] holds exactly the entries of [m], one per job, in heap order. *)
Record rep (h : jobHeap) (m : gmap string pendingJob) : Prop := {
  rep_heap : is_heap h;
  rep_nodup : NoDup (map id_of h);
  rep_elem : forall i pj, m !! i = Some pj <-> pj ∈ h /\ id_of pj = i;
}.

Lemma find_job_Some h jobID i :
  find_job h jobID = Some i -> exists pj, h !! i = Some pj /\ id_of pj = jobID.
Proof.
  revert i. induction h as [|pj h IH]; intros i; cbn; [done|].
  destruct (bool_decide (ID (job pj) = jobID)) eqn:E; bool_hyps; [intros [= <-]; by exists pj|].
  destruct (find_job h jobID) as [k|]; [|done]. intros [= <-]. cbn. by apply IH.
Qed.

Lemma find_job_None h jobID : find_job h jobID = None -> forall pj, pj ∈ h -> id_of pj <> jobID.
Proof.
  induction h as [|pj h IH]; cbn; intros H x Hx; [by apply elem_of_nil in Hx|].
  destruct (bool_decide (ID (job pj) = jobID)) eqn:E; bool_hyps; [done|].
  destruct (find_job h jobID); [done|]. apply elem_of_cons in Hx as [->|Hx]; [done|by apply IH].
Qed.

Lemma rep_perm h h' m : is_heap h' -> h' ≡ₚ h -> rep h m -> rep h' m.
Proof.
  intros Hh Hp [_ Hn He]. split; [done|by rewrite Hp|]. intros i pj. by rewrite Hp.
Qed.

Lemma rep_empty : rep [] ∅.
Proof.
  split; [intros k Hk; cbn in Hk; lia|constructor|]. intros i pj. rewrite lookup_empty.
  split; [done|]. by intros [?%elem_of_nil _].
Qed.

Lemma elem_map_id h pj : pj ∈ h -> id_of pj ∈ map id_of h.
Proof. intros. by apply list_elem_of_In, in_map, list_elem_of_In. Qed.

(** Entries and ids after one entry [x] of a heap is taken out. *)
Lemma rep_remove x h h' m :
  x :: h' ≡ₚ h -> is_heap h' -> rep h m -> rep h' (delete (id_of x) m).
Proof.
  intros Hp Hh [_ Hn He]. rewrite <- Hp in Hn. cbn in Hn. apply NoDup_cons in Hn as [Hni Hn].
  split; [done|done|]. intros i pj. rewrite lookup_delete_Some, He, <- Hp, elem_of_cons. split.
  - intros (Hne & [->|?] & <-); [done|done].
  - intros [Hin <-]. split_and!; [|by right|done]. intros E. apply Hni. rewrite E. by apply elem_map_id.
Qed.

Lemma rep_add x h h' m :
  h' ≡ₚ x :: h -> is_heap h' -> m !! id_of x = None -> rep h m -> rep h' (<[id_of x := x]> m).
Proof.
  intros Hp Hh Hm [_ Hn He].
  assert (id_of x ∉ map id_of h) as Hni.
  { intros Hin. apply list_elem_of_In, in_map_iff in Hin as (y & Hy & Hin).
    apply list_elem_of_In in Hin. pose proof (proj2 (He (id_of x) y) (conj Hin Hy)). congruence. }
  split; [done|rewrite Hp; by constructor|]. intros i pj. rewrite lookup_insert_Some, He, Hp, elem_of_cons.
  split.
  - intros [[<- <-]|(Hne & Hin & <-)]; [by split; [left|]|by split; [right|]].
  - intros [[->|Hin] <-]; [by left|right]. split_and!; [|done|done].
    intros E. apply Hni. rewrite E. by apply elem_map_id.
Qed.

Lemma removeByID_rep h m jobID :
  rep h m ->
  rep (snd (removeByID h jobID)) (delete jobID m) /\
  fst (removeByID h jobID) = bool_decide (is_Some (m !! jobID)).
Proof.
  intros Hr. pose proof Hr as [Hh Hn He]. unfold removeByID.
  destruct (find_job h jobID) as [i|] eqn:E; cbn [fst snd].
  - apply find_job_Some in E as (x & Hx & <-). destruct (heap_Remove_ok h i x Hh Hx) as [Hh' Hp].
    split; [by eapply rep_remove|]. symmetry. apply bool_decide_eq_true_2. exists x. apply He.
    split; [|done]. by eapply list_elem_of_lookup_2.
  - assert (m !! jobID = None) as Hm.
    { destruct (m !! jobID) as [pj|] eqn:Hm; [|done]. apply He in Hm as [Hin Hid].
      by destruct (find_job_None _ _ E _ Hin). }
    rewrite delete_id by done. split; [done|]. by rewrite Hm.
Qed.

Lemma upsertByID_rep h m j t :
  rep h m -> rep (upsertByID h j t) (<[ID j := {| job := j; nextRun := t |}]> m).
Proof.
  intros Hr. pose proof Hr as [Hh Hn He]. set (x := {| job := j; nextRun := t |}).
  change (ID j) with (id_of x). unfold upsertByID. fold x. change (ID j) with (id_of x).
  destruct (find_job h (id_of x)) as [i|] eqn:E.
  - apply find_job_Some in E as (y & Hy & Hid). pose proof (lookup_lt_Some _ _ _ Hy) as Hi.
    destruct (heap_Fix_ok h i x Hh Hi) as [Hh' Hp].
    rewrite <- insert_delete_eq. rewrite <- Hid at 2.
    assert (exists h0, h ≡ₚ y :: h0 /\ <[i := x]> h ≡ₚ x :: h0) as (h0 & H0 & H1).
    { exists (take i h ++ drop (S i) h). split.
      - rewrite <- (take_drop_middle h i y Hy) at 1. symmetry. apply Permutation_middle.
      - rewrite insert_take_drop by done. symmetry. apply Permutation_middle. }
    assert (NoDup (map id_of h0) /\ id_of y ∉ map id_of h0) as [Hn0 Hni].
    { rewrite H0 in Hn. cbn in Hn. by apply NoDup_cons in Hn as [? ?]. }
    split; [done|rewrite Hp, H1; cbn; rewrite <- Hid; by constructor|].
    intros k pj. rewrite Hp, H1, elem_of_cons, lookup_insert_Some, lookup_delete_Some, He, H0, elem_of_cons.
    split.
    + intros [[<- <-]|(? & ? & [->|?] & <-)]; [by split; [left|]|done|by split; [right|]].
    + intros [[->|Hin] <-]; [by left|right].
      assert (id_of y <> id_of pj) by (intros Ey; apply Hni; rewrite Ey; by apply elem_map_id).
      split_and!; [congruence|congruence|by right|done].
  - assert (m !! id_of x = None) as Hm.
    { destruct (m !! id_of x) as [pj|] eqn:Hm; [|done]. apply He in Hm as [Hin Hid].
      by destruct (find_job_None _ _ E _ Hin). }
    destruct (heap_Push_ok h x Hh) as [Hh' Hp]. by apply (rep_add x h).
Qed.

Lemma peek_rep h m :
  rep h m ->
  match peek h with
  | None => m = ∅
  | Some pj => m !! id_of pj = Some pj /\ forall i pj', m !! i = Some pj' -> (nextRun pj <= nextRun pj')%Z
  end.
Proof.
  intros [Hh Hn He]. destruct h as [|pj h]; cbn [peek head].
  - apply map_empty. intros i. destruct (m !! i) as [pj|] eqn:Hm; [|done].
    apply He in Hm as [Hm _]. by apply elem_of_nil in Hm.
  - split; [apply He; split; [by left|done]|]. intros i pj' Hm. apply He in Hm as [Hin _].
    apply list_elem_of_lookup in Hin as [k Hk].
    pose proof (heap_root (pj :: h) k Hh (lookup_lt_Some _ _ _ Hk)) as Hr.
    unfold key in Hr. by rewrite Hk in Hr.
Qed.

Inductive op := Upsert (j : ScheduledJob) (next : Z) | RemoveID (jobID : string).

Definition apply_op (h : jobHeap) (o : op) : jobHeap :=
  match o with Upsert j t => upsertByID h j t | RemoveID i => snd (removeByID h i) end.

Definition spec_op (m : gmap string pendingJob) (o : op) : gmap string pendingJob :=
  match o with
  | Upsert j t => <[ID j := {| job := j; nextRun := t |}]> m
  | RemoveID i => delete i m
  end.

Lemma ops_rep ops h m : rep h m -> rep (fold_left apply_op ops h) (fold_left spec_op ops m).
Proof.
  revert h m. induction ops as [|o ops IH]; intros h m Hr; [done|]. cbn. apply IH.
  destruct o; cbn; [by apply upsertByID_rep|by apply removeByID_rep].
Qed.

(** the heap implements a priority map: after any sequence of upserts and
    removals its head is a job of the map from job ids to their latest entries whose
    next run is the earliest of all, there is none exactly when the map is empty,
    and taking the head off leaves the other jobs and another such heap. *)
Theorem jobHeap_priority_map (ops : list op) :
  let h := fold_left apply_op ops [] in
  let m := fold_left spec_op ops ∅ in
  match peek h with
  | None => m = ∅
  | Some pj =>
      m !! id_of pj = Some pj /\
      (forall i pj', m !! i = Some pj' -> (nextRun pj <= nextRun pj')%Z) /\
      exists h', pop_head h = Some (job pj, h') /\ rep h' (delete (id_of pj) m)
  end.
Proof.
  cbv zeta. pose proof (ops_rep ops [] ∅ rep_empty) as Hr. pose proof (peek_rep _ _ Hr) as Hp.
  unfold pop_head. destruct (peek _) as [pj|]; [|done]. destruct Hp as [? ?]. split_and!; [done|done|].
  eexists. split; [done|]. by apply removeByID_rep.
Qed.

(** ** The catch-up filter *)

Definition sched (i : string) (t : Z) : op :=
  Upsert {| ID := i; Name := i; Kind := "cron"; Spec := "* * * * *"; Command := "true"; ArgsJSON := "[]"; EnvJSON := "{}"; CWD := "";
            Enabled := true; NativeID := ""; WorkerID := ""; LastRunAt := None; NextRunAt := Some t; LastStatus := ""; LastError := "" |} t.

Definition catchup_example : jobHeap :=
  fold_left apply_op [sched "a" 0; sched "b" 10; sched "c" 1; sched "d" 11; sched "e" 12;
                      sched "f" 2; sched "g" 3] [].

(** catchUp filters the heap array in place and does not restore the heap order:
    the head of what remains is not the earliest job, so the loop sleeps until ten
    while jobs are due at two and three. *)
Example catchUp_breaks_heap :
  let '(overdue, h) := catchUp_split 2 catchup_example in
  map ID overdue = ["a"; "c"] /\
  (fun pj => nextRun pj) <$> peek h = Some 10%Z /\ map nextRun h = [10; 11; 12; 2; 3]%Z.
Proof. by vm_compute. Qed.
