(* ===== verification/Cron.v ===== *)
(** Cron specs of the scheduler: [internal/scheduler/spec.go].

    A time is its UTC nanoseconds since the epoch.  The loop of [nextCronRun] runs at
    most 366*24*60 times; [search] takes that bound as a binary number and
    splits it in halves, so that it stays executable ([search_spec] shows that it
    is the linear search).  Calendar fields follow the proleptic Gregorian
    calendar, as Go's time package. *)

From Stdlib Require Import Ascii String.
From S2P Require Import Prelude GoStrings.

#[local] Open Scope string_scope.
#[local] Open Scope list_scope.
#[local] Open Scope Z_scope.

(** ** The standard library it uses *)

Definition digit_val (a : ascii) : option Z :=
  let n := Z.of_N (N_of_ascii a) in if (48 <=? n) && (n <=? 57) then Some (n - 48) else None.

Fixpoint digits_loop (acc : Z) (l : list ascii) : option Z :=
  match l with
  | [] => Some acc
  | a :: l' => d ← digit_val a; digits_loop (acc * 10 + d) l'
  end.

(** [strconv.Atoi]: an optional sign and digits, within int64. *)
Definition Atoi (s : string) : option Z :=
  let l := list_ascii_of_string s in
  let '(neg, l) := match l with
                   | "-"%char :: l' => (true, l')
                   | "+"%char :: l' => (false, l')
                   | _ => (false, l)
                   end in
  match l with
  | [] => None
  | _ => v ← digits_loop 0 l;
         let v := if neg then - v else v in
         if (- 2 ^ 63 <=? v) && (v <? 2 ^ 63) then Some v else None
  end.

Definition minute_ns : Z := 60 * 1000000000.

Definition Minute (t : Z) : Z := (t / minute_ns) mod 60.
Definition Hour (t : Z) : Z := (t / (60 * minute_ns)) mod 24.
Definition days (t : Z) : Z := t / (1440 * minute_ns).
Definition Weekday (t : Z) : Z := (days t + 4) mod 7.

(** (month, day) of a day number, by 400-year eras starting in March. *)
Definition civil (d : Z) : Z * Z :=
  let doe := (d + 719468) mod 146097 in
  let yoe := (doe - doe / 1460 + doe / 36524 - doe / 146096) / 365 in
  let doy := doe - (365 * yoe + yoe / 4 - yoe / 100) in
  let mp := (5 * doy + 2) / 153 in
  (if mp <? 10 then mp + 3 else mp - 9, doy - (153 * mp + 2) / 5 + 1).

Definition Month (t : Z) : Z := fst (civil (days t)).
Definition Day (t : Z) : Z := snd (civil (days t)).

(** [Truncate(time.Minute)]: Go's zero time is a whole minute. *)
Definition Truncate (t : Z) : Z := t - t mod minute_ns.

(** 2024-02-29 12:34 UTC, a Thursday. *)
Example civil_leap : let t := 1709210040 * 1000000000 in
  (Month t, Day t, Hour t, Minute t, Weekday t) = (2, 29, 12, 34, 4).
Proof. reflexivity. Qed.

(** ** spec.go *)

Definition SpecManual := "manual".
Definition IsManualSpec (spec : string) : bool := EqualFold (TrimSpace spec) SpecManual.

Record cronField := { star : bool; step : Z; val : Z }.

Definition match_field (f : cronField) (v : Z) : bool :=
  if star f then if step f <=? 1 then true else Z.rem v (step f) =? 0 else v =? val f.

Inductive cron_error :=
  | InvalidStep (s : string) | InvalidField (s : string) | OutOfRange (s : string)
  | FieldCount (n : nat) | NoMatch.

Definition parseCronField (s : string) (minVal maxVal : Z) : result cron_error cronField :=
  let s := TrimSpace s in
  if bool_decide (s = "*") then Ok {| star := true; step := 0; val := 0 |}
  else match CutPrefix s "*/" with
  | Some rest =>
      match Atoi rest with
      | Some n => if n <=? 0 then Err (InvalidStep s) else Ok {| star := true; step := n; val := 0 |}
      | None => Err (InvalidStep s)
      end
  | None =>
      match Atoi s with
      | None => Err (InvalidField s)
      | Some n => if (n <? minVal) || (maxVal <? n) then Err (OutOfRange s)
                  else Ok {| star := false; step := 0; val := n |}
      end
  end.

Record cronSpec := {
  minute : cronField; hour : cronField; dom : cronField; month : cronField; dow : cronField }.

#[local] Open Scope go_scope.

Definition parseCronSpec (spec : string) : result cron_error cronSpec :=
  match Fields (TrimSpace spec) with
  | [f0; f1; f2; f3; f4] =>
      let! mi := parseCronField f0 0 59 in
      let! ho := parseCronField f1 0 23 in
      let! dm := parseCronField f2 1 31 in
      let! mo := parseCronField f3 1 12 in
      let! dw := parseCronField f4 0 6 in
      Ok {| minute := mi; hour := ho; dom := dm; month := mo; dow := dw |}
  | l => Err (FieldCount (length l))
  end.

Definition cronMatches (c : cronSpec) (t : Z) : bool :=
  if negb (match_field (minute c) (Minute t)) then false
  else if negb (match_field (hour c) (Hour t)) then false
  else if negb (match_field (month c) (Month t)) then false
  else
    let domStar := star (dom c) && (step (dom c) <=? 1) in
    let dowStar := star (dow c) && (step (dow c) <=? 1) in
    let domHit := match_field (dom c) (Day t) in
    let dowHit := match_field (dow c) (Weekday t) in
    if domStar && dowStar then true
    else if domStar then dowHit
    else if dowStar then domHit
    else domHit || dowHit.

Definition maxSteps : positive := 527040.

(** At most [n] steps of one minute from [t]: the first match, or the time reached. *)
Fixpoint search (c : cronSpec) (n : positive) (t : Z) : Z + Z :=
  match n with
  | xH => if cronMatches c t then inl t else inr (t + minute_ns)
  | xO n' => match search c n' t with inl r => inl r | inr t' => search c n' t' end
  | xI n' =>
      if cronMatches c t then inl t else
      match search c n' (t + minute_ns) with inl r => inl r | inr t' => search c n' t' end
  end.

Definition first_slot (after : Z) : Z := Truncate (after + minute_ns).

Definition nextCronRun (spec : string) (after : Z) : result cron_error Z :=
  let! c := parseCronSpec spec in
  match search c maxSteps (first_slot after) with inl t => Ok t | inr _ => Err NoMatch end.

Example every_quarter : nextCronRun "*/15 * * * *" (1709210040 * 1000000000) = Ok (1709210700 * 1000000000).
Proof. by vm_compute. Qed.
Example two_stars : nextCronRun "0 9 * *" 0 = Err (FieldCount 4).
Proof. reflexivity. Qed.
Example monday_nine : nextCronRun "0 9 * * 1" (1709210040 * 1000000000) = Ok (1709542800 * 1000000000).
Proof. by vm_compute. Qed.

(** ** The search is linear *)

Lemma search_spec c n t :
  match search c n t with
  | inl r => exists k, 0 <= k < Z.pos n /\ r = t + k * minute_ns /\ cronMatches c r = true /\
               forall j, 0 <= j < k -> cronMatches c (t + j * minute_ns) = false
  | inr t' => t' = t + Z.pos n * minute_ns /\
               forall j, 0 <= j < Z.pos n -> cronMatches c (t + j * minute_ns) = false
  end.
Proof.
  assert (forall n, (forall t, match search c n t with
    | inl r => exists k, 0 <= k < Z.pos n /\ r = t + k * minute_ns /\ cronMatches c r = true /\
                 forall j, 0 <= j < k -> cronMatches c (t + j * minute_ns) = false
    | inr t' => t' = t + Z.pos n * minute_ns /\
                 forall j, 0 <= j < Z.pos n -> cronMatches c (t + j * minute_ns) = false
    end) -> forall t, match match search c n t with inl r => inl r | inr t' => search c n t' end with
    | inl r => exists k, 0 <= k < Z.pos n~0 /\ r = t + k * minute_ns /\ cronMatches c r = true /\
                 forall j, 0 <= j < k -> cronMatches c (t + j * minute_ns) = false
    | inr t' => t' = t + Z.pos n~0 * minute_ns /\
                 forall j, 0 <= j < Z.pos n~0 -> cronMatches c (t + j * minute_ns) = false
    end) as Hdouble.
  { clear n t. intros n H t. pose proof (H t) as H1. destruct (search c n t) as [r|t1].
    - destruct H1 as (k & ? & ? & ? & ?). exists k. split; [lia|done].
    - destruct H1 as [-> H1]. pose proof (H (t + Z.pos n * minute_ns)) as H2.
      destruct (search c n (t + Z.pos n * minute_ns)) as [r|t2].
      + destruct H2 as (k & Hk & -> & Hm & H2). exists (Z.pos n + k). split_and!; [lia|lia|lia| |].
        * by replace (t + (Z.pos n + k) * minute_ns) with (t + Z.pos n * minute_ns + k * minute_ns) by lia.
        * intros j Hj. destruct (Z.ltb_spec j (Z.pos n)); [apply H1; lia|].
          replace (t + j * minute_ns) with (t + Z.pos n * minute_ns + (j - Z.pos n) * minute_ns) by lia.
          apply H2. lia.
      + destruct H2 as [-> H2]. split; [lia|]. intros j Hj.
        destruct (Z.ltb_spec j (Z.pos n)); [apply H1; lia|].
        replace (t + j * minute_ns) with (t + Z.pos n * minute_ns + (j - Z.pos n) * minute_ns) by lia.
        apply H2. lia. }
  revert t. induction n as [n IH|n IH|]; intros t; cbn [search].
  - destruct (cronMatches c t) eqn:E.
    { exists 0. replace (t + 0 * minute_ns) with t by lia. split_and!; [lia|lia|done|done|lia]. }
    specialize (Hdouble n IH (t + minute_ns)).
    destruct (match search c n (t + minute_ns) with inl r => inl r | inr t' => search c n t' end) as [r|t'].
    + destruct Hdouble as (k & Hk & -> & Hm & Hj). exists (k + 1). split_and!; [lia|lia|lia|done|].
      intros j Hj'. destruct (Z.eqb_spec j 0) as [->|]; [by replace (t + 0 * minute_ns) with t by lia|].
      replace (t + j * minute_ns) with (t + minute_ns + (j - 1) * minute_ns) by lia. apply Hj. lia.
    + destruct Hdouble as [-> Hj]. split; [lia|]. intros j Hj'.
      destruct (Z.eqb_spec j 0) as [->|]; [by replace (t + 0 * minute_ns) with t by lia|].
      replace (t + j * minute_ns) with (t + minute_ns + (j - 1) * minute_ns) by lia. apply Hj. lia.
  - apply Hdouble, IH.
  - destruct (cronMatches c t) eqn:E.
    + exists 0. replace (t + 0 * minute_ns) with t by lia. split_and!; [lia|lia|done|done|lia].
    + split; [lia|]. intros j Hj. replace j with 0 by lia. by replace (t + 0 * minute_ns) with t by lia.
Qed.

(** ** The next run *)

Lemma parseCronField_error s lo hi : parseCronField s lo hi <> Err NoMatch.
Proof. unfold parseCronField. intros H. repeat (case_match_hyp H; try discriminate H). Qed.

Lemma parseCronSpec_error spec : parseCronSpec spec <> Err NoMatch.
Proof.
  unfold parseCronSpec. intros H. repeat (case_match_hyp H; try discriminate H).
  all: injection H as ->; by eapply parseCronField_error.
Qed.

Lemma first_slot_spec after :
  after < first_slot after <= after + minute_ns /\ first_slot after mod minute_ns = 0.
Proof.
  unfold first_slot, Truncate. set (x := after + minute_ns).
  assert (0 < minute_ns) as Hm by reflexivity.
  pose proof (Z.mod_pos_bound x minute_ns Hm). split; [lia|].
  rewrite Zminus_mod_idemp_r. by rewrite Z.sub_diag, Zmod_0_l.
Qed.

(** The minutes after [after] are the slots of the search. *)
Lemma slot_index after u :
  u mod minute_ns = 0 -> after < u -> exists j, 0 <= j /\ u = first_slot after + j * minute_ns.
Proof.
  intros Hu Hlt. destruct (first_slot_spec after) as [Hb Hf].
  assert (0 < minute_ns) as Hm by reflexivity.
  pose proof (Z.div_mod u minute_ns ltac:(lia)) as Du.
  pose proof (Z.div_mod (first_slot after) minute_ns ltac:(lia)) as Df.
  exists (u / minute_ns - first_slot after / minute_ns). split; [|lia].
  destruct (Z.ltb_spec (u / minute_ns) (first_slot after / minute_ns)); [|lia].
  exfalso. assert (u <= first_slot after - minute_ns) by nia. lia.
Qed.

(** a cron job runs at the first minute after the given time that its spec
    matches, never earlier and never skipping one; the only other outcomes are a
    spec that does not parse and one that no minute of the next 366 days matches. *)
Theorem nextCronRun_first (spec : string) (after : Z) :
  match nextCronRun spec after with
  | Ok t => exists c, parseCronSpec spec = Ok c /\ after < t /\ t mod minute_ns = 0 /\
      cronMatches c t = true /\
      forall u, u mod minute_ns = 0 -> after < u < t -> cronMatches c u = false
  | Err NoMatch => exists c, parseCronSpec spec = Ok c /\
      forall u, u mod minute_ns = 0 -> after < u <= after + 366 * 1440 * minute_ns ->
      cronMatches c u = false
  | Err e => parseCronSpec spec = Err e
  end.
Proof.
  unfold nextCronRun. pose proof (parseCronSpec_error spec) as Hne.
  destruct (parseCronSpec spec) as [c|e]; cbv beta iota; [|destruct e; done].
  pose proof (search_spec c maxSteps (first_slot after)) as Hs.
  destruct (first_slot_spec after) as [Hb Hf]. assert (0 < minute_ns) as Hm by reflexivity.
  destruct (search c maxSteps (first_slot after)) as [t|t'].
  - destruct Hs as (k & Hk & -> & Ht & Hj). exists c. split_and!; [done|nia| |done|].
    + by rewrite Z.mod_add by lia.
    + intros u Hu Hlt. destruct (slot_index after u Hu ltac:(lia)) as (j & ? & ->). apply Hj. nia.
  - destruct Hs as [_ Hj]. exists c. split; [done|]. intros u Hu Hlt.
    destruct (slot_index after u Hu ltac:(lia)) as (j & ? & ->). apply Hj.
    change (Z.pos maxSteps) with 527040. nia.
Qed.

(** A whole number of minutes at midnight is a whole number of days. *)
Lemma midnight q :
  Minute (q * minute_ns) = 0 -> Hour (q * minute_ns) = 0 -> q = 1440 * (q / 1440).
Proof.
  unfold Minute, Hour. assert (0 < minute_ns) as Hm by reflexivity.
  rewrite Z.div_mul by lia. rewrite (Z.mul_comm 60), <- Z.div_div, Z.div_mul by lia.
  Z.to_euclidean_division_equations. lia.
Qed.

Lemma days_minutes q : days (q * minute_ns) = q / 1440.
Proof.
  unfold days. assert (0 < minute_ns) as Hm by reflexivity.
  by rewrite (Z.mul_comm 1440), <- Z.div_div, Z.div_mul by lia.
Qed.

Definition leap_spec : cronSpec :=
  let lit v := {| star := false; step := 0; val := v |} in
  let any := {| star := true; step := 0; val := 0 |} in
  {| minute := lit 0; hour := lit 0; dom := lit 29; month := lit 2; dow := any |}.

Definition feb29_2024 : Z := 19782 * 1440 * minute_ns.

Lemma leap_matches q :
  cronMatches leap_spec (q * minute_ns) = true ->
  exists d, q = 1440 * d /\ civil d = (2, 29).
Proof.
  unfold cronMatches. cbn [minute hour dom month dow leap_spec match_field star step val].
  change (0 <=? 1) with true. cbn [andb].
  destruct (Z.eqb_spec (Minute (q * minute_ns)) 0) as [E1|]; [|done]. cbn [negb].
  destruct (Z.eqb_spec (Hour (q * minute_ns)) 0) as [E2|]; [|done]. cbn [negb].
  destruct (Z.eqb_spec (Month (q * minute_ns)) 2) as [E3|]; [|done]. cbn [negb].
  intros E4%Z.eqb_eq. exists (q / 1440). split; [by apply midnight|].
  unfold Month, Day in *. rewrite days_minutes in *.
  destruct (civil (q / 1440)). cbn in *. congruence.
Qed.

(** The year bound is meant for unsatisfiable specs, but a leap-day job is one the
    loop gives up on too: after its run on 2024-02-29 it has no next run. *)
Lemma leap_day_not_found : nextCronRun "0 0 29 2 *" feb29_2024 = Err NoMatch.
Proof.
  unfold nextCronRun. change (parseCronSpec "0 0 29 2 *") with (@Ok cron_error _ leap_spec).
  cbv beta iota. pose proof (search_spec leap_spec maxSteps (first_slot feb29_2024)) as Hs.
  destruct (search leap_spec maxSteps (first_slot feb29_2024)) as [t|t']; [|done]. exfalso.
  destruct Hs as (k & Hk & -> & Ht & _). change (Z.pos maxSteps) with 527040 in Hk.
  replace (first_slot feb29_2024 + k * minute_ns) with ((19782 * 1440 + 1 + k) * minute_ns) in Ht.
  2: { change (first_slot feb29_2024) with ((19782 * 1440 + 1) * minute_ns). lia. }
  apply leap_matches in Ht as (d & Hd & Hc).
  assert (forallb (fun n => negb (bool_decide (civil (19783 + Z.of_nat n) = (2, 29)))) (seq 0 366) = true)
    as Hall by (by vm_compute).
  rewrite forallb_forall in Hall. specialize (Hall (Z.to_nat (d - 19783))).
  rewrite in_seq in Hall. rewrite Z2Nat.id in Hall by lia.
  replace (19783 + (d - 19783)) with d in Hall by lia. rewrite Hc in Hall.
  rewrite bool_decide_eq_true_2 in Hall by done. discriminate Hall. lia.
Qed.
