(* ===== verification/Netguard.v ===== *)
(** The guard against fetches from private addresses: [internal/netguard/public.go].

    An address is its bytes, four or sixteen ([net.IP]); a nil address is empty.
    The DNS resolver and the dialler are parameters; the split of an address into
    host and port is taken as done.  [allow] is the value of allowPrivateFetch. *)

From Stdlib Require Import Ascii String.
From stdpp Require Import sets.
From S2P Require Import Prelude GoStrings.

#[local] Open Scope string_scope.
#[local] Open Scope list_scope.
#[local] Open Scope Z_scope.

(** ** net.IP *)

Definition IP := list Z.

Definition byte (ip : list Z) (i : nat) : Z := nth i ip 0.

Definition all_zero (l : list Z) : bool := forallb (Z.eqb 0) l.

Definition To4 (ip : IP) : option (list Z) :=
  if Nat.eqb (length ip) 4 then Some ip
  else if Nat.eqb (length ip) 16 && all_zero (firstn 10 ip)
          && (byte ip 10 =? 255) && (byte ip 11 =? 255)
  then Some (skipn 12 ip)
  else None.

Definition is16 (ip : IP) : bool := Nat.eqb (length ip) 16.

Definition IsLoopback (ip : IP) : bool :=
  match To4 ip with
  | Some ip4 => byte ip4 0 =? 127
  | None => is16 ip && all_zero (firstn 15 ip) && (byte ip 15 =? 1)
  end.

Definition IsPrivate (ip : IP) : bool :=
  match To4 ip with
  | Some ip4 =>
      (byte ip4 0 =? 10)
      || ((byte ip4 0 =? 172) && (Z.land (byte ip4 1) 240 =? 16))
      || ((byte ip4 0 =? 192) && (byte ip4 1 =? 168))
  | None => is16 ip && (Z.land (byte ip 0) 254 =? 252)
  end.

Definition IsMulticast (ip : IP) : bool :=
  match To4 ip with
  | Some ip4 => Z.land (byte ip4 0) 240 =? 224
  | None => is16 ip && (byte ip 0 =? 255)
  end.

Definition IsInterfaceLocalMulticast (ip : IP) : bool :=
  is16 ip && (byte ip 0 =? 255) && (Z.land (byte ip 1) 15 =? 1).

Definition IsLinkLocalMulticast (ip : IP) : bool :=
  match To4 ip with
  | Some ip4 => (byte ip4 0 =? 224) && (byte ip4 1 =? 0) && (byte ip4 2 =? 0)
  | None => is16 ip && (byte ip 0 =? 255) && (Z.land (byte ip 1) 15 =? 2)
  end.

Definition IsLinkLocalUnicast (ip : IP) : bool :=
  match To4 ip with
  | Some ip4 => (byte ip4 0 =? 169) && (byte ip4 1 =? 254)
  | None => is16 ip && (byte ip 0 =? 254) && (Z.land (byte ip 1) 192 =? 128)
  end.

Definition IsUnspecified (ip : IP) : bool :=
  match To4 ip with
  | Some ip4 => all_zero ip4
  | None => is16 ip && all_zero ip
  end.

(** ** public.go *)

Definition IsPublicIP (ip : IP) : bool :=
  if Nat.eqb (length ip) 0 then false
  else if IsLoopback ip || IsLinkLocalUnicast ip || IsLinkLocalMulticast ip
          || IsInterfaceLocalMulticast ip || IsMulticast ip || IsUnspecified ip || IsPrivate ip
  then false
  else match To4 ip with
       | Some ip4 => negb ((byte ip4 0 =? 100) && (64 <=? byte ip4 1) && (byte ip4 1 <=? 127))
       | None => true
       end.

(** The switch on the environment variable. *)
Definition allowPrivateFetch (env : string) : bool :=
  let v := ToLower (TrimSpace env) in
  bool_decide (v = "1") || bool_decide (v = "true") || bool_decide (v = "yes").

Inductive guard_error :=
  | MissingHost | NotPublic (host : string) | ResolveFailed (host : string)
  | NoAddresses (host : string) | BadAddress | DialFailed | NothingToDial.

Section Guard.
Variable allow : bool.
Variable LookupIPAddr : string -> option (list IP).

Definition resolvePublicIPs (host : string) : result guard_error (list IP) :=
  if bool_decide (host = "") then Err MissingHost
  else if allow then Ok []
  else if EqualFold host "localhost" then Err (NotPublic host)
  else match LookupIPAddr host with
  | None => Err (ResolveFailed host)
  | Some [] => Err (NoAddresses host)
  | Some addrs => if forallb IsPublicIP addrs then Ok addrs else Err (NotPublic host)
  end.

Definition AssertPublicHost (host : string) : result guard_error unit :=
  match resolvePublicIPs host with Ok _ => Ok tt | Err e => Err e end.

(** The context carries the pinned addresses, if any. *)
Definition PinPublicHosts (ctx : option (list IP)) (host : string)
  : result guard_error (option (list IP)) :=
  if allow then Ok ctx else
  match resolvePublicIPs host with
  | Ok addrs => Ok (Some addrs)
  | Err e => Err e
  end.

(** The dial loop: the addresses tried in order, and the one connected to. *)
Fixpoint dial_loop (dial : IP -> bool) (ips : list IP) : list IP * option IP :=
  match ips with
  | [] => ([], None)
  | ip :: rest =>
      if dial ip then ([ip], Some ip)
      else let '(tried, r) := dial_loop dial rest in (ip :: tried, r)
  end.

(** What a dial does: with private fetches allowed the host is dialled as it is. *)
Inductive dialled := Unguarded | Guarded (tried : list IP) (res : result guard_error IP).

Definition DialContext (dial : IP -> bool) (ctx : option (list IP))
    (addr : option (string * string)) : dialled :=
  if allow then Unguarded else
  match addr with
  | None => Guarded [] (Err BadAddress)
  | Some (host, _) =>
      let go ips :=
        let '(tried, r) := dial_loop dial ips in
        Guarded tried (match r with
                       | Some ip => Ok ip
                       | None => Err (match ips with [] => NothingToDial | _ => DialFailed end)
                       end) in
      match ctx with
      | Some ((_ :: _) as ips) => go ips
      | _ => match resolvePublicIPs host with
             | Ok ips => go ips
             | Err e => Guarded [] (Err e)
             end
      end
  end.

(** The contexts a request can carry: none, or pinned by PinPublicHosts, for the
    first host or for the host of a redirect. *)
Inductive ctx_of : option (list IP) -> Prop :=
  | ctx_none : ctx_of None
  | ctx_pin ctx host ctx' : ctx_of ctx -> PinPublicHosts ctx host = Ok ctx' -> ctx_of ctx'.

Lemma resolvePublicIPs_public host ips :
  resolvePublicIPs host = Ok ips -> Forall (fun ip => IsPublicIP ip = true) ips.
Proof.
  unfold resolvePublicIPs. intros H. repeat (case_match_hyp H; try discriminate H);
    injection H as <-; [constructor|].
  match goal with E : forallb _ _ = true |- _ => rewrite forallb_forall in E;
    apply list.Forall_forall; intros ip Hip; apply E; by apply list_elem_of_In end.
Qed.

Lemma ctx_public ctx :
  ctx_of ctx -> Forall (fun ip => IsPublicIP ip = true) (default [] ctx).
Proof.
  induction 1 as [|ctx host ctx' _ IH Hp]; [constructor|]. unfold PinPublicHosts in Hp.
  destruct allow; [by injection Hp as <-|].
  destruct (resolvePublicIPs host) as [ips|] eqn:E; [|done]. injection Hp as <-. cbn.
  by eapply resolvePublicIPs_public.
Qed.

Lemma dial_loop_tried dial ips :
  let '(tried, r) := dial_loop dial ips in
  (forall ip, ip ∈ tried -> ip ∈ ips) /\ (forall ip, r = Some ip -> ip ∈ tried).
Proof.
  induction ips as [|ip ips IH]; cbn; [done|]. destruct (dial ip).
  - split; [set_solver|]. intros ? [= <-]. by left.
  - destruct (dial_loop dial ips) as [tried r]. destruct IH as [H1 H2].
    split; [set_solver|]. intros x Hx. right. auto.
Qed.

(** with the guard on, every address that is dialled, for the first request or
    after any number of redirects, pinned or resolved at dial time, is a public
    one that the resolver returned, whatever the resolver answers later. *)
Theorem dial_only_public (dial : IP -> bool) (ctx : option (list IP))
    (addr : option (string * string)) (Hguard : allow = false) (Hctx : ctx_of ctx) :
  exists tried res, DialContext dial ctx addr = Guarded tried res /\
    (forall ip, ip ∈ tried -> IsPublicIP ip = true) /\
    (forall ip, res = Ok ip -> ip ∈ tried).
Proof.
  unfold DialContext. rewrite Hguard. destruct addr as [[host port]|]; [|eexists _, _; split; [done|set_solver]].
  assert (forall ips, Forall (fun ip => IsPublicIP ip = true) ips ->
    exists tried res, (let '(tried, r) := dial_loop dial ips in
        Guarded tried (match r with Some ip => Ok ip
          | None => Err (match ips with [] => NothingToDial | _ => DialFailed end) end)) = Guarded tried res /\
      (forall ip, ip ∈ tried -> IsPublicIP ip = true) /\ (forall ip, res = Ok ip -> ip ∈ tried)) as Hgo.
  { intros ips Hips. pose proof (dial_loop_tried dial ips) as Hd.
    destruct (dial_loop dial ips) as [tried r]. destruct Hd as [H1 H2].
    eexists _, _. split; [done|]. rewrite list.Forall_forall in Hips. split; [auto|].
    intros ip. destruct r; [intros [= <-]; auto|done]. }
  pose proof (ctx_public ctx Hctx) as Hc.
  destruct ctx as [[|ip ips]|]; [|by apply Hgo|];
    (destruct (resolvePublicIPs host) as [ips|] eqn:E;
      [apply Hgo; by eapply resolvePublicIPs_public|eexists _, _; split; [done|set_solver]]).
Qed.
End Guard.

Lemma dial_only_public_witness :
  exists tried res,
    DialContext false (fun _ => Some [[8; 8; 8; 8]]) (fun _ => true) (Some [[8; 8; 8; 8]])
      (Some ("example.com", "443")) = Guarded tried res /\
    (forall ip, ip ∈ tried -> IsPublicIP ip = true) /\ (forall ip, res = Ok ip -> ip ∈ tried).
Proof.
  apply dial_only_public; [reflexivity|].
  apply (ctx_pin _ _ None "example.com"); [constructor|reflexivity].
Defined.

(** ** The address ranges *)

Definition ipv4 (a b c d : Z) : Z := ((a * 256 + b) * 256 + c) * 256 + d.

(** Membership in [base/len] among [w]-bit addresses. *)
Definition in_cidr (w len base n : Z) : bool := n / 2 ^ (w - len) =? base / 2 ^ (w - len).

(** The ranges the documentation lists for IPv4, with multicast and 0.0.0.0. *)
Definition refused_v4 (n : Z) : bool :=
  in_cidr 32 8 (ipv4 127 0 0 0) n || in_cidr 32 16 (ipv4 169 254 0 0) n
  || in_cidr 32 8 (ipv4 10 0 0 0) n || in_cidr 32 12 (ipv4 172 16 0 0) n
  || in_cidr 32 16 (ipv4 192 168 0 0) n || in_cidr 32 10 (ipv4 100 64 0 0) n
  || in_cidr 32 4 (ipv4 224 0 0 0) n || in_cidr 32 32 (ipv4 0 0 0 0) n.

Definition is_byte (a : Z) : Prop := 0 <= a < 256.

(** A test on a byte that holds of all of them. *)
Lemma byte_cases (f : Z -> bool) a :
  forallb (fun n => f (Z.of_nat n)) (seq 0 256) = true -> is_byte a -> f a = true.
Proof.
  rewrite forallb_forall. intros H Ha. specialize (H (Z.to_nat a)). rewrite in_seq in H.
  rewrite Z2Nat.id in H by (unfold is_byte in Ha; lia). apply H. unfold is_byte in Ha. lia.
Qed.

Lemma land_240 a k : is_byte a -> 0 <= k < 16 -> (Z.land a 240 =? 16 * k) = (a / 16 =? k).
Proof.
  intros Ha Hk.
  assert (Z.land a 240 = 16 * (a / 16)) as ->.
  { apply Z.eqb_eq. by apply (byte_cases (fun a => Z.land a 240 =? 16 * (a / 16))). }
  destruct (Z.eqb_spec (16 * (a / 16)) (16 * k)), (Z.eqb_spec (a / 16) k); lia.
Qed.

Lemma cidr_8 x a b c d :
  is_byte b -> is_byte c -> is_byte d ->
  in_cidr 32 8 (ipv4 x 0 0 0) (ipv4 a b c d) = (a =? x).
Proof.
  unfold is_byte, in_cidr, ipv4. intros. change (2 ^ (32 - 8)) with 16777216.
  replace ((((a * 256 + b) * 256 + c) * 256 + d) / 16777216) with a
    by (apply (Z.div_unique_pos _ _ _ ((b * 256 + c) * 256 + d)); lia).
  by replace ((((x * 256 + 0) * 256 + 0) * 256 + 0) / 16777216) with x
    by (apply (Z.div_unique_pos _ _ _ 0); lia).
Qed.

Lemma cidr_16 x y a b c d :
  is_byte y -> is_byte b -> is_byte c -> is_byte d ->
  in_cidr 32 16 (ipv4 x y 0 0) (ipv4 a b c d) = (a =? x) && (b =? y).
Proof.
  unfold is_byte, in_cidr, ipv4. intros. change (2 ^ (32 - 16)) with 65536.
  replace ((((a * 256 + b) * 256 + c) * 256 + d) / 65536) with (a * 256 + b)
    by (apply (Z.div_unique_pos _ _ _ (c * 256 + d)); lia).
  replace ((((x * 256 + y) * 256 + 0) * 256 + 0) / 65536) with (x * 256 + y)
    by (apply (Z.div_unique_pos _ _ _ 0); lia).
  destruct (Z.eqb_spec (a * 256 + b) (x * 256 + y)), (Z.eqb_spec a x), (Z.eqb_spec b y); lia.
Qed.

(** On IPv4, written with four bytes or mapped into sixteen, the guard refuses
    exactly loopback, link-local, the private and carrier-grade ranges, multicast
    and the unspecified address. *)
Theorem IsPublicIP_v4 (a b c d : Z) (Ha : is_byte a) (Hb : is_byte b) (Hc : is_byte c) (Hd : is_byte d) :
  IsPublicIP [a; b; c; d] = negb (refused_v4 (ipv4 a b c d)) /\
  IsPublicIP [0; 0; 0; 0; 0; 0; 0; 0; 0; 0; 255; 255; a; b; c; d] = IsPublicIP [a; b; c; d].
Proof.
  split; [|reflexivity]. unfold refused_v4. rewrite !cidr_8, !cidr_16 by (done || (unfold is_byte; lia)).
  assert (in_cidr 32 12 (ipv4 172 16 0 0) (ipv4 a b c d) = (a =? 172) && (b / 16 =? 1)) as ->.
  { unfold in_cidr, ipv4, is_byte in *. change (2 ^ (32 - 12)) with 1048576.
    change ((((172 * 256 + 16) * 256 + 0) * 256 + 0) / 1048576) with (172 * 16 + 1).
    replace ((((a * 256 + b) * 256 + c) * 256 + d) / 1048576) with (a * 16 + b / 16)
      by (Z.to_euclidean_division_equations; lia).
    destruct (Z.eqb_spec (a * 16 + b / 16) (172 * 16 + 1)), (Z.eqb_spec a 172), (Z.eqb_spec (b / 16) 1);
      Z.to_euclidean_division_equations; lia. }
  assert (in_cidr 32 10 (ipv4 100 64 0 0) (ipv4 a b c d) = (a =? 100) && (64 <=? b) && (b <=? 127)) as ->.
  { unfold in_cidr, ipv4, is_byte in *. change (2 ^ (32 - 10)) with 4194304.
    change ((((100 * 256 + 64) * 256 + 0) * 256 + 0) / 4194304) with (100 * 4 + 1).
    replace ((((a * 256 + b) * 256 + c) * 256 + d) / 4194304) with (a * 4 + b / 64)
      by (Z.to_euclidean_division_equations; lia).
    destruct (Z.eqb_spec (a * 4 + b / 64) (100 * 4 + 1)), (Z.eqb_spec a 100), (Z.leb_spec 64 b), (Z.leb_spec b 127);
      cbn; Z.to_euclidean_division_equations; lia. }
  assert (in_cidr 32 4 (ipv4 224 0 0 0) (ipv4 a b c d) = (a / 16 =? 14)) as ->.
  { unfold in_cidr, ipv4, is_byte in *. change (2 ^ (32 - 4)) with 268435456.
    change ((((224 * 256 + 0) * 256 + 0) * 256 + 0) / 268435456) with 14.
    by replace ((((a * 256 + b) * 256 + c) * 256 + d) / 268435456) with (a / 16)
      by (Z.to_euclidean_division_equations; lia). }
  assert (in_cidr 32 32 (ipv4 0 0 0 0) (ipv4 a b c d) = all_zero [a; b; c; d]) as ->.
  { unfold in_cidr, ipv4, is_byte in *. change (2 ^ (32 - 32)) with 1.
    rewrite Z.div_1_r. change ((((0 * 256 + 0) * 256 + 0) * 256 + 0) / 1) with 0. cbn [all_zero forallb].
    destruct (Z.eqb_spec ((((a * 256 + b) * 256 + c) * 256) + d) 0), (Z.eqb_spec 0 a), (Z.eqb_spec 0 b),
      (Z.eqb_spec 0 c), (Z.eqb_spec 0 d); lia. }
  assert ((Z.land a 240 =? 224) = (a / 16 =? 14)) as Hm by (by apply (land_240 a 14)).
  assert ((Z.land b 240 =? 16) = (b / 16 =? 1)) as Hp by (by apply (land_240 b 1)).
  unfold IsPublicIP, IsLoopback, IsLinkLocalUnicast, IsLinkLocalMulticast, IsInterfaceLocalMulticast,
    IsMulticast, IsUnspecified, IsPrivate. cbn [length Nat.eqb To4 is16 byte nth andb].
  rewrite Hm, Hp.
  destruct (Z.eqb_spec a 224) as [->|].
  { change (224 / 16 =? 14) with true. by rewrite !orb_true_r. }
  cbn [andb orb].
  set (z := all_zero [a; b; c; d]).
  destruct (a =? 127), ((a =? 169) && (b =? 254)), (a =? 10), ((a =? 172) && (b / 16 =? 1)),
    ((a =? 192) && (b =? 168)), (a / 16 =? 14), z, ((a =? 100) && (64 <=? b) && (b <=? 127)); reflexivity.
Qed.

Lemma IsPublicIP_v4_witness :
  IsPublicIP [100; 127; 255; 255] = false /\
  IsPublicIP [0; 0; 0; 0; 0; 0; 0; 0; 0; 0; 255; 255; 100; 127; 255; 255] = false.
Proof.
  destruct (IsPublicIP_v4 100 127 255 255) as [H1 H2]; [unfold is_byte; lia..|].
  rewrite H2, H1. split; reflexivity.
Defined.

(** IPv6 forms of a private IPv4 address other than the mapped one are let through:
    the NAT64 prefix 64:ff9b::/96 and the IPv4-compatible form ::127.0.0.1. *)
Example embedded_loopback_public :
  IsPublicIP [0; 100; 255; 155; 0; 0; 0; 0; 0; 0; 0; 0; 127; 0; 0; 1] = true /\
  IsPublicIP [0; 0; 0; 0; 0; 0; 0; 0; 0; 0; 0; 0; 127; 0; 0; 1] = true.
Proof. done. Qed.

(** Reserved addresses that are not routable count as public. *)
Example reserved_public : IsPublicIP [240; 0; 0; 1] = true /\ IsPublicIP [0; 1; 2; 3] = true.
Proof. done. Qed.
