(* ===== verification/TaskStore.v ===== *)
(** Task rows and the operations of the store that touch them:
    [internal/store/models.go] (Task), [internal/store/sqlite/task.go],
    [internal/taskstatus/taskstatus.go], [internal/tasks/kinds.go].

    Times are nanoseconds since the epoch; a column keeps whole seconds.  The
    columns that Go reads through [sql.NullString] hold "" for NULL, as every
    writer binds them with [nullString].  [status_history_json] is the list of its
    entries.  The process-wide [clock.Default] is a field of the state because the
    store stamps rows with it.  Driver errors of SQLite are not modelled. *)

From Stdlib Require Import Ascii String.
From stdpp Require Import gmap strings.
From S2P Require Import Prelude GoStrings Hlc.

#[local] Open Scope string_scope.
#[local] Open Scope list_scope.
#[local] Open Scope Z_scope.

(** ** taskstatus *)

Inductive Kind := KindOpen | KindWorking | KindBlocked | KindReview | KindDone | KindCancelled.
#[export] Instance Kind_eq_dec : EqDecision Kind.
Proof. solve_decision. Defined.

Definition DefaultKinds : list (string * Kind) :=
  [("open", KindOpen); ("todo", KindOpen);
   ("doing", KindWorking); ("in_progress", KindWorking); ("in-progress", KindWorking);
   ("inprogress", KindWorking); ("running", KindWorking); ("active", KindWorking);
   ("wip", KindWorking); ("started", KindWorking); ("ongoing", KindWorking);
   ("blocked", KindBlocked); ("waiting", KindBlocked); ("stuck", KindBlocked);
   ("paused", KindBlocked); ("on_hold", KindBlocked); ("on-hold", KindBlocked);
   ("review", KindReview); ("in_review", KindReview); ("in-review", KindReview);
   ("needs_review", KindReview); ("needs-review", KindReview); ("awaiting_review", KindReview);
   ("done", KindDone); ("completed", KindDone); ("complete", KindDone); ("finished", KindDone);
   ("closed", KindDone); ("resolved", KindDone); ("shipped", KindDone); ("archived", KindDone);
   ("cancelled", KindCancelled); ("canceled", KindCancelled); ("abandoned", KindCancelled);
   ("wontfix", KindCancelled); ("wont-fix", KindCancelled); ("won't_fix", KindCancelled);
   ("rejected", KindCancelled)].

Definition lookup_kind (s : string) : option Kind :=
  snd <$> List.find (fun p => bool_decide (p.1 = s)) DefaultKinds.

Definition Normalize (status : string) : string := ToLower (TrimSpace status).

Definition DefaultKind (status : string) : option Kind := lookup_kind (Normalize status).

Definition IsTerminalKind (k : Kind) : bool :=
  match k with KindDone | KindCancelled => true | _ => false end.

(** ** Rows *)

Record TaskStatusHistoryEntry := {
  h_At : Z; h_BySession : string; h_ByPeer : string; h_Evt : string;
  h_From : string; h_To : string; h_Note : string }.

(** [store.Task], its fields grouped by what writes them. *)
Record Content := {
  Title : string; Description : string; Status : string; ClosedAt : option Z;
  Priority : string; DueAt : option Z; TagsJSON : string; Meta : string }.
Record Assignment := {
  AssigneeSessionID : string; AssigneeOriginKind : string; AssigneePeerID : string;
  AssigneeUserID : string; AssignedBySessionID : string; AssignedByPeerID : string;
  AssignedAt : option Z; LeaseExpiresAt : option Z }.
Record Provenance := {
  SourceKind : string; SourceSessionID : string; SourceToolCallID : string;
  CreatedBySessionID : string; OriginPeerID : string; CreatedAt : Z }.
Record VisibilityState := {
  OwnerPrincipalID : string; Visibility : string; VisibilityEpoch : Z;
  VisibilityUpdatedByPrincipalID : string; VisibilityUpdatedAt : option Z }.
Record Task := {
  ID : string; WorkspaceID : string;
  content : Content; assignment : Assignment; provenance : Provenance;
  visibility : VisibilityState;
  UpdatedBySessionID : string; StatusHistory : list TaskStatusHistoryEntry;
  HlcAt : string; RemoteBaseHLC : string; Pinned : bool;
  DeletedAt : option Z; UpdatedAt : Z }.

#[export] Instance TaskStatusHistoryEntry_eq_dec : EqDecision TaskStatusHistoryEntry.
Proof. solve_decision. Defined.
#[export] Instance Content_eq_dec : EqDecision Content.
Proof. solve_decision. Defined.
#[export] Instance Assignment_eq_dec : EqDecision Assignment.
Proof. solve_decision. Defined.
#[export] Instance Provenance_eq_dec : EqDecision Provenance.
Proof. solve_decision. Defined.
#[export] Instance VisibilityState_eq_dec : EqDecision VisibilityState.
Proof. solve_decision. Defined.
#[export] Instance Task_eq_dec : EqDecision Task.
Proof. solve_decision. Defined.

Record VocabRow := { IsTerminal : bool; v_Kind : string }.

Record TaskHistoryRow := {
  th_TaskID : string; th_Revision : Z; th_Action : string;
  th_Before : option Task; th_After : option Task }.

Record TaskDB := {
  tasks : gmap string Task;
  vocab : gmap (string * string) VocabRow;
  task_history : list TaskHistoryRow;
  clock : Clock }.

Inductive store_error :=
| ErrRequired (what : string) | ErrNotFound | ErrAlreadyExists | ErrTaskAlreadyClaimed.

Definition set_tasks (m : gmap string Task) (d : TaskDB) : TaskDB :=
  {| tasks := m; vocab := vocab d; task_history := task_history d; clock := clock d |}.
Definition set_clock (c : Clock) (d : TaskDB) : TaskDB :=
  {| tasks := tasks d; vocab := vocab d; task_history := task_history d; clock := c |}.

(** [Time.Unix] as a column value, read back with [time.Unix(v, 0)]. *)
Definition unix (t : Z) : Z := t / second * second.
Definition zero_time : Z := -62135596800 * second.

Definition normalizeJSON (data fallback : string) : string :=
  if bool_decide (data = "") then fallback else data.

Definition or_default (s d : string) : string := if bool_decide (s = "") then d else s.

(** What a write of [t] leaves in the content and assignment columns. *)
Definition content_columns (c : Content) : Content :=
  {| Title := Title c; Description := Description c; Status := Status c;
     ClosedAt := unix <$> ClosedAt c; Priority := Priority c; DueAt := unix <$> DueAt c;
     TagsJSON := normalizeJSON (TagsJSON c) "[]"; Meta := Meta c |}.
Definition assignment_columns (a : Assignment) : Assignment :=
  {| AssigneeSessionID := AssigneeSessionID a; AssigneeOriginKind := AssigneeOriginKind a;
     AssigneePeerID := AssigneePeerID a; AssigneeUserID := AssigneeUserID a;
     AssignedBySessionID := AssignedBySessionID a; AssignedByPeerID := AssignedByPeerID a;
     AssignedAt := unix <$> AssignedAt a; LeaseExpiresAt := unix <$> LeaseExpiresAt a |}.

(** [t.HlcAt], or a fresh stamp of the default clock when it is empty. *)
Definition stamp (now : Z) (h : string) (d : TaskDB) : string * TaskDB :=
  if bool_decide (h = "") then let (s, c) := Now now (clock d) in (s, set_clock c d) else (h, d).

(** ** sqlite/task.go *)

(** [ulid] is the value of [ulid.Make().String()]. *)
Definition CreateTask (ulid : string) (now : Z) (t : Task) (d : TaskDB) :
    result store_error Task * TaskDB :=
  if bool_decide (TrimSpace (Title (content t)) = "") then (Err (ErrRequired "title"), d) else
  if bool_decide (TrimSpace (WorkspaceID t) = "") then (Err (ErrRequired "workspace_id"), d) else
  let c := content t in let a := assignment t in let p := provenance t in
  let createdAt := if CreatedAt p =? zero_time then now else CreatedAt p in
  let v := visibility t in
  let (h, d) := stamp now (HlcAt t) d in
  let t :=
    {| ID := or_default (ID t) ulid; WorkspaceID := WorkspaceID t;
       content := {| Title := Title c; Description := Description c;
         Status := or_default (Status c) "open"; ClosedAt := ClosedAt c;
         Priority := or_default (Priority c) "normal"; DueAt := DueAt c;
         TagsJSON := TagsJSON c; Meta := Meta c |};
       assignment := {| AssigneeSessionID := AssigneeSessionID a;
         AssigneeOriginKind := or_default (AssigneeOriginKind a) "local";
         AssigneePeerID := AssigneePeerID a; AssigneeUserID := AssigneeUserID a;
         AssignedBySessionID := AssignedBySessionID a; AssignedByPeerID := AssignedByPeerID a;
         AssignedAt := AssignedAt a; LeaseExpiresAt := LeaseExpiresAt a |};
       provenance := {| SourceKind := or_default (SourceKind p) "agent";
         SourceSessionID := SourceSessionID p; SourceToolCallID := SourceToolCallID p;
         CreatedBySessionID := CreatedBySessionID p; OriginPeerID := OriginPeerID p;
         CreatedAt := createdAt |};
       visibility := {| OwnerPrincipalID := OwnerPrincipalID v; Visibility := "private";
         VisibilityEpoch := 1;
         VisibilityUpdatedByPrincipalID := VisibilityUpdatedByPrincipalID v;
         VisibilityUpdatedAt := Some (default createdAt (VisibilityUpdatedAt v)) |};
       UpdatedBySessionID := UpdatedBySessionID t; StatusHistory := StatusHistory t;
       HlcAt := h; RemoteBaseHLC := RemoteBaseHLC t; Pinned := Pinned t;
       DeletedAt := DeletedAt t;
       UpdatedAt := if UpdatedAt t =? zero_time then now else UpdatedAt t |} in
  match tasks d !! ID t with
  | Some _ => (Err ErrAlreadyExists, d)
  | None =>
      let row :=
        {| ID := ID t; WorkspaceID := WorkspaceID t;
           content := content_columns (content t);
           assignment := assignment_columns (assignment t);
           provenance := let p := provenance t in
             {| SourceKind := SourceKind p; SourceSessionID := SourceSessionID p;
                SourceToolCallID := SourceToolCallID p; CreatedBySessionID := CreatedBySessionID p;
                OriginPeerID := OriginPeerID p; CreatedAt := unix (CreatedAt p) |};
           visibility := let v := visibility t in
             {| OwnerPrincipalID := OwnerPrincipalID v; Visibility := Visibility v;
                VisibilityEpoch := VisibilityEpoch v;
                VisibilityUpdatedByPrincipalID := VisibilityUpdatedByPrincipalID v;
                VisibilityUpdatedAt := unix <$> VisibilityUpdatedAt v |};
           UpdatedBySessionID := UpdatedBySessionID t; StatusHistory := StatusHistory t;
           HlcAt := HlcAt t; RemoteBaseHLC := RemoteBaseHLC t; Pinned := Pinned t;
           DeletedAt := None; UpdatedAt := unix (UpdatedAt t) |} in
      (Ok t, set_tasks (<[ID t := row]> (tasks d)) d)
  end.

Definition live (t : Task) : bool := bool_decide (DeletedAt t = None).

Definition GetTask (id : string) (d : TaskDB) : result store_error Task :=
  match tasks d !! id with
  | Some t => if live t then Ok t else Err ErrNotFound
  | None => Err ErrNotFound
  end.

(** The columns of the UPDATE; [origin_peer_id], the other provenance columns and
    the visibility columns are not among them. *)
Definition UpdateTask (now : Z) (t : Task) (d : TaskDB) :
    result store_error Task * TaskDB :=
  if bool_decide (ID t = "") then (Err (ErrRequired "id"), d) else
  let (h, d) := stamp now (HlcAt t) d in
  match GetTask (ID t) d with
  | Err e => (Err e, d)
  | Ok old =>
      let row :=
        {| ID := ID old; WorkspaceID := WorkspaceID t;
           content := content_columns (content t);
           assignment := assignment_columns (assignment t);
           provenance := provenance old; visibility := visibility old;
           UpdatedBySessionID := UpdatedBySessionID t; StatusHistory := StatusHistory t;
           HlcAt := h; RemoteBaseHLC := RemoteBaseHLC t; Pinned := Pinned t;
           DeletedAt := DeletedAt old; UpdatedAt := unix now |} in
      (Ok {| ID := ID t; WorkspaceID := WorkspaceID t; content := content t;
             assignment := assignment t; provenance := provenance t;
             visibility := visibility t; UpdatedBySessionID := UpdatedBySessionID t;
             StatusHistory := StatusHistory t; HlcAt := h; RemoteBaseHLC := RemoteBaseHLC t;
             Pinned := Pinned t; DeletedAt := DeletedAt t; UpdatedAt := now |},
       set_tasks (<[ID t := row]> (tasks d)) d)
  end.

Definition unassigned (a : Assignment) : bool :=
  bool_decide (AssigneeSessionID a = "") && bool_decide (AssigneePeerID a = "") &&
  bool_decide (AssigneeUserID a = "").

(** The compare-and-swap of a claim: the WHERE clause of its UPDATE. *)
Definition claimable (claimant : string) (old : Task) : bool :=
  unassigned (assignment old) || bool_decide (AssigneeSessionID (assignment old) = claimant).

Definition ClaimTask (now : Z) (t : Task) (claimant : string) (d : TaskDB) :
    result store_error unit * TaskDB :=
  if bool_decide (ID t = "") then (Err (ErrRequired "id"), d) else
  if bool_decide (claimant = "") then (Err (ErrRequired "claimantSession"), d) else
  let (h, d) := stamp now (HlcAt t) d in
  match GetTask (ID t) d with
  | Err e => (Err e, d)
  | Ok old =>
      if claimable claimant old then
        let row :=
          {| ID := ID old; WorkspaceID := WorkspaceID old;
             content := content_columns (content t);
             assignment := assignment_columns (assignment t);
             provenance := provenance old; visibility := visibility old;
             UpdatedBySessionID := UpdatedBySessionID t; StatusHistory := StatusHistory t;
             HlcAt := h; RemoteBaseHLC := RemoteBaseHLC old; Pinned := Pinned t;
             DeletedAt := DeletedAt old; UpdatedAt := unix now |} in
        (Ok tt, set_tasks (<[ID t := row]> (tasks d)) d)
      else (Err ErrTaskAlreadyClaimed, d)
  end.

(** A row with other assignment columns and another [updated_at]. *)
Definition with_assignment (a : Assignment) (updated : Z) (t : Task) : Task :=
  {| ID := ID t; WorkspaceID := WorkspaceID t; content := content t; assignment := a;
     provenance := provenance t; visibility := visibility t;
     UpdatedBySessionID := UpdatedBySessionID t; StatusHistory := StatusHistory t;
     HlcAt := HlcAt t; RemoteBaseHLC := RemoteBaseHLC t; Pinned := Pinned t;
     DeletedAt := DeletedAt t; UpdatedAt := updated |}.

Definition SoftDeleteTask (now : Z) (id : string) (d : TaskDB) :
    result store_error unit * TaskDB :=
  match GetTask id d with
  | Err e => (Err e, d)
  | Ok t =>
      (Ok tt, set_tasks (<[id :=
         {| ID := ID t; WorkspaceID := WorkspaceID t; content := content t;
            assignment := assignment t; provenance := provenance t; visibility := visibility t;
            UpdatedBySessionID := UpdatedBySessionID t; StatusHistory := StatusHistory t;
            HlcAt := HlcAt t; RemoteBaseHLC := RemoteBaseHLC t; Pinned := Pinned t;
            DeletedAt := Some (unix now); UpdatedAt := unix now |}]> (tasks d)) d)
  end.

Definition HeartbeatTask (now : Z) (id sessionID : string) (ttl : Z) (d : TaskDB) : bool * TaskDB :=
  if bool_decide (id = "") || bool_decide (sessionID = "") then (false, d) else
  match GetTask id d with
  | Err _ => (false, d)
  | Ok t =>
      let a := assignment t in
      if bool_decide (AssigneeSessionID a = sessionID) then
        (true, set_tasks (<[id := with_assignment
           {| AssigneeSessionID := AssigneeSessionID a; AssigneeOriginKind := AssigneeOriginKind a;
              AssigneePeerID := AssigneePeerID a; AssigneeUserID := AssigneeUserID a;
              AssignedBySessionID := AssignedBySessionID a; AssignedByPeerID := AssignedByPeerID a;
              AssignedAt := AssignedAt a; LeaseExpiresAt := Some (unix (now + ttl)) |}
           (unix now) t]> (tasks d)) d)
      else (false, d)
  end.

(** ** Working statuses, in SQL and in Go *)

(** [taskWorkingStatusPredicate]. *)
Definition taskWorkingStatusPredicate (v : gmap (string * string) VocabRow) (t : Task) : bool :=
  match v !! (WorkspaceID t, Status (content t)) with
  | Some r => bool_decide (v_Kind r = "working")
  | None => bool_decide (lookup_kind (ToLower (Status (content t))) = Some KindWorking)
  end.

(** [Service.isWorkingStatus] over [workspaceStatusKinds]: the vocabulary row with
    a kind, else the default map at the exact text. *)
Definition isWorkingStatus (v : gmap (string * string) VocabRow) (ws status : string) : bool :=
  if bool_decide (status = "") then false else
  match v !! (ws, status) with
  | Some r =>
      if bool_decide (v_Kind r = "") then bool_decide (lookup_kind status = Some KindWorking)
      else bool_decide (v_Kind r = "working")
  | None => bool_decide (lookup_kind status = Some KindWorking)
  end.

Definition IsTerminalStatus (v : gmap (string * string) VocabRow) (ws status : string) : bool :=
  match v !! (ws, status) with
  | Some r => IsTerminal r || bool_decide (v_Kind r = "done") || bool_decide (v_Kind r = "cancelled")
  | None => match DefaultKind status with Some k => IsTerminalKind k | None => false end
  end.

(** ** Lease reclaim *)

Definition taskReclaimableExpr (v : gmap (string * string) VocabRow) (cutoff : Z) (t : Task) : bool :=
  match LeaseExpiresAt (assignment t) with
  | Some e => e <? cutoff
  | None => negb (bool_decide (AssigneeSessionID (assignment t) = "")) &&
            taskWorkingStatusPredicate v t
  end.

(** The WHERE clause shared by the SELECT and the UPDATE of the sweep. *)
Definition sweepable (v : gmap (string * string) VocabRow) (cutoff : Z) (t : Task) : bool :=
  taskReclaimableExpr v cutoff t && live t && bool_decide (AssigneeUserID (assignment t) = "").

Definition cleared (updated : Z) (t : Task) : Task :=
  let a := assignment t in
  with_assignment
    {| AssigneeSessionID := ""; AssigneeOriginKind := "local"; AssigneePeerID := "";
       AssigneeUserID := ""; AssignedBySessionID := AssignedBySessionID a;
       AssignedByPeerID := AssignedByPeerID a; AssignedAt := AssignedAt a;
       LeaseExpiresAt := None |} updated t.

(** Keys of the rows satisfying [f], in table order. *)
Definition ids_where (f : Task -> bool) (m : gmap string Task) : list string :=
  fst <$> List.filter (fun p => f p.2) (map_to_list m).

Definition ClearExpiredTaskLeases (now : Z) (d : TaskDB) : list string * TaskDB :=
  let cutoff := unix now in
  (ids_where (sweepable (vocab d) cutoff) (tasks d),
   set_tasks ((fun t => if sweepable (vocab d) cutoff t then cleared cutoff t else t) <$> tasks d) d).

Definition taskSessionReclaimExpr (v : gmap (string * string) VocabRow) (t : Task) : bool :=
  match LeaseExpiresAt (assignment t) with
  | Some _ => true
  | None => taskWorkingStatusPredicate v t
  end.

Definition session_held (v : gmap (string * string) VocabRow) (sessionID : string) (t : Task) : bool :=
  bool_decide (AssigneeSessionID (assignment t) = sessionID) && taskSessionReclaimExpr v t && live t.

(** [assignee_user_id] is not among the columns this one clears. *)
Definition session_cleared (updated : Z) (t : Task) : Task :=
  let a := assignment t in
  with_assignment
    {| AssigneeSessionID := ""; AssigneeOriginKind := "local"; AssigneePeerID := "";
       AssigneeUserID := AssigneeUserID a; AssignedBySessionID := AssignedBySessionID a;
       AssignedByPeerID := AssignedByPeerID a; AssignedAt := AssignedAt a;
       LeaseExpiresAt := None |} updated t.

Definition ClearSessionTaskLeases (now : Z) (sessionID : string) (d : TaskDB) : list string * TaskDB :=
  if bool_decide (sessionID = "") then ([], d) else
  (ids_where (session_held (vocab d) sessionID) (tasks d),
   set_tasks ((fun t => if session_held (vocab d) sessionID t then session_cleared (unix now) t else t)
              <$> tasks d) d).

(** ** Task history *)

(** [MAX(revision) + 1] over the rows of the task. *)
Definition next_revision (id : string) (l : list TaskHistoryRow) : Z :=
  foldr (fun r m => if bool_decide (th_TaskID r = id) then Z.max (th_Revision r) m else m) 0 l + 1.

(** [recordTaskHistory] down to the row [AppendTaskHistory] inserts: the
    attribution columns and the derived [changed_fields_json] are left out. *)
Definition recordTaskHistory (action : string) (before after : option Task) (d : TaskDB) :
    result store_error unit * TaskDB :=
  match (match after with Some t => Some t | None => before end) with
  | None => (Ok tt, d)
  | Some t =>
      if bool_decide (TrimSpace (ID t) = "") then (Err (ErrRequired "task_id"), d) else
      if bool_decide (TrimSpace (WorkspaceID t) = "") then (Err (ErrRequired "workspace_id"), d) else
      (Ok tt,
       {| tasks := tasks d; vocab := vocab d;
          task_history := task_history d ++
            [{| th_TaskID := ID t; th_Revision := next_revision (ID t) (task_history d);
                th_Action := action; th_Before := before; th_After := after |}];
          clock := clock d |})
  end.

(** ** The rows the writes leave *)

Definition inserted (now : Z) (t : Task) : Task :=
  let c := content t in let a := assignment t in let p := provenance t in let v := visibility t in
  let createdAt := if CreatedAt p =? zero_time then now else CreatedAt p in
  {| ID := ID t; WorkspaceID := WorkspaceID t;
     content := content_columns {| Title := Title c; Description := Description c;
       Status := or_default (Status c) "open"; ClosedAt := ClosedAt c;
       Priority := or_default (Priority c) "normal"; DueAt := DueAt c; TagsJSON := TagsJSON c;
       Meta := Meta c |};
     assignment := assignment_columns {| AssigneeSessionID := AssigneeSessionID a;
       AssigneeOriginKind := or_default (AssigneeOriginKind a) "local";
       AssigneePeerID := AssigneePeerID a; AssigneeUserID := AssigneeUserID a;
       AssignedBySessionID := AssignedBySessionID a; AssignedByPeerID := AssignedByPeerID a;
       AssignedAt := AssignedAt a; LeaseExpiresAt := LeaseExpiresAt a |};
     provenance := {| SourceKind := or_default (SourceKind p) "agent";
       SourceSessionID := SourceSessionID p; SourceToolCallID := SourceToolCallID p;
       CreatedBySessionID := CreatedBySessionID p; OriginPeerID := OriginPeerID p;
       CreatedAt := unix createdAt |};
     visibility := {| OwnerPrincipalID := OwnerPrincipalID v; Visibility := "private";
       VisibilityEpoch := 1; VisibilityUpdatedByPrincipalID := VisibilityUpdatedByPrincipalID v;
       VisibilityUpdatedAt := Some (unix (default createdAt (VisibilityUpdatedAt v))) |};
     UpdatedBySessionID := UpdatedBySessionID t; StatusHistory := StatusHistory t;
     HlcAt := HlcAt t; RemoteBaseHLC := RemoteBaseHLC t; Pinned := Pinned t; DeletedAt := None;
     UpdatedAt := unix (if UpdatedAt t =? zero_time then now else UpdatedAt t) |}.

Lemma stamp_nonempty now h d : h <> "" -> stamp now h d = (h, d).
Proof. intros Hh. unfold stamp. by rewrite bool_decide_false. Qed.

Lemma or_default_nonempty s d : s <> "" -> or_default s d = s.
Proof. intros Hs. unfold or_default. by rewrite bool_decide_false. Qed.

Lemma CreateTask_fails ulid now t d :
  ID t <> "" -> HlcAt t <> "" ->
  TrimSpace (Title (content t)) = "" \/ TrimSpace (WorkspaceID t) = "" \/ tasks d !! ID t <> None ->
  exists e, CreateTask ulid now t d = (Err e, d).
Proof.
  intros Hid Hh Hor. unfold CreateTask.
  destruct (bool_decide_reflect (TrimSpace (Title (content t)) = "")); [eauto|].
  destruct (bool_decide_reflect (TrimSpace (WorkspaceID t) = "")); [eauto|].
  rewrite stamp_nonempty by done. cbn. rewrite (or_default_nonempty (ID t)) by done.
  destruct (tasks d !! ID t) eqn:E; [eauto|]. by destruct Hor as [|[|]].
Qed.

Lemma CreateTask_row ulid now t d :
  ID t <> "" -> HlcAt t <> "" ->
  TrimSpace (Title (content t)) <> "" -> TrimSpace (WorkspaceID t) <> "" -> tasks d !! ID t = None ->
  exists r, ID r = ID t /\ WorkspaceID r = WorkspaceID t /\
    CreateTask ulid now t d = (Ok r, set_tasks (<[ID t := inserted now t]> (tasks d)) d).
Proof.
  intros Hid Hh Ht Hw Hn. unfold CreateTask. rewrite !bool_decide_false by done.
  rewrite stamp_nonempty by done. cbn. rewrite !(or_default_nonempty (ID t)) by done.
  rewrite Hn. eexists. split; [|split; [|reflexivity]]; done.
Qed.
