(* ===== verification/TaskLease.v ===== *)
(** Leases on tasks: [internal/tasks/service.go] (Claim, Heartbeat,
    SweepExpiredLeases, ReleaseSessionTasks) and
    [internal/tasks/membership_permissions.go], over the rows of TaskStore.

    [SweepExpiredLeases] and [ReleaseSessionTasksWithReason] are the calls as one; in
    [lease_step] each of their store calls is a step of its own, the write-back of a row
    read earlier included, and other sessions' claims and heartbeats come between.

    [claim_attempt] is [Service.Claim] up to and including the compare-and-swap;
    its notifications, the epic rollup and the note that follow are left out.  The
    bus and the mesh emitter are an [effects] log; the brain hook is not modelled. *)

From Stdlib Require Import Ascii String.
From stdpp Require Import gmap strings.
From S2P Require Import Prelude GoStrings Hlc TaskStore.

#[local] Open Scope string_scope.
#[local] Open Scope list_scope.
#[local] Open Scope Z_scope.

Definition LeaseTTL : Z := 300 * second.

(** ** Membership permissions *)

Record WorkspaceMembership := { HomePeerID : string; m_Status : string; Capabilities : list string }.

Inductive effect :=
| Published (kind : string) (t : Task) (at_ : Z)
| EmitStatusChanged (id pre post : string)
| EmitUpdated (id : string).

Record Service := {
  db : TaskDB;
  membershipStore : gmap string WorkspaceMembership;   (** by local workspace id *)
  effects : list effect }.

Definition set_db (d : TaskDB) (s : Service) : Service :=
  {| db := d; membershipStore := membershipStore s; effects := effects s |}.
Definition emit (e : list effect) (s : Service) : Service :=
  {| db := db s; membershipStore := membershipStore s; effects := effects s ++ e |}.

Inductive service_error :=
| StoreError (e : store_error) | Required (what : string) | MembershipDenied | AlreadyClaimed.

(** [None] is an unshared workspace. *)
Definition workspaceMembership (s : Service) (ws : string) :
    result service_error (option WorkspaceMembership) :=
  if bool_decide (TrimSpace ws = "") then Ok None else
  match membershipStore s !! ws with
  | None => Ok None
  | Some m => if bool_decide (m_Status m = "active") then Ok (Some m) else Err MembershipDenied
  end.

Definition membershipHas (caps : list string) (wanted : string) : bool :=
  existsb (fun c => bool_decide (c = wanted)) caps.

Definition requireMembershipCapabilities (m : WorkspaceMembership) (all any : list string) :
    result service_error unit :=
  if negb (forallb (membershipHas (Capabilities m)) all) then Err MembershipDenied else
  match any with
  | [] => Ok tt
  | _ => if existsb (membershipHas (Capabilities m)) any then Ok tt else Err MembershipDenied
  end.

Definition home_owned (m : WorkspaceMembership) (t : Task) : bool :=
  bool_decide (OriginPeerID (provenance t) = HomePeerID m) ||
  bool_decide (SourceKind (provenance t) = "peer-import").

Definition draft_capabilities : list string := ["tasks.create"; "tasks.publish"].

Definition authorizeSharedTaskEdit (s : Service) (t : Task) (extra : list string) :
    result service_error unit :=
  match workspaceMembership s (WorkspaceID t) with
  | Err e => Err e
  | Ok None => Ok tt
  | Ok (Some m) =>
      if home_owned m t then requireMembershipCapabilities m ("tasks.edit" :: extra) []
      else match requireMembershipCapabilities m extra [] with
           | Err e => Err e
           | Ok _ => requireMembershipCapabilities m [] draft_capabilities
           end
  end.

Definition authorizeSharedTaskAction (s : Service) (t : Task) (required : list string) :
    result service_error unit :=
  match workspaceMembership s (WorkspaceID t) with
  | Err e => Err e
  | Ok None => Ok tt
  | Ok (Some m) =>
      if home_owned m t then requireMembershipCapabilities m required []
      else requireMembershipCapabilities m [] draft_capabilities
  end.

(** ** Claim *)

Definition assigneeDisplay (sid pid uid : string) : string :=
  if bool_decide (sid = "") && bool_decide (pid = "") && bool_decide (uid = "") then "" else
  if negb (bool_decide (uid = "")) then "user:" +:+ uid else
  if negb (bool_decide (pid = "")) then
    (if bool_decide (sid = "") then "peer:" +:+ pid else "peer:" +:+ pid +:+ "/" +:+ sid)
  else sid.

Definition hist (now : Z) (session evt from to note : string) : TaskStatusHistoryEntry :=
  {| h_At := now; h_BySession := session; h_ByPeer := ""; h_Evt := evt;
     h_From := from; h_To := to; h_Note := note |}.

(** The row [Claim] builds from the one it read; [h] is its fresh stamp. *)
Definition claim_row (v : gmap (string * string) VocabRow) (now : Z) (h statusText claimant : string)
    (cur : Task) : Task :=
  let c := content cur in let a := assignment cur in
  let closes := IsTerminalStatus v (WorkspaceID cur) statusText && bool_decide (ClosedAt c = None) in
  let closedAt := if closes then Some now else ClosedAt c in
  let history := StatusHistory cur ++
    (if bool_decide (statusText = Status c) then []
     else [hist now claimant "status_changed" (Status c) statusText ""]) ++
    [hist now claimant "assigned"
       (assigneeDisplay (AssigneeSessionID a) (AssigneePeerID a) (AssigneeUserID a)) claimant ""] ++
    (if closes then [hist now claimant "closed" "" statusText ""] else []) in
  let lease := if bool_decide (closedAt = None) && isWorkingStatus v (WorkspaceID cur) statusText
               then Some (now + LeaseTTL) else LeaseExpiresAt a in
  {| ID := ID cur; WorkspaceID := WorkspaceID cur;
     content := {| Title := Title c; Description := Description c; Status := statusText;
       ClosedAt := closedAt; Priority := Priority c; DueAt := DueAt c; TagsJSON := TagsJSON c;
       Meta := Meta c |};
     assignment := {| AssigneeSessionID := claimant; AssigneeOriginKind := "local";
       AssigneePeerID := ""; AssigneeUserID := ""; AssignedBySessionID := claimant;
       AssignedByPeerID := AssignedByPeerID a; AssignedAt := Some now; LeaseExpiresAt := lease |};
     provenance := provenance cur; visibility := visibility cur;
     UpdatedBySessionID := claimant; StatusHistory := history;
     HlcAt := h; RemoteBaseHLC := RemoteBaseHLC cur; Pinned := Pinned cur;
     DeletedAt := DeletedAt cur; UpdatedAt := UpdatedAt cur |}.

Definition claim_attempt (now : Z) (workspaceID id statusText claimant : string) (s : Service) :
    result service_error unit * Service :=
  if bool_decide (claimant = "") then (Err (Required "session"), s) else
  match GetTask id (db s) with
  | Err e => (Err (StoreError e), s)
  | Ok cur =>
      if negb (bool_decide (workspaceID = "")) && negb (bool_decide (WorkspaceID cur = workspaceID))
      then (Err (StoreError ErrNotFound), s) else
      match authorizeSharedTaskEdit s cur ["tasks.assign"] with
      | Err e => (Err e, s)
      | Ok _ =>
          let (h, c) := Now now (clock (db s)) in
          let d := set_clock c (db s) in
          let t := claim_row (vocab d) now h (or_default statusText "doing") claimant cur in
          match ClaimTask now t claimant d with
          | (Err ErrTaskAlreadyClaimed, d) => (Err AlreadyClaimed, set_db d s)
          | (Err e, d) => (Err (StoreError e), set_db d s)
          | (Ok _, d) => (Ok tt, set_db d s)
          end
      end
  end.

(** ** Heartbeat *)

Definition Heartbeat (now : Z) (workspaceID id sessionID : string) (s : Service) :
    result service_error unit * Service :=
  if bool_decide (id = "") then (Err (Required "id"), s) else
  if bool_decide (sessionID = "") then (Err (Required "session_id"), s) else
  match GetTask id (db s) with
  | Err e => (Err (StoreError e), s)
  | Ok t =>
      if negb (bool_decide (workspaceID = "")) && negb (bool_decide (WorkspaceID t = workspaceID))
      then (Err (StoreError ErrNotFound), s) else
      match authorizeSharedTaskAction s t ["tasks.assign"] with
      | Err e => (Err e, s)
      | Ok _ =>
          let (bumped, d) := HeartbeatTask now id sessionID LeaseTTL (db s) in
          let s := set_db d s in
          (Ok tt,
           if bumped then
             match GetTask id d with Ok fresh => emit [Published "task_updated" fresh now] s | Err _ => s end
           else s)
      end
  end.

(** ** The sweep, and the release of a disconnected session *)

(** The scan of the reversed history. *)
Fixpoint recent_expiry (cutoff : Z) (l : list TaskStatusHistoryEntry) : bool :=
  match l with
  | [] => false
  | e :: l' =>
      if bool_decide (h_Evt e = "lease_expired") && (cutoff <? h_At e) then true
      else if h_At e <? cutoff then false else recent_expiry cutoff l'
  end.

Definition recentLeaseExpired (now : Z) (t : Task) : bool :=
  recent_expiry (now - 3600 * second) (rev (StatusHistory t)).

Definition with_status (status : string) (l : list TaskStatusHistoryEntry) (t : Task) : Task :=
  let c := content t in
  {| ID := ID t; WorkspaceID := WorkspaceID t;
     content := {| Title := Title c; Description := Description c; Status := status;
       ClosedAt := ClosedAt c; Priority := Priority c; DueAt := DueAt c; TagsJSON := TagsJSON c;
       Meta := Meta c |};
     assignment := assignment t; provenance := provenance t; visibility := visibility t;
     UpdatedBySessionID := UpdatedBySessionID t; StatusHistory := StatusHistory t ++ l;
     HlcAt := HlcAt t; RemoteBaseHLC := RemoteBaseHLC t; Pinned := Pinned t;
     DeletedAt := DeletedAt t; UpdatedAt := UpdatedAt t |}.

(** The part the two loops share: demote a working status to open, append the
    history entries, write the row back, record and announce it.  [t] is the row as
    it was read, [now] the loop's clock and [at_] the time of the write. *)
Definition demote (now at_ : Z) (session note releaseNote action : string) (t : Task) (s : Service) : Service :=
  let pre := Status (content t) in
  let demoted := isWorkingStatus (vocab (db s)) (WorkspaceID t) pre in
  let t' := with_status (if demoted then "open" else pre)
    ((if demoted then [hist now session "status_changed" pre "open" note] else []) ++
     [hist now "" "lease_expired" "" "" releaseNote]) t in
  match UpdateTask at_ t' (db s) with
  | (Err _, d) => set_db d s
  | (Ok t'', d) =>
      let after := match GetTask (ID t) d with Ok fresh => fresh | Err _ => t'' end in
      let d := snd (recordTaskHistory action (Some t) (Some after) d) in
      emit [Published "task_updated" t'' now;
            if demoted then EmitStatusChanged (ID t) pre "open" else EmitUpdated (ID t)]
           (set_db d s)
  end.

Definition sweep_demotion (now at_ : Z) : Task -> Service -> Service :=
  demote now at_ "" "lease expired, demoted from working status" "" "lease_expired".

Definition sweep_one (now : Z) (s : Service) (id : string) : Service :=
  match GetTask id (db s) with
  | Err _ => s
  | Ok t =>
      if recentLeaseExpired now t then s
      else sweep_demotion now now t s
  end.

Definition SweepExpiredLeases (now : Z) (s : Service) : nat * Service :=
  let (ids, d) := ClearExpiredTaskLeases now (db s) in
  (length ids, fold_left (sweep_one now) ids (set_db d s)).

Definition release_demotion (now at_ : Z) (sessionID reason : string) : Task -> Service -> Service :=
  demote now at_ sessionID
    (if bool_decide (reason = "") then "agent disconnected, demoted from working status"
     else reason +:+ ": demoted from working status")
    (if bool_decide (reason = "") then "released on disconnect" else reason) "release".

Definition release_one (now : Z) (sessionID reason : string) (s : Service) (id : string) : Service :=
  match GetTask id (db s) with
  | Err _ => s
  | Ok t => release_demotion now now sessionID reason t s
  end.

Definition ReleaseSessionTasksWithReason (now : Z) (sessionID reason : string) (s : Service) :
    nat * Service :=
  if bool_decide (sessionID = "") then (O, s) else
  let (ids, d) := ClearSessionTaskLeases now sessionID (db s) in
  (length ids, fold_left (release_one now sessionID reason) ids (set_db d s)).

(** ** Store calls interleaved by several sessions *)

(** A sweep ([dm_release] is none) or a release (of a session, with a reason) after its
    clearing UPDATE: the clock it took, the ids it has still to demote, and the row it
    has read and is about to write back. *)
Record demoter := {
  dm_release : option (string * string); dm_now : Z; dm_ids : list string; dm_hand : option Task }.

Record lease_state := { service : Service; demoters : list demoter }.

Inductive lease_op :=
| OpClaim (t : Task) (claimant : string)   (** the compare-and-swap, from any stale read *)
| OpHeartbeat (id session : string) (ttl : Z)
| OpSweep
| OpRelease (session reason : string)
| OpDemote (n : nat) (ok : bool).          (** the next store call of the [n]th demoter *)

(** The row in hand is written back; with none, the next one is read.  A call that fails
    skips the row. *)
Definition demoter_step (at_ : Z) (ok : bool) (s : Service) (m : demoter) : Service * demoter :=
  let go_on ids hand := {| dm_release := dm_release m; dm_now := dm_now m; dm_ids := ids; dm_hand := hand |} in
  match dm_hand m, dm_ids m with
  | Some t, ids =>
      (if ok then match dm_release m with
                  | None => sweep_demotion (dm_now m) at_ t s
                  | Some (sid, reason) => release_demotion (dm_now m) at_ sid reason t s
                  end
       else s, go_on ids None)
  | None, [] => (s, m)
  | None, id :: ids =>
      (s, go_on ids (match GetTask id (db s) with
                     | Err _ => None
                     | Ok t => if negb ok || (bool_decide (dm_release m = None) && recentLeaseExpired at_ t)
                               then None else Some t
                     end))
  end.

Definition lease_step (st : lease_state) (p : Z * lease_op) : lease_state :=
  let s := service st in
  let on_db d := {| service := set_db d s; demoters := demoters st |} in
  let clear r (c : list string * TaskDB) := {|
    service := set_db (snd c) s;
    demoters := demoters st ++ [{| dm_release := r; dm_now := p.1; dm_ids := fst c; dm_hand := None |}] |} in
  match p.2 with
  | OpClaim t c => on_db (snd (ClaimTask p.1 t c (db s)))
  | OpHeartbeat id sid ttl => on_db (snd (HeartbeatTask p.1 id sid ttl (db s)))
  | OpSweep => clear None (ClearExpiredTaskLeases p.1 (db s))
  | OpRelease sid reason => clear (Some (sid, reason)) (ClearSessionTaskLeases p.1 sid (db s))
  | OpDemote n ok =>
      match demoters st !! n with
      | Some m => let '(s, m) := demoter_step p.1 ok s m in {| service := s; demoters := <[n := m]> (demoters st) |}
      | None => st
      end
  end.

Definition lease_run (ops : list (Z * lease_op)) (st : lease_state) : lease_state := fold_left lease_step ops st.

(** An operation of somebody other than [s], or a sweep that takes its clock not after
    the end [e] of the lease; write-backs whenever they come. *)
Definition intruder (id s : string) (e : Z) (p : Z * lease_op) : Prop :=
  match p.2 with
  | OpClaim t c => ID t = id -> c <> s
  | OpHeartbeat i s' _ => i = id -> s' <> s
  | OpSweep => unix p.1 <= e
  | OpRelease s' _ => s' <> s
  | OpDemote _ _ => True
  end.

(** A demoter that has nothing to do with a row. *)
Definition spares (id : string) (m : demoter) : Prop :=
  (id ∉ dm_ids m) /\ (forall t, dm_hand m = Some t -> ID t <> id).

(** Rows stand under their ids. *)
Definition keyed (d : TaskDB) : Prop := forall id t, tasks d !! id = Some t -> ID t = id.

(** [id] is a live row that [s] holds until [e]. *)
Definition holds (id s : string) (e : Z) (t : Task) : Prop :=
  DeletedAt t = None /\ s <> "" /\
  AssigneeSessionID (assignment t) = s /\ LeaseExpiresAt (assignment t) = Some e.

Lemma GetTask_live id t d : tasks d !! id = Some t -> DeletedAt t = None -> GetTask id d = Ok t.
Proof. intros Ht Hd. unfold GetTask, live. by rewrite Ht, bool_decide_true. Qed.

Lemma GetTask_Ok id t d : GetTask id d = Ok t -> tasks d !! id = Some t /\ DeletedAt t = None.
Proof.
  unfold GetTask, live. destruct (tasks d !! id) as [t'|]; [|done].
  destruct (bool_decide_reflect (DeletedAt t' = None)); [|done]. by intros [= ->].
Qed.

Lemma tasks_stamp now h d : tasks (snd (stamp now h d)) = tasks d.
Proof. unfold stamp. destruct (bool_decide _); [|done]. by destruct (Now now (clock d)). Qed.
Lemma GetTask_stamp id now h d : GetTask id (snd (stamp now h d)) = GetTask id d.
Proof. unfold GetTask. by rewrite tasks_stamp. Qed.

Lemma claim_held now t c id s e row d :
  tasks d !! id = Some row -> holds id s e row -> ID t = id -> c <> s ->
  tasks (snd (ClaimTask now t c d)) !! id = Some row /\
  (id <> "" -> c <> "" -> fst (ClaimTask now t c d) = Err ErrTaskAlreadyClaimed).
Proof.
  intros Hrow (Hd & Hs & Ha & Hl) <- Hc. unfold ClaimTask.
  destruct (bool_decide_reflect (ID t = "")); [by split|].
  destruct (bool_decide_reflect (c = "")); [by split|].
  pose proof (tasks_stamp now (HlcAt t) d) as Hst.
  destruct (stamp now (HlcAt t) d) as [h d']. cbn in Hst.
  rewrite (GetTask_live (ID t) row d') by (by rewrite ?Hst).
  assert (claimable c row = false) as ->; [|cbn; by rewrite Hst].
  unfold claimable, unassigned. rewrite Ha.
  rewrite (bool_decide_false (s = "")), (bool_decide_false (s = c)) by congruence. done.
Qed.

Lemma claim_other now t c id d :
  ID t <> id -> tasks (snd (ClaimTask now t c d)) !! id = tasks d !! id.
Proof.
  intros Hne. unfold ClaimTask. destruct (bool_decide _); [done|]. destruct (bool_decide _); [done|].
  pose proof (tasks_stamp now (HlcAt t) d) as Hst.
  destruct (stamp now (HlcAt t) d) as [h d']. cbn in Hst.
  destruct (GetTask (ID t) d'); [|cbn; by rewrite Hst]. destruct (claimable c a).
  - cbn. by rewrite lookup_insert_ne, Hst by done.
  - cbn. by rewrite Hst.
Qed.

Lemma heartbeat_held now i s' ttl id s e row d :
  tasks d !! id = Some row -> holds id s e row -> (i = id -> s' <> s) ->
  tasks (snd (HeartbeatTask now i s' ttl d)) !! id = Some row.
Proof.
  intros Hrow (Hd & Hs & Ha & Hl) Hne. unfold HeartbeatTask.
  destruct (_ || _); [done|]. destruct (GetTask i d) as [t|] eqn:Hg; [|done].
  apply GetTask_Ok in Hg as [Ht _].
  destruct (bool_decide_reflect (AssigneeSessionID (assignment t) = s')) as [He|]; [|done].
  cbn. rewrite lookup_insert_ne; [done|]. intros ->. apply Hne; congruence.
Qed.

Lemma sweep_held now id s e row d :
  tasks d !! id = Some row -> holds id s e row -> unix now <= e ->
  tasks (snd (ClearExpiredTaskLeases now d)) !! id = Some row.
Proof.
  intros Hrow (Hd & Hs & Ha & Hl) He. cbn. rewrite lookup_fmap, Hrow. cbn.
  unfold sweepable, taskReclaimableExpr. rewrite Hl.
  by replace (e <? unix now) with false by (symmetry; apply Z.ltb_ge; lia).
Qed.

Lemma release_held now s' id s e row d :
  tasks d !! id = Some row -> holds id s e row -> s' <> s ->
  tasks (snd (ClearSessionTaskLeases now s' d)) !! id = Some row.
Proof.
  intros Hrow (Hd & Hs & Ha & Hl) Hne. unfold ClearSessionTaskLeases.
  destruct (bool_decide _); [done|]. cbn. rewrite lookup_fmap, Hrow. cbn.
  unfold session_held. by rewrite Ha, bool_decide_false by congruence.
Qed.

Lemma elem_of_ids_where f (m : gmap string Task) id :
  id ∈ ids_where f m <-> exists t, m !! id = Some t /\ f t = true.
Proof.
  unfold ids_where. rewrite list_elem_of_fmap. split.
  - intros ([i t] & -> & Hin). apply list_elem_of_In, List.filter_In in Hin as [Hin Hf].
    exists t. split; [|done]. by apply elem_of_map_to_list, list_elem_of_In.
  - intros (t & Ht & Hf). exists (id, t). split; [done|].
    apply list_elem_of_In, List.filter_In. split; [|done].
    by apply list_elem_of_In, elem_of_map_to_list.
Qed.

Lemma recordTaskHistory_db action b a d :
  tasks (snd (recordTaskHistory action b a d)) = tasks d /\
  vocab (snd (recordTaskHistory action b a d)) = vocab d.
Proof. unfold recordTaskHistory. by repeat (case_match; cbn). Qed.

(** What a write of [t] makes of the table: a row stored under its own id. *)
Lemma UpdateTask_tasks now t d :
  tasks (snd (UpdateTask now t d)) = tasks d \/
  exists old row, tasks d !! ID t = Some old /\ ID row = ID old /\ tasks (snd (UpdateTask now t d)) = <[ID t := row]> (tasks d).
Proof.
  unfold UpdateTask. destruct (bool_decide _); [by left|].
  pose proof (tasks_stamp now (HlcAt t) d) as Hst. destruct (stamp now (HlcAt t) d) as [h d']. cbn in Hst.
  destruct (GetTask (ID t) d') as [old|] eqn:Hg; [|by left]. apply GetTask_Ok in Hg as [Ho _]. right.
  eexists old, _. split_and!; [by rewrite <- Hst| |cbn; by rewrite Hst]. done.
Qed.

Lemma demote_tasks now at_ session note rnote action t s :
  let d := db (demote now at_ session note rnote action t s) in
  tasks d = tasks (db s) \/
  exists old row, tasks (db s) !! ID t = Some old /\ ID row = ID old /\ tasks d = <[ID t := row]> (tasks (db s)).
Proof.
  cbv zeta. unfold demote. set (t' := with_status _ _ t).
  change (ID t) with (ID t'). pose proof (UpdateTask_tasks at_ t' (db s)) as H.
  destruct (UpdateTask at_ t' (db s)) as [[r|e] d]; cbn -[recordTaskHistory] in *; [|done].
  by rewrite (proj1 (recordTaskHistory_db _ _ _ _)).
Qed.

Lemma ClaimTask_tasks now t c d :
  tasks (snd (ClaimTask now t c d)) = tasks d \/
  exists old row, tasks d !! ID t = Some old /\ ID row = ID old /\ tasks (snd (ClaimTask now t c d)) = <[ID t := row]> (tasks d).
Proof.
  unfold ClaimTask. destruct (bool_decide _); [by left|]. destruct (bool_decide _); [by left|].
  pose proof (tasks_stamp now (HlcAt t) d) as Hst. destruct (stamp now (HlcAt t) d) as [h d']. cbn in Hst.
  destruct (GetTask (ID t) d') as [old|] eqn:Hg; [|by left]. apply GetTask_Ok in Hg as [Ho _].
  destruct (claimable c old); [right|by left].
  eexists old, _. split_and!; [by rewrite <- Hst| |cbn; by rewrite Hst]. done.
Qed.

(** ** Nobody else touches a held row *)

Lemma keyed_insert (d d' : TaskDB) id old row :
  keyed d -> tasks d !! id = Some old -> ID row = ID old -> tasks d' = <[id := row]> (tasks d) -> keyed d'.
Proof.
  unfold keyed. intros Hk Ho Hr ->. intros i x [[<- <-]|[_ H]]%lookup_insert_Some; [|by apply Hk]. rewrite Hr. by apply Hk.
Qed.

Lemma keyed_fmap (d d' : TaskDB) (f : Task -> Task) :
  keyed d -> (forall t, ID (f t) = ID t) -> tasks d' = f <$> tasks d -> keyed d'.
Proof. unfold keyed. intros Hk Hf ->. intros i x. rewrite lookup_fmap. intros (t & Ht & ->)%fmap_Some. rewrite Hf. by apply Hk. Qed.

Lemma keyed_same (d d' : TaskDB) : keyed d -> tasks d' = tasks d -> keyed d'.
Proof. unfold keyed. intros Hk E. by rewrite E. Qed.

(** A step on another row. *)
Lemma keyed_write (d d' : TaskDB) id i :
  keyed d -> id <> i ->
  tasks d' = tasks d \/ (exists old row, tasks d !! i = Some old /\ ID row = ID old /\ tasks d' = <[i := row]> (tasks d)) ->
  keyed d' /\ tasks d' !! id = tasks d !! id.
Proof.
  intros Hk Hne [E|(old & row & Ho & Hr & E)].
  - split; [by eapply keyed_same|by rewrite E].
  - split; [by eapply keyed_insert|]. by rewrite E, lookup_insert_ne.
Qed.

Record undisturbed (id : string) (t : Task) (st : lease_state) : Prop := {
  un_keyed : keyed (db (service st));
  un_row : tasks (db (service st)) !! id = Some t;
  un_spared : Forall (spares id) (demoters st) }.

Lemma demoter_step_spares id t at_ ok s m :
  keyed (db s) -> tasks (db s) !! id = Some t -> spares id m ->
  keyed (db (fst (demoter_step at_ ok s m))) /\ tasks (db (fst (demoter_step at_ ok s m))) !! id = Some t /\
  spares id (snd (demoter_step at_ ok s m)).
Proof.
  intros Hk Ht [Hids Hhand]. unfold demoter_step. destruct (dm_hand m) as [h|] eqn:Eh.
  - assert (id <> ID h) as Hne by (intros ->; by apply (Hhand h)). cbn [fst snd].
    assert (forall d, d = db s \/ (exists session note rnote action, d = db (demote (dm_now m) at_ session note rnote action h s)) ->
              keyed d /\ tasks d !! id = Some t) as Hd.
    { intros d [->|(session & note & rnote & action & ->)]; [done|].
      destruct (keyed_write (db s) _ id (ID h) Hk Hne (demote_tasks (dm_now m) at_ session note rnote action h s)) as [? ->]. done. }
    match goal with |- ?A /\ ?B /\ ?C => assert (A /\ B) as [? ?]; [|split_and!; [done..|by split; cbn]] end.
    apply Hd. destruct ok; [right|by left].
    destruct (dm_release m) as [[sid reason]|]; by do 4 eexists.
  - destruct (dm_ids m) as [|i ids] eqn:Ei; cbn [fst snd]; [split_and!; [done|done|]; split; [by rewrite Ei|by rewrite Eh]|].
    split_and!; [done|done|]. split; cbn; [set_solver|]. intros h.
    destruct (GetTask i (db s)) as [x|] eqn:Hg; [|done]. destruct (_ || _); [done|]. intros [= <-].
    apply GetTask_Ok in Hg as [Hx _]. rewrite (Hk _ _ Hx). set_solver.
Qed.

Lemma intruder_step id s e t p st :
  undisturbed id t st -> holds id s e t -> intruder id s e p -> undisturbed id t (lease_step st p).
Proof.
  intros [Hk Ht Hsp] Hh Hp. destruct p as [now [u c|i s' ttl| |s' reason|n ok]]; cbn in Hp |- *.
  - destruct (decide (ID u = id)) as [Heq|Hne].
    + constructor; cbn; [|by eapply claim_held; eauto|done].
      destruct (ClaimTask_tasks now u c (db (service st))) as [E|(old & row & Ho & Hr & E)]; [by eapply keyed_same|by eapply keyed_insert].
    + destruct (keyed_write (db (service st)) (snd (ClaimTask now u c (db (service st)))) id (ID u) Hk) as [? E];
        [congruence|apply ClaimTask_tasks|]. constructor; cbn; [done|by rewrite E|done].
  - constructor; cbn; [|by eapply heartbeat_held; eauto|done]. unfold HeartbeatTask. destruct (_ || _); [done|].
    destruct (GetTask i (db (service st))) as [x|] eqn:Hg; cbn; [|done]. destruct (bool_decide _); cbn; [|done].
    apply GetTask_Ok in Hg as [Hx _]. eapply (keyed_insert (db (service st)) _ i x); [done|exact Hx| |reflexivity]. reflexivity.
  - constructor; cbn -[unix]; [eapply (keyed_fmap (db (service st))); [done| |done]; intros x; cbn; by case_match
      |by eapply sweep_held; eauto|].
    apply Forall_add; [done|]. split; [|done]. cbn -[unix]. intros (x & Hx & Hf)%elem_of_ids_where.
    rewrite Ht in Hx. injection Hx as <-. pose proof (sweep_held now id s e t _ Ht Hh Hp) as H. cbn -[unix] in H.
    destruct Hh as (_ & _ & _ & Hl). unfold sweepable, taskReclaimableExpr in Hf. rewrite Hl in Hf.
    by replace (e <? unix now) with false in Hf by (symmetry; apply Z.ltb_ge; lia).
  - constructor; cbn -[unix]; [|by eapply release_held; eauto|].
    + unfold ClearSessionTaskLeases. destruct (bool_decide _); cbn; [done|]. eapply (keyed_fmap (db (service st))); [done| |done].
      intros x. cbn. by case_match.
    + apply Forall_add; [done|]. split; [|done]. cbn. unfold ClearSessionTaskLeases.
      destruct (bool_decide _); [by intros ?%elem_of_nil|]. cbn. intros (x & Hx & Hf)%elem_of_ids_where.
      rewrite Ht in Hx. injection Hx as <-. destruct Hh as (_ & _ & Ha & _). unfold session_held in Hf.
      by rewrite Ha, bool_decide_false in Hf by congruence.
  - destruct (demoters st !! n) as [m|] eqn:Em; [|done].
    destruct (demoter_step_spares id t now ok (service st) m Hk Ht) as (H1 & H2 & H3); [by eapply Forall_lookup_1|].
    destruct (demoter_step now ok (service st) m) as [s1 m1]. constructor; cbn; [done|done|]. by apply Forall_insert.
Qed.

(** C25: A lease excludes everybody else.  While session [s] holds row [id] until [e],
    and no sweep or release under way has still to write that row back, no interleaving
    of claims (from arbitrarily stale reads), heartbeats and releases of other sessions,
    and of sweeps that take their clock not later than [e], with the reads and
    write-backs that follow each clearing UPDATE, whenever they come, changes the row in
    any way; and after it a claim by another session is refused with
    ErrTaskAlreadyClaimed.  About a write-back under way, see [sweep_overwrites_claim]. *)
Theorem lease_exclusive id s e t st ops :
  keyed (db (service st)) -> tasks (db (service st)) !! id = Some t -> holds id s e t -> id <> "" ->
  Forall (spares id) (demoters st) -> Forall (intruder id s e) ops ->
  tasks (db (service (lease_run ops st))) !! id = Some t /\
  forall now t' c, ID t' = id -> c <> "" -> c <> s ->
    fst (ClaimTask now t' c (db (service (lease_run ops st)))) = Err ErrTaskAlreadyClaimed.
Proof.
  intros Hk Ht Hh Hid Hsp Hops.
  assert (undisturbed id t (lease_run ops st)) as [_ Hrun _].
  { assert (undisturbed id t st) as H by done. clear Hk Ht Hsp. revert st H.
    induction Hops as [|p ops Hp _ IH]; intros st H; [done|]. apply IH. by eapply intruder_step. }
  split; [done|]. intros now t' c Hc Hne Hcs. by eapply claim_held.
Qed.

(** ** The sweep, row by row *)

Definition well_keyed (d : TaskDB) : Prop :=
  forall id t, tasks d !! id = Some t -> ID t = id /\ id <> "" /\ HlcAt t <> "".

(** The columns [UpdateTask] leaves for a row it read and edited. *)
Definition stored (now : Z) (t : Task) : Task :=
  {| ID := ID t; WorkspaceID := WorkspaceID t; content := content_columns (content t);
     assignment := assignment_columns (assignment t); provenance := provenance t;
     visibility := visibility t; UpdatedBySessionID := UpdatedBySessionID t;
     StatusHistory := StatusHistory t; HlcAt := HlcAt t; RemoteBaseHLC := RemoteBaseHLC t;
     Pinned := Pinned t; DeletedAt := DeletedAt t; UpdatedAt := unix now |}.

Definition demoted_row (v : gmap (string * string) VocabRow) (now : Z)
    (session note releaseNote : string) (t : Task) : Task :=
  let pre := Status (content t) in
  let demoted := isWorkingStatus v (WorkspaceID t) pre in
  stored now (with_status (if demoted then "open" else pre)
    ((if demoted then [hist now session "status_changed" pre "open" note] else []) ++
     [hist now "" "lease_expired" "" "" releaseNote]) t).

Definition sweep_row (v : gmap (string * string) VocabRow) (now : Z) (t : Task) : Task :=
  if recentLeaseExpired now t then t
  else demoted_row v now "" "lease expired, demoted from working status" "" t.

Lemma UpdateTask_row now t old d :
  tasks d !! ID t = Some old -> DeletedAt old = None -> ID t <> "" -> HlcAt t <> "" ->
  exists r, UpdateTask now t d =
    (Ok r, set_tasks (<[ID t :=
      {| ID := ID old; WorkspaceID := WorkspaceID t; content := content_columns (content t);
         assignment := assignment_columns (assignment t); provenance := provenance old;
         visibility := visibility old; UpdatedBySessionID := UpdatedBySessionID t;
         StatusHistory := StatusHistory t; HlcAt := HlcAt t; RemoteBaseHLC := RemoteBaseHLC t;
         Pinned := Pinned t; DeletedAt := DeletedAt old; UpdatedAt := unix now |}]> (tasks d)) d).
Proof.
  intros Ht Hd Hid Hh. unfold UpdateTask, stamp. rewrite !bool_decide_false by done.
  rewrite (GetTask_live _ _ _ Ht Hd). eauto.
Qed.

Lemma demote_db now session note rnote action t s :
  tasks (db s) !! ID t = Some t -> DeletedAt t = None -> ID t <> "" -> HlcAt t <> "" ->
  tasks (db (demote now now session note rnote action t s)) =
    <[ID t := demoted_row (vocab (db s)) now session note rnote t]> (tasks (db s)) /\
  vocab (db (demote now now session note rnote action t s)) = vocab (db s).
Proof.
  intros Ht Hd Hid Hh. unfold demote. set (t' := with_status _ _ t).
  destruct (UpdateTask_row now t' t (db s)) as [r ->]; [done..|].
  cbn -[recordTaskHistory]. split.
  - rewrite (proj1 (recordTaskHistory_db _ _ _ _)). done.
  - by rewrite (proj2 (recordTaskHistory_db _ _ _ _)).
Qed.

Lemma NoDup_ids_where f (m : gmap string Task) : NoDup (ids_where f m).
Proof.
  unfold ids_where. pose proof (NoDup_fst_map_to_list m) as Hn. revert Hn.
  generalize (map_to_list m). induction l as [|[i t] l IH]; cbn; [done|].
  intros [Hi Hn]%NoDup_cons. destruct (f t); [|by apply IH]. cbn.
  apply NoDup_cons. split; [|by apply IH]. intros Hin. apply Hi.
  apply list_elem_of_fmap in Hin as (p & -> & Hin).
  apply list_elem_of_In, List.filter_In in Hin as [Hin _].
  apply list_elem_of_fmap. exists p. split; [done|]. by apply list_elem_of_In.
Qed.

(** A loop that rewrites each of its rows with [g], one at a time. *)
Section RowLoop.
Context (one : Service -> string -> Service) (g : Task -> Task)
  (v : gmap (string * string) VocabRow).

Definition row_ok (id : string) (t : Task) : Prop :=
  ID t = id /\ id <> "" /\ HlcAt t <> "" /\ DeletedAt t = None.

Hypothesis one_row : forall s id t,
  vocab (db s) = v -> tasks (db s) !! id = Some t -> row_ok id t ->
  tasks (db (one s id)) = <[id := g t]> (tasks (db s)) /\ vocab (db (one s id)) = v.

Lemma row_loop ids s id :
  NoDup ids -> vocab (db s) = v ->
  (forall i, i ∈ ids -> exists t, tasks (db s) !! i = Some t /\ row_ok i t) ->
  tasks (db (fold_left one ids s)) !! id =
    if bool_decide (id ∈ ids) then g <$> (tasks (db s) !! id) else tasks (db s) !! id.
Proof.
  revert s. induction ids as [|i ids IH]; intros s Hn Hv Hrows.
  - by rewrite bool_decide_false by set_solver.
  - apply NoDup_cons in Hn as [Hi Hn]. cbn [fold_left].
    destruct (Hrows i ltac:(left)) as (t & Ht & Hok).
    destruct (one_row s i t Hv Ht Hok) as [Htasks Hv'].
    rewrite IH; [|done|done|].
    + rewrite Htasks. destruct (decide (id = i)) as [->|Hne].
      * rewrite bool_decide_false by done. rewrite bool_decide_true by left.
        by rewrite lookup_insert_eq, Ht.
      * rewrite lookup_insert_ne by done.
        by rewrite (bool_decide_ext (id ∈ i :: ids) (id ∈ ids)) by set_solver.
    + intros j Hj. rewrite Htasks, lookup_insert_ne by (by intros ->).
      apply Hrows. by right.
Qed.
End RowLoop.

Lemma sweep_one_row now s id t :
  tasks (db s) !! id = Some t -> row_ok id t ->
  tasks (db (sweep_one now s id)) = <[id := sweep_row (vocab (db s)) now t]> (tasks (db s)) /\
  vocab (db (sweep_one now s id)) = vocab (db s).
Proof.
  intros Ht (<- & Hid & Hh & Hd). unfold sweep_one, sweep_demotion, sweep_row. rewrite (GetTask_live _ _ _ Ht Hd).
  destruct (recentLeaseExpired now t); [by rewrite insert_id | by apply demote_db].
Qed.

Lemma release_one_row now session reason s id t :
  tasks (db s) !! id = Some t -> row_ok id t ->
  tasks (db (release_one now session reason s id)) =
    <[id := demoted_row (vocab (db s)) now session
        (if bool_decide (reason = "") then "agent disconnected, demoted from working status"
         else reason +:+ ": demoted from working status")
        (if bool_decide (reason = "") then "released on disconnect" else reason) t]> (tasks (db s)) /\
  vocab (db (release_one now session reason s id)) = vocab (db s).
Proof.
  intros Ht (<- & Hid & Hh & Hd). unfold release_one, release_demotion. rewrite (GetTask_live _ _ _ Ht Hd).
  by apply demote_db.
Qed.

(** The atomic clear, followed by a loop over the ids it returned. *)
Lemma clear_then_loop one g v f clear s id :
  (forall s id t, vocab (db s) = v -> tasks (db s) !! id = Some t -> row_ok id t ->
    tasks (db (one s id)) = <[id := g t]> (tasks (db s)) /\ vocab (db (one s id)) = v) ->
  (forall t, ID (clear t) = ID t /\ HlcAt (clear t) = HlcAt t /\ DeletedAt (clear t) = DeletedAt t) ->
  (forall t, f t = true -> DeletedAt t = None) ->
  vocab (db s) = v -> well_keyed (db s) ->
  tasks (db (fold_left one (ids_where f (tasks (db s)))
    (set_db (set_tasks ((fun t => if f t then clear t else t) <$> tasks (db s)) (db s)) s))) !! id =
  (fun t => if f t then g (clear t) else t) <$> (tasks (db s) !! id).
Proof.
  intros Hone Hclear Hlive Hv Hk. rewrite (row_loop one g v Hone); [|apply NoDup_ids_where|done|].
  - cbn. rewrite lookup_fmap. destruct (tasks (db s) !! id) as [t|] eqn:Ht; cbn.
    + destruct (f t) eqn:Hf.
      * rewrite bool_decide_true; [done|]. apply elem_of_ids_where. eauto.
      * rewrite bool_decide_false; [done|]. intros (t' & Ht' & Hf')%elem_of_ids_where. congruence.
    + by destruct (bool_decide _).
  - intros i (t & Ht & Hf)%elem_of_ids_where. exists (clear t). cbn. rewrite lookup_fmap, Ht. cbn.
    rewrite Hf. split; [done|]. destruct (Hclear t) as (Hi & Hh & Hd), (Hk i t Ht) as (H1 & H2 & H3).
    split_and!; [congruence|done|congruence|]. rewrite Hd. by apply Hlive.
Qed.

Lemma live_None t : live t = true -> DeletedAt t = None.
Proof. unfold live. by intros ?%bool_decide_eq_true. Qed.

Lemma sweep_rows now s id :
  well_keyed (db s) ->
  tasks (db (snd (SweepExpiredLeases now s))) !! id =
    (fun t => if sweepable (vocab (db s)) (unix now) t
              then sweep_row (vocab (db s)) now (cleared (unix now) t) else t)
    <$> (tasks (db s) !! id).
Proof.
  intros Hk. cbn -[unix].
  apply (clear_then_loop _ (sweep_row (vocab (db s)) now) (vocab (db s))); [| | |done|done].
  - intros s' i t Hv Ht Hok. rewrite <- Hv. by apply sweep_one_row.
  - done.
  - intros t Hf. unfold sweepable in Hf. bool_hyps. by apply live_None.
Qed.

(** The sweep, row by row.  A row whose lease is not over is left alone; a
    row that is reclaimable loses its assignee and its lease and, unless its history
    has a lease_expired entry less than an hour old, a working status is demoted to
    open and the expiry is appended to its history. *)
Theorem SweepExpiredLeases_rows now s id :
  well_keyed (db s) ->
  tasks (db (snd (SweepExpiredLeases now s))) !! id =
    (fun t => if sweepable (vocab (db s)) (unix now) t
              then sweep_row (vocab (db s)) now (cleared (unix now) t) else t)
    <$> (tasks (db s) !! id).
Proof. apply sweep_rows. Qed.

(** The same for the rows of a disconnected session. *)
Lemma ReleaseSessionTasks_rows now session reason s id :
  well_keyed (db s) -> session <> "" ->
  tasks (db (snd (ReleaseSessionTasksWithReason now session reason s))) !! id =
    (fun t => if session_held (vocab (db s)) session t
              then demoted_row (vocab (db s)) now session
                (if bool_decide (reason = "") then "agent disconnected, demoted from working status"
                 else reason +:+ ": demoted from working status")
                (if bool_decide (reason = "") then "released on disconnect" else reason)
                (session_cleared (unix now) t) else t)
    <$> (tasks (db s) !! id).
Proof.
  intros Hk Hs. unfold ReleaseSessionTasksWithReason, ClearSessionTaskLeases.
  rewrite !bool_decide_false by done. cbn -[unix demoted_row release_one].
  apply (clear_then_loop _ (demoted_row (vocab (db s)) now session _ _) (vocab (db s)));
    [| | |done|done].
  - intros s' i t Hv Ht Hok. rewrite <- Hv. by apply release_one_row.
  - done.
  - intros t Hf. unfold session_held in Hf. bool_hyps. by apply live_None.
Qed.

Lemma unix_idemp t : unix (unix t) = unix t.
Proof. unfold unix, second. by rewrite Z.div_mul. Qed.

(** After the sweep no live row is left with a lease that is over, and the stamp
    of no row has moved. *)
Lemma sweep_leaves_none now s id t :
  well_keyed (db s) ->
  tasks (db (snd (SweepExpiredLeases now s))) !! id = Some t ->
  sweepable (vocab (db s)) (unix now) t = false /\
  exists t0, tasks (db s) !! id = Some t0 /\ HlcAt t = HlcAt t0.
Proof.
  intros Hk. rewrite sweep_rows by done.
  destruct (tasks (db s) !! id) as [t0|]; [|done]. intros [= <-].
  split; [|exists t0; split; [done|]].
  - destruct (sweepable (vocab (db s)) (unix now) t0) eqn:Hf; [|done].
    unfold sweep_row. by destruct (recentLeaseExpired now (cleared (unix now) t0)).
  - destruct (sweepable _ _ t0); [|done]. unfold sweep_row.
    by destruct (recentLeaseExpired now (cleared (unix now) t0)).
Qed.

(** ** What a claim gives *)

(** A successful claim.  The claimant owns the row: it was unassigned or its
    own before, and now carries the claimant's session, the claimed status and no
    peer or human assignee; when the service classifies that status as working and
    the row is not closed, it also carries a lease of LeaseTTL, and no sweep up to
    the end of that lease reclaims it. *)
Theorem claim_attempt_owns now ws id status c s s' :
  well_keyed (db s) -> claim_attempt now ws id status c s = (Ok tt, s') ->
  exists old t,
    tasks (db s) !! id = Some old /\ claimable c old = true /\
    tasks (db s') !! id = Some t /\
    (ws <> "" -> WorkspaceID old = ws) /\ WorkspaceID t = WorkspaceID old /\
    c <> "" /\ AssigneeSessionID (assignment t) = c /\
    AssigneePeerID (assignment t) = "" /\ AssigneeUserID (assignment t) = "" /\
    Status (content t) = or_default status "doing" /\
    (ClosedAt (content t) = None ->
     isWorkingStatus (vocab (db s)) (WorkspaceID t) (Status (content t)) = true ->
     LeaseExpiresAt (assignment t) = Some (unix (now + LeaseTTL)) /\
     forall later, unix later <= unix (now + LeaseTTL) ->
       sweepable (vocab (db s)) (unix later) t = false).
Proof.
  intros Hk. unfold claim_attempt. destruct (bool_decide_reflect (c = "")) as [|Hc]; [done|].
  destruct (GetTask id (db s)) as [cur|] eqn:Hg; [|done].
  apply GetTask_Ok in Hg as [Hcur Hd]. destruct (Hk id cur Hcur) as (Hid & Hne & _).
  destruct (negb (bool_decide (ws = "")) && _) eqn:Hws; [done|].
  destruct (authorizeSharedTaskEdit s cur _); [|done].
  destruct (Now now (clock (db s))) as [h k]. set (t := claim_row _ _ _ _ _ cur).
  assert (ID t = id) as Ht by done.
  unfold ClaimTask. rewrite Ht, (bool_decide_false _ Hne), (bool_decide_false _ Hc).
  destruct (stamp now (HlcAt t) (set_clock k (db s))) as [h' d] eqn:Hst.
  assert (tasks d = tasks (db s)) as Hd'
    by (pose proof (tasks_stamp now (HlcAt t) (set_clock k (db s))) as E; by rewrite Hst in E).
  rewrite (GetTask_live id cur d) by (by rewrite ?Hd').
  destruct (claimable c cur) eqn:Hcl; [|done]. intros [= <-].
  eexists cur, _. cbn -[claim_row]. rewrite lookup_insert_eq. split_and!; try done.
  - intros Hw. apply andb_false_iff in Hws as [H|H]; bool_hyps; [done|]. done.
  - cbn. intros Hclosed%fmap_None Hw. rewrite Hw.
    assert (bool_decide ((if IsTerminalStatus (vocab (db s)) (WorkspaceID cur)
        (or_default status "doing") && bool_decide (ClosedAt (content cur) = None)
      then Some now else ClosedAt (content cur)) = None) = true) as ->
      by (by apply bool_decide_eq_true).
    cbn. split; [done|]. intros later Hl. unfold sweepable, taskReclaimableExpr. cbn.
    by replace (_ <? _) with false by (symmetry; apply Z.ltb_ge; lia).
Qed.

(** ** Examples, witnesses and divergences *)

Definition sample_task (id status session : string) (lease : option Z)
    (l : list TaskStatusHistoryEntry) : Task :=
  {| ID := id; WorkspaceID := "ws";
     content := {| Title := "t"; Description := ""; Status := status; ClosedAt := None;
       Priority := "normal"; DueAt := None; TagsJSON := "[]"; Meta := "" |};
     assignment := {| AssigneeSessionID := session; AssigneeOriginKind := "local";
       AssigneePeerID := ""; AssigneeUserID := ""; AssignedBySessionID := ""; AssignedByPeerID := "";
       AssignedAt := None; LeaseExpiresAt := lease |};
     provenance := {| SourceKind := "agent"; SourceSessionID := ""; SourceToolCallID := "";
       CreatedBySessionID := ""; OriginPeerID := ""; CreatedAt := 0 |};
     visibility := {| OwnerPrincipalID := ""; Visibility := "private"; VisibilityEpoch := 1;
       VisibilityUpdatedByPrincipalID := ""; VisibilityUpdatedAt := None |};
     UpdatedBySessionID := ""; StatusHistory := l; HlcAt := "h"; RemoteBaseHLC := "";
     Pinned := false; DeletedAt := None; UpdatedAt := 0 |}.

Definition sample_service (l : list Task) : Service :=
  {| db := {| tasks := list_to_map ((fun t => (ID t, t)) <$> l); vocab := ∅; task_history := [];
              clock := NewClock |};
     membershipStore := ∅; effects := [] |}.

Lemma sample_well_keyed t : ID t <> "" -> HlcAt t <> "" -> well_keyed (db (sample_service [t])).
Proof.
  intros Hi Hh id u. cbn. intros [[<- <-]|[_ H]]%lookup_insert_Some; [done|]. by rewrite lookup_empty in H.
Qed.

(** Two other sessions try to take "a" from "s1", while a sweep, in time for "a" and late
    for "b", demotes "b", and "s2" is released. *)
Definition sample_ops : list (Z * lease_op) :=
  [(10 * second, OpClaim (sample_task "a" "doing" "s2" None []) "s2");
   (20 * second, OpHeartbeat "a" "s3" LeaseTTL);
   (300 * second, OpSweep); (301 * second, OpDemote 0 true); (302 * second, OpRelease "s2" "");
   (303 * second, OpClaim (sample_task "a" "doing" "s3" None []) "s3"); (304 * second, OpDemote 0 true)].

Definition sample_state : lease_state := {|
  service := sample_service [sample_task "a" "doing" "s1" (Some (300 * second)) []; sample_task "b" "doing" "s2" (Some (200 * second)) []];
  demoters := [] |}.

Example sample_demotes : (Status ∘ content <$> tasks (db (service (lease_run sample_ops sample_state))) !! "b") = Some "open".
Proof. vm_compute. reflexivity. Qed.

(** Nothing in between, the steps of a sweep are the sweep. *)
Example sweep_steps :
  let s := service sample_state in
  let steps := (400 * second, OpSweep) :: repeat (400 * second, OpDemote 0 true) 4 in
  map_to_list (tasks (db (service (lease_run steps sample_state)))) = map_to_list (tasks (db (snd (SweepExpiredLeases (400 * second) s)))) /\
  effects (service (lease_run steps sample_state)) = effects (snd (SweepExpiredLeases (400 * second) s)).
Proof. vm_compute. split; reflexivity. Qed.

Lemma lease_exclusive_witness :
  let t := sample_task "a" "doing" "s1" (Some (300 * second)) [] in
  holds "a" "s1" (300 * second) t /\ tasks (db (service (lease_run sample_ops sample_state))) !! "a" = Some t /\
  forall now t' c, ID t' = "a" -> c <> "" -> c <> "s1" ->
    fst (ClaimTask now t' c (db (service (lease_run sample_ops sample_state)))) = Err ErrTaskAlreadyClaimed.
Proof.
  cbv zeta. split; [by split_and!|].
  apply (lease_exclusive "a" "s1" (300 * second)); [|done|by split_and!|done|constructor|].
  - intros id t. cbn. intros [[<- <-]|[_ H]]%lookup_insert_Some; [done|].
    apply lookup_insert_Some in H as [[<- <-]|[_ H]]; [done|]. by rewrite lookup_empty in H.
  - apply List.Forall_forall. intros p Hp.
    repeat destruct Hp as [<-|Hp]; [..|done]; cbn; first [exact I | by intros _ | by intros [=] | by apply Z.leb_le].
Defined.

Lemma SweepExpiredLeases_rows_witness :
  let t := sample_task "a" "doing" "s1" (Some (300 * second)) [] in
  well_keyed (db (sample_service [t])) /\
  tasks (db (snd (SweepExpiredLeases (301 * second) (sample_service [t])))) !! "a" =
    Some (sweep_row ∅ (301 * second) (cleared (301 * second) t)).
Proof.
  cbv zeta. split; [by apply sample_well_keyed|].
  rewrite SweepExpiredLeases_rows; [done|by apply sample_well_keyed].
Defined.

Lemma claim_attempt_owns_witness :
  let s := sample_service [sample_task "a" "open" "" None []] in
  exists s', claim_attempt second "ws" "a" "" "s1" s = (Ok tt, s') /\
  exists t, tasks (db s') !! "a" = Some t /\ AssigneeSessionID (assignment t) = "s1".
Proof.
  cbv zeta. eexists. split; [vm_compute; reflexivity|].
  edestruct (claim_attempt_owns second "ws" "a" "" "s1"
    (sample_service [sample_task "a" "open" "" None []])) as (old & t & _ & _ & Ht & _ & _ & _ & Ha & _);
    [by apply sample_well_keyed | vm_compute; reflexivity |].
  exists t. by split.
Defined.

(** [isWorkingStatus] looks the status up as written, [taskWorkingStatusPredicate]
    in lower case: a claim into "Doing" gets no lease, and the sweep of the same
    instant takes the row away from its claimant. *)
Example claim_Doing_reclaimed :
  let s := sample_service [sample_task "a" "open" "" None []] in
  let r := claim_attempt second "ws" "a" "Doing" "s1" s in
  fst r = Ok tt /\
  (LeaseExpiresAt ∘ assignment <$> tasks (db (snd r)) !! "a") = Some None /\
  (AssigneeSessionID ∘ assignment <$> tasks (db (snd (SweepExpiredLeases second (snd r)))) !! "a")
    = Some "".
Proof. vm_compute. by split_and!. Qed.

(** A lease that runs out twice within the hour: the second sweep clears the
    assignee and leaves the row in "doing" with nobody on it. *)
Example second_expiry_stays_working :
  let t := sample_task "a" "doing" "s1" (Some (300 * second))
             [hist (10 * second) "" "lease_expired" "" "" ""] in
  let r := tasks (db (snd (SweepExpiredLeases (400 * second) (sample_service [t])))) !! "a" in
  (AssigneeSessionID ∘ assignment <$> r) = Some "" /\ (Status ∘ content <$> r) = Some "doing".
Proof. vm_compute. by split_and!. Qed.

(** The sweep writes back the whole row it read: a claim that lands between its read
    and its write succeeds and is then undone. *)
Example sweep_overwrites_claim :
  let s := sample_service [sample_task "a" "doing" "s1" (Some (300 * second)) []] in
  let st := lease_run [(301 * second, OpSweep); (301 * second, OpDemote 0 true)] {| service := s; demoters := [] |} in
  let r := claim_attempt (301 * second) "ws" "a" "" "s2" (service st) in
  fst r = Ok tt /\
  (AssigneeSessionID ∘ assignment <$> tasks (db (snd r)) !! "a") = Some "s2" /\
  (AssigneeSessionID ∘ assignment <$>
    tasks (db (service (lease_step {| service := snd r; demoters := demoters st |} (301 * second, OpDemote 0 true)))) !! "a") = Some "".
Proof. vm_compute. by split_and!. Qed.
