(* ===== verification/Gossip.v ===== *)
(** Task gossip: [internal/tasks/gossip_apply.go] and the event frame of
    [internal/p2p/task_sync_p2p.go].

    [field_patches_json] is the value it decodes to: absent (or null), not an
    object of the patch's shape, or a patch.  [encode_patch] is what [json.Marshal]
    followed by [json.Unmarshal] makes of a patch: invalid UTF-8 is replaced, the
    raw tags are compacted, and a tag text that is not JSON or a year outside 0-9999
    makes Marshal fail, which the code ignores. *)

From Stdlib Require Import Ascii String.
From stdpp Require Import gmap strings.
From S2P Require Import Prelude GoStrings GoJson Hlc TaskStore TaskLease.

#[local] Open Scope string_scope.
#[local] Open Scope list_scope.
#[local] Open Scope Z_scope.

(** ** The wire *)

Record RemoteTaskPatch := {
  p_Title : string; p_Description : string; p_Status : string; p_Priority : string;
  p_Meta : string; p_TagsJSON : string;
  p_AssigneeSessionID : string; p_AssigneePeerID : string; p_AssigneeUserID : string;
  p_AssigneeOriginKind : string; p_OriginPeerID : string;
  p_DueAt : option Z; p_ClosedAt : option Z; p_Clears : list string }.

Definition empty_patch : RemoteTaskPatch :=
  {| p_Title := ""; p_Description := ""; p_Status := ""; p_Priority := ""; p_Meta := "";
     p_TagsJSON := ""; p_AssigneeSessionID := ""; p_AssigneePeerID := ""; p_AssigneeUserID := "";
     p_AssigneeOriginKind := ""; p_OriginPeerID := ""; p_DueAt := None; p_ClosedAt := None;
     p_Clears := [] |}.

Inductive field_patches := NoPatches | BadPatches | Patches (p : RemoteTaskPatch).

Record TaskSyncEvent := {
  e_TaskID : string; e_WorkspaceID : string; e_HLC : string; e_BySession : string;
  e_ByPeer : string; e_FieldPatches : field_patches }.

(** A string through Marshal and Unmarshal. *)
Definition wire_string (s : string) : string := fix_utf8 0 (list_ascii_of_string s).

(** [json.Compact] with HTML escaping, as Marshal applies it to a RawMessage. *)
Definition html_escape (a : ascii) : string :=
  if bool_decide (a = "<"%char) then "\u003c" else
  if bool_decide (a = ">"%char) then "\u003e" else
  if bool_decide (a = "&"%char) then "\u0026" else String a "".

Fixpoint compact (in_str esc : bool) (l : list ascii) : string :=
  match l with
  | [] => ""
  | a :: l' =>
      if in_str then
        match l' with
        | b :: c :: l'' =>
            if bool_decide (a = ascii_of_N 226) && bool_decide (b = ascii_of_N 128) &&
               (bool_decide (c = ascii_of_N 168) || bool_decide (c = ascii_of_N 169))
            then (if bool_decide (c = ascii_of_N 168) then "\u2028" else "\u2029") +:+
                 compact true false l''
            else html_escape a +:+
              (if esc then compact true false l'
               else if bool_decide (a = "\"%char) then compact true true l'
               else compact (negb (bool_decide (a = "034"%char))) false l')
        | _ => html_escape a +:+
              (if esc then compact true false l'
               else if bool_decide (a = "\"%char) then compact true true l'
               else compact (negb (bool_decide (a = "034"%char))) false l')
        end
      else if is_json_space a then compact false false l'
      else String a (compact (bool_decide (a = "034"%char)) false l')
  end.

(** [None] when the text is not valid JSON. *)
Definition json_compact (raw : string) : option string :=
  _ ← json_parse raw; Some (compact false false (list_ascii_of_string raw)).

(** [Time.MarshalJSON] accepts the years 0 to 9999. *)
Definition json_time_ok (t : Z) : bool :=
  (-62167219200 * second <=? t) && (t <? 253402300800 * second).
Definition json_time_opt_ok (t : option Z) : bool :=
  match t with Some t => json_time_ok t | None => true end.

Definition encode_patch (p : RemoteTaskPatch) : option RemoteTaskPatch :=
  if json_time_opt_ok (p_DueAt p) && json_time_opt_ok (p_ClosedAt p) then
    tags ← (if bool_decide (p_TagsJSON p = "") then Some "" else json_compact (p_TagsJSON p));
    Some {| p_Title := wire_string (p_Title p); p_Description := wire_string (p_Description p);
       p_Status := wire_string (p_Status p); p_Priority := wire_string (p_Priority p);
       p_Meta := wire_string (p_Meta p); p_TagsJSON := tags;
       p_AssigneeSessionID := wire_string (p_AssigneeSessionID p);
       p_AssigneePeerID := wire_string (p_AssigneePeerID p);
       p_AssigneeUserID := wire_string (p_AssigneeUserID p);
       p_AssigneeOriginKind := wire_string (p_AssigneeOriginKind p);
       p_OriginPeerID := wire_string (p_OriginPeerID p);
       p_DueAt := p_DueAt p; p_ClosedAt := p_ClosedAt p;
       p_Clears := wire_string <$> p_Clears p |}
  else None.

(** ** Applying an event *)

Fixpoint firstNonEmptyStr (values : list string) : string :=
  match values with
  | [] => ""
  | v :: vs => if bool_decide (v = "") then firstNonEmptyStr vs else v
  end.

(** [strings.Compare]. *)
Definition strings_Compare (a b : string) : Z :=
  match String.compare a b with Lt => -1 | Eq => 0 | Gt => 1 end.

Definition compareHLCWithTiebreak (aHLC aPeer bHLC bPeer : string) : Z :=
  if String.ltb bHLC aHLC then 1
  else if String.ltb aHLC bHLC then -1
  else strings_Compare bPeer aPeer.

(** Keep the row's value where the patch carries the zero value. *)
Definition patched (new old : string) : string := if bool_decide (new = "") then old else new.
Definition patched_time (new old : option Z) : option Z :=
  match new with Some _ => new | None => old end.

Definition mergeFields (t : Task) (p : RemoteTaskPatch) : Task :=
  let c := content t in let a := assignment t in
  {| ID := ID t; WorkspaceID := WorkspaceID t;
     content := {|
       Title := patched (p_Title p) (Title c);
       Description := patched (p_Description p) (Description c);
       Status := patched (p_Status p) (Status c);
       ClosedAt := patched_time (p_ClosedAt p) (ClosedAt c);
       Priority := patched (p_Priority p) (Priority c);
       DueAt := patched_time (p_DueAt p) (DueAt c);
       TagsJSON := patched (p_TagsJSON p) (TagsJSON c);
       Meta := patched (p_Meta p) (Meta c) |};
     assignment :=
       if bool_decide (p_AssigneeOriginKind p = "") then
         {| AssigneeSessionID := patched (p_AssigneeSessionID p) (AssigneeSessionID a);
            AssigneeOriginKind := AssigneeOriginKind a;
            AssigneePeerID := patched (p_AssigneePeerID p) (AssigneePeerID a);
            AssigneeUserID := patched (p_AssigneeUserID p) (AssigneeUserID a);
            AssignedBySessionID := AssignedBySessionID a; AssignedByPeerID := AssignedByPeerID a;
            AssignedAt := AssignedAt a; LeaseExpiresAt := LeaseExpiresAt a |}
       else
         {| AssigneeSessionID := p_AssigneeSessionID p;
            AssigneeOriginKind := p_AssigneeOriginKind p;
            AssigneePeerID := p_AssigneePeerID p; AssigneeUserID := p_AssigneeUserID p;
            AssignedBySessionID := AssignedBySessionID a; AssignedByPeerID := AssignedByPeerID a;
            AssignedAt := AssignedAt a; LeaseExpiresAt := LeaseExpiresAt a |};
     provenance := provenance t; visibility := visibility t;
     UpdatedBySessionID := UpdatedBySessionID t; StatusHistory := StatusHistory t;
     HlcAt := HlcAt t; RemoteBaseHLC := RemoteBaseHLC t; Pinned := Pinned t;
     DeletedAt := DeletedAt t; UpdatedAt := UpdatedAt t |}.

Definition with_parts (c : Content) (a : Assignment) (t : Task) : Task :=
  {| ID := ID t; WorkspaceID := WorkspaceID t; content := c; assignment := a;
     provenance := provenance t; visibility := visibility t;
     UpdatedBySessionID := UpdatedBySessionID t; StatusHistory := StatusHistory t;
     HlcAt := HlcAt t; RemoteBaseHLC := RemoteBaseHLC t; Pinned := Pinned t;
     DeletedAt := DeletedAt t; UpdatedAt := UpdatedAt t |}.

Inductive clear_name := ClearAssignee | ClearDueAt | ClearMeta | ClearDescription | ClearClosedAt.
#[export] Instance clear_name_eq_dec : EqDecision clear_name.
Proof. solve_decision. Defined.

Definition parse_clear (field : string) : option clear_name :=
  let f := ToLower field in
  if bool_decide (f = "assignee") then Some ClearAssignee else
  if bool_decide (f = "due_at") then Some ClearDueAt else
  if bool_decide (f = "meta") then Some ClearMeta else
  if bool_decide (f = "description") then Some ClearDescription else
  if bool_decide (f = "closed_at") then Some ClearClosedAt else None.

(** The "assignee" case leaves the human assignee alone. *)
Definition apply_clear (t : Task) (field : string) : Task :=
  let c := content t in let a := assignment t in
  match parse_clear field with
  | Some ClearAssignee =>
      with_parts c
        {| AssigneeSessionID := ""; AssigneeOriginKind := "local"; AssigneePeerID := "";
           AssigneeUserID := AssigneeUserID a; AssignedBySessionID := AssignedBySessionID a;
           AssignedByPeerID := AssignedByPeerID a; AssignedAt := None; LeaseExpiresAt := None |} t
  | Some ClearDueAt =>
      with_parts {| Title := Title c; Description := Description c; Status := Status c;
        ClosedAt := ClosedAt c; Priority := Priority c; DueAt := None; TagsJSON := TagsJSON c;
        Meta := Meta c |} a t
  | Some ClearMeta =>
      with_parts {| Title := Title c; Description := Description c; Status := Status c;
        ClosedAt := ClosedAt c; Priority := Priority c; DueAt := DueAt c; TagsJSON := TagsJSON c;
        Meta := "" |} a t
  | Some ClearDescription =>
      with_parts {| Title := Title c; Description := ""; Status := Status c;
        ClosedAt := ClosedAt c; Priority := Priority c; DueAt := DueAt c; TagsJSON := TagsJSON c;
        Meta := Meta c |} a t
  | Some ClearClosedAt =>
      with_parts {| Title := Title c; Description := Description c; Status := Status c;
        ClosedAt := None; Priority := Priority c; DueAt := DueAt c; TagsJSON := TagsJSON c;
        Meta := Meta c |} a t
  | None => t
  end.

Definition applyClears (t : Task) (p : RemoteTaskPatch) : Task := fold_left apply_clear (p_Clears p) t.

Inductive gossip_error :=
| MissingTaskOrHLC | MissingWorkspace | DecodePatch | NoTitle | GossipStore (e : store_error).

Definition appendGossipHistory (t : Task) (evt : TaskSyncEvent) (byPeer : string) (now : Z) :
    list TaskStatusHistoryEntry :=
  StatusHistory t ++
    [{| h_At := now; h_BySession := e_BySession evt; h_ByPeer := byPeer; h_Evt := "gossip_applied";
        h_From := ""; h_To := ""; h_Note := "hlc=" +:+ e_HLC evt |}].

(** The row after the merge and the clears, stamped with the remote revision. *)
Definition merged_row (now : Z) (existing : Task) (evt : TaskSyncEvent) (p : RemoteTaskPatch)
    (byPeer : string) : Task :=
  let t := applyClears (mergeFields existing p) p in
  let v := provenance t in
  {| ID := ID t; WorkspaceID := WorkspaceID t; content := content t; assignment := assignment t;
     provenance := {| SourceKind := SourceKind v; SourceSessionID := SourceSessionID v;
       SourceToolCallID := SourceToolCallID v; CreatedBySessionID := CreatedBySessionID v;
       OriginPeerID := firstNonEmptyStr [p_OriginPeerID p; OriginPeerID v; byPeer];
       CreatedAt := CreatedAt v |};
     visibility := visibility t; UpdatedBySessionID := e_BySession evt;
     StatusHistory := appendGossipHistory t evt byPeer now;
     HlcAt := e_HLC evt; RemoteBaseHLC := e_HLC evt; Pinned := Pinned t;
     DeletedAt := DeletedAt t; UpdatedAt := UpdatedAt t |}.

(** The event loses: it is older than the row, or a duplicate. *)
Definition dropped (existing : Task) (evt : TaskSyncEvent) (byPeer : string) (authoritative : bool) : bool :=
  negb (bool_decide (WorkspaceID existing = e_WorkspaceID evt)) ||
  (if authoritative
   then bool_decide (e_HLC evt = HlcAt existing) &&
        bool_decide (byPeer = OriginPeerID (provenance existing))
   else compareHLCWithTiebreak (e_HLC evt) byPeer (HlcAt existing)
          (AssigneePeerID (assignment existing)) <=? 0).

Definition history_call (action : string) (before after : option Task) (event : effect) (s : Service) :
    result gossip_error unit * Service :=
  match recordTaskHistory action before after (db s) with
  | (Err e, d) => (Err (GossipStore e), set_db d s)
  | (Ok _, d) => (Ok tt, emit [event] (set_db d s))
  end.

Definition applyToExisting (now : Z) (existing : Task) (evt : TaskSyncEvent) (p : RemoteTaskPatch)
    (byPeer : string) (authoritative : bool) (s : Service) : result gossip_error unit * Service :=
  if dropped existing evt byPeer authoritative then (Ok tt, s) else
  match UpdateTask now (merged_row now existing evt p byPeer) (db s) with
  | (Err e, d) => (Err (GossipStore e), set_db d s)
  | (Ok t, d) =>
      let after := match GetTask (ID existing) d with Ok fresh => fresh | Err _ => t end in
      history_call "gossip_update" (Some existing) (Some after)
        (Published "task_updated" t now) (set_db d s)
  end.

Definition materialized (now : Z) (evt : TaskSyncEvent) (p : RemoteTaskPatch) (byPeer : string) : Task :=
  applyClears
    {| ID := e_TaskID evt; WorkspaceID := e_WorkspaceID evt;
       content := {| Title := p_Title p; Description := p_Description p; Status := p_Status p;
         ClosedAt := p_ClosedAt p; Priority := p_Priority p; DueAt := p_DueAt p;
         TagsJSON := p_TagsJSON p; Meta := p_Meta p |};
       assignment := {| AssigneeSessionID := p_AssigneeSessionID p;
         AssigneeOriginKind := p_AssigneeOriginKind p; AssigneePeerID := p_AssigneePeerID p;
         AssigneeUserID := p_AssigneeUserID p; AssignedBySessionID := ""; AssignedByPeerID := "";
         AssignedAt := None; LeaseExpiresAt := None |};
       provenance := {| SourceKind := "peer-import"; SourceSessionID := ""; SourceToolCallID := "";
         CreatedBySessionID := ""; OriginPeerID := firstNonEmptyStr [p_OriginPeerID p; byPeer];
         CreatedAt := now |};
       visibility := {| OwnerPrincipalID := ""; Visibility := ""; VisibilityEpoch := 0;
         VisibilityUpdatedByPrincipalID := ""; VisibilityUpdatedAt := None |};
       UpdatedBySessionID := e_BySession evt; StatusHistory := []; HlcAt := e_HLC evt;
       RemoteBaseHLC := e_HLC evt; Pinned := false; DeletedAt := None; UpdatedAt := now |} p.

(** The "open" default and the seeded history. *)
Definition seeded (now : Z) (evt : TaskSyncEvent) (byPeer : string) (t : Task) : Task :=
  let c := content t in
  let status := or_default (Status c) "open" in
  {| ID := ID t; WorkspaceID := WorkspaceID t;
     content := {| Title := Title c; Description := Description c; Status := status;
       ClosedAt := ClosedAt c; Priority := Priority c; DueAt := DueAt c; TagsJSON := TagsJSON c;
       Meta := Meta c |};
     assignment := assignment t; provenance := provenance t; visibility := visibility t;
     UpdatedBySessionID := UpdatedBySessionID t;
     StatusHistory := [{| h_At := now; h_BySession := e_BySession evt; h_ByPeer := byPeer;
       h_Evt := "received_gossip"; h_From := ""; h_To := status; h_Note := "" |}];
     HlcAt := HlcAt t; RemoteBaseHLC := RemoteBaseHLC t; Pinned := Pinned t;
     DeletedAt := DeletedAt t; UpdatedAt := UpdatedAt t |}.

Definition applyMaterialize (ulid : string) (now : Z) (evt : TaskSyncEvent) (p : RemoteTaskPatch)
    (byPeer : string) (s : Service) : result gossip_error unit * Service :=
  let t := materialized now evt p byPeer in
  if bool_decide (Title (content t) = "") then (Err NoTitle, s) else
  match CreateTask ulid now (seeded now evt byPeer t) (db s) with
  | (Err e, d) => (Err (GossipStore e), set_db d s)
  | (Ok t, d) =>
      history_call "gossip_create" None (Some t) (Published "task_created" t now) (set_db d s)
  end.

Definition observe (hlc : string) (s : Service) : Service :=
  set_db (set_clock (snd (Observe hlc (clock (db s)))) (db s)) s.

Definition applyRemoteEvent (ulid : string) (now : Z) (fromPeerID : string) (evt : TaskSyncEvent)
    (authoritative : bool) (s : Service) : result gossip_error unit * Service :=
  if bool_decide (e_TaskID evt = "") || bool_decide (e_HLC evt = "") then (Err MissingTaskOrHLC, s) else
  if bool_decide (e_WorkspaceID evt = "") then (Err MissingWorkspace, s) else
  let s := observe (e_HLC evt) s in
  let byPeer := or_default (e_ByPeer evt) fromPeerID in
  match e_FieldPatches evt with
  | BadPatches => (Err DecodePatch, s)
  | NoPatches | Patches _ =>
      let p := match e_FieldPatches evt with Patches p => p | _ => empty_patch end in
      match GetTask (e_TaskID evt) (db s) with
      | Ok existing => applyToExisting now existing evt p byPeer authoritative s
      | Err ErrNotFound => applyMaterialize ulid now evt p byPeer s
      | Err e => (Err (GossipStore e), s)
      end
  end.

Definition ApplyRemoteEvent ulid now fromPeerID evt := applyRemoteEvent ulid now fromPeerID evt false.
Definition ApplyAuthoritativeRemoteEvent ulid now fromPeerID evt :=
  applyRemoteEvent ulid now fromPeerID evt true.

(** ** Producing an event *)

Definition gossip_clears (t : Task) : list string :=
  (if unassigned (assignment t) then ["assignee"] else []) ++
  (match DueAt (content t) with None => ["due_at"] | Some _ => [] end) ++
  (if bool_decide (Meta (content t) = "") then ["meta"] else []) ++
  (if bool_decide (Description (content t) = "") then ["description"] else []) ++
  (match ClosedAt (content t) with None => ["closed_at"] | Some _ => [] end).

Definition gossip_patch (t : Task) : RemoteTaskPatch :=
  let c := content t in let a := assignment t in
  {| p_Title := Title c; p_Description := Description c; p_Status := Status c;
     p_Priority := Priority c; p_Meta := Meta c; p_TagsJSON := TagsJSON c;
     p_AssigneeSessionID := AssigneeSessionID a; p_AssigneePeerID := AssigneePeerID a;
     p_AssigneeUserID := AssigneeUserID a; p_AssigneeOriginKind := AssigneeOriginKind a;
     p_OriginPeerID := OriginPeerID (provenance t); p_DueAt := DueAt c; p_ClosedAt := ClosedAt c;
     p_Clears := gossip_clears t |}.

Definition BuildLocalEventForGossip (t : Task) (selfPeerID : string) : TaskSyncEvent :=
  {| e_TaskID := ID t; e_WorkspaceID := WorkspaceID t; e_HLC := HlcAt t;
     e_BySession := UpdatedBySessionID t;
     e_ByPeer := or_default (OriginPeerID (provenance t)) selfPeerID;
     e_FieldPatches := match encode_patch (gossip_patch t) with Some p => Patches p | None => NoPatches end |}.

(** ** What an event does to the table *)

Definition event_patch (evt : TaskSyncEvent) : RemoteTaskPatch :=
  match e_FieldPatches evt with Patches p => p | _ => empty_patch end.
Definition event_peer (from : string) (evt : TaskSyncEvent) : string := or_default (e_ByPeer evt) from.

(** The event passes the checks made before the store is read. *)
Definition wellformed_event (evt : TaskSyncEvent) : Prop :=
  e_TaskID evt <> "" /\ e_HLC evt <> "" /\ e_WorkspaceID evt <> "" /\ e_FieldPatches evt <> BadPatches.

(** The columns after an applied event; the provenance is the row's own, since
    [UpdateTask] does not write [origin_peer_id]. *)
Definition gossip_row (now : Z) (t : Task) (evt : TaskSyncEvent) (p : RemoteTaskPatch)
    (byPeer : string) : Task :=
  let r := merged_row now t evt p byPeer in
  {| ID := ID t; WorkspaceID := WorkspaceID t; content := content_columns (content r);
     assignment := assignment_columns (assignment r); provenance := provenance t;
     visibility := visibility t; UpdatedBySessionID := e_BySession evt;
     StatusHistory := StatusHistory r; HlcAt := e_HLC evt; RemoteBaseHLC := e_HLC evt;
     Pinned := Pinned t; DeletedAt := DeletedAt t; UpdatedAt := unix now |}.

Definition creatable (t : Task) : bool :=
  negb (bool_decide (TrimSpace (Title (content t)) = "")) &&
  negb (bool_decide (TrimSpace (WorkspaceID t) = "")).

Definition remote_row (now : Z) (from : string) (evt : TaskSyncEvent) (auth : bool)
    (old : option Task) : option Task :=
  let p := event_patch evt in let byPeer := event_peer from evt in
  match old with
  | Some t =>
      if live t && negb (dropped t evt byPeer auth) then Some (gossip_row now t evt p byPeer) else old
  | None =>
      let t := seeded now evt byPeer (materialized now evt p byPeer) in
      if creatable t then Some (inserted now t) else None
  end.

(** What the clears never touch. *)
Lemma applyClears_keeps t p :
  ID (applyClears t p) = ID t /\ WorkspaceID (applyClears t p) = WorkspaceID t /\
  provenance (applyClears t p) = provenance t /\ visibility (applyClears t p) = visibility t /\
  DeletedAt (applyClears t p) = DeletedAt t /\ HlcAt (applyClears t p) = HlcAt t /\
  Pinned (applyClears t p) = Pinned t /\ StatusHistory (applyClears t p) = StatusHistory t /\
  Title (content (applyClears t p)) = Title (content t) /\
  Status (content (applyClears t p)) = Status (content t) /\
  Priority (content (applyClears t p)) = Priority (content t) /\
  TagsJSON (content (applyClears t p)) = TagsJSON (content t).
Proof.
  unfold applyClears. generalize (p_Clears p) as l. intros l. revert t.
  induction l as [|f l IH]; intros t; [by split_and!|]. cbn [fold_left].
  destruct (IH (apply_clear t f)) as (H1 & H2 & H3 & H4 & H5 & H6 & H7 & H8 & H9 & H10 & H11 & H12).
  rewrite H1, H2, H3, H4, H5, H6, H7, H8, H9, H10, H11, H12.
  unfold apply_clear. by destruct (parse_clear f) as [[]|].
Qed.

Lemma history_call_tasks a b c e s : tasks (db (snd (history_call a b c e s))) = tasks (db s).
Proof.
  unfold history_call. pose proof (proj1 (recordTaskHistory_db a b c (db s))) as H.
  by destruct (recordTaskHistory a b c (db s)) as [[[]|] d].
Qed.

Lemma applyToExisting_row now t evt p byPeer auth s :
  tasks (db s) !! ID t = Some t -> DeletedAt t = None -> ID t <> "" -> e_HLC evt <> "" ->
  tasks (db (snd (applyToExisting now t evt p byPeer auth s))) =
    if dropped t evt byPeer auth then tasks (db s)
    else <[ID t := gossip_row now t evt p byPeer]> (tasks (db s)).
Proof.
  intros Ht Hd Hid Hh. unfold applyToExisting. destruct (dropped t evt byPeer auth); [done|].
  destruct (applyClears_keeps (mergeFields t p) p) as (H1 & H2 & _ & _ & H5 & _ & H7 & H8 & _).
  assert (ID (merged_row now t evt p byPeer) = ID t) as HID by done.
  destruct (UpdateTask_row now (merged_row now t evt p byPeer) t (db s)) as [r ->];
    [by rewrite HID|done|by rewrite HID|done|].
  cbn [fst snd]. rewrite history_call_tasks. cbn -[merged_row]. rewrite HID. f_equal.
  unfold gossip_row. cbn. by rewrite H2, H7.
Qed.

Lemma seeded_ID now evt byPeer p :
  ID (seeded now evt byPeer (materialized now evt p byPeer)) = e_TaskID evt /\
  WorkspaceID (seeded now evt byPeer (materialized now evt p byPeer)) = e_WorkspaceID evt /\
  HlcAt (seeded now evt byPeer (materialized now evt p byPeer)) = e_HLC evt /\
  Title (content (seeded now evt byPeer (materialized now evt p byPeer))) = p_Title p.
Proof.
  unfold materialized. set (t := {| ID := e_TaskID evt |}). cbn.
  destruct (applyClears_keeps t p) as (-> & -> & _ & _ & _ & -> & _ & _ & -> & _). done.
Qed.

Lemma applyMaterialize_row ulid now evt p byPeer s :
  tasks (db s) !! e_TaskID evt = None -> e_TaskID evt <> "" -> e_HLC evt <> "" ->
  tasks (db (snd (applyMaterialize ulid now evt p byPeer s))) =
    let t := seeded now evt byPeer (materialized now evt p byPeer) in
    if creatable t then <[e_TaskID evt := inserted now t]> (tasks (db s)) else tasks (db s).
Proof.
  intros Hn Hid Hh. cbv zeta. unfold applyMaterialize, creatable.
  destruct (seeded_ID now evt byPeer p) as (H1 & H2 & H3 & H4).
  assert (Title (content (materialized now evt p byPeer)) = p_Title p) as -> by done.
  set (t := seeded _ _ _ _) in *.
  destruct (bool_decide_reflect (p_Title p = "")) as [E|E].
  { rewrite H4, E. done. }
  destruct (bool_decide_reflect (TrimSpace (Title (content t)) = "")) as [E1|E1].
  { destruct (CreateTask_fails ulid now t (db s)) as [e ->]; [congruence..|auto|done]. }
  destruct (bool_decide_reflect (TrimSpace (WorkspaceID t) = "")) as [E2|E2].
  { destruct (CreateTask_fails ulid now t (db s)) as [e ->]; [congruence..|auto|done]. }
  destruct (CreateTask_row ulid now t (db s)) as (r & _ & _ & ->); [congruence..|].
  rewrite history_call_tasks, H1. done.
Qed.

Lemma materialize_exists ulid now evt p byPeer s :
  tasks (db s) !! e_TaskID evt <> None -> e_TaskID evt <> "" -> e_HLC evt <> "" ->
  (exists e, fst (applyMaterialize ulid now evt p byPeer s) = Err e) /\
  tasks (db (snd (applyMaterialize ulid now evt p byPeer s))) = tasks (db s).
Proof.
  intros Hn Hid Hh. unfold applyMaterialize. destruct (seeded_ID now evt byPeer p) as (H1 & H2 & H3 & H4).
  destruct (bool_decide _); [eauto|].
  destruct (CreateTask_fails ulid now (seeded now evt byPeer (materialized now evt p byPeer)) (db s))
    as [e ->]; [congruence..| rewrite H1; auto |]. eauto.
Qed.

Lemma applyRemoteEvent_row ulid now from evt auth s id :
  well_keyed (db s) -> wellformed_event evt ->
  tasks (db (snd (applyRemoteEvent ulid now from evt auth s))) !! id =
    if bool_decide (id = e_TaskID evt) then remote_row now from evt auth (tasks (db s) !! id)
    else tasks (db s) !! id.
Proof.
  intros Hk (Hid & Hh & Hw & Hp). unfold applyRemoteEvent. rewrite !bool_decide_false by done.
  cbn [orb]. set (s' := observe (e_HLC evt) s).
  assert (tasks (db s') = tasks (db s)) as Hs' by done.
  assert (forall (r : result gossip_error unit * Service),
    r = (match GetTask (e_TaskID evt) (db s') with
         | Ok existing => applyToExisting now existing evt (event_patch evt) (event_peer from evt) auth s'
         | Err ErrNotFound => applyMaterialize ulid now evt (event_patch evt) (event_peer from evt) s'
         | Err e => (Err (GossipStore e), s')
         end) ->
    tasks (db (snd r)) !! id =
      if bool_decide (id = e_TaskID evt) then remote_row now from evt auth (tasks (db s) !! id)
      else tasks (db s) !! id) as Hmain.
  { intros r ->. rewrite <- Hs'. unfold GetTask, remote_row.
    destruct (tasks (db s') !! e_TaskID evt) as [t|] eqn:Ht.
    - destruct (Hk _ t Ht) as (HID & _ & _). unfold live.
      destruct (bool_decide_reflect (DeletedAt t = None)) as [Hd|Hd].
      + rewrite applyToExisting_row by (by rewrite ?HID).
        destruct (bool_decide_reflect (id = e_TaskID evt)) as [->|Hne].
        * rewrite Ht, bool_decide_true by done. destruct (dropped _ _ _ _); cbn; [done|].
          by rewrite HID, lookup_insert_eq.
        * destruct (dropped _ _ _ _); [done|]. by rewrite HID, lookup_insert_ne.
      + rewrite (proj2 (materialize_exists _ _ _ _ _ s' ltac:(by rewrite Ht) Hid Hh)).
        destruct (bool_decide_reflect (id = e_TaskID evt)) as [->|Hne]; [|done].
        by rewrite Ht, bool_decide_false.
    - rewrite applyMaterialize_row by done. cbv zeta.
      destruct (bool_decide_reflect (id = e_TaskID evt)) as [->|Hne].
      + rewrite Ht. destruct (creatable _); [by rewrite lookup_insert_eq | done].
      + destruct (creatable _); [by rewrite lookup_insert_ne | done]. }
  unfold event_patch, event_peer in Hmain. destruct (e_FieldPatches evt) eqn:E; [| done |];
    by apply Hmain.
Qed.

Lemma malformed_event ulid now from evt auth s :
  ~ wellformed_event evt ->
  (exists e, fst (applyRemoteEvent ulid now from evt auth s) = Err e) /\
  tasks (db (snd (applyRemoteEvent ulid now from evt auth s))) = tasks (db s).
Proof.
  intros Hn. unfold applyRemoteEvent.
  destruct (bool_decide_reflect (e_TaskID evt = "")); [by split; eauto|].
  destruct (bool_decide_reflect (e_HLC evt = "")); [by split; eauto|].
  destruct (bool_decide_reflect (e_WorkspaceID evt = "")); [by split; eauto|].
  destruct (e_FieldPatches evt) eqn:E; [|by split; eauto|];
    exfalso; apply Hn; split_and!; congruence.
Qed.

#[export] Instance field_patches_bad_dec x : Decision (x <> BadPatches).
Proof. destruct x; [left|right|left]; congruence. Defined.
#[export] Instance wellformed_event_dec evt : Decision (wellformed_event evt).
Proof. unfold wellformed_event. apply _. Defined.

Lemma inserted_keyed now evt byPeer p :
  let r := inserted now (seeded now evt byPeer (materialized now evt p byPeer)) in
  ID r = e_TaskID evt /\ HlcAt r = e_HLC evt /\ WorkspaceID r = e_WorkspaceID evt.
Proof. destruct (seeded_ID now evt byPeer p) as (H1 & H2 & H3 & _). cbn -[seeded]. done. Qed.

Lemma apply_well_keyed ulid now from evt auth s :
  well_keyed (db s) -> well_keyed (db (snd (applyRemoteEvent ulid now from evt auth s))).
Proof.
  intros Hk. destruct (decide (wellformed_event evt)) as [Hw|Hw].
  - intros id t. rewrite applyRemoteEvent_row by done.
    destruct (bool_decide_reflect (id = e_TaskID evt)) as [->|]; [|by apply Hk].
    destruct Hw as (Hid & Hh & _ & _). unfold remote_row.
    destruct (tasks (db s) !! e_TaskID evt) as [t0|] eqn:Ht.
    + destruct (Hk _ t0 Ht) as (H1 & H2 & H3). destruct (_ && _); intros [= <-]; done.
    + destruct (creatable _); [|done]. intros [= <-].
      by destruct (inserted_keyed now evt (event_peer from evt) (event_patch evt)) as (-> & -> & _).
  - intros id t. rewrite (proj2 (malformed_event ulid now from evt auth s Hw)). apply Hk.
Qed.

(** ** The stamp of a row only grows *)

Definition hlc_le (a b : string) : Prop := a = b \/ String.ltb a b = true.

Lemma hlc_le_trans a b c : hlc_le a b -> hlc_le b c -> hlc_le a c.
Proof.
  intros [->|H1] [->|H2]; unfold hlc_le; [by left|by right|by right|].
  right. by eapply string_ltb_trans.
Qed.

Lemma compare_wins_le aH aP bH bP : 0 < compareHLCWithTiebreak aH aP bH bP -> hlc_le bH aH.
Proof.
  unfold compareHLCWithTiebreak. destruct (String.ltb bH aH) eqn:E1; [by right|].
  destruct (String.ltb aH bH) eqn:E2; [done|]. intros _. left.
  unfold String.ltb in *. rewrite String.compare_antisym in E1.
  destruct (String.compare aH bH) eqn:E; [|done|done]. symmetry. by apply String.compare_eq_iff.
Qed.

Definition remote_run (ulid : string) (l : list (Z * string * TaskSyncEvent)) (s : Service) : Service :=
  fold_left (fun s x => snd (ApplyRemoteEvent ulid x.1.1 x.1.2 x.2 s)) l s.

Lemma remote_row_monotone now from evt t :
  exists t', remote_row now from evt false (Some t) = Some t' /\
    hlc_le (HlcAt t) (HlcAt t') /\ WorkspaceID t' = WorkspaceID t /\ DeletedAt t' = DeletedAt t.
Proof.
  unfold remote_row. destruct (live t && _) eqn:E; [|exists t; split_and!; [done|by left|done|done]].
  eexists; split; [reflexivity|]. split_and!; [|done|done]. cbn.
  apply andb_true_iff in E as [_ E]. unfold dropped in E. bool_hyps.
  apply Z.leb_gt in H0. by eapply compare_wins_le.
Qed.

(** A stale event never wins.  Over any sequence of events from peers,
    malformed ones included, a row that exists keeps its workspace and its deletion
    mark, and its HLC stamp never goes back. *)
Theorem gossip_hlc_monotone ulid l s id t :
  well_keyed (db s) -> tasks (db s) !! id = Some t ->
  exists t', tasks (db (remote_run ulid l s)) !! id = Some t' /\
    hlc_le (HlcAt t) (HlcAt t') /\ WorkspaceID t' = WorkspaceID t /\ DeletedAt t' = DeletedAt t.
Proof.
  revert s t. induction l as [|[[now from] evt] l IH]; intros s t Hk Ht.
  - exists t. split_and!; [done|by left|done|done].
  - cbn [remote_run fold_left fst snd]. set (s1 := snd (ApplyRemoteEvent ulid now from evt s)).
    assert (exists t1, tasks (db s1) !! id = Some t1 /\ hlc_le (HlcAt t) (HlcAt t1) /\
      WorkspaceID t1 = WorkspaceID t /\ DeletedAt t1 = DeletedAt t) as (t1 & H1 & Hle & Hw & Hd).
    { unfold s1, ApplyRemoteEvent. destruct (decide (wellformed_event evt)) as [Hwf|Hwf].
      - rewrite applyRemoteEvent_row, Ht by done. destruct (bool_decide _).
        + apply remote_row_monotone.
        + exists t. split_and!; [done|by left|done|done].
      - rewrite (proj2 (malformed_event ulid now from evt false s Hwf)).
        exists t. split_and!; [done|by left|done|done]. }
    destruct (IH s1 t1) as (t' & H' & Hle' & Hw' & Hd'); [by apply apply_well_keyed|done|].
    exists t'. split_and!; [done|by eapply hlc_le_trans|congruence|congruence].
Qed.

(** ** Fields after the merge and the clears *)

Definition clears (p : RemoteTaskPatch) (f : clear_name) : bool :=
  existsb (fun s => bool_decide (parse_clear s = Some f)) (p_Clears p).

Lemma applyClears_fields t p :
  content (applyClears t p) =
    (let c := content t in
     {| Title := Title c;
        Description := if clears p ClearDescription then "" else Description c;
        Status := Status c; ClosedAt := if clears p ClearClosedAt then None else ClosedAt c;
        Priority := Priority c; DueAt := if clears p ClearDueAt then None else DueAt c;
        TagsJSON := TagsJSON c; Meta := if clears p ClearMeta then "" else Meta c |}) /\
  assignment (applyClears t p) =
    (let a := assignment t in
     if clears p ClearAssignee then
       {| AssigneeSessionID := ""; AssigneeOriginKind := "local"; AssigneePeerID := "";
          AssigneeUserID := AssigneeUserID a; AssignedBySessionID := AssignedBySessionID a;
          AssignedByPeerID := AssignedByPeerID a; AssignedAt := None; LeaseExpiresAt := None |}
     else a).
Proof.
  unfold applyClears, clears. generalize (p_Clears p) as l. intros l. revert t.
  induction l as [|f l IH]; intros t; cbn [fold_left existsb].
  - split; [by destruct t as [? ? [] []]|done].
  - destruct (IH (apply_clear t f)) as [-> ->]. unfold apply_clear.
    destruct (parse_clear f) as [[]|]; cbn; (split; [|by repeat case_match]);
      f_equal; by repeat case_match.
Qed.

Lemma patched_idemp x y : patched x (patched x y) = patched x y.
Proof. unfold patched. by destruct (bool_decide _). Qed.
Lemma patched_self x : patched x x = x.
Proof. unfold patched. by destruct (bool_decide _). Qed.
Lemma patched_default x d : patched x (or_default x d) = or_default x d.
Proof. unfold patched, or_default. by destruct (bool_decide _). Qed.
Lemma patched_tags x y : normalizeJSON (patched x (normalizeJSON (patched x y) "[]")) "[]" =
  normalizeJSON (patched x y) "[]".
Proof.
  unfold patched, normalizeJSON. destruct (bool_decide_reflect (x = "")) as [|Hx]; [|done].
  destruct (bool_decide_reflect (y = "")); [done|]. by rewrite bool_decide_false.
Qed.
Lemma patched_time_idemp x y :
  unix <$> patched_time x (unix <$> patched_time x y) = unix <$> patched_time x y.
Proof. destruct x; cbn; [done|]. destruct y; cbn; [|done]. by rewrite unix_idemp. Qed.
Lemma unix_opt_idemp (x : option Z) : unix <$> (unix <$> x) = unix <$> x.
Proof. destruct x; cbn; [|done]. by rewrite unix_idemp. Qed.

Create Rewrite HintDb gossip.
#[export] Hint Rewrite patched_idemp patched_self patched_default patched_tags patched_time_idemp
  unix_opt_idemp : gossip.

(** The part of a row that an event decides. *)
Definition view (t : Task) : Content * Assignment * string * string * option Z :=
  (content t, assignment t, HlcAt t, WorkspaceID t, DeletedAt t).

(** Columns after the merge of [p] into a row with columns [c] and [a]. *)
Definition merged_content (p : RemoteTaskPatch) (c : Content) : Content :=
  {| Title := patched (p_Title p) (Title c);
     Description := if clears p ClearDescription then "" else patched (p_Description p) (Description c);
     Status := patched (p_Status p) (Status c);
     ClosedAt := unix <$> (if clears p ClearClosedAt then None else patched_time (p_ClosedAt p) (ClosedAt c));
     Priority := patched (p_Priority p) (Priority c);
     DueAt := unix <$> (if clears p ClearDueAt then None else patched_time (p_DueAt p) (DueAt c));
     TagsJSON := normalizeJSON (patched (p_TagsJSON p) (TagsJSON c)) "[]";
     Meta := if clears p ClearMeta then "" else patched (p_Meta p) (Meta c) |}.

Definition merged_assignment (p : RemoteTaskPatch) (a : Assignment) : Assignment :=
  let kind := bool_decide (p_AssigneeOriginKind p = "") in
  let user := if kind then patched (p_AssigneeUserID p) (AssigneeUserID a) else p_AssigneeUserID p in
  if clears p ClearAssignee then
    {| AssigneeSessionID := ""; AssigneeOriginKind := "local"; AssigneePeerID := "";
       AssigneeUserID := user; AssignedBySessionID := AssignedBySessionID a;
       AssignedByPeerID := AssignedByPeerID a; AssignedAt := None; LeaseExpiresAt := None |}
  else
    {| AssigneeSessionID := if kind then patched (p_AssigneeSessionID p) (AssigneeSessionID a)
                            else p_AssigneeSessionID p;
       AssigneeOriginKind := if kind then AssigneeOriginKind a else p_AssigneeOriginKind p;
       AssigneePeerID := if kind then patched (p_AssigneePeerID p) (AssigneePeerID a)
                         else p_AssigneePeerID p;
       AssigneeUserID := user; AssignedBySessionID := AssignedBySessionID a;
       AssignedByPeerID := AssignedByPeerID a; AssignedAt := unix <$> AssignedAt a;
       LeaseExpiresAt := unix <$> LeaseExpiresAt a |}.

Lemma gossip_row_columns now t evt p byPeer :
  content (gossip_row now t evt p byPeer) = merged_content p (content t) /\
  assignment (gossip_row now t evt p byPeer) = merged_assignment p (assignment t).
Proof.
  unfold gossip_row, merged_row. cbn.
  destruct (applyClears_fields (mergeFields t p) p) as [-> ->]. split; [done|].
  unfold merged_assignment. cbn. destruct (clears p ClearAssignee), (bool_decide _); done.
Qed.

Lemma inserted_columns now evt byPeer p :
  let r := inserted now (seeded now evt byPeer (materialized now evt p byPeer)) in
  content r =
    {| Title := p_Title p;
       Description := if clears p ClearDescription then "" else p_Description p;
       Status := or_default (or_default (p_Status p) "open") "open";
       ClosedAt := unix <$> (if clears p ClearClosedAt then None else p_ClosedAt p);
       Priority := or_default (p_Priority p) "normal";
       DueAt := unix <$> (if clears p ClearDueAt then None else p_DueAt p);
       TagsJSON := normalizeJSON (p_TagsJSON p) "[]";
       Meta := if clears p ClearMeta then "" else p_Meta p |} /\
  assignment r =
    {| AssigneeSessionID := if clears p ClearAssignee then "" else p_AssigneeSessionID p;
       AssigneeOriginKind := if clears p ClearAssignee then "local"
                             else or_default (p_AssigneeOriginKind p) "local";
       AssigneePeerID := if clears p ClearAssignee then "" else p_AssigneePeerID p;
       AssigneeUserID := p_AssigneeUserID p; AssignedBySessionID := ""; AssignedByPeerID := "";
       AssignedAt := None; LeaseExpiresAt := None |}.
Proof.
  unfold inserted, seeded, materialized. set (t := {| ID := e_TaskID evt |}). cbn.
  destruct (applyClears_fields t p) as [-> ->]. cbn. split; [done|].
  by destruct (clears p ClearAssignee).
Qed.

(** Merging the same patch again changes no column. *)
Lemma merged_content_idemp p c : merged_content p (merged_content p c) = merged_content p c.
Proof.
  unfold merged_content; cbn. autorewrite with gossip.
  destruct (clears p ClearDescription), (clears p ClearClosedAt), (clears p ClearDueAt),
    (clears p ClearMeta); cbn; by autorewrite with gossip.
Qed.

Lemma merged_assignment_idemp p a :
  merged_assignment p (merged_assignment p a) = merged_assignment p a.
Proof.
  unfold merged_assignment. destruct (clears p ClearAssignee), (bool_decide _); cbn;
    by autorewrite with gossip.
Qed.

Lemma merged_inserted now evt byPeer p :
  let r := inserted now (seeded now evt byPeer (materialized now evt p byPeer)) in
  merged_content p (content r) = content r /\ merged_assignment p (assignment r) = assignment r.
Proof.
  cbv zeta. destruct (inserted_columns now evt byPeer p) as [-> ->].
  unfold merged_content, merged_assignment; cbn. split.
  - unfold patched, or_default, normalizeJSON. f_equal; repeat (case_match; bool_hyps; try done); cbn;
      by rewrite ?unix_idemp || (destruct (p_ClosedAt p), (p_DueAt p); cbn; by rewrite ?unix_idemp).
  - unfold patched, or_default. destruct (clears p ClearAssignee);
      repeat case_match; bool_hyps; done.
Qed.

Lemma remote_row_view now from evt auth t t' :
  remote_row now from evt auth (Some t) = Some t' -> e_HLC evt = HlcAt t ->
  merged_content (event_patch evt) (content t) = content t ->
  merged_assignment (event_patch evt) (assignment t) = assignment t ->
  view t' = view t.
Proof.
  unfold remote_row. intros E Hh Hc Ha. destruct (live t && _); [|by injection E as <-].
  injection E as <-. unfold view.
  destruct (gossip_row_columns now t evt (event_patch evt) (event_peer from evt)) as [-> ->].
  rewrite Hc, Ha. cbn. by rewrite Hh.
Qed.

Lemma creatable_seeded now evt byPeer p :
  creatable (seeded now evt byPeer (materialized now evt p byPeer)) =
  negb (bool_decide (TrimSpace (p_Title p) = "")) &&
  negb (bool_decide (TrimSpace (e_WorkspaceID evt) = "")).
Proof. unfold creatable. by destruct (seeded_ID now evt byPeer p) as (_ & -> & _ & ->). Qed.

Lemma remote_row_Some now from evt auth t : exists t', remote_row now from evt auth (Some t) = Some t'.
Proof. unfold remote_row. destruct (live t && _); eauto. Qed.

Lemma remote_row_replay now1 from1 now2 from2 evt auth old :
  event_peer from2 evt = event_peer from1 evt ->
  view <$> remote_row now2 from2 evt auth (remote_row now1 from1 evt auth old) =
  view <$> remote_row now1 from1 evt auth old.
Proof.
  intros Hpeer. destruct old as [t|]; cbn [remote_row].
  - destruct (live t && _) eqn:E.
    + set (t1 := gossip_row _ _ _ _ _).
      destruct (remote_row_Some now2 from2 evt auth t1) as [t2 E2].
      change (view <$> remote_row now2 from2 evt auth (Some t1) = view <$> Some t1).
      rewrite E2. cbn. f_equal. eapply remote_row_view; [exact E2|done|..];
        destruct (gossip_row_columns now1 t evt (event_patch evt) (event_peer from1 evt)) as [Hc Ha];
        fold t1 in Hc, Ha; rewrite ?Hc, ?Ha;
        [apply merged_content_idemp | apply merged_assignment_idemp].
    + unfold remote_row. by rewrite Hpeer, E.
  - rewrite !creatable_seeded. destruct (_ && _) eqn:E; [|unfold remote_row; by rewrite creatable_seeded, E].
    set (t1 := inserted _ _).
    destruct (remote_row_Some now2 from2 evt auth t1) as [t2 E2].
    change (view <$> remote_row now2 from2 evt auth (Some t1) = view <$> Some t1).
    rewrite E2. cbn. f_equal.
    eapply (remote_row_view now2 from2 evt auth t1); [exact E2| |apply merged_inserted..].
    symmetry. apply inserted_keyed.
Qed.

(** Replay.  Applying an event a second time, from the same author and at
    any later time, leaves the content, the assignment, the stamp, the workspace and
    the deletion mark of every row as the first application left them. *)
Theorem gossip_replay ulid now1 from1 now2 from2 evt auth s id :
  well_keyed (db s) -> event_peer from2 evt = event_peer from1 evt ->
  let s1 := snd (applyRemoteEvent ulid now1 from1 evt auth s) in
  let s2 := snd (applyRemoteEvent ulid now2 from2 evt auth s1) in
  view <$> (tasks (db s2) !! id) = view <$> (tasks (db s1) !! id).
Proof.
  intros Hk Hpeer s1 s2. destruct (decide (wellformed_event evt)) as [Hw|Hw].
  - unfold s2. rewrite applyRemoteEvent_row by (done || by apply apply_well_keyed).
    unfold s1. rewrite applyRemoteEvent_row by done.
    destruct (bool_decide _); [|done]. by apply remote_row_replay.
  - unfold s2. by rewrite (proj2 (malformed_event _ _ _ _ _ _ Hw)).
Qed.

(** ** From one replica to another *)

(** [t] is a row another daemon can reproduce: it has what [CreateTask] requires,
    its texts are UTF-8, its tags JSON ([tags] once compacted), its times whole
    seconds that JSON can write, and an unassigned row is of the local kind. *)
Record publishable (t : Task) (tags : string) : Prop := {
  pub_id : ID t <> ""; pub_hlc : HlcAt t <> "";
  pub_ws : TrimSpace (WorkspaceID t) <> ""; pub_title : TrimSpace (Title (content t)) <> "";
  pub_status : Status (content t) <> ""; pub_priority : Priority (content t) <> "";
  pub_kind : AssigneeOriginKind (assignment t) <> "";
  pub_local : unassigned (assignment t) = true -> AssigneeOriginKind (assignment t) = "local";
  pub_utf8 : Forall (fun x => wire_string x = x)
    [Title (content t); Description (content t); Status (content t); Priority (content t);
     Meta (content t); AssigneeSessionID (assignment t); AssigneePeerID (assignment t);
     AssigneeUserID (assignment t); AssigneeOriginKind (assignment t); OriginPeerID (provenance t)];
  pub_tags : json_compact (TagsJSON (content t)) = Some tags;
  pub_due : unix <$> DueAt (content t) = DueAt (content t);
  pub_closed : unix <$> ClosedAt (content t) = ClosedAt (content t);
  pub_times : json_time_opt_ok (DueAt (content t)) && json_time_opt_ok (ClosedAt (content t)) = true }.

(** The columns a replica shares with the row it copies. *)
Definition synced (tags : string) (t r : Task) : Prop :=
  Title (content r) = Title (content t) /\ Description (content r) = Description (content t) /\
  Status (content r) = Status (content t) /\ Priority (content r) = Priority (content t) /\
  Meta (content r) = Meta (content t) /\ TagsJSON (content r) = tags /\
  DueAt (content r) = DueAt (content t) /\ ClosedAt (content r) = ClosedAt (content t) /\
  AssigneeSessionID (assignment r) = AssigneeSessionID (assignment t) /\
  AssigneePeerID (assignment r) = AssigneePeerID (assignment t) /\
  AssigneeUserID (assignment r) = AssigneeUserID (assignment t) /\
  AssigneeOriginKind (assignment r) = AssigneeOriginKind (assignment t) /\
  HlcAt r = HlcAt t /\ WorkspaceID r = WorkspaceID t /\ DeletedAt r = None.

(** The receiver has no such row, or a live one of the same workspace that is older. *)
Definition behind (t : Task) (old : option Task) : Prop :=
  match old with
  | None => True
  | Some r => DeletedAt r = None /\ WorkspaceID r = WorkspaceID t /\ String.ltb (HlcAt r) (HlcAt t) = true
  end.

Lemma compact_nonempty raw c : json_compact raw = Some c -> c <> "".
Proof.
  unfold json_compact, json_parse. intros H -> . apply bind_Some in H as (v & Hv & Hc).
  injection Hc as Hc. apply bind_Some in Hv as (ts & Hts & Hp).
  assert (forall l, compact false false l = "" -> lex MNormal l = Some []) as Hl.
  { induction l as [|a l IH]; [done|]. cbn. by destruct (is_json_space a). }
  rewrite (Hl _ Hc) in Hts. by injection Hts as <-.
Qed.

Lemma gossip_patch_wire t tags :
  publishable t tags ->
  encode_patch (gossip_patch t) =
    Some {| p_Title := Title (content t); p_Description := Description (content t);
      p_Status := Status (content t); p_Priority := Priority (content t);
      p_Meta := Meta (content t); p_TagsJSON := tags;
      p_AssigneeSessionID := AssigneeSessionID (assignment t);
      p_AssigneePeerID := AssigneePeerID (assignment t);
      p_AssigneeUserID := AssigneeUserID (assignment t);
      p_AssigneeOriginKind := AssigneeOriginKind (assignment t);
      p_OriginPeerID := OriginPeerID (provenance t); p_DueAt := DueAt (content t);
      p_ClosedAt := ClosedAt (content t); p_Clears := gossip_clears t |}.
Proof.
  intros P. pose proof (pub_utf8 _ _ P) as U. rewrite !list.Forall_cons in U.
  destruct U as (U1 & U2 & U3 & U4 & U5 & U6 & U7 & U8 & U9 & U10 & _).
  unfold encode_patch. cbn [gossip_patch p_DueAt p_ClosedAt]. rewrite (pub_times _ _ P).
  cbn [gossip_patch p_TagsJSON]. rewrite bool_decide_false, (pub_tags _ _ P).
  2:{ intros E. pose proof (pub_tags _ _ P) as T. by rewrite E in T. }
  cbn -[wire_string gossip_clears]. rewrite U1, U2, U3, U4, U5, U6, U7, U8, U9, U10. do 2 f_equal.
  unfold gossip_clears. destruct (unassigned _), (DueAt _), (bool_decide (Meta _ = _)),
    (bool_decide (Description _ = _)), (ClosedAt _); reflexivity.
Qed.

Lemma gossip_clears_spec t p :
  p_Clears p = gossip_clears t ->
  clears p ClearAssignee = unassigned (assignment t) /\
  clears p ClearDueAt = bool_decide (DueAt (content t) = None) /\
  clears p ClearMeta = bool_decide (Meta (content t) = "") /\
  clears p ClearDescription = bool_decide (Description (content t) = "") /\
  clears p ClearClosedAt = bool_decide (ClosedAt (content t) = None).
Proof.
  intros E. unfold clears. rewrite E. unfold gossip_clears.
  destruct (unassigned (assignment t)), (DueAt (content t)), (bool_decide (Meta _ = "")),
    (bool_decide (Description _ = "")), (ClosedAt (content t)); done.
Qed.

Section RoundTrip.
Context (t : Task) (tags self : string) (P : publishable t tags).

Definition sent : TaskSyncEvent := BuildLocalEventForGossip t self.

Lemma sent_patch :
  event_patch sent =
    {| p_Title := Title (content t); p_Description := Description (content t);
       p_Status := Status (content t); p_Priority := Priority (content t);
       p_Meta := Meta (content t); p_TagsJSON := tags;
       p_AssigneeSessionID := AssigneeSessionID (assignment t);
       p_AssigneePeerID := AssigneePeerID (assignment t);
       p_AssigneeUserID := AssigneeUserID (assignment t);
       p_AssigneeOriginKind := AssigneeOriginKind (assignment t);
       p_OriginPeerID := OriginPeerID (provenance t); p_DueAt := DueAt (content t);
       p_ClosedAt := ClosedAt (content t); p_Clears := gossip_clears t |}.
Proof using P.
  unfold event_patch, sent, BuildLocalEventForGossip. cbn -[encode_patch gossip_patch].
  by rewrite (gossip_patch_wire t tags P).
Qed.

Lemma sent_wellformed : wellformed_event sent.
Proof using P.
  unfold wellformed_event, sent, BuildLocalEventForGossip. cbn -[encode_patch gossip_patch].
  rewrite (gossip_patch_wire t tags P). split_and!; [apply P|apply P| |done].
  intros E. apply (pub_ws _ _ P). by rewrite E.
Qed.

Lemma tags_nonempty : tags <> "".
Proof using P. eapply compact_nonempty, P. Qed.

Lemma title_nonempty : Title (content t) <> "".
Proof using P. intros E. apply (pub_title _ _ P). by rewrite E. Qed.

Lemma unassigned_all :
  unassigned (assignment t) = true ->
  AssigneeSessionID (assignment t) = "" /\ AssigneePeerID (assignment t) = "" /\
  AssigneeUserID (assignment t) = "" /\ AssigneeOriginKind (assignment t) = "local".
Proof using P.
  intros H. pose proof (pub_local _ _ P H). unfold unassigned in H. by bool_hyps.
Qed.

(** An older row takes every shared column. *)
Lemma merged_synced c a :
  let p := event_patch sent in
  let c' := merged_content p c in let a' := merged_assignment p a in
  Title c' = Title (content t) /\ Description c' = Description (content t) /\
  Status c' = Status (content t) /\ Priority c' = Priority (content t) /\
  Meta c' = Meta (content t) /\ TagsJSON c' = tags /\
  DueAt c' = DueAt (content t) /\ ClosedAt c' = ClosedAt (content t) /\
  AssigneeSessionID a' = AssigneeSessionID (assignment t) /\
  AssigneePeerID a' = AssigneePeerID (assignment t) /\
  AssigneeUserID a' = AssigneeUserID (assignment t) /\
  AssigneeOriginKind a' = AssigneeOriginKind (assignment t).
Proof using P.
  cbv zeta. rewrite sent_patch.
  match goal with |- context [merged_content ?p _] => set (p' := p) end.
  destruct (gossip_clears_spec t p' eq_refl) as (C1 & C2 & C3 & C4 & C5).
  pose proof (pub_due _ _ P) as HD. pose proof (pub_closed _ _ P) as HC.
  unfold merged_content, merged_assignment; cbn -[clears]. rewrite C1, C2, C3, C4, C5.
  rewrite (bool_decide_false (_ (assignment t) = "")) by apply P.
  unfold patched, normalizeJSON. rewrite (bool_decide_false (Title _ = "")) by apply title_nonempty.
  rewrite (bool_decide_false (Status _ = "")), (bool_decide_false (Priority _ = "")) by apply P.
  rewrite !(bool_decide_false (tags = "")) by apply tags_nonempty.
  split_and!; try done.
  - by destruct (bool_decide_reflect (Description (content t) = "")).
  - by destruct (bool_decide_reflect (Meta (content t) = "")).
  - by destruct (DueAt (content t)).
  - by destruct (ClosedAt (content t)).
  - destruct (unassigned (assignment t)) eqn:U; [|done]. by destruct (unassigned_all U) as (-> & _).
  - destruct (unassigned (assignment t)) eqn:U; [|done]. by destruct (unassigned_all U) as (_ & -> & _).
  - by destruct (unassigned (assignment t)).
  - destruct (unassigned (assignment t)) eqn:U; [|done]. by destruct (unassigned_all U) as (_ & _ & _ & ->).
Qed.

(** A row created from the event is the one a merge into it would give. *)
Lemma created_synced now byPeer :
  synced tags t (inserted now (seeded now sent byPeer (materialized now sent (event_patch sent) byPeer))).
Proof using P.
  set (r := inserted _ _).
  destruct (merged_inserted now sent byPeer (event_patch sent)) as [Hc Ha].
  destruct (inserted_keyed now sent byPeer (event_patch sent)) as (_ & Hh & Hw).
  fold r in Hc, Ha, Hh, Hw.
  pose proof (merged_synced (content r) (assignment r)) as M. cbv zeta in M. rewrite Hc, Ha in M.
  unfold synced. destruct M as (? & ? & ? & ? & ? & ? & ? & ? & ? & ? & ? & ?). by split_and!.
Qed.

Lemma behind_not_dropped r byPeer : behind t (Some r) -> dropped r sent byPeer false = false.
Proof.
  intros (_ & Hw & Hlt). unfold dropped, compareHLCWithTiebreak. cbn -[String.ltb].
  by rewrite bool_decide_true, Hlt.
Qed.
End RoundTrip.

(** C35: a published row arrives.  The event built from a publishable row - with id,
    stamp, workspace, title, status, priority and assignee kind, texts in UTF-8, tags
    that are JSON, times in whole seconds, of the local kind while unassigned - and
    applied where the row is missing, or live, older and of the same workspace, creates
    or updates it.  The replica then agrees with the original on title, description,
    status, priority, meta, due and closed times, all four assignee fields, stamp and
    workspace, and has its tags, compacted. *)
Theorem gossip_roundtrip ulid now from self t tags s :
  well_keyed (db s) -> publishable t tags -> behind t (tasks (db s) !! ID t) ->
  exists r,
    tasks (db (snd (ApplyRemoteEvent ulid now from (BuildLocalEventForGossip t self) s))) !! ID t = Some r /\
    synced tags t r.
Proof.
  intros Hk P Hb. unfold ApplyRemoteEvent. fold (sent t self).
  rewrite applyRemoteEvent_row by (done || by eapply sent_wellformed).
  rewrite bool_decide_true by done. unfold remote_row.
  destruct (tasks (db s) !! ID t) as [old|].
  - rewrite behind_not_dropped by done. destruct Hb as (Hd & Hw & _).
    unfold live. rewrite bool_decide_true by done. cbn [andb negb]. eexists. split; [reflexivity|].
    destruct (gossip_row_columns now old (sent t self) (event_patch (sent t self))
      (event_peer from (sent t self))) as [Hc Ha].
    destruct (merged_synced t tags self P (content old) (assignment old))
      as (? & ? & ? & ? & ? & ? & ? & ? & ? & ? & ? & ?).
    unfold synced. rewrite Hc, Ha. by split_and!.
  - cbv zeta. rewrite creatable_seeded.
    assert (p_Title (event_patch (sent t self)) = Title (content t)) as ->
      by (by rewrite (sent_patch t tags self P)).
    rewrite !bool_decide_false by apply P. cbn [negb andb]. eexists. split; [reflexivity|].
    by apply created_synced.
Qed.

(** ** Examples, witnesses and divergences *)

Definition sample_event (title hlc peer assigneePeer : string) : TaskSyncEvent :=
  {| e_TaskID := "a"; e_WorkspaceID := "ws"; e_HLC := hlc; e_BySession := "s"; e_ByPeer := peer;
     e_FieldPatches := Patches
       {| p_Title := title; p_Description := ""; p_Status := ""; p_Priority := ""; p_Meta := "";
          p_TagsJSON := ""; p_AssigneeSessionID := ""; p_AssigneePeerID := assigneePeer;
          p_AssigneeUserID := "";
          p_AssigneeOriginKind := if bool_decide (assigneePeer = "") then "" else "peer";
          p_OriginPeerID := ""; p_DueAt := None; p_ClosedAt := None; p_Clears := [] |} |}.

Definition sample_row : Task := sample_task "a" "open" "" None [].
Definition replica : Service := sample_service [sample_row].

Lemma replica_keyed : well_keyed (db replica).
Proof. by apply sample_well_keyed. Qed.

Lemma gossip_hlc_monotone_witness :
  exists t', tasks (db (remote_run "u" [(second, "p", sample_event "new" "i" "p" "");
                                        (second, "p", sample_event "old" "g" "p" "")] replica)) !! "a"
    = Some t' /\ hlc_le "h" (HlcAt t').
Proof.
  destruct (gossip_hlc_monotone "u" [(second, "p", sample_event "new" "i" "p" "");
    (second, "p", sample_event "old" "g" "p" "")] replica "a" sample_row replica_keyed eq_refl)
    as (t' & Ht & Hle & _).
  by exists t'.
Defined.

Lemma gossip_replay_witness :
  let s1 := snd (applyRemoteEvent "u" second "p" (sample_event "new" "i" "p" "q") false replica) in
  let s2 := snd (applyRemoteEvent "u" (2 * second) "p" (sample_event "new" "i" "p" "q") false s1) in
  view <$> (tasks (db s2) !! "a") = view <$> (tasks (db s1) !! "a").
Proof. apply gossip_replay; [exact replica_keyed|reflexivity]. Defined.

Lemma sample_publishable : publishable sample_row "[]".
Proof.
  constructor; try done; try (by vm_compute); [].
  repeat constructor.
Qed.

Lemma empty_keyed : well_keyed (db (sample_service [])).
Proof.
  intros id t H. change ((∅ : gmap string Task) !! id = Some t) in H. by rewrite lookup_empty in H.
Qed.

Lemma gossip_roundtrip_witness :
  exists r, tasks (db (snd (ApplyRemoteEvent "u" second "p"
      (BuildLocalEventForGossip sample_row "self") (sample_service [])))) !! "a" = Some r /\
    synced "[]" sample_row r.
Proof.
  apply (gossip_roundtrip "u" second "p" "self" sample_row "[]" (sample_service []));
    [by apply empty_keyed | exact sample_publishable | exact I].
Defined.

(** Two events with the same stamp, from peers "A" and "B", reach two replicas in
    opposite orders: the tiebreak looks at the row's assignee instead of the peer
    that wrote it, and each replica keeps the event it saw first. *)
Example equal_hlc_diverges :
  let a := sample_event "from A" "i" "A" "" in
  let b := sample_event "from B" "i" "B" "" in
  (Title ∘ content <$> tasks (db (remote_run "u" [(second, "A", a); (second, "B", b)] replica)) !! "a")
    = Some "from A" /\
  (Title ∘ content <$> tasks (db (remote_run "u" [(second, "B", b); (second, "A", a)] replica)) !! "a")
    = Some "from B".
Proof. vm_compute. by split. Qed.

(** A replayed event is applied again, with another history entry, when the row is
    assigned to a peer whose id is greater than the author's. *)
Example replay_not_noop :
  let e := sample_event "new" "i" "A" "Q" in
  (length ∘ StatusHistory <$>
    tasks (db (remote_run "u" [(second, "A", e); (second, "A", e); (second, "A", e)] replica)) !! "a")
    = Some 3%nat.
Proof. vm_compute. reflexivity. Qed.

(** The home's revision of a locally created row is applied again at each replay:
    the duplicate test reads [origin_peer_id], which [UpdateTask] never writes. *)
Example authoritative_replay_reapplied :
  let e := sample_event "new" "i" "A" "" in
  let apply s := snd (ApplyAuthoritativeRemoteEvent "u" second "A" e s) in
  (length ∘ StatusHistory <$> tasks (db (apply (apply replica))) !! "a") = Some 2%nat /\
  (OriginPeerID ∘ provenance <$> tasks (db (apply (apply replica))) !! "a") = Some "".
Proof. vm_compute. by split. Qed.

(** An event for a row that was deleted here is not dropped: it fails on the
    primary key. *)
Lemma deleted_row_errors ulid now from evt auth s t :
  well_keyed (db s) -> wellformed_event evt ->
  tasks (db s) !! e_TaskID evt = Some t -> DeletedAt t <> None ->
  exists e, fst (applyRemoteEvent ulid now from evt auth s) = Err e.
Proof.
  intros Hk (Hid & Hh & Hw & Hp) Ht Hd. unfold applyRemoteEvent. rewrite !bool_decide_false by done.
  cbn [orb]. set (s' := observe (e_HLC evt) s).
  assert (GetTask (e_TaskID evt) (db s') = Err ErrNotFound) as Hg.
  { unfold GetTask, live. change (tasks (db s')) with (tasks (db s)). by rewrite Ht, bool_decide_false. }
  assert (tasks (db s') !! e_TaskID evt <> None) as Hn
    by (change (tasks (db s')) with (tasks (db s)); by rewrite Ht).
  destruct (e_FieldPatches evt) eqn:E; [|done|];
    rewrite Hg; by apply materialize_exists.
Qed.

(** A row's priority can be set to nothing, but the patch omits an empty priority and
    has no clear for it: the replica takes the new stamp and keeps the old priority. *)
Definition cleared_priority : Task :=
  let t := with_parts {| Title := "t"; Description := ""; Status := "open"; ClosedAt := None;
     Priority := ""; DueAt := None; TagsJSON := "[]"; Meta := "" |} (assignment sample_row) sample_row in
  {| ID := ID t; WorkspaceID := WorkspaceID t; content := content t; assignment := assignment t;
     provenance := provenance t; visibility := visibility t; UpdatedBySessionID := UpdatedBySessionID t;
     StatusHistory := StatusHistory t; HlcAt := "i"; RemoteBaseHLC := RemoteBaseHLC t;
     Pinned := Pinned t; DeletedAt := DeletedAt t; UpdatedAt := UpdatedAt t |}.

Example cleared_priority_stays :
  let s := snd (ApplyRemoteEvent "u" second "p" (BuildLocalEventForGossip cleared_priority "self") replica) in
  (fun r => (HlcAt r, Priority (content r))) <$> tasks (db s) !! "a" = Some ("i", "normal").
Proof. vm_compute. reflexivity. Qed.

(** An "assignee" clear from a peer that sends no origin kind leaves the human
    assignee in place, marked as local. *)
Example assignee_clear_keeps_user :
  let a := assignment (applyClears (mergeFields
    (with_parts (content sample_row)
      {| AssigneeSessionID := ""; AssigneeOriginKind := "human"; AssigneePeerID := "";
         AssigneeUserID := "u1"; AssignedBySessionID := ""; AssignedByPeerID := "";
         AssignedAt := None; LeaseExpiresAt := None |} sample_row)
    {| p_Title := ""; p_Description := ""; p_Status := ""; p_Priority := ""; p_Meta := "";
       p_TagsJSON := ""; p_AssigneeSessionID := ""; p_AssigneePeerID := ""; p_AssigneeUserID := "";
       p_AssigneeOriginKind := ""; p_OriginPeerID := ""; p_DueAt := None; p_ClosedAt := None;
       p_Clears := ["assignee"] |})
    {| p_Title := ""; p_Description := ""; p_Status := ""; p_Priority := ""; p_Meta := "";
       p_TagsJSON := ""; p_AssigneeSessionID := ""; p_AssigneePeerID := ""; p_AssigneeUserID := "";
       p_AssigneeOriginKind := ""; p_OriginPeerID := ""; p_DueAt := None; p_ClosedAt := None;
       p_Clears := ["assignee"] |}) in
  AssigneeUserID a = "u1" /\ AssigneeOriginKind a = "local".
Proof. vm_compute. by split. Qed.
