(* ===== verification/GoFilepath.v ===== *)
(** The part of Go's [path/filepath] the modelled code uses, for Unix:
    lexical cleaning, joining, and relative paths.

    A path is cleaned element by element on a stack; [elems] are the elements
    of a clean path.  [Rel] is defined on the elements of the two clean paths,
    which is what Go's scan over the bytes compares. *)

From Stdlib Require Import Ascii String.
From stdpp Require Import list strings.
From S2P Require Import Prelude GoStrings.

#[local] Open Scope string_scope.
#[local] Open Scope list_scope.

Definition slash : ascii := "/".

Definition IsAbs (p : string) : bool := HasPrefix p "/".

(** Joining with "/". *)
Fixpoint join_elems (l : list string) : string :=
  match l with
  | [] => ""
  | [e] => e
  | e :: l' => e +:+ "/" +:+ join_elems l'
  end.

(** The stack holds the elements kept so far, last first. *)
Definition push_elem (rooted : bool) (stack : list string) (e : string) : list string :=
  if bool_decide (e = "") || bool_decide (e = ".") then stack
  else if bool_decide (e = "..") then
    match stack with
    | [] => if rooted then [] else [".."]
    | top :: stack' => if bool_decide (top = "..") then ".." :: stack else stack'
    end
  else e :: stack.

Definition clean_elems (p : string) : list string :=
  rev (fold_left (push_elem (IsAbs p)) (SplitByte p slash) []).

Definition of_elems (rooted : bool) (l : list string) : string :=
  if rooted then "/" +:+ join_elems l
  else match l with [] => "." | _ => join_elems l end.

Definition Clean (p : string) : string :=
  if bool_decide (p = "") then "." else of_elems (IsAbs p) (clean_elems p).

(** [Join] of two elements: the empty ones are ignored. *)
Definition Join (a b : string) : string :=
  if bool_decide (a = "") then (if bool_decide (b = "") then "" else Clean b)
  else if bool_decide (b = "") then Clean a else Clean (a +:+ "/" +:+ b).

(** [Base]: the last element, without trailing slashes. *)
Definition Base (p : string) : string :=
  if bool_decide (p = "") then "."
  else
    let q := TrimRight p "/" in
    if bool_decide (q = "") then "/" else default "" (last (SplitByte q slash)).

(** The elements of a clean path; "." has none. *)
Definition elems (p : string) : list string :=
  filter (fun e => e <> "" /\ e <> ".") (SplitByte p slash).

Fixpoint strip_common (b t : list string) : list string * list string :=
  match b, t with
  | x :: b', y :: t' => if bool_decide (x = y) then strip_common b' t' else (b, t)
  | _, _ => (b, t)
  end.

(** [Rel base targ]: up once per remaining element of the base, then down.  It
    fails when one path is rooted and the other is not, or when a remaining
    element of the base is "..". *)
Definition Rel (base targ : string) : option string :=
  let b := Clean base in let t := Clean targ in
  if bool_decide (b = t) then Some "."
  else if negb (Bool.eqb (IsAbs b) (IsAbs t)) then None
  else
    let '(br, tr) := strip_common (elems b) (elems t) in
    if bool_decide (head br = Some "..") then None
    else Some (join_elems (map (fun _ => "..") br ++ tr)).

Example clean_samples :
  map Clean ["a//b/./c/.."; "/../x/"; "../a/../.."; ""; "/"; "a/.."] =
  ["a/b"; "/x"; "../.."; "."; "/"; "."].
Proof. vm_compute. reflexivity. Qed.

Example rel_samples :
  (Rel "/a/b" "/a/b/c/d", Rel "/a/b" "/a/bc", Rel "/a/b" "/a", Rel "/" "/x", Rel "/a" "b") =
  (Some "c/d", Some "../bc", Some "..", Some "x", None).
Proof. vm_compute. reflexivity. Qed.

Example base_samples :
  map Base [""; "/"; "/bin/sh"; "a/b//"; "sh"] = ["."; "/"; "sh"; "b"; "sh"].
Proof. vm_compute. reflexivity. Qed.

(** ** Clean rooted paths *)

(** What is left of a path's elements after cleaning it. *)
Definition plain (e : string) : Prop :=
  e <> "" /\ e <> "." /\ e <> ".." /\ string_existsb (fun a => bool_decide (a = slash)) e = false.

Lemma push_elem_plain stack e :
  Forall plain stack -> string_existsb (fun a => bool_decide (a = slash)) e = false ->
  Forall plain (push_elem true stack e).
Proof.
  intros Hs He. unfold push_elem. repeat (case_bool_decide; simpl; try done).
  - destruct stack as [|top stack]; [done|]. apply Forall_cons in Hs as [(? & ? & ? & ?) Hs].
    by rewrite bool_decide_eq_false_2.
  - constructor; [|done]. repeat split; auto.
Qed.

Lemma clean_elems_plain p : IsAbs p = true -> Forall plain (clean_elems p).
Proof.
  intros Hp. unfold clean_elems. rewrite Hp. apply Forall_rev.
  assert (Forall (fun e => string_existsb (fun a => bool_decide (a = slash)) e = false) (SplitByte p slash)) as Hl
    by (apply Forall_forall; intros e; apply SplitByte_no_sep).
  revert Hl. generalize (SplitByte p slash). assert (Forall plain []) as Hn by constructor.
  revert Hn. generalize (@nil string). intros stack Hn l. revert stack Hn.
  induction l as [|e l IH]; intros stack Hn; [done|]. intros [He Hl]%Forall_cons.
  simpl. apply IH; [|done]. by apply push_elem_plain.
Qed.

Lemma SplitByte_join l : l <> [] -> Forall plain l -> SplitByte (join_elems l) slash = l.
Proof.
  induction l as [|e l IH]; [done|]. intros _ [(He1 & _ & _ & He) Hl]%Forall_cons.
  destruct l as [|e' l]; [by apply SplitByte_single|].
  change (join_elems (e :: e' :: l)) with (e +:+ String slash (join_elems (e' :: l))).
  rewrite SplitByte_app_sep by done. by rewrite IH.
Qed.

Lemma filter_plain l : Forall plain l -> filter (fun e => e <> "" /\ e <> ".") l = l.
Proof.
  induction 1 as [|e l (H1 & H2 & _) _ IH]; [done|]. rewrite filter_cons_True by done. by rewrite IH.
Qed.

Lemma elems_of_elems l : Forall plain l -> elems (of_elems true l) = l.
Proof.
  intros Hl. unfold elems, of_elems. change ("/" +:+ join_elems l) with (String slash (join_elems l)).
  change (String slash (join_elems l)) with ("" +:+ String slash (join_elems l)).
  rewrite SplitByte_app_sep by done. rewrite filter_cons_False by naive_solver.
  destruct l as [|e l]; [done|]. rewrite SplitByte_join by done. by apply filter_plain.
Qed.

Lemma IsAbs_nonempty p : IsAbs p = true -> bool_decide (p = "") = false.
Proof. intros H. apply bool_decide_eq_false_2. by intros ->. Qed.

Lemma Clean_rooted p : IsAbs p = true -> Clean p = of_elems true (clean_elems p).
Proof. intros Hp. unfold Clean. by rewrite IsAbs_nonempty, Hp. Qed.

Lemma IsAbs_of_elems l : IsAbs (of_elems true l) = true.
Proof. apply HasPrefix_app. Qed.

Lemma elems_Clean p : IsAbs p = true -> elems (Clean p) = clean_elems p.
Proof. intros Hp. rewrite Clean_rooted by done. by apply elems_of_elems, clean_elems_plain. Qed.

Lemma of_elems_inj l k : Forall plain l -> Forall plain k -> of_elems true l = of_elems true k -> l = k.
Proof. intros Hl Hk H. rewrite <- (elems_of_elems l), <- (elems_of_elems k) by done. by rewrite H. Qed.

(** Cleaning plain elements keeps them. *)
Lemma fold_push_plain rooted l stack :
  Forall plain l -> fold_left (push_elem rooted) l stack = rev l ++ stack.
Proof.
  revert stack. induction l as [|e l IH]; intros stack; [done|]. intros [(H1 & H2 & H3 & _) Hl]%Forall_cons.
  simpl. rewrite IH by done. rewrite <- app_assoc. unfold push_elem.
  by rewrite !bool_decide_eq_false_2.
Qed.

Lemma clean_of_elems l : Forall plain l -> clean_elems (of_elems true l) = l.
Proof.
  intros Hl. unfold clean_elems. rewrite IsAbs_of_elems.
  change (of_elems true l) with ("" +:+ String slash (join_elems l)).
  rewrite SplitByte_app_sep by done. simpl (fold_left _ (_ :: _) _).
  change (push_elem true [] "") with (@nil string).
  destruct l as [|e l]; [done|]. rewrite SplitByte_join by done.
  rewrite fold_push_plain by done. rewrite app_nil_r. apply rev_involutive.
Qed.

Lemma Clean_idem p : IsAbs p = true -> Clean (Clean p) = Clean p.
Proof.
  intros Hp. rewrite !(Clean_rooted p) by done. rewrite Clean_rooted by apply IsAbs_of_elems.
  by rewrite clean_of_elems by (by apply clean_elems_plain).
Qed.

(** ** Relative paths below a root *)

Lemma strip_common_app b t : exists pre,
  b = pre ++ fst (strip_common b t) /\ t = pre ++ snd (strip_common b t).
Proof.
  revert t. induction b as [|x b IH]; intros t; [by exists []|].
  destruct t as [|y t]; [by exists []|]. simpl. case_bool_decide as Hxy; [|by exists []].
  subst. destruct (IH t) as (pre & Hb & Ht). exists (y :: pre). simpl. by rewrite <- Hb, <- Ht.
Qed.

Lemma strip_common_prefix b k : strip_common b (b ++ k) = ([], k).
Proof.
  induction b as [|x b IH]; [by destruct k|]. simpl. by rewrite bool_decide_eq_true_2.
Qed.

(** The relative path escapes when it starts by going up. *)
Definition climbs (rel : string) : bool := bool_decide (rel = "..") || HasPrefix rel "../".

Lemma join_plain_no_climb l : Forall plain l -> l <> [] -> climbs (join_elems l) = false /\ join_elems l <> ".".
Proof.
  intros Hl Hn. destruct l as [|e l]; [done|]. apply Forall_cons in Hl as [(H1 & H2 & H3 & H4) Hl].
  assert (join_elems (e :: l) = e \/ exists r, join_elems (e :: l) = e +:+ String slash r) as [-> | [r Hr]].
  { destruct l as [|e' l]; [by left|right]. by exists (join_elems (e' :: l)). }
  - split; [|done]. unfold climbs. rewrite bool_decide_eq_false_2 by done. simpl.
    destruct (HasPrefix e "../") eqn:Hp; [|done]. apply HasPrefix_spec in Hp as [r ->]. done.
  - rewrite Hr. split.
    + unfold climbs. apply orb_false_iff. split.
      * apply bool_decide_eq_false_2. intros H. destruct e as [|a [|b [|c e]]]; try done; injection H; intros; subst; done.
      * destruct (HasPrefix _ "../") eqn:Hp; [|done]. apply HasPrefix_spec in Hp as [s Hs].
        destruct e as [|a [|b [|c e]]]; try done; injection Hs; intros; subst; try done.
    + intros H. destruct e as [|a [|b e]]; done.
Qed.

Lemma join_up_climbs n k : climbs (join_elems (".." :: map (fun _ : string => "..") n ++ k)) = true.
Proof.
  destruct (map (fun _ : string => "..") n ++ k) as [|e l]; [done|].
  change (join_elems (".." :: e :: l)) with ("../" +:+ join_elems (e :: l)).
  unfold climbs. rewrite HasPrefix_app. apply orb_true_r.
Qed.

Lemma Rel_rooted base targ : IsAbs base = true -> IsAbs targ = true ->
  exists rel, Rel base targ = Some rel /\
    (climbs rel = false <-> clean_elems base `prefix_of` clean_elems targ) /\
    (forall k, clean_elems targ = clean_elems base ++ k ->
       rel = match k with [] => "." | _ => join_elems k end).
Proof.
  intros Hb Ht. unfold Rel. case_bool_decide as He.
  - exists ".". split; [done|].
    assert (clean_elems base = clean_elems targ) as Hc.
    { rewrite !Clean_rooted in He by done. apply of_elems_inj in He; [done| |]; by apply clean_elems_plain. }
    split; [by rewrite Hc|]. intros k Hk. rewrite Hc in Hk.
    apply (f_equal List.length) in Hk. rewrite length_app in Hk. destruct k; [done|]. simpl in Hk. lia.
  - rewrite !elems_Clean by done.
    rewrite !Clean_rooted by done. rewrite !IsAbs_of_elems. simpl.
    pose proof (clean_elems_plain base Hb) as Hpb. pose proof (clean_elems_plain targ Ht) as Hpt.
    destruct (strip_common_app (clean_elems base) (clean_elems targ)) as (pre & H1 & H2).
    destruct (strip_common (clean_elems base) (clean_elems targ)) as [br tr] eqn:Hs. simpl in H1, H2.
    exists (join_elems (map (fun _ => "..") br ++ tr)).
    assert (Forall plain br) as Hbr by (rewrite H1 in Hpb; by apply Forall_app in Hpb as [_ ?]).
    assert (Forall plain tr) as Htr by (rewrite H2 in Hpt; by apply Forall_app in Hpt as [_ ?]).
    split; [|split].
    + rewrite bool_decide_eq_false_2; [done|]. destruct Hbr as [|e br (_ & _ & Hdd & _) _]; [done|].
      by intros [= ->].
    + split.
      * destruct br as [|e br]; [|intros H; by rewrite (join_up_climbs br tr : climbs (join_elems (map _ (e :: br) ++ tr)) = true) in H].
        intros _. rewrite app_nil_r in H1. exists tr. by rewrite H2, H1.
      * intros [k Hk]. rewrite Hk, strip_common_prefix in Hs. injection Hs as <- <-. simpl.
        destruct k as [|e k]; [done|]. by apply join_plain_no_climb.
    + intros k Hk. destruct k as [|e k].
      * destruct He. rewrite app_nil_r in Hk. by rewrite !Clean_rooted, Hk.
      * rewrite Hk, strip_common_prefix in Hs. by injection Hs as <- <-.
Qed.
