(* ===== verification/Pathguard.v ===== *)
(** The filesystem boundary of sandboxed tools: [internal/pathguard/scope.go].

    The file system is a map from physical paths (lists of names) to
    directories, files and symbolic links, and [walk] is path resolution in it,
    which [os.Lstat], [os.Stat] and [filepath.EvalSymlinks] perform; permission
    errors and changes between two calls are outside the model. *)

From Stdlib Require Import Ascii String.
From stdpp Require Import gmap strings.
From S2P Require Import Prelude GoStrings GoFilepath.

#[local] Open Scope string_scope.
#[local] Open Scope list_scope.
#[local] Open Scope go_scope.

(** ** The file system *)

Inductive node := Dir | File | Link (target : string).

#[global] Instance node_eq_dec : EqDecision node.
Proof. solve_decision. Defined.

Record FS := {
  nodes : gmap (list string) node;
  max_links : nat;              (* links followed before ELOOP *)
  cwd : string }.

Inductive fs_error := ENOENT | EOTHER.

Definition node_at (fs : FS) (p : list string) : option node :=
  match p with [] => Some Dir | _ => nodes fs !! p end.

(** A child's parent is a directory. *)
Definition tree (fs : FS) : Prop :=
  forall p e n, nodes fs !! (p ++ [e]) = Some n -> node_at fs p = Some Dir.

(** Resolve the elements [todo] from the directory [at_], following links. *)
Fixpoint walk (fs : FS) (links : nat) : list string -> list string -> result fs_error (list string) :=
  fix go (at_ todo : list string) {struct todo} :=
    match todo with
    | [] => Ok at_
    | e :: todo' =>
        if bool_decide (e = "") || bool_decide (e = ".") then go at_ todo'
        else if bool_decide (e = "..") then go (removelast at_) todo'
        else
          match nodes fs !! (at_ ++ [e]) with
          | None => Err ENOENT
          | Some Dir => go (at_ ++ [e]) todo'
          | Some File => match todo' with [] => Ok (at_ ++ [e]) | _ => Err EOTHER end
          | Some (Link t) =>
              match links with
              | O => Err EOTHER
              | S n => walk fs n (if IsAbs t then [] else at_) (SplitByte t slash ++ todo')
              end
          end
    end.

(** [os.Lstat]: the last element is looked up without following it. *)
Definition Lstat (fs : FS) (p : string) : result fs_error node :=
  let l := clean_elems p in
  match last l with
  | None => Ok Dir
  | Some e =>
      match walk fs (max_links fs) [] (removelast l) with
      | Err x => Err x
      | Ok d =>
          match node_at fs d with
          | Some Dir => match nodes fs !! (d ++ [e]) with Some n => Ok n | None => Err ENOENT end
          | _ => Err EOTHER
          end
      end
  end.

Definition EvalSymlinks (fs : FS) (p : string) : result fs_error string :=
  let! l := walk fs (max_links fs) [] (clean_elems p) in Ok (of_elems true l).

(** [os.Stat] followed by [IsDir]. *)
Definition is_dir (fs : FS) (p : string) : bool :=
  match walk fs (max_links fs) [] (clean_elems p) with
  | Ok l => bool_decide (node_at fs l = Some Dir)
  | Err _ => false
  end.

Definition Abs (fs : FS) (p : string) : string := if IsAbs p then Clean p else Join (cwd fs) p.

(** ** scope.go *)

Inductive scope_error :=
  ErrNotInitialized | ErrEmptyPath | ErrNUL | ErrExpansion | ErrGlob | ErrOutside | ErrNotDirectory
  | ErrResolve | ErrInspect | ErrNoAncestor | ErrNotRelative | ErrEscapes | ErrNotClaimed.

Record Scope := { root : string; workingDir : string; claims : list string }.

Definition within (root candidate : string) : bool :=
  if bool_decide (root = "") || bool_decide (candidate = "") then false
  else
    match Rel (Clean root) (Clean candidate) with
    | None => false
    | Some rel => bool_decide (rel = ".") || negb (climbs rel)
    end.

Definition canonicalExisting (fs : FS) (path : string) : result scope_error string :=
  if bool_decide (path = "") then Err ErrEmptyPath
  else
    let abs := Abs fs path in
    if negb (is_dir fs abs) then Err ErrNotDirectory
    else match EvalSymlinks fs abs with Ok p => Ok p | Err _ => Err ErrResolve end.

(** The loop up to the nearest existing ancestor: [rcursor] is the cursor's
    elements, last first; its parent is the cursor itself only at the top,
    which exists. *)
Fixpoint ancestor_loop (fs : FS) (rcursor suffix : list string) : result scope_error string :=
  let cursor := of_elems true (rev rcursor) in
  match Lstat fs cursor with
  | Ok _ =>
      match EvalSymlinks fs cursor with
      | Err _ => Err ErrResolve
      | Ok resolved => Ok (Clean (fold_left Join suffix resolved))
      end
  | Err EOTHER => Err ErrInspect
  | Err ENOENT =>
      match rcursor with
      | [] => Err ErrNoAncestor
      | e :: parent => ancestor_loop fs parent (e :: suffix)
      end
  end.

Definition canonicalExistingOrParent (fs : FS) (path : string) : result scope_error string :=
  ancestor_loop fs (rev (clean_elems (Abs fs path))) [].

(** Shell expansion and globs. *)
Definition has_expansion (input : string) : bool :=
  HasPrefix input "~" || Contains input "${" || Contains input "$HOME".

Definition Resolve (fs : FS) (s : Scope) (input : string) : result scope_error string :=
  if bool_decide (root s = "") || bool_decide (workingDir s = "") then Err ErrNotInitialized
  else if bool_decide (input = "") then Err ErrEmptyPath
  else if ContainsByte input zero then Err ErrNUL
  else if has_expansion input then Err ErrExpansion
  else if ContainsAny input "*?[" then Err ErrGlob
  else
    let candidate := if IsAbs input then input else Join (workingDir s) input in
    let! resolved := canonicalExistingOrParent fs candidate in
    if within (root s) resolved then Ok resolved else Err ErrOutside.

(** The relative path handed to [os.Root]. *)
Definition rel_checked (s : Scope) (resolved : string) : result scope_error string :=
  match Rel (root s) resolved with
  | None => Err ErrEscapes
  | Some rel =>
      if climbs rel || IsAbs rel then Err ErrEscapes
      else Ok (Clean rel)
  end.

Definition Relative (fs : FS) (s : Scope) (input : string) : result scope_error string :=
  if IsAbs input then Err ErrNotRelative
  else let! resolved := Resolve fs s input in rel_checked s resolved.

Definition LexicalRelative (s : Scope) (input : string) : result scope_error string :=
  if bool_decide (root s = "") || bool_decide (workingDir s = "") then Err ErrNotInitialized
  else if bool_decide (input = "") || IsAbs input then Err ErrNotRelative
  else if ContainsByte input zero || has_expansion input || ContainsAny input "*?[" then Err ErrExpansion
  else
    let candidate := Clean (Join (workingDir s) input) in
    if negb (within (root s) candidate) then Err ErrEscapes
    else match Rel (root s) candidate with None => Err ErrEscapes | Some rel => Ok (Clean rel) end.

Definition AllowsWrite (s : Scope) (path : string) : bool :=
  if negb (within (root s) path) then false
  else match claims s with
       | [] => true
       | cs => existsb (fun c => within c path) cs
       end.

Definition AllowsWriteRelative (fs : FS) (s : Scope) (input : string) : result scope_error string :=
  if IsAbs input then Err ErrNotRelative
  else
    let! resolved := Resolve fs s input in
    if negb (AllowsWrite s resolved) then Err ErrNotClaimed else rel_checked s resolved.

Fixpoint add_claims (fs : FS) (s : Scope) (todo : list string) : result scope_error Scope :=
  match todo with
  | [] => Ok s
  | c :: todo' =>
      let! resolved := Resolve fs s c in
      add_claims fs
        (if bool_decide (resolved ∈ claims s) then s
         else {| root := root s; workingDir := workingDir s; claims := claims s ++ [resolved] |}) todo'
  end.

Definition New (fs : FS) (root_ workingDir_ : string) (claims_ : list string) : result scope_error Scope :=
  let! r := canonicalExisting fs root_ in
  let! w := canonicalExisting fs (if bool_decide (workingDir_ = "") then r else workingDir_) in
  if negb (within r w) then Err ErrOutside
  else add_claims fs {| root := r; workingDir := w; claims := [] |} claims_.

(** ** Path resolution *)

Definition dirs (fs : FS) (p : list string) : Prop :=
  forall q, q `prefix_of` p -> node_at fs q = Some Dir.

(** A physical path: directories, the last element possibly a file; no link. *)
Definition physical (fs : FS) (p : list string) : Prop :=
  Forall plain p /\ forall q, q `prefix_of` p -> node_at fs q = Some Dir \/ (q = p /\ node_at fs q = Some File).

Definition no_slash (e : string) : Prop := string_existsb (fun a => bool_decide (a = slash)) e = false.

Lemma walk_cons fs n at_ e todo :
  walk fs n at_ (e :: todo) =
    if bool_decide (e = "") || bool_decide (e = ".") then walk fs n at_ todo
    else if bool_decide (e = "..") then walk fs n (removelast at_) todo
    else
      match nodes fs !! (at_ ++ [e]) with
      | None => Err ENOENT
      | Some Dir => walk fs n (at_ ++ [e]) todo
      | Some File => match todo with [] => Ok (at_ ++ [e]) | _ => Err EOTHER end
      | Some (Link t) =>
          match n with
          | O => Err EOTHER
          | S m => walk fs m (if IsAbs t then [] else at_) (SplitByte t slash ++ todo)
          end
      end.
Proof. by destruct n. Qed.

Lemma walk_nil fs n at_ : walk fs n at_ [] = Ok at_.
Proof. by destruct n. Qed.

Lemma dirs_nil fs : dirs fs [].
Proof. intros q ->%prefix_nil_inv. done. Qed.

Lemma dirs_prefix fs p q : q `prefix_of` p -> dirs fs p -> dirs fs q.
Proof. intros Hq Hp r Hr. apply Hp. by etransitivity. Qed.

Lemma removelast_prefix {A} (l : list A) : removelast l `prefix_of` l.
Proof.
  destruct (decide (l = [])) as [->|Hn]; [done|].
  destruct l as [|x l]; [done|]. exists [List.last (x :: l) x]. by apply app_removelast_last.
Qed.

Lemma prefix_snoc_inv {A} (q p : list A) x : q `prefix_of` p ++ [x] -> q `prefix_of` p \/ q = p ++ [x].
Proof.
  intros [k Hk]. destruct k as [|y k] using rev_ind; [right; by rewrite app_nil_r in Hk|].
  left. rewrite app_assoc in Hk. apply app_inj_tail in Hk as [-> _]. by exists k.
Qed.

Lemma node_at_snoc fs p e : node_at fs (p ++ [e]) = nodes fs !! (p ++ [e]).
Proof. by destruct p. Qed.

Lemma dirs_snoc fs p e : dirs fs p -> nodes fs !! (p ++ [e]) = Some Dir -> dirs fs (p ++ [e]).
Proof.
  intros Hp He q [Hq | ->]%prefix_snoc_inv; [by apply Hp|]. by rewrite node_at_snoc.
Qed.

Lemma dirs_physical fs p : Forall plain p -> dirs fs p -> physical fs p.
Proof. intros Hp Hd. split; [done|]. intros q Hq. left. by apply Hd. Qed.

Lemma file_physical fs p e : Forall plain (p ++ [e]) -> dirs fs p -> nodes fs !! (p ++ [e]) = Some File ->
  physical fs (p ++ [e]).
Proof.
  intros Hp Hd He. split; [done|]. intros q [Hq | ->]%prefix_snoc_inv; [left; by apply Hd|].
  right. by rewrite node_at_snoc.
Qed.

Lemma split_no_slash t : Forall no_slash (SplitByte t slash).
Proof. apply Forall_forall. intros e. apply SplitByte_no_sep. Qed.

(** What resolution arrives at is physical. *)
Lemma walk_physical fs n : forall at_ todo p,
  Forall plain at_ -> dirs fs at_ -> Forall no_slash todo -> walk fs n at_ todo = Ok p -> physical fs p.
Proof.
  induction n as [n IHn] using lt_wf_ind. intros at_ todo. revert at_.
  induction todo as [|e todo IH]; intros at_ p Hpl Hd Hs.
  { rewrite walk_nil. intros [= <-]. by apply dirs_physical. }
  apply Forall_cons in Hs as [He Hs]. rewrite walk_cons.
  destruct (bool_decide (e = "") || bool_decide (e = ".")) eqn:H1; [by apply IH|].
  apply orb_false_iff in H1 as [He1%bool_decide_eq_false He2%bool_decide_eq_false].
  case_bool_decide as He3.
  { apply IH; [|by eapply dirs_prefix, Hd; apply removelast_prefix|done].
    destruct (removelast_prefix at_) as [k Hk]. rewrite Hk in Hpl. by apply Forall_app in Hpl as [? _]. }
  assert (Forall plain (at_ ++ [e])) as Hpe by (by apply Forall_add).
  destruct (nodes fs !! (at_ ++ [e])) as [[| |t]|] eqn:Hn; [| | |done].
  - apply IH; [done| |done]. by apply dirs_snoc.
  - destruct todo; [|done]. intros [= <-]. by apply file_physical.
  - destruct n as [|m]; [done|]. apply IHn; [lia| | |].
    + by destruct (IsAbs t).
    + destruct (IsAbs t); [apply dirs_nil|done].
    + apply Forall_app. split; [apply split_no_slash|done].
Qed.

(** Resolving a physical path stays on it. *)
Lemma walk_along fs n b : forall a k, Forall plain b -> dirs fs (a ++ b) ->
  walk fs n a (b ++ k) = walk fs n (a ++ b) k.
Proof.
  induction b as [|e b IH]; intros a k Hb Hd; [by rewrite app_nil_r|].
  apply Forall_cons in Hb as [(H1 & H2 & H3 & _) Hb].
  change ((e :: b) ++ k) with (e :: (b ++ k)). rewrite walk_cons.
  rewrite (bool_decide_eq_false_2 (e = "")), (bool_decide_eq_false_2 (e = ".")),
    (bool_decide_eq_false_2 (e = "..")) by done. cbn [orb].
  assert (a ++ e :: b = (a ++ [e]) ++ b) as Ha by (by rewrite <- app_assoc). rewrite Ha in *.
  assert (nodes fs !! (a ++ [e]) = Some Dir) as ->.
  { rewrite <- node_at_snoc. apply Hd. by apply prefix_app_r. }
  by apply IH.
Qed.

Lemma walk_missing fs n p e k : Forall plain (p ++ [e]) -> physical fs p -> nodes fs !! (p ++ [e]) = None ->
  exists x, walk fs n [] (p ++ e :: k) = Err x.
Proof.
  intros Hp [_ Hphys] Hn. apply Forall_app in Hp as [Hp [(He1 & He2 & He3 & _) _]%Forall_cons].
  destruct (Hphys p) as [Hd|[_ Hf]]; [done| |].
  - rewrite walk_along; [|done|].
    + simpl app. rewrite walk_cons, !bool_decide_eq_false_2 by done. cbn [orb]. rewrite Hn. by eexists.
    + intros q Hq. destruct (Hphys q Hq) as [?|[-> ?]]; done.
  - destruct p as [|f p _] using rev_ind; [done|]. rewrite node_at_snoc in Hf.
    apply Forall_app in Hp as [Hp [(Hf1 & Hf2 & Hf3 & _) _]%Forall_cons].
    rewrite <- app_assoc, walk_along; [|done|].
    + simpl app. rewrite walk_cons, !bool_decide_eq_false_2 by done. cbn [orb]. rewrite Hf. by eexists.
    + intros q Hq. destruct (Hphys q) as [?|[-> _]]; [by apply prefix_app_r|done|].
      apply prefix_length in Hq. rewrite length_app in Hq. simpl in Hq. lia.
Qed.

Lemma walk_physical_self fs n p q : physical fs p -> walk fs n [] p = Ok q -> q = p.
Proof.
  intros [Hp Hphys]. destruct p as [|f p _] using rev_ind; [rewrite walk_nil; by intros [= <-]|].
  apply Forall_app in Hp as [Hp [(Hf1 & Hf2 & Hf3 & _) _]%Forall_cons].
  rewrite walk_along; [|done|].
  - simpl app. rewrite walk_cons, !bool_decide_eq_false_2 by done. cbn [orb].
    destruct (Hphys (p ++ [f])) as [Hd|[_ Hd]]; [done| |]; rewrite node_at_snoc in Hd; rewrite Hd.
    + rewrite walk_nil. by intros [= <-].
    + by intros [= <-].
  - intros q' Hq. destruct (Hphys q') as [?|[-> _]]; [by apply prefix_app_r|done|].
    apply prefix_length in Hq. rewrite length_app in Hq. simpl in Hq. lia.
Qed.

(** ** The nearest existing ancestor *)

Lemma join_elems_snoc l e : l <> [] -> join_elems (l ++ [e]) = join_elems l +:+ "/" +:+ e.
Proof.
  induction l as [|x l IH]; [done|]. intros _. destruct l as [|y l]; [done|].
  change (join_elems ((x :: y :: l) ++ [e])) with (x +:+ "/" +:+ join_elems ((y :: l) ++ [e])).
  rewrite IH by done. change (join_elems (x :: y :: l)) with (x +:+ "/" +:+ join_elems (y :: l)).
  by rewrite !string_app_assoc.
Qed.

Lemma push_root l : fold_left (push_elem true) ("" :: l) [] = fold_left (push_elem true) l [].
Proof. done. Qed.

Lemma Join_elem l e : Forall plain l -> plain e -> Join (of_elems true l) e = of_elems true (l ++ [e]).
Proof.
  intros Hl He. unfold Join. rewrite IsAbs_nonempty by apply IsAbs_of_elems.
  assert (Forall plain (l ++ [e])) as Hle by (by apply Forall_add).
  rewrite bool_decide_eq_false_2 by apply He. destruct l as [|x l].
  - change (of_elems true [] +:+ "/" +:+ e) with ("/" +:+ String slash e).
    rewrite Clean_rooted by done. f_equal. unfold clean_elems.
    change (SplitByte ("/" +:+ String slash e) slash) with ("" :: "" :: SplitByte e slash).
    change (IsAbs ("/" +:+ String slash e)) with true. rewrite !push_root, SplitByte_single by apply He.
    rewrite fold_push_plain by exact Hle. done.
  - change (of_elems true (x :: l) +:+ "/" +:+ e) with ("/" +:+ (join_elems (x :: l) +:+ "/" +:+ e)).
    rewrite <- join_elems_snoc by done. change ("/" +:+ join_elems ((x :: l) ++ [e])) with (of_elems true ((x :: l) ++ [e])).
    rewrite Clean_rooted by apply IsAbs_of_elems. by rewrite clean_of_elems.
Qed.

Lemma fold_Join suffix l : Forall plain l -> Forall plain suffix ->
  fold_left Join suffix (of_elems true l) = of_elems true (l ++ suffix).
Proof.
  revert l. induction suffix as [|e suffix IH]; intros l Hl; [by rewrite app_nil_r|].
  intros [He Hs]%Forall_cons. cbn [fold_left]. rewrite Join_elem by done.
  rewrite IH; [by rewrite <- app_assoc|by apply Forall_add|done].
Qed.

(** A place that resolves: its existing part is physical, and the first missing
    element, if any, is not there. *)
Definition place (fs : FS) (phys extra : list string) : Prop :=
  physical fs phys /\ Forall plain extra /\
  match extra with [] => True | e :: _ => nodes fs !! (phys ++ [e]) = None end.

Lemma Lstat_missing fs l e : Forall plain (l ++ [e]) -> Lstat fs (of_elems true (l ++ [e])) = Err ENOENT ->
  forall d, walk fs (max_links fs) [] l = Ok d -> nodes fs !! (d ++ [e]) = None.
Proof.
  intros Hp. unfold Lstat. rewrite clean_of_elems, last_snoc, removelast_last by done.
  intros H d Hd. rewrite Hd in H. destruct (node_at fs d) as [[| |]|]; try done.
  by destruct (nodes fs !! (d ++ [e])).
Qed.

Lemma ancestor_loop_place fs rcursor suffix r :
  Forall plain (rev rcursor) -> Forall plain suffix ->
  match suffix with [] => True | e :: _ => Lstat fs (of_elems true (rev rcursor ++ [e])) = Err ENOENT end ->
  ancestor_loop fs rcursor suffix = Ok r ->
  exists phys extra, r = of_elems true (phys ++ extra) /\ place fs phys extra.
Proof.
  revert suffix. induction rcursor as [|e rcursor IH]; intros suffix Hp Hs Hmiss; cbn [ancestor_loop];
    set (cursor := of_elems true _); destruct (Lstat fs cursor) as [n|[]] eqn:Hl; try done.
  - unfold EvalSymlinks. unfold cursor at 1. rewrite clean_of_elems by done. change (rev []) with (@nil string).
    rewrite walk_nil. cbv beta iota. intros H%Ok_inj. subst r. exists [], suffix. split.
    + rewrite fold_Join by done.
      rewrite Clean_rooted by apply IsAbs_of_elems. by rewrite clean_of_elems.
    + split; [apply dirs_physical; [done|apply dirs_nil]|]. split; [done|]. destruct suffix as [|e s]; [done|].
      assert (Forall plain ([] ++ [e])) as Hpe by (apply Forall_cons in Hs as [? _]; by apply Forall_add).
      by apply (Lstat_missing fs [] e Hpe Hmiss), walk_nil.
  - unfold EvalSymlinks. unfold cursor at 1. rewrite clean_of_elems by done.
    destruct (walk fs (max_links fs) [] (rev (e :: rcursor))) as [d|] eqn:Hd; [|done].
    cbv beta iota. intros H%Ok_inj. subst r. assert (physical fs d) as Hphys.
    { eapply walk_physical; [| |..|exact Hd]; [done|apply dirs_nil|].
      eapply Forall_impl; [exact Hp|]. by intros ? (_ & _ & _ & ?). }
    exists d, suffix. split.
    + rewrite fold_Join by (by apply Hphys || done). rewrite Clean_rooted by apply IsAbs_of_elems.
      rewrite clean_of_elems; [done|]. apply Forall_app. split; [apply Hphys|done].
    + split; [done|]. split; [done|]. destruct suffix as [|e' s]; [done|].
      eapply Lstat_missing; [|exact Hmiss|exact Hd].
      apply Forall_cons in Hs as [? _]. by apply Forall_add.
  - simpl in Hp. apply Forall_app in Hp as [Hp He].
    apply IH; [done| |exact Hl]. apply Forall_cons in He as [He _]. by constructor.
Qed.

Lemma place_walk fs n phys extra p : place fs phys extra ->
  walk fs n [] (phys ++ extra) = Ok p -> p = phys ++ extra.
Proof.
  intros (Hp & He & Hm). destruct extra as [|e extra].
  - rewrite app_nil_r. by apply walk_physical_self.
  - intros Hw. destruct (walk_missing fs n phys e extra) as [x Hx]; [| |done|].
    + apply Forall_cons in He as [He _]. by apply Forall_add; [apply Hp|].
    + done.
    + by rewrite Hx in Hw.
Qed.

(** ** Scopes *)

Lemma within_iff a b : IsAbs a = true -> IsAbs b = true ->
  within a b = true <-> clean_elems a `prefix_of` clean_elems b.
Proof.
  intros Ha Hb. unfold within. rewrite !IsAbs_nonempty by done. simpl.
  assert (IsAbs (Clean a) = true /\ IsAbs (Clean b) = true) as [Ha' Hb'].
  { rewrite !Clean_rooted by done. split; apply IsAbs_of_elems. }
  destruct (Rel_rooted (Clean a) (Clean b) Ha' Hb') as (rel & -> & Hc & _).
  assert (forall p, IsAbs p = true -> clean_elems (Clean p) = clean_elems p) as He.
  { intros p Hp. rewrite Clean_rooted by done. by apply clean_of_elems, clean_elems_plain. }
  rewrite !He in Hc by done. rewrite <- Hc.
  case_bool_decide as Hd; [|by destruct (climbs rel)].
  subst rel. done.
Qed.

Record scope_ok (s : Scope) : Prop := {
  so_root : IsAbs (root s) = true;
  so_wd : IsAbs (workingDir s) = true;
  so_claims : Forall (fun c => IsAbs c = true /\ within (root s) c = true) (claims s) }.

Lemma IsAbs_Join a b : IsAbs a = true -> IsAbs (Join a b) = true.
Proof.
  intros Ha. unfold Join. rewrite IsAbs_nonempty by done.
  assert (forall p, IsAbs p = true -> IsAbs (Clean p) = true) as Hc.
  { intros p Hp. rewrite Clean_rooted by done. apply IsAbs_of_elems. }
  case_bool_decide; apply Hc; [done|].
  apply HasPrefix_spec in Ha as [r ->]. unfold IsAbs. rewrite string_app_assoc. apply HasPrefix_app.
Qed.

Lemma canonical_place fs path r : IsAbs path = true ->
  canonicalExistingOrParent fs path = Ok r ->
  exists phys extra, r = of_elems true (phys ++ extra) /\ place fs phys extra.
Proof.
  intros Hp H. unfold canonicalExistingOrParent, Abs in H. rewrite Hp in H.
  eapply ancestor_loop_place; [| | |exact H].
  - rewrite rev_involutive. apply clean_elems_plain. rewrite Clean_rooted by done. apply IsAbs_of_elems.
  - done.
  - done.
Qed.

Lemma Resolve_Ok fs s input r : Resolve fs s input = Ok r ->
  within (root s) r = true /\
  canonicalExistingOrParent fs (if IsAbs input then input else Join (workingDir s) input) = Ok r.
Proof.
  unfold Resolve. do 5 (destruct (_ : bool); [done|]).
  destruct (canonicalExistingOrParent fs _) as [q|]; [|done].
  destruct (within (root s) q) eqn:Hw; [|done]. by intros [= ->].
Qed.

Lemma Resolve_place fs s input r : scope_ok s -> Resolve fs s input = Ok r ->
  exists phys extra, r = of_elems true (phys ++ extra) /\ place fs phys extra /\
    IsAbs r = true /\ clean_elems r = phys ++ extra /\ clean_elems (root s) `prefix_of` phys ++ extra.
Proof.
  intros Hs (Hw & Hc)%Resolve_Ok.
  apply canonical_place in Hc as (phys & extra & -> & Hp).
  - exists phys, extra. split; [done|]. split; [done|].
    assert (IsAbs (of_elems true (phys ++ extra)) = true) as Ha by apply IsAbs_of_elems. split; [done|].
    assert (clean_elems (of_elems true (phys ++ extra)) = phys ++ extra) as He.
    { apply clean_of_elems. apply Forall_app. split; apply Hp. }
    split; [done|]. rewrite <- He. apply within_iff; [apply Hs|done|done].
  - destruct (IsAbs input) eqn:Hi; [done|]. apply IsAbs_Join, Hs.
Qed.

(** ** What [New] builds *)

Lemma IsAbs_Abs fs p : IsAbs (cwd fs) = true -> IsAbs (Abs fs p) = true.
Proof.
  intros Hc. unfold Abs. destruct (IsAbs p) eqn:Hp; [|by apply IsAbs_Join].
  rewrite Clean_rooted by done. apply IsAbs_of_elems.
Qed.

(** A canonical directory: absolute, and its elements are a physical directory. *)
Definition canonical_dir (fs : FS) (p : string) : Prop :=
  IsAbs p = true /\ physical fs (clean_elems p) /\ node_at fs (clean_elems p) = Some Dir.

Lemma canonicalExisting_dir fs path r : IsAbs (cwd fs) = true ->
  canonicalExisting fs path = Ok r -> canonical_dir fs r.
Proof.
  intros Hc. unfold canonicalExisting, is_dir, EvalSymlinks. case_bool_decide; [done|].
  pose proof (clean_elems_plain (Abs fs path) (IsAbs_Abs fs path Hc)) as Hp.
  destruct (walk fs (max_links fs) [] (clean_elems (Abs fs path))) as [l|] eqn:Hw; [|done].
  case_bool_decide as Hd; [|done]. cbn [negb]. intros H'%Ok_inj. subst r.
  assert (physical fs l) as Hl.
  { eapply walk_physical; [| |..|exact Hw]; [done|apply dirs_nil|].
    eapply Forall_impl; [exact Hp|]. by intros ? (_ & _ & _ & ?). }
  unfold canonical_dir. rewrite clean_of_elems by apply Hl. split; [apply IsAbs_of_elems|done].
Qed.

Lemma add_claims_ok fs todo s s' : scope_ok s -> add_claims fs s todo = Ok s' ->
  scope_ok s' /\ root s' = root s /\ workingDir s' = workingDir s.
Proof.
  revert s. induction todo as [|c todo IH]; intros s Hs; cbn [add_claims]; [by intros [= <-]|].
  destruct (Resolve fs s c) as [r|] eqn:Hr; [|done]. intros H.
  destruct (Resolve_place fs s c r Hs Hr) as (phys & extra & _ & _ & Ha & _).
  apply Resolve_Ok in Hr as [Hw _]. case_bool_decide; [by apply IH|].
  apply IH in H; [exact H|]. split; [apply Hs|apply Hs|]. apply Forall_add; [apply Hs|done].
Qed.

(** The reading of a relative path under a root. *)
Definition below (s : Scope) (r rel : string) : Prop :=
  exists k, clean_elems r = clean_elems (root s) ++ k /\
    rel = match k with [] => "." | _ => join_elems k end.

Lemma Clean_join k : Forall plain k -> k <> [] -> Clean (join_elems k) = join_elems k.
Proof.
  intros Hk Hn. unfold Clean. destruct k as [|e k]; [done|].
  assert (IsAbs (join_elems (e :: k)) = false /\ join_elems (e :: k) <> "") as [Hr He].
  { apply Forall_cons in Hk as [(H1 & _ & _ & H4) _]. destruct e as [|a e]; [done|].
    simpl in H4. apply orb_false_iff in H4 as [Ha _].
    assert (exists t, join_elems (String a e :: k) = String a t) as [t ->] by (destruct k; by eexists).
    unfold IsAbs. split; [|done]. unfold HasPrefix. simpl. unfold slash in Ha. by rewrite Ha. }
  rewrite bool_decide_eq_false_2, Hr by done. unfold clean_elems. rewrite Hr.
  rewrite SplitByte_join, fold_push_plain by done. rewrite app_nil_r, rev_involutive. done.
Qed.

Lemma rel_checked_below s r rel : IsAbs (root s) = true -> IsAbs r = true ->
  rel_checked s r = Ok rel -> below s r rel.
Proof.
  intros Hs Hr. unfold rel_checked.
  destruct (Rel_rooted (root s) r Hs Hr) as (x & -> & Hc & Hk).
  destruct (climbs x) eqn:Hx; [done|]. cbn [orb]. destruct (IsAbs x); [done|]. intros H%Ok_inj. subst rel.
  destruct (proj1 Hc eq_refl) as [k Hck]. exists k. split; [done|].
  assert (Forall plain k) as Hpk.
  { pose proof (clean_elems_plain r Hr) as Hp. rewrite Hck in Hp. by apply Forall_app in Hp as [_ ?]. }
  destruct k as [|e k]; rewrite (Hk _ Hck); [done|]. by apply Clean_join.
Qed.

(** ** Theorems *)

(** C33: a resolved path stays inside.  What [Resolve] accepts lies below the
    root, and opening it - following whatever links the file system holds -
    reaches that very place or fails: no link, "..", missing parent or working
    directory takes it elsewhere. *)
Theorem resolved_stays_inside fs s input r :
  scope_ok s -> Resolve fs s input = Ok r ->
  IsAbs r = true /\ clean_elems (root s) `prefix_of` clean_elems r /\
  forall links p, walk fs links [] (clean_elems r) = Ok p -> p = clean_elems r.
Proof.
  intros Hs Hr. destruct (Resolve_place fs s input r Hs Hr) as (phys & extra & _ & Hp & Ha & He & Hpre).
  rewrite He. split; [done|]. split; [done|]. intros links p. by apply place_walk.
Qed.

Definition sample_fs : FS := {|
  nodes := list_to_map [(["repo"], Dir); (["repo"; "src"], Dir); (["etc"], Dir); (["etc"; "passwd"], File);
    (["repo"; "out"], Link "/etc"); (["repo"; "in"], Link "./src"); (["repo"; "up"], Link "../../etc")];
  max_links := 255; cwd := "/" |}.

Definition sample_scope : Scope := {| root := "/repo"; workingDir := "/repo/src"; claims := ["/repo/src"] |}.

Lemma sample_scope_ok : scope_ok sample_scope.
Proof. split; [done|done|]. repeat constructor. Qed.

Example resolved_stays_inside_witness :
  Resolve sample_fs sample_scope "../in/new/x.go" = Ok "/repo/src/new/x.go" /\
  IsAbs "/repo/src/new/x.go" = true /\
  clean_elems "/repo" `prefix_of` clean_elems "/repo/src/new/x.go" /\
  forall links p, walk sample_fs links [] (clean_elems "/repo/src/new/x.go") = Ok p -> p = ["repo"; "src"; "new"; "x.go"].
Proof.
  assert (Resolve sample_fs sample_scope "../in/new/x.go" = Ok "/repo/src/new/x.go") as H by (vm_compute; reflexivity).
  split; [exact H|]. apply (resolved_stays_inside sample_fs sample_scope "../in/new/x.go" _ sample_scope_ok H).
Defined.

(** A write that [AllowsWriteRelative] lets through is below one of the
    declared claims (anywhere below the root when none is declared), and the
    path it returns is the canonical path read from the root. *)
Theorem writes_are_claimed fs s input rel :
  scope_ok s -> AllowsWriteRelative fs s input = Ok rel ->
  exists r, Resolve fs s input = Ok r /\ below s r rel /\
    (claims s = [] \/ exists c, c ∈ claims s /\ clean_elems c `prefix_of` clean_elems r).
Proof.
  intros Hs. unfold AllowsWriteRelative. destruct (IsAbs input); [done|].
  destruct (Resolve fs s input) as [r|] eqn:Hr; [|done]. destruct (AllowsWrite s r) eqn:Hw; [|done].
  cbn [negb]. intros Hrel. destruct (Resolve_place fs s input r Hs Hr) as (_ & _ & _ & _ & Ha & _).
  exists r. split; [done|]. split; [apply rel_checked_below; [apply Hs|done|done]|].
  unfold AllowsWrite in Hw. destruct (within (root s) r); [|done]. cbn [negb] in Hw.
  destruct (claims s) as [|c cs] eqn:Hcs; [by left|right].
  apply existsb_elem in Hw as (x & Hx & Hin). exists x. split; [done|].
  pose proof (so_claims s Hs) as Hc. rewrite Hcs, Forall_forall in Hc.
  apply within_iff; [by apply Hc|done|done].
Qed.

Example writes_are_claimed_witness :
  exists r, Resolve sample_fs sample_scope "../in/new.go" = Ok r /\ below sample_scope r "src/new.go" /\
    (claims sample_scope = [] \/
     exists c, c ∈ claims sample_scope /\ clean_elems c `prefix_of` clean_elems r).
Proof.
  apply (writes_are_claimed sample_fs sample_scope "../in/new.go" "src/new.go" sample_scope_ok).
  vm_compute. reflexivity.
Defined.

(** What [New] returns: the root and the working directory are physical
    directories, the second below the first, and every claim is below the
    root. *)
Theorem New_scope_ok fs r w cs s :
  IsAbs (cwd fs) = true -> New fs r w cs = Ok s ->
  scope_ok s /\ canonical_dir fs (root s) /\ canonical_dir fs (workingDir s) /\
  clean_elems (root s) `prefix_of` clean_elems (workingDir s).
Proof.
  intros Hc. unfold New. destruct (canonicalExisting fs r) as [r'|] eqn:Hr; [|done].
  destruct (canonicalExisting fs (if bool_decide (w = "") then r' else w)) as [w'|] eqn:Hw; [|done].
  apply canonicalExisting_dir in Hr, Hw; [|done..]. destruct (within r' w') eqn:Hin; [|done].
  cbn [negb]. intros H. apply add_claims_ok in H as (Hs & Hr' & Hw').
  - rewrite Hr', Hw'. cbn [root workingDir]. split; [done|]. split; [done|]. split; [done|].
    apply within_iff; [apply Hr|apply Hw|done].
  - split; [apply Hr|apply Hw|constructor].
Qed.

Example escapes_are_refused :
  map (Resolve sample_fs sample_scope) ["../out/passwd"; "../up/passwd"; "../../etc/passwd"; "/etc/passwd"; "~/x"; "*"] =
  [Err ErrOutside; Err ErrOutside; Err ErrOutside; Err ErrOutside; Err ErrExpansion; Err ErrGlob] /\
  LexicalRelative sample_scope "../out/passwd" = Ok "out/passwd" /\
  AllowsWriteRelative sample_fs sample_scope "../a.txt" = Err ErrNotClaimed.
Proof. vm_compute. done. Qed.
