(* ===== verification/Cmdguard.v ===== *)
(** Guards on commands the daemon or its agents run:
    [internal/downstream/cmdguard.go].

    [ValidateCommand] vets the command of a downstream server;
    [ValidateLocalBashExec] and [ValidateLocalBashLine] keep local shell
    commands off the program's own files.  [shell_reads] is the reference for
    the quoting the last ones look through. *)

From Stdlib Require Import Ascii String.
From stdpp Require Import gmap strings.
From S2P Require Import Prelude GoStrings GoFilepath.

#[local] Open Scope string_scope.
#[local] Open Scope list_scope.

#[local] Abbreviation dq := (ascii_of_N 34).
#[local] Abbreviation sq := (ascii_of_N 39).
#[local] Abbreviation bs := (ascii_of_N 92).
#[local] Abbreviation nl := (ascii_of_N 10).

Definition shellCommandBasenames : list string :=
  ["sh"; "bash"; "dash"; "zsh"; "ksh"; "ash"; "csh"; "tcsh"; "fish"; "eval"; "exec"; "source";
   "cmd"; "cmd.exe"; "powershell"; "powershell.exe"; "pwsh"].

Definition shellEvalArgs : list string :=
  ["-c"; "-e"; "--call"; "--eval"; "--exec"; "--execute"; "--code"; "--inline"; "-Command"; "-EncodedCommand"].

(** ";|&`$\n\r" *)
Definition shellMetaChars : string :=
  ";|&`$" +:+ String nl (String (ascii_of_N 13) "").

Definition protectedMcplexerPathFragments : list string :=
  [".mcplexer/mcplexer.db"; ".mcplexer/api-key"; ".mcplexer/secrets"; ".mcplexer/p2p"; ".mcplexer/backups";
   ".ssh"; ".aws"; ".docker"; ".gnupg"; ".kube"].

(** The loop of [stripShellQuoting], with the quotes it is inside of. *)
Inductive quote_mode := Plain | Single | Double.

Definition dq_escapable (a : ascii) : bool :=
  Ascii.eqb a "$" || Ascii.eqb a "`" || Ascii.eqb a dq || Ascii.eqb a bs || Ascii.eqb a nl.

Fixpoint strip_loop (m : quote_mode) (s : string) : string :=
  match s with
  | EmptyString => ""
  | String a s' =>
      match m with
      | Plain =>
          if Ascii.eqb a sq then strip_loop Single s'
          else if Ascii.eqb a dq then strip_loop Double s'
          else if Ascii.eqb a bs then
            match s' with
            | String b s'' => String b (strip_loop Plain s'')
            | EmptyString => String bs ""
            end
          else String a (strip_loop Plain s')
      | Single => if Ascii.eqb a sq then strip_loop Plain s' else String a (strip_loop Single s')
      | Double =>
          if Ascii.eqb a dq then strip_loop Plain s'
          else if Ascii.eqb a bs then
            match s' with
            | String b s'' => if dq_escapable b then String b (strip_loop Double s'') else String a (strip_loop Double s')
            | EmptyString => String a ""
            end
          else String a (strip_loop Double s')
      end
  end.

Definition stripShellQuoting (s : string) : string := strip_loop Plain s.

Definition find_fragment (s : string) : option string :=
  find (fun frag => Contains s frag) protectedMcplexerPathFragments.

Definition containsProtectedFragment (s : string) : option string :=
  match find_fragment s with
  | Some frag => Some frag
  | None =>
      let normed := stripShellQuoting s in
      if bool_decide (normed = s) then None else find_fragment normed
  end.

(** Errors carry what the messages print. *)
Inductive cmd_error :=
| CmdEmpty | CmdMetachars (c : string) | CmdTraversal (c : string) | CmdShell (base : string)
| CmdEvalArg (a : string) | CmdProtectedArg (a frag : string) | CmdProtected (c frag : string).

(** The loop over the arguments. *)
Fixpoint validate_args (args : list string) : option cmd_error :=
  match args with
  | [] => None
  | a :: args' =>
      let flag := match Cut a "=" with Some (f, _) => f | None => a end in
      if bool_decide (flag ∈ shellEvalArgs) then Some (CmdEvalArg a)
      else match containsProtectedFragment a with
           | Some frag => Some (CmdProtectedArg a frag)
           | None => validate_args args'
           end
  end.

(** [unsafe] is MCPLEXER_UNSAFE_DOWNSTREAM_COMMANDS; [None] is a nil error. *)
Definition ValidateCommand (unsafe command : string) (args : list string) : option cmd_error :=
  if bool_decide (unsafe = "1") then None
  else
    let command := TrimSpace command in
    if bool_decide (command = "") then Some CmdEmpty
    else if ContainsAny command shellMetaChars then Some (CmdMetachars command)
    else if Contains command ".." then Some (CmdTraversal command)
    else
      let base := ToLower (Base command) in
      if bool_decide (base ∈ shellCommandBasenames) then Some (CmdShell base)
      else match validate_args args with
           | Some e => Some e
           | None =>
               match containsProtectedFragment command with
               | Some frag => Some (CmdProtected command frag)
               | None => None
               end
           end.

Fixpoint protected_args (args : list string) : option cmd_error :=
  match args with
  | [] => None
  | a :: args' =>
      match containsProtectedFragment a with
      | Some frag => Some (CmdProtectedArg a frag)
      | None => protected_args args'
      end
  end.

Definition ValidateLocalBashExec (command : string) (args : list string) : option cmd_error :=
  match containsProtectedFragment command with
  | Some frag => Some (CmdProtected command frag)
  | None => protected_args args
  end.

Definition ValidateLocalBashLine (fullCmd : string) : option cmd_error :=
  match containsProtectedFragment fullCmd with
  | Some frag => Some (CmdProtected fullCmd frag)
  | None => None
  end.

(** ** How a shell reads quotes *)

(** POSIX quote removal, of a text without expansions; [cont] says whether line
    continuations (a backslash before a newline) are among the forms. *)
Inductive dq_reads (cont : bool) : string -> string -> Prop :=
| dq_end : dq_reads cont "" ""
| dq_char a q t : a <> dq -> a <> bs -> dq_reads cont q t -> dq_reads cont (String a q) (String a t)
| dq_escape a q t : a ∈ ["$"%char; "`"%char; dq; bs] -> dq_reads cont q t ->
    dq_reads cont (String bs (String a q)) (String a t)
| dq_keep a q t : a ∉ ["$"%char; "`"%char; dq; bs; nl] -> dq_reads cont q t ->
    dq_reads cont (String bs (String a q)) (String bs (String a t))
| dq_continue q t : cont = true -> dq_reads cont q t -> dq_reads cont (String bs (String nl q)) t.

Inductive shell_reads (cont : bool) : string -> string -> Prop :=
| sr_end : shell_reads cont "" ""
| sr_char a q t : a <> sq -> a <> dq -> a <> bs -> shell_reads cont q t ->
    shell_reads cont (String a q) (String a t)
| sr_escape a q t : a <> nl -> shell_reads cont q t ->
    shell_reads cont (String bs (String a q)) (String a t)
| sr_continue q t : cont = true -> shell_reads cont q t -> shell_reads cont (String bs (String nl q)) t
| sr_single body q t : ContainsByte body sq = false -> shell_reads cont q t ->
    shell_reads cont (String sq (body +:+ String sq q)) (body +:+ t)
| sr_double body text q t : dq_reads cont body text -> shell_reads cont q t ->
    shell_reads cont (String dq (body +:+ String dq q)) (text +:+ t).

Lemma strip_single body q : ContainsByte body sq = false ->
  strip_loop Single (body +:+ String sq q) = body +:+ strip_loop Plain q.
Proof.
  induction body as [|a body IH]; intros Hb; [done|].
  unfold ContainsByte in Hb. cbn [string_existsb] in Hb. apply orb_false_iff in Hb as [Ha Hb].
  rewrite !string_app_cons. cbn [strip_loop].
  destruct (Ascii.eqb_spec a sq) as [->|_]; [by rewrite bool_decide_eq_true_2 in Ha|]. by rewrite IH.
Qed.

Lemma strip_double cont body text q : cont = false -> dq_reads cont body text ->
  strip_loop Double (body +:+ String dq q) = text +:+ strip_loop Plain q.
Proof.
  intros Hc. induction 1 as [|a b t H1 H2 _ IH|a b t Ha _ IH|a b t Ha _ IH|b t Ht _ IH]; [done| | | |congruence].
  - rewrite !string_app_cons. cbn [strip_loop].
    destruct (Ascii.eqb_spec a dq); [done|]. destruct (Ascii.eqb_spec a bs); [done|]. by rewrite IH.
  - rewrite !string_app_cons. cbn [strip_loop]. simpl (Ascii.eqb bs _). cbv iota.
    assert (dq_escapable a = true) as ->; [|by rewrite IH].
    rewrite !elem_of_cons, elem_of_nil in Ha. by destruct Ha as [->|[->|[->|[->|[]]]]].
  - rewrite !string_app_cons. cbn [strip_loop]. simpl (Ascii.eqb bs _). cbv iota.
    rewrite !elem_of_cons, elem_of_nil in Ha. unfold dq_escapable.
    destruct (Ascii.eqb_spec a "$"); [naive_solver|]. destruct (Ascii.eqb_spec a "`"); [naive_solver|].
    destruct (Ascii.eqb_spec a dq); [naive_solver|]. destruct (Ascii.eqb_spec a bs); [naive_solver|].
    destruct (Ascii.eqb_spec a nl); [naive_solver|]. cbn [orb]. by rewrite IH.
Qed.

(** Without line continuations [stripShellQuoting] is quote removal. *)
Lemma strip_reads q t : shell_reads false q t -> stripShellQuoting q = t.
Proof.
  unfold stripShellQuoting.
  induction 1 as [|a q t H1 H2 H3 _ IH|a q t _ _ IH|q t Hc _ IH|b q t Hb _ IH|b s q t Hb _ IH]; [done| | |done| |].
  - cbn [strip_loop]. destruct (Ascii.eqb_spec a sq); [done|]. destruct (Ascii.eqb_spec a dq); [done|].
    destruct (Ascii.eqb_spec a bs); [done|]. by rewrite IH.
  - cbn [strip_loop]. simpl (Ascii.eqb bs _). cbv iota. by rewrite IH.
  - cbn [strip_loop]. simpl (Ascii.eqb sq _). cbv iota. by rewrite strip_single, IH.
  - cbn [strip_loop]. simpl (Ascii.eqb dq _). cbv iota. by rewrite (strip_double false b s), IH.
Qed.

(** ** What is refused *)

Lemma find_fragment_Some s : is_Some (find_fragment s) <->
  exists frag, frag ∈ protectedMcplexerPathFragments /\ Contains s frag = true.
Proof.
  unfold find_fragment. split.
  - intros [x Hx]. apply find_Some_elem in Hx as [Hin Hc]. by exists x.
  - intros (f & Hin & Hc). destruct (find _ _) eqn:Hf; [done|].
    by rewrite (proj1 (find_None_elem _ _) Hf f Hin) in Hc.
Qed.

Lemma containsProtectedFragment_iff s : is_Some (containsProtectedFragment s) <->
  is_Some (find_fragment s) \/ is_Some (find_fragment (stripShellQuoting s)).
Proof.
  unfold containsProtectedFragment. destruct (find_fragment s) eqn:Hf.
  - split; [intros _; left|]; done.
  - case_bool_decide as Hs; [rewrite Hs, Hf|]; naive_solver.
Qed.

Lemma line_refused line text frag :
  shell_reads false line text -> frag ∈ protectedMcplexerPathFragments -> Contains text frag = true ->
  is_Some (ValidateLocalBashLine line).
Proof.
  intros Hr Hin Hc. apply strip_reads in Hr. unfold ValidateLocalBashLine.
  destruct (containsProtectedFragment line) eqn:Hp; [done|].
  assert (is_Some (containsProtectedFragment line)) as [x Hx]; [|by rewrite Hx in Hp].
  apply containsProtectedFragment_iff. right. rewrite Hr. apply find_fragment_Some. by exists frag.
Qed.

(** Quoting does not hide a protected path.  Whatever single quotes, double
    quotes and backslashes a command line is written with, if the text a shell
    reads it as mentions a protected path the line is refused. *)
Theorem quoting_does_not_hide line text frag :
  shell_reads false line text -> frag ∈ protectedMcplexerPathFragments -> Contains text frag = true ->
  is_Some (ValidateLocalBashLine line).
Proof. apply line_refused. Qed.

Example quoting_does_not_hide_witness :
  is_Some (ValidateLocalBashLine (".mc" +:+ String sq ("plexer/" +:+ String sq "api\-key"))).
Proof.
  apply (quoting_does_not_hide _ ".mcplexer/api-key" ".mcplexer/api-key").
  - do 3 (apply sr_char; [done..|]). apply (sr_single false "plexer/"); [reflexivity|].
    do 3 (apply sr_char; [done..|]). apply sr_escape; [done|].
    do 3 (apply sr_char; [done..|]). apply sr_end.
  - unfold protectedMcplexerPathFragments. set_solver.
  - reflexivity.
Defined.

Definition arg_flag (a : string) : string := match Cut a "=" with Some (f, _) => f | None => a end.

Lemma validate_args_None args : validate_args args = None <->
  forall a, a ∈ args -> (arg_flag a ∉ shellEvalArgs) /\ containsProtectedFragment a = None.
Proof.
  induction args as [|a args IH]; cbn [validate_args].
  - split; [|done]. intros _ a Ha. by apply not_elem_of_nil in Ha.
  - fold (arg_flag a). case_bool_decide as Hf.
    { split; [done|]. intros H. by destruct (H a (list_elem_of_here _ _)). }
    destruct (containsProtectedFragment a) eqn:Hp.
    { split; [done|]. intros H. destruct (H a (list_elem_of_here _ _)) as [_ H']. congruence. }
    rewrite IH. split.
    + intros H b [->|Hb]%elem_of_cons; [done|by apply H].
    + intros H b Hb. apply H. by right.
Qed.

(** A downstream command is accepted exactly when the override is set, or it
    is not empty, has no shell metacharacter and no "..", is not a shell, no
    argument is an evaluation flag, and neither it nor an argument mentions a
    protected path. *)
Theorem ValidateCommand_accepts unsafe command args :
  ValidateCommand unsafe command args = None <->
  unsafe = "1" \/
  (TrimSpace command <> "" /\ ContainsAny (TrimSpace command) shellMetaChars = false /\
   Contains (TrimSpace command) ".." = false /\
   (ToLower (Base (TrimSpace command)) ∉ shellCommandBasenames) /\
   (forall a, a ∈ args -> (arg_flag a ∉ shellEvalArgs) /\ containsProtectedFragment a = None) /\
   containsProtectedFragment (TrimSpace command) = None).
Proof.
  unfold ValidateCommand. case_bool_decide as Hu; [naive_solver|].
  case_bool_decide as He; [naive_solver|].
  destruct (ContainsAny (TrimSpace command) shellMetaChars); [naive_solver|].
  destruct (Contains (TrimSpace command) ".."); [naive_solver|].
  case_bool_decide as Hb; [naive_solver|]. rewrite <- validate_args_None.
  destruct (validate_args args); [naive_solver|].
  destruct (containsProtectedFragment (TrimSpace command)); naive_solver.
Qed.

Example validate_samples :
  (ValidateCommand "" "npx" ["-y"; "server"], ValidateCommand "" "/bin/BASH" [],
   ValidateCommand "" "node" ["--eval=1"], ValidateCommand "" "uvx" ["~/.mcplexer/sec\rets"]) =
  (None, Some (CmdShell "bash"), Some (CmdEvalArg "--eval=1"),
   Some (CmdProtectedArg "~/.mcplexer/sec\rets" ".mcplexer/secrets")).
Proof. vm_compute. reflexivity. Qed.

(** A line continuation does hide one: the shell drops the backslash and the
    newline, [stripShellQuoting] keeps the newline. *)
Example continuation_hides :
  let line := ".mcplexer/sec" +:+ String bs (String nl "rets") in
  shell_reads true line ".mcplexer/secrets" /\ ValidateLocalBashLine line = None.
Proof.
  split; [|vm_compute; reflexivity].
  do 13 (apply sr_char; [done..|]). apply sr_continue; [done|].
  do 4 (apply sr_char; [done..|]). apply sr_end.
Qed.
