(* ===== verification/Shellhook.v ===== *)
(** The shell guard's hook: [internal/api/hooks_handler.go].  Each Bash command
    an agent is about to run is vetted by the protected-path guard, the
    metacharacter scanners and the approval manager.

    The manager is an interface ([approvalRequester]); the HTTP framing is left
    out. *)

From Stdlib Require Import Ascii String.
From stdpp Require Import gmap strings.
From S2P Require Import Prelude GoStrings GoJson GoFilepath Cron Shellmeta ApprovalPolicy Cmdguard.

#[local] Open Scope string_scope.
#[local] Open Scope list_scope.

Record Workspace := { w_ID : string; w_Name : string; w_RootPath : string }.

(** [approvalRequester]: the verdict or the error's text, with the row as the
    manager leaves it. *)
Record approvalRequester := {
  ar_RequestApproval : ToolApproval -> (bool + string) * ToolApproval;
  ar_HasAllowMetacharsMatch : ToolApproval -> bool }.

Record hooksHandler := {
  approvalMgr : approvalRequester;
  workspaces : option (option (list Workspace));      (* not wired; the lookup fails *)
  dangerousMode : bool;
  shellGuardAllowChaining : option bool }.            (* the accessor's answer *)

Record PreToolHookRequest := {
  pt_SessionID : string; pt_ToolName : string; pt_ToolInput : string; pt_CWD : string }.

(** [Proceed] is the empty response. *)
Inductive PreToolHookResponse := Proceed | Block (reason : string).

Record AuditRow := { au_Status : string; au_Tool : string; au_Error : string; au_WorkspaceID : string }.

Definition hookPretoolTimeoutSec : Z := 60.

(** The longest root that holds the directory; the first of equally long ones. *)
Definition root_holds (cleanCwd : string) (w : Workspace) : bool :=
  negb (bool_decide (w_RootPath w = "")) &&
  (bool_decide (cleanCwd = Clean (w_RootPath w)) || HasPrefix cleanCwd (Clean (w_RootPath w) +:+ "/")).

Fixpoint best_root (cleanCwd : string) (bestLen : Z) (best : string * string) (l : list Workspace)
    : string * string :=
  match l with
  | [] => best
  | w :: l' =>
      let n := Z.of_nat (String.length (Clean (w_RootPath w))) in
      if root_holds cleanCwd w && (bestLen <? n)%Z then best_root cleanCwd n (w_ID w, w_Name w) l'
      else best_root cleanCwd bestLen best l'
  end.

Definition resolveWorkspaceFromCWD (h : hooksHandler) (cwd : string) : string * string :=
  if bool_decide (cwd = "") then ("", "")
  else match workspaces h with
       | Some (Some l) => best_root (Clean cwd) (-1) ("", "") l
       | _ => ("", "")
       end.

Definition resolverAllowsMetachars (h : hooksHandler) (a : ToolApproval) : bool :=
  ar_HasAllowMetacharsMatch (approvalMgr h) a.

Definition chainingAllowed (h : hooksHandler) : bool := default true (shellGuardAllowChaining h).

Definition dangerousModeProtectedPath (fullCmd exe : string) (rest : list string) : option cmd_error :=
  match ValidateLocalBashLine fullCmd with
  | Some e => Some e
  | None => ValidateLocalBashExec exe rest
  end.

(** (fullCmd, exe, rest, description); [None] is [ok = false]. *)
Definition extractBashCommand (raw : string) : option (string * string * list string * string) :=
  if bool_decide (raw = "") then None
  else match json_parse raw with
       | Some (JObj l) =>
           match struct_string l "command", struct_string l "description" with
           | Some command, Some description =>
               let trimmed := TrimSpace command in
               if bool_decide (trimmed = "") then None
               else match Fields trimmed with
                    | [] => None
                    | exe :: rest => Some (trimmed, exe, rest, description)
                    end
           | _, _ => None
           end
       | _ => None                 (* null leaves the command empty *)
       end.

Definition buildShellApproval (req : PreToolHookRequest) (fullCmd exe description wsID wsName : string)
    : ToolApproval := {|
  ID := ""; Status := ""; RequestSessionID := pt_SessionID req; RequestClientType := "claude_code";
  RequestModel := ""; WorkspaceID := wsID; WorkspaceName := wsName;
  ToolName := "shell:" +:+ ToLower (Base exe);
  Arguments := marshal_string_map [("command", fullCmd); ("cwd", pt_CWD req)];
  Justification := description; RouteRuleID := ""; DownstreamServerID := ""; AuthScopeID := "";
  ApproverSessionID := ""; ApproverType := ""; Resolution := ""; TimeoutSec := hookPretoolTimeoutSec;
  Surface := "shell"; OriginatingWorkspace := ""; Kind := ""; Summary := ""; CreatedAt := 0;
  ResolvedAt := None |}.

Definition cmd_message (e : cmd_error) : string :=
  match e with
  | CmdProtected c frag => "bash command references mcplexer protected path " +:+ frag
  | CmdProtectedArg a frag => "bash command argument references mcplexer protected path " +:+ frag
  | _ => "refused"
  end.

Definition recordPretoolAudit (h : hooksHandler) (req : PreToolHookRequest) (exe status errMsg : string) : AuditRow :=
  {| au_Status := status;
     au_Tool := if bool_decide (exe = "") then "shell:unknown" else "shell:" +:+ ToLower (Base exe);
     au_Error := errMsg; au_WorkspaceID := fst (resolveWorkspaceFromCWD h (pt_CWD req)) |}.

(** The response and the audit rows. *)
Definition pretool (h : hooksHandler) (req : PreToolHookRequest) : PreToolHookResponse * list AuditRow :=
  let block exe status reason := (Block reason, [recordPretoolAudit h req exe status reason]) in
  if negb (bool_decide (pt_ToolName req = "Bash")) then (Proceed, [])
  else
    match extractBashCommand (pt_ToolInput req) with
    | None => block "" "blocked" "missing or invalid Bash command"
    | Some (fullCmd, exe, rest, description) =>
        if dangerousMode h then
          match dangerousModeProtectedPath fullCmd exe rest with
          | Some e => block exe "blocked" (cmd_message e +:+ " (protected paths stay blocked in dangerous mode)")
          | None => (Proceed, [recordPretoolAudit h req exe "dangerous-mode bypass" ""])
          end
        else
          let '(wsID, wsName) := resolveWorkspaceFromCWD h (pt_CWD req) in
          let a := buildShellApproval req fullCmd exe description wsID wsName in
          match ValidateLocalBashLine fullCmd with
          | Some e => block exe "blocked" (cmd_message e)
          | None =>
          match ValidateLocalBashExec exe rest with
          | Some e => block exe "blocked" (cmd_message e)
          | None =>
              let allowMetachars := chainingAllowed h || resolverAllowsMetachars h a in
              match (if allowMetachars then None else ContainsUnquotedMetachar fullCmd) with
              | Some c => block exe "blocked" ("shell command contains metacharacter " +:+ String c "")
              | None =>
                  let sub := if allowMetachars then "" else FindUnquotedSubstitution fullCmd in
                  if negb (bool_decide (sub = "")) then
                    block exe "blocked" ("shell command contains substitution " +:+ sub)
                  else
                    match ar_RequestApproval (approvalMgr h) a with
                    | (inr err, _) => block exe "error" ("approval failed: " +:+ err)
                    | (inl true, _) => (Proceed, [recordPretoolAudit h req exe "success" ""])
                    | (inl false, a') =>
                        block exe "blocked"
                          (if bool_decide (Resolution a' = "") then Status a' else Resolution a')
                    end
              end
          end
          end
    end.

(** ** When a command may run *)

Definition row_for (h : hooksHandler) (req : PreToolHookRequest) (fullCmd exe description : string) : ToolApproval :=
  let '(id, name) := resolveWorkspaceFromCWD h (pt_CWD req) in
  buildShellApproval req fullCmd exe description id name.

(** What the guards before the approval manager demand. *)
Definition unguarded (h : hooksHandler) (a : ToolApproval) (fullCmd exe : string) (rest : list string) : Prop :=
  ValidateLocalBashLine fullCmd = None /\ ValidateLocalBashExec exe rest = None /\
  (dangerousMode h = true \/
   ((chainingAllowed h = true \/ resolverAllowsMetachars h a = true \/
     (ContainsUnquotedMetachar fullCmd = None /\ FindUnquotedSubstitution fullCmd = "")) /\
    fst (ar_RequestApproval (approvalMgr h) a) = inl true)).

Lemma pretool_decides h req : pt_ToolName req = "Bash" ->
  fst (pretool h req) = Proceed <->
  exists fullCmd exe rest d, extractBashCommand (pt_ToolInput req) = Some (fullCmd, exe, rest, d) /\
    unguarded h (row_for h req fullCmd exe d) fullCmd exe rest.
Proof.
  intros Ht. unfold pretool. rewrite Ht, bool_decide_eq_true_2 by done. cbn [negb].
  destruct (extractBashCommand (pt_ToolInput req)) as [[[[fullCmd exe] rest] d]|]; [|naive_solver].
  assert (forall P : Prop, (exists f e r d', Some (fullCmd, exe, rest, d) = Some (f, e, r, d') /\
    unguarded h (row_for h req f e d') f e r) <-> unguarded h (row_for h req fullCmd exe d) fullCmd exe rest) as Heq
    by (intros _; naive_solver).
  rewrite (Heq True). clear Heq. unfold unguarded, row_for, dangerousModeProtectedPath.
  destruct (dangerousMode h).
  { destruct (ValidateLocalBashLine fullCmd); [naive_solver|].
    destruct (ValidateLocalBashExec exe rest); naive_solver. }
  destruct (resolveWorkspaceFromCWD h (pt_CWD req)) as [wsID wsName].
  destruct (ValidateLocalBashLine fullCmd); [naive_solver|].
  destruct (ValidateLocalBashExec exe rest); [naive_solver|].
  set (a := buildShellApproval req fullCmd exe d wsID wsName).
  destruct (chainingAllowed h || resolverAllowsMetachars h a) eqn:Hm; cbn [negb].
  - rewrite bool_decide_eq_true_2 by done. cbn [negb].
    apply orb_true_iff in Hm.
    destruct (ar_RequestApproval (approvalMgr h) a) as [[[]|err] a'] eqn:Hr; cbn [fst]; naive_solver.
  - apply orb_false_iff in Hm as [Hc Hr]. rewrite Hc, Hr.
    destruct (ContainsUnquotedMetachar fullCmd); [naive_solver|].
    case_bool_decide; cbn [negb]; [|naive_solver].
    destruct (ar_RequestApproval (approvalMgr h) a) as [[[]|err] a'] eqn:Hq; cbn [fst]; naive_solver.
Qed.

(** a shell command runs exactly when the protected-path guard passes both
    its line and its words and either dangerous mode is on, or the manager
    approved the row built from it and chaining is allowed, a rule opts it in,
    or the scanners find nothing. *)
Theorem pretool_proceeds h req : pt_ToolName req = "Bash" ->
  fst (pretool h req) = Proceed <->
  exists fullCmd exe rest d, extractBashCommand (pt_ToolInput req) = Some (fullCmd, exe, rest, d) /\
    unguarded h (row_for h req fullCmd exe d) fullCmd exe rest.
Proof. apply pretool_decides. Qed.

(** the protected paths are off limits in every mode.  Whatever the settings
    and whatever the approval manager answers, dangerous mode included, a
    command that may run is never one a shell reads as mentioning a protected
    path (line continuations aside). *)
Theorem protected_path_never_runs h req fullCmd exe rest d text frag :
  pt_ToolName req = "Bash" -> fst (pretool h req) = Proceed ->
  extractBashCommand (pt_ToolInput req) = Some (fullCmd, exe, rest, d) ->
  shell_reads false fullCmd text -> frag ∈ protectedMcplexerPathFragments ->
  Contains text frag = false.
Proof.
  intros Ht Hp He Hr Hf. apply pretool_decides in Hp as (f & e & r & d' & He' & Hl & _); [|done].
  rewrite He in He'. injection He' as <- <- <- <-.
  destruct (Contains text frag) eqn:Hc; [|done].
  destruct (line_refused fullCmd text frag Hr Hf Hc) as [x Hx]. congruence.
Qed.

(** ** The workspace of a command *)

Lemma best_root_spec cwd l bestLen best :
  (best_root cwd bestLen best l = best /\
   forall w, w ∈ l -> root_holds cwd w = true -> (Z.of_nat (String.length (Clean (w_RootPath w))) <= bestLen)%Z) \/
  exists w, w ∈ l /\ root_holds cwd w = true /\ best_root cwd bestLen best l = (w_ID w, w_Name w) /\
    (bestLen < Z.of_nat (String.length (Clean (w_RootPath w))))%Z /\
    forall v, v ∈ l -> root_holds cwd v = true ->
      (String.length (Clean (w_RootPath v)) <= String.length (Clean (w_RootPath w)))%nat.
Proof.
  revert bestLen best. induction l as [|w l IH]; intros bestLen best; cbn [best_root].
  { left. split; [done|]. intros w Hw. by apply not_elem_of_nil in Hw. }
  set (n := Z.of_nat (String.length (Clean (w_RootPath w)))).
  destruct (root_holds cwd w && (bestLen <? n)%Z) eqn:Hw.
  - apply andb_true_iff in Hw as [Hh Hlt%Z.ltb_lt]. right.
    destruct (IH n (w_ID w, w_Name w)) as [[-> Hall]|(v & Hv & Hvh & -> & Hvn & Hall)].
    + exists w. split; [by left|]. split; [done|]. split; [done|]. split; [done|].
      intros v [->|Hv]%elem_of_cons Hvh; [done|]. specialize (Hall v Hv Hvh). lia.
    + exists v. split; [by right|]. split; [done|]. split; [done|]. split; [lia|].
      intros u [->|Hu]%elem_of_cons Huh; [lia|by apply Hall].
  - destruct (IH bestLen best) as [[-> Hall]|(v & Hv & Hvh & -> & Hvn & Hall)].
    + left. split; [done|]. intros v [->|Hv]%elem_of_cons Hvh; [|by apply Hall].
      rewrite Hvh in Hw. simpl in Hw. apply Z.ltb_ge in Hw. done.
    + right. exists v. split; [by right|]. split; [done|]. split; [done|]. split; [done|].
      intros u [->|Hu]%elem_of_cons Huh; [|by apply Hall].
      rewrite Huh in Hw. simpl in Hw. apply Z.ltb_ge in Hw. lia.
Qed.

(** The command's row is tagged with a workspace whose root holds the working
    directory, the longest such root; with none when no root holds it. *)
Theorem resolveWorkspace_longest h cwd l : workspaces h = Some (Some l) -> cwd <> "" ->
  (resolveWorkspaceFromCWD h cwd = ("", "") /\ forall w, w ∈ l -> root_holds (Clean cwd) w = false) \/
  exists w, w ∈ l /\ root_holds (Clean cwd) w = true /\ resolveWorkspaceFromCWD h cwd = (w_ID w, w_Name w) /\
    forall v, v ∈ l -> root_holds (Clean cwd) v = true ->
      (String.length (Clean (w_RootPath v)) <= String.length (Clean (w_RootPath w)))%nat.
Proof.
  intros Hw Hc. unfold resolveWorkspaceFromCWD. rewrite bool_decide_eq_false_2, Hw by done.
  destruct (best_root_spec (Clean cwd) l (-1) ("", "")) as [[-> Hall]|(w & Hin & Hh & -> & _ & Hall)].
  - left. split; [done|]. intros w Hin. destruct (root_holds (Clean cwd) w) eqn:Hh; [|done].
    specialize (Hall w Hin Hh). lia.
  - right. by exists w.
Qed.

(** Every decision on a Bash call leaves one audit row, whose status says
    whether the command was let through. *)
Theorem pretool_audited h req : pt_ToolName req = "Bash" ->
  exists row, snd (pretool h req) = [row] /\
    (fst (pretool h req) = Proceed <-> au_Status row ∈ ["success"; "dangerous-mode bypass"]).
Proof.
  intros Ht. unfold pretool. rewrite Ht, bool_decide_eq_true_2 by done. cbn [negb].
  assert (forall reason row, au_Status row ∈ ["blocked"; "error"] ->
    (Block reason = Proceed <-> au_Status row ∈ ["success"; "dangerous-mode bypass"])) as Hb.
  { intros reason row Hr. split; [done|]. intros Hs. rewrite !elem_of_cons, elem_of_nil in Hr, Hs.
    destruct Hr as [Hr|[Hr|[]]]; rewrite Hr in Hs; by destruct Hs as [|[|[]]]. }
  repeat (first [case_match; subst|case_bool_decide]);
    (eexists; split; [reflexivity|]); cbn [fst];
    first [apply Hb; cbn; set_solver|split; [intros _; cbn; set_solver|done]].
Qed.

(** ** Examples and witnesses *)

#[local] Abbreviation dq := (String (ascii_of_N 34) "").

(** A manager that approves git. *)
Definition git_manager : approvalRequester := {|
  ar_RequestApproval a := (inl (bool_decide (ToolName a = "shell:git")), a);
  ar_HasAllowMetacharsMatch _ := false |}.

Definition sample_hook (dangerous : bool) (chaining : option bool) : hooksHandler := {|
  approvalMgr := git_manager;
  workspaces := Some (Some [{| w_ID := "p"; w_Name := "parent"; w_RootPath := "/srv/" |};
                            {| w_ID := "c"; w_Name := "child"; w_RootPath := "/srv//app" |};
                            {| w_ID := "x"; w_Name := "sibling"; w_RootPath := "/srv/ap" |}]);
  dangerousMode := dangerous; shellGuardAllowChaining := chaining |}.

Definition bash_call (command : string) : PreToolHookRequest := {|
  pt_SessionID := "s1"; pt_ToolName := "Bash";
  pt_ToolInput := "{" +:+ dq +:+ "command" +:+ dq +:+ ": " +:+ json_quote command +:+ "}";
  pt_CWD := "/srv/app/cmd" |}.

Example hook_samples :
  map (fun c => fst (pretool (sample_hook false (Some false)) (bash_call c)))
    ["git status"; "ls"; "git log | cat"; "cat ~/.ss\h/id"; " "] =
  [Proceed; Block ""; Block "shell command contains metacharacter |";
   Block "bash command references mcplexer protected path .ssh"; Block "missing or invalid Bash command"] /\
  map (fun c => fst (pretool (sample_hook true None) (bash_call c))) ["rm x; ls"; "ls ~/.kube"] =
  [Proceed; Block "bash command references mcplexer protected path .kube (protected paths stay blocked in dangerous mode)"] /\
  resolveWorkspaceFromCWD (sample_hook false None) "/srv/app/cmd" = ("c", "child").
Proof. vm_compute. done. Qed.

(** The row's arguments give the policy back the hook's directory. *)
Example cwd_survives :
  extractCWD (Arguments (row_for (sample_hook false None) (bash_call ("a " +:+ dq +:+ "<b>\" +:+ dq)) "x" "y" "")) =
  "/srv/app/cmd".
Proof. vm_compute. reflexivity. Qed.

Example pretool_proceeds_witness :
  fst (pretool (sample_hook false None) (bash_call "git diff; git log")) = Proceed <->
  exists fullCmd exe rest d,
    extractBashCommand (pt_ToolInput (bash_call "git diff; git log")) = Some (fullCmd, exe, rest, d) /\
    unguarded (sample_hook false None) (row_for (sample_hook false None) (bash_call "git diff; git log") fullCmd exe d)
      fullCmd exe rest.
Proof. apply (pretool_proceeds (sample_hook false None) (bash_call "git diff; git log")). reflexivity. Defined.

Example protected_path_never_runs_witness : Contains "cat notes" ".ssh" = false.
Proof.
  apply (protected_path_never_runs (sample_hook true None) (bash_call "cat no\tes") "cat no\tes" "cat" ["no\tes"] "").
  - reflexivity.
  - vm_compute. reflexivity.
  - vm_compute. reflexivity.
  - do 6 (apply sr_char; [done..|]). apply sr_escape; [done|]. do 2 (apply sr_char; [done..|]). apply sr_end.
  - unfold protectedMcplexerPathFragments. set_solver.
Defined.
