(* ===== verification/PairingLimit.v ===== *)
(** The rate limiter of pairing codes: [internal/p2p/pairing_ratelimit.go].
    Times and durations are nanoseconds; an absent peer has the zero counter. *)

From Stdlib Require Import String ZArith.
From stdpp Require Import gmap strings list.
From S2P Require Import Prelude.

#[local] Open Scope Z_scope.
#[local] Open Scope list_scope.

Definition minute : Z := 60 * 1000000000.

Record peerAttemptCounter := {
  hits : list Z;
  lockoutHits : list Z;
  lockedUntil : option Z }.              (* [None] is the zero time *)

Definition no_attempts : peerAttemptCounter := {| hits := []; lockoutHits := []; lockedUntil := None |}.

Record pairingRateLimiter := {
  perPeer : gmap string peerAttemptCounter;
  globalHits : list Z }.

Definition newPairingRateLimiter : pairingRateLimiter := {| perPeer := ∅; globalHits := [] |}.

(** The limits [newPairingRateLimiter] sets. *)
Definition perPeerMax : nat := 8.
Definition globalMax : nat := 60.
Definition window : Z := minute.
Definition lockoutAfter : nat := 20.
Definition lockoutWindow : Z := 30 * minute.
Definition maxPairingRateLimitPeers : nat := 4096.

(** Entries strictly after the cutoff. *)
Definition trimTimes (ts : list Z) (cutoff : Z) : list Z := filter (fun t => cutoff < t) ts.

Definition locked (pc : peerAttemptCounter) (now : Z) : bool :=
  match lockedUntil pc with Some u => now <? u | None => false end.

(** One entry of [prunePeersLocked]: [None] is deleted. *)
Definition prune_entry (cutoff lockoutCutoff now : Z) (pc : peerAttemptCounter) : option peerAttemptCounter :=
  if locked pc now then Some pc
  else
    let h := trimTimes (hits pc) cutoff in
    let lh := trimTimes (lockoutHits pc) lockoutCutoff in
    match h, lh with
    | [], [] => None
    | _, _ => Some {| hits := h; lockoutHits := lh; lockedUntil := lockedUntil pc |}
    end.

Definition prunePeersLocked (cutoff lockoutCutoff now : Z) (m : gmap string peerAttemptCounter) :=
  omap (prune_entry cutoff lockoutCutoff now) m.

(** The closure of [allow]. *)
Definition countLockout (now : Z) (pc : peerAttemptCounter) : peerAttemptCounter :=
  let lh := trimTimes (lockoutHits pc) (now - lockoutWindow) ++ [now] in
  {| hits := hits pc; lockoutHits := lh;
     lockedUntil := if (lockoutAfter <=? List.length lh)%nat then Some (now + lockoutWindow) else lockedUntil pc |}.

Definition with_hits (h : list Z) (pc : peerAttemptCounter) : peerAttemptCounter :=
  {| hits := h; lockoutHits := lockoutHits pc; lockedUntil := lockedUntil pc |}.

Definition allow (peerID : string) (now : Z) (l : pairingRateLimiter) : bool * pairingRateLimiter :=
  let cutoff := now - window in
  let lockoutCutoff := now - lockoutWindow in
  let global := trimTimes (globalHits l) cutoff in
  let peers := if (maxPairingRateLimitPeers <? size (perPeer l))%nat
               then prunePeersLocked cutoff lockoutCutoff now (perPeer l) else perPeer l in
  let pc := default no_attempts (peers !! peerID) in
  let put pc g := {| perPeer := <[peerID := pc]> peers; globalHits := g |} in
  if locked pc now then (false, put (countLockout now pc) global)
  else if (globalMax <=? List.length global)%nat then (false, put pc global)
  else
    let pc := with_hits (trimTimes (hits pc) cutoff) pc in
    if (perPeerMax <=? List.length (hits pc))%nat then (false, put (countLockout now pc) global)
    else (true, put (countLockout now (with_hits (hits pc ++ [now]) pc)) (global ++ [now])).

(** ** Runs: attempts in order, and the ones let through *)

Fixpoint run (events : list (string * Z)) (l : pairingRateLimiter) : list (string * Z * bool) * pairingRateLimiter :=
  match events with
  | [] => ([], l)
  | (p, now) :: events' =>
      let '(ok, l') := allow p now l in
      let '(out, l'') := run events' l' in ((p, now, ok) :: out, l'')
  end.

Definition passed (out : list (string * Z * bool)) : list (string * Z) :=
  map fst (filter (fun x => snd x = true) out).

Definition in_order (events : list (string * Z)) : Prop := Sorted Z.le (map snd events).

(** Times of a peer's attempts. *)
Definition times_of (p : string) (h : list (string * Z)) : list Z := map snd (filter (fun x => fst x = p) h).

(** Attempts in the half-open window that ends at [t]. *)
Definition in_window (w t : Z) (ts : list Z) : nat := List.length (filter (fun u => t - w < u <= t) ts).

(** ** What the counters remember *)

Lemma trim_trim ts c c' : c <= c' -> trimTimes (trimTimes ts c) c' = trimTimes ts c'.
Proof.
  intros Hc. unfold trimTimes. rewrite list_filter_filter. apply list_filter_iff.
  intros t. split; [naive_solver|]. intros; split; lia.
Qed.

Lemma trim_app a b c : trimTimes (a ++ b) c = trimTimes a c ++ trimTimes b c.
Proof. apply filter_app. Qed.

Definition peer_of (l : pairingRateLimiter) (p : string) : peerAttemptCounter :=
  default no_attempts (perPeer l !! p).

(** [h] holds the attempts let through so far, the last at [T] at the latest. *)
Record remembers (h : list (string * Z)) (T : Z) (l : pairingRateLimiter) : Prop := {
  rem_past : Forall (fun x => snd x <= T) h;
  rem_peer p : trimTimes (hits (peer_of l p)) (T - window) = trimTimes (times_of p h) (T - window);
  rem_global : trimTimes (globalHits l) (T - window) = trimTimes (map snd h) (T - window) }.

Lemma prune_hits now m p :
  trimTimes (hits (default no_attempts (prunePeersLocked (now - window) (now - lockoutWindow) now m !! p))) (now - window) =
  trimTimes (hits (default no_attempts (m !! p))) (now - window).
Proof.
  unfold prunePeersLocked. rewrite lookup_omap. destruct (m !! p) as [pc|]; [|done]. simpl.
  unfold prune_entry. destruct (locked pc now); [done|].
  destruct (trimTimes (hits pc) (now - window)) as [|t ts] eqn:Hh; [destruct (trimTimes (lockoutHits pc) _)|]; simpl.
  - done.
  - done.
  - rewrite <- Hh. by apply trim_trim.
Qed.

Lemma remembers_later h T T' l : T <= T' -> remembers h T l -> remembers h T' l.
Proof.
  intros HT [Hp Hpeer Hg]. split.
  - eapply Forall_impl; [exact Hp|]. simpl. lia.
  - intros p. rewrite <- (trim_trim (hits _) (T - window)), <- (trim_trim (times_of p h) (T - window)) by lia.
    by rewrite Hpeer.
  - rewrite <- (trim_trim (globalHits l) (T - window)), <- (trim_trim (map snd h) (T - window)) by lia. by rewrite Hg.
Qed.

Definition pruned (now : Z) (l : pairingRateLimiter) : gmap string peerAttemptCounter :=
  if (maxPairingRateLimitPeers <? size (perPeer l))%nat
  then prunePeersLocked (now - window) (now - lockoutWindow) now (perPeer l) else perPeer l.

Lemma remembers_peers h now l p : remembers h now l ->
  trimTimes (hits (default no_attempts (pruned now l !! p))) (now - window) = trimTimes (times_of p h) (now - window).
Proof.
  intros [_ Hpeer _]. rewrite <- Hpeer. unfold pruned, peer_of.
  destruct (maxPairingRateLimitPeers <? _)%nat; [apply prune_hits|done].
Qed.

Lemma times_of_app p a b : times_of p (a ++ b) = times_of p a ++ times_of p b.
Proof. unfold times_of. by rewrite filter_app, map_app. Qed.

(** A step, as the history sees it. *)
Lemma allow_step h now l p : remembers h now l ->
  let '(ok, l') := allow p now l in
  remembers (if ok then h ++ [(p, now)] else h) now l' /\
  (ok = true -> (List.length (trimTimes (times_of p h) (now - window)) < perPeerMax)%nat /\
                (List.length (trimTimes (map snd h) (now - window)) < globalMax)%nat).
Proof.
  intros Hr. unfold allow. fold (pruned now l).
  pose proof (remembers_peers h now l) as Hpeers.
  assert (forall pc g h', Forall (fun x => snd x <= now) h' ->
    trimTimes (hits pc) (now - window) = trimTimes (times_of p h') (now - window) ->
    (forall q, q <> p -> times_of q h' = times_of q h) ->
    trimTimes g (now - window) = trimTimes (map snd h') (now - window) ->
    remembers h' now {| perPeer := <[p:=pc]> (pruned now l); globalHits := g |}) as Hput.
  { intros pc g h' Hp Hh Hq Hg. split; [done| |done]. intros q. unfold peer_of. cbn [perPeer].
    destruct (decide (q = p)) as [->|Hn]; [by rewrite lookup_insert_eq|].
    rewrite lookup_insert_ne by done. rewrite Hq by done. by apply Hpeers. }
  set (pc := default no_attempts (pruned now l !! p)).
  assert (trimTimes (trimTimes (globalHits l) (now - window)) (now - window) =
          trimTimes (map snd h) (now - window)) as Hg by (rewrite trim_trim by lia; apply Hr).
  specialize (Hpeers p Hr). fold pc in Hpeers.
  destruct (locked pc now).
  { split; [|done]. apply Hput; [apply Hr|exact Hpeers|done|exact Hg]. }
  destruct (Nat.leb_spec globalMax (List.length (trimTimes (globalHits l) (now - window)))) as [|Hgl].
  { split; [|done]. apply Hput; [apply Hr|exact Hpeers|done|exact Hg]. }
  cbn [hits with_hits].
  destruct (Nat.leb_spec perPeerMax (List.length (trimTimes (hits pc) (now - window)))) as [|Hpl].
  { split; [|done]. apply Hput; [apply Hr| |done|exact Hg]. cbn [hits countLockout with_hits]. rewrite trim_trim by lia. exact Hpeers. }
  split.
  - apply Hput.
    + apply Forall_app. split; [apply Hr|]. by repeat constructor.
    + cbn [hits countLockout with_hits]. rewrite trim_app, trim_trim by lia. rewrite Hpeers.
      rewrite times_of_app, trim_app. f_equal. unfold times_of. by rewrite filter_cons_True.
    + intros q Hq. rewrite times_of_app. unfold times_of at 2. rewrite filter_cons_False by (simpl; congruence).
      apply app_nil_r.
    + rewrite trim_app, trim_trim by lia. rewrite (rem_global _ _ _ Hr). by rewrite map_app, trim_app.
  - intros _. rewrite <- Hpeers. split; [done|]. rewrite <- (rem_global _ _ _ Hr). done.
Qed.

(** ** The rate bound *)

Lemma filter_length_le {A} (P Q : A -> Prop) `{forall x, Decision (P x)} `{forall x, Decision (Q x)} l :
  (forall x, P x -> Q x) -> (List.length (filter P l) <= List.length (filter Q l))%nat.
Proof.
  intros HPQ. induction l as [|x l IH]; [done|]. rewrite !filter_cons.
  destruct (decide (P x)), (decide (Q x)); simpl; try lia. naive_solver.
Qed.

Lemma window_add w now ts max t :
  (List.length (trimTimes ts (now - w)) < max)%nat -> (in_window w t ts <= max)%nat ->
  (in_window w t (ts ++ [now]) <= max)%nat.
Proof.
  intros Hlt Hle. unfold in_window. rewrite filter_app, length_app, filter_cons.
  destruct (decide (t - w < now <= t)) as [Hin|]; [|simpl; unfold in_window in Hle; lia].
  assert (List.length (filter (fun u => (t - w < u <= t)%Z) ts) <= List.length (trimTimes ts (now - w)))%nat.
  { apply filter_length_le. intros u Hu. lia. }
  simpl. lia.
Qed.

Definition bounded (h : list (string * Z)) : Prop :=
  (forall p t, in_window window t (times_of p h) <= perPeerMax)%nat /\
  (forall t, in_window window t (map snd h) <= globalMax)%nat.

Lemma bounded_step h now l p : remembers h now l -> bounded h ->
  bounded (if fst (allow p now l) then h ++ [(p, now)] else h).
Proof.
  intros Hr Hb. pose proof (allow_step h now l p Hr) as Hs.
  destruct (allow p now l) as [[] l']; [|done]. cbn [fst]. destruct Hs as [_ Hs]. destruct (Hs eq_refl) as [Hp Hg].
  split.
  - intros q t. rewrite times_of_app. unfold times_of at 2. rewrite filter_cons. simpl.
    destruct (decide (p = q)) as [->|].
    + apply window_add; [exact Hp|apply Hb].
    + simpl. rewrite app_nil_r. apply Hb.
  - intros t. rewrite map_app. apply window_add; [exact Hg|apply Hb].
Qed.

Lemma run_bounded events h T l : remembers h T l -> bounded h -> Sorted Z.le (T :: map snd events) ->
  bounded (h ++ passed (fst (run events l))).
Proof.
  revert h T l. induction events as [|[p now] events IH]; intros h T l Hr Hb Hs; cbn [run].
  { simpl. by rewrite app_nil_r. }
  cbn [map snd] in Hs. inversion Hs as [|? ? Hs' Hhd]; subst. inversion Hhd; subst.
  apply (remembers_later _ _ now) in Hr; [|done].
  pose proof (bounded_step h now l p Hr Hb) as Hb'. pose proof (allow_step h now l p Hr) as Ha.
  destruct (allow p now l) as [ok l'] eqn:Hal. cbn [fst] in Hb'. destruct Ha as [Hr' _].
  specialize (IH _ now l' Hr' Hb' Hs'). destruct (run events l') as [out l''] eqn:Hrun. cbn [fst] in *.
  destruct ok; [|exact IH]. by rewrite <- app_assoc in IH.
Qed.

Lemma remembers_new T : remembers [] T newPairingRateLimiter.
Proof. split; [constructor| |done]. intros p. unfold peer_of, newPairingRateLimiter. cbn. by rewrite lookup_empty. Qed.

(** whatever the attempts, in whatever order peers make them, no minute lets
    through more than eight of one peer or sixty of all peers. *)
Theorem pairing_rate_bounded events p t : in_order events ->
  let ok := passed (fst (run events newPairingRateLimiter)) in
  (in_window minute t (times_of p ok) <= 8)%nat /\ (in_window minute t (map snd ok) <= 60)%nat.
Proof.
  intros Hs. set (T := match events with [] => 0 | x :: _ => snd x end).
  assert (bounded []) as Hb by (split; intros; unfold in_window; simpl; lia).
  destruct (run_bounded events [] T newPairingRateLimiter (remembers_new T) Hb) as [Hp Hg].
  - constructor; [exact Hs|]. destruct events as [|x events]; constructor. simpl. lia.
  - split; [apply Hp|apply Hg].
Qed.

(** ** The lockout *)

Definition locked_until (p : string) (u : Z) (l : pairingRateLimiter) : Prop :=
  exists u', lockedUntil (peer_of l p) = Some u' /\ u <= u'.

Lemma pruned_locked now l p u : locked_until p u l -> now < u ->
  exists u', lockedUntil (default no_attempts (pruned now l !! p)) = Some u' /\ u <= u'.
Proof.
  intros (u' & Hu & Hle) Hlt. unfold pruned. destruct (_ <? _)%nat; [|by exists u'].
  unfold prunePeersLocked. rewrite lookup_omap. unfold peer_of in Hu. destruct (perPeer l !! p) as [pc|]; [|done].
  simpl in *. unfold prune_entry, locked. rewrite Hu. rewrite (proj2 (Z.ltb_lt now u')) by lia. by exists u'.
Qed.

Lemma countLockout_keeps now u pc : now < u -> (exists u', lockedUntil pc = Some u' /\ u <= u') ->
  exists u', lockedUntil (countLockout now pc) = Some u' /\ (u <= u' \/ now + lockoutWindow <= u').
Proof.
  intros Hlt (u' & Hu & Hle). unfold countLockout. cbn [lockedUntil].
  destruct (_ <=? _)%nat; eexists; (split; [reflexivity || exact Hu|lia]).
Qed.

Lemma allow_locked p q now u l : locked_until p u l -> now < u -> u <= now + lockoutWindow ->
  locked_until p u (snd (allow q now l)) /\ (q = p -> fst (allow q now l) = false).
Proof.
  intros Hl Hlt Hu. pose proof (pruned_locked now l p u Hl Hlt) as Hp. unfold allow. fold (pruned now l).
  set (pc := default no_attempts (pruned now l !! q)).
  assert (forall pc' g, (q = p -> exists u', lockedUntil pc' = Some u' /\ u <= u') ->
    locked_until p u {| perPeer := <[q:=pc']> (pruned now l); globalHits := g |}) as Hput.
  { intros pc' g H. unfold locked_until, peer_of. cbn [perPeer].
    destruct (decide (q = p)) as [->|Hn]; [rewrite lookup_insert_eq; by apply H|].
    rewrite lookup_insert_ne by done. exact Hp. }
  destruct (decide (q = p)) as [->|Hn].
  - fold pc in Hp. assert (locked pc now = true) as ->.
    { destruct Hp as (u' & Hu' & ?). unfold locked. rewrite Hu'. apply Z.ltb_lt. lia. }
    cbn [fst snd]. split; [|done]. apply Hput. intros _.
    destruct (countLockout_keeps now u pc Hlt Hp) as (u' & ? & ?). exists u'. split; [done|lia].
  - split; [|done]. destruct (locked pc now); [by apply Hput|].
    destruct (_ <=? _)%nat; [by apply Hput|]. destruct (_ <=? _)%nat; by apply Hput.
Qed.

Lemma run_locked p u events l : locked_until p u l ->
  Forall (fun e => snd e < u <= snd e + lockoutWindow) events ->
  Forall (fun x => fst (fst x) = p -> snd x = false) (fst (run events l)).
Proof.
  revert l. induction events as [|[q now] events IH]; intros l Hl He; [constructor|].
  apply Forall_cons in He as [[H1 H2] He]. cbn [run].
  destruct (allow_locked p q now u l Hl H1 H2) as [Hl' Hd].
  destruct (allow q now l) as [ok l'] eqn:Ha. cbn [fst snd] in *.
  specialize (IH l' Hl' He). destruct (run events l') as [out l'']. constructor; [exact Hd|exact IH].
Qed.

(** The peer's attempts of the last half hour that count toward the lockout. *)
Definition recent_attempts (p : string) (now : Z) (l : pairingRateLimiter) : nat :=
  List.length (trimTimes (lockoutHits (peer_of l p)) (now - lockoutWindow)).

Lemma prune_lockoutHits now l p :
  trimTimes (lockoutHits (default no_attempts (pruned now l !! p))) (now - lockoutWindow) =
  trimTimes (lockoutHits (peer_of l p)) (now - lockoutWindow).
Proof.
  unfold pruned, peer_of. destruct (_ <? _)%nat; [|done].
  unfold prunePeersLocked. rewrite lookup_omap. destruct (perPeer l !! p) as [pc|]; [|done]. simpl.
  unfold prune_entry. destruct (locked pc now); [done|].
  destruct (trimTimes (hits pc) (now - window)); [destruct (trimTimes (lockoutHits pc) _) eqn:Hh|]; simpl.
  - done.
  - rewrite <- Hh. by apply trim_trim.
  - by apply trim_trim.
Qed.

Lemma allow_engages p now l :
  (List.length (trimTimes (globalHits l) (now - window)) < globalMax)%nat ->
  (lockoutAfter <= S (recent_attempts p now l))%nat ->
  locked_until p (now + lockoutWindow) (snd (allow p now l)).
Proof.
  intros Hg Hn. unfold allow. fold (pruned now l). set (pc := default no_attempts (pruned now l !! p)).
  assert (forall pc' g, lockoutHits pc' = lockoutHits pc ->
    locked_until p (now + lockoutWindow) {| perPeer := <[p:=countLockout now pc']> (pruned now l); globalHits := g |}) as Hput.
  { intros pc' g Hpc. unfold locked_until, peer_of. cbn [perPeer]. rewrite lookup_insert_eq. exists (now + lockoutWindow). split; [|lia].
    change (lockedUntil (countLockout now pc') = Some (now + lockoutWindow)).
    unfold countLockout. cbn [lockedUntil].
    rewrite Hpc, length_app. unfold pc. rewrite prune_lockoutHits. fold (recent_attempts p now l).
    rewrite (proj2 (Nat.leb_le lockoutAfter _)); [done|]. simpl. lia. }
  destruct (locked pc now); [by apply Hput|].
  rewrite (proj2 (Nat.leb_gt _ _)) by exact Hg. destruct (_ <=? _)%nat; by apply Hput.
Qed.

(** the lockout.  The attempt that makes a peer's twentieth in half an hour
    shuts it out for the next half hour, whatever the other peers do meanwhile
    and whether or not the table is pruned - unless the global cap was reached,
    when attempts are not counted. *)
Theorem lockout_holds p now l events :
  (List.length (trimTimes (globalHits l) (now - window)) < globalMax)%nat ->
  (lockoutAfter <= S (recent_attempts p now l))%nat ->
  Forall (fun e => now <= snd e < now + lockoutWindow) events ->
  Forall (fun x => fst (fst x) = p -> snd x = false) (fst (run events (snd (allow p now l)))).
Proof.
  intros Hg Hn He. apply run_locked with (now + lockoutWindow); [by apply allow_engages|].
  eapply Forall_impl; [exact He|]. simpl. lia.
Qed.

(** ** Witnesses and a divergence *)

Definition attempts (p : string) (n : nat) (t : Z) : list (string * Z) := repeat (p, t) n.

Example pairing_rate_bounded_witness :
  let ok := passed (fst (run (attempts "a" 9 0 ++ attempts "b" 3 5 ++ attempts "a" 2 (minute + 1)) newPairingRateLimiter)) in
  List.length ok = 13%nat /\
  (in_window minute minute (times_of "a" ok) <= 8)%nat /\ (in_window minute minute (map snd ok) <= 60)%nat.
Proof.
  split; [vm_compute; reflexivity|].
  apply (pairing_rate_bounded (attempts "a" 9 0 ++ attempts "b" 3 5 ++ attempts "a" 2 (minute + 1)) "a" minute).
  unfold in_order. simpl.
  repeat first [apply Sorted_nil|apply Sorted_cons|apply HdRel_nil|apply HdRel_cons; vm_compute; congruence].
Defined.

Example lockout_holds_witness :
  let l := snd (run (attempts "a" 19 0) newPairingRateLimiter) in
  Forall (fun x => fst (fst x) = "a"%string -> snd x = false)
    (fst (run [("b"%string, 2 * minute); ("a"%string, 20 * minute)] (snd (allow "a" 7 l)))).
Proof.
  cbv zeta. apply (lockout_holds "a" 7 (snd (run (attempts "a" 19 0) newPairingRateLimiter))).
  - vm_compute. lia.
  - vm_compute. lia.
  - repeat constructor; vm_compute; congruence.
Defined.

(** An attempt refused for the global cap does not count toward the lockout. *)
Example global_refusal_not_counted :
  let flood := flat_map (fun p => attempts p 8 0) ["a"; "b"; "c"; "d"; "e"; "f"; "g"; "h"]%string in
  let l := snd (run (flood ++ attempts "x" 30 1) newPairingRateLimiter) in
  recent_attempts "x" 1 l = 0%nat /\ lockedUntil (peer_of l "x") = None.
Proof. vm_compute. done. Qed.
