(* ===== verification/Outbound.v ===== *)
(** The offline-delivery queue of the mesh: [internal/mesh/outbound_queue.go],
    [outbound_drain.go] and its table, [internal/store/sqlite/mesh_outbound.go].

    The queue's calls are steps that any number of goroutines interleave: a
    drain is one step per row, and what the transport and the store answer is
    part of the step.  Times are nanoseconds; the table keeps whole seconds. *)

From Stdlib Require Import String ZArith.
From stdpp Require Import gmap strings list sorting.
From S2P Require Import Prelude.

#[local] Open Scope string_scope.
#[local] Open Scope list_scope.
#[local] Open Scope Z_scope.

Definition outboundDefaultTTL : Z := 7 * 24 * 3600 * second.
Definition outboundMinBackoff : Z := 30 * second.
Definition outboundMaxBackoff : Z := 300 * second.
Definition outboundDeliveredRetention : Z := 24 * 3600 * second.
Definition outboundDrainBatchSize : nat := 64.
Definition listMeshOutboundCap : nat := 1000.

(** The envelope is its blob: [None] does not decode. *)
Record MeshOutbound := {
  MessageID : string; TargetPeerID : string; TargetAgentSessionID : string; Envelope : option string;
  Attempts : Z; LastError : string;
  EnqueuedAt : Z; NextAttemptAt : Z; DeliveredAt : option Z; ExpiresAt : Z }.   (* seconds *)

(** The table, in insertion order. *)
Abbreviation Table := (list MeshOutbound).

Definition EnqueueMeshOutbound (o : MeshOutbound) (t : Table) : Table :=
  if existsb (fun r => bool_decide (MessageID r = MessageID o)) t then t else t ++ [o].

Definition undelivered (r : MeshOutbound) : bool :=
  match DeliveredAt r with None => true | Some _ => false end.

Definition enqueued_first (a b : MeshOutbound) : bool := EnqueuedAt a <? EnqueuedAt b.
Definition next_first (a b : MeshOutbound) : bool :=
  if NextAttemptAt a =? NextAttemptAt b then EnqueuedAt a <? EnqueuedAt b
  else NextAttemptAt a <? NextAttemptAt b.

(** A row to try now. *)
Definition due (peer : string) (now : Z) (r : MeshOutbound) : bool :=
  bool_decide (TargetPeerID r = peer) && undelivered r &&
  (NextAttemptAt r <=? formatTime now) && (formatTime now <? ExpiresAt r).

Definition cap_limit (limit : Z) : nat :=
  if (limit <=? 0) || (Z.of_nat listMeshOutboundCap <? limit) then listMeshOutboundCap else Z.to_nat limit.

Definition ListDueMeshOutbound (peer : string) (now limit : Z) (t : Table) : list MeshOutbound :=
  if bool_decide (peer = "") then []
  else take (cap_limit limit) (SliceStable enqueued_first (List.filter (due peer now) t)).

Definition update_row (id : string) (f : MeshOutbound -> MeshOutbound) (t : Table) : Table :=
  map (fun r => if bool_decide (MessageID r = id) && undelivered r then f r else r) t.

Definition MarkMeshOutboundDelivered (id : string) (now : Z) : Table -> Table :=
  update_row id (fun r =>
    {| MessageID := MessageID r; TargetPeerID := TargetPeerID r; TargetAgentSessionID := TargetAgentSessionID r;
       Envelope := Envelope r; Attempts := Attempts r; LastError := LastError r; EnqueuedAt := EnqueuedAt r;
       NextAttemptAt := NextAttemptAt r; DeliveredAt := Some (formatTime now); ExpiresAt := ExpiresAt r |}).

Definition BumpMeshOutboundAttempt (id lastErr : string) (next : Z) : Table -> Table :=
  update_row id (fun r =>
    {| MessageID := MessageID r; TargetPeerID := TargetPeerID r; TargetAgentSessionID := TargetAgentSessionID r;
       Envelope := Envelope r; Attempts := Attempts r + 1; LastError := lastErr; EnqueuedAt := EnqueuedAt r;
       NextAttemptAt := formatTime next; DeliveredAt := DeliveredAt r; ExpiresAt := ExpiresAt r |}).

Definition ListPendingMeshOutbound (now limit : Z) (t : Table) : list MeshOutbound :=
  take (cap_limit limit)
    (SliceStable next_first (List.filter (fun r => undelivered r && (formatTime now <? ExpiresAt r)) t)).

Definition ListExpiredMeshOutbound (now limit : Z) (t : Table) : list MeshOutbound :=
  take (cap_limit limit)
    (SliceStable enqueued_first (List.filter (fun r => undelivered r && (ExpiresAt r <? formatTime now)) t)).

Definition stale (deliveredBefore expiredBefore : Z) (r : MeshOutbound) : bool :=
  match DeliveredAt r with
  | Some d => d <? formatTime deliveredBefore
  | None => ExpiresAt r <? formatTime expiredBefore
  end.

Definition PruneMeshOutbound (deliveredBefore expiredBefore : Z) (t : Table) : Table :=
  List.filter (fun r => negb (stale deliveredBefore expiredBefore r)) t.

(** ** outbound_queue.go *)

Definition parked_row (now : Z) (targetPeerID session id blob dispatchErr : string) : MeshOutbound :=
  {| MessageID := id; TargetPeerID := targetPeerID; TargetAgentSessionID := session; Envelope := Some blob;
     Attempts := 1; LastError := dispatchErr; EnqueuedAt := formatTime now;
     NextAttemptAt := formatTime (now + outboundMinBackoff); DeliveredAt := None;
     ExpiresAt := formatTime (now + outboundDefaultTTL) |}.

(** [env] is the envelope's id and encoding; [None] is the refusal. *)
Definition Enqueue (now : Z) (targetPeerID session : string) (env : option (string * string)) (dispatchErr : string)
    (t : Table) : option Table :=
  match env with
  | None => None
  | Some (id, blob) =>
      if bool_decide (id = "") || bool_decide (targetPeerID = "") then None
      else Some (EnqueueMeshOutbound (parked_row now targetPeerID session id blob dispatchErr) t)
  end.

(** ** outbound_drain.go *)

(** The loop of [exponentialBackoff]: [n] doublings, stopping at the cap. *)
Fixpoint backoff_loop (n : nat) (d : Z) : Z :=
  match n with
  | O => d
  | S m => let d := d * 2 in if outboundMaxBackoff <=? d then outboundMaxBackoff else backoff_loop m d
  end.

Definition exponentialBackoff (attempt : Z) : Z :=
  let attempt := if attempt <? 1 then 1 else attempt in
  backoff_loop (Z.to_nat (attempt - 1)) outboundMinBackoff.

(** What one delivery meets: the send fails, or succeeds and its mark succeeds
    or fails; or the bump after a failed send, or a failed decoding, fails too. *)
Inductive delivery := SendFailed (err : string) | Delivered | MarkFailed | BumpFailed.

Definition deliverOne (now : Z) (d : delivery) (row : MeshOutbound) (t : Table) : Table :=
  match Envelope row with
  | None =>
      match d with
      | BumpFailed => t
      | _ => BumpMeshOutboundAttempt (MessageID row) "decode: " (now + outboundMaxBackoff) t
      end
  | Some _ =>
      match d with
      | SendFailed err => BumpMeshOutboundAttempt (MessageID row) err (now + exponentialBackoff (Attempts row + 1)) t
      | Delivered => MarkMeshOutboundDelivered (MessageID row) now t
      | MarkFailed | BumpFailed => t
      end
  end.

(** The sweep's choice of peers: each peer is judged by its first row. *)
Fixpoint sweep_loop (now : Z) (online : string -> bool) (seen : gset string) (rows : list MeshOutbound) : list string :=
  match rows with
  | [] => []
  | row :: rows' =>
      let p := TargetPeerID row in
      if bool_decide (p ∈ seen) then sweep_loop now online seen rows'
      else
        let rest := sweep_loop now online ({[p]} ∪ seen) rows' in
        if now <? NextAttemptAt row * second then rest
        else if online p then p :: rest else rest
  end.

Definition runSweep (now : Z) (online : string -> bool) (t : Table) : list string :=
  sweep_loop now online ∅ (ListPendingMeshOutbound now (Z.of_nat listMeshOutboundCap) t).

(** ** The queue as a state machine *)

(** [drainIn] holds, per peer with a drain in flight, the rows it still has to
    try; [enqueued] every row ever parked, [sent] the ids the transport took, in
    order, and [unmarked] those whose mark failed. *)
Record Queue := {
  table : Table; drainIn : gmap string (list MeshOutbound);
  clock : Z; enqueued : list MeshOutbound; sent : list string; unmarked : list string }.

Definition empty_queue : Queue :=
  {| table := []; drainIn := ∅; clock := 0; enqueued := []; sent := []; unmarked := [] |}.

Inductive qaction :=
| QEnqueue (id peer session blob err : string)
| QDrainBegin (peer : string)          (* beginDrain and the query *)
| QDrainNext (peer : string) (d : delivery)
| QDrainEnd (peer : string)            (* endDrain: done or cancelled *)
| QPrune.

(** A message id is parked once (ids are fresh ULIDs); a parked row is the one
    [Enqueue] adds. *)
Definition qstep (now : Z) (a : qaction) (s : Queue) : option Queue :=
  if now <? clock s then None
  else
    let put t d e n u := {| table := t; drainIn := d; clock := now; enqueued := e; sent := n; unmarked := u |} in
    match a with
    | QEnqueue id peer session blob err =>
        if existsb (fun r => bool_decide (MessageID r = id)) (enqueued s) then None
        else match Enqueue now peer session (Some (id, blob)) err (table s) with
             | None => None
             | Some t => Some (put t (drainIn s) (enqueued s ++ [parked_row now peer session id blob err]) (sent s) (unmarked s))
             end
    | QDrainBegin peer =>
        match drainIn s !! peer with
        | Some _ => None
        | None =>
            Some (put (table s)
              (<[peer := ListDueMeshOutbound peer now (Z.of_nat outboundDrainBatchSize) (table s)]> (drainIn s))
              (enqueued s) (sent s) (unmarked s))
        end
    | QDrainNext peer d =>
        match drainIn s !! peer with
        | Some (row :: rows) =>
            let ok := match Envelope row, d with Some _, (Delivered | MarkFailed) => true | _, _ => false end in
            let bad := match Envelope row, d with Some _, MarkFailed => true | _, _ => false end in
            Some (put (deliverOne now d row (table s)) (<[peer := rows]> (drainIn s)) (enqueued s)
              (if ok then sent s ++ [MessageID row] else sent s)
              (if bad then unmarked s ++ [MessageID row] else unmarked s))
        | _ => None
        end
    | QDrainEnd peer => Some (put (table s) (delete peer (drainIn s)) (enqueued s) (sent s) (unmarked s))
    | QPrune => Some (put (PruneMeshOutbound (now - outboundDeliveredRetention) now (table s)) (drainIn s)
                        (enqueued s) (sent s) (unmarked s))
    end.

Inductive qreach : Queue -> Prop :=
| qreach_init : qreach empty_queue
| qreach_step now a s s' : qreach s -> qstep now a s = Some s' -> qreach s'.

(** ** Backoff *)

Lemma backoff_loop_closed n d : 0 < d -> d <= outboundMaxBackoff ->
  backoff_loop n d = Z.min outboundMaxBackoff (d * 2 ^ Z.of_nat n).
Proof.
  revert d. induction n as [|n IH]; intros d Hd Hm; cbn [backoff_loop].
  { rewrite Z.mul_1_r. lia. }
  rewrite Nat2Z.inj_succ, Z.pow_succ_r by lia.
  destruct (Z.leb_spec outboundMaxBackoff (d * 2)) as [Hle|Hlt].
  - assert (1 <= 2 ^ Z.of_nat n) by (apply (Z.pow_le_mono_r 2 0); lia). nia.
  - rewrite IH by lia. f_equal. lia.
Qed.

(** ** Tables *)

(** The columns no update touches. *)
Definition core (r : MeshOutbound) := (MessageID r, TargetPeerID r, Envelope r, ExpiresAt r).

Lemma update_row_core id f t : (forall r, core (f r) = core r) -> map core (update_row id f t) = map core t.
Proof.
  intros Hf. unfold update_row. rewrite map_map. apply map_ext. intros r. by case_match.
Qed.

Definition keeps_core (g : Table -> Table) : Prop := forall t, map core (g t) = map core t.

Lemma mark_core id now : keeps_core (MarkMeshOutboundDelivered id now).
Proof. intros t. by apply update_row_core. Qed.

Lemma bump_core id e n : keeps_core (BumpMeshOutboundAttempt id e n).
Proof. intros t. by apply update_row_core. Qed.

Lemma deliverOne_core now d row : keeps_core (deliverOne now d row).
Proof.
  intros t. unfold deliverOne. destruct (Envelope row), d; (done || apply bump_core || apply mark_core).
Qed.

Lemma core_ids g t : keeps_core g -> map MessageID (g t) = map MessageID t.
Proof.
  intros Hg. specialize (Hg t). apply (f_equal (map (fun c => fst (fst (fst c))))) in Hg.
  by rewrite !map_map in Hg.
Qed.

Lemma core_elem g t r : keeps_core g -> r ∈ g t -> exists r0, r0 ∈ t /\ core r = core r0.
Proof.
  intros Hg Hr. assert (core r ∈ map core t) as Hc.
  { rewrite <- (Hg t). apply list_elem_of_In, in_map. by apply list_elem_of_In. }
  apply list_elem_of_In, in_map_iff in Hc as (r0 & Hr0 & Hin). exists r0. split; [by apply list_elem_of_In|done].
Qed.

Lemma core_elem_inv g t r0 : keeps_core g -> r0 ∈ t -> exists r, r ∈ g t /\ core r = core r0.
Proof.
  intros Hg Hr. assert (core r0 ∈ map core (g t)) as Hc.
  { rewrite (Hg t). apply list_elem_of_In, in_map. by apply list_elem_of_In. }
  apply list_elem_of_In, in_map_iff in Hc as (r & Hr0 & Hin). exists r. split; [by apply list_elem_of_In|done].
Qed.

(** Delivery stamps: a row is stamped only when its delivery was marked. *)
Lemma deliverOne_undelivered now d row t r : r ∈ deliverOne now d row t -> undelivered r = false ->
  (exists r0, r0 ∈ t /\ core r = core r0 /\ undelivered r0 = false) \/
  (MessageID r = MessageID row /\ Envelope row <> None /\ d = Delivered).
Proof.
  assert (forall id f, (forall x, core (f x) = core x) -> r ∈ update_row id f t ->
    r ∈ t \/ exists r0, r0 ∈ t /\ MessageID r0 = id /\ undelivered r0 = true /\ r = f r0) as Hup.
  { intros id f Hf Hr. unfold update_row in Hr. apply list_elem_of_In, in_map_iff in Hr as (r0 & <- & Hin).
    apply list_elem_of_In in Hin. destruct (bool_decide (MessageID r0 = id) && undelivered r0) eqn:Hc; [|by left].
    apply andb_true_iff in Hc as [Hc%bool_decide_eq_true Hu]. right. by exists r0. }
  intros Hr Hu. unfold deliverOne, BumpMeshOutboundAttempt, MarkMeshOutboundDelivered in Hr.
  destruct (Envelope row) as [blob|] eqn:He, d; try (left; by exists r);
    (apply Hup in Hr as [Hr|(r0 & Hin & Hid & Hu0 & ->)]; [left; by exists r| |done]);
    first [by right|change (undelivered r0 = false) in Hu; congruence].
Qed.

Lemma mark_stamps now id t r : r ∈ MarkMeshOutboundDelivered id now t -> MessageID r = id -> undelivered r = false.
Proof.
  unfold MarkMeshOutboundDelivered, update_row. intros Hr Hid.
  apply list_elem_of_In, in_map_iff in Hr as (r0 & <- & _).
  destruct (bool_decide (MessageID r0 = id) && undelivered r0) eqn:Hc; [done|].
  rewrite bool_decide_eq_true_2 in Hc by done. done.
Qed.

Lemma ListDue_elem peer now limit t r : r ∈ ListDueMeshOutbound peer now limit t -> r ∈ t /\ due peer now r = true.
Proof.
  unfold ListDueMeshOutbound. case_bool_decide; [intros Hr; by apply not_elem_of_nil in Hr|].
  intros Hr. apply elem_of_take in Hr as (i & Hi & _). apply list_elem_of_lookup_2 in Hi.
  rewrite SliceStable_perm in Hi. apply list_elem_of_In, filter_In in Hi as [Hi ?]. split; [by apply list_elem_of_In|done].
Qed.

Lemma ListDue_NoDup peer now limit t : NoDup (map MessageID t) -> NoDup (map MessageID (ListDueMeshOutbound peer now limit t)).
Proof.
  intros Hn. unfold ListDueMeshOutbound. case_bool_decide; [constructor|].
  rewrite <- firstn_map. eapply sublist_NoDup; [|apply sublist_take].
  rewrite SliceStable_perm.
  induction t as [|r t IH]; [constructor|]. simpl in Hn. apply NoDup_cons in Hn as [H1 H2]. simpl.
  destruct (due peer now r); [|by apply IH]. simpl. apply NoDup_cons. split; [|by apply IH].
  intros Hm. apply H1. apply list_elem_of_In, in_map_iff in Hm as (x & Hx & Hin%filter_In).
  apply list_elem_of_In, in_map_iff. exists x. by destruct Hin.
Qed.

(** ** Reachable queues *)

Definition ids (l : list MeshOutbound) : list string := map MessageID l.

(** A row descends from the one that was parked. *)
Definition parked (s : Queue) (r : MeshOutbound) : Prop := exists e, e ∈ enqueued s /\ core e = core r.

Record qinv (s : Queue) : Prop := {
  qi_enq : NoDup (ids (enqueued s));
  qi_blob : Forall (fun e => Envelope e <> None) (enqueued s);
  qi_tab_ids : NoDup (ids (table s));
  qi_tab r : r ∈ table s -> parked s r;
  qi_snap p rows : drainIn s !! p = Some rows ->
    NoDup (ids rows) /\ forall r, r ∈ rows -> TargetPeerID r = p /\ parked s r;
  qi_sent id : id ∈ sent s -> id ∈ ids (enqueued s);
  qi_done id : id ∈ sent s -> id ∉ unmarked s ->
    (forall r, r ∈ table s -> MessageID r = id -> undelivered r = false) /\
    (forall p rows, drainIn s !! p = Some rows -> id ∉ ids rows);
  qi_once id : id ∉ unmarked s -> (List.length (filter (fun x => x = id) (sent s)) <= 1)%nat;
  qi_stamp r : r ∈ table s -> undelivered r = false -> MessageID r ∈ sent s;
  qi_kept e : e ∈ enqueued s -> (exists r, r ∈ table s /\ core r = core e) \/
    MessageID e ∈ sent s \/ ExpiresAt e < formatTime (clock s) }.

Lemma elem_ids r l : r ∈ l -> MessageID r ∈ ids l.
Proof. intros Hr. apply list_elem_of_In, in_map. by apply list_elem_of_In. Qed.

Lemma elem_ids_inv id l : id ∈ ids l -> exists r, r ∈ l /\ MessageID r = id.
Proof.
  intros Hi. apply list_elem_of_In, in_map_iff in Hi as (r & <- & Hin). exists r. split; [by apply list_elem_of_In|done].
Qed.

Lemma parked_id s r : parked s r -> MessageID r ∈ ids (enqueued s).
Proof. intros (e & He & Hc). apply elem_ids in He. unfold core in Hc. congruence. Qed.

(** Two parked rows with one id have one target. *)
Lemma parked_target s r r' : NoDup (ids (enqueued s)) -> parked s r -> parked s r' ->
  MessageID r = MessageID r' -> core r = core r'.
Proof.
  intros Hn (e & He & Hc) (e' & He' & Hc') Hid.
  assert (e = e') as <-; [|congruence].
  assert (MessageID e = MessageID e') as Hee by (unfold core in *; congruence).
  clear - Hn He He' Hee. induction (enqueued s) as [|x l IH]; [by apply not_elem_of_nil in He|].
  apply NoDup_cons in Hn as [H1 H2]. apply elem_of_cons in He as [->|He], He' as [->|He']; try done.
  - destruct H1. rewrite Hee. by apply elem_ids.
  - destruct H1. rewrite <- Hee. by apply elem_ids.
  - by apply IH.
Qed.

Lemma qinv_init : qinv empty_queue.
Proof.
  split; cbn; intros; try (by constructor); try (by match goal with H : _ ∈ [] |- _ => apply not_elem_of_nil in H end);
    try done.
Qed.

Lemma qinv_enqueue s now id peer session blob err s' :
  qinv s -> qstep now (QEnqueue id peer session blob err) s = Some s' -> qinv s'.
Proof.
  intros H. unfold qstep. destruct (now <? clock s) eqn:Hck; [done|]. apply Z.ltb_ge in Hck.
  destruct (existsb _ (enqueued s)) eqn:Hfresh; [done|]. unfold Enqueue.
  destruct (bool_decide (id = "") || bool_decide (peer = "")); [done|].
  set (o := parked_row now peer session id blob err).
  assert (Hnew : id ∉ ids (enqueued s)).
  { intros Hi. apply elem_ids_inv in Hi as (r & Hr & Hid).
    apply (proj1 (existsb_false_elem _ _) Hfresh) in Hr. by rewrite bool_decide_eq_true_2 in Hr. }
  assert (Htab : id ∉ ids (table s)).
  { intros Hi. apply elem_ids_inv in Hi as (r & Hr & <-). by apply Hnew, parked_id, H. }
  unfold EnqueueMeshOutbound. assert (existsb (fun r => bool_decide (MessageID r = MessageID o)) (table s) = false) as ->.
  { apply existsb_false_elem. intros r Hr. apply bool_decide_eq_false_2. intros Hid. apply Htab.
    change (MessageID o ∈ ids (table s)). rewrite <- Hid. by apply elem_ids. }
  intros [= <-].
  assert (Hp : forall r, parked s r -> exists e, e ∈ enqueued s ++ [o] /\ core e = core r).
  { intros r (e & He & Hc). exists e. split; [|done]. apply elem_of_app. by left. }
  assert (Ho : o ∈ enqueued s ++ [o]) by (apply elem_of_app; right; by left).
  split; cbn [table drainIn clock enqueued sent unmarked].
  - unfold ids. rewrite map_app. apply NoDup_app. split; [apply H|]. split; [|apply NoDup_singleton].
    intros x Hx Hx'. apply elem_of_cons in Hx' as [->|Hx']; [by apply Hnew|].
    by apply not_elem_of_nil in Hx'.
  - apply Forall_app. split; [apply H|]. by repeat constructor.
  - unfold ids. rewrite map_app. apply NoDup_app. split; [apply H|]. split; [|apply NoDup_singleton].
    intros x Hx Hx'. apply elem_of_cons in Hx' as [->|Hx']; [by apply Htab|]. by apply not_elem_of_nil in Hx'.
  - intros r [Hr|Hr]%elem_of_app; [by apply Hp, H|]. apply elem_of_cons in Hr as [->|Hr]; [by exists o|].
    by apply not_elem_of_nil in Hr.
  - intros p rows Hrows. destruct (qi_snap s H p rows Hrows) as [Hn Hr]. split; [done|].
    intros r Hin. destruct (Hr r Hin) as [? ?]. split; [done|by apply Hp].
  - intros x Hx. apply (qi_sent s H) in Hx. unfold ids. rewrite map_app. apply elem_of_app. by left.
  - intros x Hx Hu. destruct (qi_done s H x Hx Hu) as [H1 H2]. split; [|done].
    intros r [Hr|Hr]%elem_of_app Hid; [by apply H1|]. apply elem_of_cons in Hr as [->|Hr]; [|by apply not_elem_of_nil in Hr].
    destruct Hnew. apply (qi_sent s H) in Hx. cbn in Hid. by rewrite Hid.
  - apply H.
  - intros r [Hr|Hr]%elem_of_app Hu; [by apply H|]. apply elem_of_cons in Hr as [->|Hr]; [done|by apply not_elem_of_nil in Hr].
  - intros e [He|He]%elem_of_app.
    + destruct (qi_kept s H e He) as [(r & Hr & Hc)|[Hs|He']].
      * left. exists r. split; [apply elem_of_app; by left|done].
      * by right; left.
      * right. right. unfold formatTime in *. pose proof (Z.div_le_mono (clock s) now second eq_refl Hck). lia.
    + apply elem_of_cons in He as [->|He]; [|by apply not_elem_of_nil in He]. left. exists o.
      split; [apply elem_of_app; right; by left|done].
Qed.

Lemma formatTime_mono a b : a <= b -> formatTime a <= formatTime b.
Proof. intros. by apply Z.div_le_mono. Qed.

Lemma kept_later s now (t : Table) (n : list string) e : qinv s -> clock s <= now -> e ∈ enqueued s ->
  (forall r, r ∈ table s -> (exists r', r' ∈ t /\ core r' = core r) \/ MessageID r ∈ n \/ ExpiresAt r < formatTime now) ->
  (forall id, id ∈ sent s -> id ∈ n) ->
  (exists r, r ∈ t /\ core r = core e) \/ MessageID e ∈ n \/ ExpiresAt e < formatTime now.
Proof.
  intros H Hck He Ht Hn. destruct (qi_kept s H e He) as [(r & Hr & Hc)|[Hs|Hx]].
  - destruct (Ht r Hr) as [(r' & Hr' & Hc')|[Hs|Hx]].
    + left. exists r'. split; [done|congruence].
    + right. left. unfold core in Hc. congruence.
    + right. right. unfold core in Hc. congruence.
  - right. left. by apply Hn.
  - right. right. pose proof (formatTime_mono _ _ Hck). lia.
Qed.

Lemma qinv_begin s now peer s' : qinv s -> qstep now (QDrainBegin peer) s = Some s' -> qinv s'.
Proof.
  intros H. unfold qstep. destruct (now <? clock s) eqn:Hck; [done|]. apply Z.ltb_ge in Hck.
  destruct (drainIn s !! peer) eqn:Hd; [done|]. intros [= <-].
  set (rows := ListDueMeshOutbound _ _ _ _).
  assert (Hrows : forall r, r ∈ rows -> r ∈ table s /\ due peer now r = true) by (intros r; apply ListDue_elem).
  split; cbn [table drainIn clock enqueued sent unmarked]; try apply H.
  - intros p l. destruct (decide (p = peer)) as [->|Hp].
    + rewrite lookup_insert_eq. intros [= <-]. split; [apply ListDue_NoDup, H|].
      intros r (Hr & Hdue)%Hrows. split; [|by apply H].
      unfold due in Hdue. repeat apply andb_true_iff in Hdue as [Hdue ?]. by apply bool_decide_eq_true in Hdue.
    + rewrite lookup_insert_ne by done. apply H.
  - intros id Hs Hu. destruct (qi_done s H id Hs Hu) as [H1 H2]. split; [done|].
    intros p l. destruct (decide (p = peer)) as [->|Hp]; [|rewrite lookup_insert_ne by done; apply H2].
    rewrite lookup_insert_eq. intros [= <-] (r & Hr & Hid)%elem_ids_inv.
    apply Hrows in Hr as [Hr Hdue]. specialize (H1 r Hr Hid).
    unfold due in Hdue. rewrite H1 in Hdue. by rewrite andb_false_r in Hdue.
  - intros e He. apply (kept_later s now (table s) (sent s) e H Hck He); [|done].
    intros r Hr. left. by exists r.
Qed.

Lemma qinv_end s now peer s' : qinv s -> qstep now (QDrainEnd peer) s = Some s' -> qinv s'.
Proof.
  intros H. unfold qstep. destruct (now <? clock s) eqn:Hck; [done|]. apply Z.ltb_ge in Hck. intros [= <-].
  split; cbn [table drainIn clock enqueued sent unmarked]; try apply H.
  - intros p l Hl. apply lookup_delete_Some in Hl as [_ Hl]. by apply H.
  - intros id Hs Hu. destruct (qi_done s H id Hs Hu) as [H1 H2]. split; [done|].
    intros p l Hl. apply lookup_delete_Some in Hl as [_ Hl]. by apply (H2 p).
  - intros e He. apply (kept_later s now (table s) (sent s) e H Hck He); [|done].
    intros r Hr. left. by exists r.
Qed.

Lemma qinv_prune s now s' : qinv s -> qstep now QPrune s = Some s' -> qinv s'.
Proof.
  intros H. unfold qstep. destruct (now <? clock s) eqn:Hck; [done|]. apply Z.ltb_ge in Hck. intros [= <-].
  set (t := PruneMeshOutbound _ _ _).
  assert (Ht : forall r, r ∈ t <-> r ∈ table s /\ stale (now - outboundDeliveredRetention) now r = false).
  { intros r. unfold t, PruneMeshOutbound. rewrite list_elem_of_In, filter_In, <- list_elem_of_In.
    by rewrite negb_true_iff. }
  split; cbn [table drainIn clock enqueued sent unmarked]; try apply H.
  - assert (Hn := qi_tab_ids s H). unfold t, PruneMeshOutbound. clear - Hn.
    induction (table s) as [|r l IH]; [constructor|]. simpl in Hn. apply NoDup_cons in Hn as [H1 H2]. simpl.
    destruct (negb _); [|by apply IH]. apply NoDup_cons. split; [|by apply IH].
    intros (x & Hx & Hid)%elem_ids_inv. apply H1. apply list_elem_of_In, filter_In in Hx as [Hx _].
    rewrite <- Hid. apply elem_ids. by apply list_elem_of_In.
  - intros r [Hr _]%Ht. by apply H.
  - intros id Hs Hu. destruct (qi_done s H id Hs Hu) as [H1 H2]. split; [|done].
    intros r [Hr _]%Ht. by apply H1.
  - intros r [Hr _]%Ht. by apply H.
  - intros e He. apply (kept_later s now t (sent s) e H Hck He); [|done].
    intros r Hr. destruct (stale (now - outboundDeliveredRetention) now r) eqn:Hs.
    + right. unfold stale in Hs. destruct (DeliveredAt r) eqn:Hdel.
      * left. apply (qi_stamp s H r Hr). unfold undelivered. by rewrite Hdel.
      * right. by apply Z.ltb_lt.
    + left. exists r. split; [by apply Ht|done].
Qed.

Lemma qinv_next s now peer d s' : qinv s -> qstep now (QDrainNext peer d) s = Some s' -> qinv s'.
Proof.
  intros H. unfold qstep. destruct (now <? clock s) eqn:Hck; [done|]. apply Z.ltb_ge in Hck.
  destruct (drainIn s !! peer) as [[|row rows]|] eqn:Hd; [done| |done].
  destruct (qi_snap s H peer (row :: rows) Hd) as [Hnd Hsn].
  apply NoDup_cons in Hnd as [Hrow Hnd]. destruct (Hsn row (list_elem_of_here _ _)) as [Htgt Hpk].
  assert (Hblob : exists blob, Envelope row = Some blob).
  { destruct Hpk as (e & He & Hc). pose proof (qi_blob s H) as Hb. rewrite Forall_forall in Hb. specialize (Hb e He).
    destruct (Envelope row) eqn:Hr; [by eexists|]. unfold core in Hc. congruence. }
  destruct Hblob as [blob Hblob]. rewrite Hblob.
  set (g := deliverOne now d row). assert (Hg : keeps_core g) by apply deliverOne_core.
  set (ok := match d with Delivered | MarkFailed => true | _ => false end).
  set (bad := match d with MarkFailed => true | _ => false end).
  assert (Hold : forall id, id ∈ sent s -> id ∈ (if ok then sent s ++ [MessageID row] else sent s)).
  { intros id Hi. destruct ok; [apply elem_of_app; by left|done]. }
  assert (Hinv : forall id, id ∈ (if ok then sent s ++ [MessageID row] else sent s) -> id ∈ sent s \/ (ok = true /\ id = MessageID row)).
  { intros id. destruct ok; [|by left]. intros [Hi|Hi]%elem_of_app; [by left|].
    apply elem_of_cons in Hi as [->|Hi]; [by right|by apply not_elem_of_nil in Hi]. }
  assert (Hun : forall id, id ∉ (if bad then unmarked s ++ [MessageID row] else unmarked s) ->
    (id ∉ unmarked s) /\ (bad = true -> id <> MessageID row)).
  { intros id. destruct bad; [|done]. rewrite elem_of_app, elem_of_cons. naive_solver. }
  assert (Hfresh : MessageID row ∉ unmarked s -> MessageID row ∉ sent s).
  { intros Hu Hs. destruct (qi_done s H _ Hs Hu) as [_ H2]. apply (H2 peer _ Hd). by left. }
  intros [= <-]. split; cbn [table drainIn clock enqueued sent unmarked]; try apply H.
  - unfold ids. rewrite (core_ids g) by done. apply H.
  - intros r Hr. apply (core_elem g) in Hr as (r0 & Hr0 & Hc); [|done].
    destruct (qi_tab s H r0 Hr0) as (e & He & Hce). exists e. split; [done|congruence].
  - intros p l. destruct (decide (p = peer)) as [->|Hp]; [|rewrite lookup_insert_ne by done; apply H].
    rewrite lookup_insert_eq. intros [= <-]. split; [done|]. intros r Hr. apply Hsn. by right.
  - intros id [Hi|[_ ->]]%Hinv; [by apply H|]. by apply (parked_id s).
  - intros id Hs [Hu Hb]%Hun. apply Hinv in Hs as [Hs|[Hok ->]].
    + destruct (qi_done s H id Hs Hu) as [H1 H2]. split.
      * intros r Hr Hid. destruct (undelivered r) eqn:Hur; [|done]. exfalso.
        apply (core_elem g) in Hr as Hr0; [|done]. destruct Hr0 as (r0 & Hr0 & Hc).
        assert (id <> MessageID row) as Hne by (intros ->; by apply Hfresh).
        unfold g, deliverOne in Hr. rewrite Hblob in Hr.
        assert (forall f, r ∈ update_row (MessageID row) f (table s) -> (forall x, core (f x) = core x) -> False) as Hup.
        { intros f Hf Hfc. unfold update_row in Hf. apply list_elem_of_In, in_map_iff in Hf as (r1 & Hr1 & Hin).
          apply list_elem_of_In in Hin. destruct (bool_decide (MessageID r1 = MessageID row) && undelivered r1) eqn:Hc1.
          - apply andb_true_iff in Hc1 as [Hc1%bool_decide_eq_true _]. apply Hne. specialize (Hfc r1).
            rewrite Hr1 in Hfc. unfold core in Hfc. congruence.
          - subst r1. rewrite (H1 r Hin Hid) in Hur. done. }
        destruct d; first [by eapply Hup; [exact Hr|]|by rewrite (H1 r Hr Hid) in Hur].
      * intros p l. destruct (decide (p = peer)) as [->|Hp]; [|rewrite lookup_insert_ne by done; apply H2].
        rewrite lookup_insert_eq. intros [= <-] Hin. apply (H2 peer _ Hd). by right.
    + assert (d = Delivered) as -> by (destruct d; [done|done| |done]; by destruct (Hb eq_refl)). split.
      * intros r Hr Hid. unfold g, deliverOne in Hr. rewrite Hblob in Hr. by apply (mark_stamps now (MessageID row) (table s)).
      * intros p l. destruct (decide (p = peer)) as [->|Hp].
        -- rewrite lookup_insert_eq. by intros [= <-].
        -- rewrite lookup_insert_ne by done. intros Hl (r & Hr & Hid)%elem_ids_inv.
           destruct (qi_snap s H p l Hl) as [_ Hs']. destruct (Hs' r Hr) as [Ht' Hp'].
           assert (core r = core row) as Hc by (eapply parked_target; [apply H|done|done|done]).
           unfold core in Hc. congruence.
  - intros id [Hu Hb]%Hun. destruct ok eqn:Hok; [|by apply H]. rewrite filter_app, length_app, filter_cons.
    destruct (decide (MessageID row = id)) as [<-|]; [|simpl; pose proof (qi_once s H id Hu); lia].
    specialize (Hfresh Hu). assert (filter (fun x => x = MessageID row) (sent s) = []) as ->; [|simpl; lia].
    apply elem_of_nil_inv. intros x [-> Hx]%list_elem_of_filter. done.
  - intros r Hr Hu. unfold g in Hr. apply deliverOne_undelivered in Hr as [(r0 & Hr0 & Hc & Hu0)|(Hid & _ & ->)]; [| |done].
    + apply Hold. assert (MessageID r = MessageID r0) as -> by (unfold core in Hc; congruence). by apply H.
    + unfold ok. rewrite Hid. apply elem_of_app. right. by left.
  - intros e He. apply (kept_later s now (g (table s)) _ e H Hck He); [|exact Hold].
    intros r Hr. left. apply (core_elem_inv g) in Hr as (r' & Hr' & Hc); [|done]. by exists r'.
Qed.

Lemma qreach_inv s : qreach s -> qinv s.
Proof.
  induction 1 as [|now a s s' _ IH Hs]; [apply qinv_init|]. destruct a.
  - by eapply qinv_enqueue.
  - by eapply qinv_begin.
  - by eapply qinv_next.
  - by eapply qinv_end.
  - by eapply qinv_prune.
Qed.

(** ** Theorems *)

(** C34: no double delivery.  However enqueues, drains of any peers, prunes and
    failures interleave, a message whose delivery could be recorded was taken
    by the transport at most once. *)
Theorem delivered_at_most_once s id : qreach s -> id ∉ unmarked s ->
  (List.length (filter (fun x => x = id) (sent s)) <= 1)%nat.
Proof. intros Hs. apply qi_once. by apply qreach_inv. Qed.

(** nothing parked is lost.  Each message ever parked has been taken by the
    transport, or has outlived its seven days, or is still in the table with
    its target and envelope, undelivered. *)
Theorem parked_not_lost s e : qreach s -> e ∈ enqueued s ->
  MessageID e ∈ sent s \/ ExpiresAt e < formatTime (clock s) \/
  exists r, r ∈ table s /\ core r = core e /\ undelivered r = true.
Proof.
  intros Hs He. apply qreach_inv in Hs. destruct (decide (MessageID e ∈ sent s)) as [|Hn]; [by left|right].
  destruct (qi_kept s Hs e He) as [(r & Hr & Hc)|[?|?]]; [right|done|by left].
  exists r. split; [done|]. split; [done|]. destruct (undelivered r) eqn:Hu; [done|].
  apply (qi_stamp s Hs) in Hu; [|done]. destruct Hn. unfold core in Hc. congruence.
Qed.

(** A drain whose sends succeed. *)
Fixpoint drain_ok (now : Z) (peer : string) (n : nat) (s : Queue) : option Queue :=
  match n with
  | O => qstep now (QDrainEnd peer) s
  | S m => s' ← qstep now (QDrainNext peer Delivered) s; drain_ok now peer m s'
  end.

Lemma drain_rows now peer rows s : drainIn s !! peer = Some rows -> clock s <= now ->
  Forall (fun r => Envelope r <> None) rows ->
  exists s', drain_ok now peer (List.length rows) s = Some s' /\ drainIn s' !! peer = None /\
    sent s' = sent s ++ ids rows.
Proof.
  revert s. induction rows as [|r rows IH]; intros s Hd Hck Hb; cbn [List.length drain_ok].
  - unfold qstep. rewrite (proj2 (Z.ltb_ge now (clock s))) by lia. eexists. split; [reflexivity|].
    cbn. rewrite lookup_delete_eq. split; [done|]. by rewrite app_nil_r.
  - apply Forall_cons in Hb as [Hr Hb]. destruct (Envelope r) as [blob|] eqn:He; [|done].
    unfold qstep at 1. rewrite (proj2 (Z.ltb_ge now (clock s))) by lia. rewrite Hd, He. cbn [mbind option_bind].
    edestruct IH as (s' & Hs' & Hn & Hsent); [| | |exists s'; split; [exact Hs'|]].
    + cbn. by rewrite lookup_insert_eq.
    + cbn. lia.
    + done.
    + split; [done|]. rewrite Hsent. cbn [sent]. by rewrite <- app_assoc.
Qed.

(** a reachable peer gets its mail.  With no drain in flight for the peer, a
    drain whose sends succeed hands over every due row - oldest first, up to
    the batch size - and ends. *)
Theorem drain_delivers_due now peer s : qreach s -> drainIn s !! peer = None -> clock s <= now ->
  let rows := ListDueMeshOutbound peer now (Z.of_nat outboundDrainBatchSize) (table s) in
  exists s1 s2, qstep now (QDrainBegin peer) s = Some s1 /\
    drain_ok now peer (List.length rows) s1 = Some s2 /\ qreach s1 /\
    drainIn s2 !! peer = None /\ sent s2 = sent s ++ ids rows.
Proof.
  intros Hr Hd Hck rows. pose proof (qreach_inv s Hr) as Hinv.
  assert (Hq : exists s1, qstep now (QDrainBegin peer) s = Some s1 /\ drainIn s1 !! peer = Some rows /\
    clock s1 = now /\ sent s1 = sent s).
  { unfold qstep. rewrite (proj2 (Z.ltb_ge now (clock s))) by lia. rewrite Hd. eexists. split; [reflexivity|].
    cbn. by rewrite lookup_insert_eq. }
  destruct Hq as (s1 & Hs1 & Hd1 & Hc1 & Hsent).
  assert (Hr1 : qreach s1) by (by eapply qreach_step).
  destruct (drain_rows now peer rows s1) as (s2 & Hs2 & Hn & Hs); [done|lia| |].
  - apply Forall_forall. intros r Hrow. destruct (qi_snap s1 (qreach_inv s1 Hr1) peer rows Hd1) as [_ Hsn].
    destruct (Hsn r Hrow) as [_ (e & He & Hc)]. pose proof (qi_blob s1 (qreach_inv s1 Hr1)) as Hb.
    rewrite Forall_forall in Hb. specialize (Hb e He). unfold core in Hc. congruence.
  - exists s1, s2. rewrite Hs, Hsent. done.
Qed.

(** The retry delay doubles from thirty seconds up to five minutes. *)
Theorem exponentialBackoff_closed attempt :
  exponentialBackoff attempt = Z.min (300 * second) (30 * second * 2 ^ (Z.max 1 attempt - 1)).
Proof.
  unfold exponentialBackoff. rewrite backoff_loop_closed by done.
  unfold outboundMaxBackoff, outboundMinBackoff. do 3 f_equal.
  destruct (Z.ltb_spec attempt 1); lia.
Qed.

(** ** The sweep *)

Lemma next_first_trans x y z :
  not_after next_first x y -> not_after next_first y z -> not_after next_first x z.
Proof.
  unfold not_after, next_first.
  tests; intros; try done; lia.
Qed.

Lemma next_first_asym x y : next_first x y = true -> next_first y x = false.
Proof.
  unfold next_first.
  tests; intros; try done; lia.
Qed.

Lemma pending_sorted now limit t :
  StronglySorted (fun a b => NextAttemptAt a <= NextAttemptAt b) (ListPendingMeshOutbound now limit t).
Proof.
  unfold ListPendingMeshOutbound. generalize (cap_limit limit). intros n.
  pose proof (SliceStable_sorted next_first next_first_trans next_first_asym
    (List.filter (fun r => undelivered r && (formatTime now <? ExpiresAt r)) t)) as S.
  revert n. induction S as [|x l Hl IH Hx]; intros [|n]; simpl; try constructor; [apply IH|].
  apply Forall_take. eapply Forall_impl; [exact Hx|]. intros y. unfold not_after, next_first.
  destruct (Z.eqb_spec (NextAttemptAt y) (NextAttemptAt x)); [lia|]. intros Hy%Z.ltb_ge. lia.
Qed.

Lemma sweep_loop_spec now online seen rows p :
  StronglySorted (fun a b => NextAttemptAt a <= NextAttemptAt b) rows ->
  p ∈ sweep_loop now online seen rows <->
  (p ∉ seen) /\ online p = true /\
  exists r, r ∈ rows /\ TargetPeerID r = p /\ NextAttemptAt r * second <= now.
Proof.
  intros S. revert seen. induction S as [|row rows Hs IH Hrow]; intros seen; cbn [sweep_loop].
  { split; [intros H; by apply not_elem_of_nil in H|]. intros (_ & _ & r & Hr & _). by apply not_elem_of_nil in Hr. }
  rewrite Forall_forall in Hrow.
  assert (Hlater : now < NextAttemptAt row * second -> forall r, r ∈ rows -> ~ NextAttemptAt r * second <= now).
  { intros Hlt r Hr Hle. specialize (Hrow r Hr). unfold second in *. lia. }
  assert (Hcons : (exists r, r ∈ row :: rows /\ TargetPeerID r = p /\ NextAttemptAt r * second <= now) <->
    (TargetPeerID row = p /\ NextAttemptAt row * second <= now) \/
    exists r, r ∈ rows /\ TargetPeerID r = p /\ NextAttemptAt r * second <= now).
  { setoid_rewrite elem_of_cons. naive_solver. }
  rewrite Hcons. case_bool_decide as Hseen.
  { rewrite IH. split; [naive_solver|]. intros (Hn & Ho & [[<- _]|Hr]); [done|by split]. }
  destruct (Z.ltb_spec now (NextAttemptAt row * second)) as [Hlt|Hge].
  - rewrite IH. split.
    + intros (_ & _ & r & Hr & _ & Hle). by destruct (Hlater Hlt r Hr).
    + intros (_ & _ & [[_ Hle]|(r & Hr & _ & Hle)]); [lia|by destruct (Hlater Hlt r Hr)].
  - assert (Hiff : p ∈ sweep_loop now online ({[TargetPeerID row]} ∪ seen) rows <->
      (p <> TargetPeerID row /\ p ∉ seen) /\ online p = true /\
      exists r, r ∈ rows /\ TargetPeerID r = p /\ NextAttemptAt r * second <= now).
    { rewrite IH, not_elem_of_union, not_elem_of_singleton. done. }
    destruct (decide (p = TargetPeerID row)) as [->|Hp].
    + destruct (online (TargetPeerID row)) eqn:Ho.
      * split; [|by left]. intros _. split; [done|]. split; [done|]. by left.
      * rewrite Hiff. split; [naive_solver|]. by intros (_ & ? & _).
    + assert (p ∈ (if online (TargetPeerID row)
        then TargetPeerID row :: sweep_loop now online ({[TargetPeerID row]} ∪ seen) rows
        else sweep_loop now online ({[TargetPeerID row]} ∪ seen) rows) <->
        p ∈ sweep_loop now online ({[TargetPeerID row]} ∪ seen) rows) as ->.
      { destruct (online (TargetPeerID row)); [|done]. rewrite elem_of_cons. naive_solver. }
      rewrite Hiff. split; [naive_solver|]. intros (? & ? & [[? _]|?]); [by destruct Hp|done].
Qed.

(** The sweep drains exactly the online peers that have a due row among the
    thousand earliest pending ones. *)
Theorem runSweep_peers now online t p :
  p ∈ runSweep now online t <->
  online p = true /\
  exists r, r ∈ ListPendingMeshOutbound now (Z.of_nat listMeshOutboundCap) t /\
    TargetPeerID r = p /\ NextAttemptAt r * second <= now.
Proof.
  unfold runSweep. rewrite sweep_loop_spec by apply pending_sorted. set_solver.
Qed.

(** ** Witnesses *)

Fixpoint qrun (l : list (Z * qaction)) (s : Queue) : option Queue :=
  match l with
  | [] => Some s
  | (now, a) :: l' => s' ← qstep now a s; qrun l' s'
  end.

Lemma qrun_reach l s s' : qreach s -> qrun l s = Some s' -> qreach s'.
Proof.
  revert s. induction l as [|[now a] l IH]; intros s Hs; cbn [qrun]; [by intros [= <-]|].
  destruct (qstep now a s) as [s1|] eqn:Hq; [|done]. apply IH. by eapply qreach_step.
Qed.

Definition sample_run : list (Z * qaction) :=
  [(0, QEnqueue "m1" "bob" "" "blob" "dial"); (40 * second, QDrainBegin "bob");
   (41 * second, QDrainNext "bob" (SendFailed "reset")); (41 * second, QDrainEnd "bob");
   (102 * second, QDrainBegin "bob"); (103 * second, QDrainNext "bob" Delivered); (104 * second, QDrainEnd "bob")].

Definition sample_queue : Queue := default empty_queue (qrun sample_run empty_queue).

Lemma sample_queue_reach : qreach sample_queue.
Proof. apply (qrun_reach sample_run empty_queue); [apply qreach_init|vm_compute; reflexivity]. Qed.

Example sample_queue_shape :
  (map Attempts (table sample_queue), map DeliveredAt (table sample_queue), sent sample_queue) =
  ([2], [Some 103], ["m1"]).
Proof. vm_compute. reflexivity. Qed.

Example delivered_at_most_once_witness :
  (List.length (filter (fun x => x = "m1"%string) (sent sample_queue)) <= 1)%nat.
Proof. apply (delivered_at_most_once sample_queue "m1" sample_queue_reach). vm_compute. by intros ?%elem_of_nil. Defined.

Example parked_not_lost_witness :
  let e := parked_row 0 "bob" "" "m1" "blob" "dial" in
  MessageID e ∈ sent sample_queue \/ ExpiresAt e < formatTime (clock sample_queue) \/
  exists r, r ∈ table sample_queue /\ core r = core e /\ undelivered r = true.
Proof. apply (parked_not_lost sample_queue _ sample_queue_reach). vm_compute. by left. Defined.

Example drain_delivers_due_witness :
  let s := sample_queue in
  let rows := ListDueMeshOutbound "bob" (200 * second) (Z.of_nat outboundDrainBatchSize) (table s) in
  exists s1 s2, qstep (200 * second) (QDrainBegin "bob") s = Some s1 /\
    drain_ok (200 * second) "bob" (List.length rows) s1 = Some s2 /\ qreach s1 /\
    drainIn s2 !! "bob"%string = None /\ sent s2 = (sent s ++ ids rows)%list.
Proof.
  apply (drain_delivers_due (200 * second) "bob" sample_queue sample_queue_reach).
  - vm_compute. reflexivity.
  - vm_compute. congruence.
Defined.
