(* ===== verification/Monitoring.v ===== *)
(** Expected signals (absence detection): [internal/store/monitoring.go]
    (severities), [monitoring_expected_signal.go],
    [monitoring_expected_signal_schedule.go] and
    [monitoring_expected_signal_eval.go].

    Instants and durations are nanoseconds; a duration is an int64, so
    [Window] wraps as the product in the code does.  A time zone is the table
    Go's time package looks offsets up in; loading one by name is a parameter.
    The operator-facing text of a decision (Title, Detail) is left out, and a
    field error is its code. *)

From Stdlib Require Import Ascii String ZArith.
From stdpp Require Import base list option strings.
From S2P Require Import Prelude GoStrings.

#[local] Open Scope string_scope.
#[local] Open Scope list_scope.
#[local] Open Scope Z_scope.

(** ** Severities *)

Definition SeverityRank (s : string) : Z :=
  if bool_decide (s = "info") then 0 else if bool_decide (s = "warn") then 1
  else if bool_decide (s = "error") then 2 else if bool_decide (s = "critical") then 3 else -1.

Definition ValidSeverity (s : string) : bool := 0 <=? SeverityRank s.

(** ** The time package *)

Definition Second : Z := 1000000000.
Definition Minute : Z := 60 * Second.

(** [t.Sub(u)] saturates at int64. *)
Definition Sub (t u : Z) : Z := Z.max (- 2 ^ 63) (Z.min (2 ^ 63 - 1) (t - u)).

(** [lookup] gives the offset in force at a Unix second and the seconds it
    starts and ends at. *)
Record Location := { lookup : Z -> Z * Z * Z }.

Definition fixed_zone (off : Z) : Location := {| lookup _ := (off, - 2 ^ 63, 2 ^ 63 - 1) |}.
Definition UTC : Location := fixed_zone 0.

Definition offset (loc : Location) (sec : Z) : Z := fst (fst (lookup loc sec)).

(** The local clock: seconds since the local epoch, day number, second of the
    day, minute of the day, weekday (0 is Sunday). *)
Definition local_secs (loc : Location) (t : Z) : Z := t / Second + offset loc (t / Second).
Definition local_day (loc : Location) (t : Z) : Z := local_secs loc t / 86400.
Definition local_minute (loc : Location) (t : Z) : Z := (local_secs loc t mod 86400) / 60.
Definition weekday (day : Z) : Z := (day + 4) mod 7.

(** [time.Date] at a local day and second: the offset is looked up at the local
    time taken as UTC, and once more when it is not in force there. *)
Definition Date (loc : Location) (day secs nsec : Z) : Z :=
  let unix := day * 86400 + secs in
  let '(off, start, end_) := lookup loc unix in
  let unix :=
    if off =? 0 then unix
    else
      let utc := unix - off in
      unix - (if (utc <? start) || (end_ <=? utc) then offset loc utc else off) in
  unix * Second + nsec.

(** [t.AddDate(0, 0, -1)] on a local time. *)
Definition day_before (loc : Location) (t : Z) : Z :=
  Date loc (local_day loc t - 1) (local_secs loc t mod 86400) (t mod Second).

(** ** monitoring_expected_signal.go *)

Definition MaxExpectedSignalWindow : Z := 7 * 24 * 60 * Minute.
Definition MinExpectedSignalWindow : Z := Minute.
Definition expectedSignalDayMinutes : Z := 24 * 60.
Definition allWeekdaysMask : Z := 127.

Record MonitoringExpectedSignal := {
  es_ID : string; es_WorkspaceID : string; es_SourceID : string; es_Name : string;
  MatchSubstring : string; MinSeverity : string; MinCount : Z; WindowSeconds : Z; es_Severity : string;
  Timezone : string; ActiveDaysMask : Z; ActiveStartMinute : Z; ActiveEndMinute : Z;
  RequireSourceLiveness : bool; MaxConsecutiveFailures : Z; es_Enabled : bool;
  LastEvaluatedAt : option Z; LastSignalAt : option Z; LastOutcome : string;
  LastRaisedAt : option Z; LastRecoveredAt : option Z; ActiveIncidentID : string;
  es_CreatedAt : option Z }.                       (* the zero time is [None] *)

Definition Window (r : MonitoringExpectedSignal) : Z := wrap64 (WindowSeconds r * Second).
Definition WindowStart (r : MonitoringExpectedSignal) (now : Z) : Z := now - Window r.

Definition AbsenceClassKey (r : MonitoringExpectedSignal) : string := "absence:" +:+ es_ID r.
Definition CollectionClassKey (r : MonitoringExpectedSignal) : string := "absence-collection:" +:+ es_ID r.

Section Zones.
(** [time.LoadLocation]. *)
Variable LoadLocation : string -> option Location.

Definition location (r : MonitoringExpectedSignal) : option Location :=
  let name := TrimSpace (Timezone r) in
  if bool_decide (name = "") || bool_decide (name = "UTC") then Some UTC else LoadLocation name.

Definition ApplyExpectedSignalDefaults (r : MonitoringExpectedSignal) : MonitoringExpectedSignal := {|
  es_ID := es_ID r; es_WorkspaceID := es_WorkspaceID r; es_SourceID := es_SourceID r; es_Name := es_Name r;
  MatchSubstring := MatchSubstring r; MinSeverity := MinSeverity r;
  MinCount := if MinCount r <=? 0 then 1 else MinCount r;
  WindowSeconds := WindowSeconds r;
  es_Severity := if bool_decide (es_Severity r = "") then "error" else es_Severity r;
  Timezone := if bool_decide (TrimSpace (Timezone r) = "") then "UTC" else Timezone r;
  ActiveDaysMask := if ActiveDaysMask r =? 0 then allWeekdaysMask else ActiveDaysMask r;
  ActiveStartMinute := ActiveStartMinute r;
  ActiveEndMinute := if (ActiveStartMinute r =? 0) && (ActiveEndMinute r =? 0) then expectedSignalDayMinutes
                     else ActiveEndMinute r;
  RequireSourceLiveness := RequireSourceLiveness r;
  MaxConsecutiveFailures := if MaxConsecutiveFailures r <=? 0 then 3 else MaxConsecutiveFailures r;
  es_Enabled := es_Enabled r; LastEvaluatedAt := LastEvaluatedAt r; LastSignalAt := LastSignalAt r;
  LastOutcome := LastOutcome r; LastRaisedAt := LastRaisedAt r; LastRecoveredAt := LastRecoveredAt r;
  ActiveIncidentID := ActiveIncidentID r; es_CreatedAt := es_CreatedAt r |}.

(** The code of the field error; [None] is a nil error. *)
Definition validateExpectedSignalWindow (r : MonitoringExpectedSignal) : option string :=
  if (Window r <? MinExpectedSignalWindow) || (MaxExpectedSignalWindow <? Window r) then Some "invalid_window"
  else if (500 <? String.length (MatchSubstring r))%nat then Some "invalid_match"
  else None.

Definition minute_ok (m : Z) : bool := negb ((m <? 0) || (expectedSignalDayMinutes <? m)).

Definition validateExpectedSignalSchedule (r : MonitoringExpectedSignal) : option string :=
  if (ActiveDaysMask r <=? 0) || (allWeekdaysMask <? ActiveDaysMask r) then Some "invalid_active_days"
  else if negb (minute_ok (ActiveStartMinute r) && minute_ok (ActiveEndMinute r)) then Some "invalid_active_window"
  else match location r with None => Some "invalid_timezone" | Some _ => None end.

Definition ValidateMonitoringExpectedSignal (r : MonitoringExpectedSignal) : option string :=
  if bool_decide (TrimSpace (es_Name r) = "") then Some "missing_name"
  else if bool_decide (TrimSpace (es_SourceID r) = "") then Some "missing_source"
  else if MinCount r <=? 0 then Some "invalid_min_count"
  else if negb (ValidSeverity (es_Severity r)) then Some "invalid_severity"
  else if negb (bool_decide (MinSeverity r = "")) && negb (ValidSeverity (MinSeverity r)) then Some "invalid_min_severity"
  else match validateExpectedSignalWindow r with
       | Some e => Some e
       | None => validateExpectedSignalSchedule r
       end.
End Zones.

Record ExpectedSignalObservation := { MatchCount : Z; TotalLines : Z; LastMatchAt : option Z }.
Record SourceCollectionHealth := { sc_Enabled : bool; ConsecutiveFailures : Z }.

(** ** monitoring_expected_signal_schedule.go *)

Definition maxActiveWalkbackDays : nat := 8.

Definition dayActive (r : MonitoringExpectedSignal) (wd : Z) : bool :=
  negb (Z.land (ActiveDaysMask r) (Z.shiftl 1 wd) =? 0).

(** Midnight of the local day of [t], and [minute] minutes. *)
Definition atLocalMinute (loc : Location) (t minute : Z) : Z :=
  Date loc (local_day loc t) 0 0 + minute * Minute.

Fixpoint walk_back (r : MonitoringExpectedSignal) (loc : Location) (n : nat) (day : Z) : Z :=
  match n with
  | O => day
  | S n' =>
      let previous := day_before loc day in
      if dayActive r (weekday (local_day loc previous)) then walk_back r loc n' previous else day
  end.

Definition allDayPeriodStart (r : MonitoringExpectedSignal) (loc : Location) (now : Z) : option Z :=
  if dayActive r (weekday (local_day loc now))
  then Some (atLocalMinute loc (walk_back r loc maxActiveWalkbackDays now) 0)
  else None.

Definition allDay (r : MonitoringExpectedSignal) : bool :=
  (ActiveStartMinute r =? ActiveEndMinute r) ||
  ((ActiveStartMinute r =? 0) && (expectedSignalDayMinutes <=? ActiveEndMinute r)).

(** The period's start; [None] when [now] is not active. *)
Definition activePeriodStart (r : MonitoringExpectedSignal) (loc : Location) (now : Z) : option Z :=
  let start := ActiveStartMinute r in
  let end_ := ActiveEndMinute r in
  if allDay r then allDayPeriodStart r loc now
  else
    let minute := local_minute loc now in
    if start <? end_ then
      if negb (dayActive r (weekday (local_day loc now))) || (minute <? start) || (end_ <=? minute) then None
      else Some (atLocalMinute loc now start)
    else if start <=? minute then
      if negb (dayActive r (weekday (local_day loc now))) then None else Some (atLocalMinute loc now start)
    else if minute <? end_ then
      let yesterday := day_before loc now in
      if negb (dayActive r (weekday (local_day loc yesterday))) then None
      else Some (atLocalMinute loc yesterday start)
    else None.

(** ** monitoring_expected_signal_eval.go *)

Inductive ExpectedSignalOutcome :=
| OutcomeSignalDisabled | OutcomeSignalWarmingUp | OutcomeSignalHealthy | OutcomeSignalOutsideActiveHours
| OutcomeSignalPartialWindow | OutcomeSignalAwaitingFirst | OutcomeSignalInconclusive
| OutcomeSignalCollection | OutcomeSignalAbsent.

#[global] Instance outcome_eq_dec : EqDecision ExpectedSignalOutcome.
Proof. solve_decision. Defined.

Record ExpectedSignalInput := {
  Rule : MonitoringExpectedSignal; Observed : ExpectedSignalObservation; Health : SourceCollectionHealth;
  Now : Z; in_Location : option Location }.

Record ExpectedSignalDecision := {
  Outcome : ExpectedSignalOutcome; Raise : bool; ClassKey : string; sd_Severity : string; Reason : string;
  SignalPresent : bool; sd_WindowStart : Z; sd_WindowEnd : Z }.

(** [base] with an outcome that does not raise. *)
Definition settle (base : ExpectedSignalDecision) (o : ExpectedSignalOutcome) (present : bool) :=
  {| Outcome := o; Raise := Raise base; ClassKey := ClassKey base; sd_Severity := sd_Severity base;
     Reason := Reason base; SignalPresent := present; sd_WindowStart := sd_WindowStart base;
     sd_WindowEnd := sd_WindowEnd base |}.

Definition collectionDecision (rule : MonitoringExpectedSignal) (base : ExpectedSignalDecision) (reason : string) :=
  {| Outcome := OutcomeSignalCollection; Raise := true; ClassKey := CollectionClassKey rule;
     sd_Severity := es_Severity rule; Reason := reason; SignalPresent := SignalPresent base;
     sd_WindowStart := sd_WindowStart base; sd_WindowEnd := sd_WindowEnd base |}.

Definition absenceDecision (rule : MonitoringExpectedSignal) (obs : ExpectedSignalObservation)
    (base : ExpectedSignalDecision) :=
  {| Outcome := OutcomeSignalAbsent; Raise := true; ClassKey := AbsenceClassKey rule;
     sd_Severity := es_Severity rule;
     Reason := if 0 <? MatchCount obs then "below_min_count" else "no_matching_lines";
     SignalPresent := SignalPresent base;
     sd_WindowStart := sd_WindowStart base; sd_WindowEnd := sd_WindowEnd base |}.

(** The decision, or [None] when the schedule does not settle it. *)
Definition evaluateSchedule (rule : MonitoringExpectedSignal) (loc : option Location) (now : Z)
    (base : ExpectedSignalDecision) : option ExpectedSignalDecision :=
  match activePeriodStart rule (default UTC loc) now with
  | None => Some (settle base OutcomeSignalOutsideActiveHours false)
  | Some periodStart =>
      if Sub now periodStart <? Window rule then Some (settle base OutcomeSignalPartialWindow false) else None
  end.

Definition evaluateAbsence (i : ExpectedSignalInput) (base : ExpectedSignalDecision) : ExpectedSignalDecision :=
  let rule := Rule i in let obs := Observed i in let health := Health i in
  if negb (sc_Enabled health) then collectionDecision rule base "source_disabled"
  else if MaxConsecutiveFailures rule <=? ConsecutiveFailures health then collectionDecision rule base "pull_failing"
  else if bool_decide (LastSignalAt rule = None) && bool_decide (LastMatchAt obs = None)
  then settle base OutcomeSignalAwaitingFirst false
  else if 0 <? ConsecutiveFailures health then settle base OutcomeSignalInconclusive false
  else if RequireSourceLiveness rule && (TotalLines obs =? 0) then collectionDecision rule base "source_silent"
  else absenceDecision rule obs base.

Definition warming (rule : MonitoringExpectedSignal) (now : Z) : bool :=
  match es_CreatedAt rule with None => false | Some c => now <? c + Window rule end.

Definition EvaluateExpectedSignal (i : ExpectedSignalInput) : ExpectedSignalDecision :=
  let rule := Rule i in
  let now := Now i in
  let base := {| Outcome := OutcomeSignalDisabled; Raise := false; ClassKey := ""; sd_Severity := ""; Reason := "";
                 SignalPresent := false; sd_WindowStart := WindowStart rule now; sd_WindowEnd := now |} in
  if negb (es_Enabled rule) then base
  else if warming rule now then settle base OutcomeSignalWarmingUp false
  else if MinCount rule <=? MatchCount (Observed i) then settle base OutcomeSignalHealthy true
  else match evaluateSchedule rule (in_Location i) now base with
       | Some d => d
       | None => evaluateAbsence i base
       end.

(** ** The decision table *)

Definition settled_by_schedule (i : ExpectedSignalInput) : Prop :=
  forall p, activePeriodStart (Rule i) (default UTC (in_Location i)) (Now i) = Some p ->
    Sub (Now i) p < Window (Rule i).

(** The rule speaks: it is on, warm, its count is short, and a full window has
    passed inside the current period. *)
Definition due_to_speak (i : ExpectedSignalInput) : Prop :=
  es_Enabled (Rule i) = true /\ warming (Rule i) (Now i) = false /\
  MatchCount (Observed i) < MinCount (Rule i) /\ ~ settled_by_schedule i.

(** Nothing stands between the daemon and the source. *)
Definition sees (i : ExpectedSignalInput) : Prop :=
  sc_Enabled (Health i) = true /\ ConsecutiveFailures (Health i) < MaxConsecutiveFailures (Rule i) /\
  ConsecutiveFailures (Health i) <= 0 /\
  (RequireSourceLiveness (Rule i) = true -> TotalLines (Observed i) <> 0).

Definition proven (i : ExpectedSignalInput) : Prop :=
  LastSignalAt (Rule i) <> None \/ LastMatchAt (Observed i) <> None.

(** Collection is known to be broken, or the source has gone silent. *)
Definition blind (i : ExpectedSignalInput) : Prop :=
  sc_Enabled (Health i) = false \/ MaxConsecutiveFailures (Rule i) <= ConsecutiveFailures (Health i) \/
  (proven i /\ ConsecutiveFailures (Health i) <= 0 /\
   RequireSourceLiveness (Rule i) = true /\ TotalLines (Observed i) = 0).

Lemma evaluateSchedule_None i base :
  evaluateSchedule (Rule i) (in_Location i) (Now i) base = None <-> ~ settled_by_schedule i.
Proof.
  unfold evaluateSchedule, settled_by_schedule.
  destruct (activePeriodStart _ _ _) as [p|]; [|naive_solver].
  destruct (Z.ltb_spec (Sub (Now i) p) (Window (Rule i))); split; try done.
  - intros Hn. exfalso. apply Hn. by intros ? [= <-].
  - intros _ Hs. specialize (Hs p eq_refl). lia.
Qed.

Lemma evaluateSchedule_quiet i base d :
  evaluateSchedule (Rule i) (in_Location i) (Now i) base = Some d ->
  (Outcome d = OutcomeSignalOutsideActiveHours \/ Outcome d = OutcomeSignalPartialWindow) /\
  Raise d = Raise base.
Proof. unfold evaluateSchedule. repeat case_match; intros; simplify_eq; cbn; auto. Qed.

Lemma evaluateAbsence_absent i base :
  Outcome (evaluateAbsence i base) = OutcomeSignalAbsent <-> sees i /\ proven i.
Proof.
  unfold evaluateAbsence, sees, proven.
  destruct (sc_Enabled (Health i)), (RequireSourceLiveness (Rule i)); tests; cbn; naive_solver lia.
Qed.

Lemma evaluateAbsence_collection i base :
  Outcome (evaluateAbsence i base) = OutcomeSignalCollection <-> blind i.
Proof.
  unfold evaluateAbsence, blind, proven.
  destruct (sc_Enabled (Health i)), (RequireSourceLiveness (Rule i)); tests; cbn; naive_solver lia.
Qed.


Lemma evaluate_cases i :
  (due_to_speak i /\ exists base, Raise base = false /\ EvaluateExpectedSignal i = evaluateAbsence i base) \/
  (~ due_to_speak i /\ Raise (EvaluateExpectedSignal i) = false /\
   Outcome (EvaluateExpectedSignal i) <> OutcomeSignalAbsent /\
   Outcome (EvaluateExpectedSignal i) <> OutcomeSignalCollection).
Proof.
  unfold EvaluateExpectedSignal, due_to_speak. set (base := {| Outcome := _ |}).
  destruct (es_Enabled (Rule i)); cbn [negb]; [|right; naive_solver].
  destruct (warming (Rule i) (Now i)); [right; naive_solver|].
  destruct (Z.leb_spec (MinCount (Rule i)) (MatchCount (Observed i))) as [Hle|Hlt]; [right; naive_solver lia|].
  destruct (evaluateSchedule (Rule i) (in_Location i) (Now i) base) as [d|] eqn:Hs.
  - right. pose proof (evaluateSchedule_quiet _ _ _ Hs) as [Ho Hr].
    split; [|by destruct Ho as [-> | ->]].
    intros (_ & _ & _ & Hn). apply (evaluateSchedule_None i base) in Hn. congruence.
  - left. split; [|by exists base]. apply evaluateSchedule_None in Hs. naive_solver.
Qed.

Lemma evaluate_absent i :
  Outcome (EvaluateExpectedSignal i) = OutcomeSignalAbsent <-> due_to_speak i /\ sees i /\ proven i.
Proof.
  destruct (evaluate_cases i) as [(Hd & base & _ & ->)|(Hd & _ & Ha & _)].
  - rewrite evaluateAbsence_absent. naive_solver.
  - naive_solver.
Qed.

Lemma evaluate_collection i :
  Outcome (EvaluateExpectedSignal i) = OutcomeSignalCollection <-> due_to_speak i /\ blind i.
Proof.
  destruct (evaluate_cases i) as [(Hd & base & _ & ->)|(Hd & _ & _ & Hc)].
  - rewrite evaluateAbsence_collection. naive_solver.
  - naive_solver.
Qed.

Lemma evaluateAbsence_raise i base : Raise base = false ->
  Raise (evaluateAbsence i base) = true <->
  Outcome (evaluateAbsence i base) = OutcomeSignalAbsent \/
  Outcome (evaluateAbsence i base) = OutcomeSignalCollection.
Proof. intros Hb. unfold evaluateAbsence. repeat case_match; cbn; rewrite ?Hb; intuition congruence. Qed.

Lemma evaluate_raises i :
  Raise (EvaluateExpectedSignal i) = true <->
  Outcome (EvaluateExpectedSignal i) = OutcomeSignalAbsent \/
  Outcome (EvaluateExpectedSignal i) = OutcomeSignalCollection.
Proof.
  destruct (evaluate_cases i) as [(Hd & base & Hb & ->)|(Hd & Hr & Ha & Hc)].
  - by apply evaluateAbsence_raise.
  - rewrite Hr. naive_solver.
Qed.

(** What a raise says: which incident, how severe. *)
Lemma evaluate_class i : Raise (EvaluateExpectedSignal i) = true ->
  sd_Severity (EvaluateExpectedSignal i) = es_Severity (Rule i) /\
  SignalPresent (EvaluateExpectedSignal i) = false /\
  ClassKey (EvaluateExpectedSignal i) =
    if bool_decide (Outcome (EvaluateExpectedSignal i) = OutcomeSignalAbsent)
    then AbsenceClassKey (Rule i) else CollectionClassKey (Rule i).
Proof.
  unfold EvaluateExpectedSignal, evaluateSchedule, evaluateAbsence.
  repeat case_match; cbn; intros; simplify_eq; try done.
Qed.

(** ** The schedule in a zone of fixed offset *)

(** Minutes since the local epoch. *)
Definition minute_index (off t : Z) : Z := (t / Second + off) / 60.

(** The operator's reading of a schedule: is local minute [m] in its hours? *)
Definition in_hours (r : MonitoringExpectedSignal) (m : Z) : bool :=
  let on day := dayActive r (weekday day) in
  let day := m / 1440 in
  let minute := m mod 1440 in
  let start := ActiveStartMinute r in
  let end_ := ActiveEndMinute r in
  if allDay r then on day
  else if start <? end_ then on day && (start <=? minute) && (minute <? end_)
  else (on day && (start <=? minute)) || (on (day - 1) && (minute <? end_)).

Section FixedZone.
Context (r : MonitoringExpectedSignal) (off : Z).
#[local] Abbreviation loc := (fixed_zone off).
#[local] Abbreviation start := (ActiveStartMinute r).
#[local] Abbreviation end_ := (ActiveEndMinute r).

Lemma local_day_fixed t : local_day loc t = minute_index off t / 1440.
Proof. unfold local_day, local_secs, minute_index, offset. cbn. rewrite Z.div_div by lia. done. Qed.

Lemma local_minute_fixed t : local_minute loc t = minute_index off t mod 1440.
Proof.
  unfold local_minute, local_secs, minute_index, offset. cbn.
  generalize (t / Second + off). intros x. Z.to_euclidean_division_equations. lia.
Qed.

Lemma Date_fixed day secs nsec : Date loc day secs nsec = (day * 86400 + secs - off) * Second + nsec.
Proof.
  unfold Date, offset. cbn. destruct (Z.eqb_spec off 0) as [-> |]; [by rewrite Z.sub_0_r|].
  by destruct (_ || _).
Qed.

Lemma day_before_fixed t : day_before loc t = t - 86400 * Second.
Proof.
  unfold day_before. rewrite Date_fixed. unfold local_day, local_secs, offset. cbn.
  pose proof (Z.div_mod t Second ltac:(done)) as Ht.
  pose proof (Z.div_mod (t / Second + off) 86400 ltac:(done)) as Hd.
  set (q := t / Second) in *. set (d := (q + off) / 86400) in *. set (m := (q + off) mod 86400) in *. lia.
Qed.

(** The instant local minute [m] begins. *)
Definition at_minute (m : Z) : Z := (m * 60 - off) * Second.

Lemma at_minute_le m t : at_minute m <= t <-> m <= minute_index off t.
Proof.
  unfold at_minute, minute_index.
  pose proof (Z.div_mod t Second ltac:(done)) as Ht.
  pose proof (Z.mod_pos_bound t Second ltac:(done)) as Hb.
  pose proof (Z.div_mod (t / Second + off) 60 ltac:(done)) as Hq.
  pose proof (Z.mod_pos_bound (t / Second + off) 60 ltac:(done)) as Hc.
  unfold Second in *. lia.
Qed.

Lemma atLocalMinute_fixed t m : atLocalMinute loc t m = at_minute (minute_index off t / 1440 * 1440 + m).
Proof. unfold atLocalMinute, at_minute, Minute. rewrite Date_fixed, local_day_fixed. lia. Qed.

Lemma minute_index_day_before t : minute_index off (t - 86400 * Second) = minute_index off t - 1440.
Proof.
  unfold minute_index. replace (t - 86400 * Second) with (t + (-86400) * Second) by lia.
  rewrite Z.div_add by done. replace (_ + -86400 + off) with (t / Second + off + (-1440) * 60) by lia.
  rewrite Z.div_add by done. lia.
Qed.

Lemma in_hours_day m k : 0 <= k < 1440 -> allDay r = true ->
  in_hours r (m * 1440 + k) = dayActive r (weekday m).
Proof.
  intros Hk Ha. unfold in_hours. rewrite Ha. f_equal. f_equal.
  rewrite Z.add_comm, Z.div_add, Z.div_small by lia. lia.
Qed.

(** The walk goes back over active days, to an inactive one or for its bound. *)
Lemma walk_back_fixed n t : exists k, (k <= n)%nat /\
  walk_back r loc n t = t - Z.of_nat k * 86400 * Second /\
  (forall j, 1 <= j <= Z.of_nat k -> dayActive r (weekday (minute_index off t / 1440 - j)) = true) /\
  (k = n \/ dayActive r (weekday (minute_index off t / 1440 - Z.of_nat k - 1)) = false).
Proof.
  revert t. induction n as [|n IH]; intros t; cbn [walk_back].
  { exists 0%nat. repeat split; [lia|lia|lia|by left]. }
  rewrite day_before_fixed, local_day_fixed, minute_index_day_before.
  replace ((minute_index off t - 1440) / 1440) with (minute_index off t / 1440 - 1)
    by (replace (minute_index off t - 1440) with (minute_index off t + (-1) * 1440) by lia;
        rewrite Z.div_add by done; lia).
  destruct (dayActive r (weekday (minute_index off t / 1440 - 1))) eqn:Hd.
  - destruct (IH (t - 86400 * Second)) as (k & Hk & -> & Hall & Hend).
    rewrite minute_index_day_before in Hall, Hend.
    replace ((minute_index off t - 1440) / 1440) with (minute_index off t / 1440 - 1) in Hall, Hend
      by (replace (minute_index off t - 1440) with (minute_index off t + (-1) * 1440) by lia;
          rewrite Z.div_add by done; lia).
    exists (S k). split; [lia|]. split; [lia|]. split.
    + intros j Hj. destruct (decide (j = 1)) as [-> | Hne]; [done|].
      replace (minute_index off t / 1440 - j) with (minute_index off t / 1440 - 1 - (j - 1)) by lia.
      apply Hall. lia.
    + destruct Hend as [-> | Hf]; [by left|right]. by replace (_ - Z.of_nat (S k) - 1) with (minute_index off t / 1440 - 1 - Z.of_nat k - 1) by lia.
  - exists 0%nat. repeat split; [lia|lia|lia|right]. by replace (_ - Z.of_nat 0 - 1) with (minute_index off t / 1440 - 1) by lia.
Qed.

Lemma minute_parts d k : 0 <= k < 1440 -> (d * 1440 + k) / 1440 = d /\ (d * 1440 + k) mod 1440 = k.
Proof.
  intros Hk. split.
  - rewrite Z.add_comm, Z.div_add, Z.div_small by lia. lia.
  - rewrite Z.add_comm, Z.mod_add, Z.mod_small by lia. lia.
Qed.

Lemma minute_split m : exists d k, m = d * 1440 + k /\ 0 <= k < 1440.
Proof.
  exists (m / 1440), (m mod 1440).
  pose proof (Z.div_mod m 1440 ltac:(done)). pose proof (Z.mod_pos_bound m 1440 ltac:(done)). lia.
Qed.

(** A period with its declarative reading. *)
Definition period_from (n mp : Z) : Prop :=
  mp <= n /\ (forall m, mp <= m <= n -> in_hours r m = true) /\
  (in_hours r (mp - 1) = false \/ mp = (n / 1440 - 8) * 1440).

Hypothesis minutes_valid : 0 <= start <= 1440 /\ 0 <= end_ <= 1440.

Lemma all_day_period t p : allDay r = true -> allDayPeriodStart r loc t = Some p ->
  exists mp, p = at_minute mp /\ period_from (minute_index off t) mp.
Proof.
  intros Ha. unfold allDayPeriodStart. rewrite local_day_fixed.
  destruct (dayActive r (weekday (minute_index off t / 1440))) eqn:Hon; [|done]. intros <-%(inj Some).
  destruct (walk_back_fixed maxActiveWalkbackDays t) as (k & Hk & -> & Hall & Hend).
  rewrite atLocalMinute_fixed.
  assert (minute_index off (t - Z.of_nat k * 86400 * Second) = minute_index off t - Z.of_nat k * 1440) as ->.
  { unfold minute_index. replace (t - _) with (t + (- Z.of_nat k * 86400) * Second) by lia.
    rewrite Z.div_add by done.
    replace (_ + _ + off) with (t / Second + off + (- Z.of_nat k * 1440) * 60) by lia.
    rewrite Z.div_add by done. lia. }
  destruct (minute_split (minute_index off t)) as (d & c & Hn & Hc). rewrite Hn in *.
  replace (d * 1440 + c - Z.of_nat k * 1440) with ((d - Z.of_nat k) * 1440 + c) by lia.
  destruct (minute_parts d c Hc) as [Hd _], (minute_parts (d - Z.of_nat k) c Hc) as [Hd' _].
  rewrite Hd in *. rewrite Hd'. exists ((d - Z.of_nat k) * 1440). split; [f_equal; lia|]. split; [lia|]. split.
  - intros m Hm. destruct (minute_split m) as (d' & c' & -> & Hc'). rewrite in_hours_day by done.
    destruct (decide (d' = d)) as [-> |]; [done|]. replace d' with (d - (d - d')) by lia. apply Hall. lia.
  - destruct Hend as [-> | Hf]; [right; rewrite Hd; reflexivity|left].
    replace (_ - 1) with ((d - Z.of_nat k - 1) * 1440 + 1439) by lia. by rewrite in_hours_day.
Qed.

(** [activePeriodStart] finds the start of the longest stretch of hours that ends
    now, cut at eight days before today. *)
Lemma active_period t :
  match activePeriodStart r loc t with
  | None => in_hours r (minute_index off t) = false
  | Some p => exists mp, p = at_minute mp /\ period_from (minute_index off t) mp
  end.
Proof.
  unfold activePeriodStart. destruct (allDay r) eqn:Ha.
  { destruct (allDayPeriodStart r loc t) as [p|] eqn:Hp; [by apply all_day_period|].
    unfold allDayPeriodStart in Hp. rewrite local_day_fixed in Hp. unfold in_hours. rewrite Ha.
    by destruct (dayActive _ _). }
  rewrite local_minute_fixed, local_day_fixed, !day_before_fixed, local_day_fixed, !atLocalMinute_fixed,
    minute_index_day_before.
  unfold period_from.
  destruct (minute_split (minute_index off t)) as (d & c & -> & Hc).
  replace (d * 1440 + c - 1440) with ((d - 1) * 1440 + c) by lia.
  destruct (minute_parts d c Hc) as [-> ->], (minute_parts (d - 1) c Hc) as [-> _].
  assert (forall e k, 0 <= k < 1440 -> in_hours r (e * 1440 + k) =
    if start <? end_ then dayActive r (weekday e) && (start <=? k) && (k <? end_)
    else (dayActive r (weekday e) && (start <=? k)) || (dayActive r (weekday (e - 1)) && (k <? end_))) as Hin.
  { intros e k Hk. unfold in_hours. by rewrite Ha, (proj1 (minute_parts e k Hk)), (proj2 (minute_parts e k Hk)). }
  assert (start <> end_ /\ (start = 0 -> end_ < 1440)) as [Hne H0].
  { unfold allDay, expectedSignalDayMinutes in Ha. destruct (Z.eqb_spec start end_); [done|].
    split; [done|]. intros H0. rewrite H0 in Ha. cbn in Ha. by apply Z.leb_gt in Ha. }
  destruct (Z.ltb_spec start end_) as [Hlt|Hge].
  - rewrite Hin by done. destruct (dayActive r (weekday d)) eqn:Hon; cbn [negb andb orb]; [|done].
    destruct (Z.ltb_spec c start), (Z.leb_spec end_ c), (Z.leb_spec start c), (Z.ltb_spec c end_);
      cbn; try done; try lia.
    exists (d * 1440 + start). split; [done|]. split; [lia|]. split; [|left].
    + intros m Hm. destruct (minute_split m) as (e & k & -> & Hk). assert (e = d) as -> by lia.
      rewrite Hin, Hon by done. apply andb_true_iff. split; [apply Z.leb_le|apply Z.ltb_lt]; lia.
    + destruct (decide (start = 0)) as [Hz |].
      * rewrite Hz. replace (d * 1440 + 0 - 1) with ((d - 1) * 1440 + 1439) by lia. rewrite Hin by lia.
        apply andb_false_iff. right. apply Z.ltb_ge. lia.
      * replace (d * 1440 + start - 1) with (d * 1440 + (start - 1)) by lia. rewrite Hin by lia.
        apply andb_false_iff. left. apply andb_false_iff. right. apply Z.leb_gt. lia.
  - assert (forall e, in_hours r (e * 1440 + start - 1) = false) as Hbefore.
    { intros e. replace (e * 1440 + start - 1) with (e * 1440 + (start - 1)) by lia. rewrite Hin by lia.
      apply orb_false_iff. split; apply andb_false_iff; right; [apply Z.leb_gt|apply Z.ltb_ge]; lia. }
    rewrite Hin by done. destruct (Z.leb_spec start c) as [Hs|Hs].
    + destruct (dayActive r (weekday d)) eqn:Hon; cbn [negb andb orb].
      2: { apply andb_false_iff. right. apply Z.ltb_ge. lia. }
      exists (d * 1440 + start). split; [done|]. split; [lia|]. split; [|by left].
      intros m Hm. destruct (minute_split m) as (e & k & -> & Hk). assert (e = d) as -> by lia.
      rewrite Hin, Hon by done. apply orb_true_iff. left. apply Z.leb_le. lia.
    + rewrite andb_false_r. cbn [orb]. destruct (Z.ltb_spec c end_) as [He|He]; [|by rewrite andb_false_r].
      destruct (dayActive r (weekday (d - 1))) eqn:Hon; cbn [negb andb]; [|done].
      exists ((d - 1) * 1440 + start). split; [done|]. split; [lia|]. split; [|by left].
      intros m Hm. destruct (minute_split m) as (e & k & -> & Hk). rewrite Hin by done.
      assert (e = d \/ e = d - 1) as [-> | ->] by lia.
      * rewrite Hon. apply orb_true_iff. right. apply Z.ltb_lt. lia.
      * rewrite Hon. apply orb_true_iff. left. apply Z.leb_le. lia.
Qed.

(** A full window has passed in the current period exactly when every instant
    of the window was in the hours. *)
Lemma window_in_hours t w : 0 <= w <= MaxExpectedSignalWindow ->
  (exists p, activePeriodStart r loc t = Some p /\ w <= t - p) <->
  (forall u, t - w <= u <= t -> in_hours r (minute_index off u) = true).
Proof.
  intros Hw. pose proof (active_period t) as Hp.
  destruct (activePeriodStart r loc t) as [p|].
  2: { split; [naive_solver|]. intros H. rewrite H in Hp by lia. done. }
  destruct Hp as (mp & -> & Hle & Hin & Hend). split.
  - intros (p' & [= <-] & Hwp) u Hu. apply Hin. split.
    + apply at_minute_le. lia.
    + apply Z.div_le_mono; [lia|]. apply Z.add_le_mono_r. apply Z.div_le_mono; [done|lia].
  - intros H. exists (at_minute mp). split; [done|].
    destruct Hend as [Hf | ->].
    + destruct (Z.le_gt_cases w (t - at_minute mp)) as [|Hgt]; [done|]. exfalso.
      assert (minute_index off (at_minute mp - 1) = mp - 1) as Hi.
      { assert (~ mp <= minute_index off (at_minute mp - 1)) by (rewrite <- at_minute_le; lia).
        assert (mp - 1 <= minute_index off (at_minute mp - 1))
          by (apply at_minute_le; unfold at_minute, Second; lia). lia. }
      specialize (H (at_minute mp - 1)). rewrite Hi, Hf in H.
      assert (at_minute mp <= t) by (by apply at_minute_le). discriminate H. lia.
    + assert (at_minute (minute_index off t / 1440 * 1440) <= t).
      { apply at_minute_le. pose proof (Z.mul_div_le (minute_index off t) 1440). lia. }
      unfold at_minute, MaxExpectedSignalWindow, Minute, Second in *. lia.
Qed.
End FixedZone.

(** ** Valid rules *)

Lemma valid_iff load r : ValidateMonitoringExpectedSignal load r = None <->
  TrimSpace (es_Name r) <> "" /\ TrimSpace (es_SourceID r) <> "" /\ 0 < MinCount r /\
  ValidSeverity (es_Severity r) = true /\ (MinSeverity r = "" \/ ValidSeverity (MinSeverity r) = true) /\
  MinExpectedSignalWindow <= Window r <= MaxExpectedSignalWindow /\
  (String.length (MatchSubstring r) <= 500)%nat /\ 1 <= ActiveDaysMask r <= 127 /\
  0 <= ActiveStartMinute r <= 1440 /\ 0 <= ActiveEndMinute r <= 1440 /\ is_Some (location load r).
Proof.
  unfold ValidateMonitoringExpectedSignal, validateExpectedSignalWindow, validateExpectedSignalSchedule,
    minute_ok, expectedSignalDayMinutes, allWeekdaysMask.
  repeat (setoid_rewrite guard_None || setoid_rewrite guards_None).
  rewrite !bool_decide_eq_false, !orb_false_iff, !negb_false_iff, !andb_true_iff, !negb_true_iff,
    !orb_false_iff, !Z.leb_gt, !Z.ltb_ge, Nat.ltb_ge, andb_false_iff, !negb_false_iff, bool_decide_eq_true.
  destruct (location load r); [|naive_solver].
  rewrite !Z.le_ngt. intuition (eauto; lia).
Qed.

Lemma valid_bounds load r : ValidateMonitoringExpectedSignal load r = None ->
  Minute <= Window r <= MaxExpectedSignalWindow /\
  0 <= ActiveStartMinute r <= 1440 /\ 0 <= ActiveEndMinute r <= 1440.
Proof. rewrite valid_iff. unfold MinExpectedSignalWindow. tauto. Qed.

Lemma Sub_ge w t p : - 2 ^ 63 < w < 2 ^ 63 -> w <= Sub t p <-> w <= t - p.
Proof. intros Hw. unfold Sub. lia. Qed.

Lemma spoke_in_hours load i off :
  ValidateMonitoringExpectedSignal load (Rule i) = None ->
  default UTC (in_Location i) = fixed_zone off ->
  ~ settled_by_schedule i <->
  (forall u, WindowStart (Rule i) (Now i) <= u <= Now i -> in_hours (Rule i) (minute_index off u) = true).
Proof.
  intros (Hw & Hs & He)%valid_bounds Hloc.
  assert (- 2 ^ 63 < Window (Rule i) < 2 ^ 63)
    by (unfold MaxExpectedSignalWindow, Minute, Second in *; lia).
  unfold WindowStart. rewrite <- window_in_hours; [|by split|unfold Minute, Second in *; lia].
  unfold settled_by_schedule. rewrite Hloc.
  destruct (activePeriodStart _ _ _) as [p|]; [|naive_solver].
  pose proof (Sub_ge (Window (Rule i)) (Now i) p ltac:(done)). split.
  - intros Hn. exists p. split; [done|]. destruct (Z.le_gt_cases (Window (Rule i)) (Now i - p)); [done|].
    exfalso. apply Hn. intros p' [= <-]. lia.
  - intros (p' & [= <-] & Hp) Hn. specialize (Hn p eq_refl). lia.
Qed.

(** C38: what an alert means.  For a valid rule in a zone of fixed offset, a
    raise is an absence or a collection incident; an absence is claimed exactly
    when the rule is on and warm, every instant of its window was in its hours,
    too few lines matched, the signal has been seen before and nothing hides
    the source; a collection incident, when the source is off, failing or
    silent instead. *)
Theorem expected_signal_decides load i off :
  ValidateMonitoringExpectedSignal load (Rule i) = None ->
  default UTC (in_Location i) = fixed_zone off ->
  let d := EvaluateExpectedSignal i in
  let expected := es_Enabled (Rule i) = true /\ warming (Rule i) (Now i) = false /\
    MatchCount (Observed i) < MinCount (Rule i) /\
    (forall u, WindowStart (Rule i) (Now i) <= u <= Now i -> in_hours (Rule i) (minute_index off u) = true) in
  (Raise d = true <-> Outcome d = OutcomeSignalAbsent \/ Outcome d = OutcomeSignalCollection) /\
  (Outcome d = OutcomeSignalAbsent <-> expected /\ sees i /\ proven i) /\
  (Outcome d = OutcomeSignalCollection <-> expected /\ blind i).
Proof.
  intros Hv Hloc. cbn zeta. rewrite <- (spoke_in_hours load i off Hv Hloc).
  split; [apply evaluate_raises|]. rewrite evaluate_absent, evaluate_collection.
  unfold due_to_speak. split; naive_solver.
Qed.

(** Defaults make a rule well-formed: after [ApplyExpectedSignalDefaults]
    exactly the knobs without a default can still be wrong. *)
Theorem defaults_validate load r :
  ValidateMonitoringExpectedSignal load (ApplyExpectedSignalDefaults r) = None <->
  TrimSpace (es_Name r) <> "" /\ TrimSpace (es_SourceID r) <> "" /\
  (es_Severity r = "" \/ ValidSeverity (es_Severity r) = true) /\
  (MinSeverity r = "" \/ ValidSeverity (MinSeverity r) = true) /\
  MinExpectedSignalWindow <= Window r <= MaxExpectedSignalWindow /\
  (String.length (MatchSubstring r) <= 500)%nat /\
  0 <= ActiveDaysMask r <= 127 /\
  0 <= ActiveStartMinute r <= 1440 /\ 0 <= ActiveEndMinute r <= 1440 /\
  is_Some (location load r).
Proof.
  assert (location load (ApplyExpectedSignalDefaults r) = location load r) as Hloc.
  { unfold location. cbn [Timezone ApplyExpectedSignalDefaults]. cbv zeta.
    destruct (decide (TrimSpace (Timezone r) = "")) as [Hz|Hz].
    - rewrite (bool_decide_eq_true_2 _ Hz). change (TrimSpace "UTC") with "UTC". reflexivity.
    - rewrite (bool_decide_eq_false_2 _ Hz). cbv iota. by rewrite (bool_decide_eq_false_2 _ Hz). }
  rewrite valid_iff, Hloc. change (Window (ApplyExpectedSignalDefaults r)) with (Window r). cbn.
  assert (0 < if MinCount r <=? 0 then 1 else MinCount r) by (tests; lia).
  assert (ValidSeverity (if bool_decide (es_Severity r = "") then "error" else es_Severity r) = true <->
    es_Severity r = "" \/ ValidSeverity (es_Severity r) = true) as -> by (tests; split; intros; destruct_or?; subst; auto; done).
  assert (1 <= (if ActiveDaysMask r =? 0 then allWeekdaysMask else ActiveDaysMask r) <= 127 <->
    0 <= ActiveDaysMask r <= 127) as -> by (unfold allWeekdaysMask; tests; lia).
  assert ((0 <= ActiveStartMinute r <= 1440 /\
    0 <= (if (ActiveStartMinute r =? 0) && (ActiveEndMinute r =? 0) then expectedSignalDayMinutes else ActiveEndMinute r) <= 1440) <->
    0 <= ActiveStartMinute r <= 1440 /\ 0 <= ActiveEndMinute r <= 1440) as Hm
    by (unfold expectedSignalDayMinutes; tests; lia).
  tauto.
Qed.

(** ** Examples *)

(** One order an hour, in office hours on working days. *)
Definition office_rule (window_seconds : Z) : MonitoringExpectedSignal := {|
  es_ID := "r1"; es_WorkspaceID := "w1"; es_SourceID := "s1"; es_Name := "orders"; MatchSubstring := "order";
  MinSeverity := ""; MinCount := 1; WindowSeconds := window_seconds; es_Severity := "error"; Timezone := "UTC";
  ActiveDaysMask := 62; ActiveStartMinute := 540; ActiveEndMinute := 1020; RequireSourceLiveness := true;
  MaxConsecutiveFailures := 3; es_Enabled := true; LastEvaluatedAt := None; LastSignalAt := Some 0;
  LastOutcome := ""; LastRaisedAt := None; LastRecoveredAt := None; ActiveIncidentID := ""; es_CreatedAt := None |}.

(** Thursday 2024-02-29, 12:34 UTC. *)
Definition thursday_noon : Z := 1709210040 * Second.

Definition quiet_input (window_seconds lines failures : Z) : ExpectedSignalInput := {|
  Rule := office_rule window_seconds; Observed := {| MatchCount := 0; TotalLines := lines; LastMatchAt := None |};
  Health := {| sc_Enabled := true; ConsecutiveFailures := failures |}; Now := thursday_noon; in_Location := None |}.

Definition no_zones (name : string) : option Location := None.

Example expected_signal_decides_witness :
  ValidateMonitoringExpectedSignal no_zones (office_rule 3600) = None /\
  Raise (EvaluateExpectedSignal (quiet_input 3600 5 0)) = true.
Proof.
  split; [reflexivity|].
  refine (proj2 (proj1 (expected_signal_decides no_zones (quiet_input 3600 5 0) 0 _ _)) _); [reflexivity|reflexivity|].
  left. vm_compute. reflexivity.
Defined.

Example decision_samples :
  map (fun i => Outcome (EvaluateExpectedSignal i))
    [quiet_input 3600 5 0; quiet_input 3600 0 0; quiet_input 3600 5 1; quiet_input 3600 5 3; quiet_input 18000 5 0] =
  [OutcomeSignalAbsent; OutcomeSignalCollection; OutcomeSignalInconclusive; OutcomeSignalCollection;
   OutcomeSignalPartialWindow].
Proof. vm_compute. reflexivity. Qed.

(** A rule whose window is longer than its daily hours is valid and never
    speaks: no full window ever passes inside a period. *)
Theorem long_window_is_mute load i off :
  ValidateMonitoringExpectedSignal load (Rule i) = None ->
  default UTC (in_Location i) = fixed_zone off -> allDay (Rule i) = false ->
  ActiveStartMinute (Rule i) < ActiveEndMinute (Rule i) ->
  (ActiveEndMinute (Rule i) - ActiveStartMinute (Rule i)) * Minute < Window (Rule i) ->
  Raise (EvaluateExpectedSignal i) = false.
Proof.
  intros (Hw & Hs & He)%valid_bounds Hloc Hall Hlt Hlong.
  destruct (evaluate_cases i) as [((_ & _ & _ & Hd) & _)|(_ & ? & _)]; [|done].
  exfalso. apply Hd. intros p. rewrite Hloc. unfold activePeriodStart.
  rewrite Hall, local_minute_fixed, local_day_fixed, atLocalMinute_fixed.
  rewrite (proj2 (Z.ltb_lt _ _) Hlt).
  destruct (minute_split (minute_index off (Now i))) as (d & c & Hn & Hc). rewrite Hn.
  destruct (minute_parts d c Hc) as [-> ->].
  destruct (negb _); [done|]. destruct (Z.ltb_spec c (ActiveStartMinute (Rule i))); [done|].
  destruct (Z.leb_spec (ActiveEndMinute (Rule i)) c); [done|]. intros [= <-].
  enough (Now i - at_minute off (d * 1440 + ActiveStartMinute (Rule i)) < Window (Rule i))
    by (unfold Sub, Minute, Second in *; lia).
  enough (Now i < at_minute off (d * 1440 + ActiveEndMinute (Rule i)))
    by (unfold at_minute, Minute in *; lia).
  apply Z.lt_nge. rewrite at_minute_le. lia.
Qed.

Example long_window_is_mute_witness :
  ValidateMonitoringExpectedSignal no_zones (office_rule 43200) = None /\
  Raise (EvaluateExpectedSignal (quiet_input 43200 0 9)) = false.
Proof. split; [reflexivity|]. by apply (long_window_is_mute no_zones _ 0). Defined.

(** The bound on [window_seconds] is checked on the wrapped product: this rule
    asks for more than a billion years and gets a minute. *)
Lemma window_wraps :
  ValidateMonitoringExpectedSignal no_zones (office_rule (2 ^ 55 + 60)) = None /\
  Window (office_rule (2 ^ 55 + 60)) = Minute.
Proof. split; vm_compute; reflexivity. Qed.
