(* ===== verification/Incident.v ===== *)
(** The persistence policy of monitoring incidents:
    [internal/store/sqlite/monitoring_incident_notify.go], on the row type of
    [internal/store/monitoring.go].

    Instants and durations are nanoseconds; what a row holds has been through
    [formatTime], so it is a whole number of seconds ([to_column]). *)

From Stdlib Require Import Ascii String ZArith.
From stdpp Require Import base list option sets strings.
From S2P Require Import Prelude GoStrings Monitoring.

#[local] Open Scope string_scope.
#[local] Open Scope list_scope.
#[local] Open Scope Z_scope.

(** [formatTime] and [parseTime]. *)
Definition to_column (t : Z) : Z := t / Second * Second.

(** The zero time, year 1. *)
Definition zero_time : Z := -62135596800 * Second.

Definition Hour : Z := 60 * Minute.

Record MonitoringIncident := {
  i_ID : string; i_WorkspaceID : string; i_ClassKey : string; i_TaskID : string;
  Disposition : string; Severity : string; i_Title : string; OccurrenceCount : Z; EventCount : Z;
  FirstSeen : Z; LastSeen : Z; LastNotifiedAt : option Z; LastNotifiedSeverity : string;
  AckedAt : option Z; AckedBy : string; AckedSeverity : string;
  SilencedAt : option Z; SilencedUntil : option Z; SilencedBy : string; SilencedSeverity : string;
  i_CreatedAt : Z; i_UpdatedAt : Z }.

(** ** monitoring_incident_notify.go *)

Definition monitoringRenotifyBaseWarn : Z := 4 * Hour.
Definition monitoringRenotifyBaseError : Z := Hour.
Definition monitoringRenotifyBaseCritical : Z := 30 * Minute.
Definition monitoringRenotifyCapWarn : Z := 24 * Hour.
Definition monitoringRenotifyCapError : Z := 12 * Hour.
Definition monitoringRenotifyCapCritical : Z := 4 * Hour.
Definition monitoringAgeEscalateTier1 : Z := 4 * Hour.
Definition monitoringAgeEscalateTier2 : Z := 12 * Hour.
Definition monitoringIncidentActiveWindow : Z := Hour.
Definition monitoringSustainedOccurrences : Z := 2.

Record monitoringNotificationDecision := { Notify : bool; nd_Reason : string; EffectiveSeverity : string }.

Definition severityHigher (a b : string) : bool := SeverityRank b <? SeverityRank a.

Definition monitoringEffectiveSeverity (i : MonitoringIncident) (now : Z) : string := Severity i.
Definition monitoringSustained (i : MonitoringIncident) : bool := monitoringSustainedOccurrences <=? OccurrenceCount i.

Definition monitoringIncidentActive (i : MonitoringIncident) (now : Z) : bool :=
  if LastSeen i =? zero_time then false else Sub now (LastSeen i) <=? monitoringIncidentActiveWindow.

Definition monitoringAgeTier (age : Z) : Z :=
  if monitoringAgeEscalateTier2 <=? age then 2 else if monitoringAgeEscalateTier1 <=? age then 1 else 0.

Definition monitoringRenotifyBounds (severity : string) : Z * Z :=
  if bool_decide (severity = "critical") then (monitoringRenotifyBaseCritical, monitoringRenotifyCapCritical)
  else if bool_decide (severity = "error") then (monitoringRenotifyBaseError, monitoringRenotifyCapError)
  else (monitoringRenotifyBaseWarn, monitoringRenotifyCapWarn).

(** The doubling loop; no cap is eight doublings above its base. *)
Fixpoint renotify_loop (fuel : nat) (interval ceiling age : Z) : Z :=
  match fuel with
  | O => interval
  | S fuel' =>
      if (interval <? ceiling) && (interval * 2 <=? age) then renotify_loop fuel' (interval * 2) ceiling age
      else interval
  end.

Definition monitoringRenotifyInterval (severity : string) (age : Z) : Z :=
  let '(base, ceiling) := monitoringRenotifyBounds severity in
  let interval := renotify_loop 8 base ceiling age in
  if ceiling <? interval then ceiling else interval.

Definition monitoringSilenceActive (i : MonitoringIncident) (now : Z) : bool :=
  match SilencedUntil i with None => false | Some u => now <? u end.

Definition monitoringActionSuppressed (i : MonitoringIncident) (now : Z) (effective : string) : bool :=
  if monitoringSilenceActive i now && negb (severityHigher effective (SilencedSeverity i)) then true
  else match AckedAt i with
       | Some _ => negb (severityHigher effective (AckedSeverity i))
       | None => false
       end.

Definition monitoringPersistenceDue (i : MonitoringIncident) (now lastNotified : Z)
    (silent : monitoringNotificationDecision) (notify : string -> monitoringNotificationDecision)
    : monitoringNotificationDecision :=
  if monitoringSustained i &&
     (monitoringAgeTier (Sub lastNotified (FirstSeen i)) <? monitoringAgeTier (Sub now (FirstSeen i)))
  then notify "age_escalation"
  else
    let interval := monitoringRenotifyInterval (EffectiveSeverity silent) (Sub now (FirstSeen i)) in
    if interval <=? Sub now lastNotified then notify "persistent_incident" else silent.

Definition monitoringNotificationDueRaw (i : MonitoringIncident) (newIncident : bool) (now : Z)
    : monitoringNotificationDecision :=
  let silent := {| Notify := false; nd_Reason := ""; EffectiveSeverity := monitoringEffectiveSeverity i now |} in
  let notify reason := {| Notify := true; nd_Reason := reason; EffectiveSeverity := EffectiveSeverity silent |} in
  if SeverityRank (Severity i) <? SeverityRank "warn" then silent
  else if bool_decide (Disposition i = "benign") then silent
  else match LastNotifiedAt i with
  | None => notify (if newIncident then "new_incident" else "unnotified_incident")
  | Some lastNotified =>
      if severityHigher (Severity i) (LastNotifiedSeverity i) then notify "severity_escalation"
      else if negb (monitoringIncidentActive i now) then silent
      else monitoringPersistenceDue i now lastNotified silent notify
  end.

Definition monitoringNotificationDue (i : MonitoringIncident) (newIncident : bool) (now : Z)
    : monitoringNotificationDecision :=
  let d := monitoringNotificationDueRaw i newIncident now in
  if Notify d && monitoringActionSuppressed i now (EffectiveSeverity d)
  then {| Notify := false; nd_Reason := ""; EffectiveSeverity := EffectiveSeverity d |}
  else d.

(** ** What the policy decides *)

(** A class worth a reminder at all. *)
Definition notifiable (i : MonitoringIncident) : Prop := 1 <= SeverityRank (Severity i) /\ Disposition i <> "benign".

(** The operator's pause holds, and the severity has not risen above its floor. *)
Definition muted (i : MonitoringIncident) (now : Z) : Prop :=
  (exists u, SilencedUntil i = Some u /\ now < u /\ SeverityRank (Severity i) <= SeverityRank (SilencedSeverity i)) \/
  (is_Some (AckedAt i) /\ SeverityRank (Severity i) <= SeverityRank (AckedSeverity i)).

(** The incident was seen within the last hour. *)
Definition recurring (i : MonitoringIncident) (now : Z) : Prop :=
  LastSeen i <> zero_time /\ now - LastSeen i <= monitoringIncidentActiveWindow.

(** It crossed an age boundary since [last], or its quiet period has run out. *)
Definition reminder_due (i : MonitoringIncident) (now last : Z) : Prop :=
  (2 <= OccurrenceCount i /\ monitoringAgeTier (last - FirstSeen i) < monitoringAgeTier (now - FirstSeen i)) \/
  monitoringRenotifyInterval (Severity i) (Sub now (FirstSeen i)) <= now - last.

Lemma suppressed_muted i now : monitoringActionSuppressed i now (Severity i) = true <-> muted i now.
Proof.
  unfold monitoringActionSuppressed, monitoringSilenceActive, severityHigher, muted.
  assert (match AckedAt i with
          | Some _ => negb (SeverityRank (AckedSeverity i) <? SeverityRank (Severity i))
          | None => false
          end = true <-> is_Some (AckedAt i) /\ SeverityRank (Severity i) <= SeverityRank (AckedSeverity i)) as Ha.
  { destruct (AckedAt i); [|by split; [|intros [[? ?] _]]]. rewrite negb_true_iff, Z.ltb_ge. naive_solver. }
  rewrite <- Ha. clear Ha. destruct (SilencedUntil i) as [u|]; [|naive_solver].
  destruct (Z.ltb_spec now u), (Z.ltb_spec (SeverityRank (SilencedSeverity i)) (SeverityRank (Severity i)));
    cbn [negb andb].
  2: { split; [|done]. intros _. left. eauto. }
  all: split; [by right|]; intros [(? & [= <-] & ? & ?)|?]; [lia|done].
Qed.

Lemma renotify_loop_ge n b c age : 0 < b -> b <= renotify_loop n b c age.
Proof.
  revert b. induction n as [|n IH]; intros b Hb; cbn; [lia|]. destruct (_ && _); [|lia].
  specialize (IH (b * 2)). lia.
Qed.

Definition base_of (severity : string) : Z := fst (monitoringRenotifyBounds severity).
Definition cap_of (severity : string) : Z := snd (monitoringRenotifyBounds severity).

Lemma bounds_order severity : 30 * Minute <= base_of severity <= 4 * Hour /\ base_of severity < cap_of severity <= 24 * Hour.
Proof.
  unfold base_of, cap_of, monitoringRenotifyBounds. repeat case_bool_decide; cbn;
    unfold monitoringRenotifyBaseCritical, monitoringRenotifyCapCritical, monitoringRenotifyBaseError,
      monitoringRenotifyCapError, monitoringRenotifyBaseWarn, monitoringRenotifyCapWarn, Hour, Minute, Second; lia.
Qed.

Lemma interval_bounds severity age :
  base_of severity <= monitoringRenotifyInterval severity age <= cap_of severity.
Proof.
  pose proof (bounds_order severity) as Hb. unfold monitoringRenotifyInterval, base_of, cap_of in *.
  destruct (monitoringRenotifyBounds severity) as [b c]; cbn [fst snd] in *.
  pose proof (renotify_loop_ge 8 b c age) as Hl. unfold Minute, Second in *.
  destruct (Z.ltb_spec c (renotify_loop 8 b c age)); lia.
Qed.

(** The loop stops because it is done, not for lack of fuel. *)
Lemma renotify_loop_done n b c age : 0 < b -> c <= b * 2 ^ Z.of_nat n ->
  c <= renotify_loop n b c age \/ age < renotify_loop n b c age * 2.
Proof.
  revert b. induction n as [|n IH]; intros b Hb Hc; cbn [renotify_loop].
  { rewrite Z.mul_1_r in Hc. by left. }
  destruct (Z.ltb_spec b c), (Z.leb_spec (b * 2) age); cbn; try lia.
  apply IH; [lia|]. rewrite Nat2Z.inj_succ, Z.pow_succ_r in Hc by lia. lia.
Qed.

Lemma interval_done severity age :
  monitoringRenotifyInterval severity age = cap_of severity \/
  age < monitoringRenotifyInterval severity age * 2.
Proof.
  unfold monitoringRenotifyInterval, cap_of.
  assert (0 < base_of severity /\ cap_of severity <= base_of severity * 2 ^ Z.of_nat 8) as [Hb Hc].
  { pose proof (bounds_order severity). unfold Hour, Minute, Second in *. cbn. lia. }
  unfold base_of, cap_of in *. destruct (monitoringRenotifyBounds severity) as [b c]; cbn [fst snd] in *.
  destruct (renotify_loop_done 8 b c age Hb Hc) as [|]; destruct (Z.ltb_spec c (renotify_loop 8 b c age)); lia.
Qed.

Lemma tier_sub u v : monitoringAgeTier (Sub u v) = monitoringAgeTier (u - v).
Proof.
  unfold monitoringAgeTier.
  pose proof (Sub_ge monitoringAgeEscalateTier1 u v ltac:(unfold monitoringAgeEscalateTier1, Hour, Minute, Second; lia)).
  pose proof (Sub_ge monitoringAgeEscalateTier2 u v ltac:(unfold monitoringAgeEscalateTier2, Hour, Minute, Second; lia)).
  tests; lia.
Qed.

Lemma active_recurring i now : monitoringIncidentActive i now = true <-> recurring i now.
Proof.
  unfold monitoringIncidentActive, recurring, monitoringIncidentActiveWindow.
  destruct (Z.eqb_spec (LastSeen i) zero_time); [naive_solver|]. rewrite Z.leb_le.
  unfold Sub, Hour, Minute, Second. naive_solver lia.
Qed.

Lemma persistence_due i now last silent notify :
  Notify silent = false -> EffectiveSeverity silent = Severity i -> (forall r, Notify (notify r) = true) ->
  Notify (monitoringPersistenceDue i now last silent notify) = true <-> reminder_due i now last.
Proof.
  intros Hs He Hn. unfold monitoringPersistenceDue, reminder_due, monitoringSustained, monitoringSustainedOccurrences.
  rewrite He, !tier_sub.
  pose proof (bounds_order (Severity i)). pose proof (interval_bounds (Severity i) (Sub now (FirstSeen i))).
  set (interval := monitoringRenotifyInterval _ _) in *.
  pose proof (Sub_ge interval now last ltac:(unfold Hour, Minute, Second in *; lia)).
  destruct (Z.leb_spec 2 (OccurrenceCount i)), (Z.ltb_spec (monitoringAgeTier (last - FirstSeen i)) (monitoringAgeTier (now - FirstSeen i))),
    (Z.leb_spec interval (Sub now last)); cbn [andb]; rewrite ?Hn, ?Hs; naive_solver lia.
Qed.

(** The verdict, as a condition on the row. *)
Lemma notification_due i new now :
  Notify (monitoringNotificationDue i new now) = true <->
  notifiable i /\ ~ muted i now /\
  match LastNotifiedAt i with
  | None => True
  | Some last => SeverityRank (LastNotifiedSeverity i) < SeverityRank (Severity i) \/
                 (recurring i now /\ reminder_due i now last)
  end.
Proof.
  unfold monitoringNotificationDue, notifiable. rewrite <- suppressed_muted.
  assert (EffectiveSeverity (monitoringNotificationDueRaw i new now) = Severity i) as ->.
  { unfold monitoringNotificationDueRaw, monitoringPersistenceDue. by repeat case_match. }
  assert (Notify (monitoringNotificationDueRaw i new now) = true <->
    (1 <= SeverityRank (Severity i) /\ Disposition i <> "benign") /\
    match LastNotifiedAt i with
    | None => True
    | Some last => SeverityRank (LastNotifiedSeverity i) < SeverityRank (Severity i) \/
                   (recurring i now /\ reminder_due i now last)
    end) as Hraw.
  { unfold monitoringNotificationDueRaw, severityHigher. change (SeverityRank "warn") with 1.
    destruct (Z.ltb_spec (SeverityRank (Severity i)) 1); [cbn; naive_solver lia|].
    destruct (bool_decide_reflect (Disposition i = "benign")); [cbn; naive_solver|].
    destruct (LastNotifiedAt i) as [last|]; [|cbn; naive_solver].
    destruct (Z.ltb_spec (SeverityRank (LastNotifiedSeverity i)) (SeverityRank (Severity i))); [cbn; naive_solver|].
    destruct (monitoringIncidentActive i now) eqn:Ha; cbn [negb].
    - apply active_recurring in Ha. rewrite persistence_due by done. naive_solver lia.
    - assert (~ recurring i now) by (rewrite <- active_recurring; congruence). cbn. naive_solver lia. }
  set (X := match LastNotifiedAt i with None => True | Some _ => _ end) in *. clearbody X.
  destruct (Notify (monitoringNotificationDueRaw i new now)) eqn:Hn, (monitoringActionSuppressed i now (Severity i));
    cbn [andb Notify]; rewrite ?Hn; intuition congruence.
Qed.

(** ** Pacing: one incident under a run of sweeps *)

(** A sweep, and what the collector has recorded of the incident by then. *)
Record tick := { at_ : Z; seen : Z; occurrences : Z }.

Definition with_seen (i : MonitoringIncident) (s n : Z) : MonitoringIncident := {|
  i_ID := i_ID i; i_WorkspaceID := i_WorkspaceID i; i_ClassKey := i_ClassKey i; i_TaskID := i_TaskID i;
  Disposition := Disposition i; Severity := Severity i; i_Title := i_Title i; OccurrenceCount := n;
  EventCount := EventCount i; FirstSeen := FirstSeen i; LastSeen := s; LastNotifiedAt := LastNotifiedAt i;
  LastNotifiedSeverity := LastNotifiedSeverity i; AckedAt := AckedAt i; AckedBy := AckedBy i;
  AckedSeverity := AckedSeverity i; SilencedAt := SilencedAt i; SilencedUntil := SilencedUntil i;
  SilencedBy := SilencedBy i; SilencedSeverity := SilencedSeverity i; i_CreatedAt := i_CreatedAt i;
  i_UpdatedAt := i_UpdatedAt i |}.

Definition with_notified (at_col : option Z) (severity : string) (upd : Z) (i : MonitoringIncident) : MonitoringIncident := {|
  i_ID := i_ID i; i_WorkspaceID := i_WorkspaceID i; i_ClassKey := i_ClassKey i; i_TaskID := i_TaskID i;
  Disposition := Disposition i; Severity := Severity i; i_Title := i_Title i; OccurrenceCount := OccurrenceCount i;
  EventCount := EventCount i; FirstSeen := FirstSeen i; LastSeen := LastSeen i; LastNotifiedAt := at_col;
  LastNotifiedSeverity := severity; AckedAt := AckedAt i; AckedBy := AckedBy i;
  AckedSeverity := AckedSeverity i; SilencedAt := SilencedAt i; SilencedUntil := SilencedUntil i;
  SilencedBy := SilencedBy i; SilencedSeverity := SilencedSeverity i; i_CreatedAt := i_CreatedAt i;
  i_UpdatedAt := upd |}.

(** The UPDATE of [MarkMonitoringIncidentNotified]. *)
Definition mark_notified (severity : string) (at_ns : Z) : MonitoringIncident -> MonitoringIncident :=
  with_notified (Some (to_column at_ns)) severity (to_column at_ns).

(** The times a reminder goes out, when every delivery succeeds. *)
Fixpoint reminders (i : MonitoringIncident) (l : list tick) : list Z :=
  match l with
  | [] => []
  | k :: l' =>
      let i := with_seen i (seen k) (occurrences k) in
      let d := monitoringNotificationDue i false (at_ k) in
      if Notify d then at_ k :: reminders (mark_notified (EffectiveSeverity d) (at_ k) i) l'
      else reminders i l'
  end.

(** An open incident of steady severity, without a pause, notified at [last]. *)
Record open_since (last : Z) (i : MonitoringIncident) : Prop := {
  open_notifiable : notifiable i;
  open_unpaused : SilencedUntil i = None /\ AckedAt i = None;
  open_notified : LastNotifiedAt i = Some (to_column last) /\ LastNotifiedSeverity i = Severity i;
  open_age : FirstSeen i <= last /\ to_column (FirstSeen i) = FirstSeen i }.

Lemma to_column_bounds t : to_column t <= t < to_column t + Second.
Proof.
  unfold to_column. pose proof (Z.div_mod t Second ltac:(done)). pose proof (Z.mod_pos_bound t Second ltac:(done)).
  unfold Second in *. lia.
Qed.

Lemma due_keeps_severity i new now : EffectiveSeverity (monitoringNotificationDue i new now) = Severity i.
Proof.
  unfold monitoringNotificationDue.
  assert (EffectiveSeverity (monitoringNotificationDueRaw i new now) = Severity i) as He.
  { unfold monitoringNotificationDueRaw, monitoringPersistenceDue. by repeat case_match. }
  by destruct (_ && _).
Qed.

Lemma open_with_seen last i s n : open_since last i -> open_since last (with_seen i s n).
Proof. intros []. by split. Qed.

Lemma open_mark last i k s n : open_since last i -> last <= k ->
  open_since k (mark_notified (Severity i) k (with_seen i s n)).
Proof. intros [? ? ? [? ?]] Hk. split; try done. cbn. split; [lia|done]. Qed.

Lemma open_due last i now : open_since last i ->
  Notify (monitoringNotificationDue i false now) = true <->
  recurring i now /\ reminder_due i now (to_column last).
Proof.
  intros [Hn [Hs Ha] [Hl Hv] _]. rewrite notification_due, Hl, Hv.
  assert (~ muted i now) by (unfold muted; rewrite Hs, Ha; intros [(? & [=] & _)|[[? [=]] _]]).
  split; [|by auto]. intros (_ & _ & [?|?]); [lia|done].
Qed.

(** Each reminder is due to the quiet period or to an age boundary. *)
Fixpoint paced (first base last : Z) (l : list Z) : Prop :=
  match l with
  | [] => True
  | r :: l' => last <= r /\
      (base - Second < r - last \/ monitoringAgeTier (last - first) < monitoringAgeTier (r - first)) /\
      paced first base r l'
  end.

Lemma tier_column last f : to_column f = f -> monitoringAgeTier (to_column last - f) = monitoringAgeTier (last - f).
Proof.
  intros Hf. assert (exists a, f = a * Second) as [a ->] by (exists (f / Second); done).
  unfold monitoringAgeTier, to_column, monitoringAgeEscalateTier1, monitoringAgeEscalateTier2, Hour, Minute.
  pose proof (to_column_bounds last) as Hb. unfold to_column in Hb.
  set (q := last / Second) in *. unfold Second in *. tests; lia.
Qed.

Lemma reminders_paced_from last i l : open_since last i -> Sorted Z.le (last :: map at_ l) ->
  paced (FirstSeen i) (base_of (Severity i)) last (reminders i l).
Proof.
  revert last i. induction l as [|k l IH]; intros last i Ho Hs; cbn [reminders]; [done|].
  apply Sorted_inv in Hs as [Hs Hhd]. inversion Hhd as [|? ? Hlk]; subst.
  pose proof (open_with_seen last i (seen k) (occurrences k) Ho) as Ho'.
  rewrite due_keeps_severity.
  destruct (Notify _) eqn:Hd.
  - apply (open_due _ _ _ Ho') in Hd as [_ Hd]. cbn [paced]. split; [done|]. split.
    + destruct Hd as [[_ Ht]|Hi].
      * right. rewrite tier_column in Ht by apply Ho. done.
      * left. pose proof (interval_bounds (Severity i) (Sub (at_ k) (FirstSeen i))).
        pose proof (to_column_bounds last). cbn in Hi. lia.
    + exact (IH (at_ k) (mark_notified (Severity i) (at_ k) (with_seen i _ _)) (open_mark last i _ _ _ Ho Hlk) Hs).
  - refine (IH last (with_seen i (seen k) (occurrences k)) Ho' _). destruct l as [|k' l]; [by repeat constructor|].
    apply Sorted_inv in Hs as [? Hk]. inversion Hk; subst. constructor; [done|]. constructor. cbn in *. lia.
Qed.

(** Two reminders in a row cannot both be due to age within one quiet period. *)
Lemma paced_apart first severity last l l1 r1 r2 r3 l2 :
  paced first (base_of severity) last l -> last :: l = l1 ++ r1 :: r2 :: r3 :: l2 ->
  base_of severity - Second < r3 - r1.
Proof.
  revert last l. induction l1 as [|x l1 IH]; intros last l Hp Heq; cbn in Heq; injection Heq as -> Heq.
  - subst l. cbn in Hp. destruct Hp as (? & H1 & ? & H2 & _).
    pose proof (bounds_order severity).
    unfold monitoringAgeTier, monitoringAgeEscalateTier1, monitoringAgeEscalateTier2, Hour, Minute, Second in *.
    destruct H1 as [|H1]; [lia|]. destruct H2 as [|H2]; [lia|]. revert H1 H2. tests; lia.
  - destruct l as [|r l]; [by destruct l1|]. cbn in Hp. destruct Hp as (_ & _ & Hp). by eapply IH.
Qed.

Lemma reminders_heard last i l k : open_since last i -> Sorted Z.le (last :: map at_ l) -> k ∈ l ->
  seen k <> zero_time -> at_ k - seen k <= Hour ->
  exists r, r ∈ last :: reminders i l /\ r <= at_ k /\ at_ k - r < cap_of (Severity i).
Proof.
  revert last i. induction l as [|k' l IH]; intros last i Ho Hs Hk Hz Hrec; [by apply elem_of_nil in Hk|].
  apply Sorted_inv in Hs as [Hs Hhd]. inversion Hhd as [|? ? Hlk]; subst.
  pose proof (open_with_seen last i (seen k') (occurrences k') Ho) as Ho'.
  cbn [reminders]. rewrite due_keeps_severity.
  pose proof (bounds_order (Severity i)) as Hb.
  destruct (Notify _) eqn:Hd.
  - apply elem_of_cons in Hk as [-> | Hk].
    + exists (at_ k'). split; [set_solver|]. unfold Minute, Hour, Second in *. lia.
    + destruct (IH (at_ k') (mark_notified (Severity i) (at_ k') (with_seen i (seen k') (occurrences k'))))
        as (r & Hr & ?); [by apply (open_mark last)|done..|]. exists r. split; [set_solver|done].
  - apply elem_of_cons in Hk as [-> | Hk].
    + exists last. split; [set_solver|]. split; [done|].
      destruct (Z.lt_ge_cases (at_ k' - last) (cap_of (Severity i))) as [|Hge]; [done|]. exfalso.
      enough (Notify (monitoringNotificationDue (with_seen i (seen k') (occurrences k')) false (at_ k')) = true) by congruence.
      apply (open_due _ _ _ Ho'). split; [done|]. right. cbn.
      pose proof (interval_bounds (Severity i) (Sub (at_ k') (FirstSeen i))). pose proof (to_column_bounds last). lia.
    + refine (IH last (with_seen i (seen k') (occurrences k')) Ho' _ Hk Hz Hrec). destruct l as [|k2 l]; [by apply elem_of_nil in Hk|].
      apply Sorted_inv in Hs as [? Hk2]. inversion Hk2; subst. constructor; [done|]. constructor. cbn in *. lia.
Qed.

(** reminders are paced.  For an open, unpaused incident of steady
    severity, under any run of sweeps in time order that all deliver: no three
    reminders in a row (counting the last notification) fall within one quiet
    period of its severity, and at every sweep that finds it recurring a
    reminder is less than the severity's cap old. *)
Theorem reminders_paced last i l : open_since last i -> Sorted Z.le (last :: map at_ l) ->
  (forall l1 r1 r2 r3 l2, last :: reminders i l = l1 ++ r1 :: r2 :: r3 :: l2 ->
     base_of (Severity i) - Second < r3 - r1) /\
  (forall k, k ∈ l -> seen k <> zero_time -> at_ k - seen k <= Hour ->
     exists r, r ∈ last :: reminders i l /\ r <= at_ k /\ at_ k - r < cap_of (Severity i)).
Proof.
  intros Ho Hs. split.
  - intros l1 r1 r2 r3 l2. apply (paced_apart (FirstSeen i)). by apply reminders_paced_from.
  - intros k. by apply reminders_heard.
Qed.

Definition sample_incident : MonitoringIncident := {|
  i_ID := "i1"; i_WorkspaceID := "w1"; i_ClassKey := "template:t1"; i_TaskID := "t1";
  Disposition := "actionable"; Severity := "error"; i_Title := ""; OccurrenceCount := 3; EventCount := 3;
  FirstSeen := 0; LastSeen := 0; LastNotifiedAt := Some 0; LastNotifiedSeverity := "error";
  AckedAt := None; AckedBy := ""; AckedSeverity := ""; SilencedAt := None; SilencedUntil := None;
  SilencedBy := ""; SilencedSeverity := ""; i_CreatedAt := 0; i_UpdatedAt := 0 |}.

(** A day of sweeps, five minutes apart. *)
Definition day_of_sweeps : list tick :=
  map (fun n => {| at_ := Z.of_nat n * 5 * Minute; seen := Z.of_nat n * 5 * Minute; occurrences := 3 |}) (seq 1 288).

(** The first quiet period is an hour; it doubles with the incident's age, so the
    next would be four hours after the reminder at three but for the boundary
    at four; twelve hours is the other boundary, and the cap. *)
Example reminders_of_a_day : map (fun t => t / Hour) (reminders sample_incident day_of_sweeps) = [1; 3; 4; 12; 24].
Proof. vm_compute. reflexivity. Qed.

Lemma sample_open : open_since 0 sample_incident.
Proof. by split. Qed.

Example reminders_paced_witness :
  base_of "error" - Second < 4 * Hour - 1 * Hour.
Proof.
  refine (proj1 (reminders_paced 0 sample_incident day_of_sweeps sample_open _)
    [0] (1 * Hour) (3 * Hour) (4 * Hour) [12 * Hour; 24 * Hour] _); [|vm_compute; reflexivity].
  vm_compute. repeat constructor; done.
Defined.
