(* ===== verification/IncidentStore.v ===== *)
(** The monitoring tables and what writes them:
    [internal/store/sqlite/monitoring_incident.go],
    [monitoring_incident_action.go], [monitoring_incident_renotify.go],
    [monitoring_resolution.go], [monitoring_resolution_clear.go],
    [monitoring_expected_signal.go], [monitoring_expected_signal_record.go] and
    the upsert of [monitoring_template.go]; with the sweep of
    [internal/logwatch/renotify/sweeper.go].

    A transaction that fails leaves the tables alone, so an operation is a
    function from tables to a result.  Fresh row ids are arguments; the clock is
    an argument too.  Driver errors are left out. *)

From Stdlib Require Import Ascii String ZArith.
From stdpp Require Import base list option gmap sorting strings pretty.
From S2P Require Import Prelude GoStrings Monitoring Incident.

#[local] Open Scope string_scope.
#[local] Open Scope list_scope.
#[local] Open Scope Z_scope.
#[local] Open Scope go_scope.

(** ** Rows *)

Record MonitoringOccurrence := {
  o_ID : string; o_IncidentID : string; OccurrenceKey : Z; o_SourceID : string; TemplateIDs : list string;
  o_Severity : string; o_EventCount : Z; o_FirstSeen : Z; o_LastSeen : Z; Evidence : string; o_CreatedAt : Z }.

Record LogTemplate := {
  lt_ID : string; lt_SourceID : string; lt_Severity : string; lt_Count : Z; lt_LastSeen : Z;
  Acked : bool; AckNote : string; TriagedAt : option Z; TriagedSeverity : string }.

Record MonitoringResolution := {
  r_IncidentID : string; r_WorkspaceID : string; r_TaskID : string; r_Outcome : string; StatusText : string;
  DispositionBefore : string; SeverityAtResolution : string; AckedTemplateIDs : list string;
  ResolvedAt : Z; ResolvedBySession : string; ResolvedByActor : string;
  ClearedAt : option Z; ClearedReason : string; ClearedBySession : string }.

(** [links] is monitoring_incident_templates, [sources] gives a log source's
    workspace and [live_tasks] the workspace of each task that is not deleted. *)
Record DB := {
  incidents : list MonitoringIncident; occurrences_ : list MonitoringOccurrence;
  templates : gmap string LogTemplate; links : gmap string string;
  resolutions : gmap string MonitoringResolution; rules : gmap string MonitoringExpectedSignal;
  sources : gmap string string; live_tasks : gmap string string }.

Definition set_incidents (l : list MonitoringIncident) (db : DB) : DB := {|
  incidents := l; occurrences_ := occurrences_ db; templates := templates db; links := links db;
  resolutions := resolutions db; rules := rules db; sources := sources db; live_tasks := live_tasks db |}.
Definition set_occurrences (l : list MonitoringOccurrence) (db : DB) : DB := {|
  incidents := incidents db; occurrences_ := l; templates := templates db; links := links db;
  resolutions := resolutions db; rules := rules db; sources := sources db; live_tasks := live_tasks db |}.
Definition set_templates (m : gmap string LogTemplate) (db : DB) : DB := {|
  incidents := incidents db; occurrences_ := occurrences_ db; templates := m; links := links db;
  resolutions := resolutions db; rules := rules db; sources := sources db; live_tasks := live_tasks db |}.
Definition set_links (m : gmap string string) (db : DB) : DB := {|
  incidents := incidents db; occurrences_ := occurrences_ db; templates := templates db; links := m;
  resolutions := resolutions db; rules := rules db; sources := sources db; live_tasks := live_tasks db |}.
Definition set_resolutions (m : gmap string MonitoringResolution) (db : DB) : DB := {|
  incidents := incidents db; occurrences_ := occurrences_ db; templates := templates db; links := links db;
  resolutions := m; rules := rules db; sources := sources db; live_tasks := live_tasks db |}.
Definition set_rules (m : gmap string MonitoringExpectedSignal) (db : DB) : DB := {|
  incidents := incidents db; occurrences_ := occurrences_ db; templates := templates db; links := links db;
  resolutions := resolutions db; rules := m; sources := sources db; live_tasks := live_tasks db |}.

Inductive mon_error :=
| ErrInvalid (msg : string) | ErrIncidentNotFound | ErrTemplateNotFound | ErrTaskNotFound | ErrSignalNotFound
| ErrClassConflict (template : string) | ErrCanonicalTask (task : string) | ErrActorRequired
| ErrSilenceUnbounded | ErrFieldError (code : string).

(** ** Helpers of monitoring_incident.go *)

Definition monitoringBucketKey (at_ns : Z) : Z := at_ns / (15 * Minute) * 900.

Definition truncateMonitoringText (s : string) (limit : Z) : string := String.substring 0 (Z.to_nat limit) s.

Definition is_new {A} (found : option A) : bool := match found with None => true | Some _ => false end.

Definition uniqueStrings (l : list string) : list string :=
  SliceStable String.ltb (remove_dups (List.filter (fun s => negb (bool_decide (s = ""))) (map TrimSpace l))).

Definition mergeTemplateIDsJSON (old add : list string) : list string := uniqueStrings (old ++ add).

Definition getMonitoringIncidentByClassQ (ws class : string) (db : DB) : option MonitoringIncident :=
  List.find (fun i => bool_decide (i_WorkspaceID i = ws) && bool_decide (i_ClassKey i = class)) (incidents db).
Definition getMonitoringIncidentByIDQ (id : string) (db : DB) : option MonitoringIncident :=
  List.find (fun i => bool_decide (i_ID i = id)) (incidents db).
Definition getMonitoringIncidentByTaskQ (ws task : string) (db : DB) : option MonitoringIncident :=
  List.find (fun i => bool_decide (i_WorkspaceID i = ws) && bool_decide (i_TaskID i = task)) (incidents db).
Definition getMonitoringIncidentByTemplateQ (template : string) (db : DB) : option MonitoringIncident :=
  match links db !! template with Some id => getMonitoringIncidentByIDQ id db | None => None end.
Definition getMonitoringOccurrenceQ (incident : string) (key : Z) (db : DB) : option MonitoringOccurrence :=
  List.find (fun o => bool_decide (o_IncidentID o = incident) && (OccurrenceKey o =? key)) (occurrences_ db).

Definition update_incident (id : string) (f : MonitoringIncident -> MonitoringIncident) (db : DB) : DB :=
  set_incidents (map (fun i => if bool_decide (i_ID i = id) then f i else i) (incidents db)) db.
Definition update_occurrence (id : string) (f : MonitoringOccurrence -> MonitoringOccurrence) (db : DB) : DB :=
  set_occurrences (map (fun o => if bool_decide (o_ID o = id) then f o else o) (occurrences_ db)) db.

Definition insertMonitoringOccurrence (o : MonitoringOccurrence) (db : DB) : DB :=
  set_occurrences (occurrences_ db ++ [o]) db.

Definition requireMonitoringTask (ws task : string) (db : DB) : bool := bool_decide (live_tasks db !! task = Some ws).

(** The templates' first source; the query orders nothing. *)
Definition template_here (ws : string) (db : DB) (id : string) : bool :=
  match templates db !! id with
  | Some t => bool_decide (sources db !! lt_SourceID t = Some ws)
  | None => false
  end.
Definition requireMonitoringTemplates (ws : string) (ids : list string) (db : DB) : result mon_error string :=
  if forallb (template_here ws db) ids
  then Ok (match ids with id :: _ => from_option lt_SourceID "" (templates db !! id) | [] => "" end)
  else Err ErrTemplateNotFound.

(** ** Row updates *)

(** The columns an occurrence adds to: severity, title, counts, last seen. *)
Definition with_occurrence (severity disposition title : string) (doccs devents seen_ upd : Z) (i : MonitoringIncident)
    : MonitoringIncident := {|
  i_ID := i_ID i; i_WorkspaceID := i_WorkspaceID i; i_ClassKey := i_ClassKey i; i_TaskID := i_TaskID i;
  Disposition := disposition; Severity := severity; i_Title := title; OccurrenceCount := OccurrenceCount i + doccs;
  EventCount := EventCount i + devents; FirstSeen := FirstSeen i;
  LastSeen := if LastSeen i <? seen_ then seen_ else LastSeen i; LastNotifiedAt := LastNotifiedAt i;
  LastNotifiedSeverity := LastNotifiedSeverity i; AckedAt := AckedAt i; AckedBy := AckedBy i;
  AckedSeverity := AckedSeverity i; SilencedAt := SilencedAt i; SilencedUntil := SilencedUntil i;
  SilencedBy := SilencedBy i; SilencedSeverity := SilencedSeverity i; i_CreatedAt := i_CreatedAt i;
  i_UpdatedAt := upd |}.

Definition with_task (task : string) (upd : Z) (i : MonitoringIncident) : MonitoringIncident := {|
  i_ID := i_ID i; i_WorkspaceID := i_WorkspaceID i; i_ClassKey := i_ClassKey i; i_TaskID := task;
  Disposition := Disposition i; Severity := Severity i; i_Title := i_Title i; OccurrenceCount := OccurrenceCount i;
  EventCount := EventCount i; FirstSeen := FirstSeen i; LastSeen := LastSeen i; LastNotifiedAt := LastNotifiedAt i;
  LastNotifiedSeverity := LastNotifiedSeverity i; AckedAt := AckedAt i; AckedBy := AckedBy i;
  AckedSeverity := AckedSeverity i; SilencedAt := SilencedAt i; SilencedUntil := SilencedUntil i;
  SilencedBy := SilencedBy i; SilencedSeverity := SilencedSeverity i; i_CreatedAt := i_CreatedAt i;
  i_UpdatedAt := upd |}.

Definition with_disposition (d : string) (upd : Z) (i : MonitoringIncident) : MonitoringIncident :=
  with_occurrence (Severity i) d (i_Title i) 0 0 (LastSeen i) upd i.

(** The operator's columns: acknowledgement and silence. *)
Record pause := {
  p_AckedAt : option Z; p_AckedBy : string; p_AckedSeverity : string; p_SilencedAt : option Z;
  p_SilencedUntil : option Z; p_SilencedBy : string; p_SilencedSeverity : string }.
Definition pause_of (i : MonitoringIncident) : pause := {|
  p_AckedAt := AckedAt i; p_AckedBy := AckedBy i; p_AckedSeverity := AckedSeverity i; p_SilencedAt := SilencedAt i;
  p_SilencedUntil := SilencedUntil i; p_SilencedBy := SilencedBy i; p_SilencedSeverity := SilencedSeverity i |}.
Definition with_pause (p : pause) (upd : Z) (i : MonitoringIncident) : MonitoringIncident := {|
  i_ID := i_ID i; i_WorkspaceID := i_WorkspaceID i; i_ClassKey := i_ClassKey i; i_TaskID := i_TaskID i;
  Disposition := Disposition i; Severity := Severity i; i_Title := i_Title i; OccurrenceCount := OccurrenceCount i;
  EventCount := EventCount i; FirstSeen := FirstSeen i; LastSeen := LastSeen i; LastNotifiedAt := LastNotifiedAt i;
  LastNotifiedSeverity := LastNotifiedSeverity i; AckedAt := p_AckedAt p; AckedBy := p_AckedBy p;
  AckedSeverity := p_AckedSeverity p; SilencedAt := p_SilencedAt p; SilencedUntil := p_SilencedUntil p;
  SilencedBy := p_SilencedBy p; SilencedSeverity := p_SilencedSeverity p; i_CreatedAt := i_CreatedAt i;
  i_UpdatedAt := upd |}.

Definition with_acked (acked : bool) (note : string) (triaged : option Z) (t : LogTemplate) : LogTemplate := {|
  lt_ID := lt_ID t; lt_SourceID := lt_SourceID t; lt_Severity := lt_Severity t; lt_Count := lt_Count t;
  lt_LastSeen := lt_LastSeen t; Acked := acked; AckNote := note; TriagedAt := triaged;
  TriagedSeverity := TriagedSeverity t |}.

Definition update_templates (ids : list string) (f : LogTemplate -> LogTemplate) (db : DB) : DB :=
  set_templates (foldr (fun id m => alter f id m) (templates db) ids) db.

(** ** Resolutions: suppress, restore, clear *)

(** [suppressMonitoringIncidentQ]: the templates acked here, and the tables. *)
Definition unacked_linked (incident : string) (db : DB) : list string :=
  SliceStable String.ltb
    (List.filter (fun id => bool_decide (links db !! id = Some incident) &&
                            match templates db !! id with Some t => negb (Acked t) | None => false end)
       (elements (dom (links db)))).

Definition suppressMonitoringIncidentQ (i : MonitoringIncident) (at_ns : Z) (db : DB) : list string * DB :=
  let ids := unacked_linked (i_ID i) db in
  let note := "resolved as not-a-problem on task " +:+ i_TaskID i in
  let db := update_templates ids (fun t => with_acked true note (TriagedAt t) t) db in
  (ids, update_incident (i_ID i) (with_disposition "benign" (to_column at_ns)) db).

Definition ValidMonitoringDisposition (d : string) : bool :=
  bool_decide (d ∈ ["actionable"; "uncertain"; "evidence-gap"; "benign"]).

Definition restoreMonitoringIncidentQ (row : MonitoringResolution) (now : Z) (db : DB) : DB :=
  let db :=
    if bool_decide (r_Outcome row = "benign") then
      let before := DispositionBefore row in
      let disposition := if negb (ValidMonitoringDisposition before) || bool_decide (before = "benign")
                         then "actionable" else before in
      update_templates (AckedTemplateIDs row) (fun t => with_acked false "" None t)
        (update_incident (r_IncidentID row) (with_disposition disposition (to_column now)) db)
    else db in
  update_incident (r_IncidentID row) (with_notified None "" (to_column now)) db.

(** The live receipt of an incident. *)
Definition live_resolution (incident : string) (db : DB) : option MonitoringResolution :=
  match resolutions db !! incident with
  | Some r => match ClearedAt r with None => Some r | Some _ => None end
  | None => None
  end.

Definition close_resolution (now : Z) (reason session : string) (r : MonitoringResolution) : MonitoringResolution := {|
  r_IncidentID := r_IncidentID r; r_WorkspaceID := r_WorkspaceID r; r_TaskID := r_TaskID r; r_Outcome := r_Outcome r;
  StatusText := StatusText r; DispositionBefore := DispositionBefore r; SeverityAtResolution := SeverityAtResolution r;
  AckedTemplateIDs := AckedTemplateIDs r; ResolvedAt := ResolvedAt r; ResolvedBySession := ResolvedBySession r;
  ResolvedByActor := ResolvedByActor r; ClearedAt := Some (to_column now); ClearedReason := reason;
  ClearedBySession := session |}.

Definition put_resolution (r : MonitoringResolution) (db : DB) : DB :=
  set_resolutions (<[r_IncidentID r := r]> (resolutions db)) db.

Definition breakMonitoringSuppressionQ (incident : string) (at_ns : Z) (db : DB) : DB :=
  match live_resolution incident db with
  | None => db
  | Some row =>
      put_resolution (close_resolution at_ns "recurrence_triaged" (ClearedBySession row) row)
        (restoreMonitoringIncidentQ row at_ns db)
  end.

(** [clearMonitoringResolution] by incident or by task, with the receipt as stored;
    [None] when there is no
    live one. *)
Definition clear_found (found : option MonitoringResolution) (reason session : string) (now : Z) (db : DB)
    : option MonitoringResolution * DB :=
  match found with
  | None => (None, db)
  | Some row =>
      let reason := if bool_decide (TrimSpace reason = "") then "manual" else reason in
      let row' := close_resolution now (truncateMonitoringText reason 100) (truncateMonitoringText session 200) row in
      (Some row', put_resolution row' (restoreMonitoringIncidentQ row now db))
  end.

Definition ClearMonitoringResolution (ws incident reason session : string) (now : Z) (db : DB)
    : result mon_error (option MonitoringResolution * DB) :=
  if bool_decide (TrimSpace ws = "") || bool_decide (TrimSpace incident = "")
  then Err (ErrInvalid "workspace_id and key required")
  else
    let found := match live_resolution incident db with
                 | Some r => if bool_decide (r_WorkspaceID r = ws) then Some r else None
                 | None => None
                 end in
    Ok (clear_found found reason session now db).

Definition ClearMonitoringResolutionForTask (ws task reason session : string) (now : Z) (db : DB)
    : result mon_error (option MonitoringResolution * DB) :=
  if bool_decide (TrimSpace ws = "") || bool_decide (TrimSpace task = "")
  then Err (ErrInvalid "workspace_id and key required")
  else
    let found := List.find (fun r => bool_decide (r_WorkspaceID r = ws) && bool_decide (r_TaskID r = task) &&
                                     bool_decide (ClearedAt r = None))
                   (map snd (map_to_list (resolutions db))) in
    Ok (clear_found found reason session now db).

Record MonitoringResolutionInput := {
  ri_WorkspaceID : string; ri_TaskID : string; ri_Outcome : string; ri_StatusText : string; ri_ResolvedAt : Z;
  ri_BySession : string; ri_ByActor : string }.

(** The receipt of one resolution. *)
Definition receipt (i : MonitoringIncident) (task outcome status : string) (acked : list string) (at_ns : Z)
    (session actor : string) : MonitoringResolution := {|
  r_IncidentID := i_ID i; r_WorkspaceID := i_WorkspaceID i; r_TaskID := task; r_Outcome := outcome;
  StatusText := truncateMonitoringText status 100; DispositionBefore := Disposition i;
  SeverityAtResolution := Severity i; AckedTemplateIDs := acked; ResolvedAt := to_column at_ns;
  ResolvedBySession := truncateMonitoringText session 200; ResolvedByActor := truncateMonitoringText actor 50;
  ClearedAt := None; ClearedReason := ""; ClearedBySession := "" |}.

Definition ApplyMonitoringTaskResolution (a : MonitoringResolutionInput) (db : DB)
    : result mon_error (option MonitoringResolution * DB) :=
  if bool_decide (TrimSpace (ri_WorkspaceID a) = "") || bool_decide (TrimSpace (ri_TaskID a) = "")
  then Err (ErrInvalid "workspace_id and task_id required")
  else if negb (bool_decide (ri_Outcome a = "benign") || bool_decide (ri_Outcome a = "fixed"))
  then Err (ErrInvalid "invalid outcome")
  else
    match getMonitoringIncidentByTaskQ (ri_WorkspaceID a) (ri_TaskID a) db with
    | None => Ok (None, db)
    | Some i =>
        let '(acked, db) := if bool_decide (ri_Outcome a = "benign")
                            then suppressMonitoringIncidentQ i (ri_ResolvedAt a) db else ([], db) in
        let row := receipt i (ri_TaskID a) (ri_Outcome a) (ri_StatusText a) acked (ri_ResolvedAt a)
                     (ri_BySession a) (ri_ByActor a) in
        Ok (Some row, put_resolution row db)
    end.

(** ** Operator actions *)

Definition MonitoringIncidentMinSilence : Z := Minute.
Definition MonitoringIncidentMaxSilence : Z := 7 * 24 * Hour.

Definition loadIncidentForActionQ (ws id : string) (db : DB) : option MonitoringIncident :=
  if bool_decide (TrimSpace ws = "") || bool_decide (TrimSpace id = "") then None
  else List.find (fun i => bool_decide (i_ID i = id) && bool_decide (i_WorkspaceID i = ws)) (incidents db).

Definition mutateIncidentAction (ws id : string) (mut : MonitoringIncident -> MonitoringIncident -> MonitoringIncident)
    (db : DB) : result mon_error DB :=
  match loadIncidentForActionQ ws id db with
  | None => Err ErrIncidentNotFound
  | Some i => Ok (update_incident (i_ID i) (mut i) db)
  end.

(** The silence columns of a pause stay; the acknowledgement is replaced. *)
Definition ack_of (at_ : option Z) (by_ sev : string) (p : pause) : pause := {|
  p_AckedAt := at_; p_AckedBy := by_; p_AckedSeverity := sev; p_SilencedAt := p_SilencedAt p;
  p_SilencedUntil := p_SilencedUntil p; p_SilencedBy := p_SilencedBy p; p_SilencedSeverity := p_SilencedSeverity p |}.
Definition silence_of (at_ until : option Z) (by_ sev : string) (p : pause) : pause := {|
  p_AckedAt := p_AckedAt p; p_AckedBy := p_AckedBy p; p_AckedSeverity := p_AckedSeverity p; p_SilencedAt := at_;
  p_SilencedUntil := until; p_SilencedBy := by_; p_SilencedSeverity := sev |}.
Definition no_pause : pause := {|
  p_AckedAt := None; p_AckedBy := ""; p_AckedSeverity := ""; p_SilencedAt := None; p_SilencedUntil := None;
  p_SilencedBy := ""; p_SilencedSeverity := "" |}.

Definition AckMonitoringIncident (ws id actor : string) (at_ns : Z) (db : DB) : result mon_error DB :=
  if bool_decide (TrimSpace actor = "") then Err ErrActorRequired
  else mutateIncidentAction ws id (fun inc i =>
         with_pause (ack_of (Some (to_column at_ns)) (truncateMonitoringText actor 50)
                       (monitoringEffectiveSeverity inc at_ns) (pause_of i)) (to_column at_ns) i) db.

Definition UnackMonitoringIncident (ws id : string) (at_ns : Z) (db : DB) : result mon_error DB :=
  mutateIncidentAction ws id (fun _ i => with_pause (ack_of None "" "" (pause_of i)) (to_column at_ns) i) db.

Definition SilenceMonitoringIncident (ws id actor : string) (duration at_ns : Z) (db : DB) : result mon_error DB :=
  if bool_decide (TrimSpace actor = "") then Err ErrActorRequired
  else if (duration <? MonitoringIncidentMinSilence) || (MonitoringIncidentMaxSilence <? duration)
  then Err ErrSilenceUnbounded
  else mutateIncidentAction ws id (fun inc i =>
         with_pause (silence_of (Some (to_column at_ns)) (Some (to_column (at_ns + duration)))
                       (truncateMonitoringText actor 50) (monitoringEffectiveSeverity inc at_ns) (pause_of i))
           (to_column at_ns) i) db.

Definition UnsilenceMonitoringIncident (ws id : string) (at_ns : Z) (db : DB) : result mon_error DB :=
  mutateIncidentAction ws id (fun _ i => with_pause (silence_of None None "" "" (pause_of i)) (to_column at_ns) i) db.

Definition DismissMonitoringIncident (ws id actor session status : string) (at_ns : Z) (db : DB)
    : result mon_error (MonitoringResolution * DB) :=
  if bool_decide (TrimSpace actor = "") then Err ErrActorRequired
  else
    let status := if bool_decide (TrimSpace status = "") then "dismissed" else TrimSpace status in
    match loadIncidentForActionQ ws id db with
    | None => Err ErrIncidentNotFound
    | Some i =>
        let '(acked, db) := suppressMonitoringIncidentQ i at_ns db in
        let row := receipt i (i_TaskID i) "benign" status acked at_ns session actor in
        Ok (row, update_incident (i_ID i) (with_pause no_pause (to_column at_ns)) (put_resolution row db))
    end.

(** ** Observations *)

(** [UpsertLogTemplate]'s argument, as far as the incident tables see it. *)
Record TemplateHit := { th_ID : string; th_SourceID : string; th_Severity : string; th_LastSeen : Z }.

Definition higher_of (a b : string) : string := if severityHigher a b then a else b.

Definition fresh_incident (id ws class task disposition severity title : string) (at_ns : Z) : MonitoringIncident := {|
  i_ID := id; i_WorkspaceID := ws; i_ClassKey := class; i_TaskID := task; Disposition := disposition;
  Severity := severity; i_Title := title; OccurrenceCount := 0; EventCount := 0; FirstSeen := to_column at_ns;
  LastSeen := to_column at_ns; LastNotifiedAt := None; LastNotifiedSeverity := ""; AckedAt := None; AckedBy := "";
  AckedSeverity := ""; SilencedAt := None; SilencedUntil := None; SilencedBy := ""; SilencedSeverity := "";
  i_CreatedAt := to_column at_ns; i_UpdatedAt := to_column at_ns |}.

Definition fresh_occurrence (id incident source : string) (ids : list string) (severity : string) (events at_ns : Z)
    (evidence : string) : MonitoringOccurrence := {|
  o_ID := id; o_IncidentID := incident; OccurrenceKey := monitoringBucketKey at_ns; o_SourceID := source;
  TemplateIDs := ids; o_Severity := severity; o_EventCount := events; o_FirstSeen := to_column at_ns;
  o_LastSeen := to_column at_ns; Evidence := evidence; o_CreatedAt := to_column at_ns |}.

Definition merged_occurrence (ids : list string) (severity evidence : string) (events seen_ : Z)
    (o : MonitoringOccurrence) : MonitoringOccurrence := {|
  o_ID := o_ID o; o_IncidentID := o_IncidentID o; OccurrenceKey := OccurrenceKey o; o_SourceID := o_SourceID o;
  TemplateIDs := ids; o_Severity := severity; o_EventCount := o_EventCount o + events; o_FirstSeen := o_FirstSeen o;
  o_LastSeen := seen_; Evidence := evidence; o_CreatedAt := o_CreatedAt o |}.

Definition recordMappedMonitoringOccurrence (newOccurrenceID : string) (t : TemplateHit) (n : Z) (db : DB) : DB :=
  match getMonitoringIncidentByTemplateQ (th_ID t) db with
  | None => db
  | Some i =>
      let seen := th_LastSeen t in
      let found := getMonitoringOccurrenceQ (i_ID i) (monitoringBucketKey seen) db in
      let db :=
        match found with
        | None => insertMonitoringOccurrence
                    (fresh_occurrence newOccurrenceID (i_ID i) (th_SourceID t) [th_ID t] (th_Severity t) n seen "") db
        | Some o =>
            update_occurrence (o_ID o) (fun o' => merged_occurrence
              (mergeTemplateIDsJSON (TemplateIDs o) [th_ID t]) (higher_of (th_Severity t) (o_Severity o)) (Evidence o') n
              (if o_LastSeen o' <? to_column seen then to_column seen else o_LastSeen o') o') db
        end in
      update_incident (i_ID i)
        (fun i' => with_occurrence (higher_of (th_Severity t) (Severity i)) (Disposition i') (i_Title i')
                     (if is_new found then 1 else 0) n (to_column seen) (to_column seen) i') db
  end.

(** The template's own row, then the mapped occurrence. *)
Definition UpsertLogTemplate (newOccurrenceID : string) (t : TemplateHit) (n : Z) (db : DB) : result mon_error (bool * DB) :=
  if bool_decide (th_ID t = "") || bool_decide (th_SourceID t = "") then Err (ErrInvalid "id + source_id required")
  else if n <=? 0 then Err (ErrInvalid "n must be positive")
  else
    match templates db !! th_ID t with
    | None =>
        let row := {| lt_ID := th_ID t; lt_SourceID := th_SourceID t; lt_Severity := th_Severity t; lt_Count := n;
                      lt_LastSeen := to_column (th_LastSeen t); Acked := false; AckNote := ""; TriagedAt := None;
                      TriagedSeverity := "" |} in
        Ok (true, set_templates (<[th_ID t := row]> (templates db)) db)
    | Some old =>
        let resetTriage := severityHigher (th_Severity t) (TriagedSeverity old) in
        let row := {| lt_ID := lt_ID old; lt_SourceID := lt_SourceID old; lt_Severity := th_Severity t;
                      lt_Count := lt_Count old + n; lt_LastSeen := to_column (th_LastSeen t); Acked := Acked old;
                      AckNote := AckNote old; TriagedAt := if resetTriage then None else TriagedAt old;
                      TriagedSeverity := TriagedSeverity old |} in
        Ok (false, recordMappedMonitoringOccurrence newOccurrenceID t n
                     (set_templates (<[th_ID t := row]> (templates db)) db))
    end.

Record MonitoringTriageRecord := {
  tr_WorkspaceID : string; tr_ClassKey : string; tr_TaskID : string; tr_Disposition : string; tr_Severity : string;
  tr_Title : string; tr_SourceID : string; tr_TemplateIDs : list string; tr_Evidence : string; tr_ObservedAt : Z }.

(** The incident of the class, its canonical task checked or replaced. *)
Definition elect_incident (newIncidentID : string) (a : MonitoringTriageRecord) (db : DB)
    : result mon_error (MonitoringIncident * bool * DB) :=
  match getMonitoringIncidentByClassQ (tr_WorkspaceID a) (tr_ClassKey a) db with
  | None =>
      let i := fresh_incident newIncidentID (tr_WorkspaceID a) (tr_ClassKey a) (tr_TaskID a) (tr_Disposition a)
                 (tr_Severity a) (tr_Title a) (tr_ObservedAt a) in
      Ok (i, true, set_incidents (incidents db ++ [i]) db)
  | Some i =>
      if bool_decide (i_TaskID i = tr_TaskID a) then Ok (i, false, db)
      else if bool_decide (is_Some (live_tasks db !! i_TaskID i)) then Err (ErrCanonicalTask (i_TaskID i))
      else Ok (with_task (tr_TaskID a) (i_UpdatedAt i) i, false,
               update_incident (i_ID i) (with_task (tr_TaskID a) (to_column (tr_ObservedAt a))) db)
  end.

Fixpoint link_templates (incident : string) (ids : list string) (db : DB) : result mon_error DB :=
  match ids with
  | [] => Ok db
  | id :: ids' =>
      match links db !! id with
      | None => link_templates incident ids' (set_links (<[id := incident]> (links db)) db)
      | Some existing => if bool_decide (existing = incident) then link_templates incident ids' db
                         else Err (ErrClassConflict id)
      end
  end.

Record MonitoringResult := {
  mr_Incident : MonitoringIncident; NewIncident : bool; NewOccurrence : bool; ShouldNotify : bool;
  NotificationReason : string; mr_EffectiveSeverity : string }.

(** Read the row back and ask the policy. *)
Definition notify_result (id : string) (newI newO : bool) (observedAt : Z) (db : DB) : result mon_error (MonitoringResult * DB) :=
  match getMonitoringIncidentByIDQ id db with
  | None => Err ErrIncidentNotFound
  | Some i =>
      let d := monitoringNotificationDue i newI observedAt in
      Ok ({| mr_Incident := i; NewIncident := newI; NewOccurrence := newO; ShouldNotify := Notify d;
             NotificationReason := nd_Reason d; mr_EffectiveSeverity := EffectiveSeverity d |}, db)
  end.

Definition RecordMonitoringTriage (newIncidentID newOccurrenceID : string) (a : MonitoringTriageRecord) (db : DB)
    : result mon_error (MonitoringResult * DB) :=
  if bool_decide (TrimSpace (tr_WorkspaceID a) = "") || bool_decide (TrimSpace (tr_ClassKey a) = "") ||
     bool_decide (TrimSpace (tr_TaskID a) = "") then Err (ErrInvalid "workspace_id, class_key and task_id required")
  else if negb (ValidSeverity (tr_Severity a)) then Err (ErrInvalid "invalid severity")
  else if negb (ValidMonitoringDisposition (tr_Disposition a)) || bool_decide (tr_Disposition a = "benign")
  then Err (ErrInvalid "invalid incident disposition")
  else
    let ids := uniqueStrings (tr_TemplateIDs a) in
    if bool_decide (ids = []) then Err (ErrInvalid "template_ids required")
    else
      let observedAt := tr_ObservedAt a in
      let evidence := truncateMonitoringText (tr_Evidence a) 6000 in
      let title := truncateMonitoringText (TrimSpace (tr_Title a)) 500 in
      let a := {| tr_WorkspaceID := tr_WorkspaceID a; tr_ClassKey := tr_ClassKey a; tr_TaskID := tr_TaskID a;
                  tr_Disposition := tr_Disposition a; tr_Severity := tr_Severity a; tr_Title := title;
                  tr_SourceID := tr_SourceID a; tr_TemplateIDs := ids; tr_Evidence := evidence;
                  tr_ObservedAt := observedAt |} in
      if negb (requireMonitoringTask (tr_WorkspaceID a) (tr_TaskID a) db) then Err ErrTaskNotFound
      else
        let! sourceID := requireMonitoringTemplates (tr_WorkspaceID a) ids db in
        let source := if bool_decide (tr_SourceID a = "") then sourceID else tr_SourceID a in
        let! elected := elect_incident newIncidentID a db in
        let '(i, newIncident, db) := elected in
        let db := if negb newIncident && bool_decide (Disposition i = "benign")
                  then breakMonitoringSuppressionQ (i_ID i) observedAt db else db in
        let! db := link_templates (i_ID i) ids db in
        let found := getMonitoringOccurrenceQ (i_ID i) (monitoringBucketKey observedAt) db in
        let db :=
          match found with
          | None => insertMonitoringOccurrence
                      (fresh_occurrence newOccurrenceID (i_ID i) source ids (tr_Severity a) 1 observedAt evidence) db
          | Some o =>
              update_occurrence (o_ID o) (merged_occurrence (mergeTemplateIDsJSON (TemplateIDs o) ids)
                (higher_of (tr_Severity a) (o_Severity o))
                (if bool_decide (Evidence o = "") then evidence else Evidence o) 0 (to_column observedAt)) db
          end in
        let escalated := severityHigher (tr_Severity a) (Severity i) in
        let title' := if bool_decide (i_Title i = "") || escalated then tr_Title a else i_Title i in
        let delta := if is_new found then 1 else 0 in
        let db := update_incident (i_ID i)
                    (with_occurrence (higher_of (tr_Severity a) (Severity i)) (tr_Disposition a) title' delta delta
                       (to_column observedAt) (to_column observedAt)) db in
        notify_result (i_ID i) newIncident (is_new found) observedAt db.

Definition MarkMonitoringIncidentNotified (id severity : string) (at_ns : Z) (db : DB) : result mon_error DB :=
  if negb (ValidSeverity severity) then Err (ErrInvalid "invalid notified severity")
  else match getMonitoringIncidentByIDQ id db with
       | None => Err ErrIncidentNotFound
       | Some _ => Ok (update_incident id (mark_notified severity at_ns) db)
       end.

(** ** Expected signals *)

(** The outcome of one evaluation; title and evidence are the decision's text. *)
Record ExpectedSignalRecord := {
  er_RuleID : string; er_TaskID : string; er_Decision : ExpectedSignalDecision; er_Title : string;
  er_Evidence : string; er_ObservedAt : Z }.

Definition upsertExpectedSignalIncident (newIncidentID : string) (rule : MonitoringExpectedSignal)
    (a : ExpectedSignalRecord) (db : DB) : MonitoringIncident * bool * DB :=
  let title := truncateMonitoringText (TrimSpace (er_Title a)) 500 in
  let d := er_Decision a in
  match getMonitoringIncidentByClassQ (es_WorkspaceID rule) (ClassKey d) db with
  | Some i => (i, false, db)
  | None =>
      let i := fresh_incident newIncidentID (es_WorkspaceID rule) (ClassKey d) (er_TaskID a) "actionable"
                 (sd_Severity d) title (er_ObservedAt a) in
      (i, true, set_incidents (incidents db ++ [i]) db)
  end.

Definition upsertExpectedSignalOccurrence (newOccurrenceID : string) (rule : MonitoringExpectedSignal)
    (a : ExpectedSignalRecord) (incident : string) (db : DB) : bool * DB :=
  let evidence := truncateMonitoringText (er_Evidence a) 6000 in
  let d := er_Decision a in
  match getMonitoringOccurrenceQ incident (monitoringBucketKey (er_ObservedAt a)) db with
  | None => (true, insertMonitoringOccurrence
      (fresh_occurrence newOccurrenceID incident (es_SourceID rule) [] (sd_Severity d) 1 (er_ObservedAt a) evidence) db)
  | Some o => (false, update_occurrence (o_ID o) (merged_occurrence (TemplateIDs o)
      (higher_of (sd_Severity d) (o_Severity o)) evidence 0 (to_column (er_ObservedAt a))) db)
  end.

Definition raiseExpectedSignalIncident (newIncidentID newOccurrenceID : string) (rule : MonitoringExpectedSignal)
    (a : ExpectedSignalRecord) (db : DB) : result mon_error (MonitoringResult * DB) :=
  let observedAt := er_ObservedAt a in
  if negb (requireMonitoringTask (es_WorkspaceID rule) (er_TaskID a) db) then Err ErrTaskNotFound
  else
    let '(i, newIncident, db) := upsertExpectedSignalIncident newIncidentID rule a db in
    let title := truncateMonitoringText (TrimSpace (er_Title a)) 500 in
    let title := if bool_decide (title = "") then i_Title i else title in
    let db := if negb newIncident && bool_decide (Disposition i = "benign")
              then breakMonitoringSuppressionQ (i_ID i) observedAt db else db in
    let '(newOccurrence, db) := upsertExpectedSignalOccurrence newOccurrenceID rule a (i_ID i) db in
    let delta := if newOccurrence : bool then 1 else 0 in
    let db := update_incident (i_ID i)
                (fun i' => with_occurrence (sd_Severity (er_Decision a)) (Disposition i') title delta delta
                   (to_column observedAt) (to_column observedAt) i') db in
    notify_result (i_ID i) newIncident newOccurrence observedAt db.

(** The rule's evaluation state. *)
Definition with_state (evaluated : Z) (signal : option Z) (outcome : string) (raised recovered : option Z)
    (incident : string) (r : MonitoringExpectedSignal) : MonitoringExpectedSignal := {|
  es_ID := es_ID r; es_WorkspaceID := es_WorkspaceID r; es_SourceID := es_SourceID r; es_Name := es_Name r;
  MatchSubstring := MatchSubstring r; MinSeverity := MinSeverity r; MinCount := MinCount r;
  WindowSeconds := WindowSeconds r; es_Severity := es_Severity r; Timezone := Timezone r;
  ActiveDaysMask := ActiveDaysMask r; ActiveStartMinute := ActiveStartMinute r; ActiveEndMinute := ActiveEndMinute r;
  RequireSourceLiveness := RequireSourceLiveness r; MaxConsecutiveFailures := MaxConsecutiveFailures r;
  es_Enabled := es_Enabled r; LastEvaluatedAt := Some evaluated; LastSignalAt := signal; LastOutcome := outcome;
  LastRaisedAt := raised; LastRecoveredAt := recovered; ActiveIncidentID := incident; es_CreatedAt := es_CreatedAt r |}.

Definition outcome_name (o : ExpectedSignalOutcome) : string :=
  match o with
  | OutcomeSignalDisabled => "disabled" | OutcomeSignalWarmingUp => "warming_up" | OutcomeSignalHealthy => "healthy"
  | OutcomeSignalOutsideActiveHours => "outside_active_hours" | OutcomeSignalPartialWindow => "partial_window"
  | OutcomeSignalAwaitingFirst => "awaiting_first_signal" | OutcomeSignalInconclusive => "inconclusive"
  | OutcomeSignalCollection => "collection" | OutcomeSignalAbsent => "absent"
  end.

Definition persistExpectedSignalState (rule : MonitoringExpectedSignal) (d : ExpectedSignalDecision) (observedAt : Z)
    (incident : option string) (recovered : bool) (db : DB) : DB :=
  let stamp := Some (to_column observedAt) in
  let lastSignal := if SignalPresent d then stamp else LastSignalAt rule in
  let '(incidentID, raisedAt, recoveredAt) :=
    match (if Raise d then incident else None) with
    | Some id => (id, stamp, LastRecoveredAt rule)
    | None => ("", LastRaisedAt rule, if recovered then stamp else LastRecoveredAt rule)
    end in
  set_rules (alter (with_state (to_column observedAt) lastSignal (outcome_name (Outcome d)) raisedAt recoveredAt incidentID)
               (es_ID rule) (rules db)) db.

Record ExpectedSignalResult := { sr_Raised : option MonitoringResult; Recovered : bool }.

Definition RecordExpectedSignalOutcome (newIncidentID newOccurrenceID : string) (a : ExpectedSignalRecord) (db : DB)
    : result mon_error (ExpectedSignalResult * DB) :=
  let d := er_Decision a in
  if bool_decide (TrimSpace (er_RuleID a) = "") then Err (ErrInvalid "rule_id required")
  else if Raise d && negb (ValidSeverity (sd_Severity d)) then Err (ErrInvalid "invalid severity")
  else if Raise d && (bool_decide (TrimSpace (ClassKey d) = "") || bool_decide (TrimSpace (er_TaskID a) = ""))
  then Err (ErrInvalid "class_key and task_id required to raise")
  else
    match rules db !! er_RuleID a with
    | None => Err ErrSignalNotFound
    | Some rule =>
        if Raise d then
          let! raised := raiseExpectedSignalIncident newIncidentID newOccurrenceID rule a db in
          let '(m, db) := raised in
          Ok ({| sr_Raised := Some m; Recovered := false |},
              persistExpectedSignalState rule d (er_ObservedAt a) (Some (i_ID (mr_Incident m))) false db)
        else
          let recovered := SignalPresent d && negb (bool_decide (ActiveIncidentID rule = "")) in
          Ok ({| sr_Raised := None; Recovered := recovered |},
              persistExpectedSignalState rule d (er_ObservedAt a) None recovered db)
    end.

Section Rules.
Variable LoadLocation : string -> option Location.

(** UNIQUE(workspace_id, source_id, name), and the primary key. *)
Definition rule_conflict (id ws source name : string) (db : DB) : bool :=
  existsb (fun r => negb (bool_decide (es_ID r = id)) && bool_decide (es_WorkspaceID r = ws) &&
                    bool_decide (es_SourceID r = source) && bool_decide (es_Name r = name))
    (map snd (map_to_list (rules db))).

(** [newID] is the id chosen when the rule has none. *)
Definition CreateMonitoringExpectedSignal (newID : string) (now : Z) (r : MonitoringExpectedSignal) (db : DB)
    : result mon_error DB :=
  if bool_decide (es_WorkspaceID r = "") then Err (ErrInvalid "workspace_id required")
  else
    let r := ApplyExpectedSignalDefaults r in
    match ValidateMonitoringExpectedSignal LoadLocation r with
    | Some code => Err (ErrFieldError code)
    | None =>
        let id := if bool_decide (es_ID r = "") then newID else es_ID r in
        if bool_decide (is_Some (rules db !! id)) || rule_conflict id (es_WorkspaceID r) (es_SourceID r) (es_Name r) db
        then Err (ErrInvalid "constraint")
        else
          let created := match es_CreatedAt r with None => now | Some c => c end in
          Ok (set_rules (<[id := {|
            es_ID := id; es_WorkspaceID := es_WorkspaceID r; es_SourceID := es_SourceID r; es_Name := es_Name r;
            MatchSubstring := MatchSubstring r; MinSeverity := MinSeverity r; MinCount := MinCount r;
            WindowSeconds := WindowSeconds r; es_Severity := es_Severity r; Timezone := Timezone r;
            ActiveDaysMask := ActiveDaysMask r; ActiveStartMinute := ActiveStartMinute r;
            ActiveEndMinute := ActiveEndMinute r; RequireSourceLiveness := RequireSourceLiveness r;
            MaxConsecutiveFailures := MaxConsecutiveFailures r; es_Enabled := es_Enabled r;
            LastEvaluatedAt := to_column <$> LastEvaluatedAt r; LastSignalAt := to_column <$> LastSignalAt r;
            LastOutcome := LastOutcome r; LastRaisedAt := to_column <$> LastRaisedAt r;
            LastRecoveredAt := to_column <$> LastRecoveredAt r; ActiveIncidentID := ActiveIncidentID r;
            es_CreatedAt := Some (to_column created) |}]> (rules db)) db)
    end.

Definition UpdateMonitoringExpectedSignal (r : MonitoringExpectedSignal) (db : DB) : result mon_error DB :=
  if bool_decide (es_ID r = "") then Err (ErrInvalid "id required")
  else
    let r := ApplyExpectedSignalDefaults r in
    match ValidateMonitoringExpectedSignal LoadLocation r with
    | Some code => Err (ErrFieldError code)
    | None =>
        match rules db !! es_ID r with
        | None => Err ErrSignalNotFound
        | Some old =>
            if rule_conflict (es_ID r) (es_WorkspaceID old) (es_SourceID r) (es_Name r) db
            then Err (ErrInvalid "constraint")
            else Ok (set_rules (<[es_ID r := {|
              es_ID := es_ID old; es_WorkspaceID := es_WorkspaceID old; es_SourceID := es_SourceID r; es_Name := es_Name r;
              MatchSubstring := MatchSubstring r; MinSeverity := MinSeverity r; MinCount := MinCount r;
              WindowSeconds := WindowSeconds r; es_Severity := es_Severity r; Timezone := Timezone r;
              ActiveDaysMask := ActiveDaysMask r; ActiveStartMinute := ActiveStartMinute r;
              ActiveEndMinute := ActiveEndMinute r; RequireSourceLiveness := RequireSourceLiveness r;
              MaxConsecutiveFailures := MaxConsecutiveFailures r; es_Enabled := es_Enabled r;
              LastEvaluatedAt := LastEvaluatedAt old; LastSignalAt := LastSignalAt old; LastOutcome := LastOutcome old;
              LastRaisedAt := LastRaisedAt old; LastRecoveredAt := LastRecoveredAt old;
              ActiveIncidentID := ActiveIncidentID old; es_CreatedAt := es_CreatedAt old |}]> (rules db)) db)
        end
    end.
End Rules.

Definition DeleteMonitoringExpectedSignal (id : string) (db : DB) : result mon_error DB :=
  match rules db !! id with
  | None => Err ErrSignalNotFound
  | Some _ => Ok (set_rules (delete id (rules db)) db)
  end.

(** ** The renotification sweep *)

Definition monitoringRenotifyScanLimit : Z := 500.

(** ORDER BY last_notified_at IS NULL DESC, last_notified_at ASC, first_seen ASC. *)
Definition renotify_before (a b : MonitoringIncident) : bool :=
  match LastNotifiedAt a, LastNotifiedAt b with
  | None, None => FirstSeen a <? FirstSeen b
  | None, Some _ => true
  | Some _, None => false
  | Some x, Some y => (x <? y) || ((x =? y) && (FirstSeen a <? FirstSeen b))
  end.

Definition fixed_covers (db : DB) (i : MonitoringIncident) : bool :=
  match live_resolution (i_ID i) db with
  | Some r => bool_decide (r_Outcome r = "fixed") && (LastSeen i <=? ResolvedAt r)
  | None => false
  end.

Definition monitoringRenotifyQuery (ws : string) (now : Z) (db : DB) (i : MonitoringIncident) : bool :=
  bool_decide (i_WorkspaceID i = ws) && (to_column (now - monitoringIncidentActiveWindow) <=? LastSeen i) &&
  negb (bool_decide (Disposition i = "benign")) && (1 <=? SeverityRank (Severity i)) && negb (fixed_covers db i).

Definition ListMonitoringIncidentsDueForRenotify (ws : string) (now limit : Z) (db : DB)
    : result mon_error (list (MonitoringIncident * monitoringNotificationDecision)) :=
  if bool_decide (TrimSpace ws = "") then Err (ErrInvalid "workspace_id required")
  else
    let limit := if (limit <=? 0) || (monitoringRenotifyScanLimit <? limit) then monitoringRenotifyScanLimit else limit in
    let rows := take (Z.to_nat limit)
                  (SliceStable renotify_before (List.filter (monitoringRenotifyQuery ws now db) (incidents db))) in
    Ok (List.filter (fun c => Notify (snd c)) (map (fun i => (i, monitoringNotificationDue i false now)) rows)).

Definition defaultLimit : Z := 100.

(** [renotify]: [notify] is the dispatcher's answer (true: no error). *)
Definition renotify (notify : MonitoringIncident -> string -> bool) (now : Z)
    (c : MonitoringIncident * monitoringNotificationDecision) (db : DB) : DB :=
  let '(i, d) := c in
  let severity := if ValidSeverity (EffectiveSeverity d) then EffectiveSeverity d else Severity i in
  if notify i severity then
    match MarkMonitoringIncidentNotified (i_ID i) severity now db with Ok db' => db' | Err _ => db end
  else db.

Definition sweepWorkspace (notify : MonitoringIncident -> string -> bool) (ws : string) (now : Z) (db : DB) : DB :=
  match ListMonitoringIncidentsDueForRenotify ws now defaultLimit db with
  | Err _ => db
  | Ok due => fold_left (fun db c => renotify notify now c db) due db
  end.

(** ** The tables as a state machine *)

Inductive mon_action :=
| AUpsert (occ : string) (t : TemplateHit) (n : Z)
| ATriage (inc occ : string) (a : MonitoringTriageRecord)
| AOutcome (inc occ : string) (a : ExpectedSignalRecord)
| AMark (id severity : string)
| AAck (ws id actor : string) | AUnack (ws id : string)
| ASilence (ws id actor : string) (duration : Z) | AUnsilence (ws id : string)
| ADismiss (ws id actor session status : string)
| AResolve (a : MonitoringResolutionInput)
| AClear (ws id reason session : string) | AClearTask (ws task reason session : string)
| ACreateRule (newID : string) (r : MonitoringExpectedSignal) | AUpdateRule (r : MonitoringExpectedSignal)
| ADeleteRule (id : string)
| ASweep (ws : string) (notify : MonitoringIncident -> string -> bool).

(** Row ids are generated, so they are not in use. *)
Definition fresh_inc (id : string) (db : DB) : bool :=
  negb (bool_decide (id = "")) && negb (existsb (fun i => bool_decide (i_ID i = id)) (incidents db)).
Definition fresh_occ (id : string) (db : DB) : bool := negb (existsb (fun o => bool_decide (o_ID o = id)) (occurrences_ db)).

Definition committed {A} (o : result mon_error (A * DB)) : option DB :=
  match o with Ok (_, db) => Some db | Err _ => None end.
Definition committed' (o : result mon_error DB) : option DB := match o with Ok db => Some db | Err _ => None end.

Definition mon_step (load : string -> option Location) (now : Z) (a : mon_action) (db : DB) : option DB :=
  match a with
  | AUpsert occ t n => if fresh_occ occ db then committed (UpsertLogTemplate occ t n db) else None
  | ATriage inc occ a => if fresh_inc inc db && fresh_occ occ db then committed (RecordMonitoringTriage inc occ a db) else None
  | AOutcome inc occ a => if fresh_inc inc db && fresh_occ occ db then committed (RecordExpectedSignalOutcome inc occ a db) else None
  | AMark id severity => committed' (MarkMonitoringIncidentNotified id severity now db)
  | AAck ws id actor => committed' (AckMonitoringIncident ws id actor now db)
  | AUnack ws id => committed' (UnackMonitoringIncident ws id now db)
  | ASilence ws id actor d => committed' (SilenceMonitoringIncident ws id actor d now db)
  | AUnsilence ws id => committed' (UnsilenceMonitoringIncident ws id now db)
  | ADismiss ws id actor session status => committed (DismissMonitoringIncident ws id actor session status now db)
  | AResolve a => committed (ApplyMonitoringTaskResolution a db)
  | AClear ws id reason session => committed (ClearMonitoringResolution ws id reason session now db)
  | AClearTask ws task reason session => committed (ClearMonitoringResolutionForTask ws task reason session now db)
  | ACreateRule newID r => committed' (CreateMonitoringExpectedSignal load newID now r db)
  | AUpdateRule r => committed' (UpdateMonitoringExpectedSignal load r db)
  | ADeleteRule id => committed' (DeleteMonitoringExpectedSignal id db)
  | ASweep ws notify => Some (sweepWorkspace notify ws now db)
  end.

(** ** The invariant of the tables *)

Definition occs_of (id : string) (l : list MonitoringOccurrence) : list MonitoringOccurrence :=
  List.filter (fun o => bool_decide (o_IncidentID o = id)) l.
Definition events_of (l : list MonitoringOccurrence) : Z := foldr (fun o s => o_EventCount o + s) 0 l.

(** An incident's counters are those of its ledger. *)
Definition counted (l : list MonitoringOccurrence) (i : MonitoringIncident) : Prop :=
  OccurrenceCount i = Z.of_nat (List.length (occs_of (i_ID i) l)) /\ EventCount i = events_of (occs_of (i_ID i) l).

Definition typed (i : MonitoringIncident) : Prop :=
  ValidSeverity (Severity i) = true /\ ValidMonitoringDisposition (Disposition i) = true.

Definition class_of (i : MonitoringIncident) : string * string := (i_WorkspaceID i, i_ClassKey i).
Definition episode_of (o : MonitoringOccurrence) : string * Z := (o_IncidentID o, OccurrenceKey o).

Record rows_ok (l : list MonitoringIncident) (os : list MonitoringOccurrence) : Prop := {
  ids_unique : NoDup (map i_ID l);
  ids_named : ("" ∉ map i_ID l);
  classes_unique : NoDup (map class_of l);
  rows_typed : Forall typed l;
  occs_unique : NoDup (map o_ID os);
  episodes_unique : NoDup (map episode_of os);
  occs_owned : Forall (fun o => o_IncidentID o ∈ map i_ID l) os;
  rows_counted : Forall (counted os) l }.

Definition rules_ok (load : string -> option Location) (m : gmap string MonitoringExpectedSignal) : Prop :=
  forall id r, m !! id = Some r -> es_ID r = id /\ ValidateMonitoringExpectedSignal load r = None.

Definition db_ok (load : string -> option Location) (db : DB) : Prop :=
  rows_ok (incidents db) (occurrences_ db) /\ rules_ok load (rules db).

(** *** Updates of one row *)

Definition on_id (id : string) (f : MonitoringIncident -> MonitoringIncident) (i : MonitoringIncident) :=
  if bool_decide (i_ID i = id) then f i else i.

(** An update that leaves identity and counters, and keeps a row typed. *)
Definition neutral (f : MonitoringIncident -> MonitoringIncident) : Prop :=
  forall i, i_ID (f i) = i_ID i /\ class_of (f i) = class_of i /\ OccurrenceCount (f i) = OccurrenceCount i /\
    EventCount (f i) = EventCount i /\ (typed i -> typed (f i)).

Lemma map_keep {A B} (g : A -> B) (f : A -> A) l : (forall x, g (f x) = g x) -> map g (map f l) = map g l.
Proof. intros Hf. rewrite map_map. by apply map_ext. Qed.

Lemma rows_ok_neutral f l os : neutral f -> rows_ok l os -> forall id, rows_ok (map (on_id id f) l) os.
Proof.
  intros Hf [] id.
  assert (forall i, i_ID (on_id id f i) = i_ID i /\ class_of (on_id id f i) = class_of i /\
    OccurrenceCount (on_id id f i) = OccurrenceCount i /\ EventCount (on_id id f i) = EventCount i /\
    (typed i -> typed (on_id id f i))) as Hk.
  { intros i. unfold on_id. case_bool_decide; [apply Hf|auto]. }
  split; try done; rewrite ?map_keep; try done; try (intros; apply Hk).
  - rewrite Forall_map. eapply Forall_impl; [exact rows_typed0|]. intros i. apply Hk.
  - rewrite Forall_map. eapply Forall_impl; [exact rows_counted0|]. intros i [Ho He].
    destruct (Hk i) as (Hi & _ & Hoc & Hev & _). unfold counted. by rewrite Hi, Hoc, Hev.
Qed.

(** An update that counts one more episode or some more events. *)
Definition counting (dn de : Z) (f : MonitoringIncident -> MonitoringIncident) : Prop :=
  forall i, i_ID (f i) = i_ID i /\ class_of (f i) = class_of i /\ OccurrenceCount (f i) = OccurrenceCount i + dn /\
    EventCount (f i) = EventCount i + de /\ (typed i -> typed (f i)).

Lemma rows_ok_observe l os os' id f dn de : counting dn de f -> rows_ok l os ->
  NoDup (map o_ID os') -> NoDup (map episode_of os') -> Forall (fun o => o_IncidentID o ∈ map i_ID l) os' ->
  (forall j, Z.of_nat (List.length (occs_of j os')) =
             Z.of_nat (List.length (occs_of j os)) + (if bool_decide (j = id) then dn else 0) /\
             events_of (occs_of j os') = events_of (occs_of j os) + (if bool_decide (j = id) then de else 0)) ->
  rows_ok (map (on_id id f) l) os'.
Proof.
  intros Hf [] H1 H2 H3 Hc.
  assert (forall i, i_ID (on_id id f i) = i_ID i /\ class_of (on_id id f i) = class_of i /\ (typed i -> typed (on_id id f i))) as Hk.
  { intros i. unfold on_id. case_bool_decide; [|done]. split_and!; apply Hf. }
  split; try done; rewrite ?map_keep; try done; try (intros; apply Hk).
  - rewrite Forall_map. eapply Forall_impl; [exact rows_typed0|]. intros i. apply Hk.
  - rewrite Forall_map. eapply Forall_impl; [exact rows_counted0|]. intros i [Ho He].
    destruct (Hc (i_ID i)) as [Hn Hev]. unfold counted. rewrite (proj1 (Hk i)), Hn, Hev, <- Ho, <- He.
    unfold on_id. destruct (bool_decide_reflect (i_ID i = id)) as [|]; [|lia].
    destruct (Hf i) as (_ & _ & -> & -> & _). lia.
Qed.

Lemma occs_of_app j l1 l2 : occs_of j (l1 ++ l2) = occs_of j l1 ++ occs_of j l2.
Proof. apply List.filter_app. Qed.

Lemma occs_of_single j o : occs_of j [o] = if bool_decide (o_IncidentID o = j) then [o] else [].
Proof. done. Qed.

Lemma events_of_app l1 l2 : events_of (l1 ++ l2) = events_of l1 + events_of l2.
Proof. unfold events_of. induction l1 as [|o l1 IH]; cbn in *; lia. Qed.

Lemma NoDup_map_app {A B} (g : A -> B) l x : NoDup (map g l) -> (g x ∉ map g l) -> NoDup (map g (l ++ [x])).
Proof.
  intros Hl Hx. rewrite map_app. cbn. apply NoDup_app. split; [done|]. split; [|apply NoDup_singleton].
  intros y Hy. rewrite elem_of_cons, elem_of_nil. by intros [-> | []].
Qed.

(** One more episode. *)
Lemma rows_ok_new l os o f : counting 1 (o_EventCount o) f -> rows_ok l os ->
  o_IncidentID o ∈ map i_ID l -> (o_ID o ∉ map o_ID os) -> (episode_of o ∉ map episode_of os) ->
  rows_ok (map (on_id (o_IncidentID o) f) l) (os ++ [o]).
Proof.
  intros Hf Hok Hin Hid Hep. eapply rows_ok_observe; [exact Hf|exact Hok|..].
  - apply NoDup_map_app; [apply Hok|done].
  - apply NoDup_map_app; [apply Hok|done].
  - apply Forall_add; [apply Hok|done].
  - intros j. rewrite occs_of_app, length_app, events_of_app, occs_of_single.
    destruct (bool_decide_reflect (o_IncidentID o = j)) as [<-|Hne].
    + rewrite bool_decide_eq_true_2 by done. cbn. lia.
    + rewrite bool_decide_eq_false_2 by congruence. cbn. lia.
Qed.

(** Some more events in an episode. *)
Definition on_occ (oid : string) (g : MonitoringOccurrence -> MonitoringOccurrence) (o : MonitoringOccurrence) :=
  if bool_decide (o_ID o = oid) then g o else o.

Lemma on_occ_keep {B} (p : MonitoringOccurrence -> B) oid g x : p (g x) = p x -> p (on_occ oid g x) = p x.
Proof. unfold on_occ. by destruct (bool_decide _). Qed.

Lemma merge_counts os o g n : NoDup (map o_ID os) -> o ∈ os ->
  (forall x, o_ID (g x) = o_ID x /\ o_IncidentID (g x) = o_IncidentID x /\ o_EventCount (g x) = o_EventCount x + n) ->
  forall j, List.length (occs_of j (map (on_occ (o_ID o) g) os)) = List.length (occs_of j os) /\
    events_of (occs_of j (map (on_occ (o_ID o) g) os)) =
    events_of (occs_of j os) + if bool_decide (j = o_IncidentID o) then n else 0.
Proof.
  intros Hnd Hin Hg j. induction os as [|x os IH]; [by apply elem_of_nil in Hin|].
  cbn in Hnd. apply NoDup_cons in Hnd as [Hx Hnd].
  assert (o_IncidentID (on_occ (o_ID o) g x) = o_IncidentID x) as Hix by (apply on_occ_keep, Hg).
  unfold occs_of. cbn. rewrite Hix. fold (occs_of j (map (on_occ (o_ID o) g) os)) (occs_of j os).
  apply elem_of_cons in Hin as [-> | Hin].
  - assert (map (on_occ (o_ID x) g) os = os) as ->.
    { rewrite <- (map_id os) at 2. apply map_ext_in. intros y Hy%list_elem_of_In. unfold on_occ.
      rewrite bool_decide_eq_false_2; [done|]. intros He. apply Hx. rewrite <- He. apply list_elem_of_fmap. eauto. }
    unfold on_occ. rewrite (bool_decide_eq_true_2 (o_ID x = o_ID x)) by done. destruct (Hg x) as (_ & _ & Hn).
    destruct (bool_decide_reflect (o_IncidentID x = j)) as [<-|].
    + rewrite bool_decide_eq_true_2 by done. cbn. rewrite Hn. lia.
    + rewrite bool_decide_eq_false_2 by congruence. lia.
  - destruct (IH Hnd Hin) as [Hl He].
    assert (on_occ (o_ID o) g x = x) as ->.
    { unfold on_occ. rewrite bool_decide_eq_false_2; [done|]. intros Heq. apply Hx. rewrite Heq.
      apply list_elem_of_fmap. eauto. }
    unfold events_of in *. destruct (bool_decide (o_IncidentID x = j)); cbn; rewrite ?Hl, ?He; lia.
Qed.

Lemma rows_ok_merge l os o f g n : counting 0 n f -> rows_ok l os -> o ∈ os ->
  (forall x, o_ID (g x) = o_ID x /\ episode_of (g x) = episode_of x /\ o_EventCount (g x) = o_EventCount x + n) ->
  rows_ok (map (on_id (o_IncidentID o) f) l) (map (on_occ (o_ID o) g) os).
Proof.
  intros Hf Hok Hin Hg.
  assert (forall x, o_IncidentID (g x) = o_IncidentID x) as Hinc.
  { intros x. destruct (Hg x) as (_ & He & _). by injection He. }
  assert (forall x, o_ID (on_occ (o_ID o) g x) = o_ID x /\ episode_of (on_occ (o_ID o) g x) = episode_of x /\
    o_IncidentID (on_occ (o_ID o) g x) = o_IncidentID x) as Hk.
  { intros x. split_and!; apply on_occ_keep; [apply Hg..|apply Hinc]. }
  eapply rows_ok_observe; [exact Hf|exact Hok|..].
  - rewrite map_keep; [apply Hok|]. intros; apply Hk.
  - rewrite map_keep; [apply Hok|]. intros; apply Hk.
  - rewrite Forall_map. eapply Forall_impl; [apply Hok|]. intros x Hx. by rewrite (proj2 (proj2 (Hk x))).
  - intros j. destruct (merge_counts os o g n (occs_unique _ _ Hok) Hin) with (j := j) as [-> ->].
    { intros x. split_and!; [apply Hg|apply Hinc|apply Hg]. }
    destruct (bool_decide (j = o_IncidentID o)); lia.
Qed.

Lemma rows_ok_insert l os i : rows_ok l os -> i_ID i <> "" -> (i_ID i ∉ map i_ID l) -> (class_of i ∉ map class_of l) ->
  typed i -> OccurrenceCount i = 0 -> EventCount i = 0 -> rows_ok (l ++ [i]) os.
Proof.
  intros [] Hne Hid Hcl Ht H0 H1. split; try done.
  - by apply NoDup_map_app.
  - rewrite map_app. cbn. rewrite elem_of_app, elem_of_cons, elem_of_nil. naive_solver.
  - by apply NoDup_map_app.
  - by apply Forall_add.
  - eapply Forall_impl; [exact occs_owned0|]. intros o. rewrite map_app, elem_of_app. by left.
  - apply Forall_add; [done|]. unfold counted. rewrite H0, H1.
    assert (occs_of (i_ID i) os = []) as ->; [|done].
    clear -Hid occs_owned0. induction os as [|o os IH]; [done|].
    apply Forall_cons in occs_owned0 as [Ho Hos]. unfold occs_of. cbn.
    rewrite bool_decide_eq_false_2 by (intros He; by rewrite He in Ho). by apply IH.
Qed.

(** *** Operations *)

Definition inv (db : DB) : Prop := rows_ok (incidents db) (occurrences_ db).

Lemma inv_update id f db : neutral f -> inv db -> inv (update_incident id f db).
Proof. intros Hf Hi. exact (rows_ok_neutral f _ _ Hf Hi id). Qed.

Lemma neutral_notified at_ s u : neutral (with_notified at_ s u).
Proof. done. Qed.
Lemma neutral_pause p u : neutral (with_pause p u).
Proof. done. Qed.
Lemma neutral_task t u : neutral (with_task t u).
Proof. done. Qed.
Lemma neutral_disposition d u : ValidMonitoringDisposition d = true -> neutral (with_disposition d u).
Proof. intros Hd i. cbn. split_and!; [done|done|lia|lia|]. intros [Hs _]. by split. Qed.

#[local] Hint Resolve inv_update neutral_notified neutral_pause neutral_task neutral_disposition : go.

Lemma inv_suppress i at_ns db : inv db -> inv (snd (suppressMonitoringIncidentQ i at_ns db)).
Proof. intros H. apply inv_update; [by apply neutral_disposition|done]. Qed.

Lemma restored_disposition before : ValidMonitoringDisposition
  (if negb (ValidMonitoringDisposition before) || bool_decide (before = "benign") then "actionable" else before) = true.
Proof. destruct (ValidMonitoringDisposition before) eqn:He; cbn; [case_bool_decide|]; done. Qed.

Lemma inv_restore row now db : inv db -> inv (restoreMonitoringIncidentQ row now db).
Proof.
  intros H. unfold restoreMonitoringIncidentQ. apply inv_update; [done|]. case_bool_decide; [|done].
  apply (inv_update _ _ db); [apply neutral_disposition, restored_disposition|done].
Qed.

Lemma inv_break id at_ns db : inv db -> inv (breakMonitoringSuppressionQ id at_ns db).
Proof. intros H. unfold breakMonitoringSuppressionQ. case_match; [|done]. by apply (inv_restore _ at_ns). Qed.

Lemma inv_clear_found found reason session now db : inv db -> inv (snd (clear_found found reason session now db)).
Proof. intros H. destruct found as [row|]; [|done]. by apply (inv_restore row now). Qed.

(** The common step of the three observers: an episode of incident [i] is
    inserted or merged, and the incident counts it. *)
Lemma inv_observe (i : MonitoringIncident) (o : MonitoringOccurrence) g f n db : inv db -> i_ID i ∈ map i_ID (incidents db) ->
  o_IncidentID o = i_ID i -> fresh_occ (o_ID o) db = true ->
  (forall o' x, o_ID (g o' x) = o_ID x /\ episode_of (g o' x) = episode_of x /\
     o_EventCount (g o' x) = o_EventCount x + n) ->
  (forall b : bool, counting (if b then 1 else 0) (if b then o_EventCount o else n) (f b)) ->
  let found := getMonitoringOccurrenceQ (i_ID i) (OccurrenceKey o) db in
  inv (update_incident (i_ID i) (f (is_new found))
    match found with
    | None => insertMonitoringOccurrence o db
    | Some o' => update_occurrence (o_ID o') (g o') db
    end).
Proof.
  intros Hi Hid Hoi Hfr Hg Hf found.
  destruct found as [o'|] eqn:Hfound; cbn [is_new]; subst found.
  - unfold getMonitoringOccurrenceQ in Hfound.
    apply find_Some_elem in Hfound as [Ho' He]. bool_hyps. subst.
    unfold inv. cbn. rewrite <- H. apply (rows_ok_merge _ _ o' (f false) (g o') n); try done. apply (Hf false).
  - unfold inv. cbn. rewrite <- Hoi. apply (rows_ok_new _ _ o (f true)); [apply (Hf true)|done|by rewrite Hoi| |].
    + intros (x & Hx & Hxo)%list_elem_of_fmap. unfold fresh_occ in Hfr. apply negb_true_iff in Hfr.
      rewrite existsb_false_elem in Hfr. specialize (Hfr x Hxo). bool_hyps. congruence.
    + intros (x & Hx & Hxo)%list_elem_of_fmap. unfold getMonitoringOccurrenceQ in Hfound.
      rewrite find_None_elem in Hfound. specialize (Hfound x Hxo). unfold episode_of in Hx. injection Hx as H1 H2.
      rewrite bool_decide_eq_true_2 in Hfound by congruence. cbn in Hfound. apply Z.eqb_neq in Hfound. congruence.
Qed.

Lemma higher_valid a b : ValidSeverity b = true -> ValidSeverity (higher_of a b) = true.
Proof. unfold higher_of, severityHigher, ValidSeverity. case_match; [|done]. rewrite !Z.leb_le, Z.ltb_lt in *. lia. Qed.

Lemma counting_occurrence dn de (sev disp title : MonitoringIncident -> string) seen_ upd :
  (forall i, typed i -> ValidSeverity (sev i) = true /\ ValidMonitoringDisposition (disp i) = true) ->
  counting dn de (fun i => with_occurrence (sev i) (disp i) (title i) dn de seen_ upd i).
Proof. intros H i. split_and!; [done..|]. intros Ht. exact (H i Ht). Qed.

Lemma found_elem {A} (f : A -> bool) l x : List.find f l = Some x -> x ∈ l.
Proof. by intros [? _]%find_Some_elem. Qed.

Lemma inv_mapped occ t n db : inv db -> fresh_occ occ db = true ->
  inv (recordMappedMonitoringOccurrence occ t n db).
Proof.
  intros Hi Hfr. unfold recordMappedMonitoringOccurrence, getMonitoringIncidentByTemplateQ.
  destruct (links db !! th_ID t) as [id|]; [|done].
  destruct (getMonitoringIncidentByIDQ id db) as [i|] eqn:Hget; [|done].
  apply found_elem in Hget as Hin.
  assert (typed i) as [Hs _] by (eapply Forall_forall; [apply Hi|done]).
  apply (inv_observe i (fresh_occurrence occ (i_ID i) (th_SourceID t) [th_ID t] (th_Severity t) n (th_LastSeen t) "")
    (fun o o' => merged_occurrence (mergeTemplateIDsJSON (TemplateIDs o) [th_ID t])
       (higher_of (th_Severity t) (o_Severity o)) (Evidence o') n
       (if o_LastSeen o' <? to_column (th_LastSeen t) then to_column (th_LastSeen t) else o_LastSeen o') o')
    (fun b i' => with_occurrence (higher_of (th_Severity t) (Severity i)) (Disposition i') (i_Title i')
       (if b : bool then 1 else 0) n (to_column (th_LastSeen t)) (to_column (th_LastSeen t)) i') n); try done;
    [apply list_elem_of_fmap; eauto|].
  intros b. replace (if b then _ else n) with n by (by destruct b).
  apply (counting_occurrence _ _ (fun _ => higher_of (th_Severity t) (Severity i)) Disposition i_Title).
  intros i' [_ Hd]. split; [by apply higher_valid|done].
Qed.

Lemma fresh_not_in id db : fresh_inc id db = true -> id <> "" /\ (id ∉ map i_ID (incidents db)).
Proof.
  intros [Hn Hf]%andb_true_iff. bool_hyps. split; [done|].
  intros (i & Hi & Hin)%list_elem_of_fmap. rewrite existsb_false_elem in Hf.
  specialize (Hf i Hin). bool_hyps. congruence.
Qed.

Lemma no_class ws class db : getMonitoringIncidentByClassQ ws class db = None ->
  ((ws, class) ∉ map class_of (incidents db)).
Proof.
  intros Hn (i & Hi & Hin)%list_elem_of_fmap. unfold getMonitoringIncidentByClassQ in Hn.
  rewrite find_None_elem in Hn. specialize (Hn i Hin). injection Hi as -> ->.
  by rewrite !bool_decide_eq_true_2 in Hn.
Qed.

Lemma inv_insert id ws class task disp sev title at_ns db : inv db -> fresh_inc id db = true ->
  getMonitoringIncidentByClassQ ws class db = None -> ValidSeverity sev = true ->
  ValidMonitoringDisposition disp = true ->
  let i := fresh_incident id ws class task disp sev title at_ns in
  inv (set_incidents (incidents db ++ [i]) db) /\ i_ID i ∈ map i_ID (incidents db ++ [i]).
Proof.
  intros Hi Hf Hn Hs Hd i. split.
  - apply rows_ok_insert; try done; [by eapply fresh_not_in..|by apply no_class].
  - rewrite map_app, elem_of_app. right. by apply list_elem_of_here.
Qed.

Lemma typed_in i db : inv db -> i ∈ incidents db -> typed i.
Proof. intros Hi Hin. by eapply Forall_forall; [apply Hi|]. Qed.

Lemma elected inc a db i new db' : elect_incident inc a db = Ok (i, new, db') -> inv db ->
  fresh_inc inc db = true -> ValidSeverity (tr_Severity a) = true ->
  ValidMonitoringDisposition (tr_Disposition a) = true ->
  inv db' /\ i_ID i ∈ map i_ID (incidents db') /\ typed i /\ occurrences_ db' = occurrences_ db /\ rules db' = rules db.
Proof.
  intros He Hi Hf Hs Hd. revert He. unfold elect_incident.
  destruct (getMonitoringIncidentByClassQ _ _ db) as [x|] eqn:Hget.
  - apply found_elem in Hget as Hin.
    assert (i_ID x ∈ map i_ID (incidents db)) by (apply list_elem_of_fmap; eauto).
    pose proof (typed_in x db Hi Hin). case_bool_decide; [by intros [= <- <- <-]|].
    case_bool_decide; [done|]. intros [= <- <- <-]. split_and!; try done.
    + apply inv_update; [done|exact Hi].
    + cbn. rewrite map_keep; [done|]. intros y. by destruct (bool_decide _).
  - intros [= <- <- <-]. cbn [incidents set_incidents]. split; [|split]; [by apply inv_insert..|]. done.
Qed.

Lemma link_templates_keeps inc ids db db' : link_templates inc ids db = Ok db' ->
  incidents db' = incidents db /\ occurrences_ db' = occurrences_ db /\ rules db' = rules db.
Proof.
  revert db. induction ids as [|id ids IH]; intros db; cbn; [by intros [= <-]|].
  destruct (links db !! id); [case_bool_decide; [apply IH|done]|]. by intros [H1 H2]%IH.
Qed.

Lemma break_keeps id at_ns db : map i_ID (incidents (breakMonitoringSuppressionQ id at_ns db)) = map i_ID (incidents db) /\
  occurrences_ (breakMonitoringSuppressionQ id at_ns db) = occurrences_ db /\
  rules (breakMonitoringSuppressionQ id at_ns db) = rules db.
Proof.
  unfold breakMonitoringSuppressionQ. destruct (live_resolution id db) as [row|]; [|done].
  unfold restoreMonitoringIncidentQ. destruct (bool_decide (r_Outcome row = "benign")); cbn; split; try done;
    rewrite !map_keep; try done; intros i; by destruct (bool_decide _).
Qed.

(** The break of a benign suppression, when there is one to break. *)
Lemma maybe_break (b : bool) id at_ns db : inv db ->
  let db' := if b then breakMonitoringSuppressionQ id at_ns db else db in
  inv db' /\ map i_ID (incidents db') = map i_ID (incidents db) /\ occurrences_ db' = occurrences_ db /\
  rules db' = rules db.
Proof. intros Hi. destruct b; [split; [by apply inv_break|apply break_keeps]|done]. Qed.

Lemma inv_same db db' : incidents db' = incidents db -> occurrences_ db' = occurrences_ db -> inv db -> inv db'.
Proof. unfold inv. by intros -> ->. Qed.

Lemma fresh_same id db db' : occurrences_ db' = occurrences_ db -> fresh_occ id db' = fresh_occ id db.
Proof. unfold fresh_occ. by intros ->. Qed.

Lemma notify_result_same id n1 n2 at_ns db m db' : notify_result id n1 n2 at_ns db = Ok (m, db') ->
  db' = db /\ i_ID (mr_Incident m) = id.
Proof.
  unfold notify_result. destruct (getMonitoringIncidentByIDQ id db) as [i|] eqn:Hget; [|done].
  intros [= <- <-]. apply find_Some_elem in Hget as [_ He]. bool_hyps. done.
Qed.

Lemma triage_ok load inc occ a db m db' : db_ok load db -> fresh_inc inc db = true -> fresh_occ occ db = true ->
  RecordMonitoringTriage inc occ a db = Ok (m, db') -> db_ok load db' /\ rules db' = rules db.
Proof.
  intros [Hi Hr] Hfi Hfo. unfold RecordMonitoringTriage.
  destruct (_ || _ || _); [done|]. destruct (ValidSeverity (tr_Severity a)) eqn:Hs; cbn [negb]; [|done].
  destruct (ValidMonitoringDisposition (tr_Disposition a)) eqn:Hd; cbn [negb orb]; [|done].
  case_bool_decide; [done|]. case_bool_decide; [done|]. cbn [tr_WorkspaceID tr_TaskID].
  destruct (negb (requireMonitoringTask _ _ db)); [done|].
  destruct (requireMonitoringTemplates _ _ db) as [source|]; [|done].
  destruct (elect_incident inc _ db) as [[[i new] db1]|] eqn:He; [|done].
  destruct (elected _ _ _ _ _ _ He Hi Hfi Hs Hd) as (Hi1 & Hin1 & Ht1 & Ho1 & Hr1).
  pose proof (maybe_break (negb new && bool_decide (Disposition i = "benign")) (i_ID i) (tr_ObservedAt a) db1 Hi1)
    as (Hi2 & Hid2 & Ho2 & Hr2).
  set (db2 := if _ : bool then breakMonitoringSuppressionQ _ _ db1 else db1) in *. clearbody db2.
  destruct (link_templates (i_ID i) _ db2) as [db3|] eqn:Hl; [|done].
  apply link_templates_keeps in Hl as (Hl1 & Hl2 & Hl3).
  cbn [tr_Severity tr_Disposition tr_Title tr_SourceID].
  set (ids := uniqueStrings (tr_TemplateIDs a)). set (ev := truncateMonitoringText (tr_Evidence a) 6000).
  set (src := if bool_decide (tr_SourceID a = "") then source else tr_SourceID a).
  set (ti := if bool_decide (i_Title i = "") || _ then _ else _).
  intros [-> _]%notify_result_same.
  assert (forall d, rules (update_incident (i_ID i) (with_occurrence (higher_of (tr_Severity a) (Severity i))
    (tr_Disposition a) ti d d (to_column (tr_ObservedAt a)) (to_column (tr_ObservedAt a)))
    match getMonitoringOccurrenceQ (i_ID i) (monitoringBucketKey (tr_ObservedAt a)) db3 with
    | None => insertMonitoringOccurrence (fresh_occurrence occ (i_ID i) src ids (tr_Severity a) 1 (tr_ObservedAt a) ev) db3
    | Some o => update_occurrence (o_ID o) (merged_occurrence (mergeTemplateIDsJSON (TemplateIDs o) ids)
        (higher_of (tr_Severity a) (o_Severity o)) (if bool_decide (Evidence o = "") then ev else Evidence o) 0
        (to_column (tr_ObservedAt a))) db3
    end) = rules db) as Hrules.
  { intros d. rewrite <- Hr1, <- Hr2, <- Hl3. cbn. by destruct (getMonitoringOccurrenceQ _ _ db3). }
  split; [split|apply Hrules].
  - apply (inv_observe i (fresh_occurrence occ (i_ID i) src ids (tr_Severity a) 1 (tr_ObservedAt a) ev)
      (fun o => merged_occurrence (mergeTemplateIDsJSON (TemplateIDs o) ids) (higher_of (tr_Severity a) (o_Severity o))
         (if bool_decide (Evidence o = "") then ev else Evidence o) 0 (to_column (tr_ObservedAt a)))
      (fun b => with_occurrence (higher_of (tr_Severity a) (Severity i)) (tr_Disposition a) ti
         (if b : bool then 1 else 0) (if b : bool then 1 else 0) (to_column (tr_ObservedAt a)) (to_column (tr_ObservedAt a))) 0).
    + by eapply inv_same.
    + by rewrite Hl1, Hid2.
    + done.
    + rewrite (fresh_same _ db); [done|]. congruence.
    + intros o' x. split_and!; done.
    + intros b. apply (counting_occurrence _ _ (fun _ => higher_of (tr_Severity a) (Severity i))
        (fun _ => tr_Disposition a) (fun _ => ti)). intros _ _. split; [apply higher_valid, Ht1|done].
  - intros id r Hrule. apply Hr. by rewrite Hrules in Hrule.
Qed.

Lemma rules_alter_ok load (m : gmap string MonitoringExpectedSignal) id f : rules_ok load m ->
  (forall r, es_ID (f r) = es_ID r /\
     ValidateMonitoringExpectedSignal load (f r) = ValidateMonitoringExpectedSignal load r) ->
  rules_ok load (alter f id m).
Proof.
  intros Hm Hf k r. rewrite lookup_alter_Some. intros [(-> & r' & Hr' & ->)|[_ Hr]]; [|by apply Hm].
  destruct (Hf r') as [-> ->]. by apply Hm.
Qed.

Lemma persist_ok load rule d at_ns incident recovered db : db_ok load db ->
  db_ok load (persistExpectedSignalState rule d at_ns incident recovered db).
Proof.
  intros [Hi Hr]. unfold persistExpectedSignalState.
  destruct (if Raise d then incident else None); (split; [exact Hi|]); by apply rules_alter_ok.
Qed.

Lemma raise_ok load inc occ rule a db m db' : db_ok load db -> fresh_inc inc db = true -> fresh_occ occ db = true ->
  ValidSeverity (sd_Severity (er_Decision a)) = true ->
  raiseExpectedSignalIncident inc occ rule a db = Ok (m, db') -> db_ok load db' /\ rules db' = rules db.
Proof.
  intros [Hi Hr] Hfi Hfo Hs. unfold raiseExpectedSignalIncident.
  destruct (negb (requireMonitoringTask _ _ db)); [done|].
  destruct (upsertExpectedSignalIncident inc rule a db) as [[i new] db1] eqn:Hu.
  assert (inv db1 /\ i_ID i ∈ map i_ID (incidents db1) /\ occurrences_ db1 = occurrences_ db /\ rules db1 = rules db)
    as (Hi1 & Hin1 & Ho1 & Hr1).
  { unfold upsertExpectedSignalIncident in Hu. destruct (getMonitoringIncidentByClassQ _ _ db) eqn:Hget.
    - injection Hu as <- <- <-. apply found_elem in Hget as Hin. split_and!; try done. apply list_elem_of_fmap. eauto.
    - injection Hu as <- <- <-. split_and!; try done; by apply inv_insert. }
  pose proof (maybe_break (negb new && bool_decide (Disposition i = "benign")) (i_ID i) (er_ObservedAt a) db1 Hi1)
    as (Hi2 & Hid2 & Ho2 & Hr2).
  set (db2 := if _ : bool then breakMonitoringSuppressionQ _ _ db1 else db1) in *. clearbody db2.
  unfold upsertExpectedSignalOccurrence.
  set (ev := truncateMonitoringText (er_Evidence a) 6000).
  set (ti := if bool_decide (_ = "") then i_Title i else _).
  pose proof (inv_observe i (fresh_occurrence occ (i_ID i) (es_SourceID rule) [] (sd_Severity (er_Decision a)) 1 (er_ObservedAt a) ev)
    (fun o => merged_occurrence (TemplateIDs o) (higher_of (sd_Severity (er_Decision a)) (o_Severity o)) ev 0
       (to_column (er_ObservedAt a)))
    (fun b i' => with_occurrence (sd_Severity (er_Decision a)) (Disposition i') ti
       (if b : bool then 1 else 0) (if b : bool then 1 else 0) (to_column (er_ObservedAt a)) (to_column (er_ObservedAt a)) i')
    0 db2 Hi2) as Hobs.
  ospecialize* Hobs.
  { by rewrite Hid2. }
  { done. }
  { rewrite (fresh_same _ db); [done|]. congruence. }
  { intros o' x. split_and!; done. }
  { intros b. apply (counting_occurrence _ _ (fun _ => sd_Severity (er_Decision a)) Disposition (fun _ => ti)).
    intros i' [_ Hd]. by split. }
  cbn [OccurrenceKey fresh_occurrence] in Hobs.
  destruct (getMonitoringOccurrenceQ _ _ db2) as [o|]; cbn [is_new] in Hobs;
    intros [-> _]%notify_result_same; (split; [split; [exact Hobs|]|]); cbn; unfold rules_ok; intros; congruence || (rewrite Hr2, Hr1 in *; by apply Hr).
Qed.

Lemma outcome_ok load inc occ a db m db' : db_ok load db -> fresh_inc inc db = true -> fresh_occ occ db = true ->
  RecordExpectedSignalOutcome inc occ a db = Ok (m, db') -> db_ok load db'.
Proof.
  intros Hdb Hfi Hfo. unfold RecordExpectedSignalOutcome. case_bool_decide; [done|].
  destruct (Raise (er_Decision a)) eqn:Hraise; cbn [andb].
  - destruct (ValidSeverity (sd_Severity (er_Decision a))) eqn:Hs; cbn [negb]; [|done].
    destruct (_ || _); [done|]. destruct (rules db !! er_RuleID a) as [rule|]; [|done].
    destruct (raiseExpectedSignalIncident inc occ rule a db) as [[m' db1]|] eqn:Hrs; [|done].
    intros [= <- <-]. apply persist_ok. by eapply raise_ok.
  - destruct (rules db !! er_RuleID a) as [rule|]; [|done]. intros [= <- <-]. by apply persist_ok.
Qed.

Lemma create_ok load id now r db db' : db_ok load db ->
  CreateMonitoringExpectedSignal load id now r db = Ok db' -> db_ok load db'.
Proof.
  intros [Hi Hr]. unfold CreateMonitoringExpectedSignal. case_bool_decide; [done|].
  destruct (ValidateMonitoringExpectedSignal load (ApplyExpectedSignalDefaults r)) eqn:Hv; [done|].
  destruct (_ || _); [done|]. intros [= <-]. split; [done|].
  intros k x. cbn [rules set_rules]. rewrite lookup_insert_Some. intros [[<- <-]|[_ Hk]]; [|by apply Hr].
  split; [done|exact Hv].
Qed.

Lemma update_ok load r db db' : db_ok load db ->
  UpdateMonitoringExpectedSignal load r db = Ok db' -> db_ok load db'.
Proof.
  intros [Hi Hr]. unfold UpdateMonitoringExpectedSignal. case_bool_decide; [done|].
  destruct (ValidateMonitoringExpectedSignal load (ApplyExpectedSignalDefaults r)) eqn:Hv; [done|].
  destruct (rules db !! _) as [old|] eqn:Hold; [|done]. destruct (rule_conflict _ _ _ _ _); [done|].
  intros [= <-]. split; [done|].
  intros k x. cbn [rules set_rules]. rewrite lookup_insert_Some. intros [[<- <-]|[_ Hk]]; [|by apply Hr].
  split; [by apply Hr in Hold as [? _]|exact Hv].
Qed.

Lemma mutate_ok load ws id mut db db' : db_ok load db -> (forall i, neutral (mut i)) ->
  mutateIncidentAction ws id mut db = Ok db' -> db_ok load db'.
Proof.
  intros [Hi Hr] Hm. unfold mutateIncidentAction. destruct (loadIncidentForActionQ ws id db); [|done].
  intros [= <-]. split; [by apply inv_update|done].
Qed.

Lemma sweep_ok load notify ws now db : db_ok load db -> db_ok load (sweepWorkspace notify ws now db).
Proof.
  intros Hdb. unfold sweepWorkspace. destruct (ListMonitoringIncidentsDueForRenotify _ _ _ db) as [due|]; [|done].
  revert db Hdb. induction due as [|[i d] due IH]; intros db Hdb; cbn [fold_left]; [done|]. apply IH.
  unfold renotify. destruct (notify i _); [|done]. unfold MarkMonitoringIncidentNotified.
  destruct (negb _); [done|]. destruct (getMonitoringIncidentByIDQ _ db); [|done].
  destruct Hdb as [Hi Hr]. split; [by apply inv_update|done].
Qed.

Lemma upsert_ok load occ t n db b db' : db_ok load db -> fresh_occ occ db = true ->
  UpsertLogTemplate occ t n db = Ok (b, db') -> db_ok load db'.
Proof.
  intros [Hi Hr] Hf. unfold UpsertLogTemplate. destruct (_ || _); [done|]. destruct (n <=? 0); [done|].
  destruct (templates db !! th_ID t) as [old|]; intros [= _ <-]; [|done].
  split; [by apply inv_mapped|].
  unfold recordMappedMonitoringOccurrence. repeat case_match; exact Hr.
Qed.

Lemma clear_found_ok load found reason session now db : db_ok load db ->
  db_ok load (snd (clear_found found reason session now db)).
Proof.
  intros [Hi Hr]. split; [by apply inv_clear_found|]. destruct found as [row|]; [|done].
  unfold clear_found, restoreMonitoringIncidentQ. by destruct (bool_decide (r_Outcome row = "benign")).
Qed.

Lemma suppress_ok load i at_ns db : db_ok load db -> db_ok load (snd (suppressMonitoringIncidentQ i at_ns db)).
Proof. intros [Hi Hr]. split; [by apply inv_suppress|done]. Qed.

Lemma resolve_ok load a db o db' : db_ok load db -> ApplyMonitoringTaskResolution a db = Ok (o, db') -> db_ok load db'.
Proof.
  intros Hdb. unfold ApplyMonitoringTaskResolution. destruct (_ || _); [done|]. destruct (negb _); [done|].
  destruct (getMonitoringIncidentByTaskQ _ _ db) as [i|]; [|by intros [= _ <-]].
  pose proof (suppress_ok load i (ri_ResolvedAt a) db Hdb) as Hs.
  destruct (bool_decide _); [|by intros [= _ <-]].
  destruct (suppressMonitoringIncidentQ i (ri_ResolvedAt a) db) as [acked db1]. by intros [= _ <-].
Qed.

Lemma dismiss_ok load ws id actor session status now db o db' : db_ok load db ->
  DismissMonitoringIncident ws id actor session status now db = Ok (o, db') -> db_ok load db'.
Proof.
  intros Hdb. unfold DismissMonitoringIncident. case_bool_decide; [done|].
  destruct (loadIncidentForActionQ ws id db) as [i|]; [|done].
  pose proof (suppress_ok load i now db Hdb) as [Hs Hr].
  destruct (suppressMonitoringIncidentQ i now db) as [acked db1]. intros [= _ <-].
  split; [by apply (inv_update _ _ (put_resolution _ db1))|done].
Qed.

Lemma mon_step_ok load now a db db' : db_ok load db -> mon_step load now a db = Some db' -> db_ok load db'.
Proof.
  intros Hdb. unfold mon_step.
  assert (forall A (o : result mon_error (A * DB)), (forall x d, o = Ok (x, d) -> db_ok load d) ->
    committed o = Some db' -> db_ok load db') as Hc.
  { intros A [[x d]|e] Ho; cbn; [|done]. intros [= <-]. by eapply Ho. }
  assert (forall o : result mon_error DB, (forall d, o = Ok d -> db_ok load d) ->
    committed' o = Some db' -> db_ok load db') as Hc'.
  { intros [d|e] Ho; cbn; [|done]. intros [= <-]. by apply Ho. }
  destruct a.
  - destruct (fresh_occ occ db) eqn:Hf; [|done]. apply Hc. intros x d. by apply upsert_ok.
  - destruct (fresh_inc inc db) eqn:Hi, (fresh_occ occ db) eqn:Ho; try done. apply Hc. intros x d Hx. by eapply triage_ok.
  - destruct (fresh_inc inc db) eqn:Hi, (fresh_occ occ db) eqn:Ho; try done. apply Hc. intros x d. by apply outcome_ok.
  - apply Hc'. intros d. unfold MarkMonitoringIncidentNotified. destruct (negb _); [done|].
    destruct (getMonitoringIncidentByIDQ id db); [|done]. intros [= <-].
    destruct Hdb as [Hi Hr]. split; [by apply inv_update|done].
  - apply Hc'. intros d. unfold AckMonitoringIncident. case_bool_decide; [done|]. by apply mutate_ok.
  - apply Hc'. intros d. by apply mutate_ok.
  - apply Hc'. intros d. unfold SilenceMonitoringIncident. case_bool_decide; [done|]. destruct (_ || _); [done|].
    by apply mutate_ok.
  - apply Hc'. intros d. by apply mutate_ok.
  - apply Hc. intros x d. by apply dismiss_ok.
  - apply Hc. intros x d. by apply resolve_ok.
  - apply Hc. intros x d. unfold ClearMonitoringResolution. destruct (_ || _); [done|]. intros [= Hx].
    pose proof (clear_found_ok load) as Hk. eapply Hk in Hdb. rewrite Hx in Hdb. exact Hdb.
  - apply Hc. intros x d. unfold ClearMonitoringResolutionForTask. destruct (_ || _); [done|]. intros [= Hx].
    pose proof (clear_found_ok load) as Hk. eapply Hk in Hdb. rewrite Hx in Hdb. exact Hdb.
  - apply Hc'. intros d. by apply create_ok.
  - apply Hc'. intros d. by apply update_ok.
  - apply Hc'. intros d. unfold DeleteMonitoringExpectedSignal. destruct (rules db !! id); [|done]. intros [= <-].
    destruct Hdb as [Hi Hr]. split; [done|]. intros k r. cbn. rewrite lookup_delete_Some. intros [_ Hk]. by apply Hr.
  - intros [= <-]. by apply sweep_ok.
Qed.

(** ** Reachable tables *)

(** A fresh database: sources and tasks, no monitoring rows. *)
Definition empty_db (sources_ tasks : gmap string string) : DB := {|
  incidents := []; occurrences_ := []; templates := ∅; links := ∅; resolutions := ∅; rules := ∅;
  sources := sources_; live_tasks := tasks |}.

(** Tasks and sources come and go between the steps. *)
Inductive mon_reach (load : string -> option Location) : DB -> Prop :=
| mon_init s t : mon_reach load (empty_db s t)
| mon_next now a db db' : mon_reach load db -> mon_step load now a db = Some db' -> mon_reach load db'
| mon_world s t db : mon_reach load db -> mon_reach load {|
    incidents := incidents db; occurrences_ := occurrences_ db; templates := templates db; links := links db;
    resolutions := resolutions db; rules := rules db; sources := s; live_tasks := t |}.

Lemma mon_reach_ok load db : mon_reach load db -> db_ok load db.
Proof.
  induction 1 as [s t|now a db db' _ IH Hs|s t db _ IH].
  - split; [split; cbn; first [apply not_elem_of_nil | constructor]|]. intros id r Hl. cbn in Hl. by rewrite lookup_empty in Hl.
  - by eapply mon_step_ok.
  - exact IH.
Qed.

(** ** The recovery latch *)

(** Everything but an evaluation or the deletion of rule [id]. *)
Definition leaves_alone (id : string) (a : mon_action) : Prop :=
  match a with
  | AOutcome _ _ a => er_RuleID a <> id
  | ADeleteRule k => k <> id
  | _ => True
  end.

Inductive quiet_run (load : string -> option Location) (id : string) (db : DB) : DB -> Prop :=
| quiet_nil : quiet_run load id db db
| quiet_next now a db1 db2 : quiet_run load id db db1 -> leaves_alone id a ->
    mon_step load now a db1 = Some db2 -> quiet_run load id db db2
| quiet_world s t db1 : quiet_run load id db db1 -> quiet_run load id db {|
    incidents := incidents db1; occurrences_ := occurrences_ db1; templates := templates db1; links := links db1;
    resolutions := resolutions db1; rules := rules db1; sources := s; live_tasks := t |}.

(** The rule is there, with this latch. *)
Definition latch (id : string) (v : string) (db : DB) : Prop :=
  exists r, rules db !! id = Some r /\ ActiveIncidentID r = v.

Lemma restore_rules row now db : rules (restoreMonitoringIncidentQ row now db) = rules db.
Proof. unfold restoreMonitoringIncidentQ. by destruct (bool_decide (r_Outcome row = "benign")). Qed.

Lemma clear_found_rules found reason session now db x db' :
  clear_found found reason session now db = (x, db') -> rules db' = rules db.
Proof. destruct found; cbn; intros [= _ <-]; [apply restore_rules|done]. Qed.

Lemma sweep_rules notify ws now db : rules (sweepWorkspace notify ws now db) = rules db.
Proof.
  unfold sweepWorkspace. destruct (ListMonitoringIncidentsDueForRenotify _ _ _ db) as [due|]; [|done].
  revert db. induction due as [|[i d] due IH]; intros db; cbn [fold_left]; [done|]. rewrite IH.
  unfold renotify, MarkMonitoringIncidentNotified. repeat case_match; simplify_eq; done.
Qed.

(** Only the rules' own operations write the rules. *)
Lemma step_rules load now a db db' : db_ok load db -> mon_step load now a db = Some db' ->
  match a with
  | AOutcome _ _ _ | ACreateRule _ _ | AUpdateRule _ | ADeleteRule _ => True
  | _ => rules db' = rules db
  end.
Proof.
  intros Hdb Hs. destruct a; try done; cbn [mon_step] in Hs;
    unfold committed, committed', AckMonitoringIncident, UnackMonitoringIncident, SilenceMonitoringIncident,
      UnsilenceMonitoringIncident, MarkMonitoringIncidentNotified, mutateIncidentAction in Hs.
  - destruct (fresh_occ occ db); [|done]. unfold UpsertLogTemplate, recordMappedMonitoringOccurrence in Hs.
    by repeat case_match; simplify_eq.
  - destruct (fresh_inc inc db) eqn:Hi, (fresh_occ occ db) eqn:Ho; try done.
    destruct (RecordMonitoringTriage inc occ a db) as [[m d]|] eqn:Ht; [|done]. injection Hs as <-.
    by eapply triage_ok.
  - by repeat case_match; simplify_eq.
  - by repeat case_match; simplify_eq.
  - by repeat case_match; simplify_eq.
  - by repeat case_match; simplify_eq.
  - by repeat case_match; simplify_eq.
  - unfold DismissMonitoringIncident, suppressMonitoringIncidentQ in Hs. by repeat case_match; simplify_eq.
  - unfold ApplyMonitoringTaskResolution, suppressMonitoringIncidentQ in Hs. by repeat case_match; simplify_eq.
  - unfold ClearMonitoringResolution in Hs. destruct (_ || _); [done|].
    destruct (clear_found _ _ _ _ db) as [x d] eqn:Hc. injection Hs as <-. by eapply clear_found_rules.
  - unfold ClearMonitoringResolutionForTask in Hs. destruct (_ || _); [done|].
    destruct (clear_found _ _ _ _ db) as [x d] eqn:Hc. injection Hs as <-. by eapply clear_found_rules.
  - injection Hs as <-. apply sweep_rules.
Qed.

(** What one evaluation does to its rule, and reports. *)
Lemma outcome_latch load inc occ a db m db' : db_ok load db -> fresh_inc inc db = true -> fresh_occ occ db = true ->
  RecordExpectedSignalOutcome inc occ a db = Ok (m, db') ->
  exists rule v f, rules db !! er_RuleID a = Some rule /\ rules db' = alter f (er_RuleID a) (rules db) /\
    (forall r, ActiveIncidentID (f r) = v) /\ (v <> "" <-> Raise (er_Decision a) = true) /\
    Recovered m = SignalPresent (er_Decision a) && negb (Raise (er_Decision a)) &&
                  negb (bool_decide (ActiveIncidentID rule = "")).
Proof.
  intros Hdb Hfi Hfo. unfold RecordExpectedSignalOutcome. case_bool_decide; [done|].
  destruct (Raise (er_Decision a)) eqn:Hraise; cbn [andb negb].
  - destruct (ValidSeverity (sd_Severity (er_Decision a))) eqn:Hs; cbn [negb]; [|done].
    destruct (_ || _); [done|]. destruct (rules db !! er_RuleID a) as [rule|] eqn:Hrule; [|done].
    destruct (proj2 Hdb _ _ Hrule) as [Hid _].
    destruct (raiseExpectedSignalIncident inc occ rule a db) as [[m' db1]|] eqn:Hrs; [|done].
    intros [= <- <-]. destruct (raise_ok load inc occ rule a db m' db1 Hdb Hfi Hfo Hs Hrs) as [Hok Hr].
    unfold persistExpectedSignalState. rewrite Hraise. cbn [rules set_rules]. rewrite Hr, Hid.
    eexists rule, (i_ID (mr_Incident m')), _. split; [done|]. split; [reflexivity|]. split; [done|]. split.
    + split; [done|]. intros _.
      assert (i_ID (mr_Incident m') ∈ map i_ID (incidents db1)) as Hin.
      { unfold raiseExpectedSignalIncident in Hrs. destruct (negb _); [done|].
        destruct (upsertExpectedSignalIncident inc rule a db) as [[i new] d1].
        destruct (upsertExpectedSignalOccurrence _ _ _ _ _) as [nw d2].
        unfold notify_result in Hrs. destruct (getMonitoringIncidentByIDQ _ _) as [x|] eqn:Hget; [|done].
        injection Hrs as <- <-. apply list_elem_of_fmap. exists x. split; [done|]. by eapply found_elem. }
      intros He. rewrite He in Hin. by apply (ids_named _ _ (proj1 Hok)).
    + by rewrite andb_false_r.
  - destruct (rules db !! er_RuleID a) as [rule|] eqn:Hrule; [|done].
    destruct (proj2 Hdb _ _ Hrule) as [Hid _]. intros [= <- <-].
    unfold persistExpectedSignalState. rewrite Hraise. cbn [rules set_rules]. rewrite Hid.
    eexists rule, "", _. split; [done|]. split; [reflexivity|]. split; [intros r; reflexivity|]. split; [done|].
    cbn. by rewrite andb_true_r.
Qed.

Lemma latch_step load now a id v db db' : db_ok load db -> leaves_alone id a -> latch id v db ->
  mon_step load now a db = Some db' -> latch id v db'.
Proof.
  intros Hdb Ha (r & Hr & Hv) Hs. pose proof (step_rules load now a db db' Hdb Hs) as Hk.
  destruct a; try (exists r; by rewrite Hk); clear Hk; cbn [mon_step leaves_alone] in *;
    unfold committed, committed' in Hs.
  - destruct (fresh_inc inc db) eqn:Hi, (fresh_occ occ db) eqn:Ho; try done.
    destruct (RecordExpectedSignalOutcome inc occ a db) as [[m d]|] eqn:Ht; [|done]. injection Hs as <-.
    destruct (outcome_latch load inc occ a db m d Hdb Hi Ho Ht) as (rule & w & f & _ & Hrules & _).
    exists r. rewrite Hrules, lookup_alter_ne by done. done.
  - destruct (CreateMonitoringExpectedSignal load newID now r0 db) as [d|] eqn:Hc; [|done]. injection Hs as <-.
    unfold CreateMonitoringExpectedSignal in Hc. case_bool_decide; [done|].
    destruct (ValidateMonitoringExpectedSignal _ _); [done|].
    destruct (bool_decide_reflect (is_Some (rules db !!
      (if bool_decide (es_ID (ApplyExpectedSignalDefaults r0) = "") then newID else es_ID (ApplyExpectedSignalDefaults r0)))))
      as [|Hn]; [done|].
    cbn [orb] in Hc. destruct (rule_conflict _ _ _ _ db); [done|]. injection Hc as <-.
    exists r. cbn [rules set_rules]. rewrite lookup_insert_ne; [done|]. intros <-. apply Hn. exists r. exact Hr.
  - destruct (UpdateMonitoringExpectedSignal load r0 db) as [d|] eqn:Hc; [|done]. injection Hs as <-.
    unfold UpdateMonitoringExpectedSignal in Hc. case_bool_decide; [done|].
    destruct (ValidateMonitoringExpectedSignal _ _); [done|].
    destruct (rules db !! es_ID (ApplyExpectedSignalDefaults r0)) as [old|] eqn:Hold; [|done].
    destruct (rule_conflict _ _ _ _ db); [done|]. injection Hc as <-. unfold latch. cbn [rules set_rules].
    destruct (decide (es_ID (ApplyExpectedSignalDefaults r0) = id)) as [<-|Hne].
    + rewrite lookup_insert_eq. eexists. split; [reflexivity|]. cbn. congruence.
    + rewrite lookup_insert_ne by done. eauto.
  - unfold DeleteMonitoringExpectedSignal in Hs. destruct (rules db !! id0); [|done]. injection Hs as <-.
    exists r. cbn [rules set_rules]. by rewrite lookup_delete_ne.
Qed.

Lemma quiet_ok load id db db' : db_ok load db -> quiet_run load id db db' -> db_ok load db'.
Proof. intros Hdb. induction 1 as [|now a d1 d2 _ IH _ Hs|s t d1 _ IH]; [done|by eapply mon_step_ok|exact IH]. Qed.

Lemma quiet_latch load id v db db' : db_ok load db -> latch id v db -> quiet_run load id db db' -> latch id v db'.
Proof.
  intros Hdb Hl Hq. induction Hq as [|now a d1 d2 Hq IH Ha Hs|s t d1 _ IH]; [done| |exact IH].
  eapply latch_step; [eapply quiet_ok; [exact Hdb|exact Hq]|exact Ha|exact IH|exact Hs].
Qed.

(** ** Undoing a suppression *)

Lemma lookup_foldr_alter (f : LogTemplate -> LogTemplate) ids (m : gmap string LogTemplate) k :
  (forall t, f (f t) = f t) ->
  foldr (fun id m => alter f id m) m ids !! k = if bool_decide (k ∈ ids) then f <$> m !! k else m !! k.
Proof.
  intros Hf. induction ids as [|id ids IH]; cbn [foldr].
  { by rewrite bool_decide_eq_false_2 by apply not_elem_of_nil. }
  destruct (decide (id = k)) as [-> |Hne].
  - rewrite lookup_alter_eq, IH, (bool_decide_eq_true_2 (k ∈ k :: ids)) by apply list_elem_of_here.
    case_bool_decide; [|done]. destruct (m !! k); cbn; [by rewrite Hf|done].
  - rewrite lookup_alter_ne, IH by done.
    assert (k ∈ id :: ids <-> k ∈ ids) as Hk by (rewrite elem_of_cons; naive_solver).
    by rewrite (bool_decide_ext _ _ Hk).
Qed.

Lemma only_row l os i j : rows_ok l os -> i ∈ l -> j ∈ l -> i_ID j = i_ID i -> j = i.
Proof.
  intros Hok Hi Hj He.
  apply list_elem_of_lookup in Hi as [n Hn], Hj as [k Hk].
  assert (n = k) as ->; [|congruence].
  apply (proj1 (NoDup_alt (map i_ID l)) (ids_unique _ _ Hok) n k (i_ID i));
    change (map i_ID l) with (i_ID <$> l); rewrite list_lookup_fmap; [by rewrite Hn|by rewrite Hk, <- He].
Qed.

Lemma suppressed_rows l os i at1 now : rows_ok l os -> i ∈ l -> ValidMonitoringDisposition (Disposition i) = true ->
  Disposition i <> "benign" ->
  map (on_id (i_ID i) (with_notified None "" (to_column now)))
    (map (on_id (i_ID i) (with_disposition
       (if negb (ValidMonitoringDisposition (Disposition i)) || bool_decide (Disposition i = "benign")
        then "actionable" else Disposition i) (to_column now)))
      (map (on_id (i_ID i) (with_disposition "benign" (to_column at1))) l)) =
  map (on_id (i_ID i) (with_notified None "" (to_column now))) l.
Proof.
  intros Hok Hi Hv Hb. rewrite Hv, (bool_decide_eq_false_2 _ Hb). cbn [negb orb]. rewrite !map_map.
  apply map_ext_in. intros j Hj%list_elem_of_In.
  destruct (decide (i_ID j = i_ID i)) as [He|Hne]; [|by unfold on_id; cbn; rewrite !(bool_decide_eq_false_2 _ Hne)].
  rewrite (only_row l os i j Hok Hi Hj He).
  unfold on_id. cbn. rewrite !(bool_decide_eq_true_2 (i_ID i = i_ID i)) by done.
  unfold with_notified, with_disposition, with_occurrence. cbn. by rewrite !Z.add_0_r, !Z.ltb_irrefl.
Qed.

(** a benign resolution can be undone.  Clearing it puts every incident row
    back, but that the incident counts as never notified; it un-acks and
    re-queues exactly the templates the resolution acked; and the next time the
    policy looks at the incident it notifies, unless the operator's pause or a
    severity below warn forbids. *)
Theorem suppression_undone load db i a ws task reason session now row db1 row' db2 :
  db_ok load db -> getMonitoringIncidentByTaskQ ws task db = Some i -> Disposition i <> "benign" ->
  ri_WorkspaceID a = ws -> ri_TaskID a = task -> ri_Outcome a = "benign" ->
  ApplyMonitoringTaskResolution a db = Ok (row, db1) ->
  ClearMonitoringResolution ws (i_ID i) reason session now db1 = Ok (row', db2) ->
  incidents db2 = map (on_id (i_ID i) (with_notified None "" (to_column now))) (incidents db) /\
  (forall k, templates db2 !! k =
     if bool_decide (k ∈ unacked_linked (i_ID i) db) then with_acked false "" None <$> templates db !! k
     else templates db !! k) /\
  (occurrences_ db2, links db2, rules db2) = (occurrences_ db, links db, rules db) /\
  (forall u, Notify (monitoringNotificationDue (with_notified None "" (to_column now) i) false u) = true <->
     1 <= SeverityRank (Severity i) /\ ~ muted i u).
Proof.
  intros [Hok _] Hget Hb Hws Htask Hout Happly Hclear.
  apply find_Some_elem in Hget as Hfound. destruct Hfound as [Hin Hmatch]. bool_hyps.
  assert (ValidMonitoringDisposition (Disposition i) = true) as Hv by (by apply (typed_in i db)).
  unfold ApplyMonitoringTaskResolution in Happly. destruct (_ || _); [done|]. destruct (negb _); [done|].
  rewrite Hws, Htask, Hget, Hout, (bool_decide_eq_true_2 ("benign" = "benign")) in Happly by done.
  cbn [suppressMonitoringIncidentQ] in Happly. injection Happly as _ <-.
  unfold ClearMonitoringResolution in Hclear. destruct (_ || _); [done|].
  unfold live_resolution in Hclear. cbn [put_resolution resolutions set_resolutions receipt r_IncidentID] in Hclear.
  rewrite lookup_insert_eq in Hclear. cbn [ClearedAt r_WorkspaceID receipt] in Hclear.
  rewrite (bool_decide_eq_true_2 (i_WorkspaceID i = ws)) in Hclear by done. cbn [clear_found] in Hclear.
  injection Hclear as _ <-.
  unfold restoreMonitoringIncidentQ. cbn [r_Outcome DispositionBefore r_IncidentID AckedTemplateIDs receipt].
  rewrite (bool_decide_eq_true_2 ("benign" = "benign")) by done. split_and!.
  - exact (suppressed_rows (incidents db) _ i (ri_ResolvedAt a) now Hok Hin Hv Hb).
  - intros k. cbn. rewrite !lookup_foldr_alter by done. case_bool_decide; [|done].
    destruct (templates db !! k); done.
  - done.
  - intros u. rewrite notification_due. unfold notifiable. cbn. unfold muted. cbn. naive_solver.
Qed.

(** ** The tables' guarantees *)

(** C37: in every reachable database each incident has one of the four
    severities and one of the four dispositions, a workspace holds one incident
    per class, a log template belongs to at most one incident by the shape of
    its link, and every stored expected-signal rule sits under its own id and
    passes the validation of the API. *)
Theorem tables_well_typed load db : mon_reach load db ->
  (forall i, i ∈ incidents db ->
     Severity i ∈ ["info"; "warn"; "error"; "critical"] /\
     Disposition i ∈ ["actionable"; "uncertain"; "evidence-gap"; "benign"]) /\
  (forall i j, i ∈ incidents db -> j ∈ incidents db -> i_WorkspaceID i = i_WorkspaceID j ->
     i_ClassKey i = i_ClassKey j -> i = j) /\
  (forall id r, rules db !! id = Some r -> es_ID r = id /\ ValidateMonitoringExpectedSignal load r = None).
Proof.
  intros [Hok Hrules]%mon_reach_ok. split; [|split; [|exact Hrules]].
  - intros i Hi. destruct (typed_in i db Hok Hi) as [Hs Hd]. split.
    + unfold ValidSeverity, SeverityRank in Hs. rewrite !elem_of_cons, elem_of_nil. repeat case_bool_decide; first [done|tauto].
    + unfold ValidMonitoringDisposition in Hd. by bool_hyps.
  - intros i j Hi Hj Hw Hc. apply list_elem_of_lookup in Hi as [n Hn], Hj as [k Hk].
    assert (n = k) as ->; [|congruence].
    apply (proj1 (NoDup_alt (map class_of (incidents db))) (classes_unique _ _ Hok) n k (class_of i));
      change (map class_of (incidents db)) with (class_of <$> incidents db); rewrite list_lookup_fmap.
    + by rewrite Hn.
    + rewrite Hk. cbn. unfold class_of. by rewrite Hw, Hc.
Qed.

(** C26: in every reachable database the counters of an incident are those of its
    ledger: as many occurrences as rows, as many events as the rows' events.
    Every row belongs to an incident, and an incident has one row per fifteen
    minute bucket. *)
Theorem ledger_counts load db : mon_reach load db ->
  (forall i, i ∈ incidents db ->
     let rows := List.filter (fun o => bool_decide (o_IncidentID o = i_ID i)) (occurrences_ db) in
     OccurrenceCount i = Z.of_nat (List.length rows) /\ EventCount i = foldr (fun o s => o_EventCount o + s) 0 rows) /\
  (forall o, o ∈ occurrences_ db -> exists i, i ∈ incidents db /\ o_IncidentID o = i_ID i) /\
  (forall o o', o ∈ occurrences_ db -> o' ∈ occurrences_ db -> o_IncidentID o = o_IncidentID o' ->
     OccurrenceKey o = OccurrenceKey o' -> o = o').
Proof.
  intros [Hok _]%mon_reach_ok. split_and!.
  - intros i Hi. exact (proj1 (Forall_forall _ _) (rows_counted _ _ Hok) i Hi).
  - intros o Ho. pose proof (proj1 (Forall_forall _ _) (occs_owned _ _ Hok) o Ho) as Hin.
    apply list_elem_of_fmap in Hin as (i & He & Hi). by exists i.
  - intros o o' Ho Ho' He Hk. apply list_elem_of_lookup in Ho as [n Hn], Ho' as [k Hk'].
    assert (n = k) as ->; [|congruence].
    apply (proj1 (NoDup_alt (map episode_of (occurrences_ db))) (episodes_unique _ _ Hok) n k (episode_of o));
      change (map episode_of (occurrences_ db)) with (episode_of <$> occurrences_ db); rewrite list_lookup_fmap.
    + by rewrite Hn.
    + rewrite Hk'. cbn. unfold episode_of. by rewrite He, Hk.
Qed.

(** an evaluation reports a recovery exactly when it sees the signal, does
    not raise, and the rule's previous evaluation raised, whatever happened to
    the tables in between. *)
Theorem recovery_after_raise load db inc1 occ1 a1 m1 db1 db2 inc2 occ2 a2 m2 db3 :
  mon_reach load db -> fresh_inc inc1 db = true -> fresh_occ occ1 db = true ->
  RecordExpectedSignalOutcome inc1 occ1 a1 db = Ok (m1, db1) ->
  quiet_run load (er_RuleID a1) db1 db2 ->
  fresh_inc inc2 db2 = true -> fresh_occ occ2 db2 = true -> er_RuleID a2 = er_RuleID a1 ->
  RecordExpectedSignalOutcome inc2 occ2 a2 db2 = Ok (m2, db3) ->
  Recovered m2 = true <->
    SignalPresent (er_Decision a2) = true /\ Raise (er_Decision a2) = false /\ Raise (er_Decision a1) = true.
Proof.
  intros Hdb%mon_reach_ok Hi1 Ho1 H1 Hq Hi2 Ho2 Hid H2.
  destruct (outcome_latch _ _ _ _ _ _ _ Hdb Hi1 Ho1 H1) as (r1 & v & f & Hr1 & Hrules & Hv & Hraise & _).
  assert (db_ok load db1) as Hdb1 by (by eapply outcome_ok).
  assert (latch (er_RuleID a1) v db1) as Hl.
  { exists (f r1). by rewrite Hrules, lookup_alter_eq, Hr1, Hv. }
  destruct (quiet_latch _ _ _ _ _ Hdb1 Hl Hq) as (r2 & Hr2 & Hv2).
  destruct (outcome_latch _ _ _ _ _ _ _ (quiet_ok _ _ _ _ Hdb1 Hq) Hi2 Ho2 H2) as (r2' & _ & _ & Hr2' & _ & _ & _ & Hrec).
  rewrite Hid in Hr2'. assert (r2' = r2) as -> by congruence. rewrite Hrec, Hv2, !andb_true_iff, !negb_true_iff.
  rewrite bool_decide_eq_false. intuition.
Qed.

(** ** A small world *)

Fixpoint mon_run (load : string -> option Location) (acts : list (Z * mon_action)) (db : DB) : option DB :=
  match acts with
  | [] => Some db
  | (now, a) :: acts => match mon_step load now a db with Some db => mon_run load acts db | None => None end
  end.

Lemma mon_run_reach load acts db db' : mon_reach load db -> mon_run load acts db = Some db' -> mon_reach load db'.
Proof.
  revert db. induction acts as [|[now a] acts IH]; intros db Hr; cbn; [by intros [= <-]|].
  destruct (mon_step load now a db) as [db1|] eqn:Hs; [|done]. apply IH. by eapply mon_next.
Qed.

Definition shop : DB := empty_db {[ "s1" := "w1" ]} {[ "t1" := "w1" ]}.

Definition verdict (o : ExpectedSignalOutcome) (raises present : bool) : ExpectedSignalDecision := {|
  Outcome := o; Raise := raises; ClassKey := "absence:r1"; sd_Severity := "error"; Reason := ""; SignalPresent := present;
  sd_WindowStart := 0; sd_WindowEnd := 0 |}.

Definition evaluation (o : ExpectedSignalOutcome) (raises present : bool) (at_ns : Z) : ExpectedSignalRecord := {|
  er_RuleID := "r1"; er_TaskID := "t1"; er_Decision := verdict o raises present; er_Title := "orders stopped";
  er_Evidence := "no order line"; er_ObservedAt := at_ns |}.

Definition absent_at (at_ns : Z) := evaluation OutcomeSignalAbsent true false at_ns.
Definition outside_at (at_ns : Z) := evaluation OutcomeSignalOutsideActiveHours false false at_ns.
Definition healthy_at (at_ns : Z) := evaluation OutcomeSignalHealthy false true at_ns.

Definition triage (at_ns : Z) : MonitoringTriageRecord := {|
  tr_WorkspaceID := "w1"; tr_ClassKey := "db-timeouts"; tr_TaskID := "t1"; tr_Disposition := "actionable";
  tr_Severity := "error"; tr_Title := "timeouts"; tr_SourceID := ""; tr_TemplateIDs := ["l1"; "l2"]; tr_Evidence := "stack";
  tr_ObservedAt := at_ns |}.

Definition line (id : string) (at_ns : Z) : TemplateHit := {|
  th_ID := id; th_SourceID := "s1"; th_Severity := "error"; th_LastSeen := at_ns |}.

(** An hour of the shop: the rule, two templates, an absence, an incident, and
    the error seen again. *)
Definition hour : list (Z * mon_action) :=
  [(0, ACreateRule "r1" (office_rule 3600)); (1, AUpsert "o0" (line "l1" 1) 3); (2, AUpsert "o0" (line "l2" 2) 1);
   (3, AOutcome "i1" "o1" (absent_at 3)); (4, ATriage "i2" "o2" (triage 4)); (5, AMark "i2" "error");
   (6, AUpsert "o3" (line "l1" (20 * Minute)) 7)].

Definition after_hour : DB := default shop (mon_run no_zones hour shop).

Lemma after_hour_reach : mon_reach no_zones after_hour.
Proof. apply (mon_run_reach no_zones hour shop); [apply mon_init|vm_compute; reflexivity]. Qed.

Example hour_counts :
  map (fun i => (i_ID i, OccurrenceCount i, EventCount i)) (incidents after_hour) = [("i1", 1, 1); ("i2", 2, 8)].
Proof. vm_compute. reflexivity. Qed.

Example tables_well_typed_witness : mon_reach no_zones after_hour /\
  forall i, i ∈ incidents after_hour -> Severity i ∈ ["info"; "warn"; "error"; "critical"].
Proof.
  split; [exact after_hour_reach|]. intros i Hi. exact (proj1 (proj1 (tables_well_typed _ _ after_hour_reach) i Hi)).
Defined.

Example ledger_counts_witness : mon_reach no_zones after_hour /\
  forall o, o ∈ occurrences_ after_hour -> exists i, i ∈ incidents after_hour /\ o_IncidentID o = i_ID i.
Proof. split; [exact after_hour_reach|]. exact (proj1 (proj2 (ledger_counts _ _ after_hour_reach))). Defined.

(** *** Recovery *)

Definition evaluate_at (now : Z) (inc occ : string) (a : ExpectedSignalRecord) (db : DB)
    : result mon_error (bool * DB) :=
  match RecordExpectedSignalOutcome inc occ a db with Ok (m, db) => Ok (Recovered m, db) | Err e => Err e end.

Definition before_absence : DB := default shop (mon_run no_zones (firstn 3 hour) shop).
Definition recorded (o : result mon_error (ExpectedSignalResult * DB)) : ExpectedSignalResult * DB :=
  match o with Ok p => p | Err _ => ({| sr_Raised := None; Recovered := false |}, shop) end.
Definition raised_ := recorded (RecordExpectedSignalOutcome "i1" "o1" (absent_at 3) before_absence).
Definition acked_ : DB := default shop (mon_step no_zones 4 (AAck "w1" "i1" "ada") (snd raised_)).
Definition recovered_ := recorded (RecordExpectedSignalOutcome "i9" "o9" (healthy_at 5) acked_).

Example recovery_after_raise_witness :
  RecordExpectedSignalOutcome "i1" "o1" (absent_at 3) before_absence = Ok raised_ /\ Recovered (fst recovered_) = true.
Proof.
  split; [vm_compute; reflexivity|].
  refine (proj2 (recovery_after_raise no_zones before_absence "i1" "o1" (absent_at 3) (fst raised_) (snd raised_) acked_
    "i9" "o9" (healthy_at 5) (fst recovered_) (snd recovered_) _ _ _ _ _ _ _ eq_refl _) _).
  - apply (mon_run_reach no_zones (firstn 3 hour) shop); [apply mon_init|vm_compute; reflexivity].
  - vm_compute; reflexivity.
  - vm_compute; reflexivity.
  - vm_compute; reflexivity.
  - eapply (quiet_next no_zones "r1" (snd raised_) 4 (AAck "w1" "i1" "ada")); [constructor|exact I|vm_compute; reflexivity].
  - vm_compute; reflexivity.
  - vm_compute; reflexivity.
  - vm_compute; reflexivity.
  - split_and!; reflexivity.
Defined.

(** Absent at 15:00, outside hours at 18:00, back the next morning: the evening's
    evaluation cleared the rule's incident, so the return is not a recovery. *)
Lemma recovery_lost :
  let day := mon_run no_zones [(4, AOutcome "i1" "o1" (absent_at 4)); (5, AOutcome "i8" "o8" (outside_at 5))] before_absence in
  (fun db => Recovered (fst (recorded (RecordExpectedSignalOutcome "i9" "o9" (healthy_at 6) db)))) <$> day = Some false.
Proof. vm_compute. reflexivity. Qed.

(** *** Suppression *)

Definition benign_resolution : MonitoringResolutionInput := {|
  ri_WorkspaceID := "w1"; ri_TaskID := "t1"; ri_Outcome := "benign"; ri_StatusText := "not a bug"; ri_ResolvedAt := 30 * Minute;
  ri_BySession := "s"; ri_ByActor := "ada" |}.

(** The shop without the absence: one incident on the task. *)
Definition one_incident : DB :=
  default shop (mon_run no_zones [(1, AUpsert "o0" (line "l1" 1) 3); (2, AUpsert "o0" (line "l2" 2) 1);
                                   (4, ATriage "i2" "o2" (triage 4)); (5, AMark "i2" "error")] shop).
Definition the_incident : MonitoringIncident :=
  default (fresh_incident "" "" "" "" "" "" "" 0) (head (incidents one_incident)).
Definition resolved_ : option MonitoringResolution * DB :=
  match ApplyMonitoringTaskResolution benign_resolution one_incident with Ok p => p | Err _ => (None, shop) end.
Definition reopened_ : option MonitoringResolution * DB :=
  match ClearMonitoringResolution "w1" "i2" "reopened" "s" (31 * Minute) (snd resolved_) with
  | Ok p => p | Err _ => (None, shop)
  end.

Lemma one_incident_reach : mon_reach no_zones one_incident.
Proof.
  apply (mon_run_reach no_zones [(1, AUpsert "o0" (line "l1" 1) 3); (2, AUpsert "o0" (line "l2" 2) 1);
           (4, ATriage "i2" "o2" (triage 4)); (5, AMark "i2" "error")] shop); [apply mon_init|vm_compute; reflexivity].
Qed.

Example suppression_undone_witness :
  unacked_linked "i2" one_incident = ["l1"; "l2"] /\
  incidents (snd reopened_) =
    map (on_id "i2" (with_notified None "" (to_column (31 * Minute)))) (incidents one_incident).
Proof.
  split; [vm_compute; reflexivity|].
  refine (proj1 (suppression_undone no_zones one_incident the_incident benign_resolution "w1" "t1" "reopened" "s" (31 * Minute)
    (fst resolved_) (snd resolved_) (fst reopened_) (snd reopened_) _ _ _ eq_refl eq_refl eq_refl _ _)).
  - exact (mon_reach_ok _ _ one_incident_reach).
  - vm_compute; reflexivity.
  - vm_compute; discriminate.
  - vm_compute; reflexivity.
  - vm_compute; reflexivity.
Defined.

(** Dismissing twice overwrites the first receipt, whose list of acked templates
    is the only record of what to undo: the clear leaves both acked. *)
Lemma second_dismissal_loses_the_undo :
  (fun db => (fun t => Acked t) <$> templates db !! "l1") <$>
    mon_run no_zones [(10, ADismiss "w1" "i2" "ada" "s" ""); (11, ADismiss "w1" "i2" "ada" "s" "");
                      (12, AClear "w1" "i2" "reopened" "s")] one_incident = Some (Some true) /\
  (fun db => (fun t => Acked t) <$> templates db !! "l1") <$>
    mon_run no_zones [(10, ADismiss "w1" "i2" "ada" "s" ""); (12, AClear "w1" "i2" "reopened" "s")] one_incident =
  Some (Some false).
Proof. split; vm_compute; reflexivity. Qed.

(** A task resolution leaves an acknowledgement in place, so the observation
    after the clear does not notify. *)
Lemma cleared_but_still_muted :
  (fun db => (fun i => Notify (monitoringNotificationDue i false (32 * Minute))) <$>
                getMonitoringIncidentByIDQ "i2" db) <$>
    mon_run no_zones [(9, AAck "w1" "i2" "ada"); (10, AResolve benign_resolution); (31 * Minute, AClear "w1" "i2" "reopened" "s")]
      one_incident = Some (Some false).
Proof. vm_compute. reflexivity. Qed.

(** *** The sweep's scan *)

(** [n] acknowledged incidents that were never notified, then one due. *)
Definition muted_row (k : nat) : MonitoringIncident := {|
  i_ID := "m" +:+ pretty.pretty k; i_WorkspaceID := "w1"; i_ClassKey := "c" +:+ pretty.pretty k; i_TaskID := "t1";
  Disposition := "actionable"; Severity := "error"; i_Title := ""; OccurrenceCount := 0; EventCount := 0; FirstSeen := 0;
  LastSeen := 2 * Hour; LastNotifiedAt := None; LastNotifiedSeverity := ""; AckedAt := Some 0; AckedBy := "ada";
  AckedSeverity := "error"; SilencedAt := None; SilencedUntil := None; SilencedBy := ""; SilencedSeverity := "";
  i_CreatedAt := 0; i_UpdatedAt := 0 |}.

Definition due_row : MonitoringIncident :=
  with_notified (Some 0) "error" 0
    (with_occurrence "error" "actionable" "" 1 1 (2 * Hour) 0 (fresh_incident "d" "w1" "d" "t1" "actionable" "error" "" 0)).

Definition crowd (n : nat) : DB := set_incidents (map muted_row (seq 0 n) ++ [due_row]) shop.

Lemma muted_crowd_starves :
  let due n := match ListMonitoringIncidentsDueForRenotify "w1" (2 * Hour) defaultLimit (crowd n) with
               | Ok l => map (fun c => i_ID (fst c)) l | Err _ => [] end in
  due 99%nat = ["d"] /\ due 100%nat = [].
Proof. split; vm_compute; reflexivity. Qed.
