(* ===== verification/Escalate.v ===== *)
(** The notification dispatcher, [internal/logwatch/escalate]: [throttle.go],
    [human.go], [channel_health.go], [channel_health_persist.go], [outcome.go],
    [delivery.go], [notify.go] and [dispatcher.go]; with the health columns of a
    channel, [internal/store/monitoring_channel_health.go] and
    [internal/store/sqlite/monitoring_channel_health.go].

    What a section under the dispatcher's lock does is one function; a
    notification runs several, at times of its own.  Senders, the human
    publisher and the store's failures are the environment's answers ([Env]).
    The text of messages and of a channel's last error is left out. *)

From Stdlib Require Import Ascii String ZArith.
From stdpp Require Import base list option gmap sets sorting strings pretty.
From S2P Require Import Prelude GoStrings Monitoring Incident.

#[local] Open Scope string_scope.
#[local] Open Scope list_scope.
#[local] Open Scope Z_scope.

(** ** Channels and their health *)

Record MonitoringChannel := {
  c_ID : string; c_WorkspaceID : string; c_Name : string; Kind : string; c_MinSeverity : string; c_Enabled : bool;
  c_CreatedAt : option Z;                          (* the zero time is [None] *)
  ConsecutiveFailures : Z; FirstFailureAt : option Z; LastFailureAt : option Z; LastSuccessAt : option Z;
  TargetedSinceSuccess : Z; LastTargetedAt : option Z }.

Definition ChannelBrokenThreshold : Z := 3.
Definition ChannelStaleAfter : Z := 2 * Hour.

Inductive HealthStates := ChannelHealthUnknown | ChannelHealthHealthy | ChannelHealthDegraded | ChannelHealthBroken.

Definition UndeliveredFor (c : MonitoringChannel) (now : Z) : Z :=
  if TargetedSinceSuccess c =? 0 then 0
  else match LastSuccessAt c, FirstFailureAt c, c_CreatedAt c with
       | Some t, _, _ | None, Some t, _ | None, None, Some t => Sub now t
       | None, None, None => 0
       end.

Definition HealthStateAt (c : MonitoringChannel) (now : Z) : HealthStates :=
  let refused := ChannelBrokenThreshold <=? ConsecutiveFailures c in
  let inDebt := ChannelBrokenThreshold <=? TargetedSinceSuccess c in
  let stale := ChannelStaleAfter <=? UndeliveredFor c now in
  if refused || (inDebt && stale) then ChannelHealthBroken
  else if (0 <? ConsecutiveFailures c) || ((0 <? TargetedSinceSuccess c) && bool_decide (LastSuccessAt c = None))
  then ChannelHealthDegraded
  else match LastSuccessAt c with Some _ => ChannelHealthHealthy | None => ChannelHealthUnknown end.

(** The UPDATE statements, on the row they select. *)
Definition failed_row (at_ns : Z) (c : MonitoringChannel) : MonitoringChannel := {|
  c_ID := c_ID c; c_WorkspaceID := c_WorkspaceID c; c_Name := c_Name c; Kind := Kind c; c_MinSeverity := c_MinSeverity c;
  c_Enabled := c_Enabled c; c_CreatedAt := c_CreatedAt c; ConsecutiveFailures := ConsecutiveFailures c + 1;
  FirstFailureAt := match FirstFailureAt c with Some t => Some t | None => Some (to_column at_ns) end;
  LastFailureAt := Some (to_column at_ns); LastSuccessAt := LastSuccessAt c;
  TargetedSinceSuccess := TargetedSinceSuccess c; LastTargetedAt := LastTargetedAt c |}.

Definition succeeded_row (at_ns : Z) (c : MonitoringChannel) : MonitoringChannel := {|
  c_ID := c_ID c; c_WorkspaceID := c_WorkspaceID c; c_Name := c_Name c; Kind := Kind c; c_MinSeverity := c_MinSeverity c;
  c_Enabled := c_Enabled c; c_CreatedAt := c_CreatedAt c; ConsecutiveFailures := 0; FirstFailureAt := None;
  LastFailureAt := LastFailureAt c; LastSuccessAt := Some (to_column at_ns); TargetedSinceSuccess := 0;
  LastTargetedAt := LastTargetedAt c |}.

Definition targeted_row (at_ns : Z) (c : MonitoringChannel) : MonitoringChannel := {|
  c_ID := c_ID c; c_WorkspaceID := c_WorkspaceID c; c_Name := c_Name c; Kind := Kind c; c_MinSeverity := c_MinSeverity c;
  c_Enabled := c_Enabled c; c_CreatedAt := c_CreatedAt c; ConsecutiveFailures := ConsecutiveFailures c;
  FirstFailureAt := FirstFailureAt c; LastFailureAt := LastFailureAt c; LastSuccessAt := LastSuccessAt c;
  TargetedSinceSuccess := TargetedSinceSuccess c + 1; LastTargetedAt := Some (to_column at_ns) |}.

Definition update_channel (id : string) (f : MonitoringChannel -> MonitoringChannel) (table : list MonitoringChannel) :=
  map (fun c => if bool_decide (c_ID c = id) then f c else c) table.

Definition RecordMonitoringChannelFailure (id : string) (at_ns : Z) := update_channel id (failed_row at_ns).
Definition RecordMonitoringChannelSuccess (id : string) (at_ns : Z) := update_channel id (succeeded_row at_ns).
Definition RecordMonitoringChannelTargeted (ids : list string) (at_ns : Z) (table : list MonitoringChannel) :=
  map (fun c => if bool_decide (c_ID c ∈ ids) then targeted_row at_ns c else c) table.

(** The rows of a workspace, by name. *)
Definition ListMonitoringChannels (ws : string) (table : list MonitoringChannel) : list MonitoringChannel :=
  SliceStable (fun a b => String.ltb (c_Name a) (c_Name b)) (List.filter (fun c => bool_decide (c_WorkspaceID c = ws)) table).

(** ** The dispatcher *)

Definition perTemplateCooldown : Z := Hour.
Definition perTemplateCooldownCritical : Z := 15 * Minute.
Definition maxNotifiesPerHour : nat := 6.
Definition maxCriticalNotifiesPerHour : nat := 12.
Definition maxHumanPushesPerHour : nat := 6.
Definition maxTrackedHumanIncidents : Z := 20000.
Definition maxReminderDeliveryRetries : nat := 6.
Definition maxTrackedReminderFailures : Z := 20000.

(** [distill.Notification], without its text. *)
Record Notification := {
  n_WorkspaceID : string; n_Severity : string; n_TaskID : string; NewIncident : bool; TemplateID : string;
  n_IncidentID : string; Test_ : bool }.

Record notifyMark := { mark_at : Z; mark_rank : Z }.
Record humanIncidentState := { taskID : string; interrupted : bool }.
Record channelHealth := { consecutiveFailures : Z; firstFailureAt : option Z; lastReportedAt : option Z }.

Record Dispatcher := {
  senders : list string;                           (* the kinds with a sender *)
  human : bool; recorder : bool;                   (* registered *)
  perTemplate : gmap string notifyMark; perHour : gmap string (list notifyMark);
  humanIncidents : gmap string humanIncidentState; humanPerHour : gmap string (list Z);
  reminderFailures : gmap string nat; channelHealth_ : gmap string channelHealth }.

Definition NewDispatcher (kinds : list string) : Dispatcher := {|
  senders := kinds; human := false; recorder := false; perTemplate := ∅; perHour := ∅; humanIncidents := ∅;
  humanPerHour := ∅; reminderFailures := ∅; channelHealth_ := ∅ |}.

Definition set_throttle (pt : gmap string notifyMark) (ph : gmap string (list notifyMark)) (d : Dispatcher) := {|
  senders := senders d; human := human d; recorder := recorder d; perTemplate := pt; perHour := ph;
  humanIncidents := humanIncidents d; humanPerHour := humanPerHour d; reminderFailures := reminderFailures d;
  channelHealth_ := channelHealth_ d |}.
Definition set_human (hi : gmap string humanIncidentState) (hp : gmap string (list Z)) (d : Dispatcher) := {|
  senders := senders d; human := human d; recorder := recorder d; perTemplate := perTemplate d; perHour := perHour d;
  humanIncidents := hi; humanPerHour := hp; reminderFailures := reminderFailures d; channelHealth_ := channelHealth_ d |}.
Definition set_failures (rf : gmap string nat) (d : Dispatcher) := {|
  senders := senders d; human := human d; recorder := recorder d; perTemplate := perTemplate d; perHour := perHour d;
  humanIncidents := humanIncidents d; humanPerHour := humanPerHour d; reminderFailures := rf;
  channelHealth_ := channelHealth_ d |}.
Definition set_health (ch : gmap string channelHealth) (d : Dispatcher) := {|
  senders := senders d; human := human d; recorder := recorder d; perTemplate := perTemplate d; perHour := perHour d;
  humanIncidents := humanIncidents d; humanPerHour := humanPerHour d; reminderFailures := reminderFailures d;
  channelHealth_ := ch |}.

(** *** throttle.go *)

Definition critical (rank : Z) : bool := SeverityRank "critical" <=? rank.

Definition templateCooldown (severity : string) : Z :=
  if critical (SeverityRank severity) then perTemplateCooldownCritical else perTemplateCooldown.

Definition template_key (ws key : string) : string := ws +:+ "/" +:+ key.

Definition cooling (ws key severity : string) (now : Z) (d : Dispatcher) : bool :=
  negb (bool_decide (key = "")) &&
  match perTemplate d !! template_key ws key with
  | None => false
  | Some last => (Sub now (mark_at last) <? templateCooldown severity) && (SeverityRank severity <=? mark_rank last)
  end.

(** The marks of the last hour. *)
Definition recent_marks (now : Z) (marks : list notifyMark) : list notifyMark :=
  List.filter (fun m => negb (Hour <=? Sub now (mark_at m))) marks.

Definition throttled (ws key severity : string) (now : Z) (d : Dispatcher) : string * Dispatcher :=
  if cooling ws key severity now d then ("per-template cooldown", d)
  else
    let recent := recent_marks now (default [] (perHour d !! ws)) in
    let d := set_throttle (perTemplate d) (<[ws := recent]> (perHour d)) d in
    let criticals := List.length (List.filter (fun m => critical (mark_rank m)) recent) in
    let lower := List.length (List.filter (fun m => negb (critical (mark_rank m))) recent) in
    if critical (SeverityRank severity)
    then (if (maxCriticalNotifiesPerHour <=? criticals)%nat then "workspace critical notify cap" else "", d)
    else (if (maxNotifiesPerHour <=? lower)%nat then "workspace hourly notify cap" else "", d).

Definition evictLapsedTemplates (now : Z) (pt : gmap string notifyMark) : gmap string notifyMark :=
  omap (fun m => if perTemplateCooldown <=? Sub now (mark_at m) then None else Some m) pt.

Definition recordNotify (ws key severity : string) (now : Z) (d : Dispatcher) : Dispatcher :=
  let mark := {| mark_at := now; mark_rank := SeverityRank severity |} in
  let pt := if bool_decide (key = "") then perTemplate d else <[template_key ws key := mark]> (perTemplate d) in
  set_throttle (evictLapsedTemplates now pt) (<[ws := default [] (perHour d !! ws) ++ [mark]]> (perHour d)) d.

(** *** human.go *)

Definition isHumanCandidate (n : Notification) : bool :=
  negb (Test_ n) && NewIncident n && bool_decide (n_Severity n = "critical") &&
  (negb (bool_decide (TemplateID n = "")) || negb (bool_decide (n_TaskID n = ""))).

Definition humanIncidentKey (n : Notification) : string :=
  if negb (bool_decide (n_IncidentID n = "")) then n_WorkspaceID n +:+ "/incident/" +:+ n_IncidentID n
  else if negb (bool_decide (TemplateID n = "")) then n_WorkspaceID n +:+ "/" +:+ TemplateID n
  else n_WorkspaceID n +:+ "/task/" +:+ n_TaskID n.

#[global] Instance humanIncidentState_eq_dec : EqDecision humanIncidentState.
Proof. solve_decision. Defined.

Record humanClaim := { hc_key : string; previous : option humanIncidentState; current : humanIncidentState }.

Definition nextHumanState (prev : humanIncidentState) (task : string) : humanIncidentState * bool :=
  if negb (bool_decide (taskID prev = "")) && negb (bool_decide (task = "")) && negb (bool_decide (taskID prev = task))
  then ({| taskID := task; interrupted := false |}, true)
  else ({| taskID := if bool_decide (taskID prev = "") && negb (bool_decide (task = "")) then task else taskID prev;
           interrupted := interrupted prev |}, false).

Definition claimHumanIncidentLocked (key task : string) (d : Dispatcher) : option humanClaim * Dispatcher :=
  match humanIncidents d !! key with
  | None =>
      let m := if maxTrackedHumanIncidents <=? Z.of_nat (size (humanIncidents d)) then ∅ else humanIncidents d in
      let cur := {| taskID := task; interrupted := false |} in
      (Some {| hc_key := key; previous := None; current := cur |}, set_human (<[key := cur]> m) (humanPerHour d) d)
  | Some prev =>
      let '(cur, regression) := nextHumanState prev task in
      let d := set_human (<[key := cur]> (humanIncidents d)) (humanPerHour d) d in
      if interrupted prev && negb regression then (None, d)
      else (Some {| hc_key := key; previous := Some prev; current := cur |}, d)
  end.

Definition claimHumanIncident (n : Notification) (d : Dispatcher) : option humanClaim * Dispatcher :=
  if isHumanCandidate n && human d then claimHumanIncidentLocked (humanIncidentKey n) (n_TaskID n) d else (None, d).

Definition releaseHumanIncident (c : humanClaim) (d : Dispatcher) : Dispatcher :=
  if bool_decide (hc_key c = "") then d
  else if bool_decide (humanIncidents d !! hc_key c = Some (current c))
  then set_human (match previous c with
                  | Some p => <[hc_key c := p]> (humanIncidents d)
                  | None => delete (hc_key c) (humanIncidents d)
                  end) (humanPerHour d) d
  else d.

Definition completeHumanIncident (c : humanClaim) (interrupted_ : bool) (d : Dispatcher) : Dispatcher :=
  if bool_decide (humanIncidents d !! hc_key c = Some (current c))
  then set_human (<[hc_key c := {| taskID := taskID (current c); interrupted := interrupted_ |}]> (humanIncidents d))
         (humanPerHour d) d
  else d.

Definition humanIncidentAccepted (n : Notification) (d : Dispatcher) : bool :=
  match humanIncidents d !! humanIncidentKey n with Some s => interrupted s | None => false end.

Definition recent_pushes (now : Z) (ts : list Z) : list Z := List.filter (fun t => Sub now t <? Hour) ts.

(** The reserved time, when the budget allows an interruption. *)
Definition reserveHumanPush (ws : string) (now : Z) (d : Dispatcher) : option Z * Dispatcher :=
  let recent := recent_pushes now (default [] (humanPerHour d !! ws)) in
  if (maxHumanPushesPerHour <=? List.length recent)%nat
  then (None, set_human (humanIncidents d) (<[ws := recent]> (humanPerHour d)) d)
  else (Some now, set_human (humanIncidents d) (<[ws := recent ++ [now]]> (humanPerHour d)) d).

Fixpoint remove_first (t : Z) (l : list Z) : list Z :=
  match l with [] => [] | x :: l => if x =? t then l else x :: remove_first t l end.

(** The last equal time is dropped. *)
Definition releaseHumanPush (ws : string) (t : Z) (d : Dispatcher) : Dispatcher :=
  match humanPerHour d !! ws with
  | None => d
  | Some times => set_human (humanIncidents d) (<[ws := reverse (remove_first t (reverse times))]> (humanPerHour d)) d
  end.

(** *** channel_health.go *)

Definition channelUnhealthyThreshold : Z := ChannelBrokenThreshold.
Definition channelUnhealthyReportInterval : Z := Hour.
Definition maxTrackedChannels : Z := 4096.

Definition channelHealthKey (ws : string) (c : MonitoringChannel) : string :=
  if negb (bool_decide (c_ID c = "")) then c_ID c else ws +:+ "/" +:+ Kind c +:+ "/" +:+ c_Name c.

Definition no_health : channelHealth := {| consecutiveFailures := 0; firstFailureAt := None; lastReportedAt := None |}.

(** The run, and whether this failure is worth escalating. *)
Definition recordChannelFailure (key : string) (now : Z) (d : Dispatcher) : bool * Dispatcher :=
  let m := if maxTrackedChannels <=? Z.of_nat (size (channelHealth_ d)) then ∅ else channelHealth_ d in
  let h := default no_health (m !! key) in
  let n := consecutiveFailures h + 1 in
  let report := (channelUnhealthyThreshold <=? n) &&
                match lastReportedAt h with
                | None => true
                | Some t => channelUnhealthyReportInterval <=? Sub now t
                end in
  let h := {| consecutiveFailures := n;
              firstFailureAt := match firstFailureAt h with None => Some now | Some t => Some t end;
              lastReportedAt := if report : bool then Some now else lastReportedAt h |} in
  (report, set_health (<[key := h]> m) d).

Definition recordChannelSuccess (key : string) (d : Dispatcher) : Dispatcher :=
  set_health (delete key (channelHealth_ d)) d.

(** *** outcome.go *)

Inductive DeliveryStatus := StatusDelivered | StatusNotAttempted | StatusFailed | StatusSuppressed.

Record Outcome := {
  Status : DeliveryStatus; Delivered : nat; Attempted : nat; Failures : list string; Suppressed : string }.

Record deliveryOutcome := { delivered : nat; attempted : nat; sent : nat; failures : list string }.

Definition no_delivery : deliveryOutcome := {| delivered := 0; attempted := 0; sent := 0; failures := [] |}.

Definition status (o : deliveryOutcome) : DeliveryStatus :=
  if (0 <? delivered o)%nat then StatusDelivered else if (0 <? attempted o)%nat then StatusFailed else StatusNotAttempted.

Definition result_ (o : deliveryOutcome) (suppressed : string) : Outcome := {|
  Status := status o; Delivered := delivered o; Attempted := attempted o; Failures := failures o;
  Suppressed := suppressed |}.

Definition failed_outcome : Outcome := {|
  Status := StatusFailed; Delivered := 0; Attempted := 0; Failures := []; Suppressed := "" |}.

Definition recordReminderFailure (key : string) (d : Dispatcher) : nat * Dispatcher :=
  let m := if maxTrackedReminderFailures <=? Z.of_nat (size (reminderFailures d)) then ∅ else reminderFailures d in
  let n := S (default O (m !! key)) in
  (n, set_failures (<[key := n]> m) d).

Definition clearReminderFailure (key : string) (d : Dispatcher) : Dispatcher :=
  set_failures (delete key (reminderFailures d)) d.

(** *** delivery.go *)

Definition maxSendAttempts : nat := 3.

(** What [isTemporary] asks of an error: is it a cancellation or a deadline, is
    it marked temporary, is it a network timeout. *)
Record send_error := { cancelled : bool; marked : bool; timeout : bool }.

Definition isTemporary (e : send_error) : bool := if cancelled e then false else marked e || timeout e.

(** [send] and [pause] by attempt number; [remaining] attempts after this one. *)
Fixpoint retry (send pause : nat -> option send_error) (remaining attempt : nat) : option send_error :=
  match send attempt with
  | None => None
  | Some e =>
      if negb (isTemporary e) then Some e
      else match remaining with
           | O => Some e
           | S remaining => match pause attempt with
                            | Some e => Some e
                            | None => retry send pause remaining (S attempt)
                            end
           end
  end.

Definition sendWithRetry (send pause : nat -> option send_error) : option send_error :=
  retry send pause (maxSendAttempts - 1) 1.

Inductive notify_error :=
| ErrSeverity (s : string) | ErrWorkspace | ErrChannels
| ErrNotAccepted (failures : list string).

Definition notificationDeliveryKey (n : Notification) : string :=
  if negb (bool_decide (n_IncidentID n = "")) then n_IncidentID n else TemplateID n.

Definition notAcceptedError (o : Outcome) : notify_error :=
  ErrNotAccepted (match Failures o with [] => ["no eligible delivery route"] | l => l end).

Definition newIncidentResult (o : Outcome) : option notify_error :=
  if (0 <? Delivered o)%nat then None else Some (notAcceptedError o).

Definition reminderNotDelivered (o : Outcome) (key : string) (d : Dispatcher) : option notify_error * Dispatcher :=
  let '(attempt, d) := recordReminderFailure key d in
  if (maxReminderDeliveryRetries <? attempt)%nat then (None, clearReminderFailure key d)
  else (Some (notAcceptedError o), d).

Definition reminderResult (n : Notification) (o : Outcome) (d : Dispatcher) : option notify_error * Dispatcher :=
  let key := n_WorkspaceID n +:+ "/" +:+ notificationDeliveryKey n in
  match Status o with
  | StatusFailed => reminderNotDelivered o key d
  | _ => (None, clearReminderFailure key d)
  end.

Definition deliveryResult (n : Notification) (o : Outcome) (d : Dispatcher) : option notify_error * Dispatcher :=
  if SeverityRank (n_Severity n) <? SeverityRank "error" then (None, d)
  else if NewIncident n || Test_ n then (newIncidentResult o, d)
  else reminderResult n o d.

(** ** The environment and the tables *)

(** The answers of the store, the senders and the publisher, and the times the
    notification's sections run at. *)
Record Env := {
  workspace_ok : bool; target_ok : bool; list_ok : bool; health_ok : MonitoringChannel -> bool;
  send : MonitoringChannel -> nat -> option send_error; pause_ : MonitoringChannel -> nat -> option send_error;
  publish : bool -> bool;                          (* by whether it interrupts *)
  t_target : Z; t_throttle : Z; t_human : Z; t_channel : MonitoringChannel -> Z; t_record : Z }.

Record World := { disp : Dispatcher; table : list MonitoringChannel }.

Definition with_disp (f : Dispatcher -> Dispatcher) (w : World) : World := {| disp := f (disp w); table := table w |}.
Definition with_table (f : list MonitoringChannel -> list MonitoringChannel) (w : World) : World := {|
  disp := disp w; table := f (table w) |}.

(** ** notify.go *)

(** At or above the channel's floor. *)
Definition eligible (severity : string) (c : MonitoringChannel) : bool :=
  c_Enabled c && negb (SeverityRank severity <? SeverityRank (c_MinSeverity c)).

Definition recordChannelTargeting (e : Env) (n : Notification) (w : World) : World :=
  if negb (recorder (disp w)) then w
  else if negb (target_ok e) then w
  else
    let ids := map c_ID (List.filter (fun c => eligible (n_Severity n) c && negb (bool_decide (c_ID c = "")))
                           (ListMonitoringChannels (n_WorkspaceID n) (table w))) in
    with_table (RecordMonitoringChannelTargeted ids (t_target e)) w.

Definition persisted (e : Env) (c : MonitoringChannel) (w : World) : bool :=
  recorder (disp w) && negb (bool_decide (c_ID c = "")) && health_ok e c.

Definition reportChannelFailure (e : Env) (key : string) (c : MonitoringChannel) (w : World) : World :=
  let w := if persisted e c w then with_table (RecordMonitoringChannelFailure (c_ID c) (t_channel e c)) w else w in
  with_disp (fun d => snd (recordChannelFailure key (t_channel e c) d)) w.

(** The reason it failed, or none. *)
Definition deliverOne (e : Env) (n : Notification) (c : MonitoringChannel) (w : World) : option string * World :=
  let key := channelHealthKey (n_WorkspaceID n) c in
  if negb (bool_decide (Kind c ∈ senders (disp w))) then (Some "sender unavailable", reportChannelFailure e key c w)
  else match sendWithRetry (send e c) (pause_ e c) with
       | Some _ => (Some "delivery failed", reportChannelFailure e key c w)
       | None =>
           let w := if persisted e c w then with_table (RecordMonitoringChannelSuccess (c_ID c) (t_channel e c)) w else w in
           (None, with_disp (recordChannelSuccess key) w)
       end.

Fixpoint deliverChannels (e : Env) (n : Notification) (channels : list MonitoringChannel)
    (o : deliveryOutcome) (w : World) : deliveryOutcome * World :=
  match channels with
  | [] => (o, w)
  | c :: channels =>
      if negb (c_Enabled c) || (SeverityRank (n_Severity n) <? SeverityRank (c_MinSeverity c))
      then deliverChannels e n channels o w
      else
        match deliverOne e n c w with
        | (Some reason, w) => deliverChannels e n channels
            {| delivered := delivered o; attempted := S (attempted o); sent := sent o;
               failures := failures o ++ [c_Name c +:+ ": " +:+ reason] |} w
        | (None, w) => deliverChannels e n channels
            {| delivered := S (delivered o); attempted := S (attempted o); sent := S (sent o); failures := failures o |} w
        end
  end.

Definition deliverHuman (e : Env) (n : Notification) (o : deliveryOutcome) (d : Dispatcher) : deliveryOutcome * Dispatcher :=
  match claimHumanIncident n d with
  | (None, d) =>
      (if isHumanCandidate n && humanIncidentAccepted n d
       then {| delivered := S (delivered o); attempted := S (attempted o); sent := sent o; failures := failures o |}
       else o, d)
  | (Some claim, d) =>
      let '(reservation, d) := reserveHumanPush (n_WorkspaceID n) (t_human e) d in
      let interrupt := bool_decide (is_Some reservation) in
      let o := {| delivered := delivered o; attempted := S (attempted o); sent := sent o; failures := failures o |} in
      let failing reason := {| delivered := delivered o; attempted := attempted o; sent := sent o;
                               failures := failures o ++ [reason] |} in
      if negb (publish e interrupt) then
        let d := releaseHumanIncident claim d in
        let d := match reservation with Some t => releaseHumanPush (n_WorkspaceID n) t d | None => d end in
        (failing "human push: delivery failed", d)
      else
        let d := completeHumanIncident claim interrupt d in
        (if interrupt then {| delivered := S (delivered o); attempted := attempted o; sent := sent o;
                              failures := failures o |}
         else failing "human push: hourly cap", d)
  end.

Definition prepareNotification (n : Notification) (now : Z) (d : Dispatcher) : string * Dispatcher :=
  if Test_ n then ("", d) else throttled (n_WorkspaceID n) (notificationDeliveryKey n) (n_Severity n) now d.

(** Pair the outcome with the caller's error. *)
Definition finish (n : Notification) (o : Outcome) (w : World) : Outcome * option notify_error * World :=
  let '(err, d) := deliveryResult n o (disp w) in (o, err, {| disp := d; table := table w |}).

Definition NotifyWithOutcome (e : Env) (n : Notification) (w : World) : Outcome * option notify_error * World :=
  if negb (ValidSeverity (n_Severity n)) then (failed_outcome, Some (ErrSeverity (n_Severity n)), w)
  else
    let w := recordChannelTargeting e n w in
    let '(suppressed, d) := prepareNotification n (t_throttle e) (disp w) in
    let w := {| disp := d; table := table w |} in
    if negb (bool_decide (suppressed = "")) && negb (isHumanCandidate n) then
      finish n {| Status := StatusSuppressed; Delivered := 0; Attempted := 0;
                  Failures := ["channels: " +:+ suppressed]; Suppressed := suppressed |} w
    else if negb (workspace_ok e) then (failed_outcome, Some ErrWorkspace, w)
    else
      let '(o, d) := deliverHuman e n no_delivery (disp w) in
      let w := {| disp := d; table := table w |} in
      if negb (bool_decide (suppressed = "")) then
        finish n (result_ {| delivered := delivered o; attempted := attempted o; sent := sent o;
                             failures := failures o ++ ["channels: " +:+ suppressed] |} suppressed) w
      else if negb (list_ok e) then (failed_outcome, Some ErrChannels, w)
      else
        let '(o, w) := deliverChannels e n (ListMonitoringChannels (n_WorkspaceID n) (table w)) o w in
        let w := if (0 <? sent o)%nat && negb (Test_ n)
                 then with_disp (recordNotify (n_WorkspaceID n) (notificationDeliveryKey n) (n_Severity n) (t_record e)) w
                 else w in
        finish n (result_ o "") w.

Definition Notify_ (e : Env) (n : Notification) (w : World) : option notify_error * World :=
  let '(_, err, w) := NotifyWithOutcome e n w in (err, w).

(** ** What a fan-out does *)

(** The route takes the message. *)
Definition accepts (e : Env) (n : Notification) (kinds : list string) (c : MonitoringChannel) : bool :=
  eligible (n_Severity n) c && bool_decide (Kind c ∈ kinds) &&
  match sendWithRetry (send e c) (pause_ e c) with None => true | Some _ => false end.

(** Only the failure runs in memory and the health columns change. *)
Definition only_health (w w' : World) : Prop := exists h, disp w' = set_health h (disp w).

Lemma only_health_refl w : only_health w w.
Proof. exists (channelHealth_ (disp w)). by destruct (disp w). Qed.

Lemma only_health_trans w1 w2 w3 : only_health w1 w2 -> only_health w2 w3 -> only_health w1 w3.
Proof. intros [h1 H1] [h2 H2]. exists h2. by rewrite H2, H1. Qed.

Lemma report_health e key c w : only_health w (reportChannelFailure e key c w).
Proof. unfold reportChannelFailure, recordChannelFailure. destruct (persisted e c w); eexists; reflexivity. Qed.

Lemma deliverOne_health e n c w : only_health w (snd (deliverOne e n c w)).
Proof.
  unfold deliverOne. destruct (negb _); [apply report_health|].
  destruct (sendWithRetry _ _); [apply report_health|].
  destruct (persisted e c w); eexists; reflexivity.
Qed.

Lemma deliverOne_told e n c w : eligible (n_Severity n) c = true ->
  fst (deliverOne e n c w) = None <-> accepts e n (senders (disp w)) c = true.
Proof.
  intros He. unfold deliverOne, accepts. rewrite He. cbn [andb].
  destruct (bool_decide (Kind c ∈ senders (disp w))); [|done].
  destruct (sendWithRetry _ _); done.
Qed.

Lemma deliverChannels_spec e n cs : forall o w o' w', deliverChannels e n cs o w = (o', w') ->
  let k := List.length (List.filter (accepts e n (senders (disp w))) cs) in
  only_health w w' /\ delivered o' = (delivered o + k)%nat /\ sent o' = (sent o + k)%nat.
Proof.
  induction cs as [|c cs IH]; intros o w o' w'; cbn [deliverChannels].
  { intros [= <- <-]. cbn. split; [apply only_health_refl|lia]. }
  destruct (negb (c_Enabled c) || _) eqn:Hskip.
  - intros H. assert (accepts e n (senders (disp w)) c = false) as Ha.
    { unfold accepts, eligible. destruct (c_Enabled c); [|done]. cbn in Hskip. by rewrite Hskip. }
    cbn. rewrite Ha. by apply IH.
  - assert (eligible (n_Severity n) c = true) as He.
    { unfold eligible. apply orb_false_iff in Hskip as [H1 H2]. apply negb_false_iff in H1. by rewrite H1, H2. }
    pose proof (deliverOne_health e n c w) as Hh. pose proof (deliverOne_told e n c w He) as Ht.
    destruct (deliverOne e n c w) as [[reason|] w1]; cbn [fst snd] in *; intros H;
      destruct (IH _ _ _ _ H) as (Hh' & Hd & Hs); destruct Hh as [h Hh]; cbn [delivered sent] in *;
      rewrite Hh in Hd, Hs; cbn [senders set_health] in Hd, Hs; cbn [List.filter].
    + destruct (accepts e n (senders (disp w)) c) eqn:Ha; [discriminate (proj2 Ht eq_refl)|].
      split; [apply (only_health_trans _ w1); [by exists h|done]|done].
    + rewrite (proj1 Ht eq_refl). cbn [List.length].
      split; [apply (only_health_trans _ w1); [by exists h|done]|lia].
Qed.

Lemma some_accepts e n ks cs :
  (0 < List.length (List.filter (accepts e n ks) cs))%nat <-> exists c, c ∈ cs /\ accepts e n ks c = true.
Proof.
  induction cs as [|c cs IH]; cbn.
  { split; [lia|]. intros (c & Hc & _). by apply not_elem_of_nil in Hc. }
  destruct (accepts e n ks c) eqn:Ha; cbn.
  - split; [|lia]. intros _. exists c. split; [apply list_elem_of_here|done].
  - rewrite IH. split; intros (c' & Hc & Hc'); exists c'; (split; [|done]); [by apply list_elem_of_further|].
    apply elem_of_cons in Hc as [->|Hc]; [congruence|done].
Qed.

(** ** The human route *)

(** The publisher takes an interruption now, or took one for this incident. *)
Definition human_accepts (e : Env) (n : Notification) (d : Dispatcher) : bool :=
  match claimHumanIncident n d with
  | (None, d) => isHumanCandidate n && humanIncidentAccepted n d
  | (Some _, d) => bool_decide (is_Some (fst (reserveHumanPush (n_WorkspaceID n) (t_human e) d))) && publish e true
  end.

(** Only the human route's state changes. *)
Definition only_human (d d' : Dispatcher) : Prop := exists hi hp, d' = set_human hi hp d.

Lemma only_human_refl d : only_human d d.
Proof. exists (humanIncidents d), (humanPerHour d). by destruct d. Qed.

Lemma only_human_trans d1 d2 d3 : only_human d1 d2 -> only_human d2 d3 -> only_human d1 d3.
Proof. intros (a & b & ->) (a' & b' & ->). by exists a', b'. Qed.

Lemma only_human_set hi hp d : only_human d (set_human hi hp d).
Proof. by exists hi, hp. Qed.

Lemma claim_human n d : only_human d (snd (claimHumanIncident n d)).
Proof.
  unfold claimHumanIncident, claimHumanIncidentLocked. destruct (_ && _); [|apply only_human_refl].
  destruct (humanIncidents d !! _) as [prev|]; [|apply only_human_set].
  destruct (nextHumanState prev (n_TaskID n)) as [cur regression].
  destruct (interrupted prev && negb regression); apply only_human_set.
Qed.

Lemma reserve_human ws now d : only_human d (snd (reserveHumanPush ws now d)).
Proof. unfold reserveHumanPush. destruct (_ <=? _)%nat; apply only_human_set. Qed.

Lemma release_human c d : only_human d (releaseHumanIncident c d).
Proof.
  unfold releaseHumanIncident. destruct (bool_decide (hc_key c = "")); [apply only_human_refl|].
  destruct (bool_decide (_ = Some _)); [apply only_human_set|apply only_human_refl].
Qed.

Lemma complete_human c b d : only_human d (completeHumanIncident c b d).
Proof. unfold completeHumanIncident. destruct (bool_decide _); [apply only_human_set|apply only_human_refl]. Qed.

Lemma release_push_human ws t d : only_human d (releaseHumanPush ws t d).
Proof. unfold releaseHumanPush. destruct (humanPerHour d !! ws); [apply only_human_set|apply only_human_refl]. Qed.

Lemma deliverHuman_spec e n d o' d' : deliverHuman e n no_delivery d = (o', d') ->
  only_human d d' /\ delivered o' = (if human_accepts e n d then 1 else 0)%nat /\ sent o' = O.
Proof.
  unfold deliverHuman, human_accepts. pose proof (claim_human n d) as Hc.
  destruct (claimHumanIncident n d) as [[c|] d1]; cbn [snd] in Hc.
  2:{ intros [= <- <-]. destruct (_ && _); done. }
  pose proof (reserve_human (n_WorkspaceID n) (t_human e) d1) as Hr.
  destruct (reserveHumanPush _ _ d1) as [r d2]; cbn [snd fst] in *.
  pose proof (only_human_trans _ _ _ Hc Hr) as H2.
  destruct r as [t|]; cbn [is_Some]; [rewrite (bool_decide_eq_true_2 (is_Some (Some t))) by done
                                     |rewrite (bool_decide_eq_false_2 (is_Some None)) by (by intros [? ?])]; cbn [andb].
  - destruct (publish e true); cbn [negb]; intros [= <- <-]; cbn; split_and!; try done.
    + eapply only_human_trans; [exact H2|]. apply complete_human.
    + eapply only_human_trans; [exact H2|]. eapply only_human_trans; [apply release_human|apply release_push_human].
  - destruct (publish e false); cbn [negb]; intros [= <- <-]; cbn; split_and!; try done.
    + eapply only_human_trans; [exact H2|]. apply complete_human.
    + eapply only_human_trans; [exact H2|]. apply release_human.
Qed.

(** ** The error contract *)

Lemma targeting_disp e n w : disp (recordChannelTargeting e n w) = disp w.
Proof. unfold recordChannelTargeting. destruct (negb (recorder _)); [done|]. by destruct (negb (target_ok e)). Qed.

Lemma throttled_set ws key sev now d : exists pt ph, snd (throttled ws key sev now d) = set_throttle pt ph d.
Proof.
  unfold throttled. destruct (cooling _ _ _ _ _); [exists (perTemplate d), (perHour d); by destruct d|].
  destruct (critical _); eexists _, _; reflexivity.
Qed.

Lemma prepare_set n now d : exists pt ph, snd (prepareNotification n now d) = set_throttle pt ph d.
Proof.
  unfold prepareNotification. destruct (Test_ n); [|apply throttled_set].
  exists (perTemplate d), (perHour d). by destruct d.
Qed.

Lemma human_accepts_throttle e n pt ph d : human_accepts e n (set_throttle pt ph d) = human_accepts e n d.
Proof.
  unfold human_accepts, claimHumanIncident, claimHumanIncidentLocked. cbn [human set_throttle humanIncidents].
  destruct (isHumanCandidate n && human d); [|done].
  destruct (humanIncidents d !! _) as [prev|]; [|].
  - destruct (nextHumanState prev (n_TaskID n)) as [cur regression].
    destruct (interrupted prev && negb regression); [done|].
    unfold reserveHumanPush. cbn [humanPerHour set_human set_throttle]. by destruct (_ <=? _)%nat.
  - unfold reserveHumanPush. cbn [humanPerHour set_human set_throttle]. by destruct (_ <=? _)%nat.
Qed.

(** Why the throttle withholds a notification, when it does. *)
Definition withheld (e : Env) (n : Notification) (d : Dispatcher) : bool :=
  negb (bool_decide (fst (prepareNotification n (t_throttle e) d) = "")).

(** A route of the fan-out takes the message. *)
Definition channel_accepts (e : Env) (n : Notification) (w : World) : Prop :=
  exists c, c ∈ ListMonitoringChannels (n_WorkspaceID n) (table (recordChannelTargeting e n w)) /\
    accepts e n (senders (disp w)) c = true.

(** What the delivery reports, by case. *)
Lemma notify_delivered e n w : ValidSeverity (n_Severity n) = true ->
  let told := human_accepts e n (disp w) in
  let '(o, err, w') := NotifyWithOutcome e n w in
  (withheld e n (disp w) = true /\ isHumanCandidate n = false /\ Status o = StatusSuppressed /\ Delivered o = O /\
     exists d, deliveryResult n o d = (err, disp w')) \/
  (workspace_ok e = false /\ err = Some ErrWorkspace) \/
  (workspace_ok e = true /\ withheld e n (disp w) = true /\ isHumanCandidate n = true /\
     Delivered o = (if told then 1 else 0)%nat /\ exists d, deliveryResult n o d = (err, disp w')) \/
  (workspace_ok e = true /\ withheld e n (disp w) = false /\ list_ok e = false /\ err = Some ErrChannels) \/
  (workspace_ok e = true /\ withheld e n (disp w) = false /\ list_ok e = true /\
     ((0 < Delivered o)%nat <-> told = true \/ channel_accepts e n w) /\ exists d, deliveryResult n o d = (err, disp w')).
Proof.
  intros Hv told. unfold NotifyWithOutcome. rewrite Hv. cbn [negb].
  set (w1 := recordChannelTargeting e n w). rewrite (targeting_disp e n w : disp w1 = disp w).
  pose proof (prepare_set n (t_throttle e) (disp w)) as (pt & ph & Hd). unfold withheld.
  destruct (prepareNotification n (t_throttle e) (disp w)) as [suppressed d1]. cbn [fst snd] in *. subst d1.
  cbn [disp table].
  destruct (negb (bool_decide (suppressed = ""))) eqn:Hs, (isHumanCandidate n) eqn:Hh; cbn [negb andb]; cycle 1.
  { unfold finish. cbn [disp]. destruct (deliveryResult n _ _) as [err d] eqn:Hr. left. split_and!; eauto. }
  all: destruct (workspace_ok e); cbn [negb]; [|right; left; done];
    destruct (deliverHuman e n no_delivery (set_throttle pt ph (disp w))) as [o d] eqn:Hdh;
    apply deliverHuman_spec in Hdh as (Hoh & Hdel & Hsent); rewrite human_accepts_throttle in Hdel; cbn [disp table].
  3:{ unfold finish. destruct (deliveryResult n _ _) as [err d'] eqn:Hr. right; right; left. split_and!; eauto. }
  all: destruct (list_ok e); cbn [negb]; [|do 3 right; left; done];
    destruct (deliverChannels e n _ o _) as [o' w'] eqn:Hdc; apply deliverChannels_spec in Hdc as (_ & Hdel' & Hsent');
    unfold finish; destruct (deliveryResult n _ _) as [err d'] eqn:Hr; do 4 right; split_and!; eauto;
    cbn [Delivered result_]; rewrite Hdel', Hdel; destruct Hoh as (hi & hp & ->);
    cbn [disp set_human set_throttle senders]; unfold channel_accepts; fold w1; rewrite <- some_accepts;
    cbn [table disp]; fold told; destruct told; intuition (done || lia).
Qed.

Lemma not_human_candidate e n d : isHumanCandidate n = false -> human_accepts e n d = false.
Proof. intros Hh. unfold human_accepts, claimHumanIncident. by rewrite Hh. Qed.

Lemma deliver_new n o d err d' : 2 <= SeverityRank (n_Severity n) -> NewIncident n || Test_ n = true ->
  deliveryResult n o d = (err, d') -> err = None <-> (0 < Delivered o)%nat.
Proof.
  intros Hs Hn. unfold deliveryResult. change (SeverityRank "error") with 2.
  rewrite (proj2 (Z.ltb_ge _ _) Hs), Hn. intros [= <- _]. unfold newIncidentResult.
  destruct (Nat.ltb_spec 0 (Delivered o)); split; done || lia.
Qed.

(** the first notification of an incident at error or above (and a test of
    the channels) reports no error exactly when somebody was told: the human
    publisher took an interruption, now or earlier for the same incident, or -
    unless the throttle withheld the fan-out - a channel at or below that
    severity took the message.  Reading the workspace must work, and reading
    the channels unless withheld. *)
Theorem new_incident_error e n w :
  2 <= SeverityRank (n_Severity n) -> NewIncident n || Test_ n = true ->
  fst (Notify_ e n w) = None <->
  workspace_ok e = true /\
  (if withheld e n (disp w) then human_accepts e n (disp w) = true
   else list_ok e = true /\ (human_accepts e n (disp w) = true \/ channel_accepts e n w)).
Proof.
  intros Hs Hn. unfold Notify_.
  assert (ValidSeverity (n_Severity n) = true) as Hv by (unfold ValidSeverity; apply Z.leb_le; lia).
  pose proof (notify_delivered e n w Hv) as Hc. destruct (NotifyWithOutcome e n w) as [[o err] w']. cbn [fst].
  destruct Hc as [(Hw & Hh & _ & Hd & d & Hr)|[(Hw & ->)|[(Ho & Hw & Hh & Hd & d & Hr)|
    [(Ho & Hw & Hl & ->)|(Ho & Hw & Hl & Hd & d & Hr)]]]].
  - rewrite Hw, (deliver_new n o d err _ Hs Hn Hr), Hd, (not_human_candidate e n _ Hh). split; [lia|]. by intros [_ ?].
  - rewrite Hw. split; [done|]. by intros [? _].
  - rewrite Ho, Hw, (deliver_new n o d err _ Hs Hn Hr), Hd.
    destruct (human_accepts e n (disp w)); split; intros; try lia; tauto.
  - rewrite Ho, Hw, Hl. split; [done|]. by intros (_ & ? & _).
  - rewrite Ho, Hw, Hl, (deliver_new n o d err _ Hs Hn Hr), Hd. tauto.
Qed.

(** ** Reminders against a dead route *)

Definition is_reminder (n : Notification) : bool :=
  (2 <=? SeverityRank (n_Severity n)) && negb (NewIncident n) && negb (Test_ n).

Definition reminder_key (n : Notification) : string := n_WorkspaceID n +:+ "/" +:+ notificationDeliveryKey n.

Fixpoint notify_run (events : list (Env * Notification)) (w : World) : list (Notification * option notify_error) * World :=
  match events with
  | [] => ([], w)
  | (e, n) :: events =>
      let '(err, w) := Notify_ e n w in
      let '(out, w) := notify_run events w in ((n, err) :: out, w)
  end.

(** Reminders of the incident answered "not accepted", and released. *)
Definition refused (k : string) (x : Notification * option notify_error) : bool :=
  is_reminder (fst x) && bool_decide (reminder_key (fst x) = k) &&
  match snd x with Some (ErrNotAccepted _) => true | _ => false end.
Definition released (k : string) (x : Notification * option notify_error) : bool :=
  is_reminder (fst x) && bool_decide (reminder_key (fst x) = k) && match snd x with None => true | _ => false end.

(** The counters stay within the retries, on keys of [K]. *)
Definition retries_ok (K : gset string) (d : Dispatcher) : Prop :=
  dom (reminderFailures d) ⊆ K /\ forall k n, reminderFailures d !! k = Some n -> (n <= maxReminderDeliveryRetries)%nat.

Definition counter (k : string) (d : Dispatcher) : nat := default O (reminderFailures d !! k).

(** The delivery itself leaves the counters alone. *)
Lemma notify_counters e n w : let '(o, err, w') := NotifyWithOutcome e n w in
  (exists d, reminderFailures d = reminderFailures (disp w) /\ deliveryResult n o d = (err, disp w')) \/
  (reminderFailures (disp w') = reminderFailures (disp w) /\
   (err = Some (ErrSeverity (n_Severity n)) \/ err = Some ErrWorkspace \/ err = Some ErrChannels)).
Proof.
  unfold NotifyWithOutcome. destruct (negb (ValidSeverity _)); [right; auto|].
  pose proof (targeting_disp e n w) as Ht. set (w1 := recordChannelTargeting e n w) in *.
  pose proof (prepare_set n (t_throttle e) (disp w1)) as (pt & ph & Hd).
  destruct (prepareNotification n _ (disp w1)) as [suppressed d1]. cbn [snd] in Hd. subst d1. rewrite Ht in *. cbn [disp table].
  destruct (negb (bool_decide (suppressed = "")) && negb (isHumanCandidate n)).
  { unfold finish. cbn [disp]. destruct (deliveryResult n _ _) as [err d] eqn:Hr. left. eexists. by split; [|exact Hr]. }
  destruct (negb (workspace_ok e)); [right; auto|].
  destruct (deliverHuman e n no_delivery _) as [o d] eqn:Hdh. apply deliverHuman_spec in Hdh as ((hi & hp & ->) & _).
  destruct (negb (bool_decide (suppressed = ""))).
  { unfold finish. cbn [disp]. destruct (deliveryResult n _ _) as [err d'] eqn:Hr. left. eexists. by split; [|exact Hr]. }
  destruct (negb (list_ok e)); [right; auto|]. cbn [disp table].
  destruct (deliverChannels e n _ o _) as [o' w'] eqn:Hdc. apply deliverChannels_spec in Hdc as ([h Hh] & _).
  unfold finish. destruct (deliveryResult n _ _) as [err d'] eqn:Hr. left. eexists. split; [|exact Hr].
  destruct (_ && _); cbn [with_disp disp]; rewrite Hh; done.
Qed.

Lemma counter_clear k key d : counter k (clearReminderFailure key d) = if bool_decide (key = k) then O else counter k d.
Proof.
  unfold counter. cbn. destruct (bool_decide_reflect (key = k)) as [<-|Hne].
  - by rewrite lookup_delete_eq.
  - by rewrite lookup_delete_ne.
Qed.

Lemma counter_insert k key v d :
  counter k (set_failures (<[key := v]> (reminderFailures d)) d) = if bool_decide (key = k) then v else counter k d.
Proof.
  unfold counter. cbn. destruct (bool_decide_reflect (key = k)) as [<-|Hne].
  - by rewrite lookup_insert_eq.
  - by rewrite lookup_insert_ne.
Qed.

Lemma retries_clear K key d : dom (reminderFailures d) ⊆ K ->
  (forall k n, k <> key -> reminderFailures d !! k = Some n -> (n <= maxReminderDeliveryRetries)%nat) ->
  retries_ok K (clearReminderFailure key d).
Proof.
  intros Hd Hm. split; cbn.
  - rewrite dom_delete. set_solver.
  - intros k n. rewrite lookup_delete_Some. intros [Hne Hk]. by apply (Hm k n).
Qed.

Lemma counter_ok K k d : retries_ok K d -> (counter k d <= maxReminderDeliveryRetries)%nat.
Proof.
  intros [_ Hm]. unfold counter. destruct (reminderFailures d !! k) eqn:Hk; cbn; [by apply Hm in Hk|].
  unfold maxReminderDeliveryRetries. lia.
Qed.

Lemma record_counter K key d : Z.of_nat (size K) < maxTrackedReminderFailures -> retries_ok K d ->
  recordReminderFailure key d =
  (S (counter key d), set_failures (<[key := S (counter key d)]> (reminderFailures d)) d).
Proof.
  intros HK [Hdom _]. unfold recordReminderFailure.
  assert (size (dom (reminderFailures d)) <= size K)%nat as Hsz by (by apply subseteq_size).
  rewrite size_dom in Hsz. by rewrite (proj2 (Z.leb_gt _ _)) by lia.
Qed.

Lemma reminder_cases K n o d err d' : Z.of_nat (size K) < maxTrackedReminderFailures -> retries_ok K d ->
  reminderResult n o d = (err, d') ->
  let k := reminder_key n in
  let recorded := set_failures (<[k := S (counter k d)]> (reminderFailures d)) d in
  (err = None /\ (d' = clearReminderFailure k d \/ d' = clearReminderFailure k recorded)) \/
  (err = Some (notAcceptedError o) /\ d' = recorded /\ (counter k d < maxReminderDeliveryRetries)%nat).
Proof.
  intros HK Hok. unfold reminderResult. fold (reminder_key n).
  destruct (Status o); try (intros [= <- <-]; by auto).
  unfold reminderNotDelivered. rewrite (record_counter K) by done.
  destruct (Nat.ltb_spec maxReminderDeliveryRetries (S (counter (reminder_key n) d))); intros [= <- <-]; auto with lia.
Qed.

(** One answer moves the counters: a refusal counts, a release resets. *)
Lemma result_counter K n o d err d' k : Z.of_nat (size K) < maxTrackedReminderFailures -> reminder_key n ∈ K ->
  retries_ok K d -> deliveryResult n o d = (err, d') ->
  retries_ok K d' /\
  (tally (refused k) [(n, err)] + counter k d <=
   maxReminderDeliveryRetries * tally (released k) [(n, err)] + counter k d')%nat.
Proof.
  intros HK Hn Hok. pose proof (counter_ok K k d Hok : (_ <= 6)%nat) as Hc.
  unfold deliveryResult, tally, refused, released. cbn [List.filter fst snd].
  assert (is_reminder n = negb (SeverityRank (n_Severity n) <? SeverityRank "error") && negb (NewIncident n || Test_ n)) as ->.
  { unfold is_reminder. change (SeverityRank "error") with 2. rewrite Z.leb_antisym, negb_orb. by rewrite andb_assoc. }
  destruct (SeverityRank (n_Severity n) <? SeverityRank "error"); cbn [negb andb]; [by intros [= <- <-]|].
  destruct (NewIncident n || Test_ n); cbn [negb andb]; [by intros [= <- <-]|].
  destruct Hok as [Hdom Hmax].
  intros [(-> & [-> | ->])|(-> & -> & Hlt)]%(reminder_cases K n o d err d' HK (conj Hdom Hmax));
    rewrite ?counter_clear; split.
  - apply retries_clear; [done|]. intros k' m _. apply Hmax.
  - destruct (bool_decide (reminder_key n = k)); cbn; lia.
  - apply retries_clear; cbn.
    + rewrite dom_insert. set_solver.
    + intros k' m Hk. rewrite lookup_insert_ne by done. apply Hmax.
  - rewrite counter_insert. destruct (bool_decide (reminder_key n = k)); cbn; lia.
  - split; cbn.
    + rewrite dom_insert. set_solver.
    + intros k' m. rewrite lookup_insert_Some. intros [[<- <-]|[_ Hk]]; [lia|by eapply Hmax].
  - rewrite counter_insert. destruct (bool_decide_reflect (reminder_key n = k)) as [<-|]; cbn; lia.
Qed.

Lemma notify_counter K e n w k : Z.of_nat (size K) < maxTrackedReminderFailures -> reminder_key n ∈ K ->
  retries_ok K (disp w) ->
  let '(err, w') := Notify_ e n w in
  retries_ok K (disp w') /\
  (tally (refused k) [(n, err)] + counter k (disp w) <=
   maxReminderDeliveryRetries * tally (released k) [(n, err)] + counter k (disp w'))%nat.
Proof.
  intros HK Hn Hok. unfold Notify_. pose proof (notify_counters e n w) as Hc.
  destruct (NotifyWithOutcome e n w) as [[o err] w']. unfold retries_ok, counter in *.
  destruct Hc as [(d & Hd & Hr)|[Hd He]].
  - rewrite <- Hd in *. by apply (result_counter K n o d err (disp w') k).
  - rewrite Hd. split; [done|]. unfold tally, refused, released. cbn [List.filter fst snd].
    destruct He as [-> |[-> | ->]]; rewrite !andb_false_r; done.
Qed.

Lemma run_counter K k events : forall w, Z.of_nat (size K) < maxTrackedReminderFailures ->
  Forall (fun x => reminder_key (snd x) ∈ K) events -> retries_ok K (disp w) ->
  let '(out, w') := notify_run events w in
  retries_ok K (disp w') /\
  (tally (refused k) out + counter k (disp w) <=
   maxReminderDeliveryRetries * tally (released k) out + counter k (disp w'))%nat.
Proof.
  induction events as [|[e n] events IH]; intros w HK Hev Hok; cbn [notify_run]; [by split|].
  apply Forall_cons in Hev as [Hn Hev]. pose proof (notify_counter K e n w k HK Hn Hok) as H1.
  destruct (Notify_ e n w) as [err w1]. destruct H1 as [Hok1 H1]. specialize (IH w1 HK Hev Hok1).
  destruct (notify_run events w1) as [out w']. destruct IH as [Hok2 H2]. split; [done|].
  rewrite (tally_cons (refused k)), (tally_cons (released k)). lia.
Qed.

(** a dead route cannot keep a reminder for ever.  In any run of
    notifications, over fewer than twenty thousand incidents, an incident's
    reminders are refused at most six times for each time one is released to the
    policy's backoff, and six times more: of any seven that could be refused, one
    is released. *)
Theorem reminders_released (K : gset string) k events d t :
  Z.of_nat (size K) < maxTrackedReminderFailures -> Forall (fun x => reminder_key (snd x) ∈ K) events ->
  reminderFailures d = ∅ ->
  let out := fst (notify_run events {| disp := d; table := t |}) in
  (tally (refused k) out <= 6 * (tally (released k) out + 1))%nat.
Proof.
  intros HK Hev Hd. pose proof (run_counter K k events {| disp := d; table := t |} HK Hev) as H.
  destruct (notify_run events _) as [out w']. cbn [fst disp] in *. destruct H as [Hok H].
  { split; [rewrite Hd, dom_empty; set_solver|]. intros k' n. by rewrite Hd, lookup_empty. }
  pose proof (counter_ok K k _ Hok). unfold maxReminderDeliveryRetries in *. lia.
Qed.

(** ** The throttle, with notifications in flight *)

(** Between the throttle's check and the record of its delivery a notification
    holds no lock.  The board is the throttle's state, the notifications in
    between, the deliveries recorded so far and the time of the last section. *)
Record flight := { f_ws : string; f_key : string; f_severity : string }.

Record delivery := { d_ws : string; d_key : string; d_mark : notifyMark }.

Record Board := { b_disp : Dispatcher; inflight : list flight; deliveries : list delivery; clock : Z }.

(** One of the two budgets of a workspace. *)
Definition of_class (ws : string) (crit : bool) (x : delivery) : bool :=
  bool_decide (d_ws x = ws) && Bool.eqb (critical (mark_rank (d_mark x))) crit.
Definition flies (ws : string) (crit : bool) (f : flight) : bool :=
  bool_decide (f_ws f = ws) && Bool.eqb (critical (SeverityRank (f_severity f))) crit.

Definition budget (crit : bool) : nat := if crit then maxCriticalNotifiesPerHour else maxNotifiesPerHour.

Definition delivered_mark (f : flight) (now : Z) : delivery := {|
  d_ws := f_ws f; d_key := f_key f; d_mark := {| mark_at := now; mark_rank := SeverityRank (f_severity f) |} |}.

Section Board.
(** At most [workers] notifications of one budget are in flight at once. *)
Variable workers : nat.

Inductive board_step (b : Board) : Board -> Prop :=
| step_pass f now d : clock b <= now -> (tally (flies (f_ws f) (critical (SeverityRank (f_severity f)))) (inflight b) < workers)%nat ->
    throttled (f_ws f) (f_key f) (f_severity f) now (b_disp b) = ("", d) ->
    board_step b {| b_disp := d; inflight := f :: inflight b; deliveries := deliveries b; clock := now |}
| step_withheld f now reason d : clock b <= now -> reason <> "" ->
    throttled (f_ws f) (f_key f) (f_severity f) now (b_disp b) = (reason, d) ->
    board_step b {| b_disp := d; inflight := inflight b; deliveries := deliveries b; clock := now |}
| step_delivered f l1 l2 now : clock b <= now -> inflight b = l1 ++ f :: l2 ->
    board_step b {| b_disp := recordNotify (f_ws f) (f_key f) (f_severity f) now (b_disp b); inflight := l1 ++ l2;
                    deliveries := deliveries b ++ [delivered_mark f now]; clock := now |}
| step_undelivered f l1 l2 : inflight b = l1 ++ f :: l2 ->
    board_step b {| b_disp := b_disp b; inflight := l1 ++ l2; deliveries := deliveries b; clock := clock b |}
| step_other d : perTemplate d = perTemplate (b_disp b) -> perHour d = perHour (b_disp b) ->
    board_step b {| b_disp := d; inflight := inflight b; deliveries := deliveries b; clock := clock b |}.

Inductive board_reach : Board -> Prop :=
| board_init kinds t : board_reach {| b_disp := NewDispatcher kinds; inflight := []; deliveries := []; clock := t |}
| board_next b b' : board_reach b -> board_step b b' -> board_reach b'.

(** *** What the marks remember *)

Definition within_hour (now t : Z) : bool := now - Hour <? t.

Lemma not_lapsed now t : negb (Hour <=? Sub now t) = within_hour now t.
Proof.
  unfold within_hour. pose proof (Sub_ge Hour now t ltac:(unfold Hour, Minute, Second; lia)) as Hs.
  destruct (Z.leb_spec Hour (Sub now t)), (Z.ltb_spec (now - Hour) t); cbn; lia.
Qed.

(** The deliveries of a workspace in the last hour. *)
Definition recent_of (ws : string) (now : Z) (l : list delivery) : list notifyMark :=
  List.filter (fun m => within_hour now (mark_at m)) (map d_mark (List.filter (fun x => bool_decide (d_ws x = ws)) l)).

(** Deliveries of one budget in the hour that ends at [t]. *)
Definition in_hour (ws : string) (crit : bool) (t : Z) (l : list delivery) : nat :=
  tally (fun x => of_class ws crit x && within_hour t (mark_at (d_mark x)) && (mark_at (d_mark x) <=? t)) l.

Definition class_marks (crit : bool) (l : list notifyMark) : nat :=
  tally (fun m => Bool.eqb (critical (mark_rank m)) crit) l.

Record marks_ok (b : Board) : Prop := {
  past : Forall (fun x => mark_at (d_mark x) <= clock b) (deliveries b);
  hours : forall ws, recent_marks (clock b) (default [] (perHour (b_disp b) !! ws)) = recent_of ws (clock b) (deliveries b);
  cooldowns : forall k m, perTemplate (b_disp b) !! k = Some m ->
    exists x, x ∈ deliveries b /\ template_key (d_ws x) (d_key x) = k /\ d_key x <> "" /\ d_mark x = m;
  in_flight : forall ws crit, (tally (flies ws crit) (inflight b) <= workers)%nat;
  budgets : forall ws crit, (class_marks crit (recent_of ws (clock b) (deliveries b)) + tally (flies ws crit) (inflight b)
                             <= budget crit - 1 + workers)%nat;
  windows : forall ws crit t, (in_hour ws crit t (deliveries b) <= budget crit - 1 + workers)%nat }.

Lemma recent_marks_filter now l : recent_marks now l = List.filter (fun m => within_hour now (mark_at m)) l.
Proof. apply List.filter_ext. intros m. apply not_lapsed. Qed.

Lemma filter_within now now' (l : list notifyMark) : now <= now' ->
  List.filter (fun m => within_hour now' (mark_at m)) (List.filter (fun m => within_hour now (mark_at m)) l) =
  List.filter (fun m => within_hour now' (mark_at m)) l.
Proof.
  intros Hle. rewrite filter_filter. apply List.filter_ext. intros m. unfold within_hour.
  destruct (Z.ltb_spec (now' - Hour) (mark_at m)), (Z.ltb_spec (now - Hour) (mark_at m)); cbn; lia || done.
Qed.

Lemma recent_later now now' l ws d : now <= now' -> recent_marks now l = recent_of ws now d ->
  recent_marks now' l = recent_of ws now' d.
Proof.
  intros Hle. rewrite !recent_marks_filter. unfold recent_of. intros H.
  rewrite <- (filter_within now now' l Hle), H. by apply filter_within.
Qed.

(** The recent deliveries of a budget, counted over the whole history. *)
Lemma class_recent ws crit now l : class_marks crit (recent_of ws now l) =
  tally (fun x => of_class ws crit x && within_hour now (mark_at (d_mark x))) l.
Proof.
  unfold class_marks, recent_of. rewrite tally_filter, tally_map, tally_filter. unfold tally. f_equal.
  apply List.filter_ext. intros x. unfold of_class.
  by destruct (bool_decide _), (within_hour _ _), (Bool.eqb _ _).
Qed.

Lemma class_recent_later ws crit now now' l : now <= now' ->
  (class_marks crit (recent_of ws now' l) <= class_marks crit (recent_of ws now l))%nat.
Proof.
  intros Hle. rewrite !class_recent. apply tally_le. intros x. unfold within_hour.
  rewrite !andb_true_iff, !Z.ltb_lt. intuition lia.
Qed.

Lemma cap_reason (cap n : nat) (reason : string) : reason <> "" ->
  (if (cap <=? n)%nat then reason else "") = "" <-> (n < cap)%nat.
Proof. intros Hr. destruct (Nat.leb_spec cap n); split; intros; done || lia. Qed.

Lemma throttled_cases ws key severity now d reason d' : throttled ws key severity now d = (reason, d') ->
  perTemplate d' = perTemplate d /\
  ((cooling ws key severity now d = true /\ reason <> "" /\ d' = d) \/
   (perHour d' = <[ws := recent_marks now (default [] (perHour d !! ws))]> (perHour d) /\
    (reason = "" <-> (class_marks (critical (SeverityRank severity)) (recent_marks now (default [] (perHour d !! ws)))
                      < budget (critical (SeverityRank severity)))%nat))).
Proof.
  unfold throttled. destruct (cooling ws key severity now d).
  { intros [= <- <-]. split; [done|]. by left. }
  set (recent := recent_marks now (default [] (perHour d !! ws))).
  assert (class_marks true recent = List.length (List.filter (fun m => critical (mark_rank m)) recent)) as Ht.
  { unfold class_marks, tally. f_equal. apply List.filter_ext. intros m. by destruct (critical _). }
  assert (class_marks false recent = List.length (List.filter (fun m => negb (critical (mark_rank m))) recent)) as Hf.
  { done. }
  destruct (critical (SeverityRank severity)); cbn [budget]; rewrite ?Ht, ?Hf; intros [<- <-]%pair_equal_spec;
    (split; [done|]); right; (split; [done|]); by apply cap_reason.
Qed.

(** Pruning keeps what matters. *)
Lemma hours_pruned b now ws l : marks_ok b -> clock b <= now ->
  (l = default [] (perHour (b_disp b) !! ws) \/ l = recent_marks now (default [] (perHour (b_disp b) !! ws))) ->
  recent_marks now l = recent_of ws now (deliveries b).
Proof.
  intros Hok Hle Hl. pose proof (recent_later _ now _ ws _ Hle (hours b Hok ws)) as H.
  destruct Hl as [-> | ->]; [exact H|]. rewrite !recent_marks_filter in *. by rewrite filter_within.
Qed.

(** The throttle's check, whatever it answers. *)
Lemma marks_checked b f now reason d fl : marks_ok b -> clock b <= now ->
  throttled (f_ws f) (f_key f) (f_severity f) now (b_disp b) = (reason, d) ->
  (forall ws crit, (tally (flies ws crit) fl <= workers)%nat) ->
  (forall ws crit, (class_marks crit (recent_of ws now (deliveries b)) + tally (flies ws crit) fl
                    <= budget crit - 1 + workers)%nat) ->
  marks_ok {| b_disp := d; inflight := fl; deliveries := deliveries b; clock := now |}.
Proof.
  intros Hok Hle [Hpt Hcases]%throttled_cases Hfl Hb. split; cbn [b_disp inflight deliveries clock]; try done.
  - eapply Forall_impl; [exact (past b Hok)|]. intros x. cbn. lia.
  - intros ws. apply hours_pruned; [done|done|]. destruct Hcases as [(_ & _ & ->)|[-> _]]; [by left|].
    destruct (decide (f_ws f = ws)) as [<-|Hne]; [right; by rewrite lookup_insert_eq|left; by rewrite lookup_insert_ne].
  - rewrite Hpt. apply (cooldowns b Hok).
  - apply (windows b Hok).
Qed.

Lemma step_pass_ok b f now d : marks_ok b -> clock b <= now ->
  (tally (flies (f_ws f) (critical (SeverityRank (f_severity f)))) (inflight b) < workers)%nat ->
  throttled (f_ws f) (f_key f) (f_severity f) now (b_disp b) = ("", d) ->
  marks_ok {| b_disp := d; inflight := f :: inflight b; deliveries := deliveries b; clock := now |}.
Proof.
  intros Hok Hle Hw Ht. assert (forall ws crit, tally (flies ws crit) (f :: inflight b) =
    ((if bool_decide (ws = f_ws f /\ crit = critical (SeverityRank (f_severity f))) then 1 else 0) + tally (flies ws crit) (inflight b))%nat) as Hc.
  { intros ws crit. rewrite tally_cons. f_equal. unfold tally, flies. cbn.
    destruct (bool_decide_reflect (f_ws f = ws)) as [<-|], (Bool.eqb_spec (critical (SeverityRank (f_severity f))) crit) as [<-|];
      cbn; case_bool_decide; cbn; naive_solver. }
  eapply marks_checked; [done|done|exact Ht| |].
  - intros ws crit. rewrite Hc. case_bool_decide as Hcase; [|apply (in_flight b Hok)]. destruct Hcase as [-> ->]. lia.
  - intros ws crit. rewrite Hc. case_bool_decide as Hcase.
    2:{ pose proof (class_recent_later ws crit _ now (deliveries b) Hle). pose proof (budgets b Hok ws crit). lia. }
    destruct Hcase as [-> ->]. apply throttled_cases in Ht as [_ [(_ & ? & _)|[_ Ht]]]; [done|].
    rewrite (hours_pruned b now (f_ws f) _ Hok Hle (or_introl eq_refl)) in Ht.
    pose proof (proj1 Ht eq_refl). lia.
Qed.

Lemma step_withheld_ok b f now reason d : marks_ok b -> clock b <= now ->
  throttled (f_ws f) (f_key f) (f_severity f) now (b_disp b) = (reason, d) ->
  marks_ok {| b_disp := d; inflight := inflight b; deliveries := deliveries b; clock := now |}.
Proof.
  intros Hok Hle Ht. eapply marks_checked; [done|done|exact Ht|apply (in_flight b Hok)|].
  intros ws crit. pose proof (class_recent_later ws crit _ now (deliveries b) Hle). pose proof (budgets b Hok ws crit). lia.
Qed.

Lemma flies_mark f ws crit now : of_class ws crit (delivered_mark f now) = flies ws crit f.
Proof. done. Qed.

Lemma step_delivered_ok b f l1 l2 now : marks_ok b -> clock b <= now -> inflight b = l1 ++ f :: l2 ->
  marks_ok {| b_disp := recordNotify (f_ws f) (f_key f) (f_severity f) now (b_disp b); inflight := l1 ++ l2;
              deliveries := deliveries b ++ [delivered_mark f now]; clock := now |}.
Proof.
  intros Hok Hle Hl.
  assert (forall ws crit, tally (flies ws crit) (inflight b) = (tally (flies ws crit) (l1 ++ l2) + tally (flies ws crit) [f])%nat) as Hc.
  { intros ws crit. rewrite Hl, !tally_app, (tally_cons _ f). lia. }
  assert (forall ws crit, (class_marks crit (recent_of ws now (deliveries b)) + tally (flies ws crit) (inflight b)
                           <= budget crit - 1 + workers)%nat) as Hb.
  { intros ws crit. pose proof (class_recent_later ws crit _ now (deliveries b) Hle). pose proof (budgets b Hok ws crit). lia. }
  split; cbn [b_disp inflight deliveries clock].
  - apply Forall_app. split; [|constructor; [cbn; lia|constructor]].
    eapply Forall_impl; [exact (past b Hok)|]. intros x. cbn. lia.
  - intros ws. pose proof (hours_pruned b now ws _ Hok Hle (or_introl eq_refl)) as H. unfold recordNotify. cbn [perHour set_throttle].
    unfold recent_of. rewrite List.filter_app, map_app, List.filter_app. fold (recent_of ws now (deliveries b)). cbn [List.filter map].
    cbn [d_ws delivered_mark].
    destruct (bool_decide_reflect (f_ws f = ws)) as [<-|Hne].
    + rewrite lookup_insert_eq. cbn [from_option id].
      unfold recent_marks in *. rewrite List.filter_app, H. f_equal. cbn. by rewrite not_lapsed.
    + rewrite lookup_insert_ne, H by done. by rewrite app_nil_r.
  - intros k m. unfold recordNotify. cbn [perTemplate set_throttle]. unfold evictLapsedTemplates. rewrite lookup_omap_Some.
    intros (m0 & Hm & Hk). destruct (_ <=? _); [done|]. injection Hm as ->.
    assert (perTemplate (b_disp b) !! k = Some m \/ f_key f <> "" /\ template_key (f_ws f) (f_key f) = k /\ d_mark (delivered_mark f now) = m) as [Hold|(Hne & Hk' & Hm)].
    { case_bool_decide; [by left|]. apply lookup_insert_Some in Hk as [[? ?]|[_ ?]]; auto. }
    + destruct (cooldowns b Hok k m Hold) as (x & Hx & Hrest). exists x. split; [apply elem_of_app; by left|done].
    + exists (delivered_mark f now). split; [apply elem_of_app; right; apply list_elem_of_here|done].
  - intros ws crit. pose proof (in_flight b Hok ws crit) as H. rewrite Hc in H. lia.
  - intros ws crit. specialize (Hb ws crit). rewrite Hc in Hb.
    rewrite class_recent, tally_app. rewrite class_recent in Hb.
    assert (tally (fun x => of_class ws crit x && within_hour now (mark_at (d_mark x))) [delivered_mark f now] <= tally (flies ws crit) [f])%nat.
    { unfold tally. cbn [List.filter]. rewrite flies_mark. destruct (flies ws crit f), (within_hour _ _); cbn; lia. }
    lia.
  - intros ws crit t. pose proof (windows b Hok ws crit t) as Hw. unfold in_hour in *. rewrite tally_app.
    destruct (of_class ws crit (delivered_mark f now) && within_hour t now && (now <=? t)) eqn:Hin.
    2:{ unfold tally in *. cbn [List.filter]. cbn [d_mark delivered_mark mark_at]. rewrite Hin. cbn. lia. }
    rewrite flies_mark in Hin. apply andb_true_iff in Hin as [[Hfl Hwin]%andb_true_iff Ht%Z.leb_le].
    specialize (Hb ws crit). rewrite Hc, class_recent in Hb.
    assert (tally (flies ws crit) [f] = 1%nat) as H1 by (unfold tally; cbn; by rewrite Hfl).
    assert (tally (fun x => of_class ws crit x && within_hour t (mark_at (d_mark x)) && (mark_at (d_mark x) <=? t)%Z) (deliveries b) <=
            tally (fun x => of_class ws crit x && within_hour now (mark_at (d_mark x))) (deliveries b))%nat as Hle'.
    { apply tally_le. intros x. unfold within_hour. rewrite !andb_true_iff, !Z.ltb_lt, Z.leb_le. intuition lia. }
    unfold tally at 2. cbn [List.filter]. destruct (_ && _); cbn; lia.
Qed.

Lemma step_undelivered_ok b f l1 l2 : marks_ok b -> inflight b = l1 ++ f :: l2 ->
  marks_ok {| b_disp := b_disp b; inflight := l1 ++ l2; deliveries := deliveries b; clock := clock b |}.
Proof.
  intros Hok Hl.
  assert (forall ws crit, (tally (flies ws crit) (l1 ++ l2) <= tally (flies ws crit) (inflight b))%nat) as Hc.
  { intros ws crit. rewrite Hl, !tally_app, (tally_cons _ f). lia. }
  split; cbn [b_disp inflight deliveries clock]; try apply Hok.
  - intros ws crit. pose proof (in_flight b Hok ws crit). specialize (Hc ws crit). lia.
  - intros ws crit. pose proof (budgets b Hok ws crit). specialize (Hc ws crit). lia.
Qed.

Lemma board_ok b : board_reach b -> marks_ok b.
Proof.
  induction 1 as [kinds t|b b' _ Hok Hs].
  - split; cbn; try done; intros; rewrite ?lookup_empty in *; cbn; try done; unfold class_marks, recent_of, tally; cbn; lia.
  - destruct Hs; [by eapply step_pass_ok|by eapply step_withheld_ok|by eapply step_delivered_ok|by eapply step_undelivered_ok|].
    split; cbn [b_disp inflight deliveries clock]; try apply Hok; rewrite ?H, ?H0; apply Hok.
Qed.
End Board.

(** A notification is a path of such sections. *)
Lemma result_other n o d : let d' := snd (deliveryResult n o d) in perTemplate d' = perTemplate d /\ perHour d' = perHour d.
Proof.
  unfold deliveryResult, reminderResult, reminderNotDelivered, recordReminderFailure.
  destruct (_ <? _); [done|]. destruct (_ || _); [done|]. destruct (Status o); try done.
  by destruct (_ <? _)%nat.
Qed.

Definition at_rest (workers : nat) (now : Z) (w : World) (b : Board) : Prop :=
  board_reach workers b /\ b_disp b = disp w /\ inflight b = [] /\ clock b <= now.

Lemma finish_rest workers now n o w b : at_rest workers now w b ->
  exists b', at_rest workers now (snd (finish n o w)) b' /\ deliveries b' = deliveries b.
Proof.
  intros (Hr & Hd & Hf & Hc). unfold finish. pose proof (result_other n o (disp w)) as Ho.
  destruct (deliveryResult n o (disp w)) as [err d]. cbn [snd] in *.
  exists {| b_disp := d; inflight := inflight b; deliveries := deliveries b; clock := clock b |}. split; [|done].
  split_and!; try done. eapply board_next; [exact Hr|]. apply step_other; rewrite Hd; apply Ho.
Qed.

Lemma other_rest workers now w w' b : at_rest workers now w b -> perTemplate (disp w') = perTemplate (disp w) ->
  perHour (disp w') = perHour (disp w) -> exists b', at_rest workers now w' b' /\ deliveries b' = deliveries b.
Proof.
  intros (Hr & Hd & Hf & Hc) Hp Hh.
  exists {| b_disp := disp w'; inflight := inflight b; deliveries := deliveries b; clock := clock b |}. split; [|done].
  split_and!; try done. eapply board_next; [exact Hr|]. apply step_other; by rewrite Hd.
Qed.

Definition flight_of (n : Notification) : flight := {|
  f_ws := n_WorkspaceID n; f_key := notificationDeliveryKey n; f_severity := n_Severity n |}.

(** What happens to the channels and the human route between check and record. *)
Lemma fan_out_throttle e n w o d o' w' :
  deliverHuman e n no_delivery (disp w) = (o, d) ->
  deliverChannels e n (ListMonitoringChannels (n_WorkspaceID n) (table w)) o {| disp := d; table := table w |} = (o', w') ->
  perTemplate (disp w') = perTemplate (disp w) /\ perHour (disp w') = perHour (disp w).
Proof.
  intros Hd Hc. apply deliverHuman_spec in Hd as ((hi & hp & ->) & _).
  apply deliverChannels_spec in Hc as ([h ->] & _). done.
Qed.

Lemma untested_rest workers now e n w b : (1 <= workers)%nat -> at_rest workers (t_throttle e) w b ->
  t_throttle e <= t_record e <= now -> Test_ n = false -> ValidSeverity (n_Severity n) = true ->
  exists b', at_rest workers now (snd (NotifyWithOutcome e n w)) b'.
Proof.
  intros Hk (Hr & Hd & Hf & Hc) Ht Hn Hv. unfold NotifyWithOutcome. rewrite Hv. cbn [negb].
  set (w1 := recordChannelTargeting e n w). assert (disp w1 = disp w) as Hw1 by apply targeting_disp.
  unfold prepareNotification. rewrite Hn.
  destruct (throttled _ _ _ (t_throttle e) (disp w1)) as [suppressed d1] eqn:Hth. rewrite Hw1, <- Hd in Hth.
  assert (forall now', t_throttle e <= now' -> suppressed <> "" -> at_rest workers now' {| disp := d1; table := table w1 |}
    {| b_disp := d1; inflight := inflight b; deliveries := deliveries b; clock := t_throttle e |}) as Hheld.
  { intros now' Hle Hs. split_and!; try done. eapply board_next; [exact Hr|]. by apply (step_withheld _ _ (flight_of n) _ suppressed). }
  destruct (bool_decide_reflect (suppressed = "")) as [->|Hs]; cbn [negb andb]; cbn [disp table].
  2:{ destruct (isHumanCandidate n); cbn [negb].
      - destruct (workspace_ok e); cbn [negb]; [|eexists; apply Hheld; [lia|done]].
        destruct (deliverHuman e n no_delivery d1) as [o d] eqn:Hdh. apply deliverHuman_spec in Hdh as ((hi & hp & ->) & _).
        destruct (other_rest workers now _ {| disp := set_human hi hp d1; table := table w1 |} _ (Hheld now ltac:(lia) Hs))
          as (b1 & Hb1 & _); [done|done|].
        edestruct finish_rest as (b2 & Hb2 & _); [exact Hb1|]. exists b2. exact Hb2.
      - edestruct finish_rest as (b2 & Hb2 & _); [apply (Hheld now); [lia|done]|]. exists b2. exact Hb2. }
  pose (b1 := {| b_disp := d1; inflight := [flight_of n]; deliveries := deliveries b; clock := t_throttle e |}).
  assert (board_reach workers b1) as Hb1.
  { eapply board_next; [exact Hr|]. unfold b1. rewrite <- Hf. apply step_pass; [lia|rewrite Hf; cbn; lia|exact Hth]. }
  assert (forall w' now', t_throttle e <= now' -> perTemplate (disp w') = perTemplate d1 -> perHour (disp w') = perHour d1 ->
    exists b', at_rest workers now' w' b') as Hdrop.
  { intros w' now' Hle Hp Hh. edestruct (other_rest workers now' {| disp := d1; table := table w1 |} w') as (b' & Hb' & _); [|done|done|by exists b'].
    split_and!; [eapply board_next; [exact Hb1|apply (step_undelivered _ b1 (flight_of n) [] [] eq_refl)]|done|done|cbn; lia]. }
  destruct (workspace_ok e); cbn [negb]; [|apply Hdrop; [lia|done|done]].
  destruct (deliverHuman e n no_delivery d1) as [o d] eqn:Hdh.
  destruct (list_ok e); cbn [negb].
  2:{ apply deliverHuman_spec in Hdh as ((hi & hp & ->) & _). apply Hdrop; [lia|done|done]. }
  destruct (deliverChannels e n _ o _) as [o' w'] eqn:Hdc.
  pose proof (fan_out_throttle e n {| disp := d1; table := table w1 |} o d o' w' Hdh Hdc) as [Hp Hh]. cbn [disp] in Hp, Hh.
  cbn [negb]. rewrite andb_true_r. destruct (0 <? sent o')%nat.
  - assert (exists b', at_rest workers now (with_disp (recordNotify (n_WorkspaceID n) (notificationDeliveryKey n) (n_Severity n) (t_record e)) w') b')
      as (b' & Hb').
    { eexists. split_and!; [eapply board_next; [eapply board_next; [exact Hb1|]|]|..].
      - apply (step_other _ b1 (disp w')); [exact Hp|exact Hh].
      - apply (step_delivered _ _ (flight_of n) [] [] (t_record e)); [cbn; lia|done].
      - done. - done. - cbn. lia. }
    edestruct finish_rest as (b2 & Hb2 & _); [exact Hb'|]. exists b2. exact Hb2.
  - destruct (Hdrop w' now) as (b' & Hb'); [lia|exact Hp|exact Hh|].
    edestruct finish_rest as (b2 & Hb2 & _); [exact Hb'|]. exists b2. exact Hb2.
Qed.

Lemma tested_rest workers now e n w b : at_rest workers now w b -> Test_ n = true ->
  exists b', at_rest workers now (snd (NotifyWithOutcome e n w)) b'.
Proof.
  intros Hrest Hn. unfold NotifyWithOutcome. destruct (negb (ValidSeverity _)); [by exists b|].
  set (w1 := recordChannelTargeting e n w). assert (disp w1 = disp w) as Hw1 by apply targeting_disp.
  assert (forall w', perTemplate (disp w') = perTemplate (disp w) -> perHour (disp w') = perHour (disp w) ->
    exists b', at_rest workers now w' b') as Hother.
  { intros w' Hp Hh. destruct (other_rest workers now w w' b Hrest Hp Hh) as (b' & Hb' & _). by exists b'. }
  unfold prepareNotification. rewrite Hn. cbn [negb andb bool_decide disp table]. rewrite Hw1.
  rewrite (bool_decide_eq_true_2 ("" = "")) by done. cbn [negb andb].
  destruct (workspace_ok e); cbn [negb]; [|by apply Hother].
  destruct (deliverHuman e n no_delivery (disp w)) as [o d] eqn:Hdh.
  destruct (list_ok e); cbn [negb].
  2:{ apply deliverHuman_spec in Hdh as ((hi & hp & ->) & _). by apply Hother. }
  destruct (deliverChannels e n _ o _) as [o' w'] eqn:Hdc.
  pose proof (fan_out_throttle e n {| disp := disp w; table := table w1 |} o d o' w' Hdh Hdc) as [Hp Hh].
  rewrite andb_false_r. destruct (Hother w' Hp Hh) as (b' & Hb').
  edestruct finish_rest as (b2 & Hb2 & _); [exact Hb'|]. exists b2. exact Hb2.
Qed.

(** One notification after another. *)
Fixpoint serial (now : Z) (events : list (Env * Notification)) : Prop :=
  match events with
  | [] => True
  | (e, _) :: events => now <= t_throttle e <= t_record e /\ serial (t_record e) events
  end.

Lemma later_rest workers now now' w b : now <= now' -> at_rest workers now w b -> at_rest workers now' w b.
Proof. intros Hle (? & ? & ? & ?). split_and!; [done..|lia]. Qed.

Lemma serial_rest events : forall now w b, at_rest 1 now w b -> serial now events ->
  exists now' b', at_rest 1 now' (snd (notify_run events w)) b'.
Proof.
  induction events as [|[e n] events IH]; intros now w b Hb Hs; cbn [notify_run]; [by exists now, b|].
  destruct Hs as [Ht Hs]. unfold Notify_.
  assert (exists b', at_rest 1 (t_record e) (snd (NotifyWithOutcome e n w)) b') as (b' & Hb').
  { destruct (ValidSeverity (n_Severity n)) eqn:Hv.
    - destruct (Test_ n) eqn:Hn.
      + apply (tested_rest 1 (t_record e) e n w b); [|done]. apply (later_rest 1 now); [lia|done].
      + apply (untested_rest 1 (t_record e) e n w b); [lia| |lia|done|done]. apply (later_rest 1 now); [lia|done].
    - unfold NotifyWithOutcome. rewrite Hv. exists b. apply (later_rest 1 now); [lia|done]. }
  destruct (NotifyWithOutcome e n w) as [[o err] w']. specialize (IH (t_record e) w' b' Hb' Hs).
  destruct (notify_run events w') as [out w'']. exact IH.
Qed.

(** C27: the hourly caps.  However many goroutines notify, the notifications of a
    workspace that were delivered and recorded in any hour are at most five of lower
    severity and eleven critical more than those in flight at once - so the caps of
    six and twelve hold when they come one at a time.  A recorded notification counts
    once, however many channels took it, and test notifications pass the throttle
    without being recorded. *)
Theorem hourly_caps workers b ws t : board_reach workers b ->
  (in_hour ws false t (deliveries b) <= 5 + workers)%nat /\ (in_hour ws true t (deliveries b) <= 11 + workers)%nat.
Proof. intros Hok%board_ok. split; [exact (windows _ _ Hok ws false t)|exact (windows _ _ Hok ws true t)]. Qed.

(** suppression is evidence of a delivery.  The throttle withholds a
    notification only if a channel took one under the same key, at least as
    severe, within the cooldown, or if the channels took a full budget of the
    workspace's in the last hour. *)
Theorem withheld_means_told workers b now ws key severity reason d :
  board_reach workers b -> clock b <= now -> throttled ws key severity now (b_disp b) = (reason, d) -> reason <> "" ->
  (exists x, x ∈ deliveries b /\ template_key (d_ws x) (d_key x) = template_key ws key /\
     SeverityRank severity <= mark_rank (d_mark x) /\ now - mark_at (d_mark x) < templateCooldown severity) \/
  (budget (critical (SeverityRank severity)) <= in_hour ws (critical (SeverityRank severity)) now (deliveries b))%nat.
Proof.
  intros Hok%board_ok Hle [_ Hcases]%throttled_cases Hne. destruct Hcases as [(Hcool & _)|[_ Hcap]].
  - left. unfold cooling in Hcool. bool_hyps.
    destruct (perTemplate (b_disp b) !! template_key ws key) as [m|] eqn:Hm; [|done]. bool_hyps.
    destruct (cooldowns _ _ Hok _ _ Hm) as (x & Hx & Hk & _ & <-). exists x. split_and!; [done|done|by apply Z.leb_le|].
    match goal with H : (_ <? _) = true |- _ => apply Z.ltb_lt in H; rename H into Hs end.
    apply Z.nle_gt. intros Hge. enough (templateCooldown severity <= Sub now (mark_at (d_mark x))) by lia.
    apply Sub_ge; [|lia]. unfold templateCooldown, perTemplateCooldownCritical, perTemplateCooldown, Hour, Minute, Second.
    destruct (critical _); lia.
  - right. rewrite (hours_pruned workers b now ws _ Hok Hle (or_introl eq_refl)), class_recent in Hcap.
    apply Nat.nlt_ge. intros Hlt. apply Hne, Hcap. eapply Nat.le_lt_trans; [|exact Hlt].
    apply (tally_le_in _ _ _ _ (past _ _ Hok)). intros x Hx. cbn in Hx. rewrite !andb_true_iff, Z.leb_le. intuition lia.
Qed.

(** ** A dead route *)

(** What a row keeps while nothing is delivered on it. *)
Record undelivered (c c' : MonitoringChannel) : Prop := {
  same_id : c_ID c' = c_ID c; same_ws : c_WorkspaceID c' = c_WorkspaceID c; same_floor : c_MinSeverity c' = c_MinSeverity c;
  same_enabled : c_Enabled c' = c_Enabled c; same_success : LastSuccessAt c' = LastSuccessAt c;
  more_debt : TargetedSinceSuccess c <= TargetedSinceSuccess c' }.

#[local] Instance undelivered_preorder : PreOrder undelivered.
Proof. split; [by split|]. intros c1 c2 c3 [] []. split; congruence || lia. Qed.

(** A row of [w] has become such a row of [w']. *)
Definition still_there (c : MonitoringChannel) (w : World) : Prop := exists c', c' ∈ table w /\ undelivered c c'.

(** No attempt on the route succeeds. *)
Definition dead (id : string) (kinds : list string) (e : Env) : Prop :=
  forall c, c_ID c = id -> Kind c ∈ kinds -> sendWithRetry (send e c) (pause_ e c) <> None.

Lemma map_there c w f : still_there c w -> (forall c', c_ID c' = c_ID c -> undelivered c' (f c')) ->
  still_there c (with_table (map f) w).
Proof.
  intros (c' & Hin & Hu) Hf. exists (f c'). split; [by apply list_elem_of_fmap_2|].
  etransitivity; [exact Hu|]. apply Hf, Hu.
Qed.

Lemma update_there c w id f : still_there c w -> (id = c_ID c -> forall c', undelivered c' (f c')) ->
  still_there c (with_table (update_channel id f) w).
Proof.
  intros H Hf. apply map_there; [done|]. intros c' Hc'. case_bool_decide as Hid; [|reflexivity].
  apply Hf. congruence.
Qed.

Lemma failed_undelivered at_ns c : undelivered c (failed_row at_ns c).
Proof. by split. Qed.

Lemma targeted_undelivered at_ns c : undelivered c (targeted_row at_ns c).
Proof. split; try done. cbn. lia. Qed.

Lemma report_there c0 e key c w : still_there c0 w -> still_there c0 (reportChannelFailure e key c w).
Proof.
  intros H. unfold reportChannelFailure. destruct (persisted e c w); [|exact H].
  apply (update_there c0 w); [exact H|]. intros _ c'. apply failed_undelivered.
Qed.

Lemma deliverOne_there c0 e n c w : dead (c_ID c0) (senders (disp w)) e -> still_there c0 w ->
  still_there c0 (snd (deliverOne e n c w)).
Proof.
  intros Hdead H. unfold deliverOne. case_bool_decide as Hk; cbn [negb]; [|by apply report_there].
  destruct (sendWithRetry (send e c) (pause_ e c)) eqn:Hs; [by apply report_there|].
  destruct (persisted e c w); [|exact H]. apply (update_there c0 w); [exact H|].
  intros Hid. by destruct (Hdead c Hid Hk).
Qed.

Lemma deliverChannels_there c0 e n cs : forall o w, dead (c_ID c0) (senders (disp w)) e -> still_there c0 w ->
  still_there c0 (snd (deliverChannels e n cs o w)).
Proof.
  induction cs as [|c cs IH]; intros o w Hdead H; cbn [deliverChannels]; [exact H|].
  destruct (_ || _); [by apply IH|]. pose proof (deliverOne_there c0 e n c w Hdead H) as H1.
  destruct (deliverOne_health e n c w) as [h Hh].
  destruct (deliverOne e n c w) as [[reason|] w1]; cbn [snd] in *; apply IH; try done; by rewrite Hh.
Qed.

(** A notification the route is owed. *)
Definition owed (c : MonitoringChannel) (x : Env * Notification) : bool :=
  ValidSeverity (n_Severity (snd x)) && bool_decide (n_WorkspaceID (snd x) = c_WorkspaceID c) &&
  eligible (n_Severity (snd x)) c && target_ok (fst x).

Lemma targeting_there c0 e n w : recorder (disp w) = true -> c_ID c0 <> "" -> still_there c0 w ->
  exists c', c' ∈ table (recordChannelTargeting e n w) /\ undelivered c0 c' /\
    (owed c0 (e, n) = true -> TargetedSinceSuccess c0 + 1 <= TargetedSinceSuccess c').
Proof.
  intros Hrec Hid (c & Hin & Hu). unfold recordChannelTargeting, owed. rewrite Hrec. cbn [negb fst snd].
  destruct (target_ok e); cbn [negb]; [|exists c; by rewrite andb_false_r].
  set (ids := map c_ID _). cbn [with_table table]. unfold RecordMonitoringChannelTargeted.
  eexists. split; [by apply (list_elem_of_fmap_2 _ (table w) c)|]. split.
  - etransitivity; [exact Hu|]. case_bool_decide; [apply targeted_undelivered|reflexivity].
  - intros Howed. bool_hyps. destruct Hu as [K1 K2 K3 K4 K5 K6].
    rewrite bool_decide_eq_true_2; [cbn; lia|]. apply list_elem_of_fmap_2, list_elem_of_In, filter_In. split.
    + apply list_elem_of_In. unfold ListMonitoringChannels. rewrite SliceStable_perm.
      apply list_elem_of_In, filter_In. split; [by apply list_elem_of_In|]. apply bool_decide_eq_true_2. congruence.
    + unfold eligible in *. rewrite K3, K4, K1. apply andb_true_iff. split; [done|]. by rewrite bool_decide_eq_false_2.
Qed.

Lemma result_fixed n o d : let d' := snd (deliveryResult n o d) in senders d' = senders d /\ recorder d' = recorder d.
Proof.
  unfold deliveryResult, reminderResult, reminderNotDelivered, recordReminderFailure.
  destruct (_ <? _); [done|]. destruct (_ || _); [done|]. destruct (Status o); try done.
  by destruct (_ <? _)%nat.
Qed.

(** The registrations never change, and the rows change in the two places. *)
Lemma notify_rows e n w : ValidSeverity (n_Severity n) = true ->
  let w1 := recordChannelTargeting e n w in let w' := snd (NotifyWithOutcome e n w) in
  senders (disp w') = senders (disp w) /\ recorder (disp w') = recorder (disp w) /\
  (table w' = table w1 \/
   exists o d, senders d = senders (disp w) /\
     table w' = table (snd (deliverChannels e n (ListMonitoringChannels (n_WorkspaceID n) (table w1)) o {| disp := d; table := table w1 |}))).
Proof.
  intros Hv. unfold NotifyWithOutcome. rewrite Hv. cbn [negb].
  set (w1 := recordChannelTargeting e n w). pose proof (targeting_disp e n w : disp w1 = disp w) as Hw1.
  assert (forall o w2, senders (disp w2) = senders (disp w) -> recorder (disp w2) = recorder (disp w) ->
    senders (disp (snd (finish n o w2))) = senders (disp w) /\ recorder (disp (snd (finish n o w2))) = recorder (disp w) /\
    table (snd (finish n o w2)) = table w2) as Hfin.
  { intros o w2 H1 H2. unfold finish. pose proof (result_fixed n o (disp w2)) as Hr.
    destruct (deliveryResult n o (disp w2)) as [err d]. cbn [snd disp table] in *. by rewrite (proj1 Hr), (proj2 Hr). }
  pose proof (prepare_set n (t_throttle e) (disp w1)) as (pt & ph & Hd).
  destruct (prepareNotification n _ (disp w1)) as [suppressed d1]. cbn [snd] in Hd. subst d1. rewrite Hw1. cbn [disp table].
  destruct (_ && _).
  { edestruct Hfin as (H1 & H2 & H3); [| |split; [exact H1|split; [exact H2|left; exact H3]]]; done. }
  destruct (workspace_ok e); cbn [negb]; [|split_and!; auto].
  destruct (deliverHuman e n no_delivery _) as [o d] eqn:Hdh. apply deliverHuman_spec in Hdh as ((hi & hp & ->) & _).
  destruct (negb (bool_decide (suppressed = ""))).
  { edestruct Hfin as (H1 & H2 & H3); [| |split; [exact H1|split; [exact H2|left; exact H3]]]; done. }
  destruct (list_ok e); cbn [negb]; [|split_and!; auto]. cbn [disp table].
  destruct (deliverChannels e n _ o _) as [o' w'] eqn:Hdc. pose proof (deliverChannels_spec _ _ _ _ _ _ _ Hdc) as ([h Hh] & _).
  edestruct Hfin as (H1 & H2 & H3); [| |split; [exact H1|split; [exact H2|right]]].
  - destruct (_ && _); cbn [with_disp disp recordNotify]; rewrite Hh; done.
  - destruct (_ && _); cbn [with_disp disp recordNotify]; rewrite Hh; done.
  - exists o, (set_human hi hp (set_throttle pt ph (disp w))). split; [done|]. rewrite H3, Hdc. by destruct (_ && _).
Qed.

Lemma run_there c0 events : forall w c, recorder (disp w) = true -> c_ID c <> "" ->
  Forall (fun x => dead (c_ID c) (senders (disp w)) (fst x)) events -> still_there c w ->
  exists c', c' ∈ table (snd (notify_run events w)) /\ undelivered c c' /\
    (undelivered c0 c -> TargetedSinceSuccess c + Z.of_nat (tally (owed c0) events) <= TargetedSinceSuccess c').
Proof.
  induction events as [|[e n] events IH]; intros w c Hrec Hid Hdead Hc; cbn [notify_run].
  { destruct Hc as (c' & Hin & Hu). exists c'. split_and!; [done..|]. intros _. cbn. pose proof (more_debt _ _ Hu). lia. }
  apply Forall_cons in Hdead as [Hd Hdead]. cbn [fst] in Hd. unfold Notify_.
  assert (exists c', c' ∈ table (snd (NotifyWithOutcome e n w)) /\ undelivered c c' /\
    (owed c (e, n) = true -> TargetedSinceSuccess c + 1 <= TargetedSinceSuccess c') /\
    senders (disp (snd (NotifyWithOutcome e n w))) = senders (disp w) /\
    recorder (disp (snd (NotifyWithOutcome e n w))) = recorder (disp w)) as (c1 & Hin1 & Hu1 & Hdebt & Hs & Hr).
  { destruct (ValidSeverity (n_Severity n)) eqn:Hv.
    - destruct (notify_rows e n w Hv) as (Hs & Hr & Ht).
      destruct (targeting_there c e n w Hrec Hid Hc) as (c1 & Hin & Hu & Hdebt).
      destruct Ht as [-> |(o & d & Hsd & ->)]; [by exists c1|].
      destruct (deliverChannels_there c1 e n (ListMonitoringChannels (n_WorkspaceID n) (table (recordChannelTargeting e n w))) o
        {| disp := d; table := table (recordChannelTargeting e n w) |}) as (c2 & Hin2 & Hu2).
      + cbn [disp]. rewrite Hsd, (same_id _ _ Hu). exact Hd.
      + by exists c1.
      + exists c2. split_and!; [done|by etransitivity| |done|done]. intros Ho. specialize (Hdebt Ho). pose proof (more_debt _ _ Hu2). lia.
    - destruct Hc as (c' & Hin & Hu). unfold NotifyWithOutcome, owed. cbn [snd fst]. rewrite Hv. exists c'. by split_and!. }
  destruct (NotifyWithOutcome e n w) as [[o err] w']. cbn [snd] in *.
  destruct (IH w' c1) as (c2 & Hin2 & Hu2 & Hdebt2).
  - by rewrite Hr.
  - by rewrite (same_id _ _ Hu1).
  - rewrite Hs, (same_id _ _ Hu1). done.
  - by exists c1.
  - destruct (notify_run events w') as [out w'']. cbn [snd] in *. exists c2. split_and!; [done|by etransitivity|].
    intros Hu0. assert (undelivered c0 c1) as Hu01 by (by etransitivity). specialize (Hdebt2 Hu01).
    rewrite tally_cons. unfold tally at 1. cbn [List.filter]. pose proof (more_debt _ _ Hu1).
    destruct (owed c0 (e, n)) eqn:Ho; cbn [List.length]; [|lia].
    enough (owed c (e, n) = true) as Ho' by (specialize (Hdebt Ho'); lia).
    unfold owed, eligible in *. by rewrite (same_ws _ _ Hu0), (same_floor _ _ Hu0), (same_enabled _ _ Hu0).
Qed.

(** a dead route is called broken, whatever the throttle does.  Once three
    notifications were owed to it and none delivered, two hours after its last
    success, its row says so - whether it was refused, skipped or never tried
    because the fan-outs were withheld. *)
Theorem dead_route_reported events d t c s now :
  recorder d = true -> c ∈ t -> c_ID c <> "" -> Forall (fun x => dead (c_ID c) (senders d) (fst x)) events ->
  ChannelBrokenThreshold <= TargetedSinceSuccess c + Z.of_nat (tally (owed c) events) ->
  LastSuccessAt c = Some s -> ChannelStaleAfter <= now - s ->
  exists c', c' ∈ table (snd (notify_run events {| disp := d; table := t |})) /\ c_ID c' = c_ID c /\
    HealthStateAt c' now = ChannelHealthBroken.
Proof.
  intros Hrec Hin Hid Hdead Hdebt Hs Hnow.
  destruct (run_there c events {| disp := d; table := t |} c Hrec Hid Hdead) as (c' & Hin' & Hu & Hmore).
  { by exists c. }
  exists c'. split_and!; [done|apply Hu|]. specialize (Hmore ltac:(reflexivity)).
  unfold HealthStateAt, UndeliveredFor. rewrite (same_success _ _ Hu), Hs. unfold ChannelBrokenThreshold in *.
  rewrite (proj2 (Z.leb_le 3 (TargetedSinceSuccess c'))) by lia. rewrite (proj2 (Z.eqb_neq (TargetedSinceSuccess c') 0)) by lia.
  assert (ChannelStaleAfter <= Sub now s) as Hst by (apply Sub_ge; [unfold ChannelStaleAfter, Hour, Minute, Second; lia|done]).
  rewrite (proj2 (Z.leb_le _ _) Hst), andb_true_l, orb_true_r. done.
Qed.

(** ** Interruptions *)

(** An incident that interrupted the operator for a task does not do so again
    for it: the publisher is not called, and the notification counts as
    accepted. *)
Lemma interrupted_once e n d task : isHumanCandidate n = true -> human d = true ->
  humanIncidents d !! humanIncidentKey n = Some {| taskID := task; interrupted := true |} ->
  n_TaskID n = "" \/ task = "" \/ n_TaskID n = task ->
  let '(o, d') := deliverHuman e n no_delivery d in
  delivered o = 1%nat /\ humanPerHour d' = humanPerHour d /\
  humanIncidents d' !! humanIncidentKey n = Some {| taskID := if bool_decide (task = "") then n_TaskID n else task; interrupted := true |}.
Proof.
  intros Hc Hh Hk Ht. unfold deliverHuman, claimHumanIncident, claimHumanIncidentLocked, nextHumanState.
  rewrite Hc, Hh, Hk. cbn [andb taskID interrupted].
  destruct (bool_decide_reflect (task = "")) as [->|Hne], (bool_decide_reflect (n_TaskID n = "")) as [He|Hne'];
    cbn [negb andb]; try (rewrite (bool_decide_eq_true_2 (task = n_TaskID n)) by intuition congruence); cbn [negb andb];
    unfold humanIncidentAccepted; cbn [humanIncidents set_human]; rewrite lookup_insert_eq; cbn; rewrite ?lookup_insert_eq, ?He; done.
Qed.

(** ** A small world *)

Definition sev_note (severity incident : string) (fresh : bool) : Notification := {|
  n_WorkspaceID := "w1"; n_Severity := severity; n_TaskID := "t1"; NewIncident := fresh; TemplateID := "l1";
  n_IncidentID := incident; Test_ := false |}.

Definition refusal : send_error := {| cancelled := false; marked := false; timeout := false |}.

(** Everything works, but the channels of [down]. *)
Definition env_at (down : list string) (t : Z) : Env := {|
  workspace_ok := true; target_ok := true; list_ok := true; health_ok _ := true;
  send c _ := if bool_decide (c_ID c ∈ down) then Some refusal else None; pause_ _ _ := None; publish _ := true;
  t_target := t; t_throttle := t; t_human := t; t_channel _ := t; t_record := t |}.

Definition route (id floor : string) (last : option Z) : MonitoringChannel := {|
  c_ID := id; c_WorkspaceID := "w1"; c_Name := id; Kind := "mesh"; c_MinSeverity := floor; c_Enabled := true;
  c_CreatedAt := Some 0; ConsecutiveFailures := 0; FirstFailureAt := None; LastFailureAt := None; LastSuccessAt := last;
  TargetedSinceSuccess := 0; LastTargetedAt := None |}.

Definition dispatcher : Dispatcher := {|
  senders := ["mesh"]; human := true; recorder := true; perTemplate := ∅; perHour := ∅; humanIncidents := ∅;
  humanPerHour := ∅; reminderFailures := ∅; channelHealth_ := ∅ |}.

Definition office (routes : list MonitoringChannel) : World := {| disp := dispatcher; table := routes |}.

Definition noon : Z := 72 * Hour.

(** Six warnings of six incidents, a minute apart. *)
Definition six_warnings : list (Env * Notification) :=
  map (fun k => (env_at [] (noon + Z.of_nat k * Minute), sev_note "warn" ("i" +:+ pretty.pretty k) false)) (seq 0 6).

Example new_incident_error_witness :
  2 <= SeverityRank "error" /\ fst (Notify_ (env_at [] noon) (sev_note "error" "i1" true) (office [route "a" "warn" None])) = None.
Proof.
  split; [vm_compute; discriminate|].
  refine (proj2 (new_incident_error (env_at [] noon) (sev_note "error" "i1" true) (office [route "a" "warn" None]) _ _) _).
  - vm_compute; discriminate.
  - reflexivity.
  - split; [reflexivity|]. change (withheld _ _ _) with false. cbn iota. split; [reflexivity|]. right.
    eexists. split; [apply list_elem_of_here|reflexivity].
Defined.

Definition seven_refusals : list (Env * Notification) :=
  map (fun k => (env_at ["a"] (noon + Z.of_nat k * 5 * Minute), sev_note "error" "i1" false)) (seq 0 7).

(** Six refusals, then the reminder is released. *)
Example seven_answers :
  map (fun x => bool_decide (is_Some (snd x) : Prop)) (fst (notify_run seven_refusals (office [route "a" "warn" None]))) =
  [true; true; true; true; true; true; false].
Proof. vm_compute. reflexivity. Qed.

Example reminders_released_witness :
  Forall (fun x => reminder_key (snd x) ∈ ({[ "w1/i1" ]} : gset string)) seven_refusals /\
  (tally (refused "w1/i1") (fst (notify_run seven_refusals (office [route "a" "warn" None]))) <= 12)%nat.
Proof.
  assert (Forall (fun x => reminder_key (snd x) ∈ ({[ "w1/i1" ]} : gset string)) seven_refusals) as Hk
    by (repeat constructor; by apply elem_of_singleton_2).
  split; [exact Hk|].
  eapply Nat.le_trans.
  - refine (reminders_released {[ "w1/i1" ]} "w1/i1" seven_refusals dispatcher [route "a" "warn" None] _ Hk _); [by vm_compute|reflexivity].
  - vm_compute. lia.
Defined.

(** ** Divergences *)

(** The six warnings spend the budget an error reminder needs: it reports no
    error, though nobody was told of that incident. *)
Lemma reminder_spent_by_others :
  let w := snd (notify_run six_warnings (office [route "a" "warn" None])) in
  let '(o, err, _) := NotifyWithOutcome (env_at [] (noon + 10 * Minute)) (sev_note "error" "i9" false) w in
  Status o = StatusSuppressed /\ Delivered o = O /\ err = None.
Proof. vm_compute. split_and!; reflexivity. Qed.

(** A route for errors that worked three days ago, and was not needed since, is
    called broken by three errors withheld within a minute. *)
Lemma quiet_route_called_broken :
  let errors := map (fun k => (env_at [] (noon + 10 * Minute + Z.of_nat k), sev_note "error" ("e" +:+ pretty.pretty k) true)) (seq 0 3) in
  let w := snd (notify_run (six_warnings ++ errors) (office [route "a" "warn" None; route "b" "error" (Some 0)])) in
  map (fun c => (c_ID c, HealthStateAt c (noon + 11 * Minute), ConsecutiveFailures c)) (table w) =
  [("a", ChannelHealthHealthy, 0); ("b", ChannelHealthBroken, 0)].
Proof. vm_compute. reflexivity. Qed.

(** Below error the delivery's outcome is not reported at all. *)
Lemma below_error_never_refused n o d : SeverityRank (n_Severity n) < 2 -> deliveryResult n o d = (None, d).
Proof. intros H. unfold deliveryResult. change (SeverityRank "error") with 2. by rewrite (proj2 (Z.ltb_lt _ _) H). Qed.

(** Two notifications of one new incident both claim the interruption. *)
Lemma both_claim :
  let n := {| n_WorkspaceID := "w1"; n_Severity := "critical"; n_TaskID := "t1"; NewIncident := true; TemplateID := "l1";
              n_IncidentID := "i1"; Test_ := false |} in
  let '(c1, d1) := claimHumanIncident n dispatcher in
  let '(c2, _) := claimHumanIncident n d1 in
  is_Some c1 /\ is_Some c2.
Proof. vm_compute. split; eexists; reflexivity. Qed.

(** *** Runs of sections *)

(** A check, or the delivery of the notification that passed last. *)
Inductive board_action := ACheck (f : flight) (now : Z) | ADeliver (now : Z).

Definition board_do (workers : nat) (a : board_action) (b : Board) : option Board :=
  match a with
  | ACheck f now =>
      let '(reason, d) := throttled (f_ws f) (f_key f) (f_severity f) now (b_disp b) in
      if negb (clock b <=? now) then None
      else if bool_decide (reason = "") then
        if (tally (flies (f_ws f) (critical (SeverityRank (f_severity f)))) (inflight b) <? workers)%nat
        then Some {| b_disp := d; inflight := f :: inflight b; deliveries := deliveries b; clock := now |} else None
      else Some {| b_disp := d; inflight := inflight b; deliveries := deliveries b; clock := now |}
  | ADeliver now =>
      match inflight b with
      | f :: l => if clock b <=? now then
          Some {| b_disp := recordNotify (f_ws f) (f_key f) (f_severity f) now (b_disp b); inflight := l;
                  deliveries := deliveries b ++ [delivered_mark f now]; clock := now |} else None
      | [] => None
      end
  end.

Fixpoint board_exec (workers : nat) (l : list board_action) (b : Board) : option Board :=
  match l with [] => Some b | a :: l => match board_do workers a b with Some b => board_exec workers l b | None => None end end.

Lemma board_exec_reach workers l b b' : board_reach workers b -> board_exec workers l b = Some b' -> board_reach workers b'.
Proof.
  revert b. induction l as [|a l IH]; intros b Hr; cbn; [by intros [= <-]|].
  destruct (board_do workers a b) as [b1|] eqn:Hd; [|done]. apply IH. eapply board_next; [exact Hr|].
  destruct a as [f now|now]; unfold board_do in Hd.
  - destruct (throttled _ _ _ _ _) as [reason d] eqn:Ht. destruct (Z.leb_spec (clock b) now); [|done]. cbn [negb] in Hd.
    case_bool_decide as Hre; [subst reason; destruct (Nat.ltb_spec (tally (flies (f_ws f) (critical (SeverityRank (f_severity f)))) (inflight b)) workers)|];
      simplify_eq; [by apply step_pass|by eapply step_withheld].
  - destruct (inflight b) as [|f fl] eqn:Hl; [done|]. destruct (Z.leb_spec (clock b) now); simplify_eq.
    by apply (step_delivered _ _ f [] fl).
Qed.

Definition start : Board := {| b_disp := NewDispatcher ["mesh"]; inflight := []; deliveries := []; clock := 0 |}.

Definition warning (k : nat) : flight := {| f_ws := "w1"; f_key := "i" +:+ pretty.pretty k; f_severity := "warn" |}.

(** [n] warnings one after another, then two that pass before either is sent. *)
Definition one_by_one (n : nat) : list board_action := flat_map (fun k => [ACheck (warning k) (Z.of_nat k); ADeliver (Z.of_nat k)]) (seq 0 n).
Definition two_at_once : list board_action := [ACheck (warning 5) 10; ACheck (warning 6) 11; ADeliver 12; ADeliver 13].

Definition busy (workers : nat) (l : list board_action) : Board := default start (board_exec workers l start).

(** The cap of six is exceeded by the one in flight. *)
Lemma cap_overrun :
  board_reach 2 (busy 2 (one_by_one 5 ++ two_at_once)) /\ in_hour "w1" false 13 (deliveries (busy 2 (one_by_one 5 ++ two_at_once))) = 7%nat.
Proof.
  split; [|vm_compute; reflexivity].
  apply (board_exec_reach 2 (one_by_one 5 ++ two_at_once) start); [apply board_init|vm_compute; reflexivity].
Qed.

Definition full_hour : Board := busy 1 (one_by_one 6).

Lemma full_hour_reach : board_reach 1 full_hour.
Proof. apply (board_exec_reach 1 (one_by_one 6) start); [apply board_init|vm_compute; reflexivity]. Qed.

Example hourly_caps_witness :
  board_reach 1 full_hour /\ (in_hour "w1" false 5 (deliveries full_hour) <= 6)%nat.
Proof. split; [exact full_hour_reach|]. exact (proj1 (hourly_caps 1 full_hour "w1" 5 full_hour_reach)). Defined.

Example withheld_means_told_witness :
  fst (throttled "w1" "i9" "error" 100 (b_disp full_hour)) = "workspace hourly notify cap" /\
  ((exists x, x ∈ deliveries full_hour /\ template_key (d_ws x) (d_key x) = template_key "w1" "i9" /\
     SeverityRank "error" <= mark_rank (d_mark x) /\ 100 - mark_at (d_mark x) < templateCooldown "error") \/
   (budget (critical (SeverityRank "error")) <= in_hour "w1" (critical (SeverityRank "error")) 100 (deliveries full_hour))%nat).
Proof.
  split; [vm_compute; reflexivity|].
  apply (withheld_means_told 1 full_hour 100 "w1" "i9" "error" "workspace hourly notify cap"
           (snd (throttled "w1" "i9" "error" 100 (b_disp full_hour)))).
  - exact full_hour_reach.
  - vm_compute. discriminate.
  - vm_compute. reflexivity.
  - discriminate.
Defined.

Definition three_withheld : list (Env * Notification) :=
  map (fun k => (env_at ["b"] (noon + 10 * Minute + Z.of_nat k), sev_note "error" ("e" +:+ pretty.pretty k) true)) (seq 0 3).

Example dead_route_reported_witness :
  exists c', c' ∈ table (snd (notify_run three_withheld (office [route "b" "error" (Some 0)]))) /\ c_ID c' = "b" /\
    HealthStateAt c' (noon + 11 * Minute) = ChannelHealthBroken.
Proof.
  apply (dead_route_reported three_withheld dispatcher [route "b" "error" (Some 0)] (route "b" "error" (Some 0)) 0
           (noon + 11 * Minute)).
  - reflexivity.
  - apply list_elem_of_here.
  - discriminate.
  - repeat constructor; intros c Hc _; cbn [send env_at fst]; unfold sendWithRetry; cbn; rewrite Hc; vm_compute; discriminate.
  - vm_compute. discriminate.
  - reflexivity.
  - vm_compute. discriminate.
Defined.
