(* ===== verification/Harness.v ===== *)
(** Tool names on their way in: [internal/gateway/client_harness.go],
    [search.go] (the legacy prefix), [fuzzy.go] and the name helpers of
    [handler_tools.go] and [handler_codemode.go].

    A harness that qualifies every tool with the server's name sees short
    aliases; what it calls is mapped back by [resolveHarnessToolName].  A name
    that routes nowhere is compared with the known tools by edit distance. *)

From Stdlib Require Import Ascii String.
From S2P Require Import Prelude GoStrings GoJson.

#[local] Open Scope string_scope.
#[local] Open Scope list_scope.

(** ** Prefixes: search.go *)

Definition BuiltinPrefix := "mcpx__".
Definition SecretPrefix := "secret__".
Definition EmailPrefix := "email__".
Definition MemoryPrefix := "memory__".
Definition TaskPrefix := "task__".
Definition SkillPrefix := "skill__".
Definition legacyBuiltinPrefix := "mcplexer__".

Definition legacyMcpxRenames : list string :=
  ["execute_code"; "search_tools"; "provision_mcp"; "create_addon"; "import_openapi";
   "approve_tool_call"; "deny_tool_call"; "list_pending_approvals"; "reload_server"; "flush_cache"].

Definition normalizeBuiltinName (name : string) : string :=
  match CutPrefix name legacyBuiltinPrefix with
  | Some after => if bool_decide (after ∈ legacyMcpxRenames) then BuiltinPrefix +:+ after else name
  | None => name
  end.

(** ** Tools *)

Record Tool := {
  t_Name : string;
  t_Description : string;
  t_InputSchema : option json;
  t_Extras : list (string * json)
}.

Definition splitNamespace (name : string) : option (string * string) := Cut name "__".

Definition extractOriginalToolName (namespacedTool : string) : string :=
  match Cut namespacedTool "__" with Some (_, after) => after | None => namespacedTool end.

Definition isBuiltinTool (name : string) : bool :=
  let normalized := normalizeBuiltinName name in
  existsb (HasPrefix normalized)
    [BuiltinPrefix; "mesh__"; SecretPrefix; EmailPrefix; MemoryPrefix; TaskPrefix; SkillPrefix].

Definition isMeshTool (name : string) : bool := HasPrefix name "mesh__".

Fixpoint dedupe_loop (seen : list string) (tools : list Tool) : list Tool :=
  match tools with
  | [] => []
  | t :: ts => if bool_decide (t_Name t ∈ seen) then dedupe_loop seen ts
               else t :: dedupe_loop (t_Name t :: seen) ts
  end.

Definition dedupeToolsByName (tools : list Tool) : list Tool := dedupe_loop [] tools.

(** ** Harness names: client_harness.go *)

Definition mcpServerName := "mcplexer".
Definition legacyMCPServerName := "mx".

Inductive HarnessProfile := HarnessDirect | HarnessServerPrefixed.

Definition slimSurfaceHarnessAliases : list (string * string) :=
  [("execute_code", "mcpx__execute_code"); ("search_tools", "mcpx__search_tools");
   ("call_tool", "mcpx__call_tool"); ("prompt", "secret__prompt");
   ("list_refs", "secret__list_refs"); ("retrieve", "mcpx__retrieve")].

Definition lookup_pair (l : list (string * string)) (k : string) : option string :=
  option_map snd (List.find (fun p => bool_decide (fst p = k)) l).

Definition canonicalToHarnessAlias : list (string * string) :=
  map (fun p => (snd p, fst p)) slimSurfaceHarnessAliases.

Definition isPiHarness (lower : string) : bool :=
  if Contains lower "earendil" then true
  else if Contains lower "pi-coding" then true
  else if bool_decide (lower = "pi") then true
  else existsb (HasPrefix lower) ["pi-"; "pi "; "pi_"; "pi/"; "pi."].

Definition harnessProfileForClient (clientType : string) : HarnessProfile :=
  let lower := ToLower (TrimSpace clientType) in
  if bool_decide (lower = "") then HarnessDirect
  else if isPiHarness lower then HarnessDirect
  else if existsb (Contains lower) ["grok"; "cursor"; "windsurf"; "gemini"; "picoclaw"]
  then HarnessServerPrefixed else HarnessDirect.

Definition harnessKeyForClientInfo (name : string) : option string :=
  let lower := ToLower (TrimSpace name) in
  if bool_decide (lower = "") then None
  else if Contains lower "claude" then Some "claude"
  else if Contains lower "codex" then Some "codex"
  else if Contains lower "opencode" then Some "opencode"
  else if Contains lower "gemini" then Some "gemini"
  else if Contains lower "grok" then Some "grok"
  else if Contains lower "mimocode" || Contains lower "mimo" then Some "mimo"
  else if isPiHarness lower then Some "pi" else None.

Definition listed_name (profile : HarnessProfile) (name : string) : string :=
  match profile with
  | HarnessDirect => name
  | HarnessServerPrefixed => default name (lookup_pair canonicalToHarnessAlias name)
  end.

Definition applyHarnessToolListNames (profile : HarnessProfile) (tools : list Tool) : list Tool :=
  map (fun t => {| t_Name := listed_name profile (t_Name t); t_Description := t_Description t;
                   t_InputSchema := t_InputSchema t; t_Extras := t_Extras t |}) tools.

(** One turn of the loop: the first prefix that can be cut. *)
Definition strip_once (name : string) : option string :=
  match CutPrefix name (mcpServerName +:+ "__") with
  | Some after => Some after
  | None => CutPrefix name (legacyMCPServerName +:+ "__")
  end.

(** [fuel] bounds the turns; each cuts at least four bytes. *)
Fixpoint strip_loop (fuel : nat) (name : string) : string :=
  match fuel with
  | O => name
  | S fuel' => match strip_once name with Some after => strip_loop fuel' after | None => name end
  end.

Definition stripMCPServerPrefixes (name : string) : string := strip_loop (String.length name) name.

Definition resolveHarnessToolName (name : string) : string :=
  let name := normalizeBuiltinName name in
  let stripped := stripMCPServerPrefixes name in
  match lookup_pair slimSurfaceHarnessAliases stripped with
  | Some canonical => canonical
  | None => if bool_decide (stripped = name) then name
            else if Contains stripped "__" then stripped
            else mcpServerName +:+ "__" +:+ stripped
  end.

Example resolve_1 : resolveHarnessToolName "mcplexer__mcpx__execute_code" = "mcpx__execute_code".
Proof. reflexivity. Qed.
Example resolve_2 : resolveHarnessToolName "mx__delete_route" = "mcplexer__delete_route".
Proof. reflexivity. Qed.
Example pi_names :
  map isPiHarness ["pi"; "pi.dev"; "@mariozechner/pi-coding-agent"; "raspberry-pi"; "picoclaw"; "copilot"; "pip"]
  = [true; true; true; false; false; false; false].
Proof. reflexivity. Qed.

(** ** Fuzzy matching: fuzzy.go *)

Definition normalizeName (name : string) : string :=
  string_of_list_ascii
    (List.filter (fun c => negb (bool_decide (c = "_"%char)) && negb (bool_decide (c = "-"%char)))
       (list_ascii_of_string (ToLower name))).

(** The cells of [curr] after the first, from the cell to the left and the
    previous row. *)
Fixpoint lev_row (x : ascii) (b : list ascii) (left_ : nat) (prev : list nat) : list nat :=
  match b, prev with
  | y :: b', diag :: ((above :: _) as prev') =>
      let cost := if bool_decide (x = y) then 0 else 1 in
      let v := Nat.min (left_ + 1) (Nat.min (above + 1) (diag + cost)) in
      v :: lev_row x b' v prev'
  | _, _ => []
  end.

Fixpoint lev_loop (i : nat) (a b : list ascii) (prev : list nat) : list nat :=
  match a with
  | [] => prev
  | x :: a' => lev_loop (S i) a' b (i :: lev_row x b i prev)
  end.

Definition levenshtein_bytes (a b : list ascii) : nat :=
  if bool_decide (length a = 0) then length b
  else if bool_decide (length b = 0) then length a
  else List.last (lev_loop 1 a b (seq 0 (S (length b)))) 0.

Definition levenshtein (a b : string) : nat :=
  levenshtein_bytes (list_ascii_of_string a) (list_ascii_of_string b).

(** The second phase: the first tool of least distance below [bestDist]. *)
Fixpoint nearest (normalized : string) (tools : list Tool) (bestDist : nat) (best : option Tool) : option Tool :=
  match tools with
  | [] => best
  | t :: ts =>
      let d := levenshtein normalized (normalizeName (t_Name t)) in
      if (d <? bestDist)%nat then nearest normalized ts d (Some t) else nearest normalized ts bestDist best
  end.

Definition fuzzyThreshold (name : string) : nat := if (8 <? String.length name)%nat then 3 else 2.

Definition fuzzyMatchTool (name : string) (tools : list Tool) : option Tool :=
  let normalized := normalizeName name in
  match List.find (fun t => bool_decide (normalizeName (t_Name t) = normalized)) tools with
  | Some t => Some t
  | None => nearest normalized tools (fuzzyThreshold name + 1) None
  end.

Example lev_kitten : levenshtein "kitten" "sitting" = 3.
Proof. reflexivity. Qed.

(** ** Edit distance: the table computes the length of a shortest edit script *)

(** [edits n a b]: [n] insertions, deletions and substitutions turn [a] into [b]. *)
Inductive edits : nat -> list ascii -> list ascii -> Prop :=
| ed_nil : edits 0 [] []
| ed_keep n x a b : edits n a b -> edits n (x :: a) (x :: b)
| ed_sub n x y a b : edits n a b -> edits (S n) (x :: a) (y :: b)
| ed_del n x a b : edits n a b -> edits (S n) (x :: a) b
| ed_ins n y a b : edits n a b -> edits (S n) a (y :: b).

(** The distance, by recursion on the first characters. *)
Fixpoint dist (a : list ascii) : list ascii -> nat :=
  match a with
  | [] => fun b => length b
  | x :: a' =>
      fix inner b := match b with
                     | [] => S (length a')
                     | y :: b' => Nat.min (inner b' + 1)
                                    (Nat.min (dist a' b + 1) (dist a' b' + (if bool_decide (x = y) then 0 else 1)))
                     end
  end.

Lemma dist_cons x y a b :
  dist (x :: a) (y :: b) =
  Nat.min (dist (x :: a) b + 1)
    (Nat.min (dist a (y :: b) + 1) (dist a b + (if bool_decide (x = y) then 0 else 1))).
Proof. done. Qed.

Lemma dist_nil_r a : dist a [] = length a.
Proof. by destruct a. Qed.

Lemma edits_nil_r a : edits (length a) a [].
Proof. induction a; by constructor. Qed.

Lemma edits_nil_l b : edits (length b) [] b.
Proof. induction b; by constructor. Qed.

Lemma dist_edits a b : edits (dist a b) a b.
Proof.
  revert b. induction a as [|x a IHa]; [apply edits_nil_l|].
  induction b as [|y b IHb]; [rewrite dist_nil_r; apply edits_nil_r|].
  rewrite dist_cons. rewrite !Nat.add_1_r.
  destruct (Nat.min_spec (S (dist (x :: a) b))
    (Nat.min (S (dist a (y :: b))) (dist a b + (if bool_decide (x = y) then 0 else 1)))) as [[_ ->]|[_ ->]].
  { by constructor. }
  destruct (Nat.min_spec (S (dist a (y :: b))) (dist a b + (if bool_decide (x = y) then 0 else 1)))
    as [[_ ->]|[_ ->]]; [by constructor|].
  case_bool_decide as E; [subst; rewrite Nat.add_0_r|rewrite Nat.add_1_r]; by constructor.
Qed.

Lemma dist_least n a b : edits n a b -> dist a b <= n.
Proof.
  induction 1 as [|n x a b H IH|n x y a b H IH|n x a b H IH|n y a b H IH]; [done|..].
  - rewrite dist_cons, bool_decide_eq_true_2 by done. lia.
  - rewrite dist_cons. case_bool_decide; lia.
  - destruct b as [|y b]; [rewrite dist_nil_r in *; cbn; lia|]. rewrite dist_cons. lia.
  - destruct a as [|x a]; [cbn in *; lia|]. rewrite dist_cons. lia.
Qed.

Lemma edits_app n m a b a' b' : edits n a b -> edits m a' b' -> edits (n + m) (a ++ a') (b ++ b').
Proof. intros H H'. induction H; cbn; [done|..]; by constructor. Qed.

Lemma edits_rev n a b : edits n a b -> edits n (rev a) (rev b).
Proof.
  induction 1 as [|n x a b H IH|n x y a b H IH|n x a b H IH|n y a b H IH]; [constructor|..]; cbn [rev].
  - replace n with (n + 0) by lia. apply edits_app; [done|repeat constructor].
  - replace (S n) with (n + 1) by lia. apply edits_app; [done|repeat constructor].
  - replace (S n) with (n + 1) by lia. rewrite <- (app_nil_r (rev b)). apply edits_app; [done|repeat constructor].
  - replace (S n) with (n + 1) by lia. rewrite <- (app_nil_r (rev a)). apply edits_app; [done|repeat constructor].
Qed.

Lemma dist_rev a b : dist (rev a) (rev b) = dist a b.
Proof.
  enough (forall a b, dist (rev a) (rev b) <= dist a b) as H.
  { apply Nat.le_antisymm; [done|]. pose proof (H (rev a) (rev b)) as H'. by rewrite !rev_involutive in H'. }
  intros a' b'. apply dist_least, edits_rev, dist_edits.
Qed.

(** The row the table holds for the reversed prefix [ra] of [a], from the
    reversed prefix [p] of [b] on. *)
Fixpoint row (ra b p : list ascii) : list nat :=
  dist ra p :: match b with [] => [] | y :: b' => row ra b' (y :: p) end.

Lemma lev_row_spec x ra b p : dist (x :: ra) p :: lev_row x b (dist (x :: ra) p) (row ra b p) = row (x :: ra) b p.
Proof.
  revert p. induction b as [|y b IH]; intros p; [done|].
  cbn [row]. f_equal. cbn [lev_row].
  assert (exists r, row ra b (y :: p) = dist ra (y :: p) :: r) as [r Hr] by (destruct b; eauto).
  rewrite Hr, <- Hr, <- (dist_cons x y ra p). apply IH.
Qed.

Lemma lev_loop_spec a b ra : lev_loop (S (length ra)) a b (row ra b []) = row (rev a ++ ra) b [].
Proof.
  revert ra. induction a as [|x a IH]; intros ra; [done|]. cbn [lev_loop rev].
  rewrite <- app_assoc. cbn [app]. rewrite <- (IH (x :: ra)). cbn [length]. f_equal.
  rewrite <- lev_row_spec. by rewrite dist_nil_r.
Qed.

Lemma row_first b p : row [] b p = seq (length p) (S (length b)).
Proof. revert p. induction b as [|y b IH]; intros p; [done|]. cbn [row]. rewrite IH. done. Qed.

Lemma row_last ra b p : List.last (row ra b p) 0 = dist ra (rev b ++ p).
Proof.
  revert p. induction b as [|y b IH]; intros p; [done|]. cbn [rev]. rewrite <- app_assoc. cbn [app].
  rewrite <- IH. cbn [row]. by destruct b.
Qed.

Lemma levenshtein_dist a b : levenshtein_bytes a b = dist a b.
Proof.
  unfold levenshtein_bytes. case_bool_decide as Ha; [by destruct a|].
  case_bool_decide as Hb; [destruct b; [by rewrite dist_nil_r|done]|].
  change (seq 0 (S (length b))) with (seq (@length ascii []) (S (length b))).
  rewrite <- row_first. pose proof (lev_loop_spec a b []) as H. cbn [length] in H. rewrite H.
  rewrite row_last, !app_nil_r. apply dist_rev.
Qed.

(** The two-row table of levenshtein computes the length of a shortest
    script of insertions, deletions and substitutions. *)
Theorem levenshtein_least (a b : string) :
  edits (levenshtein a b) (list_ascii_of_string a) (list_ascii_of_string b) /\
  forall n, edits n (list_ascii_of_string a) (list_ascii_of_string b) -> levenshtein a b <= n.
Proof. unfold levenshtein. rewrite levenshtein_dist. split; [apply dist_edits|intros n; apply dist_least]. Qed.

(** ** What fuzzy matching answers *)

Definition fuzzy_dist (name : string) (t : Tool) : nat :=
  levenshtein (normalizeName name) (normalizeName (t_Name t)).

Lemma nearest_spec norm tools bd best :
  match nearest norm tools bd best with
  | Some t => (best = Some t /\ forall t', t' ∈ tools -> bd <= levenshtein norm (normalizeName (t_Name t'))) \/
              exists pre post, tools = pre ++ t :: post /\ levenshtein norm (normalizeName (t_Name t)) < bd /\
              (forall t', t' ∈ pre -> levenshtein norm (normalizeName (t_Name t)) < levenshtein norm (normalizeName (t_Name t'))) /\
              (forall t', t' ∈ post -> levenshtein norm (normalizeName (t_Name t)) <= levenshtein norm (normalizeName (t_Name t')))
  | None => best = None /\ forall t', t' ∈ tools -> bd <= levenshtein norm (normalizeName (t_Name t'))
  end.
Proof.
  revert bd best. induction tools as [|t0 ts IH]; intros bd best; cbn [nearest].
  { destruct best; [left|]; (split; [done|intros t' Ht'; by apply elem_of_nil in Ht']). }
  destruct (Nat.ltb_spec (levenshtein norm (normalizeName (t_Name t0))) bd) as [Hlt|Hge].
  - specialize (IH (levenshtein norm (normalizeName (t_Name t0))) (Some t0)).
    destruct (nearest _ _ _ _) as [t|]; [|by destruct IH]. right.
    destruct IH as [[[= <-] Hall]|(pre & post & -> & Hd & Hpre & Hpost)].
    + exists [], ts. repeat split; [done|intros t' H; by apply elem_of_nil in H|done].
    + exists (t0 :: pre), post. repeat split; [lia| |done].
      intros t' [->|H]%elem_of_cons; [done|by apply Hpre].
  - specialize (IH bd best). destruct (nearest _ _ _ _) as [t|].
    + destruct IH as [[-> Hall]|(pre & post & -> & Hd & Hpre & Hpost)]; [left|right].
      * split; [done|]. intros t' [->|H]%elem_of_cons; [done|by apply Hall].
      * exists (t0 :: pre), post. repeat split; [done| |done].
        intros t' [->|H]%elem_of_cons; [lia|by apply Hpre].
    + destruct IH as [-> Hall]. split; [done|]. intros t' [->|H]%elem_of_cons; [done|by apply Hall].
Qed.

(** Fuzzy matching answers with the first listed tool that equals the name
    up to case, underscores and hyphens; else with the first of the tools at
    the least edit distance, if that is within the threshold; else with none. *)
Theorem fuzzyMatchTool_spec (name : string) (tools : list Tool) :
  match fuzzyMatchTool name tools with
  | Some t =>
      exists pre post, tools = pre ++ t :: post /\
      (normalizeName (t_Name t) = normalizeName name /\ (forall t', t' ∈ pre -> normalizeName (t_Name t') <> normalizeName name) \/
       (forall t', t' ∈ tools -> normalizeName (t_Name t') <> normalizeName name) /\
       fuzzy_dist name t <= fuzzyThreshold name /\
       (forall t', t' ∈ pre -> fuzzy_dist name t < fuzzy_dist name t') /\
       (forall t', t' ∈ post -> fuzzy_dist name t <= fuzzy_dist name t'))
  | None => forall t', t' ∈ tools -> fuzzyThreshold name < fuzzy_dist name t'
  end.
Proof.
  unfold fuzzyMatchTool. destruct (List.find _ _) as [t|] eqn:E.
  - apply find_Some_split in E as (pre & post & -> & Ht & Hpre). exists pre, post. split; [done|left].
    bool_hyps. split; [done|]. intros t' Hin. rewrite list.Forall_forall in Hpre. specialize (Hpre _ Hin). by bool_hyps.
  - pose proof (nearest_spec (normalizeName name) tools (fuzzyThreshold name + 1) None) as H.
    assert (forall t', t' ∈ tools -> normalizeName (t_Name t') <> normalizeName name) as Hne.
    { intros t' Hin. pose proof (proj1 (find_None_elem _ _) E t' Hin) as H'. cbn in H'. by bool_hyps. }
    unfold fuzzy_dist. destruct (nearest _ _ _ _) as [t|].
    + destruct H as [[? _]|(pre & post & -> & Hd & Hpre & Hpost)]; [done|].
      exists pre, post. split; [done|right]. repeat split; [done|lia|done|done].
    + destruct H as [_ H]. intros t' Hin. specialize (H t' Hin). lia.
Qed.

(** ** Names resolve back *)

Lemma strip_once_shorter (n r : string) : strip_once n = Some r -> (String.length r < String.length n)%nat.
Proof.
  unfold strip_once. destruct (CutPrefix n (mcpServerName +:+ "__")) eqn:E.
  - intros [= ->]. apply CutPrefix_Some in E as ->. rewrite string_length_app.
    change (String.length (mcpServerName +:+ "__")) with 10. lia.
  - intros H. apply CutPrefix_Some in H as ->. rewrite string_length_app.
    change (String.length (legacyMCPServerName +:+ "__")) with 4. lia.
Qed.

Lemma strip_loop_done fuel n : (String.length n <= fuel)%nat -> strip_once (strip_loop fuel n) = None.
Proof.
  revert n. induction fuel as [|fuel IH]; intros n Hl; cbn [strip_loop].
  - destruct (strip_once n) eqn:E; [|done]. apply strip_once_shorter in E. lia.
  - destruct (strip_once n) as [r|] eqn:E; [|done]. apply IH. apply strip_once_shorter in E. lia.
Qed.

Lemma strip_loop_fix fuel n : strip_once n = None -> strip_loop fuel n = n.
Proof. destruct fuel; [done|]. cbn. by intros ->. Qed.

Lemma strip_loop_fuel f1 f2 n :
  (String.length n <= f1)%nat -> (String.length n <= f2)%nat -> strip_loop f1 n = strip_loop f2 n.
Proof.
  revert f2 n. induction f1 as [|f1 IH]; intros f2 n H1 H2.
  - assert (strip_once n = None) as E.
    { destruct (strip_once n) eqn:E; [|done]. apply strip_once_shorter in E. lia. }
    by rewrite !strip_loop_fix.
  - destruct (strip_once n) as [r|] eqn:E; [|by rewrite !strip_loop_fix].
    pose proof (strip_once_shorter _ _ E). destruct f2 as [|f2]; [lia|]. cbn. rewrite E. apply IH; lia.
Qed.

(** The loop ends with a name that carries neither prefix; its turns only cut. *)
Lemma strip_spec n : strip_once (stripMCPServerPrefixes n) = None.
Proof. by apply strip_loop_done. Qed.

Lemma strip_turn n r : strip_once n = Some r -> stripMCPServerPrefixes n = stripMCPServerPrefixes r.
Proof.
  intros E. pose proof (strip_once_shorter _ _ E). unfold stripMCPServerPrefixes.
  destruct (String.length n) as [|k] eqn:Hk; [lia|]. cbn [strip_loop]. rewrite E. apply strip_loop_fuel; lia.
Qed.

Lemma strip_fixed n : strip_once n = None -> stripMCPServerPrefixes n = n.
Proof. apply strip_loop_fix. Qed.

Lemma strip_server s : stripMCPServerPrefixes (mcpServerName +:+ "__" +:+ s) = stripMCPServerPrefixes s.
Proof.
  apply strip_turn. unfold strip_once. by rewrite <- string_app_assoc, (proj2 (CutPrefix_Some _ _ s)).
Qed.

Lemma normalize_cases n :
  normalizeBuiltinName n = n \/
  exists a, a ∈ legacyMcpxRenames /\ n = legacyBuiltinPrefix +:+ a /\ normalizeBuiltinName n = BuiltinPrefix +:+ a.
Proof.
  unfold normalizeBuiltinName. destruct (CutPrefix n legacyBuiltinPrefix) as [a|] eqn:E; [|by left].
  case_bool_decide; [right|by left]. apply CutPrefix_Some in E. eauto.
Qed.

Lemma normalize_not_server n : strip_once n = None -> normalizeBuiltinName n = n.
Proof.
  intros H. destruct (normalize_cases n) as [?|(a & _ & -> & _)]; [done|].
  unfold strip_once in H. change (mcpServerName +:+ "__") with legacyBuiltinPrefix in H.
  by rewrite (proj2 (CutPrefix_Some _ _ a)) in H.
Qed.

Lemma lookup_pair_In l k v : lookup_pair l k = Some v -> (k, v) ∈ l.
Proof.
  unfold lookup_pair. destruct (List.find _ _) as [p|] eqn:E; [|done]. intros [= <-].
  apply find_Some_elem in E as [Hin Hk]. bool_hyps. subst k. by destruct p.
Qed.

(** The possible answers. *)
Inductive canonical : string -> Prop :=
| can_alias k v : (k, v) ∈ slimSurfaceHarnessAliases -> canonical v
| can_plain n : strip_once n = None -> lookup_pair slimSurfaceHarnessAliases n = None -> canonical n
| can_server s : strip_once s = None -> lookup_pair slimSurfaceHarnessAliases s = None ->
    Contains s "__" = false -> canonical (mcpServerName +:+ "__" +:+ s).

Lemma resolve_canonical n : canonical (resolveHarnessToolName n).
Proof.
  unfold resolveHarnessToolName. pose proof (strip_spec (normalizeBuiltinName n)) as Hs.
  destruct (lookup_pair _ (stripMCPServerPrefixes _)) as [v|] eqn:E.
  { eapply can_alias. by apply lookup_pair_In. }
  case_bool_decide as Heq; [rewrite <- Heq; by apply can_plain|].
  destruct (Contains _ _) eqn:Hc; [by apply can_plain|by apply can_server].
Qed.

Lemma resolve_of_canonical n : canonical n -> resolveHarnessToolName n = normalizeBuiltinName n.
Proof.
  intros [k v Hin|m Hs Hl|s Hs Hl Hc].
  - repeat (apply elem_of_cons in Hin as [[= -> ->]|Hin]; [reflexivity|]). by apply elem_of_nil in Hin.
  - unfold resolveHarnessToolName. rewrite (normalize_not_server m Hs), (strip_fixed m Hs), Hl.
    by rewrite bool_decide_eq_true_2.
  - destruct (normalize_cases (mcpServerName +:+ "__" +:+ s)) as [E|(a & Ha & _ & E)];
      unfold resolveHarnessToolName; rewrite E.
    + rewrite strip_server, (strip_fixed s Hs), Hl.
      case_bool_decide as Heq; [done|]. by rewrite Hc.
    + clear E. repeat (apply elem_of_cons in Ha as [->|Ha]; [reflexivity|]). by apply elem_of_nil in Ha.
Qed.

(** Resolving a resolved name changes nothing but a legacy mcplexer name
    of a renamed builtin, which it rewrites as the legacy rule says. *)
Theorem resolve_twice (n : string) :
  resolveHarnessToolName (resolveHarnessToolName n) = normalizeBuiltinName (resolveHarnessToolName n).
Proof. apply resolve_of_canonical, resolve_canonical. Qed.

Example resolve_not_idempotent :
  resolveHarnessToolName "mx__flush_cache" = "mcplexer__flush_cache" /\
  resolveHarnessToolName "mcplexer__flush_cache" = "mcpx__flush_cache".
Proof. by split. Qed.

Definition qualified (tool : string) : string := mcpServerName +:+ "__" +:+ tool.

(** Qualifying with the server's name is not taken for a legacy name when the
    tool is namespaced. *)
Lemma normalize_qualified t :
  Contains t "__" = true -> normalizeBuiltinName (qualified t) = qualified t.
Proof.
  intros Hns. destruct (normalize_cases (qualified t)) as [?|(a & Ha & E & _)]; [done|].
  change (qualified t) with (legacyBuiltinPrefix +:+ t) in E. apply string_app_inj_l in E as ->.
  by repeat (apply elem_of_cons in Ha as [->|Ha]; [done|]); apply elem_of_nil in Ha.
Qed.

Lemma qualified_longer t : t <> qualified t.
Proof. intros E. apply (f_equal String.length) in E. unfold qualified in E. rewrite !string_length_app in E. cbn in E. lia. Qed.

Lemma resolve_qualified t :
  resolveHarnessToolName t = t -> Contains t "__" = true -> resolveHarnessToolName (qualified t) = t.
Proof.
  intros Hres Hns. pose proof (resolve_canonical t) as Hc. rewrite Hres in Hc.
  destruct Hc as [k v Hin|m Hs Hl|s Hs Hl Hc].
  - repeat (apply elem_of_cons in Hin as [[= -> ->]|Hin]; [reflexivity|]). by apply elem_of_nil in Hin.
  - unfold resolveHarnessToolName. cbv zeta. rewrite (normalize_qualified m Hns).
    assert (stripMCPServerPrefixes (qualified m) = m) as -> by (unfold qualified; by rewrite strip_server, strip_fixed).
    rewrite Hl, Hns.
    rewrite bool_decide_eq_false_2; [done|apply qualified_longer].
  - unfold resolveHarnessToolName. cbv zeta. rewrite (normalize_qualified _ Hns).
    unfold qualified. rewrite !strip_server, (strip_fixed s Hs), Hl, Hc.
    rewrite bool_decide_eq_false_2; [done|]. intros E. apply (f_equal String.length) in E.
    rewrite !string_length_app in E. cbn in E. lia.
Qed.

(** A name the gateway may list: namespaced, and either with no server's prefix, or an own
    name of the gateway, mcplexer__ and a bare word that is no alias and was not renamed. *)
Definition listable (tool : string) : bool :=
  Contains tool "__" &&
  match strip_once tool with
  | None => true
  | Some word => HasPrefix tool legacyBuiltinPrefix && negb (Contains word "__") &&
                 negb (bool_decide (word ∈ legacyMcpxRenames)) && negb (bool_decide (is_Some (lookup_pair slimSurfaceHarnessAliases word)))
  end.

Lemma alias_bare k v : (k, v) ∈ slimSurfaceHarnessAliases -> Contains k "__" = false.
Proof. intros H. repeat (apply elem_of_cons in H as [[= -> ->]|H]; [reflexivity|]). by apply elem_of_nil in H. Qed.

Lemma listable_resolves tool : listable tool = true -> Contains tool "__" = true /\ resolveHarnessToolName tool = tool.
Proof.
  unfold listable. intros [Hns H]%andb_prop. split; [done|]. unfold resolveHarnessToolName. destruct (strip_once tool) as [word|] eqn:Es.
  - bool_hyps. match goal with H : HasPrefix _ _ = true |- _ => apply HasPrefix_spec in H as [r ->] end.
    unfold strip_once in Es. change (mcpServerName +:+ "__") with legacyBuiltinPrefix in Es. rewrite (proj2 (CutPrefix_Some _ _ r) eq_refl) in Es.
    injection Es as ->. unfold normalizeBuiltinName. rewrite (proj2 (CutPrefix_Some _ _ word) eq_refl), bool_decide_false by done.
    assert (stripMCPServerPrefixes (legacyBuiltinPrefix +:+ word) = stripMCPServerPrefixes word) as -> by apply strip_server.
    assert (strip_once word = None) as Hw.
    { destruct (strip_once word) as [r|] eqn:E; [|done]. exfalso. enough (Contains word "__" = true) by congruence.
      unfold strip_once in E. apply Contains_spec.
      destruct (CutPrefix word (mcpServerName +:+ "__")) as [r'|] eqn:E1; [apply CutPrefix_Some in E1|apply CutPrefix_Some in E]; subst word;
        [exists mcpServerName, r'|exists legacyMCPServerName, r]; by rewrite string_app_assoc. }
    rewrite (strip_fixed word Hw). destruct (lookup_pair _ word) as [v|]; [exfalso; eauto|].
    case_bool_decide as E; [done|]. by match goal with H : Contains word _ = false |- _ => rewrite H end.
  - rewrite (normalize_not_server tool Es), (strip_fixed tool Es), (bool_decide_true (tool = tool)) by done.
    destruct (lookup_pair _ tool) as [v|] eqn:E; [|done]. apply lookup_pair_In, alias_bare in E. congruence.
Qed.

Example own_names_listable :
  map listable ["mcpx__execute_code"; "mesh__receive"; "task__get"; "secret__prompt"; "mcplexer__create_route"; "gh__create_issue"] =
  repeat true 6.
Proof. reflexivity. Qed.

(** No configuration refuses the namespaces mx and mcplexer to a downstream server: its
    tools are listed under names that resolve to others. *)
Lemma own_namespaces_unreachable :
  resolveHarnessToolName "mx__get_task" = "mcplexer__get_task" /\ resolveHarnessToolName "mcplexer__prompt" = "secret__prompt" /\
  listable "mx__get_task" = false /\ listable "mcplexer__prompt" = false.
Proof. by split_and!. Qed.

(** C29: The names a harness is shown come back: what it sends for a listed tool,
    qualified with the server's name or, for a direct harness, as listed, resolves to
    that tool.  A listed tool is namespaced, and its name starts with neither of the
    server's own prefixes, mcplexer__ and mx__, or is mcplexer__ and a bare word that is no
    alias and was not renamed.  About other names, see [own_namespaces_unreachable]. *)
Theorem harness_roundtrip (profile : HarnessProfile) (tool : string) (Hlist : listable tool = true) :
  resolveHarnessToolName (qualified (listed_name profile tool)) = tool /\
  (profile = HarnessDirect -> resolveHarnessToolName (listed_name profile tool) = tool).
Proof.
  apply listable_resolves in Hlist as [Hns Hres]. split; [|by intros ->]. pose proof (resolve_qualified tool Hres Hns) as Hq.
  destruct profile; [done|]. cbn [listed_name]. destruct (lookup_pair _ tool) as [a|] eqn:E; [|done].
  apply lookup_pair_In in E. clear -E.
  repeat (apply elem_of_cons in E as [[= -> ->]|E]; [reflexivity|]). by apply elem_of_nil in E.
Qed.

Lemma harness_roundtrip_witness :
  resolveHarnessToolName (qualified (listed_name HarnessServerPrefixed "mcpx__call_tool")) = "mcpx__call_tool".
Proof. exact (proj1 (harness_roundtrip HarnessServerPrefixed "mcpx__call_tool" eq_refl)). Defined.
