(* ===== verification/AdminGate.v ===== *)
(** Who sees the admin tools: [internal/gateway/admin_gate.go] and
    [admin_trust.go].

    The gate opens inside the data directory, inside a tree whose go.mod declares
    the gateway's own module, or anywhere when the environment says so;
    [AdminTrustLevel] keeps which of these it was.  The file system is [h_files]:
    what [os.Stat] and [os.ReadFile] return for a readable path (whether it is a
    directory, and its bytes).  The memo of source trees, never invalidated, is
    [devRepoCache]. *)

From Stdlib Require Import Ascii String.
From stdpp Require Import gmap strings.
From S2P Require Import Prelude GoStrings GoFilepath Harness Toolgate.

#[local] Open Scope string_scope.
#[local] Open Scope list_scope.

Record Host := {
  h_allowAnyCWD : string;                       (* MCPLEXER_ADMIN_ALLOW_ANY_CWD *)
  h_files : string -> option (bool * string) }.

Definition mcplexerModulePath := "github.com/don-works/mcplexer".

(** ** Source trees *)

(** The first line that is neither blank nor a comment decides. *)
Fixpoint first_line_declares (lines : list string) : bool :=
  match lines with
  | [] => false
  | line :: rest =>
      let line := TrimSpace line in
      if bool_decide (line = "") || HasPrefix line "//" then first_line_declares rest
      else if bool_decide (line = "module " +:+ mcplexerModulePath) then true
      else if HasPrefix line "module " then false else false
  end.

Definition hasMcplexerGoMod (h : Host) (path : string) : bool :=
  match h_files h path with
  | None => false
  | Some (isDir, data) =>
      if isDir || (4096 <? String.length data)%nat then false
      else first_line_declares (SplitByte data (ascii_of_N 10))
  end.

(** [filepath.Dir]: all but the last element, cleaned. *)
Definition Dir (p : string) : string :=
  Clean (foldr (fun e acc => e +:+ "/" +:+ acc) "" (removelast (SplitByte p slash))).

(** Up from [dir] to the root; a path has no more parents than slashes. *)
Fixpoint source_walk (h : Host) (fuel : nat) (dir : string) : bool :=
  if hasMcplexerGoMod h (Join dir "go.mod") then true
  else
    let parent := Dir dir in
    if bool_decide (parent = dir) then false
    else match fuel with O => false | S fuel' => source_walk h fuel' parent end.

Definition isMcplexerSourceCWD (h : Host) (cwd : string) : bool :=
  if bool_decide (cwd = "") || bool_decide (cwd = ".") then false
  else source_walk h (length (SplitByte cwd slash)) cwd.

(** With the memo of earlier answers. *)
Definition isMcplexerSourceCWD_cached (h : Host) (cwd : string) (devRepoCache : gmap string bool)
    : bool * gmap string bool :=
  if bool_decide (cwd = "") || bool_decide (cwd = ".") then (false, devRepoCache)
  else match devRepoCache !! cwd with
       | Some v => (v, devRepoCache)
       | None => let result := isMcplexerSourceCWD h cwd in (result, <[cwd := result]> devRepoCache)
       end.

(** ** The gate *)

Record AdminCWDGate := { dataDir : string }.

Definition NewAdminCWDGate (dataDir : string) : AdminCWDGate := {| dataDir := Clean dataDir |}.

(** [None] is the nil gate. *)
Definition Enabled (g : option AdminCWDGate) : bool :=
  match g with
  | None => false
  | Some g => negb (bool_decide (dataDir g = "")) && negb (bool_decide (dataDir g = "."))
  end.

Definition adminAnyCWDBypass (h : Host) : bool :=
  bool_decide (ToLower (TrimSpace (h_allowAnyCWD h)) ∈ ["1"; "true"; "yes"; "on"]).

Definition gate_dir (g : option AdminCWDGate) : string := default "" (option_map dataDir g).

Definition IsAdminCWD (h : Host) (g : option AdminCWDGate) (cwd : string) : bool :=
  if negb (Enabled g) then true
  else if adminAnyCWDBypass h then true
  else if bool_decide (cwd = "") then false
  else
    let cleaned := Clean cwd in
    if bool_decide (cleaned = gate_dir g) then true
    else if HasPrefix cleaned (gate_dir g +:+ "/") then true
    else isMcplexerSourceCWD h cleaned.

(** The loop over the workspace roots, which skips empty ones. *)
Fixpoint any_source_root (h : Host) (workspaceRoots : list string) : bool :=
  match workspaceRoots with
  | [] => false
  | root :: rest =>
      if bool_decide (root = "") then any_source_root h rest
      else if isMcplexerSourceCWD h (Clean root) then true
      else any_source_root h rest
  end.

Definition IsAdminContext (h : Host) (g : option AdminCWDGate) (cwd : string) (workspaceRoots : list string) : bool :=
  if negb (Enabled g) then true
  else if IsAdminCWD h g cwd then true
  else any_source_root h workspaceRoots.

Definition FilterAdminTools (h : Host) (g : option AdminCWDGate) (tools : list Tool) (cwd : string)
    (workspaceRoots : list string) : list Tool :=
  if IsAdminContext h g cwd workspaceRoots then tools
  else List.filter (fun t => negb (IsAdminTool (t_Name t))) tools.

(** ** Levels of trust: admin_trust.go *)

Inductive AdminTrust := AdminTrustNone | AdminTrustDataDir | AdminTrustSourceRepo.

#[export] Instance AdminTrust_eq_dec : EqDecision AdminTrust.
Proof. solve_decision. Defined.

Definition AdminTrustLevel (h : Host) (g : option AdminCWDGate) (cwd : string) (workspaceRoots : list string)
    : AdminTrust :=
  if negb (Enabled g) then AdminTrustDataDir
  else
    let cleaned := Clean cwd in
    if negb (bool_decide (cwd = "")) &&
       (bool_decide (cleaned = gate_dir g) || HasPrefix cleaned (gate_dir g +:+ "/"))
    then AdminTrustDataDir
    else
      let sourceRepo := negb (bool_decide (cwd = "")) && isMcplexerSourceCWD h cleaned in
      let sourceRepo :=
        fold_left (fun acc root => if bool_decide (root = "") then acc
                                   else if isMcplexerSourceCWD h (Clean root) then true else acc)
          workspaceRoots sourceRepo in
      if sourceRepo then AdminTrustSourceRepo
      else if adminAnyCWDBypass h then AdminTrustSourceRepo else AdminTrustNone.

Example dir_samples : map Dir ["/a/b"; "/a"; "/"; "a/b"; "a"; "."; "../.."] = ["/a"; "/"; "/"; "a"; "."; "."; ".."].
Proof. vm_compute. reflexivity. Qed.

(** ** Directories above a path *)

Lemma foldr_slash l : l <> [] -> foldr (fun e acc => e +:+ "/" +:+ acc) "" l = join_elems l +:+ "/".
Proof.
  induction l as [|e l IH]; [done|]. intros _. destruct l as [|e' l]; [done|].
  cbn [foldr]. cbn [foldr] in IH. rewrite IH by done. cbn [join_elems]. by rewrite !string_app_assoc.
Qed.

Lemma elems_slash p r :
  GoFilepath.elems (p +:+ "/" +:+ r) = GoFilepath.elems p ++ GoFilepath.elems r.
Proof.
  unfold GoFilepath.elems. change ("/" +:+ r) with (String slash r). by rewrite SplitByte_app_gen, filter_app.
Qed.

Lemma push_empty rooted l stack :
  fold_left (push_elem rooted) (l ++ [""]) stack = fold_left (push_elem rooted) l stack.
Proof. by rewrite fold_left_app. Qed.

(** Cleaning a rooted path and a trailing slash. *)
Lemma Clean_slash l : Forall plain l -> Clean (of_elems true l +:+ "/") = of_elems true l.
Proof.
  intros Hl. assert (IsAbs (of_elems true l +:+ "/") = true) as Ha.
  { unfold of_elems. rewrite string_app_assoc. apply HasPrefix_app. }
  rewrite Clean_rooted by done. f_equal. unfold clean_elems. rewrite Ha.
  change (of_elems true l +:+ "/") with (of_elems true l +:+ String slash "").
  rewrite SplitByte_app_gen. change (SplitByte "" slash) with [""]. rewrite push_empty.
  pose proof (clean_of_elems l Hl) as H. unfold clean_elems in H. by rewrite IsAbs_of_elems in H.
Qed.

Lemma Split_of_elems l : Forall plain l -> l <> [] -> SplitByte (of_elems true l) slash = "" :: l.
Proof.
  intros Hl Hn. change (of_elems true l) with ("" +:+ String slash (join_elems l)).
  by rewrite SplitByte_app_sep, SplitByte_join.
Qed.

Lemma Dir_of_elems l : Forall plain l -> Dir (of_elems true l) = of_elems true (removelast l).
Proof.
  intros Hl. destruct l as [|e l] using rev_ind; [done|]. clear IHl.
  rewrite removelast_last. apply Forall_app in Hl as Hl'. destruct Hl' as [Hk _].
  unfold Dir. rewrite Split_of_elems by (done || by destruct l).
  change ("" :: l ++ [e]) with (("" :: l) ++ [e]). rewrite removelast_last, foldr_slash by done.
  destruct l as [|e' l]; [done|]. by rewrite <- (Clean_slash _ Hk).
Qed.

Lemma of_elems_removelast l : Forall plain l -> of_elems true (removelast l) = of_elems true l <-> l = [].
Proof.
  intros Hl. split; [|by intros ->]. intros E. apply of_elems_inj in E; [|apply Forall_forall|done].
  - destruct l as [|e l] using rev_ind; [done|]. rewrite removelast_last in E.
    apply (f_equal List.length) in E. rewrite length_app in E. simpl in E. lia.
  - intros x Hx. rewrite Forall_forall in Hl. apply Hl. destruct l as [|e l] using rev_ind; [done|].
    rewrite removelast_last in Hx. apply elem_of_app. by left.
Qed.

(** ** Source trees *)

Definition has_go_mod (h : Host) (l : list string) : Prop :=
  hasMcplexerGoMod h (Join (of_elems true l) "go.mod") = true.

Lemma source_walk_iff h fuel l : Forall plain l -> length l <= fuel ->
  source_walk h fuel (of_elems true l) = true <-> exists k, k <= length l /\ has_go_mod h (take k l).
Proof.
  revert l. induction fuel as [|fuel IH]; intros l Hl Hf; unfold has_go_mod in *.
  - destruct l; [|simpl in Hf; lia]. cbn [source_walk].
    destruct (hasMcplexerGoMod h (Join (of_elems true []) "go.mod")) eqn:E.
    + split; [|done]. intros _. by exists 0.
    + rewrite Dir_of_elems by done. rewrite bool_decide_eq_true_2 by done.
      split; [done|]. intros (k & _ & H). rewrite take_nil in H. congruence.
  - cbn [source_walk]. destruct (hasMcplexerGoMod h (Join (of_elems true l) "go.mod")) eqn:E.
    { split; [|done]. intros _. exists (length l). by rewrite firstn_all. }
    rewrite Dir_of_elems by done. case_bool_decide as Hd.
    + apply of_elems_removelast in Hd; [|done]. subst l. split; [done|].
      intros (k & Hk & H). rewrite take_nil in H. congruence.
    + destruct l as [|e l _] using rev_ind; [done|]. rewrite removelast_last in *.
      apply Forall_app in Hl as [Hl _]. rewrite length_app in *. simpl in *.
      rewrite IH by (done || lia). split; intros (k & Hk & H); exists k.
      * split; [lia|]. by rewrite take_app_le.
      * destruct (decide (k = S (length l))) as [->|].
        { rewrite take_ge in H by (rewrite length_app; simpl; lia). congruence. }
        split; [lia|]. by rewrite take_app_le in H by lia.
Qed.

(** A directory counts as source exactly when it or a directory above it
    holds a go.mod that declares the gateway's module: the walk visits every one. *)
Theorem source_tree_iff (h : Host) (cwd : string) (Habs : IsAbs cwd = true) :
  isMcplexerSourceCWD h (Clean cwd) = true <->
  exists k, k <= length (clean_elems cwd) /\ has_go_mod h (take k (clean_elems cwd)).
Proof.
  pose proof (clean_elems_plain cwd Habs) as Hp. unfold isMcplexerSourceCWD. rewrite Clean_rooted by done.
  rewrite !bool_decide_eq_false_2 by done. cbn [orb]. apply source_walk_iff; [done|].
  destruct (clean_elems cwd) as [|e l] eqn:E; [simpl; lia|]. rewrite Split_of_elems by done. simpl. lia.
Qed.

(** The memo answers what a fresh look answers, as long as the files do not change. *)
Lemma cached_transparent h cwd c :
  (forall d v, c !! d = Some v -> v = isMcplexerSourceCWD h d) ->
  let '(v, c') := isMcplexerSourceCWD_cached h cwd c in
  v = isMcplexerSourceCWD h cwd /\ forall d v, c' !! d = Some v -> v = isMcplexerSourceCWD h d.
Proof.
  intros Hc. unfold isMcplexerSourceCWD_cached.
  destruct (bool_decide (cwd = "") || bool_decide (cwd = ".")) eqn:E.
  { split; [|done]. unfold isMcplexerSourceCWD. by rewrite E. }
  destruct (c !! cwd) as [v|] eqn:Ec; [by auto|]. split; [done|].
  intros d v [[<- <-]|[_ Hd]]%lookup_insert_Some; [done|by apply Hc].
Qed.

(** ** What opens the gate *)

Lemma HasPrefix_dir a b : Forall plain a -> Forall plain b -> a <> [] ->
  (of_elems true b = of_elems true a \/ HasPrefix (of_elems true b) (of_elems true a +:+ "/") = true) <->
  a `prefix_of` b.
Proof.
  intros Ha Hb Hn. split.
  - intros [E|[r E]%HasPrefix_spec]; [by apply of_elems_inj in E as ->|].
    apply (f_equal GoFilepath.elems) in E. rewrite string_app_assoc, elems_slash, !elems_of_elems in E by done.
    by exists (GoFilepath.elems r).
  - intros [k ->]. destruct k as [|e k]; [left; by rewrite app_nil_r|right].
    apply HasPrefix_spec. exists (join_elems (e :: k)). clear Hb Ha. unfold of_elems. rewrite !string_app_assoc. f_equal.
    induction a as [|x a IH]; [done|]. destruct a as [|x' a]; [done|]. cbn [app join_elems] in *.
    rewrite !string_app_assoc. do 2 f_equal. by apply IH.
Qed.

(** At or below the data directory, by elements. *)
Definition inside (data cwd : string) : Prop := clean_elems data `prefix_of` clean_elems cwd.

Definition in_source_tree (h : Host) (dir : string) : Prop :=
  exists k, k <= length (clean_elems dir) /\ has_go_mod h (take k (clean_elems dir)).

Lemma any_source_root_iff h roots :
  any_source_root h roots = true <-> exists r, r ∈ roots /\ r <> "" /\ isMcplexerSourceCWD h (Clean r) = true.
Proof.
  induction roots as [|r roots IH]; cbn [any_source_root].
  { split; [done|]. by intros (r & H%elem_of_nil & _). }
  case_bool_decide as Hr; [|destruct (isMcplexerSourceCWD h (Clean r)) eqn:E].
  - rewrite IH. split; intros (x & Hx & Hne & H); exists x; repeat split; try done; [by right|].
    by apply elem_of_cons in Hx as [->|?].
  - split; [|done]. intros _. exists r. repeat split; [by left|done|done].
  - rewrite IH. split; intros (x & Hx & Hne & H); exists x; repeat split; try done; [by right|].
    apply elem_of_cons in Hx as [->|?]; [congruence|done].
Qed.

Lemma data_dir_test data cwd : IsAbs data = true -> IsAbs cwd = true -> clean_elems data <> [] ->
  bool_decide (Clean cwd = Clean data) || HasPrefix (Clean cwd) (Clean data +:+ "/") = true <-> inside data cwd.
Proof.
  intros Hd Hc Hn. rewrite !Clean_rooted by done. unfold inside.
  rewrite <- HasPrefix_dir by (done || by apply clean_elems_plain).
  by rewrite orb_true_iff, bool_decide_eq_true.
Qed.

(** With rooted paths and no break-glass the gate opens exactly for a working
    directory inside the data directory or inside a source tree, or for a workspace
    root inside a source tree. *)
Theorem admin_context_iff (h : Host) (data cwd : string) (roots : list string)
    (Hdata : IsAbs data = true) (Hroot : clean_elems data <> [])
    (Hcwd : cwd = "" \/ IsAbs cwd = true) (Hroots : Forall (fun r => r = "" \/ IsAbs r = true) roots)
    (Hbypass : adminAnyCWDBypass h = false) :
  IsAdminContext h (Some (NewAdminCWDGate data)) cwd roots = true <->
  (cwd <> "" /\ (inside data cwd \/ in_source_tree h cwd)) \/
  (exists r, r ∈ roots /\ r <> "" /\ in_source_tree h r).
Proof.
  unfold IsAdminContext, IsAdminCWD. change (gate_dir (Some (NewAdminCWDGate data))) with (Clean data).
  unfold Enabled. change (dataDir (NewAdminCWDGate data)) with (Clean data).
  rewrite !bool_decide_eq_false_2 by (rewrite Clean_rooted by done; done). cbn [negb andb]. rewrite Hbypass.
  assert (any_source_root h roots = true <-> exists r, r ∈ roots /\ r <> "" /\ in_source_tree h r) as Hany.
  { rewrite any_source_root_iff. rewrite Forall_forall in Hroots.
    split; intros (r & Hin & Hne & H); exists r; (repeat split; [done|done|]);
      (destruct (Hroots r Hin) as [?|Hr]; [done|]); by apply (source_tree_iff h r Hr). }
  case_bool_decide as Hempty.
  { rewrite Hany. split; [by right|]. intros [[? _]|?]; done. }
  destruct Hcwd as [?|Hcwd]; [done|]. pose proof (data_dir_test data cwd Hdata Hcwd Hroot) as Hin.
  pose proof (source_tree_iff h cwd Hcwd) as Hsrc. fold (in_source_tree h cwd) in Hsrc.
  destruct (bool_decide (Clean cwd = Clean data)); cbn [orb] in Hin.
  { split; [|done]. intros _. left. split; [done|left]. by apply Hin. }
  destruct (HasPrefix (Clean cwd) (Clean data +:+ "/")).
  { split; [|done]. intros _. left. split; [done|left]. by apply Hin. }
  destruct (isMcplexerSourceCWD h (Clean cwd)).
  { split; [|done]. intros _. left. split; [done|right]. by apply Hsrc. }
  rewrite Hany. split; [by right|]. intros [[_ [H|H]]|H]; [by apply Hin in H|by apply Hsrc in H|done].
Qed.

(** ** The two answers agree *)

Lemma fold_source h roots b :
  fold_left (fun acc root => if bool_decide (root = "") then acc
                             else if isMcplexerSourceCWD h (Clean root) then true else acc) roots b
  = b || any_source_root h roots.
Proof.
  revert b. induction roots as [|r roots IH]; intros b; cbn [fold_left any_source_root]; [by rewrite orb_false_r|].
  rewrite IH. case_bool_decide; [done|]. destruct (isMcplexerSourceCWD h (Clean r)); [by rewrite orb_true_r|done].
Qed.

(** The level of trust is none exactly when the gate is closed, and it is the
    data-directory level only inside the data directory or without a gate: neither
    a source tree nor the break-glass grants it. *)
Theorem trust_agrees (h : Host) (g : option AdminCWDGate) (cwd : string) (roots : list string) :
  (AdminTrustLevel h g cwd roots = AdminTrustNone <-> IsAdminContext h g cwd roots = false) /\
  (AdminTrustLevel h g cwd roots = AdminTrustDataDir <->
   Enabled g = false \/
   cwd <> "" /\ (Clean cwd = gate_dir g \/ HasPrefix (Clean cwd) (gate_dir g +:+ "/") = true)).
Proof.
  unfold AdminTrustLevel, IsAdminContext, IsAdminCWD. rewrite fold_source.
  destruct (Enabled g); cbn [negb]; [|by split; split; auto].
  case_bool_decide as Hc; cbn [negb andb].
  - destruct (any_source_root h roots), (adminAnyCWDBypass h); cbn; split; split; try done; intros [?|[? _]]; done.
  - case_bool_decide as He; cbn [orb].
    { destruct (adminAnyCWDBypass h); split; split; try done; auto. }
    destruct (HasPrefix _ _) eqn:Hp; cbn [andb].
    { destruct (adminAnyCWDBypass h); split; split; try done; auto. }
    destruct (isMcplexerSourceCWD h (Clean cwd)), (any_source_root h roots), (adminAnyCWDBypass h); cbn;
      split; split; try done; intros [?|[_ [?|?]]]; done.
Qed.

(** Filtering a tool list outside the admin context drops the admin tools and
    nothing else; inside it drops nothing. *)
Theorem FilterAdminTools_spec (h : Host) (g : option AdminCWDGate) (tools : list Tool) (cwd : string)
    (roots : list string) (t : Tool) :
  t ∈ FilterAdminTools h g tools cwd roots <->
  t ∈ tools /\ (IsAdminTool (t_Name t) = true -> IsAdminContext h g cwd roots = true).
Proof.
  unfold FilterAdminTools. destruct (IsAdminContext h g cwd roots).
  - split; [by auto|by intros [? _]].
  - rewrite list_elem_of_In, filter_In, <- list_elem_of_In.
    destruct (IsAdminTool (t_Name t)); split; intros [H1 H2]; split; try done. by discriminate (H2 eq_refl).
Qed.

Definition sample_host : Host := {|
  h_allowAnyCWD := "";
  h_files := fun p => if bool_decide (p = "/src/mcplexer/go.mod")
                      then Some (false, "// comment" +:+ String (ascii_of_N 10) ("module " +:+ mcplexerModulePath))
                      else None |}.

Lemma source_tree_iff_witness : in_source_tree sample_host "/src/mcplexer/internal".
Proof. apply (source_tree_iff sample_host "/src/mcplexer/internal"); vm_compute; reflexivity. Defined.

Lemma admin_context_iff_witness :
  IsAdminContext sample_host (Some (NewAdminCWDGate "/home/u/.mcplexer")) "/home/u/.mcplexer/x" [""; "/p"] = true.
Proof.
  refine (proj2 (admin_context_iff sample_host "/home/u/.mcplexer" "/home/u/.mcplexer/x" [""; "/p"]
                   eq_refl _ (or_intror eq_refl) _ eq_refl) _).
  - done.
  - constructor; [by left|]. constructor; [by right|constructor].
  - left. split; [done|left]. exists ["x"]. reflexivity.
Defined.
