(* ===== verification/Gates.v ===== *)
(** The gates a tool call passes before it is routed or dispatched
    ([internal/gateway/handler_codemode.go], [worker_filesystem_scope.go],
    [worker_workspace_access.go], [skill_capability.go],
    [internal/workers/writeclass]), and their mirror at discovery.

    What a Go context carries for a call is the record [Ctx]; the [with_*]
    functions are the setters.  A gate answers [None] to let the call pass, or
    why it does not. *)

From Stdlib Require Import Ascii String.
From stdpp Require Import strings list.
From S2P Require Import Prelude GoStrings GoJson GoPath Toolgate Harness AdminGate Pathguard Routing.

#[local] Open Scope string_scope.
#[local] Open Scope list_scope.

(** ** Write-class names: writeclass.go *)

Definition writeVerbs : list string :=
  ["create"; "update"; "delete"; "remove"; "post"; "send"; "write"; "publish"; "merge"; "execute";
   "commit"; "approve"; "reject"; "set"; "patch"; "upsert"; "edit"; "drop"; "truncate"; "overwrite";
   "purge"; "archive"; "cancel"; "revoke"; "rename"; "assign"; "disable"; "enable"; "restore"; "add";
   "append"; "import"; "ingest"; "move"; "harvest"].

Definition dangerSubstrings : list string :=
  ["purge_"; "_purge"; "drop_table"; "delete_all"; "force_push"; "truncate_"; "_truncate"].

Definition local_name (name : string) : string := default name (after_last name "__").

Definition hasDangerSubstring (local : string) : bool := existsb (Contains local) dangerSubstrings.

Definition starts_word (s : string) : bool :=
  match s with EmptyString => true | String a _ => bool_decide (a = "_"%char) end.

(** The loop over the positions of [local]; [left_ok] is the left boundary. *)
Fixpoint verb_from (left_ok : bool) (local verb : string) : bool :=
  match CutPrefix local verb with
  | Some r => left_ok && starts_word r
  | None => false
  end ||
  match local with
  | EmptyString => false
  | String a local' => verb_from (bool_decide (a = "_"%char)) local' verb
  end.

Definition verbAppearsAsWord (local verb : string) : bool := verb_from true local verb.

Definition hasSnakeCaseVerbWord (local : string) : bool := existsb (verbAppearsAsWord local) writeVerbs.

Definition camel_verb (local v : string) : bool :=
  if (String.length local <=? String.length v)%nat then false
  else if negb (EqualFold (String.substring 0 (String.length v) local) v) then false
  else match String.get (String.length v) local with Some next => isUpper next | None => false end.

Definition hasCamelCaseVerbPrefix (local : string) : bool := existsb (camel_verb local) writeVerbs.

Definition IsWriteClass (name : string) : bool :=
  let local := local_name (ToLower name) in
  if hasDangerSubstring local then true
  else if hasSnakeCaseVerbWord local then true
  else hasCamelCaseVerbPrefix (local_name name).

Example writeclass_samples :
  map IsWriteClass ["github__create_issue"; "github__createIssue"; "info_purge_logs"; "a__setup"; "a__assets";
                    "notion__archive_page"; "x__address"; "github__list_issues"] =
  [true; true; true; false; false; true; false; false].
Proof. vm_compute. reflexivity. Qed.

(** ** The context of a call *)

Record WorkerWorkspaceGrant := {
  wg_WorkspaceID : string; wg_WorkspaceName : string; wg_RootPath : string; wg_Access : string }.

Record workerWorkspaceAccessContext := {
  PreferredWorkspaceID : string; PreferredRootPath : string; Grants : list WorkerWorkspaceGrant }.

Record Ctx := {
  internalToolCall : bool;
  internalCodeModeCall : bool;
  executionID : string;
  skillID : string;
  skillAllowlist : option (list string);
  workerToolAllowlist : option (list string);
  workerCapability : option CapabilityProfile;
  workerFilesystemScope : option Scope;
  inProcessWorkerCall : bool;
  workerWorkspaceAccess : option workerWorkspaceAccessContext;
  adminTrust : AdminTrust;
  browserSessionID : string }.

Definition Background : Ctx := {|
  internalToolCall := false; internalCodeModeCall := false; executionID := ""; skillID := "";
  skillAllowlist := None; workerToolAllowlist := None; workerCapability := None; workerFilesystemScope := None;
  inProcessWorkerCall := false; workerWorkspaceAccess := None; adminTrust := AdminTrustNone;
  browserSessionID := "" |}.

(** The identity and the scopes of a call, kept by every setter below. *)
Definition with_flags (internal codemode : bool) (exec : string) (trust : AdminTrust) (sid : string) (c : Ctx) : Ctx := {|
  internalToolCall := internal; internalCodeModeCall := codemode; executionID := exec;
  skillID := skillID c; skillAllowlist := skillAllowlist c; workerToolAllowlist := workerToolAllowlist c;
  workerCapability := workerCapability c; workerFilesystemScope := workerFilesystemScope c;
  inProcessWorkerCall := inProcessWorkerCall c; workerWorkspaceAccess := workerWorkspaceAccess c;
  adminTrust := trust; browserSessionID := sid |}.

Definition withInternalToolCall (c : Ctx) : Ctx :=
  with_flags true (internalCodeModeCall c) (executionID c) (adminTrust c) (browserSessionID c) c.

Definition withInternalCodeModeCall (c : Ctx) : Ctx :=
  let c := withInternalToolCall c in
  with_flags (internalToolCall c) true (executionID c) (adminTrust c) (browserSessionID c) c.

Definition withExecutionID (id : string) (c : Ctx) : Ctx :=
  with_flags (internalToolCall c) (internalCodeModeCall c) id (adminTrust c) (browserSessionID c) c.

Definition WithAdminTrust (t : AdminTrust) (c : Ctx) : Ctx :=
  with_flags (internalToolCall c) (internalCodeModeCall c) (executionID c) t (browserSessionID c) c.

Definition WithBrowserSessionID (sid : string) (c : Ctx) : Ctx :=
  with_flags (internalToolCall c) (internalCodeModeCall c) (executionID c) (adminTrust c) sid c.

(** What a scoped caller carries. *)
Definition with_scopes (skill : string) (skills allow : option (list string)) (cap : option CapabilityProfile)
    (fs : option Scope) (inproc : bool) (ws : option workerWorkspaceAccessContext) (c : Ctx) : Ctx := {|
  internalToolCall := internalToolCall c; internalCodeModeCall := internalCodeModeCall c;
  executionID := executionID c; skillID := skill; skillAllowlist := skills; workerToolAllowlist := allow;
  workerCapability := cap; workerFilesystemScope := fs; inProcessWorkerCall := inproc;
  workerWorkspaceAccess := ws; adminTrust := adminTrust c; browserSessionID := browserSessionID c |}.

Definition withSkillID (id : string) (c : Ctx) : Ctx :=
  with_scopes id (skillAllowlist c) (workerToolAllowlist c) (workerCapability c) (workerFilesystemScope c)
    (inProcessWorkerCall c) (workerWorkspaceAccess c) c.

(** A nil list attaches nothing. *)
Definition withSkillAllowlist (allowed : option (list string)) (c : Ctx) : Ctx :=
  match allowed with
  | None => c
  | Some _ => with_scopes (skillID c) allowed (workerToolAllowlist c) (workerCapability c) (workerFilesystemScope c)
                (inProcessWorkerCall c) (workerWorkspaceAccess c) c
  end.

Definition WithWorkerToolAllowlist (allowed : option (list string)) (c : Ctx) : Ctx :=
  match allowed with
  | None => c
  | Some _ => with_scopes (skillID c) (skillAllowlist c) allowed (workerCapability c) (workerFilesystemScope c)
                (inProcessWorkerCall c) (workerWorkspaceAccess c) c
  end.

Definition WithWorkerCapabilityProfile (p : option CapabilityProfile) (c : Ctx) : Ctx :=
  match p with
  | None => c
  | Some _ => with_scopes (skillID c) (skillAllowlist c) (workerToolAllowlist c) p (workerFilesystemScope c)
                (inProcessWorkerCall c) (workerWorkspaceAccess c) c
  end.

Definition WithInProcessWorkerCall (c : Ctx) : Ctx :=
  with_scopes (skillID c) (skillAllowlist c) (workerToolAllowlist c) (workerCapability c) (workerFilesystemScope c)
    true (workerWorkspaceAccess c) c.

(** On error the context is returned unchanged; callers must fail closed. *)
Definition WithWorkerFilesystemScope (fs : FS) (root workingDir : string) (claims : list string) (c : Ctx)
    : Ctx * option scope_error :=
  match New fs root workingDir claims with
  | Err e => (c, Some e)
  | Ok scope => (with_scopes (skillID c) (skillAllowlist c) (workerToolAllowlist c) (workerCapability c) (Some scope)
                   (inProcessWorkerCall c) (workerWorkspaceAccess c) c, None)
  end.

(** ** Gates on the name *)

Inductive denial :=
| NotInWorkerAllowlist (tool : string)
| BlockedByProfile (tool reason : string)
| ErrCapabilityDenied (ns : string)
| UnavailableUnderIsolation (tool : string)
| UntrustedRoute (tool downstream : string)
| WorkspacePathUnderIsolation (tool : string).

Definition callToolName := "mcpx__call_tool".
Definition codeExecuteToolName := "mcpx__execute_code".

(** handler_codemode.go; the routing engine has its own toolPatternMatches. *)
Definition toolPatternMatches (pattern toolName : string) : bool :=
  let pattern := TrimSpace pattern in
  if bool_decide (pattern = "") then false
  else if bool_decide (pattern = toolName) then true
  else if negb (ContainsAny pattern "*?[") then false
  else path_matches pattern toolName.

Definition checkWorkerToolAllowlist (c : Ctx) (toolName : string) : option denial :=
  if bool_decide (toolName = "mcpx__retrieve") || bool_decide (toolName = callToolName) then None
  else match workerToolAllowlist c with
       | None => None
       | Some allowlist => if existsb (fun p => toolPatternMatches p toolName) allowlist then None
                           else Some (NotInWorkerAllowlist toolName)
       end.

Definition checkWorkerCapability (c : Ctx) (toolName : string) : option denial :=
  match workerCapability c with
  | None => None
  | Some _ =>
      let '(ok, reason) := Allows (workerCapability c) toolName (IsWriteClass toolName) in
      if ok then None else Some (BlockedByProfile toolName reason)
  end.

Definition builtinSkillNamespaces : list string := ["mcpx"; "mesh"].

Definition checkSkillAllowlist (c : Ctx) (toolName : string) : option denial :=
  match skillAllowlist c with
  | None => None
  | Some allowlist =>
      match splitNamespace toolName with
      | None => None
      | Some (ns, _) =>
          if bool_decide (ns ∈ builtinSkillNamespaces) then None
          else if existsb (fun allowed => bool_decide (allowed = ns)) allowlist then None
          else Some (ErrCapabilityDenied ns)
      end
  end.

(** ** Worktree isolation: worker_filesystem_scope.go *)

Definition isolatedWorkerSafeTools : list string :=
  ["mcpx__search_tools"; "mcpx__call_tool"; "mcpx__execute_code"; "mcpx__retrieve"; "mcpx__skill_search";
   "mcpx__skill_get"; "mcpx__workspace_read_file"; "mcpx__workspace_list_directory";
   "mcpx__workspace_write_file"; "mcpx__workspace_edit_file"; "mesh__send"; "mesh__receive";
   "mesh__list_peers"; "mesh__list_agents"; "memory__save"; "memory__recall"; "memory__list";
   "task__create"; "task__get"; "task__list"; "task__update"; "task__append_note"].

Definition isolatedWorkerToolAllowed (name : string) : bool := bool_decide (name ∈ isolatedWorkerSafeTools).

Definition isolated (c : Ctx) : bool := bool_decide (is_Some (workerFilesystemScope c)).

Definition guardWorkerFilesystemToolName (c : Ctx) (toolName : string) : option denial :=
  if negb (isolated c) then None
  else if negb (isolatedWorkerToolAllowed toolName) then Some (UnavailableUnderIsolation toolName)
  else None.

Definition expected_builtin (toolName : string) : string :=
  if HasPrefix toolName "mcpx__" then "mcpx-builtin"
  else if HasPrefix toolName "mesh__" then "mesh-builtin"
  else if HasPrefix toolName "memory__" then "memory-builtin"
  else if HasPrefix toolName "task__" then "task-builtin"
  else if HasPrefix toolName "skill__" then "skill-builtin" else "".

Definition guardWorkerFilesystemRoute (c : Ctx) (toolName downstreamID : string) : option denial :=
  if negb (isolated c) then None
  else
    let expected := expected_builtin toolName in
    if bool_decide (expected = "") || negb (bool_decide (downstreamID = expected))
    then Some (UntrustedRoute toolName downstreamID) else None.

(** A request's arguments are [None] when absent, else the JSON value they hold. *)
Definition Args := option json.

(** The one field the guard decodes; another shape of the arguments decodes to nothing. *)
Definition workspace_path_of (raw : Args) : string :=
  match raw with
  | Some (JObj l) => default "" (struct_string l "workspace_path")
  | _ => ""
  end.

Definition guardWorkerFilesystemArgs (c : Ctx) (toolName : string) (raw : Args) : result denial Args :=
  if negb (isolated c) then Ok raw
  else match guardWorkerFilesystemToolName c toolName with
       | Some e => Err e
       | None =>
           if HasPrefix toolName "mesh__" && negb (bool_decide (workspace_path_of raw = ""))
           then Err (WorkspacePathUnderIsolation toolName)
           else Ok raw
       end.

(** ** Discovery: the filters of the tool lists *)

Definition filterByWorkerToolAllowlist (c : Ctx) (tools : list Tool) : list Tool :=
  match workerToolAllowlist c with
  | None => tools
  | Some allowlist =>
      List.filter (fun t => bool_decide (t_Name t = "mcpx__retrieve")
                            || existsb (fun p => toolPatternMatches p (t_Name t)) allowlist) tools
  end.

Definition filterByWorkerCapability (c : Ctx) (tools : list Tool) : list Tool :=
  match workerCapability c with
  | None => tools
  | Some _ => List.filter (fun t => fst (Allows (workerCapability c) (t_Name t) (IsWriteClass (t_Name t)))) tools
  end.

Definition filterByWorkerFilesystemContract (c : Ctx) (tools : list Tool) : list Tool :=
  if negb (isolated c) then tools
  else List.filter (fun t => isolatedWorkerToolAllowed (t_Name t)) tools.

(** What of a session the gates read. *)
Record Session := {
  s_ID : string; s_clientRoot : string; s_workspaceRoots : list string; s_adminTrusted : bool;
  s_workspaceID : string; s_workspaceName : string; s_ancestors : list WorkspaceAncestor }.

Definition filterAdminToolsForContext (h : Host) (g : option AdminCWDGate) (s : Session) (c : Ctx)
    (tools : list Tool) : list Tool :=
  match g with
  | None => tools
  | Some _ => if inProcessWorkerCall c || s_adminTrusted s then tools
              else FilterAdminTools h g tools (s_clientRoot s) (s_workspaceRoots s)
  end.

(** codeModeToolDefs, after the lists are gathered. *)
Definition codeModeToolDefs (h : Host) (g : option AdminCWDGate) (s : Session) (c : Ctx)
    (gathered searchable : list Tool) : list Tool :=
  let tools := dedupeToolsByName (gathered ++ searchable) in
  let tools := filterByWorkerToolAllowlist c tools in
  let tools := filterByWorkerCapability c tools in
  let tools := filterByWorkerFilesystemContract c tools in
  filterAdminToolsForContext h g s c tools.

(** The test of handleToolsCall on an admin tool. *)
Definition admin_refused (h : Host) (g : option AdminCWDGate) (s : Session) (c : Ctx) (name : string) : bool :=
  bool_decide (is_Some g) && IsAdminTool name && negb (inProcessWorkerCall c) && negb (s_adminTrusted s)
  && negb (IsAdminContext h g (s_clientRoot s) (s_workspaceRoots s)).

Definition adminTrustLevel (h : Host) (g : option AdminCWDGate) (s : Session) (c : Ctx) : AdminTrust :=
  if inProcessWorkerCall c || s_adminTrusted s then AdminTrustDataDir
  else AdminTrustLevel h g (s_clientRoot s) (s_workspaceRoots s).

(** ** Workspace grants: worker_workspace_access.go *)

Definition globalWorkspaceID := "global".

Definition grantCanRead (access : string) : bool :=
  bool_decide (TrimSpace access = "read") || bool_decide (TrimSpace access = "write").

Definition grantCanWrite (access : string) : bool := bool_decide (TrimSpace access = "write").

Definition trim_grant (g : WorkerWorkspaceGrant) : WorkerWorkspaceGrant := {|
  wg_WorkspaceID := TrimSpace (wg_WorkspaceID g); wg_WorkspaceName := wg_WorkspaceName g;
  wg_RootPath := wg_RootPath g; wg_Access := TrimSpace (wg_Access g) |}.

(** The first loop: trimmed, blank and repeated ids dropped. *)
Fixpoint unique_grants (seen : list string) (grants : list WorkerWorkspaceGrant) : list WorkerWorkspaceGrant :=
  match grants with
  | [] => []
  | g :: gs =>
      let g := trim_grant g in
      if bool_decide (wg_WorkspaceID g = "") || bool_decide (wg_WorkspaceID g ∈ seen)
      then unique_grants seen gs
      else g :: unique_grants (wg_WorkspaceID g :: seen) gs
  end.

Definition preferred_root (preferred : string) (cp : list WorkerWorkspaceGrant) : string :=
  default "" (option_map wg_RootPath (List.find (fun g => bool_decide (wg_WorkspaceID g = preferred)) cp)).

(** The second loop: the preferred grant is swapped to the front. *)
Fixpoint swap_front (head : WorkerWorkspaceGrant) (before rest : list WorkerWorkspaceGrant) (preferred : string)
    : list WorkerWorkspaceGrant :=
  match rest with
  | [] => head :: rev before
  | g :: gs => if bool_decide (wg_WorkspaceID g = preferred) then g :: rev before ++ head :: gs
               else swap_front head (g :: before) gs preferred
  end.

Definition preferred_first (preferred : string) (cp : list WorkerWorkspaceGrant) : list WorkerWorkspaceGrant :=
  match cp with
  | [] => []
  | g :: gs => if bool_decide (wg_WorkspaceID g = preferred) then cp else swap_front g [] gs preferred
  end.

Definition WithWorkerWorkspaceAccess (preferredWorkspaceID : string) (grants : list WorkerWorkspaceGrant) (c : Ctx)
    : Ctx :=
  let preferred := TrimSpace preferredWorkspaceID in
  let cp := unique_grants [] grants in
  with_scopes (skillID c) (skillAllowlist c) (workerToolAllowlist c) (workerCapability c) (workerFilesystemScope c)
    (inProcessWorkerCall c)
    (Some {| PreferredWorkspaceID := preferred; PreferredRootPath := preferred_root preferred cp;
             Grants := preferred_first preferred cp |}) c.

Definition currentWorkspaceID (s : Session) (c : Ctx) : string :=
  match workerWorkspaceAccess c with
  | Some a => if bool_decide (PreferredWorkspaceID a = "") then s_workspaceID s else PreferredWorkspaceID a
  | None => s_workspaceID s
  end.

Definition routingClientRoot (s : Session) (c : Ctx) : string :=
  match workerWorkspaceAccess c with
  | Some a => if bool_decide (PreferredRootPath a = "") then s_clientRoot s else PreferredRootPath a
  | None => s_clientRoot s
  end.

Definition ancestor_of (g : WorkerWorkspaceGrant) : WorkspaceAncestor :=
  {| ws_ID := wg_WorkspaceID g; ws_Name := wg_WorkspaceName g; ws_RootPath := wg_RootPath g |}.

Definition routingWorkspaceAncestors (s : Session) (c : Ctx) : list WorkspaceAncestor :=
  match workerWorkspaceAccess c with
  | Some a =>
      let readable := List.filter (fun g => grantCanRead (wg_Access g)) (Grants a) in
      map ancestor_of readable ++
      (if existsb (fun g => bool_decide (wg_WorkspaceID g = globalWorkspaceID)) readable then []
       else [{| ws_ID := globalWorkspaceID; ws_Name := "Global"; ws_RootPath := "" |}])
  | None => s_ancestors s
  end.

Definition readableWorkspaceIDs (s : Session) (c : Ctx) : list string :=
  match workerWorkspaceAccess c with
  | Some a => map wg_WorkspaceID (List.filter (fun g => grantCanRead (wg_Access g) && negb (bool_decide (wg_WorkspaceID g = ""))) (Grants a))
  | None => map ws_ID (List.filter (fun a => negb (bool_decide (ws_ID a = ""))) (s_ancestors s))
  end.

Inductive access_error := ReadOnlyGrant (ws : string) | NotGranted (write : bool) (ws : string).

Fixpoint grant_loop (grants : list WorkerWorkspaceGrant) (workspaceID : string) (write : bool) : option access_error :=
  match grants with
  | [] => Some (NotGranted write workspaceID)
  | g :: gs =>
      if negb (bool_decide (wg_WorkspaceID g = workspaceID)) then grant_loop gs workspaceID write
      else if write && negb (grantCanWrite (wg_Access g)) then Some (ReadOnlyGrant workspaceID)
      else if grantCanRead (wg_Access g) then None
      else grant_loop gs workspaceID write
  end.

Definition requireWorkerWorkspaceAccess (c : Ctx) (workspaceID : string) (write : bool) : option access_error :=
  match workerWorkspaceAccess c with
  | None => None
  | Some a => if bool_decide (TrimSpace workspaceID = "") then None else grant_loop (Grants a) workspaceID write
  end.

(** ** Read-only tools and route access *)

Definition builtinDownstreamIDs : list string :=
  map (fun ns => ns +:+ "-builtin")
    ["mcpx"; "mesh"; "secret"; "email"; "memory"; "task"; "skill"; "brain"; "data"; "kv"; "index"; "monitoring"].

Definition is_string_or_null (v : json) : bool := match v with JStr _ | JNull => true | _ => false end.
Definition is_bool_or_null (v : json) : bool := match v with JBool _ | JNull => true | _ => false end.

(** A key of a struct is matched up to case; [None] is a decoding error. *)
Definition annotation_ok (p : string * json) : bool :=
  if EqualFold (fst p) "title" then is_string_or_null (snd p)
  else if existsb (EqualFold (fst p)) ["readOnlyHint"; "destructiveHint"; "idempotentHint"; "openWorldHint"]
  then is_bool_or_null (snd p) else true.

Definition toolReadOnlyFromAnnotations (t : Tool) : bool :=
  match object_get (t_Extras t) "annotations" with
  | Some (JObj l) =>
      forallb annotation_ok l &&
      fold_left (fun acc '(k, v) => if EqualFold k "readOnlyHint"
                                    then match v with JBool b => b | _ => false end else acc) l false
  | _ => false
  end.

(** [builtins] and [searchable] are the definitions buildAllBuiltinTools and
    searchableBuiltins assemble. *)
Definition isGatewayReadOnlyTool (builtins searchable : list Tool) (toolName : string) : bool :=
  match List.find (fun t => bool_decide (t_Name t = toolName)) builtins with
  | Some t => toolReadOnlyFromAnnotations t
  | None => match List.find (fun t => bool_decide (t_Name t = toolName)) searchable with
            | Some t => toolReadOnlyFromAnnotations t
            | None => false
            end
  end.

(** One entry of a capabilities cache: its name and annotations. *)
Definition decode_capability (v : json) : option (string * option (list (string * json))) :=
  match v with
  | JNull => Some ("", None)
  | JObj l =>
      name ← struct_string l "name";
      ann ← fold_left (fun acc '(k, w) =>
              cur ← acc;
              if EqualFold k "annotations"
              then match w with JObj m => Some (Some (default [] cur ++ m)) | JNull => Some None | _ => None end
              else Some cur) l (Some None);
      Some (name, ann)
  | _ => None
  end.

Definition decode_capabilities (raw : string) : option (list (string * option (list (string * json)))) :=
  v ← json_parse raw;
  match v with
  | JNull => Some []
  | JObj l =>
      fold_left (fun acc '(k, w) =>
        cur ← acc;
        if EqualFold k "tools"
        then match w with JArr ts => mapM decode_capability ts | JNull => Some [] | _ => None end
        else Some cur) l (Some [])
  | _ => None
  end.

(** [caps] is the server's CapabilitiesCache, [None] when the server is not found. *)
Definition isReadOnlyTool (caps : option string) (toolName : string) : bool :=
  match caps with
  | None => false
  | Some raw =>
      if bool_decide (raw = "") then false
      else match decode_capabilities raw with
           | None => false
           | Some ts =>
               match List.find (fun t => bool_decide (fst t = toolName)) ts with
               | Some (_, Some ann) =>
                   match object_get ann "readOnlyHint" with Some (JBool b) => b | _ => false end
               | _ => false
               end
           end
  end.

Example read_only_sample :
  let caps := requote "{'tools':[{'name':'list','annotations':{'readOnlyHint':true}},{'name':'add'}]}" in
  (isReadOnlyTool (Some caps) "list", isReadOnlyTool (Some caps) "add", isReadOnlyTool (Some caps) "x") = (true, false, false).
Proof. vm_compute. reflexivity. Qed.

Definition is_builtin_route (downstreamID : string) : bool := bool_decide (downstreamID ∈ builtinDownstreamIDs).

(** The workspace a route is checked against. *)
Definition effective_workspace (a : workerWorkspaceAccessContext) (downstreamID wsID : string) : string :=
  if is_builtin_route downstreamID && bool_decide (wsID = globalWorkspaceID)
     && negb (bool_decide (PreferredWorkspaceID a = ""))
  then PreferredWorkspaceID a else wsID.

Definition enforceWorkerRouteAccess (builtins searchable : list Tool) (caps : string -> option string) (c : Ctx)
    (toolName originalTool : string) (r : RouteResult) : option access_error :=
  match workerWorkspaceAccess c with
  | None => None
  | Some a =>
      let wsID := res_MatchedWorkspaceID r in
      if bool_decide (wsID = "") then None
      else
        let readOnly := if is_builtin_route (res_DownstreamServerID r)
                        then isGatewayReadOnlyTool builtins searchable toolName
                        else isReadOnlyTool (caps (res_DownstreamServerID r)) originalTool in
        requireWorkerWorkspaceAccess c (effective_workspace a (res_DownstreamServerID r) wsID) (negb readOnly)
  end.

(** ** Write-class names are found by whole words *)

Lemma verb_from_iff local verb left_ok : verb <> "" ->
  verb_from left_ok local verb = true <->
  exists pre post, local = pre +:+ verb +:+ post /\ starts_word post = true /\
    (pre = "" /\ left_ok = true \/ exists p, pre = p +:+ "_").
Proof.
  intros Hv. revert left_ok. induction local as [|a local IH]; intros left_ok; cbn [verb_from].
  - rewrite orb_false_r. split.
    + destruct (CutPrefix "" verb) as [r|] eqn:E; [|done]. apply CutPrefix_Some in E. by destruct verb.
    + intros (pre & post & E & _). destruct pre, verb; done.
  - rewrite orb_true_iff, IH. split.
    + intros [H|(pre & post & -> & Hp & Hl)].
      * destruct (CutPrefix (String a local) verb) as [r|] eqn:E; [|done].
        apply CutPrefix_Some in E. bool_hyps. exists "", r. rewrite string_app_nil_l. auto.
      * exists (String a pre), post. rewrite string_app_cons. split; [done|]. split; [done|]. right.
        destruct Hl as [[-> Ha]|[p ->]]; [bool_hyps; subst; by exists ""|]. by exists (String a p).
    + intros (pre & post & E & Hp & Hl). destruct pre as [|b pre].
      * left. rewrite string_app_nil_l in E. rewrite E, (proj2 (CutPrefix_Some _ _ post)) by done.
        destruct Hl as [[_ ->]|[p Hp']]; [done|]. by destruct p.
      * rewrite string_app_cons in E. injection E as <- E. right. exists pre, post. repeat split; [done|done|].
        destruct Hl as [[? _]|[p Hp']]; [done|]. destruct p as [|c p].
        -- injection Hp' as -> ->. left. by rewrite bool_decide_eq_true_2.
        -- rewrite string_app_cons in Hp'. injection Hp' as <- ->. right. eauto.
Qed.

(** A verb is found in a tool's local name exactly where it stands as a whole
    snake_case word. *)
Theorem verbAppearsAsWord_iff (local verb : string) (Hv : verb <> "") :
  verbAppearsAsWord local verb = true <->
  exists pre post, local = pre +:+ verb +:+ post /\
    (pre = "" \/ exists p, pre = p +:+ "_") /\ (post = "" \/ exists q, post = "_" +:+ q).
Proof.
  unfold verbAppearsAsWord. rewrite verb_from_iff by done.
  assert (forall s, starts_word s = true <-> s = "" \/ exists q, s = "_" +:+ q) as Hw.
  { intros [|a s]; [by split; auto|]. cbn. rewrite bool_decide_eq_true. split.
    - intros ->. right. by exists s.
    - intros [?|[q Hq]]; [done|]. by injection Hq. }
  split; intros (pre & post & -> & H1 & H2).
  - exists pre, post. split; [done|]. split; [tauto|by apply Hw].
  - exists pre, post. split; [done|]. split; [by apply Hw|]. destruct H1 as [->|?]; auto.
Qed.

Lemma verbAppearsAsWord_iff_witness : verbAppearsAsWord "info_send_logs" "send" = true.
Proof.
  apply (verbAppearsAsWord_iff "info_send_logs" "send"); [done|]. exists "info_", "_logs".
  split; [reflexivity|]. split; right; [by exists "info"|by exists "logs"].
Defined.

(** ** Discovery shows what dispatch admits *)

Lemma filter_elem {A} (f : A -> bool) l x : x ∈ List.filter f l <-> x ∈ l /\ f x = true.
Proof. by rewrite !list_elem_of_In, filter_In. Qed.

Lemma filter_capability_elem c tools t :
  t ∈ filterByWorkerCapability c tools <-> t ∈ tools /\ checkWorkerCapability c (t_Name t) = None.
Proof.
  unfold filterByWorkerCapability, checkWorkerCapability. destruct (workerCapability c); [|tauto].
  rewrite filter_elem. destruct (Allows _ _ _) as [[|] r]; cbn [fst]; intuition discriminate.
Qed.

Lemma filter_isolation_elem c tools t :
  t ∈ filterByWorkerFilesystemContract c tools <-> t ∈ tools /\ guardWorkerFilesystemToolName c (t_Name t) = None.
Proof.
  unfold filterByWorkerFilesystemContract, guardWorkerFilesystemToolName. destruct (isolated c); cbn [negb]; [|tauto].
  rewrite filter_elem. destruct (isolatedWorkerToolAllowed _); cbn [negb]; intuition discriminate.
Qed.

Lemma filter_allowlist_elem c tools t :
  t ∈ filterByWorkerToolAllowlist c tools <->
  t ∈ tools /\ checkWorkerToolAllowlist c (t_Name t) = None /\
  (t_Name t = callToolName -> forall l, workerToolAllowlist c = Some l -> existsb (fun p => toolPatternMatches p callToolName) l = true).
Proof.
  unfold filterByWorkerToolAllowlist, checkWorkerToolAllowlist. destruct (workerToolAllowlist c) as [l|].
  - rewrite filter_elem, orb_true_iff, bool_decide_eq_true.
    destruct (bool_decide_reflect (t_Name t = "mcpx__retrieve")) as [E|E]; cbn [orb].
    { rewrite E. intuition discriminate. }
    destruct (bool_decide_reflect (t_Name t = callToolName)) as [E'|E'].
    + rewrite E'. split; [intros [? [?|H]]; [done|]; repeat split; [done|]; by intros _ l' [= <-]|].
      intros (? & _ & H). split; [done|right]. by apply (H eq_refl).
    + destruct (existsb _ l); intuition (try discriminate; try done).
  - destruct (_ || _); intuition (try discriminate; try done).
Qed.

Lemma filter_admin_elem h g s c tools t :
  t ∈ filterAdminToolsForContext h g s c tools <-> t ∈ tools /\ admin_refused h g s c (t_Name t) = false.
Proof.
  unfold filterAdminToolsForContext, admin_refused. destruct g as [g|].
  - rewrite (bool_decide_eq_true_2 (is_Some (Some g))) by eauto.
    destruct (inProcessWorkerCall c); cbn [orb negb]; [by rewrite andb_false_r; intuition|].
    destruct (s_adminTrusted s); cbn [orb negb]; [by rewrite !andb_false_r; intuition|].
    rewrite FilterAdminTools_spec. destruct (IsAdminTool (t_Name t)), (IsAdminContext _ _ _ _); cbn; intuition discriminate.
  - rewrite bool_decide_eq_false_2 by (intros [? ?]; done). cbn [andb]. intuition.
Qed.

Lemma dedupe_loop_elem seen tools t :
  t ∈ dedupe_loop seen tools <->
  exists pre post, tools = pre ++ t :: post /\ (t_Name t ∉ seen) /\ t_Name t ∉ map t_Name pre.
Proof.
  revert seen. induction tools as [|u tools IH]; intros seen; cbn [dedupe_loop].
  - split; [by intros ?%elem_of_nil|]. by intros ([] & ? & ? & _).
  - case_bool_decide as Hs.
    + rewrite IH. split; intros (pre & post & E & Hn & Hp).
      * subst. exists (u :: pre), post. repeat split; [done|]. cbn. rewrite elem_of_cons. intros [E|?]; [|done].
        by rewrite E in Hn.
      * destruct pre as [|v pre]; [by injection E as -> ->|]. injection E as -> ->. exists pre, post.
        repeat split; [done|]. cbn in Hp. rewrite elem_of_cons in Hp. tauto.
    + rewrite elem_of_cons, IH. split.
      * intros [->|(pre & post & -> & Hn & Hp)]; [by exists [], tools; repeat split; [|apply not_elem_of_nil]|].
        exists (u :: pre), post. rewrite elem_of_cons in Hn. repeat split; [tauto|]. cbn. rewrite elem_of_cons. tauto.
      * intros ([|v pre] & post & E & Hn & Hp); [injection E as -> ->; by left|]. injection E as -> ->. right.
        exists pre, post. cbn in Hp. rewrite elem_of_cons in *. tauto.
Qed.

(** A tool is offered to sandbox code exactly when it is the first of its
    name among those gathered and the name passes every gate a call of it meets
    by context: the worker's allowlist, the capability profile, isolation and the
    admin gate; for the call wrapper, which the call side exempts, the allowlist
    has to name it. *)
Theorem discovery_mirrors_dispatch (h : Host) (g : option AdminCWDGate) (s : Session) (c : Ctx)
    (gathered searchable : list Tool) (t : Tool) :
  t ∈ codeModeToolDefs h g s c gathered searchable <->
  (exists pre post, gathered ++ searchable = pre ++ t :: post /\ t_Name t ∉ map t_Name pre) /\
  checkWorkerToolAllowlist c (t_Name t) = None /\ checkWorkerCapability c (t_Name t) = None /\
  guardWorkerFilesystemToolName c (t_Name t) = None /\ admin_refused h g s c (t_Name t) = false /\
  (t_Name t = callToolName -> forall l, workerToolAllowlist c = Some l -> existsb (fun p => toolPatternMatches p callToolName) l = true).
Proof.
  unfold codeModeToolDefs, dedupeToolsByName.
  rewrite filter_admin_elem, filter_isolation_elem, filter_capability_elem, filter_allowlist_elem, dedupe_loop_elem.
  pose proof (not_elem_of_nil (t_Name t)). split.
  - intros [[[[(pre & post & ? & _ & ?) [? ?]] ?] ?] ?]. eauto 10.
  - intros [(pre & post & ? & ?) (? & ? & ? & ? & ?)]. split_and!; try done. by exists pre, post.
Qed.

(** ** Workspace grants *)

Definition grant_ids (l : list WorkerWorkspaceGrant) : list string := map wg_WorkspaceID l.

Lemma unique_grants_spec seen grants :
  NoDup (grant_ids (unique_grants seen grants)) /\
  forall g', g' ∈ unique_grants seen grants <->
    exists pre g post, grants = (pre ++ g :: post)%list /\ g' = trim_grant g /\ wg_WorkspaceID g' <> "" /\
      (wg_WorkspaceID g' ∉ seen) /\ wg_WorkspaceID g' ∉ map (fun x => TrimSpace (wg_WorkspaceID x)) pre.
Proof.
  revert seen. induction grants as [|g gs IH]; intros seen; cbn [unique_grants].
  { split; [constructor|]. intros g'. split; [by intros ?%elem_of_nil|]. by intros ([] & ? & ? & ? & _). }
  destruct (bool_decide_reflect (wg_WorkspaceID (trim_grant g) = "")) as [Hb|Hb]; cbn [orb];
    [|case_bool_decide as Hs].
  - destruct (IH seen) as [Hnd Hin]. split; [done|]. intros g'. rewrite Hin. split; intros (pre & x & post & E & -> & Hne & Hns & Hp).
    + subst. exists (g :: pre), x, post. repeat split; try done. cbn. rewrite elem_of_cons. intros [Eq|?]; [|done].
      apply Hne. cbn. by rewrite Eq.
    + destruct pre as [|y pre]; [injection E as -> ->; done|]. injection E as -> ->. exists pre, x, post.
      cbn in Hp. rewrite elem_of_cons in Hp. repeat split; tauto.
  - destruct (IH seen) as [Hnd Hin]. split; [done|]. intros g'. rewrite Hin. split; intros (pre & x & post & E & -> & Hne & Hns & Hp).
    + subst. exists (g :: pre), x, post. repeat split; try done. cbn. rewrite elem_of_cons. intros [Eq|?]; [|done].
      apply Hns. cbn. by rewrite Eq.
    + destruct pre as [|y pre]; [injection E as -> ->; done|]. injection E as -> ->. exists pre, x, post.
      cbn in Hp. rewrite elem_of_cons in Hp. repeat split; tauto.
  - destruct (IH (wg_WorkspaceID (trim_grant g) :: seen)) as [Hnd Hin]. split.
    + constructor; [|done]. intros (y & Ey & Hy)%list_elem_of_fmap.
      apply Hin in Hy as (pre & x & post & _ & -> & _ & Hns & _). rewrite <- Ey in Hns. rewrite elem_of_cons in Hns. tauto.
    + intros g'. rewrite elem_of_cons, Hin. split.
      * intros [->|(pre & x & post & -> & -> & Hne & Hns & Hp)].
        { exists [], g, gs. repeat split; try done. apply not_elem_of_nil. }
        rewrite elem_of_cons in Hns. exists (g :: pre), x, post. repeat split; [done|tauto|].
        cbn. rewrite elem_of_cons. tauto.
      * intros ([|y pre] & x & post & E & -> & Hne & Hns & Hp); [injection E as -> ->; by left|].
        injection E as -> ->. right. exists pre, x, post. cbn in Hp. rewrite elem_of_cons in *. repeat split; tauto.
Qed.

Lemma swap_front_perm head before rest p : swap_front head before rest p ≡ₚ head :: rev before ++ rest.
Proof.
  revert before. induction rest as [|g gs IH]; intros before; cbn [swap_front]; [by rewrite app_nil_r|].
  case_bool_decide.
  - rewrite <- !Permutation_middle. apply perm_swap.
  - rewrite IH. cbn [rev]. by rewrite <- app_assoc.
Qed.

Lemma preferred_first_perm p l : preferred_first p l ≡ₚ l.
Proof. destruct l as [|g gs]; [done|]. cbn [preferred_first]. case_bool_decide; [done|]. apply swap_front_perm. Qed.

Lemma canWrite_canRead a : grantCanWrite a = true -> grantCanRead a = true.
Proof. unfold grantCanWrite, grantCanRead. intros ->. apply orb_true_r. Qed.

Lemma grant_loop_iff grants ws write : NoDup (grant_ids grants) ->
  grant_loop grants ws write = None <->
  exists g, g ∈ grants /\ wg_WorkspaceID g = ws /\ grantCanRead (wg_Access g) = true /\
    (write = true -> grantCanWrite (wg_Access g) = true).
Proof.
  induction grants as [|g gs IH]; cbn [grant_loop grant_ids map].
  { intros _. split; [done|]. by intros (? & ?%elem_of_nil & _). }
  intros [Hn Hnd]%NoDup_cons. specialize (IH Hnd).
  destruct (bool_decide_reflect (wg_WorkspaceID g = ws)) as [E|E]; cbn [negb].
  - assert (forall x, x ∈ gs -> wg_WorkspaceID x <> ws) as Hno.
    { intros x Hx Ex. apply Hn. rewrite E, <- Ex. by apply list_elem_of_fmap_2. }
    assert (grant_loop gs ws write <> None) as Hgs.
    { rewrite IH. intros (x & Hx & Ex & _). by apply (Hno x Hx). }
    destruct (write && negb (grantCanWrite (wg_Access g))) eqn:Ew.
    + split; [done|]. intros (x & [->|Hx]%elem_of_cons & Ex & _ & Hw); [|by destruct (Hno x Hx)].
      bool_hyps. rewrite Hw in * by done. done.
    + destruct (grantCanRead (wg_Access g)) eqn:Er.
      * split; [|done]. intros _. exists g. repeat split; try done; [by left|].
        intros ->. cbn in Ew. by apply negb_false_iff in Ew.
      * split; [done|]. intros (x & [->|Hx]%elem_of_cons & Ex & Hr & _); [congruence|by destruct (Hno x Hx)].
  - rewrite IH. split; intros (x & Hx & Ex & H); exists x; (split; [|done]); [by right|].
    by apply elem_of_cons in Hx as [->|?].
Qed.

(** A worker may touch a workspace exactly when the first of the grants it was
    given for that workspace reads it, and writes it when it is to write; a blank
    workspace is not checked. *)
Theorem worker_access_iff (preferred : string) (grants : list WorkerWorkspaceGrant) (c : Ctx) (ws : string) (write : bool) :
  requireWorkerWorkspaceAccess (WithWorkerWorkspaceAccess preferred grants c) ws write = None <->
  TrimSpace ws = "" \/
  exists pre g post, grants = (pre ++ g :: post)%list /\ TrimSpace (wg_WorkspaceID g) = ws /\
    (ws ∉ map (fun x => TrimSpace (wg_WorkspaceID x)) pre) /\
    grantCanRead (wg_Access g) = true /\ (write = true -> grantCanWrite (wg_Access g) = true).
Proof.
  unfold requireWorkerWorkspaceAccess, WithWorkerWorkspaceAccess. cbn [workerWorkspaceAccess with_scopes Grants].
  destruct (unique_grants_spec [] grants) as [Hnd Hin].
  case_bool_decide as Hb; [by split; [left|]|].
  assert (forall a, grantCanRead (TrimSpace a) = grantCanRead a /\ grantCanWrite (TrimSpace a) = grantCanWrite a) as Ht.
  { intros a. unfold grantCanRead, grantCanWrite. by rewrite TrimSpace_idem. }
  rewrite grant_loop_iff.
  2:{ unfold grant_ids. by rewrite preferred_first_perm. }
  split.
  - intros (g' & Hg & <- & Hr & Hw). rewrite preferred_first_perm in Hg.
    apply Hin in Hg as (pre & g & post & -> & -> & Hne & _ & Hp). right. exists pre, g, post. cbn in *.
    destruct (Ht (wg_Access g)) as [Ht1 Ht2]. rewrite Ht1 in Hr. rewrite Ht2 in Hw. done.
  - intros [?|(pre & g & post & -> & <- & Hp & Hr & Hw)]; [done|]. exists (trim_grant g).
    destruct (Ht (wg_Access g)) as [Ht1 Ht2]. cbn. rewrite Ht1, Ht2. split; [|done].
    rewrite preferred_first_perm. apply Hin. exists pre, g, post. repeat split; try done.
    + cbn. intros E. rewrite E in Hb. done.
    + apply not_elem_of_nil.
Qed.

(** The preferred workspace leads the routes of a worker that is granted it. *)
Lemma swap_front_head head before rest p : p ∈ grant_ids rest ->
  option_map wg_WorkspaceID (List.head (swap_front head before rest p)) = Some p.
Proof.
  revert before. induction rest as [|g gs IH]; intros before; cbn; [by intros ?%elem_of_nil|].
  case_bool_decide as E; [by subst|]. intros [->|H]%elem_of_cons; [done|by apply IH].
Qed.

Lemma preferred_leads p l : p ∈ grant_ids l -> option_map wg_WorkspaceID (List.head (preferred_first p l)) = Some p.
Proof.
  destruct l as [|g gs]; cbn; [by intros ?%elem_of_nil|].
  case_bool_decide as E; [by subst|]. intros [->|H]%elem_of_cons; [done|by apply swap_front_head].
Qed.
