(* ===== verification/CachingLister.v ===== *)
(** The caching wrapper around the downstream manager:
    [internal/cache/caching_lister.go].

    The wrapped manager is [inner], a function of the downstream world that
    returns its answer and the world after the call.  A call is a mutation, a
    cacheable read or neither, as [ToolCache] classifies its name.  The theorem
    compares a run through the wrapper with the same run on [inner]. *)

From Stdlib Require Import String.
From stdpp Require Import gmap.
From S2P Require Import Prelude GoStrings Cache ToolCache.

#[local] Open Scope string_scope.
#[local] Open Scope list_scope.
#[local] Open Scope Z_scope.

Record CallResult := { Data : string; CacheHit : bool; CacheAge : Z }.

Definition fresh_result (d : string) : CallResult := {| Data := d; CacheHit := false; CacheAge := 0 |}.

(** tool_cache.go *)
Definition tc_GetWithAge (now : Z) (k : ToolCallKey) (tc : ToolCache) : option (string * Z) * ToolCache :=
  let '(r, c) := GetWithAge now k (tc_cache tc) in (r, with_tc_cache tc c).

(** The load runs at [now1], the store at [now2]; both happen on a miss only. *)
Definition tc_GetOrLoad {E} (now1 now2 : Z) (k : ToolCallKey) (load : result E string) (tc : ToolCache)
    : result E string * ToolCache :=
  let '(r, c) := GetOrLoad now1 now2 k load (tc_cache tc) in (r, with_tc_cache tc c).

Section Lister.
Context {W E : Type}.
Variable sha256_hex : string -> string.
Variable inner : W -> string -> string -> string -> string -> result E string * W.

(** [Call]: no cache metadata, no busting. *)
Definition Call (now1 now2 : Z) (serverID authScopeID toolName args : string) (st : ToolCache * W)
    : result E string * (ToolCache * W) :=
  let '(tc, w) := st in
  if IsMutation tc serverID toolName then
    let '(r, w') := inner w serverID authScopeID toolName args in
    (r, (match r with Ok _ => InvalidateForMutation serverID authScopeID toolName tc | Err _ => tc end, w'))
  else if IsCacheable tc serverID toolName then
    let k := MakeKey sha256_hex serverID authScopeID toolName args in
    let '(r, w') := inner w serverID authScopeID toolName args in
    let '(out, tc') := tc_GetOrLoad now1 now2 k r tc in
    (out, (tc', match fst (tc_Get now1 k tc) with Some _ => w | None => w' end))
  else
    let '(r, w') := inner w serverID authScopeID toolName args in (r, (tc, w')).

Definition CallWithMeta (now1 now2 : Z) (serverID authScopeID toolName args : string) (cacheBust : bool)
    (st : ToolCache * W) : result E CallResult * (ToolCache * W) :=
  let '(tc, w) := st in
  if IsMutation tc serverID toolName then
    match inner w serverID authScopeID toolName args with
    | (Ok d, w') => (Ok (fresh_result d), (InvalidateForMutation serverID authScopeID toolName tc, w'))
    | (Err e, w') => (Err e, (tc, w'))
    end
  else if IsCacheable tc serverID toolName then
    let k := MakeKey sha256_hex serverID authScopeID toolName args in
    let '(hit, tc) := if cacheBust then (None, tc) else tc_GetWithAge now1 k tc in
    match hit with
    | Some (v, age) => (Ok {| Data := v; CacheHit := true; CacheAge := age |}, (tc, w))
    | None =>
        match inner w serverID authScopeID toolName args with
        | (Err e, w') => (Err e, (tc, w'))
        | (Ok d, w') => (Ok (fresh_result d), (tc_Set now2 k d tc, w'))
        end
    end
  else
    match inner w serverID authScopeID toolName args with
    | (Ok d, w') => (Ok (fresh_result d), (tc, w'))
    | (Err e, w') => (Err e, (tc, w'))
    end.

(** ** Entries only leave, or come from a store *)

Definition entries (tc : ToolCache) : list (entry ToolCallKey string) := view (tc_cache tc).

Lemma GetWithAge_Get now k (c : Cache ToolCallKey string) :
  snd (GetWithAge now k c) = snd (Get now k c) /\ option_map fst (fst (GetWithAge now k c)) = fst (Get now k c).
Proof.
  unfold GetWithAge, Get. destruct (items c !! k) as [el|]; [|done].
  destruct (heap c !! el) as [e|]; [|done]. by destruct (expiresAt e <? now).
Qed.

Lemma lru_get_sub now k (l : list (entry ToolCallKey string)) e :
  e ∈ snd (lru_get now k l) -> e ∈ l.
Proof.
  unfold lru_get. destruct (lru_find k l) as [e0|] eqn:F; [|done]. apply find_Some_elem in F as [Hin _].
  unfold lru_remove. destruct (expiresAt e0 <? now); cbn [snd].
  - by intros [_ ?]%list_elem_of_filter.
  - intros [->|[_ ?]%list_elem_of_filter]%elem_of_cons; done.
Qed.

Lemma lru_get_hit now k (l : list (entry ToolCallKey string)) v :
  fst (lru_get now k l) = Some v -> exists e, e ∈ l /\ key e = k /\ value e = v.
Proof.
  unfold lru_get. destruct (lru_find k l) as [e|] eqn:F; [|done]. apply find_Some_elem in F as [Hin Hk]. bool_hyps.
  destruct (expiresAt e <? now); [done|]. intros [= <-]. eauto.
Qed.

(** A lookup: the cache stays well formed, keeps only entries it had, and a hit
    is the value of one of them. *)
Lemma lookup_spec now k tc : tc_ok tc ->
  let '(r, tc') := tc_GetWithAge now k tc in
  tc_ok tc' /\ configs tc' = configs tc /\ (forall e, e ∈ entries tc' -> e ∈ entries tc) /\
  option_map fst r = fst (tc_Get now k tc) /\
  match r with Some (v, _) => exists e, e ∈ entries tc /\ key e = k /\ value e = v | None => True end.
Proof.
  intros Hok. unfold tc_GetWithAge. destruct (GetWithAge_Get now k (tc_cache tc)) as [H1 H2].
  destruct (cache_get_law now k (tc_cache tc) Hok) as [Hw Hv].
  destruct (GetWithAge now k (tc_cache tc)) as [r c] eqn:Eg. cbn [fst snd] in *. subst c.
  unfold entries, tc_ok. cbn [tc_cache with_tc_cache configs]. rewrite tc_Get_fst.
  split; [done|]. split; [done|]. split; [|split; [done|]].
  - intros e He. apply (lru_get_sub now k). by rewrite <- Hv.
  - destruct r as [[v age]|]; [|done]. apply (lru_get_hit now). rewrite <- Hv. cbn [fst]. by rewrite <- H2.
Qed.

Lemma store_spec now k v tc : tc_ok tc ->
  tc_ok (tc_Set now k v tc) /\ configs (tc_Set now k v tc) = configs tc /\
  forall e, e ∈ entries (tc_Set now k v tc) -> (key e = k /\ value e = v) \/ e ∈ entries tc.
Proof.
  intros Hok. unfold tc_Set.
  destruct (cache_set_law now k v (resolveTTL (GetConfig tc (ServerID k))) (tc_cache tc) Hok) as [Hw Hv].
  unfold tc_ok, entries. cbn [with_tc_cache tc_cache configs]. split; [done|]. split; [done|]. rewrite Hv.
  intros e He. unfold lru_set in He. apply (subseteq_take _ _ e) in He.
  apply elem_of_cons in He as [->|He]; [by left|].
  right. unfold lru_remove in He. by apply list_elem_of_filter in He as [_ ?].
Qed.

Lemma invalidate_spec s a t tc : tc_ok tc ->
  tc_ok (InvalidateForMutation s a t tc) /\ configs (InvalidateForMutation s a t tc) = configs tc /\
  forall e, e ∈ entries (InvalidateForMutation s a t tc) ->
    e ∈ entries tc /\ ~ (ServerID (key e) = s /\ AuthScopeID (key e) = a).
Proof.
  intros Hok. unfold InvalidateForMutation.
  destruct (cache_invalidate_func_law (fun k => bool_decide (ServerID k = s) && bool_decide (AuthScopeID k = a))
              (tc_cache tc) Hok) as [Hw Hv].
  unfold tc_ok, entries. cbn [with_tc_cache tc_cache configs]. split; [done|]. split; [done|]. rewrite Hv.
  unfold lru_filter. intros e [Hp He]%list_elem_of_filter. split; [done|]. intros [E1 E2].
  by rewrite !bool_decide_eq_true_2 in Hp.
Qed.

(** ** Transparency *)

(** One call a client makes. *)
Record request := {
  q_now : Z; q_later : Z; q_server : string; q_scope : string; q_tool : string; q_args : string; q_bust : bool }.

Definition key_of (q : request) : ToolCallKey :=
  MakeKey sha256_hex (q_server q) (q_scope q) (q_tool q) (q_args q).

Definition direct_call (q : request) (w : W) : result E string * W :=
  inner w (q_server q) (q_scope q) (q_tool q) (q_args q).

Definition cached_call (q : request) (st : ToolCache * W) : result E string * (ToolCache * W) :=
  match CallWithMeta (q_now q) (q_later q) (q_server q) (q_scope q) (q_tool q) (q_args q) (q_bust q) st with
  | (Ok r, st') => (Ok (Data r), st')
  | (Err e, st') => (Err e, st')
  end.

Fixpoint run {S : Type} (f : request -> S -> result E string * S) (qs : list request) (st : S)
    : list (result E string) * S :=
  match qs with
  | [] => ([], st)
  | q :: qs' => let '(r, st1) := f q st in let '(rs, st2) := run f qs' st1 in (r :: rs, st2)
  end.

Definition is_read (tc : ToolCache) (q : request) : Prop :=
  IsMutation tc (q_server q) (q_tool q) = false /\ IsCacheable tc (q_server q) (q_tool q) = true.

(** The call [q] is a mutation that succeeds, of the server and scope [q'] reads. *)
Definition touches (tc : ToolCache) (w : W) (q q' : request) : Prop :=
  IsMutation tc (q_server q) (q_tool q) = true /\ (exists x, fst (direct_call q w) = Ok x) /\
  q_server q' = q_server q /\ q_scope q' = q_scope q.

(** What the classification by name relies on: a successful read leaves the
    world as it is, and what a read gets changes only by a mutation that succeeds
    on its own server and scope. *)
Record classified (tc : ToolCache) : Prop := {
  cl_read w q d w' : is_read tc q -> direct_call q w = (Ok d, w') -> w' = w;
  cl_keeps w q q' d : is_read tc q' -> direct_call q' w = (Ok d, w) -> ~ touches tc w q q' ->
    direct_call q' (snd (direct_call q w)) = (Ok d, snd (direct_call q w)) }.

(** No two of the requests share a key unless they ask the same. *)
Definition no_collision (Q : request -> Prop) : Prop :=
  forall q q', Q q -> Q q' -> key_of q = key_of q' -> q_args q = q_args q'.

(** Every entry is what the read it answers would get now. *)
Definition coherent (Q : request -> Prop) (tc : ToolCache) (w : W) : Prop :=
  tc_ok tc /\
  forall e, e ∈ entries tc -> exists q, Q q /\ key e = key_of q /\ is_read tc q /\ direct_call q w = (Ok (value e), w).

Lemma same_configs tc tc' s t : configs tc' = configs tc ->
  IsMutation tc' s t = IsMutation tc s t /\ IsCacheable tc' s t = IsCacheable tc s t.
Proof. intros E'. unfold IsMutation, IsCacheable, GetConfig. by rewrite E'. Qed.

Lemma is_read_same tc tc' q : configs tc' = configs tc -> is_read tc' q <-> is_read tc q.
Proof. intros E'. unfold is_read. by destruct (same_configs tc tc' (q_server q) (q_tool q) E') as [-> ->]. Qed.

Lemma classified_same tc tc' : configs tc' = configs tc -> classified tc -> classified tc'.
Proof.
  intros E' [H1 H2]. split.
  - intros w q d w'. rewrite (is_read_same _ _ _ E'). apply H1.
  - intros w q q' d. rewrite (is_read_same _ _ _ E'). unfold touches.
    destruct (same_configs tc tc' (q_server q) (q_tool q) E') as [-> _]. apply H2.
Qed.

(** A call that keeps the entries it does not touch keeps the cache coherent. *)
Lemma coherent_after Q tc tc' w q : coherent Q tc w -> classified tc -> tc_ok tc' -> configs tc' = configs tc ->
  (forall e, e ∈ entries tc' -> e ∈ entries tc /\
     forall q', key e = key_of q' -> is_read tc q' -> ~ touches tc w q q') ->
  coherent Q tc' (snd (direct_call q w)).
Proof.
  intros [_ Hc] Hcl Hok Hcfg Hsub. split; [done|]. intros e He. apply Hsub in He as [He Hno].
  destruct (Hc e He) as (q' & HQ & Hk & Hr & Hd). exists q'. rewrite (is_read_same _ _ _ Hcfg).
  split_and!; try done. apply (cl_keeps _ Hcl); auto.
Qed.

Lemma coherent_sub Q tc tc' w : coherent Q tc w -> tc_ok tc' -> configs tc' = configs tc ->
  (forall e, e ∈ entries tc' -> e ∈ entries tc) -> coherent Q tc' w.
Proof.
  intros [_ Hc] Hok Hcfg Hsub. split; [done|]. intros e He. destruct (Hc e (Hsub e He)) as (q & ? & ? & ? & ?).
  exists q. by rewrite (is_read_same _ _ _ Hcfg).
Qed.

Lemma coherent_store Q tc w q now d : coherent Q tc w -> Q q -> is_read tc q -> direct_call q w = (Ok d, w) ->
  coherent Q (tc_Set now (key_of q) d tc) w /\ configs (tc_Set now (key_of q) d tc) = configs tc.
Proof.
  intros [Hok Hc] Hq Hr Hd. destruct (store_spec now (key_of q) d tc Hok) as (Hok2 & Hcfg & Hsub).
  split; [|done]. split; [done|]. intros e He. destruct (Hsub e He) as [[Hk Hv]|He1].
  - exists q. rewrite (is_read_same tc) by done. by rewrite Hv.
  - destruct (Hc e He1) as (q1 & ? & ? & ? & ?). exists q1. by rewrite (is_read_same tc).
Qed.

(** An entry under a request's key answers it. *)
Lemma hit_current Q tc w q e : coherent Q tc w -> Q q -> no_collision Q -> e ∈ entries tc -> key e = key_of q ->
  direct_call q w = (Ok (value e), w).
Proof.
  intros [_ Hc] Hq Hkeys He Hk. destruct (Hc e He) as (q' & HQ & Hk' & _ & Hd). rewrite Hk in Hk'.
  pose proof (Hkeys q q' Hq HQ Hk') as Hargs. unfold key_of, MakeKey in Hk'. injection Hk' as E1 E2 E3 _.
  unfold direct_call in *. by rewrite E1, E2, E3, Hargs.
Qed.

(** The call through the wrapper, on the world the wrapped manager leaves. *)
Lemma cached_call_eq q tc w :
  cached_call q (tc, w) =
  if IsMutation tc (q_server q) (q_tool q) then
    let '(r, w') := direct_call q w in
    (r, (match r with Ok _ => InvalidateForMutation (q_server q) (q_scope q) (q_tool q) tc | Err _ => tc end, w'))
  else if IsCacheable tc (q_server q) (q_tool q) then
    let '(hit, tc1) := if q_bust q then (None, tc) else tc_GetWithAge (q_now q) (key_of q) tc in
    match hit with
    | Some (v, _) => (Ok v, (tc1, w))
    | None => let '(r, w') := direct_call q w in
              (r, (match r with Ok d => tc_Set (q_later q) (key_of q) d tc1 | Err _ => tc1 end, w'))
    end
  else let '(r, w') := direct_call q w in (r, (tc, w')).
Proof.
  unfold cached_call, CallWithMeta, direct_call, key_of.
  destruct (IsMutation _ _ _); [by destruct (inner _ _ _ _ _) as [[] ?]|].
  destruct (IsCacheable _ _ _); [|by destruct (inner _ _ _ _ _) as [[] ?]].
  destruct (if q_bust q then _ else _) as [[[v a]|] tc1]; [done|]. by destruct (inner _ _ _ _ _) as [[] ?].
Qed.

(** One call through the wrapper answers as the wrapped manager does, leaves the
    same world, and keeps every cached entry current. *)
Lemma cached_call_step Q tc w q : coherent Q tc w -> classified tc -> Q q -> no_collision Q ->
  let '(r, (tc', w')) := cached_call q (tc, w) in
  direct_call q w = (r, w') /\ coherent Q tc' w' /\ configs tc' = configs tc.
Proof.
  intros Hcoh Hcl Hq Hkeys. rewrite cached_call_eq. pose proof Hcoh as [Hok _].
  pose proof (coherent_after Q tc) as Hafter. specialize (Hafter) with (w := w) (q := q).
  destruct (direct_call q w) as [r w'] eqn:Ed. cbn [snd] in Hafter.
  destruct (IsMutation tc (q_server q) (q_tool q)) eqn:Hm.
  - destruct (invalidate_spec (q_server q) (q_scope q) (q_tool q) tc Hok) as (Hok' & Hcfg & Hsub).
    destruct r as [d|e0]; (split; [done|]; split; [|done]); apply Hafter; try done; intros e He.
    + apply Hsub in He as [He Hne]. split; [done|]. intros q' Hk _ (_ & _ & Hs & Ha). apply Hne. rewrite Hk. by split.
    + split; [done|]. intros q' _ _ (_ & [x Hx] & _). by rewrite Ed in Hx.
  - assert (forall q', ~ touches tc w q q') as Hno by (intros q' [Hm' _]; congruence).
    destruct (IsCacheable tc (q_server q) (q_tool q)) eqn:Hca; [|split; [done|]; split; [|done]; by apply Hafter].
    assert (is_read tc q) as Hread by done.
    pose proof (lookup_spec (q_now q) (key_of q) tc Hok) as Hl.
    assert (let '(hit, tc1) := if q_bust q then (None, tc) else tc_GetWithAge (q_now q) (key_of q) tc in
      tc_ok tc1 /\ configs tc1 = configs tc /\ (forall e, e ∈ entries tc1 -> e ∈ entries tc) /\
      match hit with Some (v, _) => exists e, e ∈ entries tc /\ key e = key_of q /\ value e = v | None => True end) as Hx.
    { destruct (q_bust q); [done|]. destruct (tc_GetWithAge _ _ _). tauto. }
    clear Hl. destruct (if q_bust q then _ else _) as [[[v age]|] tc1]; destruct Hx as (Hok1 & Hcfg1 & Hsub1 & Hhit).
    + destruct Hhit as (e & He & Hk & <-). rewrite (hit_current Q tc w q e) in Ed by done. injection Ed as <- <-.
      split; [done|]. split; [|done]. by apply (coherent_sub Q tc).
    + split; [done|]. destruct r as [d|e0].
      * pose proof (cl_read _ Hcl w q d w' Hread Ed) as ->. rewrite <- Hcfg1. apply coherent_store; [|done| |done].
        -- by apply (coherent_sub Q tc).
        -- by apply (is_read_same tc).
      * split; [|done]. apply Hafter; try done. intros e He. by split; [apply Hsub1|].
Qed.

(** C28: Over any sequence of calls, with any clock, eviction and busting, the
    wrapper is indistinguishable from the manager it wraps, as long as calls that are
    cached change nothing; what a call changes it changes for the reads of its own
    server and auth scope, by a tool the configuration counts as a mutation, and
    succeeds; and the truncated digests of the run's arguments do not collide.  About
    two scopes of one server, see [other_scope_stays_cached]. *)
Theorem cached_refines_direct (Q : request -> Prop) (qs : list request) (tc : ToolCache) (w : W)
    (Hcoh : coherent Q tc w) (Hcl : classified tc) (HQ : Forall Q qs) (Hkeys : no_collision Q) :
  let '(rs, (tc', w')) := run cached_call qs (tc, w) in
  run direct_call qs w = (rs, w') /\ coherent Q tc' w'.
Proof.
  revert tc w Hcoh Hcl. induction HQ as [|q qs Hq HQ IH]; intros tc w Hcoh Hcl; cbn [run]; [done|].
  pose proof (cached_call_step Q tc w q Hcoh Hcl Hq Hkeys) as H.
  destruct (cached_call q (tc, w)) as [r [tc1 w1]]. destruct H as (-> & Hcoh1 & Hcfg).
  specialize (IH tc1 w1 Hcoh1 (classified_same _ _ Hcfg Hcl)).
  destruct (run cached_call qs (tc1, w1)) as [rs [tc2 w2]]. by destruct IH as [-> ?].
Qed.

(** An empty cache is coherent. *)
Lemma coherent_new Q cfgs w : coherent Q (NewToolCache cfgs) w.
Proof.
  unfold coherent, entries, tc_ok, NewToolCache. cbn [tc_cache].
  destruct (New_wf (K := ToolCallKey) (V := string)
    (if map_fold (fun _ cfg acc => acc + MaxEntries cfg) 0 cfgs <=? 0 then 1000 else
       map_fold (fun _ cfg acc => acc + MaxEntries cfg) 0 cfgs) (30 * 60 * second)) as [Hw Hv].
  split; [done|]. rewrite Hv. intros e He. by apply elem_of_nil in He.
Qed.
End Lister.

(** ** A server, and what can go wrong *)

(** One value, read by get_task and written by update_task. *)
Definition sample_inner (w s a t args : string) : result unit string * string :=
  if negb (bool_decide (s = "u1") && bool_decide (a = "k")) then (Err tt, w)
  else if bool_decide (t = "get_task") then (Ok w, w)
  else if bool_decide (t = "update_task") then (Ok "done", args)
  else (Err tt, w).

Definition sample_request (now : Z) (tool args : string) : request :=
  {| q_now := now; q_later := now; q_server := "u1"; q_scope := "k"; q_tool := tool; q_args := args; q_bust := false |}.

Lemma sample_classified : classified sample_inner (NewToolCache ∅).
Proof.
  split; unfold direct_call, sample_inner.
  - intros w q d w' [Hm _] H. destruct (negb _); [by injection H|].
    case_bool_decide; [by injection H|]. case_bool_decide as E; [|by injection H].
    exfalso. revert Hm. rewrite E. unfold IsMutation, GetConfig, NewToolCache. cbn [configs]. rewrite lookup_empty. by vm_compute.
  - intros w q q' d [Hm Hc] Hd Hno.
    destruct (bool_decide (q_server q' = "u1") && bool_decide (q_scope q' = "k")) eqn:Es'; [|discriminate Hd].
    destruct (bool_decide (q_server q = "u1") && bool_decide (q_scope q = "k")) eqn:Es; cbn [negb snd] in *; [|exact Hd].
    destruct (bool_decide (q_tool q = "get_task")) eqn:Eg; cbn [snd]; [exact Hd|].
    destruct (bool_decide (q_tool q = "update_task")) eqn:Eu; cbn [snd]; [|exact Hd].
    exfalso. apply Hno. bool_hyps.
    split; [|split; [|split; congruence]].
    + rewrite Eu. unfold IsMutation, GetConfig, NewToolCache. cbn [configs]. rewrite lookup_empty. by vm_compute.
    + exists "done". unfold direct_call, sample_inner. rewrite Eu.
      repeat rewrite (bool_decide_eq_true_2 (_ = _)) by done. by rewrite bool_decide_eq_false_2.
Qed.

Lemma cached_refines_direct_witness :
  let qs := [sample_request 0 "get_task" "{}"; sample_request 1 "get_task" "{}";
             sample_request 2 "update_task" "new"; sample_request 3 "get_task" "{}"] in
  fst (run (cached_call (fun s => s) sample_inner) qs (NewToolCache ∅, "old")) = [Ok "old"; Ok "old"; Ok "done"; Ok "new"] /\
  snd (snd (run (cached_call (fun s => s) sample_inner) qs (NewToolCache ∅, "old"))) = "new".
Proof.
  intros qs. pose proof (cached_refines_direct (fun s => s) sample_inner (fun q => q ∈ qs) qs (NewToolCache ∅) "old"
    (coherent_new _ _ _ _ _) sample_classified) as H.
  destruct (run (cached_call (fun s => s) sample_inner) qs (NewToolCache ∅, "old")) as [rs [tc' w']].
  destruct H as [H _].
  - by apply list.Forall_forall.
  - intros q q' Hq Hq' Hk. repeat (apply elem_of_cons in Hq as [->|Hq]; [
      repeat (apply elem_of_cons in Hq' as [->|Hq']; [first [reflexivity|discriminate Hk]|]); by apply elem_of_nil in Hq'|]).
    by apply elem_of_nil in Hq.
  - vm_compute in H. injection H as <- <-. by split.
Defined.

(** A server whose update is applied although the call reports an error, as when
    the deadline passes before the answer. *)
Definition lossy_inner (w s a t args : string) : result unit string * string :=
  if bool_decide (t = "get_task") then (Ok w, w) else (Err tt, args).

(** The wrapper invalidates on success only: a mutation that was applied but
    reported an error leaves the old value cached, and the next read serves it. *)
Lemma failed_mutation_stays_cached :
  let qs := [sample_request 0 "get_task" "{}"; sample_request 1 "update_task" "new"; sample_request 2 "get_task" "{}"] in
  fst (run (cached_call (fun s => s) lossy_inner) qs (NewToolCache ∅, "old")) = [Ok "old"; Err tt; Ok "old"] /\
  fst (run (direct_call lossy_inner) qs "old") = [Ok "old"; Err tt; Ok "new"].
Proof. vm_compute. by split. Qed.

(** A server that answers two auth scopes with the same value. *)
Definition shared_inner (w s a t args : string) : result unit string * string :=
  if bool_decide (t = "get_task") then (Ok w, w) else (Ok "done", args).

Definition scoped_request (now : Z) (scope tool args : string) : request :=
  {| q_now := now; q_later := now; q_server := "u1"; q_scope := scope; q_tool := tool; q_args := args; q_bust := false |}.

(** A mutation invalidates the reads of its own auth scope; what another scope of the
    server has read stays cached. *)
Lemma other_scope_stays_cached :
  let qs := [scoped_request 0 "a" "get_task" "{}"; scoped_request 1 "b" "update_task" "new"; scoped_request 2 "a" "get_task" "{}"] in
  fst (run (cached_call (fun s => s) shared_inner) qs (NewToolCache ∅, "old")) = [Ok "old"; Ok "done"; Ok "old"] /\
  fst (run (direct_call shared_inner) qs "old") = [Ok "old"; Ok "done"; Ok "new"].
Proof. vm_compute. by split. Qed.

(** A read that misses, loads, and stores after a mutation of the same scope has
    been carried out and has invalidated: the value loaded before is served after. *)
Lemma late_store_is_stale :
  let k := key_of (fun s => s) (sample_request 0 "get_task" "{}") in
  let '(hit, tc1) := tc_GetWithAge 0 k (NewToolCache ∅) in
  let loaded := fst (sample_inner "old" "u1" "k" "get_task" "{}") in
  let '(_, (tc2, w2)) := cached_call (fun s => s) sample_inner (sample_request 1 "update_task" "new") (tc1, "old") in
  let tc3 := match loaded with Ok d => tc_Set 2 k d tc2 | Err _ => tc2 end in
  hit = None /\ w2 = "new" /\
  fst (cached_call (fun s => s) sample_inner (sample_request 3 "get_task" "{}") (tc3, w2)) = Ok "old".
Proof. vm_compute. by split. Qed.

(** Call stores what it loads for the cache's default half hour, not for the time
    the server's configuration gives, which CallWithMeta honours. *)
Lemma Call_ignores_ttl :
  let cfg := {| Enabled := true; ReadTTLSec := 60; CacheablePatterns := ["get_*"]; NoCacheablePatterns := [];
                MutationPatterns := []; InvalidationRules := []; MaxEntries := 10 |} in
  let tc := SetConfig "u1" cfg (NewToolCache ∅) in
  let k := MakeKey (fun s => s) "u1" "k" "get_task" "{}" in
  let later := 61 * second in
  let '(_, (tc1, _)) := Call (fun s => s) sample_inner 0 0 "u1" "k" "get_task" "{}" (tc, "old") in
  let '(_, (tc2, _)) := CallWithMeta (fun s => s) sample_inner 0 0 "u1" "k" "get_task" "{}" false (tc, "old") in
  (fst (tc_Get later k tc1), fst (tc_Get later k tc2)) = (Some "old", None).
Proof. vm_compute. reflexivity. Qed.
