(* ===== verification/ErrorTracker.v ===== *)
(** When a client struggles ([internal/gateway/error_tracker.go]) and how a
    downstream failure reads ([formatDownstreamError] of [handler_tools.go]).

    Times are nanoseconds; a method is one critical section of the tracker's lock. *)

From Stdlib Require Import Ascii String.
From stdpp Require Import strings list.
From S2P Require Import Prelude GoStrings.

#[local] Open Scope string_scope.
#[local] Open Scope list_scope.
#[local] Open Scope Z_scope.

Definition errorTrackerWindow : Z := 10 * 60 * 1000000000.
Definition errorTrackerThreshold : nat := 3.

Record errorEntry := { at_ : Z; msg : string }.

Definition errorTracker := list errorEntry.

(** Drop the leading entries older than the window. *)
Fixpoint prune_loop (cutoff : Z) (entries : errorTracker) : errorTracker :=
  match entries with
  | e :: es => if at_ e <? cutoff then prune_loop cutoff es else entries
  | [] => []
  end.

Definition prune (now : Z) (t : errorTracker) : errorTracker := prune_loop (now - errorTrackerWindow) t.

Definition RecordError (now : Z) (m : string) (t : errorTracker) : bool * errorTracker :=
  let t := prune now (t ++ [{| at_ := now; msg := m |}]) in
  ((errorTrackerThreshold <=? List.length t)%nat, t).

Definition RecordSuccess (t : errorTracker) : errorTracker := [].

Definition containsAny (s : string) (subs : list string) : bool := existsb (Contains s) subs.

Definition Guidance (t : errorTracker) : string :=
  let lower := ToLower (String.concat " " (map msg t)) in
  if containsAny lower ["read-only"; "read only"; "permission denied"; "cannot execute delete";
                        "cannot execute update"; "cannot execute insert"]
  then " This tool only supports SELECT queries. Do not use INSERT, UPDATE, or DELETE."
  else if containsAny lower ["expected object"; "expected array"; "cannot unmarshal string"; "invalid type"]
  then " Check parameter types — pass objects/arrays, not stringified JSON."
  else if containsAny lower ["syntax"; "column"; "relation"; "no such"; "does not exist"]
  then " Query information_schema.columns to discover table and column names before writing SQL queries."
  else " Multiple consecutive errors detected. Check server config or file a report.".

(** An error of a downstream call: whether it wraps ErrCallTimeout, and its text. *)
Record call_error := { is_timeout : bool; text : string }.

Definition error_prefixes : list string :=
  ["get or start instance: "; "start instance: "; "start process: "; "initialize: "].

Definition root_cause (s : string) : string :=
  fold_left (fun root prefix => default root (after_last root prefix)) error_prefixes s.

Definition formatDownstreamError (serverName : string) (err : call_error) : string :=
  if is_timeout err then
    serverName +:+ " server did not respond within the per-call deadline. The server may be wedged; mcplexer will auto-reload it shortly. Retry in a few seconds."
  else
    let root := root_cause (text err) in
    if Contains root "exec:" then
      serverName +:+ " server failed to start: " +:+ root +:+ " — ensure the required command is installed and in PATH"
    else if Contains root "no initialize response" then
      serverName +:+ " server started but did not respond (process may have crashed). Check that any required services (e.g. database, Docker) are running."
    else if Contains root "timed out" then
      serverName +:+ " server did not respond within the timeout period. The server may be slow to start or unable to connect to its backend."
    else if Contains root "connection refused" then
      serverName +:+ " server could not connect to its backend service. Ensure the service is running and accessible."
    else serverName +:+ " server error: " +:+ root.

Example root_sample :
  formatDownstreamError "github" {| is_timeout := false; text := "get or start instance: start instance: bad token" |}
  = "github server error: bad token".
Proof. vm_compute. reflexivity. Qed.

(** ** The tracker counts the recent errors since the last success *)

Inductive tracker_op := Failed (m : string) | Succeeded.

Definition apply_op (t : errorTracker) (op : Z * tracker_op) : errorTracker :=
  match snd op with
  | Failed m => snd (RecordError (fst op) m t)
  | Succeeded => RecordSuccess t
  end.

(** The errors since the last success, oldest first. *)
Definition failures (ops : list (Z * tracker_op)) : list errorEntry :=
  fold_left (fun acc op => match snd op with Failed m => acc ++ [{| at_ := fst op; msg := m |}] | Succeeded => [] end) ops [].

Definition recent (now : Z) (e : errorEntry) : bool := now - errorTrackerWindow <=? at_ e.

Definition in_order (ops : list (Z * tracker_op)) : Prop := StronglySorted (fun a b => fst a <= fst b) ops.

Definition entries_in_order (l : list errorEntry) : Prop := StronglySorted (fun a b => at_ a <= at_ b) l.

Lemma prune_filter cutoff l : entries_in_order l -> prune_loop cutoff l = List.filter (fun e => cutoff <=? at_ e) l.
Proof.
  induction 1 as [|e l Hl IH He]; [done|]. cbn. rewrite IH. destruct (at_ e <? cutoff) eqn:E.
  - by rewrite (proj2 (Z.leb_gt _ _)) by lia.
  - rewrite (proj2 (Z.leb_le _ _)) by lia. f_equal. clear -He E.
    induction He as [|b l Hb _ IH]; [done|]. cbn. rewrite (proj2 (Z.leb_le _ _)) by lia. by rewrite <- IH.
Qed.

Lemma filter_twice c1 c2 l : c1 <= c2 ->
  List.filter (fun e => c2 <=? at_ e) (List.filter (fun e => c1 <=? at_ e) l) = List.filter (fun e => c2 <=? at_ e) l.
Proof.
  intros Hc. rewrite filter_filter. induction l as [|e l IH]; [done|]. cbn. rewrite IH.
  destruct (Z.leb_spec c1 (at_ e)), (Z.leb_spec c2 (at_ e)); cbn; try done. lia.
Qed.

Lemma filter_sorted (f : errorEntry -> bool) l : entries_in_order l -> entries_in_order (List.filter f l).
Proof.
  induction 1 as [|e l Hl IH He]; cbn; [constructor|]. destruct (f e); [|done]. constructor; [done|].
  apply Forall_forall. intros x Hx%list_elem_of_In%filter_In. rewrite Forall_forall in He. apply He, list_elem_of_In, Hx.
Qed.

Lemma sorted_snoc l e : entries_in_order l -> Forall (fun x => at_ x <= at_ e) l -> entries_in_order (l ++ [e]).
Proof.
  intros Hl He. induction Hl as [|x l Hl IH Hx]; cbn; [repeat constructor|]. apply Forall_cons in He as [? ?].
  constructor; [by apply IH|]. by apply Forall_add.
Qed.

(** What holds after any operations in order of time, [now] being the last. *)
Definition tracks (t : errorTracker) (all : list errorEntry) (now : Z) : Prop :=
  entries_in_order all /\ Forall (fun e => at_ e <= now) all /\
  exists past, past <= now /\ t = List.filter (recent past) all.

Lemma tracks_step t all now now' m : tracks t all now -> now <= now' ->
  let entry := {| at_ := now'; msg := m |} in
  tracks (snd (RecordError now' m t)) (all ++ [entry]) now' /\
  snd (RecordError now' m t) = List.filter (recent now') (all ++ [entry]).
Proof.
  intros (Hs & Hle & past & Hp & ->) Hn entry. cbn [RecordError snd].
  assert (entries_in_order (all ++ [entry])) as Hs'.
  { apply sorted_snoc; [done|]. eapply Forall_impl; [exact Hle|]. cbn. lia. }
  assert (prune now' (List.filter (recent past) all ++ [entry]) = List.filter (recent now') (all ++ [entry])) as E.
  { unfold prune. assert (List.filter (recent past) all ++ [entry] = List.filter (recent past) (all ++ [entry])) as ->.
    { assert (recent past entry = true) as Hr by (unfold recent, errorTrackerWindow, entry; cbn; lia).
      rewrite List.filter_app. cbn [List.filter]. by rewrite Hr. }
    rewrite prune_filter by (by apply filter_sorted). apply filter_twice. lia. }
  split; [|done]. split; [done|]. split.
  - apply Forall_add; [|done]. eapply Forall_impl; [exact Hle|]. cbn. lia.
  - exists now'. split; [lia|done].
Qed.

Lemma tracks_run ops : in_order ops -> forall t all now, tracks t all now -> Forall (fun op => now <= fst op) ops ->
  exists now', tracks (fold_left apply_op ops t)
    (fold_left (fun acc op => match snd op with Failed m => acc ++ [{| at_ := fst op; msg := m |}] | Succeeded => [] end) ops all) now' /\
    (now' = now \/ exists op, op ∈ ops /\ now' = fst op).
Proof.
  induction 1 as [|[n op] ops Hops IH Hop]; intros t all now Ht Hnow; cbn [fold_left]; [by exists now; auto|].
  apply Forall_cons in Hnow as [Hn Hnow]. cbn in Hn, Hop. destruct op as [m|].
  - destruct (IH _ _ n (proj1 (tracks_step t all now n m Ht Hn)) Hop) as (now' & H & [->|(o & ? & ->)]).
    + exists n. split; [done|]. right. exists (n, Failed m). split; [by left|done].
    + exists (fst o). split; [done|]. right. exists o. split; [by right|done].
  - destruct (IH [] [] n) as (now' & H & [->|(o & ? & ->)]); [|done| |].
    + split; [constructor|]. split; [constructor|]. by exists n.
    + exists n. split; [done|]. right. exists (n, Succeeded). split; [by left|done].
    + exists (fst o). split; [done|]. right. exists o. split; [by right|done].
Qed.

(** Over any calls in order of time, an error is met with guidance exactly
    when it is at least the third since the last success among those of the last
    ten minutes. *)
Theorem struggling_iff (ops : list (Z * tracker_op)) (now : Z) (m : string)
    (Hord : in_order (ops ++ [(now, Failed m)])) :
  fst (RecordError now m (fold_left apply_op ops [])) = true <->
  (errorTrackerThreshold <= tally (recent now) (failures (ops ++ [(now, Failed m)])))%nat.
Proof.
  assert (in_order ops /\ Forall (fun op => fst op <= now) ops) as [Ho Hle].
  { unfold in_order in *. clear -Hord. induction ops as [|o ops IH]; [by repeat constructor|]. cbn in Hord.
    apply StronglySorted_inv in Hord as [Hs Hf]. destruct (IH Hs) as [? ?]. apply Forall_app in Hf as [Hf Hl].
    split; [by constructor|]. constructor; [|done]. by apply Forall_cons in Hl as [? _]. }
  assert (exists start, start <= now /\ Forall (fun op => start <= fst op) ops) as (start & Hst & Hall).
  { destruct Ho as [|o ops Ho Hf]; [by exists now|]. exists (fst o). apply Forall_cons in Hle as [? _]. split; [done|].
    constructor; [lia|done]. }
  destruct (tracks_run ops Ho [] [] start) as (now' & Ht & Hw); [|done|].
  { split; [constructor|]. split; [constructor|]. by exists start. }
  assert (now' <= now) as Hn.
  { destruct Hw as [->|(o & Hin & ->)]; [done|]. rewrite Forall_forall in Hle. by apply Hle. }
  pose proof (proj2 (tracks_step _ _ now' now m Ht Hn)) as E.
  unfold failures. rewrite fold_left_app. cbn [fold_left snd fst].
  unfold tally. rewrite <- E. cbn [RecordError fst snd]. by rewrite Nat.leb_le.
Qed.

Lemma struggling_iff_witness :
  fst (RecordError 3 "c" (fold_left apply_op [(0, Failed "z"); (0, Succeeded); (1, Failed "a"); (2, Failed "b")] [])) = true.
Proof.
  apply (struggling_iff [(0, Failed "z"); (0, Succeeded); (1, Failed "a"); (2, Failed "b")] 3 "c").
  - repeat constructor; cbn; lia.
  - vm_compute. lia.
Defined.
