(* ===== verification/JsonSize.v ===== *)
(** A size of JSON values that decoding a string never increases: the measure by
    which the gateway's wrapper calls end.

    Only ASCII bytes count, as an invalid byte is decoded into a three-byte rune; a
    string counts its quotes, an array or object its brackets. *)

From Stdlib Require Import Ascii String.
From stdpp Require Import strings list.
From S2P Require Import Prelude GoStrings GoJson ResultJson.

#[local] Open Scope string_scope.
#[local] Open Scope list_scope.
#[local] Open Scope nat_scope.

Definition wt (a : ascii) : nat := if (N_of_ascii a <? 128)%N then 1 else 0.

Definition weight (l : list ascii) : nat := sum_list (map wt l).

Definition sw (s : string) : nat := weight (list_ascii_of_string s).

Fixpoint json_size (v : json) : nat :=
  match v with
  | JStr s => 2 + sw s
  | JArr l => 2 + sum_list (map json_size l)
  | JObj l => 2 + sum_list (map (fun '(k, w) => 2 + sw k + json_size w) l)
  | _ => 1
  end.

Definition pair_size (p : string * json) : nat := 2 + sw (fst p) + json_size (snd p).

Definition pairs_size (l : list (string * json)) : nat := sum_list (map pair_size l).

Definition args_size (raw : RawMessage) : nat := match raw with Some v => json_size v | None => 0 end.

Lemma wt_le a : wt a <= 1.
Proof. unfold wt. destruct (_ <? _)%N; lia. Qed.

Lemma wt_ascii a : (N_of_ascii a < 128)%N -> wt a = 1.
Proof. intros H. unfold wt. by rewrite (proj2 (N.ltb_lt _ _) H). Qed.

Lemma sum_list_app l l' : sum_list (l ++ l') = sum_list l + sum_list l'.
Proof. induction l; cbn; lia. Qed.

Lemma sum_list_rev l : sum_list (rev l) = sum_list l.
Proof. induction l; cbn; [done|]. rewrite sum_list_app. cbn. lia. Qed.

Lemma weight_app l l' : weight (l ++ l') = weight l + weight l'.
Proof. unfold weight. by rewrite map_app, sum_list_app. Qed.

Lemma weight_rev l : weight (rev l) = weight l.
Proof. unfold weight. by rewrite map_rev, sum_list_rev. Qed.

Lemma sw_cons a s : sw (String a s) = wt a + sw s.
Proof. done. Qed.

Lemma sw_app s t : sw (s +:+ t) = sw s + sw t.
Proof. unfold sw. by rewrite list_ascii_app, weight_app. Qed.

Lemma sw_length s : sw s <= String.length s.
Proof. induction s as [|a s IH]; [done|]. rewrite sw_cons. cbn. pose proof (wt_le a). lia. Qed.

Lemma json_size_obj l : json_size (JObj l) = 2 + pairs_size l.
Proof.
  change (json_size (JObj l)) with (2 + sum_list (map (fun '(k, w) => 2 + sw k + json_size w) l)).
  unfold pairs_size. f_equal. f_equal. apply map_ext. by intros [].
Qed.

Lemma pairs_size_app l l' : pairs_size (l ++ l') = pairs_size l + pairs_size l'.
Proof. unfold pairs_size. by rewrite map_app, sum_list_app. Qed.

Lemma pairs_size_rev l : pairs_size (rev l) = pairs_size l.
Proof. unfold pairs_size. by rewrite map_rev, sum_list_rev. Qed.

Lemma pairs_size_cons p l : pairs_size (p :: l) = pair_size p + pairs_size l.
Proof. done. Qed.

(** ** Decoding *)

Lemma sw_fix_utf8 skip l : sw (fix_utf8 skip l) <= weight l.
Proof.
  revert skip. induction l as [|a l IH]; intros skip; [done|]. cbn [fix_utf8]. change (weight (a :: l)) with (wt a + weight l).
  destruct skip as [|k]; [|rewrite sw_cons; specialize (IH k); lia].
  destruct (_ <? 128)%N; [rewrite sw_cons; specialize (IH 0); lia|].
  destruct (utf8_len a l) as [n|]; [rewrite sw_cons; specialize (IH (n - 1)); lia|].
  rewrite sw_app. specialize (IH 0). assert (sw replacement = 0) as -> by (vm_compute; reflexivity). lia.
Qed.

Definition piece_size (p : piece) : nat := match p with PRaw a => wt a | PEsc _ => 1 | PUnit _ => 4 end.

Definition pieces_size (ps : list piece) : nat := sum_list (map piece_size ps).

Lemma sw_encode_rune r : sw (encode_rune r) <= 4.
Proof.
  etransitivity; [apply sw_length|]. unfold encode_rune.
  repeat case_match; rewrite ?string_length_app; cbn; lia.
Qed.

Lemma sw_unquote ps : forall raw, sw (unquote raw ps) <= weight raw + pieces_size ps.
Proof.
  assert (forall n ps, length ps <= n -> forall raw, sw (unquote raw ps) <= weight raw + pieces_size ps) as H.
  2: { intros raw. by apply (H (length ps)). }
  intros n. induction n as [|n IH]; intros qs Hn raw;
    (destruct qs as [|q qs]; [change (unquote raw []) with (fix_utf8 0 (rev raw)); pose proof (sw_fix_utf8 0 (rev raw)) as Hf;
       rewrite weight_rev in Hf; lia|]);
    cbn in Hn; [lia|].
  pose proof (sw_fix_utf8 0 (rev raw)) as Hf. rewrite weight_rev in Hf.
  assert (sw replacement <= 4) as Hr by (vm_compute; lia).
  pose proof (IH qs ltac:(lia) []) as IHq. change (weight []) with 0 in IHq.
  change (pieces_size (q :: qs)) with (piece_size q + pieces_size qs).
  destruct q as [a|a|u]; cbn [unquote piece_size].
  - pose proof (IH qs ltac:(lia) (a :: raw)) as Ha. change (weight (a :: raw)) with (wt a + weight raw) in Ha. lia.
  - rewrite sw_app, sw_cons. pose proof (wt_le a). lia.
  - destruct (is_high u).
    + destruct qs as [|[b|b|w] qs']; try (rewrite !sw_app; lia).
      pose proof (IH qs' ltac:(cbn in Hn; lia) []) as IH2. change (weight []) with 0 in IH2.
      change (pieces_size (PUnit w :: qs')) with (4 + pieces_size qs') in *.
      destruct (is_low w); rewrite !sw_app; [|lia]. pose proof (sw_encode_rune (65536 + (u - 55296) * 1024 + (w - 56320))). lia.
    + rewrite !sw_app. destruct (is_low u); [lia|]. pose proof (sw_encode_rune u). lia.
Qed.

Definition token_size (t : token) : nat := match t with TStr s => 2 + sw s | _ => 1 end.

Definition tokens_size (ts : list token) : nat := sum_list (map token_size ts).

Definition mode_size (m : mode) : nat :=
  match m with
  | MNormal => 0
  | MWord _ => 1
  | MStr ps => 1 + pieces_size ps
  | MEsc ps => 2 + pieces_size ps
  | MHex k _ ps => 1 + pieces_size ps + (6 - k)
  end.

Lemma tokens_size_cons t ts : tokens_size (t :: ts) = token_size t + tokens_size ts.
Proof. done. Qed.

Lemma pieces_size_cons q ps : pieces_size (q :: ps) = piece_size q + pieces_size ps.
Proof. done. Qed.

Lemma pieces_size_rev ps : pieces_size (rev ps) = pieces_size ps.
Proof. unfold pieces_size. by rewrite map_rev, sum_list_rev. Qed.

#[local] Arguments weight : simpl never.
#[local] Arguments tokens_size : simpl never.
#[local] Arguments pieces_size : simpl never.

Lemma hex_wt a d : hex_val a = Some d -> wt a = 1.
Proof. by destruct a as [[] [] [] [] [] [] [] []]; vm_compute. Qed.

Lemma punct_wt a t : punct a = Some t -> wt a = 1 /\ token_size t = 1.
Proof. destruct a as [[] [] [] [] [] [] [] []]; vm_compute; try done; by intros [= <-]. Qed.

Lemma word_wt a : is_word a = true -> wt a = 1.
Proof. by destruct a as [[] [] [] [] [] [] [] []]; vm_compute. Qed.

Lemma word_token_size w t : word_token w = Some t -> token_size t = 1.
Proof. unfold word_token. intros H. repeat case_match; try done; injection H as <-; done. Qed.

Lemma lex_size s : forall m ts, lex m s = Some ts -> tokens_size ts <= mode_size m + weight s.
Proof.
  induction s as [|a s IH]; intros m ts.
  { destruct m; cbn; try done; [by intros [= <-]|].
    destruct (word_token w) as [t|] eqn:E; cbn; [|done]. intros [= <-]. rewrite tokens_size_cons, (word_token_size _ _ E).
    change (tokens_size []) with 0. lia. }
  change (weight (a :: s)) with (wt a + weight s). pose proof (wt_le a) as Ha.
  set (normal := fun _ : unit => if is_json_space a then lex MNormal s
        else if bool_decide (a = "034"%char) then lex (MStr []) s
        else if is_word a then lex (MWord [a]) s
        else t ← punct a; ts ← lex MNormal s; Some (t :: ts)).
  assert (wt "034"%char = 1 /\ wt "\"%char = 1 /\ wt "u"%char = 1) as (W1 & W2 & W3) by done.
  assert (forall ts, normal () = Some ts -> tokens_size ts <= wt a + weight s) as Hnormal.
  { unfold normal. intros ts'. destruct (is_json_space a); [intros H%IH; cbn in H; lia|].
    case_bool_decide as Hq; [intros H%IH; subst; cbn in H; change (pieces_size []) with 0 in H; lia|].
    destruct (is_word a) eqn:Hw; [intros H%IH; rewrite (word_wt _ Hw); cbn in H; lia|].
    destruct (punct a) as [t|] eqn:Hp; cbn; [|done]. destruct (lex MNormal s) as [ts''|] eqn:E; cbn; [|done].
    intros [= <-]. apply IH in E. apply punct_wt in Hp as [-> Ht]. rewrite tokens_size_cons, Ht. cbn in E. lia. }
  destruct m as [|w|ps|ps|k u ps]; cbn [lex mode_size].
  - intros H. specialize (Hnormal _ H). lia.
  - destruct (is_word a) eqn:Hw; [intros H%IH; cbn in H; lia|].
    destruct (word_token w) as [t|] eqn:Et; cbn; [|done]. fold (normal ()).
    destruct (normal ()) as [ts'|] eqn:En; cbn; [|done]. intros [= <-]. specialize (Hnormal _ eq_refl).
    rewrite tokens_size_cons, (word_token_size _ _ Et). lia.
  - case_bool_decide as Hq.
    + destruct (lex MNormal s) as [ts'|] eqn:E; cbn; [|done]. intros [= <-]. apply IH in E. subst.
      pose proof (sw_unquote (rev ps) []) as Hu. rewrite pieces_size_rev in Hu. change (weight []) with 0 in Hu.
      rewrite tokens_size_cons. cbn in E |- *. lia.
    + case_bool_decide as Hb; [intros H%IH; subst; cbn in H; lia|].
      destruct (_ <? 32)%N; [done|]. intros H%IH. cbn in H. rewrite pieces_size_cons in H. cbn in H. lia.
  - case_bool_decide as Hu; [intros H%IH; subst; cbn in H; lia|].
    destruct (escape a) as [c|]; cbn; [|done]. intros H%IH. cbn in H. rewrite pieces_size_cons in H. cbn in H. lia.
  - destruct (hex_val a) as [d|] eqn:Ed; cbn; [|done]. rewrite (hex_wt _ _ Ed).
    destruct k as [|[|k]]; intros H%IH; cbn in H |- *; rewrite ?pieces_size_cons in H; cbn in H; lia.
Qed.

Definition frame_size (f : frame) : nat :=
  match f with
  | FArr acc => 1 + sum_list (map json_size acc)
  | FObj acc k => 1 + pairs_size acc + 2 + sw k
  end.

Definition frames_size (st : list frame) : nat := sum_list (map frame_size st).

Definition expect_size (e : expect) : nat :=
  match e with
  | EValue | EValueOrClose => 0
  | EKey | EKeyOrClose => 1
  | EColon k => 3 + sw k
  | ECommaOrClose v => json_size v
  end.

Lemma frames_size_cons f st : frames_size (f :: st) = frame_size f + frames_size st.
Proof. done. Qed.

Lemma json_size_arr l : json_size (JArr l) = 2 + sum_list (map json_size l).
Proof. done. Qed.

#[local] Arguments frames_size : simpl never.
#[local] Arguments pairs_size : simpl never.
#[local] Arguments json_size : simpl never.

Ltac size_step IH H :=
  apply IH in H; cbn [expect_size] in H;
  rewrite ?frames_size_cons, ?json_size_obj, ?json_size_arr, ?pairs_size_rev, ?pairs_size_cons, ?map_rev, ?sum_list_rev in H;
  rewrite ?frames_size_cons; cbn [frame_size map sum_list sum_list_with pair_size fst snd token_size] in *; rewrite ?pairs_size_cons in H;
  try (unfold pair_size in H; cbn [fst snd] in H).

Lemma parse_size ts : forall st pairs e v, parse st pairs e ts = Some v ->
  json_size v <= frames_size st + pairs_size pairs + expect_size e + tokens_size ts.
Proof.
  induction ts as [|t ts IH]; intros st pairs e v.
  { destruct e, st; cbn; try done. intros [= <-]. lia. }
  rewrite tokens_size_cons. cbn [parse].
  assert (json_size JNull = 1 /\ (forall b, json_size (JBool b) = 1) /\ (forall n, json_size (JNum n) = 1) /\
          (forall s, json_size (JStr s) = 2 + sw s) /\ pairs_size [] = 0) as (Z1 & Z2 & Z3 & Z4 & Z5) by done.
  set (value := fun _ : unit => match t with
        | TNull => parse st [] (ECommaOrClose JNull) ts
        | TTrue => parse st [] (ECommaOrClose (JBool true)) ts
        | TFalse => parse st [] (ECommaOrClose (JBool false)) ts
        | TNum n => parse st [] (ECommaOrClose (JNum n)) ts
        | TStr s => parse st [] (ECommaOrClose (JStr s)) ts
        | TLbrack => if (N.of_nat (S (length st)) <=? maxNestingDepth)%N then parse (FArr [] :: st) [] EValueOrClose ts else None
        | TLbrace => if (N.of_nat (S (length st)) <=? maxNestingDepth)%N then parse st [] EKeyOrClose ts else None
        | _ => None
        end).
  assert (value () = Some v -> json_size v <= frames_size st + token_size t + tokens_size ts) as Hvalue.
  { unfold value. destruct t; intros H; try done; repeat case_match; try done; size_step IH H;
      rewrite ?Z1, ?Z2, ?Z3, ?Z4, ?Z5 in H; cbn in H |- *; try lia. }
  destruct e as [| | | |k|w]; cbn [expect_size].
  - intros H. specialize (Hvalue H). lia.
  - intros H. destruct t; try (specialize (Hvalue H); lia). destruct st as [|[acc|acc k] st]; try (specialize (Hvalue H); lia).
    size_step IH H. rewrite Z5 in H. lia.
  - intros H. destruct t; try done. size_step IH H. rewrite ?Z5 in H. lia.
  - intros H. destruct t; try done; size_step IH H; rewrite ?Z5 in H; lia.
  - intros H. destruct t; try done. size_step IH H. rewrite ?Z5 in H. lia.
  - intros H. destruct st as [|[acc|acc k] st]; [done| |]; destruct t; try done; size_step IH H; rewrite ?Z5 in H; cbn in H |- *; lia.
Qed.

Lemma json_parse_size s v : json_parse s = Some v -> json_size v <= sw s.
Proof.
  unfold json_parse. destruct (lex _ _) as [ts|] eqn:E; cbn; [|done]. intros H%parse_size.
  apply lex_size in E. unfold sw. change (frames_size []) with 0 in H. change (pairs_size []) with 0 in H.
  cbn in E, H. lia.
Qed.

(** ** Arguments *)

Lemma pairs_size_perm l l' : l ≡ₚ l' -> pairs_size l = pairs_size l'.
Proof. unfold pairs_size. induction 1; cbn; lia. Qed.

Lemma dedup_size l : pairs_size (dedup l) <= pairs_size l.
Proof.
  induction l as [|p l IH]; [done|]. cbn [dedup]. destruct (has_key _ _); rewrite ?pairs_size_cons; lia.
Qed.

Lemma norm_size l : pairs_size (norm l) <= pairs_size l.
Proof. unfold norm. rewrite (pairs_size_perm _ _ (SliceStable_perm _ _)). apply dedup_size. Qed.

Lemma coerce_field_size fs p : pair_size (coerce_field fs p) <= pair_size p.
Proof.
  unfold coerce_field. case_bool_decide; [lia|]. destruct p as [k v]; cbn [fst snd].
  destruct v as [|b|n|s|l|l]; try lia. destruct (looks_like_container s); [|lia].
  destruct (json_parse s) as [v|] eqn:E; [|lia]. apply json_parse_size in E. unfold pair_size. cbn [fst snd].
  assert (json_size (JStr s) = 2 + sw s) as -> by done. lia.
Qed.

(** Coercion does not grow the arguments. *)
Lemma coerce_size raw fs : args_size (coerceStringifiedArgs raw fs) <= args_size raw.
Proof.
  unfold coerceStringifiedArgs. destruct raw as [[| | | |l|l]|]; try done. destruct (existsb _ _); [|done].
  cbn [args_size]. rewrite !json_size_obj. pose proof (norm_size l) as Hn.
  assert (pairs_size (map (coerce_field fs) (norm l)) <= pairs_size (norm l)); [|lia].
  induction (norm l) as [|p l' IH]; [done|]. cbn [map]. rewrite !pairs_size_cons. pose proof (coerce_field_size fs p).
  assert (pairs_size (map (coerce_field fs) l') <= pairs_size l'); [|lia]. clear. induction l' as [|p l' IH]; [done|].
  cbn [map]. rewrite !pairs_size_cons. pose proof (coerce_field_size fs p). lia.
Qed.

Lemma object_get_size l k v : object_get l k = Some v -> json_size v < json_size (JObj l).
Proof.
  rewrite json_size_obj. induction l as [|[k' w] l IH]; [done|]. rewrite object_get_cons, pairs_size_cons.
  destruct (object_get l k) as [u|].
  - intros [= ->]. specialize (IH eq_refl). lia.
  - case_bool_decide; [|done]. intros [= ->]. unfold pair_size. cbn. lia.
Qed.

(** What the wrapper forwards is smaller than what it was given. *)
Lemma wrapper_args_smaller raw a : decodeCallToolArgs raw = Ok a -> args_size (cta_Arguments a) < args_size raw.
Proof.
  unfold decodeCallToolArgs. destruct raw as [[| | | |l|l]|]; try done. cbn [args_size]. intros H.
  assert (json_size (JObj (norm l)) <= json_size (JObj l)) as Hn.
  { rewrite !json_size_obj. pose proof (norm_size l). lia. }
  destruct (List.find _ (norm l)) as [[key w]|]; [done|]. destruct (object_get (norm l) "name") as [[| | |n| |]|]; try done.
  case_bool_decide; [done|]. destruct (object_get (norm l) "arguments") as [[| | | | |a']|] eqn:E; try done.
  injection H as <-. cbn [cta_Arguments args_size]. apply object_get_size in E. lia.
Qed.
