(* ===== verification/ScopePolicy.v ===== *)
(** Resource allow-lists of a route ([internal/gateway/scope_policy.go]): an
    extractor finds which resources a call names, the policy of the matched route
    says which it may name.

    A [json.RawMessage] is the text of the route's column for the policy and the
    value it holds for arguments (see ResultJson).  An extractor is the interface of
    the code, a function from arguments to sets of names per resource type. *)

From Stdlib Require Import Ascii String.
From stdpp Require Import strings gmap.
From S2P Require Import Prelude GoStrings GoJson ResultJson.

#[local] Open Scope string_scope.
#[local] Open Scope list_scope.

(** Resource type to names. *)
Abbreviation Targets := (gmap string (gset string)).

Definition ScopeExtractor := RawMessage -> Targets.

Abbreviation ScopeRegistry := (gmap string ScopeExtractor).

Definition NewScopeRegistry : ScopeRegistry := ∅.

Definition Register (namespace : string) (e : ScopeExtractor) (r : ScopeRegistry) : ScopeRegistry := <[namespace := e]> r.

(** By the namespace before the first "__". *)
Definition registry_Get (r : ScopeRegistry) (toolName : string) : option ScopeExtractor :=
  match Cut toolName "__" with
  | Some (ns, _) => r !! ns
  | None => None
  end.

Record ScopePolicy := { constraints : Targets }.

Definition string_slice (v : json) : option (list string) :=
  match v with JNull => Some [] | JArr ts => mapM json_string_elem ts | _ => None end.

(** Into [map[string][]string]: every pair must decode, the last of a key counts. *)
Definition string_lists (raw : string) : option (gmap string (list string)) :=
  v ← json_parse raw;
  match v with
  | JNull => Some ∅
  | JObj l => fold_left (fun acc '(k, w) => m ← acc; vs ← string_slice w; Some (<[k := vs]> m)) l (Some ∅)
  | _ => None
  end.

Definition normal_value (v : string) : string := ToLower (TrimSpace v).

(** The values of one resource type, blank ones skipped. *)
Definition value_set (values : list string) : gset string :=
  list_to_set (List.filter (fun v => negb (bool_decide (v = ""))) (map normal_value values)).

(** A type without a value left is not constrained. *)
Definition constraint_of (values : list string) : option (gset string) :=
  let set := value_set values in if bool_decide (set = ∅) then None else Some set.

(** [None] is the error of a policy that is not an object of string arrays. *)
Definition NewScopePolicy (raw : string) : option ScopePolicy :=
  if bool_decide (raw = "") || bool_decide (raw = "{}") || bool_decide (raw = "null")
  then Some {| constraints := ∅ |}
  else parsed ← string_lists raw; Some {| constraints := omap constraint_of parsed |}.

Definition policy_Enabled (p : ScopePolicy) : bool := negb (bool_decide (constraints p = ∅)).

Record ScopePolicyViolation := { ResourceType : string; Value : string; Allowed : gset string }.

(** The violation of one resource type. *)
Definition violation (extracted : Targets) (c : string * gset string) : option ScopePolicyViolation :=
  match extracted !! fst c with
  | None => None
  | Some found =>
      match List.find (fun v => negb (bool_decide (v ∈ snd c))) (elements found) with
      | Some v => Some {| ResourceType := fst c; Value := v; Allowed := snd c |}
      | None => None
      end
  end.

Fixpoint first_violation (extracted : Targets) (cs : list (string * gset string)) : option ScopePolicyViolation :=
  match cs with
  | [] => None
  | c :: cs' => match violation extracted c with Some v => Some v | None => first_violation extracted cs' end
  end.

(** Which violation is reported depends on Go's map order; that one is does not. *)
Definition Enforce (p : ScopePolicy) (extracted : Targets) : option ScopePolicyViolation :=
  first_violation extracted (map_to_list (constraints p)).

Definition blank_key (key : string) : bool := bool_decide (TrimSpace key = "").

(** Whether the field is well-formed. *)
Definition ValidateScopePolicy (raw : string) : bool :=
  if bool_decide (raw = "") then true
  else match string_lists raw with
       | None => false
       | Some parsed =>
           forallb (fun '(k, vs) => negb (blank_key k) && forallb (fun v => negb (blank_key v)) vs) (map_to_list parsed)
  end.

(** What the policy test of handleToolsCall makes of a call. *)
Inductive scope_verdict :=
| ScopeOk
| InvalidScopePolicy
| ScopeViolation (v : ScopePolicyViolation).

Definition check_scope (registry : ScopeRegistry) (toolName scopePolicy : string) (arguments : RawMessage) : scope_verdict :=
  match registry_Get registry toolName with
  | None => ScopeOk
  | Some extractor =>
      match NewScopePolicy scopePolicy with
      | None => InvalidScopePolicy
      | Some policy =>
          if policy_Enabled policy
          then match Enforce policy (extractor arguments) with Some v => ScopeViolation v | None => ScopeOk end
          else ScopeOk
      end
  end.

(** ** The policy *)

(** A name list without a usable name, an explicit empty one included, leaves its
    type unconstrained; ValidateScopePolicy refuses only the blank name. *)
Lemma empty_list_unconstrained :
  option_map policy_Enabled (NewScopePolicy (requote "{'org':[]}")) = Some false /\
  option_map policy_Enabled (NewScopePolicy (requote "{'org':[' ']}")) = Some false /\
  ValidateScopePolicy (requote "{'org':[]}") = true /\
  ValidateScopePolicy (requote "{'org':[' ']}") = false.
Proof. vm_compute. auto. Qed.

Lemma value_set_spec values v :
  v ∈ value_set values <-> v <> "" /\ exists w, w ∈ values /\ v = normal_value w.
Proof.
  unfold value_set. rewrite elem_of_list_to_set, list_elem_of_In, filter_In, <- list_elem_of_In, list_elem_of_fmap.
  rewrite negb_true_iff, bool_decide_eq_false. naive_solver.
Qed.

Lemma violation_None extracted c : violation extracted c = None <-> default ∅ (extracted !! fst c) ⊆ snd c.
Proof.
  unfold violation. destruct (extracted !! fst c) as [found|]; cbn [default]; [|set_solver].
  destruct (List.find _ _) as [v|] eqn:E.
  - split; [done|]. intros Hsub. apply find_Some_elem in E as [Hv Hn]. bool_hyps. set_solver.
  - split; [|done]. intros _ v Hv. destruct (decide (v ∈ snd c)) as [?|Hn]; [done|].
    pose proof (proj1 (find_None_elem _ _) E v) as H. cbn in H. rewrite bool_decide_eq_false_2 in H by done.
    set_solver.
Qed.

Lemma first_violation_None extracted cs : first_violation extracted cs = None <-> Forall (fun c => violation extracted c = None) cs.
Proof.
  induction cs as [|c cs IH]; cbn; [by split|]. rewrite Forall_cons, <- IH.
  destruct (violation extracted c); intuition discriminate.
Qed.

Lemma Enforce_None p extracted :
  Enforce p extracted = None <->
  forall t allowed, constraints p !! t = Some allowed -> default ∅ (extracted !! t) ⊆ allowed.
Proof.
  unfold Enforce. rewrite first_violation_None, Forall_forall. split.
  - intros H t allowed Ht. apply elem_of_map_to_list in Ht. apply (violation_None extracted (t, allowed)), H, Ht.
  - intros H [t allowed] Ht%elem_of_map_to_list. by apply violation_None, H.
Qed.

Lemma constraint_lookup parsed t allowed :
  (omap constraint_of parsed : Targets) !! t = Some allowed <->
  exists values, parsed !! t = Some values /\ allowed = value_set values /\ allowed <> ∅.
Proof.
  rewrite (lookup_omap constraint_of parsed t). destruct (parsed !! t) as [values|]; cbn; [|naive_solver].
  unfold constraint_of. case_bool_decide; naive_solver.
Qed.
