(* ===== verification/GithubScope.v ===== *)
(** The resources a GitHub tool call names ([internal/gateway/scope_extract_github.go]):
    the extractor behind the "github" entry of the scope registry, with the part of
    [net/url] and [regexp] it uses.

    The two regular expressions are written out as scanners: leftmost match, greedy
    runs, the word boundary of ASCII letters.  Folding is that of ASCII. *)

From Stdlib Require Import Ascii String.
From stdpp Require Import strings gmap.
From S2P Require Import Prelude GoStrings GoJson GoFilepath Sanitize ResultJson ScopePolicy.

#[local] Open Scope string_scope.
#[local] Open Scope list_scope.

(** ** Targets *)

Record ghTargets := { orgs : gset string; repos : gset string }.

Definition newGHTargets : ghTargets := {| orgs := ∅; repos := ∅ |}.

Definition addOrg (org : string) (t : ghTargets) : ghTargets :=
  let org := ToLower (TrimSpace org) in
  if bool_decide (org = "") then t else {| orgs := {[org]} ∪ orgs t; repos := repos t |}.

Definition normalizeGHRepo (repo : string) : string :=
  match SplitByte (ToLower (TrimSpace repo)) "/" with
  | [owner; name] =>
      let owner := TrimSpace owner in
      let name := TrimSpace name in
      if bool_decide (owner = "") || bool_decide (name = "") then "" else owner +:+ "/" +:+ name
  | _ => ""
  end.

Definition ghRepoOwner (repo : string) : string :=
  match Cut repo "/" with Some (owner, _) => owner | None => "" end.

Definition addRepo (repo : string) (t : ghTargets) : ghTargets :=
  let repo := normalizeGHRepo repo in
  if bool_decide (repo = "") then t
  else addOrg (ghRepoOwner repo) {| orgs := orgs t; repos := {[repo]} ∪ repos t |}.

Definition asMap (t : ghTargets) : Targets :=
  let m := if bool_decide (orgs t = ∅) then ∅ else {["org" := orgs t]} in
  if bool_decide (repos t = ∅) then m else <["repo" := repos t]> m.

Definition ghAsString (v : option json) : string :=
  match v with Some (JStr s) => TrimSpace s | _ => "" end.

(** ** Search qualifiers *)

Definition is_letter (a : ascii) : bool := byte_in 65 90 a || byte_in 97 122 a.

Definition word_char (a : ascii) : bool := is_letter a || byte_in 48 57 a || bool_decide (a = "_"%char).

(** [[a-z0-9_.-]] *)
Definition name_char (a : ascii) : bool := word_char a || bool_decide (a = "."%char) || bool_decide (a = "-"%char).

Definition head_word (l : list ascii) : bool := match l with a :: _ => word_char a | [] => false end.

(** The longest run of name characters that ends at a word boundary, and the rest. *)
Fixpoint bounded_name (l : list ascii) : option (list ascii * list ascii) :=
  match l with
  | a :: l' =>
      if name_char a then
        match bounded_name l' with
        | Some (name, rest) => Some (a :: name, rest)
        | None => if xorb (word_char a) (head_word l') then Some ([a], l') else None
        end
      else None
  | [] => None
  end.

Fixpoint name_run (l : list ascii) : list ascii * list ascii :=
  match l with
  | a :: l' => if name_char a then let '(name, rest) := name_run l' in (a :: name, rest) else ([], l)
  | [] => ([], [])
  end.

Fixpoint fold_prefix (p : list ascii) (l : list ascii) : option (list ascii) :=
  match p, l with
  | [], _ => Some l
  | b :: p', a :: l' => if bool_decide (toLower a = b) then fold_prefix p' l' else None
  | _ :: _, [] => None
  end.

(** A match of [repo:(name)/(name)\b] here: "owner/name", the match's last byte and the rest. *)
Definition repo_here (l : list ascii) : option (string * list ascii) :=
  rest ← fold_prefix (list_ascii_of_string "repo:") l;
  let '(owner, rest) := name_run rest in
  match owner, rest with
  | _ :: _, "/"%char :: rest =>
      '(name, rest) ← bounded_name rest;
      Some (string_of_list_ascii owner +:+ "/" +:+ string_of_list_ascii name, rest)
  | _, _ => None
  end.

Definition org_here (l : list ascii) : option (string * list ascii) :=
  rest ← fold_prefix (list_ascii_of_string "org:") l;
  '(name, rest) ← bounded_name rest;
  Some (string_of_list_ascii name, rest).

(** All matches from left to right; [fuel] is the length of the text, [prev] whether
    the byte before is a word character.  A match ends at a boundary, so a word
    character follows one that is not, or the reverse. *)
Fixpoint qualifiers (here : list ascii -> option (string * list ascii)) (fuel : nat) (prev : bool) (l : list ascii)
    : list string :=
  match fuel, l with
  | S fuel', a :: l' =>
      match (if prev then None else here l) with
      | Some (found, rest) => found :: qualifiers here fuel' (negb (head_word rest)) rest
      | None => qualifiers here fuel' (word_char a) l'
      end
  | _, _ => []
  end.

Definition all_qualifiers (here : list ascii -> option (string * list ascii)) (s : string) : list string :=
  qualifiers here (String.length s) false (list_ascii_of_string s).

Definition extractGHFromQueryString (s : string) (t : ghTargets) : ghTargets :=
  let t := fold_left (fun t r => addRepo r t) (all_qualifiers repo_here s) t in
  fold_left (fun t o => addOrg o t) (all_qualifiers org_here s) t.

(** ** URLs *)

(** Whether a scheme is present, and what follows it; [None] is an error. *)
Fixpoint scheme_rest (first : bool) (s : string) : option (option string) :=
  match s with
  | EmptyString => Some None
  | String a s' =>
      if is_letter a then scheme_rest false s'
      else if byte_in 48 57 a || ContainsByte "+-." a then if first then Some None else scheme_rest false s'
      else if bool_decide (a = ":"%char) then if first then None else Some (Some s')
      else Some None
  end.

(** [None] is a malformed escape. *)
Fixpoint unescape (s : string) : option string :=
  match s with
  | EmptyString => Some ""
  | String a s' =>
      if bool_decide (a = "%"%char) then
        match s' with
        | String h (String l s'') =>
            hi ← hex_val h; lo ← hex_val l; r ← unescape s''; Some (String (ascii_of_N (hi * 16 + lo)) r)
        | _ => None
        end
      else r ← unescape s'; Some (String a r)
  end.

Definition before (s sep : string) : string := match Cut s sep with Some (b, _) => b | None => s end.

Definition userinfo_char (a : ascii) : bool :=
  is_letter a || byte_in 48 57 a || ContainsByte "-._:~!$&'()*+,;=%@" a.

(** What follows the last "@", and what is before it. *)
Fixpoint split_last_at (s : string) : option (string * string) :=
  match s with
  | EmptyString => None
  | String a s' =>
      match split_last_at s' with
      | Some (u, h) => Some (String a u, h)
      | None => if bool_decide (a = "@"%char) then Some ("", s') else None
      end
  end.

(** The host of an authority.  Its syntax is not checked here: the three hosts it
    is compared with are valid as they stand, and have no port. *)
Definition parseAuthority (authority : string) : option string :=
  match split_last_at authority with
  | None => Some authority
  | Some (userinfo, host) =>
      if string_existsb (fun a => negb (userinfo_char a)) userinfo then None
      else _ ← unescape userinfo; Some host
  end.

Definition control_byte (a : ascii) : bool := byte_in 0 31 a || byte_in 127 127 a.

(** Host and path of [url.Parse]; [None] is an error. *)
Definition url_Parse (raw : string) : option (string * string) :=
  let '(u, frag) := match Cut raw "#" with Some p => p | None => (raw, "") end in
  if string_existsb control_byte u then None
  else if bool_decide (u = "*") then _ ← unescape frag; Some ("", "*")
  else
    sr ← scheme_rest true u;
    let has_scheme := bool_decide (is_Some sr) in
    let rest := before (default u sr) "?" in
    res ← (if negb (HasPrefix rest "/") && has_scheme then Some ("", "")
           else if negb (HasPrefix rest "/") && Contains (before rest "/") ":" then None
           else if (has_scheme || negb (HasPrefix rest "///")) && HasPrefix rest "//" then
             let after := TrimPrefix rest "//" in
             let authority := before after "/" in
             host ← parseAuthority authority;
             path ← unescape (TrimPrefix after authority);
             Some (host, path)
           else path ← unescape rest; Some ("", path));
    _ ← unescape frag;
    Some res.

Definition github_hosts : list string := ["github.com"; "www.github.com"; "api.github.com"].

Definition extractGHFromURL (raw : string) (t : ghTargets) : ghTargets :=
  match url_Parse raw with
  | None => t
  | Some (host, path) =>
      if negb (bool_decide (ToLower host ∈ github_hosts)) then t
      else match SplitByte (TrimRight (TrimLeft path "/") "/") "/" with
           | p0 :: p1 :: ps =>
               match ps with
               | p2 :: _ => if bool_decide (p0 = "repos") then addRepo (p1 +:+ "/" +:+ p2) t
                            else addRepo (p0 +:+ "/" +:+ p1) t
               | [] => addRepo (p0 +:+ "/" +:+ p1) t
               end
           | _ => t
           end
  end.

(** ** Walking the arguments *)

Definition slash_count (s : string) : nat := List.length (List.filter (fun a => bool_decide (a = "/"%char)) (list_ascii_of_string s)).

Definition extractGHFromString (s : string) (t : ghTargets) : ghTargets :=
  let t := extractGHFromURL s t in
  let t := extractGHFromQueryString s t in
  if (slash_count (TrimSpace s) =? 1)%nat then addRepo s t else t.

(** [f] on the string of a field, unless it is blank. *)
Definition on_field (m : list (string * json)) (f : string -> ghTargets -> ghTargets) (t : ghTargets) (key : string) : ghTargets :=
  let s := ghAsString (object_get m key) in if bool_decide (s = "") then t else f s t.

Definition owned_repo (owner repo : string) (t : ghTargets) : ghTargets :=
  if bool_decide (owner = "") || bool_decide (repo = "") then t else addRepo (owner +:+ "/" +:+ repo) t.

Definition extractGHFromMap (m : list (string * json)) (t : ghTargets) : ghTargets :=
  let t := owned_repo (ghAsString (object_get m "owner")) (ghAsString (object_get m "repo")) t in
  let t := fold_left (on_field m addOrg) ["org"; "organization"] t in
  let t := fold_left (on_field m addRepo) ["full_name"; "repository"; "repository_name"] t in
  let t := match object_get m "repository" with
           | Some (JObj repoObj) =>
               owned_repo (ghAsString (object_get repoObj "owner")) (ghAsString (object_get repoObj "name")) t
           | _ => t
           end in
  let t := fold_left (on_field m extractGHFromURL) ["url"; "html_url"; "repository_url"; "clone_url"] t in
  fold_left (on_field m extractGHFromQueryString) ["query"; "q"; "search"; "text"] t.

(** The last pair of a key is the one the decoded map holds. *)
Fixpoint walkGHArgs (v : json) (t : ghTargets) : ghTargets :=
  match v with
  | JObj m =>
      (fix children (l : list (string * json)) (t : ghTargets) : ghTargets :=
         match l with
         | [] => t
         | (k, child) :: l' => children l' (if has_key k l' then t else walkGHArgs child t)
         end) m (extractGHFromMap m t)
  | JArr l => (fix items (l : list json) (t : ghTargets) : ghTargets :=
                 match l with [] => t | item :: l' => items l' (walkGHArgs item t) end) l t
  | JStr s => extractGHFromString s t
  | _ => t
  end.

(** Arguments that do not decode name nothing. *)
Definition GitHubExtractor : ScopeExtractor := fun args =>
  match args with
  | None => asMap newGHTargets
  | Some v => if json_decodable v then asMap (walkGHArgs v newGHTargets) else asMap newGHTargets
  end.

(** Samples: a repository by owner and name, by URL, by qualifier; a bare owner. *)
Example extract_samples :
  let found s := let t := walkGHArgs (default JNull (json_parse (requote s))) newGHTargets in
                 (elements (orgs t), elements (repos t)) in
  found "{'owner':'Acme','repo':'API'}" = (["acme"], ["acme/api"]) /\
  found "{'url':'https://github.com/acme/api/pull/3'}" = (["acme"], ["acme/api"]) /\
  found "{'url':'//x@API.github.com/repos/acme/api?q#f'}" = (["acme"], ["acme/api"]) /\
  found "{'q':'bug repo:acme/api. norepo:x/y org:Big-'}" = (["acme"; "big"], ["acme/api"]) /\
  found "{'owner':'acme'}" = ([], []).
Proof. vm_compute. auto. Qed.

(** ** Trimmed lower-case names *)

Lemma isSpace_toLower a : isSpace (toLower a) = isSpace a.
Proof. by destruct a as [[] [] [] [] [] [] [] []]. Qed.

Lemma toLower_idem a : toLower (toLower a) = toLower a.
Proof. by destruct a as [[] [] [] [] [] [] [] []]. Qed.

Lemma toLower_slash a : bool_decide (toLower a = "/"%char) = bool_decide (a = "/"%char).
Proof. by destruct a as [[] [] [] [] [] [] [] []]. Qed.

Lemma ToLower_idem s : ToLower (ToLower s) = ToLower s.
Proof. induction s as [|a s IH]; cbn; [done|]. by rewrite toLower_idem, IH. Qed.

Lemma ToLower_app s t : ToLower (s +:+ t) = ToLower s +:+ ToLower t.
Proof. induction s as [|a s IH]; cbn; [by rewrite !string_app_nil_l|]. by rewrite !string_app_cons, <- IH. Qed.

Lemma ToLower_rev s : ToLower (rev_string s) = rev_string (ToLower s).
Proof.
  induction s as [|a s IH]; [done|]. change (String a s) with (String a "" +:+ s).
  by rewrite ToLower_app, !rev_string_app, ToLower_app, IH.
Qed.

Lemma ToLower_slash s : ContainsByte (ToLower s) "/" = ContainsByte s "/".
Proof. unfold ContainsByte. induction s as [|a s IH]; cbn [ToLower string_existsb]; [done|]. by rewrite toLower_slash, IH. Qed.

Lemma ToLower_TrimLeft s : TrimLeftFunc (ToLower s) isSpace = ToLower (TrimLeftFunc s isSpace).
Proof.
  induction s as [|a s IH]; [done|]. cbn [ToLower TrimLeftFunc]. rewrite isSpace_toLower, IH.
  by destruct (isSpace a).
Qed.

Lemma ToLower_TrimSpace s : TrimSpace (ToLower s) = ToLower (TrimSpace s).
Proof.
  unfold TrimSpace, TrimRightFunc. rewrite ToLower_TrimLeft, <- !ToLower_rev, ToLower_TrimLeft. by rewrite ToLower_rev.
Qed.

(** What a name is compared as. *)
Definition gh_name (s : string) : string := ToLower (TrimSpace s).

Lemma gh_name_normal s : normal_value s = gh_name s.
Proof. done. Qed.

Lemma gh_name_fix s : ToLower (gh_name s) = gh_name s /\ TrimSpace (gh_name s) = gh_name s.
Proof. unfold gh_name. by rewrite ToLower_idem, ToLower_TrimSpace, TrimSpace_idem. Qed.

Lemma gh_name_nil s : gh_name s = "" <-> TrimSpace s = "".
Proof. unfold gh_name. by destruct (TrimSpace s). Qed.

Lemma TrimSpace_no_slash s : ContainsByte s "/" = false -> ContainsByte (TrimSpace s) "/" = false.
Proof.
  intros H. unfold TrimSpace. destruct (TrimLeftFunc_suffix s isSpace) as [pre Hp].
  destruct (TrimRightFunc_prefix (TrimLeftFunc s isSpace) isSpace) as [suf Hs].
  rewrite Hp, Hs in H. unfold ContainsByte in *. clear -H.
  set (t := TrimRightFunc _ _) in *. clearbody t. induction pre as [|a pre IH]; cbn in H.
  - rewrite string_app_nil_l in H. induction t as [|a t IH]; [done|]. rewrite string_app_cons in H. cbn in *.
    apply orb_false_iff in H as [-> H]. auto.
  - rewrite string_app_cons in H. cbn in H. apply orb_false_iff in H as [_ H]. auto.
Qed.

(** ** The walk only adds, and reaches every value *)

Record below (t t' : ghTargets) : Prop := { below_orgs : orgs t ⊆ orgs t'; below_repos : repos t ⊆ repos t' }.

#[local] Instance below_preorder : PreOrder below.
Proof. split; [by constructor|]. intros t1 t2 t3 [? ?] [? ?]. constructor; set_solver. Qed.

Lemma below_fold {A} (f : ghTargets -> A -> ghTargets) l t : (forall t x, below t (f t x)) -> below t (fold_left f l t).
Proof. intros Hf. revert t. induction l as [|x l IH]; intros t; cbn; [done|]. by rewrite <- IH. Qed.

Lemma addOrg_below o t : below t (addOrg o t).
Proof. unfold addOrg. case_bool_decide; [done|]. constructor; cbn; set_solver. Qed.

Lemma addRepo_below r t : below t (addRepo r t).
Proof. unfold addRepo. case_bool_decide; [done|]. rewrite <- addOrg_below. constructor; cbn; set_solver. Qed.

Create HintDb gh discriminated.
#[local] Hint Resolve addOrg_below addRepo_below : gh.
#[local] Hint Extern 0 (below ?t ?t) => reflexivity : gh.

Lemma query_below s t : below t (extractGHFromQueryString s t).
Proof. unfold extractGHFromQueryString. do 2 rewrite <- below_fold by eauto with gh. done. Qed.

Lemma url_below s t : below t (extractGHFromURL s t).
Proof. unfold extractGHFromURL. repeat case_match; eauto with gh. Qed.
#[local] Hint Resolve query_below url_below : gh.

Lemma string_below s t : below t (extractGHFromString s t).
Proof.
  unfold extractGHFromString. etransitivity; [apply (url_below s)|]. etransitivity; [apply (query_below s)|].
  destruct (_ =? _)%nat; auto with gh.
Qed.

Lemma owned_below o r t : below t (owned_repo o r t).
Proof. unfold owned_repo. destruct (_ || _); auto with gh. Qed.

Lemma field_below m f t key : (forall s t, below t (f s t)) -> below t (on_field m f t key).
Proof. intros Hf. unfold on_field. case_bool_decide; auto with gh. Qed.
#[local] Hint Resolve string_below owned_below field_below : gh.

Lemma map_below m t : below (owned_repo (ghAsString (object_get m "owner")) (ghAsString (object_get m "repo")) t)
                            (extractGHFromMap m t).
Proof.
  unfold extractGHFromMap. set (t0 := owned_repo _ _ t). clearbody t0.
  do 2 (etransitivity; [|apply below_fold; auto with gh]).
  etransitivity; [|case_match; [case_match|]; first [apply owned_below|reflexivity]].
  do 2 (etransitivity; [|apply below_fold; auto with gh]). done.
Qed.

(** The loops of [walkGHArgs]. *)
Fixpoint walk_children (l : list (string * json)) (t : ghTargets) : ghTargets :=
  match l with
  | [] => t
  | (k, child) :: l' => walk_children l' (if has_key k l' then t else walkGHArgs child t)
  end.

Definition walk_items (l : list json) (t : ghTargets) : ghTargets := fold_left (fun t item => walkGHArgs item t) l t.

Lemma walk_obj m t : walkGHArgs (JObj m) t = walk_children m (extractGHFromMap m t).
Proof. cbn [walkGHArgs]. set (t0 := extractGHFromMap m t). clearbody t0. revert t0. induction m as [|[k c] m IH]; intros t0; cbn; auto. Qed.

Lemma walk_arr l t : walkGHArgs (JArr l) t = walk_items l t.
Proof. cbn [walkGHArgs]. revert t. induction l as [|v l IH]; intros t; cbn; auto. Qed.

Lemma walk_children_below l t : Forall (fun p => forall t, below t (walkGHArgs (snd p) t)) l -> below t (walk_children l t).
Proof.
  intros H. revert t. induction H as [|[k c] l Hc _ IH]; intros t; cbn [walk_children]; [done|].
  rewrite <- IH. destruct (has_key k l); [done|apply Hc].
Qed.

Fixpoint walk_below (v : json) : forall t, below t (walkGHArgs v t).
Proof.
  intros t. destruct v as [|b|n|s|l|m]; try reflexivity; [apply string_below| |].
  - rewrite walk_arr. unfold walk_items. revert t. induction l as [|v l IH]; intros t; cbn; [done|].
    etransitivity; [apply (walk_below v)|apply IH].
  - rewrite walk_obj. etransitivity; [apply owned_below|]. etransitivity; [apply map_below|].
    apply walk_children_below. induction m as [|[k c] m IH]; constructor; [|done]. apply walk_below.
Qed.

(** [x] occurs in the decoded [v]. *)
Inductive occurs (x : json) : json -> Prop :=
| occurs_here : occurs x x
| occurs_item l v : v ∈ l -> occurs x v -> occurs x (JArr l)
| occurs_child l k v : object_get l k = Some v -> occurs x v -> occurs x (JObj l).

Lemma object_get_split l k v : object_get l k = Some v ->
  exists pre post, l = pre ++ (k, v) :: post /\ has_key k post = false.
Proof.
  induction l as [|[k' w] l IH]; [done|]. rewrite object_get_cons. destruct (object_get l k) as [u|] eqn:E.
  - intros [= ->]. destruct (IH eq_refl) as (pre & post & -> & H). by exists ((k', w) :: pre), post.
  - case_bool_decide; [|done]. intros [= ->]. subst. exists [], l. split; [done|]. by apply object_get_None.
Qed.

Lemma walk_children_reaches pre k v post t : has_key k post = false ->
  exists t1, below (walkGHArgs v t1) (walk_children (pre ++ (k, v) :: post) t).
Proof.
  intros Hk. revert t. induction pre as [|[k' w] pre IH]; intros t; cbn [app walk_children]; [|apply IH].
  rewrite Hk. exists t. apply walk_children_below, Forall_forall. intros p _ t'. apply walk_below.
Qed.

Lemma walk_reaches x v : occurs x v -> forall t, exists t1, below (walkGHArgs x t1) (walkGHArgs v t).
Proof.
  induction 1 as [|l v Hv _ IH|l k v Hv _ IH]; intros t; [by exists t| |].
  - apply list_elem_of_split in Hv as (pre & post & ->). rewrite walk_arr. unfold walk_items. rewrite fold_left_app. cbn.
    destruct (IH (fold_left (fun t item => walkGHArgs item t) pre t)) as [t1 H1]. exists t1. rewrite H1.
    apply below_fold. intros. apply walk_below.
  - apply object_get_split in Hv as (pre & post & -> & Hk). rewrite walk_obj.
    destruct (walk_children_reaches pre k v post (extractGHFromMap (pre ++ (k, v) :: post) t) Hk) as [t2 H2].
    destruct (IH t2) as [t1 H1]. exists t1. by rewrite H1.
Qed.

(** ** What a call that passes may name *)

(** A name as an owner or a repository is written: not blank, no slash. *)
Definition plain_name (s : string) : Prop := TrimSpace s <> "" /\ ContainsByte s "/" = false.

Lemma normalize_pair o r : plain_name o -> plain_name r ->
  normalizeGHRepo (TrimSpace o +:+ "/" +:+ TrimSpace r) = gh_name o +:+ "/" +:+ gh_name r.
Proof.
  intros [Ho Hos] [Hr Hrs]. unfold normalizeGHRepo.
  change ("/" +:+ TrimSpace r) with (String "/" (TrimSpace r)).
  rewrite TrimSpace_join by auto using TrimSpace_idem.
  change (String "/" (TrimSpace r)) with ("/" +:+ TrimSpace r). rewrite !ToLower_app.
  change (ToLower "/") with "/". fold (gh_name o) (gh_name r).
  assert (forall s, ContainsByte s "/" = false -> ContainsByte (gh_name s) "/" = false) as Hns.
  { intros s Hs. unfold gh_name. rewrite ToLower_slash. by apply TrimSpace_no_slash. }
  change ("/" +:+ gh_name r) with (String "/" (gh_name r)).
  rewrite (SplitByte_app_sep (gh_name o)), (SplitByte_single (gh_name r)) by (by apply Hns).
  rewrite (proj2 (gh_name_fix o)), (proj2 (gh_name_fix r)).
  by rewrite !bool_decide_eq_false_2 by (by rewrite gh_name_nil).
Qed.

Lemma owned_repo_adds o r t : plain_name o -> plain_name r ->
  (gh_name o +:+ "/" +:+ gh_name r) ∈ repos (owned_repo (TrimSpace o) (TrimSpace r) t) /\
  gh_name o ∈ orgs (owned_repo (TrimSpace o) (TrimSpace r) t).
Proof.
  intros Ho Hr. unfold owned_repo. rewrite !bool_decide_eq_false_2 by (apply Ho || apply Hr). cbn [orb].
  unfold addRepo. rewrite normalize_pair by done.
  assert (gh_name o <> "") as Hne by (rewrite gh_name_nil; apply Ho).
  rewrite bool_decide_eq_false_2 by (by destruct (gh_name o)).
  assert (ghRepoOwner (gh_name o +:+ "/" +:+ gh_name r) = gh_name o) as ->.
  { unfold ghRepoOwner. assert (ContainsByte (gh_name o) "/" = false) as Hs.
    { unfold gh_name. rewrite ToLower_slash. apply TrimSpace_no_slash, Ho. }
    change ("/" +:+ gh_name r) with (String "/" (gh_name r)). by rewrite (Cut_byte _ _ _ Hs). }
  unfold addOrg. rewrite (proj2 (gh_name_fix o)), (proj1 (gh_name_fix o)), bool_decide_eq_false_2 by done.
  cbn. set_solver.
Qed.

Lemma extractor_finds v m o r : json_decodable v = true -> occurs (JObj m) v ->
  object_get m "owner" = Some (JStr o) -> object_get m "repo" = Some (JStr r) -> plain_name o -> plain_name r ->
  (gh_name o +:+ "/" +:+ gh_name r) ∈ default ∅ (GitHubExtractor (Some v) !! "repo") /\
  gh_name o ∈ default ∅ (GitHubExtractor (Some v) !! "org").
Proof.
  intros Hd Hocc Hmo Hmr Ho Hr. unfold GitHubExtractor. rewrite Hd.
  destruct (walk_reaches _ _ Hocc newGHTargets) as [t1 H1]. set (t := walkGHArgs v newGHTargets) in *.
  destruct (owned_repo_adds o r t1 Ho Hr) as [Hin1 Hin2].
  assert (below (owned_repo (TrimSpace o) (TrimSpace r) t1) t) as [Hb1 Hb2].
  { rewrite <- H1, walk_obj. etransitivity; [|apply walk_children_below, Forall_forall; intros; apply walk_below].
    pose proof (map_below m t1) as Hm. by rewrite Hmo, Hmr in Hm. }
  unfold asMap. rewrite (bool_decide_eq_false_2 (repos t = ∅)) by set_solver.
  rewrite (bool_decide_eq_false_2 (orgs t = ∅)) by set_solver.
  rewrite lookup_insert, lookup_insert_ne, lookup_singleton by done. cbn. split; set_solver.
Qed.

Lemma policy_lists raw parsed : string_lists raw = Some parsed ->
  exists p, NewScopePolicy raw = Some p /\ constraints p = omap constraint_of parsed.
Proof.
  unfold NewScopePolicy. intros H.
  destruct (bool_decide_reflect (raw = "")); [by subst|].
  destruct (bool_decide_reflect (raw = "{}")); [subst; vm_compute in H; injection H as <-; by eexists|].
  destruct (bool_decide_reflect (raw = "null")); [subst; vm_compute in H; injection H as <-; by eexists|].
  cbn [orb]. rewrite H. by eexists.
Qed.

Lemma check_scope_passes registry tool raw args extractor parsed t values x :
  registry_Get registry tool = Some extractor -> string_lists raw = Some parsed -> parsed !! t = Some values ->
  value_set values <> ∅ -> check_scope registry tool raw args = ScopeOk ->
  x ∈ default ∅ (extractor args !! t) -> exists w, w ∈ values /\ normal_value w = x.
Proof.
  intros Hreg Hraw Ht Hne. unfold check_scope. rewrite Hreg.
  destruct (policy_lists _ _ Hraw) as (p & -> & Hp).
  assert (constraints p !! t = Some (value_set values)) as Hc.
  { rewrite Hp. apply constraint_lookup. eauto. }
  unfold policy_Enabled. rewrite bool_decide_eq_false_2 by (intros E; by rewrite E in Hc). cbn [negb].
  destruct (Enforce p (extractor args)) eqn:E; [done|]. intros _ Hx.
  pose proof (proj1 (Enforce_None _ _) E _ _ Hc x Hx) as (_ & w & ? & ->)%value_set_spec. eauto.
Qed.

(** C6: Let a call whose arguments decode (no number beyond float64) pass the scope
    test.  Whatever object of its arguments gives an owner and a repository as plain
    names - strings that are not blank and hold no slash - names a repository the
    route lists, and an owner the route lists, when the route lists any. *)
Theorem scope_confines (registry : ScopeRegistry) (tool raw : string) (v : json)
    (parsed : gmap string (list string)) (m : list (string * json)) (o r : string)
    (Hreg : registry_Get registry tool = Some GitHubExtractor) (Hraw : string_lists raw = Some parsed)
    (Hpass : check_scope registry tool raw (Some v) = ScopeOk) (Hdec : json_decodable v = true)
    (Hocc : occurs (JObj m) v) (Hmo : object_get m "owner" = Some (JStr o)) (Hmr : object_get m "repo" = Some (JStr r))
    (Ho : plain_name o) (Hr : plain_name r) :
  (forall values, parsed !! "repo" = Some values -> value_set values <> ∅ ->
     exists w, w ∈ values /\ normal_value w = gh_name o +:+ "/" +:+ gh_name r) /\
  (forall values, parsed !! "org" = Some values -> value_set values <> ∅ ->
     exists w, w ∈ values /\ normal_value w = gh_name o).
Proof.
  destruct (extractor_finds v m o r Hdec Hocc Hmo Hmr Ho Hr) as [H1 H2].
  split; intros values Hv Hne; eapply check_scope_passes; eauto.
Qed.

Definition gateway_registry : ScopeRegistry := Register "github" GitHubExtractor NewScopeRegistry.

Definition parsed_args (s : string) : json := default JNull (json_parse (requote s)).

Lemma scope_confines_witness :
  exists w, w ∈ ["acme/api"; "Acme/Web "] /\ normal_value w = "acme/web".
Proof.
  assert (exists parsed, string_lists (requote "{'repo':['acme/api','Acme/Web ']}") = Some parsed /\
            parsed !! "repo" = Some ["acme/api"; "Acme/Web "]) as (parsed & Hp & Hl).
  { eexists. split; [vm_compute; reflexivity|]. reflexivity. }
  refine (proj1 (scope_confines gateway_registry "github__add_comment" _
    (parsed_args "{'batch':[{'owner':' ACME','repo':'web'}]}") parsed
    [("owner", JStr " ACME"); ("repo", JStr "web")] " ACME" "web" _ Hp _ _ _ _ _ _ _) _ Hl _).
  - reflexivity.
  - vm_compute. reflexivity.
  - vm_compute. reflexivity.
  - eapply (occurs_child _ _ "batch"); [reflexivity|]. eapply occurs_item; [by apply list_elem_of_singleton|constructor].
  - reflexivity.
  - reflexivity.
  - by split.
  - by split.
  - intros E. assert ("acme/api" ∈ value_set ["acme/api"; "Acme/Web "]) as H by (vm_compute; reflexivity).
    rewrite E in H. by apply not_elem_of_empty in H.
Defined.

(** Arguments that hold a number beyond float64 name nothing, and pass. *)
Lemma huge_number_passes :
  check_scope gateway_registry "github__get_file" (requote "{'org':['acme']}")
    (Some (parsed_args "{'owner':'evil','repo':'x'}")) <> ScopeOk /\
  check_scope gateway_registry "github__get_file" (requote "{'org':['acme']}")
    (Some (parsed_args "{'owner':'evil','repo':'x','n':1e999}")) = ScopeOk.
Proof. split; [|vm_compute; reflexivity]. intros H. by vm_compute in H. Qed.

(** A path of one slash is taken for a repository: the call on a listed
    repository is refused. *)
Lemma path_taken_for_repository :
  check_scope gateway_registry "github__get_file" (requote "{'repo':['acme/api']}")
    (Some (parsed_args "{'owner':'acme','repo':'api','path':'main.go'}")) = ScopeOk /\
  check_scope gateway_registry "github__get_file" (requote "{'repo':['acme/api']}")
    (Some (parsed_args "{'owner':'acme','repo':'api','path':'src/main.go'}")) <> ScopeOk.
Proof. split; [vm_compute; reflexivity|]. intros H. by vm_compute in H. Qed.

(** An owner without a repository names no organisation. *)
Lemma owner_alone_passes :
  check_scope gateway_registry "github__list_repos" (requote "{'org':['acme']}")
    (Some (parsed_args "{'owner':'evil'}")) = ScopeOk.
Proof. vm_compute. reflexivity. Qed.
