(* ===== verification/Pipeline.v ===== *)
(** The pipeline of a tool call: [handleToolsCall] of [internal/gateway/handler_tools.go]
    with the wrappers that re-enter it ([handler_call_tool.go], [handleCodeExecute] of
    [handler_codemode.go]), the approval gate of [handler_builtin.go] and
    [mapRouteError] of [handler.go]; a client of Harness, AdminGate, Gates, Routing,
    ResultJson, ScopePolicy and ErrorTracker.

    A handler is a computation [M]: it reads and writes the gateway's state, may
    return early ([Return]), panic, or - only by nesting calls deeper than its fuel -
    stop.  What is outside (settings, clock, catalogues, the other built-in handlers, sandbox
    code, approvals, add-ons, downstream servers, compression, mesh) is the record
    [Backend]; sandbox code is a tree of calls ([prog]).  Every effect the theorems
    speak of is an [event] of the log; what the store says about servers is fixed
    during a call. *)

From Stdlib Require Import Ascii String.
From stdpp Require Import strings list gmap pretty.
From S2P Require Import Prelude GoStrings GoJson Toolgate Routing Harness AdminGate Gates Sanitize ResultJson ErrorTracker ScopePolicy.

#[local] Open Scope string_scope.
#[local] Open Scope list_scope.

(** ** Answers *)

Definition CodeInvalidRequest : Z := -32600.
Definition CodeMethodNotFound : Z := -32601.
Definition CodeInvalidParams : Z := -32602.
Definition CodeInternalError : Z := -32603.
Definition CodeRouteNotFound : Z := -32003.
Definition CodeProcessError : Z := -32002.

(** The texts that name nothing but a cause are constructors. *)
Inductive message :=
| BadRequest
| PureMode
| Denied (d : denial)
| AdminOnly (tool : string)
| NoMatchingRoute (tool : string)
| RouteDenied
| RouteFailed (msg : string)
| WorkspaceDenied (e : access_error)
| BadScopePolicy
| ScopeRefused (v : ScopePolicyViolation)
| NoDownstream
| ApprovalFailed (msg : string)
| AddonFailed (tool msg : string)
| BadWrapperCall (e : wrapper_error)
| CannotInvokeItself
| CannotInvokeExecute
| CodeRequired
| GatherFailed
| Text (s : string).

Record RPCError := { Code : Z; Message : message }.

Definition rpc (code : Z) (m : message) : RPCError := {| Code := code; Message := m |}.

Definition response := (RawMessage * option RPCError)%type.

Record CallToolRequest := { req_Name : string; req_Arguments : RawMessage }.

Record AddonTool := { at_AuthScopeID : string }.

(** What the gate asks the approval manager. *)
Record ApprovalRequest := {
  ar_ToolName : string; ar_Arguments : RawMessage; ar_Justification : string; ar_SessionID : string;
  ar_WorkspaceID : string; ar_RouteRuleID : string; ar_DownstreamServerID : string; ar_AuthScopeID : string;
  ar_TimeoutSec : Z }.

(** Approved or not, and the resolution's text. *)
Definition verdict := result string (bool * string).

(** What a call got past the gates with: the name they judged, its route, and the
    name it was corrected from ("" when it was not). *)
Record passage := { p_asked : string; p_route : RouteResult; p_fuzzy : string }.

Inductive event :=
| Blocked (c : Ctx) (tool : string) (args : RawMessage) (route : option RouteResult) (result : RawMessage) (err : option RPCError)
| Audited (c : Ctx) (tool : string) (args : RawMessage) (route : option RouteResult) (result : RawMessage) (err : option RPCError) (hit : bool)
| SkillInvocation (skill tool : string) (allowed : bool)
| SanitizeEvent (tool : string) (m : Match)
| Asked (r : ApprovalRequest) (v : verdict)
| BuiltinCall (c : Ctx) (tool : string) (args : RawMessage) (p : passage)
| AddonCall (c : Ctx) (tool scope : string) (args : RawMessage) (p : passage)
| DownstreamCall (c : Ctx) (tool original : string) (args : RawMessage) (bust : bool) (p : passage)
| ScriptRun (c : Ctx) (code : string)
| NestedCall (c : Ctx) (tool : string) (args : RawMessage)
| PanicAt (tool : string).

(** ** Sandbox code: the calls it makes, each given what came back; [None] is a
    panic the sandbox recovered. *)
Inductive prog :=
| Finish (out : result string RawMessage)
| CallThen (tool : string) (args : RawMessage) (k : option response -> prog).

(** ** The outside *)

Record called := { c_Data : RawMessage; c_CacheHit : bool; c_CacheAge : Z }.

Inductive manager (W : Type) :=
| CachingCaller (call : Ctx -> string -> string -> string -> RawMessage -> bool -> W -> result call_error called * W)
| PlainCaller (call : Ctx -> string -> string -> string -> RawMessage -> W -> result call_error RawMessage * W).
Arguments CachingCaller {W}.
Arguments PlainCaller {W}.

Record Backend (W : Type) := {
  b_pureMode : W -> bool;
  b_now : W -> Z;
  b_newID : W -> string * W;
  b_gather : Ctx -> W -> option (list Tool) * W;                   (** gatherCodeModeTools *)
  b_catalog : Ctx -> string -> W -> RawMessage * W;                (** one server's entry of its tools/list *)
  b_builtin : Ctx -> string -> RawMessage -> W -> response * W;    (** the handlers not modelled here *)
  b_preflight : string -> RawMessage;                              (** what Preflight's issues read, if any *)
  b_script : Ctx -> string -> list Tool -> W -> prog;
  b_approvals : option (ApprovalRequest -> W -> verdict * W);
  b_addons : option ((string -> option AddonTool) * (Ctx -> string -> string -> RawMessage -> W -> result string RawMessage * W));
  b_manager : manager W;
  b_compress : Ctx -> string -> RawMessage -> W -> RawMessage * W;
  b_pending : Ctx -> W -> N * W }.                                  (** 0 without a mesh or on an error *)
Arguments b_pureMode {W}. Arguments b_now {W}. Arguments b_newID {W}. Arguments b_gather {W}. Arguments b_catalog {W}.
Arguments b_builtin {W}. Arguments b_preflight {W}. Arguments b_script {W}. Arguments b_approvals {W}.
Arguments b_addons {W}. Arguments b_manager {W}. Arguments b_compress {W}. Arguments b_pending {W}.

(** What does not change during a call. *)
Record Gateway := {
  g_store : Store;
  g_range : gset string -> list string;
  g_host : Host;
  g_adminGate : option AdminCWDGate;
  g_session : Session;
  g_executeTool : Tool;
  g_builtins : list Tool;                       (** builtinToolsExceptCodeExecute *)
  g_searchable : list Tool;
  g_capabilities : string -> option string;
  g_serverName : string -> option string;
  g_registry : ScopeRegistry;
  g_sanitizer : option Denylist;
  g_envelopeAlways : bool;
  g_float : string -> string }.

Record state (W : Type) := { engine : Engine; tracker : errorTracker; world : W; log : list event }.
Arguments engine {W}. Arguments tracker {W}. Arguments world {W}. Arguments log {W}.

(** ** Computations *)

Inductive outcome (A : Type) :=
| Val (a : A)
| Return (r : response)
| Panicked
| NoFuel.
Arguments Val {A}. Arguments Return {A}. Arguments Panicked {A}. Arguments NoFuel {A}.

Definition M (W A : Type) : Type := state W -> outcome A * state W.

#[export] Instance M_ret W : MRet (M W) := fun A a s => (Val a, s).

#[export] Instance M_bind W : MBind (M W) := fun A B f m s =>
  match m s with
  | (Val a, s') => f a s'
  | (Return r, s') => (Return r, s')
  | (Panicked, s') => (Panicked, s')
  | (NoFuel, s') => (NoFuel, s')
  end.

Section Handler.
Context {W : Type}.
Variable B : Backend W.
Variable G : Gateway.

Definition gets {A} (f : state W -> A) : M W A := fun s => (Val (f s), s).

Definition emit (e : event) : M W unit := fun s =>
  (Val tt, {| engine := engine s; tracker := tracker s; world := world s; log := log s ++ [e] |}).

(** A call of the outside. *)
Definition outside {A} (f : W -> A * W) : M W A := fun s =>
  let '(a, w) := f (world s) in (Val a, {| engine := engine s; tracker := tracker s; world := w; log := log s |}).

Definition on_tracker {A} (f : Z -> errorTracker -> A * errorTracker) : M W A := fun s =>
  let '(a, t) := f (b_now B (world s)) (tracker s) in
  (Val a, {| engine := engine s; tracker := t; world := world s; log := log s |}).

Definition early {A} (r : response) : M W A := fun s => (Return r, s).

Definition panicked {A} : M W A := fun s => (Panicked, s).

(** A handler's early return is its answer. *)
Definition returned (m : M W response) : M W response := fun s =>
  match m s with (Return r, s') => (Val r, s') | r => r end.

(** The sandbox recovers a panic. *)
Definition recovered (m : M W response) : M W (option response) := fun s =>
  match m s with
  | (Val r, s') => (Val (Some r), s')
  | (Return r, s') => (Val (Some r), s')
  | (Panicked, s') => (Val None, s')
  | (NoFuel, s') => (NoFuel, s')
  end.

(** ** Rows and refusals *)

Definition recordAuditBlocked (c : Ctx) (tool : string) (args : RawMessage) (route : option RouteResult)
    (result : RawMessage) (err : option RPCError) : M W unit :=
  emit (Blocked c tool args route result err).

Definition recordAudit (c : Ctx) (tool : string) (args : RawMessage) (route : option RouteResult)
    (result : RawMessage) (err : option RPCError) : M W unit :=
  emit (Audited c tool args route result err false).

Definition blocked_with {A} (c : Ctx) (tool : string) (args : RawMessage) (route : option RouteResult) (err : RPCError) : M W A :=
  recordAuditBlocked c tool args route None (Some err) ;; early (None, Some err).

Definition failed_with {A} (c : Ctx) (tool : string) (args : RawMessage) (route : option RouteResult) (err : RPCError) : M W A :=
  recordAudit c tool args route None (Some err) ;; early (None, Some err).

(** [blocked_with] the error a gate gives, if it gives one. *)
Definition gate {E} (o : option E) (to_rpc : E -> RPCError) (c : Ctx) (tool : string) (args : RawMessage)
    (route : option RouteResult) : M W unit :=
  match o with
  | Some e => blocked_with c tool args route (to_rpc e)
  | None => mret tt
  end.

Definition denied_params (d : denial) : RPCError := rpc CodeInvalidParams (Denied d).

Definition marshalErrorResult (text : string) : RawMessage :=
  Some (encode_result (g_float G) {| ctr_Content := [{| ci_Type := "text"; ci_Text := text |}];
                                     ctr_StructuredContent := None; ctr_IsError := true |}).

Definition recordSkillInvocation (c : Ctx) (tool : string) (allowed : bool) : M W unit :=
  if bool_decide (skillID c = "") then mret tt else emit (SkillInvocation (skillID c) tool allowed).

(** ** Before the route *)

Definition direct_refusal : string :=
  "Direct tool calls are disabled. Use mcpx__call_tool for one small independent call, or mcpx__execute_code for composed workflows.".

Definition worker_origin (c : Ctx) : bool := internalToolCall c || isolated c.

Definition stamp_execution (c : Ctx) (name : string) : M W Ctx :=
  if (bool_decide (name = codeExecuteToolName) || bool_decide (name = callToolName)) && bool_decide (executionID c = "")
  then id ← outside (b_newID B); mret (withExecutionID id c)
  else mret c.

Definition stamp_trust (c : Ctx) (name : string) : Ctx :=
  if IsAdminTool name then WithAdminTrust (adminTrustLevel (g_host G) (g_adminGate G) (g_session G) c) c else c.

(** The worker's allowlist, then its capability profile. *)
Definition worker_gates (c : Ctx) (name : string) (args : RawMessage) : M W unit :=
  gate (checkWorkerToolAllowlist c name) denied_params c name args None ;;
  gate (checkWorkerCapability c name) denied_params c name args None.

Definition skill_gate (c : Ctx) (name : string) (args : RawMessage) : M W unit :=
  match checkSkillAllowlist c name with
  | Some d =>
      recordAuditBlocked c name args None None (Some (denied_params d)) ;;
      recordSkillInvocation c name false ;;
      early (None, Some (denied_params d))
  | None => recordSkillInvocation c name true
  end.

(** The context the call goes on with. *)
Definition entry_gates (c : Ctx) (name : string) (args : RawMessage) : M W Ctx :=
  gate (guardWorkerFilesystemToolName c name) denied_params c name args None ;;
  c ← stamp_execution c name;
  (if negb (internalToolCall c) && negb (isBuiltinTool name)
   then recordAuditBlocked c name args None (marshalErrorResult direct_refusal) None ;;
        early (marshalErrorResult direct_refusal, None)
   else mret tt) ;;
  (if worker_origin c then worker_gates c name args else mret tt) ;;
  (if admin_refused (g_host G) (g_adminGate G) (g_session G) c name
   then blocked_with c name args None (rpc CodeInvalidRequest (AdminOnly name))
   else mret tt) ;;
  let c := stamp_trust c name in
  skill_gate c name args ;;
  mret c.

(** ** The route *)

Definition RouteCall (c : Ctx) (name : string) : M W (result route_error RouteResult) := fun s =>
  let '(r, e) := RouteWithFallback (g_store G) (g_range G) (b_now B (world s))
                   {| rc_WorkspaceID := ""; rc_Subpath := ""; rc_ToolName := name |}
                   (routingClientRoot (g_session G) c) (routingWorkspaceAncestors (g_session G) c) (engine s) in
  (Val r, {| engine := e; tracker := tracker s; world := world s; log := log s |}).

Definition tryFuzzyToolRecovery (c : Ctx) (name : string) : M W (option string) :=
  tools ← outside (b_gather B c);
  mret (match tools with
        | None => None
        | Some l => option_map t_Name (fuzzyMatchTool name l)
        end).

Definition mapRouteError (e : route_error) : RPCError :=
  match e with
  | ErrNoRoute => rpc CodeRouteNotFound (Text "no matching route")
  | DeniedError _ => rpc CodeRouteNotFound RouteDenied
  | StoreError msg => rpc CodeInternalError (RouteFailed msg)
  end.

(** Its suggestions are left out; it looks for them among the gathered tools. *)
Definition noRouteMessage (c : Ctx) (name : string) : M W message :=
  _ ← outside (b_gather B c); mret (NoMatchingRoute name).

Definition route_refused {A} (c : Ctx) (name : string) (args : RawMessage) (e : route_error) : M W A :=
  err ← (match e with
         | ErrNoRoute => m ← noRouteMessage c name; mret (rpc CodeRouteNotFound m)
         | _ => mret (mapRouteError e)
         end);
  blocked_with c name args None err.

(** The name the call is dispatched under and its route; a corrected name comes
    with the one it replaces. *)
Definition find_route (c : Ctx) (name : string) (args : RawMessage) : M W (string * passage) :=
  routed ← RouteCall c name;
  match routed with
  | Ok route => mret (name, {| p_asked := name; p_route := route; p_fuzzy := "" |})
  | Err e =>
      if internalToolCall c && negb (isolated c) then
        corrected ← tryFuzzyToolRecovery c name;
        match corrected with
        | Some corrected =>
            worker_gates c corrected args ;;
            routed ← RouteCall c corrected;
            match routed with
            | Ok route => mret (corrected, {| p_asked := name; p_route := route; p_fuzzy := name |})
            | Err e => route_refused c corrected args e
            end
        | None => route_refused c name args e
        end
      else route_refused c name args e
  end.

(** ** The arguments *)

Definition builtinToolFullName (serverID originalToolName : string) : string :=
  if bool_decide (originalToolName = "") then ""
  else match CutSuffix serverID "-builtin" with
       | None => ""
       | Some ns => if bool_decide (ns = "") then ""
                    else if Contains originalToolName "__" then originalToolName
                    else ns +:+ "__" +:+ originalToolName
       end.

Definition stringFieldsForBuiltinTool (tools : list Tool) (fullToolName : string) : list string :=
  if bool_decide (fullToolName = "") then []
  else match List.find (fun t => bool_decide (t_Name t = fullToolName)) tools with
       | Some t => stringFieldsFromInputSchema (t_InputSchema t)
       | None => []
       end.

Definition codeExecuteInputSchema : RawMessage :=
  json_parse (requote "{'type':'object','properties':{'code':{'type':'string'}},'required':['code']}").

Definition builtinStringFields (fullToolName : string) : list string :=
  if bool_decide (fullToolName = "") then []
  else if bool_decide (fullToolName = codeExecuteToolName) then stringFieldsFromInputSchema codeExecuteInputSchema
  else stringFieldsForBuiltinTool (g_builtins G) fullToolName.

(** A tool of a tools/list answer: its name and schema. *)
Definition decode_listed (v : json) : option (string * RawMessage) :=
  match v with
  | JObj l => name ← struct_string l "name"; Some (name, struct_field l "inputSchema")
  | JNull => Some ("", None)
  | _ => None
  end.

Definition listed_fields (raw : RawMessage) (originalToolName : string) : list string :=
  match raw with
  | Some (JObj l) =>
      match struct_field l "tools" with
      | Some (JArr items) =>
          match mapM decode_listed items with
          | Some tools =>
              match List.find (fun t => bool_decide (fst t = originalToolName)) tools with
              | Some (_, schema) => stringFieldsFromInputSchema schema
              | None => []
              end
          | None => []
          end
      | _ => []
      end
  | _ => []
  end.

Definition toolInputStringFields (c : Ctx) (serverID originalToolName : string) : M W (list string) :=
  if bool_decide (serverID = "") || bool_decide (originalToolName = "") then mret []
  else if is_builtin_route serverID then mret (builtinStringFields (builtinToolFullName serverID originalToolName))
  else raw ← outside (b_catalog B c serverID); mret (listed_fields raw originalToolName).

(** The guards on the route, and the arguments the call goes on with. *)
Definition route_gates (c : Ctx) (name : string) (args : RawMessage) (route : RouteResult) : M W RawMessage :=
  gate (guardWorkerFilesystemRoute c name (res_DownstreamServerID route)) denied_params c name args (Some route) ;;
  gate (enforceWorkerRouteAccess (g_executeTool G :: g_builtins G) (g_searchable G) (g_capabilities G) c name
          (extractOriginalToolName name) route)
    (fun e => rpc CodeInvalidRequest (WorkspaceDenied e)) c name args (Some route) ;;
  stringFields ← toolInputStringFields c (res_DownstreamServerID route) (extractOriginalToolName name);
  let args := coerceStringifiedArgs args stringFields in
  if worker_origin c then
    match guardWorkerFilesystemArgs c name args with
    | Err d => blocked_with c name args (Some route) (denied_params d)
    | Ok guarded => mret guarded
    end
  else mret args.

(** ** Results on their way back *)

(** An injection; on a nil map it panics. *)
Definition inject (tool : string) (w : written) : M W RawMessage :=
  match w with
  | Written r => mret r
  | Panic => emit (PanicAt tool) ;; panicked
  end.

Definition notice_text (count : N) : string :=
  "[mesh: " +:+ pretty count +:+ " pending message(s) — call mesh__receive to read]".

Definition appendMeshNoticeBlock (result : RawMessage) (count : N) : RawMessage :=
  match result with
  | Some (JObj l) =>
      if envelopeIsError l then result
      else match object_get l "content" with
           | Some (JArr (x :: xs)) =>
               Some (JObj (map_set "content"
                 (JArr ((x :: xs) ++ [JObj [("type", JStr "text"); ("text", JStr (notice_text count))]])) l))
           | _ => result
           end
  | _ => result
  end.

Definition piggybackMeshNotice (c : Ctx) (result : RawMessage) : M W RawMessage :=
  if internalCodeModeCall c then mret result
  else count ← outside (b_pending B c);
       mret (if (count =? 0)%N then result else appendMeshNoticeBlock result count).

Definition trackAndAnnotateError (code : Z) (text : string) : M W RPCError :=
  struggling ← on_tracker (fun now t => RecordError now text t);
  hint ← on_tracker (fun _ t => (Guidance t, t));
  mret (rpc code (Text (if (struggling : bool) then text +:+ hint else text))).

(** The sanitizer's own audit row, its status [sanitized]. *)
Definition recordSanitizeEvent (tool : string) (m : Match) : M W unit := emit (SanitizeEvent tool m).

Definition record_hits (hits : list (string * Match)) : M W unit :=
  fold_left (fun done '(tool, m) => done ;; recordSanitizeEvent tool m) hits (mret tt).

(** ** Built-in tools; [rec] is the pipeline, for the wrappers *)

Section Wrappers.
Variable rec : Ctx -> string -> RawMessage -> M W response.

(** Marshalling the request and decoding it again changes nothing. *)
Definition callToolThroughPipeline (c : Ctx) (name : string) (args : RawMessage) : M W response :=
  emit (NestedCall c name args) ;; rec c name args.

Definition raw_size (r : RawMessage) : nat := match r with Some v => String.length (json_marshal v) | None => 0 end.

Definition handleCallTool (c : Ctx) (raw : RawMessage) : M W response :=
  match decodeCallToolArgs raw with
  | Err e => mret (None, Some (rpc CodeInvalidParams (BadWrapperCall e)))
  | Ok args =>
      let target := resolveHarnessToolName (cta_Name args) in
      if bool_decide (target = callToolName) then mret (None, Some (rpc CodeInvalidParams CannotInvokeItself))
      else if bool_decide (target = codeExecuteToolName) then mret (None, Some (rpc CodeInvalidParams CannotInvokeExecute))
      else
        res ← callToolThroughPipeline (withInternalToolCall c) target (cta_Arguments args);
        let '(result, err) := res in
        mret (match err with
              | Some _ => (result, err)
              | None => (annotateLargeCallToolResult (g_float G) (raw_size result) result target, None)
              end)
  end.

Fixpoint run_prog (c : Ctx) (p : prog) : M W (result string RawMessage) :=
  match p with
  | Finish out => mret out
  | CallThen tool args k => r ← recovered (callToolThroughPipeline c tool args); run_prog c (k r)
  end.

Definition handleCodeExecute (c : Ctx) (code : string) : M W response :=
  match b_preflight B code with
  | Some issues => mret (Some issues, None)
  | None =>
      gathered ← outside (b_gather B c);
      match gathered with
      | None => mret (None, Some (rpc CodeInternalError GatherFailed))
      | Some tools =>
          let toolDefs := codeModeToolDefs (g_host G) (g_adminGate G) (g_session G) c tools (g_searchable G) in
          execID ← (if bool_decide (executionID c = "") then outside (b_newID B) else mret (executionID c));
          let execCtx := withExecutionID execID (withInternalCodeModeCall c) in
          emit (ScriptRun execCtx code) ;;
          p ← gets (fun s => b_script B execCtx code toolDefs (world s));
          out ← run_prog execCtx p;
          match out with
          | Err msg => err ← trackAndAnnotateError CodeInternalError ("code execution failed: " +:+ msg); mret (None, Some err)
          | Ok result => r ← outside (b_compress B c codeExecuteToolName result); mret (r, None)
          end
      end
  end.

Definition execute_code_args (raw : RawMessage) : option string :=
  match raw with
  | Some (JObj l) => struct_string l "code"
  | Some JNull => Some ""
  | _ => None
  end.

Definition handleBuiltinCall (c : Ctx) (req : CallToolRequest) (p : passage) : M W response :=
  let name := req_Name req in
  emit (BuiltinCall c name (req_Arguments req) p) ;;
  if bool_decide (name = callToolName) then handleCallTool c (req_Arguments req)
  else if bool_decide (name = codeExecuteToolName) then
    match execute_code_args (req_Arguments req) with
    | None => mret (None, Some (rpc CodeInvalidParams BadRequest))
    | Some code => if bool_decide (code = "") then mret (None, Some (rpc CodeInvalidParams CodeRequired))
                   else handleCodeExecute c code
    end
  else outside (b_builtin B c name (req_Arguments req)).

Definition builtin_stage (c : Ctx) (name : string) (args : RawMessage) (p : passage) : M W response :=
  res ← handleBuiltinCall c {| req_Name := name; req_Arguments := args |} p;
  let '(result, err) := res in
  result ← (match err with
            | Some _ => mret result
            | None =>
                result ← (if bool_decide (p_fuzzy p = "") then mret result
                          else inject name (injectFuzzyCorrectionMeta result (p_fuzzy p) name));
                let result := if isTrustedBuiltinResult name then result else surfaceStructuredContent result in
                if negb (isMeshTool name) && negb (bool_decide (name = callToolName))
                then piggybackMeshNotice c result else mret result
            end);
  recordAudit c name args (Some (p_route p)) result err ;;
  mret (result, err).
End Wrappers.

(** ** Downstream tools *)

Definition decode_approval_args (args : RawMessage) : list (string * json) :=
  match args with Some (JObj l) => l | _ => [] end.

Definition justification_of (args : RawMessage) : string :=
  match object_get (decode_approval_args args) "_justification" with Some (JStr s) => TrimSpace s | _ => "" end.

Definition justification_wanted : string :=
  "This tool requires approval before execution. Retry your call with an additional `_justification` field explaining why you need to use this tool.".

(** Returns when approved; the stripped arguments are those of its own copy of the request. *)
Definition handleApprovalGate (approvals : ApprovalRequest -> W -> verdict * W) (c : Ctx) (req : CallToolRequest)
    (route : RouteResult) : M W unit :=
  let justification := justification_of (req_Arguments req) in
  if bool_decide (justification = "") then
    recordAuditBlocked c (req_Name req) (req_Arguments req) (Some route) (marshalErrorResult justification_wanted) None ;;
    early (marshalErrorResult justification_wanted, None)
  else
    let clean := Some (JObj (map_delete "_justification" (decode_approval_args (req_Arguments req)))) in
    let timeout := if (res_ApprovalTimeout route <=? 0)%Z then 300%Z else res_ApprovalTimeout route in
    let ask := {| ar_ToolName := req_Name req; ar_Arguments := clean; ar_Justification := justification;
                  ar_SessionID := s_ID (g_session G); ar_WorkspaceID := currentWorkspaceID (g_session G) c;
                  ar_RouteRuleID := res_MatchedRuleID route; ar_DownstreamServerID := res_DownstreamServerID route;
                  ar_AuthScopeID := res_AuthScopeID route; ar_TimeoutSec := timeout |} in
    v ← outside (approvals ask);
    emit (Asked ask v) ;;
    match v with
    | Err msg => failed_with c (req_Name req) clean (Some route) (rpc CodeInternalError (ApprovalFailed msg))
    | Ok (false, resolution) =>
        let result := marshalErrorResult ("Tool call denied. Reason: " +:+ resolution) in
        recordAuditBlocked c (req_Name req) clean (Some route) result None ;; early (result, None)
    | Ok (true, _) => mret tt
    end.

(** Whether a route wants an approval for a tool. *)
Definition needs_approval (route : RouteResult) (originalTool : string) : bool :=
  let mode := res_ApprovalMode route in
  if bool_decide (mode = "") || bool_decide (mode = "none") then false
  else if bool_decide (mode = "write") then negb (isReadOnlyTool (g_capabilities G (res_DownstreamServerID route)) originalTool)
  else true.

Definition approval_stage (c : Ctx) (name : string) (args : RawMessage) (route : RouteResult) : M W unit :=
  match b_approvals B with
  | Some approvals =>
      if needs_approval route (extractOriginalToolName name)
      then handleApprovalGate approvals c {| req_Name := name; req_Arguments := args |} route
      else mret tt
  | None => mret tt
  end.

Definition scope_stage (c : Ctx) (name : string) (args : RawMessage) (route : RouteResult) : M W unit :=
  match check_scope (g_registry G) name (res_ScopePolicy route) args with
  | ScopeOk => mret tt
  | InvalidScopePolicy => failed_with c name args (Some route) (rpc CodeInvalidParams BadScopePolicy)
  | ScopeViolation v => failed_with c name args (Some route) (rpc CodeInvalidParams (ScopeRefused v))
  end.

(** An add-on's tool, answered in place of its server. *)
Definition addon_stage (c : Ctx) (name : string) (args : RawMessage) (p : passage) : M W unit :=
  match b_addons B with
  | Some (registry, execute) =>
      match registry name with
      | None => mret tt
      | Some addonTool =>
          let scope := if bool_decide (at_AuthScopeID addonTool = "") then res_AuthScopeID (p_route p) else at_AuthScopeID addonTool in
          emit (AddonCall c name scope args p) ;;
          res ← outside (execute c name scope args);
          match res with
          | Err msg => failed_with c name args (Some (p_route p)) (rpc CodeProcessError (AddonFailed name msg))
          | Ok result => recordAudit c name args (Some (p_route p)) result None ;; early (result, None)
          end
      end
  | None => mret tt
  end.

Definition stamp_browser (c : Ctx) : Ctx :=
  if bool_decide (browserSessionID c = "") && negb (bool_decide (s_ID (g_session G) = ""))
  then WithBrowserSessionID (s_ID (g_session G)) c else c.

Definition call_manager (c : Ctx) (original : string) (args : RawMessage) (bust : bool) (route : RouteResult)
    : M W (result call_error called) :=
  match b_manager B with
  | CachingCaller call => outside (call c (res_DownstreamServerID route) (res_AuthScopeID route) original args bust)
  | PlainCaller call =>
      res ← outside (call c (res_DownstreamServerID route) (res_AuthScopeID route) original args);
      mret (match res with
            | Ok data => Ok {| c_Data := data; c_CacheHit := false; c_CacheAge := 0 |}
            | Err e => Err e
            end)
  end.

Definition serverName (route : RouteResult) : string :=
  default (res_DownstreamServerID route) (g_serverName G (res_DownstreamServerID route)).

(** What the answer of a downstream server becomes. *)
Definition finish_downstream (c : Ctx) (name : string) (args : RawMessage) (p : passage) (cr : called) : M W response :=
  result ← inject name (injectCacheMeta (c_Data cr) (c_CacheHit cr) (c_CacheAge cr));
  result ← (if bool_decide (p_fuzzy p = "") then mret result
            else inject name (injectFuzzyCorrectionMeta result (p_fuzzy p) name));
  let '(result, hits) := sanitizeResult (g_float G) (g_sanitizer G) (g_envelopeAlways G) name result in
  record_hits hits ;;
  let result := surfaceStructuredContent result in
  result ← (if internalCodeModeCall c then mret result else outside (b_compress B c name result));
  result ← piggybackMeshNotice c result;
  on_tracker (fun _ t => (tt, RecordSuccess t)) ;;
  emit (Audited c name args (Some (p_route p)) result None (c_CacheHit cr)) ;;
  mret (result, None).

Definition downstream_stage (c : Ctx) (name : string) (args : RawMessage) (p : passage) : M W response :=
  let route := p_route p in
  scope_stage c name args route ;;
  (if bool_decide (res_DownstreamServerID route = "")
   then failed_with c name args (Some route) (rpc CodeInternalError NoDownstream) else mret tt) ;;
  approval_stage c name args route ;;
  addon_stage c name args p ;;
  let c := stamp_browser c in
  let '(bust, args) := extractAndRemoveCacheBust args in
  emit (DownstreamCall c name (extractOriginalToolName name) args bust p) ;;
  res ← call_manager c (extractOriginalToolName name) args bust route;
  match res with
  | Err e =>
      err ← trackAndAnnotateError CodeProcessError (formatDownstreamError (serverName route) e);
      failed_with c name args (Some route) err
  | Ok cr => finish_downstream c name args p cr
  end.

(** ** The pipeline *)

Definition pipeline (rec : Ctx -> string -> RawMessage -> M W response) (c : Ctx) (name : string) (args : RawMessage)
    : M W response :=
  pure ← gets (fun s => b_pureMode B (world s));
  (if (pure : bool) then blocked_with c name args None (rpc CodeInvalidRequest PureMode) else mret tt) ;;
  let name := resolveHarnessToolName name in
  c ← entry_gates c name args;
  routed ← find_route c name args;
  let '(name, p) := routed in
  args ← route_gates c name args (p_route p);
  if is_builtin_route (res_DownstreamServerID (p_route p)) then builtin_stage rec c name args p
  else downstream_stage c name args p.

(** [fuel] bounds how deep wrapper calls nest. *)
Fixpoint handleToolsCall (fuel : nat) (c : Ctx) (name : string) (args : RawMessage) : M W response :=
  match fuel with
  | O => fun s => (NoFuel, s)
  | S fuel => returned (pipeline (handleToolsCall fuel) c name args)
  end.

(** The parameters of tools/call. *)
Definition decode_request (params : RawMessage) : option CallToolRequest :=
  match params with
  | Some (JObj l) => name ← struct_string l "name"; Some {| req_Name := name; req_Arguments := struct_field l "arguments" |}
  | Some JNull => Some {| req_Name := ""; req_Arguments := None |}
  | _ => None
  end.

Definition tools_call (fuel : nat) (c : Ctx) (params : RawMessage) : M W response :=
  match decode_request params with
  | None => mret (None, Some (rpc CodeInvalidParams BadRequest))
  | Some req => handleToolsCall fuel c (req_Name req) (req_Arguments req)
  end.
End Handler.
