(* ===== verification/PipelineSafety.v ===== *)
(** What the pipeline of Pipeline.v guarantees, whatever the outside answers.

    [wp m Φ]: whatever the state, [m] appends a list of events to the log and its
    outcome with that list satisfies Φ.  One lemma per stage; [pipeline_post] puts
    them together, nested calls included. *)

From Stdlib Require Import Ascii String.
From stdpp Require Import strings list gmap.
From S2P Require Import Prelude GoStrings GoJson Toolgate Routing Harness AdminGate Gates Sanitize ResultJson JsonSize ErrorTracker ScopePolicy Pipeline.

#[local] Open Scope string_scope.
#[local] Open Scope list_scope.

(** ** Reasoning about computations *)

Section Wp.
Context {W : Type}.

Definition wp {A} (m : M W A) (Φ : outcome A -> list event -> Prop) : Prop :=
  forall s, exists l, log (snd (m s)) = log s ++ l /\ Φ (fst (m s)) l.

Lemma wp_mono {A} (m : M W A) Φ Ψ : wp m Φ -> (forall o l, Φ o l -> Ψ o l) -> wp m Ψ.
Proof. intros H HΦ s. destruct (H s) as (l & ? & ?). eauto. Qed.

Lemma wp_ret {A} (a : A) (Φ : outcome A -> list event -> Prop) : Φ (Val a) [] -> wp (mret a) Φ.
Proof. intros H s. exists []. by rewrite app_nil_r. Qed.

Lemma wp_emit e (Φ : outcome unit -> list event -> Prop) : Φ (Val tt) [e] -> wp (emit e) Φ.
Proof. intros H s. exists [e]. split; [done|exact H]. Qed.

Lemma wp_gets {A} (f : state W -> A) (Φ : outcome A -> list event -> Prop) : (forall a, Φ (Val a) []) -> wp (gets f) Φ.
Proof. intros H s. exists []. split; [symmetry; apply app_nil_r|exact (H (f s))]. Qed.

Lemma wp_outside {A} (f : W -> A * W) (Φ : outcome A -> list event -> Prop) : (forall a, Φ (Val a) []) -> wp (outside f) Φ.
Proof. intros H s. exists []. unfold outside. destruct (f (world s)). rewrite app_nil_r. split; [done|apply H]. Qed.

Lemma wp_tracker {A} (B : Backend W) (f : Z -> errorTracker -> A * errorTracker) (Φ : outcome A -> list event -> Prop) :
  (forall a, Φ (Val a) []) -> wp (on_tracker B f) Φ.
Proof. intros H s. exists []. unfold on_tracker. destruct (f _ _). rewrite app_nil_r. split; [done|apply H]. Qed.

Lemma wp_early {A} r (Φ : outcome A -> list event -> Prop) : Φ (Return r) [] -> wp (early r) Φ.
Proof. intros H s. exists []. by rewrite app_nil_r. Qed.

Lemma wp_panicked {A} (Φ : outcome A -> list event -> Prop) : Φ Panicked [] -> wp panicked Φ.
Proof. intros H s. exists []. by rewrite app_nil_r. Qed.

Lemma wp_route (B : Backend W) G c name (Φ : outcome (result route_error RouteResult) -> list event -> Prop) :
  (forall r, Φ (Val r) []) -> wp (RouteCall B G c name) Φ.
Proof. intros H s. exists []. unfold RouteCall. destruct (RouteWithFallback _ _ _ _ _ _ _). rewrite app_nil_r. split; [done|apply H]. Qed.

Definition after {A C} (f : A -> M W C) (Φ : outcome C -> list event -> Prop) (o : outcome A) (l : list event) : Prop :=
  match o with
  | Val a => wp (f a) (fun o' l' => Φ o' (l ++ l'))
  | Return r => Φ (Return r) l
  | Panicked => Φ Panicked l
  | NoFuel => Φ NoFuel l
  end.

Lemma wp_bind {A C} (m : M W A) (f : A -> M W C) Φ : wp m (after f Φ) -> wp (m ≫= f) Φ.
Proof.
  intros H s. destruct (H s) as (l & Hl & HΦ). unfold mbind, M_bind. destruct (m s) as [o s']. cbn in *.
  destruct o as [a|r| |]; cbn in HΦ; [|by exists l..].
  destruct (HΦ s') as (l' & Hl' & HΦ'). exists (l ++ l'). by rewrite Hl', Hl, app_assoc.
Qed.

Lemma wp_returned (m : M W response) Φ :
  wp m (fun o l => Φ (match o with Return r => Val r | o => o end) l) -> wp (returned m) Φ.
Proof.
  intros H s. destruct (H s) as (l & Hl & HΦ). unfold returned. destruct (m s) as [[a|r| |] s']; by exists l.
Qed.

Lemma wp_recovered (m : M W response) (Φ : outcome (option response) -> list event -> Prop) :
  wp m (fun o l => Φ (match o with Val r | Return r => Val (Some r) | Panicked => Val None | NoFuel => NoFuel end) l) ->
  wp (recovered m) Φ.
Proof.
  intros H s. destruct (H s) as (l & Hl & HΦ). unfold recovered. destruct (m s) as [[a|r| |] s']; by exists l.
Qed.
End Wp.

(** Symbolic execution up to a call of another component's lemma. *)
Ltac wp_step :=
  match goal with
  | |- wp (mret _) _ => apply wp_ret
  | |- wp (_ ≫= _) _ => apply wp_bind
  | |- wp (emit _) _ => apply wp_emit
  | |- wp (gets _) _ => apply wp_gets; intros ?
  | |- wp (outside _) _ => apply wp_outside; intros ?
  | |- wp (on_tracker _ _) _ => apply wp_tracker; intros ?
  | |- wp (early _) _ => apply wp_early
  | |- wp panicked _ => apply wp_panicked
  | |- wp (RouteCall _ _ _ _) _ => apply wp_route; intros ?
  | |- wp (match ?x with _ => _ end) _ => destruct x eqn:?
  | |- after _ _ (Val _) _ => unfold after at 1; cbn beta
  | |- after _ _ _ _ => progress cbn [after]
  | |- forall _, _ => intros ?
  end.

(** ** Events *)

Definition quiet (e : event) : bool :=
  match e with SkillInvocation _ _ _ | SanitizeEvent _ _ | Asked _ _ => true | _ => false end.

(** The row of a call itself. *)
Definition is_row (e : event) : bool := match e with Blocked _ _ _ _ _ _ | Audited _ _ _ _ _ _ _ => true | _ => false end.

(** The sanitizer's row of a denylist hit. *)
Definition is_sanitize_row (e : event) : bool := match e with SanitizeEvent _ _ => true | _ => false end.

(** Any row the handler records. *)
Definition is_audit_row (e : event) : bool := is_row e || is_sanitize_row e.

Definition is_blocked (e : event) : bool := match e with Blocked _ _ _ _ _ _ => true | _ => false end.

Definition is_nested (e : event) : bool := match e with NestedCall _ _ _ => true | _ => false end.

Definition is_panic (e : event) : bool := match e with PanicAt _ => true | _ => false end.

Definition is_script (e : event) : bool := match e with ScriptRun _ _ => true | _ => false end.

(** A tool was reached: the context, the name, the arguments and the passage. *)
Definition dispatch (e : event) : option (Ctx * string * RawMessage * passage) :=
  match e with
  | BuiltinCall c tool args p => Some (c, tool, args, p)
  | AddonCall c tool _ args p => Some (c, tool, args, p)
  | DownstreamCall c tool _ args _ p => Some (c, tool, args, p)
  | _ => None
  end.

(** What a worker, a skill or an isolated session is confined by. *)
Record same_scopes (c c' : Ctx) : Prop := {
  ss_skill : skillID c' = skillID c;
  ss_skills : skillAllowlist c' = skillAllowlist c;
  ss_allow : workerToolAllowlist c' = workerToolAllowlist c;
  ss_cap : workerCapability c' = workerCapability c;
  ss_fs : workerFilesystemScope c' = workerFilesystemScope c;
  ss_inproc : inProcessWorkerCall c' = inProcessWorkerCall c;
  ss_ws : workerWorkspaceAccess c' = workerWorkspaceAccess c }.

#[export] Instance same_scopes_preorder : PreOrder same_scopes.
Proof. split; [by constructor|]. intros c1 c2 c3 [] []. constructor; congruence. Qed.

Lemma with_flags_scopes i m e t sid c : same_scopes c (with_flags i m e t sid c).
Proof. by constructor. Qed.

Section Safety.
Context {W : Type}.
Variable B : Backend W.
Variable G : Gateway.

(** The gates a name passed before its tool is reached, in context [c]: [asked] is
    the name of the request, [tool] the one dispatched. *)
Record admitted (c : Ctx) (asked tool : string) : Prop := {
  ad_name : guardWorkerFilesystemToolName c asked = None;
  ad_direct : internalToolCall c = true \/ isBuiltinTool asked = true;
  ad_worker : worker_origin c = true -> checkWorkerToolAllowlist c tool = None /\ checkWorkerCapability c tool = None;
  ad_admin : admin_refused (g_host G) (g_adminGate G) (g_session G) c asked = false;
  ad_skill : checkSkillAllowlist c asked = None;
  ad_corrected : tool <> asked -> internalToolCall c = true /\ isolated c = false }.

Definition route_admitted (c : Ctx) (tool : string) (route : RouteResult) : Prop :=
  guardWorkerFilesystemRoute c tool (res_DownstreamServerID route) = None /\
  enforceWorkerRouteAccess (g_executeTool G :: g_builtins G) (g_searchable G) (g_capabilities G) c tool
    (extractOriginalToolName tool) route = None.

Definition passed (c0 : Ctx) (e : event) : Prop :=
  match dispatch e with
  | Some (c, tool, args, p) => same_scopes c0 c /\ admitted c (p_asked p) tool /\ route_admitted c tool (p_route p)
  | None => True
  end.

(** An approval of this very call: the arguments shown are those of the call without
    its justification. *)
Definition approval_for (tool : string) (route : RouteResult) (args : RawMessage) (e : event) : Prop :=
  exists ask r, e = Asked ask (Ok (true, r)) /\ ar_ToolName ask = tool /\
    ar_DownstreamServerID ask = res_DownstreamServerID route /\ ar_Justification ask <> "" /\
    ar_Arguments ask = Some (JObj (map_delete "_justification" (decode_approval_args args))).

(** Whether the route's approval mode asks for one, with a manager to ask. *)
Definition approval_due (tool : string) (route : RouteResult) : bool :=
  bool_decide (is_Some (b_approvals B)) && needs_approval G route (extractOriginalToolName tool).

(** A call that leaves the gateway directly follows its approval, if one is due. *)
Definition gate_ok (prev : option event) (e : event) : Prop :=
  match e with
  | AddonCall c tool _ args p =>
      approval_due tool (p_route p) = true -> exists a, prev = Some a /\ approval_for tool (p_route p) args a
  | DownstreamCall c tool _ args _ p =>
      approval_due tool (p_route p) = true ->
      exists a args0, prev = Some a /\ approval_for tool (p_route p) args0 a /\ args = snd (extractAndRemoveCacheBust args0)
  | _ => True
  end.

Fixpoint approved_from (prev : option event) (l : list event) : Prop :=
  match l with
  | [] => True
  | e :: l' => gate_ok prev e /\ approved_from (Some e) l'
  end.

Lemma gate_ok_any prev e : gate_ok None e -> gate_ok prev e.
Proof. destruct e; cbn; try done; intros H ?; [destruct H as (? & ? & _)|destruct H as (? & ? & ? & _)]; done. Qed.

Lemma approved_any prev l : approved_from None l -> approved_from prev l.
Proof. destruct l; cbn; [done|]. intros [? ?]. split; [by apply gate_ok_any|done]. Qed.

Lemma approved_app l1 l2 : approved_from None l1 -> approved_from None l2 -> approved_from None (l1 ++ l2).
Proof.
  generalize (@None event) at 1 3. induction l1 as [|e l1 IH]; intros prev; cbn; [by intros _; apply approved_any|].
  intros [? ?] ?. split; [done|]. by apply IH.
Qed.

Definition rows (l : list event) : nat := tally is_row l.
Definition nested (l : list event) : nat := tally is_nested l.
Definition audit_rows (l : list event) : nat := tally is_audit_row l.
Definition sanitize_rows (l : list event) : nat := tally is_sanitize_row l.

Lemma audit_rows_split l : audit_rows l = rows l + sanitize_rows l.
Proof. apply tally_orb. by intros []. Qed.

Definition good (c : Ctx) (l : list event) : Prop := Forall (passed c) l /\ approved_from None l.

(** The call's own row, the last of the list; a blocked one stands among bookkeeping only. *)
Definition closed_by_row (l : list event) : Prop :=
  exists pre row post, l = pre ++ row :: post /\ is_row row = true /\ forallb quiet post = true /\
    (is_blocked row = true -> forallb quiet pre = true).

(** A refusal: a row and bookkeeping. *)
Definition refusal (l : list event) : Prop :=
  exists pre row post, l = pre ++ row :: post /\ is_row row = true /\ forallb quiet post = true /\ forallb quiet pre = true.

Definition finished {A} (fits : Prop) (c : Ctx) (o : outcome A) (l : list event) : Prop :=
  good c l /\
  match o with
  | Val _ | Return _ => (existsb is_panic l = false -> rows l = S (nested l)) /\ closed_by_row l
  | Panicked => existsb is_panic l = true
  | NoFuel => fits -> existsb is_script l = true
  end.

(** A stage before anything is reached: on with [R], or a refusal. *)
Definition mid {A} (R : A -> Prop) (o : outcome A) (l : list event) : Prop :=
  match o with
  | Val a => forallb quiet l = true /\ R a
  | Return _ => refusal l
  | _ => False
  end.

Lemma quiet_good c l : forallb quiet l = true ->
  good c l /\ rows l = 0 /\ nested l = 0 /\ existsb is_panic l = false.
Proof.
  induction l as [|e l IH]; cbn [forallb]; [repeat split; constructor|].
  intros [He Hl]%andb_prop. destruct (IH Hl) as ([? ?] & ? & ? & ?). destruct e; try done;
    (split; [split; [by constructor|split; [done|by apply approved_any]]|by split_and!]).
Qed.

Lemma good_app c l1 l2 : good c l1 -> good c l2 -> good c (l1 ++ l2).
Proof. intros [? ?] [? ?]. split; [by apply Forall_app|by apply approved_app]. Qed.

Lemma rows_app l1 l2 : rows (l1 ++ l2) = rows l1 + rows l2.
Proof. apply tally_app. Qed.

Lemma nested_app l1 l2 : nested (l1 ++ l2) = nested l1 + nested l2.
Proof. apply tally_app. Qed.

Lemma finished_quiet {A} fits c (o : outcome A) l1 l2 : forallb quiet l1 = true -> finished fits c o l2 ->
  finished fits c o (l1 ++ l2).
Proof.
  intros Hq [Hg Ho]. destruct (quiet_good c l1 Hq) as (Hg1 & Hr & Hn & Hp). split; [by apply good_app|].
  destruct o; rewrite ?existsb_app, ?Hp; cbn [orb]; try done.
  3: { intros Hf. rewrite (Ho Hf). apply orb_true_r. }
  all: destruct Ho as [Hrow (pre & row & post & -> & ? & ? & Hb)]; rewrite rows_app, nested_app, Hr, Hn.
  all: split; [done|]; exists (l1 ++ pre), row, post; rewrite <- app_assoc; split_and!; try done.
  all: intros Hbl; rewrite forallb_app, Hq; auto.
Qed.

Lemma refusal_finished {A} fits c r l : refusal l -> finished (A := A) fits c (Return r) l.
Proof.
  intros (pre & row & post & -> & Hrow & Hpost & Hq). apply finished_quiet; [done|].
  destruct (quiet_good c post Hpost) as ([Hg1 Hg2] & Hr & Hn & Hp). split; [split|split].
  - constructor; [by destruct row|done].
  - split; [by destruct row|by apply approved_any].
  - intros _. unfold rows, nested in *. rewrite (tally_cons _ row), (tally_cons is_nested row), Hr, Hn. by destruct row.
  - exists [], row, post. by split_and!.
Qed.

Lemma refusal_quiet l1 l2 : forallb quiet l1 = true -> refusal l2 -> refusal (l1 ++ l2).
Proof.
  intros Hq (pre & row & post & -> & ? & ? & ?). exists (l1 ++ pre), row, post. rewrite <- app_assoc, forallb_app, Hq. auto.
Qed.

Lemma mid_bind {A C} (m : M W A) (f : A -> M W C) (R : A -> Prop) (R' : C -> Prop) :
  wp m (mid R) -> (forall a, R a -> wp (f a) (mid R')) -> wp (m ≫= f) (mid R').
Proof.
  intros Hm Hf. apply wp_bind. eapply wp_mono; [exact Hm|]. intros [a|r| |] l; cbn; try done.
  intros [Hq Ha]. eapply wp_mono; [by apply Hf|]. intros [b|r| |] l'; cbn; try done.
  - intros [? ?]. by rewrite forallb_app, Hq.
  - by apply refusal_quiet.
Qed.

Lemma finish_bind {A C} fits c (m : M W A) (f : A -> M W C) (R : A -> Prop) :
  wp m (mid R) -> (forall a, R a -> wp (f a) (finished fits c)) -> wp (m ≫= f) (finished fits c).
Proof.
  intros Hm Hf. apply wp_bind. eapply wp_mono; [exact Hm|]. intros [a|r| |] l; cbn; try done.
  - intros [Hq Ha]. eapply wp_mono; [by apply Hf|]. intros o l'. by apply finished_quiet.
  - apply refusal_finished.
Qed.

Lemma mid_mono {A} (R R' : A -> Prop) o l : (forall a, R a -> R' a) -> mid R o l -> mid R' o l.
Proof. destruct o; cbn; naive_solver. Qed.

Lemma mid_ret {A} (a : A) (R : A -> Prop) : R a -> wp (W := W) (mret a) (mid R).
Proof. intros H. by apply wp_ret. Qed.

Lemma mid_outside {A} (f : W -> A * W) : wp (outside f) (mid (fun _ => True)).
Proof. apply wp_outside. by intros a. Qed.

Lemma mid_blocked {A} c tool args route err (R : A -> Prop) : wp (W := W) (blocked_with c tool args route err) (mid R).
Proof. unfold blocked_with, recordAuditBlocked. repeat wp_step. by exists [], (Blocked c tool args route None (Some err)), []. Qed.

Lemma mid_failed {A} c tool args route err (R : A -> Prop) : wp (W := W) (failed_with c tool args route err) (mid R).
Proof. unfold failed_with, recordAudit. repeat wp_step. by exists [], (Audited c tool args route None (Some err) false), []. Qed.

Lemma mid_gate {E} (o : option E) to_rpc c tool args route : wp (W := W) (gate o to_rpc c tool args route) (mid (fun _ => o = None)).
Proof. destruct o; [apply mid_blocked|by apply mid_ret]. Qed.

(** ** Entry *)

(** The context with what the handler stamps on it. *)
Definition stamped (c c' : Ctx) : Prop := exists m e t sid, c' = with_flags (internalToolCall c) m e t sid c.

Lemma stamped_refl c : stamped c c.
Proof. exists (internalCodeModeCall c), (executionID c), (adminTrust c), (browserSessionID c). by destruct c. Qed.

Lemma stamped_trans c1 c2 c3 : stamped c1 c2 -> stamped c2 c3 -> stamped c1 c3.
Proof. intros (m & e & t & sid & ->) (m' & e' & t' & sid' & ->). by exists m', e', t', sid'. Qed.

Lemma stamped_scopes c c' : stamped c c' -> same_scopes c c'.
Proof. intros (m & e & t & sid & ->). apply with_flags_scopes. Qed.

(** The gates read nothing that is stamped. *)
Lemma stamped_admitted c c' asked tool : stamped c c' -> admitted c asked tool <-> admitted c' asked tool.
Proof. intros (m & e & t & sid & ->). by split; intros []; constructor. Qed.

Lemma stamped_route c c' tool route : stamped c c' -> route_admitted c tool route -> route_admitted c' tool route.
Proof. by intros (m & e & t & sid & ->). Qed.

Lemma stamp_execution_mid c name : wp (stamp_execution B c name) (mid (stamped c)).
Proof.
  unfold stamp_execution. destruct (_ && _); [|apply mid_ret, stamped_refl].
  eapply mid_bind; [apply mid_outside|]. intros id ?. apply mid_ret. by repeat eexists.
Qed.

Lemma stamp_trust_stamped c name : stamped c (stamp_trust G c name).
Proof. unfold stamp_trust. destruct (IsAdminTool name); [by repeat eexists|apply stamped_refl]. Qed.

Lemma worker_gates_mid c name args :
  wp (W := W) (worker_gates c name args)
     (mid (fun _ => checkWorkerToolAllowlist c name = None /\ checkWorkerCapability c name = None)).
Proof.
  unfold worker_gates. eapply mid_bind; [apply mid_gate|]. intros [] H1.
  eapply wp_mono; [apply mid_gate|]. intros o l. by apply mid_mono.
Qed.

Lemma skill_gate_mid c name args : wp (W := W) (skill_gate c name args) (mid (fun _ => checkSkillAllowlist c name = None)).
Proof.
  unfold skill_gate, recordSkillInvocation, recordAuditBlocked. destruct (checkSkillAllowlist c name) as [d|] eqn:E.
  - repeat wp_step; cbn; [exists [], (Blocked c name args None None (Some (denied_params d))), []; auto|].
    exists [], (Blocked c name args None None (Some (denied_params d))), [SkillInvocation (skillID c) name false]. auto.
  - by repeat wp_step.
Qed.

Lemma entry_gates_mid c name args :
  wp (entry_gates B G c name args) (mid (fun c' => stamped c c' /\ admitted c' name name)).
Proof.
  unfold entry_gates. eapply mid_bind; [apply mid_gate|]. intros [] Hname.
  eapply mid_bind; [apply stamp_execution_mid|]. intros c1 Hc1.
  eapply (mid_bind _ _ (fun _ => internalToolCall c1 = true \/ isBuiltinTool name = true)).
  { destruct (internalToolCall c1); cbn [negb andb]; [apply mid_ret; auto|].
    destruct (isBuiltinTool name); cbn [negb andb]; [apply mid_ret; auto|]. unfold recordAuditBlocked. repeat wp_step.
    by exists [], (Blocked c1 name args None (marshalErrorResult G direct_refusal) None), []. }
  intros [] Hdirect.
  eapply (mid_bind _ _ (fun _ => worker_origin c1 = true -> checkWorkerToolAllowlist c1 name = None /\ checkWorkerCapability c1 name = None)).
  { destruct (worker_origin c1); [|by apply mid_ret]. eapply wp_mono; [apply worker_gates_mid|]. intros o l. by apply mid_mono. }
  intros [] Hworker.
  eapply (mid_bind _ _ (fun _ => admin_refused (g_host G) (g_adminGate G) (g_session G) c1 name = false)).
  { destruct (admin_refused _ _ _ c1 name); [apply mid_blocked|by apply mid_ret]. }
  intros [] Hadmin. eapply mid_bind; [apply skill_gate_mid|]. intros [] Hskill. apply mid_ret.
  pose proof (stamp_trust_stamped c1 name) as Hc2. split; [by eapply stamped_trans|].
  apply (stamped_admitted c1); [done|]. constructor; try done.
  - by destruct Hc1 as (m & e & t & sid & ->).
  - by destruct Hc2 as (m & e & t & sid & E); rewrite E in Hskill.
Qed.

(** ** Route and arguments *)

Lemma route_refused_mid {A} c name args e (R : A -> Prop) : wp (route_refused B c name args e) (mid R).
Proof.
  unfold route_refused, noRouteMessage. eapply (mid_bind _ _ (fun _ => True)); [|intros err ?; apply mid_blocked].
  destruct e; try by apply mid_ret. eapply (mid_bind _ _ (fun _ => True)); [|intros ? ?; by apply mid_ret].
  eapply mid_bind; [apply mid_outside|]. intros ? ?. by apply mid_ret.
Qed.

Lemma route_call_mid c name : wp (RouteCall B G c name) (mid (fun _ => True)).
Proof. apply wp_route. by intros r. Qed.

Lemma find_route_mid c name args : admitted c name name ->
  wp (find_route B G c name args) (mid (fun '(tool, p) => p_asked p = name /\ admitted c name tool)).
Proof.
  intros Hadm. unfold find_route. eapply mid_bind; [apply route_call_mid|]. intros [route|e] _; [by apply mid_ret|].
  destruct (internalToolCall c) eqn:Hint; cbn [andb]; [|apply route_refused_mid].
  destruct (isolated c) eqn:Hiso; cbn [negb]; [apply route_refused_mid|].
  eapply (mid_bind _ _ (fun _ => True)).
  { unfold tryFuzzyToolRecovery. eapply mid_bind; [apply mid_outside|]. intros ? ?. by apply mid_ret. }
  intros [corrected|] _; [|apply route_refused_mid].
  eapply mid_bind; [apply worker_gates_mid|]. intros [] Hgates.
  eapply mid_bind; [apply route_call_mid|]. intros [route|e'] _; [|apply route_refused_mid].
  apply mid_ret. split; [done|]. destruct Hadm. by constructor.
Qed.

Lemma fields_mid c serverID tool : wp (toolInputStringFields B G c serverID tool) (mid (fun _ => True)).
Proof.
  unfold toolInputStringFields. destruct (_ || _); [by apply mid_ret|]. destruct (is_builtin_route _); [by apply mid_ret|].
  eapply mid_bind; [apply mid_outside|]. intros ? ?. by apply mid_ret.
Qed.

Lemma guarded_args c name args args' : guardWorkerFilesystemArgs c name args = Ok args' -> args' = args.
Proof. unfold guardWorkerFilesystemArgs. intros H. repeat case_match; by simplify_eq. Qed.

Lemma route_gates_mid c name args route :
  wp (route_gates B G c name args route) (mid (fun args' => route_admitted c name route /\ args_size args' <= args_size args)).
Proof.
  unfold route_gates. eapply mid_bind; [apply mid_gate|]. intros [] H1.
  eapply mid_bind; [apply mid_gate|]. intros [] H2. eapply mid_bind; [apply fields_mid|]. intros fields _.
  pose proof (coerce_size args fields) as Hs. destruct (worker_origin c); [|by apply mid_ret].
  destruct (guardWorkerFilesystemArgs c name _) as [guarded|d] eqn:E; [|apply mid_blocked].
  apply guarded_args in E as ->. by apply mid_ret.
Qed.

(** ** Downstream *)

Lemma scope_stage_mid c name args route : wp (W := W) (scope_stage G c name args route) (mid (fun _ => True)).
Proof. unfold scope_stage. destruct (check_scope _ _ _ _); [by apply mid_ret|apply mid_failed|apply mid_failed]. Qed.

(** The events an approval leaves behind when it lets the call pass. *)
Definition approval_left (name : string) (args : RawMessage) (route : RouteResult) (l : list event) : Prop :=
  (l = [] /\ approval_due name route = false) \/ (exists a, l = [a] /\ quiet a = true /\ approval_for name route args a).

Lemma approval_stage_wp c name args route :
  wp (approval_stage B G c name args route)
     (fun o l => match o with Val _ => approval_left name args route l | Return _ => refusal l | _ => False end).
Proof.
  unfold approval_stage, approval_due. destruct (b_approvals B) as [approvals|] eqn:Ha.
  2: { apply wp_ret. left. split; [done|]. unfold approval_due. by rewrite Ha. }
  destruct (needs_approval _ _ _) eqn:Hn.
  2: { apply wp_ret. left. split; [done|]. unfold approval_due. rewrite Hn. apply andb_false_r. }
  unfold handleApprovalGate, recordAuditBlocked. case_bool_decide as Hj; [repeat wp_step; cbn; by eexists [], _, []|].
  repeat wp_step; cbn.
  - right. eexists. split; [done|]. split; [done|]. do 2 eexists. split; [done|]. cbn. split_and!; done.
  - by eexists [_], _, [].
  - unfold failed_with, recordAudit. repeat wp_step. by eexists [_], _, [].
Qed.

(** A result on its way: on, or a panic. *)
Definition flowing {A} (o : outcome A) (l : list event) : Prop :=
  match o with
  | Val _ => forallb quiet l = true
  | Panicked => exists tool, l = [PanicAt tool]
  | _ => False
  end.

Lemma inject_flowing name w : wp (W := W) (inject name w) flowing.
Proof. destruct w; cbn; repeat wp_step; cbn; eauto. Qed.

Lemma piggyback_flowing c result : wp (piggybackMeshNotice B c result) flowing.
Proof. unfold piggybackMeshNotice. by repeat wp_step. Qed.

(** The end of a handler: a result that flows, then its row. *)
Definition ending {A} (o : outcome A) (l : list event) : Prop :=
  match o with
  | Val _ | Return _ => exists pre row, l = pre ++ [row] /\ forallb quiet pre = true /\ is_row row = true /\ is_blocked row = false
  | Panicked => exists pre tool, l = pre ++ [PanicAt tool] /\ forallb quiet pre = true
  | NoFuel => False
  end.

Lemma ending_quiet {A} (o : outcome A) l1 l2 : forallb quiet l1 = true -> ending o l2 -> ending o (l1 ++ l2).
Proof.
  intros Hq. destruct o; cbn; try done.
  1-2: intros (pre & row & -> & Hp & ? & ?); exists (l1 ++ pre), row; by rewrite <- app_assoc, forallb_app, Hq.
  intros (pre & tool & -> & Hp). exists (l1 ++ pre), tool. by rewrite <- app_assoc, forallb_app, Hq.
Qed.

Lemma flow_bind {A C} (m : M W A) (f : A -> M W C) : wp m flowing -> (forall a, wp (f a) ending) -> wp (m ≫= f) ending.
Proof.
  intros Hm Hf. apply wp_bind. eapply wp_mono; [exact Hm|]. intros [a|r| |] l; cbn; try done.
  - intros Hq. eapply wp_mono; [apply Hf|]. intros o l'. by apply ending_quiet.
  - intros [tool ->]. by exists [], tool.
Qed.

Lemma record_hits_flowing hits : wp (W := W) (record_hits hits) flowing.
Proof.
  unfold record_hits. assert (forall m : M W unit, wp m flowing ->
    wp (fold_left (fun done '(tool, m) => done ;; recordSanitizeEvent tool m) hits m) flowing) as H; [|apply H; by apply wp_ret].
  induction hits as [|[tool h] hits IH]; intros m Hm; cbn [fold_left]; [done|]. apply IH.
  apply wp_bind. eapply wp_mono; [exact Hm|]. intros [[]|r| |] l Hl; try done.
  apply wp_emit. cbn in *. by rewrite forallb_app, Hl.
Qed.

Lemma finish_downstream_ending c name args p cr : wp (finish_downstream B G c name args p cr) ending.
Proof.
  unfold finish_downstream. apply flow_bind; [apply inject_flowing|]. intros result.
  apply flow_bind; [case_bool_decide; [by apply wp_ret|apply inject_flowing]|]. intros result'.
  destruct (sanitizeResult _ _ _ _ _) as [result2 hits]. apply flow_bind; [apply record_hits_flowing|]. intros _.
  apply flow_bind; [destruct (internalCodeModeCall c); by repeat wp_step|]. intros result3.
  apply flow_bind; [apply piggyback_flowing|]. intros result4. repeat wp_step. cbn. by eexists [], _.
Qed.

Lemma approval_left_quiet name args route l : approval_left name args route l -> forallb quiet l = true.
Proof. intros [[-> _]|(a & -> & Ha & _)]; [done|]. cbn. by rewrite Ha. Qed.

Lemma dispatched_finished {A} fits c0 c name args p l e tail (o : outcome A) :
  approval_left name args (p_route p) l ->
  same_scopes c0 c -> admitted c (p_asked p) name -> route_admitted c name (p_route p) ->
  (exists scope, e = AddonCall c name scope args p) \/
  (exists original bust, e = DownstreamCall c name original (snd (extractAndRemoveCacheBust args)) bust p) ->
  ending o tail -> finished fits c0 o (l ++ e :: tail).
Proof.
  intros Hl Hs Ha Hr He Ho. pose proof (approval_left_quiet _ _ _ _ Hl) as Hq.
  destruct (quiet_good c0 l Hq) as ([Hg _] & Hrows & Hn & Hp).
  assert (passed c0 e) as Hpe by (by destruct He as [[? ->]|(? & ? & ->)]).
  assert (forall pre, forallb quiet pre = true -> approved_from None (l ++ e :: pre)) as Happ.
  { intros pre Hpre. destruct (quiet_good c0 pre Hpre) as ([_ Hga] & _).
    assert (approved_from (Some e) pre) as Hpe' by (by apply approved_any).
    destruct Hl as [[-> Hd]|(a & -> & Hqa & Hfor)].
    - split; [|done]. destruct He as [[? ->]|(? & ? & ->)]; cbn; by rewrite Hd.
    - split; [by destruct a|]. split; [|done]. destruct He as [[? ->]|(? & ? & ->)]; cbn; intros _; eauto. }
  assert (forall pre x, forallb quiet pre = true -> quiet x = true \/ dispatch x = None /\ gate_ok None x ->
            good c0 (l ++ e :: pre ++ [x])) as Hgood.
  { intros pre x Hpre Hx. destruct (quiet_good c0 pre Hpre) as ([Hgp _] & _).
    split.
    - assert (passed c0 x) by (destruct Hx as [Hx|[Hx _]]; [by destruct x|unfold passed; by rewrite Hx]).
      apply Forall_app. split; [done|]. apply Forall_cons. split; [done|]. by apply Forall_add.
    - change (l ++ e :: pre ++ [x]) with (l ++ (e :: pre) ++ [x]). rewrite app_assoc. apply approved_app; [by apply Happ|].
      split; [|done]. destruct Hx as [Hx|[_ Hx]]; [by destruct x|done]. }
  assert (is_row e = false /\ is_nested e = false) as [Her Hen] by (by destruct He as [[? ->]|(? & ? & ->)]).
  destruct o as [v|r| |]; cbn in Ho; [| | |done].
  1-2: destruct Ho as (pre & row & -> & Hpre & Hrow & Hb);
    (split; [apply Hgood; [done|right; by destruct row]|]);
    destruct (quiet_good c0 pre Hpre) as (_ & Hrp & Hnp & _);
    (split; [intros _; unfold rows, nested in *; rewrite !tally_app, (tally_cons _ e), (tally_cons is_nested e), !tally_app,
       Hrows, Hn, Hrp, Hnp; unfold tally; cbn; rewrite Her, Hen; by destruct row
      |exists (l ++ e :: pre), row, []; rewrite <- app_assoc; split_and!; try done; by rewrite Hb]).
  destruct Ho as (pre & tool & -> & Hpre). split; [apply Hgood; [done|by right]|].
  change (l ++ e :: pre ++ [PanicAt tool]) with (l ++ (e :: pre) ++ [PanicAt tool]). rewrite !existsb_app. cbn. by rewrite !orb_true_r.
Qed.

Lemma stamp_browser_stamped c : stamped c (stamp_browser G c).
Proof. unfold stamp_browser. destruct (_ && _); [by repeat eexists|apply stamped_refl]. Qed.

(** Symbolic execution to the end of a handler. *)
Lemma failed_ending {A} c name args route err : wp (W := W) (failed_with (A := A) c name args route err) ending.
Proof. unfold failed_with, recordAudit. repeat wp_step. cbn. by eexists [], _. Qed.

Lemma downstream_stage_finished fits c0 c name args p :
  same_scopes c0 c -> admitted c (p_asked p) name -> route_admitted c name (p_route p) ->
  wp (downstream_stage B G c name args p) (finished fits c0).
Proof.
  intros Hs Ha Hr. unfold downstream_stage. eapply finish_bind; [apply scope_stage_mid|]. intros [] _.
  eapply (finish_bind _ _ _ _ (fun _ => True)); [case_bool_decide; [apply mid_failed|by apply mid_ret]|]. intros [] _.
  apply wp_bind. eapply wp_mono; [apply approval_stage_wp|]. intros [[]|r| |] l Hl; cbn; try done; [|by apply refusal_finished].
  apply wp_bind. unfold addon_stage.
  assert (forall rest : M W response, wp rest ending -> forall bust original scope_args,
     scope_args = snd (extractAndRemoveCacheBust args) ->
     wp (emit (DownstreamCall (stamp_browser G c) name original scope_args bust p) ;; rest)
        (fun o l' => finished fits c0 o (l ++ l'))) as Hdown.
  { intros rest Hrest bust original scope_args ->. apply wp_bind, wp_emit. cbn. eapply wp_mono; [exact Hrest|].
    intros o tail Ho. cbn. pose proof (stamp_browser_stamped c) as Hc.
    apply (dispatched_finished fits c0 (stamp_browser G c) name args p l _ tail o Hl); [|by apply (stamped_admitted c)|by apply (stamped_route c)|by right; eauto|done].
    rewrite Hs. by apply stamped_scopes. }
  assert (wp (let '(bust, args') := extractAndRemoveCacheBust args in
              emit (DownstreamCall (stamp_browser G c) name (extractOriginalToolName name) args' bust p) ;;
              res ← call_manager B (stamp_browser G c) (extractOriginalToolName name) args' bust (p_route p);
              match res with
              | Err e => err ← trackAndAnnotateError B CodeProcessError (formatDownstreamError (serverName G (p_route p)) e);
                         failed_with (stamp_browser G c) name args' (Some (p_route p)) err
              | Ok cr => finish_downstream B G (stamp_browser G c) name args' p cr
              end) (fun o l' => finished fits c0 o (l ++ l'))) as Hrest.
  { destruct (extractAndRemoveCacheBust args) as [bust args'] eqn:Eb. apply Hdown; [|done].
    apply flow_bind; [unfold call_manager; by repeat wp_step|]. intros [cr|e]; [apply finish_downstream_ending|].
    apply flow_bind; [unfold trackAndAnnotateError; by repeat wp_step|]. intros err. apply failed_ending. }
  destruct (b_addons B) as [[registry execute]|]; [|by apply wp_ret].
  destruct (registry name) as [addonTool|]; [|by apply wp_ret].
  set (scope := if bool_decide _ then _ else _). apply wp_bind, wp_emit. cbn.
  apply wp_bind, wp_outside. intros [result|msg]; cbn.
  - unfold recordAudit. repeat wp_step. cbn. eapply dispatched_finished; eauto. by eexists [], _.
  - unfold failed_with, recordAudit. repeat wp_step. cbn. eapply dispatched_finished; eauto. by eexists [], _.
Qed.

(** ** Built-in tools and nested calls *)

(** Inside a handler: as many rows as nested calls, unless one panicked. *)
Definition inner {A} (fits : Prop) (c : Ctx) (o : outcome A) (l : list event) : Prop :=
  good c l /\
  match o with
  | Val _ => existsb is_panic l = false -> rows l = nested l
  | Return _ => False
  | Panicked => existsb is_panic l = true
  | NoFuel => fits -> existsb is_script l = true
  end.

Lemma good_scopes c c' l : same_scopes c c' -> good c' l -> good c l.
Proof.
  intros Hs [Hp Ha]. split; [|done]. eapply Forall_impl; [exact Hp|]. intros e. unfold passed.
  destruct (dispatch e) as [[[[c1 tool] args] p]|]; [|done]. intros [? ?]. split; [by rewrite Hs|done].
Qed.

Lemma inner_app {A} fits c (o : outcome A) l1 l2 : inner fits c (Val tt) l1 -> inner fits c o l2 -> inner fits c o (l1 ++ l2).
Proof.
  intros [Hg1 Hb1] [Hg2 Ho]. split; [by apply good_app|]. rewrite !existsb_app.
  destruct o as [a|r| |]; [| done | | ].
  - intros [H1 H2]%orb_false_iff. rewrite rows_app, nested_app, Hb1, Ho; auto.
  - rewrite Ho. apply orb_true_r.
  - intros Hf. rewrite (Ho Hf). apply orb_true_r.
Qed.

Lemma inner_bind {A C} fits c (m : M W A) (f : A -> M W C) :
  wp m (inner fits c) -> (forall a, wp (f a) (inner fits c)) -> wp (m ≫= f) (inner fits c).
Proof.
  intros Hm Hf. apply wp_bind. eapply wp_mono; [exact Hm|]. intros [a|r| |] l Hl; cbn; try done.
  eapply wp_mono; [apply Hf|]. intros o l'. by apply inner_app.
Qed.

Lemma inner_quiet {A} fits c (a : A) l : forallb quiet l = true -> inner fits c (Val a) l.
Proof. intros Hq. destruct (quiet_good c l Hq) as (? & Hr & Hn & _). split; [done|]. by rewrite Hr, Hn. Qed.

Lemma inner_ret {A} fits c (a : A) : wp (W := W) (mret a) (inner fits c).
Proof. by apply wp_ret, inner_quiet. Qed.

Lemma inner_outside {A} fits c (f : W -> A * W) : wp (outside f) (inner fits c).
Proof. apply wp_outside. intros a. by apply inner_quiet. Qed.

Lemma inner_flowing {A} fits c (m : M W A) : wp m flowing -> wp m (inner fits c).
Proof.
  intros H. eapply wp_mono; [exact H|]. intros [a|r| |] l; cbn; try done; [apply inner_quiet|].
  intros [tool ->]. split; [|done]. by repeat constructor.
Qed.

Lemma inner_weaken {A} (fits fits' : Prop) c (o : outcome A) l : (fits' -> fits) -> inner fits c o l -> inner fits' c o l.
Proof. intros H [? Ho]. split; [done|]. destruct o; auto. Qed.

Lemma track_inner fits c code text : wp (trackAndAnnotateError B code text) (inner fits c).
Proof. unfold trackAndAnnotateError. repeat wp_step. by apply inner_quiet. Qed.

Section Wrapper.
Variable rec : Ctx -> string -> RawMessage -> M W response.
Variable k : nat.
Hypothesis rec_finished : forall c name args,
  wp (rec c name args) (fun o l => finished (args_size args < k) c o l /\ forall r, o <> Return r).

Lemma nested_inner c0 c name args : same_scopes c0 c ->
  wp (callToolThroughPipeline rec c name args) (inner (args_size args < k) c0).
Proof.
  intros Hs. apply wp_bind, wp_emit. cbn. eapply wp_mono; [apply rec_finished|]. intros o l [[Hg Ho] Hr].
  split.
  - apply (good_app _ [_]); [by repeat constructor|]. by apply (good_scopes c0 c).
  - destruct o as [a|r| |]; [|by destruct (Hr r)|done|done]. destruct Ho as [Hrows _]. intros Hp.
    unfold rows, nested in *. rewrite (tally_cons is_row), (tally_cons is_nested). rewrite Hrows by done. done.
Qed.

Lemma call_tool_inner c0 c raw : same_scopes c0 c -> wp (handleCallTool G rec c raw) (inner (args_size raw < S k) c0).
Proof.
  intros Hs. unfold handleCallTool. destruct (decodeCallToolArgs raw) as [a|e] eqn:Ea; [|apply inner_ret].
  case_bool_decide; [apply inner_ret|]. case_bool_decide; [apply inner_ret|].
  apply inner_bind; [|intros [result err]; apply inner_ret].
  eapply wp_mono; [apply (nested_inner c0); rewrite Hs; apply with_flags_scopes|]. intros o l. apply inner_weaken.
  apply wrapper_args_smaller in Ea. lia.
Qed.

Lemma run_prog_inner c0 c p : same_scopes c0 c -> wp (run_prog rec c p) (inner False c0).
Proof.
  intros Hs. induction p as [out|tool args next IH]; cbn [run_prog]; [apply inner_ret|].
  apply inner_bind; [|intros r; apply IH]. apply wp_recovered.
  eapply wp_mono; [by apply nested_inner|]. intros o l [Hg Ho]. split; [done|].
  destruct o; try done. intros Hp. by rewrite Ho in Hp.
Qed.

Lemma code_execute_inner c0 c code : same_scopes c0 c -> wp (handleCodeExecute B G rec c code) (inner True c0).
Proof.
  intros Hs. unfold handleCodeExecute. destruct (b_preflight B code); [apply inner_ret|].
  apply inner_bind; [apply inner_outside|]. intros [tools|]; [|apply inner_ret].
  apply inner_bind; [case_bool_decide; [apply inner_outside|apply inner_ret]|]. intros execID.
  set (c' := withExecutionID _ _). assert (same_scopes c0 c') as Hs' by (rewrite Hs; by constructor).
  apply wp_bind, wp_emit. cbn. apply wp_bind, wp_gets. intros p. cbn.
  eapply wp_mono; [apply (inner_bind False c0)|].
  - by apply run_prog_inner.
  - intros [result|msg].
    + apply inner_bind; [apply inner_outside|]. intros r. apply inner_ret.
    + apply inner_bind; [apply track_inner|]. intros err. apply inner_ret.
  - intros o l [Hg Ho]. split; [apply (good_app _ [_]); [by repeat constructor|done]|].
    by destruct o.
Qed.

Lemma builtin_stage_finished c0 c name args p :
  same_scopes c0 c -> admitted c (p_asked p) name -> route_admitted c name (p_route p) ->
  wp (builtin_stage B G rec c name args p) (finished (args_size args < S k) c0).
Proof.
  intros Hs Ha Hr. unfold builtin_stage.
  assert (wp (handleBuiltinCall B G rec c {| req_Name := name; req_Arguments := args |} p) (inner (args_size args < S k) c0)) as Hcall.
  { unfold handleBuiltinCall. cbn [req_Name req_Arguments]. apply inner_bind.
    { apply wp_emit. split; [|done]. split; [apply Forall_singleton; by split_and!|done]. }
    intros []. case_bool_decide; [by apply call_tool_inner|]. case_bool_decide; [|apply inner_outside].
    destruct (execute_code_args args) as [code|]; [|apply inner_ret]. case_bool_decide; [apply inner_ret|].
    eapply wp_mono; [by apply code_execute_inner|]. intros o l. by apply inner_weaken. }
  assert (wp (res ← handleBuiltinCall B G rec c {| req_Name := name; req_Arguments := args |} p;
              let '(result, err) := res in
              result ← (match err with
                        | Some _ => mret result
                        | None =>
                            result ← (if bool_decide (p_fuzzy p = "") then mret result
                                      else inject name (injectFuzzyCorrectionMeta result (p_fuzzy p) name));
                            let result := if isTrustedBuiltinResult name then result else surfaceStructuredContent result in
                            if negb (isMeshTool name) && negb (bool_decide (name = callToolName))
                            then piggybackMeshNotice B c result else mret result
                        end);
              mret (result, err)) (inner (args_size args < S k) c0)) as Hall.
  { apply inner_bind; [exact Hcall|]. intros [result [err|]]; (apply inner_bind; [|intros ?; apply inner_ret]); [apply inner_ret|].
    apply inner_bind; [case_bool_decide; [apply inner_ret|apply inner_flowing, inject_flowing]|]. intros r.
    destruct (_ && _); [apply inner_flowing, piggyback_flowing|apply inner_ret]. }
  intros s. destruct (Hall s) as (l & Hl & Hg & Ho). unfold mbind, M_bind in Hl, Ho |- *.
  destruct (handleBuiltinCall _ _ _ _ _ _ s) as [[[result err]|r| |] s1]; [|by exists l..].
  set (m := match err with Some _ => _ | None => _ end) in *. destruct (m s1) as [[result'|r| |] s2]; [|by exists l..].
  cbn in *. exists (l ++ [Audited c name args (Some (p_route p)) result' err false]). rewrite Hl, <- app_assoc. split; [done|].
  split; [apply good_app; [done|by repeat constructor]|]. split.
  - rewrite existsb_app, rows_app, nested_app. cbn. rewrite orb_false_r. intros Hp. rewrite (Ho Hp). unfold rows, nested, tally. cbn. lia.
  - by exists l, (Audited c name args (Some (p_route p)) result' err false), [].
Qed.

Lemma pipeline_finished c name args : wp (pipeline B G rec c name args) (finished (args_size args < S k) c).
Proof.
  unfold pipeline. eapply (finish_bind _ _ _ _ (fun _ => True)); [by apply wp_gets|]. intros pure _.
  eapply (finish_bind _ _ _ _ (fun _ => True)); [destruct pure; [apply mid_blocked|by apply mid_ret]|]. intros [] _.
  eapply finish_bind; [apply entry_gates_mid|]. intros c1 [Hc1 Hadm].
  eapply finish_bind; [by apply find_route_mid|]. intros [tool p] [Hasked Htool].
  eapply finish_bind; [apply route_gates_mid|]. intros args' [Hroute Hsize].
  rewrite <- Hasked in Htool. apply stamped_scopes in Hc1.
  destruct (is_builtin_route _).
  - eapply wp_mono; [by apply builtin_stage_finished|]. intros o l [Hg Ho]. split; [done|]. destruct o; try done. intros ?. apply Ho. lia.
  - by apply downstream_stage_finished.
Qed.
End Wrapper.

(** What every call guarantees, at any depth. *)
Lemma handleToolsCall_finished fuel c name args :
  wp (handleToolsCall B G fuel c name args) (fun o l => finished (args_size args < fuel) c o l /\ forall r, o <> Return r).
Proof.
  revert c name args. induction fuel as [|fuel IH]; intros c name args.
  - intros s. exists []. cbn. rewrite app_nil_r. split; [done|]. split; [|done]. split; [by repeat constructor|lia].
  - cbn [handleToolsCall]. apply wp_returned. eapply wp_mono; [by apply (pipeline_finished _ fuel)|].
    intros o l H. split; [by destruct o|by destruct o].
Qed.
End Safety.
