(* ===== verification/AuditRow.v ===== *)
(** The rows of the audit ledger: what [internal/gateway/handler_audit.go] records of a
    call and what [Logger.Record] of [internal/audit/logger.go] hands to the store.

    The rows are those of the pipeline's events.  Ids, times, client type, model and
    the size of the answer's text are left out; the texts of errors, the float64
    rendering of a number and the scopes' hints are arguments. *)

From Stdlib Require Import Ascii String.
From stdpp Require Import base list option strings pretty sets.
From S2P Require Import Prelude GoStrings GoJson Sanitize ResultJson Routing Harness Gates ErrorTracker ScopePolicy Pipeline PipelineSafety AuditRedact.

#[local] Open Scope string_scope.
#[local] Open Scope list_scope.

Record AuditRecord := {
  SessionID : string; au_WorkspaceID : string; WorkspaceName : string; Subpath : string; ToolName : string;
  ParamsRedacted : RawMessage; RouteRuleID : string; au_DownstreamServerID : string; au_AuthScopeID : string;
  Status : string; ErrorCode : string; ErrorMessage : string; CacheHit : bool; ExecutionID : string;
  SkillID : option string; CorrelationID : string }.

(** ** What the gateway fills in *)

Section Row.
Variable session : Session.
Variable text_of : Pipeline.message -> string.
Variable float64_text : string -> string.

Definition currentWorkspaceName (c : Ctx) : string :=
  match workerWorkspaceAccess c with
  | Some a =>
      if bool_decide (PreferredWorkspaceID a = "") then s_workspaceName session
      else match List.find (fun g => bool_decide (wg_WorkspaceID g = PreferredWorkspaceID a)) (Grants a) with
           | Some g => wg_WorkspaceName g
           | None => s_workspaceName session
           end
  | None => s_workspaceName session
  end.

Definition currentSubpath (c : Ctx) : string :=
  match routingWorkspaceAncestors session c with
  | [] => ""
  | a :: _ => ComputeSubpath (routingClientRoot session c) (ws_RootPath a)
  end.

Definition skillIDPtr (c : Ctx) : option string := if bool_decide (skillID c = "") then None else Some (skillID c).

(** Into a struct field of type bool. *)
Definition struct_bool (l : list (string * json)) (key : string) : option bool :=
  fold_left (fun acc '(k, v) =>
    cur ← acc;
    if EqualFold k key then match v with JBool b => Some b | JNull => Some cur | _ => None end
    else Some cur) l (Some false).

Definition isToolError (result : RawMessage) : bool :=
  match result with Some (JObj l) => default false (struct_bool l "isError") | _ => false end.

Definition maxAuditToolErrorBytes : nat := 2000.

(** Back to the start of a rune. *)
Fixpoint rune_cut (l : list ascii) (cut : nat) : nat :=
  match cut with
  | O => O
  | S c => match l !! cut with
           | Some a => if is_cont a then rune_cut l c else cut
           | None => cut
           end
  end.

Definition extractToolErrorText (result : RawMessage) : string :=
  let parsed := match result with
                | Some (JObj l) => decode_result l
                | _ => None
                end in
  match parsed with
  | None => "tool returned error"
  | Some r =>
      let parts := List.filter (fun t => negb (bool_decide (t = ""))) (map (fun c => TrimSpace (ci_Text c)) (ctr_Content r)) in
      match parts with
      | [] => "tool returned error"
      | _ =>
          let joined := String.concat (String (ascii_of_N 10) "") parts in
          let l := list_ascii_of_string joined in
          if (maxAuditToolErrorBytes <? List.length l)%nat
          then string_of_list_ascii (take (rune_cut l maxAuditToolErrorBytes) l) else joined
      end
  end.

Definition rawArrayLen (raw : option json) : nat := match raw with Some (JArr l) => List.length l | _ => 0 end.

Definition ingest_kept : list string := ["name"; "kind"; "workspace_id"; "ttl_minutes"; "pinned"; "tags"].

Definition kept_fields (l : list (string * json)) : list (string * json) :=
  omap (fun key => match object_get l key with
                   | Some v => if json_decodable v then Some (key, through_float64 float64_text v) else None
                   | None => None
                   end) ingest_kept.

Definition counted (n : nat) : json := JNum (pretty (N.of_nat n)).

(** Only the shape of a data__ingest call is kept; the map is written in key order. *)
Definition scrubAuditParams (toolName : string) (params : RawMessage) : RawMessage :=
  if negb (bool_decide (toolName = "data__ingest")) then params
  else
    let fields := match params with Some (JObj l) => Some l | Some JNull => Some [] | _ => None end in
    match fields with
    | None => Some (JObj [("payload_redacted", JBool true); ("redaction", JStr "invalid data__ingest params")])
    | Some l =>
        let text := match object_get l "text" with
                    | Some (JStr t) => [("text_bytes", counted (String.length t))]
                    | Some JNull => [("text_bytes", counted 0)]
                    | _ => []
                    end in
        Some (JObj (norm ([("payload_redacted", JBool true)] ++ kept_fields l ++
                          [("rows_count", counted (rawArrayLen (object_get l "rows")));
                           ("documents_count", counted (rawArrayLen (object_get l "documents")))] ++ text)))
    end.

Definition base_row (c : Ctx) (toolName : string) (params : RawMessage) (route : option RouteResult)
    (status code msg : string) (hit : bool) : AuditRecord :=
  {| SessionID := s_ID session; au_WorkspaceID := currentWorkspaceID session c; WorkspaceName := currentWorkspaceName c;
     Subpath := currentSubpath c; ToolName := toolName; ParamsRedacted := scrubAuditParams toolName params;
     RouteRuleID := from_option res_MatchedRuleID "" route; au_DownstreamServerID := from_option res_DownstreamServerID "" route;
     au_AuthScopeID := from_option res_AuthScopeID "" route; Status := status; ErrorCode := code; ErrorMessage := msg;
     CacheHit := hit; ExecutionID := executionID c; SkillID := skillIDPtr c; CorrelationID := executionID c |}.

Definition recordAuditWithCache (c : Ctx) (toolName : string) (params : RawMessage) (route : option RouteResult)
    (result : RawMessage) (err : option RPCError) (hit : bool) : AuditRecord :=
  match err with
  | Some e => base_row c toolName params route "error" (pretty (Code e)) (text_of (Message e)) hit
  | None =>
      if isToolError result then base_row c toolName params route "error" "tool_error" (extractToolErrorText result) hit
      else base_row c toolName params route "success" "" "" hit
  end.

Definition blocked_row (c : Ctx) (toolName : string) (params : RawMessage) (route : option RouteResult)
    (result : RawMessage) (err : option RPCError) : AuditRecord :=
  match err with
  | Some e => base_row c toolName params route "blocked" (pretty (Code e)) (text_of (Message e)) false
  | None =>
      if isToolError result then base_row c toolName params route "blocked" "blocked" (extractToolErrorText result) false
      else base_row c toolName params route "blocked" "" "" false
  end.

(** The row of an event of the pipeline. *)
Definition row_of (e : event) : option AuditRecord :=
  match e with
  | Blocked c tool args route result err => Some (blocked_row c tool args route result err)
  | Audited c tool args route result err hit => Some (recordAuditWithCache c tool args route result err hit)
  | _ => None
  end.
End Row.

(** ** What the logger stores: logger.go *)

(** The key is stamped unless it is there; a payload that is no object stays. *)
Definition ensureCorrelationInParams (params : RawMessage) (id : string) : RawMessage :=
  if bool_decide (id = "") then params
  else match params with
       | None => Some (JObj [("correlation_id", JStr id)])
       | Some (JObj l) => if has_key "correlation_id" l then params else Some (JObj (map_set "correlation_id" (JStr id) l))
       | _ => params
       end.

(** [scopes]: the hints' text of a scope, if it can be read. *)
Definition loadRedactionHints (scopes : string -> option string) (authScopeID : string) : list string :=
  if bool_decide (authScopeID = "") then []
  else match scopes authScopeID with
       | None => []
       | Some raw => if bool_decide (raw = "") then [] else default [] (unmarshal_strings raw)
       end.

Definition correlated (ambient : string) (rec : AuditRecord) : string :=
  if bool_decide (CorrelationID rec = "") then ambient else CorrelationID rec.

(** The row as inserted and published; [ambient] is the context's correlation id. *)
Definition Record_ (scopes : string -> option string) (spelled : list nat -> bool) (ambient : string) (rec : AuditRecord)
    : AuditRecord :=
  let id := correlated ambient rec in
  let hints := loadRedactionHints scopes (au_AuthScopeID rec) in
  {| SessionID := SessionID rec; au_WorkspaceID := au_WorkspaceID rec; WorkspaceName := WorkspaceName rec;
     Subpath := Subpath rec; ToolName := ToolName rec;
     ParamsRedacted := Redact hints spelled (ensureCorrelationInParams (ParamsRedacted rec) id);
     RouteRuleID := RouteRuleID rec; au_DownstreamServerID := au_DownstreamServerID rec;
     au_AuthScopeID := au_AuthScopeID rec; Status := Status rec; ErrorCode := ErrorCode rec;
     ErrorMessage := if bool_decide (ErrorMessage rec = "") then "" else RedactString (ErrorMessage rec) hints;
     CacheHit := CacheHit rec; ExecutionID := ExecutionID rec; SkillID := SkillID rec; CorrelationID := id |}.

(** ** Helper lemmas *)

Lemma rune_cut_le l cut : rune_cut l cut <= cut.
Proof. induction cut as [|c IH]; cbn; [done|]. repeat case_match; lia. Qed.

(** The cut falls at the start of a rune, or at the front. *)
Lemma rune_cut_start l cut : cut < List.length l ->
  rune_cut l cut = 0 \/ exists a, l !! rune_cut l cut = Some a /\ is_cont a = false.
Proof.
  induction cut as [|c IH]; intros Hl; [by left|]. cbn [rune_cut].
  destruct (lookup_lt_is_Some_2 l (S c) Hl) as [a Ha]. rewrite Ha. destruct (is_cont a) eqn:E; [apply IH; lia|].
  right. eauto.
Qed.

Lemma norm_key l p : p ∈ norm l -> p ∈ l.
Proof.
  unfold norm. rewrite SliceStable_perm. induction l as [|q l IH]; cbn [dedup]; [done|].
  destruct (has_key (fst q) l); rewrite ?elem_of_cons; [auto|]. intros [->|H]; auto.
Qed.

(** ** Properties *)

Section Facts.
Variable session : Session.
Variable text_of : Pipeline.message -> string.
Variable float64_text : string -> string.

(** The message of a failed tool is bounded and not cut inside a rune. *)
Theorem tool_error_bounded (result : RawMessage) :
  let out := extractToolErrorText result in
  String.length out <= maxAuditToolErrorBytes /\
  exists joined, out = string_of_list_ascii (take (String.length out) (list_ascii_of_string joined)) /\
    (String.length out = 0 \/ String.length out = String.length joined \/
     exists a, list_ascii_of_string joined !! String.length out = Some a /\ is_cont a = false).
Proof.
  assert (forall t, List.length (list_ascii_of_string t) = String.length t) as Hlen
    by (intros t; induction t; cbn; congruence).
  assert (forall t, String.length t <= maxAuditToolErrorBytes -> String.length t <= maxAuditToolErrorBytes /\
    exists joined, t = string_of_list_ascii (take (String.length t) (list_ascii_of_string joined)) /\
    (String.length t = 0 \/ String.length t = String.length joined \/
     exists a, list_ascii_of_string joined !! String.length t = Some a /\ is_cont a = false)) as Hwhole.
  { intros t Ht. split; [done|]. exists t. rewrite take_ge by (rewrite Hlen; lia).
    rewrite string_of_list_ascii_of_string. auto. }
  cbv zeta. unfold extractToolErrorText. destruct (match result with Some (JObj l) => _ | _ => _ end) as [r|];
    [|apply Hwhole; vm_compute; lia].
  destruct (List.filter _ _) as [|part parts]; [apply Hwhole; vm_compute; lia|]. cbv zeta.
  set (joined := String.concat _ _). rewrite Hlen. destruct (Nat.ltb_spec maxAuditToolErrorBytes (String.length joined)) as [Hlong|Hshort];
    [|by apply Hwhole].
  pose proof (rune_cut_le (list_ascii_of_string joined) maxAuditToolErrorBytes) as Hle.
  destruct (rune_cut_start (list_ascii_of_string joined) maxAuditToolErrorBytes) as [H0|(a & Ha & Hc)]; [by rewrite Hlen| |].
  all: assert (String.length (string_of_list_ascii (take (rune_cut (list_ascii_of_string joined) maxAuditToolErrorBytes)
           (list_ascii_of_string joined))) = rune_cut (list_ascii_of_string joined) maxAuditToolErrorBytes) as ->
    by (rewrite <- Hlen, list_ascii_of_string_of_list_ascii, length_take, Hlen; lia).
  all: split; [done|]; exists joined; split; [done|]; eauto.
Qed.
(** A row says blocked for the pipeline's refusals and nothing else; otherwise error
    exactly when the call failed or its result says so. *)
Theorem row_status (e : event) (row : AuditRecord) (Hrow : row_of session text_of float64_text e = Some row) :
  Status row = (if is_blocked e then "blocked"
                else match e with
                     | Audited _ _ _ _ result err _ => if bool_decide (is_Some err) || isToolError result then "error" else "success"
                     | _ => ""
                     end) /\
  (Status row = "success" -> ErrorCode row = "" /\ ErrorMessage row = "").
Proof.
  destruct e; try discriminate; injection Hrow as <-; cbn [is_blocked]; unfold blocked_row, recordAuditWithCache;
    destruct err as [e|]; [|destruct (isToolError result)| |destruct (isToolError result)]; cbn; by split.
Qed.

Definition ingest_keys : list string :=
  ["payload_redacted"; "redaction"; "rows_count"; "documents_count"; "text_bytes"] ++ ingest_kept.

(** The rows, documents and text of a data__ingest call are counted, never stored. *)
Theorem ingest_payload_stays_out (params : RawMessage) (k : string) (v : json) (l : list (string * json))
    (Hl : scrubAuditParams float64_text "data__ingest" params = Some (JObj l)) (Hin : (k, v) ∈ l) :
  k ∈ ingest_keys /\
  (k ∉ ingest_kept -> match v with JBool _ => True | JNum _ => True | JStr s => s = "invalid data__ingest params" | _ => False end).
Proof.
  unfold scrubAuditParams in Hl. rewrite bool_decide_eq_true_2 in Hl by done. cbn [negb] in Hl.
  destruct (match params with Some (JObj l) => Some l | Some JNull => Some [] | _ => None end) as [fields|].
  - cbv zeta in Hl. injection Hl as <-. apply norm_key in Hin. apply elem_of_cons in Hin as [Hin|Hin]; [injection Hin as -> ->; split; [set_solver|done]|].
    apply elem_of_app in Hin as [Hin|[Hin|[Hin|Hin]%elem_of_cons]%elem_of_cons].
    + unfold kept_fields in Hin. apply list_elem_of_omap in Hin as (key & Hkey & E). 
      destruct (object_get fields key) as [u|]; [|done]. destruct (json_decodable u); [|done]. injection E as -> _.
      split; [apply elem_of_app; by right|by intros []].
    + injection Hin as -> ->. split; [set_solver|done].
    + injection Hin as -> ->. split; [set_solver|done].
    + repeat case_match; apply elem_of_cons in Hin as [[= -> ->]|[]%elem_of_nil] || apply elem_of_nil in Hin as [];
        (split; [set_solver|done]).
  - injection Hl as <-. apply elem_of_cons in Hin as [[= -> ->]|[= -> ->]%list_elem_of_singleton]; (split; [set_solver|done]).
Qed.

(** The correlation id a call's rows are joined by is in the stored parameters, under
    any hints that spare its name, and for any id no value pattern matches. *)
Theorem correlation_stored (scopes : string -> option string) (spelled : list nat -> bool) (ambient : string)
    (rec : AuditRecord) (l : list (string * json))
    (Hid : correlated ambient rec <> "") (Hl : ParamsRedacted rec = Some (JObj l)) (Hfree : has_key "correlation_id" l = false)
    (Hname : shouldRedact "correlation_id" (loadRedactionHints scopes (au_AuthScopeID rec)) = false)
    (Hplain : PatternMatches (correlated ambient rec) = false) :
  exists w l', ParamsRedacted (Record_ scopes spelled ambient rec) = Some w /\ canon w = JObj l' /\
    object_get l' "correlation_id" = Some (JStr (correlated ambient rec)).
Proof.
  set (id := correlated ambient rec) in *. set (hints := loadRedactionHints _ _) in *.
  cbn [ParamsRedacted Record_]. fold id hints. unfold ensureCorrelationInParams.
  rewrite bool_decide_eq_false_2 by done. rewrite Hl, Hfree.
  pose proof (redact_masks hints spelled (JObj (map_set "correlation_id" (JStr id) l)) []) as Hw.
  eexists _, _. split; [reflexivity|]. split; [exact Hw|]. rewrite object_get_norm.
  assert (forall k v (f : string -> json -> json) (ps : list (string * json)), object_get ps k = Some v ->
    object_get (map (fun '(k, w) => (k, f k w)) ps) k = Some (f k v)) as Hmap.
  { intros k v f ps. induction ps as [|[k' u] ps IH]; [done|]. cbn [map]. rewrite !object_get_cons.
    destruct (object_get ps k) as [x|] eqn:E.
    - intros [= ->]. by rewrite (IH eq_refl).
    - assert (object_get (map (fun '(k, w) => (k, f k w)) ps) k = None) as ->.
      { apply object_get_None. apply object_get_None in E. clear -E. induction ps as [|[k0 u] ps IH]; [done|].
        cbn in *. apply orb_false_iff in E as [-> E]. exact (IH E). }
      case_bool_decide; [|done]. intros [= ->]. by subst. }
  set (g := fun k w => if shouldRedact k hints then JStr redactedValue else mask hints w).
  pose proof (Hmap "correlation_id" _ (fun _ w => canon w) _ (Hmap "correlation_id" (JStr id) g (map_set "correlation_id" (JStr id) l)
    ltac:(rewrite map_set_get, bool_decide_eq_true_2 by done; done))) as Hget.
  refine (eq_trans Hget _). unfold g. rewrite Hname. cbn [mask canon].
  pose proof (redactStringValue_cases id) as [_ H]. rewrite Hplain in H. by rewrite H.
Qed.
End Facts.
