(* ===== verification/CompressText.v ===== *)
(** Token compression, the transforms: [internal/compression] (ccr.go, transforms.go,
    terminal.go, textforms.go, base64.go).

    A transform maps the value of a tool result to a value, and hands over the texts
    it dropped ("stash").  [CCRKey], the hash of a text, is an argument, and so is the
    float64 rendering of numbers.  Fields are split at ASCII space. *)

From Stdlib Require Import Ascii String.
From stdpp Require Import base list option strings pretty.
From S2P Require Import Prelude GoStrings GoJson GoRegexp Sanitize ResultJson AuditRedact.

#[local] Open Scope string_scope.
#[local] Open Scope list_scope.

#[local] Abbreviation dq := (String (ascii_of_N 34) "").
#[local] Abbreviation nl := (String (ascii_of_N 10) "").

(** ** Text blocks: transforms.go *)

(** What a rewriting makes of a text: the text, whether it counts, what was dropped. *)
Definition rewriting := string -> string * bool * list string.

(** A content block: a map, nil for null. *)
Definition decode_block (v : json) : option (option (list (string * json))) :=
  match v with JObj l => Some (Some l) | JNull => Some None | _ => None end.

Definition decode_blocks (v : json) : option (list (option (list (string * json)))) :=
  match v with JArr items => mapM decode_block items | JNull => Some [] | _ => None end.

Definition encode_block (b : option (list (string * json))) : json :=
  match b with Some l => JObj (norm l) | None => JNull end.

(** The text of a text block. *)
Definition block_text (b : option (list (string * json))) : option string :=
  match b with
  | Some l =>
      match object_get l "type" with
      | Some (JStr typ) => if bool_decide (typ = "text")
                           then match object_get l "text" with Some (JStr t) => Some t | Some JNull => Some "" | _ => None end
                           else None
      | _ => None
      end
  | None => None
  end.

Definition with_text (t : string) (b : option (list (string * json))) : option (list (string * json)) :=
  match b with Some l => Some (map_set "text" (JStr t) l) | None => None end.

Definition walk_block (fn : rewriting) (b : option (list (string * json)))
    : option (list (string * json)) * bool * list string :=
  match block_text b with
  | None => (b, false, [])
  | Some text =>
      let '(newText, ok, stash) := fn text in
      if negb ok || bool_decide (newText = text) then (b, false, stash) else (with_text newText b, true, stash)
  end.

Fixpoint walk_blocks (fn : rewriting) (bs : list (option (list (string * json))))
    : list (option (list (string * json))) * bool * list string :=
  match bs with
  | [] => ([], false, [])
  | b :: bs' =>
      let '(b', changed, stash) := walk_block fn b in
      let '(rest, changed', stash') := walk_blocks fn bs' in
      (b' :: rest, changed || changed', stash ++ stash')
  end.

Definition transformed := (RawMessage * bool * list string)%type.

Definition unchanged (result : RawMessage) : transformed := (result, false, []).

Definition walkTextBlocks (fn : rewriting) (result : RawMessage) : transformed :=
  match result with
  | Some (JObj env) =>
      match object_get env "content" with
      | None => unchanged result
      | Some rawContent =>
          match decode_blocks rawContent with
          | None => unchanged result
          | Some content =>
              let '(content, changed, stash) := walk_blocks fn content in
              if changed then (Some (JObj (map_set "content" (JArr (map encode_block content)) env)), true, stash)
              else unchanged result
          end
      end
  | _ => unchanged result
  end.

(** ** JSON texts *)

(** [json.Compact]: the text of a JSON value without the space between its tokens. *)
Fixpoint strip_space (in_string escaped : bool) (s : string) : string :=
  match s with
  | EmptyString => EmptyString
  | String a s' =>
      if in_string then
        String a (strip_space (negb (negb escaped && bool_decide (a = ascii_of_N 34)))
                              (negb escaped && bool_decide (a = "\"%char)) s')
      else if is_json_space a then strip_space false false s'
      else String a (strip_space (bool_decide (a = ascii_of_N 34)) false s')
  end.

Definition Compact (text : string) : option string :=
  match json_parse text with Some _ => Some (strip_space false false text) | None => None end.

Definition starts_container (s : string) : bool :=
  match s with String a _ => bool_decide (a = "{"%char) || bool_decide (a = "["%char) | EmptyString => false end.

Definition minify (text : string) : string * bool * list string :=
  if negb (starts_container (TrimSpace text)) then (text, false, [])
  else match Compact text with
       | None => (text, false, [])
       | Some buf => if (String.length text <=? String.length buf)%nat then (text, false, []) else (buf, true, [])
       end.

(** Into a struct whose content items have a type and a text. *)
Definition textBlocks (result : RawMessage) : list string :=
  match result with
  | Some (JObj l) =>
      match struct_field l "content" with
      | Some (JArr items) =>
          match mapM decode_item items with
          | Some content => map ci_Text (List.filter (fun c => bool_decide (ci_Type c = "text")) content)
          | None => []
          end
      | _ => []
      end
  | _ => []
  end.

Section Floats.
Variable float64_text : string -> string.

(** Equal texts, or JSON of equal values with numbers as float64. *)
Definition same_value (before after : string) : bool :=
  match json_parse before, json_parse after with
  | Some b, Some a =>
      if json_decodable b && json_decodable a
      then json_eqb (canon (through_float64 float64_text b)) (canon (through_float64 float64_text a))
      else bool_decide (before = after)
  | _, _ => bool_decide (before = after)
  end.

Fixpoint all2 (f : string -> string -> bool) (l l' : list string) : bool :=
  match l, l' with
  | [], [] => true
  | x :: l, y :: l' => f x y && all2 f l l'
  | _, _ => false
  end.

Definition jsonTextValuesEqual (before after : RawMessage) : bool := all2 same_value (textBlocks before) (textBlocks after).
End Floats.

(** The value of a text, its numbers exact, nothing but closing brackets after it. *)
Definition decodeNumberExact (data : string) : option json :=
  match json_parse data with
  | Some v => Some v
  | None =>
      match first_value [] (list_ascii_of_string data) with
      | Some (v, rest) => if more rest then None else Some v
      | None => None
      end
  end.


(** ** What a rewriting does to a result *)

(** A block is kept, or its text is rewritten and nothing else of it. *)
Inductive block_step (R : string -> string -> Prop) : option (list (string * json)) -> option (list (string * json)) -> Prop :=
| block_same b : block_step R b b
| block_rewritten l t t' : block_text (Some l) = Some t -> R t t' ->
    block_step R (Some l) (Some (map_set "text" (JStr t') l)).

(** A result whose text blocks are kept or rewritten, every other field as it was. *)
Definition result_step (R : string -> string -> Prop) (r r' : RawMessage) : Prop :=
  exists env raw bs bs', r = Some (JObj env) /\ object_get env "content" = Some raw /\ decode_blocks raw = Some bs /\
    Forall2 (block_step R) bs bs' /\ r' = Some (JObj (map_set "content" (JArr (map encode_block bs')) env)).

Section Walk.
Variable R : list string -> string -> string -> Prop.
Hypothesis R_mono : forall st st' t t', R st t t' -> st ⊆ st' -> R st' t t'.
Variable fn : rewriting.
Hypothesis fn_R : forall t t' st, fn t = (t', true, st) -> R st t t'.

Lemma walk_block_step b b' c st st' : walk_block fn b = (b', c, st) -> st ⊆ st' -> block_step (R st') b b'.
Proof.
  unfold walk_block. destruct (block_text b) as [t|] eqn:Ht; [|intros [= <- <- <-] _; constructor].
  destruct (fn t) as [[t' ok] s] eqn:Ef. destruct ok; cbn [negb orb]; [|intros [= <- <- <-] _; constructor].
  case_bool_decide; intros [= <- <- <-] Hs; [constructor|]. destruct b as [l|]; [|done]. constructor 2 with t; [done|].
  eapply R_mono; [by apply fn_R|done].
Qed.

Lemma walk_blocks_step bs : forall bs' c st st', walk_blocks fn bs = (bs', c, st) -> st ⊆ st' -> Forall2 (block_step (R st')) bs bs'.
Proof.
  induction bs as [|b bs IH]; intros bs' c st st'; cbn [walk_blocks]; [intros [= <- <- <-] _; constructor|].
  destruct (walk_block fn b) as [[b' c1] s1] eqn:E1. destruct (walk_blocks fn bs) as [[rest c2] s2] eqn:E2.
  intros [= <- <- <-] Hs. constructor.
  - eapply walk_block_step; [exact E1|]. intros x Hx. apply Hs, elem_of_app. by left.
  - eapply IH; [reflexivity|]. intros x Hx. apply Hs, elem_of_app. by right.
Qed.

Lemma walkTextBlocks_step r r' st : walkTextBlocks fn r = (r', true, st) -> result_step (R st) r r'.
Proof.
  unfold walkTextBlocks, unchanged. destruct r as [[| | | | |env]|]; try done.
  destruct (object_get env "content") as [raw|] eqn:Eg; [|done]. destruct (decode_blocks raw) as [bs|] eqn:Ed; [|done].
  destruct (walk_blocks fn bs) as [[bs' c] s] eqn:Ew. destruct c; [|done]. intros [= <- <-].
  exists env, raw, bs, bs'. split_and!; try done. eapply walk_blocks_step; [exact Ew|done].
Qed.
End Walk.

Lemma walkTextBlocks_idle fn r r' st : walkTextBlocks fn r = (r', false, st) -> r' = r /\ st = [].
Proof.
  unfold walkTextBlocks, unchanged. destruct r as [[| | | | |env]|]; try (by intros [= <- <-]).
  destruct (object_get env "content"); [|by intros [= <- <-]]. destruct (decode_blocks _); [|by intros [= <- <-]].
  destruct (walk_blocks _ _) as [[? []] ?]; by intros [= <- <-].
Qed.
