(* ===== verification/Transforms.v ===== *)
(** Token compression, the transforms: [internal/compression] (ccr.go, terminal.go,
    textforms.go, base64.go, transforms.go).

    Every transform but the minifier stashes what it drops and leaves a marker that
    names the hash of it.  SHA-256 is the argument [Sum256]; white space is ASCII. *)

From Stdlib Require Import Ascii String.
From stdpp Require Import base list option strings pretty.
From S2P Require Import Prelude GoStrings GoJson GoRegexp ResultJson AuditRedact CompressText.

#[local] Open Scope string_scope.
#[local] Open Scope list_scope.

#[local] Abbreviation dq := (String (ascii_of_N 34) "").
#[local] Abbreviation nl := (String (ascii_of_N 10) "").
#[local] Abbreviation cr := (ascii_of_N 13).

Definition regex_of (pattern : string) : regex := default Eps (Compile pattern).

Definition Split_lines (text : string) : list string := SplitByte text (ascii_of_N 10).

Fixpoint Join (sep : string) (l : list string) : string :=
  match l with
  | [] => ""
  | [x] => x
  | x :: l' => x +:+ sep +:+ Join sep l'
  end.

(** ** Markers: ccr.go *)

Definition hex_byte (a : ascii) : string :=
  String (hex_digit (N_of_ascii a / 16)) (String (hex_digit (N_of_ascii a mod 16)) "").

Definition hex_EncodeToString (l : list ascii) : string := foldr (fun a s => hex_byte a +:+ s) "" l.

Section Keys.
Variable Sum256 : string -> list ascii.

Definition CCRKey (payload : string) : string := substring 0 24 (hex_EncodeToString (Sum256 payload)).
End Keys.

Definition CCRMarker (key : string) (origBytes : nat) : string :=
  "[[ccr key=" +:+ key +:+ " bytes=" +:+ pretty origBytes +:+ " — call mcpx__retrieve({" +:+ dq +:+ "key" +:+ dq +:+ ":" +:+
  dq +:+ key +:+ dq +:+ "}) to expand the omitted content]]".

Definition ccrKeyRE : regex := regex_of "\[\[ccr key=([0-9a-f]{24}) bytes=".

(** Every match is "[[ccr key=", the key and " bytes=": 10, 24 and 7 bytes. *)
Definition marked_keys (text : string) : list string :=
  map (fun span => slice (list_ascii_of_string text) (fst span + 10) (fst span + 34)) (FindAllStringIndex ccrKeyRE text).

Fixpoint distinct (seen l : list string) : list string :=
  match l with
  | [] => []
  | k :: l' => if bool_decide (k ∈ seen) then distinct seen l' else k :: distinct (k :: seen) l'
  end.

Definition ParseCCRKeys (text : string) : list string := distinct [] (marked_keys text).

(** ** Terminal output: terminal.go *)

Definition terminalMinSavedBytes : nat := 256.

Definition ansiRE : regex :=
  regex_of "\x1b\[[0-9;?]*[ -/]*[@-~]|\x1b\][^\x07\x1b]*(\x07|\x1b\\)|\x1b[@-Z\\^_]".

Definition stripANSI (text : string) : string := ReplaceAllString ansiRE text "".

(** What follows the last carriage return of a line, one at its end apart. *)
Definition last_frame (ln : string) : string :=
  let body := TrimSuffix ln (String cr "") in
  default body (after_last body (String cr "")) +:+ (if HasSuffix ln (String cr "") then String cr "" else "").

Definition collapseCRFrames (text : string) : string :=
  if Contains text (String cr "") then Join nl (map last_frame (Split_lines text)) else text.

Definition repeatMinRun : nat := 5.

(** How many lines at the front equal [x], and the others. *)
Fixpoint leading (x : string) (l : list string) : nat * list string :=
  match l with
  | y :: l' => if bool_decide (y = x) then let '(n, rest) := leading x l' in (S n, rest) else (0, l)
  | [] => (0, [])
  end.

Definition repeated_note (n : nat) : string := "[previous line repeated " +:+ pretty n +:+ " more times]".

Fixpoint collapse_runs (fuel : nat) (lines : list string) : list string :=
  match fuel, lines with
  | S fuel, x :: l =>
      let '(more, rest) := leading x l in
      (if (repeatMinRun <=? S more)%nat && negb (bool_decide (TrimSpace x = "")) then [x; repeated_note more]
       else repeat x (S more)) ++ collapse_runs fuel rest
  | _, _ => []
  end.

Definition collapseRepeatedLines (text : string) : string :=
  let lines := Split_lines text in Join nl (collapse_runs (List.length lines) lines).

(** ** Logs: textforms.go *)

Definition logMinLines : nat := 10.
Definition logMinDropped : nat := 5.

Definition logKeepRE : regex :=
  regex_of "(?i)\b(ERROR|WARN(ING)?|FATAL|PANIC|CRITICAL|SEVERE|EXCEPTION|FAIL(ED|URE)?)\b".

(** The patterns of logLevelTokenRE and logfmtLevelRE are anchored at both ends, so
    the group can hold one level only: it is looked for level by level. *)
Definition logLevelTokenRE : list (string * regex) :=
  map (fun level => (level, regex_of ("^[\[\(]?(" +:+ level +:+ ")[\]\):,]?$")))
    ["INFO"; "DEBUG"; "TRACE"; "VERBOSE"; "NOTICE"; "WARN"; "WARNING"; "ERROR"; "FATAL"; "PANIC"; "CRITICAL"; "SEVERE"].

Definition logfmtLevelRE : list (string * regex) :=
  map (fun level => (level, regex_of ("^level=(" +:+ level +:+ ")$")))
    ["info"; "debug"; "trace"; "warn"; "warning"; "error"; "fatal"; "panic"; "critical"].

Definition logStackRE : regex := regex_of ("^\s+(at |File " +:+ dq +:+ "|\.\.\.|Traceback|Caused by|\tat )").

Definition logMustKeepRE : regex :=
  regex_of "secret://|[0-9a-fA-F]{8}-[0-9a-fA-F]{4}-[0-9a-fA-F]{4}|[0-9a-f]{32,}".

Definition logDroppableLevels : list string :=
  ["INFO"; "DEBUG"; "TRACE"; "VERBOSE"; "NOTICE"; "info"; "debug"; "trace"].

Definition submatch (levels : list (string * regex)) (f : string) : option string :=
  fst <$> List.find (fun p => MatchString (snd p) f) levels.

Definition field_severity (f : string) : option string :=
  match submatch logLevelTokenRE f with Some level => Some level | None => submatch logfmtLevelRE f end.

Fixpoint first_severity (fields : list string) : string :=
  match fields with
  | [] => ""
  | f :: fields' => match field_severity f with Some level => level | None => first_severity fields' end
  end.

Definition lineSeverity (ln : string) : string := first_severity (take 4 (Fields ln)).

Definition looksLikeLog (lines : list string) : bool :=
  let hits := List.length (List.filter (fun ln => negb (bool_decide (lineSeverity ln = ""))) lines) in
  (3 <=? hits)%nat && (List.length lines <=? hits * 4)%nat.

Definition droppable (ln : string) : bool :=
  bool_decide (lineSeverity ln ∈ logDroppableLevels) && negb (MatchString logKeepRE ln) &&
  negb (MatchString logStackRE ln) && negb (MatchString logMustKeepRE ln).

Definition filterLogLines (lines : list string) : list string := List.filter (fun ln => negb (droppable ln)) lines.

(** ** Encoded blobs: base64.go *)

Definition base64MinBlobBytes : nat := 1024.

Definition base64RunRE : regex := regex_of "(data:[a-zA-Z0-9/+.-]+;base64,)?[A-Za-z0-9+/]{256,}={0,2}".

Definition looksLikeBase64Payload (run : string) : bool :=
  if HasPrefix run "data:" then true
  else let sample := substring 0 1024 run in
       if ContainsAny sample "+/" then true
       else string_existsb (byte_in 65 90) sample && string_existsb (byte_in 97 122) sample.

(** ** Cuts: transforms.go *)

Definition oversizeThresholdBytes : nat := 8 * 1024.
Definition oversizeHeadBytes : nat := 2 * 1024.
Definition oversizeTailBytes : nat := 1024.

Fixpoint back_to_start (s : list ascii) (n : nat) : nat :=
  match n with
  | O => O
  | S m => match s !! n with Some a => if is_cont a then back_to_start s m else n | None => n end
  end.

Definition runeSafeEnd (s : list ascii) (n : nat) : nat :=
  if (List.length s <=? n)%nat then List.length s else back_to_start s n.

Fixpoint on_to_start (rest : list ascii) (n : nat) : nat :=
  match rest with
  | a :: rest' => if is_cont a then on_to_start rest' (S n) else n
  | [] => n
  end.

Definition runeSafeStart (s : list ascii) (n : nat) : nat :=
  match n with O => O | S _ => on_to_start (drop n s) n end.

Definition ccrMarkerSpanRE : regex := regex_of "\[\[ccr key=[0-9a-f]{24} bytes=\d+[^\]]*\]\]".

Definition adjust_cut (cuts : nat * nat) (span : nat * nat) : nat * nat :=
  let '(headEnd, tailStart) := cuts in
  let '(b, e) := span in
  (if (b <? headEnd)%nat && (headEnd <? e)%nat then b else headEnd,
   if (b <? tailStart)%nat && (tailStart <? e)%nat then e else tailStart).

Definition adjustCutForMarkers (text : string) (headEnd tailStart : nat) : nat * nat :=
  fold_left adjust_cut (FindAllStringIndex ccrMarkerSpanRE text) (headEnd, tailStart).

Definition oversize_cuts (text : string) : nat * nat :=
  let s := list_ascii_of_string text in
  adjustCutForMarkers text (runeSafeEnd s oversizeHeadBytes) (runeSafeStart s (String.length text - oversizeTailBytes)).

(** ** The rewritings *)

Section Transforms.
Variable Sum256 : string -> list ascii.

Definition marker_of (original : string) : string := CCRMarker (CCRKey Sum256 original) (String.length original).

Definition stashing (reason : string) (fn : string -> string) : rewriting := fun text =>
  let rewritten := fn text in
  if (String.length text <? String.length rewritten + terminalMinSavedBytes)%nat then (text, false, [])
  else (rewritten +:+ nl +:+ marker_of text +:+ " (" +:+ reason +:+ ")", true, [text]).

Definition log_rewriting : rewriting := fun text =>
  let lines := Split_lines text in
  if (List.length lines <? logMinLines)%nat then (text, false, [])
  else if negb (looksLikeLog lines) then (text, false, [])
  else let kept := filterLogLines lines in
       let dropped := List.length lines - List.length kept in
       if (dropped <? logMinDropped)%nat then (text, false, [])
       else (Join nl kept +:+ nl +:+ marker_of text +:+ " (" +:+ pretty dropped +:+ " lower-severity lines omitted)", true, [text]).

Definition is_blob (run : string) : bool := (base64MinBlobBytes <=? String.length run)%nat && looksLikeBase64Payload run.

Definition externalized (run : string) : string :=
  if is_blob run then marker_of run +:+ " (inline base64 blob externalized)" else run.

Definition base64_rewriting : rewriting := fun text =>
  if (String.length text <? base64MinBlobBytes)%nat then (text, false, [])
  else let blobs := List.filter is_blob (FindAllString base64RunRE text) in
       (ReplaceAllStringFunc base64RunRE text externalized, negb (bool_decide (blobs = [])), blobs).

Definition oversize_rewriting : rewriting := fun text =>
  if (String.length text <=? oversizeThresholdBytes)%nat then (text, false, [])
  else let s := list_ascii_of_string text in
       let '(headEnd, tailStart) := oversize_cuts text in
       (slice s 0 headEnd +:+ nl +:+ marker_of text +:+ nl +:+ slice s tailStart (List.length s), true, [text]).

Definition structuredDedupMinBytes : nat := 256.

Definition structuredDedup (result : RawMessage) : transformed :=
  match result with
  | Some (JObj env) =>
      match object_get env "structuredContent", object_get env "content" with
      | Some sc, Some rawContent =>
          match decode_blocks rawContent with
          | Some [Some l] =>
              match block_text (Some l) with
              | Some text =>
                  if (String.length text <? structuredDedupMinBytes)%nat then unchanged result
                  else match decodeNumberExact text with
                       | Some tv =>
                           if json_eqb (canon tv) (canon sc)
                           then (Some (JObj (map_set "content"
                                   (JArr [encode_block (with_text ("[value moved to structuredContent] " +:+ marker_of text) (Some l))])
                                   env)), true, [text])
                           else unchanged result
                       | None => unchanged result
                       end
              | None => unchanged result
              end
          | _ => unchanged result
          end
      | _, _ => unchanged result
      end
  | _ => unchanged result
  end.

Definition jsonMinify : RawMessage -> transformed := walkTextBlocks minify.

Definition ansiStrip : RawMessage -> transformed := walkTextBlocks (stashing "ANSI terminal escapes stripped" stripANSI).

Definition crCollapse : RawMessage -> transformed :=
  walkTextBlocks (stashing "overwritten progress frames collapsed" collapseCRFrames).

Definition repeatCollapse : RawMessage -> transformed :=
  walkTextBlocks (stashing "repeated lines collapsed, exact counts inline" collapseRepeatedLines).

Definition logCompressor : RawMessage -> transformed := walkTextBlocks log_rewriting.

Definition base64Externalize : RawMessage -> transformed := walkTextBlocks base64_rewriting.

Definition oversizeTruncate : RawMessage -> transformed := walkTextBlocks oversize_rewriting.
End Transforms.

(** ** Nothing is lost *)

Section Recovery.
Variable Sum256 : string -> list ascii.

Definition append_all : list string -> string := foldr String.append "".

(** How the old text [t] is got back from the new one and the stash: whole, from the
    marker it left; or piece by piece, kept or from its marker. *)
Inductive recoverable (st : list string) (t t' : string) : Prop :=
| behind_marker before after : t ∈ st -> t' = before +:+ marker_of Sum256 t +:+ after -> recoverable st t t'
| in_pieces (note : string) (ps : list (bool * string)) :
    t = append_all (map snd ps) ->
    t' = append_all (map (fun p : bool * string => if fst p then marker_of Sum256 (snd p) +:+ note else snd p) ps) ->
    (forall p, p ∈ ps -> fst p = true -> snd p ∈ st) -> recoverable st t t'.

Lemma recoverable_mono st st' t t' : recoverable st t t' -> st ⊆ st' -> recoverable st' t t'.
Proof. intros [b a Ht E|n ps E1 E2 H] Hs; [by apply (behind_marker _ _ _ b a); [apply Hs|]|]. apply (in_pieces _ _ _ n ps); auto. Qed.

Definition loses_nothing (fn : rewriting) : Prop := forall t t' st, fn t = (t', true, st) -> recoverable st t t'.

Lemma stashing_recoverable reason f : loses_nothing (stashing Sum256 reason f).
Proof.
  intros t t' st. unfold stashing. destruct (_ <? _)%nat; intros [= <- <-].
  eapply behind_marker; [by left|]. by rewrite <- (string_app_assoc (f t) nl).
Qed.

Lemma log_recoverable : loses_nothing (log_rewriting Sum256).
Proof.
  intros t t' st. unfold log_rewriting. destruct (_ <? _)%nat; [done|]. destruct (negb _); [done|]. destruct (_ <? _)%nat; intros [= <- <-].
  eapply behind_marker; [by left|]. by rewrite <- (string_app_assoc (Join nl _) nl).
Qed.

Lemma oversize_recoverable : loses_nothing (oversize_rewriting Sum256).
Proof.
  intros t t' st. unfold oversize_rewriting. destruct (_ <=? _)%nat; [done|]. destruct (oversize_cuts t) as [h u]. intros [= <- <-].
  eapply behind_marker; [by left|]. by rewrite <- (string_app_assoc (slice _ 0 h) nl).
Qed.

Lemma base64_recoverable : loses_nothing (base64_rewriting Sum256).
Proof.
  intros t t' st. unfold base64_rewriting. destruct (_ <? _)%nat; [done|]. intros [= <- _ <-].
  destruct (ReplaceAllStringFunc_pieces base64RunRE t (externalized Sum256)) as (ps & H1 & H2 & H3).
  apply (in_pieces _ _ _ " (inline base64 blob externalized)" (map (fun p : bool * string => (fst p && is_blob (snd p), snd p)) ps)).
  - rewrite map_map. exact H1.
  - rewrite H2, map_map. unfold append_all. f_equal. apply map_ext. intros [[] u]; cbn [fst snd andb]; [|done].
    unfold externalized. by destruct (is_blob u).
  - intros p ([b u] & -> & Hp)%list_elem_of_fmap. cbn [fst snd]. intros [-> Hb]%andb_prop. rewrite H3.
    apply list_elem_of_In, filter_In. split; [|done]. apply in_map_iff. exists (true, u). split; [done|].
    apply filter_In. split; [by apply list_elem_of_In|done].
Qed.

Lemma structuredDedup_recoverable r r' st : structuredDedup Sum256 r = (r', true, st) -> result_step (recoverable st) r r'.
Proof.
  unfold structuredDedup, unchanged. destruct r as [[| | | | |env]|]; try done.
  destruct (object_get env "structuredContent") as [sc|]; [|done]. destruct (object_get env "content") as [raw|] eqn:Eg; [|done].
  destruct (decode_blocks raw) as [[|[l|] [|]]|] eqn:Ed; try done. destruct (block_text (Some l)) as [t|] eqn:Et; [|done].
  destruct (_ <? _)%nat; [done|]. destruct (decodeNumberExact t); [|done]. destruct (json_eqb _ _); [|done]. intros [= <- <-].
  exists env, raw, [Some l], [with_text ("[value moved to structuredContent] " +:+ marker_of Sum256 t) (Some l)].
  split_and!; [done|exact Eg|exact Ed| |reflexivity]. constructor; [|constructor].
  constructor 2 with t; [done|]. eapply behind_marker; [by left|]. by rewrite string_app_nil_r.
Qed.
End Recovery.

(** ** Cuts spare markers *)

Definition straddles (span : nat * nat) (cut : nat) : Prop := fst span < cut < snd span.

Lemma adjust_cuts lo hi spans : forall h t, ordered lo hi spans ->
  let '(h', t') := fold_left adjust_cut spans (h, t) in
  (h' = h \/ lo <= h' < h) /\ (t' = t \/ lo <= t' /\ t < t' <= hi) /\
  Forall (fun span => ~ straddles span h' /\ ~ straddles span t') spans.
Proof.
  revert lo. induction spans as [|[b e] spans IH]; intros lo h t; cbn [fold_left ordered].
  - intros _. split_and!; [by left|by left|constructor].
  - intros (Hb & He & Hr). cbn [adjust_cut].
    set (h1 := if _ : bool then b else h). set (t1 := if _ : bool then e else t).
    specialize (IH e h1 t1 Hr). destruct (fold_left adjust_cut spans (h1, t1)) as [h' t']. destruct IH as (Hh & Ht & Hall).
    assert ((h1 = h /\ ~ b < h < e) \/ (h1 = b /\ b < h < e)) as Hh1.
    { subst h1. destruct (Nat.ltb_spec b h), (Nat.ltb_spec h e); cbn [andb]; lia. }
    assert ((t1 = t /\ ~ b < t < e) \/ (t1 = e /\ b < t < e)) as Ht1.
    { subst t1. destruct (Nat.ltb_spec b t), (Nat.ltb_spec t e); cbn [andb]; lia. }
    clearbody h1 t1. split_and!; [lia|lia|]. constructor; [|exact Hall]. unfold straddles. cbn [fst snd]. lia.
Qed.

Lemma back_to_start_le s n : back_to_start s n <= n.
Proof. induction n as [|n IH]; [done|]. cbn [back_to_start]. repeat case_match; lia. Qed.

Lemma on_to_start_bounds l : forall n, n <= on_to_start l n <= n + List.length l.
Proof. induction l as [|a l IH]; intros n; cbn; [lia|]. destruct (is_cont a); [specialize (IH (S n))|]; lia. Qed.

(** Truncation keeps at most the first 2 KiB and at least the last bytes from some
    place in the last KiB, in that order, and cuts through no marker an earlier transform left. *)
Theorem cuts_spare_markers (text : string) :
  oversizeThresholdBytes < String.length text ->
  let '(headEnd, tailStart) := oversize_cuts text in
  headEnd <= oversizeHeadBytes /\ String.length text - oversizeTailBytes <= tailStart <= String.length text /\
  Forall (fun span => ~ straddles span headEnd /\ ~ straddles span tailStart) (FindAllStringIndex ccrMarkerSpanRE text).
Proof.
  intros Hlen. unfold oversize_cuts, adjustCutForMarkers. set (s := list_ascii_of_string text).
  assert (List.length s = String.length text) as Hs by apply length_list_ascii.
  pose proof (adjust_cuts 0 (String.length text) _ (runeSafeEnd s oversizeHeadBytes)
    (runeSafeStart s (String.length text - oversizeTailBytes)) (FindAllStringIndex_ordered ccrMarkerSpanRE text)) as H.
  destruct (fold_left _ _ _) as [h t]. destruct H as (Hh & Ht & Hall).
  assert (runeSafeEnd s oversizeHeadBytes <= oversizeHeadBytes) as He.
  { unfold runeSafeEnd. destruct (Nat.leb_spec (List.length s) oversizeHeadBytes); [lia|]. apply back_to_start_le. }
  assert (String.length text - oversizeTailBytes <= runeSafeStart s (String.length text - oversizeTailBytes) <= String.length text) as Hr.
  { pose proof (on_to_start_bounds (drop (String.length text - oversizeTailBytes) s) (String.length text - oversizeTailBytes)) as Hb.
    rewrite length_drop in Hb. unfold runeSafeStart. destruct (_ - oversizeTailBytes) eqn:E; [|lia].
    unfold oversizeThresholdBytes, oversizeTailBytes in *. lia. }
  split_and!; [lia|lia|lia|exact Hall].
Qed.

Example cuts_spare_markers_witness :
  let marker := CCRMarker (Join "" (repeat "0123456789ab" 2)) (9 * 1000) in
  let text := Join "" (repeat "-" (2 * 1000)) +:+ marker +:+ Join "" (repeat "=" (7 * 1000)) in
  oversize_cuts text = (2000, (8 * 1000 + 113))%nat /\
  Forall (fun span => ~ straddles span 2000 /\ ~ straddles span (8 * 1000 + 113)) (FindAllStringIndex ccrMarkerSpanRE text).
Proof.
  intros marker text. assert (oversize_cuts text = (2000, (8 * 1000 + 113))%nat) as H by (vm_compute; reflexivity).
  split; [exact H|]. assert (oversizeThresholdBytes < String.length text) as Hl by (apply Nat.ltb_lt; vm_compute; reflexivity).
  pose proof (cuts_spare_markers text Hl) as Hc. rewrite H in Hc. exact (proj2 (proj2 Hc)).
Defined.

(** ** Collapsing repeated lines *)

(** Lines that say so read like collapsed ones: the counts alone do not give the text back. *)
Lemma collapse_not_injective :
  let said := "x" +:+ nl +:+ repeated_note 4 in
  let repeated := Join nl (repeat "x" 5) in
  collapseRepeatedLines said = collapseRepeatedLines repeated /\ said <> repeated.
Proof. split; [vm_compute; reflexivity|vm_compute; discriminate]. Qed.

(** A text with a closing bracket too many counts as the structured value. *)
Lemma trailing_bracket_deduped Sum256 :
  let text := "{" +:+ dq +:+ "a" +:+ dq +:+ ":" +:+ dq +:+ Join "" (repeat "0123456789" 26) +:+ dq +:+ "}]" in
  let block t := JArr [JObj [("text", JStr t); ("type", JStr "text")]] in
  let sc := JObj [("a", JStr (Join "" (repeat "0123456789" 26)))] in
  json_parse text = None /\
  structuredDedup Sum256 (Some (JObj [("content", block text); ("structuredContent", sc)])) =
    (Some (JObj [("content", block ("[value moved to structuredContent] " +:+ marker_of Sum256 text)); ("structuredContent", sc)]),
     true, [text]).
Proof. split; vm_compute; reflexivity. Qed.
