(* ===== verification/Compression.v ===== *)
(** Token compression, the pipeline: [internal/compression] (mode.go, pipeline.go,
    transform.go, transforms.go) and the token estimate of models/tokenizer.go.

    The pipeline is over any payload that has a size; the default transforms are
    over tool results.  A transform is a total function, so [safeApply] has nothing
    to recover from.  Shadow mode measures what On would do; On keeps every result
    recoverable. *)

From Stdlib Require Import Ascii String.
From stdpp Require Import base list option strings.
From S2P Require Import Prelude GoStrings GoJson ResultJson CompressText Transforms.

#[local] Open Scope string_scope.
#[local] Open Scope list_scope.
#[local] Open Scope Z_scope.

(** ** Modes: mode.go *)

Inductive Mode := ModeOff | ModeShadow | ModeOn.

#[export] Instance Mode_eq_dec : EqDecision Mode.
Proof. solve_decision. Defined.

Definition ParseMode (s : string) : Mode :=
  let m := ToLower (TrimSpace s) in
  if bool_decide (m = "off") then ModeOff else if bool_decide (m = "on") then ModeOn else ModeShadow.

(** ** The estimate: 3.5 bytes for a token, rounded up *)

Definition EstimateContextTokens (nBytes : Z) : Z := if nBytes <=? 0 then 0 else (2 * nBytes + 6) / 7.

(** ** The pipeline: pipeline.go *)

Record Observation := {
  Transform : string;
  Lossless : bool;
  OrigBytes : Z;
  OutBytes : Z;
  SavedBytes : Z;
  OrigTokens : Z;
  OutTokens : Z;
  SavedTokens : Z;
  Changed : bool;
  Applied : bool;
  Stash : list string
}.

Definition unapplied (o : Observation) : Observation := {|
  Transform := Transform o; Lossless := Lossless o; OrigBytes := OrigBytes o; OutBytes := OutBytes o; SavedBytes := SavedBytes o;
  OrigTokens := OrigTokens o; OutTokens := OutTokens o; SavedTokens := SavedTokens o; Changed := Changed o;
  Applied := false; Stash := [] |}.

Definition committed (stash : list string) (o : Observation) : Observation := {|
  Transform := Transform o; Lossless := Lossless o; OrigBytes := OrigBytes o; OutBytes := OutBytes o; SavedBytes := SavedBytes o;
  OrigTokens := OrigTokens o; OutTokens := OutTokens o; SavedTokens := SavedTokens o; Changed := Changed o;
  Applied := true; Stash := stash |}.

(** A transform: [Apply] with what it stashes, and the check a lossless one may have. *)
Record transform (M : Type) := {
  Name : string;
  is_lossless : bool;
  ApplyWithStash : M -> M * bool * list string;
  Verify : option (M -> M -> bool)
}.
Arguments Name {M}. Arguments is_lossless {M}. Arguments ApplyWithStash {M}. Arguments Verify {M}.

Record Pipeline (M : Type) := { transforms : list (transform M); estimate : Z -> Z; minBytes : Z }.
Arguments transforms {M}. Arguments estimate {M}. Arguments minBytes {M}.

Section Process.
Context {M : Type} (size : M -> Z).

Definition measure (est : Z -> Z) (t : transform M) (current out : M) (changed : bool) : Observation := {|
  Transform := Name t; Lossless := is_lossless t; OrigBytes := size current; OutBytes := size out;
  SavedBytes := size current - size out; OrigTokens := est (size current); OutTokens := est (size out);
  SavedTokens := est (size current) - est (size out); Changed := changed; Applied := false; Stash := [] |}.

Definition wouldApply (t : transform M) (current out : M) (changed : bool) (stash : list string) : bool :=
  changed && (is_lossless t || negb (bool_decide (stash = []))) && (0 <? size current - size out) &&
  (if is_lossless t then match Verify t with Some v => v current out | None => true end else true).

(** One transform: the payload its successors see, and the observation. *)
Definition process_one (est : Z -> Z) (mode : Mode) (t : transform M) (current : M) : M * Observation :=
  let '(out, changed, stash) := ApplyWithStash t current in
  let o := measure est t current out changed in
  if wouldApply t current out changed stash
  then (out, if bool_decide (mode = ModeOn) then committed stash o else o)
  else (current, o).

Fixpoint process_all (est : Z -> Z) (mode : Mode) (disabled : string -> bool) (ts : list (transform M)) (current : M)
    : M * list Observation :=
  match ts with
  | [] => (current, [])
  | t :: ts' =>
      if disabled (Name t) then process_all est mode disabled ts' current
      else let '(next, o) := process_one est mode t current in
           let '(out, obs) := process_all est mode disabled ts' next in
           (out, o :: obs)
  end.

Definition Process (p : option (Pipeline M)) (mode : Mode) (disabled : string -> bool) (result : M) : M * list Observation :=
  match p with
  | None => (result, [])
  | Some p =>
      if bool_decide (mode = ModeOff) then (result, [])
      else if (0 <? minBytes p) && (size result <? minBytes p) then (result, [])
      else let '(current, obs) := process_all (estimate p) mode disabled (transforms p) result in
           (if bool_decide (mode = ModeOn) then current else result, obs)
  end.
End Process.

(** ** The default transforms *)

Section Defaults.
Variable Sum256 : string -> list ascii.
Variable float64_text : string -> string.

Definition lossy (name : string) (f : RawMessage -> transformed) : transform RawMessage :=
  {| Name := name; is_lossless := false; ApplyWithStash := f; Verify := None |}.

Definition DefaultTransforms : list (transform RawMessage) :=
  [ {| Name := "json_minify"; is_lossless := true; ApplyWithStash := jsonMinify;
       Verify := Some (jsonTextValuesEqual float64_text) |};
    lossy "ansi_strip" (ansiStrip Sum256);
    lossy "cr_progress_collapse" (crCollapse Sum256);
    lossy "repeat_collapse" (repeatCollapse Sum256);
    lossy "structured_dedup" (structuredDedup Sum256);
    lossy "log_compact" (logCompressor Sum256);
    lossy "base64_externalize" (base64Externalize Sum256);
    lossy "oversize_truncate" (oversizeTruncate Sum256) ].
End Defaults.

(** ** Shadow measures what On does *)

Section Facts.
Context {M : Type} (size : M -> Z).

Lemma process_one_modes est t m :
  fst (process_one size est ModeShadow t m) = fst (process_one size est ModeOn t m) /\
  snd (process_one size est ModeShadow t m) = unapplied (snd (process_one size est ModeOn t m)).
Proof. unfold process_one. destruct (ApplyWithStash t m) as [[out c] st]. by destruct (wouldApply _ _ _ _ _ _). Qed.

Lemma process_all_modes est disabled ts : forall m,
  fst (process_all size est ModeShadow disabled ts m) = fst (process_all size est ModeOn disabled ts m) /\
  snd (process_all size est ModeShadow disabled ts m) = map unapplied (snd (process_all size est ModeOn disabled ts m)).
Proof.
  induction ts as [|t ts IH]; intros m; [done|]. cbn [process_all]. destruct (disabled (Name t)); [apply IH|].
  pose proof (process_one_modes est t m) as [H1 H2].
  destruct (process_one size est ModeShadow t m) as [n o], (process_one size est ModeOn t m) as [n' o']. cbn [fst snd] in *. subst.
  specialize (IH n'). destruct (process_all size est ModeShadow disabled ts n'), (process_all size est ModeOn disabled ts n').
  cbn [fst snd] in *. destruct IH as [-> ->]. done.
Qed.

(** Shadow mode hands the original back, and its observations are those of On mode
    with nothing applied: what it measures is what On would save. *)
Theorem shadow_measures (p : option (Pipeline M)) (disabled : string -> bool) (result : M) :
  fst (Process size p ModeShadow disabled result) = result /\
  snd (Process size p ModeShadow disabled result) = map unapplied (snd (Process size p ModeOn disabled result)).
Proof.
  destruct p as [p|]; [|done]. cbn [Process]. rewrite !bool_decide_eq_false_2 by done. destruct (_ && _); [done|].
  pose proof (process_all_modes (estimate p) disabled (transforms p) result) as [_ H].
  destruct (process_all size _ ModeShadow _ _ _), (process_all size _ ModeOn _ _ _). by rewrite bool_decide_eq_true_2.
Qed.

(** The payloads On mode goes through: an applied observation is a step. *)
Inductive chain (link : M -> Observation -> M -> Prop) : M -> list Observation -> M -> Prop :=
| chain_done m : chain link m [] m
| chain_skipped m o obs m' : Applied o = false -> chain link m obs m' -> chain link m (o :: obs) m'
| chain_applied m o n obs m' : Applied o = true -> link m o n -> chain link n obs m' -> chain link m (o :: obs) m'.

(** What every applied step has: it saves, and what it saves is what it says. *)
Definition shrinks (m : M) (o : Observation) (n : M) : Prop :=
  OrigBytes o = size m /\ OutBytes o = size n /\ SavedBytes o = size m - size n /\ size n < size m /\
  (Lossless o = false -> Stash o <> []).

Lemma process_all_chain (link : M -> Observation -> M -> Prop) est disabled ts :
  (forall t m out st, t ∈ ts -> ApplyWithStash t m = (out, true, st) ->
     (is_lossless t = true -> forall v, Verify t = Some v -> v m out = true) ->
     link m (committed st (measure size est t m out true)) out) ->
  forall m, chain (fun m o n => shrinks m o n /\ link m o n) m (snd (process_all size est ModeOn disabled ts m))
              (fst (process_all size est ModeOn disabled ts m)).
Proof.
  induction ts as [|t ts IH]; intros Hlink m; [constructor|]. cbn [process_all].
  destruct (disabled (Name t)); [apply IH; intros; apply Hlink; [by right|done|done]|].
  assert (forall n, chain (fun m o n => shrinks m o n /\ link m o n) n (snd (process_all size est ModeOn disabled ts n))
              (fst (process_all size est ModeOn disabled ts n))) as Hrest by (apply IH; intros; apply Hlink; [by right|done|done]).
  unfold process_one. destruct (ApplyWithStash t m) as [[out c] st] eqn:Ea. destruct (wouldApply size t m out c st) eqn:Ew.
  - rewrite bool_decide_eq_true_2 by done. specialize (Hrest out).
    destruct (process_all size est ModeOn disabled ts out) as [m' obs]. cbn [fst snd] in *.
    unfold wouldApply in Ew. apply andb_prop in Ew as [Ew Hv]. apply andb_prop in Ew as [Ew Hs%Z.ltb_lt].
    apply andb_prop in Ew as [-> Hl]. eapply chain_applied; [done| |exact Hrest]. split.
    + split_and!; cbn; [done|done|done|lia|]. intros Hf. rewrite Hf in Hl. cbn in Hl. by apply negb_true_iff, bool_decide_eq_false in Hl.
    + apply Hlink; [by left|done|]. intros Ht v Hv'. by rewrite Ht, Hv' in Hv.
  - specialize (Hrest m). destruct (process_all size est ModeOn disabled ts m) as [m' obs]. by apply chain_skipped.
Qed.

Definition saved (obs : list Observation) : Z := foldr (fun o n => (if Applied o then SavedBytes o else 0) + n) 0 obs.

Lemma chain_saved link m obs m' : chain (fun m o n => shrinks m o n /\ link m o n) m obs m' -> size m' + saved obs = size m.
Proof.
  induction 1 as [m|m o obs m' Ha _ IH|m o n obs m' Ha [(_ & _ & Hs & _) _] _ IH]; cbn [saved foldr];
    [lia| |]; rewrite Ha; unfold saved in IH; lia.
Qed.

Lemma saved_unapplied obs : saved (map unapplied obs) = 0.
Proof. induction obs as [|o obs IH]; [done|]. cbn. exact IH. Qed.

Lemma saved_app obs obs' : saved (obs ++ obs') = saved obs + saved obs'.
Proof. induction obs as [|o obs IH]; [done|]. unfold saved in *. cbn [app foldr]. rewrite IH. lia. Qed.

(** In every mode, what the applied observations say was saved was saved. *)
Lemma Process_saved (p : option (Pipeline M)) mode disabled result :
  let '(out, obs) := Process size p mode disabled result in size out + saved obs = size result /\ (mode <> ModeOn -> out = result).
Proof.
  destruct p as [p|]; [|cbn; split; [lia|done]]. cbn [Process]. assert (size result + saved [] = size result) as Hnil by (cbn; lia).
  destruct mode; [by rewrite bool_decide_eq_true_2|..].
  - rewrite bool_decide_eq_false_2 by done. destruct (_ && _); [done|].
    pose proof (process_all_modes (estimate p) disabled (transforms p) result) as [_ H].
    destruct (process_all size _ ModeShadow _ _ _) as [out obs]. cbn [snd] in H. subst obs. rewrite saved_unapplied. by rewrite bool_decide_eq_false_2.
  - rewrite bool_decide_eq_false_2 by done. destruct (_ && _); [done|].
    pose proof (process_all_chain (fun _ _ _ => True) (estimate p) disabled (transforms p) ltac:(done) result) as H.
    destruct (process_all size _ ModeOn _ _ _) as [out obs]. rewrite bool_decide_eq_true_2 by done. split; [|done].
    eapply chain_saved. exact H.
Qed.
End Facts.

(** ** What On mode does to a tool result *)

Section Results.
Variable Sum256 : string -> list ascii.
Variable float64_text : string -> string.
Variable size : RawMessage -> Z.

(** A lossless step keeps the JSON value of every text; another keeps every field but
    the texts of text blocks, and the old texts are in the new ones and the stash. *)
Definition keeps (m : RawMessage) (o : Observation) (n : RawMessage) : Prop :=
  if Lossless o then jsonTextValuesEqual float64_text m n = true
  else result_step (recoverable Sum256 (Stash o)) m n.

Lemma rewriting_step fn m out st : loses_nothing Sum256 fn -> walkTextBlocks fn m = (out, true, st) ->
  result_step (recoverable Sum256 st) m out.
Proof. intros H. apply (walkTextBlocks_step (recoverable Sum256)); [|exact H]. intros ????. apply recoverable_mono. Qed.

Lemma default_keeps est t m out st : t ∈ DefaultTransforms Sum256 float64_text -> ApplyWithStash t m = (out, true, st) ->
  (is_lossless t = true -> forall v, Verify t = Some v -> v m out = true) ->
  keeps m (committed st (measure size est t m out true)) out.
Proof.
  intros Ht Ha Hv. unfold DefaultTransforms in Ht. rewrite !elem_of_cons in Ht. unfold keeps.
  destruct Ht as [->|[->|[->|[->|[->|[->|[->|[->|Ht]]]]]]]]; cbn in *; [by apply Hv|..|by apply not_elem_of_nil in Ht].
  all: try (by apply structuredDedup_recoverable); refine (rewriting_step _ _ _ _ _ Ha);
    auto using stashing_recoverable, log_recoverable, base64_recoverable, oversize_recoverable.
Qed.

(** In On mode the result the model reads comes from the original by the steps its
    observations name, each smaller than the one before: a lossless step has passed
    the check of values, and what any other step dropped is in its stash, behind a
    marker that names it.  The bytes the applied steps report are the bytes saved. *)
Theorem compression_recoverable (p : Pipeline RawMessage) (disabled : string -> bool) (result : RawMessage)
    (Hts : transforms p = DefaultTransforms Sum256 float64_text) :
  let '(out, obs) := Process size (Some p) ModeOn disabled result in
  chain (fun m o n => shrinks size m o n /\ keeps m o n) result obs out /\ size out + saved obs = size result.
Proof.
  cbn [Process]. rewrite bool_decide_eq_false_2 by done. destruct (_ && _); [split; [constructor|cbn; lia]|]. rewrite Hts.
  pose proof (process_all_chain size keeps (estimate p) disabled (DefaultTransforms Sum256 float64_text)
                (default_keeps (estimate p)) result) as H.
  destruct (process_all _ _ _ _ _ _) as [out obs]. rewrite bool_decide_eq_true_2 by done. cbn [fst snd] in H.
  split; [exact H|]. eapply chain_saved. exact H.
Qed.
End Results.

(** A result whose one text repeats a line, measured by the JSON it is written as. *)
Definition sample_size (r : RawMessage) : Z := Z.of_nat (String.length (default "" (json_marshal <$> r))).

Definition sample_hash (payload : string) : list ascii := repeat (ascii_of_N (N.of_nat (String.length payload mod 256))) 32.

Definition sample_pipeline : Pipeline RawMessage :=
  {| transforms := DefaultTransforms sample_hash id; estimate := EstimateContextTokens; minBytes := 256 |}.

Definition sample_output : RawMessage :=
  Some (JObj [("content", JArr [JObj [("text", JStr (Join (String (ascii_of_N 10) "") (repeat "waiting for the server" 40)));
                                      ("type", JStr "text")]])]).

Example compression_recoverable_witness :
  let '(out, obs) := Process sample_size (Some sample_pipeline) ModeOn (fun _ => false) sample_output in
  map Transform (List.filter Applied obs) = ["repeat_collapse"] /\
  chain (fun m o n => shrinks sample_size m o n /\ keeps sample_hash id m o n) sample_output obs out /\
  sample_size out + saved obs = sample_size sample_output.
Proof.
  pose proof (compression_recoverable sample_hash id sample_size sample_pipeline (fun _ => false) sample_output eq_refl) as H.
  assert (map Transform (List.filter Applied (snd (Process sample_size (Some sample_pipeline) ModeOn (fun _ => false) sample_output)))
          = ["repeat_collapse"]) as Hn by (vm_compute; reflexivity).
  destruct (Process _ _ _ _ _) as [out obs]. split; [exact Hn|exact H].
Defined.
