(* ===== verification/CompressGate.v ===== *)
(** Token compression at the gateway: [internal/gateway/compression.go], ccr.go and
    session_dedup.go over the code-state rows of store/sqlite/code_state.go.

    Originals are rows of the reserved bucket, by key, with a time to live; every
    call of the store, and every reading of the clock, is numbered and may fail
    ([fails]).  [raw] is the bytes of a result. *)

From Stdlib Require Import Ascii String.
From stdpp Require Import base list option strings gmap.
From S2P Require Import Prelude GoStrings GoJson GoRegexp ResultJson CompressText Transforms Compression.

#[local] Open Scope string_scope.
#[local] Open Scope list_scope.
#[local] Open Scope Z_scope.

(** ** State *)

Record ccrEntry := { ce_Value : string; ce_Expires : Z }.

Record dedupSeen := { seen_tool : string; seen_at : Z }.

Record sessionSeen := { hashes : gmap string dedupSeen; seen_order : list string }.

Record sessionDedup := { sessions : gmap string sessionSeen; session_order : list string }.

Definition newSessionDedup : sessionDedup := {| sessions := ∅; session_order := [] |}.

(** The rows of the reserved bucket, the repeats seen, and how many store calls there were. *)
Record W := { table : gmap string ccrEntry; dedup_state : sessionDedup; calls : nat }.

Definition ticked (w : W) : W := {| table := table w; dedup_state := dedup_state w; calls := S (calls w) |}.
Definition with_table (t : gmap string ccrEntry) (w : W) : W := {| table := t; dedup_state := dedup_state w; calls := calls w |}.
Definition with_dedup (d : sessionDedup) (w : W) : W := {| table := table w; dedup_state := d; calls := calls w |}.

Record Settings := { CompressionMode : string; CompressionDisabledTransforms : list string }.

Record handler := {
  compression : option (Pipeline RawMessage);
  has_store : bool;
  settingsSvc : option Settings;
  (** the session's id and client, empty before the handshake *)
  session : option (string * string);
  dedup_on : bool
}.

(** ** Settings *)

Definition compressionMinBytes : Z := 256.

Definition newCompressionPipeline (Sum256 : string -> list ascii) (float64_text : string -> string) : Pipeline RawMessage :=
  {| transforms := DefaultTransforms Sum256 float64_text; estimate := EstimateContextTokens; minBytes := compressionMinBytes |}.

Definition compressionMode (h : handler) : Mode :=
  match settingsSvc h with Some s => ParseMode (CompressionMode s) | None => ModeShadow end.

Definition clientForwardsStructuredContent (clientType : string) : bool :=
  let lower := ToLower (TrimSpace clientType) in
  if bool_decide (lower = "") then false else existsb (Contains lower) ["claude"; "chatgpt"].

Definition compressionDisabled (h : handler) (name : string) : bool :=
  match settingsSvc h with Some s => bool_decide (name ∈ CompressionDisabledTransforms s) | None => false end ||
  match session h with
  | Some (_, clientType) => bool_decide (name = "structured_dedup") && negb (clientForwardsStructuredContent clientType)
  | None => false
  end.

Definition currentSessionID (h : handler) : string := match session h with Some (id, _) => id | None => "" end.

(** ** Repeats in a session: session_dedup.go *)

Definition sessionDedupName := "session_dedup".
Definition sessionDedupMinBytes : Z := 1024.
Definition sessionDedupMaxPerSession : nat := 256.
Definition sessionDedupMaxSessions : nat := 64.

Definition emptySeen : sessionSeen := {| hashes := ∅; seen_order := [] |}.

(** The session's record, created - and the oldest session dropped - when it is new. *)
Definition session_seen (d : sessionDedup) (id : string) : sessionDedup * sessionSeen :=
  match sessions d !! id with
  | Some s => (d, s)
  | None =>
      let '(ss, order) :=
        if (sessionDedupMaxSessions <=? List.length (session_order d))%nat
        then match session_order d with x :: rest => (delete x (sessions d), rest) | [] => (sessions d, []) end
        else (sessions d, session_order d) in
      ({| sessions := <[id := emptySeen]> ss; session_order := order ++ [id] |}, emptySeen)
  end.

Definition record_hash (s : sessionSeen) (hash : string) (seen : dedupSeen) : sessionSeen :=
  let '(hs, order) :=
    if (sessionDedupMaxPerSession <=? List.length (seen_order s))%nat
    then match seen_order s with x :: rest => (delete x (hashes s), rest) | [] => (hashes s, []) end
    else (hashes s, seen_order s) in
  {| hashes := <[hash := seen]> hs; seen_order := order ++ [hash] |}.

Definition recordAndCheck (d : sessionDedup) (now : Z) (sessionID hash tool : string) : sessionDedup * option dedupSeen :=
  let '(d, s) := session_seen d sessionID in
  match hashes s !! hash with
  | Some prev => (d, Some prev)
  | None =>
      let s := record_hash s hash {| seen_tool := tool; seen_at := now |} in
      ({| sessions := <[sessionID := s]> (sessions d); session_order := session_order d |}, None)
  end.

Definition text_result (text : string) : RawMessage :=
  Some (JObj [("content", JArr [JObj [("text", JStr text); ("type", JStr "text")]])]).

Section Gateway.
Variable Sum256 : string -> list ascii.
(** The bytes of a result; the layout of RFC 3339. *)
Variable raw : RawMessage -> string.
Variable rfc3339 : Z -> string.
(** Whether a store call fails, and the time at it. *)
Variable fails : nat -> bool.
Variable clock : nat -> Z.

Definition size (r : RawMessage) : Z := Z.of_nat (String.length (raw r)).

Definition dedupPointerEnvelope (prev : dedupSeen) (hash : string) (original : RawMessage) : RawMessage :=
  text_result ("[unchanged: byte-identical to the result " +:+ seen_tool prev +:+ " returned at " +:+ rfc3339 (seen_at prev) +:+
    " earlier in this session — reuse that content] " +:+ CCRMarker hash (String.length (raw original))).

Definition dedup_observation (result replacement : RawMessage) : Observation := {|
  Transform := sessionDedupName; Lossless := false; OrigBytes := size result; OutBytes := size replacement;
  SavedBytes := size result - size replacement;
  OrigTokens := EstimateContextTokens (size result); OutTokens := EstimateContextTokens (size replacement);
  SavedTokens := EstimateContextTokens (size result) - EstimateContextTokens (size replacement);
  Changed := true; Applied := false; Stash := [] |}.

Definition dedup_process (d : sessionDedup) (now : Z) (mode : Mode) (sessionID toolName : string) (result : RawMessage)
    : sessionDedup * (RawMessage * list Observation) :=
  if bool_decide (mode = ModeOff) || bool_decide (sessionID = "") || (size result <? sessionDedupMinBytes) || envelopeHasError result
  then (d, (result, []))
  else
    let hash := CCRKey Sum256 (raw result) in
    let '(d, hit) := recordAndCheck d now sessionID hash toolName in
    match hit with
    | None => (d, (result, []))
    | Some prev =>
        let replacement := dedupPointerEnvelope prev hash result in
        let o := dedup_observation result replacement in
        if negb (bool_decide (mode = ModeOn)) || (SavedBytes o <=? 0) then (d, (result, [o]))
        else (d, (replacement, [committed [raw result] o]))
    end.

(** ** Originals: ccr.go *)

Definition ccrTTL : Z := 120 * 60 * 1000000000.

(** One call of SetCodeState with the row's new expiry; whether it succeeded. *)
Definition SetCodeState (w : W) (key value : string) : W * bool :=
  let w' := ticked w in
  if fails (calls w) || bool_decide (TrimSpace key = "") || bool_decide (value = "") then (w', false)
  else (with_table (<[key := {| ce_Value := value; ce_Expires := clock (calls w) + ccrTTL |}]> (table w')) w', true).

Definition GetCodeState (w : W) (key : string) : W * option ccrEntry :=
  (ticked w, if fails (calls w) then None
             else match table w !! key with
                  | Some e => if clock (calls w) <? ce_Expires e then Some e else None
                  | None => None
                  end).

Definition ccrPut (h : handler) (w : W) (original : string) : W * (string * bool) :=
  let key := CCRKey Sum256 original in
  if negb (has_store h) || bool_decide (original = "") then (w, (key, false))
  else let '(w, ok) := SetCodeState w key original in (w, (key, ok)).

Definition ccrGet (h : handler) (w : W) (key : string) : W * option string :=
  if negb (has_store h) then (w, None)
  else let '(w, e) := GetCodeState w key in
       match e with
       | None => (w, None)
       | Some e => if bool_decide (ce_Value e = "") then (w, None)
                   else let '(w, _) := SetCodeState w key (ce_Value e) in (w, Some (ce_Value e))
       end.

Definition persistCCR (h : handler) (w : W) (obs : list Observation) : W :=
  fold_left (fun w blob => fst (ccrPut h w blob)) (flat_map Stash obs) w.

Fixpoint all_resolve (h : handler) (w : W) (keys : list string) : W * bool :=
  match keys with
  | [] => (w, true)
  | key :: keys' =>
      let '(w, original) := ccrGet h w key in
      match original with Some _ => all_resolve h w keys' | None => (w, false) end
  end.

Definition ccrMarkersResolve (h : handler) (w : W) (result : RawMessage) : W * bool :=
  all_resolve h w (ParseCCRKeys (raw result)).

Definition expired_note (key : string) : string :=
  "The original content for key " +:+ key +:+
  " has expired or was evicted from the compression cache. Re-run the tool call that produced it to regenerate the full content.".

Inductive retrieve_error := InvalidArguments | KeyRequired.

Definition handleRetrieve (h : handler) (w : W) (rawArgs : RawMessage) : W * result retrieve_error RawMessage :=
  match (match rawArgs with
         | None | Some JNull => Some ""
         | Some (JObj l) => struct_string l "key"
         | Some _ => None
         end) with
  | None => (w, Err InvalidArguments)
  | Some k =>
      let key := TrimSpace k in
      if bool_decide (key = "") then (w, Err KeyRequired)
      else let '(w, original) := ccrGet h w key in
           (w, Ok (text_result (default (expired_note key) original)))
  end.

(** ** The seam: compression.go *)

Definition applyCompressionForTool (h : handler) (w : W) (toolName : string) (result : RawMessage)
    : W * (RawMessage * list Observation) :=
  match compression h with
  | None => (w, (result, []))
  | Some p =>
      let mode := compressionMode h in
      let disabled := compressionDisabled h in
      let original := result in
      let '(w, (result, dobs)) :=
        if dedup_on h && negb (disabled sessionDedupName)
        then let '(d, out) := dedup_process (dedup_state w) (clock (calls w)) mode (currentSessionID h) toolName result in
             (with_dedup d w, out)
        else (w, (result, [])) in
      let '(compressed, pobs) := Process size (Some p) mode disabled result in
      let obs := dobs ++ pobs in
      if bool_decide (raw compressed = raw original) then (w, (original, obs))
      else let w := persistCCR h w obs in
           let '(w, resolve) := ccrMarkersResolve h w compressed in
           if resolve then (w, (compressed, obs)) else (w, (original, map unapplied obs))
  end.

(** The rows of the savings ledger: transform, changed, applied, bytes and tokens
    that would be saved, and that were. *)
Definition ledger_row (o : Observation) : string * (bool * bool) * (Z * Z) * (Z * Z) :=
  let wb := Z.max 0 (SavedBytes o) in
  let wt := Z.max 0 (SavedTokens o) in
  (Transform o, (Changed o, Applied o), (wb, wt), if Applied o then (wb, wt) else (0, 0)).

Definition persistCompression (h : handler) (obs : list Observation) : list (string * (bool * bool) * (Z * Z) * (Z * Z)) :=
  if has_store h then map ledger_row obs else [].
End Gateway.

(** ** The repeats kept are bounded *)

Record seen_ok (s : sessionSeen) : Prop := {
  sk_nodup : NoDup (seen_order s);
  sk_dom : forall k, k ∈ seen_order s <-> is_Some (hashes s !! k);
  sk_len : (List.length (seen_order s) <= sessionDedupMaxPerSession)%nat
}.

Record dedup_ok (d : sessionDedup) : Prop := {
  dk_nodup : NoDup (session_order d);
  dk_dom : forall k, k ∈ session_order d <-> is_Some (sessions d !! k);
  dk_len : (List.length (session_order d) <= sessionDedupMaxSessions)%nat;
  dk_seen : forall k s, sessions d !! k = Some s -> seen_ok s
}.

(** A table of at most [n] keys in the order they came, the oldest making room. *)
Lemma fifo_insert {A} (n : nat) (m : gmap string A) (order : list string) (k : string) (x : A) :
  (0 < n)%nat -> NoDup order -> (forall k, k ∈ order <-> is_Some (m !! k)) -> (List.length order <= n)%nat -> m !! k = None ->
  let '(m', order') := if (n <=? List.length order)%nat
                       then match order with y :: rest => (delete y m, rest) | [] => (m, []) end else (m, order) in
  NoDup (order' ++ [k]) /\ (forall k', k' ∈ order' ++ [k] <-> is_Some (<[k := x]> m' !! k')) /\
  (List.length (order' ++ [k]) <= n)%nat /\ (forall k' y, <[k := x]> m' !! k' = Some y -> k' = k /\ y = x \/ m !! k' = Some y).
Proof.
  intros Hn Hnd Hdom Hlen Hk. assert (k ∉ order) as Hnin by (rewrite Hdom, Hk; by intros [? ?]).
  assert (forall (m' : gmap string A) (order' : list string), NoDup order' -> k ∉ order' -> (forall k, k ∈ order' <-> is_Some (m' !! k)) ->
    (List.length order' < n)%nat -> (forall k' y, m' !! k' = Some y -> m !! k' = Some y) ->
    NoDup (order' ++ [k]) /\ (forall k', k' ∈ order' ++ [k] <-> is_Some (<[k := x]> m' !! k')) /\
    (List.length (order' ++ [k]) <= n)%nat /\ (forall k' y, <[k := x]> m' !! k' = Some y -> k' = k /\ y = x \/ m !! k' = Some y)) as Hput.
  { intros m' order' H1 H2 H3 H4 H5. split_and!.
    - apply NoDup_app. split_and!; [done|by intros ? ? ->%list_elem_of_singleton|apply NoDup_singleton].
    - intros k'. rewrite elem_of_app, list_elem_of_singleton, H3, lookup_insert_is_Some'. naive_solver.
    - rewrite length_app. cbn. lia.
    - intros k' y. rewrite lookup_insert_Some. intros [[-> ->]|[_ ?]]; auto. }
  destruct (Nat.leb_spec n (List.length order)); [|apply Hput; [done|done|done|lia|done]].
  destruct order as [|y rest]; [cbn in *; lia|]. apply NoDup_cons in Hnd as [Hy Hnd]. cbn in *.
  apply Hput; [done|set_solver| |lia|by intros k' z [_ ?]%lookup_delete_Some].
  intros k'. rewrite lookup_delete_is_Some, <- Hdom, elem_of_cons. naive_solver.
Qed.

Lemma record_hash_ok s k x : seen_ok s -> hashes s !! k = None -> seen_ok (record_hash s k x) /\ hashes (record_hash s k x) !! k = Some x.
Proof.
  intros [H1 H2 H3] Hk. pose proof (fifo_insert sessionDedupMaxPerSession (hashes s) (seen_order s) k x ltac:(unfold sessionDedupMaxPerSession; lia) H1 H2 H3 Hk) as H.
  unfold record_hash. destruct (if _ : bool then _ else _) as [hs order]. destruct H as (? & ? & ? & _).
  split; [by constructor|]. apply lookup_insert_eq.
Qed.

Lemma emptySeen_ok : seen_ok emptySeen.
Proof. constructor; cbn; [constructor| |unfold sessionDedupMaxPerSession; lia]. intros k. rewrite lookup_empty. split; [by intros ?%elem_of_nil|by intros [? ?]]. Qed.

Lemma session_seen_ok d id : dedup_ok d -> let '(d', s) := session_seen d id in dedup_ok d' /\ sessions d' !! id = Some s /\ seen_ok s.
Proof.
  intros [H1 H2 H3 H4]. unfold session_seen. destruct (sessions d !! id) as [s|] eqn:E; [split_and!; [done|done|by eapply H4]|].
  pose proof (fifo_insert sessionDedupMaxSessions (sessions d) (session_order d) id emptySeen ltac:(unfold sessionDedupMaxSessions; lia) H1 H2 H3 E) as H.
  destruct (if _ : bool then _ else _) as [ss order]. destruct H as (? & ? & ? & Hs).
  split_and!; [|apply lookup_insert_eq|apply emptySeen_ok]. constructor; [done|done|done|].
  intros k s [[_ ->]|Hk]%Hs; [apply emptySeen_ok|by eapply H4].
Qed.

(** What the session remembers of a hash. *)
Definition seen_before (d : sessionDedup) (id hash : string) : option dedupSeen := s ← sessions d !! id; hashes s !! hash.

(** At most 64 sessions are kept with at most 256 hashes each, in the order they
    came; a repeat is reported exactly when this session remembers the hash, with the
    tool and the time of the delivery it remembers, and is remembered from then on. *)
Theorem recordAndCheck_spec (d : sessionDedup) (now : Z) (id hash tool : string) (Hd : dedup_ok d) :
  let '(d', hit) := recordAndCheck d now id hash tool in
  dedup_ok d' /\ hit = seen_before d id hash /\
  seen_before d' id hash = Some (default {| seen_tool := tool; seen_at := now |} hit).
Proof.
  unfold recordAndCheck. pose proof (session_seen_ok d id Hd) as H.
  assert (hashes (snd (session_seen d id)) !! hash = seen_before d id hash) as Hb.
  { unfold session_seen, seen_before. destruct (sessions d !! id); [done|]. by destruct (if _ : bool then _ else _). }
  destruct (session_seen d id) as [d1 s]. destruct H as ([H1 H2 H3 H4] & Hs & Hok). cbn [snd] in Hb.
  destruct (hashes s !! hash) as [prev|] eqn:E.
  - split_and!; [by constructor|done|]. unfold seen_before. rewrite Hs. exact E.
  - destruct (record_hash_ok s hash {| seen_tool := tool; seen_at := now |} Hok E) as [Hr Hk]. split_and!; [|done|].
    + constructor; cbn; [done| |done|].
      * intros k. rewrite H2, lookup_insert_is_Some'. split; [by right|intros [->|?]; [by eexists|done]].
      * intros k s'. rewrite lookup_insert_Some. intros [[_ <-]|[_ ?]]; [done|by eapply H4].
    + unfold seen_before. cbn. by rewrite lookup_insert_eq.
Qed.

(** ** Keys *)

Lemma spaceless_prefix n s : spaceless s -> spaceless (substring 0 n s).
Proof.
  unfold spaceless. revert n. induction s as [|a s IH]; intros [|n] H; cbn; try constructor; apply Forall_cons in H as [? ?]; [done|].
  by apply IH.
Qed.

Lemma hex_spaceless l : spaceless (hex_EncodeToString l).
Proof.
  unfold spaceless. induction l as [|a l IH]; [constructor|]. cbn [hex_EncodeToString foldr hex_byte].
  repeat (constructor; [by destruct a as [[] [] [] [] [] [] [] []]|]). exact IH.
Qed.

Lemma CCRKey_plain Sum256 payload : List.length (Sum256 payload) = 32%nat ->
  TrimSpace (CCRKey Sum256 payload) = CCRKey Sum256 payload /\ CCRKey Sum256 payload <> "".
Proof.
  intros H. split; [apply spaceless_trim, spaceless_prefix, hex_spaceless|]. unfold CCRKey. by destruct (Sum256 payload).
Qed.

(** ** The store *)

Section Facts.
Variable Sum256 : string -> list ascii.
Variable raw : RawMessage -> string.
Variable rfc3339 : Z -> string.
Variable fails : nat -> bool.
Variable clock : nat -> Z.

Abbreviation set_row := (SetCodeState fails clock).
Abbreviation put := (ccrPut Sum256 fails clock).
Abbreviation get := (ccrGet fails clock).
Abbreviation persist := (persistCCR Sum256 fails clock).
Abbreviation resolve_all := (all_resolve fails clock).
Abbreviation apply := (applyCompressionForTool Sum256 raw rfc3339 fails clock).

(** Every original is under its own key. *)
Definition addressed (w : W) : Prop :=
  forall k e, table w !! k = Some e -> CCRKey Sum256 (ce_Value e) = k /\ ce_Value e <> "".

(** A row for the key that some reading of the clock between two calls found alive. *)
Definition alive (since : nat) (w : W) (k : string) : Prop :=
  exists e n, table w !! k = Some e /\ (since <= n < calls w)%nat /\ clock n < ce_Expires e.

Lemma set_addressed w k v : addressed w -> CCRKey Sum256 v = k -> addressed (fst (set_row w k v)).
Proof.
  intros Hw Hk. unfold SetCodeState. destruct (_ || _) eqn:E; [exact Hw|]. apply orb_false_iff in E as [_ Hv%bool_decide_eq_false].
  intros k' e. cbn. rewrite lookup_insert_Some. intros [[<- <-]|[_ ?]]; [done|by apply Hw].
Qed.

Lemma set_calls w k v : calls (fst (set_row w k v)) = S (calls w).
Proof. unfold SetCodeState. by destruct (_ || _). Qed.

Lemma set_alive since w k v k' : (since <= calls w)%nat -> alive since w k' -> alive since (fst (set_row w k v)) k'.
Proof.
  intros Hs (e & n & He & Hn & Hc). unfold SetCodeState. destruct (_ || _); cbn [fst].
  - exists e, n. cbn. split_and!; [done|lia|lia|done].
  - destruct (decide (k = k')) as [->|Hne].
    + eexists _, (calls w). cbn. rewrite lookup_insert_eq. split_and!; [done|lia|lia|]. cbn. unfold ccrTTL. lia.
    + exists e, n. cbn. rewrite lookup_insert_ne by done. split_and!; [done|lia|lia|done].
Qed.

Lemma put_keeps h w b : addressed w -> addressed (fst (put h w b)) /\ (calls w <= calls (fst (put h w b)))%nat.
Proof.
  intros Hw. unfold ccrPut. destruct (_ || _); [by split|].
  pose proof (set_addressed w (CCRKey Sum256 b) b Hw eq_refl) as H. pose proof (set_calls w (CCRKey Sum256 b) b).
  destruct (SetCodeState _ _ _ _ _). cbn [fst] in *. split; [done|lia].
Qed.

Lemma persist_keeps h obs : forall w, addressed w -> addressed (persist h w obs) /\ (calls w <= calls (persist h w obs))%nat.
Proof.
  unfold persistCCR. generalize (flat_map Stash obs). intros blobs. induction blobs as [|b blobs IH]; intros w Hw; [by split|].
  cbn [fold_left]. destruct (put_keeps h w b Hw) as [Ha Hc]. destruct (IH _ Ha). split; [done|lia].
Qed.

Lemma get_keeps h w k : addressed w ->
  let '(w', v) := get h w k in
  addressed w' /\ (calls w <= calls w')%nat /\
  (forall since k', (since <= calls w)%nat -> alive since w k' -> alive since w' k') /\
  (is_Some v -> alive (calls w) w' k).
Proof.
  intros Hw. unfold ccrGet, GetCodeState. destruct (negb (has_store h)); [split_and!; try done; by intros [? ?]|].
  assert (addressed (ticked w)) as Ht by exact Hw.
  assert (forall since k', (since <= calls w)%nat -> alive since w k' -> alive since (ticked w) k') as Hal.
  { intros since k' _ (e & n & ? & ? & ?). exists e, n. cbn. split_and!; [done|lia|lia|done]. }
  destruct (if fails (calls w) then None else _) as [e|] eqn:Ee; [|split_and!; [done|cbn; lia|done|by intros [? ?]]].
  case_bool_decide; [split_and!; [done|cbn; lia|done|by intros [? ?]]|].
  destruct (fails (calls w)); [done|]. destruct (table w !! k) as [e'|] eqn:Et; [|done].
  destruct (Z.ltb_spec (clock (calls w)) (ce_Expires e')); [|done]. injection Ee as ->.
  pose proof (set_addressed (ticked w) k (ce_Value e) Ht (proj1 (Hw _ _ Et))) as Ha.
  pose proof (set_calls (ticked w) k (ce_Value e)) as Hc.
  pose proof (fun since => set_alive since (ticked w) k (ce_Value e)) as Hl.
  destruct (SetCodeState _ _ _ _ _) as [w' ok]. cbn [fst] in *. split_and!; [done|cbn in *; lia| |].
  - intros since k' Hs Hk. apply Hl; [cbn; lia|]. by apply Hal.
  - intros _. apply Hl; [cbn; lia|]. exists e, (calls w). cbn. split_and!; [done|lia|lia|done].
Qed.

Lemma resolve_keeps h keys : forall w, addressed w ->
  let '(w', ok) := resolve_all h w keys in
  addressed w' /\ (calls w <= calls w')%nat /\
  (forall since k', (since <= calls w)%nat -> alive since w k' -> alive since w' k') /\
  (ok = true -> Forall (alive (calls w) w') keys).
Proof.
  induction keys as [|k keys IH]; intros w Hw; cbn [all_resolve]; [by split_and!|].
  pose proof (get_keeps h w k Hw) as Hg. destruct (ccrGet fails clock h w k) as [w1 v]. destruct Hg as (Ha & Hc & Hal & Hk).
  destruct v as [v|]; [|by split_and!]. specialize (IH w1 Ha). destruct (all_resolve _ _ h w1 keys) as [w2 ok].
  destruct IH as (Ha2 & Hc2 & Hal2 & Hk2). split_and!; [done|lia|intros; apply Hal2; [lia|auto]|].
  intros Hok. constructor; [apply Hal2; [lia|]; by apply Hk|]. eapply Forall_impl; [by apply Hk2|].
  intros k' (e & n & ? & ? & ?). exists e, n. split_and!; [done|lia|lia|done].
Qed.

(** ** The seam *)

Lemma dedup_saved d now mode id tool r :
  let '(_, (out, obs)) := dedup_process Sum256 raw rfc3339 d now mode id tool r in
  size raw out + saved obs = size raw r /\ (mode <> ModeOn -> out = r).
Proof.
  unfold dedup_process. destruct (_ || _); [by cbn; split; [lia|]|]. destruct (recordAndCheck _ _ _ _ _) as [d' [prev|]]; [|by cbn; split; [lia|]].
  cbv zeta. destruct (negb (bool_decide (mode = ModeOn)) || _) eqn:E; [by cbn; split; [lia|]|].
  apply orb_false_iff in E as [E _]. apply negb_false_iff, bool_decide_eq_true in E. split; [|done]. cbn. lia.
Qed.

(** The two stages before the kill-switch. *)
Lemma stages_spec h w tool result p : compression h = Some p -> exists w1 compressed obs,
  table w1 = table w /\ calls w1 = calls w /\ size raw compressed + saved obs = size raw result /\
  (compressionMode h <> ModeOn -> compressed = result) /\
  apply h w tool result =
    (if bool_decide (raw compressed = raw result) then (w1, (result, obs))
     else let w := persist h w1 obs in
          let '(w, resolve) := resolve_all h w (ParseCCRKeys (raw compressed)) in
          if resolve then (w, (compressed, obs)) else (w, (result, map unapplied obs))).
Proof.
  intros Hp. unfold applyCompressionForTool. rewrite Hp.
  destruct (if _ : bool then _ else _) as [w1 [r1 dobs]] eqn:Ed.
  assert (table w1 = table w /\ calls w1 = calls w /\ size raw r1 + saved dobs = size raw result /\ (compressionMode h <> ModeOn -> r1 = result))
    as (H1 & H2 & H3 & H4).
  { destruct (_ && _); [|injection Ed as <- <- <-; cbn; split_and!; [done|done|lia|done]].
    pose proof (dedup_saved (dedup_state w) (clock (calls w)) (compressionMode h) (currentSessionID h) tool result) as H.
    destruct (dedup_process _ _ _ _ _ _ _ _ _) as [d [out obs]]. injection Ed as <- <- <-. destruct H. by split_and!. }
  pose proof (Process_saved (size raw) (Some p) (compressionMode h) (compressionDisabled h) r1) as H.
  destruct (Process _ _ _ _ r1) as [compressed pobs]. destruct H as [H5 H6]. exists w1, compressed, (dobs ++ pobs).
  split_and!; [done|done|rewrite saved_app; lia|intros Hm; by rewrite H6, H4|]. done.
Qed.

(** The ledger is honest: whatever the mode, the settings and the failures of the
    store, the bytes reported as saved are those by which what the model reads is
    smaller than the original. *)
Theorem savings_are_real (h : handler) (w : W) (tool : string) (result : RawMessage) :
  let '(_, (out, obs)) := apply h w tool result in saved obs = size raw result - size raw out.
Proof.
  destruct (compression h) as [p|] eqn:Hp; [|unfold applyCompressionForTool; rewrite Hp; cbn; lia].
  destruct (stages_spec h w tool result p Hp) as (w1 & c & obs & _ & _ & Hs & _ & ->).
  case_bool_decide as E; [unfold size in *; rewrite E in Hs; lia|]. cbv zeta.
  destruct (all_resolve _ _ _ _ _) as [w2 []]; [lia|]. rewrite saved_unapplied. lia.
Qed.

Hypothesis sum_length : forall payload, List.length (Sum256 payload) = 32%nat.

(** C32: The kill-switch: unless compression is on, the model reads the original; when it
    reads anything else, every marker in it names a row that was alive in the course
    of the call and holds a text whose key it is, and asking for the key, while the row
    lives and the store answers, returns that text. *)
Theorem markers_expand (h : handler) (w : W) (tool : string) (result : RawMessage) (Hw : addressed w) :
  let '(w', (out, _)) := apply h w tool result in
  addressed w' /\
  (out = result \/
   compressionMode h = ModeOn /\
   forall k, k ∈ ParseCCRKeys (raw out) -> alive (calls w) w' k /\
     forall e, table w' !! k = Some e -> CCRKey Sum256 (ce_Value e) = k /\
       (has_store h = true -> fails (calls w') = false -> clock (calls w') < ce_Expires e ->
        snd (handleRetrieve fails clock h w' (Some (JObj [("key", JStr k)]))) = Ok (text_result (ce_Value e)))).
Proof.
  destruct (compression h) as [p|] eqn:Hp; [|unfold applyCompressionForTool; rewrite Hp; by split; [|left]].
  destruct (stages_spec h w tool result p Hp) as (w1 & c & obs & Ht & Hc & _ & Hm & ->).
  assert (addressed w1) as Hw1 by (unfold addressed; by rewrite Ht). case_bool_decide as E; [by split; [|left]|]. cbv zeta.
  destruct (persist_keeps h obs w1 Hw1) as [Ha Hcl].
  pose proof (resolve_keeps h (ParseCCRKeys (raw c)) _ Ha) as H. destruct (all_resolve _ _ _ _ _) as [w2 ok].
  destruct H as (Ha2 & Hc2 & _ & Hk). destruct ok; [|by split; [|left]]. split; [done|]. right.
  split; [destruct (decide (compressionMode h = ModeOn)) as [|Hn]; [done|]; by rewrite Hm in E|].
  intros k Hin. specialize (Hk eq_refl). rewrite Forall_forall in Hk. destruct (Hk k Hin) as (e & n & He & Hn & Hcn).
  split; [exists e, n; split_and!; [done|lia|lia|done]|]. intros e' He'. destruct (Ha2 _ _ He') as [Hkey Hne]. split; [done|].
  intros Hst Hf Hcl'. destruct (CCRKey_plain Sum256 (ce_Value e') (sum_length _)) as [Htrim Hnonempty]. rewrite Hkey in *.
  unfold handleRetrieve. change (struct_string [("key", JStr k)] "key") with (Some k). cbv beta iota zeta. rewrite Htrim, bool_decide_eq_false_2 by done. unfold ccrGet, GetCodeState. rewrite Hst, Hf, He'. cbn [negb].
  rewrite (proj2 (Z.ltb_lt _ _) Hcl'), bool_decide_eq_false_2 by done.
  by destruct (SetCodeState _ _ _ _ _).
Qed.
End Facts.

(** ** Samples *)

Definition sample_raw (r : RawMessage) : string := default "" (json_marshal <$> r).

Definition sample_handler (disabled : list string) : handler := {|
  compression := Some (newCompressionPipeline sample_hash id);
  has_store := true;
  settingsSvc := Some {| CompressionMode := " On "; CompressionDisabledTransforms := disabled |};
  session := Some ("s1", "Claude Code"); dedup_on := true |}.

Definition sample_world : W := {| table := ∅; dedup_state := newSessionDedup; calls := 0 |}.

Definition sample_apply (disabled : list string) (fails : nat -> bool) (result : RawMessage) : W * (RawMessage * list Observation) :=
  applyCompressionForTool sample_hash sample_raw (fun _ => "") fails (fun _ => 0) (sample_handler disabled) sample_world "fs__read" result.

Lemma empty_addressed : addressed sample_hash sample_world.
Proof. intros k e. cbn. by rewrite lookup_empty. Qed.

Definition sample_key : string := "979797979797979797979797".

Example markers_expand_witness :
  let '(w', (out, _)) := sample_apply [] (fun _ => false) sample_output in
  ParseCCRKeys (sample_raw out) = [sample_key] /\ addressed sample_hash w' /\ alive (fun _ => 0) 0 w' sample_key.
Proof.
  assert (ParseCCRKeys (sample_raw (fst (snd (sample_apply [] (fun _ => false) sample_output)))) = [sample_key]) as Hk by (vm_compute; reflexivity).
  pose proof (markers_expand sample_hash sample_raw (fun _ => "") (fun _ => false) (fun _ => 0) (fun _ => eq_refl)
    (sample_handler []) sample_world "fs__read" sample_output empty_addressed) as H.
  unfold sample_apply in *. destruct (applyCompressionForTool _ _ _ _ _ _ _ _ _) as [w' [out obs]]. cbn [fst snd] in Hk.
  split; [exact Hk|]. destruct H as [Ha [->|[_ H]]]; [vm_compute in Hk; discriminate|]. split; [exact Ha|].
  apply H. rewrite Hk. by left.
Defined.

Example recordAndCheck_spec_witness :
  let '(d, hit) := recordAndCheck newSessionDedup 7 "s1" "h" "fs__read" in
  dedup_ok d /\ hit = None /\ seen_before d "s1" "h" = Some {| seen_tool := "fs__read"; seen_at := 7 |}.
Proof.
  assert (dedup_ok newSessionDedup) as H0.
  { constructor; cbn; [constructor| |lia|by intros ? ? ?%lookup_empty_Some]. intros k. rewrite lookup_empty.
    split; [by intros ?%elem_of_nil|by intros [? ?]]. }
  exact (recordAndCheck_spec newSessionDedup 7 "s1" "h" "fs__read" H0).
Defined.

(** ** What the kill-switch does not see *)

Definition blob_text : string :=
  Join "" (repeat "-" 2200) +:+ Join "" (repeat "Aa" 550) +:+ Join "" (repeat "=" (6 * 1000)).

(** A marker cut off with the middle of a text is not in the result, so that its
    missing row is not noticed: the model expands the outer marker, and finds one in
    the original that expands to nothing. *)
Lemma hidden_marker_dangles :
  let disabled := ["json_minify"; "ansi_strip"; "cr_progress_collapse"; "repeat_collapse"; "structured_dedup"; "log_compact"; "session_dedup"] in
  let '(w', (out, obs)) := sample_apply disabled (fun n => (n =? 0)%nat) (text_result blob_text) in
  map Transform (List.filter Applied obs) = ["base64_externalize"; "oversize_truncate"] /\
  match ParseCCRKeys (sample_raw out) with
  | [outer] => match table w' !! outer with
               | Some e => match ParseCCRKeys (ce_Value e) with [inner] => table w' !! inner = None | _ => False end
               | None => False
               end
  | _ => False
  end.
Proof. vm_compute. split; reflexivity. Qed.
