(* ===== verification/Scheduler.v ===== *)
(** The scheduler: [internal/scheduler/scheduler.go] with exec.go, exec_worker.go,
    exec_prune.go, exec_brwreconcile.go, spec.go and the create and delete handlers of
    admin_tools.go, over the rows of store/sqlite/scheduled_job.go and the heap of JobHeap.

    A fire is a program counter ([fire_pc]); each of its steps is one store call, one
    dispatch or one critical section.  The machine ([step]) interleaves the dispatch
    loop with fires asked for by RunOnce, finishing workers, create and delete handlers
    and Reload; store calls fail at will.  What commands, approvals, workers and pruners
    answer is given with the step.  A unit of [time.ParseDuration] with a fraction is
    exact here.  The extra audit rows of a prune and of a reconcile are the events
    [Pruned] and [Reconciled]. *)

From Stdlib Require Import Ascii String.
From stdpp Require Import base list option strings gmap.
From S2P Require Import Prelude GoStrings GoJson Cron JobHeap.

#[local] Open Scope string_scope.
#[local] Open Scope list_scope.
#[local] Open Scope Z_scope.

(** ** Specs: spec.go *)

Definition KindCron := "cron".
Definition KindInterval := "interval".
Definition KindFileWatch := "file_watch".
Definition KindGitHook := "git_hook".
Definition KindWorker := "worker".
Definition KindAuditPrune := "audit_prune".

(** The digits at the front: their value, how many, and the rest. *)
Fixpoint leading_digits (acc : Z) (n : nat) (l : list ascii) : Z * nat * list ascii :=
  match l with
  | a :: l' => match digit_val a with Some d => leading_digits (acc * 10 + d) (S n) l' | None => (acc, n, l) end
  | [] => (acc, n, [])
  end.

(** The unit runs up to the next dot or digit. *)
Fixpoint unit_name (l : list ascii) : list ascii * list ascii :=
  match l with
  | a :: l' =>
      if bool_decide (a = "."%char) || bool_decide (is_Some (digit_val a)) then ([], l)
      else let '(u, rest) := unit_name l' in (a :: u, rest)
  | [] => ([], [])
  end.

Definition unit_ns (u : string) : option Z :=
  if bool_decide (u = "ns") then Some 1
  else if bool_decide (u ∈ ["us"; "µs"; "μs"]) then Some 1000
  else if bool_decide (u = "ms") then Some 1000000
  else if bool_decide (u = "s") then Some 1000000000
  else if bool_decide (u = "m") then Some 60000000000
  else if bool_decide (u = "h") then Some 3600000000000
  else None.

(** One number with its unit: its nanoseconds. *)
Definition duration_part (l : list ascii) : option (Z * list ascii) :=
  let '(v, n, rest) := leading_digits 0 0 l in
  let '(f, k, rest, dot) := match rest with
                            | a :: rest' => if bool_decide (a = "."%char)
                                            then let '(f, k, rest'') := leading_digits 0 0 rest' in (f, k, rest'', true)
                                            else (0, O, rest, false)
                            | [] => (0, O, [], false)
                            end in
  if (n =? 0)%nat && (k =? 0)%nat then None
  else let '(u, rest) := unit_name rest in
       scale ← unit_ns (string_of_list_ascii u);
       Some (v * scale + f * scale / 10 ^ Z.of_nat k, rest).

Fixpoint duration_parts (fuel : nat) (acc : Z) (l : list ascii) : option Z :=
  match l with
  | [] => Some acc
  | _ =>
      match fuel with
      | O => None
      | S fuel => '(d, rest) ← duration_part l;
                  if 2 ^ 63 <? acc + d then None else duration_parts fuel (acc + d) rest
      end
  end.

Definition ParseDuration (s : string) : option Z :=
  let l := list_ascii_of_string s in
  let '(neg, l) := match l with
                   | a :: l' => if bool_decide (a = "-"%char) then (true, l') else if bool_decide (a = "+"%char) then (false, l') else (false, l)
                   | [] => (false, [])
                   end in
  if bool_decide (l = ["0"%char]) then Some 0
  else match l with
       | [] => None
       | _ => d ← duration_parts (List.length l) 0 l;
              if neg then Some (- d) else if 2 ^ 63 - 1 <? d then None else Some d
       end.

Inductive next_error := Cron_error (e : cron_error) | BadInterval (spec : string) | NotPositive (spec : string)
| ErrEventDrivenKind | UnknownKind (kind : string).

Definition nextIntervalRun (spec : string) (after : Z) : result next_error Z :=
  match ParseDuration (TrimSpace spec) with
  | None => Err (BadInterval spec)
  | Some d => if d <=? 0 then Err (NotPositive spec) else Ok (after + d)
  end.

Definition NextRun (kind spec : string) (after : Z) : result next_error Z :=
  if bool_decide (kind = KindCron) || bool_decide (kind = KindAuditPrune)
  then match nextCronRun spec after with Ok t => Ok t | Err e => Err (Cron_error e) end
  else if bool_decide (kind = KindInterval) then nextIntervalRun spec after
  else if bool_decide (kind = KindWorker)
  then match nextCronRun spec after with Ok t => Ok t | Err _ => nextIntervalRun spec after end
  else if bool_decide (kind = KindFileWatch) || bool_decide (kind = KindGitHook) then Err ErrEventDrivenKind
  else Err (UnknownKind kind).

Definition next_of (kind spec : string) (now : Z) : option Z :=
  match NextRun kind spec now with Ok t => Some t | Err _ => None end.

(** ** Rows *)

Definition with_running (now : Z) (j : ScheduledJob) : ScheduledJob := {|
  ID := ID j; Name := Name j; Kind := Kind j; Spec := Spec j; Command := Command j; ArgsJSON := ArgsJSON j; EnvJSON := EnvJSON j;
  CWD := CWD j; Enabled := Enabled j; NativeID := NativeID j; WorkerID := WorkerID j;
  LastRunAt := Some now; NextRunAt := NextRunAt j; LastStatus := "running"; LastError := "" |}.

Definition with_outcome (status err : string) (next : option Z) (j : ScheduledJob) : ScheduledJob := {|
  ID := ID j; Name := Name j; Kind := Kind j; Spec := Spec j; Command := Command j; ArgsJSON := ArgsJSON j; EnvJSON := EnvJSON j;
  CWD := CWD j; Enabled := Enabled j; NativeID := NativeID j; WorkerID := WorkerID j;
  LastRunAt := LastRunAt j; NextRunAt := next; LastStatus := status; LastError := err |}.

Definition truncateErr (s : string) : string :=
  if (String.length s <=? 1024)%nat then s else substring 0 1024 s.

Definition error_text (err : option string) : string := match err with Some e => truncateErr e | None => "" end.

(** ** Dispatch: exec.go, exec_worker.go, exec_prune.go, exec_brwreconcile.go *)

Record Worker := { w_Archived : bool; w_Enabled : bool; ConcurrencyPolicy : string }.

(** What the outside answers to one dispatch.  [None] for something not wired;
    errors are their texts. *)
Record outside := {
  o_approve : option (result string bool);
  o_command : option string;
  o_args_error : string;
  o_env_error : string;
  o_worker_exec : bool;
  o_lookup : option (result string Worker);
  o_running : result string Z;
  o_prune : option (option string);
  o_brw : option (option string)
}.

Inductive event :=
| Asked (id : string)
| Ran (id : string) (args : list string)
| Pruned (id : string)
| Reconciled (id : string)
| Spawned (id : string)
| Audited (id status : string).

#[export] Instance event_eq_dec : EqDecision event.
Proof. solve_decision. Defined.

Definition decodeArgs (raw : string) : option (list string) :=
  if bool_decide (TrimSpace raw = "") then Some [] else unmarshal_strings raw.

(** Whether the environment decodes: an object of strings. *)
Definition env_decodes (raw : string) : bool :=
  if bool_decide (TrimSpace raw = "") then true
  else match json_parse raw with
       | Some JNull => true
       | Some (JObj l) => forallb (fun p => match snd p with JStr _ | JNull => true | _ => false end) l
       | _ => false
       end.

Definition dispatched := (string * option string * list event)%type.

Definition executeAndApprove (o : outside) (j : ScheduledJob) : dispatched :=
  if negb (Enabled j) then ("disabled", None, [])
  else
    let run (log : list event) : dispatched :=
      match decodeArgs (ArgsJSON j) with
      | None => ("failure", Some ("decode args: " +:+ o_args_error o), log)
      | Some args =>
          if negb (env_decodes (EnvJSON j)) then ("failure", Some ("decode env: " +:+ o_env_error o), log)
          else match o_command o with
               | Some e => ("failure", Some e, log ++ [Ran (ID j) args])
               | None => ("success", None, log ++ [Ran (ID j) args])
               end
      end in
    match o_approve o with
    | None => run []
    | Some (Err e) => ("failure", Some ("approval: " +:+ e), [Asked (ID j)])
    | Some (Ok false) => ("denied", None, [Asked (ID j)])
    | Some (Ok true) => run [Asked (ID j)]
    end.

Definition statusSkipped := "skipped".
Definition statusFailure := "failure".

Definition workerSkipReason (o : outside) (j : ScheduledJob) : string :=
  if bool_decide (WorkerID j = "") then "worker_id missing"
  else match o_lookup o with
       | None => ""
       | Some (Err e) => "worker missing: " +:+ e
       | Some (Ok w) =>
           if w_Archived w then "worker archived"
           else if negb (w_Enabled w) then "worker disabled"
           else if bool_decide (ConcurrencyPolicy w = "") || bool_decide (ConcurrencyPolicy w = "skip")
           then match o_running o with
                | Ok count => if 0 <? count then "previous run still running" else ""
                | Err _ => ""
                end
           else ""
       end.

Definition executeWorkerJob (o : outside) (j : ScheduledJob) : dispatched :=
  if negb (Enabled j) then ("disabled", None, [])
  else let reason := workerSkipReason o j in
       if negb (bool_decide (reason = "")) then (statusSkipped, Some reason, [])
       else if negb (o_worker_exec o) then (statusFailure, Some "worker executor not wired", [])
       else ("running", None, [Spawned (ID j)]).

Definition executePruneJob (o : outside) (j : ScheduledJob) : dispatched :=
  match o_prune o with
  | None => (statusFailure, Some "prune executor not wired", [])
  | Some (Some e) => (statusFailure, Some ("prune: " +:+ e), [Pruned (ID j)])
  | Some None => ("success", None, [Pruned (ID j)])
  end.

Definition BrwReconcileCommand := "__brw_reconcile__".

Definition executeBrwReconcileJob (o : outside) (j : ScheduledJob) : dispatched :=
  match o_brw o with
  | None => (statusFailure, Some "brw reconcile executor not wired", [])
  | Some (Some e) => (statusFailure, Some ("brw reconcile: " +:+ e), [Reconciled (ID j)])
  | Some None => ("success", None, [Reconciled (ID j)])
  end.

Definition dispatch (o : outside) (j : ScheduledJob) : dispatched :=
  if bool_decide (Kind j = KindWorker) then executeWorkerJob o j
  else if bool_decide (Kind j = KindAuditPrune) then executePruneJob o j
  else if bool_decide (Command j = BrwReconcileCommand) then executeBrwReconcileJob o j
  else executeAndApprove o j.

(** ** Firing: scheduler.go *)

(** What the goroutines share: the rows, the heap, and whether the wake channel is full. *)
Record Shared := { rows : gmap string ScheduledJob; jobs : jobHeap; kicked : bool }.

Definition with_rows (r : gmap string ScheduledJob) (s : Shared) : Shared := {| rows := r; jobs := jobs s; kicked := kicked s |}.
Definition with_jobs (h : jobHeap) (s : Shared) : Shared := {| rows := rows s; jobs := h; kicked := kicked s |}.
Definition kick (s : Shared) : Shared := {| rows := rows s; jobs := jobs s; kicked := true |}.

Definition GetScheduledJob (ok : bool) (s : Shared) (id : string) : option ScheduledJob := if ok then rows s !! id else None.

Definition UpdateScheduledJob (ok : bool) (s : Shared) (j : ScheduledJob) : Shared * bool :=
  match (if ok then rows s !! ID j else None) with
  | Some _ => (with_rows (<[ID j := j]> (rows s)) s, true)
  | None => (s, false)
  end.

(** What a fire is about to do. *)
Inductive fire_pc :=
| FGet (id : string)
| FRunning (j : ScheduledJob)
| FDispatch (j : ScheduledJob)
| FGet2 (id status : string) (err : option string)
| FUpdate (j : ScheduledJob)
| FArm (j : ScheduledJob)
| FKick
| FDone.

(** One step of a fire, with the time and the outcome of its store call: the shared
    state, what is next, the worker that was started, and the log. *)
Definition fire_step (now : Z) (ok : bool) (o : outside) (s : Shared) (pc : fire_pc)
    : Shared * fire_pc * option ScheduledJob * list event :=
  match pc with
  | FGet id =>
      match GetScheduledJob ok s id with
      | None => (s, FDone, None, [])
      | Some current => (s, FRunning (with_running now current), None, [])
      end
  | FRunning j =>
      let '(s, written) := UpdateScheduledJob ok s j in
      (s, if written then FDispatch j else FDone, None, [])
  | FDispatch j =>
      let '(status, runErr, log) := dispatch o j in
      (s, FGet2 (ID j) status runErr,
       if bool_decide (Spawned (ID j) ∈ log) then Some j else None, log)
  | FGet2 id status runErr =>
      match GetScheduledJob ok s id with
      | None => (s, FDone, None, [])
      | Some current =>
          let j := with_outcome status (error_text runErr) (next_of (Kind current) (Spec current) now) current in
          let asyncWorker := bool_decide (Kind j = KindWorker) && bool_decide (status = "running") && bool_decide (runErr = None) in
          (s, if asyncWorker then FArm j else FUpdate j, None, if asyncWorker then [Audited (ID j) status] else [])
      end
  | FUpdate j => (fst (UpdateScheduledJob ok s j), FArm j, None, [Audited (ID j) (LastStatus j)])
  | FArm j =>
      match Enabled j, NextRunAt j with
      | true, Some t => (with_jobs (upsertByID (jobs s) j t) s, FKick, None, [])
      | _, _ => (s, FDone, None, [])
      end
  | FKick => (kick s, FDone, None, [])
  | FDone => (s, FDone, None, [])
  end.

(** The whole of [fire], nothing in between, every store call answered. *)
Fixpoint fire_steps (n : nat) (now : Z) (o : outside) (s : Shared) (pc : fire_pc) : Shared * list event :=
  match n with
  | O => (s, [])
  | S n => let '(s, pc, _, log) := fire_step now true o s pc in
           let '(s, rest) := fire_steps n now o s pc in (s, log ++ rest)
  end.

Definition fire (now : Z) (o : outside) (s : Shared) (id : string) : Shared * list event := fire_steps 7 now o s (FGet id).

(** ** Workers in the background: exec_worker.go *)

(** What the runner and the lookup of its run answer; whether the context expired. *)
Record run_outcome := {
  r_error : option string;
  r_found : option (string * string);
  r_expired : option string
}.

Definition reflectRunStatus (r : run_outcome) : string * option string :=
  match r_found r with
  | None => ("running", None)
  | Some (status, e) => (status, if bool_decide (e = "") then None else Some e)
  end.

Definition terminalStatus (r : run_outcome) : string * option string :=
  match r_error r with
  | Some e => (statusFailure, Some ("run worker: " +:+ e))
  | None => reflectRunStatus r
  end.

(** [runWorkerAsync]: an expired run is rewritten to a failure. *)
Definition worker_outcome (r : run_outcome) : string * option string :=
  let '(status, err) := terminalStatus r in
  match r_expired r with
  | None => (status, err)
  | Some cerr => (statusFailure,
                  Some (match err with
                        | None => "worker run aborted: " +:+ cerr
                        | Some e => "worker run aborted (" +:+ cerr +:+ "): " +:+ e
                        end))
  end.

Inductive worker_pc :=
| WRun (j : ScheduledJob)
| WGet (id status : string) (err : option string)
| WPut (j : ScheduledJob)
| WAudit (id status : string).

(** [WGet] and [WPut] are [persistTerminal]; then the outcome is audited. *)
Definition worker_step (now : Z) (ok : bool) (r : run_outcome) (s : Shared) (pc : worker_pc)
    : Shared * option worker_pc * list event :=
  match pc with
  | WRun j => let '(status, err) := worker_outcome r in (s, Some (WGet (ID j) status err), [])
  | WGet id status err =>
      match GetScheduledJob ok s id with
      | None => (s, Some (WAudit id status), [])
      | Some current =>
          (s, Some (WPut (with_outcome status (error_text err)
                            (if Enabled current then next_of (Kind current) (Spec current) now else None) current)), [])
      end
  | WPut j => (fst (UpdateScheduledJob ok s j), Some (WAudit (ID j) (LastStatus j)), [])
  | WAudit id status => (s, None, [Audited id status])
  end.

(** ** Handlers: admin_tools.go *)

Record ScheduleCreateArgs := {
  a_ID : string; a_Name : string; a_Kind : string; a_Spec : string; a_Command : string;
  a_ArgsJSON : string; a_EnvJSON : string; a_CWD : string; a_Enabled : option bool
}.

Inductive create_error := NameRequired | KindRequired | CommandRequired | InvalidSpec (e : next_error).

Definition validateCreateArgs (a : ScheduleCreateArgs) : option create_error :=
  if bool_decide (TrimSpace (a_Name a) = "") then Some NameRequired
  else if bool_decide (TrimSpace (a_Kind a) = "") then Some KindRequired
  else if bool_decide (TrimSpace (a_Command a) = "") then Some CommandRequired
  else None.

Definition resolveID (id ulid : string) : string := if bool_decide (TrimSpace id = "") then "sj-" +:+ ulid else id.

(** The row a create handler builds; [native] is the id the driver gave, empty for a
    job that was not promoted. *)
Definition create_job (now : Z) (ulid native : string) (a : ScheduleCreateArgs) : result create_error ScheduledJob :=
  match validateCreateArgs a with
  | Some e => Err e
  | None =>
      let job next := {|
        ID := resolveID (a_ID a) ulid; Name := a_Name a; Kind := a_Kind a; Spec := a_Spec a; Command := a_Command a;
        ArgsJSON := a_ArgsJSON a; EnvJSON := a_EnvJSON a; CWD := a_CWD a; Enabled := default true (a_Enabled a);
        NativeID := native; WorkerID := ""; LastRunAt := None; NextRunAt := next; LastStatus := ""; LastError := "" |} in
      match NextRun (a_Kind a) (a_Spec a) now with
      | Ok t => Ok (job (Some t))
      | Err ErrEventDrivenKind => Ok (job None)
      | Err e => Err (InvalidSpec e)
      end
  end.

(** One insertion; a handler's columns are never empty, so none is defaulted. *)
Definition CreateScheduledJob (ok : bool) (s : Shared) (j : ScheduledJob) : option Shared :=
  if bool_decide (ID j = "") then None else
  match (if ok then rows s !! ID j else Some j) with
  | Some _ => None
  | None => Some (with_rows (<[ID j := j]> (rows s)) s)
  end.

Inductive admin_pc :=
| AArm (j : ScheduledJob)
| ADelete (id : string)
| ADeleteRow (id : string)
| ADrop (id : string)
| AKick.

(** [ADelete] is the lookup and, for a promoted job, the uninstalling ([uninstalled]). *)
Definition admin_step (ok uninstalled : bool) (s : Shared) (pc : admin_pc) : Shared * option admin_pc :=
  match pc with
  | AArm j => (match NextRunAt j with Some t => with_jobs (upsertByID (jobs s) j t) s | None => s end, Some AKick)
  | ADelete id =>
      match GetScheduledJob ok s id with
      | None => (s, None)
      | Some j => (s, if bool_decide (NativeID j = "") || uninstalled then Some (ADeleteRow id) else None)
      end
  | ADeleteRow id =>
      match GetScheduledJob ok s id with
      | None => (s, None)
      | Some _ => (with_rows (delete id (rows s)) s, Some (ADrop id))
      end
  | ADrop id => (with_jobs (snd (removeByID (jobs s) id)) s, Some AKick)
  | AKick => (kick s, None)
  end.

(** ** The machine *)

Inductive thread :=
| TFire (pc : fire_pc)
| TWorker (pc : worker_pc)
| TAdmin (pc : admin_pc)
| TSeed (listed : list ScheduledJob)   (** Reload, its list read, before its lock *)
| TDone.

Inductive loop_pc :=
| LWait                          (** about to look at the head *)
| LSleep (deadline : option Z)   (** blocked, until then at most *)
| LPop                           (** about to pop and fire *)
| LFire (pc : fire_pc).

Record Machine := { now : Z; shared : Shared; loop : loop_pc; threads : list thread }.

(** What a step is given: the outcome of its store call, the answers of the outside,
    and whether a select takes the timer when the wake channel is ready as well. *)
Record input := { i_ok : bool; i_outside : outside; i_run : run_outcome; i_uninstalled : bool; i_timer : bool }.

Definition thread_step (t : Z) (i : input) (s : Shared) (th : thread) : Shared * thread * option thread * list event :=
  match th with
  | TFire pc =>
      let '(s, pc, spawned, log) := fire_step t (i_ok i) (i_outside i) s pc in
      (s, match pc with FDone => TDone | _ => TFire pc end, (fun j => TWorker (WRun j)) <$> spawned, log)
  | TWorker pc =>
      let '(s, pc, log) := worker_step t (i_ok i) (i_run i) s pc in (s, match pc with Some pc => TWorker pc | None => TDone end, None, log)
  | TAdmin pc =>
      let '(s, pc) := admin_step (i_ok i) (i_uninstalled i) s pc in (s, match pc with Some pc => TAdmin pc | None => TDone end, None, [])
  | TSeed listed => (kick (with_jobs (Reload listed) s), TDone, None, [])
  | TDone => (s, TDone, None, [])
  end.

Inductive label :=
| Tick (d : Z)                   (** time passes *)
| Loop (i : input)               (** the dispatch loop goes on *)
| Thread (n : nat) (i : input)
| CallRunOnce (id : string) (ok : bool)
| CallCreate (a : ScheduleCreateArgs) (ulid native : string) (ok : bool)
| CallDelete (id : string)
| CallReload (order : list string)   (** the rows, in the order the store lists them *)
| OtherWrite (j : ScheduledJob).  (** somebody else updates a row *)

Definition set_shared (s : Shared) (m : Machine) : Machine := {| now := now m; shared := s; loop := loop m; threads := threads m |}.
Definition set_loop (l : loop_pc) (m : Machine) : Machine := {| now := now m; shared := shared m; loop := l; threads := threads m |}.
Definition spawn (th : list thread) (m : Machine) : Machine := {| now := now m; shared := shared m; loop := loop m; threads := threads m ++ th |}.

Definition unkick (s : Shared) : Shared := {| rows := rows s; jobs := jobs s; kicked := false |}.

(** [run]: look, sleep until the head is due or a kick, pop and fire. *)
Definition loop_step (i : input) (m : Machine) : option (Machine * list event) :=
  match loop m with
  | LWait =>
      Some (set_loop (match nextWait (now m) (jobs (shared m)) with
                      | None => LSleep None
                      | Some (_, waitFor) => if waitFor <=? 0 then LPop else LSleep (Some (now m + waitFor))
                      end) m, [])
  | LSleep deadline =>
      if kicked (shared m) && negb (i_timer i && match deadline with Some t => t <=? now m | None => false end)
      then Some (set_loop LWait (set_shared (unkick (shared m)) m), [])
      else match deadline with
           | Some t => if t <=? now m then Some (set_loop LPop m, []) else None
           | None => None
           end
  | LPop =>
      match pop_head (jobs (shared m)) with
      | None => Some (set_loop LWait m, [])
      | Some (j, h) => Some (set_loop (LFire (FGet (ID j))) (set_shared (with_jobs h (shared m)) m), [])
      end
  | LFire pc =>
      let '(s, pc, spawned, log) := fire_step (now m) (i_ok i) (i_outside i) (shared m) pc in
      Some (spawn (match spawned with Some j => [TWorker (WRun j)] | None => [] end)
              (set_loop (match pc with FDone => LWait | _ => LFire pc end) (set_shared s m)), log)
  end.

Definition step (m : Machine) (l : label) : option (Machine * list event) :=
  match l with
  | Tick d => if 0 <=? d then Some ({| now := now m + d; shared := shared m; loop := loop m; threads := threads m |}, []) else None
  | Loop i => loop_step i m
  | Thread n i =>
      th ← threads m !! n;
      let '(s, th', spawned, log) := thread_step (now m) i (shared m) th in
      Some (spawn (option_list spawned)
              {| now := now m; shared := s; loop := loop m; threads := <[n := th']> (threads m) |}, log)
  | CallRunOnce id ok =>
      match GetScheduledJob ok (shared m) id with
      | Some _ => Some (spawn [TFire (FGet id)] m, [])
      | None => Some (m, [])
      end
  | CallCreate a ulid native ok =>
      match create_job (now m) ulid native a with
      | Err _ => Some (m, [])
      | Ok j =>
          match CreateScheduledJob ok (shared m) j with
          | None => Some (m, [])
          | Some s => Some (spawn match Enabled j, NextRunAt j with true, Some _ => [TAdmin (AArm j)] | _, _ => [] end (set_shared s m), [])
          end
      end
  | CallDelete id => Some (spawn (if bool_decide (TrimSpace id = "") then [] else [TAdmin (ADelete id)]) m, [])
  | CallReload order => Some (spawn [TSeed (omap (fun id => rows (shared m) !! id) order)] m, [])
  | OtherWrite j => Some (set_shared (fst (UpdateScheduledJob true (shared m) j)) m, [])
  end.

Fixpoint run (m : Machine) (ls : list label) : option (Machine * list event) :=
  match ls with
  | [] => Some (m, [])
  | l :: ls => '(m, log) ← step m l; '(m, rest) ← run m ls; Some (m, log ++ rest)
  end.

(** Start, nothing overdue: the rows are loaded and the loop begins. *)
Definition started (t : Z) (r : gmap string ScheduledJob) (order : list string) : Machine := {|
  now := t; shared := {| rows := r; jobs := Reload (omap (fun id => r !! id) order); kicked := true |}; loop := LWait; threads := [] |}.

(** ** The catch-up pass *)

Definition maxCatchUpPerJob : nat := 1.

(** Fires until the cap, then the jobs left over; [cancelled] is the context before a fire. *)
Fixpoint catchUp_fires (fired : nat) (t : Z) (o : outside) (cancelled : nat -> bool) (s : Shared) (overdue : list ScheduledJob)
    : Shared * list ScheduledJob * list event :=
  match overdue with
  | [] => (s, [], [])
  | j :: rest =>
      if cancelled fired then (s, overdue, [])
      else let '(s, log) := fire t o s (ID j) in
           if (maxCatchUpPerJob <=? S fired)%nat then (s, rest, log)
           else let '(s, others, log') := catchUp_fires (S fired) t o cancelled s rest in (s, others, log ++ log')
  end.

Definition rearm (t : Z) (s : Shared) (j : ScheduledJob) : Shared :=
  match next_of (Kind j) (Spec j) t with
  | None => s
  | Some next =>
      let j := with_outcome (LastStatus j) (LastError j) (Some next) j in
      let '(s, written) := UpdateScheduledJob true s j in
      if written then with_jobs (upsertByID (jobs s) j next) s else s
  end.

(** The workers its fires start run on their own. *)
Definition catchUp (t : Z) (o : outside) (cancelled : nat -> bool) (s : Shared) : Shared * list event :=
  let '(overdue, remaining) := catchUp_split t (jobs s) in
  let s := with_jobs remaining s in
  match overdue with
  | [] => (s, [])
  | _ => let '(s, others, log) := catchUp_fires 0 t o cancelled s overdue in
         (kick (fold_left (rearm t) others s), log)
  end.

(** ** The heap in any run *)

Definition heap_ok (h : jobHeap) : Prop := exists m, rep h m.

Abbreviation ids := (map id_of).

Lemma rep_ids h m k : rep h m -> k ∈ ids h <-> is_Some (m !! k).
Proof.
  intros [_ _ He]. split.
  - intros (pj & -> & Hin)%list_elem_of_fmap. exists pj. by apply He.
  - intros [pj [Hin <-]%He]. by apply elem_map_id.
Qed.

Lemma heap_upsert_ok h j t : heap_ok h ->
  heap_ok (upsertByID h j t) /\ (forall k, k ∈ ids (upsertByID h j t) <-> k = ID j \/ k ∈ ids h).
Proof.
  intros [m Hr]. pose proof (upsertByID_rep h m j t Hr) as Hr'. split; [by eexists|]. intros k.
  rewrite (rep_ids _ _ k Hr), (rep_ids _ _ k Hr'), lookup_insert_is_Some'. naive_solver.
Qed.

Lemma remove_ok h id : heap_ok h ->
  heap_ok (snd (removeByID h id)) /\ (forall k, k ∈ ids (snd (removeByID h id)) <-> k <> id /\ k ∈ ids h).
Proof.
  intros [m Hr]. destruct (removeByID_rep h m id Hr) as [Hr' _]. split; [by eexists|]. intros k.
  rewrite (rep_ids _ _ k Hr), (rep_ids _ _ k Hr'), lookup_delete_is_Some. naive_solver.
Qed.

Lemma remove_elem h id e : heap_ok h -> e ∈ snd (removeByID h id) -> e ∈ h.
Proof.
  intros [m Hr] He. destruct (removeByID_rep h m id Hr) as [Hr' _].
  pose proof (proj2 (rep_elem _ _ Hr' (id_of e) e) (conj He eq_refl)) as [_ H]%lookup_delete_Some.
  by apply (rep_elem _ _ Hr) in H as [? _].
Qed.

Lemma Reload_ok l : heap_ok (Reload l) /\ (forall j t, j ∈ l -> Enabled j = true -> NextRunAt j = Some t -> ID j ∈ ids (Reload l)).
Proof.
  unfold Reload. assert (heap_ok []) as H0 by (exists ∅; apply rep_empty). revert H0. generalize ([] : jobHeap).
  assert (forall l h, heap_ok h -> let h' := fold_left (fun h j => if negb (Enabled j) then h
            else match NextRunAt j with None => h | Some t => upsertByID h j t end) l h in
            heap_ok h' /\ (forall k, k ∈ ids h -> k ∈ ids h')) as Hkeep.
  { clear l. induction l as [|j l IH]; intros h Hh; cbn; [by split|].
    destruct (Enabled j); [|by apply IH]. cbn. destruct (NextRunAt j) as [t|]; [|by apply IH].
    destruct (heap_upsert_ok h j t Hh) as [H1 H2]. destruct (IH _ H1) as [H3 H4]. split; [done|]. intros k Hk. apply H4, H2. by right. }
  induction l as [|j l IH]; intros h Hh; [by split; [|intros ? ? ?%elem_of_nil]|]. split; [by apply Hkeep|].
  intros j' t. rewrite elem_of_cons. cbn [fold_left]. intros [->|Hin] He Hn.
  - rewrite He, Hn. cbn. destruct (heap_upsert_ok h j t Hh) as [H1 H2]. apply Hkeep; [done|]. apply H2. by left.
  - destruct (negb (Enabled j)); [by apply (proj2 (IH h Hh) j' t)|].
    destruct (NextRunAt j) as [t'|]; [|by apply (proj2 (IH h Hh) j' t)].
    by apply (proj2 (IH _ (proj1 (heap_upsert_ok h j t' Hh))) j' t).
Qed.

Lemma pop_ok h j h' : heap_ok h -> pop_head h = Some (j, h') -> heap_ok h' /\ (forall k, k ∈ ids h -> k = ID j \/ k ∈ ids h').
Proof.
  intros Hh. unfold pop_head. destruct (peek h) as [pj|]; [|done]. intros [= <- <-].
  destruct (remove_ok h (ID (job pj)) Hh) as [H1 H2]. split; [done|]. intros k Hk.
  destruct (decide (k = ID (job pj))); [by left|right]. by apply H2.
Qed.

Lemma head_least h pj e : heap_ok h -> peek h = Some pj -> e ∈ h -> nextRun pj <= nextRun e.
Proof.
  intros [m Hr] Hp He. pose proof (peek_rep h m Hr) as H. rewrite Hp in H. destruct H as [_ H].
  apply (H (id_of e)). by apply (rep_elem _ _ Hr).
Qed.

(** ** The loop is woken in time *)

Definition kicking (th : thread) : Prop := th = TFire FKick \/ th = TAdmin AKick.

(** No entry is due before the loop wakes, unless a kick is there or on its way. *)
Definition awake (m : Machine) : Prop :=
  heap_ok (jobs (shared m)) /\
  match loop m with
  | LSleep d => kicked (shared m) = true \/ (exists th, th ∈ threads m /\ kicking th) \/
                (forall e, e ∈ jobs (shared m) -> match d with Some t => t <= nextRun e | None => False end)
  | _ => True
  end.

Lemma fire_step_heap t ok o s pc : heap_ok (jobs s) ->
  let '(s', pc', _, _) := fire_step t ok o s pc in
  heap_ok (jobs s') /\ (kicked s' = true \/ pc' = FKick \/ jobs s' = jobs s /\ kicked s' = kicked s /\ pc <> FKick).
Proof.
  intros Hh. destruct pc as [id|j|j|id st e|j|j| |]; cbn [fire_step].
  - destruct (GetScheduledJob _ _ _); split; auto.
  - unfold UpdateScheduledJob. destruct (if ok then _ else _); split; auto.
  - destruct (dispatch o j) as [[? ?] ?]. split; auto.
  - destruct (GetScheduledJob _ _ _); split; auto.
  - unfold UpdateScheduledJob. destruct (if ok then _ else _); split; auto.
  - destruct (Enabled j), (NextRunAt j) as [n|]; try (split; [done|]; auto). cbn. split; [by apply heap_upsert_ok|auto].
  - split; [done|by left].
  - split; auto.
Qed.

Lemma thread_step_heap t i s th : heap_ok (jobs s) ->
  let '(s', th', _, _) := thread_step t i s th in
  heap_ok (jobs s') /\ (kicked s' = true \/ kicking th' \/
    (forall e, e ∈ jobs s' -> e ∈ jobs s) /\ kicked s' = kicked s /\ ~ kicking th).
Proof.
  intros Hh. unfold kicking. destruct th as [pc|pc|pc|l|]; cbn [thread_step].
  - pose proof (fire_step_heap t (i_ok i) (i_outside i) s pc Hh) as H.
    destruct (fire_step _ _ _ _ _) as [[[s' pc'] sp] log]. destruct H as [H1 [H|[->|(-> & -> & H)]]]; split; auto.
    right; right. split_and!; [done|done|]. intros [[= ->]|?]; done.
  - unfold worker_step. destruct pc as [j|id st e|j|id st].
    + destruct (worker_outcome _). split; [done|]. right; right. split_and!; [done|done|]. by intros [|].
    + destruct (GetScheduledJob _ _ _); (split; [done|]); right; right; (split_and!; [done|done|]); by intros [|].
    + unfold UpdateScheduledJob. destruct (if i_ok i then _ else _); (split; [done|]); right; right; (split_and!; [done|done|]); by intros [|].
    + split; [done|]. right; right. split_and!; [done|done|]. by intros [|].
  - destruct pc as [j|id|id|id|]; cbn [admin_step].
    + destruct (NextRunAt j) as [n|]; (split; [cbn; try done; by apply heap_upsert_ok|auto]).
    + destruct (GetScheduledJob _ _ _); [destruct (_ || _)|]; (split; [done|]); right; right; (split_and!; [done|done|]); by intros [|].
    + destruct (GetScheduledJob _ _ _); (split; [done|]); right; right; (split_and!; [done|done|]); by intros [|].
    + split; [by apply remove_ok|auto].
    + split; [done|by left].
  - split; [apply Reload_ok|by left].
  - split; [done|]. right; right. split_and!; [done|done|]. by intros [|].
Qed.

Lemma elem_insert {A} (l : list A) n x y z : l !! n = Some x -> z ∈ l -> z = x \/ z ∈ <[n := y]> l.
Proof.
  intros Hx [k Hk]%list_elem_of_lookup. destruct (decide (k = n)) as [->|Hne]; [left; congruence|right].
  apply list_elem_of_lookup. exists k. by rewrite list_lookup_insert_ne.
Qed.

Lemma elem_inserted {A} (l : list A) n x y : l !! n = Some x -> y ∈ <[n := y]> l.
Proof. intros H. apply list_elem_of_lookup. exists n. apply list_lookup_insert_eq. by eapply lookup_lt_Some. Qed.

Lemma awake_spawn ths m : awake m -> awake (spawn ths m).
Proof.
  intros [H1 H2]. split; [done|]. cbn. destruct (loop m); try done.
  destruct H2 as [?|[(th & ? & ?)|?]]; auto. right; left. exists th. split; [|done]. apply elem_of_app. by left.
Qed.

Lemma awake_step m l m' log : awake m -> step m l = Some (m', log) -> awake m'.
Proof.
  intros [Hh Hl]. destruct l as [d|i|n i|id ok|a u v ok|id|order|j]; cbn [step].
  - destruct (0 <=? d); intros [= <- _]. split; done.
  - unfold loop_step. destruct (loop m) as [|d| |pc] eqn:El.
    + intros [= <- _]. split; [done|]. cbn. unfold nextWait. destruct (peek (jobs (shared m))) as [pj|] eqn:Ep; cbn.
      * destruct (_ <=? 0); [done|]. right; right. intros e He. pose proof (head_least _ _ e Hh Ep He). lia.
      * right; right. destruct (jobs (shared m)); [|done]. by intros e ?%elem_of_nil.
    + destruct (_ && _); [intros [= <- _]; by split|]. destruct d as [t|]; [|done]. destruct (t <=? now m); [|done].
      intros [= <- _]. by split.
    + destruct (pop_head _) as [[j h]|] eqn:Ep; intros [= <- _]; [|by split]. split; [|done]. by eapply pop_ok.
    + pose proof (fire_step_heap (now m) (i_ok i) (i_outside i) (shared m) pc Hh) as H.
      destruct (fire_step _ _ _ _ _) as [[[s pc'] sp] lg]. intros [= <- _]. apply awake_spawn. split; [by apply H|]. cbn. by destruct pc'.
  - destruct (threads m !! n) as [th|] eqn:En; [|done]. cbn [option_bind mbind].
    pose proof (thread_step_heap (now m) i (shared m) th Hh) as H.
    destruct (thread_step _ _ _ _) as [[[s th'] sp] lg]. intros [= <- _]. apply awake_spawn. destruct H as [H1 H2]. split; [done|]. cbn.
    destruct (loop m) as [|d| |]; try done. destruct H2 as [?|[?|(H2 & H3 & H4)]]; [by left| |].
    + right; left. exists th'. split; [by eapply elem_inserted|done].
    + rewrite H3. destruct Hl as [?|[(k & Hk & Hkk)|Hl]]; [by left| |right; right; intros e He; by apply Hl, H2].
      right; left. exists k. split; [|done]. by destruct (elem_insert _ _ _ th' _ En Hk) as [->|?].
  - destruct (GetScheduledJob _ _ _); intros [= <- _]; [by apply awake_spawn|done].
  - destruct (create_job _ _ _ _) as [j|]; [|by intros [= <- _]].
    unfold CreateScheduledJob. destruct (bool_decide _); [by intros [= <- _]|].
    destruct (if ok then _ else _); intros [= <- _]; [done|]. by apply awake_spawn.
  - intros [= <- _]. by apply awake_spawn.
  - intros [= <- _]. by apply awake_spawn.
  - intros [= <- _]. unfold UpdateScheduledJob. destruct (rows (shared m) !! ID j); by split.
Qed.

Lemma runs_keep (P : Machine -> Prop) ls : (forall m l m' log, P m -> step m l = Some (m', log) -> P m') ->
  forall m m' log, P m -> run m ls = Some (m', log) -> P m'.
Proof.
  intros Hs. induction ls as [|l ls IH]; intros m m' log Hm; cbn [run]; [by intros [= <- _]|].
  destruct (step m l) as [[m1 lg]|] eqn:E; [|done]. cbn. destruct (run m1 ls) as [[m2 lg2]|] eqn:E2; [|done]. cbn.
  intros [= <- _]. eapply IH; [|done]. by eapply Hs.
Qed.

(** C40: Whatever fires, handlers, reloads and workers do meanwhile, and whatever store
    calls fail: when a job on the heap is due, the dispatch loop can go on - it sleeps
    past no entry - or a goroutine is just about to wake it. *)
Theorem due_job_wakes (t : Z) (r : gmap string ScheduledJob) (order : list string) (ls : list label) (m : Machine) (log : list event)
    (e : pendingJob) (Hrun : run (started t r order) ls = Some (m, log)) (He : e ∈ jobs (shared m)) (Hdue : nextRun e <= now m) :
  (forall i, is_Some (loop_step i m)) \/ exists th, th ∈ threads m /\ kicking th.
Proof.
  assert (awake m) as [_ Hm] by (eapply (runs_keep awake); [by apply awake_step| |exact Hrun]; split; [apply Reload_ok|done]).
  unfold loop_step. destruct (loop m) as [|d| |pc]; [left; by eexists| |left; intros i|left; intros i].
  - destruct Hm as [Hk|[?|Hd]]; [|by right|].
    + left. intros i. rewrite Hk. cbn [andb]. destruct (negb _) eqn:E; [by eexists|].
      apply negb_false_iff, andb_prop in E as [_ E]. destruct d; [|done]. rewrite E. by eexists.
    + specialize (Hd e He). destruct d as [t'|]; [|done]. left. intros i. destruct (_ && _); [by eexists|].
      rewrite (proj2 (Z.leb_le _ _)) by lia. by eexists.
  - destruct (pop_head _) as [[? ?]|]; by eexists.
  - destruct (fire_step _ _ _ _ _) as [[[? ?] ?] ?]. by eexists.
Qed.

(** ** No job is lost *)

(** A job the heap should know: enabled, with a next run at any time. *)
Definition armable (j : ScheduledJob) : Prop := Enabled j = true /\ forall t, is_Some (next_of (Kind j) (Spec j) t).

Definition same (j r : ScheduledJob) : Prop := Kind j = Kind r /\ Spec j = Spec r /\ Enabled j = Enabled r.

(** The job a fire or a create handler will put back, the row it holds, and the
    ids a goroutine has in hand. *)
Definition carries (th : thread) : list string :=
  match th with
  | TFire (FGet id) | TFire (FGet2 id _ _) => [id]
  | TFire (FRunning j) | TFire (FDispatch j) | TFire (FUpdate j) | TFire (FArm j) | TAdmin (AArm j) => [ID j]
  | _ => []
  end.

Definition held (th : thread) : list ScheduledJob :=
  match th with
  | TFire (FRunning j) | TFire (FDispatch j) | TFire (FUpdate j) | TFire (FArm j) | TAdmin (AArm j) | TWorker (WPut j) => [j]
  | _ => []
  end.

Definition touches (th : thread) : list string :=
  map ID (held th) ++ match th with TAdmin (ADrop id) => [id] | _ => [] end.

(** A row about to be put back has its next run. *)
Definition timed (th : thread) : Prop :=
  match th with
  | TFire (FUpdate j) | TFire (FArm j) | TAdmin (AArm j) => armable j -> NextRunAt j <> None
  | _ => True
  end.

Definition loop_threads (m : Machine) : list thread := match loop m with LFire pc => [TFire pc] | _ => [] end.

Definition everyone (m : Machine) : list thread := loop_threads m ++ threads m.

(** Store calls are answered, a new row has a new id, nobody reloads, and nobody else
    writes rows. *)
Definition orderly (m : Machine) (l : label) : Prop :=
  match l with
  | Loop i | Thread _ i => i_ok i = true
  | CallCreate a ulid _ _ => forall th, th ∈ everyone m -> resolveID (a_ID a) ulid ∉ touches th
  | CallReload _ | OtherWrite _ => False
  | _ => True
  end.

Fixpoint orderly_run (m : Machine) (ls : list label) : Prop :=
  match ls with
  | [] => True
  | l :: ls => orderly m l /\ match step m l with Some (m', _) => orderly_run m' ls | None => True end
  end.

Definition fits (r : gmap string ScheduledJob) (th : thread) : Prop :=
  timed th /\ (forall j, j ∈ held th -> forall row, r !! ID j = Some row -> same j row) /\
  (forall id, th = TAdmin (ADrop id) -> r !! id = None) /\ (forall l, th <> TSeed l).

Record kept (s : Shared) (ths : list thread) : Prop := {
  kp_heap : heap_ok (jobs s);
  kp_ids : forall id j, rows s !! id = Some j -> ID j = id;
  kp_fits : forall th, th ∈ ths -> fits (rows s) th;
  kp_here : forall id j, rows s !! id = Some j -> armable j -> id ∈ ids (jobs s) \/ exists th, th ∈ ths /\ id ∈ carries th
}.

(** What a goroutine's step may do to the rows: change none of what the schedule
    depends on, create none, and delete one. *)
Definition rows_step (r r' : gmap string ScheduledJob) : Prop :=
  forall id j', r' !! id = Some j' -> ID j' = id /\ exists j, r !! id = Some j /\ same j j'.

Definition leaves (s s' : Shared) (th th' : thread) : Prop :=
  heap_ok (jobs s') /\ rows_step (rows s) (rows s') /\ fits (rows s') th' /\
  (forall id, rows s' !! id <> None -> id ∈ ids (jobs s) -> id ∈ ids (jobs s')) /\
  (forall id j, rows s' !! id = Some j -> armable j -> id ∈ carries th -> id ∈ ids (jobs s') \/ id ∈ carries th').

Lemma same_trans a b c : same a b -> same b c -> same a c.
Proof. intros (? & ? & ?) (? & ? & ?). split_and!; congruence. Qed.

Lemma same_sym a b : same a b -> same b a.
Proof. intros (? & ? & ?). by split_and!. Qed.

Lemma armable_same a b : same a b -> armable a -> armable b.
Proof. intros (H1 & H2 & H3) [? ?]. split; [congruence|]. by rewrite <- H1, <- H2. Qed.

Lemma rows_step_refl (s : Shared) : (forall id j, rows s !! id = Some j -> ID j = id) -> rows_step (rows s) (rows s).
Proof. intros H id j Hj. split; [by apply H|]. by exists j. Qed.

Lemma fits_step r r' th : rows_step r r' -> fits r th -> fits r' th.
Proof.
  intros Hr (H1 & H2 & H3 & H4). split_and!; [done| | |done].
  - intros j Hj row Hrow. apply Hr in Hrow as (_ & row0 & Hrow0 & Hs). eapply same_trans; [by apply (H2 j Hj row0)|done].
  - intros id ->. destruct (r' !! id) as [j|] eqn:E; [|done]. apply Hr in E as (_ & j0 & Hj0 & _). by rewrite (H3 id) in Hj0.
Qed.

(** Everyone's invariant after one goroutine's step, the others and the new one added. *)
Lemma kept_leaves s s' ths th ths' th' : kept s ths -> leaves s s' th th' ->
  (forall x, x ∈ ths -> x = th \/ x ∈ ths') ->
  (forall x, x ∈ ths' -> x = th' \/ x ∈ ths \/ exists j, x = TWorker (WRun j)) -> th' ∈ ths' \/ carries th' = [] -> kept s' ths'.
Proof.
  intros [H1 H2 H3 H4] (L1 & L2 & L3 & L4 & L5) Hold Hnew Hin. constructor; [done| | |].
  - intros id j Hj. by apply L2 in Hj as [? _].
  - intros x [->|[Hx|[j ->]]]%Hnew; [done|by eapply fits_step, H3|]. split_and!; try done. by intros ? ?%elem_of_nil.
  - intros id j Hj Ha. destruct (L2 id j Hj) as (_ & j0 & Hj0 & Hs).
    destruct (H4 id j0 Hj0 (armable_same _ _ (same_sym _ _ Hs) Ha)) as [Hh|(x & Hx & Hc)].
    + left. apply L4; [by rewrite Hj|done].
    + destruct (Hold x Hx) as [->|Hx']; [|right; by exists x]. destruct (L5 id j Hj Ha Hc) as [?|Hc']; [by left|right].
      destruct Hin as [Hin|Hin]; [by exists th'|]. rewrite Hin in Hc'. by apply elem_of_nil in Hc'.
Qed.

Section Leaving.
Variable s : Shared.
Hypothesis Hheap : heap_ok (jobs s).
Hypothesis Hids : forall id j, rows s !! id = Some j -> ID j = id.

(** A step that changes neither rows nor heap. *)
Lemma leaves_still s' th th' : rows s' = rows s -> jobs s' = jobs s -> fits (rows s) th' ->
  (forall id, id ∈ carries th -> rows s !! id <> None -> id ∈ carries th') -> leaves s s' th th'.
Proof.
  intros Hr Hj Hf Hc. unfold leaves. rewrite Hr, Hj. split_and!; [done|exact (rows_step_refl s Hids)|done|done|].
  intros id j Hrow _ Hin. right. apply Hc; [done|]. by rewrite Hrow.
Qed.

Lemma fits_free r th : timed th -> held th = [] -> (forall id, th <> TAdmin (ADrop id)) -> (forall l, th <> TSeed l) -> fits r th.
Proof. intros H1 H2 H3 H4. split_and!; [done|rewrite H2; by intros ? ?%elem_of_nil|intros id E; by destruct (H3 id)|done]. Qed.

(** A row read and held. *)
Lemma fits_read id current j th : rows s !! id = Some current -> ID j = id -> same j current ->
  held th = [j] -> timed th -> (forall id, th <> TAdmin (ADrop id)) -> (forall l, th <> TSeed l) -> fits (rows s) th.
Proof.
  intros Hg Hi Hs Hh Ht Ha Hl. split_and!; [done| |intros k E; by destruct (Ha k)|done].
  intros j' Hj' row Hrow. rewrite Hh in Hj'. apply list_elem_of_singleton in Hj' as ->. rewrite Hi in Hrow. congruence.
Qed.

(** A held row written back. *)
Lemma leaves_update j th th' : fits (rows s) th -> held th = [j] -> carries th ⊆ [ID j] ->
  held th' ⊆ [j] -> timed th' -> (ID j ∈ carries th -> ID j ∈ carries th') -> (forall id, th' <> TAdmin (ADrop id)) -> (forall l, th' <> TSeed l) ->
  rows s !! ID j <> None -> leaves s (fst (UpdateScheduledJob true s j)) th th'.
Proof.
  intros (_ & Hf & _ & _) Hh Hc Hh' Ht Hc' Ha Hl Hn. destruct (rows s !! ID j) as [row|] eqn:Hrow; [|done].
  assert (same j row) as Hs by (apply (Hf j); [rewrite Hh; by left|done]). unfold UpdateScheduledJob. rewrite Hrow. cbn [fst].
  assert (rows_step (rows s) (<[ID j := j]> (rows s))) as Hstep.
  { intros id j'. rewrite lookup_insert_Some. intros [[<- <-]|[_ Hj']]; [split; [done|]; exists row; split; [done|by apply same_sym]|].
    split; [by apply Hids|]. by exists j'. }
  split_and!; [done|exact Hstep| |done|].
  - split_and!; [done| |intros id E; by destruct (Ha id)|done]. intros j' Hj' row' Hrow'.
    apply Hh', list_elem_of_singleton in Hj' as ->. cbn in Hrow'. rewrite lookup_insert_eq in Hrow'. injection Hrow' as <-. by split_and!.
  - intros id j' _ _ Hin. right. pose proof (Hc _ Hin) as ->%list_elem_of_singleton. by apply Hc'.
Qed.

Lemma fire_leaves t o pc : fits (rows s) (TFire pc) ->
  let '(s', pc', _, _) := fire_step t true o s pc in leaves s s' (TFire pc) (TFire pc').
Proof.
  intros Hf. destruct pc as [id|j|j|id st e|j|j| |]; cbn [fire_step].
  - unfold GetScheduledJob. destruct (rows s !! id) as [current|] eqn:Hg.
    + pose proof (Hids _ _ Hg) as Hi. apply leaves_still; [done|done|apply (fits_read id current (with_running t current)); [exact Hg|exact Hi|by split_and!|done..]|].
      intros k ->%list_elem_of_singleton _. cbn. rewrite Hi. by left.
    + apply leaves_still; [done|done|by apply fits_free|]. intros k ->%list_elem_of_singleton Hk. by rewrite Hg in Hk.
  - destruct (rows s !! ID j) as [row|] eqn:Hg.
    + pose proof (leaves_update j (TFire (FRunning j)) (TFire (FDispatch j)) Hf) as H. unfold UpdateScheduledJob in *. rewrite Hg in *.
      apply H; done.
    + unfold UpdateScheduledJob. rewrite Hg. apply leaves_still; [done|done|by apply fits_free|].
      intros k ->%list_elem_of_singleton Hk. by rewrite Hg in Hk.
  - destruct (dispatch o j) as [[st e] log]. apply leaves_still; [done|done|by apply fits_free|]. done.
  - unfold GetScheduledJob. destruct (rows s !! id) as [current|] eqn:Hg.
    + pose proof (Hids _ _ Hg) as Hi. cbv zeta. set (j := with_outcome _ _ _ current).
      assert (armable j -> NextRunAt j <> None) as Ht by (intros [_ Ha]; destruct (Ha t) as [n Hn]; cbn in *; by rewrite Hn).
      apply leaves_still; [done|done| |].
      * destruct (_ && _); (apply (fits_read id current j); [exact Hg|exact Hi|by split_and!|done..]).
      * intros k ->%list_elem_of_singleton _. destruct (_ && _); cbn; rewrite Hi; by left.
    + apply leaves_still; [done|done|by apply fits_free|]. intros k ->%list_elem_of_singleton Hk. by rewrite Hg in Hk.
  - destruct (rows s !! ID j) as [row|] eqn:Hg.
    + apply leaves_update; try done; [apply Hf|by rewrite Hg].
    + unfold UpdateScheduledJob. rewrite Hg. apply leaves_still; [done|done|destruct Hf as (F1 & F2 & _); by split_and!|done].
  - assert (forall row, rows s !! ID j = Some row -> armable row -> Enabled j = true /\ NextRunAt j <> None) as Harm.
    { intros row Hrow Ha. destruct Hf as (Ht & Hh & _). pose proof (Hh j ltac:(by left) row Hrow) as Hs.
      pose proof (armable_same _ _ (same_sym _ _ Hs) Ha) as Hj. split; [apply Hj|by apply Ht]. }
    destruct (Enabled j) eqn:He; [destruct (NextRunAt j) as [n|] eqn:Hn|].
    + destruct (heap_upsert_ok (jobs s) j n Hheap) as [Hu Hk].
      split_and!; [exact Hu|exact (rows_step_refl s Hids)|by apply fits_free|intros id _ Hin; apply Hk; by right|].
      intros id row _ _ ->%list_elem_of_singleton. left. apply Hk. by left.
    + split_and!; [done|exact (rows_step_refl s Hids)|by apply fits_free|done|].
      intros id row Hrow Ha ->%list_elem_of_singleton. by destruct (Harm row Hrow Ha).
    + split_and!; [done|exact (rows_step_refl s Hids)|by apply fits_free|done|].
      intros id row Hrow Ha ->%list_elem_of_singleton. by destruct (Harm row Hrow Ha).
  - apply leaves_still; [done|done|by apply fits_free|]. by intros k ?%elem_of_nil.
  - apply leaves_still; [done|done|by apply fits_free|]. by intros k ?%elem_of_nil.
Qed.

Lemma worker_leaves t r pc : fits (rows s) (TWorker pc) ->
  let '(s', pc', _) := worker_step t true r s pc in leaves s s' (TWorker pc) (match pc' with Some pc' => TWorker pc' | None => TDone end).
Proof.
  intros Hf. assert (forall k, k ∈ carries (TWorker pc) -> False) as Hno by (intros k; destruct pc; by intros ?%elem_of_nil).
  destruct pc as [j|id st e|j|id st]; cbn [worker_step].
  - destruct (worker_outcome r). apply leaves_still; [done|done|by apply fits_free|]. intros k Hk. by destruct (Hno k).
  - unfold GetScheduledJob. destruct (rows s !! id) as [current|] eqn:Hg.
    + set (j := with_outcome _ _ _ current). apply leaves_still; [done|done| |intros k Hk; by destruct (Hno k)].
      apply (fits_read id current j); [exact Hg|exact (Hids _ _ Hg)|by split_and!|done..].
    + apply leaves_still; [done|done|by apply fits_free|]. intros k Hk. by destruct (Hno k).
  - destruct (rows s !! ID j) as [row|] eqn:Hg.
    + apply (leaves_update j); try done; [by intros ? ?%elem_of_nil..|by rewrite Hg].
    + unfold UpdateScheduledJob. rewrite Hg. apply leaves_still; [done|done|by apply fits_free|]. intros k Hk. by destruct (Hno k).
  - apply leaves_still; [done|done|by apply fits_free|]. intros k Hk. by destruct (Hno k).
Qed.

Lemma admin_leaves u pc : fits (rows s) (TAdmin pc) ->
  let '(s', pc') := admin_step true u s pc in leaves s s' (TAdmin pc) (match pc' with Some pc' => TAdmin pc' | None => TDone end).
Proof.
  intros Hf. destruct pc as [j|id|id|id|]; cbn [admin_step].
  - destruct (NextRunAt j) as [n|] eqn:Hn.
    + destruct (heap_upsert_ok (jobs s) j n Hheap) as [Hu Hk].
      split_and!; [exact Hu|exact (rows_step_refl s Hids)|by apply fits_free|intros id _ Hin; apply Hk; by right|].
      intros id row _ _ ->%list_elem_of_singleton. left. apply Hk. by left.
    + split_and!; [done|exact (rows_step_refl s Hids)|by apply fits_free|done|].
      intros id row Hrow Ha ->%list_elem_of_singleton. destruct Hf as (Ht & Hh & _). pose proof (Hh j ltac:(by left) row Hrow) as Hs.
      destruct (Ht (armable_same _ _ (same_sym _ _ Hs) Ha)). exact Hn.
  - unfold GetScheduledJob. destruct (rows s !! id) as [j|]; [destruct (_ || _)|]; (apply leaves_still; [done|done|by apply fits_free|by intros k ?%elem_of_nil]).
  - unfold GetScheduledJob. destruct (rows s !! id) as [j|] eqn:Hg; [|apply leaves_still; [done|done|by apply fits_free|by intros k ?%elem_of_nil]].
    split_and!; [done| | |done|by intros k ? ? ? ?%elem_of_nil].
    + intros k j'. cbn. rewrite lookup_delete_Some. intros [_ Hj']. split; [by apply Hids|]. by exists j'.
    + split_and!; [done|by intros ? ?%elem_of_nil| |done]. intros k [= <-]. cbn. apply lookup_delete_eq.
  - destruct Hf as (_ & _ & Hd & _). specialize (Hd id eq_refl). destruct (remove_ok (jobs s) id Hheap) as [Hu Hk].
    split_and!; [exact Hu|exact (rows_step_refl s Hids)|by apply fits_free| |by intros k ? ? ? ?%elem_of_nil].
    intros k Hrow Hin. apply Hk. split; [|done]. intros ->. cbn in Hrow; by rewrite Hd in Hrow.
  - apply leaves_still; [done|done|by apply fits_free|]. by intros k ?%elem_of_nil.
Qed.
End Leaving.

Lemma create_job_row t u v a j : create_job t u v a = Ok j -> ID j = resolveID (a_ID a) u /\ (armable j -> NextRunAt j <> None).
Proof.
  unfold create_job. destruct (validateCreateArgs a); [done|].
  destruct (NextRun (a_Kind a) (a_Spec a) t) as [n|e] eqn:En; [by intros [= <-]|].
  destruct e; try done. intros [= <-]. split; [done|]. intros [_ Ha]. destruct (Ha t) as [n Hn]. unfold next_of in Hn. cbn in Hn. by rewrite En in Hn.
Qed.

Lemma Done_as_thread s s' th pc : leaves s s' th (TFire pc) -> leaves s s' th (match pc with FDone => TDone | _ => TFire pc end).
Proof. destruct pc; try done. intros (H1 & H2 & (F1 & F2 & F3 & F4) & H4 & H5). split_and!; try done. Qed.

(** Spawning goroutines that hold nothing, or a create handler for a row just put in. *)
Lemma kept_spawn s ths ths' : kept s ths -> (forall th, th ∈ ths -> th ∈ ths') -> (forall th, th ∈ ths' -> th ∈ ths \/ fits (rows s) th) -> kept s ths'.
Proof.
  intros [H1 H2 H3 H4] Hsub Hnew. constructor; [done|done| |].
  - intros th [?|?]%Hnew; auto.
  - intros id j Hj Ha. destruct (H4 id j Hj Ha) as [?|(th & ? & ?)]; [by left|right; exists th; auto].
Qed.

Lemma kept_step m l m' log : kept (shared m) (everyone m) -> orderly m l -> step m l = Some (m', log) -> kept (shared m') (everyone m').
Proof.
  intros Hk Ho. pose proof Hk as [Hheap Hids Hfits Hhere]. destruct l as [d|i|n i|id ok|a u v ok|id|order|j]; cbn [step orderly] in *; try done.
  - destruct (0 <=? d); intros [= <- _]. exact Hk.
  - unfold loop_step. unfold everyone, loop_threads in Hk, Hfits |- *. destruct (loop m) as [|d| |pc] eqn:El.
    + intros [= <- _]. cbn. destruct (nextWait _ _) as [[? ?]|]; [destruct (_ <=? 0)|]; exact Hk.
    + destruct (_ && _); [intros [= <- _]; cbn; by destruct Hk|]. destruct d as [t|]; [|done]. destruct (t <=? now m); [|done].
      intros [= <- _]. exact Hk.
    + destruct (pop_head _) as [[j h]|] eqn:Ep; intros [= <- _]; [|exact Hk]. destruct (pop_ok _ _ _ Hheap Ep) as [Hh Hpop].
      cbn. constructor; [exact Hh|done| |].
      * intros th [->|Hth]%elem_of_cons; [|by apply Hfits]. by apply fits_free.
      * intros id r Hr Ha. destruct (Hhere id r Hr Ha) as [[->|?]%Hpop|(th & Hth & Hc)].
        -- right. exists (TFire (FGet (ID j))). split; [by left|by left].
        -- by left.
        -- right. exists th. unfold everyone, loop_threads in Hth. rewrite El in Hth. split; [by right|done].
    + pose proof (fire_leaves (shared m) Hheap Hids (now m) (i_outside i) pc (Hfits _ ltac:(by left))) as Hl. rewrite Ho.
      destruct (fire_step _ _ _ _ _) as [[[s pc'] sp] lg]. intros [= <- _]. cbn.
      apply (kept_leaves _ _ _ _ _ (TFire pc') Hk Hl).
      * intros x [->|Hx]%elem_of_cons; [by left|right]. apply elem_of_app. right. apply elem_of_app. by left.
      * intros x [Hx|[Hx|Hx]%elem_of_app]%elem_of_app.
        -- left. destruct pc'; try (by apply list_elem_of_singleton in Hx). by apply elem_of_nil in Hx.
        -- right; left. by right.
        -- right; right. destruct sp as [j|]; [|by apply elem_of_nil in Hx]. apply list_elem_of_singleton in Hx as ->. by exists j.
      * destruct pc'; [left; by left..|by right].
  - destruct (threads m !! n) as [th|] eqn:En; [|done]. cbn [option_bind mbind].
    assert (th ∈ everyone m) as Hth by (apply elem_of_app; right; by eapply list_elem_of_lookup_2).
    assert (let '(s', th', sp, _) := thread_step (now m) i (shared m) th in
            leaves (shared m) s' th th' /\ (sp = None \/ exists j, sp = Some (TWorker (WRun j)))) as Hl.
    { destruct th as [pc|pc|pc|l|]; cbn [thread_step].
      - pose proof (fire_leaves (shared m) Hheap Hids (now m) (i_outside i) pc (Hfits _ Hth)) as Hl. rewrite Ho.
        destruct (fire_step _ _ _ _ _) as [[[s pc'] sp] lg]. split; [by apply Done_as_thread|]. destruct sp; eauto.
      - pose proof (worker_leaves (shared m) Hheap Hids (now m) (i_run i) pc (Hfits _ Hth)) as Hl. rewrite Ho.
        destruct (worker_step _ _ _ _ _) as [[s pc'] lg]. split; [done|by left].
      - pose proof (admin_leaves (shared m) Hheap Hids (i_uninstalled i) pc (Hfits _ Hth)) as Hl. rewrite Ho.
        destruct (admin_step _ _ _ _) as [s pc']. split; [done|by left].
      - by destruct (proj2 (proj2 (proj2 (Hfits _ Hth))) l).
      - split; [|by left]. apply leaves_still; try done. by apply fits_free. }
    destruct (thread_step _ _ _ _) as [[[s th'] sp] lg]. destruct Hl as [Hl Hsp]. intros [= <- _]. cbn.
    apply (kept_leaves _ _ _ _ _ th' Hk Hl).
    + intros x [Hx|Hx]%elem_of_app; [right; apply elem_of_app; by left|].
      destruct (elem_insert _ _ _ th' _ En Hx) as [->|?]; [by left|right]. apply elem_of_app. right. apply elem_of_app. by left.
    + intros x [Hx|[Hx|Hx]%elem_of_app]%elem_of_app; [right; left; apply elem_of_app; by left| |].
      * apply list_elem_of_lookup in Hx as [k Hx]. apply list_lookup_insert_Some in Hx as [(_ & -> & _)|[_ Hx]]; [by left|].
        right; left. apply elem_of_app. right. by eapply list_elem_of_lookup_2.
      * right; right. destruct Hsp as [->|[j ->]]; [by apply elem_of_nil in Hx|]. apply list_elem_of_singleton in Hx as ->. by exists j.
    + left. apply elem_of_app. right. apply elem_of_app. left. by eapply elem_inserted.
  - destruct (GetScheduledJob _ _ _); intros [= <- _]; [|exact Hk]. apply (kept_spawn _ _ _ Hk).
    + intros th [?|?]%elem_of_app; apply elem_of_app; [by left|right; apply elem_of_app; by left].
    + intros th [?|[?| ->%list_elem_of_singleton]%elem_of_app]%elem_of_app; [left; apply elem_of_app; by left|left; apply elem_of_app; by right|].
      right. by apply fits_free.
  - rename Ho into Hfree. destruct (create_job _ _ _ _) as [j|] eqn:Ej; [|by intros [= <- _]].
    destruct (create_job_row _ _ _ _ _ Ej) as [Hid Ht]. rewrite <- Hid in Hfree.
    unfold CreateScheduledJob. destruct (bool_decide _); [by intros [= <- _]|]. destruct (if ok then rows (shared m) !! ID j else Some j) eqn:Eg; intros [= <- _]; [exact Hk|].
    assert (rows (shared m) !! ID j = None) as Hn by (by destruct ok). cbn. set (new := match Enabled j with true => _ | false => _ end).
    constructor; [exact Hheap| | |].
    + intros id j'. cbn. rewrite lookup_insert_Some. intros [[<- <-]|[_ ?]]; [done|by apply Hids].
    + assert (forall th, th ∈ everyone m -> fits (<[ID j := j]> (rows (shared m))) th) as Hold.
      { intros th Hth. destruct (Hfits th Hth) as (F1 & F2 & F3 & F4). specialize (Hfree th Hth). split_and!; [done| | |done].
        - intros j' Hj' row. rewrite lookup_insert_Some. intros [[E _]|[_ ?]]; [|by apply F2]. destruct Hfree. apply elem_of_app. left.
          rewrite E. by apply list_elem_of_fmap_2.
        - intros id ->. rewrite lookup_insert_ne; [by apply F3|]. intros <-. apply Hfree. by left. }
      intros th [Hth|[Hth|Hth]%elem_of_app]%elem_of_app; [apply Hold, elem_of_app; by left|apply Hold, elem_of_app; by right|].
      subst new. destruct (Enabled j); [|by apply elem_of_nil in Hth]. destruct (NextRunAt j) eqn:En; [|by apply elem_of_nil in Hth].
      apply list_elem_of_singleton in Hth as ->. split_and!; [cbn; by rewrite En| |done|done].
      intros j' ->%list_elem_of_singleton row. cbn. rewrite lookup_insert_eq. intros [= <-]. by split_and!.
    + intros id r. cbn. rewrite lookup_insert_Some. intros [[<- <-]|[_ Hr]] Ha.
      * right. exists (TAdmin (AArm j)). split; [|by left]. apply elem_of_app. right. apply elem_of_app. right. subst new.
        destruct Ha as [He Ha]. rewrite He. destruct (NextRunAt j) eqn:En; [by left|]. by destruct (Ht (conj He Ha)).
      * destruct (Hhere id r Hr Ha) as [?|(th & Hth & Hc)]; [by left|right]. exists th. split; [|done].
        apply elem_of_app in Hth as [?|?]; apply elem_of_app; [by left|right; apply elem_of_app; by left].
  - intros [= <- _]. apply (kept_spawn _ _ _ Hk).
    + intros th [?|?]%elem_of_app; apply elem_of_app; [by left|right; apply elem_of_app; by left].
    + intros th [?|[?|Hth]%elem_of_app]%elem_of_app; [left; apply elem_of_app; by left|left; apply elem_of_app; by right|].
      destruct (bool_decide _); [by apply elem_of_nil in Hth|]. apply list_elem_of_singleton in Hth as ->. right. by apply fits_free.
Qed.

Lemma kept_run ls : forall m m' log, kept (shared m) (everyone m) -> orderly_run m ls -> run m ls = Some (m', log) -> kept (shared m') (everyone m').
Proof.
  induction ls as [|l ls IH]; intros m m' log Hk Ho; cbn [run]; [by intros [= <- _]|]. destruct Ho as [Ho Hrest].
  destruct (step m l) as [[m1 lg]|] eqn:E; [|done]. cbn. destruct (run m1 ls) as [[m2 lg2]|] eqn:E2; [|done]. cbn.
  intros [= <- _]. eapply IH; [|exact Hrest|exact E2]. by eapply kept_step.
Qed.

(** C39: While store calls are answered, no one reloads, only the scheduler and its
    handlers write rows, and no job is created under an id that a fire or handler still
    has in hand - a deletion of that id included: over any interleaving of the loop,
    fires by hand, workers, creations and deletions, every enabled job with a next run
    is on the heap, or a fire of it, or the handler that creates it, is about to put it
    there. *)
Theorem no_job_lost (t : Z) (r : gmap string ScheduledJob) (order : list string) (ls : list label) (m : Machine) (log : list event)
    (Hids : forall id j, r !! id = Some j -> ID j = id) (Horder : forall id, is_Some (r !! id) -> id ∈ order)
    (Htimed : forall id j, r !! id = Some j -> armable j -> NextRunAt j <> None)
    (Horderly : orderly_run (started t r order) ls) (Hrun : run (started t r order) ls = Some (m, log)) :
  forall id j, rows (shared m) !! id = Some j -> armable j ->
    id ∈ ids (jobs (shared m)) \/ exists th, th ∈ everyone m /\ id ∈ carries th.
Proof.
  assert (kept (shared m) (everyone m)) as [_ _ _ H]; [|exact H]. eapply kept_run; [|exact Horderly|exact Hrun].
  constructor; cbn; [apply Reload_ok|exact Hids|by intros th ?%elem_of_nil|].
  intros id j Hj Ha. left. destruct (NextRunAt j) as [n|] eqn:En; [|by destruct (Htimed id j Hj Ha)].
  rewrite <- (Hids id j Hj). apply (proj2 (Reload_ok _) j n); [|apply Ha|done].
  apply list_elem_of_omap. exists id. split; [|done]. apply Horder. by rewrite Hj.
Qed.

(** ** One fire, nothing in between *)

Definition async (kind status : string) (err : option string) : bool :=
  bool_decide (kind = KindWorker) && bool_decide (status = "running") && bool_decide (err = None).

Lemma UpdateScheduledJob_there s j row : rows s !! ID j = Some row ->
  UpdateScheduledJob true s j = (with_rows (<[ID j := j]> (rows s)) s, true).
Proof. unfold UpdateScheduledJob. by intros ->. Qed.

Lemma fire_settles t o s id j : rows s !! id = Some j -> ID j = id ->
  let '(status, err, log) := dispatch o (with_running t j) in
  let next := next_of (Kind j) (Spec j) t in
  let j1 := with_running t j in
  let j2 := with_outcome status (error_text err) next j1 in
  fire t o s id =
    (let s' := with_rows (<[id := if async (Kind j) status err then j1 else j2]> (rows s)) s in
     match Enabled j, next with true, Some n => kick (with_jobs (upsertByID (jobs s) j2 n) s') | _, _ => s' end,
     log ++ [Audited id status]).
Proof.
  intros Hj <-. unfold fire. cbn [fire_steps fire_step]. unfold GetScheduledJob at 1. rewrite Hj. cbn -[lookup insert].
  rewrite (UpdateScheduledJob_there s _ j) by exact Hj. cbn -[lookup insert].
  destruct (dispatch o _) as [[status err] log] eqn:Ed. cbn -[lookup insert]. unfold GetScheduledJob. cbn -[lookup insert].
  rewrite lookup_insert_eq. cbn -[lookup insert].
  fold (async (Kind j) status err). destruct (async (Kind j) status err); cbn -[lookup insert];
    [|rewrite (UpdateScheduledJob_there _ _ (with_running t j)) by apply lookup_insert_eq; cbn -[lookup insert]; rewrite insert_insert_eq];
    (destruct (Enabled j); cbn -[lookup insert]; [|by rewrite ?app_nil_r]); destruct (next_of _ _ _); cbn -[lookup insert]; by rewrite ?app_nil_r.
Qed.

Lemma NextRun_later kind spec t n : NextRun kind spec t = Ok n -> t < n.
Proof.
  assert (forall n, nextCronRun spec t = Ok n -> t < n) as Hc.
  { intros n' H. pose proof (nextCronRun_first spec t) as Hf. rewrite H in Hf. destruct Hf as (? & ? & ? & ?). done. }
  assert (forall n, nextIntervalRun spec t = Ok n -> t < n) as Hi.
  { intros n'. unfold nextIntervalRun. destruct (ParseDuration _) as [d|]; [|done]. destruct (d <=? 0) eqn:E; [done|]. intros [= <-]. lia. }
  unfold NextRun. destruct (_ || _).
  - destruct (nextCronRun spec t) eqn:E; [|done]. intros [= <-]. by apply Hc.
  - destruct (bool_decide _); [apply Hi|]. destruct (bool_decide _).
    + destruct (nextCronRun spec t) eqn:E; [|apply Hi]. intros [= <-]. by apply Hc.
    + by destruct (_ || _).
Qed.

(** However its dispatch ends, a fire leaves an enabled job whose spec has a next run
    on the heap, once, strictly after now, wakes the loop, and touches no other entry. *)
Theorem fire_rearms (t : Z) (o : outside) (s : Shared) (id : string) (j : ScheduledJob) (m : gmap string pendingJob)
    (Hrep : rep (jobs s) m) (Hrow : rows s !! id = Some j) (Hid : ID j = id) (Harm : armable j) :
  exists pj, rep (jobs (fst (fire t o s id))) (<[id := pj]> m) /\ t < nextRun pj /\ kicked (fst (fire t o s id)) = true.
Proof.
  pose proof (fire_settles t o s id j Hrow Hid) as Hf. destruct (dispatch o _) as [[status err] log]. cbv zeta in Hf.
  destruct Harm as [He Ha]. destruct (Ha t) as [n Hn]. rewrite He, Hn in Hf. rewrite Hf. cbn [fst kicked kick jobs with_jobs].
  eexists. split_and!; [rewrite <- Hid; by apply (upsertByID_rep _ _ (with_outcome _ _ _ (with_running _ _)))| |done].
  cbn. unfold next_of in Hn. destruct (NextRun _ _ _) eqn:E; [|done]. injection Hn as <-. by eapply NextRun_later.
Qed.

(** ** Runs *)

Section Runs.
Definition minute : Z := 60000000000.

Definition five_minutes (id : string) (next : Z) : ScheduledJob := {|
  ID := id; Name := id; Kind := KindInterval; Spec := "5m"; Command := "true"; ArgsJSON := "[]"; EnvJSON := "{}"; CWD := "";
  Enabled := true; NativeID := ""; WorkerID := ""; LastRunAt := None; NextRunAt := Some next; LastStatus := ""; LastError := "" |}.

Definition quiet : outside := {|
  o_approve := None; o_command := None; o_args_error := ""; o_env_error := ""; o_worker_exec := true; o_lookup := None;
  o_running := Ok 0; o_prune := Some None; o_brw := Some None |}.

Definition good : input := {| i_ok := true; i_outside := quiet; i_run := {| r_error := None; r_found := None; r_expired := None |};
  i_uninstalled := true; i_timer := false |}.
Definition bad : input := {| i_ok := false; i_outside := quiet; i_run := i_run good; i_uninstalled := true; i_timer := false |}.

Definition one : gmap string ScheduledJob := {["a" := five_minutes "a" minute]}.

(** The loop looks, is kicked, looks and sleeps; a minute later it pops the job. *)
Definition first_minute : list label := [Loop good; Loop good; Loop good; Tick minute].

Definition a_fires : list label := first_minute ++ repeat (Loop good) 9.

Lemma a_fires_run : option_map snd (run (started 0 one ["a"]) a_fires) = Some [Ran "a" []; Audited "a" "success"].
Proof. vm_compute. reflexivity. Qed.

Lemma due_job_wakes_witness : exists m log, run (started 0 one ["a"]) first_minute = Some (m, log) /\
  ((forall i, is_Some (loop_step i m)) \/ exists th, th ∈ threads m /\ kicking th).
Proof.
  do 2 eexists. split; [vm_compute; reflexivity|].
  apply (due_job_wakes 0 one ["a"] first_minute _ [] {| job := five_minutes "a" minute; nextRun := minute |});
    [vm_compute; reflexivity|cbn; by left|done].
Defined.

Lemma one_cases (P : string -> ScheduledJob -> Prop) : P "a" (five_minutes "a" minute) -> forall id j, one !! id = Some j -> P id j.
Proof. intros H id j. unfold one. by intros [<- <-]%lookup_singleton_Some. Qed.

Lemma no_job_lost_witness : exists m log, run (started 0 one ["a"]) (take 8 a_fires) = Some (m, log) /\
  ("a" ∈ ids (jobs (shared m)) \/ exists th, th ∈ everyone m /\ "a" ∈ carries th).
Proof.
  do 2 eexists. split; [vm_compute; reflexivity|].
  eapply (no_job_lost 0 one ["a"] (take 8 a_fires) _ []).
  - exact (one_cases (fun id j => ID j = id) eq_refl).
  - intros id [j Hj]. revert id j Hj. apply (one_cases (fun id _ => id ∈ ["a"])). by left.
  - by apply (one_cases (fun _ j => armable j -> NextRunAt j <> None)).
  - vm_compute. by split_and!.
  - vm_compute. reflexivity.
  - vm_compute. reflexivity.
  - split; [done|]. intros t. eexists. vm_compute. reflexivity.
Defined.

(** *** What the code does not do *)

(** A store call that fails in a fire, and the enabled job is on the heap no more,
    nobody carries it, its row says when it was to run next: until a reload it does not
    fire again. *)
Lemma lost_on_store_error : exists m log, run (started 0 one ["a"]) (first_minute ++ [Loop good; Loop good; Loop bad]) = Some (m, log) /\
  jobs (shared m) = [] /\ everyone m = [] /\ rows (shared m) !! "a" = Some (five_minutes "a" minute) /\ loop m = LWait.
Proof. do 2 eexists. split; [vm_compute; reflexivity|]. by vm_compute. Qed.

(** The same when the status "running" was written: the row stays at it. *)
Lemma stuck_running : exists m log,
  run (started 0 one ["a"]) (first_minute ++ [Loop good; Loop good; Loop good; Loop good; Loop good; Loop bad]) = Some (m, log) /\
  jobs (shared m) = [] /\ everyone m = [] /\ LastStatus <$> rows (shared m) !! "a" = Some "running".
Proof. do 2 eexists. split; [vm_compute; reflexivity|]. by vm_compute. Qed.

(** Two jobs overdue at boot: one fires; the other is put off. *)
Definition two : gmap string ScheduledJob := {["a" := five_minutes "a" minute; "b" := five_minutes "b" minute]}.

Lemma catch_up_fires_one : snd (catchUp (2 * minute) quiet (fun _ => false) (shared (started 0 two ["a"; "b"]))) =
  [Ran "a" []; Audited "a" "success"].
Proof. vm_compute. reflexivity. Qed.

(** The loop slept until the job "a", which was deleted as the timer fired: the job
    "b", an hour away, fires now. *)
Definition a_and_later : gmap string ScheduledJob := {["a" := five_minutes "a" minute; "b" := five_minutes "b" (60 * minute)]}.

Lemma fires_early : option_map snd (run (started 0 a_and_later ["a"; "b"])
    (first_minute ++ [CallDelete "a"; Thread 0 good; Thread 0 good; Loop good; Thread 0 good; Loop good] ++ repeat (Loop good) 7)) =
  Some [Ran "b" []; Audited "b" "success"].
Proof. vm_compute. reflexivity. Qed.

(** A reload reads the rows, a job is created and armed, the reload's heap replaces it. *)
Definition new_args : ScheduleCreateArgs := {| a_ID := "b"; a_Name := "b"; a_Kind := KindInterval; a_Spec := "5m"; a_Command := "true";
  a_ArgsJSON := "[]"; a_EnvJSON := "{}"; a_CWD := ""; a_Enabled := None |}.

Lemma reload_drops_new_job : exists m log,
  run (started 0 one ["a"]) [CallReload ["a"]; CallCreate new_args "" "" true; Thread 1 good; Thread 1 good; Thread 0 good] = Some (m, log) /\
  ids (jobs (shared m)) = ["a"] /\ is_Some (rows (shared m) !! "b") /\ threads m = [TDone; TDone].
Proof. do 2 eexists. split; [vm_compute; reflexivity|]. vm_compute. split_and!; [done|by eexists|done]. Qed.

(** A job is created again under its id while its deletion is between the row and the
    heap: the deletion takes the new entry off the heap. *)
Definition same_id : ScheduleCreateArgs := {| a_ID := "a"; a_Name := "a"; a_Kind := KindInterval; a_Spec := "5m"; a_Command := "true";
  a_ArgsJSON := "[]"; a_EnvJSON := "{}"; a_CWD := ""; a_Enabled := None |}.

Lemma delete_drops_new_job : exists m log j,
  run (started 0 one ["a"]) [CallDelete "a"; Thread 0 good; Thread 0 good; CallCreate same_id "" "" true; Thread 1 good; Thread 1 good;
    Thread 0 good; Thread 0 good] = Some (m, log) /\
  rows (shared m) !! "a" = Some j /\ armable j /\ NextRunAt j = Some (5 * minute) /\
  jobs (shared m) = [] /\ threads m = [TDone; TDone] /\ loop m = LWait.
Proof. do 3 eexists. split; [vm_compute; reflexivity|]. split; [vm_compute; reflexivity|].
  split; [split; [done|intros t; eexists; vm_compute; reflexivity]|].
  by vm_compute.
Qed.

(** A worker's run outlasts a reload: the row still has the old next run, and the
    worker starts a second time. *)
Definition worker_job : ScheduledJob := {|
  ID := "w"; Name := "w"; Kind := KindWorker; Spec := "5m"; Command := ""; ArgsJSON := "[]"; EnvJSON := "{}"; CWD := "";
  Enabled := true; NativeID := ""; WorkerID := "w1"; LastRunAt := None; NextRunAt := Some minute; LastStatus := ""; LastError := "" |}.

Lemma reload_refires_running_worker : option_map snd (run (started 0 {["w" := worker_job]} ["w"])
    (first_minute ++ repeat (Loop good) 8 ++ [CallReload ["w"]; Thread 1 good] ++ repeat (Loop good) 6)) =
  Some [Spawned "w"; Audited "w" "running"; Spawned "w"; Audited "w" "running"].
Proof. vm_compute. reflexivity. Qed.

(** Disabled rows of the two built-in kinds run all the same. *)
Lemma disabled_still_runs (j : ScheduledJob) : Kind j = KindAuditPrune -> fst (fst (dispatch quiet j)) = "success".
Proof. intros H. unfold dispatch. by rewrite H. Qed.
End Runs.
