(* ===== verification/WorkerLoop.v ===== *)
(** The worker run: [internal/workers/runner/loop.go], the caps of deps.go and
    runner.go, the dispatcher of cmd/mcplexer/workers_dispatcher.go.

    [runLoop] is a machine: a program counter and the [loopState] that changes; each
    step takes what the adapter, the dispatcher, the clock and the context answer, and
    the caps may be replaced between any two steps, as RefreshRunCaps does.  The map a
    tool call carries and a tool's schema are given encoded.  Costs, the live event bus,
    the isolated worktree and the texts of errors (constructors here) are left out;
    token counts do not wrap. *)

From Stdlib Require Import Ascii String.
From stdpp Require Import base list option strings pretty sets.
From S2P Require Import Prelude GoStrings GoJson Gates.

#[local] Open Scope string_scope.
#[local] Open Scope list_scope.
#[local] Open Scope Z_scope.

(** ** Data *)

Definition StatusSuccess := "success".
Definition StatusFailure := "failure".
Definition StatusCapExceeded := "cap_exceeded".
Definition StatusAwaitingApproval := "awaiting_approval".
Definition StatusCancelled := "cancelled".
Definition StatusBlocked := "blocked".
Definition ExecModePropose := "propose".

Record ToolCall := { tc_ID : string; tc_Name : string; tc_Input : string }.

Record Message := {
  Role : string; Content : string; ToolCalls : list ToolCall; ToolUseID : string; ToolResult : string }.

Record ToolSchema := { ts_Name : string; ts_Description : string; ts_InputSchema : string }.

Record SendResponse := { Text : string; resp_ToolCalls : list ToolCall; InputTokens : Z; OutputTokens : Z }.

Record ToolCallResult := { OutputJSON : string; IsError : bool; WriteClass : bool }.

Record Caps := {
  MaxIterations : Z; MaxToolCalls : Z; MaxWallClock : Z;
  MaxOutputTokens : Z; MaxInputTokens : Z; ProgressInterval : Z }.

Definition DefaultMaxInputTokens : Z := 200000.

Definition applyDefaults (c : Caps) : Caps := {|
  MaxIterations := if MaxIterations c <=? 0 then 12 else MaxIterations c;
  MaxToolCalls := if MaxToolCalls c <=? 0 then 50 else MaxToolCalls c;
  MaxWallClock := if MaxWallClock c <=? 0 then 300 * second else MaxWallClock c;
  MaxOutputTokens := if MaxOutputTokens c <=? 0 then 4096 else MaxOutputTokens c;
  MaxInputTokens := if MaxInputTokens c <=? 0 then DefaultMaxInputTokens else MaxInputTokens c;
  ProgressInterval := ProgressInterval c |}.

(** The caps of a worker's row; zero for none. *)
Record WorkerCaps := { w_MaxToolCalls : Z; w_MaxOutputTokens : Z; w_MaxWallClockSeconds : Z; w_MaxInputTokens : Z }.

(** The caps of its runs, and the cap on all the output of one; the seconds are
    multiplied in int64. *)
Definition mergeWorkerCaps (base : Caps) (w : WorkerCaps) : Caps * Z :=
  ({| MaxIterations := if (0 <? w_MaxToolCalls w) && (MaxIterations base <? w_MaxToolCalls w) then w_MaxToolCalls w else MaxIterations base;
      MaxToolCalls := if 0 <? w_MaxToolCalls w then w_MaxToolCalls w else MaxToolCalls base;
      MaxWallClock := if 0 <? w_MaxWallClockSeconds w then wrap64 (w_MaxWallClockSeconds w * second) else MaxWallClock base;
      MaxOutputTokens := MaxOutputTokens base;
      MaxInputTokens := if 0 <? w_MaxInputTokens w then w_MaxInputTokens w else MaxInputTokens base;
      ProgressInterval := ProgressInterval base |},
   if 0 <? w_MaxOutputTokens w then w_MaxOutputTokens w else 0).

(** What a run does not change. *)
Record run_config := {
  ExecMode : string; systemPrompt : string; tools : list ToolSchema; startedAt : Z; preApprovedTools : list string }.

Record loopState := {
  caps : Caps; maxLifetimeOutputTokens : Z;
  messages : list Message; iteration : Z; toolCallCount : Z; inputTokens : Z; outputTokens : Z;
  consolidationsPerformed : Z; pendingApproval : option (string * string); lastProgressEmit : Z }.

Definition newLoopState (userPrompt : string) (c : Caps) (lifetime : Z) : loopState := {|
  caps := c; maxLifetimeOutputTokens := lifetime;
  messages := if bool_decide (userPrompt = "") then []
              else [{| Role := "user"; Content := userPrompt; ToolCalls := []; ToolUseID := ""; ToolResult := "" |}];
  iteration := 0; toolCallCount := 0; inputTokens := 0; outputTokens := 0;
  consolidationsPerformed := 0; pendingApproval := None; lastProgressEmit := 0 |}.

Definition updateCaps (c : Caps) (lifetime : Z) (s : loopState) : loopState := {|
  caps := c; maxLifetimeOutputTokens := lifetime; messages := messages s; iteration := iteration s; toolCallCount := toolCallCount s;
  inputTokens := inputTokens s; outputTokens := outputTokens s; consolidationsPerformed := consolidationsPerformed s;
  pendingApproval := pendingApproval s; lastProgressEmit := lastProgressEmit s |}.

Definition add_messages (l : list Message) (s : loopState) : loopState := {|
  caps := caps s; maxLifetimeOutputTokens := maxLifetimeOutputTokens s; messages := messages s ++ l; iteration := iteration s;
  toolCallCount := toolCallCount s; inputTokens := inputTokens s; outputTokens := outputTokens s;
  consolidationsPerformed := consolidationsPerformed s; pendingApproval := pendingApproval s; lastProgressEmit := lastProgressEmit s |}.

(** One more turn, with its tokens. *)
Definition add_turn (i o : Z) (s : loopState) : loopState := {|
  caps := caps s; maxLifetimeOutputTokens := maxLifetimeOutputTokens s; messages := messages s; iteration := iteration s + 1;
  toolCallCount := toolCallCount s; inputTokens := inputTokens s + i; outputTokens := outputTokens s + o;
  consolidationsPerformed := consolidationsPerformed s; pendingApproval := pendingApproval s; lastProgressEmit := lastProgressEmit s |}.

Definition add_call (consolidation : bool) (s : loopState) : loopState := {|
  caps := caps s; maxLifetimeOutputTokens := maxLifetimeOutputTokens s; messages := messages s; iteration := iteration s;
  toolCallCount := toolCallCount s + 1; inputTokens := inputTokens s; outputTokens := outputTokens s;
  consolidationsPerformed := consolidationsPerformed s + (if consolidation then 1 else 0);
  pendingApproval := pendingApproval s; lastProgressEmit := lastProgressEmit s |}.

Definition set_pendingApproval (name input : string) (s : loopState) : loopState := {|
  caps := caps s; maxLifetimeOutputTokens := maxLifetimeOutputTokens s; messages := messages s; iteration := iteration s;
  toolCallCount := toolCallCount s; inputTokens := inputTokens s; outputTokens := outputTokens s;
  consolidationsPerformed := consolidationsPerformed s; pendingApproval := Some (name, input); lastProgressEmit := lastProgressEmit s |}.

Definition progress_emitted (s : loopState) : loopState := {|
  caps := caps s; maxLifetimeOutputTokens := maxLifetimeOutputTokens s; messages := messages s; iteration := iteration s;
  toolCallCount := toolCallCount s; inputTokens := inputTokens s; outputTokens := outputTokens s;
  consolidationsPerformed := consolidationsPerformed s; pendingApproval := pendingApproval s; lastProgressEmit := toolCallCount s |}.

(** Why a run ended, for its error text. *)
Inductive cap_error :=
| NoError
| MaxIterationsExceeded (cap : Z)
| MaxToolCallsExceeded (cap : Z)
| WallClockExceeded (cap : Z)
| InputTokensExceeded (used cap : Z)
| OutputTokensExceeded (used cap : Z)
| EstimateExceeded (used next cap : Z)
| AdapterSend (e : string)
| OperatorReason (reason : string)
| ContextCancelled (e : string).

Record loopOutcome := { status : string; outputText : string; errorText : cap_error }.

(** ** Texts *)

(** [strconv.Quote]; runes beyond ASCII count as printable. *)
Definition quote_byte (a : ascii) : string :=
  let n := N_of_ascii a in
  if bool_decide (n = 34)%N then String "\" (String (ascii_of_N 34) "")
  else if bool_decide (a = "\"%char) then "\\"
  else if bool_decide (n = 7)%N then "\a" else if bool_decide (n = 8)%N then "\b" else if bool_decide (n = 12)%N then "\f"
  else if bool_decide (n = 10)%N then "\n" else if bool_decide (n = 13)%N then "\r" else if bool_decide (n = 9)%N then "\t"
  else if bool_decide (n = 11)%N then "\v"
  else if (n <? 32)%N || bool_decide (n = 127)%N then "\x" +:+ String (hex_digit (n / 16)) (String (hex_digit (n mod 16)) "")
  else String a "".

Definition dq : string := String (ascii_of_N 34) "".

Definition Quote (s : string) : string := dq +:+ String.concat "" (map quote_byte (list_ascii_of_string s)) +:+ dq.

(** The ellipsis takes three bytes. *)
Definition ellipsis : string := "…".

Definition truncate (s : string) (max : Z) : string :=
  if (max <=? 0) || (Z.of_nat (String.length s) <=? max) then TrimSpace s
  else TrimSpace (substring 0 (Z.to_nat max) s) +:+ ellipsis.

Definition maxCapExceededOutputBytes : Z := 64 * 1024.

Definition boundedCapExceededOutput (text : string) (tokenCap : Z) : string :=
  let limit := if (0 <? tokenCap) && (tokenCap <? maxCapExceededOutputBytes / 8)
               then Z.max 4096 (tokenCap * 8)
               else maxCapExceededOutputBytes in
  truncate text (limit - Z.of_nat (String.length ellipsis)).

Definition maxModelToolResultBytes : Z := 32 * 1024.

Definition truncation_marker (len : Z) : string :=
  String "010" (String "010" "[mcplexer: tool result truncated from ") +:+ pretty len +:+ " to " +:+ pretty maxModelToolResultBytes +:+
  " bytes for worker model context. Use a narrower query or write large output to a file.]".

Definition trimToolResultForModel (raw : string) : string :=
  let len := Z.of_nat (String.length raw) in
  if len <=? maxModelToolResultBytes then raw
  else let marker := truncation_marker len in
       let keep := maxModelToolResultBytes - Z.of_nat (String.length marker) in
       if keep <=? 0 then marker else substring 0 (Z.to_nat keep) raw +:+ marker.

(** ** Caps *)

Definition estimatedCharsPerToken : Z := 4.

Definition len (s : string) : Z := Z.of_nat (String.length s).

(** The bytes of an encoded map; nothing for an empty one. *)
Definition encoded_len (s : string) : Z := if bool_decide (s ∈ ["{}"; "null"; ""]) then 0 else len s.

Definition sum (l : list Z) : Z := fold_right Z.add 0 l.

Definition message_len (m : Message) : Z :=
  len (Content m) + len (ToolUseID m) + len (ToolResult m) +
  sum (map (fun c => len (tc_ID c) + len (tc_Name c) + encoded_len (tc_Input c)) (ToolCalls m)).

Definition estimateNextInputTokens (cfg : run_config) (s : loopState) : Z :=
  let chars := len (systemPrompt cfg) + sum (map message_len (messages s)) +
               sum (map (fun t => len (ts_Name t) + len (ts_Description t) + encoded_len (ts_InputSchema t)) (tools cfg)) in
  if chars <=? 0 then 0 else (chars + estimatedCharsPerToken - 1) / estimatedCharsPerToken.

Definition capped (e : cap_error) : loopOutcome := {| status := StatusCapExceeded; outputText := ""; errorText := e |}.

Definition checkCaps (cfg : run_config) (now : Z) (s : loopState) : option loopOutcome :=
  let c := caps s in
  if MaxIterations c <=? iteration s then Some (capped (MaxIterationsExceeded (MaxIterations c)))
  else if MaxToolCalls c <=? toolCallCount s then Some (capped (MaxToolCallsExceeded (MaxToolCalls c)))
  else if MaxWallClock c <=? now - startedAt cfg then Some (capped (WallClockExceeded (MaxWallClock c)))
  else if (0 <? MaxInputTokens c) && (MaxInputTokens c <=? inputTokens s)
  then Some (capped (InputTokensExceeded (inputTokens s) (MaxInputTokens c)))
  else if (0 <? maxLifetimeOutputTokens s) && (maxLifetimeOutputTokens s <=? outputTokens s)
  then Some (capped (OutputTokensExceeded (outputTokens s) (maxLifetimeOutputTokens s)))
  else None.

Definition checkNextInputBudget (cfg : run_config) (s : loopState) : option loopOutcome :=
  if MaxInputTokens (caps s) <=? 0 then None
  else let nextInput := estimateNextInputTokens cfg s in
       if inputTokens s + nextInput <? MaxInputTokens (caps s) then None
       else Some (capped (EstimateExceeded (inputTokens s) nextInput (MaxInputTokens (caps s)))).

(** ** Cancellation *)

(** The cause of a cancelled context; its error's text for one that is not ours. *)
Inductive cause := OperatorCancel (reason : string) | WallClock | OtherCause (e : string).

Definition operatorCancelReason (reason : string) : string :=
  if bool_decide (TrimSpace reason = "") then "cancelled by operator" else reason.

Definition ctxCancelOutcome (c : cause) (s : loopState) : loopOutcome :=
  match c with
  | OperatorCancel reason => {| status := StatusCancelled; outputText := ""; errorText := OperatorReason (operatorCancelReason reason) |}
  | WallClock => capped (WallClockExceeded (MaxWallClock (caps s)))
  | OtherCause e => {| status := StatusFailure; outputText := ""; errorText := ContextCancelled e |}
  end.

(** ** The loop *)

Inductive event :=
| Sent (maxTokens : Z)
| AuditDispatch (name : string) (writeClass allowed : bool)
| Dispatched (name input : string)
| Answered (name : string) (writeClass : bool)
| Awaiting (name : string)
| Progressed.

#[export] Instance event_eq_dec : EqDecision event.
Proof. solve_decision. Defined.

Inductive pc :=
| Top                                                       (** context and caps *)
| Budget                                                    (** the estimate of the next input *)
| Send
| Calls (out : list Message) (calls : list ToolCall)        (** the next call of the turn *)
| Dispatching (out : list Message) (call : ToolCall) (calls : list ToolCall)
| Progress
| Finished (o : loopOutcome).

(** The adapter's answer: a response, or an error with what it had of one. *)
Inductive send_answer := Responded (r : SendResponse) | SendFailed (partial : option SendResponse) (e : string).

Inductive label :=
| Go (ctx : option cause) (now : Z)
| Estimate
| Answer (a : send_answer) (ctx : option cause)
| NextCall
| Result (r : result string ToolCallResult)
| Report (mesh : bool)
| RefreshCaps (c : Caps) (lifetime : Z).

Definition tool_message (call : ToolCall) (text : string) : Message := {|
  Role := "tool"; Content := ""; ToolCalls := []; ToolUseID := tc_ID call; ToolResult := text |}.

Definition awaiting (name : string) : loopOutcome := {|
  status := StatusAwaitingApproval; outputText := "propose-mode worker stopped before write tool " +:+ Quote name; errorText := NoError |}.

Section Loop.
Variable Classify : string -> bool.
Variable cfg : run_config.

Definition isPreApproved (toolName : string) : bool := bool_decide (toolName ∈ preApprovedTools cfg).

(** The gate before the dispatch: whether the call must wait for an approval. *)
Definition preDispatchGate (call : ToolCall) : bool :=
  if negb (bool_decide (ExecMode cfg = ExecModePropose)) then false
  else if isPreApproved (tc_Name call) then false
  else Classify (tc_Name call).

Definition send_step (s : loopState) (a : send_answer) (ctx : option cause) : pc * loopState :=
  match a with
  | SendFailed partial e =>
      let s := match partial with Some r => add_turn (InputTokens r) (OutputTokens r) s | None => add_turn 0 0 s end in
      let failed := {| status := StatusFailure; outputText := ""; errorText := AdapterSend e |} in
      (Finished match ctx with
                | Some c => let oc := ctxCancelOutcome c s in
                            if bool_decide (status oc = StatusFailure) then failed else oc
                | None => failed
                end, s)
  | Responded r =>
      let s := add_turn (InputTokens r) (OutputTokens r) s in
      let maxOutput := maxLifetimeOutputTokens s in
      if (0 <? maxOutput) && (maxOutput <=? outputTokens s)
      then (Finished {| status := StatusCapExceeded; outputText := boundedCapExceededOutput (Text r) maxOutput;
                        errorText := OutputTokensExceeded (outputTokens s) maxOutput |}, s)
      else match resp_ToolCalls r with
           | [] => (Finished {| status := StatusSuccess; outputText := TrimSpace (Text r); errorText := NoError |}, s)
           | calls => (Calls [] calls,
                       add_messages [{| Role := "assistant"; Content := Text r; ToolCalls := calls; ToolUseID := ""; ToolResult := "" |}] s)
           end
  end.

Definition call_step (s : loopState) (out : list Message) (calls : list ToolCall) : pc * loopState * list event :=
  match calls with
  | [] => (Progress, add_messages out s, [])
  | call :: calls =>
      if MaxToolCalls (caps s) <=? toolCallCount s
      then (Finished (capped (MaxToolCallsExceeded (MaxToolCalls (caps s)))), s, [])
      else if preDispatchGate call
      then (Finished (awaiting (tc_Name call)), set_pendingApproval (tc_Name call) (tc_Input call) s,
            [AuditDispatch (tc_Name call) true false; Awaiting (tc_Name call)])
      else (Dispatching out call calls, s,
            [AuditDispatch (tc_Name call) (Classify (tc_Name call)) true; Dispatched (tc_Name call) (tc_Input call)])
  end.

Definition answer_step (s : loopState) (out : list Message) (call : ToolCall) (calls : list ToolCall) (r : result string ToolCallResult)
    : pc * loopState * list event :=
  match r with
  | Err e => (Calls (out ++ [tool_message call ("error: " +:+ e)]) calls, add_call false s, [])
  | Ok r =>
      let answered := Answered (tc_Name call) (WriteClass r) in
      if bool_decide (ExecMode cfg = ExecModePropose) && WriteClass r && negb (isPreApproved (tc_Name call))
      then (Finished (awaiting (tc_Name call)), set_pendingApproval (tc_Name call) (tc_Input call) s,
            [answered; AuditDispatch (tc_Name call) true false; Awaiting (tc_Name call)])
      else (Calls (out ++ [tool_message call (trimToolResultForModel (OutputJSON r))]) calls,
            add_call (negb (IsError r) && bool_decide (tc_Name call = "memory__save")) s, [answered])
  end.

(** [maybeEmitProgress] *)
Definition report_step (s : loopState) (mesh : bool) : loopState * list event :=
  let interval := ProgressInterval (caps s) in
  if (interval <=? 0) || negb mesh then (s, [])
  else if toolCallCount s - lastProgressEmit s <? interval then (s, [])
  else (progress_emitted s, [Progressed]).

Definition step (p : pc) (s : loopState) (l : label) : option (pc * loopState * list event) :=
  match l, p with
  | RefreshCaps c lifetime, _ => Some (p, updateCaps c lifetime s, [])
  | Go (Some c) _, Top => Some (Finished (ctxCancelOutcome c s), s, [])
  | Go None now, Top => Some (match checkCaps cfg now s with Some o => Finished o | None => Budget end, s, [])
  | Estimate, Budget => Some (match checkNextInputBudget cfg s with Some o => Finished o | None => Send end, s, [])
  | Answer a ctx, Send => let '(p, s') := send_step s a ctx in Some (p, s', [Sent (MaxOutputTokens (caps s))])
  | NextCall, Calls out calls => Some (call_step s out calls)
  | Result r, Dispatching out call calls => Some (answer_step s out call calls r)
  | Report mesh, Progress => let '(s, log) := report_step s mesh in Some (Top, s, log)
  | _, _ => None
  end.

Fixpoint run (p : pc) (s : loopState) (ls : list label) : option (pc * loopState * list event) :=
  match ls with
  | [] => Some (p, s, [])
  | l :: ls => '(p, s, log) ← step p s l; '(p, s, rest) ← run p s ls; Some (p, s, log ++ rest)
  end.

(** ** The propose gate *)

Definition gated (name : string) : Prop := isPreApproved name = true \/ Classify name = false.

Definition gated_pc (p : pc) : Prop := match p with Dispatching _ call _ => gated (tc_Name call) | _ => True end.

(** An answer that turns out to be a write stops the run. *)
Definition late_writes_stop (p : pc) (s : loopState) (log : list event) : Prop :=
  forall n, Answered n true ∈ log -> isPreApproved n = true \/
    p = Finished (awaiting n) /\ exists input, pendingApproval s = Some (n, input).

Lemma preDispatchGate_passed call : ExecMode cfg = ExecModePropose -> preDispatchGate call = false -> gated (tc_Name call).
Proof.
  intros He. unfold preDispatchGate, gated. rewrite bool_decide_true by done. cbn [negb].
  destruct (isPreApproved _); auto.
Qed.

Lemma call_step_gated s out calls : ExecMode cfg = ExecModePropose ->
  let '(p, s', log) := call_step s out calls in
  gated_pc p /\ (forall n i, Dispatched n i ∈ log -> gated n) /\ (forall n w, Answered n w ∉ log).
Proof.
  intros He. unfold call_step. destruct calls as [|call calls]; [split_and!; [done|by intros ? ? ?%elem_of_nil..]|].
  destruct (_ <=? _); [split_and!; [done|by intros ? ? ?%elem_of_nil..]|]. destruct (preDispatchGate call) eqn:Eg.
  - split_and!; [done|intros n i Hin; set_unfold; naive_solver|intros n w Hin; set_unfold; naive_solver].
  - apply preDispatchGate_passed in Eg; [|done].
    split_and!; [done|intros n i Hin; set_unfold; naive_solver|intros n w Hin; set_unfold; naive_solver].
Qed.

Lemma answer_step_gated s out call calls r : ExecMode cfg = ExecModePropose ->
  let '(p, s', log) := answer_step s out call calls r in
  gated_pc p /\ (forall n i, Dispatched n i ∉ log) /\ late_writes_stop p s' log.
Proof.
  intros He. unfold answer_step, late_writes_stop. destruct r as [r|e]; [|split_and!; [done|by intros ? ? ?%elem_of_nil|by intros ? ?%elem_of_nil]].
  rewrite bool_decide_true by done. cbn [andb]. destruct (WriteClass r) eqn:Ew; cbn [andb].
  - destruct (isPreApproved (tc_Name call)) eqn:Ep; cbn [negb]; (split_and!; [done|intros n i Hin; set_unfold; naive_solver|]);
      intros n Hin; set_unfold; destruct_or? Hin; simplify_eq; [by left|right; split; [done|by eexists]].
  - split_and!; [done|intros n i Hin; set_unfold; naive_solver|intros n Hin; set_unfold; naive_solver].
Qed.

Lemma step_gated p s l p' s' log : ExecMode cfg = ExecModePropose -> gated_pc p -> step p s l = Some (p', s', log) ->
  gated_pc p' /\ (forall n i, Dispatched n i ∈ log -> gated n) /\ late_writes_stop p' s' log.
Proof.
  intros He Hp. assert (forall p s, late_writes_stop p s []) as Hnil by (by intros ? ? ? ?%elem_of_nil).
  assert (forall n i, Dispatched n i ∈ [] -> gated n) as Hno by (by intros ? ? ?%elem_of_nil).
  destruct l as [[c|] now| |a ctx| |r|mesh|c lt], p; cbn [step]; try done.
  - by intros [= <- <- <-].
  - intros [= <- <- <-]. by destruct (checkCaps _ _ _).
  - intros [= <- <- <-]. by destruct (checkNextInputBudget _ _).
  - destruct (send_step s a ctx) as [p s1] eqn:E. intros [= <- <- <-].
    split_and!; [|intros n i Hin; set_unfold; naive_solver|intros n Hin; set_unfold; naive_solver].
    revert E. unfold send_step. destruct a; [|by intros [= <- _]]. destruct (_ && _); [by intros [= <- _]|].
    destruct (resp_ToolCalls r); by intros [= <- _].
  - pose proof (call_step_gated s out calls He) as H. destruct (call_step s out calls) as [[p1 s1] lg]. intros [= <- <- <-].
    destruct H as (H1 & H2 & H3). split_and!; [done|done|]. intros n Hin. by apply H3 in Hin.
  - pose proof (answer_step_gated s out call calls r He) as H. destruct (answer_step s out call calls r) as [[p1 s1] lg].
    intros [= <- <- <-]. destruct H as (H1 & H2 & H3). split_and!; [done| |done]. intros n i Hin. by apply H2 in Hin.
  - unfold report_step. destruct (_ || _); [by intros [= <- <- <-]|]. destruct (_ <? _); [by intros [= <- <- <-]|].
    intros [= <- <- <-]. split_and!; [done|intros n i Hin; set_unfold; naive_solver|intros n Hin; set_unfold; naive_solver].
  - by intros [= <- <- <-].
  - by intros [= <- <- <-].
  - by intros [= <- <- <-].
  - by intros [= <- <- <-].
  - by intros [= <- <- <-].
  - by intros [= <- <- <-].
  - by intros [= <- <- <-].
Qed.

(** A finished run stays finished. *)
Lemma step_finished o s l p' s' log : step (Finished o) s l = Some (p', s', log) ->
  p' = Finished o /\ pendingApproval s' = pendingApproval s /\ log = [].
Proof. destruct l as [[|]| | | | | |]; cbn [step]; try done. by intros [= <- <- <-]. Qed.

Lemma run_finished ls o : forall s p' s' log, run (Finished o) s ls = Some (p', s', log) ->
  p' = Finished o /\ pendingApproval s' = pendingApproval s /\ log = [].
Proof.
  induction ls as [|l ls IH]; intros s p' s' log; cbn [run]; [by intros [= <- <- <-]|].
  destruct (step _ _ _) as [[[p1 s1] lg]|] eqn:E; [|done]. cbn. apply step_finished in E as (-> & Hp & ->).
  destruct (run _ _ ls) as [[[p2 s2] lg2]|] eqn:E2; [|done]. cbn. apply IH in E2 as (-> & Hp2 & ->).
  intros [= <- <- <-]. by rewrite Hp2.
Qed.

Lemma run_gated ls : forall p s p' s' log, ExecMode cfg = ExecModePropose -> gated_pc p -> run p s ls = Some (p', s', log) ->
  (forall n i, Dispatched n i ∈ log -> gated n) /\ late_writes_stop p' s' log.
Proof.
  induction ls as [|l ls IH]; intros p s p' s' log He Hp; cbn [run];
    [intros [= <- <- <-]; split; [by intros ? ? ?%elem_of_nil|by intros ? ?%elem_of_nil]|].
  destruct (step p s l) as [[[p1 s1] lg]|] eqn:E; [|done]. cbn. destruct (run p1 s1 ls) as [[[p2 s2] lg2]|] eqn:E2; [|done].
  cbn. intros [= <- <- <-]. destruct (step_gated _ _ _ _ _ _ He Hp E) as (H1 & H2 & H3). destruct (IH _ _ _ _ _ He H1 E2) as [H4 H5].
  split; [intros n i [?|?]%elem_of_app; eauto|]. intros n [Hin|Hin]%elem_of_app; [|by apply H5].
  destruct (H3 n Hin) as [?|(-> & input & Hi)]; [by left|right]. apply run_finished in E2 as (-> & Hp2 & _).
  split; [done|]. exists input. congruence.
Qed.

(** ** How long a run can be *)

Definition is_dispatch (e : event) : bool := match e with Dispatched _ _ => true | _ => false end.
Definition is_send (e : event) : bool := match e with Sent _ => true | _ => false end.
Definition is_refresh (l : label) : bool := match l with RefreshCaps _ _ => true | _ => false end.

Definition count {A} (f : A -> bool) (l : list A) : Z := Z.of_nat (length (List.filter f l)).

Lemma count_join {A} (f : A -> bool) l l' : count f (l ++ l') = count f l + count f l'.
Proof. unfold count. rewrite List.filter_app, length_app. lia. Qed.

Section Bounds.
Variables M I : Z.

Definition caps_within (c : Caps) : Prop := MaxToolCalls c <= M /\ MaxIterations c <= I.

(** After [d] dispatches and [n] sends. *)
Definition bounded (p : pc) (s : loopState) (d n : Z) : Prop :=
  caps_within (caps s) /\ n = iteration s /\ n <= I /\ d <= M /\
  match p with
  | Top | Progress | Calls _ _ => d = toolCallCount s
  | Budget | Send => d = toolCallCount s /\ n < I
  | Dispatching _ _ _ => d = toolCallCount s + 1
  | Finished _ => True
  end.

(** What is left: five steps a turn, two a call. *)
Definition left_over (p : pc) (s : loopState) : Z :=
  match p with
  | Finished _ => 0
  | _ => 5 * (I - iteration s) + 2 * (M - toolCallCount s)
  end +
  match p with Top => 3 | Budget => 2 | Send => 1 | Calls _ _ => 5 | Dispatching _ _ _ => 4 | Progress => 4 | Finished _ => 0 end.

Lemma left_over_nonneg p s d n : bounded p s d n -> 0 <= left_over p s.
Proof. intros (_ & -> & H1 & H2 & H3). unfold left_over. destruct p; lia. Qed.

Lemma send_step_bounded s a ctx d n : bounded Send s d n ->
  let '(p', s') := send_step s a ctx in bounded p' s' d (n + 1) /\ left_over p' s' + 1 <= left_over Send s.
Proof.
  intros (Hc & -> & H1 & H2 & -> & H3). unfold send_step, bounded, left_over.
  destruct a as [r|pr e]; [|destruct pr; cbn; split_and!; try done; lia].
  destruct (_ && _); [cbn; split_and!; try done; lia|]. destruct (resp_ToolCalls r); cbn; split_and!; try done; lia.
Qed.

Lemma call_step_bounded s out calls d n : bounded (Calls out calls) s d n ->
  let '(p', s', log) := call_step s out calls in
  bounded p' s' (d + count is_dispatch log) (n + count is_send log) /\ left_over p' s' + 1 <= left_over (Calls out calls) s.
Proof.
  intros (Hc & -> & H1 & H2 & ->). unfold call_step, bounded, left_over, count. pose proof Hc as [Hc1 Hc2].
  destruct calls as [|call calls]; [cbn; split_and!; try done; lia|].
  destruct (Z.leb_spec (MaxToolCalls (caps s)) (toolCallCount s)); [cbn; split_and!; try done; lia|].
  destruct (preDispatchGate call); cbn; split_and!; try done; lia.
Qed.

Lemma answer_step_bounded s out call calls r d n : bounded (Dispatching out call calls) s d n ->
  let '(p', s', log) := answer_step s out call calls r in
  bounded p' s' (d + count is_dispatch log) (n + count is_send log) /\ left_over p' s' + 1 <= left_over (Dispatching out call calls) s.
Proof.
  intros (Hc & -> & H1 & H2 & ->). unfold answer_step, bounded, left_over, count.
  destruct r as [r|e]; [destruct (_ && _ && _)|]; cbn; split_and!; try done; lia.
Qed.

Lemma checkCaps_None now s : checkCaps cfg now s = None -> iteration s < MaxIterations (caps s) /\ toolCallCount s < MaxToolCalls (caps s).
Proof.
  unfold checkCaps. destruct (Z.leb_spec (MaxIterations (caps s)) (iteration s)); [done|].
  destruct (Z.leb_spec (MaxToolCalls (caps s)) (toolCallCount s)); [done|]. lia.
Qed.

Lemma step_bounded p s l p' s' log d n : bounded p s d n ->
  match l with RefreshCaps c _ => caps_within c | _ => True end -> step p s l = Some (p', s', log) ->
  bounded p' s' (d + count is_dispatch log) (n + count is_send log) /\
  left_over p' s' + (if is_refresh l then 0 else 1) <= left_over p s.
Proof.
  intros Hb Hl. pose proof Hb as (Hc & Hn & H1 & H2 & H3). pose proof Hc as [Hc1 Hc2].
  destruct l as [[c|] now| |a ctx| |r|mesh|c lt]; cbn [step is_refresh].
  - destruct p; try done. intros [= <- <- <-]. unfold bounded, left_over, count in *. cbn in *. split_and!; try done; lia.
  - destruct p; try done. intros [= <- <- <-]. destruct (checkCaps cfg now s) eqn:E.
    + unfold bounded, left_over, count in *. cbn in *. split_and!; try done; lia.
    + apply checkCaps_None in E. unfold bounded, left_over, count in *. cbn in *. split_and!; try done; lia.
  - destruct p; try done. intros [= <- <- <-]. destruct H3 as [-> H3].
    destruct (checkNextInputBudget cfg s); unfold bounded, left_over, count in *; cbn in *; split_and!; try done; lia.
  - destruct p; try done. pose proof (send_step_bounded s a ctx d n Hb) as H. destruct (send_step s a ctx) as [p1 s1].
    intros [= <- <- <-]. cbn. by rewrite Z.add_0_r.
  - destruct p; try done. pose proof (call_step_bounded s out calls d n Hb) as H. destruct (call_step s out calls) as [[p1 s1] lg].
    by intros [= <- <- <-].
  - destruct p; try done. pose proof (answer_step_bounded s out call calls r d n Hb) as H.
    destruct (answer_step s out call calls r) as [[p1 s1] lg]. by intros [= <- <- <-].
  - destruct p; try done. destruct (report_step s mesh) as [s1 lg] eqn:E. intros [= <- <- <-].
    assert (caps s1 = caps s /\ iteration s1 = iteration s /\ toolCallCount s1 = toolCallCount s /\
            count is_dispatch lg = 0 /\ count is_send lg = 0) as (E1 & E2 & E3 & E4 & E5).
    { revert E. unfold report_step. destruct (_ || _); [by intros [= <- <-]|]. destruct (_ <? _); by intros [= <- <-]. }
    unfold bounded, left_over, count in *. cbn in *. rewrite E1, E2, E3, E4, E5. split_and!; try done; lia.
  - intros [= <- <- <-]. unfold bounded, left_over, count in *. cbn. destruct p; cbn in *; split_and!; try done; try lia; naive_solver lia.
Qed.

Lemma run_within_caps ls : forall p s p' s' log d n, bounded p s d n ->
  (forall c lt, RefreshCaps c lt ∈ ls -> caps_within c) -> run p s ls = Some (p', s', log) ->
  bounded p' s' (d + count is_dispatch log) (n + count is_send log) /\
  left_over p' s' + count (fun l => negb (is_refresh l)) ls <= left_over p s.
Proof.
  induction ls as [|l ls IH]; intros p s p' s' log d n Hb Hl; cbn [run].
  - intros [= <- <- <-]. unfold count at 1 2 3. cbn. rewrite !Z.add_0_r. by split.
  - destruct (step p s l) as [[[p1 s1] lg]|] eqn:E; [|done]. cbn. destruct (run p1 s1 ls) as [[[p2 s2] lg2]|] eqn:E2; [|done].
    cbn. intros [= <- <- <-].
    destruct (step_bounded p s l p1 s1 lg d n Hb) as [H1 H2]; [destruct l; try done; eapply Hl; by left|done|].
    destruct (IH _ _ _ _ _ _ _ H1 ltac:(intros c lt Hin; eapply Hl; by right) E2) as [H3 H4]. rewrite !count_join, !Z.add_assoc.
    split; [done|]. unfold count in *. destruct (is_refresh l) eqn:Er; cbn [List.filter]; rewrite Er; cbn [negb length] in *; lia.
Qed.
End Bounds.

(** A run that has not finished accepts some answer of whoever it waits for. *)
Lemma step_progress p s : (forall o, p <> Finished o) -> exists l, is_refresh l = false /\ is_Some (step p s l).
Proof.
  intros Hp. destruct p as [| | |out calls|out call calls| |o].
  - exists (Go None 0). split; [done|by eexists].
  - exists Estimate. split; [done|by eexists].
  - exists (Answer (SendFailed None "") None). split; [done|by eexists].
  - exists NextCall. split; [done|by eexists].
  - exists (Result (Err "")). split; [done|by eexists].
  - exists (Report false). split; [done|]. cbn [step]. destruct (report_step _ _). by eexists.
  - by destruct (Hp o).
Qed.
End Loop.

(** ** The dispatcher of the daemon: cmd/mcplexer/workers_dispatcher.go *)

(** The flag of the envelope: the last key that folds to its name; [null] leaves it, a
    value that is no boolean fails the decoding. *)
Definition extractIsError (envelope : string) : bool :=
  match json_parse envelope with
  | Some (JObj l) =>
      default false (fold_left (fun acc '(k, v) =>
        cur ← acc; if EqualFold k "isError" then match v with JBool b => Some b | JNull => Some cur | _ => None end else Some cur)
        l (Some false))
  | _ => false
  end.

Definition worker_surface : list string := ["mcpx__search_tools"; "mcpx__call_tool"; "mcpx__execute_code"].

Definition error_object (text : string) : string := "{" +:+ dq +:+ "error" +:+ dq +:+ ":" +:+ Quote text +:+ "}".

Definition not_in_surface (name : string) : string :=
  "{" +:+ dq +:+ "error" +:+ dq +:+ ":" +:+ dq +:+ "tool " +:+ Quote name +:+
  " is not in the worker tool surface (workers only get mcpx__search_tools + mcpx__call_tool + mcpx__execute_code directly). Discover first, use call_tool for one small independent call, or execute_code for batching/dependencies/filtering/polling/transforms. The worker allowlist gates each target."
  +:+ dq +:+ "}".

(** [scope] is what the worker's scope is refused for, [CallBuiltin] the gateway. *)
Definition dispatchBuiltin (scope : option string) (CallBuiltin : string -> string -> result string string) (name input : string)
    : ToolCallResult :=
  if negb (bool_decide (name ∈ worker_surface))
  then {| OutputJSON := not_in_surface name; IsError := true; WriteClass := false |}
  else let args := if bool_decide (input = "") then "{}" else input in
       match scope with
       | Some e => {| OutputJSON := error_object e; IsError := true; WriteClass := false |}
       | None => match CallBuiltin name args with
                 | Err e => {| OutputJSON := error_object e; IsError := true; WriteClass := false |}
                 | Ok out => {| OutputJSON := out; IsError := extractIsError out; WriteClass := false |}
                 end
       end.

(** No builtin caller wired is the dispatcher's only error. *)
Definition DispatchTool (builtin : option (string -> string -> result string string)) (scope : option string) (name input : string)
    : result string ToolCallResult :=
  match builtin with
  | None => Err "worker dispatcher: BuiltinToolCaller not wired — call SetBuiltinCaller before running workers"
  | Some call => Ok (dispatchBuiltin scope call name input)
  end.

(** ** What holds of every run *)

(** C7: In propose mode a write-class tool is dispatched only when it was approved
    beforehand; should a call only turn out to be a write when it answers, the run ends
    there, waiting for the approval of that call. *)
Theorem propose_gate (Classify : string -> bool) (cfg : run_config) (prompt : string) (c : Caps) (lifetime : Z) (ls : list label)
    (p : pc) (s : loopState) (log : list event)
    (Hpropose : ExecMode cfg = ExecModePropose) (Hrun : run Classify cfg Top (newLoopState prompt c lifetime) ls = Some (p, s, log)) :
  (forall name input, Dispatched name input ∈ log -> isPreApproved cfg name = true \/ Classify name = false) /\
  (forall name, Answered name true ∈ log -> isPreApproved cfg name = true \/
    p = Finished (awaiting name) /\ exists input, pendingApproval s = Some (name, input)).
Proof. by eapply (run_gated Classify cfg ls Top). Qed.

(** C8: While the caps stay within [M] calls and [I] turns, however they are refreshed and
    whatever the model asks for: at most [M] calls are dispatched and [I] requests sent,
    the run takes at most 5 I + 2 M + 3 steps, and until it has ended it can go on. *)
Theorem run_ends (Classify : string -> bool) (cfg : run_config) (prompt : string) (c : Caps) (lifetime M I : Z) (ls : list label)
    (p : pc) (s : loopState) (log : list event)
    (HM : 0 <= M) (HI : 0 <= I) (Hc : caps_within M I c) (Hls : forall c lt, RefreshCaps c lt ∈ ls -> caps_within M I c)
    (Hrun : run Classify cfg Top (newLoopState prompt c lifetime) ls = Some (p, s, log)) :
  count is_dispatch log <= M /\ count is_send log <= I /\
  count (fun l => negb (is_refresh l)) ls <= 5 * I + 2 * M + 3 /\
  ((exists o, p = Finished o) \/ exists l, is_refresh l = false /\ is_Some (step Classify cfg p s l)).
Proof.
  assert (bounded M I Top (newLoopState prompt c lifetime) 0 0) as H0 by (unfold bounded; cbn; split_and!; try done; lia).
  destruct (run_within_caps Classify cfg M I ls _ _ _ _ _ _ _ H0 Hls Hrun) as [H1 H2].
  pose proof (left_over_nonneg M I _ _ _ _ H1). destruct H1 as (_ & H3 & H4 & H5 & _).
  unfold left_over in H2 at 2. cbn in H2, H3, H4, H5. split_and!; [lia..|].
  destruct p as [| | | | | |o]; try (right; by apply step_progress). left. by eexists.
Qed.

(** ** Runs *)

Section Runs.
Definition default_caps : Caps := applyDefaults {|
  MaxIterations := 0; MaxToolCalls := 0; MaxWallClock := 0; MaxOutputTokens := 0; MaxInputTokens := 0; ProgressInterval := 0 |}.

Definition proposing (approved : list string) : run_config := {|
  ExecMode := ExecModePropose; systemPrompt := ""; tools := []; startedAt := 0; preApprovedTools := approved |}.

Definition asks (calls : list ToolCall) : label := Answer (Responded {| Text := ""; resp_ToolCalls := calls; InputTokens := 1; OutputTokens := 1 |}) None.
Definition says (text : string) : label := Answer (Responded {| Text := text; resp_ToolCalls := []; InputTokens := 1; OutputTokens := 1 |}) None.

Definition call_of (name input : string) : ToolCall := {| tc_ID := "1"; tc_Name := name; tc_Input := input |}.

(** The gateway answers every call. *)
Definition gateway (name input : string) : label := Result (DispatchTool (Some (fun _ _ => Ok "{}")) None name input).

Definition turn (name input : string) : list label :=
  [Go None 0; Estimate; asks [call_of name input]; NextCall; gateway name input; NextCall; Report false].

(** A run that stops before its write. *)
Definition stopped_run : list label := [Go None 0; Estimate; asks [call_of "mcpx__execute_code" "{}"]; NextCall].

Lemma propose_gate_witness : exists p s log,
  run IsWriteClass (proposing []) Top (newLoopState "go" default_caps 0) stopped_run = Some (p, s, log) /\
  (forall name input, Dispatched name input ∈ log -> isPreApproved (proposing []) name = true \/ IsWriteClass name = false) /\
  (forall name, Answered name true ∈ log -> isPreApproved (proposing []) name = true \/
    p = Finished (awaiting name) /\ exists input, pendingApproval s = Some (name, input)).
Proof.
  do 3 eexists. split; [vm_compute; reflexivity|].
  apply (propose_gate IsWriteClass (proposing []) "go" default_caps 0 stopped_run); [done|vm_compute; reflexivity].
Defined.

Lemma run_ends_witness : exists p s log,
  run IsWriteClass (proposing []) Top (newLoopState "go" default_caps 0) stopped_run = Some (p, s, log) /\
  count is_dispatch log <= 50 /\ count is_send log <= 12 /\ count (fun l => negb (is_refresh l)) stopped_run <= 5 * 12 + 2 * 50 + 3 /\
  ((exists o, p = Finished o) \/ exists l, is_refresh l = false /\ is_Some (step IsWriteClass (proposing []) p s l)).
Proof.
  do 3 eexists. split; [vm_compute; reflexivity|].
  apply (run_ends IsWriteClass (proposing []) "go" default_caps 0 50 12 stopped_run); [done|done|by split| |vm_compute; reflexivity].
  intros c lt Hin. unfold stopped_run in Hin. set_unfold. naive_solver.
Defined.

Definition log_of (r : option (pc * loopState * list event)) : list event := match r with Some (_, _, log) => log | None => [] end.
Definition end_of (r : option (pc * loopState * list event)) : option string :=
  match r with Some (Finished o, _, _) => Some (status o) | _ => None end.

(** *** What the code does not do *)

(** A propose-mode worker that wraps its write in call_tool is not asked: the wrapper's
    name is no write, and the dispatcher marks no answer as one. *)
Definition create_issue : string := "{" +:+ dq +:+ "tool" +:+ dq +:+ ":" +:+ dq +:+ "github__create_issue" +:+ dq +:+ "}".

Lemma wrapped_write_unasked :
  let r := run IsWriteClass (proposing []) Top (newLoopState "go" default_caps 0)
             (turn "mcpx__call_tool" create_issue ++ [Go None 0; Estimate; says "done"]) in
  end_of r = Some StatusSuccess /\ Dispatched "mcpx__call_tool" create_issue ∈ log_of r /\ IsWriteClass "github__create_issue" = true /\
  forall name, Awaiting name ∉ log_of r.
Proof.
  split_and!; [vm_compute; reflexivity| |done|].
  - apply (bool_decide_unpack _). vm_compute. exact I.
  - intros name. vm_compute. set_unfold. naive_solver.
Qed.

(** One approval lets the tool through as often as the model likes, with any input. *)
Lemma one_approval_many_writes :
  let r := run IsWriteClass (proposing ["mcpx__execute_code"]) Top (newLoopState "go" default_caps 0)
             (turn "mcpx__execute_code" "{}" ++ turn "mcpx__execute_code" create_issue) in
  List.filter is_dispatch (log_of r) = [Dispatched "mcpx__execute_code" "{}"; Dispatched "mcpx__execute_code" create_issue].
Proof. vm_compute. reflexivity. Qed.

(** Names with dashes, or with the verb in the middle, are not classified. *)
Lemma dashed_names_read : map IsWriteClass ["notion__create-page"; "github__bulkCreateIssues"; "x__delete-all-files"] = [false; false; false].
Proof. vm_compute. reflexivity. Qed.

(** A wall-clock cap of 9223372037 seconds wraps, and the run ends before its first turn. *)
Lemma wall_clock_wraps :
  let c := fst (mergeWorkerCaps default_caps {| w_MaxToolCalls := 0; w_MaxOutputTokens := 0; w_MaxWallClockSeconds := 9223372037; w_MaxInputTokens := 0 |}) in
  MaxWallClock c < 0 /\ end_of (run IsWriteClass (proposing []) Top (newLoopState "go" c 0) [Go None 0]) = Some StatusCapExceeded.
Proof. by vm_compute. Qed.

(** A call stopped after its dispatch is not counted. *)
Lemma late_write_not_counted :
  match run (fun _ => false) (proposing []) Top (newLoopState "go" default_caps 0)
          [Go None 0; Estimate; asks [call_of "x" "{}"]; NextCall; Result (Ok {| OutputJSON := ""; IsError := false; WriteClass := true |})] with
  | Some (_, s, log) => toolCallCount s = 0 /\ count is_dispatch log = 1
  | None => False
  end.
Proof. by vm_compute. Qed.
End Runs.

(** A result for the model fits its limit when the marker of a cut one does. *)
Lemma string_length_substring s : forall n, String.length (substring 0 n s) = Nat.min n (String.length s).
Proof. induction s as [|a s IH]; intros [|n]; cbn; try done. by rewrite IH. Qed.

Theorem trimmed_results_fit (raw : string) : len (truncation_marker (len raw)) <= maxModelToolResultBytes ->
  len (trimToolResultForModel raw) <= maxModelToolResultBytes.
Proof.
  unfold trimToolResultForModel. fold (len raw). intros Hm. destruct (Z.leb_spec (len raw) maxModelToolResultBytes); [done|].
  fold (len (truncation_marker (len raw))). destruct (Z.leb_spec (maxModelToolResultBytes - len (truncation_marker (len raw))) 0); [done|].
  unfold len in *. rewrite string_length_app, string_length_substring. lia.
Qed.
