(* ===== verification/WorkerOutcome.v ===== *)
(** How a worker run ends: [internal/workers/runner] hooks.go, cli_cap.go, the outcome
    half of [finalize] in runner.go, and the slots that keep a worker's runs apart.

    Outcomes carry their error as its text.  What a hook's script prints, whether the
    worktree could be read and what the audit ledger counts are given.  Times are
    nanoseconds since the year 1, where Go's zero time is. *)

From Stdlib Require Import Ascii String.
From stdpp Require Import base list option strings pretty gmap sets.
From S2P Require Import Prelude GoStrings GoJson WorkerLoop.

#[local] Open Scope string_scope.
#[local] Open Scope list_scope.
#[local] Open Scope Z_scope.

(** ** Hooks: hooks.go *)

Definition hookPhasePre := "pre".
Definition hookPhasePost := "post".
Definition hookVerdictSentinel := "@@MCPLEXER_HOOK_VERDICT@@".
Definition maxHookReasonLen : Z := 2000.

Definition hookReason (phase detail : string) : string :=
  let detail := TrimSpace detail in
  let detail := if bool_decide (detail = "") then "no reason given" else detail in
  truncate (phase +:+ "-execute hook blocked the run: " +:+ detail) maxHookReasonLen.

(** A field of a list of structs with a text. *)
Definition content_texts (v : json) : option (list string) :=
  match v with
  | JNull => Some []
  | JArr l => mapM (fun e => match e with JObj o => struct_string o "text" | JNull => Some "" | _ => None end) l
  | _ => None
  end.

Definition newline : ascii := "010".

Definition join_lines (l : list string) : string := String.concat (String newline "") l.

(** The envelope's content and error, the last keys that fold to the names. *)
Definition envelope_fields (l : list (string * json)) : option (list string * string) :=
  content ← fold_left (fun acc '(k, v) => cur ← acc; if EqualFold k "content" then content_texts v else Some cur) l (Some []);
  error ← struct_string l "error";
  Some (content, error).

Definition collectEnvelopeText (raw : string) : string :=
  if bool_decide (TrimSpace raw = "") then ""
  else match json_parse raw with
       | Some JNull => ""
       | Some (JObj l) =>
           match envelope_fields l with
           | None => raw
           | Some (content, error) =>
               let parts := filter (fun t => t <> "") content in
               if bool_decide (parts = []) && negb (bool_decide (error = "")) then error else join_lines parts
           end
       | _ => raw
       end.

(** The reason of one line's verdict, when it is one and aborts. *)
Definition line_verdict (line : string) : option string :=
  '(_, payload) ← Cut line hookVerdictSentinel;
  v ← json_parse (TrimSpace payload);
  l ← match v with JObj l => Some l | JNull => Some [] | _ => None end;
  action ← struct_string l "action";
  reason ← struct_string l "reason";
  if bool_decide (action = "abort") then Some reason else None.

Fixpoint first_some {A B} (f : A -> option B) (l : list A) : option B :=
  match l with [] => None | x :: l => match f x with Some y => Some y | None => first_some f l end end.

Definition extractHookSentinel (text : string) : option string := first_some line_verdict (SplitByte text newline).

Definition firstErrorLine (text : string) : string :=
  match first_some (fun line => TrimSpace <$> CutPrefix (TrimSpace line) "Error:") (SplitByte text newline) with
  | Some rest => rest
  | None => TrimSpace text
  end.

(** [None] to proceed, the reason of a block otherwise. *)
Definition parseHookVerdict (phase : string) (res : ToolCallResult) : option string :=
  let text := collectEnvelopeText (OutputJSON res) in
  match extractHookSentinel text with
  | Some reason => Some (hookReason phase reason)
  | None => if IsError res then Some (hookReason phase (firstErrorLine text)) else None
  end.

(** [dispatched] is what the script's dispatch answered; [None] with no dispatcher. *)
Definition runHook (phase : string) (dispatched : option (result string ToolCallResult)) : option string :=
  match dispatched with
  | None => None
  | Some (Err e) => Some (hookReason phase ("dispatch failed: " +:+ truncate e maxHookReasonLen))
  | Some (Ok res) => parseHookVerdict phase res
  end.

Record outcome := { o_status : string; o_output : string; o_error : string }.

Definition runPreExecuteHook (script : string) (dispatched : option (result string ToolCallResult)) : option outcome :=
  if bool_decide (TrimSpace script = "") then None
  else match runHook hookPhasePre dispatched with
       | None => None
       | Some reason => Some {| o_status := StatusBlocked; o_output := ""; o_error := reason |}
       end.

Definition empty_report : string :=
  "post-execute deliverability gate blocked the run: delegation produced an empty final report".

(** A worker whose parameters carry delegation metadata owes a report. *)
Definition is_delegation (ParametersJSON : string) : bool :=
  match (v ← json_parse ParametersJSON;
         l ← match v with JObj l => Some l | JNull => Some [] | _ => None end;
         raw ← object_get l "_mcplexer_delegation";
         meta ← match raw with JObj m => Some m | _ => None end;
         id ← struct_string meta "id";
         kind ← struct_string meta "kind";
         Some (id, TrimSpace kind)) with
  | Some (id, kind) => negb (bool_decide (TrimSpace id = "")) && bool_decide (kind = "" \/ kind = "token_preserving_delegation")
  | None => false
  end.

Definition applyDelegationDeliverabilityGate (ParametersJSON : string) (o : outcome) : outcome :=
  if negb (bool_decide (o_status o = StatusSuccess)) || negb (bool_decide (TrimSpace (o_output o) = "")) then o
  else if is_delegation ParametersJSON
  then {| o_status := StatusBlocked; o_output := o_output o; o_error := empty_report |}
  else o.

Definition runPostExecuteHook (ParametersJSON script : string) (dispatched : option (result string ToolCallResult)) (o : outcome) : outcome :=
  let o := applyDelegationDeliverabilityGate ParametersJSON o in
  if bool_decide (o_status o = StatusBlocked) then o
  else if bool_decide (TrimSpace script = "") then o
  else if bool_decide (o_status o = StatusAwaitingApproval) then o
  else match runHook hookPhasePost dispatched with
       | None => o
       | Some reason =>
           if bool_decide (o_status o = StatusSuccess) then {| o_status := StatusBlocked; o_output := o_output o; o_error := reason |}
           else if bool_decide (o_error o = "") then {| o_status := o_status o; o_output := o_output o; o_error := reason |}
           else o
       end.

(** ** Tool calls of a command-line child: cli_cap.go *)

Definition IsCLIProvider (provider : string) : bool :=
  bool_decide (provider ∈ ["claude_cli"; "opencode_cli"; "grok_cli"; "mimo_cli"; "gemini_cli"; "codex_cli"; "pi_cli"]).

Record ChildCLISessionCount := { ConnectedAt : Z; DisconnectedAt : option Z; Count : Z }.

Definition session_end (windowEnd : Z) (s : ChildCLISessionCount) : Z := default windowEnd (DisconnectedAt s).

(** The loop, past its first session once [first] is false. *)
Fixpoint attribute_loop (windowEnd : Z) (first : bool) (total maxEnd : Z) (sessions : list ChildCLISessionCount) : option Z :=
  match sessions with
  | [] => Some total
  | s :: rest =>
      let e := session_end windowEnd s in
      if negb first && (ConnectedAt s <=? maxEnd) then None
      else attribute_loop windowEnd false (total + Count s) (Z.max e maxEnd) rest
  end.

(** The calls of the one run the sessions belong to; [None] when they cannot be told
    from another run's. *)
Definition AttributeCLIToolCalls (sessions : list ChildCLISessionCount) (windowEnd : Z) : option Z :=
  match sessions with [] => None | _ => attribute_loop windowEnd true 0 0 sessions end.

Definition maxCLICapOutcomeErrorBytes : Z := 4096.

Definition appendBoundedCLICapError (existing capError : string) : string :=
  let existing := TrimSpace existing in
  if bool_decide (existing = "") then capError
  else let existing := match Cut existing capError with
                       | Some (before, _) => TrimSpace (TrimSuffix (TrimSpace before) ";")
                       | None => existing
                       end in
       if bool_decide (existing = "") then capError
       else let suffix := "; " +:+ capError in
            if len existing + len suffix <=? maxCLICapOutcomeErrorBytes then existing +:+ suffix
            else let headLimit := maxCLICapOutcomeErrorBytes - len suffix - len ellipsis in
                 if headLimit <=? 0 then truncate capError (maxCLICapOutcomeErrorBytes - len ellipsis)
                 else truncate existing headLimit +:+ suffix.

(** [counted] is the run's share of the ledger, when it has one. *)
Definition applyCLIToolCallCap (w : WorkerCaps) (provider : string) (capsMaxToolCalls : Z) (counted : option Z) (o : outcome) : outcome :=
  if (w_MaxToolCalls w <=? 0) || negb (IsCLIProvider provider) then o
  else let maxToolCalls := if capsMaxToolCalls <=? 0 then w_MaxToolCalls w else capsMaxToolCalls in
       match counted with
       | None => o
       | Some n =>
           if n <=? maxToolCalls then o
           else let capError := "max tool calls (" +:+ pretty maxToolCalls +:+ ") exceeded (cli audit count " +:+ pretty n +:+ ")" in
                if bool_decide (o_status o = StatusSuccess)
                then {| o_status := StatusCapExceeded; o_output := o_output o; o_error := capError |}
                else {| o_status := o_status o; o_output := o_output o; o_error := appendBoundedCLICapError (o_error o) capError |}
       end.

(** ** The end of a run: finalize *)

Record run_end := {
  ParametersJSON : string;
  PostExecuteScript : string;
  hook_answer : option (result string ToolCallResult);
  snapshot_error : option string;   (** of an isolated run's worktree *)
  worker_caps : WorkerCaps;
  ModelProvider : string;
  capsMaxToolCalls : Z;
  counted : option Z
}.

Definition snapshot_failed (o : outcome) (e : string) : outcome := {|
  o_status := StatusFailure; o_output := o_output o;
  o_error := (if bool_decide (o_error o = "") then "" else o_error o +:+ "; ") +:+ e |}.

Definition finalize_outcome (r : run_end) (o : outcome) : outcome :=
  let o := runPostExecuteHook (ParametersJSON r) (PostExecuteScript r) (hook_answer r) o in
  let o := match snapshot_error r with Some e => snapshot_failed o e | None => o end in
  applyCLIToolCallCap (worker_caps r) (ModelProvider r) (capsMaxToolCalls r) (counted r) o.

(** What the channels get of it. *)
Definition emitTerminalOutputs (o : outcome) : string := if bool_decide (o_status o = StatusSuccess) then o_output o else "".

(** ** Slots: acquireWorkerSlot *)

Module Slots.

(** What a run is about to do; [Holding] from the count to the end of the run. *)
Inductive thread :=
| Lock (worker policy : string)
| Counting (worker : string)
| Running (worker : string) (acquired : bool)
| Over.

Record state := { workerSlots : gset string; threads : list thread }.

Definition is_queue (policy : string) : bool := EqualFold (TrimSpace policy) "queue".

(** [count] is what the count of running rows answers. *)
Definition thread_step (slots : gset string) (count : option Z) (th : thread) : gset string * thread :=
  match th with
  | Lock w policy =>
      if is_queue policy then (slots, Running w false)
      else if bool_decide (w ∈ slots) then (slots, Over)
      else ({[w]} ∪ slots, Counting w)
  | Counting w =>
      match count with
      | Some running => if 0 <? running then (slots ∖ {[w]}, Over) else (slots, Running w true)
      | None => (slots ∖ {[w]}, Over)
      end
  | Running w acquired => (if acquired then slots ∖ {[w]} else slots, Over)
  | Over => (slots, Over)
  end.

Inductive label := Call (worker policy : string) | Thread (n : nat) (count : option Z).

Definition step (s : state) (l : label) : option state :=
  match l with
  | Call w policy => Some {| workerSlots := workerSlots s; threads := threads s ++ [Lock w policy] |}
  | Thread n count =>
      th ← threads s !! n;
      let '(slots, th) := thread_step (workerSlots s) count th in
      Some {| workerSlots := slots; threads := <[n := th]> (threads s) |}
  end.

Fixpoint run (s : state) (ls : list label) : option state :=
  match ls with [] => Some s | l :: ls => s ← step s l; run s ls end.

Definition holds (th : thread) : option string :=
  match th with Counting w | Running w true => Some w | _ => None end.

(** A slot is taken exactly while one thread holds it. *)
Record slots_ok (s : state) : Prop := {
  so_taken : forall w, w ∈ workerSlots s <-> exists n th, threads s !! n = Some th /\ holds th = Some w;
  so_alone : forall n n' th th' w, threads s !! n = Some th -> threads s !! n' = Some th' ->
    holds th = Some w -> holds th' = Some w -> n = n'
}.

Lemma thread_step_holds slots count th : let '(slots', th') := thread_step slots count th in
  (forall w, holds th' = Some w -> holds th = Some w /\ slots' = slots \/ w ∉ slots /\ slots' = {[w]} ∪ slots /\ holds th = None) /\
  (holds th' = None -> (slots' = slots /\ holds th = None) \/ exists w, holds th = Some w /\ slots' = slots ∖ {[w]}).
Proof.
  destruct th as [w policy|w|w acquired|]; cbn.
  - destruct (is_queue policy); [cbn; split; [done|auto]|]. case_bool_decide; cbn; [split; [done|auto]|].
    split; [intros ? [= <-]; right; by split_and!|done].
  - destruct count as [n|]; [destruct (0 <? n)|]; cbn; (split; [|try done; eauto]); try done. intros ? [= <-]. by left.
  - destruct acquired; cbn; split; try done; eauto.
  - by split; [|auto].
Qed.

Lemma step_ok s l s' : slots_ok s -> step s l = Some s' -> slots_ok s'.
Proof.
  intros [Ht Ha]. destruct l as [w policy|n count]; cbn [step].
  - intros [= <-]. assert (forall k th w', (threads s ++ [Lock w policy]) !! k = Some th -> holds th = Some w' -> threads s !! k = Some th) as Hold.
    { intros k th w' [?|[_ Hk]]%lookup_app_Some Hh; [done|]. apply list_lookup_singleton_Some in Hk as [_ <-]. done. }
    constructor; cbn [workerSlots threads].
    + intros w'. rewrite Ht. split; intros (k & th & Hk & Hh); exists k, th; (split; [|done]); [by apply lookup_app_l_Some|by eapply Hold].
    + intros k k' th th' w' H1 H2 H3 H4. eapply (Ha k k'); eauto.
  - destruct (threads s !! n) as [th|] eqn:En; [|done]. cbn [option_bind mbind].
    pose proof (thread_step_holds (workerSlots s) count th) as H. destruct (thread_step _ _ _) as [slots th1]. destruct H as [H1 H2].
    intros [= <-].
    assert (forall k x, <[n := th1]> (threads s) !! k = Some x -> k = n /\ x = th1 \/ k <> n /\ threads s !! k = Some x) as Hl.
    { intros k x [(-> & -> & _)|[? ?]]%list_lookup_insert_Some; auto. }
    assert (<[n := th1]> (threads s) !! n = Some th1) as Hn by (apply list_lookup_insert_eq; by eapply lookup_lt_Some).
    assert (forall k x, k <> n -> threads s !! k = Some x -> <[n := th1]> (threads s) !! k = Some x) as Hne by (intros; by rewrite list_lookup_insert_ne).
    constructor; cbn [workerSlots threads].
    + intros w. destruct (holds th1) as [w1|] eqn:Eh.
      * destruct (H1 w1 eq_refl) as [[Hold ->]|(Hfree & -> & Hnone)].
        -- rewrite Ht. split; intros (k & x & Hk & Hx).
           ++ destruct (decide (k = n)) as [->|]; [exists n, th1; split; [done|congruence]|eauto].
           ++ apply Hl in Hk as [[-> ->]|[? ?]]; [exists n, th; split; [done|congruence]|eauto].
        -- rewrite elem_of_union, elem_of_singleton, Ht. split.
           ++ intros [->|(k & x & Hk & Hx)]; [by exists n, th1|]. exists k, x. split; [|done]. apply Hne; [|done]. intros ->. congruence.
           ++ intros (k & x & [[-> ->]|[? ?]]%Hl & Hx); [left; congruence|right; eauto].
      * destruct (H2 eq_refl) as [[-> Hnone]|(w1 & Hw1 & ->)].
        -- rewrite Ht. split; intros (k & x & Hk & Hx).
           ++ exists k, x. split; [|done]. apply Hne; [|done]. intros ->. congruence.
           ++ apply Hl in Hk as [[-> ->]|[? ?]]; [congruence|eauto].
        -- rewrite elem_of_difference, elem_of_singleton, Ht. split.
           ++ intros [(k & x & Hk & Hx) Hw]. exists k, x. split; [|done]. apply Hne; [|done]. intros ->. congruence.
           ++ intros (k & x & [[-> ->]|[Hk ?]]%Hl & Hx); [congruence|]. split; [eauto|]. intros ->. by apply Hk, (Ha k n x th w1).
    + intros k k' x x' w Hk%Hl Hk'%Hl Hx Hx'.
      destruct Hk as [[-> ->]|[Hkn Hk]], Hk' as [[-> ->]|[Hkn' Hk']]; [done| | |by eapply (Ha k k')].
      * destruct (H1 w Hx) as [[Hold _]|(Hfree & _)]; [by eapply (Ha n k')|]. destruct Hfree. apply Ht. eauto.
      * destruct (H1 w Hx') as [[Hold _]|(Hfree & _)]; [by eapply (Ha k n)|]. destruct Hfree. apply Ht. eauto.
Qed.

(** Two runs of a worker whose policy is not to queue are never under way together,
    however many are asked for at once. *)
Theorem skip_runs_alone (ls : list label) (s : state) (n n' : nat) (w : string) :
  run {| workerSlots := ∅; threads := [] |} ls = Some s ->
  threads s !! n = Some (Running w true) -> threads s !! n' = Some (Running w true) -> n = n'.
Proof.
  intros Hr H1 H2. enough (slots_ok s) as [_ Ha] by (by eapply Ha).
  revert Hr. assert (slots_ok {| workerSlots := ∅; threads := [] |}) as H0.
  { constructor; cbn; [|done]. intros w'. split; [set_solver|]. by intros (? & ? & ? & _). }
  revert H0. generalize ({| workerSlots := ∅; threads := [] |}). induction ls as [|l ls IH]; intros s0 H0; cbn; [by intros [= <-]|].
  destruct (step s0 l) eqn:E; [|done]. cbn. apply IH. by eapply step_ok.
Qed.
End Slots.

(** ** What holds of outcomes *)

(** A script that fails, in whatever way, blocks. *)
Theorem failed_hook_blocks (phase : string) (dispatched : result string ToolCallResult) :
  match dispatched with Ok res => IsError res = true | Err _ => True end -> is_Some (runHook phase (Some dispatched)).
Proof. destruct dispatched as [res|e]; cbn; [|by eexists]. unfold parseHookVerdict. intros ->. destruct (extractHookSentinel _); by eexists. Qed.

Definition over_cap (r : run_end) : bool :=
  (0 <? w_MaxToolCalls (worker_caps r)) && IsCLIProvider (ModelProvider r) &&
  match counted r with
  | Some n => (if capsMaxToolCalls r <=? 0 then w_MaxToolCalls (worker_caps r) else capsMaxToolCalls r) <? n
  | None => false
  end.

Definition hook_blocks (r : run_end) : bool :=
  negb (bool_decide (TrimSpace (PostExecuteScript r) = "")) && bool_decide (is_Some (runHook hookPhasePost (hook_answer r))).

Definition owes_report (r : run_end) (o : outcome) : bool :=
  bool_decide (TrimSpace (o_output o) = "") && is_delegation (ParametersJSON r).

Lemma applyCLIToolCallCap_success w p c n o :
  o_status (applyCLIToolCallCap w p c n o) = StatusSuccess <->
  o_status o = StatusSuccess /\ ((0 <? w_MaxToolCalls w) && IsCLIProvider p &&
    match n with Some n => (if c <=? 0 then w_MaxToolCalls w else c) <? n | None => false end) = false.
Proof.
  unfold applyCLIToolCallCap. rewrite Z.leb_antisym, <- negb_andb.
  destruct (_ && IsCLIProvider p); cbn [negb andb]; [|tauto]. destruct n as [n|]; [|tauto].
  rewrite (Z.leb_antisym _ n). destruct (_ <? n); cbn [negb]; [|tauto]. case_bool_decide; cbn; naive_solver.
Qed.

Lemma runPostExecuteHook_success params script answer o :
  o_status (runPostExecuteHook params script answer o) = StatusSuccess <->
  o_status o = StatusSuccess /\ (bool_decide (TrimSpace (o_output o) = "") && is_delegation params) = false /\
  (negb (bool_decide (TrimSpace script = "")) && bool_decide (is_Some (runHook hookPhasePost answer))) = false.
Proof.
  unfold runPostExecuteHook, applyDelegationDeliverabilityGate.
  destruct (decide (o_status o = StatusSuccess)) as [Hs|Hs].
  - rewrite (bool_decide_true (o_status o = StatusSuccess)) by done. cbn [negb orb].
    destruct (bool_decide (TrimSpace (o_output o) = "")); cbn [negb andb]; [destruct (is_delegation params)|].
    + cbn. naive_solver.
    + rewrite Hs. rewrite (bool_decide_false (_ = StatusBlocked)), (bool_decide_false (_ = StatusAwaitingApproval)) by done.
      case_bool_decide; cbn [negb andb]; [naive_solver|]. destruct (runHook _ _); cbn; naive_solver.
    + rewrite Hs. rewrite (bool_decide_false (_ = StatusBlocked)), (bool_decide_false (_ = StatusAwaitingApproval)) by done.
      case_bool_decide; cbn [negb andb]; [naive_solver|]. destruct (runHook _ _); cbn; naive_solver.
  - rewrite (bool_decide_false (o_status o = StatusSuccess)) by done. cbn [negb orb].
    split; [|by intros [? _]]. case_bool_decide; [done|]. case_bool_decide; [done|]. case_bool_decide; [done|].
    destruct (runHook _ _); [|done]. rewrite (bool_decide_false (o_status o = StatusSuccess)) by done. by case_bool_decide.
Qed.

(** A run ends in success exactly when its loop did, a delegation has its report, no hook
    blocks, its worktree could be read, and its child stayed within its calls: nothing
    turns another outcome into one.  Only then do the channels get a text, its own. *)
Theorem finalize_success (r : run_end) (o : outcome) :
  (o_status (finalize_outcome r o) = StatusSuccess <->
   o_status o = StatusSuccess /\ owes_report r o = false /\ hook_blocks r = false /\ snapshot_error r = None /\ over_cap r = false) /\
  emitTerminalOutputs (finalize_outcome r o) = (if bool_decide (o_status (finalize_outcome r o) = StatusSuccess) then o_output o else "").
Proof.
  split.
  - unfold finalize_outcome. rewrite applyCLIToolCallCap_success. fold (over_cap r). destruct (snapshot_error r); cbn.
    + naive_solver.
    + rewrite runPostExecuteHook_success. fold (owes_report r o). fold (hook_blocks r). tauto.
  - unfold emitTerminalOutputs. case_bool_decide; [|done]. unfold finalize_outcome, applyCLIToolCallCap.
    assert (o_output (runPostExecuteHook (ParametersJSON r) (PostExecuteScript r) (hook_answer r) o) = o_output o) as Ho.
    { unfold runPostExecuteHook, applyDelegationDeliverabilityGate. repeat case_match; done. }
    destruct (snapshot_error r); repeat case_match; done.
Qed.

(** *** Attribution *)

Definition ends_before (windowEnd : Z) (s s' : ChildCLISessionCount) : Prop := session_end windowEnd s < ConnectedAt s'.

Definition apart (windowEnd : Z) (sessions : list ChildCLISessionCount) : Prop :=
  forall i j s s', (i < j)%nat -> sessions !! i = Some s -> sessions !! j = Some s' -> ends_before windowEnd s s'.

Lemma apart_cons windowEnd s l : apart windowEnd (s :: l) <-> (forall s', s' ∈ l -> ends_before windowEnd s s') /\ apart windowEnd l.
Proof.
  split.
  - intros H. split; [intros s' [k Hk]%list_elem_of_lookup; apply (H O (S k)); [lia|done..]|]. intros i j x y Hij Hx Hy. by apply (H (S i) (S j)); [lia|..].
  - intros [H1 H2] [|i] [|j] x y Hij Hx Hy; try lia; cbn in *.
    + injection Hx as <-. apply H1. by eapply list_elem_of_lookup_2.
    + eapply (H2 i j); [lia|done..].
Qed.

Lemma attribute_loop_spec windowEnd l : forall total maxEnd n,
  attribute_loop windowEnd false total maxEnd l = Some n <->
  Forall (fun s => maxEnd < ConnectedAt s) l /\ apart windowEnd l /\ n = total + sum (map Count l).
Proof.
  induction l as [|s l IH]; intros total maxEnd n; cbn [attribute_loop map sum fold_right negb andb].
  - split; [intros [= <-]; split_and!; [constructor|intros [|i] [|j] x y ? Hx; done|lia]|]. intros (_ & _ & ->). f_equal. cbn. lia.
  - rewrite Forall_cons, apart_cons. destruct (Z.leb_spec (ConnectedAt s) maxEnd); [split; [done|lia]|].
    rewrite IH, !Forall_forall. unfold ends_before. split.
    + intros (H1 & H2 & ->). split_and!; [lia| | |done|fold (sum (map Count l)); lia]; intros s' Hs'; specialize (H1 s' Hs'); lia.
    + intros ([_ H1] & [H2 H3] & ->). split_and!; [|done|fold (sum (map Count l)); lia].
      intros s' Hs'. specialize (H1 s' Hs'). specialize (H2 s' Hs'). lia.
Qed.

(** The calls of a child's sessions count for a run exactly when there are sessions and
    each ended before the next began; otherwise the cap is not applied. *)
Theorem cli_calls_attributed (sessions : list ChildCLISessionCount) (windowEnd n : Z)
    (Hends : forall s, s ∈ sessions -> 0 <= session_end windowEnd s) :
  AttributeCLIToolCalls sessions windowEnd = Some n <-> sessions <> [] /\ apart windowEnd sessions /\ n = sum (map Count sessions).
Proof.
  unfold AttributeCLIToolCalls. destruct sessions as [|s l]; [split; [done|by intros [? _]]|]. cbn [attribute_loop negb andb].
  rewrite attribute_loop_spec, apart_cons, Forall_forall. unfold ends_before.
  pose proof (Hends s ltac:(by left)). cbn [map sum fold_right]. fold (sum (map Count l)). split.
  - intros (H1 & H2 & ->). split_and!; [done| |done|lia]. intros s' Hs'. specialize (H1 s' Hs'). lia.
  - intros (_ & [H1 H2] & ->). split_and!; [|done|lia]. intros s' Hs'. specialize (H1 s' Hs'). lia.
Qed.

(** An annotated error stays within its limit and ends with the cap, for a cap whose own
    text leaves room for it. *)
Lemma TrimSpace_short s : len (TrimSpace s) <= len s.
Proof.
  unfold TrimSpace, len. destruct (TrimLeftFunc_suffix s isSpace) as [pre Hp]. destruct (TrimRightFunc_prefix (TrimLeftFunc s isSpace) isSpace) as [suf Hs].
  rewrite Hp at 2. rewrite Hs at 2. rewrite !string_length_app. lia.
Qed.

Lemma truncate_short s max : 0 < max -> len (truncate s max) <= max + 3.
Proof.
  intros Hm. unfold truncate. fold (len s). destruct (Z.leb_spec max 0); [lia|]. cbn [orb].
  destruct (Z.leb_spec (len s) max); [pose proof (TrimSpace_short s); lia|].
  pose proof (TrimSpace_short (substring 0 (Z.to_nat max) s)) as H1. unfold len in *.
  rewrite string_length_app. rewrite string_length_substring in H1. cbn [String.length ellipsis]. lia.
Qed.

Theorem annotated_error_bounded (existing capError : string) : 0 < len capError < maxCLICapOutcomeErrorBytes - 5 ->
  len (appendBoundedCLICapError existing capError) <= maxCLICapOutcomeErrorBytes /\
  exists pre, appendBoundedCLICapError existing capError = pre +:+ capError.
Proof.
  intros [Hp Hc]. unfold appendBoundedCLICapError. assert (len ("; " +:+ capError) = 2 + len capError) as Hs by (unfold len; rewrite string_length_app; cbn; lia).
  assert (exists pre, capError = pre +:+ capError) as Hown by (by exists "").
  case_bool_decide; [split; [lia|done]|]. case_bool_decide; [split; [lia|done]|]. set (e := match Cut _ _ with Some _ => _ | None => _ end).
  destruct (Z.leb_spec (len e + len ("; " +:+ capError)) maxCLICapOutcomeErrorBytes) as [Hle|].
  - split; [unfold len in *; rewrite string_length_app; lia|]. exists (e +:+ "; "). by rewrite string_app_assoc.
  - change (len ellipsis) with 3. destruct (Z.leb_spec (maxCLICapOutcomeErrorBytes - len ("; " +:+ capError) - 3) 0); [lia|].
    pose proof (truncate_short e (maxCLICapOutcomeErrorBytes - len ("; " +:+ capError) - 3) ltac:(lia)).
    split; [unfold len in *; rewrite string_length_app; lia|]. eexists. by rewrite string_app_assoc.
Qed.

(** ** Runs *)

Section Samples.
Definition plain_end : run_end := {|
  ParametersJSON := ""; PostExecuteScript := ""; hook_answer := None; snapshot_error := None;
  worker_caps := {| w_MaxToolCalls := 5; w_MaxOutputTokens := 0; w_MaxWallClockSeconds := 0; w_MaxInputTokens := 0 |};
  ModelProvider := "claude_cli"; capsMaxToolCalls := 5; counted := Some 6 |}.

Definition session (a : Z) (b : option Z) (n : Z) : ChildCLISessionCount := {| ConnectedAt := a; DisconnectedAt := b; Count := n |}.

Lemma cli_calls_attributed_witness :
  AttributeCLIToolCalls [session 10 (Some 20) 2; session 21 None 3] 30 = Some 5 <->
  [session 10 (Some 20) 2; session 21 None 3] <> [] /\ apart 30 [session 10 (Some 20) 2; session 21 None 3] /\
  5 = sum (map Count [session 10 (Some 20) 2; session 21 None 3]).
Proof. apply (cli_calls_attributed [session 10 (Some 20) 2; session 21 None 3] 30 5). intros s Hs. set_unfold. destruct_or? Hs; subst; cbn; lia. Defined.

Example capped_keeps_report : finalize_outcome plain_end {| o_status := StatusSuccess; o_output := "report"; o_error := "" |} =
  {| o_status := StatusCapExceeded; o_output := "report"; o_error := "max tool calls (5) exceeded (cli audit count 6)" |}.
Proof. vm_compute. reflexivity. Qed.

(** The verdict of abort() is found in the envelope, on its own line. *)
Definition verdict_line : string := requote "@@MCPLEXER_HOOK_VERDICT@@{'action':'abort','reason':'no ticket'}".

Example abort_found : parseHookVerdict hookPhasePre {|
    OutputJSON := "{" +:+ json_quote "content" +:+ ":[{" +:+ json_quote "text" +:+ ":" +:+ json_quote ("checked" +:+ String newline verdict_line) +:+ "}]}";
    IsError := true; WriteClass := false |} = Some "pre-execute hook blocked the run: no ticket".
Proof. vm_compute. reflexivity. Qed.

(** A script that goes on, but prints a text with the verdict in it, blocks as well. *)
Lemma printed_verdict_blocks : parseHookVerdict hookPhasePost {|
    OutputJSON := "{" +:+ json_quote "content" +:+ ":[{" +:+ json_quote "text" +:+ ":" +:+ json_quote ("downloaded: " +:+ verdict_line) +:+ "}]}";
    IsError := false; WriteClass := false |} = Some "post-execute hook blocked the run: no ticket".
Proof. vm_compute. reflexivity. Qed.
End Samples.
