(* ===== verification/MeshTags.v ===== *)
(** The tags of mesh messages: mesh.go and p2p_bridge.go of [internal/mesh] (how they
    are stored), chain_depth.go, [internal/tasks/events.go] and signals.go and output.go
    of [internal/workers/runner] (who stamps them), match.go of
    [internal/workers/triggers/mesh] (who reads them).

    A list of tags is one text with commas; [splitTags] is what it says. *)

From Stdlib Require Import Ascii String.
From stdpp Require Import base list option strings sets.
From S2P Require Import Prelude GoStrings Cron.

#[local] Open Scope string_scope.
#[local] Open Scope list_scope.
#[local] Open Scope Z_scope.

(** ** Texts *)

Definition comma : ascii := ",".

Definition join_tags (l : list string) : string := String.concat "," l.

Definition splitTags (s : string) : list string :=
  if bool_decide (s = "") then [] else filter (fun p => p <> "") (map TrimSpace (SplitByte s comma)).

Definition normalizeTags (tags : string) : string :=
  if bool_decide (tags = "") then ""
  else join_tags (filter (fun p => p <> "") (map TrimSpace (SplitByte tags comma))).

Definition transport_tag (t : string) : bool := bool_decide (t = "p2p") || HasPrefix t "from:".

Definition stripReservedTags (raw : string) : string :=
  if bool_decide (raw = "") then ""
  else join_tags (filter (fun t => t <> "" /\ transport_tag t = false) (map TrimSpace (SplitByte raw comma))).

(** [ingestEnvelope] *)
Definition inboundTags (SenderPeerID tags : string) : string :=
  let sanitized := stripReservedTags tags in
  if bool_decide (sanitized = "") then "p2p,from:" +:+ SenderPeerID else "p2p,from:" +:+ SenderPeerID +:+ "," +:+ sanitized.

(** ** Numbers: [formatInt] of signals.go *)

Definition digit (d : Z) : ascii := ascii_of_N (Z.to_N (48 + d)).

(** The buffer has twenty bytes. *)
Fixpoint format_loop (fuel : nat) (n : Z) (acc : string) : string :=
  match fuel with
  | O => acc
  | S fuel => if 0 <? n then format_loop fuel (n / 10) (String (digit (n mod 10)) acc) else acc
  end.

Definition formatInt (n : Z) : string :=
  if n =? 0 then "0"
  else if n <? 0 then "-" +:+ format_loop 20 (wrap64 (- n)) "" else format_loop 20 n "".

(** ** Chain depth: chain_depth.go *)

Definition depth_of (tag : string) : option Z :=
  rest ← CutPrefix tag "chain-depth:";
  n ← Atoi (TrimSpace rest);
  if 0 <? n then Some n else None.

Fixpoint first_depth (tags : list string) : Z :=
  match tags with
  | [] => 0
  | raw :: tags =>
      let tag := TrimSpace raw in
      if bool_decide (tag = "") then first_depth tags
      else match depth_of tag with Some n => n | None => first_depth tags end
  end.

Definition ChainDepthFromTags (tags : string) : Z :=
  if bool_decide (tags = "") then 0 else first_depth (SplitByte tags comma).

Definition ChainDepthTag (depth : Z) : string := if depth <=? 0 then "" else "chain-depth:" +:+ formatInt depth.

(** ** What a run stamps: signals.go, output.go *)

Definition tag_byte (a : ascii) : bool := negb (bool_decide (a ∈ [comma; " "%char; "009"%char; "010"%char])).

Definition safeTag (s : string) : string := string_of_list_ascii (filter (fun a => tag_byte a = true) (list_ascii_of_string s)).

Definition signalKindTag (kind : string) : string :=
  string_of_list_ascii (map (fun a => if bool_decide (a = "."%char) then "_"%char else a) (list_ascii_of_string kind)).

Definition signalStarted := "worker.started".
Definition signalToolCall := "worker.tool_call".
Definition signalFinished := "worker.finished".
Definition signalAwaitingApproval := "worker.awaiting_approval".

Definition emitStartedFromState (triggerKind : string) (triggerChainDepth : Z) : string :=
  let tags := "worker,started," +:+ signalKindTag signalStarted in
  if bool_decide (triggerKind <> "" /\ triggerKind <> "schedule")
  then let tags := tags +:+ ",trigger_" +:+ safeTag triggerKind in
       if 0 <? triggerChainDepth then tags +:+ ",chain-depth:" +:+ safeTag (formatInt triggerChainDepth) else tags
  else tags.

Definition emitToolCall (toolName : string) : string := "worker,tool_call," +:+ signalKindTag signalToolCall +:+ "," +:+ safeTag toolName.
Definition emitFinished (status : string) : string := "worker,finished," +:+ signalKindTag signalFinished +:+ "," +:+ safeTag status.
Definition emitAwaitingApproval (toolName : string) : string :=
  "worker,awaiting_approval," +:+ signalKindTag signalAwaitingApproval +:+ "," +:+ safeTag toolName.
Definition progress_tags (workerID runID : string) : string :=
  let tags := "delegation_progress,worker:" +:+ safeTag workerID in
  if bool_decide (runID = "") then tags else tags +:+ ",run:" +:+ safeTag runID.

(** The output channel's tags, and the depth of the run. *)
Definition emitMeshOutput (chTags : string) (chainDepth : Z) : string :=
  let tags := "worker,output" in
  let tags := if bool_decide (chTags = "") then tags else tags +:+ "," +:+ chTags in
  if 0 <=? chainDepth then tags +:+ ",chain-depth:" +:+ formatInt (wrap64 (chainDepth + 1)) else tags.

(** ** Task events: events.go *)

Definition reservedTagPrefixes : list string :=
  ["task_event:"; "task_id:"; "workspace:"; "status_from:"; "status_to:"; "chain-depth:"; "from:"].

Definition isReservedTag (tag : string) : bool := existsb (HasPrefix tag) reservedTagPrefixes.

(** The tags of the triggering message, when there is one. *)
Definition nextChainDepth (triggering : option string) : Z :=
  match triggering with None => 1 | Some tags => wrap64 (ChainDepthFromTags tags + 1) end.

Definition is_quote (a : ascii) : bool := bool_decide (a = "034"%char).

Definition Trim_quotes (s : string) : string := TrimRightFunc (TrimLeftFunc s is_quote) is_quote.

Definition taskTagList (TagsJSON : string) : list string :=
  let raw := TrimSpace TagsJSON in
  if bool_decide (raw ∈ [""; "null"; "[]"]) then []
  else let raw := TrimSuffix (TrimPrefix raw "[") "]" in
       if bool_decide (raw = "") then []
       else filter (fun p => p <> "") (map (fun p => Trim_quotes (TrimSpace p)) (SplitByte raw comma)).

Record event_task := { e_ID : string; e_WorkspaceID : string; e_TagsJSON : string }.

Definition user_tags (t : event_task) : list string := filter (fun tag => tag <> "" /\ isReservedTag tag = false) (taskTagList (e_TagsJSON t)).

Definition buildEventTags (evt : string) (t : event_task) (triggering : option string) : string :=
  let depth := nextChainDepth triggering in
  join_tags (["task_event:" +:+ evt; "task_id:" +:+ e_ID t; "workspace:" +:+ e_WorkspaceID t] ++ user_tags t ++
             (if 0 <? depth then [ChainDepthTag depth] else [])).

Definition emitStatusChanged (t : event_task) (from to : string) (triggering : option string) : string :=
  buildEventTags "status_changed" t triggering +:+ ",status_from:" +:+ from +:+ ",status_to:" +:+ to.

(** ** What a trigger reads: match.go *)

Definition hasTag (tags want : string) : bool := existsb (fun tag => bool_decide (tag = want)) (splitTags tags).

Definition statusTransition (tags : string) : string * string :=
  fold_left (fun '(from, to) tag =>
    match CutPrefix tag "status_from:" with
    | Some rest => (TrimSpace rest, to)
    | None => match CutPrefix tag "status_to:" with Some rest => (from, TrimSpace rest) | None => (from, to) end
    end) (splitTags tags) ("", "").

Fixpoint first_source (tags : list string) : string :=
  match tags with
  | [] => ""
  | tag :: tags => match CutPrefix tag "from:" with Some rest => TrimSpace rest | None => first_source tags end
  end.

Definition sourcePeerID (tags : string) : string := first_source (splitTags tags).

(** ** Tokens *)

(** A tag that reads back as itself. *)
Definition token (t : string) : Prop :=
  string_existsb (fun a => bool_decide (a = comma)) t = false /\ TrimSpace t = t /\ t <> "".

Lemma splitTags_eq s : splitTags s = filter (fun p => p <> "") (map TrimSpace (SplitByte s comma)).
Proof. unfold splitTags. by case_bool_decide; subst. Qed.

Lemma splitTags_app x y : splitTags (x +:+ "," +:+ y) = splitTags x ++ splitTags y.
Proof. rewrite !splitTags_eq. change ("," +:+ y) with (String comma y). by rewrite SplitByte_app_gen, map_app, filter_app. Qed.

Lemma splitTags_token t : token t -> splitTags t = [t].
Proof. intros (Hc & Ht & Hn). rewrite splitTags_eq, SplitByte_single by done. cbn [map]. by rewrite Ht, filter_cons_True. Qed.

Lemma existsb_app x y f : string_existsb f (x +:+ y) = string_existsb f x || string_existsb f y.
Proof. induction x as [|a x IH]; [done|]. rewrite string_app_cons. cbn. rewrite IH. apply orb_assoc. Qed.

Lemma existsb_trimmed f g s : string_existsb f s = false -> string_existsb f (TrimRightFunc (TrimLeftFunc s g) g) = false.
Proof.
  destruct (TrimLeftFunc_suffix s g) as [pre H1]. destruct (TrimRightFunc_prefix (TrimLeftFunc s g) g) as [suf H2].
  intros Hs. rewrite H1, existsb_app in Hs. apply orb_false_iff in Hs as [_ Hs]. rewrite H2, existsb_app in Hs. by apply orb_false_iff in Hs as [? _].
Qed.

Lemma splitTags_tokens s : Forall token (splitTags s).
Proof.
  rewrite splitTags_eq. apply Forall_forall. intros t [Ht Hin]%list_elem_of_filter.
  apply list_elem_of_fmap in Hin as (p & -> & Hp%SplitByte_no_sep). split_and!; [|apply TrimSpace_idem|done].
  by apply existsb_trimmed.
Qed.

Lemma splitTags_join l : l <> [] -> splitTags (join_tags l) = concat (map splitTags l).
Proof.
  induction l as [|t l IH]; [done|]. intros _. destruct l as [|t' l]; [cbn; by rewrite app_nil_r|].
  change (join_tags (t :: t' :: l)) with (t +:+ "," +:+ join_tags (t' :: l)). by rewrite splitTags_app, IH.
Qed.

Lemma splitTags_join_tokens l : Forall token l -> splitTags (join_tags l) = l.
Proof.
  intros Hl. destruct l as [|t l]; [done|]. rewrite splitTags_join by done.
  induction Hl as [|x k Hx Hk IH]; [done|]. cbn. by rewrite splitTags_token, IH.
Qed.

(** A message's tags are stored as they are read. *)
Lemma splitTags_normalize s : splitTags (normalizeTags s) = splitTags s.
Proof.
  unfold normalizeTags. case_bool_decide as E; [by rewrite E|]. rewrite <- splitTags_eq. apply splitTags_join_tokens, splitTags_tokens.
Qed.

Lemma splitTags_strip s : splitTags (stripReservedTags s) = filter (fun t => transport_tag t = false) (splitTags s).
Proof.
  unfold stripReservedTags. case_bool_decide as E; [by rewrite E|].
  rewrite splitTags_join_tokens.
  - rewrite splitTags_eq, list_filter_filter. apply list_filter_iff. tauto.
  - apply Forall_forall. intros t [[Hn _] Hin]%list_elem_of_filter.
    assert (t ∈ splitTags s) as Ht by (rewrite splitTags_eq; by apply list_elem_of_filter).
    by eapply Forall_forall in Ht; [|apply splitTags_tokens].
Qed.

Lemma ChainDepth_tokens s : ChainDepthFromTags s = first_depth (splitTags s).
Proof.
  unfold ChainDepthFromTags. case_bool_decide as E; [by rewrite E|]. rewrite splitTags_eq. clear E.
  induction (SplitByte s comma) as [|t l IH]; [done|]. cbn [first_depth map]. case_bool_decide as E.
  - by rewrite filter_cons_False by (rewrite E; naive_solver).
  - rewrite filter_cons_True by done. cbn [first_depth]. rewrite TrimSpace_idem, bool_decide_false by done. by rewrite IH.
Qed.

Lemma first_depth_app l k : first_depth (l ++ k) = (if bool_decide (first_depth l = 0) then first_depth k else first_depth l).
Proof.
  induction l as [|t l IH]; [done|]. cbn [first_depth app]. destruct (bool_decide (TrimSpace t = "")); [done|].
  destruct (depth_of (TrimSpace t)) as [n|] eqn:E; [|done]. assert (0 < n) as Hn; [|by rewrite bool_decide_false by lia].
  revert E. unfold depth_of. destruct (CutPrefix _ _); [|done]. cbn. destruct (Atoi _); [|done]. cbn.
  destruct (Z.ltb_spec 0 z); [|done]. by intros [= <-].
Qed.

(** *** A depth is read as it was written *)

Lemma digit_val_digit d : 0 <= d < 10 -> digit_val (digit d) = Some d.
Proof.
  intros Hd. unfold digit_val, digit. rewrite N_ascii_embedding by lia. rewrite Z2N.id by lia.
  destruct (Z.leb_spec 48 (48 + d)), (Z.leb_spec (48 + d) 57); cbn; try lia. f_equal. lia.
Qed.

Lemma digits_format fuel : forall n acc a, 0 <= n < 10 ^ Z.of_nat fuel ->
  exists k, 0 <= k /\ digits_loop a (list_ascii_of_string (format_loop fuel n acc)) = digits_loop (a * 10 ^ k + n) (list_ascii_of_string acc).
Proof.
  induction fuel as [|fuel IH]; intros n acc a Hn.
  - exists 0. split; [done|]. cbn in *. f_equal. lia.
  - cbn [format_loop]. destruct (Z.ltb_spec 0 n).
    + rewrite Nat2Z.inj_succ, Z.pow_succ_r in Hn by lia.
      destruct (IH (n / 10) (String (digit (n mod 10)) acc) a) as (k & Hk & ->).
      { split; [apply Z.div_pos; lia|apply Z.div_lt_upper_bound; lia]. }
      exists (k + 1). split; [lia|]. cbn [list_ascii_of_string digits_loop].
      rewrite digit_val_digit by (apply Z.mod_pos_bound; lia). cbn [mbind option_bind]. f_equal.
      rewrite Z.pow_add_r by lia. pose proof (Z.div_mod n 10 ltac:(lia)). lia.
    + exists 0. split; [done|]. f_equal. cbn. lia.
Qed.

Lemma format_loop_head fuel : forall n acc, 0 < n -> (0 < fuel)%nat -> exists d r, format_loop fuel n acc = String (digit d) r /\ 0 <= d < 10.
Proof.
  induction fuel as [|fuel IH]; intros n acc Hn Hf; [lia|]. cbn [format_loop]. destruct (Z.ltb_spec 0 n); [|lia].
  destruct (decide (0 < n / 10 /\ (0 < fuel)%nat)) as [[H1 H2]|Hno]; [by apply IH|].
  assert (format_loop fuel (n / 10) (String (digit (n mod 10)) acc) = String (digit (n mod 10)) acc) as ->.
  { destruct fuel; [done|]. cbn [format_loop]. destruct (Z.ltb_spec 0 (n / 10)); [lia|done]. }
  do 2 eexists. split; [done|]. apply Z.mod_pos_bound. lia.
Qed.

Lemma Atoi_formatInt n : 0 < n < 2 ^ 63 -> Atoi (formatInt n) = Some n.
Proof.
  intros Hn. unfold formatInt. destruct (Z.eqb_spec n 0); [lia|]. destruct (Z.ltb_spec n 0); [lia|].
  destruct (digits_format 20 n "" 0 ltac:(cbn; lia)) as (k & _ & Hd). rewrite Z.mul_0_l, Z.add_0_l in Hd.
  change (digits_loop n (list_ascii_of_string "")) with (Some n) in Hd.
  destruct (format_loop_head 20 n "" ltac:(lia) ltac:(lia)) as (d & r & Hh & Hd10).
  unfold Atoi. rewrite Hh in *. cbn [list_ascii_of_string] in *.
  assert (digit d <> "-"%char /\ digit d <> "+"%char) as [H1 H2].
  { pose proof (digit_val_digit d Hd10) as Hv. split; intros E; rewrite E in Hv; by vm_compute in Hv. }
  remember (digit d) as a. remember (list_ascii_of_string r) as l.
  assert ((match a :: l with "-"%char :: l' => (true, l') | "+"%char :: l' => (false, l') | _ => (false, a :: l) end) = (false, a :: l)) as ->.
  { destruct a as [[] [] [] [] [] [] [] []]; try done. }
  rewrite Hd. cbn [mbind option_bind]. destruct (Z.leb_spec (- 2 ^ 63) n), (Z.ltb_spec n (2 ^ 63)); cbn; try lia. done.
Qed.

Lemma digit_spaceless d : 0 <= d < 10 -> isSpace (digit d) = false /\ digit d <> comma.
Proof.
  intros Hd. assert (d = 0 \/ d = 1 \/ d = 2 \/ d = 3 \/ d = 4 \/ d = 5 \/ d = 6 \/ d = 7 \/ d = 8 \/ d = 9) as Hc by lia.
  destruct_or? Hc; subst; by vm_compute.
Qed.

Definition plain_byte (a : ascii) : bool := negb (isSpace a) && negb (bool_decide (a = comma)).

Lemma token_plain t : t <> "" -> Forall (fun a => plain_byte a = true) (list_ascii_of_string t) -> token t.
Proof.
  intros Hn Hp. split_and!; [|apply spaceless_trim|done].
  - clear Hn. induction t as [|a t IH]; [done|]. apply Forall_cons in Hp as [Ha Hp]. cbn. rewrite IH by done.
    unfold plain_byte in Ha. rewrite orb_false_r. by apply andb_true_iff in Ha as [_ ?%negb_true_iff].
  - eapply Forall_impl; [exact Hp|]. intros a Ha. unfold plain_byte in Ha. by apply andb_true_iff in Ha as [?%negb_true_iff _].
Qed.

Lemma format_plain fuel : forall n acc, 0 <= n -> Forall (fun a => plain_byte a = true) (list_ascii_of_string acc) ->
  Forall (fun a => plain_byte a = true) (list_ascii_of_string (format_loop fuel n acc)).
Proof.
  induction fuel as [|fuel IH]; intros n acc Hn Ha; [done|]. cbn [format_loop]. destruct (0 <? n); [|done].
  apply IH; [apply Z.div_pos; lia|]. constructor; [|done].
  destruct (digit_spaceless (n mod 10)) as [H1 H2]; [apply Z.mod_pos_bound; lia|]. unfold plain_byte. rewrite H1. by rewrite bool_decide_false.
Qed.

Definition plain_text (s : string) : Prop := Forall (fun a => plain_byte a = true) (list_ascii_of_string s).

Lemma plain_app x y : plain_text x -> plain_text y -> plain_text (x +:+ y).
Proof. unfold plain_text. rewrite list_ascii_app, Forall_app. by split. Qed.

Lemma plain_dec s : forallb plain_byte (list_ascii_of_string s) = true -> plain_text s.
Proof. rewrite forallb_forall. intros H. apply Forall_forall. intros a Ha. by apply H, list_elem_of_In. Qed.

Lemma plain_trim s : plain_text s -> TrimSpace s = s.
Proof.
  intros H. apply spaceless_trim. eapply Forall_impl; [exact H|]. intros a Ha. unfold plain_byte in Ha.
  by apply andb_true_iff in Ha as [?%negb_true_iff _].
Qed.

Lemma formatInt_plain n : 0 <= n -> plain_text (formatInt n).
Proof.
  intros Hn. unfold formatInt. destruct (Z.eqb_spec n 0); [by apply plain_dec|]. destruct (Z.ltb_spec n 0); [lia|].
  apply format_plain; [done|constructor].
Qed.

Lemma depth_token n : 0 < n < 2 ^ 63 -> token ("chain-depth:" +:+ formatInt n) /\ depth_of ("chain-depth:" +:+ formatInt n) = Some n.
Proof.
  intros Hn. pose proof (formatInt_plain n ltac:(lia)) as Hp. split.
  - apply token_plain; [done|]. apply plain_app; [by apply plain_dec|done].
  - unfold depth_of. rewrite (proj2 (CutPrefix_Some _ _ (formatInt n)) eq_refl). cbn [mbind option_bind].
    rewrite plain_trim, Atoi_formatInt by done. cbn. destruct (Z.ltb_spec 0 n); [done|lia].
Qed.

(** *** Where a message came from *)

Lemma CutPrefix_app p r : CutPrefix (p +:+ r) p = Some r.
Proof. by apply CutPrefix_Some. Qed.

(** Whatever tags a peer sends along, its message is its own. *)
Lemma source_of_inbound peer tags : plain_text peer -> sourcePeerID (inboundTags peer tags) = peer.
Proof.
  intros Hp. assert (splitTags ("p2p,from:" +:+ peer) = ["p2p"; "from:" +:+ peer]) as Hs.
  { change ("p2p,from:" +:+ peer) with ("p2p" +:+ "," +:+ ("from:" +:+ peer)). rewrite splitTags_app.
    rewrite (splitTags_token ("from:" +:+ peer)); [done|]. apply token_plain; [done|]. apply plain_app; [by apply plain_dec|done]. }
  assert (forall l, first_source (("p2p" :: ["from:" +:+ peer]) ++ l) = peer) as Hf.
  { intros l. cbn [first_source app]. change (CutPrefix "p2p" "from:") with (@None string). by rewrite CutPrefix_app, plain_trim. }
  unfold sourcePeerID, inboundTags. case_bool_decide.
  - rewrite Hs. apply (Hf []).
  - rewrite <- (string_app_assoc "p2p,from:"), splitTags_app, Hs. apply Hf.
Qed.

(** *** What a run sends *)

Lemma output_depth chTags d : first_depth (splitTags chTags) = 0 -> 0 <= d < 2 ^ 63 - 1 ->
  ChainDepthFromTags (normalizeTags (emitMeshOutput chTags d)) = d + 1.
Proof.
  intros Hc Hd. rewrite ChainDepth_tokens, splitTags_normalize. unfold emitMeshOutput. destruct (Z.leb_spec 0 d); [|lia].
  rewrite wrap64_small by lia.
  destruct (depth_token (d + 1) ltac:(lia)) as [Ht Hdep].
  assert (forall x, first_depth (splitTags x) = 0 -> first_depth (splitTags (x +:+ ",chain-depth:" +:+ formatInt (d + 1))) = d + 1) as Happ.
  { intros x Hx. change (",chain-depth:" +:+ formatInt (d + 1)) with ("," +:+ ("chain-depth:" +:+ formatInt (d + 1))).
    rewrite splitTags_app, first_depth_app, bool_decide_true, splitTags_token by done. destruct Ht as (_ & Hs & Hn).
    cbn [first_depth]. rewrite Hs, bool_decide_false by done. by rewrite Hdep. }
  case_bool_decide; apply Happ; [by vm_compute|]. rewrite splitTags_app, first_depth_app. rewrite bool_decide_true; [done|by vm_compute].
Qed.

(** *** What a task's event says *)

Inductive emission := Event (evt : string) | StatusChange (from to : string).

Definition event_names : list string := ["created"; "updated"; "assigned"; "claimed"; "closed"; "deleted"; "note_appended"].

Definition emission_tags (e : emission) (t : event_task) (triggering : option string) : string :=
  match e with
  | Event evt => buildEventTags evt t triggering
  | StatusChange from to => emitStatusChanged t from to triggering
  end.

(** A status that survives in a list of tags. *)
Definition status_text (s : string) : Prop := string_existsb (fun a => bool_decide (a = comma)) s = false /\ TrimSpace s = s.

Lemma status_token (p x : string) (c : ascii) : token (p +:+ String c "") -> p <> "" -> TrimSpace p = p -> status_text x -> token (p +:+ String c x).
Proof.
  intros (H1 & H2 & H3) Hp Ht [H4 H5]. destruct (decide (x = "")) as [->|Hx]; [done|]. split_and!.
  - rewrite existsb_app in H1 |- *. cbn in *. by rewrite H4.
  - by apply TrimSpace_join.
  - by destruct p.
Qed.

Lemma isReservedTag_trim u : TrimLeftFunc u isSpace = u -> isReservedTag u = false -> isReservedTag (TrimSpace u) = false.
Proof.
  intros Hl Hr. unfold TrimSpace. rewrite Hl. destruct (TrimRightFunc_prefix u isSpace) as [suf Hs].
  apply not_true_iff_false. intros H. apply not_true_iff_false in Hr. apply Hr. unfold isReservedTag in *.
  apply existsb_exists in H as (p & Hp & Hx). apply existsb_exists. exists p. split; [done|].
  apply HasPrefix_spec in Hx as [r Hx]. apply HasPrefix_spec. exists (r +:+ suf). by rewrite Hs, Hx, string_app_assoc at 1.
Qed.

(** The tags of a task that cannot be taken for the emitter's own: none begins with a space. *)
Definition unindented (t : event_task) : Prop := Forall (fun tag => TrimLeftFunc tag isSpace = tag) (user_tags t).

Lemma user_tags_unreserved t : unindented t -> Forall (fun tag => isReservedTag tag = false) (concat (map splitTags (user_tags t))).
Proof.
  intros Hu. apply Forall_forall. intros tag Hin. apply list_elem_of_In, in_concat in Hin as (l & Hl & Hin).
  apply in_map_iff in Hl as (u & <- & Hu'%list_elem_of_In). apply list_elem_of_In in Hin.
  pose proof (proj1 (Forall_forall _ _) Hu u Hu') as Hl. unfold user_tags in Hu'. apply list_elem_of_filter in Hu' as [[_ Hr] Hu'].
  assert (string_existsb (fun a => bool_decide (a = comma)) u = false) as Hc.
  { unfold taskTagList in Hu'. case_bool_decide; [by apply elem_of_nil in Hu'|]. case_bool_decide; [by apply elem_of_nil in Hu'|].
    apply list_elem_of_filter in Hu' as [_ Hu']. apply list_elem_of_fmap in Hu' as (p & -> & Hp%SplitByte_no_sep).
    by do 2 apply existsb_trimmed. }
  rewrite splitTags_eq, SplitByte_single in Hin by done. apply list_elem_of_filter in Hin as [_ Hin]. set_unfold in Hin.
  destruct Hin as (x & -> & [->|[]]). by apply isReservedTag_trim.
Qed.

Lemma unreserved_prefix tag p : p ∈ reservedTagPrefixes -> isReservedTag tag = false -> CutPrefix tag p = None.
Proof.
  intros Hp Hr. destruct (CutPrefix tag p) eqn:E; [|done]. exfalso. apply not_true_iff_false in Hr. apply Hr.
  unfold isReservedTag. apply existsb_exists. exists p. split; [by apply list_elem_of_In|]. unfold HasPrefix. by rewrite E.
Qed.

(** What an emission needs to be read as it was meant. *)
Record well_formed (e : emission) (t : event_task) : Prop := {
  wf_name : match e with Event evt => evt ∈ event_names | StatusChange from to => status_text from /\ status_text to end;
  wf_id : plain_text (e_ID t); wf_workspace : plain_text (e_WorkspaceID t); wf_tags : unindented t }.

Definition evt_of (e : emission) : string := match e with Event evt => evt | StatusChange _ _ => "status_changed" end.

Definition transition_tags (e : emission) : list string :=
  match e with Event _ => [] | StatusChange from to => ["status_from:" +:+ from; "status_to:" +:+ to] end.

Definition depth_tags (depth : Z) : list string := if 0 <? depth then ["chain-depth:" +:+ formatInt depth] else [].

Lemma nextChainDepth_small triggering : nextChainDepth triggering < 2 ^ 63.
Proof.
  unfold nextChainDepth. destruct triggering; [|lia]. unfold wrap64.
  pose proof (Z.mod_pos_bound (ChainDepthFromTags s + 1 + 2 ^ 63) (2 ^ 64) ltac:(lia)). lia.
Qed.

Lemma depth_tags_other depth : Forall (fun tag => exists n, tag = "chain-depth:" +:+ formatInt n) (depth_tags depth).
Proof. unfold depth_tags. destruct (0 <? depth); repeat constructor. by eexists. Qed.

Lemma emission_split e t triggering : well_formed e t -> exists user,
  splitTags (emission_tags e t triggering) =
    ["task_event:" +:+ evt_of e; "task_id:" +:+ e_ID t; "workspace:" +:+ e_WorkspaceID t] ++ user ++
    depth_tags (nextChainDepth triggering) ++ transition_tags e /\
  Forall (fun tag => isReservedTag tag = false) user.
Proof.
  intros [Hn Hi Hw Hu]. unfold depth_tags. pose proof (nextChainDepth_small triggering) as Hd. set (depth := nextChainDepth triggering) in *.
  exists (concat (map splitTags (user_tags t))). split; [|by apply user_tags_unreserved].
  assert (forall evt, plain_text evt -> splitTags (buildEventTags evt t triggering) =
    ["task_event:" +:+ evt; "task_id:" +:+ e_ID t; "workspace:" +:+ e_WorkspaceID t] ++ concat (map splitTags (user_tags t)) ++
    (if 0 <? depth then ["chain-depth:" +:+ formatInt depth] else [])) as Hb.
  { intros evt He. unfold buildEventTags. fold depth. rewrite splitTags_join by done. rewrite !map_app, !concat_app. f_equal; [|f_equal].
    - cbn [map concat]. rewrite !splitTags_token; [done|apply token_plain; [done|apply plain_app; [by apply plain_dec|done]]..].
    - unfold ChainDepthTag. destruct (Z.ltb_spec 0 depth); [|done]. destruct (Z.leb_spec depth 0); [lia|]. cbn [map concat].
      rewrite splitTags_token by (apply depth_token; lia). done. }
  destruct e as [evt|from to]; cbn [emission_tags evt_of transition_tags].
  - rewrite app_nil_r. apply Hb. unfold event_names in Hn. set_unfold in Hn. destruct_or? Hn; subst; by apply plain_dec.
  - destruct Hn as [Hf Ht]. unfold emitStatusChanged.
    change (",status_from:" +:+ from +:+ ",status_to:" +:+ to) with ("," +:+ (("status_from:" +:+ from) +:+ "," +:+ ("status_to:" +:+ to))).
    rewrite !splitTags_app, Hb by (by apply plain_dec). rewrite !splitTags_token; [by rewrite <- !app_assoc| |].
    + apply (status_token "status_to" to ":"); [|done..]. by apply token_plain, plain_dec.
    + apply (status_token "status_from" from ":"); [|done..]. by apply token_plain, plain_dec.
Qed.

(** A status event is recognised, and no other. *)
Lemma emission_event e t triggering : well_formed e t ->
  hasTag (normalizeTags (emission_tags e t triggering)) "task_event:status_changed" = bool_decide (evt_of e = "status_changed").
Proof.
  intros Hw. destruct (emission_split e t triggering Hw) as (user & Hs & Hu). pose proof (depth_tags_other (nextChainDepth triggering)) as Hd.
  unfold hasTag. rewrite splitTags_normalize, Hs. cbn [app existsb].
  rewrite (bool_decide_false ("task_id:" +:+ _ = _)), (bool_decide_false ("workspace:" +:+ _ = _)) by done. cbn [orb].
  assert (existsb (fun tag => bool_decide (tag = "task_event:status_changed")) (user ++ depth_tags (nextChainDepth triggering) ++ transition_tags e) = false) as ->.
  { rewrite !List.existsb_app. apply orb_false_iff. split; [|apply orb_false_iff; split].
    - apply not_true_iff_false. intros (x & Hx & Hy%bool_decide_eq_true)%existsb_exists. subst.
      by apply list_elem_of_In, (proj1 (Forall_forall _ _) Hu) in Hx.
    - apply not_true_iff_false. intros (x & Hx & Hy%bool_decide_eq_true)%existsb_exists. subst.
      apply list_elem_of_In, (proj1 (Forall_forall _ _) Hd) in Hx as [n Hx]. done.
    - destruct e; [done|]. cbn. by rewrite !bool_decide_false. }
  rewrite orb_false_r. apply bool_decide_ext. change "task_event:status_changed" with ("task_event:" +:+ "status_changed").
  split; [apply string_app_inj_l|by intros ->].
Qed.

Lemma transition_fold_other l : Forall (fun tag => CutPrefix tag "status_from:" = None /\ CutPrefix tag "status_to:" = None) l ->
  forall acc, fold_left (fun '(from, to) tag =>
    match CutPrefix tag "status_from:" with
    | Some rest => (TrimSpace rest, to)
    | None => match CutPrefix tag "status_to:" with Some rest => (from, TrimSpace rest) | None => (from, to) end
    end) l acc = acc.
Proof. induction 1 as [|x l [H1 H2] Hl IH]; intros [f t]; [done|]. cbn [fold_left]. rewrite H1, H2. apply IH. Qed.

(** The transition read is the one made. *)
Lemma emission_transition e t triggering : well_formed e t ->
  statusTransition (normalizeTags (emission_tags e t triggering)) = match e with Event _ => ("", "") | StatusChange from to => (from, to) end.
Proof.
  intros Hw. destruct (emission_split e t triggering Hw) as (user & Hs & Hu). pose proof (depth_tags_other (nextChainDepth triggering)) as Hd.
  unfold statusTransition. rewrite splitTags_normalize, Hs, !app_assoc, fold_left_app, <- !app_assoc, (transition_fold_other (_ ++ _)).
  - destruct e as [evt|from to]; [done|]. cbn [transition_tags fold_left]. rewrite CutPrefix_app.
    change (CutPrefix ("status_to:" +:+ to) "status_from:") with (@None string). rewrite CutPrefix_app.
    destruct (wf_name _ _ Hw) as [[_ ->] [_ ->]]. done.
  - rewrite !Forall_app. split_and!.
    + repeat constructor.
    + eapply Forall_impl; [exact Hu|]. intros tag Ht. split; (apply unreserved_prefix; [|done]); unfold reservedTagPrefixes; set_solver.
    + eapply Forall_impl; [exact Hd|]. intros tag [n ->]. by split.
Qed.

(** Its depth is the one after the triggering message's. *)
Lemma first_depth_other l : Forall (fun tag => TrimSpace tag = tag /\ CutPrefix tag "chain-depth:" = None) l -> first_depth l = 0.
Proof.
  induction 1 as [|x l [H1 H2] Hl IH]; [done|]. cbn [first_depth]. rewrite H1. case_bool_decide; [done|].
  unfold depth_of. by rewrite H2.
Qed.

Lemma emission_depth e t triggering : well_formed e t ->
  ChainDepthFromTags (normalizeTags (emission_tags e t triggering)) = Z.max 0 (nextChainDepth triggering).
Proof.
  intros Hw. destruct (emission_split e t triggering Hw) as (user & Hs & Hu). rewrite ChainDepth_tokens, splitTags_normalize.
  pose proof (splitTags_tokens (emission_tags e t triggering)) as Ht. rewrite Hs in Ht |- *.
  assert (forall tag, tag ∈ splitTags (emission_tags e t triggering) -> TrimSpace tag = tag) as Htrim.
  { intros tag Hin. rewrite Hs in Hin. by apply (proj1 (Forall_forall _ _) Ht) in Hin as (_ & ? & _). }
  rewrite Hs in Htrim. rewrite !first_depth_app.
  rewrite (first_depth_other [_; _; _]), (first_depth_other user), (first_depth_other (transition_tags e)).
  - rewrite !bool_decide_true by done. unfold depth_tags. destruct (Z.ltb_spec 0 (nextChainDepth triggering)); [|rewrite bool_decide_true by done; lia].
    pose proof (nextChainDepth_small triggering). destruct (depth_token (nextChainDepth triggering)) as [(_ & H1 & H2) H3]; [lia|].
    cbn [first_depth]. rewrite H1, H3, (bool_decide_false (_ = "")), bool_decide_false by first [done|lia]. lia.
  - destruct e; [constructor|]. repeat constructor; apply Htrim; set_solver.
  - apply Forall_forall. intros tag Hin. split; [apply Htrim; set_solver|].
    apply (proj1 (Forall_forall _ _) Hu) in Hin. apply unreserved_prefix; [|done]. unfold reservedTagPrefixes. set_solver.
  - repeat constructor; apply Htrim; set_solver.
Qed.

(** ** What the code does not do *)

Section Divergences.
Definition requoted (s : string) : string := string_of_list_ascii (map (fun a => if bool_decide (a = "'"%char) then "034"%char else a) (list_ascii_of_string s)).

(** A task's tag that begins with a space is not reserved, and becomes so when the
    message is stored: the event of a created task reads as a change of status. *)
Lemma indented_tag_reserved :
  let t := {| e_ID := "t1"; e_WorkspaceID := "w1"; e_TagsJSON := requoted "[' task_event:status_changed',' status_to:review']" |} in
  let tags := normalizeTags (buildEventTags "created" t None) in
  hasTag tags "task_event:status_changed" = true /\ statusTransition tags = ("", "review").
Proof. by vm_compute. Qed.

(** A peer can send such tags along. *)
Lemma peer_claims_transition :
  let tags := inboundTags "QmPeer" "task_event:status_changed,status_to:review" in
  hasTag tags "task_event:status_changed" = true /\ statusTransition tags = ("", "review").
Proof. by vm_compute. Qed.

(** A channel's own tag stands before the depth of the run, and hides it. *)
Lemma channel_tag_resets_depth : ChainDepthFromTags (normalizeTags (emitMeshOutput "chain-depth:1" 7)) = 1.
Proof. by vm_compute. Qed.

(** What a run says of itself, its start apart, has no depth. *)
Lemma lifecycle_restarts_chain : map ChainDepthFromTags
  [emitToolCall "x__y"; emitFinished "success"; emitAwaitingApproval "x__y"; progress_tags "w1" "r1"; emitStartedFromState "mesh" 4] = [0; 0; 0; 0; 4].
Proof. by vm_compute. Qed.

(** A task event begins a new chain, since no caller names the message it answers. *)
Lemma task_events_restart_chain e t : well_formed e t -> ChainDepthFromTags (normalizeTags (emission_tags e t None)) = 1.
Proof. apply emission_depth. Qed.
End Divergences.
