(* ===== verification/MeshTrigger.v ===== *)
(** Mesh triggers: match.go, throttle.go and dispatcher.go of
    [internal/workers/triggers/mesh], the rows of trigger CRUD in
    workers/admin/mesh_triggers.go and store/sqlite/worker_mesh_trigger.go.

    The dispatcher is a machine: messages start threads that walk a snapshot of the
    triggers, the trigger cache is reloaded between any two steps, and each trigger is
    dispatched with its own clock reading and store answers.  The worker's run, the
    expression library and the clock are arguments; audit rows keep source, depth,
    decision and reason. *)

From Stdlib Require Import Ascii String.
From stdpp Require Import base list option gmap strings sets.
From S2P Require Import Prelude GoStrings Cron MeshTags.

#[local] Open Scope string_scope.
#[local] Open Scope list_scope.
#[local] Open Scope Z_scope.

(** ** Data *)

Record MeshMessage := {
  m_ID : string; m_WorkspaceID : string; m_SessionID : string; m_AgentName : string;
  m_Kind : string; m_Content : string; m_Audience : string; m_Tags : string }.

Record TriggerFromFilter := { f_PeerID : string; f_AgentName : string; f_Role : string }.

Record WorkerMeshTrigger := {
  t_ID : string; t_WorkerID : string; TagMatch : string; KindMatch : string; AudienceMatch : string; ContentRegex : string;
  StatusFromMatch : string; StatusToMatch : string; FromFilters : list TriggerFromFilter;
  ThrottleSeconds : Z; MaxChainDepth : Z; t_Enabled : bool }.

Record WorkerWorkspaceAccess := { g_WorkspaceID : string; Access : string }.

Definition CanRead (g : WorkerWorkspaceAccess) : bool := bool_decide (Access g = "read" \/ Access g = "write").

Record Worker := {
  w_Name : string; w_WorkspaceID : string; w_Enabled : bool; w_Archived : bool; WorkspaceAccess : list WorkerWorkspaceAccess }.

(** What a run is started with. *)
Record RunOpts := { TriggerMessageID : string; TriggerSourcePeer : string; TriggerChainDepth : Z }.

(** ** Matching: match.go *)

Definition matchesKind (filter msgKind : string) : bool :=
  if bool_decide (filter = "") then true else bool_decide (filter = msgKind).

Definition matchesAudience (filter msgAudience : string) : bool :=
  if bool_decide (filter = "" \/ filter = "*") then true else bool_decide (filter = msgAudience).

Definition matchesTags (filter msgTags : string) : bool :=
  let wanted := splitTags filter in
  if bool_decide (wanted = []) then true
  else existsb (fun h => existsb (fun w => bool_decide (h = w)) wanted) (splitTags msgTags).

Definition matchesStatusTransition (t : WorkerMeshTrigger) (tags : string) : bool :=
  if bool_decide (StatusFromMatch t = "" /\ StatusToMatch t = "") then true
  else if negb (hasTag tags "task_event:status_changed") then false
  else let '(from, to) := statusTransition tags in
       if bool_decide (StatusFromMatch t <> "" /\ StatusFromMatch t <> from) then false
       else if bool_decide (StatusToMatch t <> "" /\ StatusToMatch t <> to) then false
       else true.

Definition filterAdmits (f : TriggerFromFilter) (msg : MeshMessage) (source : string) : bool :=
  if negb (bool_decide (f_Role f = "")) then false
  else if bool_decide (f_PeerID f = "" /\ f_AgentName f = "") then true
  else if negb (bool_decide (f_PeerID f = "")) &&
          (if bool_decide (f_PeerID f = "self") then negb (bool_decide (source = "")) else negb (bool_decide (f_PeerID f = source)))
  then false
  else if bool_decide (f_AgentName f <> "" /\ f_AgentName f <> m_AgentName msg) then false
  else true.

Definition matchesFromFilters (filters : list TriggerFromFilter) (msg : MeshMessage) : bool :=
  match filters with
  | [] => true
  | _ => let source := sourcePeerID (m_Tags msg) in existsb (fun f => filterAdmits f msg source) filters
  end.

Definition triggerScopePrefix := "trigger_worker:".

Definition workerCanReadWorkspace (worker : Worker) (workspaceID : string) : bool :=
  if bool_decide (w_WorkspaceID worker = workspaceID) then true
  else match filter (fun g => g_WorkspaceID g = workspaceID) (WorkspaceAccess worker) with
       | [] => false
       | g :: _ => CanRead g
       end.

(** ** Throttle: throttle.go *)

Definition throttleKey (msg : MeshMessage) (srcPeer : string) : string :=
  let source := srcPeer in
  let source := if bool_decide (source = "") then m_AgentName msg else source in
  if bool_decide (source = "") then m_SessionID msg else source.

Definition day : Z := 24 * 3600 * second.

(** The difference of two times saturates. *)
Definition Sub (t u : Z) : Z := Z.max (- 2 ^ 63) (Z.min (2 ^ 63 - 1) (t - u)).

Definition throttle_key (triggerID sourceKey : string) : string := triggerID +:+ "|" +:+ sourceKey.

Definition tryReserveThrottle (now : Z) (triggerID sourceKey : string) (throttleSeconds : Z) (throttle : gmap string Z) : bool * gmap string Z :=
  if throttleSeconds <=? 0 then (true, throttle)
  else let key := throttle_key triggerID sourceKey in
       let window := wrap64 (throttleSeconds * second) in
       if match throttle !! key with Some last => Sub now last <? window | None => false end
       then (false, throttle)
       else let throttle := <[key := now]> throttle in
            (true, if Nat.eqb (size throttle mod 64) 0 then filter (fun kv => now - day <= kv.2) throttle else throttle).

(** ** Dispatch: dispatcher.go *)

Inductive effect :=
| Audit (srcPeer : string) (depth : Z) (decision reason : string)
| Run (workerID : string) (opts : RunOpts).

(** What the store answers at a step; a scope that could not be read is none. *)
Record answers := { GetWorker : string -> option Worker; HasPeerScope : string -> string -> bool }.

Section Dispatcher.
Variable regexp : string -> option (string -> bool).
Variable selfPeer : string.

Definition matchesContentRegex (pattern content : string) : bool :=
  if bool_decide (pattern = "") then true
  else match regexp pattern with None => false | Some MatchString => MatchString content end.

Definition matchesTrigger (t : WorkerMeshTrigger) (msg : MeshMessage) : bool :=
  if negb (matchesKind (KindMatch t) (m_Kind msg)) then false
  else if negb (matchesAudience (AudienceMatch t) (m_Audience msg)) then false
  else if negb (matchesTags (TagMatch t) (m_Tags msg)) then false
  else if negb (matchesContentRegex (ContentRegex t) (m_Content msg)) then false
  else if negb (matchesStatusTransition t (m_Tags msg)) then false
  else matchesFromFilters (FromFilters t) msg.

Definition peerHasTriggerScope (env : answers) (peerID workerName : string) : bool :=
  if bool_decide (peerID = "" \/ peerID = selfPeer) then true
  else if HasPeerScope env peerID (triggerScopePrefix +:+ "*") then true
  else if bool_decide (workerName = "") then false
  else HasPeerScope env peerID (triggerScopePrefix +:+ workerName).

Definition dispatchOne (env : answers) (now : Z) (t : WorkerMeshTrigger) (msg : MeshMessage) (throttle : gmap string Z)
    : gmap string Z * list effect :=
  if negb (t_Enabled t) then (throttle, [])
  else if negb (matchesTrigger t msg) then (throttle, [])
  else let depth := ChainDepthFromTags (m_Tags msg) in
       match GetWorker env (t_WorkerID t) with
       | None => (throttle, [Audit "" depth "denied" "worker_lookup_failed"])
       | Some worker =>
           let srcPeer := sourcePeerID (m_Tags msg) in
           if w_Archived worker then (throttle, [Audit srcPeer depth "denied" "worker_archived"])
           else if negb (w_Enabled worker) then (throttle, [Audit srcPeer depth "denied" "worker_disabled"])
           else if negb (workerCanReadWorkspace worker (m_WorkspaceID msg)) then (throttle, [])
           else if MaxChainDepth t <=? depth then (throttle, [Audit "" depth "loop_guard" "chain_depth_exceeded"])
           else if bool_decide (srcPeer <> "" /\ srcPeer <> selfPeer) && negb (peerHasTriggerScope env srcPeer (w_Name worker))
           then (throttle, [Audit srcPeer depth "denied" "peer_missing_trigger_scope"])
           else let '(ok, throttle) := tryReserveThrottle now (t_ID t) (throttleKey msg srcPeer) (ThrottleSeconds t) throttle in
                if negb ok then (throttle, [Audit srcPeer depth "throttled" ""])
                else (throttle, [Audit srcPeer depth "fired" "";
                                 Run (t_WorkerID t) {| TriggerMessageID := m_ID msg; TriggerSourcePeer := srcPeer; TriggerChainDepth := depth + 1 |}])
       end.

(** A thread walks its snapshot for one message. *)
Record state := { cache : list WorkerMeshTrigger; throttle : gmap string Z; threads : list (list WorkerMeshTrigger * MeshMessage) }.

Inductive label :=
| Reload (rows : option (list WorkerMeshTrigger))
| OnMessage (msg : MeshMessage) (rows : option (list WorkerMeshTrigger))
| Dispatch (n : nat) (env : answers) (now : Z).

Definition reloaded (rows : option (list WorkerMeshTrigger)) (s : state) : state :=
  match rows with Some l => {| cache := l; throttle := throttle s; threads := threads s |} | None => s end.

(** A fire: when, and for which trigger and source. *)
Record fire := { at_ : Z; f_key : string; f_seconds : Z }.

Definition fires_of (now : Z) (t : WorkerMeshTrigger) (msg : MeshMessage) (log : list effect) : list fire :=
  if existsb (fun e => match e with Run _ _ => true | _ => false end) log
  then [{| at_ := now; f_key := throttle_key (t_ID t) (throttleKey msg (sourcePeerID (m_Tags msg))); f_seconds := ThrottleSeconds t |}] else [].

Definition step (s : state) (l : label) : option (state * list fire) :=
  match l with
  | Reload rows => Some (reloaded rows s, [])
  | OnMessage msg rows =>
      let s := match cache s with [] => reloaded rows s | _ => s end in
      Some ({| cache := cache s; throttle := throttle s; threads := threads s ++ [(cache s, msg)] |}, [])
  | Dispatch n env now =>
      '(ts, msg) ← threads s !! n;
      match ts with
      | [] => None
      | t :: ts =>
          let '(th, log) := dispatchOne env now t msg (throttle s) in
          Some ({| cache := cache s; throttle := th; threads := <[n := (ts, msg)]> (threads s) |}, fires_of now t msg log)
      end
  end.

Fixpoint run (s : state) (ls : list label) : option (state * list fire) :=
  match ls with
  | [] => Some (s, [])
  | l :: ls => '(s, log) ← step s l; '(s, rest) ← run s ls; Some (s, log ++ rest)
  end.

Definition booted : state := {| cache := []; throttle := ∅; threads := [] |}.

(** ** Who a message can fire *)

(** A worker runs for a peer's message, whatever tags came with it, only if it may read
    the workspace, the chain is short enough, and the peer was granted its trigger. *)
Lemma dispatchOne_runs env now t msg th th' log w opts : dispatchOne env now t msg th = (th', log) -> Run w opts ∈ log ->
  w = t_WorkerID t /\
  opts = {| TriggerMessageID := m_ID msg; TriggerSourcePeer := sourcePeerID (m_Tags msg); TriggerChainDepth := ChainDepthFromTags (m_Tags msg) + 1 |} /\
  t_Enabled t = true /\ matchesTrigger t msg = true /\ ChainDepthFromTags (m_Tags msg) < MaxChainDepth t /\
  exists worker, GetWorker env w = Some worker /\ w_Archived worker = false /\ w_Enabled worker = true /\
    workerCanReadWorkspace worker (m_WorkspaceID msg) = true /\
    (sourcePeerID (m_Tags msg) = "" \/ sourcePeerID (m_Tags msg) = selfPeer \/
     peerHasTriggerScope env (sourcePeerID (m_Tags msg)) (w_Name worker) = true) /\
    tryReserveThrottle now (t_ID t) (throttleKey msg (sourcePeerID (m_Tags msg))) (ThrottleSeconds t) th = (true, th').
Proof.
  unfold dispatchOne. destruct (t_Enabled t); [cbn [negb]|by intros [= <- <-] ?%elem_of_nil].
  destruct (matchesTrigger t msg); [cbn [negb]|by intros [= <- <-] ?%elem_of_nil].
  destruct (GetWorker env (t_WorkerID t)) as [worker|] eqn:Ew; [|intros [= <- <-] Hin; set_unfold; naive_solver].
  destruct (w_Archived worker) eqn:E1; [intros [= <- <-] Hin; set_unfold; naive_solver|].
  destruct (w_Enabled worker) eqn:E2; [cbn [negb]|intros [= <- <-] Hin; set_unfold; naive_solver].
  destruct (workerCanReadWorkspace _ _) eqn:E3; [cbn [negb]|by intros [= <- <-] ?%elem_of_nil].
  destruct (Z.leb_spec (MaxChainDepth t) (ChainDepthFromTags (m_Tags msg))); [intros [= <- <-] Hin; set_unfold; naive_solver|].
  destruct (bool_decide _ && _) eqn:E4; [intros [= <- <-] Hin; set_unfold; naive_solver|].
  destruct (tryReserveThrottle _ _ _ _ _) as [[] th1] eqn:E5; intros [= <- <-] Hin; set_unfold in Hin; [|naive_solver].
  destruct_or? Hin; simplify_eq. split_and!; try done. exists worker. split_and!; try done.
  apply andb_false_iff in E4 as [E4%bool_decide_eq_false|E4%negb_false_iff]; [|by do 2 right].
  destruct (decide (sourcePeerID (m_Tags msg) = "")); [by left|]. right; left. apply dec_stable. tauto.
Qed.

(** ** Spacing *)

Definition is_fire (now : Z) (t : WorkerMeshTrigger) (msg : MeshMessage) : fire :=
  {| at_ := now; f_key := throttle_key (t_ID t) (throttleKey msg (sourcePeerID (m_Tags msg))); f_seconds := ThrottleSeconds t |}.

Lemma dispatchOne_fires env now t msg th th' log : dispatchOne env now t msg th = (th', log) ->
  (fires_of now t msg log = [] /\ th' = th) \/
  (fires_of now t msg log = [is_fire now t msg] /\
   tryReserveThrottle now (t_ID t) (throttleKey msg (sourcePeerID (m_Tags msg))) (ThrottleSeconds t) th = (true, th')).
Proof.
  intros H. unfold fires_of. destruct (existsb _ log) eqn:E.
  - right. split; [done|]. apply existsb_exists in E as ([|w opts] & Hin & Hr); [done|]. apply list_elem_of_In in Hin.
    destruct (dispatchOne_runs _ _ _ _ _ _ _ _ _ H Hin) as (_ & _ & _ & _ & _ & worker & _ & _ & _ & _ & _ & Ht). done.
  - left. split; [done|]. revert H E. unfold dispatchOne. destruct (negb _); [by intros [= <- _]|]. destruct (negb _); [by intros [= <- _]|].
    destruct (GetWorker _ _); [|by intros [= <- _]]. destruct (w_Archived _); [by intros [= <- _]|]. destruct (negb _); [by intros [= <- _]|].
    destruct (negb _); [by intros [= <- _]|]. destruct (_ <=? _); [by intros [= <- _]|]. destruct (_ && _); [by intros [= <- _]|].
    unfold tryReserveThrottle. destruct (_ <=? 0); [by intros [= <- <-]|]. destruct (match _ with Some _ => _ | None => _ end); [by intros [= <- <-]|by intros [= <- <-]].
Qed.

Definition reading (l : label) : option Z := match l with Dispatch _ _ now => Some now | _ => None end.

(** No reading of the clock is older than an earlier one by more than [slack]. *)
Definition lags (slack : Z) (seen : list Z) (now : Z) : Prop := forall r, r ∈ seen -> r - slack <= now.

Fixpoint lagging (slack : Z) (seen : list Z) (ls : list label) : Prop :=
  match ls with
  | [] => True
  | l :: ls => match reading l with Some now => lags slack seen now /\ lagging slack (now :: seen) ls | None => lagging slack seen ls end
  end.

Definition fits (slack : Z) (f : fire) : Prop := f_seconds f * second + slack <= day.

Definition spaced (f g : fire) : Prop :=
  f_key f = f_key g -> 0 < f_seconds f -> 0 < f_seconds g -> at_ f + f_seconds g * second <= at_ g.

(** What the map remembers of the fires so far. *)
Definition remembers (th : gmap string Z) (seen : list Z) (past : list fire) : Prop :=
  forall f, f ∈ past -> 0 < f_seconds f ->
    match th !! f_key f with Some last => at_ f <= last | None => exists r, r ∈ seen /\ at_ f < r - day end.

Lemma remembers_seen th seen past now : remembers th seen past -> remembers th (now :: seen) past.
Proof.
  intros H f Hf Hs. specialize (H f Hf Hs). destruct (th !! f_key f); [done|]. destruct H as (r & Hr & ?). exists r. split; [by right|done].
Qed.

Lemma reserve_spaced slack th th' seen past now t msg : 0 <= slack -> fits slack (is_fire now t msg) -> lags slack seen now -> remembers th seen past ->
  tryReserveThrottle now (t_ID t) (throttleKey msg (sourcePeerID (m_Tags msg))) (ThrottleSeconds t) th = (true, th') ->
  (forall f, f ∈ past -> spaced f (is_fire now t msg)) /\ remembers th' (now :: seen) (is_fire now t msg :: past).
Proof.
  intros Hsl Hfit Hlag Hrem. unfold tryReserveThrottle, fits, spaced in *. set (g := is_fire now t msg) in *.
  change (ThrottleSeconds t) with (f_seconds g). unfold day, second in Hfit.
  destruct (Z.leb_spec (f_seconds g) 0) as [Hz|Hz].
  { intros [= <-]. split; [intros; lia|]. intros f [->|Hf]%elem_of_cons Hs; [lia|]. by apply (remembers_seen _ _ _ now Hrem). }
  change (throttle_key (t_ID t) (throttleKey msg (sourcePeerID (m_Tags msg)))) with (f_key g).
  rewrite (wrap64_small (f_seconds g * second)) by (unfold second; lia).
  assert (forall last, (Sub (at_ g) last <? f_seconds g * second) = false -> last + f_seconds g * second <= at_ g) as Hsub.
  { intros last Hl%Z.ltb_ge. unfold Sub, second in *. lia. }
  destruct (match th !! f_key g with Some last => _ | None => false end) eqn:E; [done|]. intros [= <-].
  assert (forall f, f ∈ past -> f_key f = f_key g -> 0 < f_seconds f -> at_ f + f_seconds g * second <= at_ g) as Hsp.
  { intros f Hf Hk Hs. specialize (Hrem f Hf Hs). rewrite Hk in Hrem. destruct (th !! f_key g) as [last|].
    - apply Hsub in E. lia.
    - destruct Hrem as (r & Hr & Hd). pose proof (Hlag r Hr) as Hl. change now with (at_ g) in Hl. unfold day, second in *. lia. }
  split; [auto|].
  assert (remembers (<[f_key g := at_ g]> th) (now :: seen) (g :: past)) as Hnew.
  { intros f [->|Hf]%elem_of_cons Hs; [by rewrite lookup_insert_eq|]. destruct (decide (f_key f = f_key g)) as [Hk|Hk].
    - rewrite Hk, lookup_insert_eq. specialize (Hsp f Hf Hk Hs). unfold second in Hsp. lia.
    - rewrite lookup_insert_ne by done. by apply (remembers_seen _ _ _ now Hrem). }
  change (<[f_key g := now]> th) with (<[f_key g := at_ g]> th).
  destruct (Nat.eqb _ 0); [|done]. intros f Hf Hs. specialize (Hnew f Hf Hs).
  destruct (<[f_key g := at_ g]> th !! f_key f) as [last|] eqn:El.
  - destruct (decide (now - day <= last)) as [Hle|Hgt].
    + by rewrite (map_lookup_filter_Some_2 _ _ _ last).
    + rewrite map_lookup_filter_None_2; [exists now; split; [by left|lia]|]. right. intros x Hx. by pose proof (eq_trans (eq_sym El) Hx) as [= <-].
  - rewrite map_lookup_filter_None_2 by (by left). done.
Qed.

Lemma run_spaced slack ls : forall s seen past s' log, 0 <= slack -> run s ls = Some (s', log) -> lagging slack seen ls ->
  (forall f, f ∈ log -> fits slack f) -> remembers (throttle s) seen past ->
  (forall f g, f ∈ past -> g ∈ log -> spaced f g) /\ forall i j f g, (i < j)%nat -> log !! i = Some f -> log !! j = Some g -> spaced f g.
Proof.
  induction ls as [|l ls IH]; intros s seen past s' log Hsl; cbn [run].
  - intros [= <- <-] _ _ _. split; [by intros f g _ ?%elem_of_nil|by intros i j f g _ Hi].
  - destruct (step s l) as [[s1 lg]|] eqn:E; [|done]. cbn [mbind option_bind].
    destruct (run s1 ls) as [[s2 rest]|] eqn:Er; [|done]. cbn [mbind option_bind]. intros [= <- <-] Hlag Hfit Hrem.
    assert (lg = [] /\ throttle s1 = throttle s \/
            exists now t msg, reading l = Some now /\ (lg = [] /\ throttle s1 = throttle s \/ lg = [is_fire now t msg] /\
              tryReserveThrottle now (t_ID t) (throttleKey msg (sourcePeerID (m_Tags msg))) (ThrottleSeconds t) (throttle s) = (true, throttle s1))) as Hcase.
    { destruct l as [rows|msg rows|n env now]; cbn [step] in E.
      - injection E as <- <-. left. split; [done|]. by destruct rows.
      - injection E as <- <-. left. split; [done|]. cbn. destruct (cache s); [by destruct rows|done].
      - destruct (threads s !! n) as [[[|t ts] msg]|]; [done| |done]. cbn [mbind option_bind] in E.
        destruct (dispatchOne env now t msg (throttle s)) as [th log] eqn:Ed. injection E as <- <-.
        right. exists now, t, msg. split; [done|]. apply dispatchOne_fires in Ed as [[-> ->]|[-> ?]]; [by left|by right]. }
    destruct Hcase as [[-> Ht]|(now & t & msg & Hr & Hcase)].
    + cbn [app] in *. destruct (reading l) as [now|] eqn:Hr; cbn [lagging] in Hlag; rewrite Hr in Hlag.
      * destruct Hlag as [_ Hlag]. apply (IH s1 (now :: seen) past s2 rest); try done. rewrite Ht. by apply remembers_seen.
      * apply (IH s1 seen past s2 rest); try done. by rewrite Ht.
    + cbn [lagging] in Hlag. rewrite Hr in Hlag. destruct Hlag as [Hl Hlag]. destruct Hcase as [[-> Ht]|[-> Ht]]; cbn [app] in *.
      { apply (IH s1 (now :: seen) past s2 rest); try done. rewrite Ht. by apply remembers_seen. }
      destruct (reserve_spaced slack _ _ seen past now t msg Hsl ltac:(apply Hfit; by left) Hl Hrem Ht) as [Hsp Hrem'].
      destruct (IH s1 (now :: seen) (is_fire now t msg :: past) s2 rest) as [H1 H2]; try done; [by intros f Hf; apply Hfit; right|]. split.
      * intros f g Hf [->|Hg]%elem_of_cons; [by apply Hsp|]. apply H1; [by right|done].
      * intros [|i] [|j] f g Hij Hi Hj; try lia; cbn in Hi, Hj.
        -- injection Hi as <-. apply H1; [by left|]. by eapply list_elem_of_lookup_2.
        -- eapply (H2 i j); [lia|done..].
Qed.
End Dispatcher.

(** ** The rows: mesh_triggers.go, worker_mesh_trigger.go *)

Record MeshTriggerInput := {
  in_ID : string; in_WorkerID : string; in_TagMatch : string; in_KindMatch : string; in_AudienceMatch : string; in_ContentRegex : string;
  in_StatusFromMatch : string; in_StatusToMatch : string; in_FromFilters : option (list TriggerFromFilter);
  in_ThrottleSeconds : Z; in_MaxChainDepth : Z; in_Enabled : option bool; AllMessages : bool }.

Definition valid_kinds : list string := ["finding"; "task"; "alert"; "question"; "result"; "event"; "reply"].

Definition isValidKind (k : string) : bool := bool_decide (k ∈ valid_kinds).

Inductive trigger_error :=
| StoreNotWired | WorkerIDRequired | WorkerNotFound | IDRequired | TriggerNotFound | Constraint
| RegexInvalid | ThrottleNegative | DepthRange | KindInvalid (k : string) | RoleFilter (i : nat) | NoCriterion.

Definition or_default_Z (n d : Z) : Z := if n <=? 0 then d else n.

Fixpoint role_filter (i : nat) (l : list TriggerFromFilter) : option nat :=
  match l with [] => None | f :: l => if bool_decide (f_Role f = "") then role_filter (S i) l else Some i end.

Definition no_criterion (t : MeshTriggerInput) : bool :=
  bool_decide (in_TagMatch t = "" /\ in_KindMatch t = "" /\ in_AudienceMatch t = "" /\ in_ContentRegex t = "" /\
               in_StatusFromMatch t = "" /\ in_StatusToMatch t = "") && bool_decide (default [] (in_FromFilters t) = []).

Section Rows.
Variable regexp : string -> option (string -> bool).

Definition validateMeshTrigger (input : MeshTriggerInput) : option trigger_error :=
  if negb (bool_decide (in_ContentRegex input = "")) && negb (bool_decide (is_Some (regexp (in_ContentRegex input)))) then Some RegexInvalid
  else if in_ThrottleSeconds input <? 0 then Some ThrottleNegative
  else if (in_MaxChainDepth input <? 0) || (10 <? in_MaxChainDepth input) then Some DepthRange
  else if negb (bool_decide (in_KindMatch input = "")) && negb (isValidKind (in_KindMatch input)) then Some (KindInvalid (in_KindMatch input))
  else match role_filter 0 (default [] (in_FromFilters input)) with
       | Some i => Some (RoleFilter i)
       | None => if negb (AllMessages input) && no_criterion input then Some NoCriterion else None
       end.

Definition triggerFromInput (input : MeshTriggerInput) : WorkerMeshTrigger := {|
  t_ID := in_ID input; t_WorkerID := in_WorkerID input; TagMatch := in_TagMatch input; KindMatch := in_KindMatch input;
  AudienceMatch := in_AudienceMatch input; ContentRegex := in_ContentRegex input; StatusFromMatch := in_StatusFromMatch input;
  StatusToMatch := in_StatusToMatch input; FromFilters := default [] (in_FromFilters input);
  ThrottleSeconds := or_default_Z (in_ThrottleSeconds input) 60; MaxChainDepth := or_default_Z (in_MaxChainDepth input) 3;
  t_Enabled := default true (in_Enabled input) |}.

Definition overlaid (new old : string) : string := if bool_decide (new = "") then old else new.

Definition mergeIntoTrigger (t : WorkerMeshTrigger) (input : MeshTriggerInput) : WorkerMeshTrigger :=
  let all := AllMessages input in
  let text new old := if all then "" else overlaid new old in {|
  t_ID := t_ID t; t_WorkerID := t_WorkerID t;
  TagMatch := text (in_TagMatch input) (TagMatch t); KindMatch := text (in_KindMatch input) (KindMatch t);
  AudienceMatch := text (in_AudienceMatch input) (AudienceMatch t); ContentRegex := text (in_ContentRegex input) (ContentRegex t);
  StatusFromMatch := text (in_StatusFromMatch input) (StatusFromMatch t); StatusToMatch := text (in_StatusToMatch input) (StatusToMatch t);
  FromFilters := if all then [] else default (FromFilters t) (in_FromFilters input);
  ThrottleSeconds := if 0 <? in_ThrottleSeconds input then in_ThrottleSeconds input else ThrottleSeconds t;
  MaxChainDepth := if 0 <? in_MaxChainDepth input then in_MaxChainDepth input else MaxChainDepth t;
  t_Enabled := default (t_Enabled t) (in_Enabled input) |}.

(** The row as an input, for its validation. *)
Definition merged_input (t : WorkerMeshTrigger) (all : bool) : MeshTriggerInput := {|
  in_ID := t_ID t; in_WorkerID := t_WorkerID t; in_TagMatch := TagMatch t; in_KindMatch := KindMatch t; in_AudienceMatch := AudienceMatch t;
  in_ContentRegex := ContentRegex t; in_StatusFromMatch := StatusFromMatch t; in_StatusToMatch := StatusToMatch t;
  in_FromFilters := Some (FromFilters t); in_ThrottleSeconds := ThrottleSeconds t; in_MaxChainDepth := MaxChainDepth t;
  in_Enabled := None; AllMessages := all |}.

Definition applyTriggerDefaults (t : WorkerMeshTrigger) : WorkerMeshTrigger := {|
  t_ID := t_ID t; t_WorkerID := t_WorkerID t; TagMatch := TagMatch t; KindMatch := KindMatch t; AudienceMatch := AudienceMatch t;
  ContentRegex := ContentRegex t; StatusFromMatch := StatusFromMatch t; StatusToMatch := StatusToMatch t; FromFilters := FromFilters t;
  ThrottleSeconds := or_default_Z (ThrottleSeconds t) 60; MaxChainDepth := or_default_Z (MaxChainDepth t) 3; t_Enabled := t_Enabled t |}.

Definition with_ID (id : string) (t : WorkerMeshTrigger) : WorkerMeshTrigger := {|
  t_ID := id; t_WorkerID := t_WorkerID t; TagMatch := TagMatch t; KindMatch := KindMatch t; AudienceMatch := AudienceMatch t;
  ContentRegex := ContentRegex t; StatusFromMatch := StatusFromMatch t; StatusToMatch := StatusToMatch t; FromFilters := FromFilters t;
  ThrottleSeconds := ThrottleSeconds t; MaxChainDepth := MaxChainDepth t; t_Enabled := t_Enabled t |}.

Definition rows := gmap string WorkerMeshTrigger.

Definition CreateWorkerMeshTrigger (uuid : string) (t : WorkerMeshTrigger) (db : rows) : result trigger_error rows :=
  if bool_decide (t_WorkerID t = "") then Err WorkerIDRequired
  else let t := applyTriggerDefaults (if bool_decide (t_ID t = "") then with_ID uuid t else t) in
       match db !! t_ID t with Some _ => Err Constraint | None => Ok (<[t_ID t := t]> db) end.

Definition UpdateWorkerMeshTrigger (t : WorkerMeshTrigger) (db : rows) : result trigger_error rows :=
  if bool_decide (t_ID t = "") then Err IDRequired
  else match db !! t_ID t with None => Err TriggerNotFound | Some _ => Ok (<[t_ID t := applyTriggerDefaults t]> db) end.

Definition CreateMeshTrigger (worker_exists : bool) (uuid : string) (input : MeshTriggerInput) (db : rows) : result trigger_error rows :=
  if bool_decide (in_WorkerID input = "") then Err WorkerIDRequired
  else if negb worker_exists then Err WorkerNotFound
  else match validateMeshTrigger input with
       | Some e => Err e
       | None => CreateWorkerMeshTrigger uuid (triggerFromInput input) db
       end.

Definition UpdateMeshTrigger (input : MeshTriggerInput) (db : rows) : result trigger_error rows :=
  if bool_decide (in_ID input = "") then Err IDRequired
  else match db !! in_ID input with
       | None => Err TriggerNotFound
       | Some current =>
           let current := mergeIntoTrigger current input in
           match validateMeshTrigger (merged_input current (AllMessages input)) with
           | Some e => Err e
           | None => UpdateWorkerMeshTrigger current db
           end
       end.

Definition DeleteMeshTrigger (id : string) (db : rows) : result trigger_error rows :=
  if bool_decide (id = "") then Err IDRequired
  else match db !! id with None => Err TriggerNotFound | Some _ => Ok (delete id db) end.

Inductive request :=
| Create (worker_exists : bool) (uuid : string) (input : MeshTriggerInput)
| Update (input : MeshTriggerInput)
| Delete (id : string).

Definition serve (db : rows) (r : request) : rows :=
  match match r with
        | Create we u input => CreateMeshTrigger we u input db
        | Update input => UpdateMeshTrigger input db
        | Delete id => DeleteMeshTrigger id db
        end with Ok db => db | Err _ => db end.

(** What every stored row satisfies. *)
Record row_ok (id : string) (t : WorkerMeshTrigger) : Prop := {
  ro_id : t_ID t = id;
  ro_worker : t_WorkerID t <> "";
  ro_throttle : 1 <= ThrottleSeconds t;
  ro_depth : 1 <= MaxChainDepth t <= 10;
  ro_kind : KindMatch t = "" \/ KindMatch t ∈ valid_kinds;
  ro_roles : Forall (fun f => f_Role f = "") (FromFilters t);
  ro_regex : ContentRegex t = "" \/ is_Some (regexp (ContentRegex t))
}.

Lemma or_default_Z_pos n d : 1 <= d -> 1 <= or_default_Z n d.
Proof. intros Hd. unfold or_default_Z. destruct (Z.leb_spec n 0); lia. Qed.

Lemma role_filter_None l : forall i, role_filter i l = None -> Forall (fun f => f_Role f = "") l.
Proof. induction l as [|f l IH]; intros i; cbn; [by constructor|]. case_bool_decide; [|done]. intros Hl. constructor; [done|by eapply IH]. Qed.

Lemma validateMeshTrigger_ok input : validateMeshTrigger input = None ->
  (in_ContentRegex input = "" \/ is_Some (regexp (in_ContentRegex input))) /\ 0 <= in_ThrottleSeconds input /\
  0 <= in_MaxChainDepth input <= 10 /\ (in_KindMatch input = "" \/ in_KindMatch input ∈ valid_kinds) /\
  Forall (fun f => f_Role f = "") (default [] (in_FromFilters input)) /\ (AllMessages input = true \/ no_criterion input = false).
Proof.
  unfold validateMeshTrigger. destruct (_ && _) eqn:E1; [done|]. destruct (Z.ltb_spec (in_ThrottleSeconds input) 0); [done|].
  destruct (_ || _) eqn:E2; [done|]. destruct (negb _ && negb (isValidKind _)) eqn:E3; [done|]. destruct (role_filter _ _) eqn:E4; [done|].
  destruct (negb (AllMessages input) && _) eqn:E5; [done|]. intros _. apply orb_false_iff in E2 as [? ?].
  split_and!; [|done|lia|lia| |by eapply role_filter_None|].
  - apply andb_false_iff in E1 as [E1%negb_false_iff%bool_decide_eq_true|E1%negb_false_iff%bool_decide_eq_true]; auto.
  - apply andb_false_iff in E3 as [E3%negb_false_iff%bool_decide_eq_true|E3%negb_false_iff]; [by left|right].
    unfold isValidKind in E3. by apply bool_decide_eq_true in E3.
  - apply andb_false_iff in E5 as [E5%negb_false_iff|E5]; auto.
Qed.

Definition rows_ok (db : rows) : Prop := map_Forall row_ok db.

Lemma serve_ok db r : rows_ok db -> rows_ok (serve db r).
Proof.
  intros Hdb. destruct r as [we u input|input|id]; unfold serve.
  - unfold CreateMeshTrigger. case_bool_decide as Hw; [done|]. destruct we; [cbn [negb]|done].
    destruct (validateMeshTrigger input) eqn:Ev; [done|]. apply validateMeshTrigger_ok in Ev as (H1 & H2 & H3 & H4 & H5 & _).
    unfold CreateWorkerMeshTrigger. case_bool_decide; [done|].
    set (t := applyTriggerDefaults _). destruct (db !! t_ID t); [done|]. apply map_Forall_insert_2; [|done].
    assert (t = with_ID (t_ID t) (applyTriggerDefaults (triggerFromInput input))) as -> by (unfold t; by case_bool_decide).
    pose proof (or_default_Z_pos (or_default_Z (in_ThrottleSeconds input) 60) 60 ltac:(lia)) as Hthr.
    constructor; cbn; [done|done|done| |done..]. unfold or_default_Z. destruct (Z.leb_spec (in_MaxChainDepth input) 0); cbn; [lia|].
    destruct (Z.leb_spec (in_MaxChainDepth input) 0); lia.
  - unfold UpdateMeshTrigger. case_bool_decide; [done|]. destruct (db !! in_ID input) as [cur|] eqn:Ec; [|done].
    destruct (validateMeshTrigger _) eqn:Ev; [done|]. apply validateMeshTrigger_ok in Ev as (H1 & H2 & H3 & H4 & H5 & _).
    pose proof (Hdb _ _ Ec) as [Hid Hwk Hth Hdp _ _ _].
    unfold UpdateWorkerMeshTrigger. case_bool_decide; [done|]. destruct (db !! t_ID (mergeIntoTrigger cur input)); [|done]. apply map_Forall_insert_2; [|done].
    cbn in H1, H2, H3, H4, H5. constructor; cbn; [done|done| | |done..].
    + by apply or_default_Z_pos.
    + unfold or_default_Z. destruct (Z.ltb_spec 0 (in_MaxChainDepth input)); cbn in *; [destruct (Z.leb_spec (in_MaxChainDepth input) 0)|destruct (Z.leb_spec (MaxChainDepth cur) 0)]; lia.
  - unfold DeleteMeshTrigger. case_bool_decide; [done|]. destruct (db !! id); [|done]. by apply map_Forall_delete.
Qed.
End Rows.

(** ** What holds of triggers *)

(** Whatever requests the admin serves, every stored trigger has its row's id, a worker, a
    throttle of a second or more, a chain depth from 1 to 10, a known kind or none, no
    filter on roles, and an expression that compiles. *)
Theorem rows_stay_valid (regexp : string -> option (string -> bool)) (rs : list request) :
  rows_ok regexp (fold_left (serve regexp) rs ∅).
Proof.
  assert (rows_ok regexp ∅) as H0 by apply map_Forall_empty. revert H0. generalize (∅ : rows).
  induction rs as [|r rs IH]; intros db Hdb; [done|]. cbn. apply IH. by apply serve_ok.
Qed.

(** C19: A peer's message fires a worker only if it may read the workspace the message landed in,
    is enabled, the chain is short enough, and the peer was granted this worker's trigger
    or all of them: no tags it sends along make it pass for anyone else. *)
Theorem peer_fires_need_scope (regexp : string -> option (string -> bool)) (selfPeer peer tags : string) (env : answers) (now : Z)
    (t : WorkerMeshTrigger) (msg : MeshMessage) (th th' : gmap string Z) (log : list effect) (w : string) (opts : RunOpts)
    (Hpeer : plain_text peer) (Hremote : peer <> "" /\ peer <> selfPeer) (Htags : m_Tags msg = inboundTags peer tags)
    (Hd : dispatchOne regexp selfPeer env now t msg th = (th', log)) (Hrun : Run w opts ∈ log) :
  TriggerSourcePeer opts = peer /\ t_Enabled t = true /\ matchesTrigger regexp t msg = true /\
  ChainDepthFromTags (m_Tags msg) < MaxChainDepth t /\
  exists worker, GetWorker env w = Some worker /\ w_Archived worker = false /\ w_Enabled worker = true /\
    workerCanReadWorkspace worker (m_WorkspaceID msg) = true /\
    (HasPeerScope env peer (triggerScopePrefix +:+ "*") = true \/
     w_Name worker <> "" /\ HasPeerScope env peer (triggerScopePrefix +:+ w_Name worker) = true).
Proof.
  destruct (dispatchOne_runs _ _ _ _ _ _ _ _ _ _ _ Hd Hrun) as (-> & -> & H1 & H2 & H3 & worker & H4 & H5 & H6 & H7 & H8 & _).
  assert (sourcePeerID (m_Tags msg) = peer) as Hs by (rewrite Htags; by apply source_of_inbound). rewrite Hs in *.
  split_and!; try done. exists worker. split_and!; try done. destruct Hremote as [Hn Hself]. destruct_or? H8; [done..|].
  revert H8. unfold peerHasTriggerScope. rewrite bool_decide_false by tauto.
  destruct (HasPeerScope env peer (triggerScopePrefix +:+ "*")); [by left|]. case_bool_decide; [done|]. by right.
Qed.

(** Two fires of one trigger for one source are apart by its throttle, over any
    interleaving of messages and reloads, as long as the throttle and the lag between the
    clock's readings and the map's lock fit in a day. *)
Theorem fires_spaced (regexp : string -> option (string -> bool)) (selfPeer : string) (ls : list label) (s : state) (log : list fire)
    (slack : Z) (i j : nat) (f g : fire)
    (Hslack : 0 <= slack) (Hrun : run regexp selfPeer booted ls = Some (s, log)) (Hlag : lagging slack [] ls)
    (Hfit : forall f, f ∈ log -> fits slack f) (Hij : (i < j)%nat) (Hf : log !! i = Some f) (Hg : log !! j = Some g)
    (Hkey : f_key f = f_key g) (Hpos : 0 < f_seconds f /\ 0 < f_seconds g) :
  at_ f + f_seconds g * second <= at_ g.
Proof.
  destruct (run_spaced regexp selfPeer slack ls booted [] [] s log Hslack Hrun Hlag Hfit) as [_ H].
  - by intros x ?%elem_of_nil.
  - destruct Hpos. by apply (H i j f g Hij Hf Hg).
Qed.

(** A status trigger takes a task's event exactly when it is a change of status with the
    wanted ends; the tags of the task, of whatever kind, do not count. *)
Theorem transition_triggers_exact (trigger : WorkerMeshTrigger) (e : emission) (t : event_task) (triggering : option string)
    (Hwf : well_formed e t) :
  matchesStatusTransition trigger (normalizeTags (emission_tags e t triggering)) = true <->
  (StatusFromMatch trigger = "" /\ StatusToMatch trigger = "") \/
  exists from to, e = StatusChange from to /\ (StatusFromMatch trigger = "" \/ StatusFromMatch trigger = from) /\
    (StatusToMatch trigger = "" \/ StatusToMatch trigger = to).
Proof.
  unfold matchesStatusTransition. rewrite emission_event, emission_transition by done. case_bool_decide; [tauto|].
  destruct e as [evt|from to]; cbn [evt_of].
  - assert (evt <> "status_changed") as Hn.
    { intros ->. pose proof (wf_name _ _ Hwf) as Hin. unfold event_names in Hin. set_unfold in Hin. naive_solver. }
    rewrite bool_decide_false by done. cbn. split; [done|]. intros [?|(from & to & ? & _)]; [tauto|done].
  - rewrite bool_decide_true by done. cbn [negb]. case_bool_decide; [|case_bool_decide].
    + split; [done|]. intros [?|(f & k & [= <- <-] & Ha & Hb)]; tauto.
    + split; [done|]. intros [?|(f & k & [= <- <-] & Ha & Hb)]; tauto.
    + split; [|done]. intros _. right. exists from, to. split_and!; [done| |];
        [destruct (decide (StatusFromMatch trigger = "")); [by left|right]|destruct (decide (StatusToMatch trigger = "")); [by left|right]]; apply dec_stable; tauto.
Qed.

(** ** Chains *)

(** How a message is read where it arrives: on its own daemon, or on a peer's. *)
Definition delivered (tags tags' : string) : Prop := tags' = tags \/ exists peer, plain_text peer /\ tags' = inboundTags peer tags.

(** [msg] fires a worker through a trigger of depth at most [M], and [out] is what it posts
    to a mesh channel that stamps no depth of its own. *)
Inductive hop (M : Z) (msg out : MeshMessage) : Prop :=
| Hop regexp selfPeer env now t th th' log w opts chTags :
    dispatchOne regexp selfPeer env now t msg th = (th', log) -> Run w opts ∈ log -> MaxChainDepth t <= M ->
    first_depth (splitTags chTags) = 0 ->
    delivered (normalizeTags (emitMeshOutput chTags (TriggerChainDepth opts))) (m_Tags out) -> hop M msg out.

Lemma ChainDepth_nonneg tags : 0 <= ChainDepthFromTags tags.
Proof.
  rewrite ChainDepth_tokens. induction (splitTags tags) as [|t l IH]; [done|]. cbn [first_depth]. case_bool_decide; [done|].
  destruct (depth_of (TrimSpace t)) as [n|] eqn:E; [|done]. revert E. unfold depth_of. destruct (CutPrefix _ _); [|done]. cbn.
  destruct (Atoi _); [|done]. cbn. destruct (Z.ltb_spec 0 z); [|done]. intros [= <-]. lia.
Qed.

Lemma delivered_depth tags tags' : delivered tags tags' -> ChainDepthFromTags tags' = ChainDepthFromTags tags.
Proof.
  intros [->|(peer & Hp & ->)]; [done|]. rewrite !ChainDepth_tokens.
  assert (token ("from:" +:+ peer)) as Ht by (apply token_plain; [done|]; apply plain_app; [by apply plain_dec|done]).
  assert (first_depth (splitTags ("p2p,from:" +:+ peer)) = 0) as H0.
  { change ("p2p,from:" +:+ peer) with ("p2p" +:+ "," +:+ ("from:" +:+ peer)). rewrite splitTags_app, (splitTags_token ("from:" +:+ peer)) by done.
    apply first_depth_other. repeat constructor. by destruct Ht as (_ & ? & _). }
  assert (first_depth (splitTags (stripReservedTags tags)) = first_depth (splitTags tags)) as Hst.
  { rewrite splitTags_strip. pose proof (splitTags_tokens tags) as Hl. induction Hl as [|x l (_ & Hx & _) Hl IH]; [done|].
    destruct (transport_tag x) eqn:Ex.
    - rewrite filter_cons_False by (by rewrite Ex). cbn [first_depth]. rewrite Hx, IH. case_bool_decide; [done|].
      assert (depth_of x = None) as ->; [|done]. unfold transport_tag in Ex. apply orb_true_iff in Ex as [->%bool_decide_eq_true|[r ->]%HasPrefix_spec]; done.
    - rewrite filter_cons_True by done. cbn [first_depth]. by rewrite IH. }
  unfold inboundTags. case_bool_decide as Hs.
  - rewrite H0, <- Hst, Hs. done.
  - rewrite <- (string_app_assoc "p2p,from:"), splitTags_app, first_depth_app, bool_decide_true by done. done.
Qed.

(** C20: A chain of workers that answer each other's output ends, as long as the tags of their
    output channels stamp no depth of their own (see [channel_tag_resets_depth] of MeshTags
    for one that does): with triggers of depth at most [M] on every daemon, no more than
    half of [M + 1] runs follow each other. *)
Theorem chains_end (M : Z) (k : nat) (msg last : MeshMessage) (HM : M < 2 ^ 62) (Hk : nsteps (hop M) k msg last) :
  k = O \/ 2 * Z.of_nat k <= M + 1.
Proof.
  enough (k = O \/ ChainDepthFromTags (m_Tags msg) + 2 * (Z.of_nat k - 1) < M) as H
    by (pose proof (ChainDepth_nonneg (m_Tags msg)); lia).
  induction Hk as [|k x y z Hxy Hyz IH]; [by left|right].
  destruct Hxy as [regexp selfPeer env now t th th' log w opts chTags Hd Hr HMt Hch Hdel].
  destruct (dispatchOne_runs _ _ _ _ _ _ _ _ _ _ _ Hd Hr) as (-> & -> & _ & _ & Hdep & _). cbn in Hdel.
  apply delivered_depth in Hdel. pose proof (ChainDepth_nonneg (m_Tags x)). rewrite output_depth in Hdel by (done || lia). lia.
Qed.

(** ** Runs *)

Section Samples.
Definition no_regexp (pattern : string) : option (string -> bool) := None.

Definition a_trigger (id : string) (seconds depth : Z) : WorkerMeshTrigger := {|
  t_ID := id; t_WorkerID := "w1"; TagMatch := ""; KindMatch := "finding"; AudienceMatch := ""; ContentRegex := "";
  StatusFromMatch := ""; StatusToMatch := ""; FromFilters := []; ThrottleSeconds := seconds; MaxChainDepth := depth; t_Enabled := true |}.

Definition a_message (tags : string) : MeshMessage := {|
  m_ID := "m1"; m_WorkspaceID := "ws1"; m_SessionID := "s1"; m_AgentName := "agent"; m_Kind := "finding"; m_Content := "text";
  m_Audience := "*"; m_Tags := tags |}.

Definition a_worker : Worker := {| w_Name := "triage"; w_WorkspaceID := "ws1"; w_Enabled := true; w_Archived := false; WorkspaceAccess := [] |}.

Definition granted : answers := {|
  GetWorker := fun _ => Some a_worker; HasPeerScope := fun peer scope => bool_decide (peer = "QmPeer" /\ scope = "trigger_worker:triage") |}.

Lemma peer_fires_need_scope_witness :
  let opts := {| TriggerMessageID := "m1"; TriggerSourcePeer := "QmPeer"; TriggerChainDepth := 1 |} in
  let msg := a_message (inboundTags "QmPeer" "from:QmSelf") in
  TriggerSourcePeer opts = "QmPeer" /\ t_Enabled (a_trigger "t1" 60 3) = true /\ matchesTrigger no_regexp (a_trigger "t1" 60 3) msg = true /\
  ChainDepthFromTags (m_Tags msg) < 3 /\
  exists worker, GetWorker granted "w1" = Some worker /\ w_Archived worker = false /\ w_Enabled worker = true /\
    workerCanReadWorkspace worker "ws1" = true /\
    (HasPeerScope granted "QmPeer" (triggerScopePrefix +:+ "*") = true \/
     w_Name worker <> "" /\ HasPeerScope granted "QmPeer" (triggerScopePrefix +:+ w_Name worker) = true).
Proof.
  apply (peer_fires_need_scope no_regexp "QmSelf" "QmPeer" "from:QmSelf" granted 0 (a_trigger "t1" 60 3)
    (a_message (inboundTags "QmPeer" "from:QmSelf")) ∅ {["t1|QmPeer" := 0]}
    [Audit "QmPeer" 0 "fired" ""; Run "w1" {| TriggerMessageID := "m1"; TriggerSourcePeer := "QmPeer"; TriggerChainDepth := 1 |}] "w1").
  - by apply plain_dec.
  - done.
  - done.
  - vm_compute. reflexivity.
  - right. left.
Defined.

Definition two_messages : list label :=
  [OnMessage (a_message "") (Some [a_trigger "t1" 60 3]); Dispatch 0 granted 0; OnMessage (a_message "") None; Dispatch 1 granted (61 * second)].

Lemma fires_spaced_witness : exists s log f g, run no_regexp "QmSelf" booted two_messages = Some (s, log) /\
  log !! O = Some f /\ log !! 1%nat = Some g /\ at_ f + f_seconds g * second <= at_ g.
Proof.
  do 4 eexists. split; [vm_compute; reflexivity|]. split; [reflexivity|]. split; [reflexivity|].
  eapply (fires_spaced no_regexp "QmSelf" two_messages _ _ 0 0 1); [done|vm_compute; reflexivity| | |lia|reflexivity..|by split].
  - cbn. split_and!; [by intros r ?%elem_of_nil| |done]. intros r Hr. set_unfold in Hr. destruct_or? Hr; subst; unfold second; lia.
  - intros f Hf. set_unfold in Hf. unfold fits. destruct_or? Hf; subst; by vm_compute.
Defined.

Definition a_task : event_task := {| e_ID := "t1"; e_WorkspaceID := "ws1"; e_TagsJSON := requoted "['backend','status_to:review']" |}.

Definition on_review : WorkerMeshTrigger := {|
  t_ID := "t1"; t_WorkerID := "w1"; TagMatch := ""; KindMatch := ""; AudienceMatch := ""; ContentRegex := "";
  StatusFromMatch := ""; StatusToMatch := "review"; FromFilters := []; ThrottleSeconds := 60; MaxChainDepth := 3; t_Enabled := true |}.

Lemma transition_triggers_exact_witness :
  matchesStatusTransition on_review (normalizeTags (emission_tags (StatusChange "doing" "review") a_task None)) = true <->
  ("" = "" /\ "review" = "") \/
  exists from to, StatusChange "doing" "review" = StatusChange from to /\ ("" = "" \/ "" = from) /\ ("review" = "" \/ "review" = to).
Proof.
  apply (transition_triggers_exact on_review (StatusChange "doing" "review") a_task None). constructor.
  - by split.
  - by apply plain_dec.
  - by apply plain_dec.
  - apply Forall_forall. intros tag Hin. vm_compute in Hin. set_unfold in Hin. by destruct_or? Hin; subst.
Defined.

Definition output_of (depth : Z) : MeshMessage := a_message (normalizeTags (emitMeshOutput "" depth)).

Lemma a_hop (depth : Z) (tags : string) :
  dispatchOne no_regexp "QmSelf" granted 0 (a_trigger "t1" 60 3) (a_message tags) ∅ =
    ({["t1|agent" := 0]}, [Audit "" depth "fired" "";
      Run "w1" {| TriggerMessageID := "m1"; TriggerSourcePeer := ""; TriggerChainDepth := depth + 1 |}]) ->
  hop 3 (a_message tags) (output_of (depth + 1)).
Proof. 
  intros H. eapply (Hop 3 _ _ no_regexp "QmSelf" granted 0 (a_trigger "t1" 60 3) ∅ _ _ "w1" _ ""); [exact H|right; by left|done|by vm_compute|by left].
 Qed.

Lemma chains_end_witness : 2%nat = O \/ 2 * Z.of_nat 2 <= 3 + 1.
Proof.
  apply (chains_end 3 2 (a_message "") (output_of 3)); [lia|].
  apply (nsteps_l _ _ _ (output_of 1)); [apply (a_hop 0 ""); vm_compute; reflexivity|].
  apply nsteps_once, (a_hop 2 (normalizeTags (emitMeshOutput "" 1))). vm_compute. reflexivity.
Defined.

(** *** What the code does not do *)

(** A run fired at a depth posts two further: the dispatcher adds one, and so does the
    output.  With the default of three, the second answer is the last. *)
Lemma depth_grows_by_two chTags d : first_depth (splitTags chTags) = 0 -> 0 <= d < 2 ^ 63 - 2 ->
  ChainDepthFromTags (normalizeTags (emitMeshOutput chTags (d + 1))) = d + 2.
Proof. intros Hc Hd. rewrite output_depth by (done || lia). lia. Qed.

(** Triggers cannot ask for the kind that task events have. *)
Lemma task_event_kind_refused : isValidKind "task_event" = false.
Proof. reflexivity. Qed.

Definition asks_for (filters : option (list TriggerFromFilter)) (seconds : Z) (all : bool) : MeshTriggerInput := {|
  in_ID := "t1"; in_WorkerID := "w1"; in_TagMatch := ""; in_KindMatch := ""; in_AudienceMatch := ""; in_ContentRegex := "";
  in_StatusFromMatch := ""; in_StatusToMatch := ""; in_FromFilters := filters; in_ThrottleSeconds := seconds; in_MaxChainDepth := 0;
  in_Enabled := None; AllMessages := all |}.

(** A filter with no field admits everyone, and counts as a criterion. *)
Lemma blank_filter_is_criterion :
  let blank := {| f_PeerID := ""; f_AgentName := ""; f_Role := "" |} in
  validateMeshTrigger no_regexp (asks_for (Some [blank]) 0 false) = None /\ forall msg source, filterAdmits blank msg source = true.
Proof. done. Qed.

(** A trigger on all messages cannot have its throttle changed, unless it is asked for
    all messages again. *)
Lemma all_messages_row_frozen :
  let db := serve no_regexp ∅ (Create true "u" (asks_for None 0 true)) in
  UpdateMeshTrigger no_regexp (asks_for None 120 false) db = Err NoCriterion.
Proof. by vm_compute. Qed.

(** A throttle of two days is forgotten after one, once the map is pruned. *)
Lemma long_throttle_forgotten :
  let reserve now src th := tryReserveThrottle now "t1" src (2 * 86400) th in
  let th := fold_left (fun th k => snd (reserve (day + 1) (formatInt k) th)) (map Z.of_nat (seq 1 63)) (snd (reserve 0 "peer" ∅)) in
  fst (reserve (day + 2) "peer" th) = true.
Proof. by vm_compute. Qed.

(** A throttle of 9223372037 seconds wraps, and lets everything pass. *)
Lemma huge_throttle_passes : fst (tryReserveThrottle 1 "t1" "peer" 9223372037 {["t1|peer" := 1]}) = true.
Proof. by vm_compute. Qed.
End Samples.
