(* ===== verification/WorkerRuns.v ===== *)
(** The lives of worker runs: [RunWithOpts] and [finalize] of internal/workers/runner
    (runner.go, autopause.go, approvals.go), the runs, approvals and enabling of
    internal/workers/admin (runs.go, approvals.go, crud_enable.go, resume.go) and the rows
    of store/sqlite (worker_run.go, worker_approval.go).

    Goroutines are threads whose steps are their store calls and their critical sections;
    any thread may move next, and any store call may fail.  What a run's loop comes to is
    an answer, modelled in WorkerLoop and WorkerOutcome.  Costs are whole ten-thousandths
    of a dollar, without the rounding of floats; columns keep whole seconds.  Pruning, audit rows, the event bus, mesh
    alerts, worktrees, the schedule and the resumption of delegations are left out; the
    worker's other columns are one field ([rest]). *)

From Stdlib Require Import Ascii String.
From stdpp Require Import base list option gmap strings sets sorting pretty.
From S2P Require Import Prelude GoStrings.
From S2P Require Cron WorkerLoop WorkerOutcome.

#[local] Open Scope string_scope.
#[local] Open Scope list_scope.
#[local] Open Scope Z_scope.

Import Cron (days, Day, minute_ns).
Import WorkerLoop (StatusSuccess, StatusFailure, StatusCapExceeded, StatusAwaitingApproval, StatusCancelled, StatusBlocked, operatorCancelReason).
Import WorkerOutcome (Slots.is_queue).

(** ** Rows *)

Definition StatusRunning := "running".
Definition StatusDispatched := "dispatched".
Definition StatusRejected := "rejected".
Definition StatusInterrupted := "interrupted".

Record Worker := {
  Name : string; Enabled : bool; Archived : bool; ConcurrencyPolicy : string;
  MaxMonthlyCostUSD : Z; MaxConsecutiveFailures : Z; AutoPausedReason : string; rest : string }.

Record WorkerRun := {
  r_WorkerID : string; StartedAt : Z; Status : string; TriggerKind : string;
  InputTokens : Z; OutputTokens : Z; CostUSD : Z; ToolCallsCount : Z; OutputText : string; Error : string }.

Record WorkerApproval := {
  a_WorkerID : string; a_RunID : string; a_ToolName : string; a_ToolInput : string;
  a_Status : string; a_DecidedBy : string; a_ResumedRunID : string }.

Record WorkerRunFinalize := {
  f_Status : string; f_InputTokens : Z; f_OutputTokens : Z; f_CostUSD : Z; f_ToolCallsCount : Z; f_OutputText : string; f_Error : string }.

Abbreviation runs := (gmap string WorkerRun).
Abbreviation approvals := (gmap string WorkerApproval).

(** *** worker_run.go *)

Definition finalized (fin : WorkerRunFinalize) (r : WorkerRun) : WorkerRun := {|
  r_WorkerID := r_WorkerID r; StartedAt := StartedAt r; Status := f_Status fin; TriggerKind := TriggerKind r;
  InputTokens := f_InputTokens fin; OutputTokens := f_OutputTokens fin; CostUSD := f_CostUSD fin; ToolCallsCount := f_ToolCallsCount fin;
  OutputText := f_OutputText fin; Error := f_Error fin |}.

(** A cancelled row stays as it is, silently. *)
Definition UpdateWorkerRunStatus (id : string) (fin : WorkerRunFinalize) (db : runs) : option runs :=
  match db !! id with
  | None => None
  | Some r => Some (if bool_decide (Status r = StatusCancelled) then db else <[id := finalized fin r]> db)
  end.

Definition ended (status error : string) (r : WorkerRun) : WorkerRun := {|
  r_WorkerID := r_WorkerID r; StartedAt := StartedAt r; Status := status; TriggerKind := TriggerKind r;
  InputTokens := InputTokens r; OutputTokens := OutputTokens r; CostUSD := CostUSD r; ToolCallsCount := ToolCallsCount r;
  OutputText := OutputText r; Error := error |}.

Definition CancelRun (id reason : string) (db : runs) : option runs :=
  match db !! id with
  | Some r => if bool_decide (Status r = StatusRunning) then Some (<[id := ended StatusCancelled reason r]> db) else None
  | None => None
  end.

Definition daemon_restart := "interrupted by daemon restart".

(** LIKE 'delegate-%' folds ASCII case. *)
Definition is_delegate (ws : gmap string Worker) (id : string) : bool :=
  match ws !! id with Some w => HasPrefix (ToLower (Name w)) "delegate-" | None => false end.

Definition ReapOrphanedRunningRuns (ws : gmap string Worker) (startedBefore : Z) (db : runs) : runs :=
  (fun r => if bool_decide (Status r = StatusRunning \/ Status r = StatusDispatched) && (StartedAt r <? formatTime startedBefore) &&
               negb (is_delegate ws (r_WorkerID r))
            then ended StatusInterrupted daemon_restart r else r) <$> db.

Definition of_worker (w : string) (db : runs) : list (string * WorkerRun) := filter (fun kr => r_WorkerID kr.2 = w) (map_to_list db).

Definition CountRunningWorkerRuns (w : string) (db : runs) : nat := length (filter (fun kr => Status kr.2 = StatusRunning) (of_worker w db)).

Definition ListRunningWorkerRuns (w : string) (db : runs) : list string :=
  map fst (filter (fun kr => Status kr.2 = StatusRunning) (of_worker w db)).

(** The first instant of the month, UTC. *)
Definition monthStart (now : Z) : Z := (days now - (Day now - 1)) * (1440 * minute_ns).

Definition SumCostThisMonth (w : string) (now : Z) (db : runs) : Z :=
  foldr Z.add 0 (map (fun kr => CostUSD kr.2) (filter (fun kr => formatTime (monthStart now) <= StartedAt kr.2) (of_worker w db))).

Definition later (a b : WorkerRun) : Prop := StartedAt b <= StartedAt a.
#[export] Instance later_dec : RelDecision later.
Proof. unfold later. intros a b. apply _. Defined.

Definition LastFailureStatuses (w : string) (n : Z) (db : runs) : list string :=
  map Status (take (Z.to_nat n) (merge_sort later
    (map snd (filter (fun kr => Status kr.2 <> StatusRunning /\ Status kr.2 <> StatusCancelled) (of_worker w db))))).

(** *** worker_approval.go *)

Definition CreateWorkerApproval (id : string) (a : WorkerApproval) (db : approvals) : option approvals :=
  if bool_decide (a_WorkerID a = "" \/ a_RunID a = "" \/ a_ToolName a = "") then None
  else match db !! id with Some _ => None | None => Some (<[id := a]> db) end.

Definition DecideWorkerApproval (id decision decidedBy resumedRunID : string) (db : approvals) : option approvals :=
  if negb (bool_decide (decision = "approved" \/ decision = "rejected")) then None
  else match db !! id with
       | Some a => if bool_decide (a_Status a = "pending")
                   then Some (<[id := {| a_WorkerID := a_WorkerID a; a_RunID := a_RunID a; a_ToolName := a_ToolName a; a_ToolInput := a_ToolInput a;
                                         a_Status := decision; a_DecidedBy := decidedBy; a_ResumedRunID := resumedRunID |}]> db)
                   else None
       | None => None
       end.

(** ** The state *)

(** A started run: its id, its worker and the tools approved beforehand. *)
Record launch := { l_id : string; l_worker : string; l_pre : list string }.

Record shared := {
  workers : gmap string Worker;
  worker_runs : runs;
  worker_approvals : approvals;
  activeRuns : gmap string (option string);   (** the operator's reason, once cancelled *)
  workerSlots : gset string;
  launches : list launch;                     (** every run ever registered *)
  asked : list string;                        (** approvals somebody asked to grant *)
  lost : gset string                          (** runs whose last write failed since boot *)
}.

Definition set_workers x (s : shared) : shared := {| workers := x; worker_runs := worker_runs s; worker_approvals := worker_approvals s; activeRuns := activeRuns s; workerSlots := workerSlots s; launches := launches s; asked := asked s; lost := lost s |}.
Definition set_runs x (s : shared) : shared := {| workers := workers s; worker_runs := x; worker_approvals := worker_approvals s; activeRuns := activeRuns s; workerSlots := workerSlots s; launches := launches s; asked := asked s; lost := lost s |}.
Definition set_approvals x (s : shared) : shared := {| workers := workers s; worker_runs := worker_runs s; worker_approvals := x; activeRuns := activeRuns s; workerSlots := workerSlots s; launches := launches s; asked := asked s; lost := lost s |}.
Definition set_active x (s : shared) : shared := {| workers := workers s; worker_runs := worker_runs s; worker_approvals := worker_approvals s; activeRuns := x; workerSlots := workerSlots s; launches := launches s; asked := asked s; lost := lost s |}.
Definition set_slots x (s : shared) : shared := {| workers := workers s; worker_runs := worker_runs s; worker_approvals := worker_approvals s; activeRuns := activeRuns s; workerSlots := x; launches := launches s; asked := asked s; lost := lost s |}.
Definition add_launch x (s : shared) : shared := {| workers := workers s; worker_runs := worker_runs s; worker_approvals := worker_approvals s; activeRuns := activeRuns s; workerSlots := workerSlots s; launches := x :: launches s; asked := asked s; lost := lost s |}.
Definition add_asked x (s : shared) : shared := {| workers := workers s; worker_runs := worker_runs s; worker_approvals := worker_approvals s; activeRuns := activeRuns s; workerSlots := workerSlots s; launches := launches s; asked := x :: asked s; lost := lost s |}.
Definition add_lost x (s : shared) : shared := {| workers := workers s; worker_runs := worker_runs s; worker_approvals := worker_approvals s; activeRuns := activeRuns s; workerSlots := workerSlots s; launches := launches s; asked := asked s; lost := {[x]} ∪ lost s |}.
Definition set_lost x (s : shared) : shared := {| workers := workers s; worker_runs := worker_runs s; worker_approvals := worker_approvals s; activeRuns := activeRuns s; workerSlots := workerSlots s; launches := launches s; asked := asked s; lost := x |}.

(** ** A run: RunWithOpts, finalize, runAutoPauseChecks *)

Record job := { j_worker : string; j_pre : list string; j_kind : string }.

Inductive run_pc :=
| RNow                                                     (** RunNowWithOpts reads first *)
| RGet
| RLock (w : Worker)
| RCount
| RRegister (slot : bool)
| RPrepare (slot : bool) (rid : string)
| RLoop (slot : bool) (rid : string)
| RFinish (slot : bool) (rid : string) (fin : WorkerRunFinalize) (pending : option (string * string))
| RApproval (slot : bool) (rid : string) (pending : option (string * string))
| RAutoGet (slot : bool) (rid : string)
| RAutoCost (slot : bool) (rid : string) (w : Worker)
| RAutoStreak (slot : bool) (rid : string) (w : Worker)
| RAutoPause (slot : bool) (rid : string) (w : Worker) (reason : string)
| RUnregister (slot : bool) (rid : string) (started : bool)
| RRelease (slot : bool) (res : option string)
| RDone (res : option string).

(** What the outside answers at a step. *)
Record answers := {
  ok : bool; now : Z; fresh : string; prepared : bool; fin : WorkerRunFinalize; pendingApproval : option (string * string) }.

Definition outcome_statuses : list string :=
  [StatusSuccess; StatusFailure; StatusCapExceeded; StatusAwaitingApproval; StatusCancelled; StatusBlocked].

(** The loop ends cancelled only once the operator cancelled it. *)
Definition outcome_ok (s : shared) (rid : string) (f : WorkerRunFinalize) : bool :=
  bool_decide (f_Status f ∈ outcome_statuses) &&
  (negb (bool_decide (f_Status f = StatusCancelled)) || match activeRuns s !! rid with Some (Some _) => true | _ => false end).

Definition new_run (e : answers) (j : job) : WorkerRun := {|
  r_WorkerID := j_worker j; StartedAt := formatTime (now e); Status := StatusRunning; TriggerKind := j_kind j;
  InputTokens := 0; OutputTokens := 0; CostUSD := 0; ToolCallsCount := 0; OutputText := ""; Error := "" |}.

Definition new_approval (j : job) (rid : string) (p : string * string) : WorkerApproval := {|
  a_WorkerID := j_worker j; a_RunID := rid; a_ToolName := fst p; a_ToolInput := if bool_decide (snd p = "") then "{}" else snd p;
  a_Status := "pending"; a_DecidedBy := ""; a_ResumedRunID := "" |}.

Definition auto_paused (w : Worker) (reason : string) : Worker := {|
  Name := Name w; Enabled := false; Archived := Archived w; ConcurrencyPolicy := ConcurrencyPolicy w;
  MaxMonthlyCostUSD := MaxMonthlyCostUSD w; MaxConsecutiveFailures := MaxConsecutiveFailures w; AutoPausedReason := reason; rest := rest w |}.

(** [%.4f] of a number of ten-thousandths. *)
Definition usd (q : Z) : string :=
  let f := pretty (q mod 10000) in pretty (q / 10000) +:+ "." +:+ string_of_list_ascii (replicate (4 - String.length f) "0"%char) +:+ f.

Definition checkMonthlyCostCap (w : Worker) (id : string) (now : Z) (db : runs) : option string :=
  if MaxMonthlyCostUSD w <=? 0 then None
  else let sum := SumCostThisMonth id now db in
       if sum <=? MaxMonthlyCostUSD w then None
       else Some ("monthly budget exceeded ($" +:+ usd sum +:+ " / $" +:+ usd (MaxMonthlyCostUSD w) +:+ ")").

Definition checkConsecutiveFailureCap (w : Worker) (id : string) (db : runs) : option string :=
  let n := MaxConsecutiveFailures w in
  if n <=? 0 then None
  else let statuses := LastFailureStatuses id n db in
       if Z.of_nat (length statuses) <? n then None
       else if forallb (fun st => bool_decide (st = StatusFailure)) statuses
       then Some ("consecutive failures (" +:+ pretty n +:+ " in a row)") else None.

(** An empty policy is stored as the default. *)
Definition applyWorkerDefaults (w : Worker) : Worker :=
  if bool_decide (ConcurrencyPolicy w = "") then {|
    Name := Name w; Enabled := Enabled w; Archived := Archived w; ConcurrencyPolicy := "skip"; MaxMonthlyCostUSD := MaxMonthlyCostUSD w;
    MaxConsecutiveFailures := MaxConsecutiveFailures w; AutoPausedReason := AutoPausedReason w; rest := rest w |}
  else w.

(** [UpdateWorker] writes the whole row. *)
Definition put_worker (e : answers) (w : string) (row : Worker) (s : shared) : option shared :=
  if ok e && bool_decide (is_Some (workers s !! w)) then Some (set_workers (<[w := applyWorkerDefaults row]> (workers s)) s) else None.

Definition run_step (e : answers) (j : job) (pc : run_pc) (s : shared) : option (run_pc * shared) :=
  let w := j_worker j in
  match pc with
  | RNow => Some (match workers s !! w with
                         | Some wk => if ok e && negb (bool_decide (TrimSpace w = "")) && Enabled wk then RGet else RDone None
                         | None => RDone None
                         end, s)
  | RGet => Some (match workers s !! w with
                  | Some wk => if ok e && negb (Archived wk) && Enabled wk then RLock wk else RDone None
                  | None => RDone None
                  end, s)
  | RLock wk => Some (if Slots.is_queue (ConcurrencyPolicy wk) then (RRegister false, s)
                      else if bool_decide (w ∈ workerSlots s) then (RDone None, s)
                      else (RCount, set_slots ({[w]} ∪ workerSlots s) s))
  | RCount => Some (if ok e && Nat.eqb (CountRunningWorkerRuns w (worker_runs s)) 0 then (RRegister true, s)
                    else (RDone None, set_slots (workerSlots s ∖ {[w]}) s))
  | RRegister slot =>
      let rid := fresh e in
      if bool_decide (rid ∈ map l_id (launches s)) || bool_decide (is_Some (worker_runs s !! rid)) then None
      else Some (RPrepare slot rid, add_launch {| l_id := rid; l_worker := w; l_pre := j_pre j |} (set_active (<[rid := None]> (activeRuns s)) s))
  | RPrepare slot rid =>
      Some (if prepared e && ok e then (RLoop slot rid, set_runs (<[rid := new_run e j]> (worker_runs s)) s) else (RUnregister slot rid false, s))
  | RLoop slot rid => if outcome_ok s rid (fin e) then Some (RFinish slot rid (fin e) (pendingApproval e), s) else None
  | RFinish slot rid f pending =>
      let next := if bool_decide (f_Status f = StatusAwaitingApproval) then RApproval slot rid pending else RAutoGet slot rid in
      Some (next, if ok e then match UpdateWorkerRunStatus rid f (worker_runs s) with Some db => set_runs db s | None => s end else add_lost rid s)
  | RApproval slot rid pending =>
      Some (RAutoGet slot rid,
            match pending with
            | Some p => if ok e then match CreateWorkerApproval (fresh e) (new_approval j rid p) (worker_approvals s) with
                                     | Some db => set_approvals db s | None => s end else s
            | None => s
            end)
  | RAutoGet slot rid =>
      Some (match workers s !! w with Some wk => if ok e && Enabled wk then RAutoCost slot rid wk else RUnregister slot rid true
                                    | None => RUnregister slot rid true end, s)
  | RAutoCost slot rid wk =>
      Some (match (if ok e then checkMonthlyCostCap wk w (now e) (worker_runs s) else None) with
            | Some reason => RAutoPause slot rid wk reason
            | None => RAutoStreak slot rid wk
            end, s)
  | RAutoStreak slot rid wk =>
      Some (match (if ok e then checkConsecutiveFailureCap wk w (worker_runs s) else None) with
            | Some reason => RAutoPause slot rid wk reason
            | None => RUnregister slot rid true
            end, s)
  | RAutoPause slot rid wk reason =>
      Some (RUnregister slot rid true, default s (put_worker e w (auto_paused wk reason) s))
  | RUnregister slot rid started => Some (RRelease slot (if started then Some rid else None), set_active (delete rid (activeRuns s)) s)
  | RRelease slot res => Some (RDone res, if slot then set_slots (workerSlots s ∖ {[w]}) s else s)
  | RDone _ => None
  end.

(** ** The operator: approvals.go, runs.go, crud_enable.go *)

Inductive thread :=
| TRun (j : job) (pc : run_pc)
| TApprove (id by_ : string)
| TResume (id by_ : string) (row : WorkerApproval) (pc : run_pc)
| TReject (id by_ : string)
| TDecide (id by_ : string) (row : WorkerApproval) (decision resumed : string)
| TStamp (rid : string)
| TCancel (rid reason : string)
| TFlip (rid reason : string)
| TEnable (w : string) (on : bool)
| TEnablePut (w : string) (row : Worker) (on : bool)
| TEnableList (w : string)
| TEnableCancel (rids : list string)
| TEnableFlip (rid : string) (rids : list string)
| TEdit (w : string) (f : Worker -> option Worker) (off : bool)
| TEditPut (w : string) (row : Worker) (off : bool)
| TStored (w : string) (off edit : bool)
| TDone.

Definition resume_job (a : WorkerApproval) : job := {| j_worker := a_WorkerID a; j_pre := [a_ToolName a]; j_kind := "schedule" |}.

Definition rejected_fin : WorkerRunFinalize := {|
  f_Status := StatusRejected; f_InputTokens := 0; f_OutputTokens := 0; f_CostUSD := 0; f_ToolCallsCount := 0; f_OutputText := ""; f_Error := "" |}.

Definition enabled_as (on : bool) (w : Worker) : Worker := {|
  Name := Name w; Enabled := on; Archived := Archived w; ConcurrencyPolicy := ConcurrencyPolicy w; MaxMonthlyCostUSD := MaxMonthlyCostUSD w;
  MaxConsecutiveFailures := MaxConsecutiveFailures w; AutoPausedReason := AutoPausedReason w; rest := rest w |}.

Definition cancel_reason (reason : string) : string :=
  let reason := TrimSpace reason in if bool_decide (reason = "") then "cancelled by operator" else "cancelled by operator: " +:+ reason.

Definition worker_disabled := cancel_reason "worker disabled".

(** [Runner.Cancel]: whether a live entry was found and signalled. *)
Definition signal (rid reason : string) (s : shared) : option shared :=
  match activeRuns s !! rid with Some _ => Some (set_active (<[rid := Some reason]> (activeRuns s)) s) | None => None end.

Definition flip (e : answers) (rid reason : string) (s : shared) : shared :=
  if ok e then match CancelRun rid reason (worker_runs s) with Some db => set_runs db s | None => s end else s.

Definition pending_row (e : answers) (id : string) (s : shared) : option WorkerApproval :=
  if negb (ok e) || bool_decide (TrimSpace id = "") then None
  else match worker_approvals s !! id with Some a => if bool_decide (a_Status a = "pending") then Some a else None | None => None end.

Definition thread_step (e : answers) (th : thread) (s : shared) : option (thread * shared) :=
  match th with
  | TRun j pc => '(pc, s) ← run_step e j pc s; Some (TRun j pc, s)
  | TApprove id by_ => Some (match pending_row e id s with Some a => TResume id by_ a RGet | None => TDone end, s)
  | TResume id by_ a (RDone res) => Some (match res with Some rid => TDecide id by_ a "approved" rid | None => TDone end, s)
  | TResume id by_ a pc => '(pc, s) ← run_step e (resume_job a) pc s; Some (TResume id by_ a pc, s)
  | TReject id by_ => Some (match pending_row e id s with Some a => TDecide id by_ a "rejected" "" | None => TDone end, s)
  | TDecide id by_ a decision resumed =>
      Some (match (if ok e then DecideWorkerApproval id decision by_ resumed (worker_approvals s) else None) with
            | Some db => (if bool_decide (decision = "rejected") then TStamp (a_RunID a) else TDone, set_approvals db s)
            | None => (TDone, s)
            end)
  | TStamp rid => Some (TDone, if ok e then match UpdateWorkerRunStatus rid rejected_fin (worker_runs s) with Some db => set_runs db s | None => s end else s)
  | TCancel rid reason => Some (match signal rid reason s with Some s => (TDone, s) | None => (TFlip rid reason, s) end)
  | TFlip rid reason => Some (TDone, flip e rid reason s)
  | TEnable w on =>
      Some (match workers s !! w with
            | Some row => if negb (ok e) || bool_decide (TrimSpace w = "") || (on && Archived row) then TDone
                          else if bool_decide (Enabled row = on) then (if on then TDone else TEnableList w)
                          else TEnablePut w row on
            | None => TDone
            end, s)
  | TEnablePut w row on => Some (match put_worker e w (enabled_as on row) s with
                                 | Some s => (TStored w (negb on) false, s)
                                 | None => (TDone, s)
                                 end)
  | TEnableList w => Some (if ok e then TEnableCancel (ListRunningWorkerRuns w (worker_runs s)) else TDone, s)
  | TEnableCancel [] => Some (TDone, s)
  | TEnableCancel (rid :: rids) => Some (match signal rid worker_disabled s with Some s => (TEnableCancel rids, s) | None => (TEnableFlip rid rids, s) end)
  | TEnableFlip rid rids => Some (if ok e then TEnableCancel rids else TDone, flip e rid worker_disabled s)
  | TEdit w f off =>
      Some (match workers s !! w with
            | Some row => match (if ok e && negb (bool_decide (TrimSpace w = "")) then f row else None) with
                          | Some row => if Archived row && Enabled row then TDone else TEditPut w row off
                          | None => TDone
                          end
            | None => TDone
            end, s)
  | TEditPut w row off => Some (match put_worker e w row s with Some s => (TStored w off true, s) | None => (TDone, s) end)
  | TStored w off edit =>
      Some (match workers s !! w with
            | Some wk => if ok e && off && (negb edit || negb (Enabled wk)) then TEnableList w else TDone
            | None => TDone
            end, s)
  | TDone => None
  end.

(** ** The daemon *)

Record state := { mem : shared; threads : list thread }.

Inductive label :=
| Run (j : job)                             (** by the scheduler or a mesh trigger *)
| RunNow (j : job)
| Approve (id by_ : string)
| Reject (id by_ : string)
| Cancel (rid reason : string)
| SetEnabled (w : string) (on : bool)
| Edit (w : string) (f : Worker -> option Worker) (off : bool)   (** the validated patch, and whether it turns the worker off *)
| Thread (n : nat) (e : answers)
| Restart (bootTime : Z) (reaped : bool).

(** Only an approval's run has tools approved beforehand; the operator names runs he
    has seen. *)
Definition spawned (l : label) (s : shared) : option (thread * shared) :=
  match l with
  | Run j => Some (TRun {| j_worker := j_worker j; j_pre := []; j_kind := j_kind j |} RGet, s)
  | RunNow j => Some (TRun {| j_worker := j_worker j; j_pre := []; j_kind := j_kind j |} RNow, s)
  | Approve id by_ => Some (TApprove id by_, add_asked id s)
  | Reject id by_ => Some (TReject id by_, s)
  | Cancel rid reason => if bool_decide (is_Some (worker_runs s !! TrimSpace rid)) then Some (TCancel (TrimSpace rid) (cancel_reason reason), s) else None
  | SetEnabled w on => Some (TEnable w on, s)
  | Edit w f off => Some (TEdit w f off, s)
  | _ => None
  end.

(** What a new process starts with: the rows, and the orphans interrupted. *)
Definition restarted (bootTime : Z) (reaped : bool) (s : shared) : shared :=
  let s := if reaped then set_runs (ReapOrphanedRunningRuns (workers s) bootTime (worker_runs s)) s else s in set_lost ∅ (set_active ∅ (set_slots ∅ s)).

Definition step (s : state) (l : label) : option state :=
  match l with
  | Thread n e =>
      th ← threads s !! n;
      '(th, m) ← thread_step e th (mem s);
      Some {| mem := m; threads := <[n := th]> (threads s) |}
  | Restart bootTime reaped => Some {| mem := restarted bootTime reaped (mem s); threads := [] |}
  | _ => '(th, m) ← spawned l (mem s); Some {| mem := m; threads := threads s ++ [th] |}
  end.

Fixpoint run (s : state) (ls : list label) : option state :=
  match ls with [] => Some s | l :: ls => s ← step s l; run s ls end.

Definition fresh_db (ws : gmap string Worker) : state := {|
  mem := {| workers := ws; worker_runs := ∅; worker_approvals := ∅; activeRuns := ∅; workerSlots := ∅; launches := []; asked := []; lost := ∅ |};
  threads := [] |}.

(** ** What only grows *)

Definition runs_keep (r r' : runs) : Prop :=
  forall id row, r !! id = Some row -> exists row', r' !! id = Some row' /\ r_WorkerID row' = r_WorkerID row /\ (Status row = StatusCancelled -> row' = row).

Definition same_request (a a' : WorkerApproval) : Prop :=
  a_WorkerID a' = a_WorkerID a /\ a_RunID a' = a_RunID a /\ a_ToolName a' = a_ToolName a /\ a_ToolInput a' = a_ToolInput a.

Definition approvals_keep (d d' : approvals) : Prop :=
  forall id a, d !! id = Some a -> exists a', d' !! id = Some a' /\ same_request a a' /\ (a_Status a <> "pending" -> a' = a).

Record grows (s s' : shared) : Prop := {
  g_runs : runs_keep (worker_runs s) (worker_runs s');
  g_approvals : approvals_keep (worker_approvals s) (worker_approvals s');
  g_launches : launches s ⊆ launches s';
  g_asked : asked s ⊆ asked s' }.

Lemma same_request_refl a : same_request a a.
Proof. by unfold same_request. Qed.

Lemma runs_keep_refl r : runs_keep r r.
Proof. intros id row H. by exists row. Qed.

Lemma approvals_keep_refl d : approvals_keep d d.
Proof. intros id a H. exists a. split_and!; [done|apply same_request_refl|done]. Qed.

#[export] Instance grows_preorder : PreOrder grows.
Proof.
  split.
  - intros s. constructor; [apply runs_keep_refl|apply approvals_keep_refl|done|done].
  - intros s1 s2 s3 [R1 A1 L1 K1] [R2 A2 L2 K2]. constructor; [| |set_solver|set_solver].
    + intros id row H. destruct (R1 id row H) as (row' & H' & Hw & Hc). destruct (R2 id row' H') as (row2 & H2 & Hw2 & Hc2).
      exists row2. split_and!; [done|congruence|]. intros Hs. specialize (Hc Hs). subst row'. auto.
    + intros id a H. destruct (A1 id a H) as (a' & H' & Hr & Hc). destruct (A2 id a' H') as (a2 & H2 & Hr2 & Hc2).
      exists a2. unfold same_request in *. split_and!; try done; try (destruct_and!; congruence).
      intros Hs. specialize (Hc Hs). subst a'. auto.
Qed.

Lemma UpdateWorkerRunStatus_keep id f db db' : UpdateWorkerRunStatus id f db = Some db' -> runs_keep db db'.
Proof.
  unfold UpdateWorkerRunStatus. destruct (db !! id) as [r|] eqn:E; [|done]. case_bool_decide as Hc; intros [= <-]; [apply runs_keep_refl|].
  intros id' row H. destruct (decide (id = id')) as [<-|Hn].
  - exists (finalized f r). rewrite lookup_insert_eq. simplify_eq. split_and!; [done|done|]. intros Hs. by destruct Hc.
  - exists row. by rewrite lookup_insert_ne.
Qed.

Lemma CancelRun_keep id reason db db' : CancelRun id reason db = Some db' -> runs_keep db db'.
Proof.
  unfold CancelRun. destruct (db !! id) as [r|] eqn:E; [|done]. case_bool_decide as Hc; [|done]. intros [= <-].
  intros id' row H. destruct (decide (id = id')) as [<-|Hn].
  - eexists. rewrite lookup_insert_eq. simplify_eq. split_and!; [done|done|]. intros Hs. by rewrite Hs in Hc.
  - exists row. by rewrite lookup_insert_ne.
Qed.

Lemma insert_run_keep id r db : db !! id = None -> runs_keep db (<[id := r]> db).
Proof. intros H id' row H'. exists row. rewrite lookup_insert_ne; [done|]. intros ->. congruence. Qed.

Lemma Reap_keep ws t db : runs_keep db (ReapOrphanedRunningRuns ws t db).
Proof.
  intros id row H. unfold ReapOrphanedRunningRuns. rewrite lookup_fmap, H. cbn. eexists. split; [done|].
  destruct (bool_decide (Status row = _ \/ _)) eqn:E; cbn [andb]; [|done]. apply bool_decide_eq_true in E.
  destruct (_ && _); (split; [done|]); [|done]. intros Hs. rewrite Hs in E. by destruct E.
Qed.

Lemma CreateWorkerApproval_keep id a d d' : CreateWorkerApproval id a d = Some d' -> approvals_keep d d'.
Proof.
  unfold CreateWorkerApproval. case_bool_decide; [done|]. destruct (d !! id) eqn:E; [done|]. intros [= <-] id' b Hb.
  exists b. rewrite lookup_insert_ne by (intros ->; congruence). split_and!; [done|apply same_request_refl|done].
Qed.

Lemma DecideWorkerApproval_keep id decision by_ resumed d d' : DecideWorkerApproval id decision by_ resumed d = Some d' -> approvals_keep d d'.
Proof.
  unfold DecideWorkerApproval. destruct (negb _); [done|]. destruct (d !! id) as [a|] eqn:E; [|done]. case_bool_decide as Hp; [|done].
  intros [= <-] id' b Hb. destruct (decide (id = id')) as [<-|Hn].
  - eexists. rewrite lookup_insert_eq. simplify_eq. split_and!; [done|done|]. intros Hs. by destruct Hs.
  - exists b. rewrite lookup_insert_ne by done. split_and!; [done|apply same_request_refl|done].
Qed.

Lemma grows_by s s' : runs_keep (worker_runs s) (worker_runs s') -> approvals_keep (worker_approvals s) (worker_approvals s') ->
  launches s ⊆ launches s' -> asked s ⊆ asked s' -> grows s s'.
Proof. by constructor. Qed.

Lemma grows_runs s db : runs_keep (worker_runs s) db -> grows s (set_runs db s).
Proof. intros H. constructor; cbn; [done|apply approvals_keep_refl|done|done]. Qed.

Lemma grows_approvals s d : approvals_keep (worker_approvals s) d -> grows s (set_approvals d s).
Proof. intros H. constructor; cbn; [apply runs_keep_refl|done|done|done]. Qed.

(** ** Who is in flight *)

Definition flight (pc : run_pc) : option string :=
  match pc with
  | RPrepare _ rid | RLoop _ rid | RFinish _ rid _ _ | RApproval _ rid _ | RAutoGet _ rid | RAutoCost _ rid _ | RAutoStreak _ rid _
  | RAutoPause _ rid _ _ | RUnregister _ rid _ => Some rid
  | _ => None
  end.

Definition thread_flight (th : thread) : option string :=
  match th with TRun _ pc | TResume _ _ _ pc => flight pc | _ => None end.

(** The runs a thread would flip without asking their runner. *)
Definition targets (th : thread) : list string := match th with TFlip rid _ | TEnableFlip rid _ => [rid] | _ => [] end.

Definition mentions (th : thread) : list string :=
  match th with
  | TFlip rid _ | TCancel rid _ => [rid]
  | TEnableCancel rids => rids
  | TEnableFlip rid rids => rid :: rids
  | _ => []
  end.

(** How a step changes who is in flight. *)
Inductive flight_change (s s' : shared) (before after : option string) : Prop :=
| Same : after = before -> dom (activeRuns s') = dom (activeRuns s) -> flight_change s s' before after
| Takeoff rid : before = None -> after = Some rid -> rid ∉ map l_id (launches s) -> worker_runs s !! rid = None ->
    activeRuns s' = <[rid := None]> (activeRuns s) -> flight_change s s' before after
| Landing rid : before = Some rid -> after = None -> activeRuns s' = delete rid (activeRuns s) -> flight_change s s' before after.

Lemma run_step_flight e j pc s pc' s' : run_step e j pc s = Some (pc', s') -> flight_change s s' (flight pc) (flight pc').
Proof.
  destruct pc; cbn [run_step flight]; try done.
  - intros [= <- <-]. apply Same; [|done]. destruct (workers s !! _); [|done]. by destruct (_ && _).
  - intros [= <- <-]. apply Same; [|done]. destruct (workers s !! _); [|done]. by destruct (_ && _).
  - destruct (Slots.is_queue _); [by intros [= <- <-]; apply Same|]. case_bool_decide; intros [= <- <-]; by apply Same.
  - destruct (_ && _); intros [= <- <-]; by apply Same.
  - destruct (_ || _) eqn:E; [done|]. intros [= <- <-]. apply orb_false_iff in E as [E1%bool_decide_eq_false E2%bool_decide_eq_false].
    eapply Takeoff; [done|done|done| |done]. destruct (worker_runs s !! fresh e) eqn:E; [|done]. destruct E2. by eexists.
  - destruct (_ && _); intros [= <- <-]; by apply Same.
  - destruct (outcome_ok _ _ _); [|done]. intros [= <- <-]. by apply Same.
  - intros [= <- <-]. apply Same; [by case_bool_decide|]. destruct (ok e); [|done]. by destruct (UpdateWorkerRunStatus _ _ _).
  - intros [= <- <-]. apply Same; [done|]. destruct pending; [|done]. destruct (ok e); [|done]. by destruct (CreateWorkerApproval _ _ _).
  - intros [= <- <-]. apply Same; [|done]. destruct (workers s !! _); [|done]. by destruct (_ && _).
  - intros [= <- <-]. apply Same; [|done]. by destruct (if ok e then _ else None).
  - intros [= <- <-]. apply Same; [|done]. by destruct (if ok e then _ else None).
  - intros [= <- <-]. apply Same; [done|]. unfold put_worker. by destruct (_ && _).
  - intros [= <- <-]. by eapply Landing.
  - intros [= <- <-]. apply Same; [done|]. by destruct slot.
Qed.

Lemma signal_dom rid reason s s' : signal rid reason s = Some s' -> dom (activeRuns s') = dom (activeRuns s).
Proof.
  unfold signal. destruct (activeRuns s !! rid) eqn:E; [|done]. intros [= <-]. cbn. rewrite dom_insert_L. apply elem_of_dom_2 in E. set_solver.
Qed.

Lemma flip_active e rid reason s : activeRuns (flip e rid reason s) = activeRuns s.
Proof. unfold flip. destruct (ok e); [|done]. by destruct (CancelRun _ _ _). Qed.

Lemma resume_step e id by_ a pc s th' s' : thread_step e (TResume id by_ a pc) s = Some (th', s') ->
  (exists res, pc = RDone res /\ th' = match res with Some rid => TDecide id by_ a "approved" rid | None => TDone end /\ s' = s) \/
  (exists pc', run_step e (resume_job a) pc s = Some (pc', s') /\ th' = TResume id by_ a pc').
Proof.
  assert ((exists res, pc = RDone res) \/ forall X (f : option string -> X) (g : X), match pc with RDone res => f res | _ => g end = g) as [[res ->]|Hpc].
  { destruct pc; try (by right). left. by eexists. }
  - intros [= <- <-]. left. by exists res.
  - cbn [thread_step]. rewrite Hpc. destruct (run_step e (resume_job a) pc s) as [[pc1 s1]|]; [|done]. intros [= <- <-]. right. by exists pc1.
Qed.

Lemma thread_step_flight e th s th' s' : thread_step e th s = Some (th', s') -> flight_change s s' (thread_flight th) (thread_flight th').
Proof.
  destruct th; cbn [thread_step thread_flight]; try done.
  - destruct (run_step e j pc s) as [[pc1 s1]|] eqn:E; [|done]. intros [= <- <-]. by eapply run_step_flight.
  - intros [= <- <-]. apply Same; [by destruct (pending_row _ _ _)|done].
  - intros [(res & -> & -> & ->)|(pc1 & E & ->)]%resume_step; [apply Same; [by destruct res|done]|by eapply run_step_flight].
  - intros [= <- <-]. apply Same; [by destruct (pending_row _ _ _)|done].
  - destruct (if ok e then _ else None); intros [= <- <-]; apply Same; try done; by case_bool_decide.
  - intros [= <- <-]. apply Same; [done|]. destruct (ok e); [|done]. by destruct (UpdateWorkerRunStatus _ _ _).
  - destruct (signal _ _ _) eqn:E; intros [= <- <-]; apply Same; try done. by eapply signal_dom.
  - intros [= <- <-]. apply Same; [done|]. by rewrite flip_active.
  - intros [= <- <-]. apply Same; [|done]. destruct (workers s !! w); [|done]. destruct (_ || _); [done|]. case_bool_decide; [by destruct on|done].
  - unfold put_worker. destruct (_ && _); intros [= <- <-]; by apply Same.
  - intros [= <- <-]. apply Same; [by destruct (ok e)|done].
  - destruct rids as [|rid rids]; [by intros [= <- <-]; apply Same|]. destruct (signal _ _ _) eqn:E; intros [= <- <-]; apply Same; try done.
    by eapply signal_dom.
  - intros [= <- <-]. apply Same; [by destruct (ok e)|]. by rewrite flip_active.
  - intros [= <- <-]. apply Same; [|done]. destruct (workers s !! w); [|done]. destruct (if ok e && _ then f _ else None); [by destruct (_ && _)|done].
  - unfold put_worker. destruct (_ && _); intros [= <- <-]; by apply Same.
  - intros [= <- <-]. apply Same; [|done]. destruct (workers s !! w); [by destruct (_ && _)|done].
Qed.

(** ** Where runs and approvals come from *)

Definition launched (s : shared) (rid w : string) : Prop := exists l, l ∈ launches s /\ l_id l = rid /\ l_worker l = w.

(** Somebody asked to grant an approval of this worker for this tool. *)
Definition granted (s : shared) (w tool : string) : Prop :=
  exists id a, id ∈ asked s /\ worker_approvals s !! id = Some a /\ a_WorkerID a = w /\ a_ToolName a = tool.

Record ledger (s : shared) : Prop := {
  lg_approvals : forall id a, worker_approvals s !! id = Some a -> launched s (a_RunID a) (a_WorkerID a);
  lg_launches : forall l tool, l ∈ launches s -> tool ∈ l_pre l -> granted s (l_worker l) tool }.

Lemma launched_grows s s' rid w : grows s s' -> launched s rid w -> launched s' rid w.
Proof. intros [_ _ Hl _] (l & Hin & H). exists l. split; [by apply Hl|done]. Qed.

Lemma granted_grows s s' w tool : grows s s' -> granted s w tool -> granted s' w tool.
Proof.
  intros [_ Ha _ Hk] (id & a & Hid & H & Hw & Ht). destruct (Ha id a H) as (a' & H' & (E1 & _ & E3 & _) & _).
  exists id, a'. split_and!; [by apply Hk|done|congruence..].
Qed.

(** Rows and launches unchanged, the ledger stays true. *)
Lemma ledger_same s s' : worker_approvals s' = worker_approvals s -> launches s' = launches s -> asked s' = asked s -> ledger s -> ledger s'.
Proof. intros Ha Hl Hk [H1 H2]. unfold granted, launched in *. constructor; unfold launched, granted; rewrite ?Ha, ?Hl, ?Hk; auto. Qed.

Lemma ledger_grows s s' : ledger s -> grows s s' ->
  (forall id a, worker_approvals s' !! id = Some a -> launched s' (a_RunID a) (a_WorkerID a)) ->
  (forall l, l ∈ launches s' -> l ∈ launches s \/ forall tool, tool ∈ l_pre l -> granted s (l_worker l) tool) -> ledger s'.
Proof.
  intros [H1 H2] Hg Ha Hl. constructor; [done|]. intros l tool Hin Ht. apply (granted_grows s s'); [done|].
  destruct (Hl l Hin) as [?|?]; auto.
Qed.

Definition unborn (pc : run_pc) : option string := match pc with RPrepare _ rid => Some rid | _ => None end.

Definition in_launch (s : shared) (pc : run_pc) (w : string) : Prop := forall rid, flight pc = Some rid -> launched s rid w.

Lemma run_step_sound e j pc s pc' s' : in_launch s pc (j_worker j) -> (forall rid, unborn pc = Some rid -> worker_runs s !! rid = None) ->
  ledger s -> (forall tool, tool ∈ j_pre j -> granted s (j_worker j) tool) -> run_step e j pc s = Some (pc', s') ->
  grows s s' /\ ledger s' /\ in_launch s' pc' (j_worker j) /\
  forall rid, is_Some (worker_runs s' !! rid) -> is_Some (worker_runs s !! rid) \/ unborn pc = Some rid.
Proof.
  intros Hl Hu Hg Hpre Hs.
  assert (forall pc', s' = s -> flight pc' = None \/ flight pc' = flight pc -> grows s s' /\ ledger s' /\ in_launch s' pc' (j_worker j) /\
    forall rid, is_Some (worker_runs s' !! rid) -> is_Some (worker_runs s !! rid) \/ unborn pc = Some rid) as Hsame.
  { intros pc1 -> Hf. split_and!; [reflexivity|done| |by left]. intros rid Hr. destruct Hf as [Hf|Hf]; rewrite Hf in Hr; [done|by apply Hl]. }
  assert (forall pc' s1, s' = s1 -> worker_runs s1 = worker_runs s -> worker_approvals s1 = worker_approvals s -> launches s1 = launches s -> asked s1 = asked s ->
    flight pc' = None \/ flight pc' = flight pc -> grows s s' /\ ledger s' /\ in_launch s' pc' (j_worker j) /\
    forall rid, is_Some (worker_runs s' !! rid) -> is_Some (worker_runs s !! rid) \/ unborn pc = Some rid) as Hmem.
  { intros pc1 s1 -> E1 E2 E3 E4 Hf. split_and!.
    - constructor; rewrite ?E1, ?E2, ?E3, ?E4; [apply runs_keep_refl|apply approvals_keep_refl|done|done].
    - by apply (ledger_same s).
    - intros rid Hr. unfold launched. rewrite E3. destruct Hf as [Hf|Hf]; rewrite Hf in Hr; [done|by apply Hl].
    - rewrite E1. by left. }
  assert (forall pc' db, s' = set_runs db s -> runs_keep (worker_runs s) db -> flight pc' = flight pc ->
    (forall rid, is_Some (db !! rid) -> is_Some (worker_runs s !! rid) \/ unborn pc = Some rid) ->
    grows s s' /\ ledger s' /\ in_launch s' pc' (j_worker j) /\
    forall rid, is_Some (worker_runs s' !! rid) -> is_Some (worker_runs s !! rid) \/ unborn pc = Some rid) as Hrows.
  { intros pc1 db -> Hk Hf Hd. split_and!; [by apply grows_runs|by apply (ledger_same s)| |done]. intros rid Hr. rewrite Hf in Hr. by apply Hl. }
  destruct pc; cbn [run_step] in Hs; try done.
  - injection Hs as <- <-. apply Hsame; [done|left]. destruct (workers s !! _); [|done]. by destruct (_ && _).
  - injection Hs as <- <-. apply Hsame; [done|left]. destruct (workers s !! _); [|done]. by destruct (_ && _).
  - destruct (Slots.is_queue _); [injection Hs as <- <-; apply Hsame; auto|].
    case_bool_decide; injection Hs as <- <-; [apply Hsame; auto|by eapply Hmem; auto].
  - destruct (_ && _); injection Hs as <- <-; [apply Hsame; auto|by eapply Hmem; auto].
  - destruct (_ || _); [done|]. injection Hs as <- <-. set (l := {| l_id := fresh e; l_worker := j_worker j; l_pre := j_pre j |}).
    assert (grows s (add_launch l (set_active (<[fresh e:=None]> (activeRuns s)) s))) as Hgr
      by (constructor; cbn; [apply runs_keep_refl|apply approvals_keep_refl|set_solver|done]).
    split_and!; [done| | |by left].
    + apply (ledger_grows s); [done|done| |].
      * intros id a Ha. eapply launched_grows; [done|]. by eapply lg_approvals.
      * intros l' [->|Hin]%elem_of_cons; [by right|by left].
    + intros rid [= <-]. exists l. split; [by left|done].
  - destruct (_ && _); injection Hs as <- <-; [|apply Hsame; auto].
    pose proof (Hu rid eq_refl) as Hnone. apply (Hrows _ (<[rid := new_run e j]> (worker_runs s))); [done|by apply insert_run_keep|done|].
    intros r Hr. destruct (decide (rid = r)) as [->|Hn]; [by right|]. rewrite lookup_insert_ne in Hr by done. by left.
  - destruct (outcome_ok _ _ _); [|done]. injection Hs as <- <-. apply Hsame; auto.
  - injection Hs as <- Hs. assert (flight (if bool_decide (f_Status fin0 = StatusAwaitingApproval) then RApproval slot rid pending else RAutoGet slot rid) = Some rid) as Hf by (by case_bool_decide).
    destruct (ok e); [|by eapply Hmem; [symmetry; exact Hs|..]; auto].
    destruct (UpdateWorkerRunStatus rid fin0 (worker_runs s)) as [db|] eqn:E; [|apply Hsame; auto].
    apply (Hrows _ db); [done|by eapply UpdateWorkerRunStatus_keep|done|]. intros r Hr. left. revert E. unfold UpdateWorkerRunStatus.
    destruct (worker_runs s !! rid) eqn:Er; [|done]. intros [= Hdb]. rewrite <- Hdb in Hr. case_bool_decide; [done|].
    destruct (decide (rid = r)) as [->|Hn]; [by eexists|]. by rewrite lookup_insert_ne in Hr.
  - injection Hs as <- Hs. destruct pending as [p|]; [|apply Hsame; auto]. destruct (ok e); [|apply Hsame; auto].
    destruct (CreateWorkerApproval _ _ _) as [d|] eqn:E; [|apply Hsame; auto]. subst s'.
    assert (grows s (set_approvals d s)) as Hgr by (by apply grows_approvals, (CreateWorkerApproval_keep _ _ _ _ E)).
    split_and!; [done| | |by left].
    + apply (ledger_grows s); [done|done| |by left]. intros id a Ha. eapply launched_grows; [done|]. revert E Ha. unfold CreateWorkerApproval.
      case_bool_decide; [done|]. destruct (worker_approvals s !! fresh e); [done|]. intros [= <-]. cbn.
      destruct (decide (fresh e = id)) as [<-|Hn]; [|rewrite lookup_insert_ne by done; by apply lg_approvals].
      rewrite lookup_insert_eq. intros [= <-]. cbn. by apply Hl.
    + intros r Hr. eapply launched_grows; [done|]. by apply Hl.
  - injection Hs as <- <-. apply Hsame; [done|right]. destruct (workers s !! _); [|done]. by destruct (_ && _).
  - injection Hs as <- <-. apply Hsame; [done|right]. by destruct (if ok e then _ else None).
  - injection Hs as <- <-. apply Hsame; [done|right]. by destruct (if ok e then _ else None).
  - injection Hs as <- Hs. unfold put_worker in Hs. destruct (_ && _); [|apply Hsame; auto]. eapply Hmem; [symmetry; exact Hs|..]; auto.
  - injection Hs as <- <-. eapply Hmem; auto.
  - injection Hs as <- Hs. destruct slot; [|apply Hsame; auto]. eapply Hmem; [symmetry; exact Hs|..]; auto.
Qed.

(** ** Threads *)

Definition backed (s : shared) (id : string) (a : WorkerApproval) : Prop :=
  exists a', worker_approvals s !! id = Some a' /\ a_WorkerID a' = a_WorkerID a /\ a_ToolName a' = a_ToolName a.

Definition sound (s : shared) (th : thread) : Prop :=
  match th with
  | TRun j pc => j_pre j = [] /\ in_launch s pc (j_worker j)
  | TApprove id _ => id ∈ asked s
  | TResume id _ a pc => id ∈ asked s /\ backed s id a /\ in_launch s pc (a_WorkerID a)
  | _ => True
  end /\ forall rid, rid ∈ mentions th -> is_Some (worker_runs s !! rid).

Lemma sound_grows s s' th : grows s s' -> sound s th -> sound s' th.
Proof.
  intros Hg [H Hm]. split.
  - destruct th; try done.
    + destruct H as [Hp H]. split; [done|]. intros rid Hr. by eapply launched_grows, H.
    + by apply (g_asked _ _ Hg).
    + destruct H as (H1 & (a & Ha & Hw & Ht) & H3). split_and!; [by apply (g_asked _ _ Hg)| |intros rid Hr; by eapply launched_grows, H3].
      destruct (g_approvals _ _ Hg id a Ha) as (a' & Ha' & (E1 & _ & E3 & _) & _). exists a'. split_and!; [done|congruence..].
  - intros rid Hr. destruct (Hm rid Hr) as [row Hrow]. destruct (g_runs _ _ Hg rid row Hrow) as (row' & H' & _). by eexists.
Qed.

Definition thread_unborn (th : thread) : option string := match th with TRun _ pc | TResume _ _ _ pc => unborn pc | _ => None end.

(** A step that leaves the ledger's parts alone. *)
Lemma quiet_step s s' th' : runs_keep (worker_runs s) (worker_runs s') -> approvals_keep (worker_approvals s) (worker_approvals s') ->
  launches s' = launches s -> asked s' = asked s ->
  (forall rid, is_Some (worker_runs s' !! rid) -> is_Some (worker_runs s !! rid)) ->
  (forall id a', worker_approvals s' !! id = Some a' -> exists a, worker_approvals s !! id = Some a /\ same_request a a') ->
  ledger s -> sound s th' -> grows s s' /\ ledger s' /\ sound s' th' /\ forall rid, is_Some (worker_runs s' !! rid) -> is_Some (worker_runs s !! rid).
Proof.
  intros Hr Ha Hl Hk Hkeys Hback Hg Hs. assert (grows s s') as Hgr by (by constructor; rewrite ?Hl, ?Hk).
  split_and!; [done| |by eapply sound_grows|done]. apply (ledger_grows s); [done|done| |].
  - intros id a' Ha'. destruct (Hback id a' Ha') as (a & H & (E1 & E2 & _)). rewrite E1, E2. eapply launched_grows; [done|]. by eapply lg_approvals.
  - rewrite Hl. by left.
Qed.

Lemma CancelRun_keys rid reason db db' : CancelRun rid reason db = Some db' -> forall k, is_Some (db' !! k) -> is_Some (db !! k).
Proof.
  unfold CancelRun. destruct (db !! rid) eqn:E; [|done]. case_bool_decide; [|done]. intros [= <-] k Hk.
  destruct (decide (rid = k)) as [<-|Hn]; [by eexists|]. by rewrite lookup_insert_ne in Hk.
Qed.

Lemma UpdateWorkerRunStatus_keys rid f db db' : UpdateWorkerRunStatus rid f db = Some db' -> forall k, is_Some (db' !! k) -> is_Some (db !! k).
Proof.
  unfold UpdateWorkerRunStatus. destruct (db !! rid) eqn:E; [|done]. intros [= Hdb] k Hk. rewrite <- Hdb in Hk. case_bool_decide; [done|].
  destruct (decide (rid = k)) as [<-|Hn]; [by eexists|]. by rewrite lookup_insert_ne in Hk.
Qed.

Lemma approvals_back (d : approvals) : forall id a', d !! id = Some a' -> exists a, d !! id = Some a /\ same_request a a'.
Proof. intros id a' H. exists a'. split; [done|apply same_request_refl]. Qed.

Lemma Decide_back id decision by_ resumed (d d' : approvals) : DecideWorkerApproval id decision by_ resumed d = Some d' ->
  forall k a', d' !! k = Some a' -> exists a, d !! k = Some a /\ same_request a a'.
Proof.
  unfold DecideWorkerApproval. destruct (negb _); [done|]. destruct (d !! id) as [a|] eqn:E; [|done]. case_bool_decide; [|done].
  intros [= <-] k a' Hk. destruct (decide (id = k)) as [<-|Hn].
  - rewrite lookup_insert_eq in Hk. injection Hk as <-. by exists a.
  - rewrite lookup_insert_ne in Hk by done. by apply approvals_back in Hk.
Qed.

(** Steps that write at most a run's row. *)
Lemma rows_step s s' th' : (s' = s \/ exists db, s' = set_runs db s /\ runs_keep (worker_runs s) db /\ forall k, is_Some (db !! k) -> is_Some (worker_runs s !! k)) ->
  ledger s -> sound s th' -> grows s s' /\ ledger s' /\ sound s' th' /\ forall rid, is_Some (worker_runs s' !! rid) -> is_Some (worker_runs s !! rid).
Proof.
  intros [->|(db & -> & Hk & Hd)] Hg Hs; (apply quiet_step; [..|done|done]); cbn; try done;
    try apply runs_keep_refl; try apply approvals_keep_refl; apply approvals_back.
Qed.

(** Steps that touch neither runs nor approvals. *)
Lemma memory_step s s' th' : worker_runs s' = worker_runs s -> worker_approvals s' = worker_approvals s -> launches s' = launches s -> asked s' = asked s ->
  ledger s -> sound s th' -> grows s s' /\ ledger s' /\ sound s' th' /\ forall rid, is_Some (worker_runs s' !! rid) -> is_Some (worker_runs s !! rid).
Proof.
  intros E1 E2 E3 E4 Hg Hs. apply quiet_step; rewrite ?E1, ?E2; try done; [apply runs_keep_refl|apply approvals_keep_refl|apply approvals_back].
Qed.

Lemma flip_rows e rid reason s : flip e rid reason s = s \/
  exists db, flip e rid reason s = set_runs db s /\ runs_keep (worker_runs s) db /\ forall k, is_Some (db !! k) -> is_Some (worker_runs s !! k).
Proof.
  unfold flip. destruct (ok e); [|by left]. destruct (CancelRun rid reason (worker_runs s)) as [db|] eqn:E; [|by left].
  right. exists db. split_and!; [done|by eapply CancelRun_keep|by eapply CancelRun_keys].
Qed.

Lemma put_worker_memory e w row s s' : put_worker e w row s = Some s' ->
  worker_runs s' = worker_runs s /\ worker_approvals s' = worker_approvals s /\ launches s' = launches s /\ asked s' = asked s.
Proof. unfold put_worker. destruct (_ && _); [|done]. by intros [= <-]. Qed.

Lemma signal_memory rid reason s s' : signal rid reason s = Some s' ->
  worker_runs s' = worker_runs s /\ worker_approvals s' = worker_approvals s /\ launches s' = launches s /\ asked s' = asked s.
Proof. unfold signal. destruct (_ !! _); [|done]. by intros [= <-]. Qed.

Lemma pending_row_Some e id s a : pending_row e id s = Some a -> worker_approvals s !! id = Some a /\ a_Status a = "pending".
Proof. unfold pending_row. destruct (_ || _); [done|]. destruct (worker_approvals s !! id); [|done]. case_bool_decide; [|done]. by intros [= <-]. Qed.

Lemma running_listed w db rid : rid ∈ ListRunningWorkerRuns w db -> is_Some (db !! rid).
Proof.
  unfold ListRunningWorkerRuns, of_worker. intros Hin. apply list_elem_of_fmap in Hin as ([k r] & -> & Hin).
  apply list_elem_of_filter in Hin as [_ Hin]. apply list_elem_of_filter in Hin as [_ Hin]. apply elem_of_map_to_list in Hin. by eexists.
Qed.

Lemma thread_step_sound e th s th' s' : sound s th -> (forall rid, thread_unborn th = Some rid -> worker_runs s !! rid = None) -> ledger s ->
  thread_step e th s = Some (th', s') ->
  grows s s' /\ ledger s' /\ sound s' th' /\ forall rid, is_Some (worker_runs s' !! rid) -> is_Some (worker_runs s !! rid) \/ thread_unborn th = Some rid.
Proof.
  intros [Hs Hm] Hu Hg Hstep.
  assert ((grows s s' /\ ledger s' /\ sound s' th' /\ forall rid, is_Some (worker_runs s' !! rid) -> is_Some (worker_runs s !! rid)) ->
    grows s s' /\ ledger s' /\ sound s' th' /\ forall rid, is_Some (worker_runs s' !! rid) -> is_Some (worker_runs s !! rid) \/ thread_unborn th = Some rid) as Hweak
    by (intros (? & ? & ? & ?); split_and!; auto).
  assert (forall th, mentions th = [] -> match th with TRun _ _ | TApprove _ _ | TResume _ _ _ _ => False | _ => True end -> sound s th) as Hidle.
  { intros x Hx Hy. split; [by destruct x|]. rewrite Hx. by intros rid ?%elem_of_nil. }
  destruct th; try done.
  - cbn [thread_step] in Hstep. destruct (run_step e j pc s) as [[pc1 s1]|] eqn:E; [|done]. injection Hstep as <- <-. destruct Hs as [Hp Hl].
    destruct (run_step_sound e j pc s pc1 s1 Hl Hu Hg) as (H1 & H2 & H3 & H4); [rewrite Hp; by intros tool ?%elem_of_nil|done|].
    split_and!; [done|done| |done]. split; [done|]. by intros rid ?%elem_of_nil.
  - injection Hstep as <- <-. apply Hweak, rows_step; [by left|done|]. destruct (pending_row e id s) as [a|] eqn:E; [|by apply Hidle].
    apply pending_row_Some in E as [E _]. split; [|by intros rid ?%elem_of_nil]. split_and!; [done|by exists a|by intros rid].
  - apply resume_step in Hstep as [(res & -> & -> & ->)|(pc1 & E & ->)].
    + apply Hweak, rows_step; [by left|done|]. destruct res; by apply Hidle.
    + destruct Hs as (H1 & (a & Ha & Hw & Ht) & Hl).
      destruct (run_step_sound e (resume_job row) pc s pc1 s' Hl Hu Hg) as (G1 & G2 & G3 & G4); [|done|].
      * intros tool Htool. cbn in Htool. apply list_elem_of_singleton in Htool as ->. by exists id, a.
      * split_and!; [done|done| |done]. split; [|by intros rid ?%elem_of_nil]. split_and!; [by apply (g_asked _ _ G1)| |done].
        destruct (g_approvals _ _ G1 id a Ha) as (a' & Ha' & (E1 & _ & E3 & _) & _). exists a'. split_and!; [done|congruence..].
  - injection Hstep as <- <-. apply Hweak, rows_step; [by left|done|]. destruct (pending_row e id s); by apply Hidle.
  - cbn [thread_step] in Hstep. destruct (if ok e then _ else None) as [d|] eqn:E; injection Hstep as <- <-;
      [|apply Hweak, rows_step; [by left|done|by apply Hidle]].
    destruct (ok e); [|done]. apply Hweak, quiet_step; cbn; [apply runs_keep_refl|by eapply DecideWorkerApproval_keep|done|done|done|by eapply Decide_back|done|].
    case_bool_decide; by apply Hidle.
  - injection Hstep as <- <-. apply Hweak, rows_step; [|done|by apply Hidle]. destruct (ok e); [|by left].
    destruct (UpdateWorkerRunStatus _ _ _) as [db|] eqn:E; [|by left]. right. exists db.
    split_and!; [done|by eapply UpdateWorkerRunStatus_keep|by eapply UpdateWorkerRunStatus_keys].
  - cbn [thread_step] in Hstep. destruct (signal _ _ _) eqn:E; injection Hstep as <- <-.
    + apply signal_memory in E as (? & ? & ? & ?). apply Hweak, memory_step; try done. by apply Hidle.
    + apply Hweak, rows_step; [by left|done|]. by split.
  - injection Hstep as <- <-. apply Hweak, rows_step; [apply flip_rows|done|by apply Hidle].
  - injection Hstep as <- <-. apply Hweak, rows_step; [by left|done|]. destruct (workers s !! w); [|by apply Hidle].
    destruct (_ || _); [by apply Hidle|]. case_bool_decide; [destruct on|]; by apply Hidle.
  - cbn [thread_step] in Hstep. destruct (put_worker _ _ _ _) eqn:E; injection Hstep as <- <-.
    + apply put_worker_memory in E as (? & ? & ? & ?). apply Hweak, memory_step; try done; by apply Hidle.
    + apply Hweak, rows_step; [by left|done|by apply Hidle].
  - injection Hstep as <- <-. apply Hweak, rows_step; [by left|done|]. destruct (ok e); [|by apply Hidle].
    split; [done|]. intros rid Hr. by eapply running_listed.
  - destruct rids as [|rid rids]; [injection Hstep as <- <-; apply Hweak, rows_step; [by left|done|by apply Hidle]|].
    cbn [thread_step] in Hstep. destruct (signal _ _ _) eqn:E; injection Hstep as <- <-.
    + apply signal_memory in E as (? & ? & ? & ?). apply Hweak, memory_step; try done. split; [done|]. intros r Hr. apply Hm. by right.
    + apply Hweak, rows_step; [by left|done|]. by split.
  - injection Hstep as <- <-. apply Hweak, rows_step; [apply flip_rows|done|]. destruct (ok e); [|by apply Hidle].
    split; [done|]. intros r Hr. apply Hm. by right.
  - injection Hstep as <- <-. apply Hweak, rows_step; [by left|done|]. destruct (workers s !! w); [|by apply Hidle].
    destruct (if ok e && _ then f _ else None); [destruct (_ && _)|]; by apply Hidle.
  - cbn [thread_step] in Hstep. destruct (put_worker _ _ _ _) eqn:E; injection Hstep as <- <-.
    + apply put_worker_memory in E as (? & ? & ? & ?). apply Hweak, memory_step; try done; by apply Hidle.
    + apply Hweak, rows_step; [by left|done|by apply Hidle].
  - injection Hstep as <- <-. apply Hweak, rows_step; [by left|done|]. destruct (workers s !! w); [destruct (_ && _)|]; by apply Hidle.
Qed.

(** ** The invariant *)

Lemma run_step_unborn e j pc s pc' s' : run_step e j pc s = Some (pc', s') -> forall rid, unborn pc' = Some rid -> worker_runs s' !! rid = None.
Proof.
  destruct pc; cbn [run_step]; try done; intros Hs id' Hu.
  - injection Hs as <- <-. destruct (workers s !! _); [|done]. by destruct (_ && _).
  - injection Hs as <- <-. destruct (workers s !! _); [|done]. by destruct (_ && _).
  - destruct (Slots.is_queue _); [|case_bool_decide]; by injection Hs as <- <-.
  - destruct (_ && _); by injection Hs as <- <-.
  - destruct (_ || _) eqn:E; [done|]. injection Hs as <- <-. injection Hu as <-. apply orb_false_iff in E as [_ E%bool_decide_eq_false].
    cbn. by apply eq_None_not_Some.
  - destruct (_ && _); by injection Hs as <- <-.
  - destruct (outcome_ok _ _ _); [|done]. by injection Hs as <- <-.
  - injection Hs as <- <-. by case_bool_decide.
  - by injection Hs as <- <-.
  - injection Hs as <- <-. destruct (workers s !! _); [|done]. by destruct (_ && _).
  - injection Hs as <- <-. by destruct (if ok e then _ else None).
  - injection Hs as <- <-. by destruct (if ok e then _ else None).
  - by injection Hs as <- <-.
  - by injection Hs as <- <-.
  - by injection Hs as <- <-.
Qed.

Lemma thread_step_unborn e th s th' s' : thread_step e th s = Some (th', s') -> forall rid, thread_unborn th' = Some rid -> worker_runs s' !! rid = None.
Proof.
  destruct th; try done; intros Hs id' Hu.
  - cbn [thread_step] in Hs. destruct (run_step e j pc s) as [[pc1 s1]|] eqn:E; [|done]. injection Hs as <- <-. by eapply run_step_unborn.
  - injection Hs as <- <-. by destruct (pending_row _ _ _).
  - apply resume_step in Hs as [(res & _ & -> & _)|(pc1 & E & ->)]; [by destruct res|by eapply run_step_unborn].
  - injection Hs as <- <-. by destruct (pending_row _ _ _).
  - cbn [thread_step] in Hs. destruct (if ok e then _ else None); injection Hs as <- <-; [by case_bool_decide|done].
  - by injection Hs as <- <-.
  - cbn [thread_step] in Hs. by destruct (signal _ _ _); injection Hs as <- <-.
  - by injection Hs as <- <-.
  - injection Hs as <- <-. destruct (workers s !! w); [|done]. destruct (_ || _); [done|]. case_bool_decide; [by destruct on|done].
  - cbn [thread_step] in Hs. by destruct (put_worker _ _ _ _); injection Hs as <- <-.
  - injection Hs as <- <-. by destruct (ok e).
  - destruct rids; [by injection Hs as <- <-|]. cbn [thread_step] in Hs. by destruct (signal _ _ _); injection Hs as <- <-.
  - injection Hs as <- <-. by destruct (ok e).
  - injection Hs as <- <-. destruct (workers s !! w); [|done]. destruct (if ok e && _ then f _ else None); [by destruct (_ && _)|done].
  - cbn [thread_step] in Hs. by destruct (put_worker _ _ _ _); injection Hs as <- <-.
  - injection Hs as <- <-. destruct (workers s !! w); [by destruct (_ && _)|done].
Qed.

(** A run is flipped only once its runner was asked and had no entry for it. *)
Lemma thread_step_targets e th s th' s' : thread_step e th s = Some (th', s') -> forall rid, rid ∈ targets th' -> activeRuns s !! rid = None.
Proof.
  destruct th; try done; intros Hs id' Ht.
  - cbn [thread_step] in Hs. destruct (run_step e j pc s) as [[pc1 s1]|] eqn:E; [|done]. injection Hs as <- <-. by apply elem_of_nil in Ht.
  - injection Hs as <- <-. destruct (pending_row _ _ _); by apply elem_of_nil in Ht.
  - apply resume_step in Hs as [(res & _ & -> & _)|(pc1 & E & ->)]; [destruct res|]; by apply elem_of_nil in Ht.
  - injection Hs as <- <-. destruct (pending_row _ _ _); by apply elem_of_nil in Ht.
  - cbn [thread_step] in Hs. destruct (if ok e then _ else None); injection Hs as <- <-; [case_bool_decide|]; by apply elem_of_nil in Ht.
  - injection Hs as <- <-. by apply elem_of_nil in Ht.
  - cbn [thread_step] in Hs. destruct (signal _ _ _) eqn:E; injection Hs as <- <-; [by apply elem_of_nil in Ht|].
    apply list_elem_of_singleton in Ht as ->. revert E. unfold signal. by destruct (_ !! _).
  - injection Hs as <- <-. by apply elem_of_nil in Ht.
  - injection Hs as <- <-. destruct (workers s !! w); [|by apply elem_of_nil in Ht]. destruct (_ || _); [by apply elem_of_nil in Ht|].
    case_bool_decide; [destruct on|]; by apply elem_of_nil in Ht.
  - cbn [thread_step] in Hs. destruct (put_worker _ _ _ _); injection Hs as <- <-; by apply elem_of_nil in Ht.
  - injection Hs as <- <-. destruct (ok e); by apply elem_of_nil in Ht.
  - destruct rids as [|r rids]; [injection Hs as <- <-; by apply elem_of_nil in Ht|]. cbn [thread_step] in Hs.
    destruct (signal _ _ _) eqn:E; injection Hs as <- <-; [by apply elem_of_nil in Ht|].
    apply list_elem_of_singleton in Ht as ->. revert E. unfold signal. by destruct (_ !! _).
  - injection Hs as <- <-. destruct (ok e); by apply elem_of_nil in Ht.
  - injection Hs as <- <-. destruct (workers s !! w); [destruct (if ok e && _ then f _ else None); [destruct (_ && _)|]|]; by apply elem_of_nil in Ht.
  - cbn [thread_step] in Hs. destruct (put_worker _ _ _ _); injection Hs as <- <-; by apply elem_of_nil in Ht.
  - injection Hs as <- <-. destruct (workers s !! w); [destruct (_ && _)|]; by apply elem_of_nil in Ht.
Qed.

Record inv (s : state) : Prop := {
  i_ledger : ledger (mem s);
  i_sound : forall n th, threads s !! n = Some th -> sound (mem s) th;
  i_active : forall n th rid, threads s !! n = Some th -> thread_flight th = Some rid -> is_Some (activeRuns (mem s) !! rid);
  i_unique : forall n th n' th' rid, threads s !! n = Some th -> threads s !! n' = Some th' ->
    thread_flight th = Some rid -> thread_flight th' = Some rid -> n = n';
  i_targets : forall n th n' th' rid, threads s !! n = Some th -> threads s !! n' = Some th' -> rid ∈ targets th -> thread_flight th' <> Some rid;
  i_unborn : forall n th rid, threads s !! n = Some th -> thread_unborn th = Some rid -> worker_runs (mem s) !! rid = None }.

Lemma sound_known s th rid : sound s th -> thread_flight th = Some rid -> rid ∈ map l_id (launches s).
Proof.
  intros [H _] Hf. destruct th; try done.
  - destruct H as [_ H]. destruct (H rid Hf) as (l & Hin & <- & _). by apply list_elem_of_fmap_2.
  - destruct H as (_ & _ & H). destruct (H rid Hf) as (l & Hin & <- & _). by apply list_elem_of_fmap_2.
Qed.

Lemma targets_mentioned th rid : rid ∈ targets th -> rid ∈ mentions th.
Proof. destruct th; cbn; try (by intros ?%elem_of_nil); [done|]. intros ->%list_elem_of_singleton. by left. Qed.

Lemma unborn_flies th rid : thread_unborn th = Some rid -> thread_flight th = Some rid.
Proof. destruct th; try done; cbn; by destruct pc. Qed.

Lemma step_thread_inv s n e th th' m : inv s -> threads s !! n = Some th -> thread_step e th (mem s) = Some (th', m) ->
  inv {| mem := m; threads := <[n := th']> (threads s) |} /\ grows (mem s) m.
Proof.
  intros I Hn Hs. pose proof (i_sound s I n th Hn) as Hso.
  destruct (thread_step_sound e th (mem s) th' m Hso) as (Hg & Hl & Hso' & Hkeys); [by intros rid; eapply i_unborn|by apply i_ledger|done|].
  pose proof (thread_step_flight _ _ _ _ _ Hs) as Hf. pose proof (thread_step_unborn _ _ _ _ _ Hs) as Hu. pose proof (thread_step_targets _ _ _ _ _ Hs) as Ht.
  assert (forall k x, <[n:=th']> (threads s) !! k = Some x -> (k = n /\ x = th') \/ (k <> n /\ threads s !! k = Some x)) as Hlook.
  { intros k x Hk. apply list_lookup_insert_Some in Hk as [(-> & -> & _)|[Hne Hk]]; auto. }
  (* the others are not in flight on what this thread takes off with *)
  assert (forall k x rid, k <> n -> threads s !! k = Some x -> thread_flight x = Some rid -> thread_flight th' <> Some rid) as Hother.
  { intros k x rid Hne Hk Hx Hth'. destruct Hf as [Hsame _|r Hb Ha Hfresh _ _|r Hb Ha _].
    - apply Hne. eapply (i_unique s I k x n th rid); [done|done|done|congruence].
    - apply Hfresh. replace r with rid by congruence. apply (sound_known _ x); [by eapply i_sound|done].
    - congruence. }
  assert (forall k x rid, threads s !! k = Some x -> rid ∈ targets x -> thread_flight th' <> Some rid) as Hsafe.
  { intros k x rid Hk Hx Hth'. destruct Hf as [Hsame _|r Hb Ha _ Hrow _|r Hb Ha _].
    - eapply (i_targets s I k x n th rid); [done|done|done|congruence].
    - replace r with rid in Hrow by congruence. destruct (i_sound s I k x Hk) as [_ Hm].
      destruct (Hm rid (targets_mentioned _ _ Hx)). congruence.
    - congruence. }
  split; [|done]. constructor; cbn.
  - done.
  - intros k x [[-> ->]|[_ Hk]]%Hlook; [done|]. eapply sound_grows; [done|]. by eapply i_sound.
  - intros k x rid Hk Hx. destruct Hf as [Hsame Hdom|r Hb Ha _ _ Hact|r Hb Ha Hact].
    + apply elem_of_dom. rewrite Hdom. apply elem_of_dom. apply Hlook in Hk as [[-> ->]|[_ Hk]]; [|by eapply i_active].
      eapply (i_active s I n th); congruence.
    + rewrite Hact. destruct (decide (r = rid)) as [->|Hr]; [rewrite lookup_insert_eq; by eexists|]. rewrite lookup_insert_ne by done.
      apply Hlook in Hk as [[-> ->]|[_ Hk]]; [congruence|by eapply (i_active s I k x)].
    + rewrite Hact. apply Hlook in Hk as [[-> ->]|[Hne Hk]]; [congruence|]. rewrite lookup_delete_ne; [by eapply (i_active s I k x)|].
      intros ->. apply Hne. by eapply (i_unique s I k x n th rid).
  - intros k x k' x' rid Hk Hk' Hx Hx'. apply Hlook in Hk as [[-> ->]|[Hne Hk]], Hk' as [[-> ->]|[Hne' Hk']]; [done| | |by eapply i_unique].
    + by destruct (Hother k' x' rid Hne' Hk' Hx').
    + by destruct (Hother k x rid Hne Hk Hx).
  - intros k x k' x' rid Hk Hk' Hx Hx'. apply Hlook in Hk' as [[-> ->]|[Hne' Hk']].
    + apply Hlook in Hk as [[-> ->]|[Hne Hk]]; [|by destruct (Hsafe k x rid Hk Hx)]. destruct th'; cbn in Hx, Hx'; try done; by apply elem_of_nil in Hx.
    + apply Hlook in Hk as [[-> ->]|[Hne Hk]]; [|by destruct (i_targets s I k x k' x' rid Hk Hk' Hx)].
      destruct (i_active s I k' x' rid Hk' Hx') as [v Hv]. pose proof (Ht rid Hx). congruence.
  - intros k x rid Hk Hx. apply Hlook in Hk as [[-> ->]|[Hne Hk]]; [by apply Hu|]. pose proof (i_unborn s I k x rid Hk Hx) as Hnone.
    apply eq_None_not_Some. intros [[row Hrow]|Hb]%Hkeys; [congruence|]. apply Hne.
    eapply (i_unique s I k x n th rid); [done|done|by apply unborn_flies..].
Qed.

Lemma spawned_inv s l th m : inv s -> spawned l (mem s) = Some (th, m) -> inv {| mem := m; threads := threads s ++ [th] |} /\ grows (mem s) m.
Proof.
  intros I Hs.
  assert (grows (mem s) m /\ (m = mem s \/ exists id, m = add_asked id (mem s)) /\ sound m th /\ thread_flight th = None /\ targets th = []) as (Hg & Hm & Hso & Hf & Ht).
  { destruct l; cbn [spawned] in Hs; try done; [..|case_bool_decide as Hrow; [|done]| |]; injection Hs as <- <-; (split; [|split; [eauto|split; [|done]]]);
      try reflexivity; try (split; [try done|intros rid' ?%elem_of_nil; done]).
    - apply grows_by; cbn; [apply runs_keep_refl|apply approvals_keep_refl|done|set_solver].
    - by left.
    - split; [done|]. by intros rid' ->%list_elem_of_singleton. }
  assert (worker_runs m = worker_runs (mem s) /\ activeRuns m = activeRuns (mem s) /\ worker_approvals m = worker_approvals (mem s) /\ launches m = launches (mem s)) as (E1 & E2 & E3 & E4).
  { by destruct Hm as [->|[id ->]]. }
  assert (forall k x, (threads s ++ [th]) !! k = Some x -> threads s !! k = Some x \/ (x = th /\ k = length (threads s))) as Hlook.
  { intros k x [Hk|[Hge Hk]]%lookup_app_Some; [by left|right]. apply list_lookup_singleton_Some in Hk as [Hz ->]. split; [done|lia]. }
  split; [|done]. constructor; cbn; rewrite ?E1, ?E2.
  - eapply ledger_grows; [by apply i_ledger|done|rewrite E3|rewrite E4; by left]. intros id a Ha. eapply launched_grows; [done|].
    by eapply lg_approvals; [apply i_ledger|].
  - intros k x [Hk|[-> _]]%Hlook; [|done]. eapply sound_grows; [done|]. by eapply i_sound.
  - intros k x rid [Hk|[-> _]]%Hlook Hx; [by eapply i_active|congruence].
  - intros k x k' x' rid [Hk|[-> _]]%Hlook [Hk'|[-> _]]%Hlook Hx Hx'; try congruence. by eapply i_unique.
  - intros k x k' x' rid [Hk|[-> _]]%Hlook [Hk'|[-> _]]%Hlook Hx; try congruence; [by eapply (i_targets s I k x k' x')|..]; rewrite Ht in Hx; by apply elem_of_nil in Hx.
  - intros k x rid [Hk|[-> _]]%Hlook Hx; [by eapply i_unborn|]. apply unborn_flies in Hx. congruence.
Qed.

Lemma restarted_grows t b s : grows s (restarted t b s).
Proof. apply grows_by; destruct b; cbn; try done; try apply approvals_keep_refl; [apply Reap_keep|apply runs_keep_refl]. Qed.

Lemma runs_step_inv s l s' : inv s -> step s l = Some s' -> inv s' /\ grows (mem s) (mem s').
Proof.
  intros I Hs.
  destruct l as [| | | | | | |n e|t b]; cbn [step] in Hs;
    try (destruct (spawned _ (mem s)) as [[th m]|] eqn:E; [|done]; injection Hs as <-; by eapply spawned_inv).
  - destruct (threads s !! n) as [th|] eqn:En; [|done]. cbn [mbind option_bind] in Hs. destruct (thread_step e th (mem s)) as [[th' m]|] eqn:Et; [|done]. injection Hs as <-.
    by eapply step_thread_inv.
  - injection Hs as <-. pose proof (restarted_grows t b (mem s)) as Hg. split; [|done]. constructor; cbn; try done.
    eapply ledger_grows; [by apply i_ledger|done| |by destruct b; left]. replace (worker_approvals _) with (worker_approvals (mem s)) by (by destruct b). intros id a Ha. eapply launched_grows; [done|]. by eapply lg_approvals; [apply i_ledger|].
Qed.

Lemma runs_inv s ls s' : inv s -> run s ls = Some s' -> inv s' /\ grows (mem s) (mem s').
Proof.
  revert s. induction ls as [|l ls IH]; intros s I; cbn [run]; [by intros [= ->]|].
  destruct (step s l) as [s1|] eqn:E; [|done]. intros Hr. destruct (runs_step_inv _ _ _ I E) as [I1 G1]. destruct (IH s1 I1 Hr) as [I2 G2].
  split; [done|by etrans].
Qed.

Lemma runs_fresh_inv ws : inv (fresh_db ws).
Proof. constructor; cbn; try done. by constructor; cbn; [|intros l tool ?%elem_of_nil]. Qed.

(** ** One run at a time *)

Definition holds (pc : run_pc) : bool :=
  match pc with
  | RCount => true
  | RRegister slot | RPrepare slot _ | RLoop slot _ | RFinish slot _ _ _ | RApproval slot _ _ | RAutoGet slot _ | RAutoCost slot _ _
  | RAutoStreak slot _ _ | RAutoPause slot _ _ _ | RUnregister slot _ _ | RRelease slot _ => slot
  | _ => false
  end.

(** The worker whose slot a thread holds. *)
Definition thread_holds (th : thread) : option string :=
  match th with
  | TRun j pc => if holds pc then Some (j_worker j) else None
  | TResume _ _ a pc => if holds pc then Some (a_WorkerID a) else None
  | _ => None
  end.

Inductive slot_change (s s' : shared) (before after : option string) : Prop :=
| Kept : after = before -> workerSlots s' = workerSlots s -> slot_change s s' before after
| Taken w : before = None -> after = Some w -> w ∉ workerSlots s -> workerSlots s' = {[w]} ∪ workerSlots s -> slot_change s s' before after
| Freed w : before = Some w -> after = None -> workerSlots s' = workerSlots s ∖ {[w]} -> slot_change s s' before after.

Lemma UpdateWorkerRunStatus_slots e rid f s :
  workerSlots (if ok e then match UpdateWorkerRunStatus rid f (worker_runs s) with Some db => set_runs db s | None => s end else s) = workerSlots s.
Proof. destruct (ok e); [|done]. by destruct (UpdateWorkerRunStatus _ _ _). Qed.

Lemma put_worker_slots e w row s s' : put_worker e w row s = Some s' -> workerSlots s' = workerSlots s.
Proof. unfold put_worker. destruct (_ && _); [|done]. by intros [= <-]. Qed.

Lemma run_step_slot e j pc s pc' s' : run_step e j pc s = Some (pc', s') ->
  slot_change s s' (if holds pc then Some (j_worker j) else None) (if holds pc' then Some (j_worker j) else None).
Proof.
  destruct pc; cbn [run_step]; try done; intros Hs.
  - injection Hs as <- <-. apply Kept; [|done]. destruct (workers s !! _); [|done]. by destruct (_ && _).
  - injection Hs as <- <-. apply Kept; [|done]. destruct (workers s !! _); [|done]. by destruct (_ && _).
  - destruct (Slots.is_queue _); [by injection Hs as <- <-; apply Kept|]. case_bool_decide; injection Hs as <- <-; [by apply Kept|].
    by eapply Taken.
  - destruct (_ && _); injection Hs as <- <-; [by apply Kept|by eapply Freed].
  - destruct (_ || _); [done|]. injection Hs as <- <-. by apply Kept.
  - destruct (_ && _); injection Hs as <- <-; by apply Kept.
  - destruct (outcome_ok _ _ _); [|done]. injection Hs as <- <-. by apply Kept.
  - injection Hs as <- <-. apply Kept; [by case_bool_decide|]. destruct (ok e); [|done]. by destruct (UpdateWorkerRunStatus _ _ _).
  - injection Hs as <- <-. apply Kept; [done|]. destruct pending; [|done]. destruct (ok e); [|done]. by destruct (CreateWorkerApproval _ _ _).
  - injection Hs as <- <-. apply Kept; [|done]. destruct (workers s !! _); [|done]. by destruct (_ && _).
  - injection Hs as <- <-. apply Kept; [|done]. by destruct (if ok e then _ else None).
  - injection Hs as <- <-. apply Kept; [|done]. by destruct (if ok e then _ else None).
  - injection Hs as <- <-. apply Kept; [done|]. destruct (put_worker _ _ _ _) eqn:E; [by apply put_worker_slots in E|done].
  - injection Hs as <- <-. by apply Kept.
  - injection Hs as <- <-. destruct slot; [by eapply Freed|by apply Kept].
Qed.

Lemma flip_slots e rid reason s : workerSlots (flip e rid reason s) = workerSlots s.
Proof. unfold flip. destruct (ok e); [|done]. by destruct (CancelRun _ _ _). Qed.

Lemma signal_slots rid reason s s' : signal rid reason s = Some s' -> workerSlots s' = workerSlots s.
Proof. unfold signal. destruct (_ !! _); [|done]. by intros [= <-]. Qed.

Lemma thread_step_slot e th s th' s' : thread_step e th s = Some (th', s') -> slot_change s s' (thread_holds th) (thread_holds th').
Proof.
  destruct th; try done; intros Hs.
  - cbn [thread_step] in Hs. destruct (run_step e j pc s) as [[pc1 s1]|] eqn:E; [|done]. injection Hs as <- <-. by eapply run_step_slot.
  - injection Hs as <- <-. apply Kept; [by destruct (pending_row _ _ _)|done].
  - apply resume_step in Hs as [(res & -> & -> & ->)|(pc1 & E & ->)]; [apply Kept; [by destruct res|done]|]. by eapply run_step_slot in E.
  - injection Hs as <- <-. apply Kept; [by destruct (pending_row _ _ _)|done].
  - cbn [thread_step] in Hs. destruct (if ok e then _ else None); injection Hs as <- <-; apply Kept; try done; by case_bool_decide.
  - injection Hs as <- <-. apply Kept; [done|apply UpdateWorkerRunStatus_slots].
  - cbn [thread_step] in Hs. destruct (signal _ _ _) eqn:E; injection Hs as <- <-; apply Kept; try done. by eapply signal_slots.
  - injection Hs as <- <-. apply Kept; [done|apply flip_slots].
  - injection Hs as <- <-. apply Kept; [|done]. destruct (workers s !! w); [|done]. destruct (_ || _); [done|]. case_bool_decide; [by destruct on|done].
  - cbn [thread_step] in Hs. destruct (put_worker _ _ _ _) eqn:E; injection Hs as <- <-; apply Kept; try done. by eapply put_worker_slots.
  - injection Hs as <- <-. apply Kept; [by destruct (ok e)|done].
  - destruct rids as [|r rids]; [by injection Hs as <- <-; apply Kept|]. cbn [thread_step] in Hs.
    destruct (signal _ _ _) eqn:E; injection Hs as <- <-; apply Kept; try done. by eapply signal_slots.
  - injection Hs as <- <-. apply Kept; [by destruct (ok e)|apply flip_slots].
  - injection Hs as <- <-. apply Kept; [|done]. destruct (workers s !! w); [|done]. destruct (if ok e && _ then f _ else None); [by destruct (_ && _)|done].
  - cbn [thread_step] in Hs. destruct (put_worker _ _ _ _) eqn:E; injection Hs as <- <-; apply Kept; try done. by eapply put_worker_slots.
  - injection Hs as <- <-. apply Kept; [|done]. destruct (workers s !! w); [by destruct (_ && _)|done].
Qed.

Record slots_inv (s : state) : Prop := {
  sl_taken : forall n th w, threads s !! n = Some th -> thread_holds th = Some w -> w ∈ workerSlots (mem s);
  sl_unique : forall n th n' th' w, threads s !! n = Some th -> threads s !! n' = Some th' ->
    thread_holds th = Some w -> thread_holds th' = Some w -> n = n' }.

Lemma spawned_holds l s th m : spawned l s = Some (th, m) -> thread_holds th = None /\ workerSlots m = workerSlots s.
Proof. destruct l; cbn [spawned]; try done; try (case_bool_decide; [|done]); by intros [= <- <-]. Qed.

Lemma spawned_slots s l th m : slots_inv s -> spawned l (mem s) = Some (th, m) -> slots_inv {| mem := m; threads := threads s ++ [th] |}.
Proof.
  intros I [Hh Hm]%spawned_holds.
  assert (forall k x w, (threads s ++ [th]) !! k = Some x -> thread_holds x = Some w -> threads s !! k = Some x) as Hold.
  { intros k x w [Hk|[_ Hk]]%lookup_app_Some Hw; [done|]. apply list_lookup_singleton_Some in Hk as [_ ->]. congruence. }
  constructor; cbn.
  - rewrite Hm. intros k x w Hk Hw. by eapply (sl_taken s I k x); eauto.
  - intros k x k' x' w Hk Hk' Hw Hw'. by eapply (sl_unique s I k x k' x'); eauto.
Qed.

Lemma step_slots s l s' : slots_inv s -> step s l = Some s' -> slots_inv s'.
Proof.
  intros I Hs.
  destruct l as [| | | | | | |n e|t b]; cbn [step] in Hs;
    try (destruct (spawned _ (mem s)) as [[th m]|] eqn:E; [|done]; injection Hs as <-; by eapply spawned_slots).
  - destruct (threads s !! n) as [th|] eqn:En; [|done]. cbn [mbind option_bind] in Hs.
    destruct (thread_step e th (mem s)) as [[th' m]|] eqn:Et; [|done]. injection Hs as <-. apply thread_step_slot in Et.
    assert (forall k x, <[n:=th']> (threads s) !! k = Some x -> (k = n /\ x = th') \/ (k <> n /\ threads s !! k = Some x)) as Hlook.
    { intros k x Hk. apply list_lookup_insert_Some in Hk as [(-> & -> & _)|[Hne Hk]]; auto. }
    assert (forall k x w, k <> n -> threads s !! k = Some x -> thread_holds x = Some w -> thread_holds th' = Some w -> False) as Hother.
    { intros k x w Hne Hk Hw Hw'. destruct Et as [Hsame _|v _ Ha Hfree _|v _ Ha _]; [|apply Hfree; replace v with w by congruence; by eapply sl_taken|congruence].
      apply Hne. eapply (sl_unique s I k x n th w); congruence. }
    constructor; cbn.
    + intros k x w Hk Hw. destruct Et as [Hsame Hsl|v Hb Ha _ Hsl|v Hb Ha Hsl]; rewrite Hsl.
      * apply Hlook in Hk as [[-> ->]|[_ Hk]]; [eapply (sl_taken s I n th); congruence|by eapply (sl_taken s I k x)].
      * apply Hlook in Hk as [[-> ->]|[_ Hk]]; [set_solver|apply elem_of_union; right; by eapply (sl_taken s I k x)].
      * apply Hlook in Hk as [[-> ->]|[Hne Hk]]; [congruence|]. apply elem_of_difference. split; [by eapply (sl_taken s I k x)|].
        intros ->%elem_of_singleton. apply Hne. by eapply (sl_unique s I k x n th).
    + intros k x k' x' w Hk Hk' Hw Hw'. apply Hlook in Hk as [[-> ->]|[Hne Hk]], Hk' as [[-> ->]|[Hne' Hk']]; [done| | |by eapply sl_unique].
      * by destruct (Hother k' x' w Hne' Hk' Hw' Hw).
      * by destruct (Hother k x w Hne Hk Hw Hw').
  - injection Hs as <-. by constructor.
Qed.

Lemma run_slots s ls s' : slots_inv s -> run s ls = Some s' -> slots_inv s'.
Proof.
  revert s. induction ls as [|l ls IH]; intros s I; cbn [run]; [by intros [= ->]|].
  destruct (step s l) as [s1|] eqn:E; [|done]. apply IH. by eapply step_slots.
Qed.

Lemma fresh_slots ws : slots_inv (fresh_db ws).
Proof. constructor; cbn; intros *; rewrite lookup_nil; done. Qed.

(** ** Who owns a running row *)

(** The run a thread has yet to write the end of. *)
Definition open (pc : run_pc) : option string := match pc with RLoop _ rid | RFinish _ rid _ _ => Some rid | _ => None end.

Definition thread_open (th : thread) : option string := match th with TRun _ pc | TResume _ _ _ pc => open pc | _ => None end.

Definition fin_ok (pc : run_pc) : Prop := match pc with RFinish _ _ f _ => f_Status f ∈ outcome_statuses | _ => True end.

Definition thread_fin_ok (th : thread) : Prop := match th with TRun _ pc | TResume _ _ _ pc => fin_ok pc | _ => True end.

Definition running (s : shared) (rid : string) : Prop := exists r, worker_runs s !! rid = Some r /\ Status r = StatusRunning.

(** A step's effect on the running rows. *)
Definition rows_change (s s' : shared) (before after : option string) : Prop :=
  lost s ⊆ lost s' /\
  forall rid, running s' rid -> after = Some rid \/ rid ∈ lost s' \/ (before <> Some rid /\ running s rid).

Lemma rows_same s s' before after : worker_runs s' = worker_runs s -> lost s' = lost s -> (before = None \/ after = before) -> rows_change s s' before after.
Proof.
  intros E1 E2 Hb. unfold rows_change, running. rewrite E1, E2. split; [done|]. intros rid Hr. destruct Hb as [->| ->]; [by right; right|].
  destruct (decide (before = Some rid)) as [->|Hn]; [by left|by right; right].
Qed.

Lemma rows_settled s s' before rid (r : WorkerRun) : worker_runs s' = <[rid := r]> (worker_runs s) -> lost s' = lost s -> Status r <> StatusRunning ->
  (before = None \/ before = Some rid) -> rows_change s s' before None.
Proof.
  intros E1 E2 Hr Hb. split; [by rewrite E2|]. intros k (r' & Hk & Hs). rewrite E1 in Hk. right. right. destruct (decide (rid = k)) as [<-|Hn].
  - rewrite lookup_insert_eq in Hk. congruence.
  - rewrite lookup_insert_ne in Hk by done. split; [intros ->; destruct Hb; congruence|by exists r'].
Qed.

Lemma running_no_outcome : StatusRunning ∉ outcome_statuses.
Proof. apply (bool_decide_unpack (StatusRunning ∉ outcome_statuses)). vm_compute. exact I. Qed.

Lemma run_step_rows e j pc s pc' s' : fin_ok pc -> run_step e j pc s = Some (pc', s') -> fin_ok pc' /\ rows_change s s' (open pc) (open pc').
Proof.
  intros Hf Hs. destruct pc; cbn [run_step] in Hs; try done.
  - injection Hs as <- <-. destruct (workers s !! _); [destruct (_ && _)|]; (split; [done|by apply rows_same; auto]).
  - injection Hs as <- <-. destruct (workers s !! _); [destruct (_ && _)|]; (split; [done|by apply rows_same; auto]).
  - destruct (Slots.is_queue _); [|case_bool_decide]; injection Hs as <- <-; (split; [done|by apply rows_same; auto]).
  - destruct (_ && _); injection Hs as <- <-; (split; [done|by apply rows_same; auto]).
  - destruct (_ || _); [done|]. injection Hs as <- <-. split; [done|by apply rows_same; auto].
  - destruct (_ && _); injection Hs as <- <-; (split; [done|]); [|by apply rows_same; auto]. split; [done|]. intros k (r & Hk & Hr).
    cbn in Hk. destruct (decide (rid = k)) as [->|Hn]; [by left|]. rewrite lookup_insert_ne in Hk by done. right. right. split; [done|by exists r].
  - destruct (outcome_ok _ _ _) eqn:E; [|done]. injection Hs as <- <-. apply andb_true_iff in E as [E%bool_decide_eq_true _].
    split; [done|by apply rows_same; auto].
  - injection Hs as <- Hs. split; [by case_bool_decide|]. 
    match goal with |- rows_change _ _ _ (open ?x) => replace (open x) with (@None string) by (by case_bool_decide) end.
    destruct (ok e); [|subst s'; split; [set_solver|]].
    + destruct (UpdateWorkerRunStatus rid fin0 (worker_runs s)) as [db|] eqn:E; subst s'; revert E; unfold UpdateWorkerRunStatus;
        destruct (worker_runs s !! rid) as [r|] eqn:Er; try done.
      * intros [= Hdb]. case_bool_decide as Hc.
        -- subst db. split; [done|]. intros k (r' & Hk & Hr). right. right. split; [|by exists r']. intros [= ->]. cbn in Hk. simplify_eq. by rewrite Hc in Hr.
        -- apply (rows_settled _ _ _ rid (finalized fin0 r)); cbn; [done|done| |by right]. intros Hr. cbn in Hf. rewrite Hr in Hf.
           by apply running_no_outcome.
      * intros _. split; [done|]. intros k (r' & Hk & Hr). right. right. split; [|by exists r']. intros [= ->]. congruence.
    + intros k (r' & Hk & Hr). destruct (decide (rid = k)) as [->|Hn]; [right; left; cbn; set_solver|].
      right. right. split; [by intros [= ?]|by exists r'].
  - injection Hs as <- Hs. split; [done|]. apply rows_same; [..|by left]; subst s'; (destruct pending; [|done]); (destruct (ok e); [|done]);
      by destruct (CreateWorkerApproval _ _ _).
  - injection Hs as <- <-. destruct (workers s !! _); [destruct (_ && _)|]; (split; [done|by apply rows_same; auto]).
  - injection Hs as <- <-. destruct (if ok e then _ else None); (split; [done|by apply rows_same; auto]).
  - injection Hs as <- <-. destruct (if ok e then _ else None); (split; [done|by apply rows_same; auto]).
  - injection Hs as <- <-. split; [done|]. unfold put_worker. destruct (_ && _); by apply rows_same; auto.
  - injection Hs as <- <-. split; [done|by apply rows_same; auto].
  - injection Hs as <- <-. split; [done|]. destruct slot; by apply rows_same; auto.
Qed.

Lemma flip_rows_change e rid reason s : rows_change s (flip e rid reason s) None None.
Proof.
  unfold flip. destruct (ok e); [|by apply rows_same; auto]. destruct (CancelRun rid reason (worker_runs s)) as [db|] eqn:E; [|by apply rows_same; auto].
  revert E. unfold CancelRun. destruct (worker_runs s !! rid) as [r|]; [|done]. case_bool_decide; [|done]. intros [= <-].
  by apply (rows_settled _ _ _ rid (ended StatusCancelled reason r)); auto.
Qed.

Lemma stamp_rows_change e rid s :
  rows_change s (if ok e then match UpdateWorkerRunStatus rid rejected_fin (worker_runs s) with Some db => set_runs db s | None => s end else s) None None.
Proof.
  destruct (ok e); [|by apply rows_same; auto]. unfold UpdateWorkerRunStatus. destruct (worker_runs s !! rid) as [r|]; [|by apply rows_same; auto].
  case_bool_decide; [by apply rows_same; auto|]. by apply (rows_settled _ _ _ rid (finalized rejected_fin r)); auto.
Qed.
Lemma thread_step_rows e th s th' s' : thread_fin_ok th -> thread_step e th s = Some (th', s') ->
  thread_fin_ok th' /\ rows_change s s' (thread_open th) (thread_open th').
Proof.
  intros Hf Hs. destruct th; try done.
  - cbn [thread_step] in Hs. destruct (run_step e j pc s) as [[pc1 s1]|] eqn:E; [|done]. injection Hs as <- <-. by eapply run_step_rows.
  - injection Hs as <- <-. destruct (pending_row _ _ _); (split; [done|by apply rows_same; auto]).
  - apply resume_step in Hs as [(res & -> & -> & ->)|(pc1 & E & ->)]; [destruct res; (split; [done|by apply rows_same; auto])|].
    by eapply run_step_rows in E.
  - injection Hs as <- <-. destruct (pending_row _ _ _); (split; [done|by apply rows_same; auto]).
  - cbn [thread_step] in Hs. destruct (if ok e then _ else None); injection Hs as <- <-; [case_bool_decide|]; (split; [done|by apply rows_same; auto]).
  - injection Hs as <- <-. split; [done|apply stamp_rows_change].
  - cbn [thread_step] in Hs. unfold signal in Hs. destruct (_ !! _); injection Hs as <- <-; (split; [done|by apply rows_same; auto]).
  - injection Hs as <- <-. split; [done|apply flip_rows_change].
  - injection Hs as <- <-. destruct (workers s !! w); [destruct (_ || _); [|case_bool_decide; [destruct on|]]|]; (split; [done|by apply rows_same; auto]).
  - cbn [thread_step] in Hs. unfold put_worker in Hs. destruct (_ && _); injection Hs as <- <-; (split; [done|by apply rows_same; auto]).
  - injection Hs as <- <-. destruct (ok e); (split; [done|by apply rows_same; auto]).
  - destruct rids as [|r rids]; [injection Hs as <- <-; (split; [done|by apply rows_same; auto])|]. cbn [thread_step] in Hs.
    unfold signal in Hs. destruct (_ !! _); injection Hs as <- <-; (split; [done|by apply rows_same; auto]).
  - injection Hs as <- <-. pose proof (flip_rows_change e rid worker_disabled s). by destruct (ok e).
  - injection Hs as <- <-. destruct (workers s !! w); [destruct (if ok e && _ then f _ else None); [destruct (_ && _)|]|]; (split; [done|by apply rows_same; auto]).
  - cbn [thread_step] in Hs. unfold put_worker in Hs. destruct (_ && _); injection Hs as <- <-; (split; [done|by apply rows_same; auto]).
  - injection Hs as <- <-. destruct (workers s !! w); [destruct (_ && _)|]; (split; [done|by apply rows_same; auto]).
Qed.

(** Every running row is owned by a thread that will end it, was lost, or is stale. *)
Record owned (stale : string -> Prop) (s : state) : Prop := {
  ow_fin : forall n th, threads s !! n = Some th -> thread_fin_ok th;
  ow_rows : forall rid, running (mem s) rid ->
    stale rid \/ rid ∈ lost (mem s) \/ exists n th, threads s !! n = Some th /\ thread_open th = Some rid }.

Definition no_restart (l : label) : bool := match l with Restart _ _ => false | _ => true end.

Lemma spawned_rows l s th m : spawned l s = Some (th, m) -> thread_fin_ok th /\ worker_runs m = worker_runs s /\ lost m = lost s.
Proof. destruct l; cbn [spawned]; try done; try (case_bool_decide; [|done]); by intros [= <- <-]. Qed.

Lemma spawned_owned stale s l th m : owned stale s -> spawned l (mem s) = Some (th, m) -> owned stale {| mem := m; threads := threads s ++ [th] |}.
Proof.
  intros [Hf Hr] (Hth & E1 & E2)%spawned_rows. constructor; cbn.
  - intros k x [Hk|[_ Hk]]%lookup_app_Some; [by eapply Hf|]. by apply list_lookup_singleton_Some in Hk as [_ <-].
  - unfold running. rewrite E1, E2. intros rid Hrun. destruct (Hr rid Hrun) as [?|[?|(k & x & Hk & Hx)]]; auto. right. right. exists k, x.
    split; [|done]. rewrite lookup_app_l; [done|]. by eapply lookup_lt_Some.
Qed.

Lemma step_owned stale s l s' : owned stale s -> no_restart l = true -> step s l = Some s' -> owned stale s'.
Proof.
  intros I Hl Hs. destruct l as [| | | | | | |n e|t b]; cbn [step] in Hs;
    try (destruct (spawned _ (mem s)) as [[th m]|] eqn:E; [|done]; injection Hs as <-; by eapply spawned_owned); [|done].
  destruct (threads s !! n) as [th|] eqn:En; [|done]. cbn [mbind option_bind] in Hs.
  destruct (thread_step e th (mem s)) as [[th' m]|] eqn:Et; [|done]. injection Hs as <-.
  destruct (thread_step_rows e th (mem s) th' m) as (Hf & Hlost & Hrows); [by eapply ow_fin|done|]. constructor; cbn.
  - intros k x [(-> & -> & _)|[_ Hk]]%list_lookup_insert_Some; [done|by eapply ow_fin].
  - assert (<[n:=th']> (threads s) !! n = Some th') as Hn by (apply list_lookup_insert_eq; by eapply lookup_lt_Some).
    intros rid Hrun. destruct (Hrows rid Hrun) as [Ho|[?|[Hne Hold]]]; [right; right; by exists n, th'|by auto|].
    destruct (ow_rows _ _ I rid Hold) as [?|[?|(k & x & Hk & Hx)]]; [by left|right; left; by apply Hlost|]. right. right. exists k, x.
    split; [|done]. rewrite list_lookup_insert_ne; [done|]. intros ->. congruence.
Qed.

Lemma run_owned stale s ls s' : owned stale s -> forallb no_restart ls = true -> run s ls = Some s' -> owned stale s'.
Proof.
  revert s. induction ls as [|l ls IH]; intros s I Hl; cbn [run]; [by intros [= ->]|]. apply andb_true_iff in Hl as [Hl Hls].
  destruct (step s l) as [s1|] eqn:E; [|done]. apply IH; [by eapply step_owned|done].
Qed.

Lemma reaped_running ws t db rid r : ReapOrphanedRunningRuns ws t db !! rid = Some r -> Status r = StatusRunning ->
  db !! rid = Some r /\ (is_delegate ws (r_WorkerID r) = true \/ formatTime t <= StartedAt r).
Proof.
  unfold ReapOrphanedRunningRuns. rewrite lookup_fmap. destruct (db !! rid) as [r0|]; [|done]. cbn. intros [= <-].
  destruct (_ && _) eqn:E; [done|]. intros Hs. split; [done|]. rewrite bool_decide_true in E by (by left). cbn [andb] in E.
  destruct (is_delegate ws (r_WorkerID r0)); [by left|]. destruct (StartedAt r0 <? formatTime t) eqn:Et; [done|]. right. lia.
Qed.

(** ** The properties *)

(** cancelling a run, or disabling its worker, never writes the row of a run still in
    flight behind its runner's back: a thread about to flip a row has found no entry for
    it, and no run in flight, then or meanwhile, has that id. *)
Theorem no_flip_in_flight ws ls s n th n' th' rid :
  run (fresh_db ws) ls = Some s -> threads s !! n = Some th -> threads s !! n' = Some th' -> rid ∈ targets th ->
  thread_flight th' <> Some rid.
Proof. intros Hr. destruct (runs_inv _ _ _ (runs_fresh_inv ws) Hr) as [I _]. apply (i_targets s I). Qed.

(** C9: a run starts with a tool approved beforehand only on an approval somebody asked to
    grant, filed for that tool by an earlier run of the same worker. *)
Theorem preapproval_backed ws ls s l tool :
  run (fresh_db ws) ls = Some s -> l ∈ launches (mem s) -> tool ∈ l_pre l ->
  exists id a l0, id ∈ asked (mem s) /\ worker_approvals (mem s) !! id = Some a /\ a_ToolName a = tool /\ a_WorkerID a = l_worker l /\
    l0 ∈ launches (mem s) /\ l_id l0 = a_RunID a /\ l_worker l0 = l_worker l.
Proof.
  intros Hr Hl Ht. destruct (runs_inv _ _ _ (runs_fresh_inv ws) Hr) as [I _]. destruct (lg_launches _ (i_ledger s I) l tool Hl Ht) as (id & a & H1 & H2 & H3 & H4).
  destruct (lg_approvals _ (i_ledger s I) id a H2) as (l0 & H5 & H6 & H7). exists id, a, l0. split_and!; (done || congruence).
Qed.

(** whatever happens afterwards, restarts included, a cancelled run's row and a decided
    approval's row never change again. *)
Theorem settled_rows_final ws ls1 s1 ls2 s2 :
  run (fresh_db ws) ls1 = Some s1 -> run s1 ls2 = Some s2 ->
  (forall rid r, worker_runs (mem s1) !! rid = Some r -> Status r = StatusCancelled -> worker_runs (mem s2) !! rid = Some r) /\
  (forall id a, worker_approvals (mem s1) !! id = Some a -> a_Status a <> "pending" -> worker_approvals (mem s2) !! id = Some a).
Proof.
  intros H1 H2. destruct (runs_inv _ _ _ (runs_fresh_inv ws) H1) as [I _]. destruct (runs_inv _ _ _ I H2) as [_ G]. split.
  - intros rid r Hr Hc. destruct (g_runs _ _ G rid r Hr) as (r' & Hr' & _ & Hk). by rewrite Hr', (Hk Hc).
  - intros id a Ha Hc. destruct (g_approvals _ _ G id a Ha) as (a' & Ha' & _ & Hk). by rewrite Ha', (Hk Hc).
Qed.

(** under the skip policy one process runs a worker once at a time: two runs that hold
    its slot are the same. *)
Theorem one_run_per_slot ws ls s n th n' th' w :
  run (fresh_db ws) ls = Some s -> threads s !! n = Some th -> threads s !! n' = Some th' ->
  thread_holds th = Some w -> thread_holds th' = Some w -> n = n'.
Proof. intros Hr. apply (sl_unique s (run_slots _ _ _ (fresh_slots ws) Hr)). Qed.

(** C10: after a restart that swept the orphans, a row says running only while a thread is
    to write its end, or when that write failed, or when the sweep leaves it: a delegation's
    run, or one that did not start before the
    second of the boot. *)
Theorem running_rows_owned s0 t ls s rid r :
  forallb no_restart ls = true -> run s0 (Restart t true :: ls) = Some s ->
  worker_runs (mem s) !! rid = Some r -> Status r = StatusRunning ->
  rid ∈ lost (mem s) \/
  (exists n th, threads s !! n = Some th /\ thread_open th = Some rid) \/
  (exists r0, worker_runs (mem s0) !! rid = Some r0 /\ (is_delegate (workers (mem s0)) (r_WorkerID r0) = true \/ formatTime t <= StartedAt r0)).
Proof.
  intros Hl Hrun Hrow Hs. cbn [run step mbind option_bind] in Hrun.
  pose (stale := fun rid => exists r0, worker_runs (mem s0) !! rid = Some r0 /\ (is_delegate (workers (mem s0)) (r_WorkerID r0) = true \/ formatTime t <= StartedAt r0)).
  assert (owned stale {| mem := restarted t true (mem s0); threads := [] |}) as I.
  { constructor; cbn; [intros n th Hn; by rewrite lookup_nil in Hn|]. intros k (r' & Hk & Hr'). left. exists r'. by eapply reaped_running. }
  destruct (ow_rows _ _ (run_owned _ _ _ _ I Hl Hrun) rid) as [?|[?|?]]; [by exists r|by auto..].
Qed.

(** ** Samples *)

Definition at_ (t : Z) (id : string) (f : WorkerRunFinalize) (p : option (string * string)) : answers :=
  {| ok := true; now := t * second; fresh := id; prepared := true; fin := f; pendingApproval := p |}.

Definition fin_of (status : string) (cost : Z) : WorkerRunFinalize := {|
  f_Status := status; f_InputTokens := 10; f_OutputTokens := 20; f_CostUSD := cost; f_ToolCallsCount := 1; f_OutputText := "out"; f_Error := "" |}.

Definition plain (t : Z) (id : string) : answers := at_ t id (fin_of StatusSuccess 0) None.

Definition worker_ (policy : string) (cap : Z) : Worker := {|
  Name := "w"; Enabled := true; Archived := false; ConcurrencyPolicy := policy; MaxMonthlyCostUSD := cap; MaxConsecutiveFailures := 2;
  AutoPausedReason := ""; rest := "" |}.

Definition db_ (policy : string) (cap : Z) : state := fresh_db {["w" := worker_ policy cap; "v" := worker_ policy cap]}.

Definition job_ (w : string) : job := {| j_worker := w; j_pre := []; j_kind := "schedule" |}.

Definition go (n k : nat) (e : answers) : list label := replicate k (Thread n e).

(** A run that asks to write a file; the approval's id is the run's. *)
Definition asks (t : Z) (id : string) (cost : Z) : answers := at_ t id (fin_of StatusAwaitingApproval cost) (Some ("write_file", "")).

Definition failing (t : Z) (id : string) : answers := at_ t id (fin_of StatusFailure 0) None.

Definition seen {A} (f : state -> A) (ls : list label) (s : state) : option A := f <$> run s ls.

Definition row_of (rid : string) (s : state) : option (string * Z) := (fun r => (Status r, CostUSD r)) <$> worker_runs (mem s) !! rid.

Definition approval_of (id : string) (s : state) : option (string * string) := (fun a => (a_Status a, a_ResumedRunID a)) <$> worker_approvals (mem s) !! id.

(** An approval granted twice at once, or once more after the decision could not be
    recorded, runs the worker twice with its tool: the run comes before the decision. *)
Lemma one_approval_two_runs :
  seen (fun s => (map (fun l => (l_id l, l_pre l)) (launches (mem s)), row_of "r2" s, row_of "r3" s, approval_of "r1" s))
    (Run (job_ "w") :: go 0 12 (asks 1 "r1" 5) ++ [Approve "r1" "ann"; Approve "r1" "bob"] ++ go 1 1 (plain 2 "") ++ go 2 1 (plain 2 "") ++
     go 1 13 (plain 3 "r2") ++ go 2 13 (plain 4 "r3")) (db_ "queue" 0) =
  Some ([("r3", ["write_file"]); ("r2", ["write_file"]); ("r1", [])], Some (StatusSuccess, 0), Some (StatusSuccess, 0), Some ("approved", "r2")).
Proof. vm_compute. reflexivity. Qed.

(** A rejection that lands while the resumed run executes is recorded, and the run goes on
    with the tool. *)
Lemma rejected_yet_run :
  seen (fun s => (map (fun l => (l_id l, l_pre l)) (launches (mem s)), row_of "r1" s, row_of "r2" s, approval_of "r1" s))
    (Run (job_ "w") :: go 0 12 (asks 1 "r1" 5) ++ [Approve "r1" "ann"; Reject "r1" "bob"] ++ go 1 5 (plain 2 "r2") ++ go 2 3 (plain 3 "") ++
     go 1 9 (plain 4 "")) (db_ "queue" 0) =
  Some ([("r2", ["write_file"]); ("r1", [])], Some (StatusRejected, 0), Some (StatusSuccess, 0), Some ("rejected", "")).
Proof. vm_compute. reflexivity. Qed.

(** Rejecting an approval writes the run's row anew, its cost included, and the month's
    spending forgets it. *)
Lemma reject_forgets_cost :
  let ls := Run (job_ "w") :: go 0 12 (asks 1 "r1" 900) in
  seen (fun s => SumCostThisMonth "w" (2 * second) (worker_runs (mem s))) ls (db_ "queue" 1000) = Some 900 /\
  seen (fun s => (SumCostThisMonth "w" (2 * second) (worker_runs (mem s)), row_of "r1" s)) (ls ++ Reject "r1" "bob" :: go 1 3 (plain 2 "")) (db_ "queue" 1000) =
    Some (0, Some (StatusRejected, 0)).
Proof. vm_compute. split; reflexivity. Qed.

(** An edit that read the worker before it was paused writes it back enabled. *)
Lemma edit_undoes_pause :
  let ls := Edit "w" Some false :: go 0 1 (plain 1 "") ++ Run (job_ "w") :: go 1 13 (asks 1 "r1" 20000) in
  let look := fun s : state => (fun w => (Enabled w, AutoPausedReason w)) <$> workers (mem s) !! "w" in
  seen look ls (db_ "skip" 10000) = Some (Some (false, "monthly budget exceeded ($2.0000 / $1.0000)")) /\
  seen look (ls ++ go 0 1 (plain 2 "")) (db_ "skip" 10000) = Some (Some (true, "")).
Proof. vm_compute. split; reflexivity. Qed.

(** Disabling a worker lists its running rows: a run that has passed its check and has no
    row yet goes on. *)
Lemma disabled_worker_runs :
  seen (fun s => (Enabled <$> workers (mem s) !! "w", row_of "r1" s, map (fun th => bool_decide (thread_open th = Some "r1")) (threads s)))
    (Run (job_ "w") :: go 0 3 (plain 1 "r1") ++ SetEnabled "w" false :: go 1 5 (plain 2 "") ++ go 0 2 (plain 3 "r1")) (db_ "skip" 0) =
  Some (Some false, Some (StatusRunning, 0), [true; false]).
Proof. vm_compute. reflexivity. Qed.

(** A blocked run between two failures, which is not to count, keeps the worker enabled. *)
Lemma blocked_breaks_streak :
  let look := fun s : state => (LastFailureStatuses "w" 2 (worker_runs (mem s)), Enabled <$> workers (mem s) !! "w") in
  seen look (Run (job_ "w") :: go 0 12 (failing 1 "r1") ++ Run (job_ "w") :: go 1 13 (failing 3 "r3")) (db_ "skip" 0) =
    Some ([StatusFailure; StatusFailure], Some false) /\
  seen look (Run (job_ "w") :: go 0 12 (failing 1 "r1") ++ Run (job_ "w") :: go 1 12 (at_ 2 "r2" (fin_of StatusBlocked 0) None) ++ Run (job_ "w") :: go 2 12 (failing 3 "r3")) (db_ "skip" 0) =
    Some ([StatusFailure; StatusBlocked], Some true).
Proof. vm_compute. split; reflexivity. Qed.

(** *** Witnesses *)

(** A run lost to a restart is cancelled while another worker runs. *)
Lemma no_flip_in_flight_witness : exists s th th',
  run (db_ "skip" 0) (Run (job_ "w") :: go 0 5 (plain 1 "r1") ++ [Restart 1 false; Cancel "r1" "stuck"; Run (job_ "v")] ++ go 0 1 (plain 2 "") ++ go 1 5 (plain 3 "r2"))
    = Some s /\
  threads s !! 0%nat = Some th /\ threads s !! 1%nat = Some th' /\ targets th = ["r1"] /\ thread_flight th' = Some "r2" /\ thread_flight th' <> Some "r1".
Proof.
  eexists _, _, _. split; [vm_compute; reflexivity|]. split; [reflexivity|]. split; [reflexivity|]. split; [reflexivity|]. split; [reflexivity|].
  eapply (no_flip_in_flight {["w" := worker_ "skip" 0; "v" := worker_ "skip" 0]}
    (Run (job_ "w") :: go 0 5 (plain 1 "r1") ++ [Restart 1 false; Cancel "r1" "stuck"; Run (job_ "v")] ++ go 0 1 (plain 2 "") ++ go 1 5 (plain 3 "r2")) _ 0%nat _ 1%nat);
    [vm_compute; reflexivity|reflexivity|reflexivity|left].
Defined.

Definition resumed_run : list label := Run (job_ "w") :: go 0 12 (asks 1 "r1" 5) ++ Approve "r1" "ann" :: go 1 5 (plain 2 "r2").

Lemma preapproval_backed_witness : exists s l, run (db_ "queue" 0) resumed_run = Some s /\ l ∈ launches (mem s) /\ "write_file" ∈ l_pre l /\
  exists id a l0, id ∈ asked (mem s) /\ worker_approvals (mem s) !! id = Some a /\ a_ToolName a = "write_file" /\ a_WorkerID a = l_worker l /\
    l0 ∈ launches (mem s) /\ l_id l0 = a_RunID a /\ l_worker l0 = l_worker l.
Proof.
  eexists _, {| l_id := "r2"; l_worker := "w"; l_pre := ["write_file"] |}. split; [vm_compute; reflexivity|]. split; [left|]. split; [left|].
  eapply (preapproval_backed {["w" := worker_ "queue" 0; "v" := worker_ "queue" 0]} resumed_run); [vm_compute; reflexivity|left|left].
Defined.

(** A cancelled row survives the sweep and the next run. *)
Lemma settled_rows_final_witness : exists s1 s2 r,
  run (db_ "skip" 0) (Run (job_ "w") :: go 0 5 (plain 1 "r1") ++ [Restart 1 false; Cancel "r1" "stuck"] ++ go 0 2 (plain 2 "")) = Some s1 /\
  worker_runs (mem s1) !! "r1" = Some r /\ Status r = StatusCancelled /\
  run s1 (Restart (3 * second) true :: Run (job_ "w") :: go 0 12 (plain 4 "r2")) = Some s2 /\ worker_runs (mem s2) !! "r1" = Some r.
Proof.
  eexists _, _, _. split; [vm_compute; reflexivity|]. split; [vm_compute; reflexivity|]. split; [reflexivity|]. split; [vm_compute; reflexivity|].
  eapply (settled_rows_final {["w" := worker_ "skip" 0; "v" := worker_ "skip" 0]}
    (Run (job_ "w") :: go 0 5 (plain 1 "r1") ++ [Restart 1 false; Cancel "r1" "stuck"] ++ go 0 2 (plain 2 "")) _ (Restart (3 * second) true :: Run (job_ "w") :: go 0 12 (plain 4 "r2")));
    [vm_compute; reflexivity|vm_compute; reflexivity|vm_compute; reflexivity|reflexivity].
Defined.

(** Two triggers of one worker: the second finds the slot taken. *)
Lemma one_run_per_slot_witness : exists s th,
  run (db_ "skip" 0) (Run (job_ "w") :: RunNow (job_ "w") :: go 0 5 (plain 1 "r1") ++ go 1 3 (plain 2 "r2")) = Some s /\
  threads s !! 0%nat = Some th /\ thread_holds th = Some "w" /\ threads s !! 1%nat = Some (TRun (job_ "w") (RDone None)) /\
  forall n th', threads s !! n = Some th' -> thread_holds th' = Some "w" -> n = 0%nat.
Proof.
  eexists _, _. split; [vm_compute; reflexivity|]. split; [reflexivity|]. split; [reflexivity|]. split; [reflexivity|].
  intros n th' Hn Hh. eapply (one_run_per_slot {["w" := worker_ "skip" 0; "v" := worker_ "skip" 0]}
    (Run (job_ "w") :: RunNow (job_ "w") :: go 0 5 (plain 1 "r1") ++ go 1 3 (plain 2 "r2")) _ n th' 0%nat _ "w");
    [vm_compute; reflexivity|exact Hn|reflexivity|exact Hh|reflexivity].
Defined.

(** Of two rows left running, the sweep ends the worker's; a new run then owns its own. *)
Lemma running_rows_owned_witness : exists s0 s r,
  run (db_ "queue" 0) (Run (job_ "w") :: go 0 4 (plain 1 "r1")) = Some s0 /\
  run s0 (Restart (2 * second) true :: Run (job_ "w") :: go 0 4 (plain 3 "r2")) = Some s /\
  row_of "r1" s = Some (StatusInterrupted, 0) /\
  worker_runs (mem s) !! "r2" = Some r /\ Status r = StatusRunning /\
  ("r2" ∈ lost (mem s) \/ (exists n th, threads s !! n = Some th /\ thread_open th = Some "r2") \/
   (exists r0, worker_runs (mem s0) !! "r2" = Some r0 /\ (is_delegate (workers (mem s0)) (r_WorkerID r0) = true \/ formatTime (2 * second) <= StartedAt r0))).
Proof.
  eexists _, _, _. split; [vm_compute; reflexivity|]. split; [vm_compute; reflexivity|]. split; [vm_compute; reflexivity|].
  split; [vm_compute; reflexivity|]. split; [reflexivity|].
  eapply (running_rows_owned _ (2 * second) (Run (job_ "w") :: go 0 4 (plain 3 "r2"))); [reflexivity|vm_compute; reflexivity|vm_compute; reflexivity|reflexivity].
Defined.
