(* ===== verification/MeshInbox.v ===== *)
(** The inbox of the mesh: Send, Receive, Hydrate, Thread and PendingCount of
    internal/mesh/mesh.go with receive_filters.go, the blocking waits of wait.go and of
    mesh__wait_for_event, the ingest of p2p_bridge.go, the sweeps of reaper.go, and the messages and agents of store/sqlite/mesh.go.

    Sends, ingests, receives and waits are threads whose steps are their store calls, any of which
    may fail; the ids minted, the clock and the resolution of names, peers, bindings and
    repositories are answers from outside.  Transmission, subscribers, notifications, audit
    rows, hit statistics, display names and terminal locators are left out.  Columns keep
    whole seconds. *)

From Stdlib Require Import Ascii String.
From stdpp Require Import base list option gmap strings.
From S2P Require Import Prelude GoStrings MeshTags.

#[local] Open Scope string_scope.
#[local] Open Scope list_scope.
#[local] Open Scope Z_scope.

(** ** Rows *)

Record MeshMessage := {
  ID : string; WorkspaceID : string; SessionID : string; Kind : string; Priority : string; Content : string; Audience : string; Tags : string;
  ReplyTo : string; ThreadRoot : string; ReplyCount : Z; Status : string; ExpiresAt : Z; CreatedAt : Z;
  Repo : string; Branch : string; WorkspacePath : string; ActorKind : string }.

Record MeshAgent := {
  a_WorkspaceID : string; a_Name : string; a_Role : string; a_ClientType : string; a_Cursor : string; a_Origin : string; a_LastSeenAt : Z }.

Record MeshMessageFilter := {
  q_WorkspaceIDs : list string; SinceID : string; SinceTime : option Z; StatusLive : bool; ExcludeSessionID : string; q_ThreadRoot : string;
  Kinds : list string; ExcludeKinds : list string; ActorKinds : list string; ExcludeActorKinds : list string; q_Tags : string;
  q_Repo : string; q_Branch : string; q_WorkspacePath : string; q_Audience : string; AgentRole : string;
  OrderOldest : bool; Limit : Z }.

(** *** QueryMeshMessages *)

(** LIKE: any run of characters, any one character; ASCII case is folded. *)
Fixpoint like (p t : string) : bool :=
  match p with
  | EmptyString => bool_decide (t = "")
  | String a p =>
      if bool_decide (a = "%"%char)
      then (fix any t := like p t || match t with EmptyString => false | String _ t => any t end) t
      else match t with EmptyString => false | String b t => (bool_decide (a = "_"%char) || bool_decide (a = b)) && like p t end
  end.

Definition contains_tag (tags tag : string) : bool := like (ToLower ("%" +:+ tag +:+ "%")) (ToLower tags).

Definition among (l : list string) (x : string) : bool := bool_decide (l = []) || bool_decide (x ∈ l).
Definition not_among (l : list string) (x : string) : bool := negb (bool_decide (x ∈ l)).
Definition same_or_any (want x : string) : bool := bool_decide (want = "") || bool_decide (x = want).

Definition addressed (audience role : string) (to : string) : bool :=
  if bool_decide (audience = "" /\ role = "") then true
  else bool_decide (to = "*") || (negb (bool_decide (audience = "")) && bool_decide (to = audience)) ||
       (negb (bool_decide (role = "")) && bool_decide (to = role)).

Definition selects (f : MeshMessageFilter) (m : MeshMessage) : bool :=
  among (q_WorkspaceIDs f) (WorkspaceID m) &&
  (bool_decide (SinceID f = "") || String.ltb (SinceID f) (ID m)) &&
  match SinceTime f with Some t => formatTime t <? CreatedAt m | None => true end &&
  (negb (StatusLive f) || bool_decide (Status m = "live")) &&
  (bool_decide (ExcludeSessionID f = "") || negb (bool_decide (SessionID m = ExcludeSessionID f))) &&
  same_or_any (q_ThreadRoot f) (ThreadRoot m) &&
  among (Kinds f) (Kind m) && not_among (ExcludeKinds f) (Kind m) &&
  among (ActorKinds f) (ActorKind m) && not_among (ExcludeActorKinds f) (ActorKind m) &&
  forallb (contains_tag (Tags m)) (splitTags (q_Tags f)) &&
  same_or_any (q_Repo f) (Repo m) && same_or_any (q_Branch f) (Branch m) && same_or_any (q_WorkspacePath f) (WorkspacePath m) &&
  addressed (q_Audience f) (AgentRole f) (Audience m).

Definition priorityRank (p : string) : Z :=
  if bool_decide (p = "critical") then 0 else if bool_decide (p = "high") then 1 else if bool_decide (p = "normal") then 2
  else if bool_decide (p = "low") then 3 else 4.

Definition older (a b : MeshMessage) : bool := String.ltb (ID a) (ID b).

Definition urgent_first (a b : MeshMessage) : bool :=
  if priorityRank (Priority a) =? priorityRank (Priority b) then String.ltb (ID b) (ID a) else priorityRank (Priority a) <? priorityRank (Priority b).

Definition QueryMeshMessages (f : MeshMessageFilter) (t : list MeshMessage) : list MeshMessage :=
  let found := List.filter (selects f) t in
  take (Z.to_nat (if Limit f <=? 0 then 20 else Limit f)) (SliceStable (if OrderOldest f then older else urgent_first) found).

(** The conditions a count applies: no time, thread, tags, repository or path. *)
Definition counts (f : MeshMessageFilter) (m : MeshMessage) : bool :=
  among (q_WorkspaceIDs f) (WorkspaceID m) &&
  (bool_decide (SinceID f = "") || String.ltb (SinceID f) (ID m)) &&
  (negb (StatusLive f) || bool_decide (Status m = "live")) &&
  (bool_decide (ExcludeSessionID f = "") || negb (bool_decide (SessionID m = ExcludeSessionID f))) &&
  among (Kinds f) (Kind m) && not_among (ExcludeKinds f) (Kind m) &&
  among (ActorKinds f) (ActorKind m) && not_among (ExcludeActorKinds f) (ActorKind m) &&
  addressed (q_Audience f) (AgentRole f) (Audience m).

Definition CountMeshMessages (f : MeshMessageFilter) (limit : Z) (t : list MeshMessage) : Z :=
  let n := Z.of_nat (length (List.filter (counts f) t)) in if 0 <? limit then Z.min n limit else n.

Definition GetMeshMessage (id : string) (t : list MeshMessage) : option MeshMessage := List.find (fun m => bool_decide (ID m = id)) t.

(** An id in use is refused. *)
Definition InsertMeshMessage (m : MeshMessage) (t : list MeshMessage) : option (list MeshMessage) :=
  if bool_decide (ID m ∈ map ID t) then None else Some (t ++ [m]).

(** *** Updates *)

Definition with_status (st : string) (m : MeshMessage) : MeshMessage := {|
  ID := ID m; WorkspaceID := WorkspaceID m; SessionID := SessionID m; Kind := Kind m; Priority := Priority m; Content := Content m;
  Audience := Audience m; Tags := Tags m; ReplyTo := ReplyTo m; ThreadRoot := ThreadRoot m; ReplyCount := ReplyCount m; Status := st;
  ExpiresAt := ExpiresAt m; CreatedAt := CreatedAt m; Repo := Repo m; Branch := Branch m; WorkspacePath := WorkspacePath m; ActorKind := ActorKind m |}.

Definition with_thread (count expires : Z) (m : MeshMessage) : MeshMessage := {|
  ID := ID m; WorkspaceID := WorkspaceID m; SessionID := SessionID m; Kind := Kind m; Priority := Priority m; Content := Content m;
  Audience := Audience m; Tags := Tags m; ReplyTo := ReplyTo m; ThreadRoot := ThreadRoot m; ReplyCount := count; Status := Status m;
  ExpiresAt := expires; CreatedAt := CreatedAt m; Repo := Repo m; Branch := Branch m; WorkspacePath := WorkspacePath m; ActorKind := ActorKind m |}.

Definition update_where (p : MeshMessage -> bool) (f : MeshMessage -> MeshMessage) (t : list MeshMessage) : list MeshMessage :=
  map (fun m => if p m then f m else m) t.

Definition has_id (id : string) (m : MeshMessage) : bool := bool_decide (ID m = id).
Definition live (m : MeshMessage) : bool := bool_decide (Status m = "live").

Definition IncrementReplyCount (id : string) : list MeshMessage -> list MeshMessage :=
  update_where (has_id id) (fun m => with_thread (ReplyCount m + 1) (ExpiresAt m) m).

Definition ExtendMessageExpiry (id : string) (t : Z) : list MeshMessage -> list MeshMessage :=
  update_where (fun m => has_id id m && (ExpiresAt m <? formatTime t)) (fun m => with_thread (ReplyCount m) (formatTime t) m).

Definition archive (p : MeshMessage -> bool) : list MeshMessage -> list MeshMessage :=
  update_where (fun m => live m && p m) (with_status "archived").

Definition ArchiveExpiredMessages (now : Z) := archive (fun m => ExpiresAt m <? formatTime now).

Definition ArchiveOldWorkerFindings (olderThan : Z) :=
  archive (fun m => bool_decide (ActorKind m = "worker") && bool_decide (Kind m ∈ ["finding"; "reply"]) && (CreatedAt m <? formatTime olderThan)).

Definition DeleteArchivedMessages (before : Z) : list MeshMessage -> list MeshMessage :=
  List.filter (fun m => negb (bool_decide (Status m = "archived") && (ExpiresAt m <? formatTime before))).

Definition in_workspace (ws : string) (m : MeshMessage) : bool := bool_decide (WorkspaceID m = ws) && live m.

Definition CountLiveMessages (ws : string) (t : list MeshMessage) : Z := Z.of_nat (length (List.filter (in_workspace ws) t)).

Definition archive_rank (p : string) : Z :=
  if bool_decide (p = "normal") then 1 else if bool_decide (p = "high") then 2 else if bool_decide (p = "critical") then 3 else 0.

Definition archive_first (a b : MeshMessage) : bool :=
  if archive_rank (Priority a) =? archive_rank (Priority b) then CreatedAt a <? CreatedAt b else archive_rank (Priority a) <? archive_rank (Priority b).

Definition ArchiveLowestPriority (ws : string) (count : Z) (t : list MeshMessage) : list MeshMessage :=
  let gone := map ID (take (Z.to_nat count) (SliceStable archive_first (List.filter (in_workspace ws) t))) in
  update_where (fun m => bool_decide (ID m ∈ gone)) (with_status "archived") t.

(** *** Agents *)

Abbreviation agents := (gmap string MeshAgent).

Definition or_else (a b : string) : string := if bool_decide (a = "") then b else a.

(** The first workspace stays; an empty value keeps the old one; the cursor stays. *)
Definition UpsertMeshAgent (sid : string) (a : MeshAgent) (t : agents) : agents :=
  match t !! sid with
  | None => <[sid := {| a_WorkspaceID := a_WorkspaceID a; a_Name := a_Name a; a_Role := a_Role a; a_ClientType := a_ClientType a;
                        a_Cursor := a_Cursor a; a_Origin := or_else (a_Origin a) "local"; a_LastSeenAt := formatTime (a_LastSeenAt a) |}]> t
  | Some o => <[sid := {| a_WorkspaceID := or_else (a_WorkspaceID o) (a_WorkspaceID a); a_Name := or_else (a_Name a) (a_Name o);
                          a_Role := or_else (a_Role a) (a_Role o); a_ClientType := or_else (a_ClientType a) (a_ClientType o);
                          a_Cursor := a_Cursor o; a_Origin := or_else (a_Origin a) (a_Origin o); a_LastSeenAt := formatTime (a_LastSeenAt a) |}]> t
  end.

Definition with_cursor (c : string) (a : MeshAgent) : MeshAgent := {|
  a_WorkspaceID := a_WorkspaceID a; a_Name := a_Name a; a_Role := a_Role a; a_ClientType := a_ClientType a; a_Cursor := c;
  a_Origin := a_Origin a; a_LastSeenAt := a_LastSeenAt a |}.

Definition touched (t : Z) (a : MeshAgent) : MeshAgent := {|
  a_WorkspaceID := a_WorkspaceID a; a_Name := a_Name a; a_Role := a_Role a; a_ClientType := a_ClientType a; a_Cursor := a_Cursor a;
  a_Origin := a_Origin a; a_LastSeenAt := formatTime t |}.

Definition UpdateAgentCursor (sid c : string) (t : agents) : agents := alter (with_cursor c) sid t.
Definition TouchMeshAgent (sid : string) (now : Z) (t : agents) : agents := alter (touched now) sid t.

Definition inheritable (ws clientType sid : string) (kv : string * MeshAgent) : bool :=
  bool_decide (a_WorkspaceID kv.2 = ws) && bool_decide (a_ClientType kv.2 = clientType) && bool_decide (a_Origin kv.2 = "local") &&
  negb (bool_decide (kv.1 = sid)) && negb (bool_decide (a_Name kv.2 = "")).

Definition FindRecentLocalAgentByClient (ws clientType sid : string) (t : agents) : option MeshAgent :=
  head (SliceStable (fun a b => a_LastSeenAt b <? a_LastSeenAt a) (map snd (List.filter (inheritable ws clientType sid) (map_to_list t)))).

(** ** Requests *)

Record SessionMeta := { s_ID : string; WorkspaceIDs : list string; ClientType : string; s_WorkspacePath : string }.

(** What [ResolveAgentNameInWorkspaces] finds: a local agent, or one of a peer. *)
Record target := { t_SessionID : string; t_remote : string; t_WorkspaceID : string }.

(** [r_ToPeer] and [r_ToAgent] are resolved: no answer is a failed lookup. *)
Record SendRequest := {
  r_Kind : string; r_Content : string; r_Priority : string; r_Audience : string; r_Tags : string; r_ReplyTo : string; r_ActorKind : string;
  r_LocalOnly : bool; r_ToWorkspace : string; r_ToPeer : option string; r_ToAgent : option (option target);
  r_Repo : string; r_Branch : string; r_WorkspacePath : string }.

Record ReceiveRequest := {
  Filter : string; v_Tags : string; SinceMinutes : Z; MaxResults : Z; ThreadID : string; v_Name : string; v_Role : string;
  v_Repo : string; v_Branch : string; v_WorkspacePath : string;
  v_Kinds : string; v_ExcludeKinds : string; v_ActorKinds : string; v_ExcludeActorKinds : string }.

(** ** Send *)

Definition ValidKinds : list string := ["finding"; "task"; "task_event"; "alert"; "question"; "result"; "event"; "reply"].

Definition minute : Z := 60 * second.

Definition priorityTTL (p : string) : option Z :=
  if bool_decide (p = "critical") then Some (48 * 60 * minute) else if bool_decide (p = "high") then Some (8 * 60 * minute)
  else if bool_decide (p = "normal") then Some (2 * 60 * minute) else if bool_decide (p = "low") then Some (30 * minute) else None.

Definition ttl_of (p : string) : Z := default 0 (priorityTTL p).

Definition MaxSendContentBytes : Z := 64 * 1024.
Definition maxLiveMessages : Z := 5000.

Definition first_nonblank (l : list string) : string := default "" (List.find (fun s => negb (bool_decide (s = ""))) l).

(** The workspace a message is filed under. *)
Definition target_workspace (meta : SessionMeta) (req : SendRequest) : string :=
  if bool_decide (r_ToWorkspace req = "*" \/ r_ToWorkspace req = "global") then ""
  else if bool_decide (r_ToWorkspace req = "") then
    match r_ToAgent req with
    | Some (Some t) => if bool_decide (t_remote t = "") then t_WorkspaceID t
                       else or_else (first_nonblank (WorkspaceIDs meta)) (if bool_decide (s_ID meta = "") then "" else "session:" +:+ s_ID meta)
    | _ => or_else (first_nonblank (WorkspaceIDs meta)) (if bool_decide (s_ID meta = "") then "" else "session:" +:+ s_ID meta)
    end
  else r_ToWorkspace req.

Definition resolved_audience (req : SendRequest) : string :=
  let audience := or_else (r_Audience req) "*" in
  match r_ToAgent req with Some (Some t) => if bool_decide (audience = "*") then t_SessionID t else audience | _ => audience end.

Definition resolved_peer (req : SendRequest) : option string :=
  p ← r_ToPeer req;
  match r_ToAgent req with
  | Some None => None
  | Some (Some t) => Some (if bool_decide (p = "") then t_remote t else p)
  | None => Some p
  end.

(** The message before its id is minted; none is an error. *)
Definition draft (meta : SessionMeta) (req : SendRequest) (now : Z) : option MeshMessage :=
  let kind := or_else (r_Kind req) "event" in
  let priority := or_else (r_Priority req) "normal" in
  if bool_decide (TrimSpace (r_Content req) = "") || (MaxSendContentBytes <? Z.of_nat (String.length (r_Content req))) || negb (bool_decide (kind ∈ ValidKinds)) then None
  else ttl ← priorityTTL priority;
       peer ← resolved_peer req;
       if r_LocalOnly req && negb (bool_decide (peer = "")) then None
       else Some {| ID := ""; WorkspaceID := target_workspace meta req; SessionID := s_ID meta; Kind := kind; Priority := priority; Content := r_Content req;
                    Audience := resolved_audience req; Tags := normalizeTags (r_Tags req); ReplyTo := ""; ThreadRoot := ""; ReplyCount := 0; Status := "live";
                    ExpiresAt := formatTime (now + ttl); CreatedAt := formatTime now; Repo := r_Repo req; Branch := r_Branch req;
                    WorkspacePath := or_else (r_WorkspacePath req) (s_WorkspacePath meta); ActorKind := or_else (r_ActorKind req) "agent" |}.

Definition with_id (id : string) (m : MeshMessage) : MeshMessage := {|
  ID := id; WorkspaceID := WorkspaceID m; SessionID := SessionID m; Kind := Kind m; Priority := Priority m; Content := Content m;
  Audience := Audience m; Tags := Tags m; ReplyTo := ReplyTo m; ThreadRoot := ThreadRoot m; ReplyCount := ReplyCount m; Status := Status m;
  ExpiresAt := ExpiresAt m; CreatedAt := CreatedAt m; Repo := Repo m; Branch := Branch m; WorkspacePath := WorkspacePath m; ActorKind := ActorKind m |}.

Definition reply_of (parent m : MeshMessage) : MeshMessage := {|
  ID := ID m; WorkspaceID := WorkspaceID m; SessionID := SessionID m; Kind := Kind m; Priority := Priority m; Content := Content m;
  Audience := Audience m; Tags := Tags m; ReplyTo := ID parent; ThreadRoot := or_else (ThreadRoot parent) (ID parent); ReplyCount := ReplyCount m; Status := Status m;
  ExpiresAt := ExpiresAt m; CreatedAt := CreatedAt m; Repo := Repo m; Branch := Branch m; WorkspacePath := WorkspacePath m; ActorKind := ActorKind m |}.

(** A tenth more for each reply, twice the time to live at most. *)
Definition extended_expiry (parent : MeshMessage) : Z :=
  let ttl := ttl_of (Priority parent) in
  Z.min (ExpiresAt parent * second + Z.quot ttl 10) (CreatedAt parent * second + ttl * 2).

(** ** Receive *)

Definition KindTaskEvent := "task_event".

Definition splitCSVList (s : string) : list string := splitTags s.

Definition resolveKindFilters (req : ReceiveRequest) : list string * list string * bool :=
  let kinds := splitCSVList (v_Kinds req) in
  let exclude := splitCSVList (v_ExcludeKinds req) in
  if bool_decide (KindTaskEvent ∈ kinds) then (kinds, exclude, false)
  else if negb (bool_decide (kinds = [])) then (kinds, exclude, true)
  else (kinds, if bool_decide (KindTaskEvent ∈ exclude) then exclude else exclude ++ [KindTaskEvent], true).

Definition receiveIsNarrowed (req : ReceiveRequest) : bool :=
  existsb (fun s => negb (bool_decide (s = "")))
    [v_Tags req; v_Kinds req; v_ExcludeKinds req; v_ActorKinds req; v_ExcludeActorKinds req; v_Repo req; v_Branch req; v_WorkspacePath req].

Definition NormalizeReceiveMaxResults (n : Z) : Z := if n <=? 0 then 20 else if 50 <? n then 50 else n.

Definition cursorScanLimit : Z := maxLiveMessages.

Definition selectOldestBatch (window : list MeshMessage) (limit : Z) : list MeshMessage :=
  if limit <=? 0 then [] else SliceStable urgent_first (take (Z.to_nat limit) (SliceStable older window)).

Definition receive_filter (meta : SessionMeta) (req : ReceiveRequest) (since : string) (sinceTime : option Z) (own thread role : string) (oldest : bool) (limit : Z) : MeshMessageFilter :=
  let k := resolveKindFilters req in
  {| q_WorkspaceIDs := WorkspaceIDs meta ++ [""]; SinceID := since; SinceTime := sinceTime; StatusLive := true; ExcludeSessionID := own; q_ThreadRoot := thread;
     Kinds := k.1.1; ExcludeKinds := k.1.2; ActorKinds := splitCSVList (v_ActorKinds req); ExcludeActorKinds := splitCSVList (v_ExcludeActorKinds req);
     q_Tags := v_Tags req; q_Repo := v_Repo req; q_Branch := v_Branch req; q_WorkspacePath := v_WorkspacePath req;
     q_Audience := s_ID meta; AgentRole := role; OrderOldest := oldest; Limit := limit |}.

(** The messages of one request, given the agent's cursor and role; none is an error. *)
Definition receive_query (meta : SessionMeta) (req : ReceiveRequest) (agent : option MeshAgent) (now : Z) (t : list MeshMessage) : option (list MeshMessage) :=
  let filter := or_else (Filter req) "new" in
  let maxResults := NormalizeReceiveMaxResults (MaxResults req) in
  let role := match agent with Some a => a_Role a | None => "" end in
  let cursor := match agent with Some a => a_Cursor a | None => "" end in
  if bool_decide (filter = "new") then
    Some (selectOldestBatch (QueryMeshMessages (receive_filter meta req cursor None (s_ID meta) "" role true cursorScanLimit) t) maxResults)
  else if bool_decide (filter = "all") then
    let since := now - (if SinceMinutes req <=? 0 then 60 else SinceMinutes req) * minute in
    Some (QueryMeshMessages (receive_filter meta req "" (Some since) "" "" role false maxResults) t)
  else if bool_decide (filter = "thread") then
    if bool_decide (ThreadID req = "") then None
    else Some (QueryMeshMessages {|
      q_WorkspaceIDs := WorkspaceIDs meta ++ [""]; SinceID := ""; SinceTime := None; StatusLive := true; ExcludeSessionID := ""; q_ThreadRoot := ThreadID req;
      Kinds := []; ExcludeKinds := []; ActorKinds := []; ExcludeActorKinds := []; q_Tags := ""; q_Repo := ""; q_Branch := ""; q_WorkspacePath := "";
      q_Audience := s_ID meta; AgentRole := role; OrderOldest := false; Limit := maxResults |} t)
  else None.

Definition later_id (best : string) (x : MeshMessage) : string := if String.ltb best (ID x) then ID x else best.

Definition latest (msgs : list MeshMessage) : string :=
  match msgs with [] => "" | m :: ms => foldl later_id (ID m) ms end.

(** The cursor a request moves to. *)
Definition next_cursor (req : ReceiveRequest) (msgs : list MeshMessage) : option string :=
  if bool_decide (or_else (Filter req) "new" = "new") && negb (bool_decide (msgs = [])) && negb (receiveIsNarrowed req) then Some (latest msgs) else None.

(** ** Waits: wait.go *)

(** [w_named] is the session an agent's name was resolved to, and [w_names] the agent's
    name and display name a message carries, columns the rows leave out. *)
Record WaitCriteria := {
  w_SessionID : string; w_named : option string; w_Role : string; w_Tags : list string; AllTags : list string; w_Kinds : list string;
  FromPeer : string; StatusFrom : string; StatusTo : string; IncludeRole : bool; IncludeBroadcast : bool; Consume : bool; w_WorkspaceID : string;
  w_names : string -> list string }.

Definition normalizeFilterSet (l : list string) : list string := filter (fun v => v <> "") (map (fun v => ToLower (TrimSpace v)) l).

Definition tag_set (rawTags : string) : list string := normalizeFilterSet (SplitByte rawTags comma).

Definition msgHasAnyTag (rawTags : string) (want : list string) : bool := existsb (fun t => bool_decide (t ∈ want)) (tag_set rawTags).

Definition msgHasAllTags (rawTags : string) (want : list string) : bool := forallb (fun t => bool_decide (t ∈ tag_set rawTags)) want.

(** The last tag of each kind counts. *)
Definition transition_tag (ft : string * string) (tag : string) : string * string :=
  let tag := TrimSpace tag in
  match CutPrefix tag "status_from:", CutPrefix tag "status_to:" with
  | Some rest, _ => (TrimSpace rest, ft.2)
  | None, Some rest => (ft.1, TrimSpace rest)
  | None, None => ft
  end.

Definition statusTransition (rawTags : string) : string * string := foldl transition_tag ("", "") (SplitByte rawTags comma).

Definition statusTransitionMatches (rawTags wantFrom wantTo : string) : bool :=
  if bool_decide (wantFrom = "" /\ wantTo = "") then true
  else msgHasAnyTag rawTags ["task_event:status_changed"] &&
       same_or_any wantFrom (statusTransition rawTags).1 && same_or_any wantTo (statusTransition rawTags).2.

Definition audienceMatches (audience sid role : string) (includeRole includeBroadcast : bool) : bool :=
  (bool_decide (audience = sid) && negb (bool_decide (sid = ""))) || (includeBroadcast && bool_decide (audience = "*")) ||
  (includeRole && negb (bool_decide (role = "")) && bool_decide (audience = role)).

Definition senderMatches (names : string -> list string) (m : MeshMessage) (from : string) : bool :=
  existsb (fun n => EqualFold (TrimSpace n) from) (SessionID m :: names (ID m)).

Definition buildMatcher (c : WaitCriteria) (sid role : string) (m : MeshMessage) : bool :=
  let from := TrimSpace (FromPeer c) in
  let statusFrom := TrimSpace (StatusFrom c) in
  let statusTo := TrimSpace (StatusTo c) in
  audienceMatches (Audience m) sid role (IncludeRole c) (IncludeBroadcast c) &&
  among (normalizeFilterSet (w_Kinds c)) (ToLower (TrimSpace (Kind m))) &&
  (bool_decide (statusFrom = "" /\ statusTo = "") || bool_decide (Kind m = KindTaskEvent)) &&
  statusTransitionMatches (Tags m) statusFrom statusTo &&
  (bool_decide (from = "") || senderMatches (w_names c) m from) &&
  (bool_decide (normalizeFilterSet (w_Tags c) = []) || msgHasAnyTag (Tags m) (normalizeFilterSet (w_Tags c))) &&
  msgHasAllTags (Tags m) (normalizeFilterSet (AllTags c)).

(** The query of [scanWaiting]: the two hundred most urgent messages past the cursor. *)
Definition wait_filter (c : WaitCriteria) (cursor : string) : MeshMessageFilter := {|
  q_WorkspaceIDs := if bool_decide (w_WorkspaceID c = "") then [] else [w_WorkspaceID c; ""]; SinceID := cursor; SinceTime := None; StatusLive := true;
  ExcludeSessionID := ""; q_ThreadRoot := ""; Kinds := []; ExcludeKinds := []; ActorKinds := []; ExcludeActorKinds := []; q_Tags := ""; q_Repo := "";
  q_Branch := ""; q_WorkspacePath := ""; q_Audience := ""; AgentRole := ""; OrderOldest := false; Limit := 200 |}.

Definition scanWaiting (c : WaitCriteria) (sid role cursor : string) (t : list MeshMessage) : list MeshMessage :=
  List.filter (buildMatcher c sid role) (QueryMeshMessages (wait_filter c cursor) t).

(** Whom a wait is for. *)
Definition wait_session (c : WaitCriteria) : option string :=
  if bool_decide (TrimSpace (w_SessionID c) = "") then w_named c else Some (TrimSpace (w_SessionID c)).

(** The criteria [mesh__wait_for_event] waits with; whether the caller may read a
    workspace it names is left out. *)
Definition handler_criteria (meta : SessionMeta) (c : WaitCriteria) : WaitCriteria := {|
  w_SessionID := s_ID meta; w_named := None; w_Role := w_Role c; w_Tags := w_Tags c; AllTags := AllTags c;
  w_Kinds := if negb (bool_decide (TrimSpace (StatusFrom c) = "" /\ TrimSpace (StatusTo c) = "")) && bool_decide (w_Kinds c = []) then [KindTaskEvent] else w_Kinds c;
  FromPeer := FromPeer c; StatusFrom := StatusFrom c; StatusTo := StatusTo c; IncludeRole := IncludeRole c; IncludeBroadcast := IncludeBroadcast c;
  Consume := Consume c; w_WorkspaceID := or_else (TrimSpace (w_WorkspaceID c)) (default "" (head (WorkspaceIDs meta))); w_names := w_names c |}.

(** ** Ingest *)

Record MeshEnvelope := {
  e_ID : string; e_SenderPeerID : string; e_SenderDisplayName : string; e_WorkspaceID : string; e_Kind : string; e_Priority : string; e_Content : string;
  e_Recipient : string * string; e_Tags : string; e_Repo : string; e_Branch : string; e_WorkspacePath : string }.

Definition clampPriority (p : string) : string := match priorityTTL p with Some _ => p | None => "normal" end.

(** [validID] is what the ULID parser says of the envelope's id. *)
Definition validateInboundEnvelope (validID : bool) (e : MeshEnvelope) : bool :=
  validID && bool_decide (e_Kind e ∈ ValidKinds) && negb (bool_decide (TrimSpace (e_Content e) = "")) &&
  (Z.of_nat (String.length (e_Content e)) <=? MaxSendContentBytes).

(** The row of an envelope, given the binding found for its workspace; none is a silent
    denial. *)
Definition ingested (validID : bool) (binding : option string) (e : MeshEnvelope) (now : Z) : option MeshMessage :=
  if negb (validateInboundEnvelope validID e) then None
  else ws ← (if bool_decide (e_WorkspaceID e = "" \/ e_WorkspaceID e = "global" \/ e_SenderPeerID e = "") then Some "" else binding);
       let priority := clampPriority (e_Priority e) in
       Some {| ID := ""; WorkspaceID := ws; SessionID := e_SenderPeerID e; Kind := e_Kind e; Priority := priority; Content := e_Content e;
               Audience := if bool_decide (fst (e_Recipient e) = "audience" \/ fst (e_Recipient e) = "role") then or_else (snd (e_Recipient e)) "*" else "*";
               Tags := inboundTags (e_SenderPeerID e) (e_Tags e); ReplyTo := ""; ThreadRoot := ""; ReplyCount := 0; Status := "live";
               ExpiresAt := formatTime (now + ttl_of priority); CreatedAt := formatTime now; Repo := e_Repo e; Branch := e_Branch e;
               WorkspacePath := e_WorkspacePath e; ActorKind := "peer-import" |}.

(** ** The machine *)

Record shared := {
  messages : list MeshMessage;
  mesh_agents : agents;
  inserted : list string;                 (** every id ever inserted *)
  delivered : list (string * string)      (** session and id, once a request has them *)
}.

Definition set_messages x (s : shared) : shared := {| messages := x; mesh_agents := mesh_agents s; inserted := inserted s; delivered := delivered s |}.
Definition set_agents x (s : shared) : shared := {| messages := messages s; mesh_agents := x; inserted := inserted s; delivered := delivered s |}.
Definition add_delivered sid (ms : list MeshMessage) (s : shared) : shared := {|
  messages := messages s; mesh_agents := mesh_agents s; inserted := inserted s; delivered := map (fun m => (sid, ID m)) ms ++ delivered s |}.
Definition insert_message m (s : shared) : option shared :=
  (fun t => {| messages := t; mesh_agents := mesh_agents s; inserted := ID m :: inserted s; delivered := delivered s |}) <$> InsertMeshMessage m (messages s).

(** What a step is answered: does the store call succeed, the clock, the id minted. *)
Record answers := { ok : bool; now : Z; fresh : string }.

(** [ensureAgent] *)
Inductive ensure_pc := EGet | EPrior | EUpsert (name role : string).

Definition first_workspace (meta : SessionMeta) : string := default "" (head (WorkspaceIDs meta)).

Definition own_row (meta : SessionMeta) (name role : string) (now : Z) : MeshAgent := {|
  a_WorkspaceID := first_workspace meta; a_Name := name; a_Role := role; a_ClientType := ClientType meta; a_Cursor := ""; a_Origin := "local"; a_LastSeenAt := now |}.

Definition ensure_step (e : answers) (meta : SessionMeta) (name role : string) (pc : ensure_pc) (s : shared) : option ensure_pc * shared :=
  match pc with
  | EGet => (Some (if negb (bool_decide (name = "")) then EUpsert name role
                   else if ok e && bool_decide (is_Some (mesh_agents s !! s_ID meta)) then EUpsert name role else EPrior), s)
  | EPrior => (Some (match (if ok e then FindRecentLocalAgentByClient (first_workspace meta) (ClientType meta) (s_ID meta) (mesh_agents s) else None) with
                     | Some p => EUpsert (a_Name p) (or_else role (a_Role p))
                     | None => EUpsert name role
                     end), s)
  | EUpsert name role => (None, if ok e then set_agents (UpsertMeshAgent (s_ID meta) (own_row meta name role (now e)) (mesh_agents s)) s else s)
  end.

Inductive send_pc :=
| SDraft
| SParent (m : MeshMessage)
| SReplyCount (m parent : MeshMessage)
| SExtend (m parent : MeshMessage)
| SInsert (m : MeshMessage)
| SCount (ws : string)
| SArchive (ws : string) (excess : Z)
| SDispatch
| SEnsure (pc : ensure_pc).

Definition ceiling (ws : string) (e : answers) (s : shared) : option Z :=
  let count := CountLiveMessages ws (messages s) in
  if ok e && (maxLiveMessages <? count) then Some (count - maxLiveMessages) else None.

Definition trim_workspace (ws : string) (excess : Z) (e : answers) (s : shared) : shared :=
  if ok e then set_messages (ArchiveLowestPriority ws excess (messages s)) s else s.

Definition send_step (e : answers) (meta : SessionMeta) (req : SendRequest) (pc : send_pc) (s : shared) : option send_pc * shared :=
  match pc with
  | SDraft => (match draft meta req (now e) with
               | Some m => let m := with_id (fresh e) m in Some (if bool_decide (r_ReplyTo req = "") then SInsert m else SParent m)
               | None => None
               end, s)
  | SParent m => (match (if ok e then GetMeshMessage (r_ReplyTo req) (messages s) else None) with
                  | Some p => if negb (bool_decide (WorkspaceID p = "")) && negb (bool_decide (WorkspaceID p = WorkspaceID m)) then None
                              else Some (SReplyCount (reply_of p m) p)
                  | None => None
                  end, s)
  | SReplyCount m p => (Some (SExtend m p), if ok e then set_messages (IncrementReplyCount (ID p) (messages s)) s else s)
  | SExtend m p => (Some (SInsert m), if ok e then set_messages (ExtendMessageExpiry (ID p) (extended_expiry p) (messages s)) s else s)
  | SInsert m => match (if ok e then insert_message m s else None) with Some s => (Some (SCount (WorkspaceID m)), s) | None => (None, s) end
  | SCount ws => (Some (match ceiling ws e s with Some n => SArchive ws n | None => SDispatch end), s)
  | SArchive ws n => (Some SDispatch, trim_workspace ws n e s)
  | SDispatch => (if ok e then Some (SEnsure EGet) else None, s)
  | SEnsure pc => let '(pc, s) := ensure_step e meta "" "" pc s in (SEnsure <$> pc, s)
  end.

Inductive ingest_pc := IInsert (m : MeshMessage) | ICount (m : MeshMessage) | IArchive (m : MeshMessage) (excess : Z) | IAgent (m : MeshMessage).

(** A peer's row in the directory: messages for everyone put it under "global". *)
Definition remote_row (name : string) (m : MeshMessage) (now : Z) : MeshAgent := {|
  a_WorkspaceID := or_else (WorkspaceID m) "global"; a_Name := name; a_Role := ""; a_ClientType := "p2p"; a_Cursor := "";
  a_Origin := "peer:" +:+ SessionID m; a_LastSeenAt := now |}.

Definition ingest_step (e : answers) (name : string) (pc : ingest_pc) (s : shared) : option ingest_pc * shared :=
  match pc with
  | IInsert m => match (if ok e then insert_message m s else None) with Some s => (Some (ICount m), s) | None => (None, s) end
  | ICount m => (Some (match ceiling (WorkspaceID m) e s with Some n => IArchive m n | None => IAgent m end), s)
  | IArchive m n => (Some (IAgent m), trim_workspace (WorkspaceID m) n e s)
  | IAgent m => (None, if ok e && negb (bool_decide (SessionID m = "")) then set_agents (UpsertMeshAgent (SessionID m) (remote_row name m (now e)) (mesh_agents s)) s else s)
  end.

Inductive receive_pc :=
| REnsure (pc : ensure_pc)
| RTouch
| RAgent
| RQuery (agent : option MeshAgent)
| RCursor (msgs : list MeshMessage) (c : string).

Definition receive_step (e : answers) (meta : SessionMeta) (req : ReceiveRequest) (pc : receive_pc) (s : shared) : option receive_pc * shared :=
  match pc with
  | REnsure pc => let '(pc, s) := ensure_step e meta (v_Name req) (v_Role req) pc s in (Some (match pc with Some pc => REnsure pc | None => RTouch end), s)
  | RTouch => (Some RAgent, if ok e then set_agents (TouchMeshAgent (s_ID meta) (now e) (mesh_agents s)) s else s)
  | RAgent => (Some (RQuery (if ok e then mesh_agents s !! s_ID meta else None)), s)
  | RQuery agent =>
      match (if ok e then receive_query meta req agent (now e) (messages s) else None) with
      | Some msgs => (RCursor msgs <$> next_cursor req msgs, add_delivered (s_ID meta) msgs s)
      | None => (None, s)
      end
  | RCursor _ c => (None, if ok e then set_agents (UpdateAgentCursor (s_ID meta) c (mesh_agents s)) s else s)
  end.

Inductive wait_pc :=
| WEnsure (pc : ensure_pc)
| WTouch
| WResolve
| WAgent (role : string)
| WQuery (role cursor : string)
| WBlocked (role : string)
| WCursor (c : string).

(** A blocked wait goes on when it is woken; one whose time is up stays blocked for good.
    The tool registers the caller first, under the name it gives. *)
Definition wait_step (e : answers) (meta : SessionMeta) (name : string) (c : WaitCriteria) (pc : wait_pc) (s : shared) : option wait_pc * shared :=
  let sid := default "" (wait_session c) in
  match pc with
  | WEnsure pc => let '(pc', s) := ensure_step e meta name (w_Role c) pc s in
                  (match pc' with Some pc' => Some (WEnsure pc') | None => if ok e then Some WTouch else None end, s)
  | WTouch => (Some WResolve, if ok e then set_agents (TouchMeshAgent (s_ID meta) (now e) (mesh_agents s)) s else s)
  | WResolve => (match (if ok e then sid ← wait_session c; mesh_agents s !! sid else None) with
                 | Some a => if bool_decide (a_Origin a = "local") then Some (WAgent (or_else (w_Role c) (a_Role a))) else None
                 | None => None
                 end, s)
  | WAgent role => (Some (WQuery role (match (if ok e then mesh_agents s !! sid else None) with Some a => a_Cursor a | None => "" end)), s)
  | WQuery role cursor =>
      if ok e then match scanWaiting c sid role cursor (messages s) with
                   | [] => (Some (WBlocked role), s)
                   | msgs => (if Consume c then Some (WCursor (latest msgs)) else None, add_delivered sid msgs s)
                   end
      else (None, s)
  | WBlocked role => (Some (WAgent role), s)
  | WCursor cur => (None, if ok e then set_agents (UpdateAgentCursor sid cur (mesh_agents s)) s else s)
  end.

Inductive thread :=
| TSend (meta : SessionMeta) (req : SendRequest) (pc : send_pc)
| TIngest (name : string) (pc : ingest_pc)
| TReceive (meta : SessionMeta) (req : ReceiveRequest) (pc : receive_pc)
| TRegister (meta : SessionMeta) (pc : ensure_pc)
| TWait (meta : SessionMeta) (name : string) (c : WaitCriteria) (pc : wait_pc)
| TDone.

Definition thread_step (e : answers) (th : thread) (s : shared) : option (thread * shared) :=
  match th with
  | TSend meta req pc => let '(pc, s) := send_step e meta req pc s in Some (match pc with Some pc => TSend meta req pc | None => TDone end, s)
  | TIngest name pc => let '(pc, s) := ingest_step e name pc s in Some (match pc with Some pc => TIngest name pc | None => TDone end, s)
  | TReceive meta req pc => let '(pc, s) := receive_step e meta req pc s in Some (match pc with Some pc => TReceive meta req pc | None => TDone end, s)
  | TRegister meta pc => let '(pc, s) := ensure_step e meta "" "" pc s in Some (match pc with Some pc => TRegister meta pc | None => TDone end, s)
  | TWait meta name c pc => let '(pc, s) := wait_step e meta name c pc s in Some (match pc with Some pc => TWait meta name c pc | None => TDone end, s)
  | TDone => None
  end.

Record state := { mem : shared; threads : list thread }.

Inductive label :=
| Send (meta : SessionMeta) (req : SendRequest)
| Ingest (validID : bool) (binding : option string) (env : MeshEnvelope) (now : Z) (fresh : string)
| Receive (meta : SessionMeta) (req : ReceiveRequest)
| RegisterAgent (meta : SessionMeta)
| WaitForEvent (meta : SessionMeta) (name : string) (c : WaitCriteria)   (** the tool *)
| WaitByName (c : WaitCriteria)                                           (** the HTTP route *)
| Step (n : nat) (e : answers)
| ExpireSweep (now : Z)
| FindingsSweep (now : Z)
| PruneSweep (now retention : Z)
| Disconnect (sid : string).

Definition spawned (l : label) : option thread :=
  match l with
  | Send meta req => Some (TSend meta req SDraft)
  | Ingest v b env now fresh => (fun m => TIngest (e_SenderDisplayName env) (IInsert (with_id fresh m))) <$> ingested v b env now
  | Receive meta req => Some (TReceive meta req (REnsure EGet))
  | RegisterAgent meta => Some (TRegister meta EGet)
  | WaitForEvent meta name c => if bool_decide (s_ID meta = "") then None else Some (TWait meta name (handler_criteria meta c) (WEnsure EGet))
  | WaitByName c => Some (TWait {| s_ID := ""; WorkspaceIDs := []; ClientType := ""; s_WorkspacePath := "" |} "" c WResolve)
  | _ => None
  end.

(** The steps of the reaper, and a session's end. *)
Definition swept (l : label) (s : shared) : option shared :=
  match l with
  | ExpireSweep now => Some (set_messages (ArchiveExpiredMessages now (messages s)) s)
  | FindingsSweep now => Some (set_messages (ArchiveOldWorkerFindings (now - 24 * 60 * minute) (messages s)) s)
  | PruneSweep now retention => Some (set_messages (DeleteArchivedMessages (now - retention) (messages s)) s)
  | Disconnect sid => Some (set_agents (delete sid (mesh_agents s)) s)
  | _ => None
  end.

Definition step (s : state) (l : label) : option state :=
  match l with
  | Step n e => th ← threads s !! n; '(th, m) ← thread_step e th (mem s); Some {| mem := m; threads := <[n := th]> (threads s) |}
  | Send _ _ | Ingest _ _ _ _ _ | Receive _ _ | RegisterAgent _ | WaitForEvent _ _ _ | WaitByName _ => th ← spawned l; Some {| mem := mem s; threads := threads s ++ [th] |}
  | _ => m ← swept l (mem s); Some {| mem := m; threads := threads s |}
  end.

Fixpoint run (s : state) (ls : list label) : option state := match ls with [] => Some s | l :: ls => s ← step s l; run s ls end.

Definition empty_mesh : state := {| mem := {| messages := []; mesh_agents := ∅; inserted := []; delivered := [] |}; threads := [] |}.

(** ** Reads without a cursor *)

Definition workspaceReadable (readable : list string) (ws : string) : bool := bool_decide (ws = "") || bool_decide (ws ∈ readable).

Definition canReadMessage (meta : SessionMeta) (agent : option MeshAgent) (m : MeshMessage) : bool :=
  live m && workspaceReadable (WorkspaceIDs meta) (WorkspaceID m) &&
  (bool_decide (Audience m = "" \/ Audience m = "*" \/ Audience m = s_ID meta) ||
   match agent with Some a => negb (bool_decide (a_Role a = "")) && bool_decide (Audience m = a_Role a) | None => false end).

Definition Hydrate (meta : SessionMeta) (id : string) (s : shared) : option MeshMessage :=
  let id := TrimSpace id in
  if bool_decide (id = "") then None
  else m ← GetMeshMessage id (messages s); if canReadMessage meta (mesh_agents s !! s_ID meta) m then Some m else None.

Definition thread_filter (meta : SessionMeta) (root : string) (limit : Z) : MeshMessageFilter := {|
  q_WorkspaceIDs := WorkspaceIDs meta ++ [""]; SinceID := ""; SinceTime := None; StatusLive := true; ExcludeSessionID := ""; q_ThreadRoot := root;
  Kinds := []; ExcludeKinds := []; ActorKinds := []; ExcludeActorKinds := []; q_Tags := ""; q_Repo := ""; q_Branch := ""; q_WorkspacePath := "";
  q_Audience := ""; AgentRole := ""; OrderOldest := false; Limit := limit |}.

Definition Thread (meta : SessionMeta) (threadID : string) (maxResults : Z) (s : shared) : option (list MeshMessage) :=
  let id := TrimSpace threadID in
  let limit := NormalizeReceiveMaxResults maxResults in
  if bool_decide (id = "") then None
  else root ← GetMeshMessage id (messages s);
       let agent := mesh_agents s !! s_ID meta in
       if canReadMessage meta agent root
       then let replies := List.filter (canReadMessage meta agent) (QueryMeshMessages (thread_filter meta id limit) (messages s)) in
            Some (SliceStable older (root :: take (Z.to_nat limit - 1) replies))
       else None.

Definition pendingCountCap : Z := 100.

Definition pending_filter (meta : SessionMeta) (a : MeshAgent) : MeshMessageFilter := {|
  q_WorkspaceIDs := WorkspaceIDs meta ++ [""]; SinceID := a_Cursor a; SinceTime := None; StatusLive := true; ExcludeSessionID := s_ID meta; q_ThreadRoot := "";
  Kinds := []; ExcludeKinds := [KindTaskEvent]; ActorKinds := []; ExcludeActorKinds := []; q_Tags := ""; q_Repo := ""; q_Branch := ""; q_WorkspacePath := "";
  q_Audience := s_ID meta; AgentRole := a_Role a; OrderOldest := false; Limit := 0 |}.

Definition PendingCount (meta : SessionMeta) (s : shared) : Z :=
  match mesh_agents s !! s_ID meta with None => 0 | Some a => CountMeshMessages (pending_filter meta a) pendingCountCap (messages s) end.

(** ** Order of ids *)

Lemma older_sorted l : StronglySorted (not_after older) (SliceStable older l).
Proof.
  apply SliceStable_sorted; unfold not_after, older.
  - intros x y z Hyx Hzy. destruct (String.ltb (ID z) (ID x)) eqn:E; [|done].
    destruct (String.ltb (ID x) (ID y)) eqn:E2; [by rewrite (string_ltb_trans _ _ _ E E2) in Hzy|].
    rewrite (string_ltb_total _ _ Hyx E2) in Hzy. congruence.
  - intros x y. apply string_ltb_asym.
Qed.

(** In a sorted list what is not among the first [n] is not before any of them. *)
Lemma sorted_take {A} (R : A -> A -> Prop) l n x y : StronglySorted R l -> x ∈ take n l -> y ∈ l -> y ∈ take n l \/ R x y.
Proof.
  intros S Hx Hy. rewrite <- (take_drop n l) in S, Hy. apply elem_of_app in Hy as [?|Hy]; [by left|right].
  revert Hx Hy S. generalize (take n l) (drop n l). clear. intros a b. induction a as [|z a IH]; cbn; [by intros ?%elem_of_nil|].
  intros Hx Hy [S Hz]%StronglySorted_inv. apply elem_of_cons in Hx as [->|Hx]; [|by apply IH].
  rewrite list.Forall_forall in Hz. apply Hz. apply elem_of_app. by right.
Qed.

Lemma later_id_max l b : String.ltb (foldl later_id b l) b = false /\ forall y, y ∈ l -> String.ltb (foldl later_id b l) (ID y) = false.
Proof.
  revert b. induction l as [|y l IH]; intros b; cbn [foldl]; [split; [apply string_ltb_irrefl|by intros ? ?%elem_of_nil]|].
  destruct (IH (later_id b y)) as [H1 H2]. set (top := foldl later_id (later_id b y) l) in *.
  assert (String.ltb top b = false /\ String.ltb top (ID y) = false) as [Hb Hy].
  { unfold later_id in H1. destruct (String.ltb b (ID y)) eqn:E.
    - split; [|done]. destruct (String.ltb top b) eqn:E2; [|done]. by rewrite (string_ltb_trans _ _ _ E2 E) in H1.
    - split; [done|]. destruct (String.ltb top (ID y)) eqn:E2; [|done]. destruct (String.ltb b top) eqn:E3;
        [by rewrite (string_ltb_trans _ _ _ E3 E2) in E|]. rewrite (string_ltb_total _ _ H1 E3) in E2. congruence. }
  split; [done|]. intros z [->|Hz]%elem_of_cons; [done|by apply H2].
Qed.

Lemma later_id_in l b : foldl later_id b l = b \/ exists m, m ∈ l /\ ID m = foldl later_id b l.
Proof.
  revert b. induction l as [|y l IH]; intros b; cbn [foldl]; [by left|]. destruct (IH (later_id b y)) as [E|(m & Hm & E)].
  - rewrite E. unfold later_id. destruct (String.ltb b (ID y)); [right; exists y; split; [by left|done]|by left].
  - right. exists m. split; [by right|done].
Qed.

Lemma latest_max msgs m : m ∈ msgs -> String.ltb (latest msgs) (ID m) = false.
Proof.
  destruct msgs as [|x l]; [by intros ?%elem_of_nil|]. destruct (later_id_max l (ID x)) as [H1 H2]. by intros [->|Hm]%elem_of_cons; [|apply H2].
Qed.

Lemma latest_in msgs : msgs <> [] -> exists m, m ∈ msgs /\ ID m = latest msgs.
Proof.
  destruct msgs as [|x l]; [done|]. intros _. cbn [latest].
  destruct (later_id_in l (ID x)) as [E|(m & Hm & E)]; [exists x; split; [by left|done]|exists m; split; [by right|done]].
Qed.

Lemma batch_oldest found k limit m x : m ∈ found -> x ∈ selectOldestBatch (take k (SliceStable older found)) limit ->
  m ∈ selectOldestBatch (take k (SliceStable older found)) limit \/ String.ltb (ID m) (ID x) = false.
Proof.
  unfold selectOldestBatch. destruct (limit <=? 0); [by intros ? ?%elem_of_nil|]. set (w := take k (SliceStable older found)).
  rewrite !(SliceStable_perm urgent_first). intros Hm Hx.
  assert (x ∈ w) as Hxw by (rewrite <- (SliceStable_perm older w), <- (take_drop (Z.to_nat limit) (SliceStable older w)); apply elem_of_app; by left).
  destruct (sorted_take _ _ k x m (older_sorted found) Hxw) as [Hw|Hw]; [by rewrite SliceStable_perm| |by right].
  destruct (sorted_take _ _ (Z.to_nat limit) x m (older_sorted w) Hx) as [?|?]; [by rewrite SliceStable_perm|by left|by right].
Qed.

Lemma batch_found found k limit x : x ∈ selectOldestBatch (take k (SliceStable older found)) limit -> x ∈ found.
Proof.
  unfold selectOldestBatch. destruct (limit <=? 0); [by intros ?%elem_of_nil|]. rewrite (SliceStable_perm urgent_first).
  intros Hx%elem_of_take. rewrite <- (SliceStable_perm older found). destruct Hx as (i & Hi & _). apply list_elem_of_lookup_2 in Hi.
  rewrite (SliceStable_perm older (take k _)) in Hi. apply elem_of_take in Hi as (j & Hj & _). by eapply list_elem_of_lookup_2.
Qed.

(** ** Nothing is skipped *)

Section Reader.
Context (sid : string) (W : list string) (named : sid <> "").

(** Mail for a session: addressed to it or to everybody, by somebody else, in a workspace
    it reads, and no task event. *)
Definition mail (m : MeshMessage) : Prop :=
  live m = true /\ workspaceReadable W (WorkspaceID m) = true /\ SessionID m <> sid /\ Kind m <> KindTaskEvent /\ (Audience m = "*" \/ Audience m = sid).

(** All mail up to a cursor has been delivered. *)
Definition covered (s : shared) (c : string) : Prop :=
  c <> "" -> forall m, m ∈ messages s -> mail m -> String.ltb c (ID m) = false -> (sid, ID m) ∈ delivered s.

Definition same_mail (m m' : MeshMessage) : Prop :=
  ID m' = ID m /\ WorkspaceID m' = WorkspaceID m /\ SessionID m' = SessionID m /\ Kind m' = Kind m /\ Audience m' = Audience m /\
  (live m' = true -> live m = true).

Record evolves (s s' : shared) : Prop := {
  ev_messages : forall m', m' ∈ messages s' -> (exists m, m ∈ messages s /\ same_mail m m') \/ ID m' ∈ inserted s' /\ forall x, x ∈ inserted s -> String.ltb x (ID m') = true;
  ev_inserted : inserted s ⊆ inserted s';
  ev_delivered : delivered s ⊆ delivered s' }.

Lemma covered_evolves s s' c : evolves s s' -> c ∈ inserted s -> covered s c -> covered s' c.
Proof.
  intros [Hm Hi Hd] Hc Hcov Hne m' Hin (H1 & H2 & H3 & H4 & H5) Hle. apply Hd. destruct (Hm m' Hin) as [(m & Hin' & E1 & E2 & E3 & E4 & E5 & Hl)|[_ Hnew]].
  - rewrite E1 in Hle |- *. apply Hcov; [done|done| |done]. unfold mail. rewrite <- E2, <- E3, <- E4, <- E5. auto.
  - rewrite (Hnew c Hc) in Hle. done.
Qed.

Lemma default_selects meta req c role limit m : s_ID meta = sid -> W ⊆ WorkspaceIDs meta -> receiveIsNarrowed req = false -> mail m ->
  (c = "" \/ String.ltb c (ID m) = true) -> selects (receive_filter meta req c None (s_ID meta) "" role true limit) m = true.
Proof.
  intros Hid HW Hn (Hl & Hw & Hs & Hk & Ha) Hc. unfold receiveIsNarrowed in Hn. cbn [existsb] in Hn. bool_hyps.
  repeat match goal with H : bool_decide _ = true |- _ => apply bool_decide_eq_true in H end.
  unfold receive_filter, resolveKindFilters, splitCSVList.
  repeat match goal with H : ?f req = "" |- _ => rewrite !H; clear H end.
  change (splitTags "") with (@nil string). rewrite bool_decide_false by (by intros ?%elem_of_nil). rewrite bool_decide_true by done. cbn [negb app].
  unfold selects. cbn [q_WorkspaceIDs SinceID SinceTime StatusLive ExcludeSessionID q_ThreadRoot Kinds ExcludeKinds ActorKinds ExcludeActorKinds q_Tags
    q_Repo q_Branch q_WorkspacePath q_Audience AgentRole fst snd]. rewrite Hid. unfold workspaceReadable in Hw.
  repeat (apply andb_true_iff; split); try done.
  - unfold among. apply orb_true_iff. right. apply bool_decide_eq_true. apply elem_of_app.
    apply orb_true_iff in Hw as [Hw|Hw]; apply bool_decide_eq_true in Hw; [right; rewrite Hw; by left|left; by apply HW].
  - destruct Hc as [->|Hc]; [done|]. by rewrite Hc, orb_true_r.
  - rewrite (bool_decide_false (SessionID m = sid)) by done. by rewrite orb_true_r.
  - unfold not_among. by rewrite bool_decide_false by (by intros ?%list_elem_of_singleton).
  - unfold addressed. rewrite (bool_decide_false (sid = "" /\ role = "")) by (by intros [? _]). destruct Ha as [->| ->]; [by rewrite bool_decide_true|].
    rewrite (bool_decide_true (sid = sid)) by done.
    by rewrite (bool_decide_false (sid = "")), orb_true_r by done.
Qed.

(** A poll that is not narrowed covers up to the last message it delivers. *)
Lemma poll_covers meta req agent now s msgs c : s_ID meta = sid -> W ⊆ WorkspaceIDs meta ->
  match agent with Some a => covered s (a_Cursor a) | None => True end ->
  receive_query meta req agent now (messages s) = Some msgs -> next_cursor req msgs = Some c ->
  covered (add_delivered sid msgs s) c /\ exists m, m ∈ messages s /\ ID m = c.
Proof.
  intros Hid HW Hcov Hq Hc. unfold next_cursor in Hc. destruct (_ && _) eqn:E; [|done]. injection Hc as <-. bool_hyps.
  unfold receive_query in Hq. rewrite bool_decide_true in Hq by done. injection Hq as Hq. unfold QueryMeshMessages in Hq.
  set (role := match agent with Some a => a_Role a | None => "" end) in *. set (cur := match agent with Some a => a_Cursor a | None => "" end) in *.
  set (f := receive_filter meta req cur None (s_ID meta) "" role true cursorScanLimit) in *. change (OrderOldest f) with true in Hq. cbn iota in Hq.
  destruct (latest_in msgs) as (x & Hx & Hxc); [done|].
  assert (forall m, m ∈ msgs -> m ∈ messages s) as Hfound.
  { intros m Hm. rewrite <- Hq in Hm. apply batch_found in Hm. apply list_elem_of_In, List.filter_In in Hm as [Hm _]. by apply list_elem_of_In. }
  split; [|exists x; split; [by apply Hfound|done]].
  intros _ m Hm Hmail Hle. cbn. apply elem_of_app. destruct (decide (cur <> "" /\ String.ltb cur (ID m) = false)) as [[Hcne Hcle]|Hcur].
  - right. destruct agent as [a|]; [|done]. by apply Hcov.
  - left. assert (m ∈ List.filter (selects f) (messages s)) as Hsel.
    { apply list_elem_of_In, List.filter_In. split; [by apply list_elem_of_In|]. apply default_selects; try done.
      destruct (decide (cur = "")); [by left|right]. destruct (String.ltb cur (ID m)) eqn:E; [done|]. by destruct Hcur. }
    assert (m ∈ msgs \/ ID m = ID x) as [Hin|E].
    { rewrite <- Hq in Hx. destruct (batch_oldest _ _ _ m x Hsel Hx) as [Hin|Hlt]; [left; by rewrite <- Hq|right].
      apply string_ltb_total; [done|]. by rewrite Hxc. }
    + by apply (list_elem_of_fmap_2 (fun m => (sid, ID m))).
    + rewrite E. by apply (list_elem_of_fmap_2 (fun m => (sid, ID m))).
Qed.

(** *** Steps *)

(** Rows are inserted in the order of their ids. *)
Definition ordered_step (s s' : shared) : bool :=
  bool_decide (inserted s' = inserted s) ||
  match inserted s' with id :: l => bool_decide (l = inserted s) && forallb (fun x => String.ltb x id) l | [] => false end.

Lemma same_mail_refl m : same_mail m m.
Proof. by unfold same_mail. Qed.

Lemma evolves_agents s s' : messages s' = messages s -> inserted s' = inserted s -> delivered s ⊆ delivered s' -> evolves s s'.
Proof. intros E1 E2 Hd. constructor; rewrite ?E1, ?E2; [|done|done]. intros m Hm. left. exists m. split; [done|apply same_mail_refl]. Qed.

Lemma evolves_refl s : evolves s s.
Proof. by apply evolves_agents. Qed.

Lemma evolves_update p f s : (forall m, same_mail m (f m)) -> evolves s (set_messages (update_where p f (messages s)) s).
Proof.
  intros Hf. constructor; cbn; [|done|done]. intros m' Hm. left. apply list_elem_of_fmap in Hm as (m & -> & Hm). exists m. split; [done|].
  destruct (p m); [apply Hf|apply same_mail_refl].
Qed.

Lemma evolves_filter p s : evolves s (set_messages (List.filter p (messages s)) s).
Proof.
  constructor; cbn; [|done|done]. intros m Hm. left. exists m. split; [|apply same_mail_refl].
  apply list_elem_of_In, List.filter_In in Hm as [Hm _]. by apply list_elem_of_In.
Qed.

Lemma evolves_insert m s s' : insert_message m s = Some s' -> ordered_step s s' = true -> evolves s s'.
Proof.
  unfold insert_message, InsertMeshMessage. case_bool_decide as Hfree; [done|]. intros [= <-] Hord. unfold ordered_step in Hord. cbn in Hord.
  apply orb_true_iff in Hord as [Hord%bool_decide_eq_true|[_ Hord]%andb_true_iff]; [by apply (f_equal length) in Hord; cbn in Hord; lia|].
  rewrite forallb_forall in Hord. assert (forall x, x ∈ inserted s -> String.ltb x (ID m) = true) as Hnew by (intros x Hx; by apply Hord, list_elem_of_In).
  constructor; cbn; [|set_solver|done]. intros m' [Hm|Hm]%elem_of_app; [left; exists m'; split; [done|apply same_mail_refl]|right].
  apply list_elem_of_singleton in Hm as ->. split; [by left|done].
Qed.

Lemma archived_mail m : same_mail m (with_status "archived" m).
Proof. by unfold same_mail. Qed.

Lemma thread_mail count expires m : same_mail m (with_thread count expires m).
Proof. by unfold same_mail. Qed.

Lemma trim_evolves ws n e s : evolves s (trim_workspace ws n e s).
Proof. unfold trim_workspace. destruct (ok e); [|apply evolves_refl]. apply evolves_update, archived_mail. Qed.

Lemma ensure_evolves e meta name role pc s : evolves s (ensure_step e meta name role pc s).2.
Proof. destruct pc; cbn; try apply evolves_refl. destruct (ok e); [by apply evolves_agents|apply evolves_refl]. Qed.

(** Cursors only move when a poll moves them. *)
Definition cursors_kept (t t' : agents) : Prop :=
  forall a', t' !! sid = Some a' -> a_Cursor a' = "" \/ exists a, t !! sid = Some a /\ a_Cursor a' = a_Cursor a.

Lemma cursors_refl t : cursors_kept t t.
Proof. intros a Ha. right. by exists a. Qed.

Lemma upsert_cursors k a t : a_Cursor a = "" -> cursors_kept t (UpsertMeshAgent k a t).
Proof.
  intros Hc a'. unfold UpsertMeshAgent. destruct (decide (k = sid)) as [->|Hn].
  - destruct (t !! sid) as [o|] eqn:E; rewrite lookup_insert_eq; intros [= <-]; [right; by exists o|by left].
  - destruct (t !! k); rewrite lookup_insert_ne by done; intros Ha; right; by exists a'.
Qed.

Lemma ensure_cursors e meta name role pc s : cursors_kept (mesh_agents s) (mesh_agents (ensure_step e meta name role pc s).2).
Proof. destruct pc; cbn; try apply cursors_refl. destruct (ok e); [by apply upsert_cursors|apply cursors_refl]. Qed.

Lemma touch_cursors k now t : cursors_kept t (TouchMeshAgent k now t).
Proof.
  intros a'. unfold TouchMeshAgent. destruct (decide (k = sid)) as [->|Hn].
  - rewrite lookup_alter_eq. intros (a & Ha & ->)%fmap_Some. right. by exists a.
  - rewrite lookup_alter_ne by done. intros Ha. right. by exists a'.
Qed.

Lemma trim_agents ws n e s : mesh_agents (trim_workspace ws n e s) = mesh_agents s.
Proof. unfold trim_workspace. by destruct (ok e). Qed.

Lemma insert_agents m s s' : insert_message m s = Some s' -> mesh_agents s' = mesh_agents s.
Proof. unfold insert_message. destruct (InsertMeshMessage m (messages s)); [|done]. by intros [= <-]. Qed.

Lemma send_step_evolves e meta req pc s : ordered_step s (send_step e meta req pc s).2 = true ->
  evolves s (send_step e meta req pc s).2 /\ cursors_kept (mesh_agents s) (mesh_agents (send_step e meta req pc s).2).
Proof.
  destruct pc; cbn [send_step snd]; intros Ho; try (split; [apply evolves_refl|apply cursors_refl]).
  - destruct (ok e); (split; [|apply cursors_refl]); [apply evolves_update; intros; apply thread_mail|apply evolves_refl].
  - destruct (ok e); (split; [|apply cursors_refl]); [apply evolves_update; intros; apply thread_mail|apply evolves_refl].
  - destruct (if ok e then insert_message m s else None) as [s1|] eqn:E; cbn [snd] in *; [|split; [apply evolves_refl|apply cursors_refl]].
    destruct (ok e); [|done]. split; [by eapply evolves_insert|]. rewrite (insert_agents _ _ _ E). apply cursors_refl.
  - split; [apply trim_evolves|]. rewrite trim_agents. apply cursors_refl.
  - pose proof (ensure_evolves e meta "" "" pc s) as H1. pose proof (ensure_cursors e meta "" "" pc s) as H2. by destruct (ensure_step e meta "" "" pc s).
Qed.

Lemma ingest_step_evolves e name pc s : ordered_step s (ingest_step e name pc s).2 = true ->
  evolves s (ingest_step e name pc s).2 /\ cursors_kept (mesh_agents s) (mesh_agents (ingest_step e name pc s).2).
Proof.
  destruct pc; cbn [ingest_step snd]; intros Ho; try (split; [apply evolves_refl|apply cursors_refl]).
  - destruct (if ok e then insert_message m s else None) as [s1|] eqn:E; cbn [snd] in *; [|split; [apply evolves_refl|apply cursors_refl]].
    destruct (ok e); [|done]. split; [by eapply evolves_insert|]. rewrite (insert_agents _ _ _ E). apply cursors_refl.
  - split; [apply trim_evolves|]. rewrite trim_agents. apply cursors_refl.
  - destruct (_ && _); (split; [by apply evolves_agents|]); [by apply upsert_cursors|apply cursors_refl].
Qed.

Definition ok_cursor (s : shared) (c : string) : Prop := (c = "" \/ c ∈ inserted s) /\ covered s c.

Lemma ok_cursor_evolves s s' c : evolves s s' -> ok_cursor s c -> ok_cursor s' c.
Proof.
  intros He [[->|Hc] Hcov]; (split; [|]); [by left|by intros ?|right; by apply (ev_inserted _ _ He)|by eapply covered_evolves].
Qed.

Lemma ok_cursor_empty s : ok_cursor s "".
Proof. split; [by left|by intros ?]. Qed.

(** What a poll of the session holds. *)
Definition reader_ok (s : shared) (th : thread) : Prop :=
  match th with
  | TReceive meta _ pc => s_ID meta = sid -> W ⊆ WorkspaceIDs meta /\
      match pc with RQuery (Some a) => ok_cursor s (a_Cursor a) | RCursor _ c => ok_cursor s c | _ => True end
  | TWait _ _ c pc => (wait_session c = Some sid -> Consume c = false) /\ match pc with WCursor _ => Consume c = true | _ => True end
  | _ => True
  end.

Lemma reader_ok_evolves s s' th : evolves s s' -> reader_ok s th -> reader_ok s' th.
Proof.
  intros He H. destruct th; try done. cbn in *. intros Hid. destruct (H Hid) as [HW Hpc]. split; [done|].
  destruct pc as [| | |[a|]|]; try done; by eapply ok_cursor_evolves.
Qed.

Definition inbox_ok (s : shared) : Prop :=
  (forall m, m ∈ messages s -> ID m ∈ inserted s) /\ forall a, mesh_agents s !! sid = Some a -> ok_cursor s (a_Cursor a).

Lemma inbox_evolves s s' : evolves s s' -> cursors_kept (mesh_agents s) (mesh_agents s') -> inbox_ok s -> inbox_ok s'.
Proof.
  intros He Hc [H1 H2]. split.
  - intros m' Hm. destruct (ev_messages _ _ He m' Hm) as [(m & Hin & E & _)|[Hin _]]; [|done]. rewrite E. by apply (ev_inserted _ _ He), H1.
  - intros a' Ha. destruct (Hc a' Ha) as [->|(a & Ha' & ->)]; [apply ok_cursor_empty|]. eapply ok_cursor_evolves; [done|]. by apply H2.
Qed.

Lemma receive_step_ok e meta req pc s : inbox_ok s -> reader_ok s (TReceive meta req pc) ->
  evolves s (receive_step e meta req pc s).2 /\ inbox_ok (receive_step e meta req pc s).2 /\
  match (receive_step e meta req pc s).1 with Some pc' => reader_ok (receive_step e meta req pc s).2 (TReceive meta req pc') | None => True end.
Proof.
  intros Hin Hr. destruct pc; cbn [receive_step].
  - pose proof (ensure_evolves e meta (v_Name req) (v_Role req) pc s) as H1. pose proof (ensure_cursors e meta (v_Name req) (v_Role req) pc s) as H2.
    destruct (ensure_step e meta (v_Name req) (v_Role req) pc s) as [pc' s']. cbn [fst snd] in *. split_and!; [done|by eapply inbox_evolves|].
    cbn. intros Hid. destruct (Hr Hid) as [HW _]. by destruct pc'.
  - cbn [fst snd]. assert (evolves s (if ok e then set_agents (TouchMeshAgent (s_ID meta) (now e) (mesh_agents s)) s else s)) as He
      by (destruct (ok e); [by apply evolves_agents|apply evolves_refl]).
    split_and!; [done| |cbn; intros Hid; by destruct (Hr Hid)]. eapply inbox_evolves; [done| |done].
    destruct (ok e); [apply touch_cursors|apply cursors_refl].
  - cbn [fst snd]. split_and!; [apply evolves_refl|done|]. cbn. intros Hid. destruct (Hr Hid) as [HW _]. split; [done|].
    destruct (ok e); [|done]. rewrite Hid. destruct (mesh_agents s !! sid) eqn:E; [|done]. by apply Hin.
  - destruct (if ok e then receive_query meta req agent (now e) (messages s) else None) as [msgs|] eqn:E; cbn [fst snd];
      [|split_and!; [apply evolves_refl|done|done]].
    assert (evolves s (add_delivered (s_ID meta) msgs s)) as He by (apply evolves_agents; cbn; [done|done|set_solver]).
    assert (inbox_ok (add_delivered (s_ID meta) msgs s)) as Hi by (eapply inbox_evolves; [done|apply cursors_refl|done]).
    split_and!; [done|done|]. destruct (next_cursor req msgs) as [c|] eqn:Ec; cbn; [|done]. intros Hid. destruct (Hr Hid) as [HW Ha]. split; [done|].
    destruct (ok e); [|done].
    destruct (poll_covers meta req agent (now e) s msgs c Hid HW) as [Hcov (m & Hm & <-)]; [destruct agent; [by destruct Ha|done]|done|done|].
    rewrite Hid. split; [|done]. right. cbn. by apply Hin.
  - cbn [fst snd]. assert (evolves s (if ok e then set_agents (UpdateAgentCursor (s_ID meta) c (mesh_agents s)) s else s)) as He
      by (destruct (ok e); [by apply evolves_agents|apply evolves_refl]).
    split_and!; [done| |done]. destruct (ok e); [|done]. split; cbn.
    + intros m Hm. by apply Hin.
    + intros a' Ha. eapply ok_cursor_evolves; [done|]. unfold UpdateAgentCursor in Ha. destruct (decide (s_ID meta = sid)) as [Hid|Hn].
      * rewrite Hid, lookup_alter_eq in Ha. apply fmap_Some in Ha as (a & Ha & ->). cbn. by destruct (Hr Hid).
      * rewrite lookup_alter_ne in Ha by done. by apply Hin.
Qed.

(** A wait that does not consume, or is somebody else's, moves no cursor of the session. *)
Lemma wait_step_ok e meta name c pc s : inbox_ok s -> reader_ok s (TWait meta name c pc) ->
  evolves s (wait_step e meta name c pc s).2 /\ inbox_ok (wait_step e meta name c pc s).2 /\
  match (wait_step e meta name c pc s).1 with Some pc' => reader_ok (wait_step e meta name c pc s).2 (TWait meta name c pc') | None => True end.
Proof.
  intros Hin [Hown Hpc].
  assert (forall s', evolves s s' -> cursors_kept (mesh_agents s) (mesh_agents s') -> evolves s s' /\ inbox_ok s') as Hmove
    by (intros s' He Hc; split; [done|by eapply inbox_evolves]).
  assert (evolves s s /\ inbox_ok s) as [He Hi] by (split; [apply evolves_refl|done]).
  destruct pc; cbn [wait_step].
  - pose proof (ensure_evolves e meta name (w_Role c) pc s) as H1. pose proof (ensure_cursors e meta name (w_Role c) pc s) as H2.
    destruct (ensure_step e meta name (w_Role c) pc s) as [pc' s']. destruct (Hmove s' H1 H2). cbn [fst snd].
    split_and!; [done|done|]. destruct pc'; [by split|]. by destruct (ok e).
  - cbn [fst snd]. destruct (Hmove (if ok e then set_agents (TouchMeshAgent (s_ID meta) (now e) (mesh_agents s)) s else s)) as [? ?].
    + destruct (ok e); [by apply evolves_agents|apply evolves_refl].
    + destruct (ok e); [apply touch_cursors|apply cursors_refl].
    + by split_and!.
  - cbn [fst snd]. split_and!; [done|done|]. destruct (if ok e then _ else _) as [a|]; [|done]. by case_bool_decide.
  - by split_and!.
  - destruct (ok e); [|by split_and!]. destruct (scanWaiting _ _ _ _ _) as [|m ms]; [by split_and!|]. cbn [fst snd].
    destruct (Hmove (add_delivered (default "" (wait_session c)) (m :: ms) s)) as [? ?]; [apply evolves_agents; [done|done|cbn; set_solver]|apply cursors_refl|].
    split_and!; [done|done|]. by destruct (Consume c) eqn:Ec; [split; rewrite Ec|].
  - by split_and!.
  - cbn [fst snd]. destruct (Hmove (if ok e then set_agents (UpdateAgentCursor (default "" (wait_session c)) c0 (mesh_agents s)) s else s)) as [? ?];
      [destruct (ok e); [by apply evolves_agents|apply evolves_refl]| |by split_and!].
    destruct (ok e); [|apply cursors_refl]. intros a'. cbn. unfold UpdateAgentCursor. destruct (decide (default "" (wait_session c) = sid)) as [Es|Hn].
    + destruct (wait_session c) as [x|] eqn:Ew; [|done]. cbn in Es. subst x. rewrite Hown in Hpc by done. done.
    + rewrite lookup_alter_ne by done. intros Ha. right. by exists a'.
Qed.

Record inbox_inv (s : state) : Prop := {
  in_ok : inbox_ok (mem s);
  in_readers : forall n th, threads s !! n = Some th -> reader_ok (mem s) th }.

(** Every poll of the session reads these workspaces. *)
Definition reads_enough (l : label) : bool :=
  match l with Receive meta _ => negb (bool_decide (s_ID meta = sid)) || forallb (fun w => bool_decide (w ∈ WorkspaceIDs meta)) W | _ => true end.

(** No wait of the session is to consume what it finds. *)
Definition spares (l : label) : bool :=
  match l with
  | WaitForEvent meta _ c => negb (bool_decide (TrimSpace (s_ID meta) = sid) && Consume c)
  | WaitByName c => negb (bool_decide (wait_session c = Some sid) && Consume c)
  | _ => true
  end.

Lemma thread_step_inbox e th s th' s' : inbox_ok s -> reader_ok s th -> thread_step e th s = Some (th', s') -> ordered_step s s' = true ->
  evolves s s' /\ inbox_ok s' /\ reader_ok s' th'.
Proof.
  intros Hin Hr Hs Ho. destruct th; cbn [thread_step] in Hs; try done.
  - destruct (send_step e meta req pc s) as [pc' s1] eqn:E. injection Hs as <- <-.
    pose proof (send_step_evolves e meta req pc s) as H. rewrite E in H. destruct (H Ho) as [H1 H2]. split_and!; [done|by eapply inbox_evolves|by destruct pc'].
  - destruct (ingest_step e name pc s) as [pc' s1] eqn:E. injection Hs as <- <-.
    pose proof (ingest_step_evolves e name pc s) as H. rewrite E in H. destruct (H Ho) as [H1 H2]. split_and!; [done|by eapply inbox_evolves|by destruct pc'].
  - destruct (receive_step e meta req pc s) as [pc' s1] eqn:E. injection Hs as <- <-.
    pose proof (receive_step_ok e meta req pc s Hin Hr) as (H1 & H2 & H3). rewrite E in H1, H2, H3. cbn [fst snd] in *. split_and!; [done|done|by destruct pc'].
  - destruct (ensure_step e meta "" "" pc s) as [pc' s1] eqn:E. injection Hs as <- <-.
    pose proof (ensure_evolves e meta "" "" pc s) as H1. pose proof (ensure_cursors e meta "" "" pc s) as H2. rewrite E in H1, H2.
    split_and!; [done|by eapply inbox_evolves|by destruct pc'].
  - destruct (wait_step e meta name c pc s) as [pc' s1] eqn:E. injection Hs as <- <-.
    pose proof (wait_step_ok e meta name c pc s Hin Hr) as (H1 & H2 & H3). rewrite E in H1, H2, H3. split_and!; [done|done|by destruct pc'].
Qed.

Lemma swept_inbox l s s' : swept l s = Some s' -> evolves s s' /\ cursors_kept (mesh_agents s) (mesh_agents s').
Proof.
  destruct l; cbn [swept]; try done; intros [= <-].
  - split; [apply evolves_update, archived_mail|apply cursors_refl].
  - split; [apply evolves_update, archived_mail|apply cursors_refl].
  - split; [apply evolves_filter|apply cursors_refl].
  - split; [by apply evolves_agents|]. intros a'. cbn. destruct (decide (sid0 = sid)) as [->|Hn]; [by rewrite lookup_delete_eq|].
    rewrite lookup_delete_ne by done. intros Ha. right. by exists a'.
Qed.

Lemma step_inbox s l s' : inbox_inv s -> reads_enough l = true -> spares l = true -> step s l = Some s' -> ordered_step (mem s) (mem s') = true -> inbox_inv s'.
Proof.
  intros [Hin Hr] Hl Hsp0 Hs Ho.
  assert (forall th, spawned l = Some th -> reader_ok (mem s) th) as Hsp.
  { intros th Hth. destruct l; cbn in Hth; try done; [by injection Hth as <-| |injection Hth as <-|by injection Hth as <-| |].
    - destruct (ingested _ _ _ _); [|done]. by injection Hth as <-.
    - intros Hid. split; [|done]. cbn in Hl. rewrite bool_decide_true in Hl by done. cbn in Hl. rewrite forallb_forall in Hl.
      intros w Hw. apply list_elem_of_In in Hw. by apply Hl, bool_decide_eq_true in Hw.
    - destruct (bool_decide _); [done|]. injection Hth as <-. split; [|done]. unfold wait_session. cbn. case_bool_decide; [done|]. intros [= E].
      cbn in Hsp0. rewrite bool_decide_true in Hsp0 by done. by destruct (Consume c).
    - injection Hth as <-. split; [|done]. intros E. cbn in Hsp0. rewrite bool_decide_true in Hsp0 by done. by destruct (Consume c). }
  assert (forall th, spawned l = Some th -> inbox_inv {| mem := mem s; threads := threads s ++ [th] |}) as Hspawn.
  { intros th Hth. constructor; cbn; [done|]. intros n x [Hn|[_ Hn]]%lookup_app_Some; [by eapply Hr|].
    apply list_lookup_singleton_Some in Hn as [_ <-]. by apply Hsp. }
  assert (forall m, swept l (mem s) = Some m -> inbox_inv {| mem := m; threads := threads s |}) as Hsw.
  { intros m [H1 H2]%swept_inbox. constructor; cbn; [by eapply inbox_evolves|]. intros n th Hn. eapply reader_ok_evolves; [done|by eapply Hr]. }
  destruct l as [| | | | | |n e| | | |]; cbn [step] in Hs;
    try (destruct (spawned _) as [th|] eqn:E; [|done]; injection Hs as <-; by apply Hspawn);
    try (destruct (swept _ (mem s)) as [m|] eqn:E; [|done]; injection Hs as <-; by apply Hsw).
  destruct (threads s !! n) as [th|] eqn:En; [|done]. cbn [mbind option_bind] in Hs.
  destruct (thread_step e th (mem s)) as [[th' m]|] eqn:Et; [|done]. injection Hs as <-. cbn in Ho.
  destruct (thread_step_inbox e th (mem s) th' m Hin (Hr n th En) Et Ho) as (He & Hi & Hth). constructor; cbn; [done|].
  intros k x [(-> & -> & _)|[_ Hk]]%list_lookup_insert_Some; [done|]. eapply reader_ok_evolves; [done|by eapply Hr].
Qed.

Fixpoint in_order (s : state) (ls : list label) : bool :=
  match ls with [] => true | l :: ls => match step s l with Some s' => ordered_step (mem s) (mem s') && in_order s' ls | None => true end end.

Lemma run_inbox s ls s' : inbox_inv s -> forallb reads_enough ls = true -> forallb spares ls = true -> in_order s ls = true -> run s ls = Some s' -> inbox_inv s'.
Proof.
  revert s. induction ls as [|l ls IH]; intros s I Hl Hc Ho; cbn [run]; [by intros [= <-]|]. apply andb_true_iff in Hl as [Hl Hls]. apply andb_true_iff in Hc as [Hc Hcs].
  cbn [in_order] in Ho. destruct (step s l) as [s1|] eqn:E; [|done]. apply andb_true_iff in Ho as [Ho1 Ho2]. apply IH; [by eapply step_inbox|done..].
Qed.
End Reader.

(** C11: While rows reach the store in the order of their ids and no wait of the session
    consumes what it finds, no mail is skipped, over any interleaving of sends, peers'
    messages, polls of any filter, waits, sweeps and failing store calls: every live
    message whose id is at or below the session's cursor has been delivered to it, if it
    is addressed to everybody or to the session by name, comes from somebody else, is no
    task event, and stands in a workspace all its polls read. *)
Theorem nothing_skipped sid W ls s a m :
  sid <> "" -> forallb (reads_enough sid W) ls = true -> forallb (spares sid) ls = true -> in_order empty_mesh ls = true -> run empty_mesh ls = Some s ->
  mesh_agents (mem s) !! sid = Some a -> a_Cursor a <> "" -> m ∈ messages (mem s) -> mail sid W m -> String.ltb (a_Cursor a) (ID m) = false ->
  (sid, ID m) ∈ delivered (mem s).
Proof.
  intros Hsid Hl Hc Ho Hr Ha Hne Hm Hmail Hle.
  destruct (run_inbox sid W Hsid empty_mesh ls s) as [[_ Hcur] _]; [by constructor; [split; [intros ? ?%elem_of_nil|]|]|done..|].
  by apply (Hcur a Ha).
Qed.

(** ** Polls drain the inbox *)

(** What a poll that reads the agent's row does, alone. *)
Definition poll (meta : SessionMeta) (req : ReceiveRequest) (now : Z) (t : list MeshMessage) (a : MeshAgent) : list MeshMessage * MeshAgent :=
  match receive_query meta req (Some a) now t with
  | Some msgs => (msgs, match next_cursor req msgs with Some c => with_cursor c a | None => a end)
  | None => ([], a)
  end.

Fixpoint polls (k : nat) (meta : SessionMeta) (req : ReceiveRequest) (now : Z) (t : list MeshMessage) (a : MeshAgent) : list (list MeshMessage) * MeshAgent :=
  match k with
  | O => ([], a)
  | S k => let '(b, a) := poll meta req now t a in let '(bs, a) := polls k meta req now t a in (b :: bs, a)
  end.

(** What is new for the session, oldest first. *)
Definition pending (meta : SessionMeta) (req : ReceiveRequest) (t : list MeshMessage) (a : MeshAgent) : list MeshMessage :=
  SliceStable older (List.filter (selects (receive_filter meta req (a_Cursor a) None (s_ID meta) "" (a_Role a) true cursorScanLimit)) t).

Lemma id_inj l x y : NoDup (map ID l) -> x ∈ l -> y ∈ l -> ID x = ID y -> x = y.
Proof.
  induction l as [|z l IH]; [by intros _ ?%elem_of_nil|]. cbn. intros [Hz Hnd]%NoDup_cons Hx Hy E.
  apply elem_of_cons in Hx as [->|Hx], Hy as [->|Hy]; [done| | |by apply IH].
  - destruct Hz. rewrite E. by apply list_elem_of_fmap_2.
  - destruct Hz. rewrite <- E. by apply list_elem_of_fmap_2.
Qed.

Lemma older_unique l l' : NoDup (map ID l) -> StronglySorted (not_after older) l -> StronglySorted (not_after older) l' -> l ≡ₚ l' -> l = l'.
Proof.
  intros Hnd S S' P. eapply (StronglySorted_unique_strong (not_after older)); [|done..].
  intros x y Hx Hy H1 H2. unfold not_after, older in *. rewrite <- P in Hy. eapply id_inj; [done..|]. by apply string_ltb_total.
Qed.

Section Drain.
Context (meta : SessionMeta) (req : ReceiveRequest) (now : Z) (t : list MeshMessage).
Context (Hnew : or_else (Filter req) "new" = "new") (Hwide : receiveIsNarrowed req = false) (Hids : NoDup (map ID t)).

Notation inbox c role := (receive_filter meta req c None (s_ID meta) "" role true cursorScanLimit).
Notation per_poll := (Z.to_nat (NormalizeReceiveMaxResults (MaxResults req))).

Lemma per_poll_bounds : (1 <= per_poll <= 50)%nat.
Proof. unfold NormalizeReceiveMaxResults. tests; lia. Qed.

Lemma inbox_pending_sorted a : StronglySorted (not_after older) (pending meta req t a).
Proof. apply older_sorted. Qed.

Lemma pending_ids a : NoDup (map ID (pending meta req t a)).
Proof.
  unfold pending. rewrite (SliceStable_perm older). induction t as [|m l IH]; cbn [List.filter map]; [constructor|].
  apply NoDup_cons in Hids as [Hm Hnd]. destruct (selects _ m); [|by apply IH]. constructor; [|by apply IH].
  intros Hin. apply Hm. apply list_elem_of_fmap in Hin as (x & E & Hx). rewrite E. apply list_elem_of_fmap_2.
  apply list_elem_of_In, List.filter_In in Hx as [Hx _]. by apply list_elem_of_In.
Qed.

(** One poll takes the oldest. *)
Lemma poll_batch a : exists b, poll meta req now t a = (b, if decide (b = []) then a else with_cursor (latest b) a) /\
  SliceStable older b = take per_poll (pending meta req t a) /\ b ≡ₚ take per_poll (pending meta req t a).
Proof.
  unfold poll, receive_query. rewrite bool_decide_true by done. unfold QueryMeshMessages.
  change (OrderOldest (inbox (a_Cursor a) (a_Role a))) with true. cbn iota. change (Limit (inbox (a_Cursor a) (a_Role a))) with cursorScanLimit.
  fold (pending meta req t a). set (b := selectOldestBatch _ _). exists b. pose proof per_poll_bounds as Hn.
  assert (b ≡ₚ take per_poll (pending meta req t a)) as P.
  { unfold b, selectOldestBatch. destruct (NormalizeReceiveMaxResults (MaxResults req) <=? 0) eqn:E; [apply Z.leb_le in E; lia|].
    rewrite (SliceStable_perm urgent_first).
    match goal with |- context [take ?k (pending meta req t a)] => set (lim := k) end.
    destruct (StronglySorted_parts _ _ lim (inbox_pending_sorted a)) as (S & _ & _). rewrite (SliceStable_id _ _ S), take_take.
    by replace (Nat.min per_poll lim) with per_poll by (unfold lim, cursorScanLimit, maxLiveMessages; cbn; lia). }
  split_and!; [|apply older_unique; [|apply older_sorted|apply (StronglySorted_parts _ _ per_poll (inbox_pending_sorted a))|by rewrite (SliceStable_perm older)]|done].
  - unfold next_cursor. rewrite (bool_decide_true (or_else _ _ = _)) by done. rewrite Hwide. destruct (decide (b = [])) as [E|E].
    + by rewrite bool_decide_true.
    + by rewrite bool_decide_false.
  - rewrite (SliceStable_perm older), P, <- List.firstn_map. pose proof (pending_ids a) as Hnd.
    rewrite <- (take_drop per_poll (map ID _)) in Hnd. by apply NoDup_app in Hnd as [Hnd _].
Qed.

Lemma selects_since c c' role m : (c = "" \/ String.ltb c c' = true) -> c' <> "" ->
  selects (inbox c' role) m = selects (inbox c role) m && String.ltb c' (ID m).
Proof.
  intros Hc Hne. unfold selects. set (k := resolveKindFilters req). unfold receive_filter. fold k.
  cbn [q_WorkspaceIDs SinceID SinceTime StatusLive ExcludeSessionID q_ThreadRoot Kinds ExcludeKinds ActorKinds ExcludeActorKinds q_Tags q_Repo q_Branch
    q_WorkspacePath q_Audience AgentRole]. rewrite (bool_decide_false (c' = "")) by done.
  destruct (String.ltb c' (ID m)) eqn:E; [|by rewrite !andb_false_r].
  replace (bool_decide (c = "") || String.ltb c (ID m)) with true; [by rewrite !andb_true_r|].
  destruct Hc as [->|Hc]; [done|]. by rewrite (string_ltb_trans _ _ _ Hc E), orb_true_r.
Qed.

(** What is new afterwards is the rest. *)
Lemma poll_rest a b : b <> [] -> b ≡ₚ take per_poll (pending meta req t a) -> (forall m, m ∈ t -> ID m <> "") ->
  pending meta req t (with_cursor (latest b) a) = drop per_poll (pending meta req t a).
Proof.
  intros Hb P Hnamed. set (p := pending meta req t a) in *. destruct (latest_in b Hb) as (x & Hx & Ex).
  assert (x ∈ take per_poll p) as Hxp by (by rewrite <- P).
  assert (forall m, m ∈ p -> m ∈ t /\ selects (inbox (a_Cursor a) (a_Role a)) m = true) as Hsel.
  { intros m Hm. unfold p, pending in Hm. rewrite (SliceStable_perm older) in Hm. apply list_elem_of_In, List.filter_In in Hm as [Hm Hs].
    split; [by apply list_elem_of_In|done]. }
  assert (x ∈ p) as Hxin by (rewrite <- (take_drop per_poll p); apply elem_of_app; by left).
  assert (latest b <> "") as Hne by (rewrite <- Ex; apply Hnamed; by apply Hsel).
  assert (a_Cursor a = "" \/ String.ltb (a_Cursor a) (latest b) = true) as Hc.
  { rewrite <- Ex. destruct (Hsel x Hxin) as [_ Hs]. unfold selects in Hs. bool_hyps.
    match goal with H : bool_decide (SinceID _ = "") || _ = true |- _ => apply orb_true_iff in H as [H|H]; [left; by apply bool_decide_eq_true in H|by right] end. }
  pose proof (inbox_pending_sorted a) as S. fold p in S. destruct (StronglySorted_parts _ _ per_poll S) as (_ & S2 & S3).
  pose proof (pending_ids a) as Hnd. fold p in Hnd.
  symmetry. apply older_unique; [|done|apply older_sorted|].
  - rewrite <- List.skipn_map. rewrite <- (take_drop per_poll (map ID p)) in Hnd. by apply NoDup_app in Hnd as (_ & _ & Hnd).
  - unfold pending. rewrite (SliceStable_perm older). cbn [a_Cursor a_Role with_cursor].
    rewrite (List.filter_ext _ (fun m => selects (inbox (a_Cursor a) (a_Role a)) m && String.ltb (latest b) (ID m)))
      by (intros m; by apply selects_since).
    rewrite <- filter_filter. rewrite (filter_perm _ (List.filter (selects (inbox (a_Cursor a) (a_Role a))) t) p) by (symmetry; apply SliceStable_perm).
    rewrite <- (take_drop per_poll p) at 2.
    rewrite List.filter_app. rewrite (filter_none _ (take per_poll p)), (filter_all _ (drop per_poll p)); [done| |].
    + intros m Hm. destruct (String.ltb (latest b) (ID m)) eqn:E; [done|]. pose proof (S3 x m Hxp Hm) as Hlt. unfold not_after, older in Hlt.
      rewrite <- Ex in E. pose proof (string_ltb_total _ _ E Hlt) as Eid. exfalso.
      rewrite <- (take_drop per_poll p), List.map_app in Hnd. apply NoDup_app in Hnd as (_ & Hd & _).
      apply (Hd (ID x)); [by apply list_elem_of_fmap_2|rewrite Eid; by apply list_elem_of_fmap_2].
    + intros m Hm. rewrite <- P in Hm. by apply latest_max.
Qed.
End Drain.

(** C12: with nothing else going on, polls that are not narrowed hand out everything new for
    a session, oldest first, each message once: the first [k] polls deliver, batch by batch,
    the first messages of the backlog, at most fifty a poll, and leave the rest pending. *)
Theorem polls_drain meta req now t k a :
  or_else (Filter req) "new" = "new" -> receiveIsNarrowed req = false -> NoDup (map ID t) -> (forall m, m ∈ t -> ID m <> "") ->
  let n := Z.to_nat (NormalizeReceiveMaxResults (MaxResults req)) in
  let '(bs, a') := polls k meta req now t a in
  concat (map (SliceStable older) bs) = take (k * n) (pending meta req t a) /\
  pending meta req t a' = drop (k * n) (pending meta req t a) /\ Forall (fun b => length b <= 50)%nat bs /\ (1 <= n)%nat.
Proof.
  intros Hnew Hwide Hids Hnamed n. pose proof (per_poll_bounds req) as Hn. fold n in Hn. revert a.
  induction k as [|k IH]; intros a; cbn [polls]; [split_and!; [done|by rewrite drop_0|constructor|lia]|].
  destruct (poll_batch meta req now t Hnew Hwide Hids a) as (b & -> & Hsort & P). fold n in Hsort, P.
  assert (length b <= 50)%nat as Hlen by (rewrite P, length_take; lia).
  specialize (IH (if decide (b = []) then a else with_cursor (latest b) a)).
  destruct (polls k meta req now t _) as [bs a'] eqn:E. destruct IH as (H1 & H2 & H3 & _).
  assert (pending meta req t (if decide (b = []) then a else with_cursor (latest b) a) = drop n (pending meta req t a)) as Hrest.
  { destruct (decide (b = [])) as [->|Hb]; [|by apply poll_rest]. apply Permutation_nil_l in P. destruct (pending meta req t a) as [|x l]; [by rewrite drop_nil|].
    destruct n; [lia|done]. }
  rewrite Hrest in H1, H2. cbn [map concat]. rewrite Hsort, H1, H2, !drop_drop. split_and!; [|f_equal; lia|by constructor|lia].
  replace (S k * n)%nat with (n + k * n)%nat by lia. apply take_take_drop.
Qed.

(** ** The ceiling *)

(** What a thread may still have to archive. *)
Definition surplus (ws : string) (th : thread) : Z :=
  match th with
  | TSend _ _ (SCount w) => if bool_decide (w = ws) then 1 else 0
  | TSend _ _ (SArchive w n) => if bool_decide (w = ws) then n else 0
  | TIngest _ (ICount m) => if bool_decide (WorkspaceID m = ws) then 1 else 0
  | TIngest _ (IArchive m n) => if bool_decide (WorkspaceID m = ws) then n else 0
  | _ => 0
  end.

Definition total (f : thread -> Z) (l : list thread) : Z := foldr Z.add 0 (map f l).

Lemma total_insert f l n x y : l !! n = Some x -> total f (<[n := y]> l) = total f l - f x + f y.
Proof.
  unfold total. revert n. induction l as [|z l IH]; intros [|n]; try done; [intros [= ->]; cbn; lia|].
  change (<[S n:=y]> (z :: l)) with (z :: <[n:=y]> l). intros H. cbn [map foldr]. rewrite (IH n H). lia.
Qed.

Lemma total_app f l x : total f (l ++ [x]) = total f l + f x.
Proof. unfold total. induction l as [|z l IH]; cbn in *; [lia|]. rewrite IH. lia. Qed.

Lemma total_nonneg f l : Forall (fun x => 0 <= f x) l -> 0 <= total f l.
Proof. unfold total. induction 1; cbn; lia. Qed.

Lemma count_update ws p f t : (forall m, in_workspace ws (f m) = true -> in_workspace ws m = true) ->
  CountLiveMessages ws (update_where p f t) <= CountLiveMessages ws t.
Proof.
  intros H. unfold CountLiveMessages, update_where. fold (tally (in_workspace ws) (map (fun m => if p m then f m else m) t)). rewrite tally_map.
  apply inj_le, tally_le. intros m. destruct (p m); [apply H|done].
Qed.

Lemma archived_out ws m : in_workspace ws (with_status "archived" m) = false.
Proof. unfold in_workspace, live. cbn. by rewrite andb_false_r. Qed.

Lemma count_archive ws p t : CountLiveMessages ws (update_where p (with_status "archived") t) <= CountLiveMessages ws t.
Proof. apply count_update. intros m. by rewrite archived_out. Qed.

Lemma count_thread ws p f t : (forall m, in_workspace ws (f m) = in_workspace ws m) -> CountLiveMessages ws (update_where p f t) <= CountLiveMessages ws t.
Proof. intros H. apply count_update. intros m. by rewrite H. Qed.

Lemma count_filter ws p t : CountLiveMessages ws (List.filter p t) <= CountLiveMessages ws t.
Proof. unfold CountLiveMessages. rewrite filter_filter. apply inj_le, tally_le. intros m Hm. by bool_hyps. Qed.

(** Archiving takes what is asked for, or everything. *)
Lemma count_trimmed ws n t : 0 <= n -> CountLiveMessages ws (ArchiveLowestPriority ws n t) <= Z.max 0 (CountLiveMessages ws t - n).
Proof.
  intros Hn. unfold CountLiveMessages, ArchiveLowestPriority. set (L := List.filter (in_workspace ws) t). set (S := SliceStable archive_first L).
  set (gone := map ID (take (Z.to_nat n) S)). unfold update_where.
  change (length (List.filter (in_workspace ws) (map (fun m => if bool_decide (ID m ∈ gone) then with_status "archived" m else m) t)))
    with (tally (in_workspace ws) (map (fun m => if bool_decide (ID m ∈ gone) then with_status "archived" m else m) t)).
  rewrite tally_map.
  assert (tally (fun m => in_workspace ws (if bool_decide (ID m ∈ gone) then with_status "archived" m else m)) t =
          tally (fun m => negb (bool_decide (ID m ∈ gone))) L) as ->.
  { unfold L. rewrite tally_filter. unfold tally. f_equal. apply List.filter_ext. intros m. case_bool_decide; cbn; [by rewrite archived_out, andb_false_r|].
    by rewrite andb_true_r. }
  assert (tally (fun m => negb (bool_decide (ID m ∈ gone))) L = tally (fun m => negb (bool_decide (ID m ∈ gone))) S) as ->.
  { unfold tally. apply Permutation_length, filter_perm. symmetry. apply SliceStable_perm. }
  assert (length S = length L) as HS by apply Permutation_length, SliceStable_perm.
  rewrite <- (take_drop (Z.to_nat n) S), tally_app.
  assert (tally (fun m => negb (bool_decide (ID m ∈ gone))) (take (Z.to_nat n) S) = 0)%nat as ->.
  { unfold tally. rewrite filter_none; [done|]. intros m Hm. rewrite bool_decide_true; [done|]. by apply list_elem_of_fmap_2. }
  assert (tally (fun m => negb (bool_decide (ID m ∈ gone))) (drop (Z.to_nat n) S) <= length (drop (Z.to_nat n) S))%nat as Hd
    by apply List.filter_length_le.
  rewrite length_drop in Hd. lia.
Qed.

Lemma count_trim_other ws ws' n t : CountLiveMessages ws (ArchiveLowestPriority ws' n t) <= CountLiveMessages ws t.
Proof. apply count_archive. Qed.

Lemma count_insert ws m s s' : insert_message m s = Some s' ->
  CountLiveMessages ws (messages s') <= CountLiveMessages ws (messages s) + (if bool_decide (WorkspaceID m = ws) then 1 else 0).
Proof.
  unfold insert_message, InsertMeshMessage. destruct (bool_decide _); [done|]. intros [= <-]. cbn. unfold CountLiveMessages. rewrite List.filter_app, length_app.
  cbn. unfold in_workspace. case_bool_decide; cbn; [destruct (live m); cbn; lia|lia].
Qed.

Definition bounded (ws : string) (s : state) : Prop :=
  CountLiveMessages ws (messages (mem s)) <= maxLiveMessages + total (surplus ws) (threads s) /\ Forall (fun th => 0 <= surplus ws th) (threads s).

Definition answered (l : label) : bool := match l with Step _ e => ok e | _ => true end.

(** A step adds no more live messages than surplus. *)
Definition step_bound ws (s s' : shared) (th th' : thread) : Prop :=
  0 <= surplus ws th' /\
  (CountLiveMessages ws (messages s') - surplus ws th' <= CountLiveMessages ws (messages s) - surplus ws th \/
   CountLiveMessages ws (messages s') <= maxLiveMessages + surplus ws th').

Lemma ensure_messages e meta name role pc s : messages (ensure_step e meta name role pc s).2 = messages s.
Proof. destruct pc; cbn; try done. by destruct (ok e). Qed.

Lemma trim_bound ws w n e s : ok e = true -> 0 <= (if bool_decide (w = ws) then n else 0) ->
  CountLiveMessages ws (messages (trim_workspace w n e s)) <= CountLiveMessages ws (messages s) - (if bool_decide (w = ws) then n else 0) \/
  CountLiveMessages ws (messages (trim_workspace w n e s)) <= maxLiveMessages.
Proof.
  intros Hok Hn. unfold trim_workspace. rewrite Hok. cbn. case_bool_decide as E.
  - subst w. pose proof (count_trimmed ws n (messages s) Hn). unfold maxLiveMessages. lia.
  - left. pose proof (count_trim_other ws w n (messages s)). lia.
Qed.

Lemma ceiling_bound ws w e s : ok e = true ->
  match ceiling w e s with Some n => 0 <= n /\ (w = ws -> CountLiveMessages ws (messages s) = maxLiveMessages + n)
                      | None => w = ws -> CountLiveMessages ws (messages s) <= maxLiveMessages end.
Proof. intros Hok. unfold ceiling. rewrite Hok. cbn [andb]. tests; [split; [lia|intros ->; lia]|intros ->; lia]. Qed.

Lemma send_bound ws e meta req pc s : ok e = true -> 0 <= surplus ws (TSend meta req pc) ->
  step_bound ws s (send_step e meta req pc s).2 (TSend meta req pc) (match (send_step e meta req pc s).1 with Some pc => TSend meta req pc | None => TDone end).
Proof.
  intros Hok H0. unfold step_bound.
  destruct pc; cbn [send_step fst snd]; rewrite ?Hok; cbn [andb].
  - destruct (draft meta req (now e)); [case_bool_decide|]; cbn [surplus]; lia.
  - destruct (GetMeshMessage _ _); [destruct (_ && _)|]; cbn [surplus]; lia.
  - cbn [surplus messages set_messages]. split; [lia|left]. pose proof (count_thread ws (has_id (ID parent)) (fun m => with_thread (ReplyCount m + 1) (ExpiresAt m) m) (messages s)) as H.
    unfold IncrementReplyCount. specialize (H ltac:(done)). lia.
  - cbn [surplus messages set_messages]. split; [lia|left].
    pose proof (count_thread ws (fun m => has_id (ID parent) m && (ExpiresAt m <? formatTime (extended_expiry parent)))
      (fun m => with_thread (ReplyCount m) (formatTime (extended_expiry parent)) m) (messages s)) as H.
    unfold ExtendMessageExpiry. specialize (H ltac:(done)). lia.
  - destruct (insert_message m s) as [s1|] eqn:E; cbn [fst snd surplus]; [|lia]. pose proof (count_insert ws m s s1 E). tests; lia.
  - pose proof (ceiling_bound ws ws0 e s Hok) as H. cbn [surplus] in *. destruct (ceiling ws0 e s) as [n|]; cbn [surplus].
    + destruct H as [Hn H]. case_bool_decide as E; [specialize (H E); lia|lia].
    + case_bool_decide as E; [specialize (H E); lia|lia].
  - cbn [surplus] in *. split; [lia|]. destruct (trim_bound ws ws0 excess e s Hok H0) as [H|H]; lia.
  - cbn [surplus]. lia.
  - pose proof (ensure_messages e meta "" "" pc s) as H. destruct (ensure_step e meta "" "" pc s) as [[pc'|] s']; cbn [fst snd fmap option_fmap option_map surplus] in *; rewrite H; lia.
Qed.

Lemma ingest_bound ws e name pc s : ok e = true -> 0 <= surplus ws (TIngest name pc) ->
  step_bound ws s (ingest_step e name pc s).2 (TIngest name pc) (match (ingest_step e name pc s).1 with Some pc => TIngest name pc | None => TDone end).
Proof.
  intros Hok H0. unfold step_bound. destruct pc; cbn [ingest_step fst snd]; rewrite ?Hok; cbn [andb].
  - destruct (insert_message m s) as [s1|] eqn:E; cbn [fst snd surplus]; [|lia]. pose proof (count_insert ws m s s1 E). tests; lia.
  - pose proof (ceiling_bound ws (WorkspaceID m) e s Hok) as H. cbn [surplus] in *. destruct (ceiling (WorkspaceID m) e s) as [n|]; cbn [surplus].
    + destruct H as [Hn H]. case_bool_decide as E; [specialize (H E); lia|lia].
    + case_bool_decide as E; [specialize (H E); lia|lia].
  - cbn [surplus] in *. split; [lia|]. destruct (trim_bound ws (WorkspaceID m) excess e s Hok H0) as [H|H]; lia.
  - cbn [surplus]. destruct (negb _); cbn; lia.
Qed.

Lemma receive_messages e meta req pc s : messages (receive_step e meta req pc s).2 = messages s.
Proof.
  destruct pc; cbn [receive_step].
  - pose proof (ensure_messages e meta (v_Name req) (v_Role req) pc s) as H. by destruct (ensure_step e meta (v_Name req) (v_Role req) pc s).
  - by destruct (ok e).
  - done.
  - by destruct (if ok e then _ else None).
  - by destruct (ok e).
Qed.

Lemma wait_messages e meta name c pc s : messages (wait_step e meta name c pc s).2 = messages s.
Proof.
  destruct pc; cbn [wait_step]; try done.
  - pose proof (ensure_messages e meta name (w_Role c) pc s) as H. by destruct (ensure_step e meta name (w_Role c) pc s).
  - by destruct (ok e).
  - destruct (ok e); [|done]. by destruct (scanWaiting _ _ _ _ _).
  - by destruct (ok e).
Qed.

Lemma thread_bound ws e th s th' s' : ok e = true -> 0 <= surplus ws th -> thread_step e th s = Some (th', s') -> step_bound ws s s' th th'.
Proof.
  intros Hok H0 Hs. destruct th; cbn [thread_step] in Hs; try done.
  - pose proof (send_bound ws e meta req pc s Hok H0) as H. destruct (send_step e meta req pc s) as [pc' s1]. by injection Hs as <- <-.
  - pose proof (ingest_bound ws e name pc s Hok H0) as H. destruct (ingest_step e name pc s) as [pc' s1]. by injection Hs as <- <-.
  - pose proof (receive_messages e meta req pc s) as H. destruct (receive_step e meta req pc s) as [pc' s1]. injection Hs as <- <-. cbn [snd] in H.
    unfold step_bound. rewrite H. destruct pc'; cbn [surplus]; lia.
  - pose proof (ensure_messages e meta "" "" pc s) as H. destruct (ensure_step e meta "" "" pc s) as [pc' s1]. injection Hs as <- <-. cbn [snd] in H.
    unfold step_bound. rewrite H. destruct pc'; cbn [surplus]; lia.
  - pose proof (wait_messages e meta name c pc s) as H. destruct (wait_step e meta name c pc s) as [pc' s1]. injection Hs as <- <-. cbn [snd] in H.
    unfold step_bound. rewrite H. destruct pc'; cbn [surplus]; lia.
Qed.

Lemma swept_bound ws l s s' : swept l s = Some s' -> CountLiveMessages ws (messages s') <= CountLiveMessages ws (messages s).
Proof. destruct l; cbn [swept]; try done; intros [= <-]; cbn; [apply count_archive|apply count_archive|apply count_filter|lia]. Qed.

Lemma inbox_step_bounded ws s l s' : bounded ws s -> answered l = true -> step s l = Some s' -> bounded ws s'.
Proof.
  intros [Hc Hn] Hl Hs.
  assert (forall th, spawned l = Some th -> surplus ws th = 0) as Hsp.
  { intros th Hth. destruct l; cbn in Hth; try done; try (by injection Hth as <-); [destruct (ingested _ _ _ _)|destruct (bool_decide _)]; try done; by injection Hth as <-. }
  assert (forall th, spawned l = Some th -> bounded ws {| mem := mem s; threads := threads s ++ [th] |}) as Hspawn.
  { intros th Hth. split; cbn [mem threads]; [rewrite total_app, (Hsp th Hth); lia|]. apply Forall_add; [done|]. rewrite (Hsp th Hth). lia. }
  assert (forall m, swept l (mem s) = Some m -> bounded ws {| mem := m; threads := threads s |}) as Hsw.
  { intros m H%(swept_bound ws). split; cbn [mem threads]; [lia|done]. }
  destruct l as [| | | | | |n e| | | |]; cbn [step] in Hs;
    try (destruct (spawned _) as [th|] eqn:E; [|done]; injection Hs as <-; by apply Hspawn);
    try (destruct (swept _ (mem s)) as [m|] eqn:E; [|done]; injection Hs as <-; by apply Hsw).
  destruct (threads s !! n) as [th|] eqn:En; [|done]. cbn [mbind option_bind] in Hs.
  destruct (thread_step e th (mem s)) as [[th' m]|] eqn:Et; [|done]. injection Hs as <-.
  pose proof (Forall_lookup_1 _ _ _ _ Hn En) as H0. destruct (thread_bound ws e th (mem s) th' m Hl H0 Et) as [H1 H2]. split; cbn [mem threads].
  - rewrite (total_insert _ _ _ _ _ En). pose proof (total_nonneg _ _ Hn) as Ht.
    assert (surplus ws th <= total (surplus ws) (threads s)) as Hle.
    { pose proof (total_insert (surplus ws) (threads s) n th TDone En) as Hi.
      assert (0 <= total (surplus ws) (<[n:=TDone]> (threads s))) by (apply total_nonneg, Forall_insert; [done|cbn; lia]). cbn in Hi. lia. }
    destruct H2; lia.
  - by apply Forall_insert.
Qed.

(** C13: over any interleaving of sends and peers' messages whose store calls are answered, a
    workspace, the global one included, holds at most five thousand live messages more than
    the senders at work have still to archive: five thousand when nobody is sending. *)
Theorem live_ceiling ws ls s : forallb answered ls = true -> run empty_mesh ls = Some s ->
  CountLiveMessages ws (messages (mem s)) <= maxLiveMessages + total (surplus ws) (threads s).
Proof.
  assert (bounded ws empty_mesh) as H0 by (split; cbn; [unfold CountLiveMessages, maxLiveMessages; cbn; lia|constructor]).
  revert H0. generalize empty_mesh. induction ls as [|l ls IH]; intros s0 H0 Hl; cbn [run]; [intros [= <-]; apply H0|].
  apply andb_true_iff in Hl as [Hl Hls]. destruct (step s0 l) as [s1|] eqn:E; [|done]. apply IH; [by eapply inbox_step_bounded|done].
Qed.

(** ** Who may read *)

(** whatever filter a poll uses, a session with a name is answered with live messages
    only, of its workspaces or the global one, for everybody, for it, or for its role: what
    Hydrate would show it. *)
Theorem reads_stay_visible meta req agent now t msgs m :
  s_ID meta <> "" -> receive_query meta req agent now t = Some msgs -> m ∈ msgs -> m ∈ t /\ canReadMessage meta agent m = true.
Proof.
  intros Hid Hq Hm. unfold receive_query in Hq.
  assert (forall f, m ∈ List.filter (selects f) t -> StatusLive f = true -> q_WorkspaceIDs f = WorkspaceIDs meta ++ [""] -> q_Audience f = s_ID meta ->
    AgentRole f = match agent with Some a => a_Role a | None => "" end -> m ∈ t /\ canReadMessage meta agent m = true) as Hsel.
  { intros f [Hin Hs]%list_elem_of_In%List.filter_In H1 H2 H3 H4. split; [by apply list_elem_of_In|]. unfold selects in Hs. rewrite H1, H2, H3, H4 in Hs. bool_hyps.
    repeat match goal with H : _ || _ = true |- _ => apply orb_true_iff in H end. unfold canReadMessage.
    repeat (apply andb_true_iff; split).
    - match goal with H : _ \/ bool_decide (Status m = _) = true |- _ => destruct H as [H|H]; [done|exact H] end.
    - match goal with H : among (_ ++ _) _ = true |- _ => unfold among in H; apply orb_true_iff in H as [H|H]; apply bool_decide_eq_true in H end.
      + by apply app_eq_nil in H as [_ H].
      + unfold workspaceReadable. apply orb_true_iff. apply elem_of_app in H as [H|H%list_elem_of_singleton]; [right|left]; by apply bool_decide_eq_true.
    - match goal with H : addressed _ _ _ = true |- _ => rename H into Ha end.
      unfold addressed in Ha. rewrite bool_decide_false in Ha by (by intros [? _]). apply orb_true_iff in Ha as [[Ha|Ha]%orb_true_iff|Ha]; apply orb_true_iff.
      + left. apply bool_decide_eq_true in Ha. apply bool_decide_eq_true. auto.
      + apply andb_true_iff in Ha as [_ Ha]. left. apply bool_decide_eq_true in Ha. apply bool_decide_eq_true. auto.
      + right. by destruct agent as [a|]. }
  assert (forall f n o, m ∈ take n (SliceStable o (List.filter (selects f) t)) -> m ∈ List.filter (selects f) t) as Htake.
  { intros f n o (i & Hi & _)%elem_of_take. apply list_elem_of_lookup_2 in Hi. by rewrite (SliceStable_perm o) in Hi. }
  repeat case_bool_decide; try done; injection Hq as <-.
  - apply batch_found in Hm. by eapply Hsel; [exact Hm|..].
  - apply Htake in Hm. by eapply Hsel; [exact Hm|..].
  - apply Htake in Hm. by eapply Hsel; [exact Hm|..].
Qed.

(** ** Samples *)

Definition session (sid ws : string) : SessionMeta := {| s_ID := sid; WorkspaceIDs := [ws]; ClientType := "cli"; s_WorkspacePath := "" |}.

Definition to_all (content kind : string) : SendRequest := {|
  r_Kind := kind; r_Content := content; r_Priority := ""; r_Audience := ""; r_Tags := ""; r_ReplyTo := ""; r_ActorKind := ""; r_LocalOnly := false;
  r_ToWorkspace := ""; r_ToPeer := Some ""; r_ToAgent := None; r_Repo := ""; r_Branch := ""; r_WorkspacePath := "" |}.

Definition to_session (content sid : string) : SendRequest := {|
  r_Kind := "finding"; r_Content := content; r_Priority := ""; r_Audience := sid; r_Tags := ""; r_ReplyTo := ""; r_ActorKind := ""; r_LocalOnly := false;
  r_ToWorkspace := ""; r_ToPeer := Some ""; r_ToAgent := None; r_Repo := ""; r_Branch := ""; r_WorkspacePath := "" |}.

Definition reply (content parent ws : string) : SendRequest := {|
  r_Kind := "reply"; r_Content := content; r_Priority := ""; r_Audience := ""; r_Tags := ""; r_ReplyTo := parent; r_ActorKind := ""; r_LocalOnly := false;
  r_ToWorkspace := ws; r_ToPeer := Some ""; r_ToAgent := None; r_Repo := ""; r_Branch := ""; r_WorkspacePath := "" |}.

Definition poll_of (role kinds : string) : ReceiveRequest := {|
  Filter := ""; v_Tags := ""; SinceMinutes := 0; MaxResults := 0; ThreadID := ""; v_Name := ""; v_Role := role; v_Repo := ""; v_Branch := "";
  v_WorkspacePath := ""; v_Kinds := kinds; v_ExcludeKinds := ""; v_ActorKinds := ""; v_ExcludeActorKinds := "" |}.

Definition ans (id : string) : answers := {| ok := true; now := 100 * second; fresh := id |}.

Definition go (n k : nat) (id : string) : list label := replicate k (Step n (ans id)).

Definition seen {A} (f : state -> A) (ls : list label) : option A := f <$> run empty_mesh ls.

(** A message whose id was minted first and whose row comes second is never delivered by a
    poll that came in between. *)
Lemma late_insert_skipped :
  let ls := Send (session "a" "w") (to_all "first" "finding") :: go 0 1 "01" ++ Send (session "c" "w") (to_all "second" "finding") :: go 1 7 "02" ++
            Receive (session "b" "w") (poll_of "" "") :: go 2 7 "" ++ go 0 6 "" ++ Receive (session "b" "w") (poll_of "" "") :: go 3 5 "" in
  seen (fun s => (map ID (messages (mem s)), delivered (mem s), PendingCount (session "b" "w") (mem s))) ls = Some (["02"; "01"], [("b", "02")], 0) /\
  in_order empty_mesh ls = false.
Proof. vm_compute. split; reflexivity. Qed.

(** A session that names another's id as its role reads what was sent to that one. *)
Lemma role_reads_mail :
  seen (fun s => (map (fun m => (Audience m, WorkspaceID m)) (messages (mem s)), delivered (mem s)))
    (Send (session "a" "w") (to_session "for c" "c") :: go 0 7 "01" ++ Receive (session "b" "w") (poll_of "c" "") :: go 1 7 "") =
  Some ([("c", "w")], [("b", "01")]).
Proof. vm_compute. reflexivity. Qed.

(** Task events older than the last message read are gone for whoever opts in later. *)
Lemma task_events_buried :
  let ls := Send (session "a" "w") (to_all "moved" "task_event") :: go 0 7 "01" ++ Send (session "a" "w") (to_all "hello" "finding") :: go 1 6 "02" ++
            Receive (session "b" "w") (poll_of "" "") :: go 2 7 "" ++ Receive (session "b" "w") (poll_of "" "task_event") :: go 3 5 "" in
  seen (fun s => delivered (mem s)) ls = Some [("b", "02")].
Proof. vm_compute. reflexivity. Qed.

(** A wait that consumes moves the cursor to the newest message it was waiting for: the
    mail below that it was not asked about is never delivered. *)
Lemma consuming_wait_skips :
  let c := {| w_SessionID := "b"; w_named := None; w_Role := ""; w_Tags := []; AllTags := []; w_Kinds := ["question"]; FromPeer := ""; StatusFrom := "";
              StatusTo := ""; IncludeRole := false; IncludeBroadcast := true; Consume := true; w_WorkspaceID := "w"; w_names := fun _ => [] |} in
  let ls := Send (session "a" "w") (to_session "for you" "b") :: go 0 7 "01" ++ Send (session "a" "w") (to_all "who?" "question") :: go 1 6 "02" ++
            WaitForEvent (session "b" "w") "" c :: go 2 8 "" ++ Receive (session "b" "w") (poll_of "" "") :: go 3 5 "" in
  seen (fun s => (delivered (mem s), PendingCount (session "b" "w") (mem s))) ls = Some ([("b", "02")], 0) /\
  forallb (spares "b") ls = false /\ in_order empty_mesh ls = true.
Proof. vm_compute. split_and!; reflexivity. Qed.

(** Two polls of one session that overlap deliver the same messages. *)
Lemma overlapping_polls_repeat :
  let ls := Send (session "a" "w") (to_all "hello" "finding") :: go 0 7 "01" ++ RegisterAgent (session "b" "w") :: go 1 3 "" ++
            [Receive (session "b" "w") (poll_of "" ""); Receive (session "b" "w") (poll_of "" "")] ++ go 2 4 "" ++ go 3 4 "" ++ go 2 2 "" ++ go 3 2 "" in
  seen (fun s => delivered (mem s)) ls = Some [("b", "01"); ("b", "01")].
Proof. vm_compute. reflexivity. Qed.

(** Every tag of a filter is wanted, anywhere in the text of the tags. *)
Lemma tags_all_of :
  forallb (contains_tag "bug,ui") (splitTags "bug,db") = false /\ contains_tag "debugging" "bug" = true.
Proof. split; reflexivity. Qed.

Definition replied (id to : string) (priority : string) : MeshMessage := {|
  ID := id; WorkspaceID := "w"; SessionID := "a"; Kind := "reply"; Priority := priority; Content := "re"; Audience := to; Tags := ""; ReplyTo := "01";
  ThreadRoot := "01"; ReplyCount := 0; Status := "live"; ExpiresAt := 1000; CreatedAt := 0; Repo := ""; Branch := ""; WorkspacePath := ""; ActorKind := "agent" |}.

Definition rooted : MeshMessage := {|
  ID := "01"; WorkspaceID := "w"; SessionID := "a"; Kind := "question"; Priority := "normal"; Content := "?"; Audience := "*"; Tags := ""; ReplyTo := "";
  ThreadRoot := ""; ReplyCount := 0; Status := "live"; ExpiresAt := 1000; CreatedAt := 0; Repo := ""; Branch := ""; WorkspacePath := ""; ActorKind := "agent" |}.

(** Replies to others fill the page a thread is cut to, and a reply for the reader is left
    out. *)
Lemma thread_crowded_out :
  let s := {| messages := [rooted; replied "02" "c" "high"; replied "03" "c" "high"; replied "04" "b" "normal"]; mesh_agents := ∅; inserted := []; delivered := [] |} in
  map ID <$> Thread (session "b" "w") "01" 2 s = Some ["01"] /\ ID <$> Hydrate (session "b" "w") "04" s = Some "04" /\ Hydrate (session "b" "w") "02" s = None.
Proof. vm_compute. split_and!; reflexivity. Qed.

(** A session of another workspace replies into one by naming it as the target, and
    lengthens the life of a message it cannot read. *)
Lemma reply_gate_bypassed :
  seen (fun s => (map (fun m => (ID m, WorkspaceID m, ReplyCount m, ExpiresAt m - CreatedAt m)) (messages (mem s)), bool_decide (is_Some (Hydrate (session "a" "v") "01" (mem s)))))
    (Send (session "b" "w") (to_all "mine" "finding") :: go 0 7 "01" ++ Send (session "a" "v") (reply "re" "01" "w") :: go 1 10 "02") =
  Some ([("01", "w", 1, 7920); ("02", "w", 0, 7200)], false) /\
  seen (fun s => map ID (messages (mem s)))
    (Send (session "b" "w") (to_all "mine" "finding") :: go 0 7 "01" ++ Send (session "a" "v") (reply "re" "01" "") :: go 1 2 "02") = Some ["01"].
Proof. vm_compute. split; reflexivity. Qed.

(** *** Witnesses *)

Definition two_sent : list label :=
  Send (session "a" "w") (to_all "one" "finding") :: go 0 7 "01" ++ Send (session "a" "w") (to_session "two" "b") :: go 1 6 "02" ++
  Receive (session "b" "w") (poll_of "" "") :: go 2 7 "".

Lemma nothing_skipped_witness : exists s a m, run empty_mesh two_sent = Some s /\ mesh_agents (mem s) !! "b" = Some a /\ a_Cursor a = "02" /\
  m ∈ messages (mem s) /\ Content m = "one" /\ ("b", ID m) ∈ delivered (mem s).
Proof.
  eexists _, _, _. split; [vm_compute; reflexivity|]. split; [vm_compute; reflexivity|]. split; [reflexivity|]. split; [left|]. split; [reflexivity|].
  eapply (nothing_skipped "b" ["w"] two_sent);
    [done|vm_compute; reflexivity|vm_compute; reflexivity|vm_compute; reflexivity|vm_compute; reflexivity|vm_compute; reflexivity|done|left|unfold mail; split_and!; try done; by left|reflexivity].
Defined.

Lemma polls_drain_witness : let t := [rooted; replied "02" "c" "high"; replied "03" "b" "low"; replied "04" "b" "normal"] in
  let a := {| a_WorkspaceID := "w"; a_Name := ""; a_Role := ""; a_ClientType := ""; a_Cursor := ""; a_Origin := "local"; a_LastSeenAt := 0 |} in
  map ID (pending (session "b" "w") (poll_of "" "") t a) = ["01"; "03"; "04"] /\
  let '(bs, a') := polls 2 (session "b" "w") (poll_of "" "") 0 t a in
  concat (map (SliceStable older) bs) = take (2 * 20) (pending (session "b" "w") (poll_of "" "") t a) /\
  pending (session "b" "w") (poll_of "" "") t a' = drop (2 * 20) (pending (session "b" "w") (poll_of "" "") t a) /\ Forall (fun b => length b <= 50)%nat bs /\ (1 <= 20)%nat.
Proof.
  cbv zeta. split; [vm_compute; reflexivity|].
  refine (polls_drain (session "b" "w") (poll_of "" "") 0 [rooted; replied "02" "c" "high"; replied "03" "b" "low"; replied "04" "b" "normal"] 2
    {| a_WorkspaceID := "w"; a_Name := ""; a_Role := ""; a_ClientType := ""; a_Cursor := ""; a_Origin := "local"; a_LastSeenAt := 0 |} _ _ _ _);
    [reflexivity|reflexivity|apply (bool_decide_unpack _); vm_compute; exact I|].
  intros m Hm. by repeat (apply elem_of_cons in Hm as [->|Hm]; [done|]); apply elem_of_nil in Hm.
Defined.

Lemma live_ceiling_witness : exists s, run empty_mesh two_sent = Some s /\ CountLiveMessages "w" (messages (mem s)) = 2 /\
  CountLiveMessages "w" (messages (mem s)) <= maxLiveMessages + total (surplus "w") (threads s).
Proof. eexists. split; [vm_compute; reflexivity|]. split; [reflexivity|]. apply (live_ceiling "w" two_sent); [reflexivity|vm_compute; reflexivity]. Defined.

Lemma reads_stay_visible_witness : let t := [rooted; replied "02" "c" "high"] in exists msgs,
  receive_query (session "b" "w") (poll_of "" "") None 0 t = Some msgs /\ rooted ∈ msgs /\ rooted ∈ t /\ canReadMessage (session "b" "w") None rooted = true.
Proof.
  eexists. split; [vm_compute; reflexivity|]. split; [left|].
  eapply (reads_stay_visible (session "b" "w") (poll_of "" "") None 0 [rooted; replied "02" "c" "high"]); [done|vm_compute; reflexivity|left].
Defined.
