(* ===== verification/DeviceProof.v ===== *)
(** The proofs that bind a device to a principal: internal/p2p/identity_proof.go, with the
    limiter of join attempts and the invitation codes of collaboration_invite.go.

    The ssh library is a parameter, as an instance of [SSH]; so is SHA-256, where a digest
    is kept.  Instants are whole seconds since 1970, which [validateStructure] asks for,
    except those of the limiter, which are nanoseconds. *)

From Stdlib Require Import Ascii String DecimalString DecimalZ.
From stdpp Require Import base list option gmap strings.
From S2P Require Import Prelude GoStrings.

#[local] Open Scope string_scope.
#[local] Open Scope list_scope.
#[local] Open Scope Z_scope.

(** ** base64.RawURLEncoding *)

Definition b64_val (a : ascii) : option N :=
  let n := N_of_ascii a in
  (if byte_in 65 90 a then Some (n - 65) else if byte_in 97 122 a then Some (n - 71) else if byte_in 48 57 a then Some (n + 4)
   else if bool_decide (a = "-"%char) then Some 62 else if bool_decide (a = "_"%char) then Some 63 else None)%N.

(** Line ends are skipped; the bits left over at the end are not looked at. *)
Fixpoint b64_quanta (l : list N) : option (list N) :=
  (match l with
   | [] => Some []
   | [_] => None
   | [a; b] => Some [a * 4 + b / 16]
   | [a; b; c] => Some [a * 4 + b / 16; b mod 16 * 16 + c / 4]
   | a :: b :: c :: d :: l => (fun r => a * 4 + b / 16 :: b mod 16 * 16 + c / 4 :: c mod 4 * 64 + d :: r) <$> b64_quanta l
   end)%N.

Definition DecodeString (s : string) : option string :=
  vals ← mapM b64_val (List.filter (fun a => negb (bool_decide (a = "010"%char \/ a = "013"%char))) (list_ascii_of_string s));
  bytes ← b64_quanta vals; Some (string_of_list_ascii (map ascii_of_N bytes)).

(** ** Keys and signatures *)

(** golang.org/x/crypto/ssh; a public key is its wire form. *)
Class SSH := {
  ParseAuthorizedKey : string -> option (string * string * list string * string);   (** key, comment, options, rest *)
  Type_ : string -> string;
  MarshalAuthorizedKey : string -> string;
  FingerprintSHA256 : string -> string;
  Unmarshal : string -> option (string * string * string);                          (** format, blob, rest *)
  ssh_Verify : string -> string -> string * string -> bool }.

Definition KeyAlgoED25519 : string := "ssh-ed25519".
Definition DeviceBindingTranscriptVersion : string := "MCPLEXER-DEVICE-BINDING-V1".
Definition DeviceBindingNonceBytes : Z := 32.
Definition MaxDeviceBindingChallengeTTL : Z := 5 * 60.
Definition DeviceBindingClockSkew : Z := 30.

Record IdentityPublicKey := { AuthorizedKey : string; Fingerprint : string; Algorithm : string; Comment : string; wire : string }.

Definition newline : ascii := "010"%char.
Definition line_break_or_nul : string := String "013" (String newline (String "000" "")).

Definition containsLineBreakOrNUL (s : string) : bool := ContainsAny s line_break_or_nul.

Definition ParseIdentityPublicKey `{SSH} (raw : string) : option IdentityPublicKey :=
  let trimmed := TrimSpace raw in
  if bool_decide (trimmed = "") || (4096 <? Z.of_nat (String.length trimmed)) || containsLineBreakOrNUL trimmed then None
  else '(key, comment, options, rest) ← ParseAuthorizedKey (trimmed +:+ String newline "");
       if bool_decide (options = []) && bool_decide (TrimSpace rest = "") && bool_decide (Type_ key = KeyAlgoED25519)
       then Some {| AuthorizedKey := TrimSpace (MarshalAuthorizedKey key); Fingerprint := FingerprintSHA256 key; Algorithm := Type_ key;
                    Comment := TrimSpace comment; wire := key |}
       else None.

Definition UnmarshalIdentitySignature `{SSH} (raw : string) : option (string * string) :=
  if bool_decide (raw = "") || (4096 <? Z.of_nat (String.length raw)) then None
  else '(format, blob, rest) ← Unmarshal raw;
       if bool_decide (rest = "") && bool_decide (format = KeyAlgoED25519) && (Z.of_nat (String.length blob) =? 64) then Some (format, blob) else None.

(** ** Challenges *)

Record DeviceBindingChallenge := {
  c_InvitationID : string; c_PrincipalID : string; c_PrincipalKind : string; c_Fingerprint : string; c_InitiatorPeerID : string; c_ResponderPeerID : string;
  c_ID : string; Nonce : string; IssuedAt : Z; ExpiresAt : Z }.

(** [unicode.IsControl] of a rune in UTF-8: C0, DEL, and C1 after its lead byte. *)
Fixpoint containsProtocolControl (s : string) : bool :=
  match s with
  | EmptyString => false
  | String a t => byte_in 0 31 a || bool_decide (a = "127"%char) ||
                  (bool_decide (a = "194"%char) && match t with String b _ => byte_in 128 159 b | EmptyString => false end) || containsProtocolControl t
  end.

Definition good_field (max : Z) (s : string) : bool :=
  negb (bool_decide (TrimSpace s = "")) && (Z.of_nat (String.length s) <=? max) && negb (containsProtocolControl s).

Definition decodes_to (n : Z) (s : string) : bool := match DecodeString s with Some b => Z.of_nat (String.length b) =? n | None => false end.

(** The zero time of Go. *)
Definition zero_time : Z := -62135596800.

Definition validateStructure (c : DeviceBindingChallenge) : bool :=
  forallb (good_field 256) [c_InvitationID c; c_PrincipalID c; c_Fingerprint c; c_InitiatorPeerID c; c_ResponderPeerID c; c_ID c; Nonce c] &&
  bool_decide (c_PrincipalKind c ∈ ["person"; "machine"]) &&
  HasPrefix (c_Fingerprint c) "SHA256:" &&
  decodes_to DeviceBindingNonceBytes (Nonce c) && decodes_to 16 (c_ID c) &&
  negb (IssuedAt c =? zero_time) && negb (ExpiresAt c =? zero_time) && (IssuedAt c <? ExpiresAt c) &&
  (ExpiresAt c - IssuedAt c <=? MaxDeviceBindingChallengeTTL).

(** %d *)
Definition decimal (z : Z) : string := NilZero.string_of_int (Z.to_int z).

Definition unlines (ls : list string) : string := foldr (fun l s => l +:+ String newline s) "" ls.

Definition transcript_lines (c : DeviceBindingChallenge) : list string := [
  DeviceBindingTranscriptVersion;
  "invitation_id=" +:+ c_InvitationID c;
  "principal_id=" +:+ c_PrincipalID c;
  "principal_kind=" +:+ c_PrincipalKind c;
  "identity_key_fingerprint=" +:+ c_Fingerprint c;
  "initiator_peer_id=" +:+ c_InitiatorPeerID c;
  "responder_peer_id=" +:+ c_ResponderPeerID c;
  "challenge_id=" +:+ c_ID c;
  "nonce=" +:+ Nonce c;
  "issued_at=" +:+ decimal (IssuedAt c);
  "expires_at=" +:+ decimal (ExpiresAt c)].

Definition Transcript (c : DeviceBindingChallenge) : option string :=
  if validateStructure c then Some (unlines (transcript_lines c)) else None.

Definition TranscriptSHA256 (Sum256_hex : string -> string) (c : DeviceBindingChallenge) : option string := Sum256_hex <$> Transcript c.

(** The id and the nonce, as they are encoded, come from the random source. *)
Definition NewDeviceBindingChallenge (id nonce : string) (now : Z) (invitationID principalID principalKind fingerprint initiator responder : string) :
  option DeviceBindingChallenge :=
  let c := {| c_InvitationID := invitationID; c_PrincipalID := principalID; c_PrincipalKind := principalKind; c_Fingerprint := fingerprint;
              c_InitiatorPeerID := initiator; c_ResponderPeerID := responder; c_ID := id; Nonce := nonce; IssuedAt := now;
              ExpiresAt := now + MaxDeviceBindingChallengeTTL |} in
  if validateStructure c then Some c else None.

Definition ValidateAt (c : DeviceBindingChallenge) (now : Z) : bool :=
  validateStructure c && (IssuedAt c - DeviceBindingClockSkew <=? now) && (now <=? ExpiresAt c + DeviceBindingClockSkew).

Definition VerifyDeviceBinding `{SSH} (rawPublicKey : string) (c : DeviceBindingChallenge) (signatureWire : string) (now : Z) : option IdentityPublicKey :=
  key ← ParseIdentityPublicKey rawPublicKey;
  if negb (bool_decide (Fingerprint key = c_Fingerprint c)) || negb (ValidateAt c now) then None
  else sig ← UnmarshalIdentitySignature signatureWire;
       transcript ← Transcript c;
       if ssh_Verify (wire key) transcript sig then Some key else None.

(** ** Invitation codes *)

Record CollaborationInvitationPayload := {
  Version : Z; i_InvitationID : string; Token : string; HomePeerID : string; HomeAddrs : list string; IdentityKeyFingerprint : string; i_ExpiresAt : Z }.

Definition CollaborationInviteVersion : Z := 1.

Definition validateCollaborationInvitationPayload (p : CollaborationInvitationPayload) : bool :=
  (Version p =? CollaborationInviteVersion) && negb (bool_decide (TrimSpace (i_InvitationID p) = "")) && negb (bool_decide (TrimSpace (HomePeerID p) = "")) &&
  negb (bool_decide (TrimSpace (IdentityKeyFingerprint p) = "")) && negb (i_ExpiresAt p =? zero_time) && decodes_to 32 (Token p) &&
  (Z.of_nat (length (HomeAddrs p)) <=? 32).

(** ** The limiter of join attempts *)

Record collaborationInviteLimiter := { remote : gmap string (list Z); invites : gmap string (list Z) }.

Definition collaborationInviteRateWindow : Z := 5 * 60 * second.
Definition collaborationInviteRemoteBurst : nat := 30.
Definition collaborationInviteTokenBurst : nat := 8.
Definition collaborationInviteMaxKeys : Z := 8192.

Definition no_joins : collaborationInviteLimiter := {| remote := ∅; invites := ∅ |}.

(** The entries before the cutoff that stand in front. *)
Fixpoint prune (cutoff : Z) (values : list Z) : list Z :=
  match values with [] => [] | v :: l => if v <? cutoff then prune cutoff l else values end.

Definition drained (cutoff : Z) (v : list Z) : bool := match last v with None => true | Some t => t <? cutoff end.

Definition sweep (cutoff : Z) (l : collaborationInviteLimiter) : collaborationInviteLimiter :=
  let keep v := if drained cutoff v then None else Some v in
  {| remote := omap keep (remote l); invites := omap keep (invites l) |}.

Definition storeOrDeleteWindow (key : string) (values : list Z) (m : gmap string (list Z)) : gmap string (list Z) :=
  match values with [] => delete key m | _ => <[key := values]> m end.

Definition invite_key (remotePeerID invitationID : string) : string := remotePeerID +:+ String "000" invitationID.

Definition allow (remotePeerID invitationID : string) (now : Z) (l : collaborationInviteLimiter) : bool * collaborationInviteLimiter :=
  let cutoff := now - collaborationInviteRateWindow in
  let l := if collaborationInviteMaxKeys <=? Z.of_nat (size (remote l) + size (invites l)) then sweep cutoff l else l in
  let r := prune cutoff (default [] (remote l !! remotePeerID)) in
  let key := invite_key remotePeerID invitationID in
  let i := prune cutoff (default [] (invites l !! key)) in
  if (collaborationInviteRemoteBurst <=? length r)%nat || (collaborationInviteTokenBurst <=? length i)%nat
  then (false, {| remote := storeOrDeleteWindow remotePeerID r (remote l); invites := storeOrDeleteWindow key i (invites l) |})
  else (true, {| remote := <[remotePeerID := r ++ [now]]> (remote l); invites := <[key := i ++ [now]]> (invites l) |}).

(** ** Transcripts *)

Definition no_newline (s : string) : Prop := string_existsb (fun a => bool_decide (a = newline)) s = false.

Lemma no_newline_app s t : no_newline (s +:+ t) <-> no_newline s /\ no_newline t.
Proof.
  unfold no_newline. induction s as [|a s IH]; [split; [done|by intros [_ H]]|]. rewrite string_app_cons. cbn [string_existsb].
  rewrite !orb_false_iff, IH. tauto.
Qed.

Lemma control_newline s : containsProtocolControl s = false -> no_newline s.
Proof.
  unfold no_newline. induction s as [|a s IH]; [done|]. cbn [containsProtocolControl string_existsb]. intros H. bool_hyps.
  apply orb_false_iff. split; [|auto]. apply bool_decide_eq_false. by intros ->.
Qed.

Lemma good_field_newline max s : good_field max s = true -> no_newline s.
Proof. unfold good_field. intros H. bool_hyps. by apply control_newline. Qed.

Lemma unlines_inj ls ls' : Forall no_newline ls -> Forall no_newline ls' -> length ls = length ls' -> unlines ls = unlines ls' -> ls = ls'.
Proof.
  revert ls'. induction ls as [|l ls IH]; intros [|l' ls'] H H'; cbn [length]; try done. intros Hlen E. cbn [unlines foldr] in E.
  apply Forall_cons in H as [H1 H2]. apply Forall_cons in H' as [H1' H2'].
  pose proof (SplitByte_app_sep l (unlines ls) newline H1) as S1. pose proof (SplitByte_app_sep l' (unlines ls') newline H1') as S2.
  assert (l = l') as -> by (unfold unlines in S1, S2; congruence). f_equal.
  apply string_app_inj_l in E. injection E as E. by apply IH; auto.
Qed.

Lemma to_int_nonnil z : Z.to_int z <> Decimal.Pos Decimal.Nil /\ Z.to_int z <> Decimal.Neg Decimal.Nil.
Proof. destruct z as [|p|p]; cbn; split; try done; intros [=E]; by apply (DecimalPos.Unsigned.to_uint_nonnil p). Qed.

Lemma decimal_inj a b : decimal a = decimal b -> a = b.
Proof.
  unfold decimal. intros E. destruct (to_int_nonnil a) as [A1 A2], (to_int_nonnil b) as [B1 B2].
  apply (f_equal NilZero.int_of_string) in E. rewrite !NilZero.isi in E by done. injection E as E. by apply DecimalZ.to_int_inj.
Qed.

Lemma decimal_newline z : no_newline (decimal z).
Proof.
  assert (forall d, no_newline (NilEmpty.string_of_uint d)) as H by (induction d; cbn; try done; by unfold no_newline in *; cbn).
  assert (forall d, no_newline (NilZero.string_of_uint d)) as H0 by (intros d; destruct d; try apply H; done).
  unfold decimal, NilZero.string_of_int. destruct (Z.to_int z); [apply H0|]. unfold no_newline. cbn. apply H0.
Qed.

Lemma transcript_lines_newline c : validateStructure c = true -> Forall no_newline (transcript_lines c).
Proof.
  unfold validateStructure. cbn [forallb]. intros H. bool_hyps.
  repeat match goal with H : good_field _ _ = true |- _ => apply good_field_newline in H end.
  assert (no_newline (c_PrincipalKind c)).
  { match goal with H : c_PrincipalKind c ∈ _ |- _ => rename H into Hk end.
    by repeat (apply elem_of_cons in Hk as [->|Hk]; [done|]); apply elem_of_nil in Hk. }
  unfold transcript_lines. repeat (apply Forall_cons; split); try apply Forall_nil_2; try done; apply no_newline_app; (split; [done|]); try done; apply decimal_newline.
Qed.

(** a signed transcript says one thing: two challenges with the same transcript agree in
    the invitation, the principal and its kind, the key, both peers, the id, the nonce and
    the window, so a signature collected for one is a signature for no other. *)
Theorem transcript_binds c c' t : Transcript c = Some t -> Transcript c' = Some t -> c = c'.
Proof.
  unfold Transcript. destruct (validateStructure c) eqn:V; [|done]. destruct (validateStructure c') eqn:V'; [|done].
  intros H1 H2. assert (unlines (transcript_lines c) = unlines (transcript_lines c')) as E by congruence.
  apply unlines_inj in E; [|by apply transcript_lines_newline..|done].
  unfold transcript_lines in E. injection E as E1 E2 E3 E4 E5 E6 E7 E8 E9 E10. apply decimal_inj in E9, E10.
  destruct c, c'; cbn in *. by f_equal.
Qed.

(** A proof is accepted for the key, the challenge and the time it names only. *)
Lemma verified_proof `{SSH} raw c sig now key : VerifyDeviceBinding raw c sig now = Some key ->
  ParseIdentityPublicKey raw = Some key /\ Fingerprint key = c_Fingerprint c /\ Algorithm key = KeyAlgoED25519 /\ ValidateAt c now = true /\
  exists t s, Transcript c = Some t /\ UnmarshalIdentitySignature sig = Some s /\ ssh_Verify (wire key) t s = true.
Proof.
  unfold VerifyDeviceBinding. destruct (ParseIdentityPublicKey raw) as [k|] eqn:P; [|done]. cbn [mbind option_bind].
  destruct (negb _ || negb _) eqn:G; [done|]. bool_hyps. destruct (UnmarshalIdentitySignature sig) as [s|]; [|done]. cbn [mbind option_bind].
  destruct (Transcript c) as [t|] eqn:T; [|done]. cbn [mbind option_bind]. destruct (ssh_Verify _ t s) eqn:V; [|done]. intros [= <-].
  split_and!; try done.
  - unfold ParseIdentityPublicKey in P. destruct (_ || _ || _); [done|]. destruct (ParseAuthorizedKey _) as [[[[k0 c0] o0] r0]|]; [|done]. cbn [mbind option_bind] in P.
    destruct (_ && _ && _) eqn:G; [|done]. injection P as <-. bool_hyps. done.
  - by exists t, s.
Qed.

(** ** Attempts *)

Fixpoint attempts (ls : list (string * string * Z)) (l : collaborationInviteLimiter) : list bool * collaborationInviteLimiter :=
  match ls with
  | [] => ([], l)
  | (p, i, now) :: ls => let '(b, l) := allow p i now l in let '(bs, l) := attempts ls l in (b :: bs, l)
  end.

Definition at_or_after (c : Z) (l : list Z) : list Z := List.filter (fun t => c <=? t) l.

Lemma prune_sorted c l : StronglySorted Z.le l -> prune c l = at_or_after c l.
Proof.
  induction l as [|t l IH]; [done|]. intros [S H]%StronglySorted_inv. cbn. destruct (Z.ltb_spec t c) as [Hlt|Hge].
  - rewrite (proj2 (Z.leb_gt c t)) by lia. by apply IH.
  - rewrite (proj2 (Z.leb_le c t)) by lia. f_equal. symmetry. apply filter_all. intros x Hx. apply Z.leb_le.
    rewrite list.Forall_forall in H. specialize (H x Hx). lia.
Qed.

Lemma at_or_after_twice c c' l : c <= c' -> at_or_after c' (at_or_after c l) = at_or_after c' l.
Proof.
  intros Hc. unfold at_or_after. rewrite filter_filter. apply List.filter_ext. intros x. destruct (Z.leb_spec c' x); [|apply andb_false_r].
  apply andb_true_iff. split; [apply Z.leb_le; lia|done].
Qed.

Lemma at_or_after_sorted c l : StronglySorted Z.le l -> StronglySorted Z.le (at_or_after c l).
Proof.
  induction l as [|t l IH]; [done|]. intros [S H]%StronglySorted_inv. cbn. destruct (c <=? t); [|by apply IH]. constructor; [by apply IH|].
  rewrite list.Forall_forall in H |- *. intros x Hx. apply list_elem_of_In, List.filter_In in Hx as [Hx _]. by apply H, list_elem_of_In.
Qed.

Lemma drained_prune c l : StronglySorted Z.le l -> drained c l = true -> at_or_after c l = [].
Proof.
  intros S D. apply filter_none. intros x Hx. unfold drained in D. destruct (last l) as [t|] eqn:E; [|by apply last_None in E as ->; apply elem_of_nil in Hx].
  apply last_Some in E as [l' ->]. apply Z.ltb_lt in D. apply Z.leb_gt. apply elem_of_app in Hx as [Hx|Hx%list_elem_of_singleton]; [|lia].
  assert (x <= t); [|lia]. clear D. induction l' as [|y l' IH]; [by apply elem_of_nil in Hx|]. cbn in S. apply StronglySorted_inv in S as [S H].
  apply elem_of_cons in Hx as [->|Hx]; [|by apply IH]. rewrite list.Forall_forall in H. apply H, elem_of_app. right. by left.
Qed.

Section Peer.
Context (p : string).

Definition window (l : collaborationInviteLimiter) : list Z := default [] (remote l !! p).

(** The attempts let through, and when the last one was looked at. *)
Definition keeps (l : collaborationInviteLimiter) (through : list Z) (now : Z) : Prop :=
  StronglySorted Z.le through /\ Forall (fun t => t <= now) through /\ exists c, c <= now - collaborationInviteRateWindow /\ window l = at_or_after c through.

Lemma keeps_sweep l through now now' : now <= now' -> keeps l through now ->
  keeps (sweep (now' - collaborationInviteRateWindow) l) through now'.
Proof.
  intros Hn (S & Hle & c & Hc & Hw). split_and!; [done|by eapply Forall_impl; [exact Hle|cbn; lia]|]. unfold window, sweep. cbn. rewrite lookup_omap.
  unfold window in Hw. destruct (remote l !! p) as [v|] eqn:E; cbn in Hw |- *.
  - subst v. destruct (drained _ _) eqn:D; cbn; [|exists c; split; [lia|done]].
    exists (now' - collaborationInviteRateWindow). split; [lia|]. apply drained_prune in D; [|by apply at_or_after_sorted].
    by rewrite at_or_after_twice in D by lia.
  - exists c. split; [lia|done].
Qed.

Lemma allow_keeps q i now now' l b l' through : now <= now' -> keeps l through now -> allow q i now' l = (b, l') ->
  keeps l' (if bool_decide (q = p) && b then through ++ [now'] else through) now' /\
  (q = p -> b = true -> (length (at_or_after (now' - collaborationInviteRateWindow) through) < collaborationInviteRemoteBurst)%nat).
Proof.
  intros Hn K. unfold allow. set (cutoff := now' - collaborationInviteRateWindow). set (l0 := if _ <=? _ then _ else l).
  assert (keeps l0 through now') as (S & Hle & c & Hc & Hw).
  { unfold l0. destruct (_ <=? _); [by apply (keeps_sweep l through now)|]. destruct K as (S & Hle & c & Hc & Hw).
    split_and!; [done|by eapply Forall_impl; [exact Hle|cbn; lia]|exists c; split; [lia|done]]. }
  clearbody l0. clear K. fold cutoff in Hc.
  assert (q = p -> prune cutoff (default [] (remote l0 !! q)) = at_or_after cutoff through) as Hp.
  { intros ->. fold (window l0). rewrite Hw, prune_sorted by (by apply at_or_after_sorted). by apply at_or_after_twice. }
  set (r := prune cutoff _) in *. set (iw := prune cutoff (default [] (invites l0 !! _))). destruct (_ || _) eqn:G.
  - intros [= <- <-]. rewrite andb_false_r. split; [|done]. split_and!; [done|done|]. unfold window. cbn. unfold storeOrDeleteWindow.
    destruct (decide (q = p)) as [->|Hq].
    + exists cutoff. split; [lia|]. rewrite Hp by done. destruct (at_or_after cutoff through) eqn:E; [by rewrite lookup_delete_eq|by rewrite lookup_insert_eq].
    + exists c. split; [lia|]. destruct r; [by rewrite lookup_delete_ne|by rewrite lookup_insert_ne].
  - apply orb_false_iff in G as [G _]. apply Nat.leb_gt in G. intros [= <- <-]. rewrite andb_true_r. split; [|intros E _; by rewrite <- (Hp E)].
    case_bool_decide as Hq.
    + split_and!; [|by apply Forall_add; [|lia]|].
      * clear -S Hle. induction through as [|t l IH]; [by repeat constructor|]. cbn. apply StronglySorted_inv in S as [S H]. apply Forall_cons in Hle as [Ht Hle].
        constructor; [by apply IH|by apply Forall_add].
      * exists cutoff. split; [lia|]. unfold window. cbn. rewrite Hq, lookup_insert_eq. cbn. rewrite (Hp Hq). unfold at_or_after. rewrite List.filter_app.
        cbn. rewrite (proj2 (Z.leb_le _ _)); [done|]. unfold cutoff, collaborationInviteRateWindow, second. lia.
    + split_and!; [done|done|]. exists c. split; [lia|]. unfold window. cbn. by rewrite lookup_insert_ne.
Qed.

Definition within (t : Z) (l : list Z) : nat := tally (fun x => (t - collaborationInviteRateWindow <=? x) && (x <=? t)) l.

Lemma within_snoc t l x : within t (l ++ [x]) =
  (within t l + if ((t - collaborationInviteRateWindow <=? x) && (x <=? t))%Z then 1 else 0)%nat.
Proof. unfold within. rewrite tally_app. f_equal. unfold tally. cbn. by destruct (_ && _). Qed.

(** When the attempts of the peer that were let through were made. *)
Fixpoint let_through (ls : list (string * string * Z)) (bs : list bool) : list Z :=
  match ls, bs with
  | (q, _, now) :: ls, b :: bs => (if bool_decide (q = p) && b then [now] else []) ++ let_through ls bs
  | _, _ => []
  end.

Lemma attempts_within ls l through now bs l' : keeps l through now -> (forall t, (within t through <= collaborationInviteRemoteBurst)%nat) ->
  Sorted Z.le (now :: map snd ls) -> attempts ls l = (bs, l') -> forall t, (within t (through ++ let_through ls bs) <= collaborationInviteRemoteBurst)%nat.
Proof.
  revert l through now bs. induction ls as [|[[q i] now'] ls IH]; intros l through now bs K Hb S; cbn [attempts].
  { intros [= <- <-] t. rewrite app_nil_r. apply Hb. }
  destruct (allow q i now' l) as [b l1] eqn:A. destruct (attempts ls l1) as [bs' l2] eqn:E. intros [= <- <-] t. cbn [let_through].
  apply Sorted_inv in S as [S Hn]. apply HdRel_inv in Hn. cbn in Hn.
  destruct (allow_keeps q i now now' l b l1 through Hn K A) as [K1 H1].
  rewrite app_assoc. eapply IH; [|clear t; intros t|exact S|exact E].
  { destruct (bool_decide (q = p) && b); [exact K1|by rewrite app_nil_r]. }
  destruct (bool_decide (q = p) && b) eqn:Q; [|rewrite app_nil_r; apply Hb]. bool_hyps. specialize (H1 ltac:(done) ltac:(done)).
  rewrite within_snoc. pose proof (Hb t) as Hbt. destruct ((t - _ <=? now') && (now' <=? t)) eqn:G; [|lia].
  apply andb_true_iff in G as [G1%Z.leb_le G2%Z.leb_le].
  assert (within t through <= length (at_or_after (now' - collaborationInviteRateWindow) through))%nat; [|lia].
  apply tally_le. intros x [Hx _]%andb_true_iff. apply Z.leb_le in Hx. apply Z.leb_le. lia.
Qed.
End Peer.

(** in any five minutes at most thirty attempts of one peer are let through, whatever
    codes it tries, whoever else tries, and whatever the sweeps drop, as long as the clock
    does not go back. *)
Theorem joins_bounded p ls bs l t : Sorted Z.le (map snd ls) -> attempts ls no_joins = (bs, l) ->
  (within t (let_through p ls bs) <= collaborationInviteRemoteBurst)%nat.
Proof.
  intros S E. destruct ls as [|[[q i] now] ls]; [injection E as <- <-; cbn; lia|].
  change (let_through p ((q, i, now) :: ls) bs) with ([] ++ let_through p ((q, i, now) :: ls) bs).
  eapply (attempts_within p _ no_joins [] now); [|cbn; lia| |exact E].
  - split_and!; [constructor|constructor|]. exists (now - collaborationInviteRateWindow). by split; [lia|].
  - constructor; [exact S|]. constructor. cbn. lia.
Qed.

(** Windows of one moment are never drained, so that many peers grow the maps past any
    bound. *)
Lemma crowd_grows t : forall ps, NoDup ps -> exists bs l, attempts (map (fun p => (p, "x", t)) ps) no_joins = (bs, l) /\
  size (remote l) = length ps /\ Forall (fun b => b = true) bs.
Proof.
  assert (forall ps l, NoDup ps -> (forall p, p ∈ ps -> remote l !! p = None /\ invites l !! invite_key p "x" = None) ->
    (forall p v, remote l !! p = Some v -> v = [t]) -> (forall k v, invites l !! k = Some v -> v = [t]) ->
    exists bs l', attempts (map (fun p => (p, "x", t)) ps) l = (bs, l') /\ size (remote l') = (size (remote l) + length ps)%nat /\ Forall (fun b => b = true) bs) as H.
  { induction ps as [|p ps IH]; intros l Hnd Hf Hr Hi; [exists [], l; split_and!; [done|cbn; lia|done]|].
    apply NoDup_cons in Hnd as [Hp Hnd]. destruct (Hf p) as [Fr Fi]; [by left|]. cbn [map attempts].
    assert (forall m : gmap string (list Z), (forall k v, m !! k = Some v -> v = [t]) ->
      omap (fun v => if drained (t - collaborationInviteRateWindow) v then None else Some v) m = m) as Hm.
    { intros m Hm. apply map_eq. intros k. rewrite lookup_omap. destruct (m !! k) as [v|] eqn:E; [|done]. rewrite (Hm k v E). cbn.
      by rewrite (proj2 (Z.ltb_ge _ _)) by (unfold collaborationInviteRateWindow, second; lia). }
    assert (sweep (t - collaborationInviteRateWindow) l = l) as Hs by (destruct l; unfold sweep; cbn in *; by rewrite !Hm).
    unfold allow. rewrite Hs. match goal with |- context [if ?b then l else l] => replace (if b then l else l) with l by (by destruct b) end. rewrite Fr, Fi. cbn [default prune length app].
    change (collaborationInviteRemoteBurst <=? 0)%nat with false. change (collaborationInviteTokenBurst <=? 0)%nat with false. cbn [orb].
    destruct (IH {| remote := <[p := [t]]> (remote l); invites := <[invite_key p "x" := [t]]> (invites l) |} Hnd) as (bs & l' & E & Hsz & Hb).
    - intros q Hq. cbn. destruct (Hf q) as [Q1 Q2]; [by right|]. rewrite !lookup_insert_ne; [done|intros E|intros ->; done].
      apply (f_equal list_ascii_of_string) in E. unfold invite_key in E. rewrite !list_ascii_app in E. apply app_inv_tail in E.
      apply (f_equal string_of_list_ascii) in E. rewrite !string_of_list_ascii_of_string in E. by subst.
    - cbn. intros q v [[_ <-]|[_ Hq]]%lookup_insert_Some; [done|by eapply Hr].
    - cbn. intros k v [[_ <-]|[_ Hk]]%lookup_insert_Some; [done|by eapply Hi].
    - rewrite E. exists (true :: bs), l'. split_and!; [done| |by constructor]. rewrite Hsz. cbn. rewrite (map_size_insert_None _ _ _ Fr). lia. }
  intros ps Hnd. destruct (H ps no_joins Hnd) as (bs & l & E & Hs & Hb); [done|done|done|]. exists bs, l. by rewrite Hs.
Qed.
