(* ===== verification/CollabStore.v ===== *)
(** The tables of collaboration between daemons and what is done to them: the store
    (store/sqlite/collaboration_*.go with migrations 136 and 137), the authorizer and the
    manager of internal/collaboration, and the rows of neighbours they read.

    A function is one transaction, or one statement: it answers the tables it leaves, or
    nothing where it fails, which changes nothing.  Instants are whole seconds, to which
    every call truncates its own.  Timestamps that nothing reads are left out, and so are the
    constraints of grants, which are the empty object wherever the program writes them.  What
    the random source mints is an argument.  The audit ledger keeps the values its details
    are made of, the newest event first. *)

From Stdlib Require Import Ascii String.
From stdpp Require Import base list option gmap strings.
From S2P Require Import Prelude GoStrings DeviceProof.

#[local] Open Scope string_scope.
#[local] Open Scope list_scope.
#[local] Open Scope Z_scope.

(** ** Rows *)

Record Principal := {
  p_Kind : string; p_DisplayName : string; p_Status : string; ControllingPrincipalID : string; IsLocalOwner : bool; p_RevokedAt : option Z }.

Record IdentityKey := {
  k_PrincipalID : string; CanonicalPublicKey : string; k_Fingerprint : string; k_Algorithm : string; k_Status : string; ReplacesKeyID : string;
  AddedByPrincipalID : string; k_VerifiedAt : option Z; k_RevokedAt : option Z }.

(** By peer, which is unique. *)
Record Device := {
  d_ID : string; d_PrincipalID : string; d_IdentityKeyID : string; d_DisplayName : string; d_Kind : string; d_Status : string;
  BindingVersion : string; BindingTranscriptHash : string; BindingSignature : string; d_VerifiedAt : option Z; d_RevokedAt : option Z }.

Record Invitation := {
  TokenHash : string; Purpose : string; i_PrincipalID : string; i_IdentityKeyID : string; i_CreatedBy : string; i_CreatedAt : Z; i_ExpiresAt : Z;
  i_ConsumedAt : option Z; ConsumedByPeerID : string; i_RevokedAt : option Z }.

Record Challenge := {
  h_InvitationID : string; h_Initiator : string; h_Responder : string; NonceHash : string; TranscriptHash : string; h_IssuedAt : Z; h_ExpiresAt : Z;
  h_ConsumedAt : option Z }.

Record InvitationGrant := { s_InvitationID : string; s_ShareID : string; s_Capability : string; s_ExpiresAt : option Z }.

Record Share := { LocalWorkspaceID : string; HomePeerID : string; OwnerPrincipalID : string; w_Status : string; AccessEpoch : Z }.

Record Grant := {
  g_ShareID : string; g_PrincipalID : string; g_Capability : string; g_CreatedBy : string; GrantedEpoch : Z; g_ExpiresAt : option Z; g_RevokedAt : option Z }.

Record Policy := { DefaultVisibility : string; AgentVisibilityCeiling : string; WideningRequiresApproval : bool; EgressProfile : string; UpdatedBy : string }.

(** The columns of a task that decide who reads it. *)
Record Task := { t_WorkspaceID : string; t_Owner : string; Visibility : string; VisibilityEpoch : Z; VisibilityUpdatedBy : string; Deleted : bool }.

Record AudienceRow := { a_TaskID : string; a_PrincipalID : string; a_AddedBy : string; a_Epoch : Z; a_RevokedAt : option Z }.

Record Disclosure := {
  x_TaskID : string; x_ShareID : string; x_PrincipalID : string; x_DeviceID : string; x_PeerID : string; x_AccessEpoch : Z; x_VisibilityEpoch : Z;
  ProjectionSHA256 : string; ProjectionBytes : Z; x_EgressProfile : string }.

(** What a joined daemon knows of a share hosted elsewhere. *)
Record Membership := {
  m_HomePeerID : string; RemoteWorkspaceID : string; m_LocalWorkspaceID : string; m_WorkspaceName : string; m_Capabilities : list string;
  m_AccessEpoch : Z; CursorHLC : string; m_Status : string }.

Inductive details :=
| Capabilities (capabilities : list string) (access_epoch : Z)
| RevokedShares (reason : string) (share_ids : list string)
| Other.

Record AuditEvent := { ShareID : string; Event : string; ActorPrincipalID : string; ActorPeerID : string; SubjectKind : string; SubjectID : string; Details : details }.

Record db := {
  principals : gmap string Principal;
  keys : gmap string IdentityKey;
  devices : gmap string Device;
  invitations : gmap string Invitation;
  challenges : gmap string Challenge;
  staged : list InvitationGrant;
  shares : gmap string Share;
  grants : list Grant;
  policies : gmap string Policy;
  tasks : gmap string Task;
  audience : list AudienceRow;
  disclosures : list Disclosure;
  memberships : gmap string Membership;
  audit : list AuditEvent }.

Definition set_principals x (d : db) : db := {|
  principals := x; keys := keys d; devices := devices d; invitations := invitations d; challenges := challenges d; staged := staged d; shares := shares d; grants := grants d; policies := policies d; tasks := tasks d; audience := audience d; disclosures := disclosures d; memberships := memberships d; audit := audit d |}.
Definition set_keys x (d : db) : db := {|
  principals := principals d; keys := x; devices := devices d; invitations := invitations d; challenges := challenges d; staged := staged d; shares := shares d; grants := grants d; policies := policies d; tasks := tasks d; audience := audience d; disclosures := disclosures d; memberships := memberships d; audit := audit d |}.
Definition set_devices x (d : db) : db := {|
  principals := principals d; keys := keys d; devices := x; invitations := invitations d; challenges := challenges d; staged := staged d; shares := shares d; grants := grants d; policies := policies d; tasks := tasks d; audience := audience d; disclosures := disclosures d; memberships := memberships d; audit := audit d |}.
Definition set_invitations x (d : db) : db := {|
  principals := principals d; keys := keys d; devices := devices d; invitations := x; challenges := challenges d; staged := staged d; shares := shares d; grants := grants d; policies := policies d; tasks := tasks d; audience := audience d; disclosures := disclosures d; memberships := memberships d; audit := audit d |}.
Definition set_challenges x (d : db) : db := {|
  principals := principals d; keys := keys d; devices := devices d; invitations := invitations d; challenges := x; staged := staged d; shares := shares d; grants := grants d; policies := policies d; tasks := tasks d; audience := audience d; disclosures := disclosures d; memberships := memberships d; audit := audit d |}.
Definition set_staged x (d : db) : db := {|
  principals := principals d; keys := keys d; devices := devices d; invitations := invitations d; challenges := challenges d; staged := x; shares := shares d; grants := grants d; policies := policies d; tasks := tasks d; audience := audience d; disclosures := disclosures d; memberships := memberships d; audit := audit d |}.
Definition set_shares x (d : db) : db := {|
  principals := principals d; keys := keys d; devices := devices d; invitations := invitations d; challenges := challenges d; staged := staged d; shares := x; grants := grants d; policies := policies d; tasks := tasks d; audience := audience d; disclosures := disclosures d; memberships := memberships d; audit := audit d |}.
Definition set_grants x (d : db) : db := {|
  principals := principals d; keys := keys d; devices := devices d; invitations := invitations d; challenges := challenges d; staged := staged d; shares := shares d; grants := x; policies := policies d; tasks := tasks d; audience := audience d; disclosures := disclosures d; memberships := memberships d; audit := audit d |}.
Definition set_policies x (d : db) : db := {|
  principals := principals d; keys := keys d; devices := devices d; invitations := invitations d; challenges := challenges d; staged := staged d; shares := shares d; grants := grants d; policies := x; tasks := tasks d; audience := audience d; disclosures := disclosures d; memberships := memberships d; audit := audit d |}.
Definition set_tasks x (d : db) : db := {|
  principals := principals d; keys := keys d; devices := devices d; invitations := invitations d; challenges := challenges d; staged := staged d; shares := shares d; grants := grants d; policies := policies d; tasks := x; audience := audience d; disclosures := disclosures d; memberships := memberships d; audit := audit d |}.
Definition set_audience x (d : db) : db := {|
  principals := principals d; keys := keys d; devices := devices d; invitations := invitations d; challenges := challenges d; staged := staged d; shares := shares d; grants := grants d; policies := policies d; tasks := tasks d; audience := x; disclosures := disclosures d; memberships := memberships d; audit := audit d |}.
Definition set_disclosures x (d : db) : db := {|
  principals := principals d; keys := keys d; devices := devices d; invitations := invitations d; challenges := challenges d; staged := staged d; shares := shares d; grants := grants d; policies := policies d; tasks := tasks d; audience := audience d; disclosures := x; memberships := memberships d; audit := audit d |}.
Definition set_memberships x (d : db) : db := {|
  principals := principals d; keys := keys d; devices := devices d; invitations := invitations d; challenges := challenges d; staged := staged d; shares := shares d; grants := grants d; policies := policies d; tasks := tasks d; audience := audience d; disclosures := disclosures d; memberships := x; audit := audit d |}.
Definition set_audit x (d : db) : db := {|
  principals := principals d; keys := keys d; devices := devices d; invitations := invitations d; challenges := challenges d; staged := staged d; shares := shares d; grants := grants d; policies := policies d; tasks := tasks d; audience := audience d; disclosures := disclosures d; memberships := memberships d; audit := x |}.

Definition empty_db : db := {|
  principals := ∅; keys := ∅; devices := ∅; invitations := ∅; challenges := ∅; staged := []; shares := ∅; grants := []; policies := ∅; tasks := ∅;
  audience := []; disclosures := []; memberships := ∅; audit := [] |}.

(** ** Values *)

Definition StatusPending := "pending".
Definition StatusActive := "active".
Definition StatusLegacy := "legacy_unverified".
Definition StatusRevoked := "revoked".

Definition validPrincipalKind (kind : string) : bool := bool_decide (kind ∈ ["person"; "machine"]).
Definition validPrincipalStatus (s : string) : bool := bool_decide (s ∈ [StatusPending; StatusActive; StatusLegacy; StatusRevoked]).
Definition validPrincipalKeyStatus (s : string) : bool := bool_decide (s ∈ [StatusPending; StatusActive; StatusRevoked]).
Definition validDeviceKind (kind : string) : bool := bool_decide (kind ∈ ["laptop"; "server"; "daemon"; "unknown"]).
Definition validInvitationPurpose (p : string) : bool := bool_decide (p ∈ ["new_principal"; "add_device"; "rotate_key"]).
Definition ValidTaskVisibility (v : string) : bool := bool_decide (v ∈ ["private"; "restricted"; "workspace"]).

Definition CapabilityWorkspaceView := "workspace.view".
Definition CapabilityTasksRead := "tasks.read".

Definition ValidWorkspaceCapability (c : string) : bool :=
  bool_decide (c ∈ ["workspace.view"; "tasks.read"; "tasks.create"; "tasks.publish"; "tasks.comment"; "tasks.edit"; "tasks.assign"; "tasks.share"; "tasks.delete";
                    "evidence.read"; "mesh.read"; "mesh.send"; "worker.trigger"; "workspace.admin"]).

Definition requiredLabel (value : string) : option string :=
  let value := TrimSpace value in
  if bool_decide (value = "") || (512 <? Z.of_nat (String.length value)) || containsLineBreakOrNUL value then None else Some value.

(** A lower-case SHA-256 in hex. *)
Definition valid_hash (h : string) : bool :=
  (Z.of_nat (String.length h) =? 64) && forallb (fun a => byte_in 48 57 a || byte_in 97 102 a) (list_ascii_of_string h).

Definition length_is (n : Z) (s : string) : bool := Z.of_nat (String.length s) =? n.
Definition nonempty (s : string) : bool := negb (bool_decide (s = "")).

Definition need (b : bool) : option unit := if b then Some tt else None.

Definition later (t : option Z) (at_ : Z) : bool := match t with None => true | Some t => at_ <? t end.
Definition unset {A} (o : option A) : bool := match o with None => true | Some _ => false end.

Definition visibilityRank (v : string) : Z :=
  if bool_decide (v = "private") then 0 else if bool_decide (v = "restricted") then 1 else if bool_decide (v = "workspace") then 2 else 99.

(** A table keeps its rows by key: an insertion of a key in use fails. *)
Definition insert_row {A} (k : string) (x : A) (m : gmap string A) : option (gmap string A) :=
  match m !! k with None => Some (<[k := x]> m) | Some _ => None end.

Definition exists_row {A} (k : string) (m : gmap string A) : bool := bool_decide (is_Some (m !! k)).
Definition reference {A} (k : string) (m : gmap string A) : bool := bool_decide (k = "") || exists_row k m.
Definition any_row {A} (f : A -> bool) (m : gmap string A) : bool := existsb (fun kv => f kv.2) (map_to_list m).

(** ** The audit ledger *)

Definition localOwner (d : db) : option string :=
  fst <$> List.find (fun kv => IsLocalOwner kv.2 && bool_decide (p_Status kv.2 = StatusActive) && unset (p_RevokedAt kv.2)) (map_to_list (principals d)).

Definition localOwnerPrincipalID (d : db) : string := default "" (localOwner d).

Definition appendCollaborationAudit (e : AuditEvent) (d : db) : option db :=
  event ← requiredLabel (Event e); kind ← requiredLabel (SubjectKind e); subject ← requiredLabel (SubjectID e);
  _ ← need (reference (ShareID e) (shares d) && reference (ActorPrincipalID e) (principals d));
  Some (set_audit ({| ShareID := ShareID e; Event := event; ActorPrincipalID := ActorPrincipalID e; ActorPeerID := ActorPeerID e; SubjectKind := kind;
                      SubjectID := subject; Details := Details e |} :: audit d) d).

Definition event_of (share name actor peer kind subject : string) (dt : details) : AuditEvent := {|
  ShareID := share; Event := name; ActorPrincipalID := actor; ActorPeerID := peer; SubjectKind := kind; SubjectID := subject; Details := dt |}.

(** ** Principals *)

(** At most one row is the local owner's. *)
Definition CreatePrincipal (id : string) (p : Principal) (d : db) : option db :=
  _ ← need (validPrincipalKind (p_Kind p) && validPrincipalStatus (p_Status p));
  name ← requiredLabel (p_DisplayName p);
  _ ← need (negb (IsLocalOwner p) || (bool_decide (p_Kind p = "person") && bool_decide (p_Status p = StatusActive)));
  _ ← need (negb (bool_decide (p_Kind p = "machine")) || nonempty (ControllingPrincipalID p));
  _ ← need (negb (bool_decide (p_Kind p = "person")) || bool_decide (ControllingPrincipalID p = ""));
  _ ← need (eqb (bool_decide (p_Status p = StatusRevoked)) (negb (unset (p_RevokedAt p))));
  _ ← need (reference (ControllingPrincipalID p) (principals d));
  _ ← need (negb (IsLocalOwner p) || negb (any_row IsLocalOwner (principals d)));
  t ← insert_row id {| p_Kind := p_Kind p; p_DisplayName := name; p_Status := p_Status p; ControllingPrincipalID := ControllingPrincipalID p;
                       IsLocalOwner := IsLocalOwner p; p_RevokedAt := p_RevokedAt p |} (principals d);
  Some (set_principals t d).

Definition with_name (name : string) (p : Principal) : Principal := {|
  p_Kind := p_Kind p; p_DisplayName := name; p_Status := p_Status p; ControllingPrincipalID := ControllingPrincipalID p; IsLocalOwner := IsLocalOwner p;
  p_RevokedAt := p_RevokedAt p |}.

Definition UpdatePrincipalDisplayName (id name : string) (d : db) : option db :=
  name ← requiredLabel name; p ← principals d !! id; Some (set_principals (<[id := with_name name p]> (principals d)) d).

(** [status = 'active'] of a row that is still to be proved. *)
Definition activated (p : Principal) : Principal := {|
  p_Kind := p_Kind p; p_DisplayName := p_DisplayName p;
  p_Status := if bool_decide (p_Status p ∈ [StatusPending; StatusLegacy]) then StatusActive else p_Status p;
  ControllingPrincipalID := ControllingPrincipalID p; IsLocalOwner := IsLocalOwner p; p_RevokedAt := p_RevokedAt p |}.

Definition p_revoked (at_ : Z) (p : Principal) : Principal := {|
  p_Kind := p_Kind p; p_DisplayName := p_DisplayName p; p_Status := StatusRevoked; ControllingPrincipalID := ControllingPrincipalID p; IsLocalOwner := false;
  p_RevokedAt := Some at_ |}.

Definition d_revoked (at_ : Z) (x : Device) : Device := {|
  d_ID := d_ID x; d_PrincipalID := d_PrincipalID x; d_IdentityKeyID := d_IdentityKeyID x; d_DisplayName := d_DisplayName x; d_Kind := d_Kind x;
  d_Status := StatusRevoked; BindingVersion := BindingVersion x; BindingTranscriptHash := BindingTranscriptHash x; BindingSignature := BindingSignature x;
  d_VerifiedAt := d_VerifiedAt x; d_RevokedAt := Some at_ |}.

Definition k_revoked (at_ : Z) (k : IdentityKey) : IdentityKey := {|
  k_PrincipalID := k_PrincipalID k; CanonicalPublicKey := CanonicalPublicKey k; k_Fingerprint := k_Fingerprint k; k_Algorithm := k_Algorithm k;
  k_Status := StatusRevoked; ReplacesKeyID := ReplacesKeyID k; AddedByPrincipalID := AddedByPrincipalID k; k_VerifiedAt := k_VerifiedAt k; k_RevokedAt := Some at_ |}.

Definition i_revoked (at_ : Z) (i : Invitation) : Invitation := {|
  TokenHash := TokenHash i; Purpose := Purpose i; i_PrincipalID := i_PrincipalID i; i_IdentityKeyID := i_IdentityKeyID i; i_CreatedBy := i_CreatedBy i;
  i_CreatedAt := i_CreatedAt i; i_ExpiresAt := i_ExpiresAt i; i_ConsumedAt := i_ConsumedAt i; ConsumedByPeerID := ConsumedByPeerID i; i_RevokedAt := Some at_ |}.

Definition g_revoked (at_ : Z) (g : Grant) : Grant := {|
  g_ShareID := g_ShareID g; g_PrincipalID := g_PrincipalID g; g_Capability := g_Capability g; g_CreatedBy := g_CreatedBy g; GrantedEpoch := GrantedEpoch g;
  g_ExpiresAt := g_ExpiresAt g; g_RevokedAt := Some at_ |}.

Definition bumped (s : Share) : Share := {|
  LocalWorkspaceID := LocalWorkspaceID s; HomePeerID := HomePeerID s; OwnerPrincipalID := OwnerPrincipalID s; w_Status := w_Status s; AccessEpoch := AccessEpoch s + 1 |}.

(** UPDATE ... WHERE, on a table by key and on a list. *)
Definition update_map {A} (w : A -> bool) (f : A -> A) (m : gmap string A) : gmap string A := (fun x => if w x then f x else x) <$> m.
Definition update_list {A} (w : A -> bool) (f : A -> A) (l : list A) : list A := map (fun x => if w x then f x else x) l.

Definition open_grant (share principal : string) (g : Grant) : bool :=
  bool_decide (g_ShareID g = share) && bool_decide (g_PrincipalID g = principal) && unset (g_RevokedAt g).

Definition activeGrantShareIDs (principal : string) (d : db) : list string :=
  remove_dups (map g_ShareID (List.filter (fun g => bool_decide (g_PrincipalID g = principal) && unset (g_RevokedAt g)) (grants d))).

Definition RevokePrincipal (id reason : string) (at_ : Z) (d : db) : option db :=
  _ ← need (nonempty (TrimSpace reason));
  p ← principals d !! id;
  _ ← need (negb (IsLocalOwner p));
  if bool_decide (p_Status p = StatusRevoked) then Some d
  else
    let actor := localOwnerPrincipalID d in
    let share_ids := activeGrantShareIDs id d in
    let d := set_grants (update_list (fun g => bool_decide (g_PrincipalID g = id) && unset (g_RevokedAt g)) (g_revoked at_) (grants d)) d in
    let d := set_shares (foldr (fun s m => alter bumped s m) (shares d) share_ids) d in
    let d := set_devices (update_map (fun x => bool_decide (d_PrincipalID x = id) && negb (bool_decide (d_Status x = StatusRevoked))) (d_revoked at_) (devices d)) d in
    let d := set_keys (update_map (fun k => bool_decide (k_PrincipalID k = id) && negb (bool_decide (k_Status k = StatusRevoked))) (k_revoked at_) (keys d)) d in
    let d := set_invitations (update_map (fun i => bool_decide (i_PrincipalID i = id) && unset (i_ConsumedAt i) && unset (i_RevokedAt i)) (i_revoked at_) (invitations d)) d in
    let d := set_principals (alter (p_revoked at_) id (principals d)) d in
    appendCollaborationAudit (event_of "" "principal.revoked" actor "" "principal" id (RevokedShares (TrimSpace reason) share_ids)) d.

(** ** Keys and devices *)

Definition AddPrincipalIdentityKey (id : string) (k : IdentityKey) (d : db) : option db :=
  _ ← need (bool_decide (k_Algorithm k = "ssh-ed25519") && validPrincipalKeyStatus (k_Status k));
  let public := TrimSpace (CanonicalPublicKey k) in
  let fingerprint := TrimSpace (k_Fingerprint k) in
  _ ← need (HasPrefix public "ssh-ed25519 " && nonempty fingerprint && nonempty (k_PrincipalID k));
  _ ← need (negb (bool_decide (k_Status k = StatusActive)) || negb (unset (k_VerifiedAt k)));
  _ ← need (eqb (bool_decide (k_Status k = StatusRevoked)) (negb (unset (k_RevokedAt k))));
  _ ← need (exists_row (k_PrincipalID k) (principals d) && reference (ReplacesKeyID k) (keys d) && reference (AddedByPrincipalID k) (principals d));
  _ ← need (negb (any_row (fun k' => bool_decide (k_Fingerprint k' = fingerprint)) (keys d)));
  t ← insert_row id {| k_PrincipalID := k_PrincipalID k; CanonicalPublicKey := public; k_Fingerprint := fingerprint; k_Algorithm := k_Algorithm k;
                       k_Status := k_Status k; ReplacesKeyID := ReplacesKeyID k; AddedByPrincipalID := AddedByPrincipalID k; k_VerifiedAt := k_VerifiedAt k;
                       k_RevokedAt := k_RevokedAt k |} (keys d);
  Some (set_keys t d).

Definition GetPrincipalIdentityKeyByFingerprint (fingerprint : string) (d : db) : option (string * IdentityKey) :=
  List.find (fun kv => bool_decide (k_Fingerprint kv.2 = fingerprint)) (map_to_list (keys d)).

Definition RevokePrincipalIdentityKey (id : string) (at_ : Z) (d : db) : option db :=
  k ← keys d !! id;
  if bool_decide (k_Status k = StatusRevoked) then Some d
  else
    let actor := localOwnerPrincipalID d in
    let d := set_devices (update_map (fun x => bool_decide (d_IdentityKeyID x = id) && bool_decide (d_Status x = StatusActive)) (d_revoked at_) (devices d)) d in
    let d := set_keys (<[id := k_revoked at_ k]> (keys d)) d in
    appendCollaborationAudit (event_of "" "identity_key.revoked" actor "" "identity_key" id Other) d.

Definition RevokePrincipalDevice (peer reason : string) (at_ : Z) (d : db) : option db :=
  _ ← need (nonempty (TrimSpace reason));
  x ← devices d !! peer;
  if bool_decide (d_Status x = StatusRevoked) then Some d
  else
    let actor := localOwnerPrincipalID d in
    let d := set_devices (<[peer := d_revoked at_ x]> (devices d)) d in
    appendCollaborationAudit (event_of "" "device.revoked" actor "" "device" (d_ID x) Other) d.

(** A peer speaks for a principal while its device, the principal and the key are all
    active. *)
Definition ResolveActivePrincipalForPeer (peer : string) (d : db) : option (Device * Principal) :=
  x ← devices d !! peer; p ← principals d !! d_PrincipalID x; k ← keys d !! d_IdentityKeyID x;
  if bool_decide (d_Status x = StatusActive) && unset (d_RevokedAt x) && bool_decide (p_Status p = StatusActive) && unset (p_RevokedAt p) &&
     bool_decide (k_Status k = StatusActive) && unset (k_RevokedAt k)
  then Some (x, p) else None.

(** ** Invitations *)

Definition validateInvitationLifecycle (purpose principalStatus keyStatus : string) : bool :=
  if bool_decide (purpose = "new_principal") then bool_decide (principalStatus ∈ [StatusPending; StatusLegacy]) && bool_decide (keyStatus = StatusPending)
  else if bool_decide (purpose = "add_device") then bool_decide (principalStatus = StatusActive) && bool_decide (keyStatus = StatusActive)
  else if bool_decide (purpose = "rotate_key") then bool_decide (principalStatus = StatusActive) && bool_decide (keyStatus = StatusPending)
  else false.

Fixpoint prepare_grants (invitationID : string) (expires : Z) (seen : list (string * string)) (gs : list InvitationGrant) : option (list InvitationGrant) :=
  match gs with
  | [] => Some []
  | g :: gs =>
      let key := (s_ShareID g, s_Capability g) in
      _ ← need (nonempty (s_ShareID g) && ValidWorkspaceCapability (s_Capability g) && negb (bool_decide (key ∈ seen)) &&
                match s_ExpiresAt g with Some t => expires <? t | None => true end);
      rest ← prepare_grants invitationID expires (key :: seen) gs;
      Some ({| s_InvitationID := invitationID; s_ShareID := s_ShareID g; s_Capability := s_Capability g; s_ExpiresAt := s_ExpiresAt g |} :: rest)
  end.

Definition prepareInvitationGrants (invitationID : string) (expires : Z) (gs : list InvitationGrant) : option (list InvitationGrant) :=
  prepare_grants invitationID expires [] gs.

Definition CreatePrincipalInvitation (id : string) (i : Invitation) (gs : list InvitationGrant) (d : db) : option db :=
  _ ← need (validInvitationPurpose (Purpose i) && length_is 32 (TokenHash i));
  _ ← need (nonempty (i_PrincipalID i) && nonempty (i_IdentityKeyID i) && nonempty (i_CreatedBy i));
  _ ← need (unset (i_ConsumedAt i) && unset (i_RevokedAt i) && bool_decide (ConsumedByPeerID i = ""));
  _ ← need (i_CreatedAt i <? i_ExpiresAt i);
  _ ← need (bool_decide (Purpose i = "new_principal") || bool_decide (gs = []));
  prepared ← prepareInvitationGrants id (i_ExpiresAt i) gs;
  principal ← principals d !! i_PrincipalID i;
  key ← keys d !! i_IdentityKeyID i;
  actor ← principals d !! i_CreatedBy i;
  _ ← need (bool_decide (k_PrincipalID key = i_PrincipalID i) && bool_decide (p_Status actor = StatusActive));
  _ ← need (validateInvitationLifecycle (Purpose i) (p_Status principal) (k_Status key));
  _ ← need (negb (any_row (fun i' => bool_decide (TokenHash i' = TokenHash i)) (invitations d)));
  t ← insert_row id i (invitations d);
  _ ← need (forallb (fun g => exists_row (s_ShareID g) (shares d)) prepared);
  Some (set_staged (staged d ++ prepared) (set_invitations t d)).

Definition RevokePrincipalInvitation (id : string) (at_ : Z) (d : db) : option db :=
  i ← invitations d !! id;
  _ ← need (unset (i_ConsumedAt i));
  if negb (unset (i_RevokedAt i)) then Some d
  else appendCollaborationAudit (event_of "" "invitation.revoked" (localOwnerPrincipalID d) "" "invitation" id Other)
         (set_invitations (<[id := i_revoked at_ i]> (invitations d)) d).

(** [CreatePrincipalIdentityChallenge] looks at the invitation, then inserts. *)
Definition challenge_valid (id : string) (h : Challenge) : bool :=
  nonempty id && nonempty (h_InvitationID h) && nonempty (h_Initiator h) && nonempty (h_Responder h) && length_is 32 (NonceHash h) &&
  valid_hash (TranscriptHash h) && (h_IssuedAt h <? h_ExpiresAt h) && (h_ExpiresAt h - h_IssuedAt h <=? 5 * 60) && unset (h_ConsumedAt h).

Definition challenge_pending (h : Challenge) (d : db) : bool :=
  match invitations d !! h_InvitationID h with
  | Some i => unset (i_ConsumedAt i) && unset (i_RevokedAt i) && (h_IssuedAt h <? i_ExpiresAt i)
  | None => false
  end.

Definition insert_challenge (id : string) (h : Challenge) (d : db) : option db :=
  _ ← need (exists_row (h_InvitationID h) (invitations d)); t ← insert_row id h (challenges d); Some (set_challenges t d).

(** ** Activation *)

Record InvitedDeviceActivation := {
  v_InvitationID : string; v_TokenHash : string; v_ChallengeID : string; v_PeerID : string; v_ResponderPeerID : string; v_DisplayName : string;
  v_DeviceKind : string; v_BindingVersion : string; v_TranscriptHash : string; v_Signature : string; v_At : Z; v_DeviceID : string }.

Definition validateActivation (v : InvitedDeviceActivation) : bool :=
  nonempty (v_InvitationID v) && length_is 32 (v_TokenHash v) && nonempty (v_ChallengeID v) && nonempty (v_PeerID v) && nonempty (v_ResponderPeerID v) &&
  validDeviceKind (v_DeviceKind v) && bool_decide (v_BindingVersion v = DeviceBindingTranscriptVersion) && nonempty (v_Signature v) && valid_hash (v_TranscriptHash v).

Definition h_consumed (at_ : Z) (h : Challenge) : Challenge := {|
  h_InvitationID := h_InvitationID h; h_Initiator := h_Initiator h; h_Responder := h_Responder h; NonceHash := NonceHash h; TranscriptHash := TranscriptHash h;
  h_IssuedAt := h_IssuedAt h; h_ExpiresAt := h_ExpiresAt h; h_ConsumedAt := Some at_ |}.

Definition i_consumed (at_ : Z) (peer : string) (i : Invitation) : Invitation := {|
  TokenHash := TokenHash i; Purpose := Purpose i; i_PrincipalID := i_PrincipalID i; i_IdentityKeyID := i_IdentityKeyID i; i_CreatedBy := i_CreatedBy i;
  i_CreatedAt := i_CreatedAt i; i_ExpiresAt := i_ExpiresAt i; i_ConsumedAt := Some at_; ConsumedByPeerID := peer; i_RevokedAt := i_RevokedAt i |}.

Definition consumeInvitationAndChallenge (invitationID challengeID peer : string) (at_ : Z) (d : db) : option db :=
  h ← challenges d !! challengeID;
  _ ← need (bool_decide (h_InvitationID h = invitationID) && unset (h_ConsumedAt h));
  i ← invitations d !! invitationID;
  _ ← need (unset (i_ConsumedAt i) && unset (i_RevokedAt i) && (at_ <? i_ExpiresAt i));
  Some (set_invitations (<[invitationID := i_consumed at_ peer i]> (invitations d)) (set_challenges (<[challengeID := h_consumed at_ h]> (challenges d)) d)).

Definition bound_device (id name : string) (i : Invitation) (v : InvitedDeviceActivation) : Device := {|
  d_ID := id; d_PrincipalID := i_PrincipalID i; d_IdentityKeyID := i_IdentityKeyID i; d_DisplayName := name; d_Kind := v_DeviceKind v; d_Status := StatusActive;
  BindingVersion := v_BindingVersion v; BindingTranscriptHash := v_TranscriptHash v; BindingSignature := v_Signature v; d_VerifiedAt := Some (v_At v);
  d_RevokedAt := None |}.

(** A new peer; a device of the principal that is active, for another key; or a device the
    migration left unverified.  Anything else is a conflict. *)
Definition bindInvitedDevice (i : Invitation) (v : InvitedDeviceActivation) (d : db) : option (Device * db) :=
  name ← requiredLabel (v_DisplayName v);
  let put id := let x := bound_device id name i v in Some (x, set_devices (<[v_PeerID v := x]> (devices d)) d) in
  match devices d !! v_PeerID v with
  | None => put (v_DeviceID v)
  | Some x =>
      if bool_decide (d_Status x = StatusActive) && bool_decide (d_PrincipalID x = i_PrincipalID i) && bool_decide (Purpose i ∈ ["rotate_key"; "add_device"])
      then put (d_ID x)
      else if negb (bool_decide (d_Status x = StatusLegacy)) || negb (bool_decide (d_PrincipalID x = i_PrincipalID i)) then None
      else put (d_ID x)
  end.

(** The unique index on open grants. *)
Definition insertWorkspaceGrant (g : Grant) (d : db) : option db :=
  _ ← need (exists_row (g_ShareID g) (shares d) && exists_row (g_PrincipalID g) (principals d) && exists_row (g_CreatedBy g) (principals d) &&
            ValidWorkspaceCapability (g_Capability g) &&
            negb (existsb (fun g' => open_grant (g_ShareID g) (g_PrincipalID g) g' && bool_decide (g_Capability g' = g_Capability g)) (grants d)));
  Some (set_grants (grants d ++ [g]) d).

Fixpoint insert_grants (gs : list Grant) (d : db) : option db := match gs with [] => Some d | g :: gs => d ← insertWorkspaceGrant g d; insert_grants gs d end.

Definition close_grants (share principal : string) (at_ : Z) (d : db) : db := set_grants (update_list (open_grant share principal) (g_revoked at_) (grants d)) d.

(** The access of a principal to a share is replaced: the epoch moves, what was open is
    closed, the new grants carry the epoch, and the ledger says so. *)
Definition replace_grants (share principal actor event : string) (new : list (string * option Z)) (at_ : Z) (d : db) : option db :=
  s ← shares d !! share;
  _ ← need (bool_decide (w_Status s = StatusActive));
  let d := set_shares (<[share := bumped s]> (shares d)) d in
  let epoch := AccessEpoch s + 1 in
  d ← insert_grants (map (fun c => {| g_ShareID := share; g_PrincipalID := principal; g_Capability := c.1; g_CreatedBy := actor; GrantedEpoch := epoch;
                                      g_ExpiresAt := c.2; g_RevokedAt := None |}) new) (close_grants share principal at_ d);
  appendCollaborationAudit (event_of share event actor "" "principal" principal (Capabilities (map fst new) epoch)) d.

Fixpoint apply_shares (i : Invitation) (at_ : Z) (order : list string) (gs : list InvitationGrant) (d : db) : option db :=
  match order with
  | [] => Some d
  | share :: order =>
      let mine := List.filter (fun g => bool_decide (s_ShareID g = share)) gs in
      _ ← need (forallb (fun g => later (s_ExpiresAt g) at_) mine);
      d ← replace_grants share (i_PrincipalID i) (i_CreatedBy i) "workspace.grants.activated" (map (fun g => (s_Capability g, s_ExpiresAt g)) mine) at_ d;
      apply_shares i at_ order gs d
  end.

Definition staged_before (a b : InvitationGrant) : bool :=
  if bool_decide (s_ShareID a = s_ShareID b) then String.ltb (s_Capability a) (s_Capability b) else String.ltb (s_ShareID a) (s_ShareID b).

Definition listInvitationGrants (id : string) (d : db) : list InvitationGrant :=
  SliceStable staged_before (List.filter (fun g => bool_decide (s_InvitationID g = id)) (staged d)).

(** The shares in the order the grants name them. *)
Definition first_seen (l : list string) : list string := foldl (fun acc s => if bool_decide (s ∈ acc) then acc else acc ++ [s]) [] l.

Definition applyInvitationGrants (id : string) (i : Invitation) (at_ : Z) (d : db) : option db :=
  let gs := listInvitationGrants id d in apply_shares i at_ (first_seen (map s_ShareID gs)) gs d.

Definition k_verified (at_ : Z) (k : IdentityKey) : IdentityKey := {|
  k_PrincipalID := k_PrincipalID k; CanonicalPublicKey := CanonicalPublicKey k; k_Fingerprint := k_Fingerprint k; k_Algorithm := k_Algorithm k;
  k_Status := StatusActive; ReplacesKeyID := ReplacesKeyID k; AddedByPrincipalID := AddedByPrincipalID k; k_VerifiedAt := Some at_; k_RevokedAt := k_RevokedAt k |}.

Definition challenge_matches (invitationID : string) (v : InvitedDeviceActivation) (h : Challenge) : bool :=
  bool_decide (h_InvitationID h = invitationID) && bool_decide (h_Initiator h = v_PeerID v) && bool_decide (h_Responder h = v_ResponderPeerID v) &&
  bool_decide (TranscriptHash h = v_TranscriptHash v) && unset (h_ConsumedAt h) && (v_At v <=? h_ExpiresAt h + 30) && (h_IssuedAt h - 30 <=? v_At v).

Definition ActivateInvitedDevice (v : InvitedDeviceActivation) (d : db) : option (Device * db) :=
  let at_ := v_At v in
  _ ← need (validateActivation v);
  i ← invitations d !! v_InvitationID v;
  _ ← need (bool_decide (TokenHash i = v_TokenHash v));
  _ ← need (unset (i_ConsumedAt i) && unset (i_RevokedAt i) && (at_ <? i_ExpiresAt i));
  principal ← principals d !! i_PrincipalID i;
  key ← keys d !! i_IdentityKeyID i;
  _ ← need (bool_decide (k_PrincipalID key = i_PrincipalID i) && validateInvitationLifecycle (Purpose i) (p_Status principal) (k_Status key));
  challenge ← challenges d !! v_ChallengeID v;
  _ ← need (challenge_matches (v_InvitationID v) v challenge);
  d ← consumeInvitationAndChallenge (v_InvitationID v) (v_ChallengeID v) (v_PeerID v) at_ d;
  '(x, d) ← bindInvitedDevice i v d;
  let d := if bool_decide (Purpose i = "new_principal") then set_principals (alter activated (i_PrincipalID i) (principals d)) d else d in
  let d := if bool_decide (k_Status key = StatusPending) then set_keys (<[i_IdentityKeyID i := k_verified at_ key]> (keys d)) d else d in
  d ← applyInvitationGrants (v_InvitationID v) i at_ d;
  d ← appendCollaborationAudit (event_of "" "device.activated" (i_PrincipalID i) (v_PeerID v) "device" (d_ID x) Other) d;
  Some (x, d).

(** ** Shares and grants *)

(** [CreateWorkspaceShare] with the policy of a new share: private. *)
Definition CreateWorkspaceShare (id ws peer owner : string) (d : db) : option db :=
  ws ← requiredLabel ws; peer ← requiredLabel peer;
  _ ← need (nonempty id && nonempty owner);
  o ← principals d !! owner;
  _ ← need (bool_decide (p_Status o = StatusActive));
  _ ← need (negb (any_row (fun s => bool_decide (LocalWorkspaceID s = ws)) (shares d)));
  t ← insert_row id {| LocalWorkspaceID := ws; HomePeerID := peer; OwnerPrincipalID := owner; w_Status := StatusActive; AccessEpoch := 1 |} (shares d);
  Some (set_policies (<[id := {| DefaultVisibility := "private"; AgentVisibilityCeiling := "private"; WideningRequiresApproval := true;
                                 EgressProfile := "task-safe-v1"; UpdatedBy := owner |}]> (policies d)) (set_shares t d)).

Definition GetWorkspaceShareByLocalWorkspaceID (ws : string) (d : db) : option (string * Share) :=
  List.find (fun kv => bool_decide (LocalWorkspaceID kv.2 = ws)) (map_to_list (shares d)).

Fixpoint distinct (seen : list string) (l : list string) : bool :=
  match l with [] => true | x :: l => negb (bool_decide (x ∈ seen)) && distinct (x :: seen) l end.

Definition normalizedCapabilities (input : list string) : option (list string) :=
  if forallb ValidWorkspaceCapability input && distinct [] input then Some (SliceStable String.ltb input) else None.

Definition effectiveWorkspaceGrants (gs : list Grant) (at_ : Z) : list Grant := List.filter (fun g => unset (g_RevokedAt g) && later (g_ExpiresAt g) at_) gs.

Definition workspaceGrantSetEqual (current : list Grant) (capabilities : list string) (expires : option Z) : bool :=
  (length current =? length capabilities)%nat &&
  forallb (fun c => existsb (fun g => bool_decide (g_Capability g = c) && bool_decide (g_ExpiresAt g = expires)) current) capabilities.

Record WorkspaceGrantSet := { ws_ShareID : string; ws_PrincipalID : string; ws_Capabilities : list string; ws_CreatedBy : string; ws_ExpiresAt : option Z; ws_At : Z }.

Definition SetWorkspaceGrants (set : WorkspaceGrantSet) (d : db) : option db :=
  let at_ := ws_At set in
  _ ← need (nonempty (ws_ShareID set) && nonempty (ws_PrincipalID set) && nonempty (ws_CreatedBy set));
  _ ← need (later (ws_ExpiresAt set) at_);
  capabilities ← normalizedCapabilities (ws_Capabilities set);
  share ← shares d !! ws_ShareID set;
  _ ← need (bool_decide (w_Status share = StatusActive));
  p ← principals d !! ws_PrincipalID set; _ ← need (bool_decide (p_Status p = StatusActive));
  a ← principals d !! ws_CreatedBy set; _ ← need (bool_decide (p_Status a = StatusActive));
  let effective := effectiveWorkspaceGrants (List.filter (open_grant (ws_ShareID set) (ws_PrincipalID set)) (grants d)) at_ in
  if workspaceGrantSetEqual effective capabilities (ws_ExpiresAt set) then Some d
  else if bool_decide (effective = []) && bool_decide (capabilities = []) then Some (close_grants (ws_ShareID set) (ws_PrincipalID set) at_ d)
  else replace_grants (ws_ShareID set) (ws_PrincipalID set) (ws_CreatedBy set) "workspace.grants.changed" (map (fun c => (c, ws_ExpiresAt set)) capabilities) at_ d.

Definition holds (principal share capability : string) (at_ : Z) (g : Grant) : bool :=
  open_grant share principal g && bool_decide (g_Capability g = capability) && later (g_ExpiresAt g) at_.

(** A name that is no capability is an error, which its callers take for a refusal. *)
Definition HasWorkspaceCapability (principal share capability : string) (at_ : Z) (d : db) : bool :=
  ValidWorkspaceCapability capability && existsb (holds principal share capability at_) (grants d) &&
  match shares d !! share with Some s => bool_decide (w_Status s = StatusActive) | None => false end &&
  match principals d !! principal with Some p => bool_decide (p_Status p = StatusActive) | None => false end.

Definition PutWorkspacePublicationPolicy (share : string) (p : Policy) (allowRemoteEvidence : bool) (d : db) : option db :=
  _ ← need (nonempty share && nonempty (UpdatedBy p));
  _ ← need (bool_decide (DefaultVisibility p ∈ ["private"; "workspace"]) && ValidTaskVisibility (AgentVisibilityCeiling p) &&
            (visibilityRank (DefaultVisibility p) <=? visibilityRank (AgentVisibilityCeiling p)) && negb allowRemoteEvidence);
  let profile := TrimSpace (EgressProfile p) in
  _ ← need (nonempty profile);
  s ← shares d !! share;
  _ ← need (bool_decide (w_Status s = StatusActive) && bool_decide (OwnerPrincipalID s = UpdatedBy p));
  let p := {| DefaultVisibility := DefaultVisibility p; AgentVisibilityCeiling := AgentVisibilityCeiling p; WideningRequiresApproval := WideningRequiresApproval p;
              EgressProfile := profile; UpdatedBy := UpdatedBy p |} in
  appendCollaborationAudit (event_of share "workspace.policy.changed" (UpdatedBy p) "" "workspace" share Other) (set_policies (<[share := p]> (policies d)) d).

(** ** Who reads a task *)

Record TaskAccess := {
  ac_WorkspaceID : string; ac_ShareID : string; ac_Owner : string; ac_Visibility : string; ac_Epoch : Z; ac_Audience : list string; VisibilityEditable : bool }.

Definition active_share (ws : string) (d : db) : string :=
  match GetWorkspaceShareByLocalWorkspaceID ws d with Some (id, s) => if bool_decide (w_Status s = StatusActive) then id else "" | None => "" end.

Definition open_audience (task : string) (a : AudienceRow) : bool := bool_decide (a_TaskID a = task) && unset (a_RevokedAt a).

Definition audience_of (task : string) (d : db) : list string := SliceStable String.ltb (map a_PrincipalID (List.filter (open_audience task) (audience d))).

Definition GetTaskAccess (task : string) (d : db) : option TaskAccess :=
  t ← tasks d !! task;
  if Deleted t then None
  else let share := active_share (t_WorkspaceID t) d in
       Some {| ac_WorkspaceID := t_WorkspaceID t; ac_ShareID := share; ac_Owner := t_Owner t; ac_Visibility := Visibility t; ac_Epoch := VisibilityEpoch t;
               ac_Audience := audience_of task d;
               VisibilityEditable := negb (any_row (fun m => bool_decide (m_LocalWorkspaceID m = t_WorkspaceID t)) (memberships d)) && nonempty share |}.

Definition may_read_share (principal share : string) (at_ : Z) (d : db) : bool :=
  HasWorkspaceCapability principal share CapabilityWorkspaceView at_ d && HasWorkspaceCapability principal share CapabilityTasksRead at_ d.

(** An error of a lookup is a refusal. *)
Definition CanPrincipalReadTask (principal task : string) (at_ : Z) (d : db) : bool :=
  match principals d !! principal, GetTaskAccess task d with
  | Some p, Some ac =>
      bool_decide (p_Status p = StatusActive) &&
      (IsLocalOwner p || (bool_decide (ac_Visibility ac = "private") && bool_decide (ac_Owner ac = principal)) ||
       (negb (bool_decide (ac_Visibility ac = "private")) && nonempty (ac_ShareID ac) && may_read_share principal (ac_ShareID ac) at_ d &&
        (bool_decide (ac_Visibility ac = "workspace") || bool_decide (principal ∈ ac_Audience ac))))
  | _, _ => false
  end.

Definition normalizedPrincipalIDs (input : list string) : option (list string) :=
  let ids := map TrimSpace input in
  if forallb nonempty ids && distinct [] ids then Some (SliceStable String.ltb ids) else None.

Record TaskVisibilityChange := { e_TaskID : string; e_Visibility : string; e_Audience : list string; e_Actor : string; e_At : Z }.

Definition reaudience (task actor : string) (epoch at_ : Z) (ids : list string) (l : list AudienceRow) : list AudienceRow :=
  update_list (open_audience task) (fun a => {| a_TaskID := a_TaskID a; a_PrincipalID := a_PrincipalID a; a_AddedBy := a_AddedBy a; a_Epoch := a_Epoch a; a_RevokedAt := Some at_ |}) l ++
  map (fun id => {| a_TaskID := task; a_PrincipalID := id; a_AddedBy := actor; a_Epoch := epoch; a_RevokedAt := None |}) ids.

Definition SetTaskVisibility (c : TaskVisibilityChange) (d : db) : option db :=
  _ ← need (nonempty (e_TaskID c) && nonempty (e_Actor c) && ValidTaskVisibility (e_Visibility c));
  ids ← normalizedPrincipalIDs (e_Audience c);
  _ ← need (eqb (bool_decide (e_Visibility c = "restricted")) (negb (bool_decide (ids = []))));
  actor ← principals d !! e_Actor c;
  _ ← need (bool_decide (p_Status actor = StatusActive));
  current ← GetTaskAccess (e_TaskID c) d;
  _ ← need (VisibilityEditable current);
  _ ← need (nonempty (ac_Owner current) || IsLocalOwner actor);
  let owner := if nonempty (ac_Owner current) then ac_Owner current else e_Actor c in
  _ ← need (bool_decide (e_Visibility c = "private") || nonempty (ac_ShareID current));
  _ ← need (forallb (fun id => match principals d !! id with Some p => bool_decide (p_Status p = StatusActive) | None => false end &&
                               may_read_share id (ac_ShareID current) (e_At c) d) ids);
  if bool_decide (ac_Visibility current = e_Visibility c) && bool_decide (ac_Audience current = ids) && nonempty owner then Some d
  else
    t ← tasks d !! e_TaskID c;
    let epoch := ac_Epoch current + 1 in
    let d := set_tasks (<[e_TaskID c := {| t_WorkspaceID := t_WorkspaceID t; t_Owner := owner; Visibility := e_Visibility c; VisibilityEpoch := epoch;
                                           VisibilityUpdatedBy := e_Actor c; Deleted := Deleted t |}]> (tasks d)) d in
    let d := set_audience (reaudience (e_TaskID c) (e_Actor c) epoch (e_At c) ids (audience d)) d in
    appendCollaborationAudit (event_of (ac_ShareID current) "task.visibility.changed" (e_Actor c) "" "task" (e_TaskID c) Other) d.

Record disclosure_request := { r_TaskID : string; r_PrincipalID : string; r_DeviceID : string; r_PeerID : string; r_SHA256 : string; r_Bytes : Z; r_Profile : string; r_At : Z }.

Definition active_device (id peer principal : string) (d : db) : bool :=
  match devices d !! peer with
  | Some x => bool_decide (d_ID x = id) && bool_decide (d_PrincipalID x = principal) && bool_decide (d_Status x = StatusActive) &&
              match keys d !! d_IdentityKeyID x with Some k => bool_decide (k_Status k = StatusActive) | None => false end
  | None => false
  end.

Definition RecordTaskDisclosure (r : disclosure_request) (d : db) : option db :=
  _ ← need (nonempty (r_TaskID r) && nonempty (r_PrincipalID r) && nonempty (r_DeviceID r) && nonempty (r_PeerID r));
  _ ← need ((0 <=? r_Bytes r) && nonempty (TrimSpace (r_Profile r)) && valid_hash (r_SHA256 r));
  _ ← need (CanPrincipalReadTask (r_PrincipalID r) (r_TaskID r) (r_At r) d);
  ac ← GetTaskAccess (r_TaskID r) d;
  s ← shares d !! ac_ShareID ac;
  _ ← need (bool_decide (w_Status s = StatusActive) && active_device (r_DeviceID r) (r_PeerID r) (r_PrincipalID r) d);
  Some (set_disclosures (disclosures d ++ [{| x_TaskID := r_TaskID r; x_ShareID := ac_ShareID ac; x_PrincipalID := r_PrincipalID r; x_DeviceID := r_DeviceID r;
    x_PeerID := r_PeerID r; x_AccessEpoch := AccessEpoch s; x_VisibilityEpoch := ac_Epoch ac; ProjectionSHA256 := r_SHA256 r; ProjectionBytes := r_Bytes r;
    x_EgressProfile := r_Profile r |}]) d).

(** ** The authorizer *)

Record PeerContext := { pc_PeerID : string; pc_Principal : string; pc_Device : Device; pc_Share : string; pc_Epoch : Z }.

Definition ResolvePeer (peer : string) (d : db) : option PeerContext :=
  if bool_decide (peer = "") then None
  else '(x, p) ← ResolveActivePrincipalForPeer peer d;
       Some {| pc_PeerID := peer; pc_Principal := d_PrincipalID x; pc_Device := x; pc_Share := ""; pc_Epoch := 0 |}.

Definition in_share (share : string) (s : Share) (pc : PeerContext) : PeerContext := {|
  pc_PeerID := pc_PeerID pc; pc_Principal := pc_Principal pc; pc_Device := pc_Device pc; pc_Share := share; pc_Epoch := AccessEpoch s |}.

Definition authorizeCapabilities (principal share : string) (caps : list string) (at_ : Z) (d : db) : bool :=
  forallb (fun c => HasWorkspaceCapability principal share c at_ d) caps.

Definition AuthorizeWorkspace (peer share : string) (caps : list string) (at_ : Z) (d : db) : option PeerContext :=
  pc ← ResolvePeer peer d; s ← shares d !! share;
  if bool_decide (w_Status s = StatusActive) && authorizeCapabilities (pc_Principal pc) share caps at_ d then Some (in_share share s pc) else None.

Definition AuthorizeLocalWorkspace (peer ws : string) (caps : list string) (at_ : Z) (d : db) : option PeerContext :=
  if bool_decide (ws = "") then None
  else '(id, s) ← GetWorkspaceShareByLocalWorkspaceID ws d;
       if bool_decide (w_Status s = StatusActive) then AuthorizeWorkspace peer id caps at_ d else None.

Definition AuthorizeTaskRead (peer task : string) (at_ : Z) (d : db) : option (PeerContext * TaskAccess) :=
  pc ← ResolvePeer peer d;
  if CanPrincipalReadTask (pc_Principal pc) task at_ d then
    ac ← GetTaskAccess task d;
    if bool_decide (ac_ShareID ac = "") then None
    else s ← shares d !! ac_ShareID ac; if bool_decide (w_Status s = StatusActive) then Some (in_share (ac_ShareID ac) s pc, ac) else None
  else None.

(** ** Memberships of shares hosted elsewhere *)

Definition UpsertWorkspaceMembership (share : string) (m : Membership) (d : db) : option db :=
  _ ← need (forallb (fun s => nonempty (TrimSpace s)) [share; m_HomePeerID m; RemoteWorkspaceID m; m_LocalWorkspaceID m; m_WorkspaceName m]);
  caps ← normalizedCapabilities (m_Capabilities m);
  _ ← need ((1 <=? m_AccessEpoch m) && bool_decide (m_Status m ∈ [""; StatusActive]));
  _ ← need (forallb (fun kv => bool_decide (kv.1 = share) || negb (bool_decide (m_LocalWorkspaceID kv.2 = m_LocalWorkspaceID m))) (map_to_list (memberships d)));
  Some (set_memberships (<[share := {| m_HomePeerID := m_HomePeerID m; RemoteWorkspaceID := RemoteWorkspaceID m; m_LocalWorkspaceID := m_LocalWorkspaceID m;
    m_WorkspaceName := m_WorkspaceName m; m_Capabilities := caps; m_AccessEpoch := m_AccessEpoch m;
    CursorHLC := match memberships d !! share with Some o => CursorHLC o | None => "" end; m_Status := StatusActive |}]> (memberships d)) d).

Definition with_member (cursor status : string) (m : Membership) : Membership := {|
  m_HomePeerID := m_HomePeerID m; RemoteWorkspaceID := RemoteWorkspaceID m; m_LocalWorkspaceID := m_LocalWorkspaceID m; m_WorkspaceName := m_WorkspaceName m;
  m_Capabilities := m_Capabilities m; m_AccessEpoch := m_AccessEpoch m; CursorHLC := cursor; m_Status := status |}.

Definition AdvanceWorkspaceMembershipCursor (share hlc : string) (d : db) : option db :=
  _ ← need (nonempty (TrimSpace share) && nonempty (TrimSpace hlc));
  m ← memberships d !! share;
  _ ← need (bool_decide (m_Status m = StatusActive));
  Some (set_memberships (<[share := with_member (if String.ltb (CursorHLC m) hlc then hlc else CursorHLC m) StatusActive m]> (memberships d)) d).

Definition RevokeWorkspaceMembership (share : string) (d : db) : option db :=
  m ← memberships d !! share;
  if bool_decide (m_Status m = StatusActive) then Some (set_memberships (<[share := with_member (CursorHLC m) StatusRevoked m]> (memberships d)) d)
  else _ ← need (bool_decide (m_Status m = StatusRevoked)); Some d.

Record WorkspaceAccess := { wa_ShareID : string; wa_HomePeerID : string; wa_RemoteWorkspaceID : string; wa_WorkspaceName : string; wa_AccessEpoch : Z; wa_Capabilities : list string }.

(** The local workspace is created beside it where it is missing. *)
Definition install_membership (a : WorkspaceAccess) (d : db) : option db :=
  _ ← need (nonempty (wa_ShareID a) && nonempty (wa_HomePeerID a) && nonempty (wa_RemoteWorkspaceID a) && (1 <=? wa_AccessEpoch a));
  let trimmed := TrimSpace (wa_WorkspaceName a) in
  let name := if bool_decide (trimmed = "") then "Shared workspace " +:+ wa_ShareID a else trimmed in
  local ← match memberships d !! wa_ShareID a with
          | Some m => _ ← need (bool_decide (m_HomePeerID m = wa_HomePeerID a) && bool_decide (RemoteWorkspaceID m = wa_RemoteWorkspaceID a)); Some (m_LocalWorkspaceID m)
          | None => Some ("shared:" +:+ wa_ShareID a)
          end;
  UpsertWorkspaceMembership (wa_ShareID a) {| m_HomePeerID := wa_HomePeerID a; RemoteWorkspaceID := wa_RemoteWorkspaceID a; m_LocalWorkspaceID := local;
    m_WorkspaceName := name; m_Capabilities := wa_Capabilities a; m_AccessEpoch := wa_AccessEpoch a; CursorHLC := ""; m_Status := StatusActive |} d.

Fixpoint installWorkspaceMemberships (l : list WorkspaceAccess) (d : db) : option db :=
  match l with [] => Some d | a :: l => d ← install_membership a d; installWorkspaceMemberships l d end.

(** ** The manager *)

Definition EnsureLocalOwner (userID name : string) (d : db) : option db :=
  _ ← need (nonempty (TrimSpace userID));
  if any_row IsLocalOwner (principals d) then Some d
  else CreatePrincipal userID {| p_Kind := "person"; p_DisplayName := name; p_Status := StatusActive; ControllingPrincipalID := ""; IsLocalOwner := true; p_RevokedAt := None |} d.

(** One workspace of [EnsureWorkspaceShares]. *)
Definition EnsureWorkspaceShare (home ws id : string) (d : db) : option db :=
  owner ← localOwner d;
  _ ← need (nonempty home);
  match GetWorkspaceShareByLocalWorkspaceID ws d with Some _ => Some d | None => CreateWorkspaceShare id ws home owner d end.

Record CreateInvitationInput := {
  n_Purpose : string; n_PrincipalID : string; n_Kind : string; n_DisplayName : string; n_Controller : string; n_PublicKey : string; n_ReplacesKeyID : string;
  n_Grants : list (string * list string); n_ExpiresIn : Z }.

Definition DefaultInvitationTTL : Z := 7 * 24 * 60 * 60.
Definition MaxInvitationTTL : Z := 30 * 24 * 60 * 60.

(** What is minted for an invitation; the token is as its code carries it. *)
Record minted := { y_InvitationID : string; y_PrincipalID : string; y_KeyID : string; y_Token : string; y_TokenHash : string; y_Addrs : list string }.

Fixpoint group_grants (seen : list (string * string)) (share : string) (caps : list string) : option (list InvitationGrant * list (string * string)) :=
  match caps with
  | [] => Some ([], seen)
  | c :: caps =>
      let c := TrimSpace c in
      _ ← need (ValidWorkspaceCapability c && negb (bool_decide ((share, c) ∈ seen)));
      '(gs, seen) ← group_grants ((share, c) :: seen) share caps;
      Some ({| s_InvitationID := ""; s_ShareID := share; s_Capability := c; s_ExpiresAt := None |} :: gs, seen)
  end.

Fixpoint normalize_grants (seen : list (string * string)) (groups : list (string * list string)) : option (list InvitationGrant) :=
  match groups with
  | [] => Some []
  | (share, caps) :: groups =>
      let share := TrimSpace share in
      _ ← need (nonempty share);
      '(gs, seen) ← group_grants seen share caps;
      rest ← normalize_grants seen groups; Some (gs ++ rest)
  end.

Definition normalizeInvitationGrants (groups : list (string * list string)) : option (list InvitationGrant) := normalize_grants [] groups.

Definition pending_key (principal owner replaces : string) (parsed : IdentityPublicKey) : IdentityKey := {|
  k_PrincipalID := principal; CanonicalPublicKey := AuthorizedKey parsed; k_Fingerprint := Fingerprint parsed; k_Algorithm := Algorithm parsed;
  k_Status := StatusPending; ReplacesKeyID := replaces; AddedByPrincipalID := owner; k_VerifiedAt := None; k_RevokedAt := None |}.

(** Each names the principal and the key of the invitation. *)
Definition prepareNewPrincipal (y : minted) (owner : string) (input : CreateInvitationInput) (parsed : IdentityPublicKey) (d : db) : option (string * string * db) :=
  let kind := TrimSpace (n_Kind input) in
  let name := TrimSpace (n_DisplayName input) in
  _ ← need (validPrincipalKind kind && nonempty name);
  let given := TrimSpace (n_Controller input) in
  let controller := if bool_decide (kind = "machine") && bool_decide (given = "") then owner else given in
  _ ← need (negb (bool_decide (kind = "machine")) ||
            match principals d !! controller with Some c => bool_decide (p_Status c = StatusActive) && bool_decide (p_Kind c = "person") | None => false end);
  d ← CreatePrincipal (y_PrincipalID y) {| p_Kind := kind; p_DisplayName := name; p_Status := StatusPending; ControllingPrincipalID := controller;
                                           IsLocalOwner := false; p_RevokedAt := None |} d;
  d ← AddPrincipalIdentityKey (y_KeyID y) (pending_key (y_PrincipalID y) owner "" parsed) d;
  Some (y_PrincipalID y, y_KeyID y, d).

Definition prepareExistingDevice (input : CreateInvitationInput) (parsed : IdentityPublicKey) (d : db) : option (string * string * db) :=
  let id := TrimSpace (n_PrincipalID input) in
  p ← principals d !! id; _ ← need (bool_decide (p_Status p = StatusActive));
  '(kid, k) ← GetPrincipalIdentityKeyByFingerprint (Fingerprint parsed) d;
  _ ← need (bool_decide (k_PrincipalID k = id) && bool_decide (k_Status k = StatusActive));
  Some (id, kid, d).

Definition prepareRotatedKey (y : minted) (owner : string) (input : CreateInvitationInput) (parsed : IdentityPublicKey) (d : db) : option (string * string * db) :=
  let id := TrimSpace (n_PrincipalID input) in
  p ← principals d !! id; _ ← need (bool_decide (p_Status p = StatusActive));
  match GetPrincipalIdentityKeyByFingerprint (Fingerprint parsed) d with
  | Some (kid, k) => if bool_decide (k_PrincipalID k = id) && bool_decide (k_Status k = StatusPending) then Some (id, kid, d) else None
  | None =>
      let replaces := TrimSpace (n_ReplacesKeyID input) in
      _ ← need (bool_decide (replaces = "") ||
                match keys d !! replaces with Some k => bool_decide (k_PrincipalID k = id) && bool_decide (k_Status k = StatusActive) | None => false end);
      d ← AddPrincipalIdentityKey (y_KeyID y) (pending_key id owner replaces parsed) d;
      Some (id, y_KeyID y, d)
  end.

(** The database, the fingerprint of the key, and whether the caller gets a code: the code
    is made after the transaction. *)
Definition CreateInvitation `{SSH} (home : string) (y : minted) (now : Z) (input : CreateInvitationInput) (d : db) : option (db * IdentityPublicKey * string * bool) :=
  _ ← need (nonempty home);
  owner ← localOwner d;
  parsed ← ParseIdentityPublicKey (n_PublicKey input);
  let trimmed := TrimSpace (n_Purpose input) in
  let purpose := if bool_decide (trimmed = "") then "new_principal" else trimmed in
  let ttl := if n_ExpiresIn input <=? 0 then DefaultInvitationTTL else n_ExpiresIn input in
  _ ← need (ttl <=? MaxInvitationTTL);
  gs ← normalizeInvitationGrants (n_Grants input);
  '(principal, key, d) ← (if bool_decide (purpose = "new_principal") then prepareNewPrincipal y owner input parsed d
                          else if bool_decide (purpose = "add_device") then prepareExistingDevice input parsed d
                          else if bool_decide (purpose = "rotate_key") then prepareRotatedKey y owner input parsed d
                          else None);
  d ← CreatePrincipalInvitation (y_InvitationID y)
        {| TokenHash := y_TokenHash y; Purpose := purpose; i_PrincipalID := principal; i_IdentityKeyID := key; i_CreatedBy := owner; i_CreatedAt := now;
           i_ExpiresAt := now + ttl; i_ConsumedAt := None; ConsumedByPeerID := ""; i_RevokedAt := None |} gs d;
  d ← appendCollaborationAudit (event_of "" "invitation.created" owner "" "invitation" (y_InvitationID y) Other) d;
  Some (d, parsed, principal, validateCollaborationInvitationPayload {|
    Version := CollaborationInviteVersion; i_InvitationID := y_InvitationID y; Token := y_Token y; DeviceProof.HomePeerID := home; HomeAddrs := y_Addrs y;
    IdentityKeyFingerprint := Fingerprint parsed; DeviceProof.i_ExpiresAt := now + ttl |}).

(** ** Rows of the neighbours *)

(** A task begins private; an update may move it, a restore may bring it back. *)
Definition CreateTask (id ws owner : string) (d : db) : option db :=
  _ ← need (reference owner (principals d));
  t ← insert_row id {| t_WorkspaceID := ws; t_Owner := owner; Visibility := "private"; VisibilityEpoch := 1; VisibilityUpdatedBy := ""; Deleted := false |} (tasks d);
  Some (set_tasks t d).

Definition placed (ws : string) (deleted : bool) (t : Task) : Task := {|
  t_WorkspaceID := ws; t_Owner := t_Owner t; Visibility := Visibility t; VisibilityEpoch := VisibilityEpoch t; VisibilityUpdatedBy := VisibilityUpdatedBy t; Deleted := deleted |}.

Definition PlaceTask (id ws : string) (deleted : bool) (d : db) : option db := t ← tasks d !! id; Some (set_tasks (<[id := placed ws deleted t]> (tasks d)) d).

Definition forget_share (share : string) (e : AuditEvent) : AuditEvent :=
  if bool_decide (ShareID e = share) then event_of "" (Event e) (ActorPrincipalID e) (ActorPeerID e) (SubjectKind e) (SubjectID e) (Details e) else e.

(** The share of a deleted workspace goes, with its grants and policy; a share somebody was
    sent a task of keeps the workspace. *)
Definition DeleteWorkspace (ws : string) (d : db) : option db :=
  let d := set_tasks (update_map (fun t => bool_decide (t_WorkspaceID t = ws)) (fun t => placed ws true t) (tasks d)) d in
  let d := set_memberships (omap (fun m => if bool_decide (m_LocalWorkspaceID m = ws) then None else Some m) (memberships d)) d in
  match GetWorkspaceShareByLocalWorkspaceID ws d with
  | None => Some d
  | Some (id, _) =>
      _ ← need (negb (existsb (fun x => bool_decide (x_ShareID x = id)) (disclosures d)));
      let d := set_shares (delete id (shares d)) d in
      let d := set_grants (List.filter (fun g => negb (bool_decide (g_ShareID g = id))) (grants d)) d in
      let d := set_staged (List.filter (fun g => negb (bool_decide (s_ShareID g = id))) (staged d)) d in
      let d := set_policies (delete id (policies d)) d in
      Some (set_audit (map (forget_share id) (audit d)) d)
  end.

