(* ===== verification/CollabRun.v ===== *)
(** How collaboration between daemons runs: the join stream of
    p2p/collaboration_invite_p2p.go, the enrolment of the local identity and
    SetVisibility of tasks/visibility.go as threads over the tables of CollabStore, the
    operations of internal/collaboration beside them, and migration 136.

    A step of a thread is one store call, which may fail, or the check of a proof; an
    operation is one transaction. *)

From Stdlib Require Import Ascii String.
From stdpp Require Import base list option gmap strings.
From S2P Require Import Prelude GoStrings DeviceProof CollabStore.

#[local] Open Scope string_scope.
#[local] Open Scope list_scope.
#[local] Open Scope Z_scope.

(** ** Threads *)

(** What the step of a thread is answered: does its store call succeed, the time, what is
    minted, and the text read from the peer or the agent. *)
Record answers := { ok : bool; now : Z; mint : minted; challengeID : string; nonce : string; deviceID : string; signature : string }.

Record JoinStart := { j_InvitationID : string; j_Token : string; j_DeviceName : string; j_DeviceKind : string }.

(** What a proof is asked for: the invitation with the digest of its token, the public key,
    the challenge with the digests of its nonce and transcript. *)
Record proof_request := {
  q_peer : string; q_name : string; q_kind : string; q_token : string; q_public : string; q_challenge : DeviceBindingChallenge; q_nonce : string; q_hash : string }.

(** A signature that was verified. *)
Record proof := { f_public : string; f_challenge : DeviceBindingChallenge; f_signature : string; f_at : Z }.

Inductive thread :=
| JInvitation (peer : string) (s : JoinStart)
| JPrincipal (peer : string) (s : JoinStart) (i : Invitation) (token : string) (at_ : Z)
| JKey (peer : string) (s : JoinStart) (i : Invitation) (token : string) (at_ : Z) (kind : string)
| ChallengeCheck (q : proof_request)
| ChallengeInsert (q : proof_request)
| Proof (q : proof_request)
| Activate (q : proof_request) (sig : string)
| LOwner (public name kind : string)
| LResolve (owner public name kind : string)
| LKey (owner key public name kind : string)
| LFingerprint (owner replaces public name kind : string)
| LCreate (owner purpose replaces public name kind : string)
| VGet (ws task visibility : string) (names : list string)
| VOwner (task visibility : string) (names : list string)
| VAccess (owner task visibility : string) (names : list string)
| VPolicy (owner task visibility : string) (names : list string) (current : TaskAccess)
| VAudience (owner task visibility : string) (names : list string)
| VSet (c : TaskVisibilityChange)
| SAccess (task : string)
| SOwner (task : string)
| Ended.

Section Daemon.
Context `{SSH} (Sum256 Sum256_hex : string -> string) (home : string).

(** Both sides ask for a proof in the same way. *)
Definition ask_proof (e : answers) (peer name kind invitationID principal principalKind fingerprint token public : string) (at_ : Z) : option thread :=
  c ← NewDeviceBindingChallenge (challengeID e) (nonce e) at_ invitationID principal principalKind fingerprint peer home;
  hash ← TranscriptSHA256 Sum256_hex c;
  n ← DecodeString (nonce e);
  Some (ChallengeCheck {| q_peer := peer; q_name := name; q_kind := kind; q_token := token; q_public := public; q_challenge := c; q_nonce := Sum256 n; q_hash := hash |}).

Definition challenge_row (q : proof_request) : Challenge := {|
  h_InvitationID := c_InvitationID (q_challenge q); h_Initiator := q_peer q; h_Responder := home; NonceHash := q_nonce q; TranscriptHash := q_hash q;
  h_IssuedAt := IssuedAt (q_challenge q); h_ExpiresAt := ExpiresAt (q_challenge q); h_ConsumedAt := None |}.

Definition activation (q : proof_request) (sig : string) (e : answers) : InvitedDeviceActivation := {|
  v_InvitationID := c_InvitationID (q_challenge q); v_TokenHash := q_token q; v_ChallengeID := c_ID (q_challenge q); v_PeerID := q_peer q; v_ResponderPeerID := home;
  v_DisplayName := q_name q; v_DeviceKind := q_kind q; v_BindingVersion := DeviceBindingTranscriptVersion; v_TranscriptHash := q_hash q; v_Signature := sig;
  v_At := now e; v_DeviceID := deviceID e |}.

(** The token of a code, checked against the invitation. *)
Definition token_accepted (i : Invitation) (token : string) (at_ : Z) : option string :=
  t ← DecodeString token;
  _ ← need (length_is 32 t && bool_decide (TokenHash i = Sum256 t) && unset (i_ConsumedAt i) && unset (i_RevokedAt i) && (at_ <? i_ExpiresAt i));
  Some (Sum256 t).

Definition or_else (a b : string) : string := if bool_decide (TrimSpace a = "") then b else a.

Definition resolve_name (d : db) (raw : string) : option string :=
  let value := TrimSpace raw in
  '(id, p) ← match principals d !! value with
             | Some p => Some (value, p)
             | None => match List.filter (fun kv => bool_decide (ToLower (TrimSpace (p_DisplayName kv.2)) = ToLower value)) (map_to_list (principals d)) with
                       | [kv] => Some kv
                       | _ => None
                       end
             end;
  if IsLocalOwner p || negb (bool_decide (p_Status p = StatusActive)) then None else Some id.

Definition resolveVisibilityAudience (names : list string) (d : db) : option (list string) := first_seen <$> mapM (resolve_name d) names.

(** What an agent may ask for under the policy of the share. *)
Definition agent_may (visibility : string) (current : TaskAccess) (p : Policy) : bool :=
  (visibilityRank visibility <=? visibilityRank (AgentVisibilityCeiling p)) &&
  negb (WideningRequiresApproval p && (visibilityRank (ac_Visibility current) <? visibilityRank visibility)).

(** The next thread, the database, and a proof when one was verified; no thread ends it. *)
Definition thread_step (e : answers) (th : thread) (d : db) : option (thread * db * list proof) :=
  let goto (o : option thread) := Some (default Ended o, d, []) in
  match th with
  | JInvitation peer s =>
      goto (i ← invitations d !! j_InvitationID s; token ← token_accepted i (j_Token s) (now e);
            if ok e then Some (JPrincipal peer s i token (now e)) else None)
  | JPrincipal peer s i token at_ =>
      goto (p ← principals d !! i_PrincipalID i; if ok e then Some (JKey peer s i token at_ (p_Kind p)) else None)
  | JKey peer s i token at_ kind =>
      goto (k ← keys d !! i_IdentityKeyID i;
            if ok e && bool_decide (k_PrincipalID k = i_PrincipalID i)
            then ask_proof e peer (j_DeviceName s) (j_DeviceKind s) (j_InvitationID s) (i_PrincipalID i) kind (k_Fingerprint k) token (CanonicalPublicKey k) at_ else None)
  | ChallengeCheck q => goto (if ok e && challenge_valid (c_ID (q_challenge q)) (challenge_row q) && challenge_pending (challenge_row q) d then Some (ChallengeInsert q) else None)
  | ChallengeInsert q =>
      match (if ok e then insert_challenge (c_ID (q_challenge q)) (challenge_row q) d else None) with Some d => Some (Proof q, d, []) | None => Some (Ended, d, []) end
  | Proof q =>
      match VerifyDeviceBinding (q_public q) (q_challenge q) (signature e) (now e) with
      | Some _ => Some (Activate q (signature e), d, [{| f_public := q_public q; f_challenge := q_challenge q; f_signature := signature e; f_at := now e |}])
      | None => Some (Ended, d, [])
      end
  | Activate q sig => match (if ok e then ActivateInvitedDevice (activation q sig e) d else None) with Some (_, d) => Some (Ended, d, []) | None => Some (Ended, d, []) end
  | LOwner public name kind => goto (owner ← localOwner d; if ok e && nonempty home then _ ← ParseIdentityPublicKey public; Some (LResolve owner public name kind) else None)
  | LResolve owner public name kind =>
      goto (if negb (ok e) then None
            else match ResolveActivePrincipalForPeer home d with
                 | Some (x, _) => if bool_decide (d_PrincipalID x = owner) then Some (LKey owner (d_IdentityKeyID x) public name kind) else Some (LFingerprint owner "" public name kind)
                 | None => Some (LFingerprint owner "" public name kind)
                 end)
  | LKey owner key public name kind =>
      goto (k ← keys d !! key; parsed ← ParseIdentityPublicKey public;
            if negb (ok e) || bool_decide (k_Fingerprint k = Fingerprint parsed) then None else Some (LFingerprint owner key public name kind))
  | LFingerprint owner replaces public name kind =>
      goto (parsed ← ParseIdentityPublicKey public;
            if negb (ok e) then None
            else match GetPrincipalIdentityKeyByFingerprint (Fingerprint parsed) d with
                 | Some (_, k) => if negb (bool_decide (k_PrincipalID k = owner)) || bool_decide (k_Status k = StatusRevoked) then None
                                  else Some (LCreate owner (if bool_decide (k_Status k = StatusActive) then "add_device" else "rotate_key") replaces public name kind)
                 | None => Some (LCreate owner "rotate_key" replaces public name kind)
                 end)
  | LCreate owner purpose replaces public name kind =>
      match (if ok e then CreateInvitation home (mint e) (now e) {| n_Purpose := purpose; n_PrincipalID := owner; n_Kind := ""; n_DisplayName := ""; n_Controller := "";
               n_PublicKey := public; n_ReplacesKeyID := replaces; n_Grants := []; n_ExpiresIn := 0 |} d else None) with
      | Some (d, parsed, _, true) =>
          Some (default Ended (ask_proof e home (or_else name "this device") (or_else kind "unknown") (y_InvitationID (mint e)) owner "person" (Fingerprint parsed)
                                 (y_TokenHash (mint e)) (AuthorizedKey parsed) (now e)), d, [])
      | Some (d, _, _, false) => Some (Ended, d, [])
      | None => Some (Ended, d, [])
      end
  | VGet ws task visibility names =>
      goto (t ← tasks d !! task; if ok e && (bool_decide (ws = "") || bool_decide (t_WorkspaceID t = ws)) && ValidTaskVisibility visibility then Some (VOwner task visibility names) else None)
  | VOwner task visibility names => goto (owner ← localOwner d; if ok e then Some (VAccess owner task visibility names) else None)
  | VAccess owner task visibility names =>
      goto (ac ← GetTaskAccess task d;
            if negb (ok e) then None
            else if bool_decide (visibility = "private") then Some (VAudience owner task visibility names)
            else if nonempty (ac_ShareID ac) then Some (VPolicy owner task visibility names ac) else None)
  | VPolicy owner task visibility names current =>
      goto (p ← policies d !! ac_ShareID current; if ok e && agent_may visibility current p then Some (VAudience owner task visibility names) else None)
  | VAudience owner task visibility names =>
      goto (ids ← (if bool_decide (names = []) then Some [] else if ok e then resolveVisibilityAudience names d else None);
            Some (VSet {| e_TaskID := task; e_Visibility := visibility; e_Audience := ids; e_Actor := owner; e_At := now e |}))
  | VSet c => match (if ok e then SetTaskVisibility c d else None) with Some d => Some (Ended, d, []) | None => Some (Ended, d, []) end
  | SAccess task =>
      goto (ac ← GetTaskAccess task d;
            if ok e && nonempty (ac_ShareID ac) && bool_decide (ac_Visibility ac = "private") then Some (SOwner task) else None)
  | SOwner task =>
      goto (owner ← localOwner d;
            if ok e then Some (VSet {| e_TaskID := task; e_Visibility := "workspace"; e_Audience := []; e_Actor := owner; e_At := now e |}) else None)
  | Ended => None
  end.

(** *** The machine *)

Inductive op :=
| OEnsureLocalOwner (userID name : string)
| OEnsureWorkspaceShare (ws id : string)
| OCreateInvitation (y : minted) (at_ : Z) (input : CreateInvitationInput)
| ORevokeInvitation (id : string) (at_ : Z)
| OSetGrants (w : WorkspaceGrantSet)
| OPutPolicy (share : string) (p : Policy) (allowRemoteEvidence : bool)
| ORevokePrincipal (id reason : string) (at_ : Z)
| ORevokeDevice (peer reason : string) (at_ : Z)
| ORevokeKey (id : string) (at_ : Z)
| ORename (id name : string)
| OSetTaskVisibility (c : TaskVisibilityChange)
| ORecordDisclosure (r : disclosure_request)
| OInstall (l : list WorkspaceAccess)
| OAdvanceCursor (share hlc : string)
| ORevokeMembership (share : string)
| OCreateTask (id ws owner : string)
| OPlaceTask (id ws : string) (deleted : bool)
| ODeleteWorkspace (ws : string).

Definition apply_op (o : op) (d : db) : option db :=
  match o with
  | OEnsureLocalOwner userID name => EnsureLocalOwner userID name d
  | OEnsureWorkspaceShare ws id => EnsureWorkspaceShare home ws id d
  | OCreateInvitation y at_ input => (fun r => r.1.1.1) <$> CreateInvitation home y at_ input d
  | ORevokeInvitation id at_ => RevokePrincipalInvitation id at_ d
  | OSetGrants w => SetWorkspaceGrants w d
  | OPutPolicy share p remote => PutWorkspacePublicationPolicy share p remote d
  | ORevokePrincipal id reason at_ => RevokePrincipal id reason at_ d
  | ORevokeDevice peer reason at_ => RevokePrincipalDevice peer reason at_ d
  | ORevokeKey id at_ => RevokePrincipalIdentityKey id at_ d
  | ORename id name => UpdatePrincipalDisplayName id name d
  | OSetTaskVisibility c => SetTaskVisibility c d
  | ORecordDisclosure r => RecordTaskDisclosure r d
  | OInstall l => installWorkspaceMemberships l d
  | OAdvanceCursor share hlc => AdvanceWorkspaceMembershipCursor share hlc d
  | ORevokeMembership share => RevokeWorkspaceMembership share d
  | OCreateTask id ws owner => CreateTask id ws owner d
  | OPlaceTask id ws deleted => PlaceTask id ws deleted d
  | ODeleteWorkspace ws => DeleteWorkspace ws d
  end.

Record state := { mem : db; threads : list thread; proofs : list proof; limiter : collaborationInviteLimiter }.

Inductive label :=
| Op (o : op)
| Join (peer : string) (start : JoinStart) (at_ : Z)
| EnrollLocalIdentity (public name kind : string)
| SetVisibility (ws task visibility : string) (names : list string)
| PublishSystemTask (task : string)
| Step (n : nat) (e : answers).

Definition spawn (th : thread) (s : state) : state := {| mem := mem s; threads := threads s ++ [th]; proofs := proofs s; limiter := limiter s |}.

Definition start_valid (s : JoinStart) : bool :=
  nonempty (j_InvitationID s) && (Z.of_nat (String.length (j_InvitationID s)) <=? 256) && nonempty (j_DeviceName s) &&
  (Z.of_nat (String.length (j_DeviceName s)) <=? 256) && negb (containsLineBreakOrNUL (j_DeviceName s)) && validDeviceKind (j_DeviceKind s).

(** The first frame of a join stream; the limiter is asked last. *)
Definition accept_join (peer : string) (start : JoinStart) (at_ : Z) (s : state) : state :=
  let start := {| j_InvitationID := TrimSpace (j_InvitationID start); j_Token := j_Token start; j_DeviceName := TrimSpace (j_DeviceName start);
                  j_DeviceKind := TrimSpace (j_DeviceKind start) |} in
  if negb (start_valid start) then s
  else let '(b, l) := allow peer (j_InvitationID start) (at_ * second) (limiter s) in
       let s := {| mem := mem s; threads := threads s; proofs := proofs s; limiter := l |} in
       if b then spawn (JInvitation peer start) s else s.

(** An operation that fails changes nothing. *)
Definition step (s : state) (l : label) : option state :=
  match l with
  | Op o => Some {| mem := default (mem s) (apply_op o (mem s)); threads := threads s; proofs := proofs s; limiter := limiter s |}
  | Join peer start at_ => Some (accept_join peer start at_ s)
  | EnrollLocalIdentity public name kind => Some (spawn (LOwner public name kind) s)
  | SetVisibility ws task visibility names => Some (spawn (VGet ws task visibility names) s)
  | PublishSystemTask task => Some (spawn (SAccess task) s)
  | Step n e => th ← threads s !! n; '(th, d, ps) ← thread_step e th (mem s);
                Some {| mem := d; threads := <[n := th]> (threads s); proofs := ps ++ proofs s; limiter := limiter s |}
  end.

Fixpoint run (s : state) (ls : list label) : option state := match ls with [] => Some s | l :: ls => s ← step s l; run s ls end.

(** *** The migration *)

(** Users, and the peers that were theirs with their names and whether they were revoked. *)
Definition migrate_user (u : string * (string * bool)) (m : gmap string Principal) : gmap string Principal :=
  <[u.1 := {| p_Kind := "person"; p_DisplayName := u.2.1; p_Status := if u.2.2 then StatusActive else StatusLegacy; ControllingPrincipalID := "";
              IsLocalOwner := u.2.2; p_RevokedAt := None |}]> m.

Definition migrate_peer (p : string * (string * (string * option Z))) (m : gmap string Device) : gmap string Device :=
  <[p.1 := {| d_ID := "legacy:" +:+ p.1; d_PrincipalID := p.2.1; d_IdentityKeyID := ""; d_DisplayName := p.2.2.1; d_Kind := "unknown";
              d_Status := match p.2.2.2 with None => StatusLegacy | Some _ => StatusRevoked end; BindingVersion := ""; BindingTranscriptHash := "";
              BindingSignature := ""; d_VerifiedAt := None; d_RevokedAt := p.2.2.2 |}]> m.

Definition migrated (users : list (string * (string * bool))) (peers : list (string * (string * (string * option Z)))) : state := {|
  mem := set_devices (foldr migrate_peer ∅ peers) (set_principals (foldr migrate_user ∅ users) empty_db); threads := []; proofs := []; limiter := no_joins |}.

End Daemon.
