(* ===== verification/CollabInv.v ===== *)
(** What the steps of CollabRun keep: no row of an identity is lost and nothing consumed or
    revoked is undone ([extends], [settles]); every active device was bound by a proof
    ([binding_inv]); open grants are of active principals, and a share whose use changes
    moves its epoch ([access_inv], [marked]); the readers of a task stand while its
    visibility epoch does ([stands]); the ledger explains every open grant ([ledger_ok]). *)

From Stdlib Require Import Ascii String.
From stdpp Require Import base list option gmap strings.
From S2P Require Import Prelude GoStrings DeviceProof CollabStore CollabRun.

#[local] Open Scope string_scope.
#[local] Open Scope list_scope.
#[local] Open Scope Z_scope.

(** ** Rows are never lost *)

#[local] Arguments update_list : simpl never.
#[local] Arguments update_map : simpl never.

Lemma need_Some b u : need b = Some u -> b = true.
Proof. by destruct b. Qed.

(** A hypothesis that a do-block succeeded, taken apart. *)
Ltac opt H :=
  repeat lazymatch type of H with
  | (_ ≫= _) = Some _ => let E := fresh "E" in apply bind_Some in H; destruct H as (? & E & H); try (apply need_Some in E; bool_hyps)
  | (if ?b then _ else _) = Some _ => let E := fresh "E" in destruct b eqn:E; try discriminate H; bool_hyps
  | (let '(_, _) := ?p in _) = Some _ => destruct p
  | Some _ = Some _ => injection H as H
  end.

Lemma insert_row_Some {A} k (x : A) m m' : insert_row k x m = Some m' -> m !! k = None /\ m' = <[k := x]> m.
Proof. unfold insert_row. destruct (m !! k); [done|]. by intros [= <-]. Qed.

(** Every row is still there, and related to what it was. *)
Definition rows {A} (R : A -> A -> Prop) (m m' : gmap string A) : Prop := forall k x, m !! k = Some x -> exists x', m' !! k = Some x' /\ R x x'.

Section Rows.
Context {A} (R : A -> A -> Prop) `{PR : !PreOrder R}.

#[export] Instance rows_preorder : PreOrder (rows R).
Proof.
  split; [intros m k x Hk; by exists x|]. intros m1 m2 m3 H1 H2 k x Hk. destruct (H1 k x Hk) as (y & Hy & Ry). destruct (H2 k y Hy) as (z & Hz & Rz).
  exists z. split; [done|by etrans].
Qed.

Lemma rows_fresh k x m : m !! k = None -> rows R m (<[k := x]> m).
Proof. intros Hk j y Hj. exists y. split; [|done]. rewrite lookup_insert_ne; [done|congruence]. Qed.

Lemma rows_insert k x y m : m !! k = Some x -> R x y -> rows R m (<[k := y]> m).
Proof.
  intros Hk Hxy j z Hj. destruct (decide (k = j)) as [<-|Hne].
  - exists y. rewrite lookup_insert_eq. split; [done|]. congruence.
  - exists z. by rewrite lookup_insert_ne.
Qed.

Lemma rows_update w f m : (forall x, w x = true -> R x (f x)) -> rows R m (update_map w f m).
Proof. intros Hf k x Hk. exists (if w x then f x else x). unfold update_map. rewrite lookup_fmap, Hk. split; [done|]. destruct (w x) eqn:E; [by apply Hf|done]. Qed.

Lemma rows_alter f k m : (forall x, m !! k = Some x -> R x (f x)) -> rows R m (alter f k m).
Proof.
  intros Hf j x Hj. destruct (decide (k = j)) as [<-|Hne].
  - exists (f x). rewrite lookup_alter_eq, Hj. split; [done|by apply Hf].
  - exists x. by rewrite lookup_alter_ne.
Qed.
End Rows.

Definition principal_kept (p p' : Principal) : Prop := p_Status p = StatusRevoked -> p_Status p' = StatusRevoked.
Definition key_kept (k k' : IdentityKey) : Prop :=
  k_PrincipalID k' = k_PrincipalID k /\ k_Fingerprint k' = k_Fingerprint k /\ (k_Status k = StatusRevoked -> k_Status k' = StatusRevoked).
Definition device_kept (x x' : Device) : Prop := d_Status x = StatusRevoked -> d_Status x' = StatusRevoked.
Definition invitation_kept (i i' : Invitation) : Prop :=
  TokenHash i' = TokenHash i /\ Purpose i' = Purpose i /\ i_PrincipalID i' = i_PrincipalID i /\ i_IdentityKeyID i' = i_IdentityKeyID i /\
  forall t, i_ConsumedAt i = Some t -> i_ConsumedAt i' = Some t /\ ConsumedByPeerID i' = ConsumedByPeerID i.
Definition challenge_kept (h h' : Challenge) : Prop :=
  h_InvitationID h' = h_InvitationID h /\ h_Initiator h' = h_Initiator h /\ h_Responder h' = h_Responder h /\ TranscriptHash h' = TranscriptHash h /\
  forall t, h_ConsumedAt h = Some t -> h_ConsumedAt h' = Some t.

#[export] Instance principal_kept_preorder : PreOrder principal_kept.
Proof. split; unfold principal_kept; [intros p; done|intros p q r; auto]. Qed.

#[export] Instance key_kept_preorder : PreOrder key_kept.
Proof. split; [intros k; done|]. intros k k1 k2 (A1 & A2 & A3) (B1 & B2 & B3). split_and!; [congruence|congruence|auto]. Qed.

#[export] Instance device_kept_preorder : PreOrder device_kept.
Proof. split; unfold device_kept; [intros x; done|intros x y z; auto]. Qed.

#[export] Instance invitation_kept_preorder : PreOrder invitation_kept.
Proof.
  split; [intros i; done|]. intros i j k (A1 & A2 & A3 & A4 & A5) (B1 & B2 & B3 & B4 & B5). split_and!; try congruence.
  intros t Ht. destruct (A5 t Ht) as [C1 C2]. destruct (B5 t C1) as [D1 D2]. split; congruence.
Qed.

#[export] Instance challenge_kept_preorder : PreOrder challenge_kept.
Proof. split; [intros h; done|]. intros i j k (A1 & A2 & A3 & A4 & A5) (B1 & B2 & B3 & B4 & B5). split_and!; try congruence. auto. Qed.

(** No row of an identity is lost, and nothing consumed or revoked is undone. *)
Record extends (d d' : db) : Prop := {
  x_principals : rows principal_kept (principals d) (principals d');
  x_keys : rows key_kept (keys d) (keys d');
  x_devices : rows device_kept (devices d) (devices d');
  x_invitations : rows invitation_kept (invitations d) (invitations d');
  x_challenges : rows challenge_kept (challenges d) (challenges d') }.

#[export] Instance extends_preorder : PreOrder extends.
Proof. split; [intros d; constructor; reflexivity|]. intros d1 d2 d3 [] []. constructor; etrans; eassumption. Qed.

(** No device becomes active. *)
Definition calm (m m' : gmap string Device) : Prop := forall peer x, m' !! peer = Some x -> d_Status x = StatusActive -> m !! peer = Some x.

#[export] Instance calm_preorder : PreOrder calm.
Proof. split; unfold calm; [intros m; done|intros m1 m2 m3; auto]. Qed.

Record settles (d d' : db) : Prop := { x_extends :> extends d d'; x_calm : calm (devices d) (devices d') }.

#[export] Instance settles_preorder : PreOrder settles.
Proof. split; [intros d; split; reflexivity|]. intros d1 d2 d3 [] []. split; etrans; eassumption. Qed.

(** What leaves a table alone settles it. *)
Ltac kept := split; [constructor|]; cbn; try reflexivity.

Lemma calm_revoked peer at_ x m : calm m (<[peer := d_revoked at_ x]> m).
Proof. intros q y [[_ <-]|[_ Hy]]%lookup_insert_Some Hs; [done|exact Hy]. Qed.

Lemma calm_revoke w at_ m : calm m (update_map w (d_revoked at_) m).
Proof. intros q y. unfold update_map. rewrite lookup_fmap. destruct (m !! q) as [x|]; [|done]. cbn. intros [= <-]. by destruct (w x). Qed.

Lemma append_audit e d d' : appendCollaborationAudit e d = Some d' -> exists e', d' = set_audit (e' :: audit d) d /\
  ShareID e' = ShareID e /\ TrimSpace (Event e) = Event e' /\ TrimSpace (SubjectID e) = SubjectID e' /\ Details e' = Details e.
Proof.
  unfold appendCollaborationAudit, requiredLabel. cbn [mbind option_bind]. intros Ha. opt Ha. repeat (case_match; simplify_eq; try done).
  eexists. split_and!; reflexivity.
Qed.

Lemma settles_audit e d d' : appendCollaborationAudit e d = Some d' -> settles d d'.
Proof. intros (e' & -> & _)%append_audit. kept. Qed.

Ltac inserted := match goal with E : insert_row _ _ _ = Some _ |- _ => apply insert_row_Some in E as [? ->] end.

Lemma CreatePrincipal_settles id p d d' : CreatePrincipal id p d = Some d' -> settles d d'.
Proof. unfold CreatePrincipal. intros Hc. opt Hc. inserted. subst d'. kept. apply rows_fresh; [apply _|done]. Qed.

Lemma AddPrincipalIdentityKey_settles id k d d' : AddPrincipalIdentityKey id k d = Some d' -> settles d d'.
Proof. unfold AddPrincipalIdentityKey. intros Hc. cbn zeta in Hc. opt Hc. inserted. subst d'. kept. apply rows_fresh; [apply _|done]. Qed.

Lemma CreatePrincipalInvitation_settles id i gs d d' : CreatePrincipalInvitation id i gs d = Some d' -> settles d d'.
Proof. unfold CreatePrincipalInvitation. intros Hc. opt Hc. inserted. subst d'. kept. apply rows_fresh; [apply _|done]. Qed.

Lemma RevokePrincipalInvitation_settles id at_ d d' : RevokePrincipalInvitation id at_ d = Some d' -> settles d d'.
Proof.
  unfold RevokePrincipalInvitation. intros Hc. opt Hc; [by subst|]. apply settles_audit in Hc. etrans; [|exact Hc]. kept. eapply rows_insert; [apply _|eassumption|done].
Qed.

Lemma RevokePrincipal_settles id reason at_ d d' : RevokePrincipal id reason at_ d = Some d' -> settles d d'.
Proof.
  unfold RevokePrincipal. intros Hc. opt Hc; [by subst|]. apply settles_audit in Hc. etrans; [|exact Hc].
  split; [constructor|]; cbn; [apply rows_alter; [apply _|done]|apply rows_update; [apply _|done]|apply rows_update; [apply _|done]|apply rows_update; [apply _|done]|done|apply calm_revoke].
Qed.

Lemma RevokePrincipalIdentityKey_settles id at_ d d' : RevokePrincipalIdentityKey id at_ d = Some d' -> settles d d'.
Proof.
  unfold RevokePrincipalIdentityKey. intros Hc. opt Hc; [by subst|]. apply settles_audit in Hc. etrans; [|exact Hc].
  kept; [eapply rows_insert; [apply _|eassumption|done]|apply rows_update; [apply _|done]|apply calm_revoke].
Qed.

Lemma RevokePrincipalDevice_settles peer reason at_ d d' : RevokePrincipalDevice peer reason at_ d = Some d' -> settles d d'.
Proof.
  unfold RevokePrincipalDevice. intros Hc. opt Hc; [by subst|]. apply settles_audit in Hc. etrans; [|exact Hc].
  kept; [eapply rows_insert; [apply _|eassumption|done]|apply calm_revoked].
Qed.

Lemma prepare_settles y owner input parsed d r p :
  (if bool_decide (p = "new_principal") then prepareNewPrincipal y owner input parsed d
   else if bool_decide (p = "add_device") then prepareExistingDevice input parsed d
   else if bool_decide (p = "rotate_key") then prepareRotatedKey y owner input parsed d else None) = Some r -> settles d r.2.
Proof.
  destruct (bool_decide (p = "new_principal")); [|destruct (bool_decide (p = "add_device")); [|destruct (bool_decide (p = "rotate_key")); [|done]]].
  - unfold prepareNewPrincipal. intros Hc. cbn zeta in Hc. opt Hc. subst r. etrans; [by eapply CreatePrincipal_settles|by eapply AddPrincipalIdentityKey_settles].
  - unfold prepareExistingDevice. intros Hc. cbn zeta in Hc. opt Hc. by subst r.
  - unfold prepareRotatedKey. intros Hc. cbn zeta in Hc. opt Hc. destruct (GetPrincipalIdentityKeyByFingerprint _ _) as [[kid k]|]; opt Hc; subst r; [done|].
    by eapply AddPrincipalIdentityKey_settles.
Qed.

Lemma CreateInvitation_settles `{SSH} home y at_ input d r : CreateInvitation home y at_ input d = Some r -> settles d r.1.1.1.
Proof.
  unfold CreateInvitation. intros Hc. cbn zeta in Hc. opt Hc. subst r. cbn [fst].
  match goal with E : (if _ then prepareNewPrincipal _ _ _ _ _ else _) = Some _ |- _ => apply prepare_settles in E; cbn [snd] in E end.
  etrans; [eassumption|]. etrans; [by eapply CreatePrincipalInvitation_settles|by eapply settles_audit].
Qed.

Lemma insert_grants_only gs d d' : insert_grants gs d = Some d' -> d' = set_grants (grants d ++ gs) d.
Proof.
  revert d. induction gs as [|g gs IH]; intros d; cbn [insert_grants]; [intros [= <-]; rewrite app_nil_r; by destruct d|]. intros Hg. opt Hg.
  apply IH in Hg. match goal with E : insertWorkspaceGrant _ _ = Some _ |- _ => unfold insertWorkspaceGrant in E; opt E; subst end. cbn. by rewrite <- app_assoc.
Qed.

Lemma replace_grants_settles share principal actor ev new at_ d d' : replace_grants share principal actor ev new at_ d = Some d' -> settles d d'.
Proof.
  unfold replace_grants. intros Hc. opt Hc. apply settles_audit in Hc. etrans; [|exact Hc].
  match goal with E : insert_grants _ _ = Some _ |- _ => apply insert_grants_only in E; subst end. kept.
Qed.

Lemma apply_shares_settles i at_ order gs d d' : apply_shares i at_ order gs d = Some d' -> settles d d'.
Proof.
  revert d. induction order as [|s order IH]; intros d; cbn [apply_shares]; [by intros [= <-]|]. intros Hc. opt Hc.
  etrans; [by eapply replace_grants_settles|by apply IH].
Qed.

Lemma SetWorkspaceGrants_settles w d d' : SetWorkspaceGrants w d = Some d' -> settles d d'.
Proof.
  unfold SetWorkspaceGrants. intros Hc. cbn zeta in Hc. opt Hc; [by subst|by subst; kept|by eapply replace_grants_settles].
Qed.

Lemma SetTaskVisibility_settles c d d' : SetTaskVisibility c d = Some d' -> settles d d'.
Proof.
  unfold SetTaskVisibility. intros Hc. cbn zeta in Hc. opt Hc; [by subst|]. apply settles_audit in Hc. etrans; [|exact Hc]. kept.
Qed.

Lemma insert_challenge_settles id h d d' : insert_challenge id h d = Some d' -> settles d d'.
Proof. unfold insert_challenge. intros Hc. opt Hc. inserted. subst d'. kept. apply rows_fresh; [apply _|done]. Qed.

Lemma installWorkspaceMemberships_only l d d' : installWorkspaceMemberships l d = Some d' -> exists m, d' = set_memberships m d.
Proof.
  revert d. induction l as [|a l IH]; intros d; cbn [installWorkspaceMemberships]; [intros [= <-]; exists (memberships d); by destruct d|].
  intros Hc. opt Hc. apply IH in Hc as [m ->].
  match goal with E : install_membership _ _ = Some _ |- _ => unfold install_membership, UpsertWorkspaceMembership in E; cbn zeta in E; opt E; subst end.
  by eexists.
Qed.

Lemma apply_op_settles `{SSH} home o d d' : apply_op home o d = Some d' -> settles d d'.
Proof.
  destruct o; cbn [apply_op]; intros Hc.
  - unfold EnsureLocalOwner in Hc. opt Hc; [by subst|by eapply CreatePrincipal_settles].
  - unfold EnsureWorkspaceShare in Hc. opt Hc; [by subst|].
    unfold CreateWorkspaceShare in Hc. opt Hc. subst. kept.
  - apply fmap_Some in Hc as (r & Hc & ->). by eapply CreateInvitation_settles.
  - by eapply RevokePrincipalInvitation_settles.
  - by eapply SetWorkspaceGrants_settles.
  - unfold PutWorkspacePublicationPolicy in Hc. cbn zeta in Hc. opt Hc. apply settles_audit in Hc. etrans; [|exact Hc]. kept.
  - by eapply RevokePrincipal_settles.
  - by eapply RevokePrincipalDevice_settles.
  - by eapply RevokePrincipalIdentityKey_settles.
  - unfold UpdatePrincipalDisplayName in Hc. opt Hc. subst. kept. eapply rows_insert; [apply _|eassumption|]. unfold principal_kept; by cbn.
  - by eapply SetTaskVisibility_settles.
  - unfold RecordTaskDisclosure in Hc. opt Hc. subst. kept.
  - apply installWorkspaceMemberships_only in Hc as [m ->]. kept.
  - unfold AdvanceWorkspaceMembershipCursor in Hc. opt Hc. subst. kept.
  - unfold RevokeWorkspaceMembership in Hc. opt Hc; subst; kept.
  - unfold CreateTask in Hc. opt Hc. subst. kept.
  - unfold PlaceTask in Hc. opt Hc. subst. kept.
  - unfold DeleteWorkspace in Hc. cbn zeta in Hc. destruct (GetWorkspaceShareByLocalWorkspaceID _ _) as [[id s]|]; opt Hc; subst; kept.
Qed.

(** *** Activation *)

(** A row looked up twice is one row. *)
Ltac same_row := repeat match goal with H1 : ?a = Some ?x, H2 : ?a = Some ?y |- _ => assert (x = y) as -> by congruence; clear H2 end.

(** The tables once a device is admitted, before its grants are applied. *)
Definition admitted (v : InvitedDeviceActivation) (i : Invitation) (k : IdentityKey) (h : Challenge) (x : Device) (d : db) : db :=
  let d := set_invitations (<[v_InvitationID v := i_consumed (v_At v) (v_PeerID v) i]> (invitations d))
             (set_challenges (<[v_ChallengeID v := h_consumed (v_At v) h]> (challenges d)) d) in
  let d := set_devices (<[v_PeerID v := x]> (devices d)) d in
  let d := if bool_decide (Purpose i = "new_principal") then set_principals (alter activated (i_PrincipalID i) (principals d)) d else d in
  if bool_decide (k_Status k = StatusPending) then set_keys (<[i_IdentityKeyID i := k_verified (v_At v) k]> (keys d)) d else d.

Lemma lifecycle_purpose p ps ks : validateInvitationLifecycle p ps ks = true -> p = "new_principal" \/ (p ∈ ["rotate_key"; "add_device"] /\ ps = StatusActive).
Proof. unfold validateInvitationLifecycle. repeat case_bool_decide; subst; try done; intros _; [by left|right|right]; (split; [set_solver|done]). Qed.

Lemma bind_device i v d x d' : bindInvitedDevice i v d = Some (x, d') -> d' = set_devices (<[v_PeerID v := x]> (devices d)) d /\
  (exists name, x = bound_device (d_ID x) name i v) /\ forall x0, devices d !! v_PeerID v = Some x0 -> d_Status x0 <> StatusRevoked.
Proof.
  unfold bindInvitedDevice. intros Hc. opt Hc. destruct (devices d !! v_PeerID v) as [o|] eqn:Hd; opt Hc; subst; (split_and!; [done|by eexists|]).
  - intros y [= <-]. destruct o as [? ? ? ? ? st]; cbn in *. by subst.
  - intros y [= <-]. destruct o as [? ? ? ? ? st]; cbn in *. by subst.
  - done.
Qed.

(** What an activation that succeeds found, and what it wrote. *)
Record activates (v : InvitedDeviceActivation) (d : db) (x : Device) (d' : db) (i : Invitation) (k : IdentityKey) (h : Challenge) (p : Principal) (name : string)
  (da : db) : Prop := {
  va_valid : validateActivation v = true;
  va_invitation : invitations d !! v_InvitationID v = Some i;
  va_pending : i_ConsumedAt i = None;
  va_token : TokenHash i = v_TokenHash v;
  va_principal : principals d !! i_PrincipalID i = Some p;
  va_key : keys d !! i_IdentityKeyID i = Some k;
  va_key_owner : k_PrincipalID k = i_PrincipalID i;
  va_lifecycle : validateInvitationLifecycle (Purpose i) (p_Status p) (k_Status k) = true;
  va_challenge : challenges d !! v_ChallengeID v = Some h;
  va_matches : challenge_matches (v_InvitationID v) v h = true;
  va_not_revoked : forall o, devices d !! v_PeerID v = Some o -> d_Status o <> StatusRevoked;
  va_device : x = bound_device (d_ID x) name i v;
  va_grants : applyInvitationGrants (v_InvitationID v) i (v_At v) (admitted v i k h x d) = Some da;
  va_audit : appendCollaborationAudit (event_of "" "device.activated" (i_PrincipalID i) (v_PeerID v) "device" (d_ID x) Other) da = Some d' }.

Lemma ActivateInvitedDevice_spec v d x d' : ActivateInvitedDevice v d = Some (x, d') -> exists i k h p name da, activates v d x d' i k h p name da.
Proof.
  unfold ActivateInvitedDevice. intros Ha. cbn zeta in Ha. opt Ha. subst.
  match goal with E : consumeInvitationAndChallenge _ _ _ _ _ = Some _ |- _ => unfold consumeInvitationAndChallenge in E; opt E; subst end.
  same_row.
  match goal with E : bindInvitedDevice _ _ _ = Some _ |- _ => apply bind_device in E as (-> & (name & Hx) & Hn) end. cbn in Hn.
  do 6 eexists. split; try eassumption.
  match goal with H : unset (i_ConsumedAt ?i) = true |- i_ConsumedAt ?i = None => by destruct (i_ConsumedAt i) end.
Qed.

Lemma admitted_extends v i k h p x d : invitations d !! v_InvitationID v = Some i -> i_ConsumedAt i = None -> keys d !! i_IdentityKeyID i = Some k ->
  principals d !! i_PrincipalID i = Some p ->
  challenges d !! v_ChallengeID v = Some h -> challenge_matches (v_InvitationID v) v h = true ->
  (forall o, devices d !! v_PeerID v = Some o -> d_Status o <> StatusRevoked) -> extends d (admitted v i k h x d).
Proof.
  intros Hi Hc Hk Hp Hh Hm Hd. unfold challenge_matches in Hm. bool_hyps.
  assert (rows principal_kept (principals d) (alter activated (i_PrincipalID i) (principals d))) as Rp.
  { apply rows_alter; [apply _|]. intros y _ Hs. unfold activated; cbn. by rewrite Hs. }
  assert (rows key_kept (keys d) (if bool_decide (k_Status k = StatusPending) then <[i_IdentityKeyID i := k_verified (v_At v) k]> (keys d) else keys d)) as Rk.
  { case_bool_decide as Hs; [|done]. eapply rows_insert; [apply _|eassumption|]. split_and!; [done|done|]. by rewrite Hs. }
  assert (rows device_kept (devices d) (<[v_PeerID v := x]> (devices d))) as Rd.
  { intros q y Hy. destruct (decide (q = v_PeerID v)) as [->|Hq].
    - exists x. rewrite lookup_insert_eq. split; [done|]. intros Hs. by destruct (Hd y Hy).
    - exists y. by rewrite lookup_insert_ne. }
  assert (rows invitation_kept (invitations d) (<[v_InvitationID v := i_consumed (v_At v) (v_PeerID v) i]> (invitations d))) as Ri.
  { eapply rows_insert; [apply _|eassumption|]. split_and!; try done. by rewrite Hc. }
  assert (rows challenge_kept (challenges d) (<[v_ChallengeID v := h_consumed (v_At v) h]> (challenges d))) as Rh.
  { eapply rows_insert; [apply _|eassumption|]. split_and!; try done. by destruct (h_ConsumedAt h). }
  unfold admitted. destruct (bool_decide (Purpose i = "new_principal")), (bool_decide (k_Status k = StatusPending)); constructor; cbn; done.
Qed.

(** ** Every binding was proved *)

(** Up to the white space around them. *)
Definition same_name (a b : string) : Prop := TrimSpace a = TrimSpace b.

Lemma find_row {A} (f : string * A -> bool) (m : gmap string A) kv : List.find f (map_to_list m) = Some kv -> m !! kv.1 = Some kv.2 /\ f kv = true.
Proof. intros [Hin Hf]%find_Some_elem. destruct kv. by apply elem_of_map_to_list in Hin. Qed.

(** The key of an invitation has the fingerprint the agent was asked about. *)
Lemma prepare_key y owner input parsed d r p :
  (if bool_decide (p = "new_principal") then prepareNewPrincipal y owner input parsed d
   else if bool_decide (p = "add_device") then prepareExistingDevice input parsed d
   else if bool_decide (p = "rotate_key") then prepareRotatedKey y owner input parsed d else None) = Some r ->
  (exists k, keys r.2 !! r.1.2 = Some k /\ same_name (Fingerprint parsed) (k_Fingerprint k)) /\ (p <> "new_principal" -> r.1.1 = TrimSpace (n_PrincipalID input)).
Proof.
  assert (forall id k d d', AddPrincipalIdentityKey id k d = Some d' -> exists k', keys d' !! id = Some k' /\ same_name (k_Fingerprint k) (k_Fingerprint k')) as Ha.
  { intros id k d0 d1 Hc. unfold AddPrincipalIdentityKey in Hc. cbn zeta in Hc. opt Hc. inserted. subst d1. cbn. rewrite lookup_insert_eq.
    eexists. split; [done|]. symmetry. apply TrimSpace_idem. }
  assert (forall fp d kid k, GetPrincipalIdentityKeyByFingerprint fp d = Some (kid, k) -> keys d !! kid = Some k /\ k_Fingerprint k = fp) as Hf.
  { intros fp d0 kid k Hc. apply find_row in Hc as [Hc Hq]. by bool_hyps. }
  case_bool_decide as Hp; [|case_bool_decide; [|case_bool_decide; [|done]]].
  - unfold prepareNewPrincipal. intros Hc. cbn zeta in Hc. opt Hc. subst r. cbn. split; [|done].
    match goal with E : AddPrincipalIdentityKey _ _ _ = Some _ |- _ => by eapply Ha in E end.
  - unfold prepareExistingDevice. intros Hc. cbn zeta in Hc. opt Hc. subst r. cbn.
    match goal with E : GetPrincipalIdentityKeyByFingerprint _ _ = Some _ |- _ => apply Hf in E as [Hk <-] end. split; [by eexists|done].
  - unfold prepareRotatedKey. intros Hc. cbn zeta in Hc. opt Hc. destruct (GetPrincipalIdentityKeyByFingerprint _ _) as [[kid k]|] eqn:G; opt Hc; subst r; cbn.
    + apply Hf in G as [Hk <-]. split; [by eexists|done].
    + split; [|done]. match goal with E : AddPrincipalIdentityKey _ _ _ = Some _ |- _ => by eapply Ha in E end.
Qed.

Lemma CreateInvitation_key `{SSH} home y at_ input d d' parsed principal b : CreateInvitation home y at_ input d = Some (d', parsed, principal, b) ->
  ParseIdentityPublicKey (n_PublicKey input) = Some parsed /\
  (TrimSpace (n_Purpose input) ∈ ["add_device"; "rotate_key"] -> principal = TrimSpace (n_PrincipalID input)) /\
  exists i k, invitations d' !! y_InvitationID y = Some i /\ i_PrincipalID i = principal /\ keys d' !! i_IdentityKeyID i = Some k /\
    k_PrincipalID k = principal /\ same_name (Fingerprint parsed) (k_Fingerprint k).
Proof.
  unfold CreateInvitation. intros Hc. cbn zeta in Hc. opt Hc. subst.
  match goal with E : (if _ then prepareNewPrincipal _ _ _ _ _ else _) = Some _ |- _ => apply prepare_key in E as [(k & Hk & Hf) Hp]; cbn [fst snd] in * end.
  match goal with E : CreatePrincipalInvitation _ _ _ _ = Some _ |- _ => unfold CreatePrincipalInvitation in E; opt E; inserted; subst end.
  match goal with E : appendCollaborationAudit _ _ = Some _ |- _ => apply append_audit in E as (e & -> & _) end. cbn in *. same_row.
  split; [done|]. split.
  - intros Hin. apply Hp. intros Hn. case_bool_decide as He; [by rewrite He in Hin; set_solver|]. rewrite Hn in Hin. set_solver.
  - eexists _, _. rewrite lookup_insert_eq. split_and!; [done|done|eassumption|done|done].
Qed.

Section Bindings.
Context `{SSH} (Sum256 Sum256_hex : string -> string) (home : string).

(** What a proof is asked for: the peer, the responder, and an invitation for a key of that
    fingerprint. *)
Record asked (d : db) (q : proof_request) : Prop := {
  q_digest : TranscriptSHA256 Sum256_hex (q_challenge q) = Some (q_hash q);
  q_initiator : c_InitiatorPeerID (q_challenge q) = q_peer q;
  q_responder : c_ResponderPeerID (q_challenge q) = home;
  q_invited : exists i k, invitations d !! c_InvitationID (q_challenge q) = Some i /\ same_name (c_PrincipalID (q_challenge q)) (i_PrincipalID i) /\
    keys d !! i_IdentityKeyID i = Some k /\ k_PrincipalID k = i_PrincipalID i /\ same_name (c_Fingerprint (q_challenge q)) (k_Fingerprint k) }.

Definition thread_ok (d : db) (ps : list proof) (th : thread) : Prop :=
  match th with
  | JPrincipal _ s i _ _ | JKey _ s i _ _ _ => exists i', invitations d !! j_InvitationID s = Some i' /\ invitation_kept i i'
  | ChallengeCheck q | ChallengeInsert q | Proof q => asked d q
  | Activate q sig => asked d q /\ exists f, f ∈ ps /\ f_challenge f = q_challenge q /\ f_signature f = sig
  | LCreate _ purpose _ _ _ _ => purpose ∈ ["add_device"; "rotate_key"]
  | _ => True
  end.

(** The history of a binding: the peer that consumed an invitation for this principal and
    key answered a challenge, once, with a signature of this key that was verified. *)
Record bound (d : db) (ps : list proof) (peer : string) (x : Device) : Prop := {
  bound_history : exists i h f k key,
    f ∈ ps /\ f_signature f = BindingSignature x /\ TranscriptSHA256 Sum256_hex (f_challenge f) = Some (BindingTranscriptHash x) /\
    c_InitiatorPeerID (f_challenge f) = peer /\ c_ResponderPeerID (f_challenge f) = home /\
    same_name (c_PrincipalID (f_challenge f)) (d_PrincipalID x) /\
    VerifyDeviceBinding (f_public f) (f_challenge f) (f_signature f) (f_at f) = Some key /\
    invitations d !! c_InvitationID (f_challenge f) = Some i /\ is_Some (i_ConsumedAt i) /\ ConsumedByPeerID i = peer /\
    i_PrincipalID i = d_PrincipalID x /\ i_IdentityKeyID i = d_IdentityKeyID x /\
    challenges d !! c_ID (f_challenge f) = Some h /\ h_InvitationID h = c_InvitationID (f_challenge f) /\ h_Initiator h = peer /\
    TranscriptHash h = BindingTranscriptHash x /\ is_Some (h_ConsumedAt h) /\
    keys d !! d_IdentityKeyID x = Some k /\ k_PrincipalID k = d_PrincipalID x /\ same_name (Fingerprint key) (k_Fingerprint k) }.

Record binding_inv (d : db) (ths : list thread) (ps : list proof) : Prop := {
  inv_proofs : Forall (fun f => is_Some (VerifyDeviceBinding (f_public f) (f_challenge f) (f_signature f) (f_at f))) ps;
  inv_threads : Forall (thread_ok d ps) ths;
  inv_devices : forall peer x, devices d !! peer = Some x -> d_Status x = StatusActive -> bound d ps peer x }.

Lemma asked_later d d' q : extends d d' -> asked d q -> asked d' q.
Proof.
  intros X [H1 H2 H3 (i & k & Hi & Hp & Hk & Ho & Hf)]. split; [done..|].
  destruct (x_invitations _ _ X _ _ Hi) as (i' & Hi' & _ & _ & Ip & Ik & _). destruct (x_keys _ _ X _ _ Hk) as (k' & Hk' & Kp & Kf & _).
  exists i', k'. rewrite Ip, Ik, Kp, Kf. by split_and!.
Qed.

Lemma thread_ok_later d d' ps ps' th : extends d d' -> thread_ok d ps th -> thread_ok d' (ps' ++ ps) th.
Proof.
  intros X. destruct th; cbn; try done; try by apply asked_later.
  1, 2: intros (i' & Hi & Hk); destruct (x_invitations _ _ X _ _ Hi) as (i2 & Hi2 & Hk2); exists i2; (split; [done|]); by etrans.
  intros [Hq (f & Hf & H1 & H2)]. split; [by eapply asked_later|]. exists f. split; [|done]. apply elem_of_app. by right.
Qed.

Lemma bound_later d d' ps ps' peer x : extends d d' -> bound d ps peer x -> bound d' (ps' ++ ps) peer x.
Proof.
  intros X [(i & h & f & k & key & Hf & H1 & H2 & H3 & H4 & H5 & H6 & Hi & [t Hc] & Hb & H7 & H8 & Hh & G1 & G2 & G3 & [u Hu] & Hk & G4 & G5)].
  destruct (x_invitations _ _ X _ _ Hi) as (i' & Hi' & _ & _ & Ip & Ik & Ic). destruct (Ic t Hc) as [Ic1 Ic2].
  destruct (x_challenges _ _ X _ _ Hh) as (h' & Hh' & C1 & C2 & C3 & C4 & C5). destruct (x_keys _ _ X _ _ Hk) as (k' & Hk' & Kp & Kf & _).
  split. exists i', h', f, k', key. split_and!; try done; try congruence; [apply elem_of_app; by right|rewrite (C5 u Hu); by eexists].
Qed.
End Bindings.

Lemma triple_mem {A B C} (a : A) (b : B) (c : C) a' b' c' : Some (a, b, c) = Some (a', b', c') -> b' = b.
Proof. congruence. Qed.

Section Steps.
Context `{SSH} (Sum256 Sum256_hex : string -> string) (home : string).
Abbreviation asked := (asked Sum256_hex home).
Abbreviation thread_ok := (thread_ok Sum256_hex home).
Abbreviation bound := (bound Sum256_hex home).
Abbreviation binding_inv := (binding_inv Sum256_hex home).
Abbreviation thread_step := (thread_step Sum256 Sum256_hex home).

Lemma ask_proof_asked e peer name kind invitationID principal principalKind fingerprint token public at_ th d i k :
  ask_proof Sum256 Sum256_hex home e peer name kind invitationID principal principalKind fingerprint token public at_ = Some th ->
  invitations d !! invitationID = Some i -> same_name principal (i_PrincipalID i) -> keys d !! i_IdentityKeyID i = Some k -> k_PrincipalID k = i_PrincipalID i ->
  same_name fingerprint (k_Fingerprint k) -> forall ps, thread_ok d ps th.
Proof.
  unfold ask_proof, NewDeviceBindingChallenge. intros Hc Hi Hp Hk Ho Hf. cbn zeta in Hc. opt Hc. subst th. cbn.
  match goal with E : (if _ then _ else _) = Some _ |- _ => opt E; subst end.
  split; cbn; try done. by exists i, k.
Qed.

(** An activation binds the device it answers, and wakes no other. *)
Lemma activation_bound q sig e d ps x d' : asked d q -> (exists f, f ∈ ps /\ f_challenge f = q_challenge q /\ f_signature f = sig) ->
  Forall (fun f => is_Some (VerifyDeviceBinding (f_public f) (f_challenge f) (f_signature f) (f_at f))) ps ->
  ActivateInvitedDevice (activation home q sig e) d = Some (x, d') ->
  extends d d' /\ forall peer y, devices d' !! peer = Some y -> d_Status y = StatusActive -> devices d !! peer = Some y \/ bound d' ps peer y.
Proof.
  intros [A1 A2 A3 (i0 & k0 & Hi0 & Hp0 & Hk0 & Ho0 & Hf0)] (f & Hf & Fc & Fs) Hps (i & k & h & p & name & da & [])%ActivateInvitedDevice_spec.
  cbn in *. same_row.
  assert (extends d (admitted (activation home q sig e) i k h x d)) as X1 by (by eapply admitted_extends).
  assert (settles (admitted (activation home q sig e) i k h x d) d') as X2.
  { etrans; [by eapply apply_shares_settles|by eapply settles_audit]. }
  split; [etrans; [exact X1|apply X2]|]. intros peer y Hy Hs. pose proof (x_calm _ _ X2 _ _ Hy Hs) as Hy'.
  assert (devices (admitted (activation home q sig e) i k h x d) = <[q_peer q := x]> (devices d)) as Hd by (unfold admitted; by repeat case_match).
  rewrite Hd in Hy'. apply lookup_insert_Some in Hy' as [[<- <-]|[_ Hy']]; [right|by left].
  set (dm := admitted _ _ _ _ _ _) in *.
  apply (bound_later Sum256_hex home dm d' ps [] (q_peer q) x); [apply X2|].
  assert (invitations dm = <[c_InvitationID (q_challenge q) := i_consumed (now e) (q_peer q) i]> (invitations d)) as Ei by (unfold dm, admitted; by repeat case_match).
  assert (challenges dm = <[c_ID (q_challenge q) := h_consumed (now e) h]> (challenges d)) as Eh by (unfold dm, admitted; by repeat case_match).
  destruct (x_keys _ _ X1 _ _ Hk0) as (k' & Hk' & Kp & Kf & _). rewrite list.Forall_forall in Hps. destruct (Hps f Hf) as [key Hkey].
  assert (Fingerprint key = c_Fingerprint (q_challenge q)) as Ef by (rewrite <- Fc; by apply verified_proof in Hkey as (_ & ? & _)).
  unfold challenge_matches in va_matches0. cbn in va_matches0. bool_hyps.
  split. exists (i_consumed (now e) (q_peer q) i), (h_consumed (now e) h), f, k', key.
  rewrite va_device0, Fc, Ei, Eh, !lookup_insert_eq. cbn. split_and!; try done; try congruence.
Qed.

(** What a step leaves behind: the rows, verified proofs only, a thread that stands on what
    it read, and devices that were active or are bound. *)
Record advances (d : db) (ps : list proof) (d' : db) (th : thread) (qs : list proof) : Prop := {
  adv_extends : extends d d';
  adv_proofs : Forall (fun f => is_Some (VerifyDeviceBinding (f_public f) (f_challenge f) (f_signature f) (f_at f))) qs;
  adv_thread : thread_ok d' (qs ++ ps) th;
  adv_devices : forall peer y, devices d' !! peer = Some y -> d_Status y = StatusActive -> devices d !! peer = Some y \/ bound d' (qs ++ ps) peer y }.

Lemma advances_settles d ps d' th : settles d d' -> thread_ok d' ps th -> advances d ps d' th [].
Proof. intros [X C] T. split; [done|done|done|]. intros peer y Hy Hs. left. by apply C. Qed.

Lemma advances_goto d ps (o : option thread) th d' qs : (forall t, o = Some t -> thread_ok d ps t) -> Some (default Ended o, d, []) = Some (th, d', qs) ->
  advances d ps d' th qs.
Proof. intros Ho [= <- <- <-]. apply advances_settles; [done|]. destruct o as [t|]; [by apply Ho|done]. Qed.

Lemma thread_step_ok e th d ps th' d' qs : thread_ok d ps th ->
  Forall (fun f => is_Some (VerifyDeviceBinding (f_public f) (f_challenge f) (f_signature f) (f_at f))) ps ->
  thread_step e th d = Some (th', d', qs) -> advances d ps d' th' qs.
Proof.
  intros T P. destruct th; cbn [thread_step]; try (apply advances_goto; intros t Ht; opt Ht; subst; try done).
  - by exists x.
  - destruct T as (i' & Hi & K1 & K2 & K3 & K4 & K5). match goal with H : k_PrincipalID _ = _ |- _ => rewrite <- K3 in H end.
    rewrite <- K4 in *. eapply ask_proof_asked in Ht; [exact Ht|exact Hi|unfold same_name; by rewrite K3|eassumption|done|done].
  - destruct (if ok e then _ else None) as [d2|] eqn:E; intros [= <- <- <-]; [|by apply advances_settles]. opt E. apply insert_challenge_settles in E.
    apply advances_settles; [done|]. by eapply asked_later; [apply E|].
  - destruct (VerifyDeviceBinding _ _ _ _) as [key|] eqn:V; intros [= <- <- <-]; [|by apply advances_settles].
    split; [done|apply Forall_singleton; cbn; by rewrite V| |by left]. split; [done|]. eexists. split; [by left|done].
  - destruct T as [A F]. destruct (if ok e then _ else None) as [[x d2]|] eqn:E; intros [= <- <- <-]; [|by apply advances_settles]. opt E.
    destruct (activation_bound q sig e d ps x d2 A F P E) as [X D]. by split.
  - destruct (ResolveActivePrincipalForPeer home d) as [[x p]|]; [destruct (bool_decide _)|]; injection Ht as <-; done.
  - destruct (GetPrincipalIdentityKeyByFingerprint _ d) as [[kid k]|]; opt Ht; subst; cbn; [destruct (bool_decide _)|]; set_solver.
  - destruct (if ok e then _ else None) as [[[[d2 parsed] principal] b]|] eqn:E; [|intros [= <- <- <-]; by apply advances_settles]. opt E.
    pose proof (CreateInvitation_settles _ _ _ _ _ _ E) as X. cbn in X. apply CreateInvitation_key in E as (_ & Hp & i & k & Hi & H1 & Hk & H2 & H3). cbn [n_Purpose n_PrincipalID] in Hp.
    destruct (ask_proof _ _ _ _ _ _ _ _ _ _ _ _ _ _) as [t|] eqn:Q; destruct b; intros [= <- <- <-]; (apply advances_settles; [exact X|]); try exact I.
    eapply ask_proof_asked in Q; [exact Q|exact Hi| |exact Hk|congruence|done].
    unfold same_name. rewrite H1, Hp, TrimSpace_idem; [done|]. cbn in T. apply elem_of_cons in T as [->|T%list_elem_of_singleton]; [by left|rewrite T; right; by left].
  - destruct (if ok e then _ else None) as [d2|] eqn:E; intros [= <- <- <-]; [|by apply advances_settles]. opt E. apply advances_settles; [by eapply SetTaskVisibility_settles|done].
  - done.
Qed.

Lemma binding_inv_advances d ps d' ths th qs n : binding_inv d ths ps -> advances d ps d' th qs -> binding_inv d' (<[n := th]> ths) (qs ++ ps).
Proof.
  intros [P T D] [X Q A B]. split.
  - by apply Forall_app.
  - apply Forall_insert; [|done]. eapply Forall_impl; [exact T|]. intros t. by apply thread_ok_later.
  - intros peer x Hx Hs. destruct (B peer x Hx Hs) as [Ho|Hb]; [|done]. by apply (bound_later Sum256_hex home d d' ps qs); [|apply D].
Qed.

Lemma binding_inv_settles d d' ths ps : binding_inv d ths ps -> settles d d' -> binding_inv d' ths ps.
Proof.
  intros [P T D] [X C]. split; [done| |].
  - eapply Forall_impl; [exact T|]. intros t. by apply (thread_ok_later Sum256_hex home d d' ps []).
  - intros peer x Hx Hs. by apply (bound_later Sum256_hex home d d' ps []); [|apply D; [apply C|]].
Qed.

Lemma binding_inv_spawn s th : binding_inv (mem s) (threads s) (proofs s) -> thread_ok (mem s) (proofs s) th ->
  binding_inv (mem (spawn th s)) (threads (spawn th s)) (proofs (spawn th s)).
Proof. intros [P T D] Ht. split; [done|cbn; by apply Forall_app; split; [|apply Forall_singleton]|done]. Qed.

Abbreviation step := (step Sum256 Sum256_hex home).
Abbreviation run := (run Sum256 Sum256_hex home).

Lemma step_extends s l s' : binding_inv (mem s) (threads s) (proofs s) -> step s l = Some s' ->
  extends (mem s) (mem s') /\ binding_inv (mem s') (threads s') (proofs s').
Proof.
  intros I. destruct l; cbn [step].
  - intros [= <-]. cbn. destruct (apply_op home o (mem s)) as [d|] eqn:E; cbn; [|by split].
    apply apply_op_settles in E. split; [apply E|by eapply binding_inv_settles].
  - intros [= <-]. unfold accept_join. destruct (negb _); [by split|]. destruct (allow _ _ _ _) as [b l]. destruct b; split; try done.
    apply (binding_inv_spawn {| mem := mem s; threads := threads s; proofs := proofs s; limiter := l |}); done.
  - intros [= <-]. split; [done|by apply binding_inv_spawn].
  - intros [= <-]. split; [done|by apply binding_inv_spawn].
  - intros [= <-]. split; [done|by apply binding_inv_spawn].
  - intros Hs. opt Hs. subst s'. cbn. destruct I as [P T D].
    match goal with E : threads s !! _ = Some _ |- _ => pose proof (proj1 (Forall_lookup _ _) T _ _ E) as Ht end.
    match goal with E : thread_step _ _ _ = Some _ |- _ => pose proof (thread_step_ok _ _ _ _ _ _ _ Ht P E) as A end.
    split; [apply A|]. by eapply binding_inv_advances.
Qed.

Lemma run_extends s ls s' : binding_inv (mem s) (threads s) (proofs s) -> run s ls = Some s' ->
  extends (mem s) (mem s') /\ binding_inv (mem s') (threads s') (proofs s').
Proof.
  revert s. induction ls as [|l ls IH]; intros s I; cbn [run]; [by intros [= <-]|]. intros Hr. opt Hr.
  match goal with E : step _ _ = Some _ |- _ => apply step_extends in E as [X I']; [|exact I] end.
  apply IH in Hr as [X' I'']; [|exact I']. split; [by etrans|done].
Qed.

Lemma migrated_inv users peers : binding_inv (mem (migrated users peers)) (threads (migrated users peers)) (proofs (migrated users peers)).
Proof.
  split; [constructor|constructor|]. cbn. intros peer x Hx Hs. exfalso. revert Hx.
  induction peers as [|[q [o [name r]]] peers IH]; cbn; [by rewrite lookup_empty|]. unfold migrate_peer at 1. cbn.
  intros [[_ <-]|[_ Hx]]%lookup_insert_Some; [|by apply IH]. by destruct r.
Qed.
End Steps.

(** ** The epoch of a share marks who may use it *)

(** Open grants are of shares that exist and of principals that are active. *)
Record access_inv (d : db) : Prop := {
  ai_share : forall g, g ∈ grants d -> is_Some (shares d !! g_ShareID g);
  ai_active : forall g, g ∈ grants d -> g_RevokedAt g = None -> p_Status <$> principals d !! g_PrincipalID g = Some StatusActive }.

(** The share has a later epoch, or everybody may do what they might. *)
Definition moves (t0 : Z) (share : string) (d d' : db) : Prop :=
  (exists a b, shares d !! share = Some a /\ shares d' !! share = Some b /\ AccessEpoch a < AccessEpoch b) \/
  (shares d' !! share = shares d !! share /\
   forall p c t, t0 <= t -> HasWorkspaceCapability p share c t d' = HasWorkspaceCapability p share c t d).

#[export] Instance moves_preorder t0 share : PreOrder (moves t0 share).
Proof.
  split; [intros d; by right|]. intros d1 d2 d3 [(a & b & H1 & H2 & H3)|[H1 H2]] [(a' & b' & G1 & G2 & G3)|[G1 G2]].
  - left. exists a, b'. split_and!; [done|done|]. assert (a' = b) by congruence. subst. lia.
  - left. exists a, b. split_and!; [done|congruence|done].
  - left. exists a', b'. split_and!; [congruence|done|done].
  - right. split; [congruence|]. intros p c t Ht. by rewrite G2, H2.
Qed.

(** Where open grants are of active principals, the grants and the share say it all. *)
Lemma has_grants p share c t d : access_inv d -> HasWorkspaceCapability p share c t d =
  ValidWorkspaceCapability c && existsb (holds p share c t) (grants d) &&
  match shares d !! share with Some s => bool_decide (w_Status s = StatusActive) | None => false end.
Proof.
  intros I. unfold HasWorkspaceCapability. destruct (existsb _ _) eqn:E; [|by destruct (ValidWorkspaceCapability c)].
  apply existsb_exists in E as (g & Hg%list_elem_of_In & Hh). unfold holds, open_grant in Hh. bool_hyps. subst.
  destruct (g_RevokedAt g) as [u|] eqn:R; [done|]. pose proof (ai_active _ I g Hg R) as Ha. destruct (principals d !! g_PrincipalID g) as [q|]; [|done].
  cbn in Ha. injection Ha as Ha. by rewrite bool_decide_eq_true_2, andb_true_r.
Qed.

Lemma moves_same t0 share d d' : access_inv d -> access_inv d' -> shares d' !! share = shares d !! share ->
  (forall p c t, t0 <= t -> existsb (holds p share c t) (grants d') = existsb (holds p share c t) (grants d)) -> moves t0 share d d'.
Proof. intros I I' Hs Hg. right. split; [done|]. intros p c t Ht. rewrite !has_grants by done. by rewrite Hs, Hg. Qed.

Lemma existsb_update {A} (f w : A -> bool) (u : A -> A) l : (forall x, x ∈ l -> w x = true -> f (u x) = f x) -> existsb f (update_list w u l) = existsb f l.
Proof.
  induction l as [|x l IH]; intros H; [done|]. unfold update_list in *. cbn. rewrite IH by (intros y Hy; apply H; by right). f_equal.
  destruct (w x) eqn:E; [|done]. apply H; [by left|done].
Qed.

Lemma existsb_none {A} (f : A -> bool) l : (forall x, x ∈ l -> f x = false) -> existsb f l = false.
Proof. induction l as [|x l IH]; intros H; [done|]. cbn. rewrite (H x) by by left. apply IH. intros y Hy. apply H. by right. Qed.

Lemma update_list_elem {A} (w : A -> bool) (u : A -> A) l y : y ∈ update_list w u l -> exists x, x ∈ l /\ y = if w x then u x else x.
Proof. unfold update_list. intros (x & -> & Hx)%list_elem_of_fmap. by exists x. Qed.

Lemma access_inv_tables d d' : access_inv d -> grants d' = grants d -> (forall id, is_Some (shares d !! id) -> is_Some (shares d' !! id)) ->
  (forall id, p_Status <$> principals d !! id = Some StatusActive -> p_Status <$> principals d' !! id = Some StatusActive) -> access_inv d'.
Proof. intros [A B] Hg Hs Hp. split; rewrite Hg; [intros g Hi; by apply Hs, A|intros g Hi Hr; by apply Hp, B]. Qed.

(** What leaves grants and shares alone moves no share. *)
Lemma moves_tables t0 d d' : access_inv d -> grants d' = grants d -> shares d' = shares d ->
  (forall id, p_Status <$> principals d !! id = Some StatusActive -> p_Status <$> principals d' !! id = Some StatusActive) ->
  access_inv d' /\ forall share, moves t0 share d d'.
Proof.
  intros I Hg Hs Hp. assert (access_inv d') as I' by (eapply access_inv_tables; [exact I|done|by rewrite Hs|done]).
  split; [done|]. intros share. apply moves_same; [done|done|by rewrite Hs|by rewrite Hg].
Qed.

Lemma moves_audit t0 e d d' : access_inv d -> appendCollaborationAudit e d = Some d' -> access_inv d' /\ forall share, moves t0 share d d'.
Proof. intros I (e' & -> & _)%append_audit. by apply moves_tables. Qed.

Lemma close_grants_inv share principal at_ d : access_inv d -> access_inv (close_grants share principal at_ d).
Proof.
  intros [A B]. split; cbn; intros g (g0 & Hg & ->)%update_list_elem; destruct (open_grant _ _ _); cbn; try done; [by apply (A g0)|by apply (A g0)|by apply (B g0)].
Qed.

Lemma replace_grants_moves t0 share principal actor ev new at_ d d' : access_inv d -> p_Status <$> principals d !! principal = Some StatusActive ->
  replace_grants share principal actor ev new at_ d = Some d' -> (access_inv d' /\ forall s, moves t0 s d d') /\ principals d' = principals d.
Proof.
  intros I Ha. unfold replace_grants. intros Hc. cbn zeta in Hc. opt Hc.
  match goal with E : insert_grants _ _ = Some _ |- _ => apply insert_grants_only in E; subst end. apply append_audit in Hc as (e' & -> & _).
  match goal with E : shares d !! share = Some ?y |- _ => rename y into s, E into Hs end. cbn.
  set (gs := map _ new). split; [|done].
  assert (Forall (fun g => g_ShareID g = share /\ g_PrincipalID g = principal) gs) as Hgs.
  { apply list.Forall_forall. intros g (c & -> & _)%list_elem_of_fmap. done. }
  match goal with |- access_inv ?z /\ _ => set (d' := z) end.
  assert (access_inv d') as I'.
  { destruct (close_grants_inv share principal at_ _ I) as [A B]. rewrite list.Forall_forall in Hgs. split; cbn; intros g Hg.
    - apply elem_of_app in Hg as [Hg|Hg].
      + destruct (decide (g_ShareID g = share)) as [->|Hn]; [by rewrite lookup_insert_eq|]. rewrite lookup_insert_ne by done. by apply (A g).
      + destruct (Hgs g Hg) as [-> _]. by rewrite lookup_insert_eq.
    - apply elem_of_app in Hg as [Hg|Hg]; intros Hr; [by apply (B g)|]. by destruct (Hgs g Hg) as [_ ->]. }
  split; [done|]. intros share'. destruct (decide (share' = share)) as [->|Hn].
  - left. exists s, (bumped s). cbn. rewrite lookup_insert_eq. split_and!; [done|done|cbn; lia].
  - apply moves_same; [done|done|cbn; by rewrite lookup_insert_ne|]. intros p c t _. cbn. rewrite existsb_app, existsb_update, (existsb_none _ gs), orb_false_r; [done| |].
    + intros g Hg. rewrite list.Forall_forall in Hgs. destruct (Hgs g Hg) as [Hsh _]. unfold holds, open_grant. rewrite Hsh. by rewrite bool_decide_eq_false_2.
    + intros g _ Ho. unfold holds, open_grant in *. cbn. bool_hyps. by rewrite bool_decide_eq_false_2 by congruence.
Qed.

Lemma apply_shares_moves t0 i at_ order gs d d' : access_inv d -> p_Status <$> principals d !! i_PrincipalID i = Some StatusActive ->
  apply_shares i at_ order gs d = Some d' -> access_inv d' /\ forall s, moves t0 s d d'.
Proof.
  revert d. induction order as [|s order IH]; intros d I Ha; cbn [apply_shares]; [by intros [= <-]|]. intros Hc. opt Hc.
  match goal with E : replace_grants _ _ _ _ _ _ _ = Some _ |- _ => apply (replace_grants_moves t0) in E as [[I' M] Hp]; [|done|done] end.
  apply IH in Hc as [I'' M']; [|done|by rewrite Hp]. split; [done|]. intros share. etrans; [apply M|apply M'].
Qed.

Ltac tables := eapply moves_tables; [eassumption|done|done|done].

Lemma SetWorkspaceGrants_moves t0 w d d' : access_inv d -> ws_At w <= t0 -> SetWorkspaceGrants w d = Some d' -> access_inv d' /\ forall s, moves t0 s d d'.
Proof.
  intros I Ht. unfold SetWorkspaceGrants. intros Hc. cbn zeta in Hc. opt Hc.
  - by subst.
  - subst d'. match goal with E : effectiveWorkspaceGrants _ _ = [] |- _ => rename E into He end.
    assert (access_inv (close_grants (ws_ShareID w) (ws_PrincipalID w) (ws_At w) d)) as I' by (by apply close_grants_inv).
    split; [done|]. intros s. apply moves_same; [done|done|done|]. intros p c t Hle. cbn. apply existsb_update. intros g Hg Ho.
    assert (later (g_ExpiresAt g) (ws_At w) = false) as Hl.
    { destruct (later (g_ExpiresAt g) (ws_At w)) eqn:L; [|done]. exfalso. assert (g ∈ @nil Grant) as Hn; [|by apply elem_of_nil in Hn]. rewrite <- He.
      apply list_elem_of_In, List.filter_In. split; [apply list_elem_of_In, list_elem_of_In, List.filter_In; split; [by apply list_elem_of_In|done]|].
      unfold open_grant in Ho. bool_hyps. by rewrite L, andb_true_r. }
    unfold holds. unfold open_grant. cbn. rewrite andb_false_r. symmetry. apply andb_false_iff. right.
    unfold later in *. destruct (g_ExpiresAt g); [|done]. apply Z.ltb_ge in Hl. apply Z.ltb_ge. lia.
  - eapply replace_grants_moves in Hc as [[I' M] _]; [by split|done|].
    match goal with E : principals d !! ws_PrincipalID w = Some _ |- _ => by rewrite E; cbn; f_equal end.
Qed.

Lemma RevokePrincipal_moves t0 id reason at_ d d' : access_inv d -> RevokePrincipal id reason at_ d = Some d' -> access_inv d' /\ forall s, moves t0 s d d'.
Proof.
  intros I. unfold RevokePrincipal. intros Hc. cbn zeta in Hc. opt Hc; [by subst|]. apply append_audit in Hc as (e & -> & _).
  match goal with |- access_inv ?z /\ _ => set (d' := z) end. set (ids := activeGrantShareIDs id d) in *.
  assert (forall s, foldr (fun s m => alter bumped s m) (shares d) ids !! s = if bool_decide (s ∈ ids) then bumped <$> shares d !! s else shares d !! s) as Hs.
  { assert (NoDup ids) as Hnd by apply NoDup_remove_dups. clear -Hnd. intros s. induction ids as [|x l IH]; [done|]. apply NoDup_cons in Hnd as [Hx Hnd]. cbn.
    destruct (decide (s = x)) as [->|Hn].
    - rewrite lookup_alter_eq, IH by done. rewrite (bool_decide_eq_true_2 (x ∈ x :: l)) by by left. by rewrite bool_decide_eq_false_2.
    - rewrite lookup_alter_ne by done. rewrite IH by done. do 2 case_bool_decide; set_solver. }
  assert (access_inv d') as I'.
  { destruct I as [A B]. split; cbn; intros g (g0 & Hg & ->)%update_list_elem.
    - rewrite Hs. assert (is_Some (shares d !! g_ShareID g0)) as [y Hy] by (by apply A). destruct (bool_decide _ && _); cbn; rewrite Hy; by case_bool_decide; eexists.
    - destruct (bool_decide (g_PrincipalID g0 = id) && unset (g_RevokedAt g0)) eqn:W; [done|]. intros Hr. rewrite Hr in W. cbn in W. rewrite andb_true_r in W. bool_hyps.
      rewrite lookup_alter_ne by done. by apply B. }
  split; [done|]. intros s. destruct (decide (s ∈ ids)) as [Hin|Hout].
  - left. assert (exists a, shares d !! s = Some a) as [a Ha].
    { unfold ids, activeGrantShareIDs in Hin. rewrite elem_of_remove_dups in Hin. apply list_elem_of_fmap in Hin as (g & -> & Hg%list_elem_of_In).
      apply List.filter_In in Hg as [Hg%list_elem_of_In _]. by apply (ai_share _ I). }
    exists a, (bumped a). cbn. rewrite Hs, bool_decide_eq_true_2, Ha by done. split_and!; [done|done|cbn; lia].
  - apply moves_same; [done|done|cbn; by rewrite Hs, bool_decide_eq_false_2|]. intros p c t _. cbn. apply existsb_update. intros g Hg W. bool_hyps.
    unfold holds, open_grant. cbn. rewrite andb_false_r. cbn. destruct (bool_decide (g_ShareID g = s)) eqn:Q; [|done]. bool_hyps. exfalso. apply Hout.
    unfold ids, activeGrantShareIDs. rewrite elem_of_remove_dups. apply list_elem_of_fmap. exists g. split; [done|].
    apply list_elem_of_In, List.filter_In. split; [by apply list_elem_of_In|]. apply andb_true_iff. by rewrite bool_decide_eq_true_2.
Qed.

(** What an invitation leaves alone. *)
Definition same_tasks (d d' : db) : Prop := tasks d' = tasks d /\ audience d' = audience d.

(** Events that say nothing of access. *)
Definition quiet (d d' : db) : Prop := exists es, audit d' = es ++ audit d /\ Forall (fun e => Details e = Other) es.

Definition same_access (d d' : db) : Prop :=
  grants d' = grants d /\ shares d' = shares d /\ quiet d d' /\ same_tasks d d' /\ forall id p, principals d !! id = Some p -> principals d' !! id = Some p.

#[export] Instance same_tasks_preorder : PreOrder same_tasks.
Proof. split; [intros d; by split|]. intros d1 d2 d3 [] []. split; congruence. Qed.

#[export] Instance quiet_preorder : PreOrder quiet.
Proof.
  split; [intros d; by exists []|]. intros d1 d2 d3 (es & E & F) (es' & E' & F'). exists (es' ++ es). rewrite <- app_assoc, <- E. split; [done|].
  by apply Forall_app.
Qed.

#[export] Instance same_access_preorder : PreOrder same_access.
Proof.
  split; [intros d; by split_and!|]. intros d1 d2 d3 (A1 & A2 & A3 & A4 & A5) (B1 & B2 & B3 & B4 & B5).
  split_and!; [congruence|congruence|by etrans|by etrans|auto].
Qed.

Lemma same_access_moves t0 d d' : access_inv d -> same_access d d' -> access_inv d' /\ forall s, moves t0 s d d'.
Proof.
  intros I (Hg & Hs & _ & _ & Hp). eapply moves_tables; [done..|]. intros id Ha. destruct (principals d !! id) as [p|] eqn:E; [|done]. by rewrite (Hp _ _ E).
Qed.

Lemma CreatePrincipal_access id p d d' : CreatePrincipal id p d = Some d' -> same_access d d'.
Proof.
  unfold CreatePrincipal. intros Hc. opt Hc. inserted. subst d'. split_and!; [done|done|by exists []|done|]. intros j q Hj. cbn. rewrite lookup_insert_ne; [done|congruence].
Qed.

Lemma AddPrincipalIdentityKey_access id k d d' : AddPrincipalIdentityKey id k d = Some d' -> same_access d d'.
Proof. unfold AddPrincipalIdentityKey. intros Hc. cbn zeta in Hc. opt Hc. subst d'. split_and!; [done|done|by exists []|done|done]. Qed.

Lemma prepare_access y owner input parsed d r p :
  (if bool_decide (p = "new_principal") then prepareNewPrincipal y owner input parsed d
   else if bool_decide (p = "add_device") then prepareExistingDevice input parsed d
   else if bool_decide (p = "rotate_key") then prepareRotatedKey y owner input parsed d else None) = Some r -> same_access d r.2.
Proof.
  destruct (bool_decide (p = "new_principal")); [|destruct (bool_decide (p = "add_device")); [|destruct (bool_decide (p = "rotate_key")); [|done]]].
  - unfold prepareNewPrincipal. intros Hc. cbn zeta in Hc. opt Hc. subst r. etrans; [by eapply CreatePrincipal_access|by eapply AddPrincipalIdentityKey_access].
  - unfold prepareExistingDevice. intros Hc. cbn zeta in Hc. opt Hc. by subst r.
  - unfold prepareRotatedKey. intros Hc. cbn zeta in Hc. opt Hc. destruct (GetPrincipalIdentityKeyByFingerprint _ _) as [[kid k]|]; opt Hc; subst r; [done|].
    by eapply AddPrincipalIdentityKey_access.
Qed.

Lemma CreateInvitation_access `{SSH} home y at_ input d r : CreateInvitation home y at_ input d = Some r -> same_access d r.1.1.1.
Proof.
  unfold CreateInvitation. intros Hc. cbn zeta in Hc. opt Hc. subst r. cbn [fst].
  match goal with E : (if _ then prepareNewPrincipal _ _ _ _ _ else _) = Some _ |- _ => apply prepare_access in E; cbn [snd] in E end.
  match goal with E : appendCollaborationAudit _ _ = Some _ |- _ => apply append_audit in E as (e & -> & _ & _ & _ & He) end.
  etrans; [eassumption|]. match goal with E : CreatePrincipalInvitation _ _ _ _ = Some _ |- _ => unfold CreatePrincipalInvitation in E; opt E; subst end.
  split_and!; [done|done|exists [e]; split; [done|by constructor]|done|done].
Qed.

Lemma ActivateInvitedDevice_moves t0 v d x d' : access_inv d -> ActivateInvitedDevice v d = Some (x, d') -> access_inv d' /\ forall s, moves t0 s d d'.
Proof.
  intros I (i & k & h & p & name & da & [])%ActivateInvitedDevice_spec.
  assert (access_inv (admitted v i k h x d) /\ forall s, moves t0 s d (admitted v i k h x d)) as [I1 M1].
  { apply moves_tables; [done|unfold admitted; by repeat case_match|unfold admitted; by repeat case_match|].
    intros id Ha. unfold admitted. destruct (bool_decide (Purpose i = _)), (bool_decide (k_Status k = _)); cbn; try done;
      (destruct (decide (i_PrincipalID i = id)) as [->|Hn]; [rewrite lookup_alter_eq|by rewrite lookup_alter_ne]);
      (destruct (principals d !! id); [|done]); cbn in *; by injection Ha as ->. }
  assert (p_Status <$> principals (admitted v i k h x d) !! i_PrincipalID i = Some StatusActive) as Ha.
  { unfold admitted. destruct (lifecycle_purpose _ _ _ va_lifecycle0) as [Hp|[Hp Hs]].
    - rewrite (bool_decide_eq_true_2 (Purpose i = _)) by done. destruct (bool_decide (k_Status k = _)); cbn; rewrite lookup_alter_eq, va_principal0; cbn; f_equal;
        unfold validateInvitationLifecycle in va_lifecycle0; rewrite bool_decide_eq_true_2 in va_lifecycle0 by done; bool_hyps; by rewrite bool_decide_eq_true_2.
    - rewrite (bool_decide_eq_false_2 (Purpose i = _)) by (intros E; rewrite E in Hp; set_solver).
      destruct (bool_decide (k_Status k = _)); cbn; rewrite va_principal0; cbn; by rewrite Hs. }
  eapply apply_shares_moves in va_grants0 as [I2 M2]; [|done|done]. eapply moves_audit in va_audit0 as [I3 M3]; [|done].
  split; [done|]. intros s. etrans; [apply M1|]. etrans; [apply M2|apply M3].
Qed.

(** What a share is after a step: gone, or at an epoch that is not earlier, and later where
    what somebody may do in it has changed. *)
Definition marked (t0 : Z) (d d' : db) : Prop := forall share, shares d' !! share = None \/
  ((forall a b, shares d !! share = Some a -> shares d' !! share = Some b -> AccessEpoch a <= AccessEpoch b) /\
   forall p c t, t0 <= t -> HasWorkspaceCapability p share c t d' <> HasWorkspaceCapability p share c t d ->
     exists a b, shares d !! share = Some a /\ shares d' !! share = Some b /\ AccessEpoch a < AccessEpoch b).

Lemma moves_marked t0 d d' : access_inv d' /\ (forall s, moves t0 s d d') -> access_inv d' /\ marked t0 d d'.
Proof.
  intros [I M]. split; [done|]. intros share. right. destruct (M share) as [(a & b & Ha & Hb & L)|[Hs Hh]]; split.
  - intros a' b' Ha' Hb'. same_row. lia.
  - intros p c t _ _. by exists a, b.
  - intros a b Ha Hb. rewrite Hs in Hb. same_row. lia.
  - intros p c t Ht Hn. by rewrite Hh in Hn.
Qed.

Lemma CreateWorkspaceShare_marked t0 id ws peer owner d d' : access_inv d -> CreateWorkspaceShare id ws peer owner d = Some d' -> access_inv d' /\ marked t0 d d'.
Proof.
  intros I. unfold CreateWorkspaceShare. intros Hc. opt Hc. inserted. subst d'.
  match goal with |- access_inv ?z /\ _ => set (d' := z) end.
  assert (access_inv d') as I'.
  { eapply access_inv_tables; [exact I|done| |done]. intros s Hs. cbn. destruct (decide (s = id)) as [->|Hn]; [by rewrite lookup_insert_eq; eexists|].
    by rewrite lookup_insert_ne. }
  split; [done|]. intros s. right. destruct (decide (s = id)) as [->|Hn]; cbn.
  - split; [intros a b Ha; congruence|]. intros p c t _ Hd. exfalso. apply Hd. rewrite !has_grants by done. cbn.
    match goal with E : shares d !! id = None |- _ => rename E into Hf end. rewrite (existsb_none _ (grants d)); [by rewrite !andb_false_r|].
    intros g Hg. destruct (ai_share _ I g Hg) as [y Hy]. unfold holds, open_grant. rewrite bool_decide_eq_false_2; [done|congruence].
  - rewrite lookup_insert_ne by done. split; [intros a b Ha Hb; same_row; lia|]. intros p c t _ Hd. exfalso. apply Hd. rewrite !has_grants by done. cbn.
    by rewrite lookup_insert_ne.
Qed.

Lemma DeleteWorkspace_marked t0 ws d d' : access_inv d -> DeleteWorkspace ws d = Some d' -> access_inv d' /\ marked t0 d d'.
Proof.
  intros I. unfold DeleteWorkspace. intros Hc. cbn zeta in Hc.
  destruct (GetWorkspaceShareByLocalWorkspaceID _ _) as [[id s]|]; opt Hc; subst; [|apply moves_marked; by apply moves_tables].
  match goal with |- access_inv ?z /\ _ => set (d' := z) end.
  assert (forall g, g ∈ grants d' -> g ∈ grants d /\ g_ShareID g <> id) as Hg.
  { intros g Hg. cbn in Hg. apply list_elem_of_In, List.filter_In in Hg as [Hg Hn]. bool_hyps. split; [by apply list_elem_of_In|done]. }
  assert (access_inv d') as I'.
  { destruct I as [A B]. split; intros g [Hi Hn]%Hg; [cbn; rewrite lookup_delete_ne by done; by apply A|by apply B]. }
  split; [done|]. intros share. destruct (decide (share = id)) as [->|Hn]; [left; cbn; by rewrite lookup_delete_eq|right].
  cbn. rewrite lookup_delete_ne by done. split; [intros a b Ha Hb; same_row; lia|]. intros p c t _ Hd. exfalso. apply Hd. rewrite !has_grants by done. cbn.
  rewrite lookup_delete_ne by done. f_equal. f_equal. clear -Hn. induction (grants d) as [|g gs IH]; [done|]. cbn.
  destruct (negb (bool_decide (g_ShareID g = id))) eqn:E; cbn; rewrite IH; [done|]. bool_hyps.
  unfold holds, open_grant. rewrite bool_decide_eq_false_2; [done|congruence].
Qed.

(** The clock a step that replaces grants was given. *)
Definition not_before (l : label) (t : Z) : Prop := match l with Op (OSetGrants w) => ws_At w <= t | _ => True end.

Lemma apply_op_marked `{SSH} home t0 o d d' : access_inv d -> not_before (Op o) t0 -> apply_op home o d = Some d' -> access_inv d' /\ marked t0 d d'.
Proof.
  intros I Hn. destruct o; cbn [apply_op not_before] in *; intros Hc.
  - apply moves_marked. unfold EnsureLocalOwner in Hc. opt Hc; [by subst|by eapply same_access_moves, CreatePrincipal_access].
  - unfold EnsureWorkspaceShare in Hc. opt Hc; [subst; by apply moves_marked|by eapply CreateWorkspaceShare_marked].
  - apply moves_marked. apply fmap_Some in Hc as (r & Hc & ->). by eapply same_access_moves, CreateInvitation_access.
  - apply moves_marked. unfold RevokePrincipalInvitation in Hc. opt Hc; [by subst|]. apply append_audit in Hc as (e & -> & _). tables.
  - apply moves_marked. by eapply SetWorkspaceGrants_moves.
  - apply moves_marked. unfold PutWorkspacePublicationPolicy in Hc. cbn zeta in Hc. opt Hc. apply append_audit in Hc as (e & -> & _). tables.
  - apply moves_marked. by eapply RevokePrincipal_moves.
  - apply moves_marked. unfold RevokePrincipalDevice in Hc. opt Hc; [by subst|]. apply append_audit in Hc as (e & -> & _). tables.
  - apply moves_marked. unfold RevokePrincipalIdentityKey in Hc. opt Hc; [by subst|]. apply append_audit in Hc as (e & -> & _). tables.
  - apply moves_marked. unfold UpdatePrincipalDisplayName in Hc. opt Hc. subst. eapply moves_tables; [done..|]. intros j Ha. cbn.
    destruct (decide (j = id)) as [->|Hj]; [rewrite lookup_insert_eq|by rewrite lookup_insert_ne].
    match goal with E : principals d !! id = Some _ |- _ => by rewrite E in Ha end.
  - apply moves_marked. unfold SetTaskVisibility in Hc. cbn zeta in Hc. opt Hc; [by subst|]. apply append_audit in Hc as (e & -> & _). tables.
  - apply moves_marked. unfold RecordTaskDisclosure in Hc. opt Hc. subst. tables.
  - apply moves_marked. apply installWorkspaceMemberships_only in Hc as [m ->]. tables.
  - apply moves_marked. unfold AdvanceWorkspaceMembershipCursor in Hc. opt Hc. subst. tables.
  - apply moves_marked. unfold RevokeWorkspaceMembership in Hc. opt Hc; subst; tables.
  - apply moves_marked. unfold CreateTask in Hc. opt Hc. subst. tables.
  - apply moves_marked. unfold PlaceTask in Hc. opt Hc. subst. tables.
  - by eapply DeleteWorkspace_marked.
Qed.

(** ** Who reads a task *)

(** While the visibility epoch of a task stays, so do its visibility, its owner and its
    audience. *)
Definition stands (d d' : db) : Prop := forall task a, tasks d !! task = Some a -> exists b, tasks d' !! task = Some b /\
  (VisibilityEpoch a < VisibilityEpoch b \/
   (VisibilityEpoch b = VisibilityEpoch a /\ Visibility b = Visibility a /\ t_Owner b = t_Owner a /\
    List.filter (open_audience task) (audience d') = List.filter (open_audience task) (audience d))).

#[export] Instance stands_preorder : PreOrder stands.
Proof.
  split; [intros d task a Ha; exists a; split; [done|by right]|]. intros d1 d2 d3 S1 S2 task a Ha. destruct (S1 task a Ha) as (b & Hb & H1).
  destruct (S2 task b Hb) as (c & Hc & H2). exists c. split; [done|]. destruct H1 as [H1|(A1 & A2 & A3 & A4)], H2 as [H2|(B1 & B2 & B3 & B4)]; try (left; lia).
  right. split_and!; congruence.
Qed.

Lemma stands_same d d' : tasks d' = tasks d -> audience d' = audience d -> stands d d'.
Proof. intros Ht Ha task a Hr. exists a. rewrite Ht, Ha. split; [done|by right]. Qed.

Lemma stands_placed d d' f : tasks d' = f <$> tasks d -> audience d' = audience d -> (forall a, exists ws b, f a = placed ws b a \/ f a = a) -> stands d d'.
Proof.
  intros Ht Ha Hf task a Hr. exists (f a). rewrite Ht, Ha, lookup_fmap, Hr. split; [done|right]. by destruct (Hf a) as (ws & b & [->| ->]).
Qed.

Lemma filter_update_other (task task' : string) u (l : list AudienceRow) : task <> task' -> (forall a, a_TaskID (u a) = a_TaskID a) ->
  List.filter (open_audience task) (update_list (open_audience task') u l) = List.filter (open_audience task) l.
Proof.
  intros Hn Hu. unfold update_list. induction l as [|a l IH]; [done|]. cbn. destruct (open_audience task' a) eqn:E; [|by rewrite IH].
  unfold open_audience in *. bool_hyps. rewrite !bool_decide_eq_false_2; [cbn; exact IH|congruence|rewrite Hu; congruence].
Qed.

Lemma SetTaskVisibility_stands c d d' : SetTaskVisibility c d = Some d' -> stands d d'.
Proof.
  unfold SetTaskVisibility. intros Hc. cbn zeta in Hc. opt Hc; [by subst|]. apply append_audit in Hc as (e & -> & _).
  match goal with E : tasks d !! _ = Some ?t |- _ => rename t into row, E into Ht end.
  match goal with E : GetTaskAccess _ _ = Some _ |- _ => unfold GetTaskAccess in E; opt E; subst end. same_row.
  intros task a Ha. cbn. destruct (decide (task = e_TaskID c)) as [->|Hn].
  - rewrite lookup_insert_eq. eexists. split; [done|]. left. same_row. cbn. lia.
  - rewrite lookup_insert_ne by done. exists a. split; [done|right]. split_and!; try done. unfold reaudience.
    rewrite List.filter_app, filter_update_other by done. match goal with |- _ ++ ?l = _ => assert (l = []) as -> end; [|by rewrite app_nil_r].
    match goal with |- List.filter _ (map ?f ?l) = [] => generalize l end. intros l. induction l as [|y l IH]; [done|]. cbn.
    unfold open_audience at 1. cbn. by rewrite bool_decide_eq_false_2.
Qed.

Lemma normalizedPrincipalIDs_perm input ids : normalizedPrincipalIDs input = Some ids -> Permutation ids (map TrimSpace input).
Proof. unfold normalizedPrincipalIDs. intros Hc. opt Hc. subst. apply SliceStable_perm. Qed.

Lemma opened_audience task actor epoch at_ ids l :
  map a_PrincipalID (List.filter (open_audience task) (reaudience task actor epoch at_ ids l)) = ids.
Proof.
  unfold reaudience, update_list. rewrite List.filter_app, map_app.
  assert (forall f, (forall a, open_audience task a = true -> open_audience task (f a) = false) ->
    List.filter (open_audience task) (map (fun a => if open_audience task a then f a else a) l) = []) as Hcl.
  { intros f Hf. induction l as [|a l IH]; [done|]. cbn. destruct (open_audience task a) eqn:E; [by rewrite Hf|by rewrite E]. }
  rewrite Hcl; [|intros a _; unfold open_audience; cbn; by rewrite andb_false_r]. cbn.
  induction ids as [|id ids IH]; [done|]. cbn. unfold open_audience at 1. cbn. rewrite bool_decide_eq_true_2 by done. cbn. by rewrite IH.
Qed.

(** What the visibility was set to. *)
Lemma SetTaskVisibility_spec c d d' : SetTaskVisibility c d = Some d' -> exists row, tasks d' !! e_TaskID c = Some row /\ Visibility row = e_Visibility c /\
  Permutation (map a_PrincipalID (List.filter (open_audience (e_TaskID c)) (audience d'))) (map TrimSpace (e_Audience c)).
Proof.
  unfold SetTaskVisibility. intros Hc. cbn zeta in Hc. opt Hc;
    match goal with E : normalizedPrincipalIDs _ = Some _ |- _ => apply normalizedPrincipalIDs_perm in E as Hids end.
  - match goal with E : GetTaskAccess _ _ = Some _ |- _ => unfold GetTaskAccess in E; opt E; subst end. cbn in *. eexists. split_and!; [eassumption|done|].
    rewrite <- Hids. unfold audience_of. by rewrite SliceStable_perm.
  - apply append_audit in Hc as (e & -> & _). cbn. rewrite lookup_insert_eq. eexists. split_and!; [done|done|]. by rewrite opened_audience.
Qed.

Lemma replace_grants_tasks share principal actor ev new at_ d d' : replace_grants share principal actor ev new at_ d = Some d' -> same_tasks d d'.
Proof.
  unfold replace_grants. intros Hc. cbn zeta in Hc. opt Hc. apply append_audit in Hc as (e & -> & _).
  match goal with E : insert_grants _ _ = Some _ |- _ => apply insert_grants_only in E; by subst end.
Qed.

Lemma apply_shares_tasks i at_ order gs d d' : apply_shares i at_ order gs d = Some d' -> same_tasks d d'.
Proof.
  revert d. induction order as [|s order IH]; intros d; cbn [apply_shares]; [by intros [= <-]|]. intros Hc. opt Hc.
  etrans; [by eapply replace_grants_tasks|by apply IH].
Qed.

Lemma SetWorkspaceGrants_tasks w d d' : SetWorkspaceGrants w d = Some d' -> same_tasks d d'.
Proof. unfold SetWorkspaceGrants. intros Hc. cbn zeta in Hc. opt Hc; [by subst|by subst|by eapply replace_grants_tasks]. Qed.

Lemma ActivateInvitedDevice_tasks v d x d' : ActivateInvitedDevice v d = Some (x, d') -> same_tasks d d'.
Proof.
  intros (i & k & h & p & name & da & [])%ActivateInvitedDevice_spec. apply append_audit in va_audit0 as (e & -> & _).
  etrans; [|by apply apply_shares_tasks in va_grants0]. unfold admitted. by repeat case_match.
Qed.

Lemma apply_op_stands `{SSH} home o d d' : apply_op home o d = Some d' -> stands d d'.
Proof.
  destruct o; cbn [apply_op]; intros Hc.
  - unfold EnsureLocalOwner, CreatePrincipal in Hc. opt Hc; subst; by apply stands_same.
  - unfold EnsureWorkspaceShare, CreateWorkspaceShare in Hc. opt Hc; subst; by apply stands_same.
  - apply fmap_Some in Hc as (r & Hc & ->). apply CreateInvitation_access in Hc as (_ & _ & _ & [Ht Ha] & _). by apply stands_same.
  - unfold RevokePrincipalInvitation in Hc. opt Hc; [by subst|]. apply append_audit in Hc as (e & -> & _). by apply stands_same.
  - apply SetWorkspaceGrants_tasks in Hc as [Ht Ha]. by apply stands_same.
  - unfold PutWorkspacePublicationPolicy in Hc. cbn zeta in Hc. opt Hc. apply append_audit in Hc as (e & -> & _). by apply stands_same.
  - unfold RevokePrincipal in Hc. cbn zeta in Hc. opt Hc; [by subst|]. apply append_audit in Hc as (e & -> & _). by apply stands_same.
  - unfold RevokePrincipalDevice in Hc. opt Hc; [by subst|]. apply append_audit in Hc as (e & -> & _). by apply stands_same.
  - unfold RevokePrincipalIdentityKey in Hc. opt Hc; [by subst|]. apply append_audit in Hc as (e & -> & _). by apply stands_same.
  - unfold UpdatePrincipalDisplayName in Hc. opt Hc. subst. by apply stands_same.
  - by eapply SetTaskVisibility_stands.
  - unfold RecordTaskDisclosure in Hc. opt Hc. subst. by apply stands_same.
  - apply installWorkspaceMemberships_only in Hc as [m ->]. by apply stands_same.
  - unfold AdvanceWorkspaceMembershipCursor in Hc. opt Hc. subst. by apply stands_same.
  - unfold RevokeWorkspaceMembership in Hc. opt Hc; subst; by apply stands_same.
  - unfold CreateTask in Hc. opt Hc. inserted. subst. intros task a Ha. exists a. cbn. rewrite lookup_insert_ne by congruence. split; [done|by right].
  - unfold PlaceTask in Hc. opt Hc. subst. intros task a Ha. destruct (decide (task = id)) as [->|Hn].
    + exists (placed ws deleted a). same_row. cbn. rewrite lookup_insert_eq. split; [done|by right].
    + exists a. cbn. rewrite lookup_insert_ne by done. split; [done|by right].
  - unfold DeleteWorkspace in Hc. cbn zeta in Hc.
    destruct (GetWorkspaceShareByLocalWorkspaceID _ _) as [[id s]|]; opt Hc; subst; (eapply stands_placed; [done|done|]; intros a; cbn;
      destruct (bool_decide _); [by exists ws, true; left|by exists ws, true; right]).
Qed.

Lemma thread_step_stands `{SSH} Sum256 Sum256_hex home e th d th' d' qs : thread_step Sum256 Sum256_hex home e th d = Some (th', d', qs) -> stands d d'.
Proof.
  destruct th; cbn [thread_step]; try (intros ->%triple_mem; done); try done.
  - destruct (if ok e then _ else None) as [d2|] eqn:E; intros ->%triple_mem; [|done]. opt E. unfold insert_challenge in E. opt E. subst. by apply stands_same.
  - by destruct (VerifyDeviceBinding _ _ _ _); intros ->%triple_mem.
  - destruct (if ok e then _ else None) as [[x d2]|] eqn:E; intros ->%triple_mem; [|done]. opt E. apply ActivateInvitedDevice_tasks in E as [Ht Ha]. by apply stands_same.
  - destruct (if ok e then _ else None) as [[[[d2 parsed] principal] b]|] eqn:E; [|intros ->%triple_mem; done]. opt E.
    apply CreateInvitation_access in E as (_ & _ & _ & [Ht Ha] & _). destruct (ask_proof _ _ _ _ _ _ _ _ _ _ _ _ _ _) as [t|]; destruct b; intros ->%triple_mem; by apply stands_same.
  - destruct (if ok e then _ else None) as [d2|] eqn:E; intros ->%triple_mem; [|done]. opt E. by eapply SetTaskVisibility_stands.
Qed.

Lemma step_stands `{SSH} Sum256 Sum256_hex home s l s' : step Sum256 Sum256_hex home s l = Some s' -> stands (mem s) (mem s').
Proof.
  destruct l; cbn [step].
  - intros [= <-]. cbn. destruct (apply_op home o (mem s)) as [d|] eqn:E; [by eapply apply_op_stands|done].
  - intros [= <-]. unfold accept_join. destruct (negb _); [done|]. by destruct (allow _ _ _ _) as [[] l].
  - by intros [= <-].
  - by intros [= <-].
  - by intros [= <-].
  - intros Hs. opt Hs. subst s'. by eapply thread_step_stands.
Qed.

Lemma run_stands `{SSH} Sum256 Sum256_hex home s ls s' : run Sum256 Sum256_hex home s ls = Some s' -> stands (mem s) (mem s').
Proof.
  revert s. induction ls as [|l ls IH]; intros s; cbn [run]; [by intros [= <-]|]. intros Hr. opt Hr. etrans; [by eapply step_stands|by eapply IH].
Qed.

(** ** The ledger explains every grant *)

(** What an event says of the access of a principal to a share: the capabilities it has from
    then on, and the epoch they were granted at. *)
Definition said (share principal : string) (e : AuditEvent) : option (list string * Z) :=
  match Details e with
  | Capabilities caps epoch => if bool_decide (ShareID e = share) && bool_decide (SubjectID e = principal) then Some (caps, epoch) else None
  | RevokedShares _ ids => if bool_decide (share ∈ ids) && bool_decide (SubjectID e = principal) then Some ([], 0) else None
  | Other => None
  end.

(** The newest event that says something. *)
Fixpoint access_of (share principal : string) (ledger : list AuditEvent) : option (list string * Z) :=
  match ledger with
  | [] => None
  | e :: ledger => match said share principal e with Some r => Some r | None => access_of share principal ledger end
  end.

(** Events keep the ids of principals without the white space around them. *)
Definition tidy (d : db) : Prop := forall id, is_Some (principals d !! id) -> TrimSpace id = id.

Definition explained (ledger : list AuditEvent) (g : Grant) : Prop :=
  g_RevokedAt g = None -> exists caps, access_of (g_ShareID g) (g_PrincipalID g) ledger = Some (caps, GrantedEpoch g) /\ g_Capability g ∈ caps.

Definition ledger_ok (d : db) : Prop := shares d !! "" = None /\ (tidy d -> forall g, g ∈ grants d -> explained (audit d) g).

Lemma tidy_before d d' : rows principal_kept (principals d) (principals d') -> tidy d' -> tidy d.
Proof. intros X T id [p Hp]. apply T. destruct (X _ _ Hp) as (p' & Hp' & _). by eexists. Qed.

Lemma access_of_quiet share principal e ledger : said share principal e = None -> access_of share principal (e :: ledger) = access_of share principal ledger.
Proof. intros Hs. cbn. by rewrite Hs. Qed.

(** Steps whose events say nothing of access. *)
Lemma ledger_quiet d d' : ledger_ok d -> rows principal_kept (principals d) (principals d') -> shares d' !! "" = None -> grants d' = grants d ->
  quiet d d' -> ledger_ok d'.
Proof.
  intros [S G] X S' Hg (es & Ha & He). split; [done|]. intros T g Hin Hr. rewrite Hg in Hin. destruct (G (tidy_before _ _ X T) g Hin Hr) as (caps & Hc & Hi).
  exists caps. split; [|done]. rewrite Ha. clear -Hc He. induction He as [|e es He _ IH]; [done|]. cbn. unfold said at 1. by rewrite He.
Qed.

Lemma quiet_audit e d d' : Details e = Other -> appendCollaborationAudit e d = Some d' -> quiet d d'.
Proof. intros He (e' & -> & _ & _ & _ & Hd)%append_audit. exists [e']. split; [done|]. constructor; [congruence|done]. Qed.

Lemma ledger_audit e d d' : appendCollaborationAudit e d = Some d' -> Details e = Other -> ledger_ok d -> ledger_ok d'.
Proof. intros Hc He L. pose proof (quiet_audit _ _ _ He Hc). apply append_audit in Hc as (e' & -> & _). by apply (ledger_quiet d); [|done|apply L|..]. Qed.

(** Grants that were open stay, or are closed. *)
Lemma closed_before w at_ gs g : g ∈ update_list w (g_revoked at_) gs -> g_RevokedAt g = None -> g ∈ gs /\ w g = false.
Proof. intros (g0 & Hg & ->)%update_list_elem. destruct (w g0) eqn:E; [done|by intros _]. Qed.

Lemma close_grants_ledger share principal at_ d : ledger_ok d -> ledger_ok (close_grants share principal at_ d).
Proof. intros [S G]. split; [done|]. intros T g Hg Hr. cbn in Hg. apply closed_before in Hg as [Hg _]; [|done]. by apply G. Qed.

Lemma replace_grants_ledger share principal actor ev new at_ d d' : ledger_ok d -> is_Some (principals d !! principal) ->
  replace_grants share principal actor ev new at_ d = Some d' -> ledger_ok d'.
Proof.
  intros [S G] Hp. unfold replace_grants. intros Hc. cbn zeta in Hc. opt Hc.
  match goal with E : insert_grants _ _ = Some _ |- _ => apply insert_grants_only in E; subst end.
  apply append_audit in Hc as (e & -> & F1 & _ & F2 & F3). cbn [ShareID SubjectID Details event_of] in F1, F2, F3.
  match goal with E : shares d !! share = Some _ |- _ => rename E into Hs end. split; cbn.
  { rewrite lookup_insert_ne; [done|intros ->; congruence]. }
  intros T g Hg Hr. assert (TrimSpace principal = principal) as Tp by (by apply T). rewrite Tp in F2.
  apply elem_of_app in Hg as [Hg|Hg].
  - apply closed_before in Hg as [Hg Ho]; [|done]. destruct (G T g Hg Hr) as (caps & Hc & Hi). exists caps. split; [|done].
    etrans; [apply access_of_quiet|exact Hc]. unfold said. rewrite F1, <- F2, F3. unfold open_grant in Ho. rewrite Hr in Ho. cbn in Ho. rewrite andb_true_r in Ho.
    rewrite (bool_decide_ext (share = g_ShareID g) (g_ShareID g = share)) by done. rewrite (bool_decide_ext (principal = _) (g_PrincipalID g = principal)) by done. by rewrite Ho.
  - apply list_elem_of_fmap in Hg as (c & -> & Hin). cbn. exists (map fst new). split; [|apply list_elem_of_fmap; by exists c]. cbn. unfold said.
    by rewrite F1, <- F2, F3, !bool_decide_eq_true_2.
Qed.

Lemma apply_shares_ledger i at_ order gs d d' : ledger_ok d -> is_Some (principals d !! i_PrincipalID i) -> apply_shares i at_ order gs d = Some d' -> ledger_ok d'.
Proof.
  revert d. induction order as [|s order IH]; intros d L Hp; cbn [apply_shares]; [by intros [= <-]|]. intros Hc. opt Hc.
  match goal with E : replace_grants _ _ _ _ _ _ _ = Some _ |- _ => pose proof (replace_grants_settles _ _ _ _ _ _ _ _ E) as X; apply replace_grants_ledger in E; [|done|done] end.
  apply IH in Hc; [done|done|]. destruct Hp as [p Hp]. destruct (x_principals _ _ X _ _ Hp) as (p' & Hp' & _). by eexists.
Qed.

Lemma SetWorkspaceGrants_ledger w d d' : ledger_ok d -> SetWorkspaceGrants w d = Some d' -> ledger_ok d'.
Proof.
  intros L. unfold SetWorkspaceGrants. intros Hc. cbn zeta in Hc. opt Hc; [by subst|subst; by apply close_grants_ledger|eapply replace_grants_ledger; [exact L| |exact Hc]].
  by eexists.
Qed.

Lemma RevokePrincipal_ledger id reason at_ d d' : ledger_ok d -> RevokePrincipal id reason at_ d = Some d' -> ledger_ok d'.
Proof.
  intros [S G]. unfold RevokePrincipal. intros Hc. cbn zeta in Hc. opt Hc; [by subst|]. apply append_audit in Hc as (e & -> & F1 & _ & F2 & F3). cbn [ShareID SubjectID Details event_of] in F1, F2, F3.
  match goal with E : principals d !! id = Some _ |- _ => rename E into Hp end. set (ids := activeGrantShareIDs id d) in *.
  assert (forall m : gmap string Share, m !! "" = None -> foldr (fun s m => alter bumped s m) m ids !! "" = None) as Hn.
  { intros m Hm. generalize ids. intros l. induction l as [|s l IH]; [done|]. cbn. destruct (decide (s = "")) as [->|Hs]; [by rewrite lookup_alter_eq, IH|by rewrite lookup_alter_ne]. }
  split; [by apply Hn|]. cbn. intros T g Hg Hr.
  assert (rows principal_kept (principals d) (alter (p_revoked at_) id (principals d))) as X by (apply rows_alter; [apply _|done]).
  assert (tidy d) as Td by (eapply tidy_before; [|exact T]; exact X).
  assert (TrimSpace id = id) as Ti by (apply Td; by eexists). rewrite Ti in F2.
  apply closed_before in Hg as [Hg Ho]; [|done]. rewrite Hr in Ho. cbn in Ho. rewrite andb_true_r in Ho. bool_hyps.
  destruct (G Td g Hg Hr) as (caps & Hc & Hi). exists caps. split; [|done]. cbn.
  assert (said (g_ShareID g) (g_PrincipalID g) e = None) as ->; [|done]. unfold said. rewrite F3, <- F2. rewrite (bool_decide_eq_false_2 (id = _)) by done. by rewrite andb_false_r.
Qed.

Lemma DeleteWorkspace_ledger ws d d' : access_inv d -> ledger_ok d -> DeleteWorkspace ws d = Some d' -> ledger_ok d'.
Proof.
  intros I [S G]. unfold DeleteWorkspace. intros Hc. cbn zeta in Hc.
  destruct (GetWorkspaceShareByLocalWorkspaceID _ _) as [[id s]|]; opt Hc; subst; [|by split]. split; cbn.
  { destruct (decide (id = "")) as [->|Hn]; [by rewrite lookup_delete_eq|by rewrite lookup_delete_ne]. }
  intros T g Hg Hr. apply list_elem_of_In, List.filter_In in Hg as [Hg%list_elem_of_In Hn]. bool_hyps. destruct (G T g Hg Hr) as (caps & Hc & Hi).
  exists caps. split; [|done]. rewrite <- Hc. assert (g_ShareID g <> "") as Hne.
  { intros Q. destruct (ai_share _ I g Hg) as [y Hy]. rewrite Q in Hy. congruence. }
  clear -Hn Hne. induction (audit d) as [|e l IH]; [done|]. cbn. rewrite IH.
  assert (said (g_ShareID g) (g_PrincipalID g) (forget_share id e) = said (g_ShareID g) (g_PrincipalID g) e) as ->; [|done].
  unfold forget_share. destruct (bool_decide (ShareID e = id)) eqn:E; [|done]. bool_hyps. unfold said. cbn. destruct (Details e); try done.
  rewrite (bool_decide_eq_false_2 ("" = _)), (bool_decide_eq_false_2 (ShareID e = _)) by congruence. done.
Qed.

Lemma CreateInvitation_ledger `{SSH} home y at_ input d r : ledger_ok d -> CreateInvitation home y at_ input d = Some r -> ledger_ok r.1.1.1.
Proof.
  intros L Hc. pose proof (CreateInvitation_settles _ _ _ _ _ _ Hc) as X. pose proof (CreateInvitation_access _ _ _ _ _ _ Hc) as (Hg & Hs & Hq & _ & _).
  apply (ledger_quiet d); [done|apply X|rewrite Hs; apply L|done|done].
Qed.

Lemma ActivateInvitedDevice_ledger v d x d' : ledger_ok d -> ActivateInvitedDevice v d = Some (x, d') -> ledger_ok d'.
Proof.
  intros L (i & k & h & p & name & da & [])%ActivateInvitedDevice_spec. apply (ledger_audit _ _ _ va_audit0); [done|].
  assert (extends d (admitted v i k h x d)) as X by (by eapply admitted_extends).
  eapply apply_shares_ledger; [| |exact va_grants0].
  - eapply (ledger_quiet d); [done|apply X| | |]; unfold admitted; repeat case_match; try done; first [apply L|by exists []].
  - destruct (x_principals _ _ X _ _ va_principal0) as (p' & Hp & _). by eexists.
Qed.

Ltac quietly L := eapply ledger_quiet; [exact L|done|apply L|done|by exists []].

Lemma apply_op_ledger `{SSH} home o d d' : access_inv d -> ledger_ok d -> apply_op home o d = Some d' -> ledger_ok d'.
Proof.
  intros I L. destruct o; cbn [apply_op]; intros Hc.
  - unfold EnsureLocalOwner in Hc. opt Hc; [by subst|]. pose proof (CreatePrincipal_settles _ _ _ _ Hc) as X. apply CreatePrincipal_access in Hc as (Hg & Hs & Hq & _).
    apply (ledger_quiet d); [done|apply X|rewrite Hs; apply L|done|done].
  - unfold EnsureWorkspaceShare in Hc. opt Hc; [by subst|]. unfold CreateWorkspaceShare in Hc. opt Hc. inserted. subst.
    eapply ledger_quiet; [exact L|done| |done|by exists []]. cbn. rewrite lookup_insert_ne; [apply L|]. intros ->. by match goal with E : nonempty "" = true |- _ => discriminate E end.
  - apply fmap_Some in Hc as (r & Hc & ->). by eapply CreateInvitation_ledger.
  - unfold RevokePrincipalInvitation in Hc. opt Hc; [by subst|]. apply (ledger_audit _ _ _ Hc); [done|]. quietly L.
  - by eapply SetWorkspaceGrants_ledger.
  - unfold PutWorkspacePublicationPolicy in Hc. cbn zeta in Hc. opt Hc. apply (ledger_audit _ _ _ Hc); [done|]. quietly L.
  - by eapply RevokePrincipal_ledger.
  - unfold RevokePrincipalDevice in Hc. opt Hc; [by subst|]. apply (ledger_audit _ _ _ Hc); [done|]. quietly L.
  - unfold RevokePrincipalIdentityKey in Hc. opt Hc; [by subst|]. apply (ledger_audit _ _ _ Hc); [done|]. quietly L.
  - pose proof (apply_op_settles home (ORename id name) d d' Hc) as X. unfold UpdatePrincipalDisplayName in Hc. opt Hc. subst.
    eapply ledger_quiet; [exact L|apply X|apply L|done|by exists []].
  - unfold SetTaskVisibility in Hc. cbn zeta in Hc. opt Hc; [by subst|]. apply (ledger_audit _ _ _ Hc); [done|]. quietly L.
  - unfold RecordTaskDisclosure in Hc. opt Hc. subst. quietly L.
  - apply installWorkspaceMemberships_only in Hc as [m ->]. quietly L.
  - unfold AdvanceWorkspaceMembershipCursor in Hc. opt Hc. subst. quietly L.
  - unfold RevokeWorkspaceMembership in Hc. opt Hc; subst; quietly L.
  - unfold CreateTask in Hc. opt Hc. subst. quietly L.
  - unfold PlaceTask in Hc. opt Hc. subst. quietly L.
  - by eapply DeleteWorkspace_ledger.
Qed.

Lemma thread_step_ledger `{SSH} Sum256 Sum256_hex home e th d th' d' qs : access_inv d -> ledger_ok d ->
  thread_step Sum256 Sum256_hex home e th d = Some (th', d', qs) -> ledger_ok d'.
Proof.
  intros I L. destruct th; cbn [thread_step]; try (intros ->%triple_mem; exact L); try done.
  - destruct (if ok e then _ else None) as [d2|] eqn:E; intros ->%triple_mem; [|exact L]. opt E. unfold insert_challenge in E. opt E. subst. quietly L.
  - destruct (VerifyDeviceBinding _ _ _ _); intros ->%triple_mem; exact L.
  - destruct (if ok e then _ else None) as [[x d2]|] eqn:E; intros ->%triple_mem; [|exact L]. opt E. by eapply ActivateInvitedDevice_ledger.
  - destruct (if ok e then _ else None) as [[[[d2 parsed] principal] b]|] eqn:E; [|intros ->%triple_mem; exact L]. opt E.
    apply CreateInvitation_ledger in E; [|exact L]. destruct (ask_proof _ _ _ _ _ _ _ _ _ _ _ _ _ _) as [t|]; destruct b; intros ->%triple_mem; exact E.
  - destruct (if ok e then _ else None) as [d2|] eqn:E; intros ->%triple_mem; [|exact L]. opt E. by apply (apply_op_ledger home (OSetTaskVisibility c) d).
Qed.

Lemma step_ledger `{SSH} Sum256 Sum256_hex home s l s' : access_inv (mem s) -> ledger_ok (mem s) -> step Sum256 Sum256_hex home s l = Some s' -> ledger_ok (mem s').
Proof.
  intros I L. destruct l; cbn [step].
  - intros [= <-]. cbn. destruct (apply_op home o (mem s)) as [d|] eqn:E; [by eapply apply_op_ledger|exact L].
  - intros [= <-]. unfold accept_join. destruct (negb _); [exact L|]. destruct (allow _ _ _ _) as [[] l]; exact L.
  - intros [= <-]. exact L.
  - intros [= <-]. exact L.
  - intros [= <-]. exact L.
  - intros Hs. opt Hs. subst s'. by eapply thread_step_ledger.
Qed.
