(* ===== verification/Collaboration.v ===== *)
(** Collaboration between daemons: the theorems about the machine of CollabRun, a daemon of
    two people that they are tried on, and what the model shows beside.

    [binding_proved]: a peer that is resolved proved to hold the key of its principal.
    [revocation_final]: nothing undoes a revocation.  [epoch_marks_changes]: who may use a
    share changes with its epoch only.  [readers_as_set]: beside the owners a task is
    read by whom its visibility names.  [access_audited]: every access is in the ledger. *)

From Stdlib Require Import Ascii String.
From stdpp Require Import base list option gmap strings.
From S2P Require Import Prelude GoStrings DeviceProof CollabStore CollabRun CollabInv.

#[local] Open Scope string_scope.
#[local] Open Scope list_scope.
#[local] Open Scope Z_scope.

#[local] Arguments update_list : simpl never.
#[local] Arguments update_map : simpl never.

(** ** What is proved *)

Section Claims.
Context `{SSH} (Sum256 Sum256_hex : string -> string) (home : string).
Abbreviation step := (step Sum256 Sum256_hex home).
Abbreviation run := (run Sum256 Sum256_hex home).

Lemma thread_step_marked t0 e th d th' d' qs : access_inv d -> thread_step Sum256 Sum256_hex home e th d = Some (th', d', qs) -> access_inv d' /\ marked t0 d d'.
Proof.
  intros I Hs. assert (access_inv d /\ marked t0 d d) as Hd by (by apply moves_marked). revert Hs.
  destruct th; cbn [thread_step]; try (intros ->%triple_mem; exact Hd); try done.
  - destruct (if ok e then _ else None) as [d2|] eqn:E; intros ->%triple_mem; [|exact Hd]. opt E. apply moves_marked. unfold insert_challenge in E. opt E. subst. tables.
  - destruct (VerifyDeviceBinding _ _ _ _); intros ->%triple_mem; exact Hd.
  - destruct (if ok e then _ else None) as [[x d2]|] eqn:E; intros ->%triple_mem; [|exact Hd]. opt E. apply moves_marked. by eapply ActivateInvitedDevice_moves.
  - destruct (if ok e then _ else None) as [[[[d2 parsed] principal] b]|] eqn:E; [|intros ->%triple_mem; exact Hd]. opt E.
    apply CreateInvitation_access in E. cbn [fst] in E. destruct (ask_proof _ _ _ _ _ _ _ _ _ _ _ _ _ _) as [t|]; destruct b; intros ->%triple_mem;
      apply moves_marked; by eapply same_access_moves.
  - destruct (if ok e then _ else None) as [d2|] eqn:E; intros ->%triple_mem; [|exact Hd]. opt E.
    by apply (apply_op_marked home t0 (OSetTaskVisibility c) d).
Qed.

Lemma step_marked t0 s l s' : access_inv (mem s) -> not_before l t0 -> step s l = Some s' -> access_inv (mem s') /\ marked t0 (mem s) (mem s').
Proof.
  intros I Hn. assert (access_inv (mem s) /\ marked t0 (mem s) (mem s)) as Hd by (by apply moves_marked). destruct l; cbn [step].
  - intros [= <-]. cbn. destruct (apply_op home o (mem s)) as [d|] eqn:E; [|exact Hd]. by eapply apply_op_marked.
  - intros [= <-]. unfold accept_join. destruct (negb _); [exact Hd|]. destruct (allow _ _ _ _) as [[] l]; exact Hd.
  - intros [= <-]. exact Hd.
  - intros [= <-]. exact Hd.
  - intros [= <-]. exact Hd.
  - intros Hs. opt Hs. subst s'. cbn. by eapply thread_step_marked.
Qed.

Lemma run_access s ls s' : access_inv (mem s) -> run s ls = Some s' -> access_inv (mem s').
Proof.
  revert s. induction ls as [|l ls IH]; intros s I; cbn [run]; [by intros [= <-]|]. intros Hr. opt Hr. eapply IH; [|exact Hr].
  match goal with E : step _ _ = Some _ |- _ => eapply (step_marked (match l with Op (OSetGrants w) => ws_At w | _ => 0 end)) in E as [I' _]; [exact I'|exact I|] end.
  destruct l as [[]| | | | |]; cbn; try done; lia.
Qed.

Lemma migrated_access users peers : access_inv (mem (migrated users peers)).
Proof. by split; cbn; intros g Hg%elem_of_nil. Qed.

(** C14: a peer speaks for a principal only if it proved to hold its key: whatever joins,
    enrolments, invitations, revocations and failures came before, a peer that is resolved
    consumed an invitation for that principal and that key, once and alone, and answered a
    challenge to itself, consumed with it, by a signature of a key of that fingerprint,
    which was verified over the transcript the device row keeps the digest of. *)
Theorem binding_proved users peers ls s peer x p : run (migrated users peers) ls = Some s -> ResolveActivePrincipalForPeer peer (mem s) = Some (x, p) ->
  bound Sum256_hex home (mem s) (proofs s) peer x.
Proof.
  intros Hr Hp. apply run_extends in Hr as [_ [_ _ D]]; [|apply migrated_inv]. unfold ResolveActivePrincipalForPeer in Hp. opt Hp. simplify_eq. by apply D.
Qed.

Definition revokes (o : op) (peer : string) (x : Device) : bool :=
  match o with
  | ORevokePrincipal id _ _ => bool_decide (d_PrincipalID x = id)
  | ORevokeDevice q _ _ => bool_decide (q = peer)
  | ORevokeKey id _ => bool_decide (d_IdentityKeyID x = id)
  | _ => false
  end.

(** What a revocation leaves in its table. *)
Lemma RevokePrincipal_revoked id reason at_ d d' : RevokePrincipal id reason at_ d = Some d' -> p_Status <$> principals d' !! id = Some StatusRevoked.
Proof.
  unfold RevokePrincipal. intros Hc. cbn zeta in Hc. opt Hc.
  - subst. match goal with E : principals _ !! _ = Some _ |- _ => rewrite E end. cbn. by f_equal.
  - apply append_audit in Hc as (e & -> & _). cbn. rewrite lookup_alter_eq. match goal with E : principals _ !! _ = Some _ |- _ => by rewrite E end.
Qed.

Lemma RevokePrincipalDevice_revoked peer reason at_ d d' : RevokePrincipalDevice peer reason at_ d = Some d' -> d_Status <$> devices d' !! peer = Some StatusRevoked.
Proof.
  unfold RevokePrincipalDevice. intros Hc. cbn zeta in Hc. opt Hc.
  - subst. match goal with E : devices _ !! _ = Some _ |- _ => rewrite E end. cbn. by f_equal.
  - apply append_audit in Hc as (e & -> & _). cbn. by rewrite lookup_insert_eq.
Qed.

Lemma RevokePrincipalIdentityKey_revoked id at_ d d' : RevokePrincipalIdentityKey id at_ d = Some d' -> k_Status <$> keys d' !! id = Some StatusRevoked.
Proof.
  unfold RevokePrincipalIdentityKey. intros Hc. cbn zeta in Hc. opt Hc.
  - subst. match goal with E : keys _ !! _ = Some _ |- _ => rewrite E end. cbn. by f_equal.
  - apply append_audit in Hc as (e & -> & _). cbn. by rewrite lookup_insert_eq.
Qed.

Lemma revoked_row {A} (R : A -> A -> Prop) (status : A -> string) m m' id : rows R m m' -> (forall x x', R x x' -> status x = StatusRevoked -> status x' = StatusRevoked) ->
  status <$> m !! id = Some StatusRevoked -> status <$> m' !! id = Some StatusRevoked.
Proof. intros Hr HR Hs. destruct (m !! id) as [x|] eqn:E; [|done]. injection Hs as Hs. destruct (Hr _ _ E) as (x' & -> & Hx). cbn. f_equal. by eapply HR. Qed.

Lemma revoked_inactive s : Some s = Some StatusRevoked -> s = StatusActive -> False.
Proof. by intros [= ->]. Qed.

(** C15: a revocation is final: once a principal, a device or a key was revoked, nothing that
    happens later - a join under way, a new invitation, an enrolment, a retry - makes a
    peer resolve to it, and a revoked principal never again holds a capability of a share or
    reads a task. *)
Theorem revocation_final users peers ls s o ls' s' : run (migrated users peers) ls = Some s -> is_Some (apply_op home o (mem s)) -> run s (Op o :: ls') = Some s' ->
  (forall peer x p, ResolveActivePrincipalForPeer peer (mem s') = Some (x, p) -> revokes o peer x = false) /\
  forall id reason at_ share c task t, o = ORevokePrincipal id reason at_ ->
    HasWorkspaceCapability id share c t (mem s') = false /\ CanPrincipalReadTask id task t (mem s') = false.
Proof.
  intros Hr [d Hd] Hr'. apply run_extends in Hr as [_ I]; [|apply migrated_inv]. cbn [run] in Hr'. opt Hr'.
  match goal with E : step s (Op o) = Some _ |- _ => pose proof E as E'; apply step_extends in E as [_ I1]; [|exact I] end.
  apply run_extends in Hr' as [[Xp Xk Xd _ _] _]; [|exact I1]. cbn [step] in E'. rewrite Hd in E'. injection E' as <-. cbn in *.
  assert (forall id reason at_, o = ORevokePrincipal id reason at_ -> p_Status <$> principals (mem s') !! id = Some StatusRevoked) as Rp.
  { intros id reason at_ ->. eapply (revoked_row _ p_Status); [exact Xp|done|by eapply RevokePrincipal_revoked]. }
  split.
  - intros peer x p Hp. unfold ResolveActivePrincipalForPeer in Hp. opt Hp. simplify_eq. destruct o; cbn; try done; apply bool_decide_eq_false; intros <-.
    + specialize (Rp _ _ _ eq_refl). match goal with E : principals _ !! _ = Some _ |- _ => rewrite E in Rp end. by eapply revoked_inactive in Rp.
    + apply RevokePrincipalDevice_revoked in Hd. eapply (revoked_row _ d_Status) in Hd; [|exact Xd|done].
      match goal with E : devices _ !! _ = Some _ |- _ => rewrite E in Hd end. by eapply revoked_inactive in Hd.
    + apply RevokePrincipalIdentityKey_revoked in Hd. eapply (revoked_row _ k_Status) in Hd; [|exact Xk|by intros ?? (_ & _ & ?)].
      match goal with E : keys _ !! _ = Some _ |- _ => rewrite E in Hd end. by eapply revoked_inactive in Hd.
  - intros id reason at_ share c task t ->. specialize (Rp _ _ _ eq_refl). destruct (principals (mem s') !! id) as [p|] eqn:E; [|done]. injection Rp as Rp.
    unfold HasWorkspaceCapability, CanPrincipalReadTask. rewrite E, Rp. split; [by rewrite andb_false_r|]. by destruct (GetTaskAccess _ _).
Qed.

(** C16: the epoch of a share marks who may use it: when a step changes what anybody may do in a
    share, from the time it is given on, the share's epoch rises, unless the share is gone;
    and no step lowers the epoch. *)
Theorem epoch_marks_changes users peers ls s l s' t : run (migrated users peers) ls = Some s -> step s l = Some s' -> not_before l t ->
  forall share, shares (mem s') !! share = None \/
  ((forall a b, shares (mem s) !! share = Some a -> shares (mem s') !! share = Some b -> AccessEpoch a <= AccessEpoch b) /\
   forall p c t', t <= t' -> HasWorkspaceCapability p share c t' (mem s') <> HasWorkspaceCapability p share c t' (mem s) ->
     exists a b, shares (mem s) !! share = Some a /\ shares (mem s') !! share = Some b /\ AccessEpoch a < AccessEpoch b).
Proof.
  intros Hr Hs Hn. apply run_access in Hr; [|apply migrated_access]. eapply step_marked in Hs as [_ M]; [exact M|exact Hr|exact Hn].
Qed.

(** Who reads a task that was shared as a change says, leaving its owner and the local
    owner aside: the active principals who may read the share its workspace has, among
    those named where it was restricted. *)
Definition readers_of (visibility : string) (named : list string) (task principal : string) (at_ : Z) (d : db) : bool :=
  match principals d !! principal, tasks d !! task with
  | Some p, Some row =>
      let share := active_share (t_WorkspaceID row) d in
      bool_decide (p_Status p = StatusActive) && negb (Deleted row) && negb (bool_decide (visibility = "private")) &&
      nonempty share && may_read_share principal share at_ d && (bool_decide (visibility = "workspace") || bool_decide (principal ∈ named))
  | _, _ => false
  end.

(** C17: From a change of visibility that succeeded until the visibility epoch moves, over
    any joins, grants, revocations, moves and failures, a principal that is neither the
    local owner nor the task's own reads the task exactly when the change did not make it
    private, it is active, the task is not deleted, it holds both reading capabilities of
    the share the task's workspace then has, and the change named it, where it named any
    audience.  About the two owners, see [owner_locked_out]. *)
Theorem readers_as_set s c d ls s' : SetTaskVisibility c (mem s) = Some d ->
  run {| mem := d; threads := threads s; proofs := proofs s; limiter := limiter s |} ls = Some s' ->
  VisibilityEpoch <$> tasks (mem s') !! e_TaskID c = VisibilityEpoch <$> tasks d !! e_TaskID c ->
  forall principal t, IsLocalOwner <$> principals (mem s') !! principal <> Some true -> t_Owner <$> tasks (mem s') !! e_TaskID c <> Some principal ->
    CanPrincipalReadTask principal (e_TaskID c) t (mem s') =
    readers_of (e_Visibility c) (map TrimSpace (e_Audience c)) (e_TaskID c) principal t (mem s').
Proof.
  intros Hs Hr He principal t Hlocal Howner. apply SetTaskVisibility_spec in Hs as (row & Hrow & Hv & Haud). apply run_stands in Hr. cbn [mem] in Hr.
  destruct (Hr _ _ Hrow) as (row' & Hrow' & [L|(E1 & E2 & E3 & E4)]); rewrite Hrow in *; rewrite Hrow' in *; cbn in He; [injection He; lia|].
  unfold CanPrincipalReadTask, readers_of, GetTaskAccess. rewrite Hrow'. cbn [mbind option_bind]. destruct (principals (mem s') !! principal) as [p|]; [|done].
  destruct (Deleted row'); [cbn; by rewrite !andb_false_r|]. cbn [ac_Visibility ac_Owner ac_ShareID ac_Audience negb]. rewrite andb_true_r, E2, Hv.
  destruct (IsLocalOwner p) eqn:Ep; [by cbn in Hlocal; rewrite Ep in Hlocal|].
  rewrite (bool_decide_false (t_Owner row' = principal)) by (intros E; apply Howner; cbn; by rewrite E). rewrite andb_false_r. cbn [orb].
  rewrite <- !andb_assoc. do 4 f_equal. f_equal. apply bool_decide_ext. unfold audience_of. rewrite SliceStable_perm, E4. by rewrite Haud.
Qed.

Lemma run_ledger s ls s' : access_inv (mem s) -> ledger_ok (mem s) -> run s ls = Some s' -> ledger_ok (mem s').
Proof.
  revert s. induction ls as [|l ls IH]; intros s I L; cbn [run]; [by intros [= <-]|]. intros Hr. opt Hr.
  match goal with E : step _ _ = Some _ |- _ => pose proof (run_access s [l]) as I'; cbn [run] in I'; rewrite E in I'; apply step_ledger in E; [|done|done] end.
  eapply IH; [|done|exact Hr]. by apply I'.
Qed.

(** C18: every access is in the ledger: where principals' ids carry no white space, whoever holds
    a capability of a share - through an invitation, a grant, whatever was revoked, expired
    or deleted since - is said to hold it by the newest event about that principal and that
    share, with the epoch of an open grant. *)
Theorem access_audited users peers ls s share principal c t : run (migrated users peers) ls = Some s -> tidy (mem s) ->
  HasWorkspaceCapability principal share c t (mem s) = true ->
  exists caps epoch, access_of share principal (audit (mem s)) = Some (caps, epoch) /\ c ∈ caps /\
    exists g, g ∈ grants (mem s) /\ holds principal share c t g = true /\ GrantedEpoch g = epoch.
Proof.
  intros Hr T Hh. apply run_ledger in Hr as [_ G]; [|apply migrated_access|split; [done|intros _ g Hg; by apply elem_of_nil in Hg]].
  unfold HasWorkspaceCapability in Hh. apply andb_true_iff in Hh as [[[_ (g & Hg%list_elem_of_In & Hh)%existsb_exists]%andb_true_iff _]%andb_true_iff _].
  pose proof Hh as Hh'. unfold holds, open_grant in Hh. bool_hyps. subst. destruct (G T g Hg) as (caps & Hc & Hi); [by destruct (g_RevokedAt g)|].
  exists caps, (GrantedEpoch g). split_and!; [done|done|]. by exists g.
Qed.
End Claims.

(** ** A daemon of two people *)

#[local] Instance toy_ssh : SSH := {
  ParseAuthorizedKey raw := Some (TrimSpace raw, "", [], "");
  Type_ _ := KeyAlgoED25519;
  MarshalAuthorizedKey k := k;
  FingerprintSHA256 k := "SHA256:" +:+ k;
  Unmarshal raw := Some (KeyAlgoED25519, raw, "");
  ssh_Verify key t sig := bool_decide (sig.2 = String.substring 0 64 (key +:+ t)) }.

Definition toy_sum (s : string) : string := String.substring 0 32 (s +:+ "--------------------------------").
Definition toy_hex (s : string) : string := String.substring 0 64 (decimal (Z.of_nat (String.length s)) +:+ "0000000000000000000000000000000000000000000000000000000000000000").

Definition toy_token : string := "AAAAAAAAAAAAAAAAAAAAAAAAAAAAAAAAAAAAAAAAAAA".
Definition toy_id : string := "AAAAAAAAAAAAAAAAAAAAAA".
Definition toy_key : string := "ssh-ed25519 AAAAbob".

Definition toy_challenge : DeviceBindingChallenge := {|
  c_InvitationID := "inv"; c_PrincipalID := "bob"; c_PrincipalKind := "person"; c_Fingerprint := "SHA256:" +:+ toy_key; c_InitiatorPeerID := "peer";
  c_ResponderPeerID := "home"; c_ID := toy_id; Nonce := toy_token; IssuedAt := 120; ExpiresAt := 420 |}.

Definition toy_minted : minted := {|
  y_InvitationID := "inv"; y_PrincipalID := "bob"; y_KeyID := "key"; y_Token := toy_token;
  y_TokenHash := toy_sum (default "" (DecodeString toy_token)); y_Addrs := [] |}.

Definition toy_answers : answers := {|
  ok := true; now := 120; mint := toy_minted; challengeID := toy_id; nonce := toy_token; deviceID := "dev";
  signature := String.substring 0 64 (toy_key +:+ default "" (Transcript toy_challenge)) |}.

Definition toy_input : CreateInvitationInput := {|
  n_Purpose := "new_principal"; n_PrincipalID := ""; n_Kind := "person"; n_DisplayName := "Bob"; n_Controller := ""; n_PublicKey := toy_key;
  n_ReplacesKeyID := ""; n_Grants := [("sh", ["workspace.view"; "tasks.read"])]; n_ExpiresIn := 0 |}.

Definition toy_invited : list label := [Op (OEnsureWorkspaceShare "ws" "sh"); Op (OCreateInvitation toy_minted 100 toy_input)].

(** An invitation, a join and its steps. *)
Definition toy_joined : list label := toy_invited ++
  Join "peer" {| j_InvitationID := "inv"; j_Token := toy_token; j_DeviceName := "laptop"; j_DeviceKind := "laptop" |} 110 :: repeat (Step 0 toy_answers) 7.

Definition toy_start : state := migrated [("owner", ("Ann", true))] [].
Definition toy_run (ls : list label) : state := default toy_start (run toy_sum toy_hex "home" toy_start ls).
Definition resolved (s : state) (peer : string) : option string := (fun r => d_PrincipalID r.1) <$> ResolveActivePrincipalForPeer peer (mem s).

Example joins : resolved (toy_run toy_joined) "peer" = Some "bob".
Proof. vm_compute. reflexivity. Qed.

Definition toy_mem (ls : list label) : db := mem (toy_run ls).
Definition toy_change (visibility : string) (audience : list string) : TaskVisibilityChange := {|
  e_TaskID := "t"; e_Visibility := visibility; e_Audience := audience; e_Actor := "owner"; e_At := 200 |}.

Definition toy_shared : list label := toy_joined ++ [Op (OCreateTask "t" "ws" "owner")].

Lemma toy_runs ls : is_Some (run toy_sum toy_hex "home" toy_start ls) -> run toy_sum toy_hex "home" toy_start ls = Some (toy_run ls).
Proof. intros [s E]. unfold toy_run. by rewrite E. Qed.

Lemma binding_proved_witness : exists x, d_PrincipalID x = "bob" /\ bound toy_hex "home" (toy_mem toy_joined) (proofs (toy_run toy_joined)) "peer" x.
Proof.
  assert (resolved (toy_run toy_joined) "peer" = Some "bob") as R by (vm_compute; reflexivity). unfold resolved in R.
  destruct (ResolveActivePrincipalForPeer "peer" (mem (toy_run toy_joined))) as [[x p]|] eqn:E; [|discriminate R]. exists x. split; [by injection R|].
  apply (binding_proved toy_sum toy_hex "home" [("owner", ("Ann", true))] [] toy_joined (toy_run toy_joined) "peer" x p); [|exact E].
  apply toy_runs. vm_compute. by eexists.
Defined.

Definition toy_revoked : list label := [Op (ORevokePrincipal "bob" "left" 130); Join "peer" {| j_InvitationID := "inv"; j_Token := toy_token; j_DeviceName := "laptop"; j_DeviceKind := "laptop" |} 140].

Lemma revocation_final_witness : resolved (toy_run toy_joined) "peer" = Some "bob" /\
  forall share c t, HasWorkspaceCapability "bob" share c t (toy_mem (toy_joined ++ toy_revoked)) = false.
Proof.
  split; [vm_compute; reflexivity|]. intros share c t.
  eapply (revocation_final toy_sum toy_hex "home" [("owner", ("Ann", true))] [] toy_joined (toy_run toy_joined) (ORevokePrincipal "bob" "left" 130) (tl toy_revoked)
    (toy_run (toy_joined ++ toy_revoked))) with (task := "t"); [apply toy_runs; vm_compute; by eexists|vm_compute; by eexists|vm_compute; reflexivity|reflexivity].
Defined.

Definition toy_set (caps : list string) : WorkspaceGrantSet := {|
  ws_ShareID := "sh"; ws_PrincipalID := "bob"; ws_Capabilities := caps; ws_CreatedBy := "owner"; ws_ExpiresAt := None; ws_At := 150 |}.

Lemma epoch_marks_changes_witness : exists a b, shares (toy_mem toy_joined) !! "sh" = Some a /\
  shares (toy_mem (toy_joined ++ [Op (OSetGrants (toy_set ["tasks.publish"]))])) !! "sh" = Some b /\ AccessEpoch a < AccessEpoch b.
Proof.
  destruct (epoch_marks_changes toy_sum toy_hex "home" [("owner", ("Ann", true))] [] toy_joined (toy_run toy_joined) (Op (OSetGrants (toy_set ["tasks.publish"])))
    (toy_run (toy_joined ++ [Op (OSetGrants (toy_set ["tasks.publish"]))])) 150) with (share := "sh") as [E|[_ M]];
    [apply toy_runs; vm_compute; by eexists|vm_compute; reflexivity|cbn; lia|vm_compute in E; discriminate E|].
  apply (M "bob" "tasks.read" 150); [lia|]. vm_compute. discriminate.
Defined.

Lemma readers_as_set_witness : CanPrincipalReadTask "bob" "t" 300 (toy_mem (toy_shared ++ [Op (OSetTaskVisibility (toy_change "restricted" ["bob"])); Op (ORename "bob" "Robert")])) = true.
Proof.
  etrans; [apply (readers_as_set toy_sum toy_hex "home" (toy_run toy_shared) (toy_change "restricted" ["bob"]) (toy_mem (toy_shared ++ [Op (OSetTaskVisibility (toy_change "restricted" ["bob"]))]))
    [Op (ORename "bob" "Robert")] (toy_run (toy_shared ++ [Op (OSetTaskVisibility (toy_change "restricted" ["bob"])); Op (ORename "bob" "Robert")])))|];
    [vm_compute; reflexivity|vm_compute; reflexivity|vm_compute; reflexivity|vm_compute; discriminate|vm_compute; discriminate|vm_compute; reflexivity].
Defined.

Lemma tidy_check d : forallb (fun kv => bool_decide (TrimSpace kv.1 = kv.1)) (map_to_list (principals d)) = true -> tidy d.
Proof.
  intros H id [p Hp]. apply elem_of_map_to_list, list_elem_of_In in Hp. exact (proj1 (bool_decide_eq_true _) (proj1 (forallb_forall _ _) H (id, p) Hp)).
Qed.

Lemma access_audited_witness : exists caps epoch, access_of "sh" "bob" (audit (toy_mem toy_joined)) = Some (caps, epoch) /\ "tasks.read" ∈ caps.
Proof.
  destruct (access_audited toy_sum toy_hex "home" [("owner", ("Ann", true))] [] toy_joined (toy_run toy_joined) "sh" "bob" "tasks.read" 200) as (caps & epoch & E & Hc & _).
  - apply toy_runs. vm_compute. by eexists.
  - apply tidy_check. vm_compute. reflexivity.
  - vm_compute. reflexivity.
  - exists caps, epoch. exact (conj E Hc).
Defined.

(** *** What the model shows beside *)

(** A person that may only publish reads its own private task, with neither of the reading
    capabilities; made visible to the whole workspace, the task is lost to its owner. *)
Definition toy_publisher : list label := toy_joined ++ [Op (OSetGrants (toy_set ["tasks.publish"])); Op (OCreateTask "t" "ws" "bob")].

Lemma private_owner_reads_ungranted : may_read_share "bob" "sh" 200 (toy_mem toy_publisher) = false /\ CanPrincipalReadTask "bob" "t" 200 (toy_mem toy_publisher) = true.
Proof. split; vm_compute; reflexivity. Qed.

Lemma owner_locked_out : CanPrincipalReadTask "bob" "t" 200 (toy_mem (toy_publisher ++ [Op (OSetTaskVisibility (toy_change "workspace" []))])) = false.
Proof. vm_compute. reflexivity. Qed.

(** A task moved by a plain update takes its visibility along, to other readers. *)
Lemma moved_task_widens :
  let elsewhere := toy_joined ++ [Op (OEnsureWorkspaceShare "ws2" "sh2"); Op (OCreateTask "t" "ws2" "owner"); Op (OSetTaskVisibility (toy_change "workspace" []))] in
  CanPrincipalReadTask "bob" "t" 300 (toy_mem elsewhere) = false /\ CanPrincipalReadTask "bob" "t" 300 (toy_mem (elsewhere ++ [Op (OPlaceTask "t" "ws" false)])) = true.
Proof. split; vm_compute; reflexivity. Qed.

(** An orphan that stays private is not claimed: the owner is filled in before it is asked
    whether there is one. *)
Lemma orphan_claim_lost : let orphan := toy_joined ++ [Op (OCreateTask "t" "ws" "")] in
  is_Some (SetTaskVisibility (toy_change "private" []) (toy_mem orphan)) /\
  t_Owner <$> tasks (toy_mem (orphan ++ [Op (OSetTaskVisibility (toy_change "private" []))])) !! "t" = Some "".
Proof. split; vm_compute; [by eexists|reflexivity]. Qed.

(** The key of an invitation that was revoked, or has expired, cannot be invited again. *)
Definition toy_again : minted := {|
  y_InvitationID := "inv2"; y_PrincipalID := "bob2"; y_KeyID := "key2"; y_Token := toy_token; y_TokenHash := toy_sum "other"; y_Addrs := [] |}.

Lemma expired_invitation_burns_key :
  CreateInvitation "home" toy_again 9000000 toy_input (toy_mem toy_invited) = None /\
  CreateInvitation "home" toy_again 200 toy_input (toy_mem (toy_invited ++ [Op (ORevokeInvitation "inv" 150)])) = None.
Proof. split; vm_compute; reflexivity. Qed.

(** With more than 32 addresses there is an invitation and no code for it. *)
Lemma addresses_burn_key :
  let many := {| y_InvitationID := "inv"; y_PrincipalID := "bob"; y_KeyID := "key"; y_Token := toy_token; y_TokenHash := toy_sum "t"; y_Addrs := repeat "a" 33 |} in
  match CreateInvitation "home" many 100 toy_input (mem (toy_run [Op (OEnsureWorkspaceShare "ws" "sh")])) with
  | Some (d, _, _, code) => code = false /\ CreateInvitation "home" toy_again 200 toy_input d = None
  | None => False
  end.
Proof. vm_compute. split; reflexivity. Qed.

(** A peer the migration left unverified proves the key it was invited for, and is refused:
    its device is of another principal. *)
Lemma legacy_peer_never_joins :
  let migrated := migrated [("owner", ("Ann", true)); ("old-bob", ("Bob", false))] [("peer", ("old-bob", ("laptop", None)))] in
  match run toy_sum toy_hex "home" migrated toy_joined with
  | Some s => length (proofs s) = 1%nat /\ resolved s "peer" = None /\ threads s = [Ended]
  | None => False
  end.
Proof. vm_compute. split_and!; reflexivity. Qed.

(** The policy is asked about the visibility that was read; a task its owner makes private
    meanwhile is widened again, with no approval. *)
Lemma widening_unapproved :
  let shared := toy_shared ++ [Op (OSetTaskVisibility (toy_change "workspace" []));
                               Op (OPutPolicy "sh" {| DefaultVisibility := "private"; AgentVisibilityCeiling := "workspace"; WideningRequiresApproval := true;
                                                      EgressProfile := "task-safe-v1"; UpdatedBy := "owner" |} false);
                               SetVisibility "ws" "t" "workspace" []] ++ repeat (Step 1 toy_answers) 5 in
  Visibility <$> tasks (toy_mem (shared ++ [Op (OSetTaskVisibility (toy_change "private" []))])) !! "t" = Some "private" /\
  Visibility <$> tasks (toy_mem (shared ++ [Op (OSetTaskVisibility (toy_change "private" [])); Step 1 toy_answers])) !! "t" = Some "workspace".
Proof. split; vm_compute; reflexivity. Qed.
